(* ===== verification/_CoqProject ===== *)
-Q . S2P
Prelude.v
ComStack.v
CanTpTypes.v
CanTpPrv.v
CanTpFrames.v
CanTpChan.v
CanTp.v
CanTpInv.v
CanTpSafe.v
CanTpSafeState.v
CanTpSafeRx.v
CanTpSafety.v
CanTpProps.v
CanTpSeg.v
CanTpSender.v
CanTpReceiver.v
CanTpTxSim.v
CanTpTxRef.v
CanTpTxClaims.v
CanTpRxSim.v
CanTpRxRef.v
CanTpRxClaims.v
CanTpStuck.v
PduR.v
CanIf.v
CanIfCalls.v
CanIfClaims.v
Spi.v
SpiClaims.v
Bridge.v
BridgeClaims.v
XlConsole.v
ElTime.v
CanNm.v
CanNmSpec.v
CanNmRef.v
CanNmClaims.v
TxAncStatus.v
ImcTp.v
ImcTpSafe.v
ImcTpClaims.v
ImcCom.v
ImcComClaims.v
AnchorTypes.v
AnchorTx.v
AnchorRx.v
AnchorFoc.v
AnchorSend.v
AnchorRecv.v
AnchorAuth.v
AnchorClaims.v
UdsTypes.v
UdsCore.v
UdsSpec.v
UdsBase.v
UdsRef.v
UdsClaims.v
Protothread.v
CanSpi.v
CanSpiInv.v
CanSpiClaims.v
TcanTypes.v
TcanSpi.v
TcanMCan.v
TcanTraffic.v
Tcan.v
TcanMode.v
TcanExample.v
TcanClaims.v
TcanLink.v
TcanLinkClaims.v
TcanFifo.v
TcanSend.v
TcanWrite.v
TcanRoundTrip.v
TcanConfirm.v
TcanIsr.v
TcanRam.v
TcanStart.v
TcanStack.v
