(* ===== verification/Prelude.v ===== *)
(** * Verification of the anchor communication software

    ** The program

    The repository builds a virtual CAN node.  The application software of a vehicle-access
    anchor (src/Software_CC2642, AUTOSAR-style C) runs on an emulated board; its SPI bytes
    leave the emulator through a modified SPI device (src/source_QEMU/stm32f2xx_spi.c)
    and reach a real CAN bus through a bridge program on the host
    (src/source_XL-Driver/src/xlSPICAN.c).  The parts and how they call each other:
    - CanIf (CanIf.c, CanIf_Cbk.c) stands between the CAN driver and the upper layers: it maps
      PDU and CAN identifiers, gates transmissions by controller mode and supply, and
      keeps a flag per frame whose confirmation is pending;
    - CanTp (CanTp.c, CanTp_Prv.c, CanTp_Prv.h, CanTp_Types.h) segments and reassembles long
      messages with flow control (ISO 15765-2), above CanIf and below PduR;
    - PduR (PduR.c, PduR_Tp.c) routes every call by tables of function pointers;
    - CanNm (CanNm.c) is the network management state machine with its timers and NM
      messages; rbdTxAncStatus (rbdTxAncStatus.c) sends the anchor status while it is up;
    - rbdImc (rbdImc.c, rbdImc_PduR.c, rbdImc_PduRTp.c, rbdImc_Ping.c, rbdImcRte.c) carries messages
      to a second microcontroller, directly or cut into packets, and times the link;
    - rbdAnchorCom (rbdAnchorCom.c, rbdAnchorComTp.c) sends and receives the secure messages
      between anchors and master above PduR: they are queued per peer, padded, encrypted
      and authenticated on the way out, verified and decrypted on the way in;
    - rbUds_Core (rbUds_Core.c) answers diagnostic requests (ISO 14229) that the transport
      layer hands it: a table of services, "response pending" for slow ones, session timer;
    - Can_44_TCAN4x5x (Can_44_TCAN4x5x.c, Can_44_TCAN4x5x_MCan.c, Can_44_TCAN4x5x_Irq.c) is the CAN
      driver below CanIf: it reaches the registers and the message RAM of the controller chip
      by SPI transfers, fills Tx buffers, empties receive FIFOs, Rx buffers and the event
      FIFO, and changes the mode of the controller, from tasks and from an interrupt;
    - CanSpi (CanSpi.c) brings up the CAN controller chip over SPI, polls its health, resets
      it and puts it to sleep, as a cooperative thread; it stops and starts CanIf and the driver;
    - the SPI device parses frames out of the bytes written to its data register and
      forwards complete ones to a socket, from which the bridge (listen_uart) reads
      them, checks them and sends their payload in CAN messages.

    ** How it is modelled

    A C function is a Rocq function in the monad [M] below: it passes the module state
    and fails where C gives no meaning to an execution (an index out of range, a NULL
    dereference, a division by zero).  [wp] is total: a theorem with [wp], or of the form
    "the call is [Some]", says that the call returns.  Integers are in [Z] with the
    conversions of the C types written out; loops run over the counts of the code, and the two
    that have none over a bound on their turns that is justified below.  The calls a module makes to its neighbours are recorded in a trace
    in the order they are made.  Code that is not in the repository is a type class of
    operations, with the behaviour relied on as a class of laws or named hypotheses; every
    theorem that assumes such laws is applied to a concrete instance in its witness.
    Compile-time switches of absent configuration headers are fields of such classes, so
    that the theorems hold for every build.

    CanSpi.c is written with protothread macros.  A thread is an interaction tree (library
    ITree) of atomic pieces in [M] and yields; its execution is a step relation in which the
    rest of the program acts at every yield, within a rely relation, and a step-indexed
    program logic for it makes loops without end provable by plain induction.

    The driver sees the chip through one operation of its environment, an SPI transfer.  Its
    theorems on traffic are proved against an interface (class [TcanChip]: registers with read
    and write, a link that may fail but recovers within the configured retries), its FIFO
    theorems against laws of the chip's FIFOs ([fifo_laws]); an executable chip with message
    RAM, FIFOs and a link that fails now and then satisfies both.  The interrupt handler is a
    function of its own, so that it can be run between the pieces of a task.

    ** The files

    - Prelude: this file, the monad, arrays, proof automation, words and byte orders; ComStack:
      AUTOSAR types; ElTime: the timer interface with its laws and an instance.
    - CanTp: CanTpTypes (data, tables, configuration, primitives), CanTpPrv (inline functions),
      CanTpFrames, CanTpChan (frames and state functions of CanTp_Prv.c), CanTp (services of
      CanTp.c).  CanTpInv holds the symbolic execution of one channel and the invariant; CanTpSafe,
      CanTpSafeState, CanTpSafeRx, CanTpSafety and CanTpProps show that every reachable state is safe,
      the last with a configuration that runs.  CanTpSeg is the segmentation of ISO 15765-2;
      CanTpSender and CanTpReceiver are abstract machines for the two roles and what they promise;
      CanTpTxSim, CanTpTxRef, CanTpRxSim and CanTpRxRef are the simulations; CanTpTxClaims,
      CanTpRxClaims and CanTpStuck the resulting theorems.
    - PduR: the router, its specification as a look-up, and CanTp above it.
    - CanIf, CanIfCalls, CanIfClaims: the interface, clients that may call back, sequences of
      calls.
    - The driver: TcanTypes (data, configuration, registers), TcanSpi (the SPI access functions),
      TcanMCan (modes, bit timing, filters, message RAM, initialisation of Can_44_TCAN4x5x_MCan.c),
      TcanTraffic (reception, confirmation, bus-off, interrupt and transmission of that file and of
      Can_44_TCAN4x5x_Irq.c), Tcan (the services of Can_44_TCAN4x5x.c).  TcanMode and TcanClaims: which
      functions tell CanIf what, along runs of the module.  TcanLink and TcanLinkClaims: the chip as
      an interface and the SPI functions as register accesses; TcanExample: the executable chip.
      TcanFifo, TcanSend and TcanWrite: symbolic execution of one controller, what a queue element and
      a Tx element mean; TcanRoundTrip, TcanConfirm, TcanIsr, TcanRam and TcanStart: the theorems on
      frames, confirmations, interrupts and tasks, message RAM and buffers, and starting;
      TcanStack: CanIf over the driver.
    - CanNm, CanNmSpec, CanNmRef, CanNmClaims: the module, a timed automaton, the refinement.
    - TxAncStatus: the status message beside CanNm.
    - ImcTp, ImcTpSafe, ImcTpClaims: the transport protocol of rbdImc; ImcCom, ImcComClaims: its other
      parts, around the transport protocol.
    - AnchorTypes, AnchorTx, AnchorRx: data, transmission and reception of rbdAnchorCom for its
      three builds; AnchorFoc: symbolic execution of one peer's message; AnchorSend, AnchorRecv: one
      message from the request to the wire and from the wire to the application; AnchorAuth: the
      invariant behind authenticity; AnchorClaims.
    - UdsTypes, UdsCore: data and functions of rbUds_Core; UdsSpec: the exchange automaton, its
      abstract specification; UdsBase, UdsRef: the simulation, for leaf functions, the twelve
      service filters, requests and the cyclic task; UdsClaims.
    - Protothread: threads, their execution and their logic; CanSpi: the module; CanSpiInv: its
      sub-threads and the invariant of the thread; CanSpiClaims: runs with a chip that answers and
      with one that does not, and the theorems.
    - Spi, SpiClaims: the emulated SPI device; Bridge, BridgeClaims: the bridge, alone and behind
      the device; XlConsole: the program around the bridge, with its start, its keyboard commands
      and its threads.

    ** What the theorems show

    - Safety: from static memory no sequence of calls of CanTp, CanIf, CanNm or the rbdImc
      transport protocol, or of the diagnostic core, leaves the tables, dereferences NULL or
      divides by zero ([CanTp_reachable_safe], [canif_confirmations_paired], [cannm_refines],
      [imctp_defined], [uds_refines]).  What the diagnostic core sends for each call is
      [uds_exchanges].
      No message of a peer whose messages do not pass verification is delivered
      ([anchor_unverified_not_delivered]; its statement is about the runs that are defined).
      The interrupt handler of the driver leaves header and data of every transfer of a task it
      interrupts as they are; with the wait variant of the read command it does overwrite the
      last, unused word of the receive buffer of the task ([tcan_isr_isolated]).  The mutex of a
      transmit object admits one task ([tcan_write_exclusive]; both are about the runs that are
      defined).
    - Refinement: a CanTp transmission and reception are, call by call, those of the
      abstract sender and receiver, time-outs included; CanNm is its timed automaton; the
      diagnostic core is an automaton of exchanges; PduR is a look-up; the SPI functions of the
      driver are reads and writes of the chip's registers ([tcan_register_access]).  The
      CanTp refinements assume that the other channels are idle, that CanIf accepts the frames and
      that the upper layer supplies the data or has room for it.  From these
      follow that what goes over the bus is a prefix of the segmentation, that there is exactly
      one confirmation or indication, positive only for a complete message, that a requested
      network stays awake and a released one, with nothing received and the bus online, sleeps in
      bounded time.
    - Invariants: at every yield of the CanSpi thread a module that reports ready has brought
      the chip up, and every reset is a complete pulse ([canspi_ready_means_up],
      [canspi_reset_pulse]); the control block of the diagnostic core is well-formed
      ([uds_control_block_wf]); the mode the driver keeps is the one CanIf was told last
      since the last accepted initialisation, STOPPED before ([tcan_mode_reported]).
    - Bounds: the areas of the message RAM do not overlap and hold every element the driver
      addresses ([tcan_message_ram]).
    - Functional behaviour, among others: when CanIf lets a frame through, what the health check
      of the chip decides from its registers, when the status message is sent (only with a valid CAN index), what a transmit
      request leaves in the chip through CanIf and the driver ([canif_transmit_on_bus]), which
      confirmations the event FIFO gives ([tcan_events_confirmed]).
    - Round trips: a message through CanTp of two nodes, through the rbdImc link, through
      encryption and authentication of rbdAnchorCom and back, a frame from Write of one driver to
      the indication of another, and frames from the SPI data register to the CAN bus.
    - Equivalence: when sender and receiver of an anchor message compute the same channel
      identifier ([anchor_chanid_agree]).
    - Liveness and termination: with a cooperating peer a transmission completes; a released
      network sleeps; a ping test over a link that accepts its messages ends after the packets it
      was asked for; no diagnostic exchange whose last message is confirmed stays open beyond its
      limit; a chip that answers is brought up by the first call of the thread; the loop the Rx buffers of the chip ends ([tcan_rx_buffers]).
    - Error behaviour: theorems whose names end in [_stuck], [_lost], [_race], [_wraps],
      [_overflows], [_blocks], [_starved], [_skipped], [_overwritten] and the like state where the code does not do what it means to.

    ** Bounds

    Lengths and counters have the width of the C types.  The rbdImc round trip is for
    messages of at most 255 packets, because the code's packet counter has eight bits
    (the theorem on its wrap-around shows that the limit is the code's).  The SPI theorems
    bound the length byte by 252, the bridge theorems by what the code splits
    correctly; both limits are shown to be sharp by the corresponding error theorems.  The
    socket of the bridge is assumed to serve every read in full ([Socket]), because the code
    drops a frame otherwise ([bridge_partial_recv_drops]).
    The rbdAnchorCom round trip takes the field lengths the comments of the code give,
    because the header that defines them is not in the repository, and messages shorter
    than 4096 bytes, more than any buffer of the code.  The reset pulse of the CAN chip is
    shown long enough for CPU clocks of 1 to 107 MHz, where the code's 32-bit product does not
    overflow.  In the driver the SPI retry loop runs at most 256 times, because its counter has
    eight bits and the limit is below 255 ([config_ok]; with 255 the code loops for ever on a
    dead link), and the loop over the Rx buffers at most 64 times, once per flag; both are shown
    to be enough, since the theorems say that the calls return.  A transfer has at most 18 words
    (two of an element and 64 bytes), and the message RAM has 2 KB.
    The thread logic counts steps, so its theorems hold for executions of any length.

    ** Not modelled

    The test messages and asynchronous cryptography of rbdAnchorCom, the loop-back, FPGA and
    GPIO interrupt variants and the log output of the driver, what the bridge prints, the object-model
    glue of the SPI device, the other Vector demo programs and QEMU itself, which are vendor or
    third-party code.  The service handlers of the diagnostic core are not in the repository
    and are assumed not to call back into it; Mcu_PerformReset is modelled as a call that
    returns.  The header pt.h is not in the repository either: its macros are read as the
    comments of CanSpi.c describe them.  Interrupts that preempt a function are modelled only where a
    theorem says so ([canif_confirmation_race], [tcan_isr_isolated], [tcan_write_exclusive]); calls
    are otherwise atomic.  The chip is known by its documented register protocol only; when it
    sends a frame and what the bus does with it is up to the chip.

    ** Prelude

    What every component file shares: the fixed-width integers of the C code,
    C arrays as lists with checked access, the state-and-failure monad in which
    the C functions are written, its weakest-precondition calculus with the
    proof automation built on it, and the generic list and arithmetic lemmas. *)

From Stdlib Require Import ZArith Lia.
From stdpp Require Import base list numbers option.

#[local] Open Scope Z_scope.

(** ** Fixed-width unsigned integers

    A C value of an unsigned w-bit type is a [Z]; a conversion to the type is
    the reduction modulo 2^w. *)

Definition u8 (z : Z) : Z := z mod 256.
Definition u16 (z : Z) : Z := z mod 65536.
Definition u32 (z : Z) : Z := z mod 4294967296.
Definition uw (bits : Z) (z : Z) : Z := z mod 2 ^ bits.

Lemma u8_small z : 0 ≤ z < 256 → u8 z = z.
Proof. apply Z.mod_small. Qed.
Lemma u16_small z : 0 ≤ z < 65536 → u16 z = z.
Proof. apply Z.mod_small. Qed.
Lemma u32_small z : 0 ≤ z < 4294967296 → u32 z = z.
Proof. apply Z.mod_small. Qed.
Lemma uw_small b z : 0 ≤ z < 2 ^ b → uw b z = z.
Proof. apply Z.mod_small. Qed.
Lemma u8_bound z : 0 ≤ u8 z < 256.
Proof. apply Z.mod_pos_bound; lia. Qed.
Lemma u16_bound z : 0 ≤ u16 z < 65536.
Proof. apply Z.mod_pos_bound; lia. Qed.
Lemma u32_bound z : 0 ≤ u32 z < 4294967296.
Proof. apply Z.mod_pos_bound; lia. Qed.
Lemma uw_bound b z : 0 ≤ b → 0 ≤ uw b z < 2 ^ b.
Proof. intros; apply Z.mod_pos_bound, Z.pow_pos_nonneg; lia. Qed.

(** [Z.land] with the low-nibble mask is the remainder modulo 16. *)
Lemma land_15 z : Z.land z 15 = z mod 16.
Proof. change 15 with (Z.ones 4). by rewrite Z.land_ones by lia. Qed.

Lemma land_0xFF z : Z.land z 255 = z mod 256.
Proof. change 255 with (Z.ones 8). by rewrite Z.land_ones by lia. Qed.

Lemma shiftr_4 z : Z.shiftr z 4 = z / 16.
Proof. by rewrite Z.shiftr_div_pow2 by lia. Qed.

Definition byte_ok (z : Z) : Prop := 0 ≤ z < 256.

(** ** C arrays

    An array is a list.  Reading or writing outside it has no defined result in
    C: [aget] and [aset] answer [None], and the monad below turns that into
    failure. *)

Definition aget {A} (l : list A) (i : Z) : option A :=
  if decide (0 ≤ i) then l !! Z.to_nat i else None.

Definition aset {A} (l : list A) (i : Z) (x : A) : option (list A) :=
  if decide (0 ≤ i < Z.of_nat (length l)) then Some (<[Z.to_nat i := x]> l) else None.

(** [len] elements of [l] from index [off]. *)
Definition aslice {A} (l : list A) (off len : Z) : option (list A) :=
  if decide (0 ≤ off ∧ 0 ≤ len ∧ off + len ≤ Z.of_nat (length l))
  then Some (take (Z.to_nat len) (drop (Z.to_nat off) l)) else None.

(** Store the elements of [xs] at indices [off], [off+1], ... *)
Definition awrite {A} (l : list A) (off : Z) (xs : list A) : option (list A) :=
  if decide (0 ≤ off ∧ off + Z.of_nat (length xs) ≤ Z.of_nat (length l))
  then Some (take (Z.to_nat off) l ++ xs ++ drop (Z.to_nat off + length xs) l)
  else None.

Definition lenZ {A} (l : list A) : Z := Z.of_nat (length l).

Section arrays.
Context {A : Type}.
Implicit Types (l xs : list A) (i off len : Z).

Lemma lenZ_nonneg l : 0 ≤ lenZ l.
Proof. unfold lenZ; lia. Qed.

Lemma lenZ_app l xs : lenZ (l ++ xs) = lenZ l + lenZ xs.
Proof. unfold lenZ. rewrite length_app. lia. Qed.

Lemma lenZ_nil : lenZ (@nil A) = 0.
Proof. done. Qed.

Lemma lenZ_cons x l : lenZ (x :: l) = 1 + lenZ l.
Proof. unfold lenZ; cbn [length]. lia. Qed.

Lemma aget_is_Some l i : 0 ≤ i < lenZ l → ∃ x, aget l i = Some x.
Proof.
  unfold aget, lenZ. intros. rewrite decide_True by lia.
  apply lookup_lt_is_Some_2. lia.
Qed.

Lemma aget_Some l i x : aget l i = Some x → 0 ≤ i < lenZ l.
Proof.
  unfold aget, lenZ. case_decide; [|done]. intros ?%lookup_lt_Some. lia.
Qed.

Lemma aget_elem l i x : aget l i = Some x → x ∈ l.
Proof.
  unfold aget. case_decide; [|done]. intros ?%list_elem_of_lookup_2. done.
Qed.

Lemma aset_is_Some l i x : 0 ≤ i < lenZ l → aset l i x = Some (<[Z.to_nat i := x]> l).
Proof. unfold aset, lenZ. intros. by rewrite decide_True by lia. Qed.

Lemma aset_Some l i x l' :
  aset l i x = Some l' → 0 ≤ i < lenZ l ∧ l' = <[Z.to_nat i := x]> l.
Proof. unfold aset, lenZ. case_decide; [|done]. intros [= <-]. done. Qed.

Lemma aset_length l i x l' : aset l i x = Some l' → length l' = length l.
Proof. intros [_ ->]%aset_Some. apply length_insert. Qed.

Lemma aget_insert_eq l i x : 0 ≤ i < lenZ l → aget (<[Z.to_nat i := x]> l) i = Some x.
Proof.
  unfold aget, lenZ. intros. rewrite decide_True by lia.
  apply list_lookup_insert_eq. lia.
Qed.

Lemma aget_insert_ne l i j x :
  0 ≤ i → i ≠ j → aget (<[Z.to_nat i := x]> l) j = aget l j.
Proof.
  unfold aget. intros. case_decide; [|done]. apply list_lookup_insert_ne. lia.
Qed.

Lemma aget_insert l i j x :
  0 ≤ i < lenZ l →
  aget (<[Z.to_nat i := x]> l) j = if decide (i = j) then Some x else aget l j.
Proof.
  intros. case_decide; subst; [by apply aget_insert_eq | by apply aget_insert_ne; lia].
Qed.

Lemma lenZ_insert l (i : nat) x : lenZ (<[i := x]> l) = lenZ l.
Proof. unfold lenZ. by rewrite length_insert. Qed.

Lemma aslice_Some l off len xs :
  aslice l off len = Some xs →
  0 ≤ off ∧ 0 ≤ len ∧ off + len ≤ lenZ l ∧ lenZ xs = len.
Proof.
  unfold aslice, lenZ. case_decide as H; [|done]. intros [= <-].
  rewrite length_take, length_drop. lia.
Qed.

Lemma aslice_is_Some l off len :
  0 ≤ off → 0 ≤ len → off + len ≤ lenZ l →
  aslice l off len = Some (take (Z.to_nat len) (drop (Z.to_nat off) l)).
Proof. unfold aslice, lenZ. intros. by rewrite decide_True by lia. Qed.

Lemma aslice_app l1 l2 l3 off len :
  off = lenZ l1 → len = lenZ l2 → aslice (l1 ++ l2 ++ l3) off len = Some l2.
Proof.
  intros -> ->. rewrite aslice_is_Some by (rewrite ?lenZ_app; unfold lenZ; lia).
  unfold lenZ. rewrite !Nat2Z.id. by rewrite drop_app_length, take_app_length.
Qed.

Lemma awrite_is_Some l off xs :
  0 ≤ off → off + lenZ xs ≤ lenZ l →
  awrite l off xs = Some (take (Z.to_nat off) l ++ xs ++ drop (Z.to_nat off + length xs) l).
Proof. unfold awrite, lenZ. intros. by rewrite decide_True by lia. Qed.

Lemma awrite_length l off xs l' : awrite l off xs = Some l' → length l' = length l.
Proof.
  unfold awrite. case_decide as H; [|done]. intros [= <-].
  rewrite !length_app, length_take, length_drop. lia.
Qed.

Lemma aget_awrite l off xs l' j :
  awrite l off xs = Some l' → aget l' j = if decide (off ≤ j < off + lenZ xs) then aget xs (j - off) else aget l j.
Proof.
  unfold awrite, lenZ. case_decide as H; [|done]. intros [= <-]. unfold aget.
  destruct (decide (0 ≤ j)); [|by case_decide; [lia|]].
  destruct (decide (j < off)).
  { rewrite (decide_False (P := off ≤ j < _)), lookup_app_l, lookup_take_lt by (rewrite ?length_take; lia). done. }
  rewrite lookup_app_r, length_take, Nat.min_l by (rewrite ?length_take; lia). destruct (decide (j < off + Z.of_nat (length xs))).
  { rewrite (decide_True (P := off ≤ j < _)), lookup_app_l, decide_True by lia. f_equal. lia. }
  rewrite (decide_False (P := off ≤ j < _)), lookup_app_r, lookup_drop by lia. f_equal. lia.
Qed.

Lemma awrite_Some l off xs l' : awrite l off xs = Some l' → 0 ≤ off ∧ off + lenZ xs ≤ lenZ l ∧ lenZ l' = lenZ l.
Proof.
  intros H. pose proof (awrite_length _ _ _ _ H). unfold awrite, lenZ in *. case_decide; [|done]. lia.
Qed.

Lemma aget_aslice l off len xs j : aslice l off len = Some xs → 0 ≤ j < len → aget xs j = aget l (off + j).
Proof.
  unfold aslice. case_decide as H; [|done]. intros [= <-] Hj. unfold aget. rewrite !decide_True by lia.
  rewrite lookup_take_lt, lookup_drop by lia. f_equal. lia.
Qed.

Lemma aslice_aget l off len xs :
  0 ≤ off → lenZ xs = len → off + len ≤ lenZ l → (∀ j, 0 ≤ j < len → aget l (off + j) = aget xs j) → aslice l off len = Some xs.
Proof.
  intros Hoff <- Hl Hj. rewrite aslice_is_Some by (unfold lenZ in *; lia). f_equal. apply list_eq_same_length with (n := length xs); [done| |].
  { unfold lenZ in *. rewrite length_take, length_drop. lia. }
  intros i x y Hi Hx Hy. assert (aget l (off + Z.of_nat i) = Some x) as E.
  { unfold aget. rewrite decide_True by lia. unfold lenZ in *. rewrite lookup_take_lt, lookup_drop in Hx by lia. rewrite <-Hx. f_equal. lia. }
  rewrite Hj in E by (unfold lenZ; lia). unfold aget in E. rewrite decide_True, Nat2Z.id in E by lia. congruence.
Qed.

Lemma aslice_awrite_eq l off xs l' : awrite l off xs = Some l' → aslice l' off (lenZ xs) = Some xs.
Proof.
  intros H. pose proof (awrite_Some _ _ _ _ H). apply aslice_aget; [lia | done | lia|]. intros j Hj.
  rewrite (aget_awrite _ _ _ _ _ H), decide_True by lia. f_equal. lia.
Qed.

Lemma aslice_sub l off len xs off' len' :
  aslice l off len = Some xs → off ≤ off' → 0 ≤ len' → off' + len' ≤ off + len →
  aslice l off' len' = aslice xs (off' - off) len'.
Proof.
  intros H H1 H2 H3. pose proof (aslice_Some _ _ _ _ H) as (? & ? & ? & ?).
  rewrite (aslice_is_Some xs) by lia. apply aslice_aget; [lia | unfold lenZ in *; rewrite length_take, length_drop; lia | lia|].
  intros j Hj. rewrite (aget_aslice xs (off' - off) len' _ j), (aget_aslice _ _ _ _ _ H) by (done || lia || by apply aslice_is_Some; lia). f_equal. lia.
Qed.

Lemma aslice_frame l l' off len :
  lenZ l' = lenZ l → (∀ j, off ≤ j < off + len → aget l' j = aget l j) → aslice l' off len = aslice l off len.
Proof.
  intros HL Hj. destruct (aslice l off len) as [xs|] eqn:E.
  - pose proof (aslice_Some _ _ _ _ E) as (? & ? & ? & ?). apply aslice_aget; [lia | done | lia|]. intros j Hb.
    rewrite Hj by lia. symmetry. by apply aget_aslice with (1 := E).
  - unfold aslice, lenZ in *. case_decide; [done|]. rewrite decide_False by lia. done.
Qed.
End arrays.

Lemma lenZ_replicate {A} n (x : A) : 0 ≤ n → lenZ (replicate (Z.to_nat n) x) = n.
Proof. unfold lenZ. rewrite length_replicate. lia. Qed.

(** Overwriting the middle of a buffer. *)
Lemma awrite_mid {A} (x y z d : list A) off :
  off = lenZ x → lenZ d = lenZ y → awrite (x ++ y ++ z) off d = Some (x ++ d ++ z).
Proof.
  intros -> Hd. rewrite awrite_is_Some by (rewrite ?lenZ_app; unfold lenZ in *; lia).
  unfold lenZ in *. rewrite Nat2Z.id, take_app_length. do 3 f_equal.
  rewrite <-drop_drop, drop_app_length. replace (length d) with (length y) by lia. by rewrite drop_app_length.
Qed.

Lemma Forall_aget {A} (P : A → Prop) l i x : Forall P l → aget l i = Some x → P x.
Proof. intros HF Hx%aget_elem. by eapply Forall_forall; [|apply list_elem_of_In]. Qed.

(** ** The monad of the C functions

    [M S A] is a function of the module state [S] that may fail: failure stands
    for the executions to which C gives no meaning (an index outside an array,
    a NULL dereference, a division by zero). *)

Definition M (S A : Type) : Type := S → option (A * S).

#[global] Instance M_ret {S} : MRet (M S) := λ A a s, Some (a, s).
#[global] Instance M_bind {S} : MBind (M S) := λ A B k m s,
  match m s with Some (a, s') => k a s' | None => None end.

Definition ub {S A} : M S A := λ _, None.
Definition gets {S A} (f : S → A) : M S A := λ s, Some (f s, s).
Definition modify {S} (f : S → S) : M S unit := λ s, Some (tt, f s).
Definition lift {S A} (o : option A) : M S A := λ s, (λ a, (a, s)) <$> o.

(** Run [m] when [b] holds. *)
Definition when {S} (b : bool) (m : M S unit) : M S unit := if b then m else mret tt.

(** The loop [for (i = i0; i < i0 + n; i++) body(i)]. *)
Fixpoint mfor {S} (n : nat) (i0 : Z) (body : Z → M S unit) : M S unit :=
  match n with
  | O => mret tt
  | Datatypes.S n => body i0;; mfor n (i0 + 1) body
  end.

(** ** Weakest preconditions

    [wp m Q s]: running [m] from [s] has a defined result, and [Q] holds of the
    value and the state it ends with. *)

Definition wp {S A} (m : M S A) (Q : A → S → Prop) (s : S) : Prop :=
  match m s with Some (a, s') => Q a s' | None => False end.

Section wp.
Context {S : Type}.

Lemma wp_ret {A} (a : A) (Q : A → S → Prop) s : Q a s → wp (mret a) Q s.
Proof. done. Qed.

Lemma wp_bind {A B} (m : M S A) (k : A → M S B) Q s :
  wp m (λ a, wp (k a) Q) s → wp (m ≫= k) Q s.
Proof. unfold wp, mbind, M_bind. by destruct (m s) as [[a s']|]. Qed.

Lemma wp_bind_inv {A B} (m : M S A) (k : A → M S B) Q s :
  wp (m ≫= k) Q s → wp m (λ a, wp (k a) Q) s.
Proof. unfold wp, mbind, M_bind. by destruct (m s) as [[a s']|]. Qed.

Lemma wp_gets {A} (f : S → A) Q s : Q (f s) s → wp (gets f) Q s.
Proof. done. Qed.

Lemma wp_modify (f : S → S) Q s : Q tt (f s) → wp (modify f) Q s.
Proof. done. Qed.

Lemma wp_lift {A} (o : option A) (a : A) (Q : A → S → Prop) s : o = Some a → Q a s → wp (lift o) Q s.
Proof. by intros ->. Qed.

Lemma wp_mono {A} (m : M S A) (P Q : A → S → Prop) s :
  wp m P s → (∀ a s', P a s' → Q a s') → wp m Q s.
Proof. unfold wp. destruct (m s) as [[a s']|]; auto. Qed.

(** A computation has one result. *)
Lemma wp_and {A} (m : M S A) (P Q : A → S → Prop) s : wp m P s → wp m Q s → wp m (λ a s', P a s' ∧ Q a s') s.
Proof. unfold wp. by destruct (m s) as [[a s']|]. Qed.

(** Cut at a computation that leaves the state as it is. *)
Lemma wp_pure {A} (m : M S A) (P : A → Prop) (Q : A → S → Prop) s :
  wp m (λ a s', P a ∧ s' = s) s → (∀ a, P a → Q a s) → wp m Q s.
Proof. intros Hm HQ. apply wp_mono with (1 := Hm). intros a s' [? ->]. auto. Qed.

Lemma wp_when b (m : M S unit) Q s :
  (b = true → wp m Q s) → (b = false → Q tt s) → wp (when b m) Q s.
Proof. destruct b; unfold when; [auto | intros _ H; by apply wp_ret, H]. Qed.

Lemma wp_if {A} (b : bool) (m1 m2 : M S A) Q s :
  (b = true → wp m1 Q s) → (b = false → wp m2 Q s) → wp (if b then m1 else m2) Q s.
Proof. destruct b; auto. Qed.

Lemma wp_eq {A} (m : M S A) Q s a s' : m s = Some (a, s') → wp m Q s ↔ Q a s'.
Proof. unfold wp. by intros ->. Qed.

Lemma wp_run {A} (m : M S A) Q s : wp m Q s → ∃ a s', m s = Some (a, s') ∧ Q a s'.
Proof. unfold wp. destruct (m s) as [[a s']|]; [eauto | done]. Qed.

(** An invariant of the body is an invariant of the loop. *)
Lemma wp_mfor n i0 (body : Z → M S unit) (I : Z → S → Prop) s :
  I i0 s →
  (∀ i s', i0 ≤ i < i0 + Z.of_nat n → I i s' → wp (body i) (λ _, I (i + 1)) s') →
  wp (mfor n i0 body) (λ _, I (i0 + Z.of_nat n)) s.
Proof.
  revert i0 s. induction n as [|n IH]; intros i0 s Hs Hbody; cbn [mfor].
  - apply wp_ret. by rewrite Z.add_0_r.
  - apply wp_bind. eapply wp_mono; [apply Hbody; [lia | done]|].
    intros [] s1 H1. replace (i0 + Z.of_nat (Datatypes.S n)) with (i0 + 1 + Z.of_nat n) by lia.
    apply IH; [done|]. intros i s' Hi. apply Hbody. lia.
Qed.
End wp.

(** ** Partial correctness

    [wlp m Q s]: if running [m] from [s] has a defined result, [Q] holds of it.  Together
    with [wp] it splits a proof into definedness and what is preserved. *)

Definition wlp {S A} (m : M S A) (Q : A → S → Prop) (s : S) : Prop :=
  match m s with Some (a, s') => Q a s' | None => True end.

Section wlp.
Context {S : Type}.

Lemma wp_wlp {A} (m : M S A) P Q s : wp m P s → wlp m Q s → wp m (λ a s', P a s' ∧ Q a s') s.
Proof. unfold wp, wlp. by destruct (m s) as [[a s']|]. Qed.
Lemma wlp_of_wp {A} (m : M S A) Q s : wp m Q s → wlp m Q s.
Proof. unfold wp, wlp. by destruct (m s) as [[a s']|]. Qed.
Lemma wlp_ret {A} (a : A) (Q : A → S → Prop) s : Q a s → wlp (mret a) Q s.
Proof. done. Qed.
Lemma wlp_bind {A B} (m : M S A) (k : A → M S B) Q s : wlp m (λ a, wlp (k a) Q) s → wlp (m ≫= k) Q s.
Proof. unfold wlp, mbind, M_bind. by destruct (m s) as [[a s']|]. Qed.
Lemma wlp_bind_inv {A B} (m : M S A) (k : A → M S B) Q s : wlp (m ≫= k) Q s → wlp m (λ a, wlp (k a) Q) s.
Proof. unfold wlp, mbind, M_bind. by destruct (m s) as [[a s']|]. Qed.
Lemma wlp_ret_inv {A} (a : A) (Q : A → S → Prop) s : wlp (mret a) Q s → Q a s.
Proof. done. Qed.
Lemma wlp_gets {A} (f : S → A) Q s : Q (f s) s → wlp (gets f) Q s.
Proof. done. Qed.
Lemma wlp_modify (f : S → S) Q s : Q tt (f s) → wlp (modify f) Q s.
Proof. done. Qed.
Lemma wlp_lift {A} (o : option A) (Q : A → S → Prop) s : (∀ a, o = Some a → Q a s) → wlp (lift o) Q s.
Proof. unfold wlp, lift. destruct o; cbn; auto. Qed.
Lemma wlp_ub {A} (Q : A → S → Prop) s : wlp ub Q s.
Proof. done. Qed.
Lemma wlp_mono {A} (m : M S A) (P Q : A → S → Prop) s :
  wlp m P s → (∀ a s', P a s' → Q a s') → wlp m Q s.
Proof. unfold wlp. destruct (m s) as [[a s']|]; auto. Qed.
Lemma wlp_true {A} (m : M S A) s : wlp m (λ _ _, True) s.
Proof. unfold wlp. by destruct (m s) as [[a s']|]. Qed.
Lemma wlp_and {A} (m : M S A) (P Q : A → S → Prop) s : wlp m P s → wlp m Q s → wlp m (λ a s', P a s' ∧ Q a s') s.
Proof. unfold wlp. by destruct (m s) as [[a s']|]. Qed.
Lemma wlp_when b (m : M S unit) Q s : (b = true → wlp m Q s) → (b = false → Q tt s) → wlp (when b m) Q s.
Proof. destruct b; unfold when; [auto | intros _ H; by apply wlp_ret, H]. Qed.
Lemma wlp_if {A} (b : bool) (m1 m2 : M S A) Q s :
  (b = true → wlp m1 Q s) → (b = false → wlp m2 Q s) → wlp (if b then m1 else m2) Q s.
Proof. destruct b; auto. Qed.
Lemma wlp_mfor n i0 (body : Z → M S unit) (I : S → Prop) s :
  I s → (∀ i s', I s' → wlp (body i) (λ _, I) s') → wlp (mfor n i0 body) (λ _, I) s.
Proof.
  revert i0 s. induction n as [|n IH]; intros i0 s Hs Hb; cbn [mfor]; [by apply wlp_ret|].
  apply wlp_bind. eapply wlp_mono; [by apply Hb|]. intros [] s' Hs'. by apply IH.
Qed.
Lemma wlp_run {A} (m : M S A) Q s a s' : wlp m Q s → m s = Some (a, s') → Q a s'.
Proof. unfold wlp. intros Hw Hm. by rewrite Hm in Hw. Qed.
Lemma wlp_value {A} (m : M S A) (Q : A → S → Prop) s a s' : m s = Some (a, s') → Q a s' → wlp m Q s.
Proof. unfold wlp. by intros ->. Qed.
End wlp.

#[global] Opaque wlp.
#[global] Opaque wp.
#[global] Typeclasses Opaque M.

(** ** Automation *)

(** Boolean tests of the code as propositions [lia] and [congruence] can use. *)
Ltac bools :=
  repeat match goal with
  | H : (_ && _) = true |- _ => apply andb_true_iff in H; destruct H
  | H : (_ || _) = false |- _ => apply orb_false_iff in H; destruct H
  | H : negb _ = true |- _ => apply negb_true_iff in H
  | H : negb _ = false |- _ => apply negb_false_iff in H
  | H : (_ =? _) = true |- _ => apply Z.eqb_eq in H
  | H : (_ =? _) = false |- _ => apply Z.eqb_neq in H
  | H : (_ <? _) = true |- _ => apply Z.ltb_lt in H
  | H : (_ <? _) = false |- _ => apply Z.ltb_ge in H
  | H : (_ <=? _) = true |- _ => apply Z.leb_le in H
  | H : (_ <=? _) = false |- _ => apply Z.leb_gt in H
  end.

(** Case analysis on the first test of the goal. *)
Ltac case_test := match goal with |- context [if ?b then _ else _] => destruct b eqn:? end.

(** Case analysis on a decision the program makes. *)
Ltac wp_decide := match goal with |- wp (if decide ?P then _ else _) _ _ => destruct (decide P) end.

(** One step of symbolic execution. *)
Ltac wp_step :=
  match goal with
  | |- wp (mbind _ _) _ _ => apply wp_bind
  | |- wp (mret _) _ _ => apply wp_ret
  | |- wp (gets _) _ _ => apply wp_gets
  | |- wp (modify _) _ _ => apply wp_modify
  | |- wp (when _ _) _ _ => apply wp_when; intros ?
  | |- wp (if _ then _ else _) _ _ => apply wp_if; intros ?
  end; cbv beta.

Ltac wp_steps := repeat wp_step.

(** The same for partial correctness; table look-ups are taken to succeed. *)
Ltac wlp_step :=
  match goal with
  | |- wlp (mbind _ _) _ _ => apply wlp_bind
  | |- wlp (mret _) _ _ => apply wlp_ret
  | |- wlp (gets _) _ _ => apply wlp_gets
  | |- wlp (modify _) _ _ => apply wlp_modify
  | |- wlp (lift _) _ _ => apply wlp_lift; intros ? ?
  | |- wlp ub _ _ => apply wlp_ub
  | |- wlp (when _ _) _ _ => apply wlp_when; intros ?
  | |- wlp (if _ then _ else _) _ _ => apply wlp_if; intros ?
  | |- wlp (let '_ := ?p in _) _ _ => destruct p
  | |- wlp (match ?x with _ => _ end) _ _ => destruct x
  end; cbv beta.
Ltac wlp_steps := repeat wlp_step.

Create HintDb cstack.
Create Rewrite HintDb lenZ.
#[export] Hint Resolve u8_bound u16_bound u32_bound lenZ_nonneg : cstack.
#[export] Hint Rewrite @lenZ_app @lenZ_nil @lenZ_cons @lenZ_insert : lenZ.

(** * Words and their bytes *)

(** The bytes of a word in memory, least significant first, and back. *)
Definition le32 (x : Z) : list Z := [u8 x; u8 (Z.shiftr x 8); u8 (Z.shiftr x 16); u8 (Z.shiftr x 24)].
Definition of_le32 (l : list Z) : option Z :=
  match l with [a; b; c; d] => Some (a + Z.shiftl b 8 + Z.shiftl c 16 + Z.shiftl d 24) | _ => None end.
(** The byte swaps [__rev] and [__rev16]. *)
Definition rev32 (x : Z) : Z :=
  Z.lor (Z.lor (Z.shiftl (u8 x) 24) (Z.shiftl (u8 (Z.shiftr x 8)) 16)) (Z.lor (Z.shiftl (u8 (Z.shiftr x 16)) 8) (u8 (Z.shiftr x 24))).
Definition rev16 (x : Z) : Z := Z.lor (Z.shiftl (u8 x) 8) (u8 (Z.shiftr x 8)).

(** A register on the bus, most significant byte first. *)
Definition be32 (x : Z) : list Z := [u8 (Z.shiftr x 24); u8 (Z.shiftr x 16); u8 (Z.shiftr x 8); u8 x].

Lemma lor_shift n a b : 0 ≤ n → 0 ≤ b < 2 ^ n → Z.lor (Z.shiftl a n) b = a * 2 ^ n + b.
Proof.
  intros Hn Hb. rewrite <-(Z.shiftl_mul_pow2 a n) by done. rewrite <-Z.lxor_lor, Z.add_nocarry_lxor; [done|..].
  all: apply Z.bits_inj'; intros i Hi; rewrite Z.land_spec, Z.bits_0; destruct (Z.lt_ge_cases i n).
  1,3: by rewrite Z.shiftl_spec_low.
  all: rewrite andb_comm, <-(Z.mod_small b (2 ^ n)), Z.mod_pow2_bits_high by lia; done.
Qed.
Lemma rev32_sum x : rev32 x = u8 x * 16777216 + u8 (Z.shiftr x 8) * 65536 + u8 (Z.shiftr x 16) * 256 + u8 (Z.shiftr x 24).
Proof.
  unfold rev32. pose proof (u8_bound x). pose proof (u8_bound (Z.shiftr x 8)). pose proof (u8_bound (Z.shiftr x 16)). pose proof (u8_bound (Z.shiftr x 24)).
  change 24 with (8 + 16) at 1. rewrite <-Z.shiftl_shiftl, <-Z.shiftl_lor by lia. rewrite (lor_shift 8 (u8 x)), (lor_shift 8 (u8 (Z.shiftr x 16))) by lia. rewrite (lor_shift 16) by lia. lia.
Qed.
Lemma rev32_bytes a b c d : 0 ≤ a < 256 → 0 ≤ b < 256 → 0 ≤ c < 256 → 0 ≤ d < 256 →
  rev32 (a + Z.shiftl b 8 + Z.shiftl c 16 + Z.shiftl d 24) = a * 16777216 + b * 65536 + c * 256 + d.
Proof.
  intros. rewrite !Z.shiftl_mul_pow2 by lia. set (n := _ + _ + _ + _). rewrite rev32_sum, !Z.shiftr_div_pow2 by lia.
  assert (u8 n = a ∧ u8 (n / 2 ^ 8) = b ∧ u8 (n / 2 ^ 16) = c ∧ u8 (n / 2 ^ 24) = d) as (-> & -> & -> & ->); [|done].
  subst n. unfold u8. repeat split; Z.div_mod_to_equations; lia.
Qed.
Lemma rev32_range x : 0 ≤ rev32 x < 4294967296.
Proof.
  rewrite rev32_sum. pose proof (u8_bound x). pose proof (u8_bound (Z.shiftr x 8)). pose proof (u8_bound (Z.shiftr x 16)). pose proof (u8_bound (Z.shiftr x 24)). lia.
Qed.

(** The bytes of an array of words in memory, and the words that bytes stored there make. *)
Definition bytes_of (ws : list Z) : list Z := mjoin (le32 <$> ws).
Fixpoint words_of (l : list Z) : list Z :=
  match l with
  | a :: b :: c :: d :: l => (a + Z.shiftl b 8 + Z.shiftl c 16 + Z.shiftl d 24) :: words_of l
  | _ => []
  end.

Definition word_ok (x : Z) : Prop := 0 ≤ x < 4294967296.

Lemma le32_rev32 x : le32 (rev32 x) = be32 x.
Proof.
  unfold le32, be32. rewrite rev32_sum. pose proof (u8_bound x). pose proof (u8_bound (Z.shiftr x 8)).
  pose proof (u8_bound (Z.shiftr x 16)). pose proof (u8_bound (Z.shiftr x 24)).
  set (a := u8 x) in *. set (b := u8 (Z.shiftr x 8)) in *. set (c := u8 (Z.shiftr x 16)) in *. set (d := u8 (Z.shiftr x 24)) in *.
  rewrite !Z.shiftr_div_pow2 by lia. unfold u8. repeat f_equal; Z.div_mod_to_equations; lia.
Qed.
(** The word whose memory holds the bytes of [x] as they are on the bus. *)
Lemma word_of_be32 x : word_ok x → u8 (Z.shiftr x 24) + Z.shiftl (u8 (Z.shiftr x 16)) 8 + Z.shiftl (u8 (Z.shiftr x 8)) 16 + Z.shiftl (u8 x) 24 = rev32 x.
Proof. unfold word_ok. intros Hx. rewrite rev32_sum, !Z.shiftl_mul_pow2 by lia. lia. Qed.
Lemma rev32_rev32 x : word_ok x → rev32 (rev32 x) = x.
Proof.
  intros Hx. rewrite <-(word_of_be32 x), rev32_bytes by (done || apply u8_bound). unfold word_ok, u8 in *. rewrite !Z.shiftr_div_pow2 by lia. Z.div_mod_to_equations. lia.
Qed.

Lemma bytes_of_app a b : bytes_of (a ++ b) = bytes_of a ++ bytes_of b.
Proof. unfold bytes_of. rewrite fmap_app. apply join_app. Qed.
Lemma length_bytes_of ws : length (bytes_of ws) = (4 * length ws)%nat.
Proof. induction ws as [|x ws IH]; [done|]. change (bytes_of (x :: ws)) with (le32 x ++ bytes_of ws). rewrite length_app, IH. cbn [length le32]. lia. Qed.
Lemma bytes_of_swapped ws : bytes_of (rev32 <$> ws) = mjoin (be32 <$> ws).
Proof. unfold bytes_of. rewrite <-list_fmap_compose. f_equal. apply list_fmap_ext. intros i x _. apply le32_rev32. Qed.
Lemma words_of_app k a b : length a = (4 * k)%nat → words_of (a ++ b) = words_of a ++ words_of b.
Proof.
  revert a. induction k as [|k IH]; intros a Ha.
  - by destruct a.
  - destruct a as [|x1 [|x2 [|x3 [|x4 a]]]]; try (cbn in Ha; lia). cbn [words_of app]. f_equal. apply IH. cbn in Ha. lia.
Qed.
Lemma words_of_bus ws : Forall word_ok ws → words_of (mjoin (be32 <$> ws)) = rev32 <$> ws.
Proof.
  induction 1 as [|x ws Hx _ IH]; [done|]. change (mjoin (be32 <$> x :: ws)) with (be32 x ++ mjoin (be32 <$> ws)). unfold be32 at 1. cbn [app words_of fmap list_fmap].
  f_equal; [by apply word_of_be32 | exact IH].
Qed.
Lemma length_words_of k l : length l = (4 * k)%nat → length (words_of l) = k.
Proof.
  revert l. induction k as [|k IH]; intros l Hl; [by destruct l|].
  destruct l as [|x1 [|x2 [|x3 [|x4 l]]]]; try (cbn in Hl; lia). cbn [words_of length]. f_equal. apply IH. cbn in Hl. lia.
Qed.
Lemma words_of_ok l : Forall byte_ok l → Forall word_ok (words_of l).
Proof.
  remember (length l) as n eqn:E. revert l E. induction (lt_wf n) as [n _ IH]; intros l -> Hl.
  destruct l as [|a [|b [|c [|d l]]]]; cbn [words_of]; try constructor.
  - inversion_clear Hl as [|? ? Ha Hl1]. inversion_clear Hl1 as [|? ? Hb Hl2]. inversion_clear Hl2 as [|? ? Hc Hl3]. inversion_clear Hl3 as [|? ? Hd Hl4].
    unfold byte_ok, word_ok in *. rewrite !Z.shiftl_mul_pow2 by lia. lia.
  - eapply IH; [|done|]; [cbn; lia|]. by do 4 apply Forall_inv_tail in Hl.
Qed.
