(* ===== verification/ComStack.v ===== *)
(** * Types shared by the modules of the AUTOSAR communication stack

    Std_Types.h and ComStack_Types.h are not part of the repository; these are
    the types of the AUTOSAR standard they define, as far as the code uses them. *)

From S2P Require Import Prelude.
From stdpp Require Import base list numbers option.

#[local] Open Scope Z_scope.

Inductive Std_ReturnType := E_OK | E_NOT_OK.
Inductive BufReq_ReturnType := BUFREQ_OK | BUFREQ_E_NOT_OK | BUFREQ_E_BUSY | BUFREQ_E_OVFL.
Inductive TPParameterType := TP_STMIN | TP_BS | TP_BC.

#[global] Instance Std_ReturnType_eq_dec : EqDecision Std_ReturnType.
Proof. solve_decision. Defined.
#[global] Instance BufReq_ReturnType_eq_dec : EqDecision BufReq_ReturnType.
Proof. solve_decision. Defined.
#[global] Instance TPParameterType_eq_dec : EqDecision TPParameterType.
Proof. solve_decision. Defined.

(** A PduInfoType: the memory behind SduDataPtr ([None] for NULL_PTR), which may
    be longer than the PDU, and SduLength. *)
Record PduInfoType := mkPduInfo { SduDataPtr : option (list Z); SduLength : Z }.
