(* ===== verification/CanTpTypes.v ===== *)
(** * CanTp: data and access primitives

    The constants, tables, configuration and channel types of CanTp_Types.h,
    CanTp_Prv.h and CanTp_Prv.c, the module variables as one record, the
    compile-time switches and the neighbouring modules as type classes, and the
    primitives through which the functions of CanTp reach all of these.

    CanTp_Cfg.h, CanTp.h and Os.h are not part of the
    repository: the switches and sizes they define are the fields of the class
    [CanTp_Cfg], over which everything is parametric. *)

From S2P Require Import Prelude ComStack.
From stdpp Require Import base list numbers option.

#[local] Open Scope Z_scope.

(** ** Constants of CanTp_Prv.h *)

Definition CANTP_SF_HIGHNIBBLE : Z := 0x00.
Definition CANTP_FF_HIGHNIBBLE : Z := 0x10.
Definition CANTP_CF_HIGHNIBBLE : Z := 0x20.
Definition CANTP_FC_HIGHNIBBLE : Z := 0x30.
Definition CANTP_DEFAULT_CAN_DL : Z := 8.
Definition CANTP_CF_PCISIZE : Z := 1.
Definition CANTP_FC_PCISIZE : Z := 3.
Definition CANTP_NPCI_SFCAN : Z := 0.
Definition CANTP_NPCI_SFCANFD : Z := 1.
Definition CANTP_NPCI_FFCAN : Z := 2.
Definition CANTP_NPCI_FFCANFD : Z := 3.
Definition CANTP_NPCI_CF : Z := 4.
Definition CANTP_NPCI_FC : Z := 5.
Definition CANTP_MAXFFDL : Z := 0xFFF.
Definition CANTP_MAXFDFFDL : Z := 0xFFFFFFFF.
Definition CANTP_FDSFDL_PCI : Z := 1.
Definition CANTP_STANDARD : Z := 0.
Definition CANTP_BUFFER_NOT_ASKED : Z := 0.
Definition CANTP_BUFFER_ASKED : Z := 1.
Definition CANTP_BUFFER_AVAILABLE : Z := 2.
Definition CANTP_MILLISEC_MAX_RANGE : Z := 0x7F.
Definition CANTP_MICROSEC_MIN_RANGE : Z := 0xF1.
Definition CANTP_MICROSEC_MAX_RANGE : Z := 0xF9.
Definition CANTP_MAX_BS_VALUE : Z := 0xFF.
Definition CANTP_TRIGGER_TRANSMIT_ON : Z := 0x20.
Definition CANTP_TC_DISABLED : Z := 0x10.
Definition CANTP_PADDINGON : Z := 0x08.
Definition CANTP_FUNCTIONAL : Z := 0x04.
Definition CANTP_FC_DISABLED : Z := 0x02.
Definition CANTP_FD_ENABLED : Z := 0x01.
Definition CANTP_SINGLE_FRAME : Z := 0.
Definition CANTP_FIRST_FRAME : Z := 1.
Definition CANTP_CONSECUTIVE_FRAME : Z := 2.
Definition CANTP_FLOWCONTROL_FRAME : Z := 3.
Definition CANTP_NUMBER_OF_FRAME_TYPES : Z := 4.
Definition CANTP_FRAMETYPE_OFFSET : Z := 4.
Definition CANTP_LOWERNIBBLE_MASK : Z := 0x0F.
Definition CANTP_INVALID_DL : Z := 0xFF.
Definition CANTP_IDLE : Z := 0.
Definition CANTP_TRANSMISSION : Z := 1.
Definition CANTP_TX_TRANSMISSION_REQUEST_ACCEPTED : Z := 1.
Definition CANTP_TX_WAIT_FOR_TRANSMIT_CONFIRMATION : Z := 2.
Definition CANTP_TX_WAIT_FOR_FLOWCONTROL_FRAME : Z := 3.
Definition CANTP_TX_SEND_CONSECUTIVE_FRAME : Z := 4.
Definition CANTP_RECEPTION : Z := 2.
Definition CANTP_RX_RECEPTION_REQUEST_ACCEPTED : Z := 5.
Definition CANTP_RX_SEND_FC : Z := 6.
Definition CANTP_RX_WAIT_FOR_FCTRANSMIT_CONFIRMATION : Z := 7.
Definition CANTP_RX_WAIT_FOR_CONSECUTIVE_FRAME : Z := 8.
Definition CANTP_NUMBER_OF_SUBSTATES : Z := 9.
Definition CANTP_TX_PDUR_CONFIRMATION : Z := 0.
Definition CANTP_RX_PDUR_CONFIRMATION : Z := 1.
Definition CANTP_TRIGGER_TX_CONFIRMATION : Z := 0.
Definition CANTP_TRIGGER_RX_INDICATION : Z := 1.
Definition CANTP_FC_CTS : Z := 0.
Definition CANTP_FC_WAIT : Z := 1.
Definition CANTP_FC_OVERFLOW : Z := 2.

(** ** Constant tables of CanTp_Prv.c *)

Definition CanTp_State : list Z := [0; 1; 1; 1; 1; 2; 2; 2; 2].
Definition CanTp_AddressSize : list Z := [0; 1; 1; 1; 0].
Definition CanTp_PciFrameType : list Z := [0; 0; 1; 1; 2; 3].
Definition CanTp_PciSize : list Z := [1; 2; 2; 6; 1; 3].
Definition CanTp_CanDlTable : list Z :=
  [0x08;
   0x08; 0x08; 0x08; 0x08; 0x08; 0x08; 0x08; 0x08; 0x0c; 0x0c; 0x0c; 0x0c; 0x10; 0x10; 0x10; 0x10;
   0x14; 0x14; 0x14; 0x14; 0x18; 0x18; 0x18; 0x18; 0x20; 0x20; 0x20; 0x20; 0x20; 0x20; 0x20; 0x20;
   0x30; 0x30; 0x30; 0x30; 0x30; 0x30; 0x30; 0x30; 0x30; 0x30; 0x30; 0x30; 0x30; 0x30; 0x30; 0x30;
   0x40; 0x40; 0x40; 0x40; 0x40; 0x40; 0x40; 0x40; 0x40; 0x40; 0x40; 0x40; 0x40; 0x40; 0x40; 0x40].

(** ** Service and error identifiers

    Their numeric values are defined in CanTp.h; only their being distinct
    matters to the code. *)

Inductive CanTp_ApiId :=
| CANTP_INIT | CANTP_GETVERSIONINFO | CANTP_SHUTDOWN | CANTP_TRANSMIT | CANTP_CANCELTRANSMIT
| CANTP_CANCELRECEIVE | CANTP_CHANGEPARAMETER | CANTP_READPARAMETER | CANTP_MAINFUNCTION
| CANTP_RXINDICATION | CANTP_TXCONFIRMATION | CANTP_TRIGGERTRANSMIT.

Inductive CanTp_ErrorId :=
| CANTP_NO_ERROR | CANTP_E_PARAM_CONFIG | CANTP_E_PARAM_ID | CANTP_E_PARAM_POINTER
| CANTP_E_INIT_FAILED | CANTP_E_UNINIT | CANTP_E_INVALID_TX_ID | CANTP_E_INVALID_RX_ID
| CANTP_E_COM | CANTP_E_RX_COM | CANTP_E_TX_COM | CANTP_E_PADDING | CANTP_E_INVALID_TATYPE
| CANTP_E_OPER_NOT_SUPPORTED.

#[global] Instance CanTp_ApiId_eq_dec : EqDecision CanTp_ApiId.
Proof. solve_decision. Defined.
#[global] Instance CanTp_ErrorId_eq_dec : EqDecision CanTp_ErrorId.
Proof. solve_decision. Defined.

(** ** Configuration structures of CanTp_Types.h *)

Record CanTp_SharedFcType := mkSharedFc { sf_RxFcPduId : Z; sf_TxSduId : Z }.

(** [rp_GetSduPair] is the generated look-up of the (Tx, Rx) pair by address. *)
Record CanTp_RxPduType := mkRxPdu {
  rp_RxSduId : Z; rp_TxSduId : Z; rp_GetSduPair : option (Z → Z → Z → Z * Z) }.

Record CanTp_TxSduType := mkTxSdu {
  tx_TX_DL : Z; tx_BitFields : Z; tx_Address : Z; tx_AddressFormatId : Z; tx_TimeOutId : Z;
  tx_ChannelId : Z; tx_TxConfirmationId : Z; tx_TxPduId : Z; tx_PduRPduHandleId : Z }.

Record CanTp_RxSduType := mkRxSdu {
  rx_BitFields : Z; rx_Address : Z; rx_AddressFormatId : Z; rx_TimeOutId : Z; rx_ParamId : Z;
  rx_ChannelId : Z; rx_TxConfirmationId : Z; rx_TxPduId : Z; rx_PduRPduHandleId : Z }.

Record CanTp_TimeOutType := mkTimeOut { AsArTicks : Z; BsBrTicks : Z; CsCrTicks : Z }.

(** [pa_Param] is the pair (STmin, BS). *)
Record CanTp_ParamType := mkParam { pa_Param : Z * Z; pa_FcWaitMax : Z }.

(** [CfgAddr] is the address of the object, which PbCfgCheck compares. *)
Record CanTp_ConfigType := mkConfig {
  CfgAddr : Z;
  NumberOfSharedFc : Z; NumberOfChannels : Z; NumberOfRxPdus : Z; NumberOfTxPdus : Z;
  NumberOfRxSdus : Z; NumberOfTxSdus : Z;
  SharedFc : list CanTp_SharedFcType; RxPdu : list CanTp_RxPduType;
  TxSdu : list CanTp_TxSduType; RxSdu : list CanTp_RxSduType;
  TimeOut : list CanTp_TimeOutType; Param : list CanTp_ParamType }.

(** ** Module state *)

(** The burst queue: uint8 free-running head and tail counters over a ring. *)
Record CanTp_QType := mkQ { Head_u8 : Z; Tail_u8 : Z; Queue : list Z }.


(** The channel object: one transfer in progress (or none). *)
Record CanTp_ChannelType := mkChannel {
  ch_TxBufferStatus : Z;
  ch_RX_DL : Z;
  ch_PciId : Z;
  ch_FlowStatus : Z;
  ch_SN : Z;
  ch_BS : Z;
  ch_ActiveSduId : Z;
  ch_FcWait : Z;
  ch_BlockCfsRemaining : Z;
  ch_SduLengthRemaining : Z;
  ch_SduLength : Z;
  ch_InitialTicks : Z;
  ch_STminTicks : Z
}.

Definition set_ch_TxBufferStatus (v : Z) (c : CanTp_ChannelType) : CanTp_ChannelType :=
  mkChannel v (ch_RX_DL c) (ch_PciId c) (ch_FlowStatus c) (ch_SN c) (ch_BS c) (ch_ActiveSduId c) (ch_FcWait c) (ch_BlockCfsRemaining c) (ch_SduLengthRemaining c) (ch_SduLength c) (ch_InitialTicks c) (ch_STminTicks c).
Definition set_ch_RX_DL (v : Z) (c : CanTp_ChannelType) : CanTp_ChannelType :=
  mkChannel (ch_TxBufferStatus c) v (ch_PciId c) (ch_FlowStatus c) (ch_SN c) (ch_BS c) (ch_ActiveSduId c) (ch_FcWait c) (ch_BlockCfsRemaining c) (ch_SduLengthRemaining c) (ch_SduLength c) (ch_InitialTicks c) (ch_STminTicks c).
Definition set_ch_PciId (v : Z) (c : CanTp_ChannelType) : CanTp_ChannelType :=
  mkChannel (ch_TxBufferStatus c) (ch_RX_DL c) v (ch_FlowStatus c) (ch_SN c) (ch_BS c) (ch_ActiveSduId c) (ch_FcWait c) (ch_BlockCfsRemaining c) (ch_SduLengthRemaining c) (ch_SduLength c) (ch_InitialTicks c) (ch_STminTicks c).
Definition set_ch_FlowStatus (v : Z) (c : CanTp_ChannelType) : CanTp_ChannelType :=
  mkChannel (ch_TxBufferStatus c) (ch_RX_DL c) (ch_PciId c) v (ch_SN c) (ch_BS c) (ch_ActiveSduId c) (ch_FcWait c) (ch_BlockCfsRemaining c) (ch_SduLengthRemaining c) (ch_SduLength c) (ch_InitialTicks c) (ch_STminTicks c).
Definition set_ch_SN (v : Z) (c : CanTp_ChannelType) : CanTp_ChannelType :=
  mkChannel (ch_TxBufferStatus c) (ch_RX_DL c) (ch_PciId c) (ch_FlowStatus c) v (ch_BS c) (ch_ActiveSduId c) (ch_FcWait c) (ch_BlockCfsRemaining c) (ch_SduLengthRemaining c) (ch_SduLength c) (ch_InitialTicks c) (ch_STminTicks c).
Definition set_ch_BS (v : Z) (c : CanTp_ChannelType) : CanTp_ChannelType :=
  mkChannel (ch_TxBufferStatus c) (ch_RX_DL c) (ch_PciId c) (ch_FlowStatus c) (ch_SN c) v (ch_ActiveSduId c) (ch_FcWait c) (ch_BlockCfsRemaining c) (ch_SduLengthRemaining c) (ch_SduLength c) (ch_InitialTicks c) (ch_STminTicks c).
Definition set_ch_ActiveSduId (v : Z) (c : CanTp_ChannelType) : CanTp_ChannelType :=
  mkChannel (ch_TxBufferStatus c) (ch_RX_DL c) (ch_PciId c) (ch_FlowStatus c) (ch_SN c) (ch_BS c) v (ch_FcWait c) (ch_BlockCfsRemaining c) (ch_SduLengthRemaining c) (ch_SduLength c) (ch_InitialTicks c) (ch_STminTicks c).
Definition set_ch_FcWait (v : Z) (c : CanTp_ChannelType) : CanTp_ChannelType :=
  mkChannel (ch_TxBufferStatus c) (ch_RX_DL c) (ch_PciId c) (ch_FlowStatus c) (ch_SN c) (ch_BS c) (ch_ActiveSduId c) v (ch_BlockCfsRemaining c) (ch_SduLengthRemaining c) (ch_SduLength c) (ch_InitialTicks c) (ch_STminTicks c).
Definition set_ch_BlockCfsRemaining (v : Z) (c : CanTp_ChannelType) : CanTp_ChannelType :=
  mkChannel (ch_TxBufferStatus c) (ch_RX_DL c) (ch_PciId c) (ch_FlowStatus c) (ch_SN c) (ch_BS c) (ch_ActiveSduId c) (ch_FcWait c) v (ch_SduLengthRemaining c) (ch_SduLength c) (ch_InitialTicks c) (ch_STminTicks c).
Definition set_ch_SduLengthRemaining (v : Z) (c : CanTp_ChannelType) : CanTp_ChannelType :=
  mkChannel (ch_TxBufferStatus c) (ch_RX_DL c) (ch_PciId c) (ch_FlowStatus c) (ch_SN c) (ch_BS c) (ch_ActiveSduId c) (ch_FcWait c) (ch_BlockCfsRemaining c) v (ch_SduLength c) (ch_InitialTicks c) (ch_STminTicks c).
Definition set_ch_SduLength (v : Z) (c : CanTp_ChannelType) : CanTp_ChannelType :=
  mkChannel (ch_TxBufferStatus c) (ch_RX_DL c) (ch_PciId c) (ch_FlowStatus c) (ch_SN c) (ch_BS c) (ch_ActiveSduId c) (ch_FcWait c) (ch_BlockCfsRemaining c) (ch_SduLengthRemaining c) v (ch_InitialTicks c) (ch_STminTicks c).
Definition set_ch_InitialTicks (v : Z) (c : CanTp_ChannelType) : CanTp_ChannelType :=
  mkChannel (ch_TxBufferStatus c) (ch_RX_DL c) (ch_PciId c) (ch_FlowStatus c) (ch_SN c) (ch_BS c) (ch_ActiveSduId c) (ch_FcWait c) (ch_BlockCfsRemaining c) (ch_SduLengthRemaining c) (ch_SduLength c) v (ch_STminTicks c).
Definition set_ch_STminTicks (v : Z) (c : CanTp_ChannelType) : CanTp_ChannelType :=
  mkChannel (ch_TxBufferStatus c) (ch_RX_DL c) (ch_PciId c) (ch_FlowStatus c) (ch_SN c) (ch_BS c) (ch_ActiveSduId c) (ch_FcWait c) (ch_BlockCfsRemaining c) (ch_SduLengthRemaining c) (ch_SduLength c) (ch_InitialTicks c) v.

(** The module variables of CanTp.c and CanTp_Prv.c. *)
Record CanTp_Vars := mkVars {
  CanTp_MainState : bool;
  CanTp_CfgPtr : option CanTp_ConfigType;
  CanTp_Channel : list CanTp_ChannelType;
  CanTp_SubState : list Z;
  CanTp_TxConfirmationChannel : list Z;
  CanTp_BurstQ : CanTp_QType;
  CanTp_ParamPair : list (Z * Z);
  CanTp_MainFunctionTicks : Z
}.

Definition set_CanTp_MainState (v : bool) (t : CanTp_Vars) : CanTp_Vars :=
  mkVars v (CanTp_CfgPtr t) (CanTp_Channel t) (CanTp_SubState t) (CanTp_TxConfirmationChannel t) (CanTp_BurstQ t) (CanTp_ParamPair t) (CanTp_MainFunctionTicks t).
Definition set_CanTp_CfgPtr (v : option CanTp_ConfigType) (t : CanTp_Vars) : CanTp_Vars :=
  mkVars (CanTp_MainState t) v (CanTp_Channel t) (CanTp_SubState t) (CanTp_TxConfirmationChannel t) (CanTp_BurstQ t) (CanTp_ParamPair t) (CanTp_MainFunctionTicks t).
Definition set_CanTp_Channel (v : list CanTp_ChannelType) (t : CanTp_Vars) : CanTp_Vars :=
  mkVars (CanTp_MainState t) (CanTp_CfgPtr t) v (CanTp_SubState t) (CanTp_TxConfirmationChannel t) (CanTp_BurstQ t) (CanTp_ParamPair t) (CanTp_MainFunctionTicks t).
Definition set_CanTp_SubState (v : list Z) (t : CanTp_Vars) : CanTp_Vars :=
  mkVars (CanTp_MainState t) (CanTp_CfgPtr t) (CanTp_Channel t) v (CanTp_TxConfirmationChannel t) (CanTp_BurstQ t) (CanTp_ParamPair t) (CanTp_MainFunctionTicks t).
Definition set_CanTp_TxConfirmationChannel (v : list Z) (t : CanTp_Vars) : CanTp_Vars :=
  mkVars (CanTp_MainState t) (CanTp_CfgPtr t) (CanTp_Channel t) (CanTp_SubState t) v (CanTp_BurstQ t) (CanTp_ParamPair t) (CanTp_MainFunctionTicks t).
Definition set_CanTp_BurstQ (v : CanTp_QType) (t : CanTp_Vars) : CanTp_Vars :=
  mkVars (CanTp_MainState t) (CanTp_CfgPtr t) (CanTp_Channel t) (CanTp_SubState t) (CanTp_TxConfirmationChannel t) v (CanTp_ParamPair t) (CanTp_MainFunctionTicks t).
Definition set_CanTp_ParamPair (v : list (Z * Z)) (t : CanTp_Vars) : CanTp_Vars :=
  mkVars (CanTp_MainState t) (CanTp_CfgPtr t) (CanTp_Channel t) (CanTp_SubState t) (CanTp_TxConfirmationChannel t) (CanTp_BurstQ t) v (CanTp_MainFunctionTicks t).
Definition set_CanTp_MainFunctionTicks (v : Z) (t : CanTp_Vars) : CanTp_Vars :=
  mkVars (CanTp_MainState t) (CanTp_CfgPtr t) (CanTp_Channel t) (CanTp_SubState t) (CanTp_TxConfirmationChannel t) (CanTp_BurstQ t) (CanTp_ParamPair t) v.

(** ** Contexts of a reception and of a transmission *)

Record CanTp_RxContextType := mkRxContext {
  cx_IsFunctional : bool; cx_IsPaddingOn : bool; cx_IsFdEnabled : bool; cx_Address : Z;
  cx_FrameType : Z; cx_FlowStatus : Z; cx_SN : Z; cx_DataOffset : Z; cx_AddressSize : Z;
  cx_CAN_DL : Z; cx_ChannelId : Z; cx_SduId : Z; cx_PduId : Z; cx_PduRPduHandleId : Z;
  cx_SduLength : Z }.

Record CanTp_TxContextType := mkTxContext {
  tc_PduRApiId : Z; tc_PayLoadLength : Z; tc_BitFields : Z; tc_ChannelId : Z;
  tc_TxConfirmationId : Z; tc_PduId : Z; tc_PduRPduHandleId : Z; tc_RemBufSize : Z;
  tc_Value : Z; tc_ElapsedValue : Z; tc_CsTicks : Z }.

(** ** Compile-time configuration

    The switches of CanTp_Cfg.h, the sizes of the static arrays, the widths of
    PduLengthType and TickType, and the configuration-specific functions.  The
    free-running counter is the one of the CANTP_CYCLE_COUNTER build. *)

Inductive CanTp_Variant := CANTP_PRE_COMPILE | CANTP_POST_BUILD_LOADABLE | CANTP_POST_BUILD_SELECTABLE.

#[global] Instance CanTp_Variant_eq_dec : EqDecision CanTp_Variant.
Proof. solve_decision. Defined.

Class CanTp_Cfg := {
  CANTP_DEV_ERROR_DETECT : bool;
  CANTP_CANFD_SUPPORT : bool;
  CANTP_TX_BURST_MODE : bool;
  CANTP_SCHM_SUPPORT : bool;
  CANTP_CHANGE_PARAMETER_API : bool;
  CANTP_TRIGGER_TRANSMIT_API : bool;
  CANTP_FC_DISABLE_SUPPORT : bool;
  CANTP_DYNAMIC_FC_SUPPORT : bool;
  CANTP_STRICT_BSCRTIMEOUT_CHECK : bool;
  CANTP_PAGE_CONFIRMATION : bool;
  CANTP_LEGACY_SHARED_FC_SUPPORT : bool;
  CANTP_FD_CALLOUT_SUPPORT : bool;
  CANTP_VARIANT : CanTp_Variant;
  CanTp_Config : CanTp_ConfigType;
  CanTp_CfgPtrs : list Z;
  CANTP_MAX_CHANNEL_SIZE : Z;
  CANTP_MAX_NPDU_LENGTH : Z;
  CANTP_BURST_QUEUE_SIZE : Z;
  CANTP_PADDING_BYTE : Z;
  CANTP_INVALID_STMIN_TICKS : Z;
  CANTP_DEFAULT_STMIN_TICKS : Z;
  PduLengthBits : Z;
  TickBits : Z;
  CanTp_Cfg_DlcCheck : Z → Z → Std_ReturnType;
  CanTp_Cfg_GetUsToTicks : Z → Z;
  (* the bytes found in an uninitialised stack buffer *)
  SduBuffer_garbage : list Z
}.

(** ** The neighbouring modules

    What CanTp calls in PduR, CanIf and the application.  [U] is their joint
    state.  A copy-out call answers with the bytes it writes and the value it
    leaves in the length out-parameter. *)

Class CanTp_Env (U : Type) := {
  PduR_CanTpCopyTxData : Z → Z → U → BufReq_ReturnType * list Z * Z * U;
  PduR_CanTpStartOfReception : Z → list Z → Z → U → BufReq_ReturnType * Z * U;
  PduR_CanTpCopyRxData : Z → list Z → U → BufReq_ReturnType * Z * U;
  PduR_CanTpTxConfirmation : Z → Std_ReturnType → U → U;
  PduR_CanTpRxIndication : Z → Std_ReturnType → U → U;
  CanIf_Transmit : Z → option (list Z) → Z → U → Std_ReturnType * U;
  CanTp_FdCallOut : Z → PduInfoType → bool → U → Std_ReturnType * U
}.

(** The calls CanTp makes, recorded in order. *)
Inductive CanTp_Event :=
| EvTxConfirmation (id : Z) (result : Std_ReturnType)
| EvRxIndication (id : Z) (result : Std_ReturnType)
| EvReportError (api : CanTp_ApiId) (err : CanTp_ErrorId)
| EvReportRunTimeError (api : CanTp_ApiId) (err : CanTp_ErrorId)
| EvCanIfTransmit (id : Z) (data : option (list Z)) (len : Z) (result : Std_ReturnType)
| EvStartOfReception (id : Z) (data : list Z) (len : Z) (result : BufReq_ReturnType)
| EvCopyRxData (id : Z) (data : list Z) (result : BufReq_ReturnType)
| EvCopyTxData (id : Z) (data : list Z) (result : BufReq_ReturnType)
| EvActivateMainFunction (trigger : Z).

(** ** The world a CanTp function runs in *)

Record World (U : Type) := mkWorld { tp : CanTp_Vars; up : U; trace : list CanTp_Event }.
Arguments mkWorld {U} _ _ _.
Arguments tp {U} _.
Arguments up {U} _.
Arguments trace {U} _.

Definition set_tp {U} (t : CanTp_Vars) (w : World U) : World U := mkWorld t (up w) (trace w).
Definition set_up {U} (u : U) (w : World U) : World U := mkWorld (tp w) u (trace w).
Definition add_event {U} (e : CanTp_Event) (w : World U) : World U :=
  mkWorld (tp w) (up w) (trace w ++ [e]).

Section primitives.
Context `{CanTp_Cfg} {U : Type} `{CanTp_Env U}.
Abbreviation W := (World U).

Definition plen (z : Z) : Z := uw PduLengthBits z.
Definition tick (z : Z) : Z := uw TickBits z.
Definition CANTP_INVALID_CHANNEL : Z := CANTP_MAX_CHANNEL_SIZE.

Definition emit (e : CanTp_Event) : M W unit := modify (add_event e).

(** *** Module variables *)
Definition cfg : M W CanTp_ConfigType :=
  p ← gets (λ w, CanTp_CfgPtr (tp w)); lift p.
Definition get_ch (c : Z) : M W CanTp_ChannelType :=
  l ← gets (λ w, CanTp_Channel (tp w)); lift (aget l c).
Definition upd_ch (c : Z) (f : CanTp_ChannelType → CanTp_ChannelType) : M W unit :=
  ch ← get_ch c;
  l ← gets (λ w, CanTp_Channel (tp w));
  l' ← lift (aset l c (f ch));
  modify (λ w, set_tp (set_CanTp_Channel l' (tp w)) w).
Definition get_sub (c : Z) : M W Z :=
  l ← gets (λ w, CanTp_SubState (tp w)); lift (aget l c).
Definition set_sub (c v : Z) : M W unit :=
  l ← gets (λ w, CanTp_SubState (tp w));
  l' ← lift (aset l c v);
  modify (λ w, set_tp (set_CanTp_SubState l' (tp w)) w).
Definition get_conf (i : Z) : M W Z :=
  l ← gets (λ w, CanTp_TxConfirmationChannel (tp w)); lift (aget l i).
Definition set_conf (i v : Z) : M W unit :=
  l ← gets (λ w, CanTp_TxConfirmationChannel (tp w));
  l' ← lift (aset l i v);
  modify (λ w, set_tp (set_CanTp_TxConfirmationChannel l' (tp w)) w).

(** *** Configuration tables *)
Definition get_txsdu (i : Z) : M W CanTp_TxSduType := C ← cfg; lift (aget (TxSdu C) i).
Definition get_rxsdu (i : Z) : M W CanTp_RxSduType := C ← cfg; lift (aget (RxSdu C) i).
Definition get_timeout (i : Z) : M W CanTp_TimeOutType := C ← cfg; lift (aget (TimeOut C) i).

(** *** Function-like macros of CanTp_Prv.h *)
Definition CanTp_Prv_GetState (c : Z) : M W Z := s ← get_sub c; lift (aget CanTp_State s).

Definition CanTp_Prv_PduRConfirmation (Api id : Z) (result : Std_ReturnType) : M W unit :=
  if Api =? CANTP_TX_PDUR_CONFIRMATION then
    modify (λ w, set_up (PduR_CanTpTxConfirmation id result (up w)) w);;
    emit (EvTxConfirmation id result)
  else if Api =? CANTP_RX_PDUR_CONFIRMATION then
    modify (λ w, set_up (PduR_CanTpRxIndication id result (up w)) w);;
    emit (EvRxIndication id result)
  else ub.

Definition CanTp_Prv_ReportError (Api : CanTp_ApiId) (Err : CanTp_ErrorId) : M W unit :=
  when CANTP_DEV_ERROR_DETECT (emit (EvReportError Api Err)).

Definition CanTp_Prv_ReportRunTimeError (Api : CanTp_ApiId) (Err : CanTp_ErrorId) : M W unit :=
  when CANTP_DEV_ERROR_DETECT (emit (EvReportRunTimeError Api Err)).

Definition CanTp_Prv_GetTxDl (Connection : CanTp_TxSduType) : Z :=
  if CANTP_CANFD_SUPPORT then tx_TX_DL Connection else CANTP_DEFAULT_CAN_DL.

Definition CanTp_Prv_GetCanDl (FrameLength : Z) : option Z :=
  if CANTP_CANFD_SUPPORT then aget CanTp_CanDlTable FrameLength else Some CANTP_DEFAULT_CAN_DL.

Definition CanTp_Prv_GetRxDl (c : Z) : M W Z :=
  if CANTP_CANFD_SUPPORT then ch ← get_ch c; mret (ch_RX_DL ch) else mret CANTP_DEFAULT_CAN_DL.

Definition CanTp_Prv_SetRxDl (c v : Z) : M W unit :=
  when CANTP_CANFD_SUPPORT (upd_ch c (set_ch_RX_DL v)).

Definition CanTp_Prv_IsRxDlInValid (dl : Z) : bool :=
  if CANTP_CANFD_SUPPORT then
    negb ((dl =? 0x08) || (dl =? 0x0C) || (dl =? 0x10) || (dl =? 0x14) ||
          (dl =? 0x18) || (dl =? 0x20) || (dl =? 0x30) || (dl =? 0x40))
  else negb (dl =? 0x08).

Definition CanTp_Prv_GetRxCfgParam (id : Z) : M W (Z * Z) :=
  r ← get_rxsdu id; C ← cfg; p ← lift (aget (Param C) (rx_ParamId r)); mret (pa_Param p).

Definition CanTp_Prv_GetRxCfgFcWaitMax (id : Z) : M W Z :=
  r ← get_rxsdu id; C ← cfg; p ← lift (aget (Param C) (rx_ParamId r)); mret (pa_FcWaitMax p).

(** *** Calls into the neighbouring modules *)
Definition call_CopyTxData (id len : Z) : M W (BufReq_ReturnType * list Z * Z) :=
  u ← gets up;
  let '(res, data, rem, u') := PduR_CanTpCopyTxData id len u in
  modify (set_up u');; emit (EvCopyTxData id data res);; mret (res, data, rem).

Definition call_StartOfReception (id : Z) (data : list Z) (len : Z)
  : M W (BufReq_ReturnType * Z) :=
  u ← gets up;
  let '(res, rem, u') := PduR_CanTpStartOfReception id data len u in
  modify (set_up u');; emit (EvStartOfReception id data len res);; mret (res, rem).

Definition call_CopyRxData (id : Z) (data : list Z) : M W (BufReq_ReturnType * Z) :=
  u ← gets up;
  let '(res, rem, u') := PduR_CanTpCopyRxData id data u in
  modify (set_up u');; emit (EvCopyRxData id data res);; mret (res, rem).

(** CanIf_Transmit reads the [len] first bytes behind the data pointer. *)
Definition call_CanIf_Transmit (id : Z) (data : option (list Z)) (len : Z) : M W Std_ReturnType :=
  bytes ← match data with
          | Some b => s ← lift (aslice b 0 len); mret (Some s)
          | None => mret None
          end;
  u ← gets up;
  let '(res, u') := CanIf_Transmit id bytes len u in
  modify (set_up u');; emit (EvCanIfTransmit id bytes len res);; mret res.
End primitives.

(** The C type of the bits of CanTp_Types.h: [Value & Mask == Mask]. *)
Definition CanTp_Prv_GetBit (Value Mask : Z) : bool := Z.land Value Mask =? Mask.
