(* ===== verification/CanTpPrv.v ===== *)
(** * CanTp: the inline functions of CanTp_Prv.h

    Timer, burst queue, reception context, length checks, flow-control
    parameters and the small state changes the frame and state functions are
    built from. *)

From S2P Require Import Prelude ComStack CanTpTypes.
From stdpp Require Import base list numbers option.

#[local] Open Scope Z_scope.

Section CanTp_Prv.
Context `{CanTp_Cfg} {U : Type} `{CanTp_Env U}.
Abbreviation W := (World U).

(** Value and ElapsedValue after the call on a variable holding [ValueIn]. *)
Definition CanTp_GetElapsedValue (ValueIn : Z) : M W (Z * Z) :=
  Value ← gets (λ w, CanTp_MainFunctionTicks (tp w));
  mret (Value, tick (Value - ValueIn)).

Definition CanTp_IncrementCounter : M W unit :=
  modify (λ w, set_tp (set_CanTp_MainFunctionTicks (tick (CanTp_MainFunctionTicks (tp w) + 1)) (tp w)) w).

(** The loop of ArrayInit over the array [l], from index [i]. *)
Fixpoint ArrayInit_loop (n : nat) (l : list Z) (i Item : Z) : option (list Z) :=
  match n with
  | O => Some l
  | S n => l' ← aset l i Item; ArrayInit_loop n l' (i + 1) Item
  end.

Definition CanTp_Prv_ArrayInit (l : list Z) (off Length Item : Z) : option (list Z) :=
  ArrayInit_loop (Z.to_nat (u32 Length)) l off (u8 Item).

Definition CanTp_Prv_IsNoDevError (id : Z) (ApiId : CanTp_ApiId) (CanTpEInvalidId : CanTp_ErrorId)
  : M W bool :=
  main ← gets (λ w, CanTp_MainState (tp w));
  ErrorId ←
    (if negb main then mret CANTP_E_UNINIT
     else
       C ← cfg;
       let TotalIds :=
         match ApiId with
         | CANTP_CHANGEPARAMETER | CANTP_READPARAMETER | CANTP_CANCELRECEIVE => NumberOfRxSdus C
         | CANTP_TRANSMIT | CANTP_CANCELTRANSMIT => NumberOfTxSdus C
         | CANTP_TXCONFIRMATION | CANTP_TRIGGERTRANSMIT => NumberOfTxPdus C
         | CANTP_RXINDICATION => NumberOfRxPdus C
         | _ => 0
         end in
       mret (if TotalIds <=? id then CanTpEInvalidId else CANTP_NO_ERROR));
  if decide (ErrorId = CANTP_NO_ERROR) then mret true
  else CanTp_Prv_ReportError ApiId ErrorId;; mret false.

(** [#if DEV_ERROR_DETECT if (IsNoDevError(..)) #endif { body }] with the
    value [d] returned when the check fails. *)
Definition dev_checked {A} (id : Z) (Api : CanTp_ApiId) (Err : CanTp_ErrorId) (d : A) (body : M W A)
  : M W A :=
  if CANTP_DEV_ERROR_DETECT then
    ok ← CanTp_Prv_IsNoDevError id Api Err; if ok : bool then body else mret d
  else body.

Definition CanTp_Prv_IsChangeParameterOk (parameter : TPParameterType) (value : Z) : M W bool :=
  let ErrorId :=
    if bool_decide (parameter ≠ TP_BS) && bool_decide (parameter ≠ TP_STMIN) then CANTP_E_PARAM_ID
    else if bool_decide (parameter = TP_STMIN) &&
            negb ((value <=? CANTP_MILLISEC_MAX_RANGE) ||
                  ((CANTP_MICROSEC_MIN_RANGE <=? value) && (value <=? CANTP_MICROSEC_MAX_RANGE)))
    then CANTP_E_PARAM_CONFIG
    else if bool_decide (parameter = TP_BS) && (CANTP_MAX_BS_VALUE <? value)
    then CANTP_E_PARAM_CONFIG
    else CANTP_NO_ERROR in
  if decide (ErrorId = CANTP_NO_ERROR) then mret true
  else CanTp_Prv_ReportRunTimeError CANTP_CHANGEPARAMETER ErrorId;; mret false.

Definition set_parampair (id : Z) (p : Z * Z) : M W unit :=
  l ← gets (λ w, CanTp_ParamPair (tp w));
  l' ← lift (aset l id p);
  modify (λ w, set_tp (set_CanTp_ParamPair l' (tp w)) w).

Definition CanTp_Prv_RxParamInit : M W unit :=
  when CANTP_CHANGE_PARAMETER_API
    (C ← cfg;
     mfor (Z.to_nat (NumberOfRxSdus C)) 0 (λ SduId,
       p ← CanTp_Prv_GetRxCfgParam SduId;
       set_parampair SduId p)).

(** Consecutive frames needed for [SduLength] bytes at [PayLoadLength] each. *)
Definition block_cfs (SduLength PayLoadLength : Z) : M W Z :=
  if PayLoadLength =? 0 then ub
  else mret (plen (if SduLength mod PayLoadLength =? 0 then SduLength / PayLoadLength
                   else SduLength / PayLoadLength + 1)).

Definition CanTp_Prv_GetTxBlockCfs (ChannelId : Z) : M W Z :=
  ch ← get_ch ChannelId;
  Connection ← get_txsdu (ch_ActiveSduId ch);
  AddressSize ← lift (aget CanTp_AddressSize (tx_AddressFormatId Connection));
  let TX_DL := CanTp_Prv_GetTxDl Connection in
  block_cfs (ch_SduLengthRemaining ch) (u8 (TX_DL - CANTP_CF_PCISIZE - AddressSize)).

Definition CanTp_Prv_GetRxBlockCfs (ChannelId : Z) : M W Z :=
  ch ← get_ch ChannelId;
  Connection ← get_rxsdu (ch_ActiveSduId ch);
  RX_DL ← CanTp_Prv_GetRxDl ChannelId;
  AddressSize ← lift (aget CanTp_AddressSize (rx_AddressFormatId Connection));
  block_cfs (ch_SduLengthRemaining ch) (u8 (RX_DL - CANTP_CF_PCISIZE - AddressSize)).

(** *** Burst queue *)

Definition put_q (q : CanTp_QType) : M W unit :=
  modify (λ w, set_tp (set_CanTp_BurstQ q (tp w)) w).

Definition CanTp_Prv_QInit : M W unit :=
  when CANTP_TX_BURST_MODE
    (q ← gets (λ w, CanTp_BurstQ (tp w)); put_q (mkQ 0 0 (Queue q))).

(** The queue operations on the queue alone; [None] is an undefined access. *)
Definition Q_put (q : CanTp_QType) (ChannelId : Z) : option (Std_ReturnType * CanTp_QType) :=
  if Tail_u8 q - Head_u8 q =? CANTP_BURST_QUEUE_SIZE then Some (E_NOT_OK, q)
  else
    let Tail := u8 (Tail_u8 q + 1) in
    if CANTP_BURST_QUEUE_SIZE =? 0 then None
    else
      l ← aset (Queue q) (Tail mod CANTP_BURST_QUEUE_SIZE) ChannelId;
      Some (E_OK, mkQ (Head_u8 q) Tail l).

Definition Q_get (q : CanTp_QType) : option (option Z * CanTp_QType) :=
  if Tail_u8 q - Head_u8 q =? 0 then Some (None, q)
  else
    let Head := u8 (Head_u8 q + 1) in
    if CANTP_BURST_QUEUE_SIZE =? 0 then None
    else
      c ← aget (Queue q) (Head mod CANTP_BURST_QUEUE_SIZE);
      Some (Some c, mkQ Head (Tail_u8 q) (Queue q)).

Definition CanTp_Prv_PutInQ (ChannelId : Z) : M W Std_ReturnType :=
  q ← gets (λ w, CanTp_BurstQ (tp w));
  '(r, q') ← lift (Q_put q ChannelId);
  put_q q';; mret r.

(** [Some c]: E_OK with the channel taken from the queue. *)
Definition CanTp_Prv_GetFromQ : M W (option Z) :=
  q ← gets (λ w, CanTp_BurstQ (tp w));
  '(r, q') ← lift (Q_get q);
  put_q q';; mret r.

(** *** Transmission set-up *)

Definition CanTp_Prv_TxPciInit (Connection : CanTp_TxSduType) (SduLen : Z) : option Z :=
  AddressLength ← aget CanTp_AddressSize (tx_AddressFormatId Connection);
  let TX_DL := CanTp_Prv_GetTxDl Connection in
  Some
    (if u32 (SduLen + AddressLength + 1) <=? CANTP_DEFAULT_CAN_DL then CANTP_NPCI_SFCAN
     else if CANTP_CANFD_SUPPORT && ((CANTP_DEFAULT_CAN_DL <? TX_DL) &&
                                    (u32 (SduLen + AddressLength + 2) <=? TX_DL))
     then CANTP_NPCI_SFCANFD
     else if CANTP_CANFD_SUPPORT && ((CANTP_DEFAULT_CAN_DL <? TX_DL) && (CANTP_MAXFFDL <? SduLen))
     then CANTP_NPCI_FFCANFD
     else CANTP_NPCI_FFCAN).

(** *** Reception context *)

Definition ctx_set_channel (c : Z) (x : CanTp_RxContextType) : CanTp_RxContextType :=
  mkRxContext (cx_IsFunctional x) (cx_IsPaddingOn x) (cx_IsFdEnabled x) (cx_Address x)
    (cx_FrameType x) (cx_FlowStatus x) (cx_SN x) (cx_DataOffset x) (cx_AddressSize x)
    (cx_CAN_DL x) c (cx_SduId x) (cx_PduId x) (cx_PduRPduHandleId x) (cx_SduLength x).

Definition ctx_set_sdu (i : Z) (x : CanTp_RxContextType) : CanTp_RxContextType :=
  mkRxContext (cx_IsFunctional x) (cx_IsPaddingOn x) (cx_IsFdEnabled x) (cx_Address x)
    (cx_FrameType x) (cx_FlowStatus x) (cx_SN x) (cx_DataOffset x) (cx_AddressSize x)
    (cx_CAN_DL x) (cx_ChannelId x) i (cx_PduId x) (cx_PduRPduHandleId x) (cx_SduLength x).

Definition ctx_set_address (a : Z) (x : CanTp_RxContextType) : CanTp_RxContextType :=
  mkRxContext (cx_IsFunctional x) (cx_IsPaddingOn x) (cx_IsFdEnabled x) a
    (cx_FrameType x) (cx_FlowStatus x) (cx_SN x) (cx_DataOffset x) (cx_AddressSize x)
    (cx_CAN_DL x) (cx_ChannelId x) (cx_SduId x) (cx_PduId x) (cx_PduRPduHandleId x) (cx_SduLength x).

Definition ctx_set_frametype (f : Z) (x : CanTp_RxContextType) : CanTp_RxContextType :=
  mkRxContext (cx_IsFunctional x) (cx_IsPaddingOn x) (cx_IsFdEnabled x) (cx_Address x)
    f (cx_FlowStatus x) (cx_SN x) (cx_DataOffset x) (cx_AddressSize x)
    (cx_CAN_DL x) (cx_ChannelId x) (cx_SduId x) (cx_PduId x) (cx_PduRPduHandleId x) (cx_SduLength x).

Definition ctx_set_conn (functional padding fd : bool) (asize handle : Z) (x : CanTp_RxContextType)
  : CanTp_RxContextType :=
  mkRxContext functional padding fd (cx_Address x)
    (cx_FrameType x) (cx_FlowStatus x) (cx_SN x) (cx_DataOffset x) asize
    (cx_CAN_DL x) (cx_ChannelId x) (cx_SduId x) (cx_PduId x) handle (cx_SduLength x).

Definition ctx_set_frame (flow sn can_dl off len : Z) (x : CanTp_RxContextType) : CanTp_RxContextType :=
  mkRxContext (cx_IsFunctional x) (cx_IsPaddingOn x) (cx_IsFdEnabled x) (cx_Address x)
    (cx_FrameType x) flow sn off (cx_AddressSize x)
    can_dl (cx_ChannelId x) (cx_SduId x) (cx_PduId x) (cx_PduRPduHandleId x) len.

(** The loop over the shared flow-control table, from index [i]. *)
Fixpoint SharedFc_loop (n : nat) (i PduId SduId : Z) : M W (option (Z * Z)) :=
  match n with
  | O => mret None
  | S n =>
      C ← cfg;
      e ← lift (aget (SharedFc C) i);
      if (sf_RxFcPduId e =? PduId) && negb (sf_TxSduId e =? SduId) then
        t ← get_txsdu (sf_TxSduId e);
        ch ← get_ch (tx_ChannelId t);
        sub ← get_sub (tx_ChannelId t);
        if (sub =? CANTP_TX_WAIT_FOR_FLOWCONTROL_FRAME) && (sf_TxSduId e =? ch_ActiveSduId ch)
        then mret (Some (tx_ChannelId t, ch_ActiveSduId ch))
        else SharedFc_loop n (i + 1) PduId SduId
      else SharedFc_loop n (i + 1) PduId SduId
  end.

Definition CanTp_Prv_GetFcActiveChannel (Context : CanTp_RxContextType)
  : M W (Std_ReturnType * CanTp_RxContextType) :=
  C ← cfg;
  '(Status, Context) ←
    (if cx_SduId Context <? NumberOfTxSdus C then
       t ← get_txsdu (cx_SduId Context);
       sub ← get_sub (tx_ChannelId t);
       if sub =? CANTP_TX_WAIT_FOR_FLOWCONTROL_FRAME
       then mret (E_OK, ctx_set_channel (tx_ChannelId t) Context)
       else mret (E_NOT_OK, Context)
     else mret (E_NOT_OK, Context));
  if CANTP_LEGACY_SHARED_FC_SUPPORT && bool_decide (Status = E_NOT_OK) then
    r ← SharedFc_loop (Z.to_nat (NumberOfSharedFc C)) 0 (cx_PduId Context) (cx_SduId Context);
    match r with
    | Some (ChannelId, SduId) =>
        mret (E_OK, ctx_set_sdu SduId (ctx_set_channel ChannelId Context))
    | None => mret (E_NOT_OK, Context)
    end
  else mret (Status, Context).

Definition CanTp_Prv_GetRxContext (Context : CanTp_RxContextType) (PduInfoPtr : PduInfoType)
  : M W (CanTp_ErrorId * CanTp_RxContextType) :=
  C ← cfg;
  match SduDataPtr PduInfoPtr with
  | None => mret (CANTP_E_PARAM_POINTER, Context)
  | Some data =>
      RxPdu ← lift (aget (RxPdu C) (cx_PduId Context));
      let Context := ctx_set_address 0 Context in
      b0 ← lift (aget data 0);
      '(TxSduId, RxSduId, first, Context) ←
        match rp_GetSduPair RxPdu with
        | Some GetSduPair =>
            let '(t, r) := GetSduPair (rp_TxSduId RxPdu) (rp_RxSduId RxPdu) b0 in
            b1 ← lift (aget data 1);
            mret (t, r, b1, ctx_set_address b0 Context)
        | None => mret (rp_TxSduId RxPdu, rp_RxSduId RxPdu, b0, Context)
        end;
      let FrameType := Z.shiftr first CANTP_FRAMETYPE_OFFSET in
      if FrameType <? CANTP_NUMBER_OF_FRAME_TYPES then
        let Context := ctx_set_frametype FrameType Context in
        if FrameType =? CANTP_FLOWCONTROL_FRAME then
          '(ok, Context) ← CanTp_Prv_GetFcActiveChannel (ctx_set_sdu TxSduId Context);
          match ok with
          | E_OK =>
              t ← get_txsdu (cx_SduId Context);
              asize ← lift (aget CanTp_AddressSize (tx_AddressFormatId t));
              mret (CANTP_NO_ERROR,
                    ctx_set_conn (cx_IsFunctional Context)
                      (CanTp_Prv_GetBit (tx_BitFields t) CANTP_PADDINGON)
                      (cx_IsFdEnabled Context) asize (tx_PduRPduHandleId t) Context)
          | E_NOT_OK => mret (CANTP_E_PARAM_CONFIG, Context)
          end
        else
          let Context := ctx_set_sdu RxSduId Context in
          if cx_SduId Context <? NumberOfRxSdus C then
            r ← get_rxsdu RxSduId;
            asize ← lift (aget CanTp_AddressSize (rx_AddressFormatId r));
            let IsFunctional := CanTp_Prv_GetBit (rx_BitFields r) CANTP_FUNCTIONAL in
            mret (if IsFunctional && negb (FrameType =? CANTP_SINGLE_FRAME)
                  then CANTP_E_INVALID_TATYPE else CANTP_NO_ERROR,
                  ctx_set_conn IsFunctional
                    (CanTp_Prv_GetBit (rx_BitFields r) CANTP_PADDINGON)
                    (CanTp_Prv_GetBit (rx_BitFields r) CANTP_FD_ENABLED)
                    asize (rx_PduRPduHandleId r) (ctx_set_channel (rx_ChannelId r) Context))
          else mret (CANTP_E_PARAM_CONFIG, Context)
      else mret (CANTP_E_PARAM_CONFIG, Context)
  end.

(** *** Length check of a received frame

    Each case yields (CAN_DL, DataOffset, SduLength); the flow status and the
    sequence number are read from the PCI where the frame has them. *)

Definition SfLengthCheck (Context : CanTp_RxContextType) (Len : Z) (data : list Z) (nib : Z)
  : option (Z * Z * Z) :=
  let a := cx_AddressSize Context in
  if Len <=? CANTP_DEFAULT_CAN_DL then
    pci ← aget CanTp_PciSize CANTP_NPCI_SFCAN;
    let DataOffset := u8 (a + pci) in
    let CAN_DL :=
      if negb (nib =? 0) && (nib <=? CANTP_DEFAULT_CAN_DL - DataOffset)
      then (if cx_IsPaddingOn Context then CANTP_DEFAULT_CAN_DL else u8 (DataOffset + nib))
      else CANTP_INVALID_DL in
    Some (CAN_DL, DataOffset, nib)
  else if CANTP_CANFD_SUPPORT then
    pci ← aget CanTp_PciSize CANTP_NPCI_SFCANFD;
    let DataOffset := u8 (a + pci) in
    SF_DL ← aget data (a + 1);
    CAN_DL ←
      (if (nib =? 0) && (7 - a <? SF_DL) && (SF_DL <=? Len - DataOffset) &&
          (a + 2 + SF_DL <=? CANTP_MAX_NPDU_LENGTH)
       then (if cx_IsPaddingOn Context then CanTp_Prv_GetCanDl (DataOffset + SF_DL)
             else Some (u8 (DataOffset + SF_DL)))
       else Some CANTP_INVALID_DL);
    Some (CAN_DL, DataOffset, SF_DL)
  else Some (CANTP_INVALID_DL, 0, 0).

Definition FfLengthCheck (Context : CanTp_RxContextType) (Len : Z) (data : list Z)
  : option (Z * Z * Z) :=
  let a := cx_AddressSize Context in
  let CAN_DL := u8 Len in
  let RX_DL := if CanTp_Prv_IsRxDlInValid CAN_DL then CANTP_INVALID_DL else CAN_DL in
  let FF_DLmin := plen (u32 (RX_DL - a - (if CANTP_DEFAULT_CAN_DL <? CAN_DL then 1 else 0))) in
  d0 ← aget data a; d1 ← aget data (a + 1);
  let FfDlValue12bit := plen (Z.land d0 CANTP_LOWERNIBBLE_MASK * 0x100 + d1) in
  '(FF_DL, DataOffset, RX_DL) ←
    (if FfDlValue12bit =? 0 then
       d2 ← aget data (a + 2); d3 ← aget data (a + 3);
       d4 ← aget data (a + 4); d5 ← aget data (a + 5);
       pci ← aget CanTp_PciSize CANTP_NPCI_FFCANFD;
       let FF_DL := u32 (d2 * 0x1000000 + d3 * 0x10000 + d4 * 0x100 + d5) in
       Some (FF_DL, u8 (a + pci),
             if (CANTP_MAXFDFFDL <? FF_DL) || (FF_DL <=? CANTP_MAXFFDL)
             then CANTP_INVALID_DL else RX_DL)
     else
       pci ← aget CanTp_PciSize CANTP_NPCI_FFCAN;
       Some (FfDlValue12bit, u8 (a + pci), RX_DL));
  let RX_DL := if cx_IsFunctional Context || (FF_DL <? FF_DLmin) then CANTP_INVALID_DL else RX_DL in
  Some (RX_DL, DataOffset, plen FF_DL).

Definition CfLengthCheck (Context : CanTp_RxContextType) (Remaining RX_DL : Z) : option (Z * Z * Z) :=
  let DataOffset := u8 (cx_AddressSize Context + CANTP_CF_PCISIZE) in
  let MaxCfSduLength := u8 (RX_DL - DataOffset) in
  let CAN_DL := if Remaining <? MaxCfSduLength then u8 (Remaining + DataOffset) else RX_DL in
  CAN_DL ← (if cx_IsPaddingOn Context then CanTp_Prv_GetCanDl CAN_DL else Some CAN_DL);
  Some (CAN_DL, DataOffset, 0).

Definition FcLengthCheck (Context : CanTp_RxContextType) : Z * Z * Z :=
  (if cx_IsPaddingOn Context then CANTP_DEFAULT_CAN_DL
   else u8 (CANTP_FC_PCISIZE + cx_AddressSize Context),
   u8 (cx_AddressSize Context + 1), 0).

Definition CanTp_Prv_RxSduLengthCheck (Context : CanTp_RxContextType) (PduInfoPtr : PduInfoType)
  : M W (Std_ReturnType * CanTp_RxContextType) :=
  data ← lift (SduDataPtr PduInfoPtr);
  d0 ← lift (aget data (cx_AddressSize Context));
  let nib := Z.land d0 CANTP_LOWERNIBBLE_MASK in
  let Len := SduLength PduInfoPtr in
  '(CAN_DL, DataOffset, SduLen, Flow, Sn) ←
    (if cx_FrameType Context =? CANTP_SINGLE_FRAME then
       '(c, o, l) ← lift (SfLengthCheck Context Len data nib);
       mret (c, o, l, cx_FlowStatus Context, cx_SN Context)
     else if cx_FrameType Context =? CANTP_FIRST_FRAME then
       '(c, o, l) ← lift (FfLengthCheck Context Len data);
       mret (c, o, l, cx_FlowStatus Context, cx_SN Context)
     else if cx_FrameType Context =? CANTP_CONSECUTIVE_FRAME then
       ch ← get_ch (cx_ChannelId Context);
       RX_DL ← CanTp_Prv_GetRxDl (cx_ChannelId Context);
       '(c, o, l) ← lift (CfLengthCheck Context (ch_SduLengthRemaining ch) RX_DL);
       mret (c, o, l, cx_FlowStatus Context, nib)
     else if cx_FrameType Context =? CANTP_FLOWCONTROL_FRAME then
       let '(c, o, l) := FcLengthCheck Context in mret (c, o, l, nib, cx_SN Context)
     else mret (CANTP_INVALID_DL, 0, 0, cx_FlowStatus Context, cx_SN Context));
  mret (CanTp_Cfg_DlcCheck Len CAN_DL, ctx_set_frame Flow Sn CAN_DL DataOffset SduLen Context).

(** *** Acceptance of a new reception *)

Definition CanTp_Prv_GetConnectionAcceptance (Context : CanTp_RxContextType) (PduInfoPtr : PduInfoType)
  : M W Std_ReturnType :=
  OldChannelState ← CanTp_Prv_GetState (cx_ChannelId Context);
  fd ← (if CANTP_FD_CALLOUT_SUPPORT then
          u ← gets up;
          let '(r, u') := CanTp_FdCallOut (cx_PduId Context) PduInfoPtr (cx_IsFdEnabled Context) u in
          modify (set_up u');; mret r
        else mret E_OK);
  match fd with
  | E_NOT_OK => mret E_NOT_OK
  | E_OK =>
      accepted ←
        (if OldChannelState =? CANTP_IDLE then mret true
         else
           ch ← get_ch (cx_ChannelId Context);
           if (OldChannelState =? CANTP_RECEPTION) && (ch_ActiveSduId ch =? cx_SduId Context) then
             CanTp_Prv_PduRConfirmation CANTP_RX_PDUR_CONFIRMATION (cx_PduRPduHandleId Context) E_NOT_OK;;
             mret true
           else mret false);
      if accepted : bool then
        set_sub (cx_ChannelId Context) CANTP_RX_RECEPTION_REQUEST_ACCEPTED;; mret E_OK
      else mret E_NOT_OK
  end.

(** *** Flow-control parameters *)

(** STmin of a flow-control frame, in microseconds. *)
Definition StminUs (b : Z) : Z :=
  if b <=? CANTP_MILLISEC_MAX_RANGE then b * 1000
  else if (b <? CANTP_MICROSEC_MIN_RANGE) || (CANTP_MICROSEC_MAX_RANGE <? b) then 127000
  else Z.land b CANTP_LOWERNIBBLE_MASK * 100.

Definition CanTp_Prv_SetTxBlockInfo (Context : CanTp_RxContextType) (PduInfoPtr : PduInfoType)
  : M W unit :=
  let c := cx_ChannelId Context in
  ch ← get_ch c;
  when (CANTP_DYNAMIC_FC_SUPPORT || (ch_STminTicks ch =? CANTP_INVALID_STMIN_TICKS))
    (data ← lift (SduDataPtr PduInfoPtr);
     bs ← lift (aget data (cx_DataOffset Context));
     st ← lift (aget data (cx_DataOffset Context + 1));
     upd_ch c (set_ch_BS bs);;
     upd_ch c (set_ch_STminTicks (tick (CanTp_Cfg_GetUsToTicks (StminUs st)))));;
  BlockCfsRemaining ← CanTp_Prv_GetTxBlockCfs c;
  ch ← get_ch c;
  if (ch_BS ch =? 0) || (BlockCfsRemaining <? ch_BS ch)
  then upd_ch c (set_ch_BlockCfsRemaining BlockCfsRemaining)
  else upd_ch c (set_ch_BlockCfsRemaining (u16 (ch_BS ch))).

Definition pair_get (p : Z * Z) (parameter : TPParameterType) : Z :=
  if bool_decide (parameter = TP_STMIN) then fst p else snd p.

Definition CanTp_Prv_GetRxParam (id : Z) (parameter : TPParameterType) : M W Z :=
  p ← (if CANTP_CHANGE_PARAMETER_API
       then l ← gets (λ w, CanTp_ParamPair (tp w)); lift (aget l id)
       else CanTp_Prv_GetRxCfgParam id);
  mret (pair_get p parameter).

Definition CanTp_Prv_SetRxBlockInfo (ChannelId RemBufSize : Z) : M W unit :=
  ch ← get_ch ChannelId;
  Connection ← get_rxsdu (ch_ActiveSduId ch);
  RX_DL ← CanTp_Prv_GetRxDl ChannelId;
  asize ← lift (aget CanTp_AddressSize (rx_AddressFormatId Connection));
  let OneFramePayloadLength := plen (RX_DL - asize - CANTP_CF_PCISIZE) in
  BS ←
    (if CANTP_DYNAMIC_FC_SUPPORT || (ch_STminTicks ch =? CANTP_INVALID_STMIN_TICKS) then
       BSMax ← CanTp_Prv_GetRxParam (ch_ActiveSduId ch) TP_BS;
       if ch_SduLengthRemaining ch <=? RemBufSize then mret BSMax
       else if OneFramePayloadLength =? 0 then ub
       else
         let BS := u8 (RemBufSize / OneFramePayloadLength) in
         mret (if negb (BSMax =? 0) && (BSMax <? BS) then BSMax else BS)
     else mret (ch_BS ch));
  (if ((BS =? 0) && (RemBufSize <? ch_SduLengthRemaining ch)) ||
      (negb (BS =? 0) && (RemBufSize <? BS * OneFramePayloadLength) &&
       (RemBufSize <? ch_SduLengthRemaining ch))
   then upd_ch ChannelId (set_ch_FlowStatus CANTP_FC_WAIT)
   else
     BlockCfsRemaining ← CanTp_Prv_GetRxBlockCfs ChannelId;
     upd_ch ChannelId (set_ch_BlockCfsRemaining (if negb (BS =? 0) then BS else BlockCfsRemaining));;
     upd_ch ChannelId (set_ch_FlowStatus CANTP_FC_CTS);;
     when (negb CANTP_DYNAMIC_FC_SUPPORT) (upd_ch ChannelId (set_ch_STminTicks 0)));;
  upd_ch ChannelId (set_ch_BS BS).

Definition CanTp_Prv_PageConfirmation (Context : CanTp_TxContextType) : M W unit :=
  ch ← get_ch (tc_ChannelId Context);
  when (ch_TxBufferStatus ch =? CANTP_BUFFER_NOT_ASKED)
    (_ ← call_CopyTxData (tc_PduRPduHandleId Context) (tc_PayLoadLength Context);
     upd_ch (tc_ChannelId Context) (set_ch_TxBufferStatus CANTP_BUFFER_ASKED)).

Definition CanTp_Prv_FcTxConfirmation (ChannelId : Z) : M W unit :=
  ch ← get_ch ChannelId;
  RxConnection ← get_rxsdu (ch_ActiveSduId ch);
  if ch_FlowStatus ch =? CANTP_FC_CTS then set_sub ChannelId CANTP_RX_WAIT_FOR_CONSECUTIVE_FRAME
  else if ch_FlowStatus ch =? CANTP_FC_WAIT then
    set_sub ChannelId (if 0 <? ch_SduLengthRemaining ch then CANTP_RX_SEND_FC else CANTP_IDLE)
  else if ch_FlowStatus ch =? CANTP_FC_OVERFLOW then
    CanTp_Prv_PduRConfirmation CANTP_RX_PDUR_CONFIRMATION (rx_PduRPduHandleId RxConnection) E_NOT_OK;;
    set_sub ChannelId CANTP_IDLE
  else mret tt.

Definition CanTp_Prv_PrepareFcTransmit (ChannelId : Z) : M W unit :=
  ch ← get_ch ChannelId;
  when (ch_BlockCfsRemaining ch =? 0)
    (upd_ch ChannelId (set_ch_FcWait 0);;
     upd_ch ChannelId (set_ch_FlowStatus CANTP_FC_WAIT);;
     set_sub ChannelId CANTP_RX_SEND_FC).

Definition CanTp_Prv_PrepareFcRecieve (ChannelId : Z) : M W unit :=
  disabled ←
    (if CANTP_FC_DISABLE_SUPPORT then
       ch ← get_ch ChannelId; t ← get_txsdu (ch_ActiveSduId ch);
       mret (CanTp_Prv_GetBit (tx_BitFields t) CANTP_FC_DISABLED)
     else mret false);
  (if disabled : bool then
     n ← CanTp_Prv_GetTxBlockCfs ChannelId;
     upd_ch ChannelId (set_ch_BlockCfsRemaining n);;
     upd_ch ChannelId (set_ch_STminTicks CANTP_DEFAULT_STMIN_TICKS);;
     set_sub ChannelId CANTP_TX_SEND_CONSECUTIVE_FRAME
   else set_sub ChannelId CANTP_TX_WAIT_FOR_FLOWCONTROL_FRAME);;
  upd_ch ChannelId (set_ch_PciId CANTP_NPCI_FC).

Definition CanTp_Prv_LengthError (Context : CanTp_RxContextType) : M W unit :=
  let Api := if cx_FrameType Context =? CANTP_FLOWCONTROL_FRAME
             then CANTP_TX_PDUR_CONFIRMATION else CANTP_RX_PDUR_CONFIRMATION in
  sub ← get_sub (cx_ChannelId Context);
  when ((sub =? CANTP_TX_WAIT_FOR_FLOWCONTROL_FRAME) || (sub =? CANTP_RX_WAIT_FOR_CONSECUTIVE_FRAME))
    (CanTp_Prv_PduRConfirmation Api (cx_PduRPduHandleId Context) E_NOT_OK;;
     set_sub (cx_ChannelId Context) CANTP_IDLE);;
  if cx_IsPaddingOn Context then CanTp_Prv_ReportError CANTP_RXINDICATION CANTP_E_PADDING
  else CanTp_Prv_ReportRunTimeError CANTP_RXINDICATION CANTP_E_COM.

Fixpoint PbCfgCheck_loop (l : list Z) (addr : Z) : Std_ReturnType :=
  match l with
  | [] => E_NOT_OK
  | p :: l => if p =? addr then E_OK else PbCfgCheck_loop l addr
  end.

Definition CanTp_Prv_PbCfgCheck (CfgPtr : CanTp_ConfigType) : Std_ReturnType :=
  PbCfgCheck_loop CanTp_CfgPtrs (CfgAddr CfgPtr).
End CanTp_Prv.
