(* ===== verification/CanTpFrames.v ===== *)
(** * CanTp: assembly and transmission of frames

    The four frame builders of CanTp_Prv.c, the negotiation of the transmit
    buffer, and the wrappers around CanIf_Transmit. *)

From S2P Require Import Prelude ComStack CanTpTypes CanTpPrv.
From stdpp Require Import base list numbers option.

#[local] Open Scope Z_scope.

Section CanTp_Frames.
Context `{CanTp_Cfg} {U : Type} `{CanTp_Env U}.
Abbreviation W := (World U).

(** Write the address byte of an extended or mixed connection at the front of
    the frame; the answer is the index at which the PCI starts. *)
Definition put_address (buf : list Z) (FormatId Address : Z) : option (list Z * Z) :=
  if negb (FormatId =? CANTP_STANDARD) then l ← aset buf 0 Address; Some (l, 1)
  else Some (buf, 0).

(** Pad the frame from [DataOffset + len] up to the CAN_DL of the frame. *)
Definition pad_frame (padding : bool) (buf : list Z) (DataOffset len : Z) : option (list Z * Z) :=
  if padding then
    CAN_DL ← CanTp_Prv_GetCanDl (DataOffset + len);
    let PaddingOffset := u8 (DataOffset + len) in
    l ← CanTp_Prv_ArrayInit buf PaddingOffset (CAN_DL - PaddingOffset) CANTP_PADDING_BYTE;
    Some (l, CAN_DL)
  else Some (buf, u8 (DataOffset + len)).

(** The PCI of a single frame at index [p]. *)
Definition sf_pci (PciId SduLen : Z) (buf : list Z) (p : Z) : option (list Z) :=
  if PciId =? CANTP_NPCI_SFCAN then aset buf p (u8 SduLen)
  else if CANTP_CANFD_SUPPORT && (PciId =? CANTP_NPCI_SFCANFD) then
    l ← aset buf p 0x00; aset l (p + 1) (u8 SduLen)
  else Some buf.

(** The PCI of a first frame at index [p]. *)
Definition ff_pci (PciId SduLen : Z) (buf : list Z) (p : Z) : option (list Z) :=
  if PciId =? CANTP_NPCI_FFCAN then
    l ← aset buf p (u8 (0x10 + u8 (Z.shiftr SduLen 8))); aset l (p + 1) (u8 SduLen)
  else if CANTP_CANFD_SUPPORT && (PciId =? CANTP_NPCI_FFCANFD) then
    l ← aset buf p 0x10;
    l ← aset l (p + 1) 0x00;
    l ← aset l (p + 2) (u8 (Z.shiftr SduLen 24));
    l ← aset l (p + 3) (u8 (Z.shiftr SduLen 16));
    l ← aset l (p + 4) (u8 (Z.shiftr SduLen 8));
    aset l (p + 5) (u8 SduLen)
  else Some buf.

Definition CanTp_Prv_CreateTxSingleFrame (ChannelId : Z) (PduInfoPtr : PduInfoType)
  : M W (Std_ReturnType * PduInfoType) :=
  sub ← get_sub ChannelId;
  if sub =? CANTP_TX_WAIT_FOR_TRANSMIT_CONFIRMATION then
    ch ← get_ch ChannelId;
    Connection ← get_txsdu (ch_ActiveSduId ch);
    asize ← lift (aget CanTp_AddressSize (tx_AddressFormatId Connection));
    pci ← lift (aget CanTp_PciSize (ch_PciId ch));
    let DataOffset := u8 (asize + pci) in
    let len := u8 (ch_SduLengthRemaining ch) in
    buf ← lift (SduDataPtr PduInfoPtr);
    '(res, data, _) ← call_CopyTxData (tx_PduRPduHandleId Connection) len;
    buf ← lift (awrite buf DataOffset data);
    if decide (res = BUFREQ_OK) then
      '(buf, CAN_DL) ← lift (pad_frame (CanTp_Prv_GetBit (tx_BitFields Connection) CANTP_PADDINGON)
                               buf DataOffset len);
      '(buf, p) ← lift (put_address buf (tx_AddressFormatId Connection) (tx_Address Connection));
      buf ← lift (sf_pci (ch_PciId ch) (ch_SduLength ch) buf p);
      mret (E_OK, mkPduInfo (Some buf) CAN_DL)
    else
      CanTp_Prv_ReportRunTimeError CANTP_TRIGGERTRANSMIT CANTP_E_COM;;
      mret (E_NOT_OK, mkPduInfo (Some buf) 0)
  else mret (E_NOT_OK, PduInfoPtr).

Definition CanTp_Prv_CreateTxFirstFrame (ChannelId : Z) (PduInfoPtr : PduInfoType)
  : M W (Std_ReturnType * PduInfoType) :=
  sub ← get_sub ChannelId;
  if sub =? CANTP_TX_WAIT_FOR_TRANSMIT_CONFIRMATION then
    ch ← get_ch ChannelId;
    Connection ← get_txsdu (ch_ActiveSduId ch);
    asize ← lift (aget CanTp_AddressSize (tx_AddressFormatId Connection));
    pci ← lift (aget CanTp_PciSize (ch_PciId ch));
    let DataOffset := u8 (asize + pci) in
    let CAN_DL := CanTp_Prv_GetTxDl Connection in
    buf ← lift (SduDataPtr PduInfoPtr);
    '(res, data, _) ← call_CopyTxData (tx_PduRPduHandleId Connection) (plen (CAN_DL - DataOffset));
    buf ← lift (awrite buf DataOffset data);
    if decide (res = BUFREQ_OK) then
      '(buf, p) ← lift (put_address buf (tx_AddressFormatId Connection) (tx_Address Connection));
      buf ← lift (ff_pci (ch_PciId ch) (ch_SduLength ch) buf p);
      mret (E_OK, mkPduInfo (Some buf) CAN_DL)
    else
      CanTp_Prv_ReportRunTimeError CANTP_TRIGGERTRANSMIT CANTP_E_COM;;
      mret (E_NOT_OK, mkPduInfo (Some buf) 0)
  else mret (E_NOT_OK, PduInfoPtr).

Definition CanTp_Prv_CreateTxConsecutiveFrame (ChannelId : Z) (PduInfoPtr : PduInfoType)
  : M W (Std_ReturnType * PduInfoType) :=
  sub ← get_sub ChannelId;
  if sub =? CANTP_TX_WAIT_FOR_TRANSMIT_CONFIRMATION then
    ch ← get_ch ChannelId;
    Connection ← get_txsdu (ch_ActiveSduId ch);
    asize ← lift (aget CanTp_AddressSize (tx_AddressFormatId Connection));
    let DataOffset := u8 (asize + CANTP_CF_PCISIZE) in
    let CAN_DL := CanTp_Prv_GetTxDl Connection in
    let MaxCopyLength := u8 (CAN_DL - DataOffset) in
    let Remaining := ch_SduLengthRemaining ch in
    let len := if MaxCopyLength <? Remaining then MaxCopyLength else u8 Remaining in
    buf ← lift (SduDataPtr PduInfoPtr);
    '(res, data, _) ← call_CopyTxData (tx_PduRPduHandleId Connection) len;
    buf ← lift (awrite buf DataOffset data);
    if decide (res = BUFREQ_OK) then
      '(buf, CAN_DL) ←
        (if Remaining <? MaxCopyLength
         then lift (pad_frame (CanTp_Prv_GetBit (tx_BitFields Connection) CANTP_PADDINGON)
                      buf DataOffset len)
         else mret (buf, CAN_DL));
      '(buf, p) ← lift (put_address buf (tx_AddressFormatId Connection) (tx_Address Connection));
      buf ← lift (aset buf p (Z.lor CANTP_CF_HIGHNIBBLE (ch_SN ch)));
      mret (E_OK, mkPduInfo (Some buf) CAN_DL)
    else
      CanTp_Prv_ReportRunTimeError CANTP_TRIGGERTRANSMIT CANTP_E_COM;;
      mret (E_NOT_OK, mkPduInfo (Some buf) 0)
  else mret (E_NOT_OK, PduInfoPtr).

Definition CanTp_Prv_CreateTxFlowControlFrame (ChannelId : Z) (PduInfoPtr : PduInfoType)
  : M W (Std_ReturnType * PduInfoType) :=
  sub ← get_sub ChannelId;
  if sub =? CANTP_RX_WAIT_FOR_FCTRANSMIT_CONFIRMATION then
    ch ← get_ch ChannelId;
    Connection ← get_rxsdu (ch_ActiveSduId ch);
    STMin ← CanTp_Prv_GetRxParam (ch_ActiveSduId ch) TP_STMIN;
    buf ← lift (SduDataPtr PduInfoPtr);
    '(buf, p) ← lift (put_address buf (rx_AddressFormatId Connection) (rx_Address Connection));
    buf ← lift (aset buf p (u8 (Z.lor CANTP_FC_HIGHNIBBLE (ch_FlowStatus ch))));
    buf ← lift (aset buf (p + 1) (ch_BS ch));
    buf ← lift (aset buf (p + 2) STMin);
    if CanTp_Prv_GetBit (rx_BitFields Connection) CANTP_PADDINGON then
      asize ← lift (aget CanTp_AddressSize (rx_AddressFormatId Connection));
      let PaddingOffset := u8 (asize + CANTP_FC_PCISIZE) in
      buf ← lift (CanTp_Prv_ArrayInit buf (p + 3) (CANTP_DEFAULT_CAN_DL - PaddingOffset)
                    CANTP_PADDING_BYTE);
      mret (E_OK, mkPduInfo (Some buf) CANTP_DEFAULT_CAN_DL)
    else mret (E_OK, mkPduInfo (Some buf) (CANTP_FC_PCISIZE + p))
  else mret (E_NOT_OK, mkPduInfo (SduDataPtr PduInfoPtr) 0).

(** Dispatch through CanTp_CreateFrame on the frame type of the PCI. *)
Definition CanTp_Prv_CreateFrame (ChannelId : Z) (PduInfoPtr : PduInfoType)
  : M W (Std_ReturnType * PduInfoType) :=
  ch ← get_ch ChannelId;
  ft ← lift (aget CanTp_PciFrameType (ch_PciId ch));
  if ft =? CANTP_SINGLE_FRAME then CanTp_Prv_CreateTxSingleFrame ChannelId PduInfoPtr
  else if ft =? CANTP_FIRST_FRAME then CanTp_Prv_CreateTxFirstFrame ChannelId PduInfoPtr
  else if ft =? CANTP_CONSECUTIVE_FRAME then CanTp_Prv_CreateTxConsecutiveFrame ChannelId PduInfoPtr
  else CanTp_Prv_CreateTxFlowControlFrame ChannelId PduInfoPtr.

Definition CanTp_Prv_GetTxBuffer (Context : CanTp_TxContextType) : M W unit :=
  let c := tc_ChannelId Context in
  ch ← get_ch c;
  if tc_ElapsedValue Context <? tc_CsTicks Context then
    when (negb (ch_TxBufferStatus ch =? CANTP_BUFFER_AVAILABLE))
      ('(res, _, RemBufSize) ← call_CopyTxData (tc_PduRPduHandleId Context) 0;
       match res with
       | BUFREQ_OK =>
           if tc_PayLoadLength Context <=? RemBufSize
           then upd_ch c (set_ch_TxBufferStatus CANTP_BUFFER_AVAILABLE)
           else when CANTP_PAGE_CONFIRMATION (CanTp_Prv_PageConfirmation Context)
       | BUFREQ_E_BUSY => mret tt
       | _ =>
           CanTp_Prv_PduRConfirmation (tc_PduRApiId Context) (tc_PduRPduHandleId Context) E_NOT_OK;;
           CanTp_Prv_ReportRunTimeError CANTP_MAINFUNCTION CANTP_E_COM;;
           set_sub c CANTP_IDLE
       end)
  else
    when (negb (ch_TxBufferStatus ch =? CANTP_BUFFER_AVAILABLE))
      (CanTp_Prv_PduRConfirmation (tc_PduRApiId Context) (tc_PduRPduHandleId Context) E_NOT_OK;;
       CanTp_Prv_ReportRunTimeError CANTP_MAINFUNCTION CANTP_E_TX_COM;;
       set_sub c CANTP_IDLE).

(** [Len] is the SduLength of the caller's CanIfTxInfo, whose data pointer is NULL. *)
Definition CanTp_Prv_CanIfTransmit (Context : CanTp_TxContextType) (Len : Z) : M W unit :=
  '(Result, Info) ←
    (if CANTP_TRIGGER_TRANSMIT_API && CanTp_Prv_GetBit (tc_BitFields Context) CANTP_TRIGGER_TRANSMIT_ON
     then mret (E_OK, mkPduInfo None Len)
     else CanTp_Prv_CreateFrame (tc_ChannelId Context) (mkPduInfo (Some SduBuffer_garbage) Len));
  match Result with
  | E_OK =>
      set_conf (tc_TxConfirmationId Context) (tc_ChannelId Context);;
      r ← call_CanIf_Transmit (tc_PduId Context) (SduDataPtr Info) (SduLength Info);
      match r with
      | E_OK => mret tt
      | E_NOT_OK =>
          CanTp_Prv_PduRConfirmation (tc_PduRApiId Context) (tc_PduRPduHandleId Context) E_NOT_OK;;
          CanTp_Prv_ReportRunTimeError CANTP_MAINFUNCTION CANTP_E_COM;;
          set_sub (tc_ChannelId Context) CANTP_IDLE;;
          set_conf (tc_TxConfirmationId Context) CANTP_INVALID_CHANNEL
      end
  | E_NOT_OK => mret tt
  end.

Definition CanTp_Prv_FcTransmit (Context : CanTp_TxContextType) (Len : Z)
    (IsFcTransmitReady : bool) (Value : Z) : M W unit :=
  let c := tc_ChannelId Context in
  sub ← get_sub c;
  when (IsFcTransmitReady && (sub =? CANTP_RX_SEND_FC))
    (upd_ch c (set_ch_InitialTicks Value);;
     upd_ch c (set_ch_PciId CANTP_NPCI_FC);;
     set_sub c CANTP_RX_WAIT_FOR_FCTRANSMIT_CONFIRMATION;;
     disabled ←
       (if CANTP_FC_DISABLE_SUPPORT then
          ch ← get_ch c; r ← get_rxsdu (ch_ActiveSduId ch);
          mret (CanTp_Prv_GetBit (rx_BitFields r) CANTP_FC_DISABLED)
        else mret false);
     if disabled : bool then
       ch ← get_ch c;
       if negb (ch_FlowStatus ch =? CANTP_FC_OVERFLOW) &&
          (ch_SduLengthRemaining ch <=? tc_RemBufSize Context)
       then
         n ← CanTp_Prv_GetRxBlockCfs c;
         upd_ch c (set_ch_BlockCfsRemaining n);;
         upd_ch c (set_ch_STminTicks CANTP_DEFAULT_STMIN_TICKS);;
         set_sub c CANTP_RX_WAIT_FOR_CONSECUTIVE_FRAME
       else
         CanTp_Prv_PduRConfirmation (tc_PduRApiId Context) (tc_PduRPduHandleId Context) E_NOT_OK;;
         set_sub c CANTP_IDLE
     else CanTp_Prv_CanIfTransmit Context Len).
End CanTp_Frames.
