(* ===== verification/CanTpChan.v ===== *)
(** * CanTp: processing of received frames and the channel state functions

    The functions of CanTp_Prv.c behind CanTp_ProcessFrame and
    CanTp_StateFunctions. *)

From S2P Require Import Prelude ComStack CanTpTypes CanTpPrv CanTpFrames.
From stdpp Require Import base list numbers option.

#[local] Open Scope Z_scope.

Section CanTp_Chan.
Context `{CanTp_Cfg} {U : Type} `{CanTp_Env U}.
Abbreviation W := (World U).

(** ** Received frames *)

Definition CanTp_Prv_ProcessRxSingleFrame (Context : CanTp_RxContextType) (PduInfoPtr : PduInfoType)
  : M W unit :=
  let c := cx_ChannelId Context in
  '(Value, _) ← CanTp_GetElapsedValue 0;
  ok ← CanTp_Prv_GetConnectionAcceptance Context PduInfoPtr;
  when (bool_decide (ok = E_OK))
    (upd_ch c (set_ch_ActiveSduId (cx_SduId Context));;
     upd_ch c (set_ch_SduLength (cx_SduLength Context));;
     upd_ch c (set_ch_SduLengthRemaining (cx_SduLength Context));;
     CanTp_Prv_SetRxDl c (u8 (SduLength PduInfoPtr));;
     upd_ch c (set_ch_InitialTicks Value);;
     data ← lift (SduDataPtr PduInfoPtr);
     sdu ← lift (aslice data (cx_DataOffset Context) (cx_SduLength Context));
     '(RetValue, RemBufSize) ← call_StartOfReception (cx_PduRPduHandleId Context) sdu (cx_SduLength Context);
     match RetValue with
     | BUFREQ_OK =>
         if cx_SduLength Context <=? RemBufSize then
           '(r, _) ← call_CopyRxData (cx_PduRPduHandleId Context) sdu;
           CanTp_Prv_PduRConfirmation CANTP_RX_PDUR_CONFIRMATION (cx_PduRPduHandleId Context)
             (if decide (r = BUFREQ_OK) then E_OK else E_NOT_OK)
         else
           CanTp_Prv_PduRConfirmation CANTP_RX_PDUR_CONFIRMATION (cx_PduRPduHandleId Context) E_NOT_OK
     | BUFREQ_E_OVFL =>
         CanTp_Prv_PduRConfirmation CANTP_RX_PDUR_CONFIRMATION (cx_PduRPduHandleId Context) E_NOT_OK
     | _ => mret tt
     end;;
     set_sub c CANTP_IDLE).

Definition CanTp_Prv_ProcessRxFirstFrame (Context : CanTp_RxContextType) (PduInfoPtr : PduInfoType)
  : M W unit :=
  let c := cx_ChannelId Context in
  '(Value, _) ← CanTp_GetElapsedValue 0;
  let PayLoadLength := u8 (SduLength PduInfoPtr - cx_DataOffset Context) in
  ok ← CanTp_Prv_GetConnectionAcceptance Context PduInfoPtr;
  when (bool_decide (ok = E_OK))
    (upd_ch c (set_ch_ActiveSduId (cx_SduId Context));;
     upd_ch c (set_ch_SduLength (cx_SduLength Context));;
     CanTp_Prv_SetRxDl c (u8 (SduLength PduInfoPtr));;
     upd_ch c (set_ch_InitialTicks Value);;
     data ← lift (SduDataPtr PduInfoPtr);
     sdu ← lift (aslice data (cx_DataOffset Context) PayLoadLength);
     '(RetValue, RemBufSize) ← call_StartOfReception (cx_PduRPduHandleId Context) sdu (cx_SduLength Context);
     '(NewSubState, Flow) ←
       match RetValue with
       | BUFREQ_OK =>
           if PayLoadLength <=? RemBufSize then
             '(r, _) ← call_CopyRxData (cx_PduRPduHandleId Context) sdu;
             if decide (r = BUFREQ_OK) then
               upd_ch c (set_ch_SduLengthRemaining (plen (cx_SduLength Context - PayLoadLength)));;
               upd_ch c (set_ch_BS 0);;
               upd_ch c (set_ch_STminTicks CANTP_INVALID_STMIN_TICKS);;
               upd_ch c (set_ch_FcWait 0);;
               upd_ch c (set_ch_SN 1);;
               mret (CANTP_RX_SEND_FC, CANTP_FC_WAIT)
             else
               CanTp_Prv_PduRConfirmation CANTP_RX_PDUR_CONFIRMATION (cx_PduRPduHandleId Context) E_NOT_OK;;
               CanTp_Prv_ReportRunTimeError CANTP_RXINDICATION CANTP_E_COM;;
               mret (CANTP_IDLE, CANTP_FC_WAIT)
           else
             CanTp_Prv_PduRConfirmation CANTP_RX_PDUR_CONFIRMATION (cx_PduRPduHandleId Context) E_NOT_OK;;
             mret (CANTP_IDLE, CANTP_FC_WAIT)
       | BUFREQ_E_OVFL =>
           upd_ch c (set_ch_BS 0);; mret (CANTP_RX_SEND_FC, CANTP_FC_OVERFLOW)
       | _ => mret (CANTP_IDLE, CANTP_FC_WAIT)
       end;
     sub ← get_sub c;
     when (sub =? CANTP_RX_RECEPTION_REQUEST_ACCEPTED)
       (upd_ch c (set_ch_FlowStatus Flow);; set_sub c NewSubState)).

(** [None] stands for CANTP_INVALID_NOTIFY_VALUE. *)
Definition CanTp_Prv_ProcessRxConsecutiveFrame (Context : CanTp_RxContextType) (PduInfoPtr : PduInfoType)
  : M W unit :=
  let c := cx_ChannelId Context in
  ch ← get_ch c;
  '(Value, ElapsedValue) ← CanTp_GetElapsedValue (ch_InitialTicks ch);
  let PayloadLength := u8 (cx_CAN_DL Context - cx_DataOffset Context) in
  sub ← get_sub c;
  when ((sub =? CANTP_RX_WAIT_FOR_CONSECUTIVE_FRAME) && (cx_SduId Context =? ch_ActiveSduId ch) &&
        (0 <? ch_BlockCfsRemaining ch))
    (late ←
       (if CANTP_STRICT_BSCRTIMEOUT_CHECK then
          r ← get_rxsdu (cx_SduId Context); t ← get_timeout (rx_TimeOutId r);
          mret (CsCrTicks t <? ElapsedValue)
        else mret false);
     if late : bool then
       CanTp_Prv_PduRConfirmation CANTP_RX_PDUR_CONFIRMATION (cx_PduRPduHandleId Context) E_NOT_OK;;
       CanTp_Prv_ReportRunTimeError CANTP_RXINDICATION CANTP_E_RX_COM;;
       set_sub c CANTP_IDLE
     else
       NotifyValue ←
         (if cx_SN Context =? ch_SN ch then
            upd_ch c (set_ch_InitialTicks Value);;
            let len := if PayloadLength <? ch_SduLengthRemaining ch then PayloadLength
                       else u8 (ch_SduLengthRemaining ch) in
            data ← lift (SduDataPtr PduInfoPtr);
            sdu ← lift (aslice data (cx_DataOffset Context) len);
            '(r, _) ← call_CopyRxData (cx_PduRPduHandleId Context) sdu;
            if decide (r = BUFREQ_OK) then
              upd_ch c (set_ch_SN (Z.land (u8 (ch_SN ch + 1)) CANTP_LOWERNIBBLE_MASK));;
              upd_ch c (set_ch_SduLengthRemaining (plen (ch_SduLengthRemaining ch - len)));;
              upd_ch c (set_ch_BlockCfsRemaining (plen (ch_BlockCfsRemaining ch - 1)));;
              CanTp_Prv_PrepareFcTransmit c;;
              mret (if negb (plen (ch_SduLengthRemaining ch - len) =? 0) then None else Some E_OK)
            else mret (Some E_NOT_OK)
          else mret (Some E_NOT_OK));
       match NotifyValue with
       | Some v =>
           CanTp_Prv_PduRConfirmation CANTP_RX_PDUR_CONFIRMATION (cx_PduRPduHandleId Context) v;;
           set_sub c CANTP_IDLE
       | None => mret tt
       end).

Definition CanTp_Prv_ProcessRxFlowControlFrame (Context : CanTp_RxContextType) (PduInfoPtr : PduInfoType)
  : M W unit :=
  let c := cx_ChannelId Context in
  ch ← get_ch c;
  '(Value, ElapsedValue) ← CanTp_GetElapsedValue (ch_InitialTicks ch);
  sub ← get_sub c;
  when (sub =? CANTP_TX_WAIT_FOR_FLOWCONTROL_FRAME)
    (late ←
       (if CANTP_STRICT_BSCRTIMEOUT_CHECK then
          t ← get_txsdu (ch_ActiveSduId ch); o ← get_timeout (tx_TimeOutId t);
          mret (BsBrTicks o <? ElapsedValue)
        else mret false);
     if late : bool then
       CanTp_Prv_PduRConfirmation CANTP_TX_PDUR_CONFIRMATION (cx_PduRPduHandleId Context) E_NOT_OK;;
       CanTp_Prv_ReportRunTimeError CANTP_RXINDICATION CANTP_E_TX_COM;;
       set_sub c CANTP_IDLE
     else
       upd_ch c (set_ch_InitialTicks Value);;
       if cx_FlowStatus Context =? CANTP_FC_WAIT then upd_ch c (set_ch_FlowStatus CANTP_FC_WAIT)
       else if cx_FlowStatus Context =? CANTP_FC_CTS then
         upd_ch c (set_ch_FlowStatus CANTP_FC_CTS);;
         CanTp_Prv_SetTxBlockInfo Context PduInfoPtr;;
         set_sub c CANTP_TX_SEND_CONSECUTIVE_FRAME
       else
         CanTp_Prv_PduRConfirmation CANTP_TX_PDUR_CONFIRMATION (cx_PduRPduHandleId Context) E_NOT_OK;;
         set_sub c CANTP_IDLE).

(** Dispatch through CanTp_ProcessFrame. *)
Definition CanTp_Prv_ProcessFrame (Context : CanTp_RxContextType) (PduInfoPtr : PduInfoType) : M W unit :=
  let ft := cx_FrameType Context in
  if ft =? CANTP_SINGLE_FRAME then CanTp_Prv_ProcessRxSingleFrame Context PduInfoPtr
  else if ft =? CANTP_FIRST_FRAME then CanTp_Prv_ProcessRxFirstFrame Context PduInfoPtr
  else if ft =? CANTP_CONSECUTIVE_FRAME then CanTp_Prv_ProcessRxConsecutiveFrame Context PduInfoPtr
  else if ft =? CANTP_FLOWCONTROL_FRAME then CanTp_Prv_ProcessRxFlowControlFrame Context PduInfoPtr
  else ub.

(** ** State functions *)

Definition CanTp_Prv_Idle (ChannelId : Z) : M W unit := mret tt.

Definition CanTp_Prv_TxSendConsecutiveFrame (ChannelId : Z) : M W unit :=
  ch ← get_ch ChannelId;
  '(Value, ElapsedValue) ← CanTp_GetElapsedValue (ch_InitialTicks ch);
  sub ← get_sub ChannelId;
  Connection ← (if sub =? CANTP_TX_SEND_CONSECUTIVE_FRAME
                then t ← get_txsdu (ch_ActiveSduId ch); mret (Some t) else mret None);
  TxConfirmationChannel ← match Connection with
                          | Some t => get_conf (tx_TxConfirmationId t)
                          | None => mret 0
                          end;
  when (TxConfirmationChannel =? CANTP_INVALID_CHANNEL)
    (t ← lift Connection;
     let CAN_DL := CanTp_Prv_GetTxDl t in
     o ← get_timeout (tx_TimeOutId t);
     asize ← lift (aget CanTp_AddressSize (tx_AddressFormatId t));
     let MaxLength := u8 (CAN_DL - CANTP_CF_PCISIZE - asize) in
     let PayLoadLength := if ch_SduLengthRemaining ch <? MaxLength
                          then u8 (ch_SduLengthRemaining ch) else MaxLength in
     let Context := mkTxContext CANTP_TX_PDUR_CONFIRMATION PayLoadLength (tx_BitFields t) ChannelId
                      (tx_TxConfirmationId t) (tx_TxPduId t) (tx_PduRPduHandleId t) 0
                      Value ElapsedValue (CsCrTicks o) in
     CanTp_Prv_GetTxBuffer Context;;
     ch ← get_ch ChannelId;
     when ((ch_TxBufferStatus ch =? CANTP_BUFFER_AVAILABLE) &&
           ((ch_STminTicks ch <=? ElapsedValue) || negb (ch_PciId ch =? CANTP_NPCI_CF)))
       (upd_ch ChannelId (set_ch_PciId CANTP_NPCI_CF);;
        upd_ch ChannelId (set_ch_InitialTicks Value);;
        set_sub ChannelId CANTP_TX_WAIT_FOR_TRANSMIT_CONFIRMATION;;
        CanTp_Prv_CanIfTransmit Context CAN_DL;;
        upd_ch ChannelId (set_ch_TxBufferStatus CANTP_BUFFER_NOT_ASKED))).

Definition CanTp_Prv_TxWaitForFlowControlFrame (ChannelId : Z) : M W unit :=
  ch ← get_ch ChannelId;
  '(_, ElapsedValue) ← CanTp_GetElapsedValue (ch_InitialTicks ch);
  sub ← get_sub ChannelId;
  when (sub =? CANTP_TX_WAIT_FOR_FLOWCONTROL_FRAME)
    (t ← get_txsdu (ch_ActiveSduId ch);
     o ← get_timeout (tx_TimeOutId t);
     when (BsBrTicks o <? ElapsedValue)
       (CanTp_Prv_PduRConfirmation CANTP_TX_PDUR_CONFIRMATION (tx_PduRPduHandleId t) E_NOT_OK;;
        CanTp_Prv_ReportRunTimeError CANTP_MAINFUNCTION CANTP_E_TX_COM;;
        set_sub ChannelId CANTP_IDLE)).

Definition CanTp_Prv_TxWaitForTransmitConfirmation (ChannelId : Z) : M W unit :=
  ch ← get_ch ChannelId;
  '(_, ElapsedValue) ← CanTp_GetElapsedValue (ch_InitialTicks ch);
  sub ← get_sub ChannelId;
  when (sub =? CANTP_TX_WAIT_FOR_TRANSMIT_CONFIRMATION)
    (t ← get_txsdu (ch_ActiveSduId ch);
     o ← get_timeout (tx_TimeOutId t);
     when (AsArTicks o <? ElapsedValue)
       (CanTp_Prv_PduRConfirmation CANTP_TX_PDUR_CONFIRMATION (tx_PduRPduHandleId t) E_NOT_OK;;
        CanTp_Prv_ReportRunTimeError CANTP_MAINFUNCTION CANTP_E_TX_COM;;
        set_conf (tx_TxConfirmationId t) CANTP_INVALID_CHANNEL;;
        set_sub ChannelId CANTP_IDLE)).

Definition CanTp_Prv_TxTransmissionRequestAccepted (ChannelId : Z) : M W unit :=
  ch ← get_ch ChannelId;
  '(Value, ElapsedValue) ← CanTp_GetElapsedValue (ch_InitialTicks ch);
  sub ← get_sub ChannelId;
  Connection ← (if sub =? CANTP_TX_TRANSMISSION_REQUEST_ACCEPTED
                then t ← get_txsdu (ch_ActiveSduId ch); mret (Some t) else mret None);
  TxConfirmationChannel ← match Connection with
                          | Some t => get_conf (tx_TxConfirmationId t)
                          | None => mret 0
                          end;
  if TxConfirmationChannel =? CANTP_INVALID_CHANNEL then
    t ← lift Connection;
    upd_ch ChannelId (set_ch_BlockCfsRemaining 0);;
    upd_ch ChannelId (set_ch_SduLengthRemaining (ch_SduLength ch));;
    upd_ch ChannelId (set_ch_SN 1);;
    asize ← lift (aget CanTp_AddressSize (tx_AddressFormatId t));
    pci ← lift (aget CanTp_PciSize (ch_PciId ch));
    let DataOffset := u8 (asize + pci) in
    let CAN_DL := CanTp_Prv_GetTxDl t in
    let PayLoadLength := if CANTP_NPCI_FFCAN <=? ch_PciId ch then u8 (CAN_DL - DataOffset)
                         else u8 (ch_SduLength ch) in
    o ← get_timeout (tx_TimeOutId t);
    let Context := mkTxContext CANTP_TX_PDUR_CONFIRMATION PayLoadLength (tx_BitFields t) ChannelId
                     (tx_TxConfirmationId t) (tx_TxPduId t) (tx_PduRPduHandleId t) 0
                     Value ElapsedValue (CsCrTicks o) in
    CanTp_Prv_GetTxBuffer Context;;
    ch ← get_ch ChannelId;
    when (ch_TxBufferStatus ch =? CANTP_BUFFER_AVAILABLE)
      (upd_ch ChannelId (set_ch_InitialTicks Value);;
       set_sub ChannelId CANTP_TX_WAIT_FOR_TRANSMIT_CONFIRMATION;;
       CanTp_Prv_CanIfTransmit Context CAN_DL;;
       upd_ch ChannelId (set_ch_TxBufferStatus CANTP_BUFFER_NOT_ASKED))
  else
    t ← lift Connection;
    o ← get_timeout (tx_TimeOutId t);
    when (AsArTicks o <? ElapsedValue)
      (CanTp_Prv_PduRConfirmation CANTP_TX_PDUR_CONFIRMATION (tx_PduRPduHandleId t) E_NOT_OK;;
       CanTp_Prv_ReportRunTimeError CANTP_MAINFUNCTION CANTP_E_TX_COM;;
       set_conf (tx_TxConfirmationId t) CANTP_INVALID_CHANNEL).

Definition CanTp_Prv_RxReceptionRequestAccepted (ChannelId : Z) : M W unit :=
  ch ← get_ch ChannelId;
  '(_, ElapsedValue) ← CanTp_GetElapsedValue (ch_InitialTicks ch);
  sub ← get_sub ChannelId;
  when (sub =? CANTP_RX_RECEPTION_REQUEST_ACCEPTED)
    (r ← get_rxsdu (ch_ActiveSduId ch);
     o ← get_timeout (rx_TimeOutId r);
     when (BsBrTicks o <? ElapsedValue)
       (CanTp_Prv_PduRConfirmation CANTP_RX_PDUR_CONFIRMATION (rx_PduRPduHandleId r) E_NOT_OK;;
        CanTp_Prv_ReportRunTimeError CANTP_MAINFUNCTION CANTP_E_RX_COM;;
        set_sub ChannelId CANTP_IDLE)).

Definition CanTp_Prv_RxSendFlowControlFrame (ChannelId : Z) : M W unit :=
  ch ← get_ch ChannelId;
  let IsFcReady := CANTP_FC_WAIT <? ch_FlowStatus ch in
  '(Value, ElapsedValue) ← CanTp_GetElapsedValue (ch_InitialTicks ch);
  sub ← get_sub ChannelId;
  Connection ← (if sub =? CANTP_RX_SEND_FC
                then r ← get_rxsdu (ch_ActiveSduId ch); mret (Some r) else mret None);
  TxConfirmationChannel ← match Connection with
                          | Some r => get_conf (rx_TxConfirmationId r)
                          | None => mret 0
                          end;
  when (TxConfirmationChannel =? CANTP_INVALID_CHANNEL)
    (r ← lift Connection;
     upd_ch ChannelId (set_ch_BlockCfsRemaining 0);;
     let handle := rx_PduRPduHandleId r in
     '(IsFcReady, RemBufSize) ←
       (if negb (ch_FlowStatus ch =? CANTP_FC_OVERFLOW) then
          '(res, RemBufSize) ← call_CopyRxData handle [];
          IsFcReady ←
            (if negb (bool_decide (res = BUFREQ_OK)) then
               CanTp_Prv_PduRConfirmation CANTP_RX_PDUR_CONFIRMATION handle E_NOT_OK;;
               CanTp_Prv_ReportRunTimeError CANTP_MAINFUNCTION CANTP_E_COM;;
               set_sub ChannelId CANTP_IDLE;;
               mret false
             else if negb (ch_FlowStatus ch =? CANTP_FC_CTS) then
               CanTp_Prv_SetRxBlockInfo ChannelId RemBufSize;;
               ch ← get_ch ChannelId;
               mret (if negb (ch_FlowStatus ch =? CANTP_FC_CTS) then IsFcReady else true)
             else mret IsFcReady);
          ch ← get_ch ChannelId;
          o ← get_timeout (rx_TimeOutId r);
          IsFcReady ←
            (if (ch_FlowStatus ch =? CANTP_FC_WAIT) &&
                ((BsBrTicks o <=? ElapsedValue) || (ch_FcWait ch =? 0)) then
               FcWaitMax ← CanTp_Prv_GetRxCfgFcWaitMax (ch_ActiveSduId ch);
               if ch_FcWait ch <? FcWaitMax then
                 upd_ch ChannelId (set_ch_FcWait (u16 (ch_FcWait ch + 1)));;
                 upd_ch ChannelId (set_ch_InitialTicks Value);;
                 mret true
               else
                 CanTp_Prv_PduRConfirmation CANTP_RX_PDUR_CONFIRMATION handle E_NOT_OK;;
                 CanTp_Prv_ReportRunTimeError CANTP_MAINFUNCTION CANTP_E_RX_COM;;
                 set_sub ChannelId CANTP_IDLE;;
                 mret IsFcReady
             else mret IsFcReady);
          mret (IsFcReady, RemBufSize)
        else mret (IsFcReady, 0));
     let Context := mkTxContext CANTP_RX_PDUR_CONFIRMATION 0 (rx_BitFields r) ChannelId
                      (rx_TxConfirmationId r) (rx_TxPduId r) handle RemBufSize Value ElapsedValue 0 in
     CanTp_Prv_FcTransmit Context CANTP_DEFAULT_CAN_DL IsFcReady Value).

Definition CanTp_Prv_RxWaitForFcTransmitConfirmation (ChannelId : Z) : M W unit :=
  ch ← get_ch ChannelId;
  '(_, ElapsedValue) ← CanTp_GetElapsedValue (ch_InitialTicks ch);
  sub ← get_sub ChannelId;
  when (sub =? CANTP_RX_WAIT_FOR_FCTRANSMIT_CONFIRMATION)
    (r ← get_rxsdu (ch_ActiveSduId ch);
     o ← get_timeout (rx_TimeOutId r);
     when (AsArTicks o <? ElapsedValue)
       (CanTp_Prv_PduRConfirmation CANTP_RX_PDUR_CONFIRMATION (rx_PduRPduHandleId r) E_NOT_OK;;
        CanTp_Prv_ReportRunTimeError CANTP_MAINFUNCTION CANTP_E_RX_COM;;
        set_conf (rx_TxConfirmationId r) CANTP_INVALID_CHANNEL;;
        set_sub ChannelId CANTP_IDLE)).

Definition CanTp_Prv_RxWaitForConsecutiveFrame (ChannelId : Z) : M W unit :=
  ch ← get_ch ChannelId;
  '(_, ElapsedValue) ← CanTp_GetElapsedValue (ch_InitialTicks ch);
  sub ← get_sub ChannelId;
  when (sub =? CANTP_RX_WAIT_FOR_CONSECUTIVE_FRAME)
    (r ← get_rxsdu (ch_ActiveSduId ch);
     o ← get_timeout (rx_TimeOutId r);
     when (CsCrTicks o <? ElapsedValue)
       (CanTp_Prv_PduRConfirmation CANTP_RX_PDUR_CONFIRMATION (rx_PduRPduHandleId r) E_NOT_OK;;
        CanTp_Prv_ReportRunTimeError CANTP_MAINFUNCTION CANTP_E_RX_COM;;
        set_sub ChannelId CANTP_IDLE)).

(** Dispatch through CanTp_StateFunctions. *)
Definition CanTp_Prv_ExecuteState (ChannelId : Z) : M W unit :=
  sub ← get_sub ChannelId;
  if sub =? CANTP_IDLE then CanTp_Prv_Idle ChannelId
  else if sub =? CANTP_TX_TRANSMISSION_REQUEST_ACCEPTED
  then CanTp_Prv_TxTransmissionRequestAccepted ChannelId
  else if sub =? CANTP_TX_WAIT_FOR_TRANSMIT_CONFIRMATION
  then CanTp_Prv_TxWaitForTransmitConfirmation ChannelId
  else if sub =? CANTP_TX_WAIT_FOR_FLOWCONTROL_FRAME
  then CanTp_Prv_TxWaitForFlowControlFrame ChannelId
  else if sub =? CANTP_TX_SEND_CONSECUTIVE_FRAME then CanTp_Prv_TxSendConsecutiveFrame ChannelId
  else if sub =? CANTP_RX_RECEPTION_REQUEST_ACCEPTED
  then CanTp_Prv_RxReceptionRequestAccepted ChannelId
  else if sub =? CANTP_RX_SEND_FC then CanTp_Prv_RxSendFlowControlFrame ChannelId
  else if sub =? CANTP_RX_WAIT_FOR_FCTRANSMIT_CONFIRMATION
  then CanTp_Prv_RxWaitForFcTransmitConfirmation ChannelId
  else if sub =? CANTP_RX_WAIT_FOR_CONSECUTIVE_FRAME
  then CanTp_Prv_RxWaitForConsecutiveFrame ChannelId
  else ub.
End CanTp_Chan.
