(* ===== verification/CanTp.v ===== *)
(** * CanTp: the module interface (CanTp.c)

    The services called by PduR, CanIf, the scheduler and the ECU manager. *)

From S2P Require Import Prelude ComStack CanTpTypes CanTpPrv CanTpFrames CanTpChan.
From stdpp Require Import base list numbers option.

#[local] Open Scope Z_scope.

Section CanTp.
Context `{CanTp_Cfg} {U : Type} `{CanTp_Env U}.
Abbreviation W := (World U).

Definition set_mainstate (b : bool) : M W unit :=
  modify (λ w, set_tp (set_CanTp_MainState b (tp w)) w).

Definition set_cfgptr (p : option CanTp_ConfigType) : M W unit :=
  modify (λ w, set_tp (set_CanTp_CfgPtr p (tp w)) w).

(** All channels idle, no confirmation pending. *)
Definition init_arrays : M W unit :=
  CanTp_Prv_RxParamInit;;
  CanTp_Prv_QInit;;
  C ← cfg;
  l ← gets (λ w, CanTp_SubState (tp w));
  l ← lift (CanTp_Prv_ArrayInit l 0 (NumberOfChannels C) CANTP_IDLE);
  modify (λ w, set_tp (set_CanTp_SubState l (tp w)) w);;
  l ← gets (λ w, CanTp_TxConfirmationChannel (tp w));
  l ← lift (CanTp_Prv_ArrayInit l 0 (NumberOfTxPdus C) CANTP_INVALID_CHANNEL);
  modify (λ w, set_tp (set_CanTp_TxConfirmationChannel l (tp w)) w).

Definition CanTp_Init (CfgPtr : option CanTp_ConfigType) : M W unit :=
  set_mainstate false;;
  if decide (CANTP_VARIANT = CANTP_PRE_COMPILE) then
    set_cfgptr (Some CanTp_Config);; init_arrays;; set_mainstate true
  else
    set_cfgptr CfgPtr;;
    match CfgPtr with
    | None => CanTp_Prv_ReportRunTimeError CANTP_INIT CANTP_E_PARAM_POINTER
    | Some C =>
        if CANTP_DEV_ERROR_DETECT && bool_decide (CANTP_VARIANT = CANTP_POST_BUILD_SELECTABLE) &&
           bool_decide (CanTp_Prv_PbCfgCheck C = E_NOT_OK)
        then CanTp_Prv_ReportError CANTP_INIT CANTP_E_INIT_FAILED
        else init_arrays;; set_mainstate true
    end.

Definition CanTp_Shutdown : M W unit :=
  on ← gets (λ w, CanTp_MainState (tp w));
  if CANTP_DEV_ERROR_DETECT && negb on then CanTp_Prv_ReportError CANTP_SHUTDOWN CANTP_E_UNINIT
  else set_mainstate false;; init_arrays;; set_cfgptr None.

Definition CanTp_MainFunction : M W unit :=
  on ← gets (λ w, CanTp_MainState (tp w));
  if CANTP_DEV_ERROR_DETECT && negb on then CanTp_Prv_ReportError CANTP_MAINFUNCTION CANTP_E_UNINIT
  else
    q ← (if CANTP_TX_BURST_MODE then CanTp_Prv_GetFromQ else mret None);
    match q with
    | Some ChannelId => CanTp_Prv_ExecuteState ChannelId
    | None =>
        C ← cfg;
        mfor (Z.to_nat (NumberOfChannels C)) 0 CanTp_Prv_ExecuteState;;
        CanTp_IncrementCounter
    end.

Definition CanTp_Prv_BurstMainFunction (ChannelId TriggerPoint : Z) : M W unit :=
  when CANTP_TX_BURST_MODE
    (C ← cfg;
     when (ChannelId <? NumberOfChannels C)
       (ch ← get_ch ChannelId;
        sub ← get_sub ChannelId;
        when ((ch_STminTicks ch =? 0) && (sub =? CANTP_TX_SEND_CONSECUTIVE_FRAME))
          (r ← CanTp_Prv_PutInQ ChannelId;
           when (bool_decide (r = E_OK))
             (if CANTP_SCHM_SUPPORT then emit (EvActivateMainFunction TriggerPoint)
              else CanTp_MainFunction)))).

Definition CanTp_ChangeParameter (id : Z) (parameter : TPParameterType) (value : Z)
  : M W Std_ReturnType :=
  dev_checked id CANTP_CHANGEPARAMETER CANTP_E_INVALID_RX_ID E_NOT_OK
    (ok ← CanTp_Prv_IsChangeParameterOk parameter value;
     if ok : bool then
       r ← get_rxsdu id;
       st ← CanTp_Prv_GetState (rx_ChannelId r);
       if st =? CANTP_RECEPTION then
         CanTp_Prv_ReportRunTimeError CANTP_CHANGEPARAMETER CANTP_E_OPER_NOT_SUPPORTED;;
         mret E_NOT_OK
       else
         l ← gets (λ w, CanTp_ParamPair (tp w));
         p ← lift (aget l id);
         set_parampair id (if bool_decide (parameter = TP_STMIN) then (u8 value, snd p)
                           else (fst p, u8 value));;
         mret E_OK
     else mret E_NOT_OK).

(** [hasptr]: the value pointer is not NULL; the answer carries what is stored there. *)
Definition CanTp_ReadParameter (id : Z) (parameter : TPParameterType) (hasptr : bool)
  : M W (Std_ReturnType * option Z) :=
  dev_checked id CANTP_READPARAMETER CANTP_E_INVALID_RX_ID (E_NOT_OK, None)
    (if negb hasptr then
       CanTp_Prv_ReportRunTimeError CANTP_READPARAMETER CANTP_E_PARAM_POINTER;; mret (E_NOT_OK, None)
     else if bool_decide (parameter ≠ TP_BS) && bool_decide (parameter ≠ TP_STMIN) then
       CanTp_Prv_ReportRunTimeError CANTP_READPARAMETER CANTP_E_PARAM_ID;; mret (E_NOT_OK, None)
     else v ← CanTp_Prv_GetRxParam id parameter; mret (E_OK, Some v)).

(** The largest SduLength CanTp_Transmit accepts on a connection. *)
Definition TxMaxLength (Connection : CanTp_TxSduType) (PciId asize : Z) : Z :=
  let TX_DL := CanTp_Prv_GetTxDl Connection in
  if CanTp_Prv_GetBit (tx_BitFields Connection) CANTP_FUNCTIONAL then
    let PayloadLength := u8 (TX_DL - 1 - asize) in
    if PciId <? CANTP_NPCI_SFCANFD then PayloadLength else u32 (PayloadLength - CANTP_FDSFDL_PCI)
  else if CANTP_CANFD_SUPPORT then
    u16 (if CANTP_DEFAULT_CAN_DL <? TX_DL then CANTP_MAXFDFFDL else CANTP_MAXFFDL)
  else u16 CANTP_MAXFFDL.

(** [Info]: the SduLength behind CanTpTxInfoPtr, [None] for NULL_PTR. *)
Definition CanTp_Transmit (CanTpTxSduId : Z) (Info : option Z) : M W Std_ReturnType :=
  dev_checked CanTpTxSduId CANTP_TRANSMIT CANTP_E_INVALID_TX_ID E_NOT_OK
    (Connection ← get_txsdu CanTpTxSduId;
     '(ErrorId, PciId, Len) ←
       match Info with
       | None => mret (CANTP_E_PARAM_POINTER, 0, 0)
       | Some Len =>
           if Len =? 0 then mret (CANTP_E_COM, 0, 0)
           else
             PciId ← lift (CanTp_Prv_TxPciInit Connection Len);
             asize ← lift (aget CanTp_AddressSize (tx_AddressFormatId Connection));
             mret (if TxMaxLength Connection PciId asize <? Len
                   then CANTP_E_INVALID_TATYPE else CANTP_NO_ERROR, PciId, Len)
       end;
     if negb (bool_decide (ErrorId = CANTP_NO_ERROR)) then
       CanTp_Prv_ReportRunTimeError CANTP_TRANSMIT ErrorId;; mret E_NOT_OK
     else
       '(Value, _) ← CanTp_GetElapsedValue 0;
       let c := tx_ChannelId Connection in
       st ← CanTp_Prv_GetState c;
       if st =? CANTP_IDLE then
         upd_ch c (set_ch_ActiveSduId (u8 CanTpTxSduId));;
         upd_ch c (set_ch_PciId PciId);;
         upd_ch c (set_ch_SduLength Len);;
         upd_ch c (set_ch_InitialTicks Value);;
         upd_ch c (set_ch_TxBufferStatus CANTP_BUFFER_NOT_ASKED);;
         upd_ch c (set_ch_STminTicks CANTP_INVALID_STMIN_TICKS);;
         set_sub c CANTP_TX_TRANSMISSION_REQUEST_ACCEPTED;;
         mret E_OK
       else mret E_NOT_OK).

Definition CanTp_CancelTransmit (CanTpTxSduId : Z) : M W Std_ReturnType :=
  dev_checked CanTpTxSduId CANTP_CANCELTRANSMIT CANTP_E_INVALID_TX_ID E_NOT_OK
    (Connection ← get_txsdu CanTpTxSduId;
     let c := tx_ChannelId Connection in
     let TcDisabled := CanTp_Prv_GetBit (tx_BitFields Connection) CANTP_TC_DISABLED in
     st ← CanTp_Prv_GetState c;
     ch ← get_ch c;
     if TcDisabled || negb (st =? CANTP_TRANSMISSION) || negb (CanTpTxSduId =? ch_ActiveSduId ch) then
       CanTp_Prv_ReportRunTimeError CANTP_CANCELTRANSMIT CANTP_E_OPER_NOT_SUPPORTED;; mret E_NOT_OK
     else
       CanTp_Prv_PduRConfirmation CANTP_TX_PDUR_CONFIRMATION (tx_PduRPduHandleId Connection) E_NOT_OK;;
       sub ← get_sub c;
       when (sub =? CANTP_TX_WAIT_FOR_TRANSMIT_CONFIRMATION)
         (set_conf (tx_TxConfirmationId Connection) CANTP_INVALID_CHANNEL);;
       set_sub c CANTP_IDLE;;
       mret E_OK).

Definition CanTp_CancelReceive (CanTpRxSduId : Z) : M W Std_ReturnType :=
  dev_checked CanTpRxSduId CANTP_CANCELRECEIVE CANTP_E_PARAM_ID E_NOT_OK
    (Connection ← get_rxsdu CanTpRxSduId;
     let c := rx_ChannelId Connection in
     st ← CanTp_Prv_GetState c;
     ch ← get_ch c;
     if negb (st =? CANTP_RECEPTION) || negb (CanTpRxSduId =? ch_ActiveSduId ch) then
       CanTp_Prv_ReportRunTimeError CANTP_CANCELRECEIVE CANTP_E_OPER_NOT_SUPPORTED;; mret E_NOT_OK
     else
       RX_DL ← CanTp_Prv_GetRxDl c;
       asize ← lift (aget CanTp_AddressSize (rx_AddressFormatId Connection));
       let PayLoadLength := u8 (RX_DL - asize - CANTP_CF_PCISIZE) in
       if PayLoadLength <? ch_SduLengthRemaining ch then
         CanTp_Prv_PduRConfirmation CANTP_RX_PDUR_CONFIRMATION (rx_PduRPduHandleId Connection) E_NOT_OK;;
         sub ← get_sub c;
         when (sub =? CANTP_RX_WAIT_FOR_FCTRANSMIT_CONFIRMATION)
           (set_conf (rx_TxConfirmationId Connection) CANTP_INVALID_CHANNEL);;
         set_sub c CANTP_IDLE;;
         mret E_OK
       else mret E_NOT_OK).

(** The channel after the confirmation of a data frame. *)
Definition TxConfirmation_data (ChannelId TxPduId Value : Z) : M W unit :=
  upd_ch ChannelId (set_ch_InitialTicks Value);;
  ch ← get_ch ChannelId;
  t ← get_txsdu (ch_ActiveSduId ch);
  asize ← lift (aget CanTp_AddressSize (tx_AddressFormatId t));
  pci ← lift (aget CanTp_PciSize (ch_PciId ch));
  let MaxCopyLength := u8 (CanTp_Prv_GetTxDl t - asize - pci) in
  let Remaining := if ch_SduLengthRemaining ch <? MaxCopyLength then 0
                   else plen (ch_SduLengthRemaining ch - MaxCopyLength) in
  upd_ch ChannelId (set_ch_SduLengthRemaining Remaining);;
  when (ch_PciId ch =? CANTP_NPCI_CF)
    (upd_ch ChannelId (set_ch_SN (Z.land (u8 (ch_SN ch + 1)) CANTP_LOWERNIBBLE_MASK));;
     upd_ch ChannelId (set_ch_BlockCfsRemaining (plen (ch_BlockCfsRemaining ch - 1))));;
  ch ← get_ch ChannelId;
  (if ch_SduLengthRemaining ch =? 0 then
     set_sub ChannelId CANTP_IDLE;;
     CanTp_Prv_PduRConfirmation CANTP_TX_PDUR_CONFIRMATION (tx_PduRPduHandleId t) E_OK
   else if negb (ch_BlockCfsRemaining ch =? 0) then
     set_sub ChannelId CANTP_TX_SEND_CONSECUTIVE_FRAME
   else CanTp_Prv_PrepareFcRecieve ChannelId);;
  set_conf TxPduId CANTP_INVALID_CHANNEL.

Definition CanTp_TxConfirmation (TxPduId : Z) : M W unit :=
  dev_checked TxPduId CANTP_TXCONFIRMATION CANTP_E_INVALID_TX_ID tt
    ('(Value, _) ← CanTp_GetElapsedValue 0;
     ChannelId ← get_conf TxPduId;
     C ← cfg;
     SubState ← (if ChannelId <? NumberOfChannels C then get_sub ChannelId else mret CANTP_IDLE);
     (if SubState =? CANTP_RX_WAIT_FOR_FCTRANSMIT_CONFIRMATION then
        upd_ch ChannelId (set_ch_InitialTicks Value);;
        CanTp_Prv_FcTxConfirmation ChannelId;;
        set_conf TxPduId CANTP_INVALID_CHANNEL
      else if SubState =? CANTP_TX_WAIT_FOR_TRANSMIT_CONFIRMATION then
        TxConfirmation_data ChannelId TxPduId Value
      else mret tt);;
     CanTp_Prv_BurstMainFunction ChannelId CANTP_TRIGGER_TX_CONFIRMATION).

(** The context at the entry of RxIndication: fields the code has not set yet are zero. *)
Definition RxContext_init (RxPduId : Z) : CanTp_RxContextType :=
  mkRxContext false false false 0 0 0 0 0 0 0 0 0 RxPduId 0 0.

Definition CanTp_RxIndication (RxPduId : Z) (PduInfoPtr : option PduInfoType) : M W unit :=
  dev_checked RxPduId CANTP_RXINDICATION CANTP_E_INVALID_RX_ID tt
    (match PduInfoPtr with
     | None => CanTp_Prv_ReportRunTimeError CANTP_RXINDICATION CANTP_E_PARAM_POINTER
     | Some Info =>
         '(ErrorId, Context) ← CanTp_Prv_GetRxContext (RxContext_init RxPduId) Info;
         if negb (bool_decide (ErrorId = CANTP_NO_ERROR)) then
           CanTp_Prv_ReportRunTimeError CANTP_RXINDICATION ErrorId
         else
           '(ok, Context) ← CanTp_Prv_RxSduLengthCheck Context Info;
           if negb (bool_decide (ok = E_OK)) then CanTp_Prv_LengthError Context
           else
             CanTp_Prv_ProcessFrame Context Info;;
             CanTp_Prv_BurstMainFunction (cx_ChannelId Context) CANTP_TRIGGER_RX_INDICATION
     end).

Definition CanTp_TriggerTransmit (TxPduId : Z) (PduInfoPtr : option PduInfoType)
  : M W (Std_ReturnType * option PduInfoType) :=
  dev_checked TxPduId CANTP_TRIGGERTRANSMIT CANTP_E_INVALID_TX_ID (E_NOT_OK, PduInfoPtr)
    (match PduInfoPtr with
     | None =>
         CanTp_Prv_ReportRunTimeError CANTP_TRIGGERTRANSMIT CANTP_E_PARAM_POINTER;;
         mret (E_NOT_OK, PduInfoPtr)
     | Some Info =>
         ChannelId ← get_conf TxPduId;
         C ← cfg;
         if ChannelId <? NumberOfChannels C then
           sub ← get_sub ChannelId;
           TX_DL ← (if sub =? CANTP_TX_WAIT_FOR_TRANSMIT_CONFIRMATION then
                      ch ← get_ch ChannelId; t ← get_txsdu (ch_ActiveSduId ch);
                      mret (CanTp_Prv_GetTxDl t)
                    else mret CANTP_DEFAULT_CAN_DL);
           if (SduLength Info <? TX_DL) || bool_decide (SduDataPtr Info = None) then
             CanTp_Prv_ReportRunTimeError CANTP_TRIGGERTRANSMIT CANTP_E_PARAM_POINTER;;
             mret (E_NOT_OK, PduInfoPtr)
           else
             '(Status, Info') ← CanTp_Prv_CreateFrame ChannelId Info;
             mret (Status, Some Info')
         else mret (E_NOT_OK, PduInfoPtr)
     end).
End CanTp.
