(* ===== verification/CanTpInv.v ===== *)
(** * CanTp: symbolic execution of a channel and the module invariant

    A service works on one channel.  [foc w c s ch cf u tr] is the world [w] in
    which channel [c] is in sub-state [s] with channel object [ch], the pending
    confirmations are [cf], the neighbouring modules are in state [u] and the
    calls made so far are [tr].  Every primitive maps such a world to such a
    world, so a function body is executed by rewriting these six components.

    The facts about the constant tables and frame building blocks, and the
    passage between the module invariant and the view of a single channel. *)

From S2P Require Import Prelude ComStack CanTpTypes CanTpPrv CanTpFrames CanTpChan CanTp.
From stdpp Require Import base list numbers option.

#[local] Open Scope Z_scope.

Section foc.
Context `{CanTp_Cfg} {U : Type} `{CanTp_Env U}.
Abbreviation W := (World U).

Definition foc (w : W) (c s : Z) (ch : CanTp_ChannelType) (cf : list Z) (u : U)
    (tr : list CanTp_Event) : W :=
  mkWorld (mkVars (CanTp_MainState (tp w)) (CanTp_CfgPtr (tp w))
             (<[Z.to_nat c := ch]> (CanTp_Channel (tp w)))
             (<[Z.to_nat c := s]> (CanTp_SubState (tp w)))
             cf (CanTp_BurstQ (tp w)) (CanTp_ParamPair (tp w))
             (CanTp_MainFunctionTicks (tp w))) u tr.

(** [c] is an index of the channel arrays. *)
Definition ch_valid (w : W) (c : Z) : Prop :=
  0 ≤ c < lenZ (CanTp_Channel (tp w)) ∧ 0 ≤ c < lenZ (CanTp_SubState (tp w)).

Lemma foc_intro w c s ch :
  aget (CanTp_Channel (tp w)) c = Some ch →
  aget (CanTp_SubState (tp w)) c = Some s →
  w = foc w c s ch (CanTp_TxConfirmationChannel (tp w)) (up w) (trace w).
Proof.
  unfold aget, foc. intros Hch Hs. case_decide; [|done].
  rewrite !list_insert_id by done. by destruct w as [[] ? ?].
Qed.

Context (w : W) (c s : Z) (ch : CanTp_ChannelType) (cf : list Z) (u : U) (tr : list CanTp_Event).
Context (Hc : ch_valid w c).
Abbreviation F := (foc w c s ch cf u tr).

Lemma wp_get_ch Q : Q ch F → wp (get_ch c) Q F.
Proof using Hc.
  intros. unfold get_ch. wp_steps. eapply wp_lift; [|done].
  cbn. apply aget_insert_eq, Hc.
Qed.

Lemma wp_get_sub Q : Q s F → wp (get_sub c) Q F.
Proof using Hc.
  intros. unfold get_sub. wp_steps. eapply wp_lift; [|done].
  cbn. apply aget_insert_eq, Hc.
Qed.

Lemma wp_upd_ch f Q : Q tt (foc w c s (f ch) cf u tr) → wp (upd_ch c f) Q F.
Proof using Hc.
  intros HQ. unfold upd_ch. wp_step. apply wp_get_ch. wp_steps.
  eapply wp_lift.
  - cbn. apply aset_is_Some. rewrite lenZ_insert. apply Hc.
  - wp_steps. unfold set_tp. cbn. rewrite list_insert_insert_eq. done.
Qed.

Lemma wp_set_sub v Q : Q tt (foc w c v ch cf u tr) → wp (set_sub c v) Q F.
Proof using Hc.
  intros HQ. unfold set_sub. wp_steps. eapply wp_lift.
  - cbn. apply aset_is_Some. rewrite lenZ_insert. apply Hc.
  - wp_steps. unfold set_tp. cbn. rewrite list_insert_insert_eq. done.
Qed.

Lemma wp_get_conf i v Q : aget cf i = Some v → Q v F → wp (get_conf i) Q F.
Proof. intros. unfold get_conf. wp_steps. by eapply wp_lift. Qed.

Lemma wp_set_conf i v Q :
  0 ≤ i < lenZ cf → Q tt (foc w c s ch (<[Z.to_nat i := v]> cf) u tr) → wp (set_conf i v) Q F.
Proof.
  intros Hi HQ. unfold set_conf. wp_steps. eapply wp_lift; [by apply aset_is_Some|].
  wp_steps. done.
Qed.

Lemma wp_emit e Q : Q tt (foc w c s ch cf u (tr ++ [e])) → wp (emit e) Q F.
Proof. intros. unfold emit. by wp_steps. Qed.

Lemma wp_cfg C Q : CanTp_CfgPtr (tp w) = Some C → Q C F → wp cfg Q F.
Proof. intros. unfold cfg. wp_steps. by eapply wp_lift. Qed.

Lemma wp_get_txsdu C i t Q :
  CanTp_CfgPtr (tp w) = Some C → aget (TxSdu C) i = Some t → Q t F → wp (get_txsdu i) Q F.
Proof. intros. unfold get_txsdu. wp_step. eapply wp_cfg; [done|]. by eapply wp_lift. Qed.

Lemma wp_get_rxsdu C i r Q :
  CanTp_CfgPtr (tp w) = Some C → aget (RxSdu C) i = Some r → Q r F → wp (get_rxsdu i) Q F.
Proof. intros. unfold get_rxsdu. wp_step. eapply wp_cfg; [done|]. by eapply wp_lift. Qed.

Lemma wp_get_timeout C i o Q :
  CanTp_CfgPtr (tp w) = Some C → aget (TimeOut C) i = Some o → Q o F → wp (get_timeout i) Q F.
Proof. intros. unfold get_timeout. wp_step. eapply wp_cfg; [done|]. by eapply wp_lift. Qed.

Lemma wp_GetState st Q : aget CanTp_State s = Some st → Q st F → wp (CanTp_Prv_GetState c) Q F.
Proof using Hc.
  intros. unfold CanTp_Prv_GetState. wp_step. apply wp_get_sub. by eapply wp_lift.
Qed.

Lemma wp_GetElapsedValue v Q :
  Q (CanTp_MainFunctionTicks (tp w), tick (CanTp_MainFunctionTicks (tp w) - v)) F →
  wp (CanTp_GetElapsedValue v) Q F.
Proof. intros. unfold CanTp_GetElapsedValue. by wp_steps. Qed.

Lemma wp_TxConf id r Q :
  Q tt (foc w c s ch cf (PduR_CanTpTxConfirmation id r u) (tr ++ [EvTxConfirmation id r])) →
  wp (CanTp_Prv_PduRConfirmation CANTP_TX_PDUR_CONFIRMATION id r) Q F.
Proof. intros. unfold CanTp_Prv_PduRConfirmation. cbn. wp_steps. by unfold emit; wp_steps. Qed.

Lemma wp_RxInd id r Q :
  Q tt (foc w c s ch cf (PduR_CanTpRxIndication id r u) (tr ++ [EvRxIndication id r])) →
  wp (CanTp_Prv_PduRConfirmation CANTP_RX_PDUR_CONFIRMATION id r) Q F.
Proof. intros. unfold CanTp_Prv_PduRConfirmation. cbn. wp_steps. by unfold emit; wp_steps. Qed.

(** The events a report leaves behind. *)
Definition report (e : CanTp_Event) : list CanTp_Event := if CANTP_DEV_ERROR_DETECT then [e] else [].

Lemma wp_ReportError a e Q :
  Q tt (foc w c s ch cf u (tr ++ report (EvReportError a e))) → wp (CanTp_Prv_ReportError a e) Q F.
Proof.
  unfold CanTp_Prv_ReportError, report. destruct CANTP_DEV_ERROR_DETECT; cbn.
  - apply wp_emit.
  - rewrite app_nil_r. apply wp_ret.
Qed.

Lemma wp_ReportRunTimeError a e Q :
  Q tt (foc w c s ch cf u (tr ++ report (EvReportRunTimeError a e))) →
  wp (CanTp_Prv_ReportRunTimeError a e) Q F.
Proof.
  unfold CanTp_Prv_ReportRunTimeError, report. destruct CANTP_DEV_ERROR_DETECT; cbn.
  - apply wp_emit.
  - rewrite app_nil_r. apply wp_ret.
Qed.

Lemma wp_GetRxDl Q :
  Q (if CANTP_CANFD_SUPPORT then ch_RX_DL ch else CANTP_DEFAULT_CAN_DL) F →
  wp (CanTp_Prv_GetRxDl c) Q F.
Proof using Hc.
  unfold CanTp_Prv_GetRxDl. destruct CANTP_CANFD_SUPPORT; intros; [|by wp_steps].
  wp_step. apply wp_get_ch. by wp_steps.
Qed.

Lemma wp_SetRxDl v Q :
  Q tt (foc w c s (if CANTP_CANFD_SUPPORT then set_ch_RX_DL v ch else ch) cf u tr) →
  wp (CanTp_Prv_SetRxDl c v) Q F.
Proof using Hc.
  unfold CanTp_Prv_SetRxDl. destruct CANTP_CANFD_SUPPORT; cbn; [apply wp_upd_ch | apply wp_ret].
Qed.

Lemma wp_CopyTxData id len Q :
  (∀ res data rem u', PduR_CanTpCopyTxData id len u = (res, data, rem, u') →
    Q (res, data, rem) (foc w c s ch cf u' (tr ++ [EvCopyTxData id data res]))) →
  wp (call_CopyTxData id len) Q F.
Proof.
  intros HQ. unfold call_CopyTxData. wp_steps. cbn.
  destruct (PduR_CanTpCopyTxData id len u) as [[[res data] rem] u'] eqn:E.
  specialize (HQ _ _ _ _ eq_refl). unfold emit. by wp_steps.
Qed.

Lemma wp_StartOfReception id data len Q :
  (∀ res rem u', PduR_CanTpStartOfReception id data len u = (res, rem, u') →
    Q (res, rem) (foc w c s ch cf u' (tr ++ [EvStartOfReception id data len res]))) →
  wp (call_StartOfReception id data len) Q F.
Proof.
  intros HQ. unfold call_StartOfReception. wp_steps. cbn.
  destruct (PduR_CanTpStartOfReception id data len u) as [[res rem] u'] eqn:E.
  specialize (HQ _ _ _ eq_refl). unfold emit. by wp_steps.
Qed.

Lemma wp_CopyRxData id data Q :
  (∀ res rem u', PduR_CanTpCopyRxData id data u = (res, rem, u') →
    Q (res, rem) (foc w c s ch cf u' (tr ++ [EvCopyRxData id data res]))) →
  wp (call_CopyRxData id data) Q F.
Proof.
  intros HQ. unfold call_CopyRxData. wp_steps. cbn.
  destruct (PduR_CanTpCopyRxData id data u) as [[res rem] u'] eqn:E.
  specialize (HQ _ _ _ eq_refl). unfold emit. by wp_steps.
Qed.

(** The bytes CanIf reads behind a data pointer. *)
Definition tx_bytes (data : option (list Z)) (len : Z) : option (list Z) :=
  match data with Some b => Some (take (Z.to_nat len) b) | None => None end.

Lemma wp_CanIf_Transmit id data len Q :
  match data with Some b => 0 ≤ len ≤ lenZ b | None => True end →
  (∀ res u', CanIf_Transmit id (tx_bytes data len) len u = (res, u') →
    Q res (foc w c s ch cf u' (tr ++ [EvCanIfTransmit id (tx_bytes data len) len res]))) →
  wp (call_CanIf_Transmit id data len) Q F.
Proof.
  intros Hd HQ. unfold call_CanIf_Transmit. wp_step.
  assert (∀ bytes, bytes = tx_bytes data len →
    wp (u0 ← gets up; let '(res, u') := CanIf_Transmit id bytes len u0 in
        modify (set_up u');; emit (EvCanIfTransmit id bytes len res);; mret res) Q F) as Hk.
  { intros bytes ->. wp_steps. cbn.
    destruct (CanIf_Transmit id (tx_bytes data len) len u) as [res u'] eqn:E.
    specialize (HQ _ _ eq_refl). unfold emit. by wp_steps. }
  destruct data as [b|]; wp_step; [|by apply Hk].
  eapply wp_lift; [apply aslice_is_Some; lia|]. wp_step. by apply Hk.
Qed.

Lemma wp_GetRxParam C id p prm Q :
  CanTp_CfgPtr (tp w) = Some C →
  (if CANTP_CHANGE_PARAMETER_API then aget (CanTp_ParamPair (tp w)) id = Some p
   else ∃ r pa, aget (RxSdu C) id = Some r ∧ aget (Param C) (rx_ParamId r) = Some pa ∧ p = pa_Param pa) →
  Q (pair_get p prm) F → wp (CanTp_Prv_GetRxParam id prm) Q F.
Proof.
  intros HC Hp HQ. unfold CanTp_Prv_GetRxParam. destruct CANTP_CHANGE_PARAMETER_API.
  - wp_steps. eapply wp_lift; [done|]. by wp_steps.
  - destruct Hp as (r & pa & Hr & Hpa & ->). unfold CanTp_Prv_GetRxCfgParam. wp_steps.
    eapply wp_get_rxsdu; [done..|]. wp_step. eapply wp_cfg; [done|]. wp_step.
    eapply wp_lift; [done|]. by wp_steps.
Qed.

Lemma wp_FcWaitMax C id r pa Q :
  CanTp_CfgPtr (tp w) = Some C → aget (RxSdu C) id = Some r →
  aget (Param C) (rx_ParamId r) = Some pa →
  Q (pa_FcWaitMax pa) F → wp (CanTp_Prv_GetRxCfgFcWaitMax id) Q F.
Proof.
  intros. unfold CanTp_Prv_GetRxCfgFcWaitMax. wp_step. eapply wp_get_rxsdu; [done..|]. wp_step.
  eapply wp_cfg; [done|]. wp_step. eapply wp_lift; [done|]. by wp_steps.
Qed.
End foc.

(** ** Automation: one step of execution on a focused world *)

(** Field accesses and updates of a channel object. *)
Ltac ch_simpl :=
  cbn [ch_TxBufferStatus ch_RX_DL ch_PciId ch_FlowStatus ch_SN ch_BS ch_ActiveSduId ch_FcWait
       ch_BlockCfsRemaining ch_SduLengthRemaining ch_SduLength ch_InitialTicks ch_STminTicks
       set_ch_TxBufferStatus set_ch_RX_DL set_ch_PciId set_ch_FlowStatus set_ch_SN set_ch_BS
       set_ch_ActiveSduId set_ch_FcWait set_ch_BlockCfsRemaining set_ch_SduLengthRemaining
       set_ch_SduLength set_ch_InitialTicks set_ch_STminTicks] in *.

Ltac foc_step :=
  match goal with
  | |- wp (mbind _ _) _ _ => apply wp_bind
  | |- wp (mret _) _ _ => apply wp_ret
  | |- wp (get_ch _) _ (foc _ _ _ _ _ _ _) => apply wp_get_ch; [assumption|]
  | |- wp (get_sub _) _ (foc _ _ _ _ _ _ _) => apply wp_get_sub; [assumption|]
  | |- wp (upd_ch _ _) _ (foc _ _ _ _ _ _ _) => apply wp_upd_ch; [assumption|]
  | |- wp (set_sub _ _) _ (foc _ _ _ _ _ _ _) => apply wp_set_sub; [assumption|]
  | |- wp (get_conf _) _ (foc _ _ _ _ _ _ _) => eapply wp_get_conf; [eassumption|]
  | |- wp (set_conf _ _) _ (foc _ _ _ _ _ _ _) => apply wp_set_conf; [|]
  | |- wp (emit _) _ (foc _ _ _ _ _ _ _) => apply wp_emit
  | |- wp cfg _ (foc _ _ _ _ _ _ _) => eapply wp_cfg; [eassumption|]
  | |- wp (get_txsdu _) _ (foc _ _ _ _ _ _ _) => eapply wp_get_txsdu; [eassumption|eassumption|]
  | |- wp (get_rxsdu _) _ (foc _ _ _ _ _ _ _) => eapply wp_get_rxsdu; [eassumption|eassumption|]
  | |- wp (get_timeout _) _ (foc _ _ _ _ _ _ _) => eapply wp_get_timeout; [eassumption|eassumption|]
  | |- wp (CanTp_GetElapsedValue _) _ (foc _ _ _ _ _ _ _) => apply wp_GetElapsedValue
  | |- wp (CanTp_Prv_PduRConfirmation CANTP_TX_PDUR_CONFIRMATION _ _) _ (foc _ _ _ _ _ _ _) =>
      apply wp_TxConf
  | |- wp (CanTp_Prv_PduRConfirmation CANTP_RX_PDUR_CONFIRMATION _ _) _ (foc _ _ _ _ _ _ _) =>
      apply wp_RxInd
  | |- wp (CanTp_Prv_ReportError _ _) _ (foc _ _ _ _ _ _ _) => apply wp_ReportError
  | |- wp (CanTp_Prv_ReportRunTimeError _ _) _ (foc _ _ _ _ _ _ _) => apply wp_ReportRunTimeError
  | |- wp (CanTp_Prv_GetRxDl _) _ (foc _ _ _ _ _ _ _) => apply wp_GetRxDl; [assumption|]
  | |- wp (CanTp_Prv_SetRxDl _ _) _ (foc _ _ _ _ _ _ _) => apply wp_SetRxDl; [assumption|]
  | |- wp (call_CopyTxData _ _) _ (foc _ _ _ _ _ _ _) =>
      let res := fresh "res" in let data := fresh "data" in let rem := fresh "rem" in
      let u' := fresh "u'" in let E := fresh "Ectx" in
      apply wp_CopyTxData; intros res data rem u' E
  | |- wp (call_StartOfReception _ _ _) _ (foc _ _ _ _ _ _ _) =>
      let res := fresh "res" in let rem := fresh "rem" in
      let u' := fresh "u'" in let E := fresh "Esor" in
      apply wp_StartOfReception; intros res rem u' E
  | |- wp (call_CopyRxData _ _) _ (foc _ _ _ _ _ _ _) =>
      let res := fresh "res" in let rem := fresh "rem" in
      let u' := fresh "u'" in let E := fresh "Ecrx" in
      apply wp_CopyRxData; intros res rem u' E
  | |- wp (lift (Some _)) _ _ => eapply wp_lift; [reflexivity|]
  | |- wp (lift _) _ _ => eapply wp_lift; [eassumption|]
  | |- wp (when _ _) _ _ => apply wp_when; intros ?
  | |- wp (if _ then _ else _) _ _ => apply wp_if; intros ?
  end; cbv beta iota; cbn [SduDataPtr SduLength].

Ltac foc_steps := repeat foc_step.

(** The numeric constants, for [lia]. *)
Ltac consts :=
  unfold CANTP_SF_HIGHNIBBLE, CANTP_FF_HIGHNIBBLE, CANTP_CF_HIGHNIBBLE, CANTP_FC_HIGHNIBBLE,
    CANTP_DEFAULT_CAN_DL, CANTP_CF_PCISIZE, CANTP_FC_PCISIZE, CANTP_NPCI_SFCAN, CANTP_NPCI_SFCANFD,
    CANTP_NPCI_FFCAN, CANTP_NPCI_FFCANFD, CANTP_NPCI_CF, CANTP_NPCI_FC, CANTP_MAXFFDL, CANTP_MAXFDFFDL,
    CANTP_FDSFDL_PCI, CANTP_STANDARD, CANTP_BUFFER_NOT_ASKED, CANTP_BUFFER_ASKED, CANTP_BUFFER_AVAILABLE,
    CANTP_MILLISEC_MAX_RANGE, CANTP_MICROSEC_MIN_RANGE, CANTP_MICROSEC_MAX_RANGE, CANTP_MAX_BS_VALUE,
    CANTP_SINGLE_FRAME, CANTP_FIRST_FRAME, CANTP_CONSECUTIVE_FRAME, CANTP_FLOWCONTROL_FRAME,
    CANTP_NUMBER_OF_FRAME_TYPES, CANTP_FRAMETYPE_OFFSET, CANTP_LOWERNIBBLE_MASK, CANTP_INVALID_DL,
    CANTP_IDLE, CANTP_TRANSMISSION, CANTP_TX_TRANSMISSION_REQUEST_ACCEPTED,
    CANTP_TX_WAIT_FOR_TRANSMIT_CONFIRMATION, CANTP_TX_WAIT_FOR_FLOWCONTROL_FRAME,
    CANTP_TX_SEND_CONSECUTIVE_FRAME, CANTP_RECEPTION, CANTP_RX_RECEPTION_REQUEST_ACCEPTED,
    CANTP_RX_SEND_FC, CANTP_RX_WAIT_FOR_FCTRANSMIT_CONFIRMATION, CANTP_RX_WAIT_FOR_CONSECUTIVE_FRAME,
    CANTP_NUMBER_OF_SUBSTATES, CANTP_FC_CTS, CANTP_FC_WAIT, CANTP_FC_OVERFLOW in *.

(** * CanTp: well-formed configurations and the module invariant *)

(** ** What CanTp relies on

    The compile-time configuration is consistent: the array sizes fit the index
    types, the uninitialised stack buffer has its declared size, and the length
    check of the configuration never accepts a frame shorter than required. *)
Class CanTp_CfgOk `{CanTp_Cfg} : Prop := {
  ok_channels : 1 ≤ CANTP_MAX_CHANNEL_SIZE < 256;
  ok_plen : 16 ≤ PduLengthBits ≤ 32;
  ok_npdu : 8 ≤ CANTP_MAX_NPDU_LENGTH ≤ 64;
  ok_garbage : lenZ SduBuffer_garbage = CANTP_MAX_NPDU_LENGTH;
  ok_queue : 1 ≤ CANTP_BURST_QUEUE_SIZE;
  ok_dlc : ∀ len dl, CanTp_Cfg_DlcCheck len dl = E_OK → dl ≤ len
}.

(** PduR never hands back more bytes than it is asked for. *)
Class CanTp_EnvOk (U : Type) `{CanTp_Env U} : Prop := {
  ok_copytx : ∀ id len u res data rem u',
    PduR_CanTpCopyTxData id len u = (res, data, rem, u') → 0 ≤ len → lenZ data ≤ len
}.

Section wf.
Context `{CanTp_Cfg}.

(** The CAN FD data lengths. *)
Definition dl_valid (dl : Z) : Prop :=
  dl = 8 ∨ dl = 12 ∨ dl = 16 ∨ dl = 20 ∨ dl = 24 ∨ dl = 32 ∨ dl = 48 ∨ dl = 64.

Record tx_wf (C : CanTp_ConfigType) (t : CanTp_TxSduType) : Prop := {
  txw_format : 0 ≤ tx_AddressFormatId t ≤ 3;
  txw_channel : 0 ≤ tx_ChannelId t < NumberOfChannels C;
  txw_conf : 0 ≤ tx_TxConfirmationId t < NumberOfTxPdus C;
  txw_timeout : 0 ≤ tx_TimeOutId t < lenZ (TimeOut C);
  txw_dl : dl_valid (CanTp_Prv_GetTxDl t) ∧ CanTp_Prv_GetTxDl t ≤ CANTP_MAX_NPDU_LENGTH
}.

Record rx_wf (C : CanTp_ConfigType) (r : CanTp_RxSduType) : Prop := {
  rxw_format : 0 ≤ rx_AddressFormatId r ≤ 3;
  rxw_channel : 0 ≤ rx_ChannelId r < NumberOfChannels C;
  rxw_conf : 0 ≤ rx_TxConfirmationId r < NumberOfTxPdus C;
  rxw_timeout : 0 ≤ rx_TimeOutId r < lenZ (TimeOut C);
  rxw_param : 0 ≤ rx_ParamId r < lenZ (Param C)
}.

Definition rxpdu_wf (p : CanTp_RxPduType) : Prop :=
  0 ≤ rp_RxSduId p ∧ 0 ≤ rp_TxSduId p ∧
  ∀ f, rp_GetSduPair p = Some f → ∀ t r a, 0 ≤ fst (f t r a) ∧ 0 ≤ snd (f t r a).

(** STmin and BS are bytes. *)
Definition param_wf (p : Z * Z) : Prop := byte_ok (fst p) ∧ byte_ok (snd p).

Record config_wf (C : CanTp_ConfigType) : Prop := {
  cw_channels : 1 ≤ NumberOfChannels C ≤ CANTP_MAX_CHANNEL_SIZE;
  cw_txsdus : 0 ≤ NumberOfTxSdus C ≤ lenZ (TxSdu C) ∧ lenZ (TxSdu C) ≤ 256;
  cw_rxsdus : 0 ≤ NumberOfRxSdus C ≤ lenZ (RxSdu C);
  cw_txpdus : 0 ≤ NumberOfTxPdus C < 65536;
  cw_rxpdus : 0 ≤ NumberOfRxPdus C ≤ lenZ (RxPdu C);
  cw_sharedfc : 0 ≤ NumberOfSharedFc C ≤ lenZ (SharedFc C);
  cw_tx : ∀ i t, aget (TxSdu C) i = Some t → tx_wf C t;
  cw_rx : ∀ i r, aget (RxSdu C) i = Some r → rx_wf C r;
  cw_param : ∀ i p, aget (Param C) i = Some p → param_wf (pa_Param p);
  cw_rxpdu : ∀ i p, aget (RxPdu C) i = Some p → rxpdu_wf p;
  cw_shared : ∀ i e, aget (SharedFc C) i = Some e → 0 ≤ sf_TxSduId e < lenZ (TxSdu C);
  (* CAN FD: no channel serves both a Tx and an Rx connection *)
  cw_split : CANTP_CANFD_SUPPORT = true →
    ∀ i j t r, aget (TxSdu C) i = Some t → aget (RxSdu C) j = Some r →
      tx_ChannelId t ≠ rx_ChannelId r
}.

(** ** The invariant of a channel *)

Definition asize (FormatId : Z) : Z := if FormatId =? 0 then 0 else 1.

(** A channel that transmits: its connection, and the PCI fits the message. *)
Definition tx_chan (C : CanTp_ConfigType) (c s : Z) (ch : CanTp_ChannelType) : Prop :=
  ∃ t, aget (TxSdu C) (ch_ActiveSduId ch) = Some t ∧ tx_ChannelId t = c ∧
    (ch_PciId ch = CANTP_NPCI_SFCAN → ch_SduLength ch + asize (tx_AddressFormatId t) + 1 ≤ 8) ∧
    (ch_PciId ch = CANTP_NPCI_SFCANFD →
      ch_SduLength ch + asize (tx_AddressFormatId t) + 2 ≤ CanTp_Prv_GetTxDl t) ∧
    (s = 2 → ch_PciId ch ≤ CANTP_NPCI_SFCANFD → ch_SduLengthRemaining ch = ch_SduLength ch) ∧
    (s = 1 → ch_PciId ch ≤ CANTP_NPCI_FFCANFD) ∧
    (s = 2 → ch_PciId ch ≤ CANTP_NPCI_CF) ∧
    (s = 3 → ch_PciId ch = CANTP_NPCI_FC) ∧
    (s = 4 → CANTP_NPCI_CF ≤ ch_PciId ch ∧ 0 < ch_BlockCfsRemaining ch) ∧
    (s = 2 → ch_PciId ch = CANTP_NPCI_CF → 0 < ch_BlockCfsRemaining ch) ∧
    (s = 2 → ch_PciId ch ≤ CANTP_NPCI_FFCANFD → ch_BlockCfsRemaining ch = 0) ∧
    0 < ch_SduLength ch ∧ (2 ≤ s → 0 < ch_SduLengthRemaining ch).

(** A channel that receives: its connection, and a data length CAN knows. *)
Definition rx_chan (C : CanTp_ConfigType) (c : Z) (ch : CanTp_ChannelType) : Prop :=
  ch_ActiveSduId ch < NumberOfRxSdus C ∧
  ∃ r, aget (RxSdu C) (ch_ActiveSduId ch) = Some r ∧ rx_ChannelId r = c ∧
    (CANTP_CANFD_SUPPORT = true → dl_valid (ch_RX_DL ch)).

(** Bounds that keep the CAN_DL look-up of a consecutive frame in its table. *)
Definition rxdl_ok (C : CanTp_ConfigType) (c : Z) (ch : CanTp_ChannelType) : Prop :=
  CANTP_CANFD_SUPPORT = true →
  (∃ j r, aget (RxSdu C) j = Some r ∧ rx_ChannelId r = c) →
  0 ≤ ch_RX_DL ch ≤ 64 ∧ (2 ≤ ch_RX_DL ch ∨ ch_SduLengthRemaining ch ≤ 62).

Definition ch_ranges (ch : CanTp_ChannelType) : Prop :=
  0 ≤ ch_PciId ch ≤ 5 ∧ 0 ≤ ch_FlowStatus ch ≤ 2 ∧ 0 ≤ ch_SN ch ≤ 15 ∧ 0 ≤ ch_ActiveSduId ch ∧
  0 ≤ ch_SduLengthRemaining ch < 2 ^ PduLengthBits ∧ 0 ≤ ch_SduLength ch < 2 ^ PduLengthBits ∧
  0 ≤ ch_BlockCfsRemaining ch < 2 ^ PduLengthBits ∧ 0 ≤ ch_BS ch < 256.

(** Sub-state 5 (request accepted) exists only inside a reception. *)
Definition chan_ok (C : CanTp_ConfigType) (c s : Z) (ch : CanTp_ChannelType) : Prop :=
  0 ≤ s ≤ 8 ∧ s ≠ 5 ∧ ch_ranges ch ∧ rxdl_ok C c ch ∧
  (1 ≤ s ≤ 4 → tx_chan C c s ch) ∧ (6 ≤ s ≤ 8 → rx_chan C c ch).
End wf.

Section inv.
Context `{CanTp_Cfg} {U : Type}.
Abbreviation W := (World U).

Definition conf_ok (C : CanTp_ConfigType) (cf : list Z) : Prop :=
  NumberOfTxPdus C ≤ lenZ cf ∧ ∀ i v, aget cf i = Some v → 0 ≤ v.

Definition queue_ok (C : CanTp_ConfigType) (q : CanTp_QType) : Prop :=
  lenZ (Queue q) = CANTP_BURST_QUEUE_SIZE ∧
  ∀ i v, aget (Queue q) i = Some v → 0 ≤ v < NumberOfChannels C.

(** The invariant of the initialised module. *)
Record Inv (C : CanTp_ConfigType) (w : W) : Prop := {
  inv_cfg : CanTp_CfgPtr (tp w) = Some C;
  inv_on : CanTp_MainState (tp w) = true;
  inv_wf : config_wf C;
  inv_channel : lenZ (CanTp_Channel (tp w)) = CANTP_MAX_CHANNEL_SIZE;
  inv_substate : lenZ (CanTp_SubState (tp w)) = CANTP_MAX_CHANNEL_SIZE;
  inv_conf : conf_ok C (CanTp_TxConfirmationChannel (tp w));
  inv_param : NumberOfRxSdus C ≤ lenZ (CanTp_ParamPair (tp w)) ∧
    ∀ i p, aget (CanTp_ParamPair (tp w)) i = Some p → param_wf p;
  inv_queue : queue_ok C (CanTp_BurstQ (tp w));
  inv_chan : ∀ c s ch, aget (CanTp_SubState (tp w)) c = Some s →
    aget (CanTp_Channel (tp w)) c = Some ch → chan_ok C c s ch
}.
End inv.

(** * CanTp: lemmas on the tables, on padding and on focused worlds *)

(** ** Tables *)

Lemma AddressSize_spec f : 0 ≤ f ≤ 3 → aget CanTp_AddressSize f = Some (asize f).
Proof.
  intros. assert (f = 0 ∨ f = 1 ∨ f = 2 ∨ f = 3) as [->|[->|[->| ->]]] by lia; reflexivity.
Qed.

Lemma asize_bound f : 0 ≤ asize f ≤ 1.
Proof. unfold asize. case_match; lia. Qed.

Lemma PciSize_spec p : 0 ≤ p ≤ 5 → ∃ n, aget CanTp_PciSize p = Some n ∧ 1 ≤ n ≤ 6 ∧
  (p = 0 → n = 1) ∧ (p = 1 → n = 2) ∧ (p = 2 → n = 2) ∧ (p = 3 → n = 6) ∧ (p = 4 → n = 1).
Proof.
  intros. assert (p = 0 ∨ p = 1 ∨ p = 2 ∨ p = 3 ∨ p = 4 ∨ p = 5)
    as [->|[->|[->|[->|[->| ->]]]]] by lia; eexists; (split; [reflexivity | lia]).
Qed.

Lemma PciFrameType_spec p : 0 ≤ p ≤ 5 → ∃ n, aget CanTp_PciFrameType p = Some n ∧ 0 ≤ n ≤ 3 ∧
  (p ≤ 1 ↔ n = 0) ∧ (2 ≤ p ≤ 3 ↔ n = 1) ∧ (p = 4 ↔ n = 2) ∧ (p = 5 ↔ n = 3).
Proof.
  intros. assert (p = 0 ∨ p = 1 ∨ p = 2 ∨ p = 3 ∨ p = 4 ∨ p = 5)
    as [->|[->|[->|[->|[->| ->]]]]] by lia; eexists; (split; [reflexivity | lia]).
Qed.

Lemma State_spec s : 0 ≤ s ≤ 8 → ∃ n, aget CanTp_State s = Some n ∧ 0 ≤ n ≤ 2 ∧
  (n = 0 ↔ s = 0) ∧ (n = 1 ↔ 1 ≤ s ≤ 4) ∧ (n = 2 ↔ 5 ≤ s ≤ 8).
Proof.
  intros. assert (s = 0 ∨ s = 1 ∨ s = 2 ∨ s = 3 ∨ s = 4 ∨ s = 5 ∨ s = 6 ∨ s = 7 ∨ s = 8)
    as [->|[->|[->|[->|[->|[->|[->|[->| ->]]]]]]]] by lia; eexists; (split; [reflexivity | lia]).
Qed.

(** The CAN_DL table gives the smallest CAN FD length that holds the frame. *)
Definition dl_list : list Z := [8; 12; 16; 20; 24; 32; 48; 64].

Lemma dl_valid_list d : dl_valid d ↔ d ∈ dl_list.
Proof. unfold dl_valid, dl_list. rewrite !elem_of_cons, elem_of_nil. tauto. Qed.

Definition CanDlTable_check (i : Z) : bool :=
  match aget CanTp_CanDlTable i with
  | Some d => (i <=? d) && bool_decide (d ∈ dl_list) &&
              forallb (λ dl, (dl <? i) || (d <=? dl)) dl_list
  | None => false
  end.

Lemma CanDlTable_checked : forallb CanDlTable_check (seqZ 0 65) = true.
Proof. vm_compute. reflexivity. Qed.

Lemma CanDlTable_spec i : 0 ≤ i ≤ 64 →
  ∃ d, aget CanTp_CanDlTable i = Some d ∧ i ≤ d ∧ dl_valid d ∧ ∀ dl, dl_valid dl → i ≤ dl → d ≤ dl.
Proof.
  intros Hi. pose proof CanDlTable_checked as Hc. rewrite forallb_forall in Hc.
  specialize (Hc i). unfold CanDlTable_check in Hc.
  destruct (aget CanTp_CanDlTable i) as [d|].
  - exists d. assert (i ∈ seqZ 0 65) as Hin by (apply elem_of_seqZ; lia).
    apply list_elem_of_In, Hc in Hin. bools. apply bool_decide_eq_true in H1.
    split_and!; [done..| by apply dl_valid_list |].
    intros dl Hdl Hle. rewrite forallb_forall in H0.
    specialize (H0 dl ltac:(by apply list_elem_of_In, dl_valid_list)).
    apply orb_true_iff in H0 as [?|?]; bools; lia.
  - exfalso. discriminate Hc. apply list_elem_of_In, elem_of_seqZ. lia.
Qed.

Lemma dl_valid_bound d : dl_valid d → 8 ≤ d ≤ 64.
Proof. unfold dl_valid. lia. Qed.

Section base.
Context `{HCfg : CanTp_Cfg}.

Lemma GetCanDl_spec i : 0 ≤ i ≤ 64 → (CANTP_CANFD_SUPPORT = false → i ≤ 8) →
  ∃ d, CanTp_Prv_GetCanDl i = Some d ∧ i ≤ d ∧ dl_valid d ∧
    ∀ dl, dl_valid dl → i ≤ dl → d ≤ dl.
Proof.
  intros Hi Hfd. unfold CanTp_Prv_GetCanDl. destruct CANTP_CANFD_SUPPORT.
  - by apply CanDlTable_spec.
  - specialize (Hfd eq_refl). exists 8. unfold CANTP_DEFAULT_CAN_DL.
    split_and!; [done | lia | by left |]. intros. by apply dl_valid_bound.
Qed.

Lemma IsRxDlInValid_spec dl : CanTp_Prv_IsRxDlInValid dl = false → dl_valid dl.
Proof.
  unfold CanTp_Prv_IsRxDlInValid, dl_valid. destruct CANTP_CANFD_SUPPORT; intros; bools; [|lia].
  repeat match goal with H : (_ || _) = true |- _ => apply orb_true_iff in H as [?|?] end; bools; lia.
Qed.

(** ** ArrayInit *)

Lemma ArrayInit_loop_spec n l i x :
  0 ≤ i → i + Z.of_nat n ≤ lenZ l → ArrayInit_loop n l i x = awrite l i (replicate n x).
Proof.
  revert l i. induction n as [|n IH]; intros l i Hi Hn; cbn [ArrayInit_loop replicate].
  - rewrite awrite_is_Some by (rewrite ?lenZ_nil; lia). cbn [app length].
    by rewrite Nat.add_0_r, take_drop.
  - rewrite aset_is_Some by lia. cbn. rewrite IH by (rewrite ?lenZ_insert; lia).
    rewrite !awrite_is_Some by (unfold lenZ; rewrite ?length_insert; cbn [length];
      rewrite ?length_replicate; unfold lenZ in Hn; lia).
    f_equal. replace (Z.to_nat (i + 1)) with (S (Z.to_nat i)) by lia.
    rewrite (take_S_r _ _ x) by (apply list_lookup_insert_eq; unfold lenZ in Hn; lia).
    rewrite take_insert_ge by lia. rewrite drop_insert_lt by lia.
    cbn [length]. rewrite <-app_assoc. cbn [app]. do 3 f_equal. f_equal. lia.
Qed.

Lemma ArrayInit_spec l off L x :
  0 ≤ off → 0 ≤ L < 4294967296 → off + L ≤ lenZ l → 0 ≤ x < 256 →
  CanTp_Prv_ArrayInit l off L x = awrite l off (replicate (Z.to_nat L) x).
Proof.
  intros. unfold CanTp_Prv_ArrayInit. rewrite u32_small, u8_small by lia.
  apply ArrayInit_loop_spec; lia.
Qed.

Lemma ArrayInit_is_Some l off L x :
  0 ≤ off → 0 ≤ L < 4294967296 → off + L ≤ lenZ l →
  ∃ l', CanTp_Prv_ArrayInit l off L x = Some l' ∧ lenZ l' = lenZ l.
Proof.
  intros. unfold CanTp_Prv_ArrayInit. rewrite u32_small by lia.
  rewrite ArrayInit_loop_spec by lia.
  rewrite awrite_is_Some by (unfold lenZ in *; rewrite ?length_replicate; lia).
  eexists. split; [done|]. unfold lenZ in *.
  rewrite !length_app, length_take, length_drop, length_replicate. lia.
Qed.

Lemma plen_bound z : 16 ≤ PduLengthBits → 0 ≤ plen z < 2 ^ PduLengthBits.
Proof. intros. apply uw_bound. lia. Qed.

Lemma plen_small z : 0 ≤ z < 2 ^ PduLengthBits → plen z = z.
Proof. apply uw_small. Qed.
End base.

Lemma aset_lenZ {A} (l : list A) i x : 0 ≤ i < lenZ l → ∃ l', aset l i x = Some l' ∧ lenZ l' = lenZ l.
Proof. intros. eexists. split; [by apply aset_is_Some | by rewrite lenZ_insert]. Qed.

Lemma awrite_lenZ {A} (l : list A) i xs :
  0 ≤ i → i + lenZ xs ≤ lenZ l → ∃ l', awrite l i xs = Some l' ∧ lenZ l' = lenZ l.
Proof.
  intros. rewrite awrite_is_Some by lia. eexists. split; [done|].
  unfold lenZ in *. rewrite !length_app, length_take, length_drop. lia.
Qed.

Section focus.
Context `{HCfg : CanTp_Cfg} {HOk : CanTp_CfgOk} {U : Type} `{HEnv : CanTp_Env U}.
Abbreviation W := (World U).
Implicit Types (w : W) (C : CanTp_ConfigType).

Lemma pow2_plen : 65536 ≤ 2 ^ PduLengthBits ≤ 4294967296.
Proof using HOk.
  pose proof ok_plen. split.
  - change 65536 with (2 ^ 16). apply Z.pow_le_mono_r; lia.
  - change 4294967296 with (2 ^ 32). apply Z.pow_le_mono_r; lia.
Qed.

(** The number of consecutive frames is the ceiling of the quotient. *)
Definition ceil_div (n d : Z) : Z := (n + d - 1) / d.

Lemma ceil_div_code n d :
  0 ≤ n → 1 ≤ d → (if n mod d =? 0 then n / d else n / d + 1) = ceil_div n d.
Proof.
  intros Hn Hd. unfold ceil_div. pose proof (Z.div_mod n d ltac:(lia)).
  pose proof (Z.mod_pos_bound n d ltac:(lia)).
  destruct (Z.eqb_spec (n mod d) 0).
  - apply Z.div_unique with (d - 1); lia.
  - apply Z.div_unique with (n mod d - 1); lia.
Qed.

Lemma ceil_div_bound n d : 0 ≤ n → 1 ≤ d → 0 ≤ ceil_div n d ≤ n ∧ (0 < n → 0 < ceil_div n d).
Proof.
  intros Hn Hd. unfold ceil_div. split; [split|].
  - apply Z.div_pos; lia.
  - destruct (Z.eq_dec n 0) as [->|]; [rewrite Z.div_small; lia|].
    apply Z.lt_succ_r, Z.div_lt_upper_bound; nia.
  - intros. apply Z.div_str_pos. lia.
Qed.

Lemma wp_block_cfs n d (Q : Z → W → Prop) w :
  0 ≤ n < 2 ^ PduLengthBits → 1 ≤ d → Q (ceil_div n d) w → wp (block_cfs n d) Q w.
Proof.
  intros Hn Hd HQ. unfold block_cfs. destruct (Z.eqb_spec d 0); [lia|].
  apply wp_ret. rewrite ceil_div_code by lia. rewrite plen_small; [done|].
  pose proof (ceil_div_bound n d). lia.
Qed.

Lemma Inv_valid C w c : Inv C w → 0 ≤ c < CANTP_MAX_CHANNEL_SIZE → ch_valid w c.
Proof. intros HI Hc. split; [rewrite (inv_channel _ _ HI) | rewrite (inv_substate _ _ HI)]; lia. Qed.

(** From the invariant to a focused world ... *)
Lemma Inv_focus C w c : Inv C w → 0 ≤ c < CANTP_MAX_CHANNEL_SIZE →
  ∃ s ch, w = foc w c s ch (CanTp_TxConfirmationChannel (tp w)) (up w) (trace w) ∧ chan_ok C c s ch.
Proof.
  intros HI Hc. destruct (Inv_valid _ _ _ HI Hc) as [H1 H2].
  apply aget_is_Some in H1 as [ch Hch]. apply aget_is_Some in H2 as [s Hs].
  exists s, ch. split; [by apply foc_intro | by eapply inv_chan].
Qed.

(** ... and back. *)
Lemma foc_Inv C w c s ch cf u tr :
  Inv C w → 0 ≤ c < CANTP_MAX_CHANNEL_SIZE → conf_ok C cf → chan_ok C c s ch →
  Inv C (foc w c s ch cf u tr).
Proof.
  intros HI Hc Hcf Hch. pose proof HI as []. split; cbn; auto; rewrite ?lenZ_insert; auto.
  intros c' s' ch'. rewrite !aget_insert by lia. case_decide; subst; [|by eauto].
  intros [= <-] [= <-]. done.
Qed.

Lemma conf_ok_insert C cf i v :
  conf_ok C cf → 0 ≤ i < NumberOfTxPdus C → 0 ≤ v → conf_ok C (<[Z.to_nat i := v]> cf).
Proof.
  intros [Hlen Hcf] Hi Hv. split; [by rewrite lenZ_insert|].
  intros j v'. rewrite aget_insert by lia. case_decide; [by intros [= <-] | apply Hcf].
Qed.
End focus.
