(* ===== verification/CanTpSafe.v ===== *)
(** * CanTp: the invariant is preserved, channel functions

    Every function that works on one channel, run in a world satisfying the
    invariant, has a defined result and restores the invariant. *)

From S2P Require Import Prelude ComStack CanTpTypes CanTpPrv CanTpFrames CanTpChan CanTp CanTpInv.
From stdpp Require Import base list numbers option.

#[local] Open Scope Z_scope.

(** ** Frame building blocks *)

Section blocks.
Context `{HCfg : CanTp_Cfg} {HOk : CanTp_CfgOk}.

Lemma put_address_is_Some buf f a :
  1 ≤ lenZ buf → 0 ≤ f ≤ 3 →
  ∃ buf', put_address buf f a = Some (buf', asize f) ∧ lenZ buf' = lenZ buf.
Proof.
  intros Hb Hf. unfold put_address, asize, CANTP_STANDARD. destruct (f =? 0); cbn; [by eauto|].
  destruct (aset_lenZ buf 0 a) as (l & -> & ?); [lia|]. cbn. eauto.
Qed.

Lemma pad_frame_is_Some padding buf off len dl :
  0 ≤ off → 0 ≤ len → off + len ≤ dl → dl_valid dl → dl ≤ lenZ buf →
  (CANTP_CANFD_SUPPORT = false → dl = 8) →
  ∃ buf' n, pad_frame padding buf off len = Some (buf', n) ∧ lenZ buf' = lenZ buf ∧ off + len ≤ n ≤ dl.
Proof.
  intros Ho Hl Hle Hdl Hb Hfd. unfold pad_frame. pose proof (dl_valid_bound _ Hdl).
  rewrite u8_small by lia. destruct padding; [|eauto with lia].
  destruct (GetCanDl_spec (off + len)) as (d & -> & Hd1 & Hd2 & Hd3);
    [lia | intros E; specialize (Hfd E); lia |].
  specialize (Hd3 dl Hdl Hle). cbn.
  destruct (ArrayInit_is_Some buf (off + len) (d - (off + len)) CANTP_PADDING_BYTE) as (l & -> & ?);
    [lia..|]. cbn. eauto with lia.
Qed.

Lemma sf_pci_is_Some p n buf i :
  0 ≤ i → i + 2 ≤ lenZ buf → ∃ buf', sf_pci p n buf i = Some buf' ∧ lenZ buf' = lenZ buf.
Proof.
  intros. unfold sf_pci. case_match; [apply aset_lenZ; lia|]. case_match; [|eauto].
  destruct (aset_lenZ buf i 0) as (l & -> & Hl); [lia|]. cbn.
  destruct (aset_lenZ l (i + 1) (u8 n)) as (l' & -> & ?); [lia|]. eauto with lia.
Qed.

Lemma ff_pci_is_Some p n buf i :
  0 ≤ i → i + 6 ≤ lenZ buf → ∃ buf', ff_pci p n buf i = Some buf' ∧ lenZ buf' = lenZ buf.
Proof.
  intros. unfold ff_pci.
  repeat (case_match || match goal with
    | |- context [aset ?l ?j ?x] =>
        let H := fresh in destruct (aset_lenZ l j x) as (? & H & ?); [lia|]; rewrite H; cbn
    end); eauto with lia.
Qed.
End blocks.

Section safe.
Context `{HCfg : CanTp_Cfg} {HOk : CanTp_CfgOk} {U : Type} `{HEnv : CanTp_Env U} {HEok : CanTp_EnvOk U}.
Abbreviation W := (World U).
Context (C : CanTp_ConfigType) (w : W) (HI : Inv C w) (c : Z) (Hc : 0 ≤ c < NumberOfChannels C).

Lemma safe_valid : ch_valid w c.
Proof using HI Hc. pose proof (cw_channels _ (inv_wf _ _ HI)). apply (Inv_valid C); [done | lia]. Qed.

Lemma safe_cfg : CanTp_CfgPtr (tp w) = Some C.
Proof using HI. apply (inv_cfg _ _ HI). Qed.

Lemma safe_foc s ch cf u tr :
  conf_ok C cf → chan_ok C c s ch → Inv C (foc w c s ch cf u tr).
Proof using HI Hc.
  pose proof (cw_channels _ (inv_wf _ _ HI)). intros. apply foc_Inv; [done | lia | done..].
Qed.

Let Hv := safe_valid.
Let HC := safe_cfg.
Hint Resolve safe_foc : core.

Lemma tx_conn i t : aget (TxSdu C) i = Some t →
  tx_wf C t ∧ aget CanTp_AddressSize (tx_AddressFormatId t) = Some (asize (tx_AddressFormatId t)) ∧
  ∃ o, aget (TimeOut C) (tx_TimeOutId t) = Some o.
Proof using HI.
  intros Ht. pose proof (cw_tx _ (inv_wf _ _ HI) _ _ Ht) as Hwf. split; [done|]. split.
  - apply AddressSize_spec, Hwf.
  - apply aget_is_Some, Hwf.
Qed.

Lemma rx_conn i r : aget (RxSdu C) i = Some r →
  rx_wf C r ∧ aget CanTp_AddressSize (rx_AddressFormatId r) = Some (asize (rx_AddressFormatId r)) ∧
  (∃ o, aget (TimeOut C) (rx_TimeOutId r) = Some o) ∧
  ∃ p, aget (Param C) (rx_ParamId r) = Some p.
Proof using HI.
  intros Hr. pose proof (cw_rx _ (inv_wf _ _ HI) _ _ Hr) as Hwf. split_and!; [done | | |].
  - apply AddressSize_spec, Hwf.
  - apply aget_is_Some, Hwf.
  - apply aget_is_Some, Hwf.
Qed.

Lemma TxDl_fd t : CANTP_CANFD_SUPPORT = false → CanTp_Prv_GetTxDl t = 8.
Proof. unfold CanTp_Prv_GetTxDl. by intros ->. Qed.

(** ** Transmission *)

Lemma wp_PageConfirmation ctx s ch cf u tr Q :
  tc_ChannelId ctx = c →
  (∀ st u' tr', (st = ch_TxBufferStatus ch ∨ st = CANTP_BUFFER_ASKED) →
    Q tt (foc w c s (set_ch_TxBufferStatus st ch) cf u' tr')) →
  wp (CanTp_Prv_PageConfirmation ctx) Q (foc w c s ch cf u tr).
Proof using Hv.
  intros Hctx HQ. unfold CanTp_Prv_PageConfirmation. rewrite Hctx. foc_steps.
  - apply HQ. by right.
  - specialize (HQ (ch_TxBufferStatus ch) u tr (or_introl eq_refl)). by destruct ch.
Qed.

(** Negotiating the buffer touches only its status, and may end the transfer. *)
Lemma wp_GetTxBuffer ctx s ch cf u tr Q :
  tc_ChannelId ctx = c → tc_PduRApiId ctx = CANTP_TX_PDUR_CONFIRMATION →
  (∀ s' st u' tr', (s' = s ∨ s' = CANTP_IDLE ∧ st ≠ CANTP_BUFFER_AVAILABLE) →
    Q tt (foc w c s' (set_ch_TxBufferStatus st ch) cf u' tr')) →
  wp (CanTp_Prv_GetTxBuffer ctx) Q (foc w c s ch cf u tr).
Proof using Hv.
  intros Hctx Hapi HQ. unfold CanTp_Prv_GetTxBuffer. rewrite Hctx, Hapi.
  assert (∀ s' u' tr', s' = s ∨ s' = CANTP_IDLE ∧ ch_TxBufferStatus ch ≠ CANTP_BUFFER_AVAILABLE →
    Q tt (foc w c s' ch cf u' tr')) as HQ'.
  { intros s' u' tr' Hs. specialize (HQ s' (ch_TxBufferStatus ch) u' tr' Hs). by destruct ch. }
  foc_steps; bools; try (apply HQ'; by auto).
  destruct res; foc_steps; try (apply HQ'; by auto).
  - apply HQ. by left.
  - apply wp_PageConfirmation; [done|]. intros st u1 tr1 _. apply HQ. by left.
Qed.

(** A built frame lies inside its buffer. *)
Definition frame_fits (r : Std_ReturnType) (info : PduInfoType) : Prop :=
  r = E_OK → ∃ b, SduDataPtr info = Some b ∧ 0 ≤ SduLength info ≤ lenZ b.

(** The buffer holds a frame of the connection in progress. *)
Definition buf_ok (s : Z) (ch : CanTp_ChannelType) (buf : list Z) : Prop :=
  8 ≤ lenZ buf ∧ (s = 2 → ∀ t, aget (TxSdu C) (ch_ActiveSduId ch) = Some t → CanTp_Prv_GetTxDl t ≤ lenZ buf).

(** What the invariant says of a channel that waits for a transmit confirmation. *)
Lemma tx_chan_wait ch : chan_ok C c 2 ch →
  ∃ t n, aget (TxSdu C) (ch_ActiveSduId ch) = Some t ∧ tx_wf C t ∧
    aget CanTp_AddressSize (tx_AddressFormatId t) = Some (asize (tx_AddressFormatId t)) ∧
    aget CanTp_PciSize (ch_PciId ch) = Some n ∧ 1 ≤ n ≤ 6 ∧ 8 ≤ CanTp_Prv_GetTxDl t ≤ 64 ∧
    (ch_PciId ch ≤ 1 →
      asize (tx_AddressFormatId t) + n + ch_SduLengthRemaining ch ≤ CanTp_Prv_GetTxDl t) ∧
    (ch_PciId ch = 4 → n = 1).
Proof using HI HOk.
  intros (Hs & Hs5 & Hr & _ & Htx & _).
  destruct Htx as (t & Ht & Htc & Hsf & Hsffd & Hrem & _); [lia|].
  destruct (tx_conn _ _ Ht) as (Hwf & Has & _). pose proof (txw_dl _ _ Hwf) as [Hdl _].
  pose proof (dl_valid_bound _ Hdl). unfold ch_ranges in Hr.
  destruct (PciSize_spec (ch_PciId ch)) as (n & Hn & Hn'); [lia|]. consts.
  exists t, n. split_and!; try done; try lia.
Qed.

Lemma wp_CreateTxSingleFrame s ch cf u tr buf len Q :
  chan_ok C c s ch → buf_ok s ch buf → ch_PciId ch ≤ 1 →
  (∀ r info u' tr', frame_fits r info → Q (r, info) (foc w c s ch cf u' tr')) →
  wp (CanTp_Prv_CreateTxSingleFrame c (mkPduInfo (Some buf) len)) Q (foc w c s ch cf u tr).
Proof using HI HOk HEok Hv HC.
  intros Hok [Hb8 Hbuf] Hpci HQ. unfold CanTp_Prv_CreateTxSingleFrame.
  foc_steps; bools; consts; [subst s|by apply HQ].
  destruct (tx_chan_wait _ Hok) as (t & n & Ht & Hwf & Has & Hn & Hn' & Hdl & Hlen & _).
  specialize (Hbuf eq_refl _ Ht). specialize (Hlen Hpci). destruct Hok as (_ & _ & Hr & _). unfold ch_ranges in Hr.
  pose proof (asize_bound (tx_AddressFormatId t)). pose proof (lenZ_nonneg buf).
  foc_steps. rewrite !u8_small in * by lia.
  pose proof (ok_copytx _ _ _ _ _ _ _ Ectx ltac:(lia)) as Hdata. pose proof (lenZ_nonneg data).
  destruct (awrite_lenZ buf (asize (tx_AddressFormatId t) + n) data) as (b1 & Hb1 & Hb1l); [lia..|].
  foc_steps. case_decide; foc_steps; [|by apply HQ].
  destruct (pad_frame_is_Some (CanTp_Prv_GetBit (tx_BitFields t) CANTP_PADDINGON) b1
              (asize (tx_AddressFormatId t) + n) (ch_SduLengthRemaining ch) (CanTp_Prv_GetTxDl t))
    as (b2 & dl & Hb2 & Hb2l & Hdl2); [lia..| apply Hwf | lia | apply TxDl_fd |].
  foc_steps.
  destruct (put_address_is_Some b2 (tx_AddressFormatId t) (tx_Address t)) as (b3 & Hb3 & Hb3l);
    [lia | apply Hwf |].
  foc_steps.
  destruct (sf_pci_is_Some (ch_PciId ch) (ch_SduLength ch) b3 (asize (tx_AddressFormatId t)))
    as (b4 & Hb4 & Hb4l); [lia..|].
  foc_steps. apply HQ. intros _. exists b4. cbn. split; [done | lia].
Qed.
Lemma wp_CreateTxFirstFrame s ch cf u tr buf len Q :
  chan_ok C c s ch → buf_ok s ch buf →
  (∀ r info u' tr', frame_fits r info → Q (r, info) (foc w c s ch cf u' tr')) →
  wp (CanTp_Prv_CreateTxFirstFrame c (mkPduInfo (Some buf) len)) Q (foc w c s ch cf u tr).
Proof using HI HOk HEok Hv HC.
  intros Hok [Hb8 Hbuf] HQ. unfold CanTp_Prv_CreateTxFirstFrame.
  foc_steps; bools; consts; [subst s|by apply HQ].
  destruct (tx_chan_wait _ Hok) as (t & n & Ht & Hwf & Has & Hn & Hn' & Hdl & _).
  specialize (Hbuf eq_refl _ Ht). pose proof (asize_bound (tx_AddressFormatId t)).
  pose proof pow2_plen.
  foc_steps. rewrite !u8_small, ?plen_small in * by lia.
  pose proof (ok_copytx _ _ _ _ _ _ _ Ectx ltac:(lia)) as Hdata. pose proof (lenZ_nonneg data).
  destruct (awrite_lenZ buf (asize (tx_AddressFormatId t) + n) data) as (b1 & Hb1 & Hb1l); [lia..|].
  foc_steps. case_decide; foc_steps; [|by apply HQ].
  destruct (put_address_is_Some b1 (tx_AddressFormatId t) (tx_Address t)) as (b3 & Hb3 & Hb3l);
    [lia | apply Hwf |].
  foc_steps.
  destruct (ff_pci_is_Some (ch_PciId ch) (ch_SduLength ch) b3 (asize (tx_AddressFormatId t)))
    as (b4 & Hb4 & Hb4l); [lia..|].
  foc_steps. apply HQ. intros _. exists b4. cbn. split; [done | lia].
Qed.

Lemma wp_CreateTxConsecutiveFrame s ch cf u tr buf len Q :
  chan_ok C c s ch → buf_ok s ch buf →
  (∀ r info u' tr', frame_fits r info → Q (r, info) (foc w c s ch cf u' tr')) →
  wp (CanTp_Prv_CreateTxConsecutiveFrame c (mkPduInfo (Some buf) len)) Q (foc w c s ch cf u tr).
Proof using HI HOk HEok Hv HC.
  intros Hok [Hb8 Hbuf] HQ. unfold CanTp_Prv_CreateTxConsecutiveFrame.
  foc_steps; bools; consts; [subst s|by apply HQ].
  destruct (tx_chan_wait _ Hok) as (t & n & Ht & Hwf & Has & _ & _ & Hdl & _).
  specialize (Hbuf eq_refl _ Ht). pose proof (asize_bound (tx_AddressFormatId t)).
  destruct Hok as (_ & _ & Hr & _). unfold ch_ranges in Hr.
  foc_steps. set (a := asize (tx_AddressFormatId t)) in *. set (dl := CanTp_Prv_GetTxDl t) in *.
  assert (Hlen : ∃ L, (if u8 (dl - u8 (a + 1)) <? ch_SduLengthRemaining ch then u8 (dl - u8 (a + 1))
    else u8 (ch_SduLengthRemaining ch)) = L ∧ 0 ≤ L ∧ a + 1 + L ≤ dl).
  { eexists. split; [done|]. rewrite (u8_small (a + 1)), (u8_small (dl - (a + 1))) by lia.
    destruct (Z.ltb_spec (dl - (a + 1)) (ch_SduLengthRemaining ch)); [lia|]. rewrite u8_small; lia. }
  destruct Hlen as (L & HL & HL0 & HLdl). rewrite HL in *. rewrite (u8_small (a + 1)) by lia.
  pose proof (ok_copytx _ _ _ _ _ _ _ Ectx ltac:(lia)) as Hdata. pose proof (lenZ_nonneg data).
  destruct (awrite_lenZ buf (a + 1) data) as (b1 & Hb1 & Hb1l); [lia..|].
  foc_steps. case_decide; [|foc_steps; by apply HQ]. foc_step.
  assert (∀ b2 n2, lenZ b2 = lenZ b1 → 0 ≤ n2 ≤ lenZ b1 →
    wp ('(buf, p) ← lift (put_address b2 (tx_AddressFormatId t) (tx_Address t));
        buf ← lift (aset buf p (Z.lor 0x20 (ch_SN ch)));
        mret (E_OK, mkPduInfo (Some buf) n2)) Q
      (foc w c 2 ch cf u' (tr ++ [EvCopyTxData (tx_PduRPduHandleId t) data res]))) as Hend.
  { intros b2 n2 Hb2 Hn2.
    destruct (put_address_is_Some b2 (tx_AddressFormatId t) (tx_Address t)) as (b3 & Hb3 & Hb3l);
      [lia | apply Hwf |].
    fold a in Hb3. foc_steps.
    destruct (aset_lenZ b3 a (Z.lor 0x20 (ch_SN ch))) as (b4 & Hb4 & Hb4l); [lia|].
    foc_steps. apply HQ. intros _. exists b4. cbn. split; [done | lia]. }
  foc_step.
  - destruct (pad_frame_is_Some (CanTp_Prv_GetBit (tx_BitFields t) CANTP_PADDINGON) b1 (a + 1) L dl)
      as (b2 & n2 & Hb2 & Hb2l & Hdl2); [lia..| apply Hwf | lia | apply TxDl_fd |].
    foc_step. apply Hend; lia.
  - foc_step. apply Hend; lia.
Qed.

Lemma rx_param ch : rx_chan C c ch →
  ∃ r p, aget (RxSdu C) (ch_ActiveSduId ch) = Some r ∧ rx_wf C r ∧ param_wf p ∧
    (if CANTP_CHANGE_PARAMETER_API then aget (CanTp_ParamPair (tp w)) (ch_ActiveSduId ch) = Some p
     else ∃ r pa, aget (RxSdu C) (ch_ActiveSduId ch) = Some r ∧
                  aget (Param C) (rx_ParamId r) = Some pa ∧ p = pa_Param pa).
Proof using HI.
  intros (Hlt & r & Hr & _). destruct (rx_conn _ _ Hr) as (Hwf & _ & _ & pa & Hpa).
  destruct CANTP_CHANGE_PARAMETER_API eqn:E.
  - destruct (inv_param _ _ HI) as [Hlen Hpw].
    destruct (aget_is_Some (CanTp_ParamPair (tp w)) (ch_ActiveSduId ch)) as [p Hp].
    + apply aget_Some in Hr. lia.
    + exists r, p. split_and!; eauto.
  - exists r, (pa_Param pa). split_and!; [done..| |].
    + eapply cw_param; [apply (inv_wf _ _ HI) | done].
    + by exists r, pa.
Qed.

Lemma wp_CreateTxFlowControlFrame s ch cf u tr buf len Q :
  (s = 7 → rx_chan C c ch) → 8 ≤ lenZ buf →
  (∀ r info u' tr', frame_fits r info → Q (r, info) (foc w c s ch cf u' tr')) →
  wp (CanTp_Prv_CreateTxFlowControlFrame c (mkPduInfo (Some buf) len)) Q (foc w c s ch cf u tr).
Proof using HI HOk Hv HC.
  intros Hrx Hb8 HQ. unfold CanTp_Prv_CreateTxFlowControlFrame.
  foc_steps; bools; consts; [|by apply HQ]. specialize (Hrx H).
  destruct (rx_param _ Hrx) as (r & p & Hr & Hwf & _ & Hp).
  destruct (rx_conn _ _ Hr) as (_ & Has & _). pose proof (asize_bound (rx_AddressFormatId r)).
  foc_steps. eapply wp_GetRxParam; [done|exact Hp|]. foc_steps.
  destruct (put_address_is_Some buf (rx_AddressFormatId r) (rx_Address r)) as (b1 & Hb1 & Hb1l);
    [lia | apply Hwf |].
  set (a := asize (rx_AddressFormatId r)) in *. foc_steps.
  destruct (aset_lenZ b1 a (u8 (Z.lor 0x30 (ch_FlowStatus ch)))) as (b2 & Hb2 & Hb2l); [lia|]. foc_steps.
  destruct (aset_lenZ b2 (a + 1) (ch_BS ch)) as (b3 & Hb3 & Hb3l); [lia|]. foc_steps.
  destruct (aset_lenZ b3 (a + 2) (pair_get p TP_STMIN)) as (b4 & Hb4 & Hb4l); [lia|]. foc_steps.
  - rewrite u8_small by lia.
    destruct (ArrayInit_is_Some b4 (a + 3) (8 - (a + 3)) CANTP_PADDING_BYTE) as (b5 & Hb5 & Hb5l); [lia..|].
    foc_steps. apply HQ. intros _. exists b5. cbn. split; [done | lia].
  - apply HQ. intros _. exists b4. cbn. split; [done | lia].
Qed.

(** Building a frame only talks to PduR. *)
Lemma wp_CreateFrame s ch cf u tr buf len Q :
  chan_ok C c s ch → buf_ok s ch buf →
  (∀ r info u' tr', frame_fits r info → Q (r, info) (foc w c s ch cf u' tr')) →
  wp (CanTp_Prv_CreateFrame c (mkPduInfo (Some buf) len)) Q (foc w c s ch cf u tr).
Proof using HI HOk HEok Hv HC.
  intros Hok Hbuf HQ. unfold CanTp_Prv_CreateFrame. foc_steps.
  pose proof Hok as (_ & _ & Hr & _ & _ & Hrx). unfold ch_ranges in Hr.
  destruct (PciFrameType_spec (ch_PciId ch)) as (ft & Hft & Hft'); [lia|].
  foc_steps; bools; consts.
  - apply wp_CreateTxSingleFrame; [done..| lia | done].
  - by apply wp_CreateTxFirstFrame.
  - by apply wp_CreateTxConsecutiveFrame.
  - apply wp_CreateTxFlowControlFrame; [intros ->; apply Hrx; lia | apply Hbuf | done].
Qed.

Lemma garbage_ok s ch : buf_ok s ch SduBuffer_garbage.
Proof using HI HOk.
  split; rewrite ok_garbage; [apply ok_npdu|].
  intros _ t Ht. destruct (tx_conn _ _ Ht) as (Hwf & _). apply Hwf.
Qed.

(** Handing a frame to CanIf records the pending confirmation, or ends the transfer. *)
Lemma wp_CanIfTransmit ctx len s ch cf u tr Q :
  tc_ChannelId ctx = c →
  (tc_PduRApiId ctx = CANTP_TX_PDUR_CONFIRMATION ∨ tc_PduRApiId ctx = CANTP_RX_PDUR_CONFIRMATION) →
  0 ≤ tc_TxConfirmationId ctx < NumberOfTxPdus C →
  chan_ok C c s ch → conf_ok C cf →
  (∀ s' cf' u' tr', (s' = s ∨ s' = CANTP_IDLE) → conf_ok C cf' → Q tt (foc w c s' ch cf' u' tr')) →
  wp (CanTp_Prv_CanIfTransmit ctx len) Q (foc w c s ch cf u tr).
Proof using HI HOk HEok Hc Hv HC.
  intros Hctx Hapi Hid Hok Hcf HQ. unfold CanTp_Prv_CanIfTransmit. rewrite Hctx. foc_step.
  pose proof ok_channels.
  assert (∀ r info u1 tr1, frame_fits r info ∨ SduDataPtr info = None →
    wp (match r with
        | E_OK => set_conf (tc_TxConfirmationId ctx) c;;
            r ← call_CanIf_Transmit (tc_PduId ctx) (SduDataPtr info) (SduLength info);
            match r with
            | E_OK => mret tt
            | E_NOT_OK =>
                CanTp_Prv_PduRConfirmation (tc_PduRApiId ctx) (tc_PduRPduHandleId ctx) E_NOT_OK;;
                CanTp_Prv_ReportRunTimeError CANTP_MAINFUNCTION CANTP_E_COM;;
                set_sub c CANTP_IDLE;;
                set_conf (tc_TxConfirmationId ctx) CANTP_INVALID_CHANNEL
            end
        | E_NOT_OK => mret tt
        end) Q (foc w c s ch cf u1 tr1)) as Hsend.
  { intros [] info u1 tr1 Hfit; [|foc_step; apply HQ; auto].
    foc_steps; [destruct Hcf; lia|]. apply wp_CanIf_Transmit.
    { destruct Hfit as [Hfit| ->]; [|done].
      destruct (Hfit eq_refl) as (b & -> & Hb). lia. }
    assert (conf_ok C (<[Z.to_nat (tc_TxConfirmationId ctx) := c]> cf)) as Hcf'
      by (apply conf_ok_insert; [done|lia..]).
    intros [] u2 _; foc_steps; [by apply HQ; auto|].
    destruct Hapi as [-> | ->]; foc_steps; try (destruct Hcf'; lia);
      (apply HQ; [by auto | apply conf_ok_insert; [done|lia|]; unfold CANTP_INVALID_CHANNEL; lia]). }
  foc_step.
  - foc_step. apply (Hsend E_OK (mkPduInfo None len)). by right.
  - apply wp_CreateFrame; [done | apply garbage_ok |]. intros. apply Hsend. by left.
Qed.

(** ** Channel facts *)

Lemma tx_rxdl i t ch : aget (TxSdu C) i = Some t → tx_ChannelId t = c → rxdl_ok C c ch.
Proof using HI.
  intros Ht Htc Hfd (j & r & Hr & Hrc). exfalso.
  by apply (cw_split _ (inv_wf _ _ HI) Hfd _ _ _ _ Ht Hr); congruence.
Qed.

Lemma chan_ok_idle ch : ch_ranges ch → rxdl_ok C c ch → chan_ok C c CANTP_IDLE ch.
Proof. intros. unfold chan_ok. consts. split_and!; try done; lia. Qed.

Lemma chan_ok_to_idle s ch : chan_ok C c s ch → chan_ok C c CANTP_IDLE ch.
Proof. intros (_ & _ & ? & ? & _). by apply chan_ok_idle. Qed.

Lemma chan_ok_tx s ch : chan_ok C c s ch → 1 ≤ s ≤ 4 →
  ∃ t o, aget (TxSdu C) (ch_ActiveSduId ch) = Some t ∧ tx_ChannelId t = c ∧ tx_wf C t ∧
    aget CanTp_AddressSize (tx_AddressFormatId t) = Some (asize (tx_AddressFormatId t)) ∧
    aget (TimeOut C) (tx_TimeOutId t) = Some o ∧ 8 ≤ CanTp_Prv_GetTxDl t ≤ 64.
Proof using HI.
  intros (_ & _ & _ & _ & Htx & _) Hs. destruct (Htx Hs) as (t & Ht & Htc & _).
  destruct (tx_conn _ _ Ht) as (Hwf & Has & o & Ho). exists t, o.
  split_and!; try done; apply dl_valid_bound, Hwf.
Qed.

Lemma chan_ok_rx s ch : chan_ok C c s ch → 6 ≤ s ≤ 8 →
  rx_chan C c ch ∧
  ∃ r o p, aget (RxSdu C) (ch_ActiveSduId ch) = Some r ∧ rx_ChannelId r = c ∧ rx_wf C r ∧
    aget CanTp_AddressSize (rx_AddressFormatId r) = Some (asize (rx_AddressFormatId r)) ∧
    aget (TimeOut C) (rx_TimeOutId r) = Some o ∧ aget (Param C) (rx_ParamId r) = Some p ∧
    (CANTP_CANFD_SUPPORT = true → dl_valid (ch_RX_DL ch)).
Proof using HI.
  intros (_ & _ & _ & _ & _ & Hrx) Hs. split; [by apply Hrx|].
  destruct (Hrx Hs) as (_ & r & Hr & Hrc & Hdl).
  destruct (rx_conn _ _ Hr) as (Hwf & Has & (o & Ho) & p & Hp). exists r, o, p. by split_and!.
Qed.

Lemma conf_some i cf : conf_ok C cf → 0 ≤ i < NumberOfTxPdus C → ∃ v, aget cf i = Some v ∧ 0 ≤ v.
Proof.
  intros [Hl Hcf] Hi. destruct (aget_is_Some cf i) as [v Hv']; [lia|]. exists v. split; [done | by eapply Hcf].
Qed.

(** ** State functions of a transmission *)

Definition post : unit → W → Prop := λ _ w', Inv C w'.

Lemma safe_TxWaitForFlowControlFrame s ch cf u tr :
  conf_ok C cf → chan_ok C c s ch →
  wp (CanTp_Prv_TxWaitForFlowControlFrame c) post (foc w c s ch cf u tr).
Proof using HI Hc Hv HC.
  intros Hcf Hok. unfold CanTp_Prv_TxWaitForFlowControlFrame. foc_steps; [|by apply safe_foc].
  bools. destruct (chan_ok_tx _ _ Hok) as (t & o & Ht & Htc & Hwf & _ & Ho & _); [consts; lia|].
  foc_steps; apply safe_foc; eauto using chan_ok_to_idle.
Qed.

Lemma safe_TxWaitForTransmitConfirmation s ch cf u tr :
  conf_ok C cf → chan_ok C c s ch →
  wp (CanTp_Prv_TxWaitForTransmitConfirmation c) post (foc w c s ch cf u tr).
Proof using HI HOk Hc Hv HC.
  intros Hcf Hok. unfold CanTp_Prv_TxWaitForTransmitConfirmation. foc_steps; [|by apply safe_foc].
  bools. destruct (chan_ok_tx _ _ Hok) as (t & o & Ht & Htc & Hwf & _ & Ho & _); [consts; lia|].
  pose proof (txw_conf _ _ Hwf). pose proof ok_channels.
  foc_steps; [destruct Hcf; lia | |by apply safe_foc].
  apply safe_foc; [|by eapply chan_ok_to_idle].
  apply conf_ok_insert; [done | lia | unfold CANTP_INVALID_CHANNEL; lia].
Qed.
End safe.
