(* ===== verification/CanTpSafeState.v ===== *)
(** * CanTp: the invariant is preserved by the state functions

    The functions CanTp_MainFunction runs on every channel, hence the main
    function itself. *)

From S2P Require Import Prelude ComStack CanTpTypes CanTpPrv CanTpFrames CanTpChan CanTp CanTpInv CanTpSafe.
From stdpp Require Import base list numbers option.

#[local] Open Scope Z_scope.

Section chan.
Context `{HCfg : CanTp_Cfg} {HOk : CanTp_CfgOk} (C : CanTp_ConfigType) (c : Z).

(** The fields of a channel object the invariant speaks of. *)
Definition same_chan (ch ch' : CanTp_ChannelType) : Prop :=
  ch_RX_DL ch = ch_RX_DL ch' ∧ ch_PciId ch = ch_PciId ch' ∧ ch_FlowStatus ch = ch_FlowStatus ch' ∧
  ch_SN ch = ch_SN ch' ∧ ch_BS ch = ch_BS ch' ∧ ch_ActiveSduId ch = ch_ActiveSduId ch' ∧
  ch_BlockCfsRemaining ch = ch_BlockCfsRemaining ch' ∧
  ch_SduLengthRemaining ch = ch_SduLengthRemaining ch' ∧ ch_SduLength ch = ch_SduLength ch'.

Lemma chan_ok_same s ch ch' : same_chan ch ch' → chan_ok C c s ch → chan_ok C c s ch'.
Proof.
  destruct ch, ch'. unfold same_chan, chan_ok, ch_ranges, rxdl_ok, tx_chan, rx_chan. ch_simpl.
  intros (-> & -> & -> & -> & -> & -> & -> & -> & ->). done.
Qed.

(** The channel of a transmission, one frame in flight. *)
Lemma chan_ok_1_2 ch :
  chan_ok C c 1 ch → ch_SduLengthRemaining ch = ch_SduLength ch → ch_BlockCfsRemaining ch = 0 →
  chan_ok C c 2 ch.
Proof.
  intros (_ & _ & Hr & Hdl & Htx & _) Hrem Hblk. destruct Htx as (t & Ht & Htc & H1 & H2 & _ & H3 & _ & _ & _ & _ & _ & H4 & _); [lia|].
  split_and!; try done; try lia. intros _. exists t. consts. split_and!; try done; lia.
Qed.
End chan.

#[export] Hint Extern 1 (same_chan _ _) => (unfold same_chan; ch_simpl; by split_and!) : cstack.

Section state.
Context `{HCfg : CanTp_Cfg} {HOk : CanTp_CfgOk} {U : Type} `{HEnv : CanTp_Env U} {HEok : CanTp_EnvOk U}.
Abbreviation W := (World U).
Context (C : CanTp_ConfigType) (w : W) (HI : Inv C w) (c : Z) (Hc : 0 ≤ c < NumberOfChannels C).
Let Hv : ch_valid w c := safe_valid C w HI c Hc.
Let HC : CanTp_CfgPtr (tp w) = Some C := safe_cfg C w HI.

(** ** Transmission *)

(** Sending the frame of a negotiated buffer. *)
Lemma safe_send ch cf u tr ctx len :
  tc_ChannelId ctx = c → tc_PduRApiId ctx = CANTP_TX_PDUR_CONFIRMATION →
  0 ≤ tc_TxConfirmationId ctx < NumberOfTxPdus C →
  chan_ok C c 2 ch → conf_ok C cf →
  wp (CanTp_Prv_CanIfTransmit ctx len)
    (λ _, wp (upd_ch c (set_ch_TxBufferStatus CANTP_BUFFER_NOT_ASKED)) (λ _, Inv C))
    (foc w c 2 ch cf u tr).
Proof using HI HOk HEok Hc Hv HC.
  intros Hctx Hapi Hid Hok Hcf. eapply wp_CanIfTransmit; try done; [by left|].
  intros s' cf' u' tr' Hs' Hcf'. foc_steps. apply safe_foc; [done..|].
  apply chan_ok_same with ch; [auto with cstack|].
  destruct Hs' as [-> | ->]; [done | by eapply chan_ok_to_idle].
Qed.

Lemma chan_ok_in_tx s ch :
  1 ≤ s ≤ 4 → ch_ranges ch → tx_chan C c s ch → chan_ok C c s ch.
Proof using HI.
  intros Hs Hr Htx. split_and!; try done; try lia.
  destruct Htx as (t & Ht & Htc & _). by eapply tx_rxdl.
Qed.

Lemma safe_TxTransmissionRequestAccepted ch cf u tr :
  conf_ok C cf → chan_ok C c 1 ch →
  wp (CanTp_Prv_TxTransmissionRequestAccepted c) (λ _, Inv C) (foc w c 1 ch cf u tr).
Proof using HI HOk HEok Hc Hv HC.
  intros Hcf Hok. unfold CanTp_Prv_TxTransmissionRequestAccepted.
  destruct (chan_ok_tx _ _ HI _ _ _ Hok) as (t & o & Ht & Htc & Hwf & Has & Ho & Hdl); [lia|].
  pose proof (txw_conf _ _ Hwf) as Hid. destruct (conf_some _ _ _ Hcf Hid) as (v & Hcv & Hv0).
  destruct (PciSize_spec (ch_PciId ch)) as (n & Hn & _); [apply Hok|].
  set (ch1 := set_ch_SN 1 (set_ch_SduLengthRemaining (ch_SduLength ch) (set_ch_BlockCfsRemaining 0 ch))).
  assert (chan_ok C c 1 ch1) as Hok1.
  { destruct Hok as (_ & _ & Hr & _ & (t' & H) & _); [lia|].
    apply chan_ok_in_tx; [lia | unfold ch1, ch_ranges in *; ch_simpl; lia |].
    exists t'. unfold ch1. ch_simpl. consts. split_and!; try apply H; lia. }
  foc_steps; try discriminate; bools; consts.
  - eapply wp_GetTxBuffer; [done..|]. intros s' st u' tr' Hs'. foc_steps.
    + bools. apply safe_send; try done. apply chan_ok_1_2; [|done..].
      apply chan_ok_same with ch1; [auto with cstack | done].
    + apply safe_foc; [done..|]. apply chan_ok_same with ch1; [auto with cstack|].
      destruct Hs' as [-> | [-> _]]; [done | by eapply chan_ok_to_idle].
  - destruct Hcf; lia.
  - apply safe_foc; try done. apply conf_ok_insert; [done..|].
    pose proof ok_channels. unfold CANTP_INVALID_CHANNEL. lia.
  - by apply safe_foc.
Qed.

Lemma safe_TxSendConsecutiveFrame ch cf u tr :
  conf_ok C cf → chan_ok C c 4 ch →
  wp (CanTp_Prv_TxSendConsecutiveFrame c) (λ _, Inv C) (foc w c 4 ch cf u tr).
Proof using HI HOk HEok Hc Hv HC.
  intros Hcf Hok. unfold CanTp_Prv_TxSendConsecutiveFrame.
  destruct (chan_ok_tx _ _ HI _ _ _ Hok) as (t & o & Ht & Htc & Hwf & Has & Ho & Hdl); [lia|].
  pose proof (txw_conf _ _ Hwf) as Hid. destruct (conf_some _ _ _ Hcf Hid) as (v & Hcv & Hv0).
  foc_steps; try discriminate; [|by apply safe_foc].
  eapply wp_GetTxBuffer; [done..|]. intros s' st u' tr' Hs'. foc_steps.
  - apply safe_send; try done. destruct Hok as (_ & _ & Hr & _ & (t' & Htx) & _); [lia|].
    apply chan_ok_in_tx; [lia | unfold ch_ranges in *; ch_simpl; consts; lia |].
    exists t'. ch_simpl. consts. split_and!; try apply Htx; lia.
  - apply safe_foc; [done..|]. apply chan_ok_same with ch; [auto with cstack|].
    destruct Hs' as [-> | [-> _]]; [done | by eapply chan_ok_to_idle].
Qed.

Lemma wp_GetTxBlockCfs s ch cf u tr t Q :
  aget (TxSdu C) (ch_ActiveSduId ch) = Some t → ch_ranges ch → 0 < ch_SduLengthRemaining ch →
  (∀ n, 0 < n < 2 ^ PduLengthBits → Q n (foc w c s ch cf u tr)) →
  wp (CanTp_Prv_GetTxBlockCfs c) Q (foc w c s ch cf u tr).
Proof using HI HOk Hv HC.
  intros Ht Hr Hrem HQ. unfold CanTp_Prv_GetTxBlockCfs.
  destruct (tx_conn _ _ HI _ _ Ht) as (Hwf & Has & _). pose proof (dl_valid_bound _ (proj1 (txw_dl _ _ Hwf))).
  pose proof (asize_bound (tx_AddressFormatId t)). unfold ch_ranges in Hr.
  foc_steps. consts. rewrite u8_small by lia. apply wp_block_cfs; [lia..|].
  apply HQ. pose proof (ceil_div_bound (ch_SduLengthRemaining ch)
    (CanTp_Prv_GetTxDl t - 1 - asize (tx_AddressFormatId t))). lia.
Qed.

(** ** Reception *)

Lemma RxDl_bound ch : rx_chan C c ch →
  8 ≤ (if CANTP_CANFD_SUPPORT then ch_RX_DL ch else CANTP_DEFAULT_CAN_DL) ≤ 64.
Proof.
  intros (_ & r & _ & _ & Hdl). consts. destruct CANTP_CANFD_SUPPORT; [|lia].
  by apply dl_valid_bound, Hdl.
Qed.

Lemma wp_GetRxBlockCfs s ch cf u tr Q :
  rx_chan C c ch → ch_ranges ch →
  (∀ n, 0 ≤ n < 2 ^ PduLengthBits → Q n (foc w c s ch cf u tr)) →
  wp (CanTp_Prv_GetRxBlockCfs c) Q (foc w c s ch cf u tr).
Proof using HI HOk Hv HC.
  intros Hrx Hr HQ. unfold CanTp_Prv_GetRxBlockCfs. pose proof (RxDl_bound _ Hrx).
  pose proof Hrx as (_ & r & Hr' & _). destruct (rx_conn _ _ HI _ _ Hr') as (_ & Has & _).
  pose proof (asize_bound (rx_AddressFormatId r)). unfold ch_ranges in Hr.
  foc_steps. consts. rewrite u8_small by lia. apply wp_block_cfs; [lia..|].
  apply HQ. pose proof (ceil_div_bound (ch_SduLengthRemaining ch)
    ((if CANTP_CANFD_SUPPORT then ch_RX_DL ch else 8) - 1 - asize (rx_AddressFormatId r))). lia.
Qed.

Lemma wp_SetRxBlockInfo rem s ch cf u tr Q :
  rx_chan C c ch → ch_ranges ch →
  (∀ ch', ch_ranges ch' → ch_RX_DL ch' = ch_RX_DL ch → ch_ActiveSduId ch' = ch_ActiveSduId ch →
    Q tt (foc w c s ch' cf u tr)) →
  wp (CanTp_Prv_SetRxBlockInfo c rem) Q (foc w c s ch cf u tr).
Proof using HI HOk Hv HC.
  intros Hrx Hr HQ. unfold CanTp_Prv_SetRxBlockInfo. pose proof (RxDl_bound _ Hrx).
  destruct (rx_param _ _ HI _ _ Hrx) as (r & p & Hr' & Hwf & Hpw & Hp).
  destruct (rx_conn _ _ HI _ _ Hr') as (_ & Has & _).
  pose proof (asize_bound (rx_AddressFormatId r)). pose proof pow2_plen.
  do 9 foc_step. consts. rewrite plen_small by lia.
  set (pay := (if CANTP_CANFD_SUPPORT then ch_RX_DL ch else 8) - asize (rx_AddressFormatId r) - 1) in *.
  apply wp_pure with (λ bs, 0 ≤ bs < 256).
  - foc_steps; [..|split; [|done]; apply Hr].
    eapply wp_GetRxParam; [done|exact Hp|]. foc_steps.
    + split; [apply Hpw | done].
    + bools. lia.
    + split; [|done]. case_test; [apply Hpw | apply u8_bound].
  - intros BS HBS. foc_step. foc_step; foc_steps.
    + apply HQ; unfold ch_ranges in *; ch_simpl; done || lia.
    + apply wp_GetRxBlockCfs; [done..|]. intros n Hn.
      foc_steps; (apply HQ; unfold ch_ranges in *; ch_simpl; try done; case_test; lia).
Qed.

Lemma chan_ok_rx_move s s' ch ch' :
  chan_ok C c s ch → 6 ≤ s ≤ 8 → 6 ≤ s' ≤ 8 → ch_ranges ch' →
  ch_RX_DL ch' = ch_RX_DL ch → ch_ActiveSduId ch' = ch_ActiveSduId ch → chan_ok C c s' ch'.
Proof.
  intros (_ & _ & _ & _ & _ & Hrx) Hs Hs' Hr E1 E2. specialize (Hrx Hs).
  unfold chan_ok, rxdl_ok, rx_chan in *. rewrite E1, E2.
  split_and!; try done; try lia; intros; [|apply Hrx..].
  destruct Hrx as (_ & r & _ & _ & Hdl). pose proof (dl_valid_bound _ (Hdl ltac:(done))). lia.
Qed.

Lemma safe_FcTransmit ctx len ready v s ch cf u tr :
  tc_ChannelId ctx = c → tc_PduRApiId ctx = CANTP_RX_PDUR_CONFIRMATION →
  0 ≤ tc_TxConfirmationId ctx < NumberOfTxPdus C →
  conf_ok C cf → chan_ok C c s ch →
  wp (CanTp_Prv_FcTransmit ctx len ready v) (λ _, Inv C) (foc w c s ch cf u tr).
Proof using HI HOk HEok Hc Hv HC.
  intros Hctx Hapi Hid Hcf Hok. unfold CanTp_Prv_FcTransmit. rewrite Hctx, Hapi.
  do 3 foc_step; [|by apply safe_foc]. bools. consts. subst s.
  set (ch1 := set_ch_PciId 5 (set_ch_InitialTicks v ch)).
  assert (∀ s', 6 ≤ s' ≤ 8 → chan_ok C c s' ch1) as Hok1.
  { intros s' Hs'. apply chan_ok_rx_move with 6 ch; try done; try lia.
    pose proof Hok as (_ & _ & Hr & _). unfold ch1, ch_ranges in *. ch_simpl. lia. }
  destruct (chan_ok_rx _ _ HI _ _ _ Hok) as (Hrx & r & o & p & Hr & Hrc & Hwf & Has & Ho & Hp & Hdl); [lia|].
  pose proof (Hok1 7 ltac:(lia)) as (_ & _ & Hr1 & _).
  do 7 foc_step. apply wp_pure with (λ _, True); [foc_steps; done|]. intros disabled _. foc_step.
  - foc_steps.
    + apply wp_GetRxBlockCfs; [done..|]. intros n Hn. foc_steps. apply safe_foc; [done..|].
      apply chan_ok_rx_move with 8 ch1; try done; try lia; [by apply Hok1; lia|].
      unfold ch1, ch_ranges in *. ch_simpl. lia.
    + apply safe_foc; [done..|]. apply chan_ok_to_idle with 7, Hok1. lia.
  - eapply wp_CanIfTransmit; try done; [by right | by apply Hok1 |].
    intros s' cf' u' tr' Hs' Hcf'. apply safe_foc; [done..|].
    destruct Hs' as [-> | ->]; [by apply Hok1; lia | apply chan_ok_to_idle with 7, Hok1; lia].
Qed.

Lemma safe_RxSendFlowControlFrame ch cf u tr :
  conf_ok C cf → chan_ok C c 6 ch →
  wp (CanTp_Prv_RxSendFlowControlFrame c) (λ _, Inv C) (foc w c 6 ch cf u tr).
Proof using HI HOk HEok Hc Hv HC.
  intros Hcf Hok. unfold CanTp_Prv_RxSendFlowControlFrame.
  destruct (chan_ok_rx _ _ HI _ _ _ Hok) as (Hrx & r & o & p & Hr & Hrc & Hwf & Has & Ho & Hp & _); [lia|].
  pose proof (rxw_conf _ _ Hwf) as Hid. destruct (conf_some _ _ _ Hcf Hid) as (v & Hcv & _).
  pose proof Hok as (_ & _ & Hrg & _).
  do 8 foc_step; [|discriminate]. do 6 foc_step; [|by apply safe_foc]. do 5 foc_step.
  set (ch1 := set_ch_BlockCfsRemaining 0 ch).
  assert (chan_ok C c 6 ch1) as Hok1.
  { apply chan_ok_rx_move with 6 ch; try done; try lia. unfold ch1, ch_ranges in *. ch_simpl. lia. }
  set (P := λ (ready : bool) (w' : W), ∃ s' ch' u' tr', chan_ok C c s' ch' ∧
    ch_ActiveSduId ch' = ch_ActiveSduId ch ∧ w' = foc w c s' ch' cf u' tr').
  apply wp_mono with (λ a, P (fst a)).
  2:{ intros [ready rem] ? (s' & ch' & u' & tr' & Hok' & _ & ->). by apply safe_FcTransmit. }
  assert (∀ b s' ch' u' tr', chan_ok C c s' ch' → ch_ActiveSduId ch' = ch_ActiveSduId ch →
    P b (foc w c s' ch' cf u' tr')) as HP by (intros; by eexists _, _, _, _).
  foc_step; [|foc_step; by apply HP]. do 3 foc_step. apply wp_mono with P.
  - foc_steps.
    + apply HP; [by eapply chan_ok_to_idle | done].
    + apply wp_SetRxBlockInfo; [apply Hok1; lia | apply Hok1 |]. intros ch' Hr' E1 E2. foc_steps.
      apply HP; [|done]. by apply chan_ok_rx_move with 6 ch1.
    + by apply HP.
  - intros ready ? (s' & ch' & u2 & tr2 & Hok' & Hact & ->). foc_steps.
    + eapply wp_FcWaitMax; [done | by rewrite Hact | done |]. foc_steps.
      * apply HP; [|by ch_simpl]. apply chan_ok_same with ch'; [auto with cstack | done].
      * apply HP; [by eapply chan_ok_to_idle | done].
    + by apply HP.
Qed.

Lemma safe_RxWaitForFcTransmitConfirmation ch cf u tr :
  conf_ok C cf → chan_ok C c 7 ch →
  wp (CanTp_Prv_RxWaitForFcTransmitConfirmation c) (λ _, Inv C) (foc w c 7 ch cf u tr).
Proof using HI HOk Hc Hv HC.
  intros Hcf Hok. unfold CanTp_Prv_RxWaitForFcTransmitConfirmation.
  destruct (chan_ok_rx _ _ HI _ _ _ Hok) as (_ & r & o & p & Hr & Hrc & Hwf & _ & Ho & _); [lia|].
  pose proof (rxw_conf _ _ Hwf). pose proof ok_channels.
  foc_steps; [destruct Hcf; lia | | by apply safe_foc..].
  apply safe_foc; [done..| |by eapply chan_ok_to_idle].
  apply conf_ok_insert; [done | lia | unfold CANTP_INVALID_CHANNEL; lia].
Qed.

Lemma safe_RxWaitForConsecutiveFrame ch cf u tr :
  conf_ok C cf → chan_ok C c 8 ch →
  wp (CanTp_Prv_RxWaitForConsecutiveFrame c) (λ _, Inv C) (foc w c 8 ch cf u tr).
Proof using HI Hc Hv HC.
  intros Hcf Hok. unfold CanTp_Prv_RxWaitForConsecutiveFrame.
  destruct (chan_ok_rx _ _ HI _ _ _ Hok) as (_ & r & o & p & Hr & Hrc & Hwf & _ & Ho & _); [lia|].
  foc_steps; apply safe_foc; eauto using chan_ok_to_idle.
Qed.
End state.

(** ** The main function *)

Section main.
Context `{HCfg : CanTp_Cfg} {HOk : CanTp_CfgOk} {U : Type} `{HEnv : CanTp_Env U} {HEok : CanTp_EnvOk U}.
Abbreviation W := (World U).
Context (C : CanTp_ConfigType).
Implicit Types (w : W).

Lemma safe_ExecuteState w c :
  Inv C w → 0 ≤ c < NumberOfChannels C → wp (CanTp_Prv_ExecuteState c) (λ _, Inv C) w.
Proof using HOk HEok.
  intros HI Hc. pose proof (cw_channels _ (inv_wf _ _ HI)).
  pose proof (Inv_valid _ _ c HI ltac:(lia)) as Hv. pose proof (inv_conf _ _ HI) as Hcf.
  destruct (Inv_focus C w c HI) as (s & ch & Hw & Hok); [lia|]. rewrite Hw.
  unfold CanTp_Prv_ExecuteState.
  foc_step. foc_step. pose proof Hok as (Hs & Hs5 & _). consts.
  repeat (foc_step; [bools; subst s|]); bools; try lia.
  - unfold CanTp_Prv_Idle. foc_steps. by apply safe_foc.
  - by apply safe_TxTransmissionRequestAccepted.
  - by apply safe_TxWaitForTransmitConfirmation.
  - by apply safe_TxWaitForFlowControlFrame.
  - by apply safe_TxSendConsecutiveFrame.
  - by apply safe_RxSendFlowControlFrame.
  - by apply safe_RxWaitForFcTransmitConfirmation.
  - by apply safe_RxWaitForConsecutiveFrame.
Qed.

Lemma Inv_tick w n : Inv C w → Inv C (set_tp (set_CanTp_MainFunctionTicks n (tp w)) w).
Proof. by intros []. Qed.

Lemma Inv_queue w q :
  queue_ok C q → Inv C w → Inv C (set_tp (set_CanTp_BurstQ q (tp w)) w).
Proof. by intros ? []. Qed.

(** Taking a channel from the queue: never an undefined access, always a channel. *)
Lemma safe_GetFromQ w (Q : option Z → W → Prop) :
  Inv C w →
  (∀ r w', Inv C w' → (∀ c, r = Some c → 0 ≤ c < NumberOfChannels C) → Q r w') →
  wp CanTp_Prv_GetFromQ Q w.
Proof using HOk.
  intros HI HQ. unfold CanTp_Prv_GetFromQ. wp_steps.
  pose proof (inv_queue _ _ HI) as [Hlen Hq]. pose proof ok_queue.
  set (q := CanTp_BurstQ (tp w)) in *. unfold Q_get.
  case_test; [|case_test; [bools; lia|]].
  - eapply wp_lift; [done|]. unfold put_q. wp_steps. apply HQ; [by apply Inv_queue | done].
  - destruct (aget_is_Some (Queue q) (u8 (Head_u8 q + 1) mod CANTP_BURST_QUEUE_SIZE)) as [c Hc'].
    { rewrite Hlen. apply Z.mod_pos_bound. lia. }
    rewrite Hc'. eapply wp_lift; [done|]. unfold put_q. wp_steps. apply HQ.
    + by apply Inv_queue.
    + intros ? [= <-]. by eapply Hq.
Qed.

Lemma safe_MainFunction w : Inv C w → wp CanTp_MainFunction (λ _, Inv C) w.
Proof using HOk HEok.
  intros HI. unfold CanTp_MainFunction. wp_step. wp_step. rewrite (inv_on _ _ HI), andb_false_r.
  wp_step. apply wp_mono with (λ r w', Inv C w' ∧ ∀ c, r = Some c → 0 ≤ c < NumberOfChannels C).
  { wp_step; [by apply safe_GetFromQ | by wp_steps]. }
  intros [c|] w' [HI' Hc]; [by apply safe_ExecuteState; auto|].
  wp_step. unfold cfg. wp_steps. eapply wp_lift; [apply (inv_cfg _ _ HI')|]. wp_steps.
  pose proof (cw_channels _ (inv_wf _ _ HI')).
  eapply wp_mono; [apply wp_mfor with (I := λ _, Inv C); [done|]|].
  - intros i w1 Hi HI1. apply safe_ExecuteState; [done | lia].
  - intros [] w1 HI1. unfold CanTp_IncrementCounter. wp_steps. by apply Inv_tick.
Qed.
End main.
