(* ===== verification/CanTpSafeRx.v ===== *)
(** * CanTp: the invariant is preserved by the processing of a received frame *)

From S2P Require Import Prelude ComStack CanTpTypes CanTpPrv CanTpFrames CanTpChan CanTp CanTpInv CanTpSafe CanTpSafeState.
From stdpp Require Import base list numbers option.

#[local] Open Scope Z_scope.

(** What the driver hands over: bytes, at least eight of them readable, and no
    more than a CAN FD frame. *)
Definition rx_info_ok (Info : PduInfoType) : Prop :=
  1 ≤ SduLength Info ≤ 64 ∧
  ∀ data, SduDataPtr Info = Some data →
    8 ≤ lenZ data ∧ SduLength Info ≤ lenZ data ∧ ∀ i b, aget data i = Some b → byte_ok b.

(** ** Reading the state without changing it *)

Section read.
Context `{HCfg : CanTp_Cfg} {HOk : CanTp_CfgOk} {U : Type} `{HEnv : CanTp_Env U}.
Abbreviation W := (World U).
Context (C : CanTp_ConfigType) (w : W) (HI : Inv C w).

Lemma rd_cfg (Q : CanTp_ConfigType → W → Prop) : Q C w → wp cfg Q w.
Proof using HI. intros. unfold cfg. wp_steps. by eapply wp_lift; [apply (inv_cfg _ _ HI)|]. Qed.

Lemma rd_txsdu i t (Q : CanTp_TxSduType → W → Prop) :
  aget (TxSdu C) i = Some t → Q t w → wp (get_txsdu i) Q w.
Proof using HI. intros. unfold get_txsdu. wp_step. apply rd_cfg. by eapply wp_lift. Qed.

Lemma rd_rxsdu i r (Q : CanTp_RxSduType → W → Prop) :
  aget (RxSdu C) i = Some r → Q r w → wp (get_rxsdu i) Q w.
Proof using HI. intros. unfold get_rxsdu. wp_step. apply rd_cfg. by eapply wp_lift. Qed.

Lemma rd_sub c (Q : Z → W → Prop) :
  0 ≤ c < NumberOfChannels C →
  (∀ s, aget (CanTp_SubState (tp w)) c = Some s → Q s w) → wp (get_sub c) Q w.
Proof using HI.
  intros Hc HQ. pose proof (cw_channels _ (inv_wf _ _ HI)).
  destruct (aget_is_Some (CanTp_SubState (tp w)) c) as [s Hs]; [rewrite (inv_substate _ _ HI); lia|].
  unfold get_sub. wp_steps. eapply wp_lift; eauto.
Qed.

Lemma rd_ch c (Q : CanTp_ChannelType → W → Prop) :
  0 ≤ c < NumberOfChannels C → (∀ ch, Q ch w) → wp (get_ch c) Q w.
Proof using HI.
  intros Hc HQ. pose proof (cw_channels _ (inv_wf _ _ HI)).
  destruct (aget_is_Some (CanTp_Channel (tp w)) c) as [ch Hch]; [rewrite (inv_channel _ _ HI); lia|].
  unfold get_ch. wp_steps. eapply wp_lift; eauto.
Qed.

Lemma cfg_txsdu i : 0 ≤ i < lenZ (TxSdu C) → ∃ t, aget (TxSdu C) i = Some t ∧ tx_wf C t.
Proof using HI.
  intros [t Ht]%aget_is_Some. exists t. split; [done|]. by eapply cw_tx; [apply (inv_wf _ _ HI)|].
Qed.

Lemma cfg_rxsdu i : 0 ≤ i < lenZ (RxSdu C) → ∃ r, aget (RxSdu C) i = Some r ∧ rx_wf C r.
Proof using HI.
  intros [r Hr]%aget_is_Some. exists r. split; [done|]. by eapply cw_rx; [apply (inv_wf _ _ HI)|].
Qed.

(** ** The context of a received frame *)

Definition tx_ctx (ctx : CanTp_RxContextType) : Prop :=
  ∃ t, aget (TxSdu C) (cx_SduId ctx) = Some t ∧ cx_ChannelId ctx = tx_ChannelId t.

Definition rx_ctx (ctx : CanTp_RxContextType) : Prop :=
  cx_SduId ctx < NumberOfRxSdus C ∧
  ∃ r, aget (RxSdu C) (cx_SduId ctx) = Some r ∧ cx_ChannelId ctx = rx_ChannelId r ∧
    cx_AddressSize ctx = asize (rx_AddressFormatId r).

(** A flow-control frame belongs to a transmission, any other to a reception. *)
Definition ctx_ok (ctx : CanTp_RxContextType) : Prop :=
  0 ≤ cx_FrameType ctx ≤ 3 ∧ 0 ≤ cx_AddressSize ctx ≤ 1 ∧
  (cx_FrameType ctx = 3 → tx_ctx ctx) ∧ (cx_FrameType ctx ≠ 3 → rx_ctx ctx).

Lemma ctx_channel ctx : ctx_ok ctx → 0 ≤ cx_ChannelId ctx < NumberOfChannels C.
Proof using HI.
  intros (_ & _ & H3 & Hr). destruct (decide (cx_FrameType ctx = 3)) as [E|E].
  - destruct (H3 E) as (t & Ht & ->). apply (txw_channel C). by eapply cw_tx; [apply (inv_wf _ _ HI)|].
  - destruct (Hr E) as (_ & r & Ht & -> & _). apply (rxw_channel C). by eapply cw_rx; [apply (inv_wf _ _ HI)|].
Qed.

Lemma wp_SharedFc_loop n i pdu sdu (Q : option (Z * Z) → W → Prop) :
  0 ≤ i → i + Z.of_nat n ≤ lenZ (SharedFc C) →
  (∀ r, (∀ c j, r = Some (c, j) → ∃ t, aget (TxSdu C) j = Some t ∧ c = tx_ChannelId t) → Q r w) →
  wp (SharedFc_loop n i pdu sdu) Q w.
Proof using HI.
  revert i. induction n as [|n IH]; intros i Hi Hn HQ; cbn [SharedFc_loop]; [by wp_step; apply HQ|].
  destruct (aget_is_Some (SharedFc C) i) as [e He]; [lia|].
  destruct (cfg_txsdu (sf_TxSduId e)) as (t & Ht & Hwf); [by eapply cw_shared; [apply (inv_wf _ _ HI)|]|].
  pose proof (txw_channel _ _ Hwf) as Hc.
  wp_step. apply rd_cfg. wp_step. eapply wp_lift; [done|].
  wp_step; [|apply IH; [lia..|done]].
  wp_step. eapply rd_txsdu; [done|]. wp_step. apply rd_ch; [done|]. intros ch.
  wp_step. apply rd_sub; [done|]. intros s _. wp_step; [|apply IH; [lia..|done]].
  wp_step. apply HQ. intros c j [= <- <-]. bools. exists t. split; [congruence | done].
Qed.

Lemma wp_GetFcActiveChannel ctx (Q : Std_ReturnType * CanTp_RxContextType → W → Prop) :
  0 ≤ cx_SduId ctx →
  (∀ ctx', cx_FrameType ctx' = cx_FrameType ctx → tx_ctx ctx' → Q (E_OK, ctx') w) →
  (∀ ctx', Q (E_NOT_OK, ctx') w) → wp (CanTp_Prv_GetFcActiveChannel ctx) Q w.
Proof using HI.
  intros Hid Hok Hno. unfold CanTp_Prv_GetFcActiveChannel.
  pose proof (cw_txsdus _ (inv_wf _ _ HI)). pose proof (cw_sharedfc _ (inv_wf _ _ HI)).
  wp_step. apply rd_cfg. wp_step.
  apply wp_pure with (λ a, cx_FrameType (snd a) = cx_FrameType ctx ∧ (fst a = E_OK → tx_ctx (snd a))).
  - wp_step; [|by wp_step]. bools.
    destruct (cfg_txsdu (cx_SduId ctx)) as (t & Ht & Hwf); [lia|].
    wp_step. eapply rd_txsdu; [done|]. wp_step. apply rd_sub; [apply Hwf|]. intros s _.
    wp_step; wp_step; split; try done; split; [done|]. intros _. by exists t.
  - intros [st ctx'] [Hft Htx]. wp_step.
    + wp_step. apply wp_SharedFc_loop; [lia..|]. intros [[c j]|] Hr; wp_step; [|apply Hno].
      apply Hok; [done|]. destruct (Hr _ _ eq_refl) as (t & Ht & ->). by exists t.
    + wp_step. destruct st; [by apply Hok; auto | apply Hno].
Qed.

Lemma shiftr_nonneg b : byte_ok b → 0 ≤ Z.shiftr b CANTP_FRAMETYPE_OFFSET.
Proof. intros []. by apply Z.shiftr_nonneg. Qed.

Lemma wp_GetRxContext ctx Info (Q : CanTp_ErrorId * CanTp_RxContextType → W → Prop) :
  0 ≤ cx_PduId ctx < NumberOfRxPdus C → rx_info_ok Info →
  (∀ err ctx', (err = CANTP_NO_ERROR → ctx_ok ctx' ∧ SduDataPtr Info ≠ None) → Q (err, ctx') w) →
  wp (CanTp_Prv_GetRxContext ctx Info) Q w.
Proof using HI.
  intros Hid (Hlen & Hdata) HQ. unfold CanTp_Prv_GetRxContext. wp_step. apply rd_cfg.
  destruct (SduDataPtr Info) as [data|]; [|wp_step; by apply HQ].
  destruct (Hdata _ eq_refl) as (Hd8 & _ & Hb). pose proof (cw_rxpdus _ (inv_wf _ _ HI)).
  destruct (aget_is_Some (RxPdu C) (cx_PduId ctx)) as [p Hp]; [lia|].
  destruct (cw_rxpdu _ (inv_wf _ _ HI) _ _ Hp) as (Hrx & Htx & Hpair).
  destruct (aget_is_Some data 0) as [b0 Hb0]; [lia|]. destruct (aget_is_Some data 1) as [b1 Hb1]; [lia|].
  wp_step. eapply wp_lift; [done|]. wp_step. eapply wp_lift; [done|]. wp_step.
  apply wp_pure with (λ a, let '(t, r, first, _) := a in 0 ≤ t ∧ 0 ≤ r ∧ byte_ok first).
  { destruct (rp_GetSduPair p) as [f|] eqn:Ef; [|wp_step; eauto].
    specialize (Hpair f eq_refl (rp_TxSduId p) (rp_RxSduId p) b0).
    destruct (f (rp_TxSduId p) (rp_RxSduId p) b0) as [t r]. cbn in Hpair.
    wp_step. eapply wp_lift; [done|]. wp_step. split; [|done]. split_and!; try apply Hpair. eauto. }
  intros [[[t r] first] ctx1] (Ht & Hr & Hf). pose proof (shiftr_nonneg _ Hf) as Hft.
  wp_step; [|wp_step; by apply HQ]. wp_step; bools; consts.
  - wp_step. apply wp_GetFcActiveChannel; [done| |intros; wp_step; by apply HQ].
    intros ctx2 Hft2 (tc & Htc & Hch). wp_step. eapply rd_txsdu; [done|].
    pose proof (cw_tx _ (inv_wf _ _ HI) _ _ Htc) as Hwf.
    wp_step. eapply wp_lift; [apply AddressSize_spec, Hwf|]. wp_step. apply HQ. intros _.
    split; [|done]. cbn in Hft2. pose proof (asize_bound (tx_AddressFormatId tc)).
    split_and!; cbn; try lia. intros _. by exists tc.
  - wp_step; [|wp_step; by apply HQ]. bools. cbn in *. pose proof (cw_rxsdus _ (inv_wf _ _ HI)).
    destruct (cfg_rxsdu r) as (rc & Hrc & Hwf); [lia|].
    wp_step. eapply rd_rxsdu; [done|]. wp_step. eapply wp_lift; [apply AddressSize_spec, Hwf|].
    wp_step. apply HQ. intros _. split; [|done]. pose proof (asize_bound (rx_AddressFormatId rc)).
    split_and!; cbn; try lia. intros _. split; [done|]. by exists rc.
Qed.
End read.

(** ** Length checks *)

Section lencheck.
Context `{HCfg : CanTp_Cfg} {HOk : CanTp_CfgOk}.

Lemma land_nibble d : byte_ok d → 0 ≤ Z.land d CANTP_LOWERNIBBLE_MASK ≤ 15.
Proof. intros. unfold CANTP_LOWERNIBBLE_MASK. rewrite land_15. pose proof (Z.mod_pos_bound d 16). lia. Qed.

(** An accepted single frame carries its payload inside the frame. *)
Lemma SfLengthCheck_spec ctx Len data nib :
  0 ≤ cx_AddressSize ctx ≤ 1 → 1 ≤ Len ≤ 64 → 8 ≤ lenZ data → Len ≤ lenZ data → 0 ≤ nib ≤ 15 →
  (∀ i b, aget data i = Some b → byte_ok b) →
  ∃ dl off n, SfLengthCheck ctx Len data nib = Some (dl, off, n) ∧
    (dl ≤ Len → 1 ≤ off ∧ 1 ≤ n ≤ 62 ∧ off + n ≤ lenZ data).
Proof.
  intros Ha Hlen Hd8 Hd Hn Hb. unfold SfLengthCheck. consts.
  destruct (Z.leb_spec Len 8).
  - cbn [CanTp_PciSize aget]. change (aget CanTp_PciSize 0) with (Some 1). cbn.
    rewrite (u8_small (cx_AddressSize ctx + 1)) by lia. eexists _, _, _. split; [done|].
    case_test; [|intros; lia]. bools. lia.
  - destruct CANTP_CANFD_SUPPORT; [|eexists _, _, _; split; [done | lia]].
    change (aget CanTp_PciSize 1) with (Some 2). cbn.
    rewrite (u8_small (cx_AddressSize ctx + 2)) by lia.
    destruct (aget_is_Some data (cx_AddressSize ctx + 1)) as [sf Hsf]; [lia|]. rewrite Hsf. cbn.
    pose proof (Hb _ _ Hsf) as Hsf8. unfold byte_ok in Hsf8.
    case_test; [|eexists _, _, _; split; [done | lia]]. bools. pose proof ok_npdu.
    assert (∃ d, (if cx_IsPaddingOn ctx then CanTp_Prv_GetCanDl (cx_AddressSize ctx + 2 + sf)
                  else Some (u8 (cx_AddressSize ctx + 2 + sf))) = Some d) as [d ->].
    { destruct (cx_IsPaddingOn ctx); [|eauto]. unfold CanTp_Prv_GetCanDl.
      case_test; [|eauto]. destruct (CanDlTable_spec (cx_AddressSize ctx + 2 + sf)) as (d & -> & _); eauto. lia. }
    cbn. eexists _, _, _. split; [done|]. lia.
Qed.

(** An accepted first frame fills a CAN frame. *)
Lemma FfLengthCheck_spec ctx Len data :
  0 ≤ cx_AddressSize ctx ≤ 1 → 1 ≤ Len ≤ 64 → 8 ≤ lenZ data →
  ∃ dl off n, FfLengthCheck ctx Len data = Some (dl, off, n) ∧ 0 ≤ n < 2 ^ PduLengthBits ∧
    (dl ≤ Len → dl_valid Len ∧ 1 ≤ off ≤ 7).
Proof using HOk.
  intros Ha Hlen Hd8. unfold FfLengthCheck. rewrite (u8_small Len) by lia.
  assert (∀ i, 0 ≤ i ≤ 5 → ∃ x, aget data (cx_AddressSize ctx + i) = Some x) as Hg
    by (intros; apply aget_is_Some; lia).
  destruct (Hg 0) as [d0 Hd0]; [lia|]. rewrite Z.add_0_r in Hd0. rewrite Hd0.
  destruct (Hg 1) as [d1 ->]; [lia|]. cbn.
  destruct (Hg 2) as [d2 ->]; [lia|]. destruct (Hg 3) as [d3 ->]; [lia|].
  destruct (Hg 4) as [d4 ->]; [lia|]. destruct (Hg 5) as [d5 ->]; [lia|]. cbn.
  change (aget CanTp_PciSize CANTP_NPCI_FFCANFD) with (Some 6).
  change (aget CanTp_PciSize CANTP_NPCI_FFCAN) with (Some 2). cbn.
  assert (CanTp_Prv_IsRxDlInValid Len = false ∨ CanTp_Prv_IsRxDlInValid Len = true) as [E|E]
    by (destruct CanTp_Prv_IsRxDlInValid; auto); rewrite E.
  - apply IsRxDlInValid_spec in E.
    destruct (plen (Z.land d0 CANTP_LOWERNIBBLE_MASK * 256 + d1) =? 0); cbn; (eexists _, _, _; split; [done|]); (split; [apply plen_bound, ok_plen|]);
      intros _; (split; [done|]); rewrite u8_small; lia.
  - unfold CANTP_INVALID_DL.
    destruct (plen (Z.land d0 CANTP_LOWERNIBBLE_MASK * 256 + d1) =? 0); cbn; (eexists _, _, _; split; [done|]); (split; [apply plen_bound, ok_plen|]);
      repeat case_test; lia.
Qed.

(** The table look-up for a consecutive frame stays inside the table. *)
Lemma CfLengthCheck_spec ctx rem rxdl :
  0 ≤ cx_AddressSize ctx ≤ 1 → 0 ≤ rem →
  (CANTP_CANFD_SUPPORT = true → 0 ≤ rxdl ≤ 64 ∧ (2 ≤ rxdl ∨ rem ≤ 62)) →
  ∃ dl off, CfLengthCheck ctx rem rxdl = Some (dl, off, 0) ∧ off = cx_AddressSize ctx + 1 ∧
    (8 ≤ rxdl ≤ 64 → off ≤ dl ≤ 64).
Proof.
  intros Ha Hrem Hfd. unfold CfLengthCheck. consts. rewrite (u8_small (cx_AddressSize ctx + 1)) by lia.
  set (x := if rem <? u8 (rxdl - (cx_AddressSize ctx + 1)) then u8 (rem + (cx_AddressSize ctx + 1)) else rxdl).
  assert (8 ≤ rxdl ≤ 64 → cx_AddressSize ctx + 1 ≤ x ≤ 64) as Hx.
  { intros Hdl. unfold x. rewrite (u8_small (rxdl - _)) by lia.
    destruct (Z.ltb_spec rem (rxdl - (cx_AddressSize ctx + 1))); [|lia]. rewrite u8_small; lia. }
  assert (∃ d, (if cx_IsPaddingOn ctx then CanTp_Prv_GetCanDl x else Some x) = Some d ∧
    (8 ≤ rxdl ≤ 64 → cx_AddressSize ctx + 1 ≤ d ≤ 64)) as (d & -> & Hd).
  { destruct (cx_IsPaddingOn ctx); [|eauto]. unfold CanTp_Prv_GetCanDl. consts.
    destruct CANTP_CANFD_SUPPORT; [|eexists; split; [done | lia]].
    destruct (Hfd eq_refl) as [Hb Hor]. destruct (CanDlTable_spec x) as (d & -> & Hxd & Hdv & _).
    - unfold x. destruct (Z.ltb_spec rem (u8 (rxdl - (cx_AddressSize ctx + 1)))); [|lia].
      destruct Hor; [rewrite u8_small in * by lia; rewrite u8_small; lia|].
      rewrite u8_small; lia.
    - exists d. split; [done|]. pose proof (dl_valid_bound _ Hdv). lia. }
  cbn. eexists _, _. split; [done|]. split; [done|]. done.
Qed.
End lencheck.

(** ** Processing *)

Section process.
Context `{HCfg : CanTp_Cfg} {HOk : CanTp_CfgOk} {U : Type} `{HEnv : CanTp_Env U} {HEok : CanTp_EnvOk U}.
Abbreviation W := (World U).
Context (C : CanTp_ConfigType) (w : W) (HI : Inv C w) (c : Z) (Hc : 0 ≤ c < NumberOfChannels C).
Let Hv : ch_valid w c := safe_valid C w HI c Hc.
Let HC : CanTp_CfgPtr (tp w) = Some C := safe_cfg C w HI.
Context (Info : PduInfoType) (data : list Z) (HInfo : rx_info_ok Info)
  (Hdata : SduDataPtr Info = Some data).

(** What an accepted length says about the frame. *)
Definition frame_ok (s : Z) (ctx : CanTp_RxContextType) : Prop :=
  (cx_FrameType ctx = 0 → 1 ≤ cx_DataOffset ctx ∧ 1 ≤ cx_SduLength ctx ≤ 62 ∧
    cx_DataOffset ctx + cx_SduLength ctx ≤ lenZ data) ∧
  (cx_FrameType ctx = 1 → dl_valid (SduLength Info) ∧ 1 ≤ cx_DataOffset ctx ≤ 7 ∧
    0 ≤ cx_SduLength ctx < 2 ^ PduLengthBits) ∧
  (cx_FrameType ctx = 2 → cx_DataOffset ctx = cx_AddressSize ctx + 1 ∧
    cx_CAN_DL ctx ≤ SduLength Info ∧ (s = 8 → cx_DataOffset ctx ≤ cx_CAN_DL ctx)) ∧
  (cx_FrameType ctx = 3 → cx_DataOffset ctx = cx_AddressSize ctx + 1).

Lemma rx_ctx_rxdl s ch ctx : chan_ok C c s ch → rx_ctx C ctx → cx_ChannelId ctx = c →
  let dl := if CANTP_CANFD_SUPPORT then ch_RX_DL ch else CANTP_DEFAULT_CAN_DL in
  (CANTP_CANFD_SUPPORT = true → 0 ≤ dl ≤ 64 ∧ (2 ≤ dl ∨ ch_SduLengthRemaining ch ≤ 62)) ∧
  (s = 8 → 8 ≤ dl ≤ 64).
Proof.
  intros (_ & _ & _ & Hdl & _ & Hrx) (_ & r & Hr & Hrc & _) E dl. split.
  - intros Hfd. unfold dl. rewrite Hfd. apply Hdl; [done|]. exists (cx_SduId ctx), r. split; [done | congruence].
  - intros ->. unfold dl. apply RxDl_bound with C c. apply Hrx. lia.
Qed.

Lemma wp_RxSduLengthCheck ctx s ch cf u tr Q :
  ctx_ok C ctx → cx_ChannelId ctx = c → chan_ok C c s ch →
  (∀ r ctx', ctx_ok C ctx' → cx_ChannelId ctx' = c → (r = E_OK → frame_ok s ctx') →
    Q (r, ctx') (foc w c s ch cf u tr)) →
  wp (CanTp_Prv_RxSduLengthCheck ctx Info) Q (foc w c s ch cf u tr).
Proof using HInfo HOk Hdata Hv.
  intros Hctx Hcc Hok HQ. unfold CanTp_Prv_RxSduLengthCheck. rewrite Hdata.
  destruct HInfo as [Hlen Hd]. destruct (Hd _ Hdata) as (Hd8 & Hdl & Hb).
  pose proof Hctx as (Hft & Ha & Htx & Hrx).
  destruct (aget_is_Some data (cx_AddressSize ctx)) as [d0 Hd0]; [lia|].
  pose proof (land_nibble _ (Hb _ _ Hd0)) as Hnib.
  assert (∀ Flow Sn dl off n, (dl ≤ SduLength Info → frame_ok s (ctx_set_frame Flow Sn dl off n ctx)) →
    wp (mret (CanTp_Cfg_DlcCheck (SduLength Info) dl, ctx_set_frame Flow Sn dl off n ctx)) Q
      (foc w c s ch cf u tr)) as Hend.
  { intros Flow Sn dl off n Hf. foc_step. apply HQ; [done..|]. intros Hr. by apply Hf, ok_dlc. }
  do 4 foc_step. foc_step. foc_step; [|foc_step; [|foc_step; [|foc_step]]]; bools; consts.
  - destruct (SfLengthCheck_spec ctx (SduLength Info) data _ Ha Hlen Hd8 Hdl Hnib Hb)
      as (dl & off & n & Hsf & Hp).
    do 3 foc_step. apply Hend. intros. unfold frame_ok. cbn. split_and!; intros; lia.
  - destruct (FfLengthCheck_spec ctx (SduLength Info) data Ha Hlen Hd8) as (dl & off & n & Hff & Hn & Hp).
    foc_step. foc_step. foc_step. apply Hend. intros Hle. destruct (Hp Hle).
    unfold frame_ok. cbn. split_and!; intros; try lia. done || (split; [done|]; by split).
  - destruct (rx_ctx_rxdl _ _ _ Hok (Hrx ltac:(lia)) Hcc) as [Hfd H8].
    rewrite Hcc. do 4 foc_step.
    destruct (CfLengthCheck_spec ctx (ch_SduLengthRemaining ch)
      (if CANTP_CANFD_SUPPORT then ch_RX_DL ch else CANTP_DEFAULT_CAN_DL) Ha) as (dl & off & Hcf & Hoff & Hp);
      [apply Hok | done |].
    foc_step. foc_step. foc_step. apply Hend. intros Hle.
    unfold frame_ok. cbn. split_and!; intros; try lia.
  - cbn. foc_step. apply Hend. intros. unfold frame_ok. cbn. split_and!; intros; try lia. rewrite u8_small; lia.
  - lia.
Qed.

Lemma wp_GetConnectionAcceptance ctx s ch cf u tr Q :
  cx_ChannelId ctx = c → 0 ≤ s ≤ 8 →
  (∀ u' tr', Q E_NOT_OK (foc w c s ch cf u' tr')) →
  (∀ u' tr', Q E_OK (foc w c CANTP_RX_RECEPTION_REQUEST_ACCEPTED ch cf u' tr')) →
  wp (CanTp_Prv_GetConnectionAcceptance ctx Info) Q (foc w c s ch cf u tr).
Proof using Hv.
  intros Hcc Hs Hno Hyes. unfold CanTp_Prv_GetConnectionAcceptance. rewrite Hcc.
  destruct (State_spec s Hs) as (st & Hst & _). foc_step. eapply wp_GetState; [done..|].
  foc_step. apply wp_mono with (λ _ w', ∃ u', w' = foc w c s ch cf u' tr).
  { foc_step; [|foc_step; by eexists]. wp_steps. cbn [up foc].
    destruct (CanTp_FdCallOut _ _ _ _) as [r u']. wp_steps. by eexists. }
  intros [] ? [u' ->]; [|foc_steps; apply Hno].
  foc_steps; apply Hyes || apply Hno.
Qed.

(** The channel after a single frame was delivered. *)
Lemma safe_ProcessRxSingleFrame ctx s ch cf u tr :
  ctx_ok C ctx → cx_ChannelId ctx = c → cx_FrameType ctx = 0 → frame_ok s ctx →
  conf_ok C cf → chan_ok C c s ch →
  wp (CanTp_Prv_ProcessRxSingleFrame ctx Info) (λ _, Inv C) (foc w c s ch cf u tr).
Proof using HI Hc HInfo HOk Hdata Hv.
  intros (_ & _ & _ & Hrx) Hcc Hft (Hf & _) Hcf Hok. unfold CanTp_Prv_ProcessRxSingleFrame. rewrite Hcc, Hdata.
  destruct (Hf Hft) as (Hoff & Hn & Hend). destruct (Hrx ltac:(lia)) as (Hlt & r & Hr & _).
  do 3 foc_step. apply wp_GetConnectionAcceptance; [done | apply Hok | |].
  { intros. foc_steps; [discriminate|]. by apply safe_foc. }
  intros u1 tr1. foc_step; [|discriminate].
  pose proof (aslice_is_Some data (cx_DataOffset ctx) (cx_SduLength ctx) ltac:(lia) ltac:(lia) Hend) as Hsl.
  destruct HInfo as [Hlen _]. rewrite u8_small by lia.
  foc_steps.
  set (ch1 := set_ch_InitialTicks _ _).
  assert (chan_ok C c CANTP_IDLE ch1) as Hok1.
  { pose proof Hok as (_ & _ & Hrg & _). pose proof pow2_plen. pose proof (aget_Some _ _ _ Hr).
    apply chan_ok_idle; unfold ch1, ch_ranges, rxdl_ok in *; destruct CANTP_CANFD_SUPPORT; ch_simpl; try done; lia. }
  destruct res; foc_steps; by apply safe_foc.
Qed.

Lemma safe_ProcessRxFirstFrame ctx s ch cf u tr :
  ctx_ok C ctx → cx_ChannelId ctx = c → cx_FrameType ctx = 1 → frame_ok s ctx →
  conf_ok C cf → chan_ok C c s ch →
  wp (CanTp_Prv_ProcessRxFirstFrame ctx Info) (λ _, Inv C) (foc w c s ch cf u tr).
Proof using HI Hc HInfo HOk Hdata Hv.
  intros (_ & _ & _ & Hrx) Hcc Hft (_ & Hf & _) Hcf Hok. unfold CanTp_Prv_ProcessRxFirstFrame.
  rewrite Hcc, Hdata. destruct (Hf Hft) as (Hdl & Hoff & Hn).
  destruct (Hrx ltac:(lia)) as (Hlt & r & Hr & Hrc & _). pose proof (dl_valid_bound _ Hdl).
  do 3 foc_step. apply wp_GetConnectionAcceptance; [done | apply Hok | |].
  { intros. foc_steps; [discriminate|]. by apply safe_foc. }
  intros u1 tr1. foc_step; [|discriminate].
  destruct HInfo as [Hlen Hd]. destruct (Hd _ Hdata) as (_ & Hle & _). rewrite !u8_small by lia.
  pose proof (aslice_is_Some data (cx_DataOffset ctx) (SduLength Info - cx_DataOffset ctx)
    ltac:(lia) ltac:(lia) ltac:(lia)) as Hsl.
  foc_steps. set (ch1 := set_ch_InitialTicks _ _).
  assert (chan_ok C c CANTP_RX_SEND_FC ch1) as Hok1.
  { pose proof Hok as (_ & _ & Hrg & _). pose proof pow2_plen. pose proof (aget_Some _ _ _ Hr). consts.
    unfold chan_ok. split_and!; try lia; unfold ch1, ch_ranges, rxdl_ok, rx_chan in *;
      destruct CANTP_CANFD_SUPPORT; ch_simpl; try done; try lia;
      intros _; (split; [done|]); exists r; (split_and!; [done | congruence | done]). }
  apply wp_mono with (λ a w', (fst a = 0 ∨ fst a = 6) ∧ 0 ≤ snd a ≤ 2 ∧
    ∃ ch' u' tr', chan_ok C c 6 ch' ∧ w' = foc w c 5 ch' cf u' tr').
  - destruct res; foc_steps; try (wp_decide; foc_steps); consts; (split; [by auto|]); (split; [cbn; lia|]);
      eexists _, _, _; (split; [|reflexivity]); try done.
    all: pose proof Hok1 as (_ & _ & Hrg & _); apply chan_ok_rx_move with 6 ch1; try done; try lia;
      pose proof (plen_bound (cx_SduLength ctx - (SduLength Info - cx_DataOffset ctx)) ltac:(apply ok_plen));
      unfold ch1, ch_ranges in *; ch_simpl; lia.
  - intros [ns fl] ? (Hns & Hfl & ch' & u2 & tr2 & Hok' & ->). cbn in Hns, Hfl. foc_steps; [|discriminate].
    apply safe_foc; try done. pose proof Hok' as (_ & _ & Hrg & _).
    assert (chan_ok C c 6 (set_ch_FlowStatus fl ch')).
    { apply chan_ok_rx_move with 6 ch'; try done; try lia. unfold ch_ranges in *. ch_simpl. lia. }
    destruct Hns as [-> | ->]; [by eapply chan_ok_to_idle | done].
Qed.

Lemma safe_ProcessRxConsecutiveFrame ctx s ch cf u tr :
  ctx_ok C ctx → cx_ChannelId ctx = c → cx_FrameType ctx = 2 → frame_ok s ctx →
  conf_ok C cf → chan_ok C c s ch →
  wp (CanTp_Prv_ProcessRxConsecutiveFrame ctx Info) (λ _, Inv C) (foc w c s ch cf u tr).
Proof using HI Hc HInfo HOk Hdata Hv HC.
  intros (_ & Ha & _ & Hrx) Hcc Hft (_ & _ & Hf & _) Hcf Hok. unfold CanTp_Prv_ProcessRxConsecutiveFrame.
  rewrite Hcc, Hdata. destruct (Hrx ltac:(lia)) as (_ & r & Hr & _).
  destruct (rx_conn _ _ HI _ _ Hr) as (_ & _ & (o & Ho) & _).
  destruct (Hf Hft) as (Hoff & Hdl & H8). destruct HInfo as [Hlen Hd]. destruct (Hd _ Hdata) as (_ & Hle & _).
  do 7 foc_step; [|by apply safe_foc]. bools. consts. subst s. specialize (H8 eq_refl).
  foc_step. apply wp_pure with (λ _, True); [by foc_steps|]. intros late _. foc_step.
  { foc_steps. apply safe_foc; [done..|]. by eapply chan_ok_to_idle. }
  rewrite (u8_small (cx_CAN_DL ctx - cx_DataOffset ctx)) by lia.
  set (len := if _ <? _ then cx_CAN_DL ctx - cx_DataOffset ctx else u8 (ch_SduLengthRemaining ch)).
  pose proof Hok as (_ & _ & Hrg & _).
  assert (0 ≤ len ∧ cx_DataOffset ctx + len ≤ lenZ data) as [Hl0 Hl].
  { unfold len. unfold ch_ranges in Hrg.
    destruct (Z.ltb_spec (cx_CAN_DL ctx - cx_DataOffset ctx) (ch_SduLengthRemaining ch)); [lia|].
    rewrite u8_small; lia. }
  pose proof (aslice_is_Some data (cx_DataOffset ctx) len ltac:(lia) Hl0 Hl) as Hsl.
  foc_step. apply wp_mono with (λ _ w', ∃ s' ch' u' tr', chan_ok C c s' ch' ∧ w' = foc w c s' ch' cf u' tr').
  2:{ intros [v|] ? (s' & ch' & u' & tr' & Hok' & ->); foc_steps; apply safe_foc; try done.
      by eapply chan_ok_to_idle. }
  assert (∀ s' ch' u' tr', chan_ok C c s' ch' →
    ∃ s1 ch1 u1 tr1, chan_ok C c s1 ch1 ∧ foc w c s' ch' cf u' tr' = foc w c s1 ch1 cf u1 tr1) as HP
    by (intros; by eexists _, _, _, _).
  pose proof (plen_bound (ch_SduLengthRemaining ch - len) ltac:(apply ok_plen)).
  pose proof (plen_bound (ch_BlockCfsRemaining ch - 1) ltac:(apply ok_plen)).
  pose proof (Z.mod_pos_bound (u8 (ch_SN ch + 1)) 16 ltac:(lia)).
  foc_steps; [|by apply HP]. wp_decide; foc_steps; [|by apply HP, (chan_ok_same _ _ _ ch); auto with cstack].
  unfold CanTp_Prv_PrepareFcTransmit. rewrite land_15.
  foc_steps; (apply HP, (chan_ok_rx_move _ _ 8 _ ch); try done; try lia;
    unfold ch_ranges in *; consts; ch_simpl; lia).
Qed.

Lemma wp_SetTxBlockInfo ctx s ch cf u tr t Q :
  cx_ChannelId ctx = c → 0 ≤ cx_DataOffset ctx ≤ 2 →
  aget (TxSdu C) (ch_ActiveSduId ch) = Some t → ch_ranges ch → 0 < ch_SduLengthRemaining ch →
  (∀ ch', ch_ranges ch' → ch_PciId ch' = ch_PciId ch → ch_ActiveSduId ch' = ch_ActiveSduId ch →
    ch_SduLength ch' = ch_SduLength ch → ch_SduLengthRemaining ch' = ch_SduLengthRemaining ch →
    0 < ch_BlockCfsRemaining ch' → Q tt (foc w c s ch' cf u tr)) →
  wp (CanTp_Prv_SetTxBlockInfo ctx Info) Q (foc w c s ch cf u tr).
Proof using HI HInfo HOk Hdata Hv HC.
  intros Hcc Hoff Ht Hrg Hrem HQ. unfold CanTp_Prv_SetTxBlockInfo. rewrite Hcc, Hdata.
  destruct HInfo as [_ Hd]. destruct (Hd _ Hdata) as (Hd8 & _ & Hb). pose proof pow2_plen.
  destruct (aget_is_Some data (cx_DataOffset ctx)) as [bs Hbs]; [lia|].
  destruct (aget_is_Some data (cx_DataOffset ctx + 1)) as [st Hst]; [lia|].
  pose proof (Hb _ _ Hbs) as Hbs8. unfold byte_ok in Hbs8.
  do 3 foc_step.
  apply wp_mono with (λ _ w', ∃ b sm, 0 ≤ b < 256 ∧
    w' = foc w c s (set_ch_STminTicks sm (set_ch_BS b ch)) cf u tr).
  { foc_steps; [by exists bs, (tick (CanTp_Cfg_GetUsToTicks (StminUs st)))|].
    exists (ch_BS ch), (ch_STminTicks ch). split; [apply Hrg | by destruct ch]. }
  intros [] ? (b & sm & Hb8 & ->). foc_step.
  eapply wp_GetTxBlockCfs; try done; [unfold ch_ranges in *; ch_simpl; lia|].
  intros n Hn. foc_steps; (apply HQ; try done; unfold ch_ranges in *; ch_simpl; try lia).
  - apply orb_false_iff in H0 as [E1 E2]. bools. rewrite u16_small; lia.
  - apply orb_false_iff in H0 as [E1 E2]. bools. rewrite u16_small; lia.
Qed.

Lemma safe_ProcessRxFlowControlFrame ctx s ch cf u tr :
  ctx_ok C ctx → cx_ChannelId ctx = c → cx_FrameType ctx = 3 → frame_ok s ctx →
  conf_ok C cf → chan_ok C c s ch →
  wp (CanTp_Prv_ProcessRxFlowControlFrame ctx Info) (λ _, Inv C) (foc w c s ch cf u tr).
Proof using HI Hc HInfo HOk Hdata Hv HC.
  intros (_ & Ha & _) Hcc Hft (_ & _ & _ & Hf) Hcf Hok. unfold CanTp_Prv_ProcessRxFlowControlFrame.
  specialize (Hf Hft). rewrite Hcc. do 7 foc_step; [|by apply safe_foc]. bools. consts. subst s.
  destruct (chan_ok_tx _ _ HI _ _ _ Hok) as (t & o & Ht & Htc & Hwf & _ & Ho & _); [lia|].
  pose proof Hok as (_ & _ & Hrg & _ & (t' & Htx) & _); [lia|].
  foc_step. apply wp_pure with (λ _, True); [by foc_steps|]. intros late _.
  foc_steps; try (apply safe_foc; [done..|]; by eapply chan_ok_to_idle).
  - apply safe_foc; [done..|]. eapply chan_ok_in_tx; [exact HI | lia | unfold ch_ranges in *; ch_simpl; lia |].
    exists t'. ch_simpl. apply Htx.
  - eapply wp_SetTxBlockInfo; [done | lia | done | unfold ch_ranges in *; ch_simpl; lia | ch_simpl; lia |].
    intros ch' Hrg' E1 E2 E3 E4 Hblk. ch_simpl. foc_steps. apply safe_foc; [done..|].
    eapply chan_ok_in_tx; [exact HI | lia | done |].
    exists t'. rewrite E1, E2, E3, E4. consts. split_and!; try apply Htx; lia.
Qed.

Lemma safe_ProcessFrame ctx s ch cf u tr :
  ctx_ok C ctx → cx_ChannelId ctx = c → frame_ok s ctx → conf_ok C cf → chan_ok C c s ch →
  wp (CanTp_Prv_ProcessFrame ctx Info) (λ _, Inv C) (foc w c s ch cf u tr).
Proof using HI Hc HInfo HOk Hdata Hv HC.
  intros Hctx Hcc Hf Hcf Hok. unfold CanTp_Prv_ProcessFrame. pose proof Hctx as (Hft & _).
  foc_step; [|foc_step; [|foc_step; [|foc_step]]]; bools; consts; [..|lia].
  - by apply safe_ProcessRxSingleFrame.
  - by apply safe_ProcessRxFirstFrame.
  - by apply safe_ProcessRxConsecutiveFrame.
  - by apply safe_ProcessRxFlowControlFrame.
Qed.

Lemma safe_LengthError ctx s ch cf u tr :
  cx_ChannelId ctx = c → conf_ok C cf → chan_ok C c s ch →
  wp (CanTp_Prv_LengthError ctx) (λ _, Inv C) (foc w c s ch cf u tr).
Proof using HI Hc Hv.
  intros Hcc Hcf Hok. unfold CanTp_Prv_LengthError. rewrite Hcc. pose proof (chan_ok_to_idle _ _ _ _ Hok).
  destruct (cx_FrameType ctx =? CANTP_FLOWCONTROL_FRAME); foc_steps; by apply safe_foc.
Qed.
End process.
