(* ===== verification/CanTpSafety.v ===== *)
(** * CanTp: memory safety and the module invariant for every sequence of calls

    Every service of CanTp, called in a state satisfying the invariant, has a
    defined result and restores the invariant; hence so does every sequence of
    calls from static memory. *)

From S2P Require Import Prelude ComStack CanTpTypes CanTpPrv CanTpFrames CanTpChan CanTp CanTpInv CanTpSafe CanTpSafeState CanTpSafeRx.
From stdpp Require Import base list numbers option.

#[local] Open Scope Z_scope.

Section services.
Context `{HCfg : CanTp_Cfg} {HOk : CanTp_CfgOk} {U : Type} `{HEnv : CanTp_Env U} {HEok : CanTp_EnvOk U}.
Abbreviation W := (World U).
Context (C : CanTp_ConfigType).
Implicit Types (w : W).

Lemma Inv_event w e : Inv C w → Inv C (add_event e w).
Proof. by intros []. Qed.

Lemma safe_ReportError w a e (Q : unit → W → Prop) :
  Inv C w → (∀ w', Inv C w' → Q tt w') → wp (CanTp_Prv_ReportError a e) Q w.
Proof.
  intros HI HQ. unfold CanTp_Prv_ReportError, emit. wp_steps; apply HQ; [by apply Inv_event | done].
Qed.

Lemma safe_ReportRunTimeError w a e (Q : unit → W → Prop) :
  Inv C w → (∀ w', Inv C w' → Q tt w') → wp (CanTp_Prv_ReportRunTimeError a e) Q w.
Proof.
  intros HI HQ. unfold CanTp_Prv_ReportRunTimeError, emit. wp_steps; apply HQ; [by apply Inv_event | done].
Qed.

(** The number of identifiers a service knows. *)
Definition total_ids (api : CanTp_ApiId) : Z :=
  match api with
  | CANTP_CHANGEPARAMETER | CANTP_READPARAMETER | CANTP_CANCELRECEIVE => NumberOfRxSdus C
  | CANTP_TRANSMIT | CANTP_CANCELTRANSMIT => NumberOfTxSdus C
  | CANTP_TXCONFIRMATION | CANTP_TRIGGERTRANSMIT => NumberOfTxPdus C
  | CANTP_RXINDICATION => NumberOfRxPdus C
  | _ => 0
  end.

(** An identifier a caller may pass: any value where the module checks it. *)
Definition id_ok (api : CanTp_ApiId) (id : Z) : Prop :=
  0 ≤ id ∧ (CANTP_DEV_ERROR_DETECT = false → id < total_ids api).

(** Past the development-error check the identifier is in range. *)
Lemma safe_dev_checked {A} w id api err (d : A) body (Q : A → W → Prop) :
  Inv C w → id_ok api id → err ≠ CANTP_NO_ERROR →
  (0 ≤ id < total_ids api → wp body Q w) → (∀ w', Inv C w' → Q d w') →
  wp (dev_checked id api err d body) Q w.
Proof.
  intros HI [Hid Hdet] Herr Hbody Hd. unfold dev_checked.
  destruct CANTP_DEV_ERROR_DETECT eqn:Hsw; [|apply Hbody; split; auto].
  unfold CanTp_Prv_IsNoDevError. wp_step. wp_step. wp_step. rewrite (inv_on _ _ HI). cbn [negb].
  wp_step. wp_step. apply (rd_cfg C); [done|]. wp_step. fold (total_ids api).
  destruct (Z.leb_spec (total_ids api) id) as [Hle|Hlt]; wp_decide; try done; wp_steps.
  - apply safe_ReportError; [done|]. intros w' HI'. wp_steps. auto.
  - apply Hbody. lia.
Qed.

(** ** The burst main function *)

Lemma safe_PutInQ w c (Q : Std_ReturnType → W → Prop) :
  Inv C w → 0 ≤ c < NumberOfChannels C → (∀ r w', Inv C w' → Q r w') ->
  wp (CanTp_Prv_PutInQ c) Q w.
Proof using HOk.
  intros HI Hc HQ. unfold CanTp_Prv_PutInQ. wp_steps.
  pose proof (inv_queue _ _ HI) as [Hlen Hq]. pose proof ok_queue.
  set (q := CanTp_BurstQ (tp w)) in *. unfold Q_put.
  destruct (_ =? _); [eapply wp_lift; [done|]; unfold put_q; wp_steps; apply HQ; by apply Inv_queue|].
  destruct (Z.eqb_spec CANTP_BURST_QUEUE_SIZE 0); [lia|].
  set (i := u8 (Tail_u8 q + 1) mod CANTP_BURST_QUEUE_SIZE).
  assert (0 ≤ i < lenZ (Queue q)) as Hi by (rewrite Hlen; apply Z.mod_pos_bound; lia).
  rewrite aset_is_Some by done. eapply wp_lift; [done|]. unfold put_q. wp_steps. apply HQ.
  apply Inv_queue; [|done]. split; cbn; [by rewrite lenZ_insert|].
  intros j v. rewrite aget_insert by done. case_decide; [by intros [= <-] | apply Hq].
Qed.

Lemma safe_BurstMainFunction w c tp :
  Inv C w → 0 ≤ c → wp (CanTp_Prv_BurstMainFunction c tp) (λ _, Inv C) w.
Proof using HOk HEok.
  intros HI Hc. unfold CanTp_Prv_BurstMainFunction. wp_step; [|done].
  wp_step. apply (rd_cfg C); [done|]. wp_step; [|done]. bools.
  wp_step. apply (rd_ch C); [done | lia |]. intros ch. wp_step. apply (rd_sub C); [done | lia |]. intros s _.
  wp_step; [|done]. wp_step. apply safe_PutInQ; [done | lia |]. intros r w' HI'. wp_step; [|done].
  wp_step; [unfold emit; wp_steps; by apply Inv_event | by apply safe_MainFunction].
Qed.

(** ** Reception *)

Lemma safe_RxIndication w id Info :
  Inv C w → id_ok CANTP_RXINDICATION id → (∀ I, Info = Some I → rx_info_ok I) →
  wp (CanTp_RxIndication id Info) (λ _, Inv C) w.
Proof using HOk HEok.
  intros HI Hid HInfo. unfold CanTp_RxIndication. apply safe_dev_checked; try done. intros Hlt.
  destruct Info as [I|]; [|by apply safe_ReportRunTimeError]. specialize (HInfo _ eq_refl).
  wp_step. apply (wp_GetRxContext C); [done..|]. intros err ctx Hctx.
  wp_step; [by apply safe_ReportRunTimeError|]. bools. apply bool_decide_eq_true in H. subst err.
  destruct (Hctx eq_refl) as [Hok Hptr]. destruct (SduDataPtr I) as [data|] eqn:Hdata; [|done].
  pose proof (ctx_channel C w HI _ Hok) as Hc. pose proof (cw_channels _ (inv_wf _ _ HI)).
  destruct (Inv_focus C w (cx_ChannelId ctx) HI) as (s & ch & Hw & Hch); [lia|].
  pose proof (inv_conf _ _ HI) as Hcf. rewrite Hw.
  wp_step. eapply wp_RxSduLengthCheck; try done. intros r ctx' Hok' Hcc Hf.
  wp_step; [by eapply safe_LengthError|]. bools. apply bool_decide_eq_true in H0.
  wp_step. eapply wp_mono; [eapply safe_ProcessFrame; eauto|].
  intros [] w' HI'. apply safe_BurstMainFunction; [done | lia].
Qed.

(** ** Transmit confirmation *)

(** The rest of the message after a confirmed frame. *)
Lemma tx_remaining a rem max : 0 ≤ a → 0 ≤ rem < 2 ^ PduLengthBits → 0 ≤ max →
  (if rem <? max then 0 else plen (rem - max)) = Z.max 0 (rem - max).
Proof. intros. destruct (Z.ltb_spec rem max); [lia|]. rewrite plen_small; lia. Qed.

Lemma safe_TxConfirmation_data w c id v ch cf u tr :
  Inv C w → 0 ≤ c < NumberOfChannels C → 0 ≤ id < NumberOfTxPdus C → conf_ok C cf → chan_ok C c 2 ch →
  wp (TxConfirmation_data c id v) (λ _, Inv C) (foc w c 2 ch cf u tr).
Proof using HOk.
  intros HI Hc Hid Hcf Hok. unfold TxConfirmation_data.
  pose proof (safe_valid C w HI c Hc) as Hv. pose proof (safe_cfg C w HI) as HC.
  destruct (tx_chan_wait C w HI c ch Hok) as (t & n & Ht & Hwf & Has & Hn & Hn' & Hdl & Hsf & _).
  pose proof (asize_bound (tx_AddressFormatId t)). pose proof ok_channels.
  pose proof Hok as (_ & _ & Hrg & _ & Htx & _). destruct Htx as (t' & Ht' & Htc & Htx); [lia|].
  assert (t' = t) as -> by congruence. unfold ch_ranges in Hrg. consts.
  do 13 foc_step.
  set (m := u8 (CanTp_Prv_GetTxDl t - _ - _)). assert (m = CanTp_Prv_GetTxDl t - asize (tx_AddressFormatId t) - n ∧ 0 ≤ m) as [Hm Hm0].
  { unfold m. ch_simpl. rewrite u8_small; lia. }
  ch_simpl. rewrite (tx_remaining 0) by lia.
  set (rem := Z.max 0 _). assert (conf_ok C (<[Z.to_nat id:=CANTP_INVALID_CHANNEL]> cf)) as Hcf'.
  { apply conf_ok_insert; [done..|]. unfold CANTP_INVALID_CHANNEL. lia. }
  apply wp_mono with (λ _ w', ∃ sn b, 0 ≤ sn ≤ 15 ∧ 0 ≤ b < 2 ^ PduLengthBits ∧
    (ch_PciId ch ≤ 3 → b = 0) ∧
    w' = foc w c 2 (set_ch_BlockCfsRemaining b (set_ch_SN sn (set_ch_SduLengthRemaining rem
           (set_ch_InitialTicks v ch)))) cf u tr).
  { foc_steps.
    - bools. ch_simpl. rewrite land_15. pose proof (Z.mod_pos_bound (u8 (ch_SN ch + 1)) 16).
      eexists _, _. split_and!; [..|reflexivity]; rewrite ?plen_small by lia; lia.
    - exists (ch_SN ch), (ch_BlockCfsRemaining ch). split_and!; try lia. by destruct ch. }
  intros [] ? (sn & b & Hsn & Hb & Hb0 & ->). foc_step. foc_step. foc_step.
  set (ch1 := set_ch_BlockCfsRemaining b _).
  assert (ch_ranges ch1) as Hrg1 by (unfold ch1, ch_ranges; ch_simpl; unfold rem; lia).
  assert (rxdl_ok C c ch1) as Hdl1 by (by eapply (tx_rxdl C w)).
  assert (∀ s' ch', (s' = 0 ∨ s' = 3 ∨ s' = 4 ∧ 0 < ch_BlockCfsRemaining ch') →
    ch_ranges ch' → ch_ActiveSduId ch' = ch_ActiveSduId ch → ch_SduLength ch' = ch_SduLength ch →
    (s' ≠ 0 → 0 < ch_SduLengthRemaining ch' ∧ 4 ≤ ch_PciId ch' ∧ (s' = 3 → ch_PciId ch' = 5)) →
    chan_ok C c s' ch') as Hto.
  { intros s' ch' Hs' Hrg' E1 E2 Hp. destruct (decide (s' = 0)) as [->|].
    - apply chan_ok_idle; [done|]. by eapply (tx_rxdl C w).
    - eapply chan_ok_in_tx; [exact HI | lia | done |]. exists t. rewrite E1, E2. consts.
      split_and!; try done; lia. }
  foc_step; [|foc_step]; bools.
  - foc_steps; [destruct Hcf; lia|]. apply safe_foc; [done..|]. by apply Hto; [left|..].
  - foc_steps; [destruct Hcf; lia|]. apply safe_foc; [done..|].
    unfold ch1 in *. ch_simpl. apply Hto; ch_simpl; try done; lia.
  - unfold CanTp_Prv_PrepareFcRecieve.
    assert (0 < ch_SduLengthRemaining ch1 ∧ ch_ActiveSduId ch1 = ch_ActiveSduId ch) as [Hrem1 Hact].
    { unfold ch1, rem in *. ch_simpl. lia. }
    foc_step. apply wp_pure with (λ _, True).
    { foc_steps; try done. }
    intros disabled _. foc_step. foc_step.
    + foc_step. eapply wp_GetTxBlockCfs; try done. intros k Hk.
      foc_steps; [destruct Hcf; lia|]. apply safe_foc; [done..|].
      unfold ch1, ch_ranges in *. ch_simpl. apply Hto; unfold ch_ranges; ch_simpl; consts; try done; lia.
    + foc_steps; [destruct Hcf; lia|]. apply safe_foc; [done..|].
      unfold ch1, ch_ranges in *. ch_simpl. apply Hto; unfold ch_ranges; ch_simpl; consts; try done; lia.
Qed.

Lemma safe_FcTxConfirmation w c id ch cf u tr :
  Inv C w → 0 ≤ c < NumberOfChannels C → 0 ≤ id < NumberOfTxPdus C → conf_ok C cf → chan_ok C c 7 ch →
  wp (CanTp_Prv_FcTxConfirmation c;; set_conf id CANTP_INVALID_CHANNEL) (λ _, Inv C) (foc w c 7 ch cf u tr).
Proof using HOk.
  intros HI Hc Hid Hcf Hok. unfold CanTp_Prv_FcTxConfirmation.
  pose proof (safe_valid C w HI c Hc) as Hv. pose proof (safe_cfg C w HI) as HC.
  destruct (chan_ok_rx C w HI c _ _ Hok) as (_ & r & o & p & Hr & _); [lia|].
  pose proof ok_channels. pose proof Hok as (_ & _ & Hrg & _).
  assert (conf_ok C (<[Z.to_nat id:=CANTP_INVALID_CHANNEL]> cf)) as Hcf'.
  { apply conf_ok_insert; [done..|]. unfold CANTP_INVALID_CHANNEL. lia. }
  assert (∀ s', 6 ≤ s' ≤ 8 → chan_ok C c s' ch) as Hmove
    by (intros; apply chan_ok_rx_move with 7 ch; done || lia).
  pose proof (chan_ok_to_idle _ _ _ _ Hok).
  foc_steps; consts; try (destruct Hcf; lia); apply safe_foc; try done; try (apply Hmove; lia).
  case_test; [apply Hmove; lia | done].
Qed.

Lemma safe_TxConfirmation w id :
  Inv C w → id_ok CANTP_TXCONFIRMATION id → wp (CanTp_TxConfirmation id) (λ _, Inv C) w.
Proof using HOk HEok.
  intros HI Hid. unfold CanTp_TxConfirmation. apply safe_dev_checked; try done. intros Hlt.
  pose proof (inv_conf _ _ HI) as Hcf. destruct (conf_some _ _ _ Hcf Hlt) as (c & Hcv & Hc0).
  unfold CanTp_GetElapsedValue, get_conf. wp_steps. eapply wp_lift; [done|].
  wp_step. apply (rd_cfg C); [done|]. wp_step. wp_step; bools.
  - pose proof (cw_channels _ (inv_wf _ _ HI)).
    destruct (Inv_focus C w c HI) as (s & ch & Hw & Hok); [lia|].
    assert (0 ≤ c < NumberOfChannels C) as Hc by lia. pose proof (safe_valid C w HI c Hc) as Hv.
    set (v := CanTp_MainFunctionTicks (tp w)). rewrite Hw. foc_step. foc_step. apply wp_mono with (λ _, Inv C).
    + foc_step; [|foc_step]; bools; consts; subst.
      * do 2 foc_step. eapply safe_FcTxConfirmation; try done.
      * by apply safe_TxConfirmation_data.
      * foc_step. by apply safe_foc.
    + intros [] w' HI'. by apply safe_BurstMainFunction.
  - wp_steps; try discriminate. by apply safe_BurstMainFunction.
Qed.

(** ** Requests of the upper layer *)

(** An accepted length leaves a single frame that fits. *)
Lemma Transmit_accepts t len pci :
  tx_wf C t → 0 < len < 2 ^ PduLengthBits →
  CanTp_Prv_TxPciInit t len = Some pci →
  len ≤ TxMaxLength t pci (asize (tx_AddressFormatId t)) →
  0 ≤ pci ≤ 3 ∧ (pci = 0 → len + asize (tx_AddressFormatId t) + 1 ≤ 8) ∧
  (pci = 1 → len + asize (tx_AddressFormatId t) + 2 ≤ CanTp_Prv_GetTxDl t).
Proof using HOk.
  intros Hwf Hlen Hpci Hmax. pose proof (asize_bound (tx_AddressFormatId t)).
  assert (len < 65536) as Hs.
  { unfold TxMaxLength in Hmax. pose proof (dl_valid_bound _ (proj1 (txw_dl _ _ Hwf))).
    destruct (CanTp_Prv_GetBit _ _); [destruct (_ <? _)|destruct CANTP_CANFD_SUPPORT].
    - pose proof (u8_bound (CanTp_Prv_GetTxDl t - 1 - asize (tx_AddressFormatId t))). lia.
    - rewrite u8_small in Hmax by lia. consts. rewrite u32_small in Hmax; lia.
    - pose proof (u16_bound (if CANTP_DEFAULT_CAN_DL <? CanTp_Prv_GetTxDl t
                             then CANTP_MAXFDFFDL else CANTP_MAXFFDL)). lia.
    - pose proof (u16_bound CANTP_MAXFFDL). lia. }
  unfold CanTp_Prv_TxPciInit in Hpci. rewrite AddressSize_spec in Hpci by apply Hwf. cbn in Hpci.
  injection Hpci as <-. rewrite !u32_small by lia. consts.
  repeat (match goal with |- context [if ?b then _ else _] => destruct b eqn:? end); bools; lia.
Qed.

Lemma safe_Transmit w id Info :
  Inv C w → id_ok CANTP_TRANSMIT id → (∀ n, Info = Some n → 0 ≤ n < 2 ^ PduLengthBits) →
  wp (CanTp_Transmit id Info) (λ _, Inv C) w.
Proof using HOk.
  intros HI Hid HInfo. unfold CanTp_Transmit. apply safe_dev_checked; try done. intros Hlt. cbn in Hlt.
  pose proof (cw_txsdus _ (inv_wf _ _ HI)) as Hn.
  destruct (cfg_txsdu C w HI id) as (t & Ht & Hwf); [lia|]. wp_step. eapply (rd_txsdu C); [done..|].
  wp_step. apply wp_pure with (λ a, let '(err, pci, len) := a in err = CANTP_NO_ERROR →
    0 < len < 2 ^ PduLengthBits ∧ 0 ≤ pci ≤ 3 ∧
    (pci = 0 → len + asize (tx_AddressFormatId t) + 1 ≤ 8) ∧
    (pci = 1 → len + asize (tx_AddressFormatId t) + 2 ≤ CanTp_Prv_GetTxDl t)).
  { destruct Info as [len|]; [|by wp_step]. specialize (HInfo _ eq_refl).
    wp_step; [by wp_step|]. bools.
    assert (∃ pci, CanTp_Prv_TxPciInit t len = Some pci) as [pci Hpci].
    { unfold CanTp_Prv_TxPciInit. rewrite AddressSize_spec by apply Hwf. by eexists. }
    wp_step. eapply wp_lift; [exact Hpci|]. wp_step.
    eapply wp_lift; [by apply AddressSize_spec, Hwf|]. wp_step. split; [|done].
    destruct (Z.ltb_spec (TxMaxLength t pci (asize (tx_AddressFormatId t))) len) as [|Hle]; [done|].
    intros _. split; [lia|]. apply Transmit_accepts; done || lia. }
  intros [[err pci] len] Hacc. wp_step.
  { wp_step. apply safe_ReportRunTimeError; [done|]. intros. by wp_step. }
  bools. apply bool_decide_eq_true in H. destruct (Hacc H) as (Hl & Hp & Hsf & Hsffd).
  unfold CanTp_GetElapsedValue. wp_steps.
  pose proof (txw_channel _ _ Hwf) as Hc. pose proof (cw_channels _ (inv_wf _ _ HI)).
  pose proof (safe_valid C w HI _ Hc) as Hv.
  destruct (Inv_focus C w (tx_ChannelId t) HI) as (s & ch & Hw & Hok); [lia|].
  pose proof (inv_conf _ _ HI) as Hcf.
  set (v := CanTp_MainFunctionTicks (tp w)). rewrite Hw.
  destruct (State_spec s) as (st & Hst & _); [apply Hok|]. eapply wp_GetState; [done..|].
  foc_step; [|foc_step; by apply safe_foc]. foc_steps. rewrite u8_small by lia.
  apply safe_foc; [done..|]. eapply chan_ok_in_tx; [exact HI | by consts | |]; pose proof Hok as (_ & _ & Hrg & _).
  - unfold ch_ranges in *. ch_simpl. lia.
  - exists t. ch_simpl. consts. split_and!; try done; lia.
Qed.

Lemma safe_CancelTransmit w id :
  Inv C w → id_ok CANTP_CANCELTRANSMIT id → wp (CanTp_CancelTransmit id) (λ _, Inv C) w.
Proof using HOk.
  intros HI Hid. unfold CanTp_CancelTransmit. apply safe_dev_checked; try done. intros Hlt. cbn in Hlt.
  pose proof (cw_txsdus _ (inv_wf _ _ HI)) as Hn. pose proof ok_channels.
  destruct (cfg_txsdu C w HI id) as (t & Ht & Hwf); [lia|]. wp_step. eapply (rd_txsdu C); [done..|].
  pose proof (txw_channel _ _ Hwf) as Hc. pose proof (cw_channels _ (inv_wf _ _ HI)).
  pose proof (safe_valid C w HI _ Hc) as Hv. pose proof (txw_conf _ _ Hwf).
  destruct (Inv_focus C w (tx_ChannelId t) HI) as (s & ch & Hw & Hok); [lia|].
  pose proof (inv_conf _ _ HI) as Hcf. rewrite Hw. pose proof (chan_ok_to_idle _ _ _ _ Hok).
  destruct (State_spec s) as (st & Hst & _); [apply Hok|]. foc_step. eapply wp_GetState; [done..|].
  foc_steps; try (destruct Hcf; lia); apply safe_foc; try done.
  apply conf_ok_insert; [done..|]. unfold CANTP_INVALID_CHANNEL. lia.
Qed.

Lemma safe_CancelReceive w id :
  Inv C w → id_ok CANTP_CANCELRECEIVE id → wp (CanTp_CancelReceive id) (λ _, Inv C) w.
Proof using HOk.
  intros HI Hid. unfold CanTp_CancelReceive. apply safe_dev_checked; try done. intros Hlt. cbn in Hlt.
  pose proof (cw_rxsdus _ (inv_wf _ _ HI)) as Hn. pose proof ok_channels.
  destruct (cfg_rxsdu C w HI id) as (r & Hr & Hwf); [lia|]. wp_step. eapply (rd_rxsdu C); [done..|].
  pose proof (rxw_channel _ _ Hwf) as Hc. pose proof (cw_channels _ (inv_wf _ _ HI)).
  pose proof (safe_valid C w HI _ Hc) as Hv. pose proof (rxw_conf _ _ Hwf).
  pose proof (AddressSize_spec _ (rxw_format _ _ Hwf)) as Has.
  destruct (Inv_focus C w (rx_ChannelId r) HI) as (s & ch & Hw & Hok); [lia|].
  pose proof (inv_conf _ _ HI) as Hcf. rewrite Hw. pose proof (chan_ok_to_idle _ _ _ _ Hok).
  destruct (State_spec s) as (st & Hst & _); [apply Hok|]. foc_step. eapply wp_GetState; [done..|].
  foc_steps; try (destruct Hcf; lia); apply safe_foc; try done.
  apply conf_ok_insert; [done..|]. unfold CANTP_INVALID_CHANNEL. lia.
Qed.

Lemma Inv_parampair w id p :
  0 ≤ id < lenZ (CanTp_ParamPair (tp w)) → param_wf p → Inv C w →
  Inv C (set_tp (set_CanTp_ParamPair (<[Z.to_nat id := p]> (CanTp_ParamPair (tp w))) (tp w)) w).
Proof.
  intros Hid Hp []. split; cbn; try done. rewrite lenZ_insert. destruct inv_param as [Hl Hw].
  split; [done|]. intros i q. rewrite aget_insert by done. case_decide; [by intros [= <-] | apply Hw].
Qed.

Lemma safe_ChangeParameter w id prm v :
  Inv C w → id_ok CANTP_CHANGEPARAMETER id → wp (CanTp_ChangeParameter id prm v) (λ _, Inv C) w.
Proof using HOk.
  intros HI Hid. unfold CanTp_ChangeParameter. apply safe_dev_checked; try done. intros Hlt. cbn in Hlt.
  wp_step. apply wp_mono with (λ _, Inv C).
  { unfold CanTp_Prv_IsChangeParameterOk. wp_decide; [by wp_step|]. wp_step.
    apply safe_ReportRunTimeError; [done|]. intros. by wp_step. }
  clear w HI. intros ok w HI. wp_step; [|by wp_step].
  pose proof (cw_rxsdus _ (inv_wf _ _ HI)) as Hn. destruct (cfg_rxsdu C w HI id) as (r & Hr & Hwf); [lia|].
  wp_step. eapply (rd_rxsdu C); [done..|]. pose proof (rxw_channel _ _ Hwf) as Hc.
  unfold CanTp_Prv_GetState. wp_step. wp_step. apply (rd_sub C); [done..|]. intros s Hs.
  pose proof (cw_channels _ (inv_wf _ _ HI)).
  destruct (Inv_focus C w (rx_ChannelId r) HI) as (s' & ch & Hw & Hok); [lia|].
  assert (s' = s) as ->.
  { rewrite Hw in Hs. cbn in Hs. rewrite aget_insert_eq in Hs by (rewrite (inv_substate _ _ HI); lia). congruence. }
  destruct (State_spec s) as (st & Hst & _); [apply Hok|]. eapply wp_lift; [done|].
  wp_step; [wp_step; apply safe_ReportRunTimeError; [done|]; intros; by wp_step|].
  destruct (inv_param _ _ HI) as [Hl Hpw].
  destruct (aget_is_Some (CanTp_ParamPair (tp w)) id) as [p Hp]; [lia|].
  wp_steps. eapply wp_lift; [done|]. unfold set_parampair. wp_steps.
  eapply wp_lift; [apply aset_is_Some; lia|]. wp_steps. apply Inv_parampair; [lia | | done].
  destruct (Hpw _ _ Hp). case_test; split; cbn; try done; apply u8_bound.
Qed.

Lemma safe_ReadParameter w id prm b :
  Inv C w → id_ok CANTP_READPARAMETER id → wp (CanTp_ReadParameter id prm b) (λ _, Inv C) w.
Proof using HOk.
  intros HI Hid. unfold CanTp_ReadParameter. apply safe_dev_checked; try done. intros Hlt. cbn in Hlt.
  wp_step; [|wp_step].
  - wp_step. apply safe_ReportRunTimeError; [done|]. intros. by wp_step.
  - wp_step. apply safe_ReportRunTimeError; [done|]. intros. by wp_step.
  - wp_step. unfold CanTp_Prv_GetRxParam. wp_step. wp_step.
    + destruct (inv_param _ _ HI) as [Hl _]. destruct (aget_is_Some (CanTp_ParamPair (tp w)) id) as [p Hp]; [lia|].
      wp_steps. eapply wp_lift; [done|]. by wp_steps.
    + pose proof (cw_rxsdus _ (inv_wf _ _ HI)) as Hn. destruct (cfg_rxsdu C w HI id) as (r & Hr & Hwf); [lia|].
      unfold CanTp_Prv_GetRxCfgParam. wp_step. eapply (rd_rxsdu C); [done..|]. wp_step. apply (rd_cfg C); [done|].
      destruct (aget_is_Some (Param C) (rx_ParamId r)) as [p Hp]; [apply Hwf|].
      wp_step. eapply wp_lift; [done|]. by wp_steps.
Qed.

Lemma safe_TriggerTransmit w id Info :
  Inv C w → id_ok CANTP_TRIGGERTRANSMIT id →
  (∀ I b, Info = Some I → SduDataPtr I = Some b → 8 ≤ SduLength I ≤ lenZ b) →
  wp (CanTp_TriggerTransmit id Info) (λ _, Inv C) w.
Proof using HOk HEok.
  intros HI Hid HInfo. unfold CanTp_TriggerTransmit. apply safe_dev_checked; try done. intros Hlt.
  destruct Info as [[ptr len]|]; [|wp_step; apply safe_ReportRunTimeError; [done|]; intros; by wp_step].
  pose proof (inv_conf _ _ HI) as Hcf. destruct (conf_some _ _ _ Hcf Hlt) as (c & Hcv & Hc0).
  unfold get_conf. wp_steps. eapply wp_lift; [done|]. wp_step. apply (rd_cfg C); [done|].
  wp_step; [|by wp_step]. bools. assert (0 ≤ c < NumberOfChannels C) as Hc by lia.
  pose proof (cw_channels _ (inv_wf _ _ HI)). pose proof (safe_valid C w HI c Hc) as Hv.
  destruct (Inv_focus C w c HI) as (s & ch & Hw & Hok); [lia|]. rewrite Hw.
  pose proof (safe_cfg C w HI) as HC. do 3 foc_step.
  apply wp_pure with (λ dl, ∀ t, s = 2 → aget (TxSdu C) (ch_ActiveSduId ch) = Some t → dl = CanTp_Prv_GetTxDl t).
  { foc_step; [|foc_step; bools; consts; by split; [intros; lia|]]. bools. consts. subst s.
    destruct (chan_ok_tx C w HI c _ _ Hok) as (t & o & Ht & _); [lia|]. foc_steps.
    split; [|done]. intros t' _ Ht'. congruence. }
  intros dl Hdl. cbn [SduLength SduDataPtr]. foc_step.
  { foc_steps. by apply safe_foc. }
  apply orb_false_iff in H1 as [Hd Hp]. apply bool_decide_eq_false in Hp. bools.
  destruct ptr as [b|]; [|done]. destruct (HInfo _ b eq_refl eq_refl) as [Hl8 Hlb]. cbn in Hl8, Hlb.
  foc_step. eapply wp_CreateFrame; try done.
  - split; [lia|]. intros E t Ht. rewrite <-(Hdl t E Ht). lia.
  - intros r info u' tr' _. foc_step. by apply safe_foc.
Qed.
End services.
