(* ===== verification/CanTpProps.v ===== *)
(** * CanTp: every reachable state is safe

    The life of the module as a transition system over its services, from static
    memory; every reachable state satisfies the invariant and every admissible
    call in it has a defined result.

    A classic-CAN build with one transmit and one receive connection on a
    channel each, an upper layer that owns one transmit and one receive buffer,
    and a CanIf that accepts every frame.  It satisfies everything the theorems
    assume, and executes.

    Memory safety and the invariant in every reachable state, initialisation,
    and the time-outs of the waiting states. *)

From S2P Require Import Prelude ComStack CanTpTypes CanTpPrv CanTpFrames CanTpChan CanTp CanTpInv CanTpSafe CanTpSafeState CanTpSafeRx CanTpSafety.
From stdpp Require Import base list numbers option.

#[local] Open Scope Z_scope.

Section reach.
Context `{HCfg : CanTp_Cfg} {HOk : CanTp_CfgOk} {U : Type} `{HEnv : CanTp_Env U} {HEok : CanTp_EnvOk U}.
Abbreviation W := (World U).
Context (C : CanTp_ConfigType).
Implicit Types (w : W).

(** ** Memory: what holds of the arrays whether or not the module runs *)

Record Mem w : Prop := {
  mem_channel : lenZ (CanTp_Channel (tp w)) = CANTP_MAX_CHANNEL_SIZE;
  mem_substate : lenZ (CanTp_SubState (tp w)) = CANTP_MAX_CHANNEL_SIZE;
  mem_unused : ∀ c s, NumberOfChannels C ≤ c → aget (CanTp_SubState (tp w)) c = Some s → s = CANTP_IDLE;
  mem_conf : conf_ok C (CanTp_TxConfirmationChannel (tp w));
  mem_param : NumberOfRxSdus C ≤ lenZ (CanTp_ParamPair (tp w)) ∧
    ∀ i p, aget (CanTp_ParamPair (tp w)) i = Some p → param_wf p;
  mem_queue : queue_ok C (CanTp_BurstQ (tp w));
  mem_chan : ∀ c ch, aget (CanTp_Channel (tp w)) c = Some ch → ch_ranges ch ∧ rxdl_ok C c ch
}.

Lemma Inv_Mem w : Inv C w → Mem w.
Proof.
  intros HI. pose proof HI as [Hcfg Hon Hwf Hch Hsub Hcf Hpar Hq Hchan]. split; try done.
  - intros c s Hc Hs. pose proof (aget_Some _ _ _ Hs).
    destruct (aget_is_Some (CanTp_Channel (tp w)) c) as [ch Hgc]; [lia|].
    destruct (Hchan _ _ _ Hs Hgc) as (Hs8 & Hs5 & _ & _ & Htx & Hrx). unfold CANTP_IDLE.
    destruct (decide (s = 0)); [done|]. exfalso. destruct (decide (s ≤ 4)).
    + destruct Htx as (t & Ht & Htc & _); [lia|]. pose proof (txw_channel _ _ (cw_tx _ Hwf _ _ Ht)). lia.
    + destruct Hrx as (_ & r & Hr & Hrc & _); [lia|]. pose proof (rxw_channel _ _ (cw_rx _ Hwf _ _ Hr)). lia.
  - intros c ch Hgc. pose proof (aget_Some _ _ _ Hgc).
    destruct (aget_is_Some (CanTp_SubState (tp w)) c) as [s Hs]; [lia|].
    destruct (Hchan _ _ _ Hs Hgc) as (_ & _ & ? & ? & _). done.
Qed.

(** ** Initialisation *)

Lemma wp_RxParamInit w (Q : unit → W → Prop) :
  config_wf C → CanTp_CfgPtr (tp w) = Some C → Mem w →
  (∀ w', Mem w' → CanTp_CfgPtr (tp w') = Some C → CanTp_MainState (tp w') = CanTp_MainState (tp w) → Q tt w') →
  wp CanTp_Prv_RxParamInit Q w.
Proof.
  intros Hwf HC HM HQ. unfold CanTp_Prv_RxParamInit. wp_step; [|by apply HQ].
  assert (∀ w' (P : CanTp_ConfigType → W → Prop), CanTp_CfgPtr (tp w') = Some C → P C w' → wp cfg P w') as Hcfg.
  { intros w' P HC' HP. unfold cfg. wp_steps. by eapply wp_lift. }
  wp_step. apply Hcfg; [done|].
  pose proof (cw_rxsdus _ Hwf) as Hn.
  eapply wp_mono; [apply wp_mfor with (I := λ _ w', Mem w' ∧ CanTp_CfgPtr (tp w') = Some C ∧
    CanTp_MainState (tp w') = CanTp_MainState (tp w)); [done|]|].
  - intros i w' Hi (HM' & HC' & Hon). unfold CanTp_Prv_GetRxCfgParam, get_rxsdu.
    destruct (aget_is_Some (RxSdu C) i) as [r Hr]; [lia|].
    destruct (aget_is_Some (Param C) (rx_ParamId r)) as [p Hp]; [by apply (cw_rx _ Hwf _ _ Hr)|].
    wp_step. wp_step. wp_step. apply Hcfg; [done|]. eapply wp_lift; [done|]. wp_step. apply Hcfg; [done|].
    wp_step. eapply wp_lift; [done|]. wp_steps. unfold set_parampair. wp_steps.
    pose proof HM' as []. destruct mem_param0 as [Hl Hpw]. eapply wp_lift; [apply aset_is_Some; lia|].
    wp_steps. split; [|done]. split; cbn; try done. rewrite lenZ_insert. split; [done|].
    intros j q. rewrite aget_insert by lia. case_decide; [|apply Hpw].
    intros [= <-]. by eapply cw_param.
  - intros [] w' (HM' & HC' & Hon). by apply HQ.
Qed.

Lemma aget_replicated n (l l' : list Z) x :
  0 ≤ n ≤ lenZ l → awrite l 0 (replicate (Z.to_nat n) x) = Some l' →
  lenZ l' = lenZ l ∧ ∀ i, aget l' i = if decide (0 ≤ i < n) then Some x else aget l i.
Proof.
  intros Hn Hw. split; [unfold lenZ; by rewrite (awrite_length _ _ _ _ Hw)|].
  unfold lenZ in Hn. rewrite awrite_is_Some in Hw by (unfold lenZ; rewrite ?length_replicate; lia).
  injection Hw as <-. cbn. rewrite length_replicate. intros i. unfold aget.
  destruct (decide (0 ≤ i)); [|by rewrite decide_False by lia].
  destruct (decide (0 ≤ i < n)).
  - rewrite lookup_app_l by (rewrite length_replicate; lia). apply lookup_replicate_2. lia.
  - rewrite lookup_app_r by (rewrite length_replicate; lia). rewrite length_replicate, lookup_drop. f_equal. lia.
Qed.

(** The state after initialisation: nothing in progress. *)
Definition quiet w : Prop :=
  (∀ c s, aget (CanTp_SubState (tp w)) c = Some s → s = CANTP_IDLE) ∧
  (∀ i, 0 ≤ i < NumberOfTxPdus C → aget (CanTp_TxConfirmationChannel (tp w)) i = Some CANTP_INVALID_CHANNEL).

Lemma wp_QInit w (Q : unit → W → Prop) :
  Mem w → CanTp_CfgPtr (tp w) = Some C →
  (∀ w', Mem w' → CanTp_CfgPtr (tp w') = Some C → CanTp_MainState (tp w') = CanTp_MainState (tp w) → Q tt w') →
  wp CanTp_Prv_QInit Q w.
Proof.
  intros HM HC HQ. unfold CanTp_Prv_QInit, put_q. wp_steps; [|by apply HQ].
  apply HQ; try done. by destruct HM.
Qed.

Lemma wp_init_arrays w (Q : unit → W → Prop) :
  config_wf C → CanTp_CfgPtr (tp w) = Some C → Mem w →
  (∀ w', Mem w' → quiet w' → CanTp_CfgPtr (tp w') = Some C →
    CanTp_MainState (tp w') = CanTp_MainState (tp w) → Q tt w') →
  wp init_arrays Q w.
Proof using HOk.
  intros Hwf HC HM HQ. unfold init_arrays. pose proof (cw_channels _ Hwf) as Hn. pose proof ok_channels as Hmax.
  pose proof (cw_txpdus _ Hwf) as Htp.
  wp_step. apply wp_RxParamInit; [done..|]. intros w1 HM1 HC1 Hon1.
  wp_step. apply wp_QInit; [done..|]. intros w2 HM2 HC2 Hon2.
  pose proof HM2 as [Hch Hsub Hun [Hcl Hcv] Hpar Hq Hchan].
  wp_step. unfold cfg. wp_steps. eapply wp_lift; [done|]. wp_steps.
  rewrite ArrayInit_spec by (unfold CANTP_IDLE; lia).
  destruct (awrite_lenZ (CanTp_SubState (tp w2)) 0 (replicate (Z.to_nat (NumberOfChannels C)) CANTP_IDLE))
    as (l1 & Hl1 & _); [lia | unfold lenZ in *; rewrite length_replicate; lia |].
  pose proof Hl1 as Hr1. apply aget_replicated in Hr1 as [Hlen1 Hg1]; [|lia].
  eapply wp_lift; [done|]. wp_steps. cbn.
  rewrite ArrayInit_spec by (unfold CANTP_INVALID_CHANNEL; lia).
  destruct (awrite_lenZ (CanTp_TxConfirmationChannel (tp w2)) 0
    (replicate (Z.to_nat (NumberOfTxPdus C)) CANTP_INVALID_CHANNEL))
    as (l2 & Hl2 & _); [lia | unfold lenZ in *; rewrite length_replicate; lia |].
  pose proof Hl2 as Hr2. apply aget_replicated in Hr2 as [Hlen2 Hg2]; [|lia].
  eapply wp_lift; [done|]. wp_steps. apply HQ; cbn; try done; [|split; cbn|congruence].
  - split; cbn; try done; [lia| |split; [lia|]].
    + intros c s Hc. rewrite Hg1. case_decide; [lia|]. by apply Hun.
    + intros i v. rewrite Hg2. case_decide; [|apply Hcv]. intros [= <-]. unfold CANTP_INVALID_CHANNEL. lia.
  - intros c s. rewrite Hg1. case_decide; [by intros [= <-]|]. intros Hs.
    apply (Hun c); [|done]. pose proof (aget_Some _ _ _ Hs). lia.
  - intros i Hi. by rewrite Hg2, decide_True.
Qed.

Lemma Inv_quiet w :
  config_wf C → Mem w → quiet w → CanTp_CfgPtr (tp w) = Some C → CanTp_MainState (tp w) = true → Inv C w.
Proof.
  intros Hwf [] [Hq _] HC Hon. split; try done. intros c s ch Hs Hch. rewrite (Hq _ _ Hs).
  destruct (mem_chan0 _ _ Hch). by apply chan_ok_idle.
Qed.

(** ** The module switched off *)

Definition Off w : Prop := CanTp_MainState (tp w) = false ∧ Mem w.
Definition Safe w : Prop := Inv C w ∨ Off w.

Lemma Safe_Mem w : Safe w → Mem w.
Proof. intros [?%Inv_Mem|[]]; done. Qed.

Lemma Off_event w e : Off w → Off (add_event e w).
Proof. by intros [? []]. Qed.

Lemma Mem_set w b p : Mem w → Mem (mkWorld (set_CanTp_MainState b (set_CanTp_CfgPtr p (tp w))) (up w) (trace w)).
Proof. by intros []. Qed.

(** The configuration with which the module is initialised. *)
Definition init_ok (p : option CanTp_ConfigType) : Prop :=
  if decide (CANTP_VARIANT = CANTP_PRE_COMPILE) then CanTp_Config = C else p = Some C ∨ p = None.

Lemma wp_init_on w :
  config_wf C → CanTp_CfgPtr (tp w) = Some C → Mem w →
  wp (init_arrays;; set_mainstate true) (λ _ w', Inv C w' ∧ quiet w') w.
Proof using HOk.
  intros Hwf HC HM. wp_step. apply wp_init_arrays; [done..|]. intros w' HM' Hq' HC' _.
  unfold set_mainstate. wp_steps. split; [|done]. apply Inv_quiet; try done. by destruct HM'.
Qed.

Lemma Off_report w (m : M W unit) e :
  m = (when CANTP_DEV_ERROR_DETECT (emit e)) → Off w → wp m (λ _, Off) w.
Proof. intros -> HO. unfold emit. wp_steps; [by apply Off_event | done]. Qed.

(** The configuration is accepted: its address is a known one, where that is checked. *)
Definition init_accepted (p : option CanTp_ConfigType) : bool :=
  bool_decide (CANTP_VARIANT = CANTP_PRE_COMPILE) ||
  match p with
  | None => false
  | Some C => negb (CANTP_DEV_ERROR_DETECT && bool_decide (CANTP_VARIANT = CANTP_POST_BUILD_SELECTABLE) &&
                    bool_decide (CanTp_Prv_PbCfgCheck C = E_NOT_OK))
  end.

Lemma wp_Init w p : config_wf C → init_ok p → Mem w →
  wp (CanTp_Init p) (λ _ w', if init_accepted p then Inv C w' ∧ quiet w' else Off w') w.
Proof using HOk.
  intros Hwf Hp HM. unfold CanTp_Init, init_ok, init_accepted in *.
  unfold set_mainstate, set_cfgptr. wp_steps.
  set (w1 := set_tp (set_CanTp_MainState false (tp w)) w).
  assert (∀ q, Off (set_tp (set_CanTp_CfgPtr q (tp w1)) w1)) as HO by (intros q; split; [done | by destruct HM]).
  wp_decide.
  - rewrite bool_decide_true by done. cbn. do 2 wp_step. rewrite Hp.
    apply wp_init_on; [done..|]. apply HO.
  - rewrite (bool_decide_false (CANTP_VARIANT = CANTP_PRE_COMPILE)) by done. cbn [orb]. do 2 wp_step.
    destruct Hp as [-> | ->]; [|eapply Off_report; [reflexivity | apply HO]].
    destruct (_ && _); cbn [negb]; [eapply Off_report; [reflexivity | apply HO]|]. apply wp_init_on; [done..|]. apply HO.
Qed.

Lemma safe_Init w p : config_wf C → init_ok p → Safe w → wp (CanTp_Init p) (λ _, Safe) w.
Proof using HOk.
  intros Hwf Hp HS%Safe_Mem. eapply wp_mono; [by apply wp_Init|]. intros [] w' Hw.
  destruct (init_accepted p); [left; apply Hw | by right].
Qed.

Lemma safe_Shutdown w : Inv C w → wp CanTp_Shutdown (λ _, Off) w.
Proof using HOk.
  intros HI. pose proof (Inv_Mem _ HI) as HM. unfold CanTp_Shutdown, set_mainstate, set_cfgptr.
  wp_step. wp_step. rewrite (inv_on _ _ HI), andb_false_r. wp_steps.
  apply wp_init_arrays; [apply (inv_wf _ _ HI) | apply (inv_cfg _ _ HI) | by destruct HM |].
  intros w' HM' _ _ Hon. wp_steps. split; [done | by destruct HM'].
Qed.

Lemma Off_dev_checked {A} w id api err (d : A) body :
  CANTP_DEV_ERROR_DETECT = true → Off w → wp (dev_checked id api err d body) (λ _, Off) w.
Proof.
  intros Hdet HO. unfold dev_checked, CanTp_Prv_IsNoDevError. rewrite Hdet.
  wp_step. wp_step. wp_step. destruct HO as [Hon HM]. rewrite Hon. cbn [negb]. wp_steps.
  wp_decide; [done|]. wp_step. eapply wp_mono; [eapply Off_report; [reflexivity | by split]|]. intros [] w' HO. by wp_steps.
Qed.

(** ** Calls *)

Inductive call :=
| Call_Init (p : option CanTp_ConfigType)
| Call_Shutdown
| Call_MainFunction
| Call_Transmit (id : Z) (Info : option Z)
| Call_CancelTransmit (id : Z)
| Call_CancelReceive (id : Z)
| Call_ChangeParameter (id : Z) (prm : TPParameterType) (v : Z)
| Call_ReadParameter (id : Z) (prm : TPParameterType) (ptr : bool)
| Call_RxIndication (id : Z) (Info : option PduInfoType)
| Call_TxConfirmation (id : Z)
| Call_TriggerTransmit (id : Z) (Info : option PduInfoType).

Definition run (k : call) : M W unit :=
  match k with
  | Call_Init p => CanTp_Init p
  | Call_Shutdown => CanTp_Shutdown
  | Call_MainFunction => CanTp_MainFunction
  | Call_Transmit id Info => _ ← CanTp_Transmit id Info; mret tt
  | Call_CancelTransmit id => _ ← CanTp_CancelTransmit id; mret tt
  | Call_CancelReceive id => _ ← CanTp_CancelReceive id; mret tt
  | Call_ChangeParameter id prm v => _ ← CanTp_ChangeParameter id prm v; mret tt
  | Call_ReadParameter id prm b => _ ← CanTp_ReadParameter id prm b; mret tt
  | Call_RxIndication id Info => CanTp_RxIndication id Info
  | Call_TxConfirmation id => CanTp_TxConfirmation id
  | Call_TriggerTransmit id Info => _ ← CanTp_TriggerTransmit id Info; mret tt
  end.

(** What a caller owes: pointers and lengths that describe real memory, and
    identifiers in range in builds that do not check them. *)
Definition args_ok (k : call) : Prop :=
  match k with
  | Call_Init p => init_ok p
  | Call_Shutdown | Call_MainFunction => True
  | Call_Transmit id Info => id_ok C CANTP_TRANSMIT id ∧ ∀ n, Info = Some n → 0 ≤ n < 2 ^ PduLengthBits
  | Call_CancelTransmit id => id_ok C CANTP_CANCELTRANSMIT id
  | Call_CancelReceive id => id_ok C CANTP_CANCELRECEIVE id
  | Call_ChangeParameter id _ _ => id_ok C CANTP_CHANGEPARAMETER id
  | Call_ReadParameter id _ _ => id_ok C CANTP_READPARAMETER id
  | Call_RxIndication id Info => id_ok C CANTP_RXINDICATION id ∧ ∀ I, Info = Some I → rx_info_ok I
  | Call_TxConfirmation id => id_ok C CANTP_TXCONFIRMATION id
  | Call_TriggerTransmit id Info => id_ok C CANTP_TRIGGERTRANSMIT id ∧
      ∀ I b, Info = Some I → SduDataPtr I = Some b → 8 ≤ SduLength I ≤ lenZ b
  end.

(** Before initialisation only builds that detect it may be called. *)
Definition call_ok w (k : call) : Prop :=
  args_ok k ∧
  (CanTp_MainState (tp w) = false → CANTP_DEV_ERROR_DETECT = true ∨ ∃ p, k = Call_Init p).

Lemma drop_value {A} (m : M W A) (P : W → Prop) w :
  wp m (λ _, P) w → wp (_ ← m; mret tt) (λ _, P) w.
Proof. intros Hm. wp_step. eapply wp_mono; [done|]. intros. by wp_step. Qed.

Lemma safe_run_on w k : config_wf C → args_ok k → Inv C w → wp (run k) (λ _, Safe) w.
Proof using HOk HEok.
  intros Hwf Hk HI. destruct k; cbn [run args_ok] in *; try apply drop_value.
  1: by apply safe_Init; [..|left].
  1: by eapply wp_mono; [by apply safe_Shutdown|]; right.
  all: eapply wp_mono; [|intros ? ?; exact (@or_introl _ _)].
  - by apply safe_MainFunction.
  - by apply safe_Transmit; try apply Hk.
  - by apply safe_CancelTransmit.
  - by apply safe_CancelReceive.
  - by apply safe_ChangeParameter.
  - by apply safe_ReadParameter.
  - by apply safe_RxIndication; try apply Hk.
  - by apply safe_TxConfirmation.
  - by apply safe_TriggerTransmit; try apply Hk.
Qed.

Lemma safe_run_off w k :
  config_wf C → Off w → args_ok k → (CANTP_DEV_ERROR_DETECT = true ∨ ∃ p, k = Call_Init p) →
  wp (run k) (λ _, Safe) w.
Proof using HOk.
  intros Hwf HO Hk [Hdet|[p ->]]; [|by apply safe_Init; [..|right]].
  destruct k; cbn [run args_ok] in *; try (by apply safe_Init; [..|right]); try apply drop_value.
  all: eapply wp_mono; [|intros ? ?; exact (@or_intror _ _)].
  3-10: by apply Off_dev_checked.
  - unfold CanTp_Shutdown. wp_step. wp_step. rewrite Hdet, (proj1 HO). cbn. by eapply Off_report; [reflexivity|].
  - unfold CanTp_MainFunction. wp_step. wp_step. rewrite Hdet, (proj1 HO). cbn. by eapply Off_report; [reflexivity|].
Qed.

Lemma safe_run w k : config_wf C → Safe w → call_ok w k → wp (run k) (λ _, Safe) w.
Proof using HOk HEok.
  intros Hwf [HI|HO] [Hk Hon]; [by apply safe_run_on | apply safe_run_off; try done; apply Hon, HO].
Qed.

(** ** Reachable states *)

Inductive reachable : W → Prop :=
| reach_start w : CanTp_MainState (tp w) = false → Mem w → reachable w
| reach_call w k w' : reachable w → call_ok w k → run k w = Some (tt, w') → reachable w'.

Lemma reachable_Safe w : config_wf C → reachable w → Safe w.
Proof using HOk HEok.
  intros Hwf. induction 1 as [w Hon HM|w k w' Hr IH Hk Hrun]; [by right; split|].
  pose proof (safe_run w k Hwf IH Hk) as Hw. by rewrite (wp_eq _ _ _ _ _ Hrun) in Hw.
Qed.
End reach.

(** * CanTp: a concrete configuration *)

Definition ex_tx : CanTp_TxSduType := mkTxSdu 8 CANTP_PADDINGON 0 CANTP_STANDARD 0 0 0 100 200.
Definition ex_rx : CanTp_RxSduType := mkRxSdu CANTP_PADDINGON 0 CANTP_STANDARD 0 0 1 1 101 201.

(** Rx N-PDU 0 carries the data frames of the reception, 1 the flow control of the transmission. *)
Definition ex_config : CanTp_ConfigType :=
  mkConfig 4096 0 2 2 2 1 1 [] [mkRxPdu 0 1 None; mkRxPdu 1 0 None] [ex_tx] [ex_rx]
    [mkTimeOut 100 100 100] [mkParam (0, 0) 3].

#[export] Instance ex_cfg : CanTp_Cfg := {|
  CANTP_DEV_ERROR_DETECT := true;
  CANTP_CANFD_SUPPORT := false;
  CANTP_TX_BURST_MODE := false;
  CANTP_SCHM_SUPPORT := false;
  CANTP_CHANGE_PARAMETER_API := true;
  CANTP_TRIGGER_TRANSMIT_API := false;
  CANTP_FC_DISABLE_SUPPORT := false;
  CANTP_DYNAMIC_FC_SUPPORT := true;
  CANTP_STRICT_BSCRTIMEOUT_CHECK := true;
  CANTP_PAGE_CONFIRMATION := false;
  CANTP_LEGACY_SHARED_FC_SUPPORT := false;
  CANTP_FD_CALLOUT_SUPPORT := false;
  CANTP_VARIANT := CANTP_PRE_COMPILE;
  CanTp_Config := ex_config;
  CanTp_CfgPtrs := [4096];
  CANTP_MAX_CHANNEL_SIZE := 2;
  CANTP_MAX_NPDU_LENGTH := 8;
  CANTP_BURST_QUEUE_SIZE := 4;
  CANTP_PADDING_BYTE := 0xAA;
  CANTP_INVALID_STMIN_TICKS := 0xFFFFFFFF;
  CANTP_DEFAULT_STMIN_TICKS := 0;
  PduLengthBits := 16;
  TickBits := 32;
  CanTp_Cfg_DlcCheck := λ len dl, if dl <=? len then E_OK else E_NOT_OK;
  CanTp_Cfg_GetUsToTicks := λ us, us / 1000;
  SduBuffer_garbage := replicate 8 0xEE
|}.

(** The upper layer and the bus. *)
Record Upper := mkUpper { tx_pending : list Z; rx_got : list Z; rx_space : Z; bus : list (Z * list Z) }.

#[export] Instance ex_env : CanTp_Env Upper := {|
  PduR_CanTpCopyTxData := λ id len u,
    if len <=? lenZ (tx_pending u) then
      let n := Z.to_nat len in
      (BUFREQ_OK, take n (tx_pending u), lenZ (drop n (tx_pending u)),
       mkUpper (drop n (tx_pending u)) (rx_got u) (rx_space u) (bus u))
    else (BUFREQ_E_NOT_OK, [], 0, u);
  PduR_CanTpStartOfReception := λ id data len u,
    (BUFREQ_OK, 4096, mkUpper (tx_pending u) [] 4096 (bus u));
  PduR_CanTpCopyRxData := λ id data u,
    (BUFREQ_OK, rx_space u - lenZ data,
     mkUpper (tx_pending u) (rx_got u ++ data) (rx_space u - lenZ data) (bus u));
  PduR_CanTpTxConfirmation := λ id r u, u;
  PduR_CanTpRxIndication := λ id r u, u;
  CanIf_Transmit := λ id data len u,
    (E_OK, mkUpper (tx_pending u) (rx_got u) (rx_space u) (bus u ++ [(id, default [] data)]));
  CanTp_FdCallOut := λ id info fd u, (E_OK, u)
|}.

#[export] Instance ex_cfg_ok : CanTp_CfgOk.
Proof.
  split; cbn; try lia; try reflexivity. intros len dl. destruct (Z.leb_spec dl len); [done | discriminate].
Qed.

#[export] Instance ex_env_ok : CanTp_EnvOk Upper.
Proof.
  split; cbn. intros id len u res data rem u'.
  destruct (Z.leb_spec len (lenZ (tx_pending u))); intros [= <- <- <- <-] Hlen; [|done].
  unfold lenZ in *. rewrite length_take. lia.
Qed.

(** Static memory of the build. *)
Definition ex_static (u : Upper) : World Upper :=
  mkWorld (mkVars false None (replicate 2 (mkChannel 0 0 0 0 0 0 0 0 0 0 0 0 0)) (replicate 2 0)
             (replicate 2 0) (mkQ 0 0 (replicate 4 0)) [(0, 0)] 0) u [].

Lemma ex_config_wf : config_wf ex_config.
Proof.
  assert (∀ {A} (P : A → Prop) l, Forall P l → ∀ i x, aget l i = Some x → P x) as HF
    by (intros; by eapply Forall_aget).
  split; cbn; try lia; try done.
  - apply HF. constructor; [|constructor]. split; unfold lenZ; cbn; try done; try lia. split; [by left | done].
  - apply HF. constructor; [|constructor]. split; unfold lenZ; cbn; try done; lia.
  - apply HF. constructor; [|constructor]. split; cbn; done.
  - apply HF. repeat (constructor; [split_and!; cbn; done|]). constructor.
  - apply (HF _ (λ e, 0 ≤ sf_TxSduId e < 1)). constructor.
Qed.

(** * CanTp: the properties of the module as a whole *)

Lemma ex_static_Mem u : Mem ex_config (ex_static u).
Proof.
  assert (∀ {A} (P : A → Prop) l, Forall P l → ∀ i x, aget l i = Some x → P x) as HF
    by (intros; by eapply Forall_aget).
  split; cbn; try done.
  - intros c s _. revert c s. apply HF. repeat constructor.
  - split; [done|]. apply HF. repeat constructor; done.
  - split; [done|]. apply HF. repeat constructor; done.
  - split; [done|]. apply HF. repeat constructor; done.
  - intros c ch Hch. split.
    + revert c ch Hch. apply HF. repeat constructor; cbn; done.
    + done.
Qed.

(** C1. In every state CanTp can reach from static memory by any sequence of
    calls of its services, the module invariant holds, and every further
    admissible call has a defined result - no array index is out of bounds, no
    NULL pointer is dereferenced, nothing is divided by zero - and leads to such a
    state again. *)
Theorem CanTp_reachable_safe `{HCfg : CanTp_Cfg} {HOk : CanTp_CfgOk} {U : Type}
    `{HEnv : CanTp_Env U} {HEok : CanTp_EnvOk U} (C : CanTp_ConfigType) (w : World U) (k : call) :
  config_wf C → reachable C w → call_ok C w k →
  Safe C w ∧ ∃ w', run k w = Some (tt, w') ∧ Safe C w'.
Proof.
  intros Hwf Hr Hk. pose proof (reachable_Safe C w Hwf Hr) as HS. split; [done|].
  destruct (wp_run _ _ _ (safe_run C w k Hwf HS Hk)) as ([] & w' & Hrun & HS'). eauto.
Qed.

(** A transmission is requested, a frame is received, then the main function runs. *)
Lemma CanTp_reachable_safe_witness :
  ∃ w : World Upper, Safe ex_config w ∧ ∃ w', run Call_MainFunction w = Some (tt, w') ∧ Safe ex_config w'.
Proof.
  assert (∀ api i, 0 ≤ i → id_ok ex_config api i) as Hid by (intros; split; [done | discriminate]).
  eexists. apply (CanTp_reachable_safe ex_config _ Call_MainFunction).
  - exact ex_config_wf.
  - eapply (reach_call _ _ (Call_RxIndication 0 (Some (mkPduInfo (Some [0x02; 7; 8; 0; 0; 0; 0; 0]) 8)))).
    + eapply (reach_call _ _ (Call_Transmit 0 (Some 20))).
      * eapply (reach_call _ _ (Call_Init None)).
        -- apply (reach_start _ (ex_static (mkUpper (seqZ 1 20) [] 100 []))); [done | apply ex_static_Mem].
        -- split; [done | by left].
        -- vm_compute. reflexivity.
      * split; [|by left]. split; [by apply Hid|]. intros n [= <-]. done.
      * vm_compute. reflexivity.
    + split; [|by left]. split; [by apply Hid|]. intros I [= <-]. split; [done|].
      intros d [= <-]. split_and!; try done. intros i b. eapply Forall_aget. repeat constructor; done.
    + vm_compute. reflexivity.
  - split; [done | by left].
Defined.
