(* ===== verification/CanTpSeg.v ===== *)
(** * CanTp: the segmentation of a message (ISO 15765-2)

    The specification of what goes over the bus: the frames of a message on a
    connection, independent of how CanTp builds them; and the arithmetic of the
    frame buffer that connects the two. *)

From S2P Require Import Prelude ComStack CanTpTypes CanTpPrv CanTpFrames CanTpInv.
From stdpp Require Import base list numbers option.

#[local] Open Scope Z_scope.

(** ** Frames *)

Section spec.
Context `{CanTp_Cfg}.

(** The address byte of an extended or mixed connection. *)
Definition addr_bytes (FormatId Address : Z) : list Z := if FormatId =? CANTP_STANDARD then [] else [Address].

Definition sf_bytes (PciId len : Z) : list Z := if PciId =? CANTP_NPCI_SFCAN then [len] else [0; len].
Definition ff_bytes (PciId len : Z) : list Z :=
  if PciId =? CANTP_NPCI_FFCAN then [16 + len / 256; len mod 256]
  else [16; 0; len / 16777216; (len / 65536) mod 256; (len / 256) mod 256; len mod 256].

(** The padding that fills a frame of [n] bytes up to the next CAN data length. *)
Definition padding (on : bool) (n : Z) : list Z :=
  if on then replicate (Z.to_nat (default n (CanTp_Prv_GetCanDl n) - n)) (u8 CANTP_PADDING_BYTE) else [].

Definition tx_header (t : CanTp_TxSduType) (pci : list Z) : list Z :=
  addr_bytes (tx_AddressFormatId t) (tx_Address t) ++ pci.
Definition padded (t : CanTp_TxSduType) (bytes : list Z) : list Z :=
  bytes ++ padding (CanTp_Prv_GetBit (tx_BitFields t) CANTP_PADDINGON) (lenZ bytes).

Definition sf_frame (t : CanTp_TxSduType) (PciId : Z) (sdu : list Z) : list Z :=
  padded t (tx_header t (sf_bytes PciId (lenZ sdu)) ++ sdu).
(** The payload of a first frame fills it. *)
Definition ff_payload (t : CanTp_TxSduType) (PciId : Z) : Z :=
  CanTp_Prv_GetTxDl t - asize (tx_AddressFormatId t) - (if PciId =? CANTP_NPCI_FFCAN then 2 else 6).
Definition ff_frame (t : CanTp_TxSduType) (PciId : Z) (sdu : list Z) : list Z :=
  tx_header t (ff_bytes PciId (lenZ sdu)) ++ take (Z.to_nat (ff_payload t PciId)) sdu.
Definition cf_payload (t : CanTp_TxSduType) : Z := CanTp_Prv_GetTxDl t - asize (tx_AddressFormatId t) - 1.
Definition cf_frame (t : CanTp_TxSduType) (sn : Z) (chunk : list Z) : list Z :=
  padded t (tx_header t [32 + sn] ++ chunk).

(** The consecutive frames of [n] payloads' worth of data, numbered from [sn]. *)
Fixpoint cf_frames (n : nat) (t : CanTp_TxSduType) (sn : Z) (data : list Z) : list (list Z) :=
  match n with
  | O => []
  | S n =>
      cf_frame t sn (take (Z.to_nat (cf_payload t)) data) ::
      cf_frames n t ((sn + 1) mod 16) (drop (Z.to_nat (cf_payload t)) data)
  end.

(** The frames of a message: a single frame, or a first frame and the consecutive
    frames of what it leaves over. *)
Definition segment (t : CanTp_TxSduType) (PciId : Z) (sdu : list Z) : list (list Z) :=
  if PciId <=? CANTP_NPCI_SFCANFD then [sf_frame t PciId sdu]
  else
    let rest := drop (Z.to_nat (ff_payload t PciId)) sdu in
    ff_frame t PciId sdu :: cf_frames (Z.to_nat (ceil_div (lenZ rest) (cf_payload t))) t 1 rest.
End spec.

(** ** Writing into the frame buffer *)

Lemma lenZ_take {A} (l : list A) n : 0 ≤ n ≤ lenZ l → lenZ (take (Z.to_nat n) l) = n.
Proof. unfold lenZ. rewrite length_take. lia. Qed.
Lemma lenZ_drop {A} (l : list A) n : 0 ≤ n ≤ lenZ l → lenZ (drop (Z.to_nat n) l) = lenZ l - n.
Proof. unfold lenZ. rewrite length_drop. lia. Qed.
(** A buffer seen as the header, the payload and the rest. *)
Lemma split3 {A} (l : list A) a b :
  0 ≤ a → 0 ≤ b → a + b ≤ lenZ l →
  ∃ x y z, l = x ++ y ++ z ∧ lenZ x = a ∧ lenZ y = b.
Proof.
  intros Ha Hb Hl. exists (take (Z.to_nat a) l), (take (Z.to_nat b) (drop (Z.to_nat a) l)),
    (drop (Z.to_nat b) (drop (Z.to_nat a) l)). rewrite !take_drop.
  split; [done|]. split; [apply lenZ_take; lia|]. apply lenZ_take. rewrite lenZ_drop; lia.
Qed.

Lemma aset_cons_0 {A} (a v : A) l : aset (a :: l) 0 v = Some (v :: l).
Proof. rewrite aset_is_Some; [done|]. rewrite lenZ_cons. pose proof (lenZ_nonneg l). lia. Qed.
Lemma aset_cons_S {A} (a v : A) l i : 0 ≤ i → aset (a :: l) (i + 1) v = (a ::.) <$> aset l i v.
Proof.
  intros Hi. unfold aset. cbn [length].
  destruct (decide (0 ≤ i < Z.of_nat (length l))); [rewrite decide_True by lia|by rewrite decide_False by lia].
  cbn. by replace (Z.to_nat (i + 1)) with (S (Z.to_nat i)) by lia.
Qed.

(** Lists of a known small length, and stores into their first cells. *)
Lemma len_S {A} (l : list A) n : 0 < n → lenZ l = n → ∃ a l', l = a :: l' ∧ lenZ l' = n - 1.
Proof.
  intros Hn Hl. destruct l as [|a l]; rewrite ?lenZ_cons, ?lenZ_nil in Hl; [lia|]. exists a, l. split; [done|lia].
Qed.
Lemma len_0 {A} (l : list A) n : n = 0 → lenZ l = n → l = [].
Proof. intros -> Hl. destruct l as [|a l]; [done|]. rewrite lenZ_cons in Hl. pose proof (lenZ_nonneg l). lia. Qed.

Ltac explode x :=
  lazymatch goal with
  | H : lenZ x = ?n |- _ =>
      first
      [ let E := fresh in assert (x = []) as E by (apply (len_0 x n); [lia | exact H]); subst x
      | let a := fresh "b" in let l := fresh "l" in let E := fresh in let Hl := fresh in
        destruct (len_S x n ltac:(lia) H) as (a & l & E & Hl); clear H; subst x; explode l ]
  end.
Ltac aset_eval :=
  repeat (rewrite aset_is_Some by (rewrite ?lenZ_insert, ?lenZ_cons; match goal with |- context [lenZ ?l] => pose proof (lenZ_nonneg l) end; lia);
          cbn).

Section header.
Context `{HCfg : CanTp_Cfg} {HOk : CanTp_CfgOk}.

Lemma addr_len f a : lenZ (addr_bytes f a) = asize f.
Proof. unfold addr_bytes, asize, CANTP_STANDARD. by destruct (f =? 0). Qed.

(** Storing the address, then the PCI, replaces the first bytes of the buffer. *)
Lemma put_sf f a PciId n x R :
  lenZ x = asize f + (if PciId =? CANTP_NPCI_SFCAN then 1 else 2) → 0 ≤ n < 256 → 0 ≤ PciId ≤ 1 →
  (PciId = 1 → CANTP_CANFD_SUPPORT = true) →
  ('(b, p) ← put_address (x ++ R) f a; sf_pci PciId n b p) = Some ((addr_bytes f a ++ sf_bytes PciId n) ++ R).
Proof.
  intros Hx Hn Hp Hfd. unfold put_address, addr_bytes, sf_pci, sf_bytes, asize, CANTP_STANDARD in *. rewrite u8_small by lia.
  assert (PciId = 0 ∨ PciId = 1) as [-> | ->] by lia; [cbn in *|rewrite (Hfd eq_refl); cbn in *];
    destruct (f =? 0); cbn in *; explode x; cbn; aset_eval; done.
Qed.

(** A length as the four bytes of an extended first frame. *)
Lemma ff_len_bytes n :
  0 ≤ n < 4294967296 →
  u8 (Z.shiftr n 24) = n / 16777216 ∧ u8 (Z.shiftr n 16) = (n / 65536) mod 256 ∧
  u8 (Z.shiftr n 8) = (n / 256) mod 256 ∧ u8 n = n mod 256.
Proof.
  intros Hn. rewrite !Z.shiftr_div_pow2 by lia. unfold u8. split_and!; try done.
  apply Z.mod_small. split; [apply Z.div_pos; lia|]. apply Z.div_lt_upper_bound; lia.
Qed.

Lemma put_ff f a PciId n x R :
  lenZ x = asize f + (if PciId =? CANTP_NPCI_FFCAN then 2 else 6) → 0 ≤ n < 4294967296 → 2 ≤ PciId ≤ 3 →
  (PciId = 2 → n ≤ 4095) → (PciId = 3 → CANTP_CANFD_SUPPORT = true) →
  ('(b, p) ← put_address (x ++ R) f a; ff_pci PciId n b p) = Some ((addr_bytes f a ++ ff_bytes PciId n) ++ R).
Proof.
  intros Hx Hn Hp Hlim Hfd. destruct (ff_len_bytes n Hn) as (E3 & E2 & E1 & E0).
  unfold put_address, addr_bytes, ff_pci, ff_bytes, asize, CANTP_STANDARD in *.
  assert (PciId = 2 ∨ PciId = 3) as [-> | ->] by lia; cbn in *.
  - rewrite E0, E1. specialize (Hlim eq_refl).
    assert ((n / 256) mod 256 = n / 256) as -> by (apply Z.mod_small; split; [apply Z.div_pos; lia|]; apply Z.div_lt_upper_bound; lia).
    rewrite u8_small by (split; [pose proof (Z.div_pos n 256); lia|]; assert (n / 256 < 16) by (apply Z.div_lt_upper_bound; lia); lia).
    destruct (f =? 0); cbn in *; explode x; cbn; aset_eval; done.
  - rewrite (Hfd eq_refl). rewrite E0, E1, E2, E3. cbn. destruct (f =? 0); cbn in *; explode x; cbn; aset_eval; done.
Qed.

Lemma lor_32 sn : 0 ≤ sn ≤ 15 → Z.lor CANTP_CF_HIGHNIBBLE sn = 32 + sn.
Proof.
  intros Hsn. assert (Forall (λ s, Z.lor CANTP_CF_HIGHNIBBLE s = 32 + s) (seqZ 0 16)) as HF
    by (vm_compute; repeat constructor).
  rewrite Forall_forall in HF. apply HF, list_elem_of_In, elem_of_seqZ. lia.
Qed.

Lemma put_cf f a sn x R :
  lenZ x = asize f + 1 → 0 ≤ sn ≤ 15 →
  ('(b, p) ← put_address (x ++ R) f a; aset b p (Z.lor CANTP_CF_HIGHNIBBLE sn)) = Some ((addr_bytes f a ++ [32 + sn]) ++ R).
Proof.
  intros Hx Hsn. rewrite lor_32 by lia.
  unfold put_address, addr_bytes, asize, CANTP_STANDARD in *.
  destruct (f =? 0); cbn in *; explode x; cbn; aset_eval; done.
Qed.

(** Padding a buffer that holds [l] followed by [z]. *)
Lemma pad_spec on l z off len dl :
  off + len = lenZ l → 0 ≤ off → 0 ≤ len → lenZ l ≤ dl → dl_valid dl → dl ≤ lenZ l + lenZ z →
  (CANTP_CANFD_SUPPORT = false → dl = 8) →
  ∃ z', pad_frame on (l ++ z) off len = Some ((l ++ padding on (lenZ l)) ++ z', lenZ (l ++ padding on (lenZ l))) ∧
        lenZ (l ++ padding on (lenZ l)) ≤ dl.
Proof using HOk.
  intros Hl Ho Hn Hle Hdl Hz Hfd. unfold pad_frame, padding. rewrite Hl. pose proof (dl_valid_bound _ Hdl).
  rewrite u8_small by lia. destruct on; [|rewrite app_nil_r; by exists z].
  destruct (GetCanDl_spec (lenZ l)) as (d & Ed & Hd1 & Hd2 & Hd3); [lia | intros E; specialize (Hfd E); lia |].
  rewrite Ed. cbn. specialize (Hd3 dl Hdl Hle).
  destruct (split3 z 0 (d - lenZ l)) as (x & y & z' & -> & Hx & Hy); [lia..|].
  apply (len_0 x 0 eq_refl) in Hx. subst x. cbn.
  exists z'. unfold CanTp_Prv_ArrayInit. rewrite u32_small by lia.
  rewrite ArrayInit_loop_spec by (rewrite ?lenZ_app; pose proof (lenZ_nonneg z'); lia).
  rewrite (awrite_mid l y z') by (try done; rewrite lenZ_replicate; lia). cbn.
  rewrite app_assoc. rewrite lenZ_app, lenZ_replicate by lia.
  replace (lenZ l + (d - lenZ l)) with d by lia. split; [done | lia].
Qed.

(** The first bytes of a buffer. *)
Lemma take_lenZ {A} (l z : list A) : take (Z.to_nat (lenZ l)) (l ++ z) = l.
Proof. unfold lenZ. by rewrite Nat2Z.id, take_app_length. Qed.

(** A frame that fills its data length needs no padding. *)
Lemma padding_full on dl : dl_valid dl → (CANTP_CANFD_SUPPORT = false → dl = 8) → padding on dl = [].
Proof using HOk.
  intros Hdl Hfd. unfold padding. destruct on; [|done]. pose proof (dl_valid_bound _ Hdl).
  destruct (GetCanDl_spec dl) as (d & -> & Hd1 & Hd2 & Hd3); [lia | intros E; rewrite (Hfd E); lia |].
  specialize (Hd3 dl Hdl ltac:(lia)). cbn. replace (d - dl) with 0 by lia. done.
Qed.
End header.
