(* ===== verification/CanTpSender.v ===== *)
(** * CanTp: the abstract sender

    What the transmit half of a CanTp channel promises to the layers above and
    below: an executable state machine over the message itself, with the frames it
    puts on the bus and the confirmations it gives.  [CanTpTxSim] shows that the
    module implements it.

    Whatever its neighbours do, the sender puts a prefix of the segmentation of the
    message on the bus and confirms exactly once, positively only after the last
    frame; and it finishes when the receiver and the bus cooperate. *)

From S2P Require Import Prelude ComStack CanTpTypes CanTpPrv CanTpInv CanTpSeg.
From stdpp Require Import base list numbers option.

#[local] Open Scope Z_scope.

(** ** What the neighbours see *)

Inductive out :=
| OFrame (pdu : Z) (bytes : list Z)
| OConfirm (handle : Z) (result : Std_ReturnType)
| OIndicate (handle : Z) (result : Std_ReturnType)
| OStart (handle len : Z)
| OData (handle : Z) (bytes : list Z).

Definition out_of (e : CanTp_Event) : option out :=
  match e with
  | EvCanIfTransmit id (Some d) _ E_OK => Some (OFrame id d)
  | EvTxConfirmation id r => Some (OConfirm id r)
  | EvRxIndication id r => Some (OIndicate id r)
  | EvStartOfReception id _ len BUFREQ_OK => Some (OStart id len)
  | EvCopyRxData id (b :: data) BUFREQ_OK => Some (OData id (b :: data))
  | _ => None
  end.
Definition outs (tr : list CanTp_Event) : list out := omap out_of tr.

Lemma outs_app l1 l2 : outs (l1 ++ l2) = outs l1 ++ outs l2.
Proof. unfold outs. by rewrite omap_app. Qed.

(** ** The sender *)

(** Where a segmented transfer stands: the bytes not yet sent, the next sequence number,
    the frames left in the block, the block size and the separation time granted. *)
Record TxPos := mkPos { px_rest : list Z; px_sn : Z; px_blk : Z; px_bs : Z; px_stm : Z }.

(** [age]: the ticks since the running timer was started.  [first]: no separation time
    applies (the frame follows a flow control frame); [avail]: the data of the next frame
    is known to be available. *)
Inductive TxAbs :=
| TIdle
| TReq (pci : Z) (sdu : list Z) (age : Z)
| TWait (pci : Z) (x : TxPos) (age : Z)
| TFc (x : TxPos) (age : Z)
| TCf (first avail : bool) (x : TxPos) (age : Z).

Inductive TxEv := EMain | EConf | EFc (flow bs st : Z) | ECancel.

Section sender.
Context `{CanTp_Cfg} (t : CanTp_TxSduType) (o : CanTp_TimeOutType).
Abbreviation h := (tx_PduRPduHandleId t).
Abbreviation pdu := (tx_TxPduId t).

(** Consecutive frames needed for [data]. *)
Definition ncfs (data : list Z) : Z := ceil_div (lenZ data) (cf_payload t).
Definition fc_off : bool := CANTP_FC_DISABLE_SUPPORT && CanTp_Prv_GetBit (tx_BitFields t) CANTP_FC_DISABLED.
Definition tc_off : bool := CanTp_Prv_GetBit (tx_BitFields t) CANTP_TC_DISABLED.

Definition tx_fail : TxAbs * list out := (TIdle, [OConfirm h E_NOT_OK]).

(** The first frame of a message, and what is left after it. *)
Definition tx_first (pci : Z) (sdu : list Z) (stm : Z) : TxAbs * list out :=
  if pci <=? CANTP_NPCI_SFCANFD then
    (TWait pci (mkPos [] 1 0 0 stm) 0, [OFrame pdu (sf_frame t pci sdu)])
  else
    (TWait pci (mkPos (drop (Z.to_nat (ff_payload t pci)) sdu) 1 0 0 stm) 0, [OFrame pdu (ff_frame t pci sdu)]).

(** The next consecutive frame. *)
Definition tx_next (x : TxPos) : TxAbs * list out :=
  (TWait CANTP_NPCI_CF
     (mkPos (drop (Z.to_nat (cf_payload t)) (px_rest x)) (px_sn x) (px_blk x) (px_bs x) (px_stm x)) 0,
   [OFrame pdu (cf_frame t (px_sn x) (take (Z.to_nat (cf_payload t)) (px_rest x)))]).

(** A frame has been put on the bus. *)
Definition tx_advance (pci : Z) (x : TxPos) : TxPos :=
  if pci =? CANTP_NPCI_CF
  then mkPos (px_rest x) ((px_sn x + 1) mod 16) (px_blk x - 1) (px_bs x) (px_stm x) else x.
Definition tx_confirmed (pci : Z) (x : TxPos) : TxAbs * list out :=
  let x := tx_advance pci x in
  if lenZ (px_rest x) =? 0 then (TIdle, [OConfirm h E_OK])
  else if negb (px_blk x =? 0) then (TCf false false x 0, [])
  else if fc_off then
    (TCf true false (mkPos (px_rest x) (px_sn x) (ncfs (px_rest x)) (px_bs x) CANTP_DEFAULT_STMIN_TICKS) 0, [])
  else (TFc x 0, []).

(** A flow control frame arrives: clear to send, wait, or anything else. *)
Definition tx_granted (bs st : Z) (x : TxPos) : TxPos :=
  let '(bs', stm') := if CANTP_DYNAMIC_FC_SUPPORT || (px_stm x =? CANTP_INVALID_STMIN_TICKS)
                      then (bs, tick (CanTp_Cfg_GetUsToTicks (StminUs st))) else (px_bs x, px_stm x) in
  let n := ncfs (px_rest x) in
  mkPos (px_rest x) (px_sn x) (if (bs' =? 0) || (n <? bs') then n else bs') bs' stm'.
Definition tx_flow (flow bs st : Z) (x : TxPos) (age : Z) : TxAbs * list out :=
  if CANTP_STRICT_BSCRTIMEOUT_CHECK && (BsBrTicks o <? age) then tx_fail
  else if flow =? CANTP_FC_WAIT then (TFc x 0, [])
  else if flow =? CANTP_FC_CTS then (TCf true false (tx_granted bs st x) 0, [])
  else tx_fail.

(** The work of the main function on the channel, and the tick that follows it. *)
Definition tx_exec (a : TxAbs) : TxAbs * list out :=
  match a with
  | TIdle => (TIdle, [])
  | TReq pci sdu age => if age <? CsCrTicks o then tx_first pci sdu CANTP_INVALID_STMIN_TICKS else tx_fail
  | TWait pci x age => if AsArTicks o <? age then tx_fail else (a, [])
  | TFc x age => if BsBrTicks o <? age then tx_fail else (a, [])
  | TCf first avail x age =>
      if avail || (age <? CsCrTicks o) then
        if (px_stm x <=? age) || first then tx_next x else (TCf first true x age, [])
      else tx_fail
  end.
Definition tx_older (a : TxAbs) : TxAbs :=
  match a with
  | TIdle => TIdle
  | TReq pci sdu age => TReq pci sdu (tick (age + 1))
  | TWait pci x age => TWait pci x (tick (age + 1))
  | TFc x age => TFc x (tick (age + 1))
  | TCf first avail x age => TCf first avail x (tick (age + 1))
  end.

Definition tx_step (a : TxAbs) (e : TxEv) : TxAbs * list out :=
  match e, a with
  | EMain, _ => let '(a', l) := tx_exec a in (tx_older a', l)
  | EConf, TWait pci x _ => tx_confirmed pci x
  | EFc flow bs st, TFc x age => tx_flow flow bs st x age
  | ECancel, TIdle => (TIdle, [])
  | ECancel, _ => if tc_off then (a, []) else tx_fail
  | _, _ => (a, [])
  end.

Fixpoint tx_run (a : TxAbs) (evs : list TxEv) : TxAbs * list out :=
  match evs with
  | [] => (a, [])
  | e :: evs => let '(a, l) := tx_step a e in let '(a, l') := tx_run a evs in (a, l ++ l')
  end.
End sender.

(** * CanTp: what the sender promises *)

Section props.
Context `{CanTp_Cfg} (t : CanTp_TxSduType) (o : CanTp_TimeOutType).
Context (Hcp : 1 ≤ cf_payload t).
Abbreviation h := (tx_PduRPduHandleId t).
Abbreviation pdu := (tx_TxPduId t).

(** ** Counting the frames *)

Lemma ncfs_nil data : lenZ data = 0 → ncfs t data = 0.
Proof using Hcp. intros E. unfold ncfs, ceil_div. rewrite E. apply Z.div_small. lia. Qed.

Lemma ncfs_pos data : 0 < lenZ data → 0 < ncfs t data.
Proof using Hcp. intros. unfold ncfs, ceil_div. apply Z.div_str_pos. lia. Qed.

Lemma ncfs_drop data : 0 < lenZ data → ncfs t (drop (Z.to_nat (cf_payload t)) data) = ncfs t data - 1.
Proof using Hcp.
  intros Hd. destruct (Z.le_gt_cases (lenZ data) (cf_payload t)).
  - rewrite ncfs_nil by (unfold lenZ in *; rewrite length_drop; lia). unfold ncfs, ceil_div.
    cut ((lenZ data + cf_payload t - 1) / cf_payload t = 1); [lia|].
    symmetry. apply Z.div_unique with (lenZ data - 1); lia.
  - unfold ncfs, ceil_div. rewrite lenZ_drop by lia.
    replace (lenZ data - cf_payload t + cf_payload t - 1) with (lenZ data + cf_payload t - 1 + (-1) * cf_payload t) by lia.
    rewrite Z.div_add by lia. lia.
Qed.

(** The consecutive frames still to be sent. *)
Definition cfs_left (sn : Z) (data : list Z) : list (list Z) := cf_frames (Z.to_nat (ncfs t data)) t sn data.

Lemma cfs_left_nil sn data : lenZ data = 0 → cfs_left sn data = [].
Proof using Hcp. intros E. unfold cfs_left. by rewrite ncfs_nil. Qed.

Lemma cfs_left_cons sn data :
  0 < lenZ data →
  cfs_left sn data = cf_frame t sn (take (Z.to_nat (cf_payload t)) data) ::
                     cfs_left ((sn + 1) mod 16) (drop (Z.to_nat (cf_payload t)) data).
Proof using Hcp.
  intros Hd. unfold cfs_left. rewrite ncfs_drop by done. pose proof (ncfs_pos _ Hd).
  replace (Z.to_nat (ncfs t data)) with (S (Z.to_nat (ncfs t data - 1))) by lia. done.
Qed.

Definition tx_left (a : TxAbs) : list (list Z) :=
  match a with
  | TIdle => []
  | TReq pci sdu _ => segment t pci sdu
  | TWait pci x _ => cfs_left (px_sn (tx_advance pci x)) (px_rest x)
  | TFc x _ | TCf _ _ x _ => cfs_left (px_sn x) (px_rest x)
  end.

(** The states the sender reaches. *)
Definition tx_wf (a : TxAbs) : Prop :=
  match a with
  | TReq pci _ _ => 0 ≤ pci ≤ 3
  | TWait pci x _ => 0 ≤ pci ≤ 4
  | TFc x _ | TCf _ _ x _ => 0 < lenZ (px_rest x)
  | TIdle => True
  end.

(** ** Every step *)

Inductive tx_does (a a' : TxAbs) : list out → Prop :=
| does_nothing : tx_left a' = tx_left a → a' ≠ TIdle → tx_does a a' []
| does_frame f : tx_left a = f :: tx_left a' → a' ≠ TIdle → tx_does a a' [OFrame pdu f]
| does_finish : tx_left a = [] → a' = TIdle → tx_does a a' [OConfirm h E_OK]
| does_fail : a' = TIdle → tx_does a a' [OConfirm h E_NOT_OK].

Lemma confirmed_does pci x age :
  tx_does (TWait pci x age) (fst (tx_confirmed t pci x)) (snd (tx_confirmed t pci x)) ∧ tx_wf (fst (tx_confirmed t pci x)).
Proof using Hcp.
  unfold tx_confirmed. assert (px_rest (tx_advance pci x) = px_rest x) as Hr by (unfold tx_advance; by case_match).
  pose proof (lenZ_nonneg (px_rest x)). rewrite Hr. destruct (Z.eqb_spec (lenZ (px_rest x)) 0) as [E|E].
  - split; [|done]. apply does_finish; [|done]. by apply cfs_left_nil.
  - destruct (negb _); [|destruct fc_off]; cbn; rewrite ?Hr; (split; [|lia]); apply does_nothing; cbn; rewrite ?Hr; done.
Qed.

Lemma exec_does a : a ≠ TIdle → tx_wf a →
  tx_does a (fst (tx_exec t o a)) (snd (tx_exec t o a)) ∧ tx_wf (fst (tx_exec t o a)).
Proof using Hcp.
  destruct a as [|pci sdu age|pci x age|x age|first avail x age]; intros Hne Hwf; [done|..]; cbn [tx_exec] in *.
  - destruct (_ <? _); [|by split; [apply does_fail|]]. unfold tx_first. cbn in Hwf. unfold CANTP_NPCI_SFCANFD.
    destruct (Z.leb_spec pci 1); (split; [apply does_frame; [|done] | cbn; lia]); cbn; unfold segment, tx_advance, CANTP_NPCI_SFCANFD, CANTP_NPCI_CF.
    + rewrite (proj2 (Z.leb_le _ _)) by lia. by rewrite cfs_left_nil by done.
    + rewrite (proj2 (Z.leb_gt _ _)), (proj2 (Z.eqb_neq _ _)) by lia. done.
  - destruct (_ <? _); (split; [|done]); [by apply does_fail | by apply does_nothing].
  - destruct (_ <? _); (split; [|done]); [by apply does_fail | by apply does_nothing].
  - destruct (avail || _); [|by split; [apply does_fail|]].
    destruct (_ || first); (split; [|done]); [|by apply does_nothing].
    apply does_frame; [|done]. cbn. by apply cfs_left_cons.
Qed.

Lemma step_does a e : a ≠ TIdle → tx_wf a →
  tx_does a (fst (tx_step t o a e)) (snd (tx_step t o a e)) ∧ tx_wf (fst (tx_step t o a e)).
Proof using Hcp.
  intros Hne Hwf. assert (tx_does a a [] ∧ tx_wf a) as Hstay by (split; [by apply does_nothing | done]).
  destruct e as [| |flow bs st|]; cbn [tx_step].
  - pose proof (exec_does a Hne Hwf) as [Hd Hw]. destruct (tx_exec t o a) as [a' l]. cbn in *.
    split; [|by destruct a']. destruct Hd; subst; [apply does_nothing | apply does_frame | by apply does_finish | by apply does_fail];
      by destruct a'.
  - destruct a; try done. apply confirmed_does.
  - destruct a as [| | |x age|]; try done. unfold tx_flow.
    destruct (_ && _); [by split; [apply does_fail|]|]. destruct (_ =? _); [by split; [apply does_nothing|]|].
    destruct (_ =? _); [|by split; [apply does_fail|]].
    assert (px_rest (tx_granted t bs st x) = px_rest x ∧ px_sn (tx_granted t bs st x) = px_sn x) as [Hr Hs]
      by (unfold tx_granted; by case_match).
    cbn. rewrite Hr. split; [|done]. apply does_nothing; [|done]. cbn. by rewrite Hr, Hs.
  - destruct a; try done; destruct tc_off; try done; (split; [by apply does_fail | done]).
Qed.

(** ** Every run *)

Lemma idle_run evs : tx_run t o TIdle evs = (TIdle, []).
Proof. induction evs as [|e evs IH]; [done|]. cbn. destruct e; cbn; by rewrite IH. Qed.

(** The frames sent are the first ones of the segmentation, in order, each once; then there
    is at most one confirmation, and a positive one means that all of them were sent. *)
Lemma run_prefix a evs : a ≠ TIdle → tx_wf a →
  ∃ fs rest fin, snd (tx_run t o a evs) = map (OFrame pdu) fs ++ fin ∧ tx_left a = fs ++ rest ∧
    (fin = [] ∧ fst (tx_run t o a evs) ≠ TIdle ∧ rest = tx_left (fst (tx_run t o a evs)) ∨
     fst (tx_run t o a evs) = TIdle ∧ (fin = [OConfirm h E_OK] ∧ rest = [] ∨ fin = [OConfirm h E_NOT_OK])).
Proof using Hcp.
  revert a. induction evs as [|e evs IH]; intros a Hne Hwf; cbn [tx_run].
  { exists [], (tx_left a), []. split_and!; [done..|]. by left. }
  pose proof (step_does a e Hne Hwf) as [Hd Hw]. destruct (tx_step t o a e) as [a' l]. cbn in Hd, Hw.
  assert (a' = TIdle ∨ a' ≠ TIdle) as [->|Hne'] by (destruct a'; auto).
  - rewrite idle_run. cbn. rewrite app_nil_r. inversion Hd; subst; try done.
    + exists [], [], [OConfirm h E_OK]. naive_solver.
    + exists [], (tx_left a), [OConfirm h E_NOT_OK]. naive_solver.
  - destruct (IH a' Hne' Hw) as (fs & rest & fin & E1 & E2 & E3). destruct (tx_run t o a' evs) as [a'' l'].
    cbn in *. subst l'. inversion Hd as [Hl _|f Hl _|? ?|?]; subst; try done.
    + exists fs, rest, fin. rewrite <-Hl. done.
    + exists (f :: fs), rest, fin. split; [done|]. rewrite Hl, E2. done.
Qed.

(** ** Progress

    The bus confirms every frame, the receiver answers every request for a flow control
    frame with clear-to-send (block size [bs], separation time [st]), and the main function
    runs otherwise. *)
Section progress.
Context (bs st : Z) (Hbs : byte_ok bs).
Context (Htb : 0 ≤ TickBits) (Hcs : 0 < CsCrTicks o) (Hbr : 0 ≤ BsBrTicks o).

Definition coop_event (a : TxAbs) : TxEv :=
  match a with TWait _ _ _ => EConf | TFc _ _ => EFc CANTP_FC_CTS bs st | _ => EMain end.

Fixpoint coop_events (n : nat) (a : TxAbs) : list TxEv :=
  match n with O => [] | S n => coop_event a :: coop_events n (fst (tx_step t o a (coop_event a))) end.

(** The cooperative run from [a] ends in the idle state with outputs [l]. *)
Definition ends (a : TxAbs) (l : list out) : Prop := ∃ n, tx_run t o a (coop_events n a) = (TIdle, l).

Lemma ends_step a a' l l' : tx_step t o a (coop_event a) = (a', l) → ends a' l' → ends a (l ++ l').
Proof.
  intros E [n Hn]. exists (S n). cbn [coop_events tx_run]. rewrite E. cbn [fst]. by rewrite Hn.
Qed.
Lemma ends_idle : ends TIdle [].
Proof. by exists 0%nat. Qed.

Definition stm_ok (stm : Z) : Prop := 0 ≤ stm < 2 ^ TickBits.

Lemma tick_small z : 0 ≤ z < 2 ^ TickBits → tick z = z.
Proof. apply uw_small. Qed.

(** A frame that waits for its confirmation, at whatever age. *)
Definition ends_conf (pci : Z) (x : TxPos) (l : list out) : Prop := ∀ age, ends (TWait pci x age) l.

Lemma ends_confirmed pci x a l l' : tx_confirmed t pci x = (a, l) → ends a l' → ends_conf pci x (l ++ l').
Proof. intros E He age. by eapply ends_step. Qed.

(** The position after the next consecutive frame, which [tx_next] puts on the bus. *)
Definition px_next (x : TxPos) : TxPos :=
  mkPos (drop (Z.to_nat (cf_payload t)) (px_rest x)) (px_sn x) (px_blk x) (px_bs x) (px_stm x).
Definition px_frame (x : TxPos) : list Z := cf_frame t (px_sn x) (take (Z.to_nat (cf_payload t)) (px_rest x)).

(** Waiting for the separation time to elapse. *)
Lemma ends_wait x l n age :
  stm_ok (px_stm x) → 0 ≤ age → px_stm x = age + Z.of_nat n → ends_conf CANTP_NPCI_CF (px_next x) l →
  ends (TCf false true x age) (OFrame pdu (px_frame x) :: l).
Proof.
  intros Hs. revert age. induction n as [|n IH]; intros age Ha E Hl.
  - apply (ends_step _ (TWait CANTP_NPCI_CF (px_next x) (tick (0 + 1))) [OFrame pdu (px_frame x)]); [|apply Hl].
    cbn. by rewrite (proj2 (Z.leb_le _ _)) by lia.
  - apply (ends_step _ (TCf false true x (age + 1)) []); [|apply IH; [lia..|done]].
    cbn. rewrite (proj2 (Z.leb_gt _ _)) by lia. cbn. unfold stm_ok in Hs. by rewrite tick_small by lia.
Qed.

Lemma ends_send first x l :
  stm_ok (px_stm x) → ends_conf CANTP_NPCI_CF (px_next x) l → ends (TCf first false x 0) (OFrame pdu (px_frame x) :: l).
Proof using Hcs Htb.
  intros Hs Hl. assert ((0 <? CsCrTicks o) = true) as E by (by apply Z.ltb_lt).
  destruct ((px_stm x <=? 0) || first) eqn:Eg.
  - apply (ends_step _ (TWait CANTP_NPCI_CF (px_next x) (tick (0 + 1))) [OFrame pdu (px_frame x)]); [|apply Hl].
    cbn. by rewrite E, Eg.
  - apply orb_false_iff in Eg as Eg'. destruct Eg' as [?%Z.leb_gt ->]. unfold stm_ok in Hs.
    apply (ends_step _ (TCf false true x 1) []).
    + cbn. rewrite E, Eg. cbn. by rewrite tick_small by lia.
    + apply (ends_wait _ _ (Z.to_nat (px_stm x - 1))); try done; lia.
Qed.

(** The rest of a message, from any position. *)
Definition rest_outs (x : TxPos) : list out := map (OFrame pdu) (cfs_left (px_sn x) (px_rest x)) ++ [OConfirm h E_OK].

Context (Hdef : fc_off t = true → stm_ok CANTP_DEFAULT_STMIN_TICKS).

Lemma granted_stm x : px_stm x = CANTP_INVALID_STMIN_TICKS ∨ stm_ok (px_stm x) → stm_ok (px_stm (tx_granted t bs st x)).
Proof using Htb.
  intros Hx. unfold tx_granted. destruct (CANTP_DYNAMIC_FC_SUPPORT || _) eqn:E; cbn.
  - apply uw_bound. lia.
  - apply orb_false_iff in E as [_ E%Z.eqb_neq]. by destruct Hx.
Qed.

Lemma ends_flow x : px_stm x = CANTP_INVALID_STMIN_TICKS ∨ stm_ok (px_stm x) →
  (∀ y, px_rest y = px_rest x → px_sn y = px_sn x → stm_ok (px_stm y) → ends (TCf true false y 0) (rest_outs y)) →
  ends (TFc x 0) (rest_outs x).
Proof using Htb Hbr.
  intros Hs Hgo. set (y := tx_granted t bs st x).
  assert (px_rest y = px_rest x ∧ px_sn y = px_sn x) as [Hr Hn] by (unfold y, tx_granted; by case_match).
  replace (rest_outs x) with ([] ++ rest_outs y) by (unfold rest_outs; by rewrite Hr, Hn).
  apply (ends_step _ (TCf true false y 0) []); [|apply Hgo; [done..|by apply granted_stm]].
  cbn. unfold tx_flow. rewrite (proj2 (Z.ltb_ge _ _)) by lia. by rewrite andb_false_r.
Qed.

Lemma ends_cfs n first x :
  Z.to_nat (ncfs t (px_rest x)) = n → 0 < lenZ (px_rest x) → stm_ok (px_stm x) → ends (TCf first false x 0) (rest_outs x).
Proof using Hcp Htb Hcs Hbr Hdef.
  revert first x. induction n as [|n IH]; intros first x En Hne Hs.
  { pose proof (ncfs_pos _ Hne). lia. }
  unfold rest_outs. rewrite cfs_left_cons by done. cbn [map app]. apply ends_send; [done|].
  set (y := tx_advance CANTP_NPCI_CF (px_next x)).
  change (drop (Z.to_nat (cf_payload t)) (px_rest x)) with (px_rest y). change ((px_sn x + 1) mod 16) with (px_sn y).
  fold (rest_outs y). assert (ncfs t (px_rest y) = ncfs t (px_rest x) - 1) as Hn by (by apply ncfs_drop).
  pose proof (lenZ_nonneg (px_rest y)). pose proof (ncfs_pos _ Hne).
  assert (∀ z first, px_rest z = px_rest y → px_sn z = px_sn y → stm_ok (px_stm z) → lenZ (px_rest y) ≠ 0 →
    ends (TCf first false z 0) (rest_outs z)) as Hgo.
  { intros z f Hr Hsn Hz Hy. apply IH; rewrite ?Hr; [lia..|done]. }
  destruct (tx_confirmed t CANTP_NPCI_CF (px_next x)) as [a l] eqn:Ec. pose proof Ec as Ec'.
  unfold tx_confirmed in Ec. fold y in Ec.
  destruct (Z.eqb_spec (lenZ (px_rest y)) 0) as [E0|E0].
  - injection Ec as <- <-. unfold rest_outs. rewrite cfs_left_nil by done.
    by apply (ends_confirmed _ _ _ _ _ Ec' ends_idle).
  - destruct (negb _); [|destruct (fc_off t) eqn:Eoff]; injection Ec as <- <-; apply (ends_confirmed _ _ _ _ _ Ec').
    + by apply Hgo.
    + apply (Hgo (mkPos (px_rest y) (px_sn y) _ _ _)); try done. by apply Hdef.
    + apply ends_flow; [by right|]. intros z Hr Hz Hst. by apply Hgo.
Qed.

(** The whole message is sent and positively confirmed. *)
Lemma ends_req pci sdu : 0 ≤ pci ≤ 3 → ends (TReq pci sdu 0) (map (OFrame pdu) (segment t pci sdu) ++ [OConfirm h E_OK]).
Proof using Hcp Htb Hcs Hbr Hdef.
  intros Hp. assert ((0 <? CsCrTicks o) = true) as E by (by apply Z.ltb_lt). unfold segment.
  destruct (Z.leb_spec pci CANTP_NPCI_SFCANFD) as [Hle|Hgt].
  - cbn [map app]. set (x := mkPos [] 1 0 0 CANTP_INVALID_STMIN_TICKS).
    apply (ends_step _ (TWait pci x (tick (0 + 1))) [OFrame pdu (sf_frame t pci sdu)]).
    + cbn. rewrite E. unfold tx_first. by rewrite (proj2 (Z.leb_le _ _)) by done.
    + apply (ends_confirmed _ _ TIdle [OConfirm h E_OK] []); [|apply ends_idle].
      unfold tx_confirmed. by replace (px_rest (tx_advance pci x)) with (@nil Z) by (unfold tx_advance; by case_match).
  - cbn [map app]. set (rest := drop (Z.to_nat (ff_payload t pci)) sdu). fold (ncfs t rest). fold (cfs_left 1 rest).
    set (x := mkPos rest 1 0 0 CANTP_INVALID_STMIN_TICKS).
    apply (ends_step _ (TWait pci x (tick (0 + 1))) [OFrame pdu (ff_frame t pci sdu)]).
    { cbn. rewrite E. unfold tx_first. by rewrite (proj2 (Z.leb_gt _ _)) by done. }
    fold (rest_outs x). assert (tx_advance pci x = x) as Hadv.
    { unfold tx_advance, CANTP_NPCI_CF. by rewrite (proj2 (Z.eqb_neq pci 4)) by lia. }
    pose proof (lenZ_nonneg rest). destruct (Z.eqb_spec (lenZ rest) 0) as [E0|E0].
    + unfold rest_outs. cbn [px_rest px_sn x]. rewrite cfs_left_nil by done.
      apply (ends_confirmed _ _ TIdle [OConfirm h E_OK] []); [|apply ends_idle].
      unfold tx_confirmed. rewrite Hadv. cbn [px_rest x]. by rewrite E0.
    + assert (∀ y, px_rest y = rest → px_sn y = 1 → stm_ok (px_stm y) → ends (TCf true false y 0) (rest_outs y)) as Hgo.
      { intros y Hr _ Hs. eapply ends_cfs; rewrite ?Hr; [done | lia | done]. }
      assert (tx_confirmed t pci x = if fc_off t
         then (TCf true false (mkPos rest 1 (ncfs t rest) 0 CANTP_DEFAULT_STMIN_TICKS) 0, []) else (TFc x 0, [])) as Ec.
      { unfold tx_confirmed. rewrite Hadv. cbn [px_rest px_blk x]. by rewrite (proj2 (Z.eqb_neq _ _)) by done. }
      destruct (fc_off t) eqn:Eoff; apply (ends_confirmed _ _ _ _ _ Ec).
      * apply (Hgo (mkPos rest 1 (ncfs t rest) 0 CANTP_DEFAULT_STMIN_TICKS)); try done. by apply Hdef.
      * apply ends_flow; [by left|]. done.
Qed.
End progress.
End props.
