(* ===== verification/CanTpReceiver.v ===== *)
(** * CanTp: the abstract receiver

    What the receive half of a CanTp channel promises once a first frame has been
    accepted: an executable state machine with the flow control frames it sends, the
    data it passes up and the indication it ends with.  [CanTpRxRef] shows that the
    module implements it.

    Whatever arrives, the receiver passes data up in order, indicates exactly once,
    positively only for a complete message; and the frames of a segmented message
    reassemble to the message. *)

From S2P Require Import Prelude ComStack CanTpTypes CanTpPrv CanTpInv CanTpSeg CanTpSender.
From stdpp Require Import base list numbers option.

#[local] Open Scope Z_scope.

(** Where a reception stands: the bytes still missing, the expected sequence number, the
    frames left in the block, the data length of the frames. *)
Record RxPos := mkRx { ry_left : Z; ry_sn : Z; ry_blk : Z; ry_dl : Z }.

Inductive RxAbs :=
| RIdle
| RSendFc (y : RxPos) (age : Z)
| RFcConf (y : RxPos) (age : Z)
| RCf (y : RxPos) (age : Z).

(** The main function, the confirmation of a flow control frame, and a consecutive frame
    with sequence number [sn] and [body] behind the PCI. *)
Inductive RxEv := REMain | REConf | RECf (sn : Z) (body : list Z).

Definition rx_ev_ok (e : RxEv) : Prop := match e with RECf sn body => 0 ≤ sn ≤ 15 | _ => True end.

Section receiver.
Context `{CanTp_Cfg} (r : CanTp_RxSduType) (o : CanTp_TimeOutType) (stmin bsmax : Z).
Abbreviation h := (rx_PduRPduHandleId r).
Abbreviation asz := (asize (rx_AddressFormatId r)).
Abbreviation padding_on := (CanTp_Prv_GetBit (rx_BitFields r) CANTP_PADDINGON).

Definition rx_fc_off : bool := CANTP_FC_DISABLE_SUPPORT && CanTp_Prv_GetBit (rx_BitFields r) CANTP_FC_DISABLED.

(** The clear-to-send frame: the block size and separation time of the connection. *)
Definition cts_frame : list Z :=
  (addr_bytes (rx_AddressFormatId r) (rx_Address r) ++ [48; bsmax; stmin]) ++
  (if padding_on then replicate (Z.to_nat (5 - asz)) (u8 CANTP_PADDING_BYTE) else []).

(** The payload of a full consecutive frame, and the length the next one must have. *)
Definition cf_room (y : RxPos) : Z := ry_dl y - asz - 1.
Definition cf_expected (y : RxPos) : Z :=
  let n := if ry_left y <? cf_room y then ry_left y + asz + 1 else ry_dl y in
  if padding_on then default n (CanTp_Prv_GetCanDl n) else n.

Definition rx_fail : RxAbs * list out := (RIdle, [OIndicate h E_NOT_OK]).

(** A flow control frame is due: it grants a block, or the whole rest. *)
Definition rx_grant (y : RxPos) : RxPos :=
  let n := ceil_div (ry_left y) (cf_room y) in
  mkRx (ry_left y) (ry_sn y) (if rx_fc_off || (bsmax =? 0) then n else bsmax) (ry_dl y).
Definition rx_send_fc (y : RxPos) : RxAbs * list out :=
  if rx_fc_off then (RCf (rx_grant y) 0, [])
  else (RFcConf (rx_grant y) 0, [OFrame (rx_TxPduId r) cts_frame]).

(** A consecutive frame in the waiting state. *)
Definition rx_take (y : RxPos) (body : list Z) : RxAbs * list out :=
  let n := Z.min (cf_room y) (ry_left y) in
  let y' := mkRx (ry_left y - n) ((ry_sn y + 1) mod 16) (ry_blk y - 1) (ry_dl y) in
  let data := [OData h (take (Z.to_nat n) body)] in
  if ry_left y' =? 0 then (RIdle, data ++ [OIndicate h E_OK])
  else if ry_blk y' =? 0 then (RSendFc y' 0, data) else (RCf y' 0, data).
Definition rx_consecutive (y : RxPos) (age sn : Z) (body : list Z) : RxAbs * list out :=
  match CanTp_Cfg_DlcCheck (asz + 1 + lenZ body) (cf_expected y) with
  | E_NOT_OK => rx_fail
  | E_OK =>
      if CANTP_STRICT_BSCRTIMEOUT_CHECK && (CsCrTicks o <? age) then rx_fail
      else if sn =? ry_sn y then rx_take y body else rx_fail
  end.

Definition rx_exec (a : RxAbs) : RxAbs * list out :=
  match a with
  | RIdle => (RIdle, [])
  | RSendFc y _ => rx_send_fc y
  | RFcConf y age => if AsArTicks o <? age then rx_fail else (a, [])
  | RCf y age => if CsCrTicks o <? age then rx_fail else (a, [])
  end.
Definition rx_older (a : RxAbs) : RxAbs :=
  match a with
  | RIdle => RIdle
  | RSendFc y age => RSendFc y (tick (age + 1))
  | RFcConf y age => RFcConf y (tick (age + 1))
  | RCf y age => RCf y (tick (age + 1))
  end.

Definition rx_step (a : RxAbs) (e : RxEv) : RxAbs * list out :=
  match e, a with
  | REMain, _ => let '(a', l) := rx_exec a in (rx_older a', l)
  | REConf, RFcConf y _ => (RCf y 0, [])
  | RECf sn body, RCf y age => rx_consecutive y age sn body
  | _, _ => (a, [])
  end.

Fixpoint rx_run (a : RxAbs) (evs : list RxEv) : RxAbs * list out :=
  match evs with
  | [] => (a, [])
  | e :: evs => let '(a, l) := rx_step a e in let '(a, l') := rx_run a evs in (a, l ++ l')
  end.
End receiver.

(** * CanTp: what the receiver promises *)

(** The data passed up, in order. *)
Definition data_of (l : list out) : list Z :=
  concat (omap (λ x, match x with OData _ d => Some d | _ => None end) l).

Lemma data_of_app l l' : data_of (l ++ l') = data_of l ++ data_of l'.
Proof. unfold data_of. by rewrite omap_app, concat_app. Qed.

Section props.
Context `{CanTp_Cfg} {HOk : CanTp_CfgOk} (r : CanTp_RxSduType) (o : CanTp_TimeOutType) (stmin bsmax : Z).
Abbreviation h := (rx_PduRPduHandleId r).
Abbreviation asz := (asize (rx_AddressFormatId r)).
Abbreviation step := (rx_step r o stmin bsmax).
Abbreviation run := (rx_run r o stmin bsmax).

(** ** Every run *)

Definition rx_missing (a : RxAbs) : Z :=
  match a with RIdle => 0 | RSendFc y _ | RFcConf y _ | RCf y _ => ry_left y end.

(** The receiver is waiting for at least one byte in frames of a CAN data length. *)
Definition rx_pos_ok (y : RxPos) : Prop :=
  0 < ry_left y ∧ dl_valid (ry_dl y) ∧ (CANTP_CANFD_SUPPORT = false → ry_dl y = 8).
Definition rx_wf (a : RxAbs) : Prop :=
  match a with RIdle => True | RSendFc y _ | RFcConf y _ | RCf y _ => rx_pos_ok y end.

(** Output while the transfer is going on: data and clear-to-send frames. *)
Definition rx_going (x : out) : Prop := (∃ d, x = OData h d) ∨ x = OFrame (rx_TxPduId r) (cts_frame r stmin bsmax).

Inductive rx_does (a a' : RxAbs) : list out → Prop :=
| rdoes_go l : Forall rx_going l → a' ≠ RIdle → rx_missing a' = rx_missing a - lenZ (data_of l) → rx_does a a' l
| rdoes_done d : a' = RIdle → lenZ d = rx_missing a → rx_does a a' [OData h d; OIndicate h E_OK]
| rdoes_fail : a' = RIdle → rx_does a a' [OIndicate h E_NOT_OK].

Lemma data_one d : data_of [OData h d] = d.
Proof. apply app_nil_r. Qed.

Lemma expected_fits y : rx_pos_ok y →
  asz + 1 + Z.min (cf_room r y) (ry_left y) ≤ cf_expected r y ∧ 1 ≤ cf_room r y.
Proof.
  intros (Hl & Hd & Hc). pose proof (dl_valid_bound _ Hd). pose proof (asize_bound (rx_AddressFormatId r)).
  unfold cf_expected, cf_room. split; [|lia]. set (n := if _ <? _ then _ else _).
  assert (asz + 1 + Z.min (ry_dl y - asz - 1) (ry_left y) ≤ n ≤ ry_dl y)
    by (subst n; destruct (Z.ltb_spec (ry_left y) (ry_dl y - asz - 1)); lia).
  destruct (CanTp_Prv_GetBit _ _); [|lia].
  destruct (GetCanDl_spec n) as (d & -> & Hnd & _); [lia | intros E; specialize (Hc E); lia |]. cbn. lia.
Qed.

Lemma take_does y age body :
  rx_pos_ok y → cf_expected r y ≤ asz + 1 + lenZ body →
  rx_does (RCf y age) (fst (rx_take r y body)) (snd (rx_take r y body)) ∧ rx_wf (fst (rx_take r y body)).
Proof.
  intros Hy Hfit. destruct (expected_fits y Hy) as [Hexp Hroom]. destruct Hy as (Hl & Hd & Hc).
  unfold rx_take. set (n := Z.min _ _) in *. assert (lenZ (take (Z.to_nat n) body) = n) as Hn by (apply lenZ_take; lia).
  cbn [ry_left ry_blk]. destruct (Z.eqb_spec (ry_left y - n) 0).
  { split; [|done]. apply rdoes_done; [done|]. cbn. lia. }
  assert (∀ y', ry_left y' = ry_left y - n → ry_dl y' = ry_dl y → rx_pos_ok y') as Hok.
  { intros y' E1 E2. unfold rx_pos_ok. rewrite E1, E2. split_and!; [lia | done..]. }
  assert (Forall rx_going [OData h (take (Z.to_nat n) body)]) as Hgo by (constructor; [left; by eexists | constructor]).
  destruct (_ =? 0); cbn [fst snd]; (split; [apply rdoes_go; [done..|]; rewrite data_one; cbn [rx_missing ry_left]; lia | by apply Hok]).
Qed.

Lemma rx_exec_does a : a ≠ RIdle → rx_wf a →
  rx_does a (fst (rx_exec r o stmin bsmax a)) (snd (rx_exec r o stmin bsmax a)) ∧ rx_wf (fst (rx_exec r o stmin bsmax a)).
Proof.
  intros Hne Hwf. assert (rx_does a a []) as Hstay by (apply rdoes_go; [constructor | done | change (lenZ (data_of [])) with 0; lia]).
  destruct a as [|y age|y age|y age]; [done|..]; cbn [rx_exec].
  - unfold rx_send_fc. destruct (rx_fc_off r); (split; [|done]); apply rdoes_go; try done.
    + change (ry_left y = ry_left y - 0). lia.
    + constructor; [by right | constructor].
    + change (ry_left y = ry_left y - 0). lia.
  - destruct (_ <? _); (split; [|done]); [by apply rdoes_fail | done].
  - destruct (_ <? _); (split; [|done]); [by apply rdoes_fail | done].
Qed.

Lemma rx_step_does a e : a ≠ RIdle → rx_wf a → rx_does a (fst (step a e)) (snd (step a e)) ∧ rx_wf (fst (step a e)).
Proof using HOk.
  intros Hne Hwf. assert (rx_does a a [] ∧ rx_wf a) as Hstay.
  { split; [|done]. apply rdoes_go; [constructor | done |]. change (lenZ (data_of [])) with 0. lia. }
  destruct e as [| |sn body]; cbn [rx_step].
  - pose proof (rx_exec_does a Hne Hwf) as [Hd Hw]. destruct (rx_exec r o stmin bsmax a) as [a' l]. cbn in *.
    split; [|by destruct a']. destruct Hd; subst; [apply rdoes_go | by apply rdoes_done | by apply rdoes_fail]; by destruct a'.
  - destruct a as [| |y age|]; try done. split; [|done]. apply rdoes_go; [constructor | done |]. change (ry_left y = ry_left y - 0). lia.
  - destruct a as [| | |y age]; try done. unfold rx_consecutive.
    destruct (CanTp_Cfg_DlcCheck _ _) eqn:E; [|by split; [apply rdoes_fail|]].
    destruct (_ && _); [by split; [apply rdoes_fail|]|]. destruct (_ =? _); [|by split; [apply rdoes_fail|]].
    apply take_does; [done|]. by apply ok_dlc.
Qed.

Lemma rx_idle_run evs : run RIdle evs = (RIdle, []).
Proof. induction evs as [|e evs IH]; [done|]. cbn. destruct e; cbn; by rewrite IH. Qed.

(** Data and clear-to-send frames, then at most one indication; a positive one exactly when
    all the missing bytes have been passed up. *)
Lemma rx_run_shape a evs : a ≠ RIdle → rx_wf a →
  ∃ l fin, snd (run a evs) = l ++ fin ∧ Forall rx_going l ∧
    (fin = [] ∧ fst (run a evs) ≠ RIdle ∨
     fst (run a evs) = RIdle ∧ (fin = [OIndicate h E_OK] ∧ lenZ (data_of l) = rx_missing a ∨ fin = [OIndicate h E_NOT_OK])).
Proof using HOk.
  revert a. induction evs as [|e evs IH]; intros a Hne Hwf; cbn [rx_run].
  { exists [], []. split_and!; [done..|]. by left. }
  pose proof (rx_step_does a e Hne Hwf) as [Hd Hw]. destruct (step a e) as [a' l0]. cbn in Hd, Hw.
  assert (a' = RIdle ∨ a' ≠ RIdle) as [->|Hne'] by (destruct a'; auto).
  - rewrite rx_idle_run. cbn. rewrite app_nil_r. inversion Hd as [|d ? Hlen|]; subst; try done.
    + exists [OData h d], [OIndicate h E_OK]. split_and!; [done | constructor; [left; by eexists | constructor] |].
      right. split; [done|]. left. by rewrite data_one.
    + exists [], [OIndicate h E_NOT_OK]. split_and!; [done..|]. auto.
  - destruct (IH a' Hne' Hw) as (l & fin & E1 & Hl & E3). destruct (run a' evs) as [a'' l'].
    cbn in *. subst l'. inversion Hd as [? Hgo _ Hmiss| |]; subst; try done.
    exists (l0 ++ l), fin. rewrite <-app_assoc. split; [done|]. split; [by apply Forall_app|].
    destruct E3 as [?|[? [[-> Hlen]| ->]]]; [by left | right; split; [done|]; left; split; [done|] | by right; auto].
    rewrite data_of_app, lenZ_app. lia.
Qed.

(** ** Reassembly

    The peer sends on connection [t] with the address bytes [pre] this connection listens
    to, with the same padding; the configuration accepts a frame of exactly the expected
    length. *)
Section reassembly.
Context (t : CanTp_TxSduType) (pre : list Z).
Context (Hpre : addr_bytes (tx_AddressFormatId t) (tx_Address t) = pre) (Hasz : lenZ pre = asz).
Context (Hpad : CanTp_Prv_GetBit (tx_BitFields t) CANTP_PADDINGON = CanTp_Prv_GetBit (rx_BitFields r) CANTP_PADDINGON).
Context (Hdl : dl_valid (CanTp_Prv_GetTxDl t)) (Hexact : ∀ n, CanTp_Cfg_DlcCheck n n = E_OK).
Context (Htb : 0 ≤ TickBits) (Hcr : 1 ≤ CsCrTicks o).

(** The frames among the events, as they are on the bus. *)
Definition fed (evs : list RxEv) : list (list Z) :=
  omap (λ e, match e with RECf sn body => Some (pre ++ (32 + sn) :: body) | _ => None end) evs.

Lemma tx_asz : asize (tx_AddressFormatId t) = asz.
Proof using Hpre Hasz. rewrite <-Hasz, <-Hpre. by rewrite addr_len. Qed.

Lemma peer_payload y : ry_dl y = CanTp_Prv_GetTxDl t → cf_room r y = cf_payload t.
Proof using Hpre Hasz. intros E. unfold cf_room, cf_payload. by rewrite E, tx_asz. Qed.

Lemma peer_payload_pos : 1 ≤ cf_payload t.
Proof using Hpre Hasz Hdl. pose proof (dl_valid_bound _ Hdl). pose proof (asize_bound (tx_AddressFormatId t)). unfold cf_payload. lia. Qed.

Lemma peer_classic : CANTP_CANFD_SUPPORT = false → CanTp_Prv_GetTxDl t = 8.
Proof. unfold CanTp_Prv_GetTxDl. by intros ->. Qed.

(** The next frame of the segmentation is the one the receiver expects. *)
Lemma peer_frame y data :
  0 < lenZ data → ry_left y = lenZ data → ry_dl y = CanTp_Prv_GetTxDl t → 0 ≤ ry_sn y ≤ 15 →
  ∃ body, cf_frame t (ry_sn y) (take (Z.to_nat (cf_payload t)) data) = pre ++ (32 + ry_sn y) :: body ∧
    asz + 1 + lenZ body = cf_expected r y ∧
    take (Z.to_nat (Z.min (cf_room r y) (ry_left y))) body = take (Z.to_nat (cf_payload t)) data.
Proof using Hpre Hasz Hpad Hdl HOk.
  intros Hne El Ed Hsn. pose proof peer_payload_pos as Hcp. rewrite (peer_payload y Ed), El. pose proof (dl_valid_bound _ Hdl).
  set (chunk := take (Z.to_nat (cf_payload t)) data).
  assert (lenZ chunk = Z.min (cf_payload t) (lenZ data)) as Hch by (unfold chunk, lenZ in *; rewrite length_take; lia).
  assert (lenZ (tx_header t [32 + ry_sn y] ++ chunk) = asz + 1 + lenZ chunk) as Hn.
  { unfold tx_header. rewrite !lenZ_app, Hpre. change (lenZ [32 + ry_sn y]) with 1. lia. }
  exists (chunk ++ padding (CanTp_Prv_GetBit (tx_BitFields t) CANTP_PADDINGON) (asz + 1 + lenZ chunk)). split_and!.
  - unfold cf_frame, padded. rewrite Hn. unfold tx_header. rewrite Hpre, <-!app_assoc. done.
  - unfold cf_expected. rewrite (peer_payload y Ed), El, Ed, lenZ_app, Hpad. unfold padding.
    assert (asz + 1 + lenZ chunk = if lenZ data <? cf_payload t then lenZ data + asz + 1 else CanTp_Prv_GetTxDl t) as En.
    { rewrite Hch. unfold cf_payload in *. rewrite tx_asz in *. destruct (Z.ltb_spec (lenZ data) (CanTp_Prv_GetTxDl t - asz - 1)); lia. }
    rewrite <-En. set (n := asz + 1 + lenZ chunk) in *. destruct (CanTp_Prv_GetBit (rx_BitFields r) CANTP_PADDINGON).
    2: { change (lenZ (@nil Z)) with 0. unfold n. lia. }
    pose proof (asize_bound (rx_AddressFormatId r)).
    assert (n ≤ CanTp_Prv_GetTxDl t) by (unfold cf_payload in *; rewrite tx_asz in *; lia).
    destruct (GetCanDl_spec n) as (d & -> & Hd & _); [lia | intros E; pose proof (peer_classic E); lia |].
    cbn. rewrite lenZ_replicate by lia. unfold n. lia.
  - rewrite <-Hch. apply take_lenZ.
Qed.

(** Serving the sender: the flow control frame is sent and confirmed. *)
Lemma serve_fc y age :
  ∃ evs l, fed evs = [] ∧ Forall rx_ev_ok evs ∧ Forall (rx_going) l ∧ data_of l = [] ∧
    ∃ y' age', run (RSendFc y age) evs = (RCf y' age', l) ∧ ry_left y' = ry_left y ∧ ry_sn y' = ry_sn y ∧ ry_dl y' = ry_dl y ∧ age' ≤ 1.
Proof using Htb.
  assert (tick (0 + 1) ≤ 1) as Ht1 by (apply Z.mod_le; [lia | apply Z.pow_pos_nonneg; lia]).
  destruct (rx_fc_off r) eqn:Eoff.
  - exists [REMain], []. split_and!; [done | repeat constructor | constructor | done |].
    eexists _, _. split; [cbn; unfold rx_send_fc; rewrite Eoff; reflexivity|]. done.
  - exists [REMain; REConf], [OFrame (rx_TxPduId r) (cts_frame r stmin bsmax)].
    split_and!; [done | repeat constructor | constructor; [by right | constructor] | done |].
    eexists _, _. split; [cbn; unfold rx_send_fc; rewrite Eoff; reflexivity|]. done.
Qed.

Lemma run_app a evs evs' : run a (evs ++ evs') = (fst (run (fst (run a evs)) evs'), snd (run a evs) ++ snd (run (fst (run a evs)) evs')).
Proof.
  revert a. induction evs as [|e evs IH]; intros a; cbn [app rx_run]; [apply surjective_pairing|].
  destruct (step a e) as [a1 l1]. rewrite IH. destruct (run a1 evs) as [a2 l2]. cbn. by rewrite app_assoc.
Qed.

(** Receiving [data] from state [a]: the frames fed are those of the segmentation. *)
Definition receives (a : RxAbs) (sn : Z) (data : list Z) : Prop :=
  ∃ evs l, fed evs = cfs_left t sn data ∧ Forall rx_ev_ok evs ∧
    run a evs = (RIdle, l ++ [OIndicate h E_OK]) ∧ data_of l = data ∧ Forall rx_going l.

Lemma receives_then a a' sn data evs l fs d sn' rest :
  run a evs = (a', l) → fed evs = fs → Forall rx_ev_ok evs → Forall rx_going l → data_of l = d →
  cfs_left t sn data = fs ++ cfs_left t sn' rest → data = d ++ rest → receives a' sn' rest → receives a sn data.
Proof.
  intros Hrun Hfed Hok Hgo Hd Hcf Hdata (evs' & l' & Hfed' & Hok' & Hrun' & Hd' & Hgo').
  exists (evs ++ evs'), (l ++ l'). rewrite run_app, Hrun. cbn [fst snd]. rewrite Hrun'. cbn [fst snd]. split_and!.
  - unfold fed in *. rewrite omap_app, Hfed, Hfed'. done.
  - by apply Forall_app.
  - by rewrite app_assoc.
  - by rewrite data_of_app, Hd, Hd'.
  - by apply Forall_app.
Qed.

Lemma receive_cfs n y age data :
  Z.to_nat (ncfs t data) = n → 0 < lenZ data → ry_left y = lenZ data → ry_dl y = CanTp_Prv_GetTxDl t → 0 ≤ ry_sn y ≤ 15 →
  age ≤ CsCrTicks o → receives (RCf y age) (ry_sn y) data.
Proof using Hpre Hasz Hpad Hdl HOk Htb Hcr Hexact.
  revert y age data. induction n as [|n IH]; intros y age data En Hne El Ed Hsn Hage.
  { pose proof (ncfs_pos t peer_payload_pos _ Hne). lia. }
  pose proof peer_payload_pos as Hcp. pose proof (ncfs_pos t Hcp _ Hne).
  destruct (peer_frame y data Hne El Ed Hsn) as (body & Ebody & Elen & Etake).
  set (rest := drop (Z.to_nat (cf_payload t)) data) in *.
  assert (step (RCf y age) (RECf (ry_sn y) body) = rx_take r y body) as Estep.
  { cbn [rx_step]. unfold rx_consecutive. rewrite Elen, Hexact, (proj2 (Z.ltb_ge _ _)) by done. by rewrite andb_false_r, Z.eqb_refl. }
  assert (lenZ rest = ry_left y - Z.min (cf_room r y) (ry_left y)) as Erest.
  { rewrite (peer_payload y Ed), El. unfold rest, lenZ in *. rewrite length_drop. lia. }
  pose proof (cfs_left_cons t Hcp (ry_sn y) data Hne) as Hcons. fold rest in Hcons. rewrite Ebody in Hcons.
  set (d := take (Z.to_nat (cf_payload t)) data) in *. assert (data = d ++ rest) as Edata by (symmetry; apply take_drop).
  assert (Forall rx_ev_ok [RECf (ry_sn y) body]) as Hev by (constructor; [done | constructor]).
  assert (Forall rx_going [OData h d]) as Hgo by (constructor; [left; by eexists | constructor]).
  unfold rx_take in Estep. rewrite Etake, <-Erest in Estep. cbn [ry_left ry_blk] in Estep.
  pose proof (lenZ_nonneg rest). destruct (Z.eqb_spec (lenZ rest) 0) as [E0|E0].
  { exists [RECf (ry_sn y) body], [OData h d]. cbn [rx_run]. rewrite Estep. split_and!; try done.
    - rewrite Hcons, cfs_left_nil by done. done.
    - rewrite data_one. destruct rest; [by rewrite app_nil_r in Edata | done]. }
  set (y' := mkRx (lenZ rest) ((ry_sn y + 1) mod 16) (ry_blk y - 1) (ry_dl y)) in *.
  pose proof (Z.mod_pos_bound (ry_sn y + 1) 16 ltac:(lia)).
  assert (∀ z age', ry_left z = lenZ rest → ry_sn z = ry_sn y' → ry_dl z = ry_dl y → age' ≤ CsCrTicks o →
    receives (RCf z age') (ry_sn y') rest) as Hnext.
  { intros z age' E1 E2 E3 Ha. rewrite <-E2. apply IH; [|lia|done|congruence|rewrite E2; cbn; lia|done].
    unfold rest. rewrite ncfs_drop by done. lia. }
  destruct (ry_blk y - 1 =? 0).
  - eapply receives_then with (evs := [RECf (ry_sn y) body]); [cbn [rx_run]; rewrite Estep; reflexivity | done | exact Hev | exact Hgo | apply data_one | exact Hcons | exact Edata |].
    destruct (serve_fc y' 0) as (evs & l & Hf & Hok & Hg & Hd & z & age' & Hrun & E1 & E2 & E3 & Ha).
    eapply receives_then; [exact Hrun | exact Hf | exact Hok | exact Hg | exact Hd | done | done |].
    apply Hnext; try done. lia.
  - eapply receives_then with (evs := [RECf (ry_sn y) body]); [cbn [rx_run]; rewrite Estep; reflexivity | done | exact Hev | exact Hgo | apply data_one | exact Hcons | exact Edata |].
    apply Hnext; try done. lia.
Qed.

(** After the first frame of a message: the rest arrives. *)
Lemma receive_rest y data :
  0 < lenZ data → ry_left y = lenZ data → ry_dl y = CanTp_Prv_GetTxDl t → ry_sn y = 1 → receives (RSendFc y 0) 1 data.
Proof using Hpre Hasz Hpad Hdl HOk Htb Hcr Hexact.
  intros Hne El Ed Esn. destruct (serve_fc y 0) as (evs & l & Hf & Hok & Hg & Hd & z & age' & Hrun & E1 & E2 & E3 & Ha).
  eapply receives_then; [exact Hrun | exact Hf | exact Hok | exact Hg | exact Hd | done | done |].
  rewrite <-Esn, <-E2. eapply receive_cfs; try done; try congruence; rewrite ?E2, ?Esn; lia.
Qed.
End reassembly.
End props.
