(* ===== verification/CanTpTxSim.v ===== *)
(** * CanTp: a transmission step by step, and the simulation with the sender

    One connection transmits while the other channels are idle.  Each step of
    the transfer - the first frame, a confirmation, a flow control frame, a
    consecutive frame - is executed symbolically on the focused channel.

    The simulation between a channel that transmits and the state machine of
    [CanTpSender]: every service and every run of the main function moves both in
    step, with the same frames and the same confirmations. *)

From S2P Require Import Prelude ComStack CanTpTypes CanTpPrv CanTpFrames CanTpChan CanTp CanTpInv CanTpSeg CanTpSender.
From stdpp Require Import base list numbers option.

#[local] Open Scope Z_scope.


Lemma bind_Some_1 {A B} (f : A → option B) (m : option A) (b : B) : m ≫= f = Some b → ∃ a, m = Some a ∧ f a = Some b.
Proof. destruct m; cbn; eauto; discriminate. Qed.

(** The upper layer behind handle [h] holds the bytes still to be fetched and hands them
    out in order; the CAN interface accepts the frames of PDU [pdu]. *)
Class TxSource (U : Type) `{CanTp_Env U} (h pdu : Z) := {
  src : U → list Z;
  src_copy : ∀ u n, 0 ≤ n ≤ lenZ (src u) →
    ∃ u', PduR_CanTpCopyTxData h n u = (BUFREQ_OK, take (Z.to_nat n) (src u), lenZ (src u) - n, u') ∧
          src u' = drop (Z.to_nat n) (src u);
  src_canif : ∀ u d n, ∃ u', CanIf_Transmit pdu d n u = (E_OK, u') ∧ src u' = src u
}.

(** Steps up to the next call of a neighbour or the next test; and tests whose outcome is
    known by computation. *)
Ltac quiet_steps :=
  repeat (lazymatch goal with
          | |- wp (call_CopyTxData _ _) _ _ => fail
          | |- wp (call_CopyRxData _ _) _ _ => fail
          | |- wp (call_StartOfReception _ _ _) _ _ => fail
          | |- wp (if _ then _ else _) _ _ => fail
          | |- wp (when _ _) _ _ => fail
          | _ => foc_step
          end).
Ltac test_is v :=
  match goal with
  | |- wp (if ?b then _ else _) _ _ => change b with v
  | |- wp (when ?b _) _ _ => change b with v; cbn [when]
  end; cbv iota.

Section tx.
Context `{HCfg : CanTp_Cfg} {HOk : CanTp_CfgOk} {U : Type} `{HEnv : CanTp_Env U}.
Abbreviation W := (World U).
Context (C : CanTp_ConfigType) (Hwf : config_wf C) (id : Z) (t : CanTp_TxSduType) (o : CanTp_TimeOutType).
Context (Ht : aget (TxSdu C) id = Some t) (Ho : aget (TimeOut C) (tx_TimeOutId t) = Some o).
Context {HS : TxSource U (tx_PduRPduHandleId t) (tx_TxPduId t)}.
Abbreviation c := (tx_ChannelId t).
Abbreviation h := (tx_PduRPduHandleId t).
Abbreviation asz := (asize (tx_AddressFormatId t)).
Abbreviation dl := (CanTp_Prv_GetTxDl t).
Context (Htrig : CANTP_TRIGGER_TRANSMIT_API && CanTp_Prv_GetBit (tx_BitFields t) CANTP_TRIGGER_TRANSMIT_ON = false).

Lemma tx_facts :
  aget CanTp_AddressSize (tx_AddressFormatId t) = Some asz ∧ 0 ≤ asz ≤ 1 ∧ dl_valid dl ∧ 8 ≤ dl ≤ 64 ∧
  dl ≤ lenZ SduBuffer_garbage ∧ (CANTP_CANFD_SUPPORT = false → dl = 8).
Proof using Hwf HOk Ht.
  pose proof (cw_tx _ Hwf _ _ Ht) as Hw. destruct (txw_dl _ _ Hw) as [Hd Hm]. rewrite ok_garbage.
  split_and!; try done; try apply asize_bound.
  - apply AddressSize_spec, Hw.
  - by apply dl_valid_bound.
  - by apply dl_valid_bound.
  - unfold CanTp_Prv_GetTxDl. by intros ->.
Qed.

(** ** The frame builders build the frames of the specification *)

Section build.
Context (w : W) (Hv : ch_valid w c) (HC : CanTp_CfgPtr (tp w) = Some C).

(** [fr] is in the buffer, [rest] is left in the upper layer. *)
Definition built (fr rest : list Z) (ch : CanTp_ChannelType) (cf : list Z) (tr : list CanTp_Event)
    (Q : Std_ReturnType * PduInfoType → W → Prop) : Prop :=
  ∀ z u' data, src u' = rest →
    Q (E_OK, mkPduInfo (Some (fr ++ z)) (lenZ fr)) (foc w c 2 ch cf u' (tr ++ [EvCopyTxData h data BUFREQ_OK])).

Lemma wp_src_copy s ch cf u tr n (Q : BufReq_ReturnType * list Z * Z → W → Prop) :
  0 ≤ n ≤ lenZ (src u) →
  (∀ u', src u' = drop (Z.to_nat n) (src u) →
    Q (BUFREQ_OK, take (Z.to_nat n) (src u), lenZ (src u) - n)
      (foc w c s ch cf u' (tr ++ [EvCopyTxData h (take (Z.to_nat n) (src u)) BUFREQ_OK]))) →
  wp (call_CopyTxData h n) Q (foc w c s ch cf u tr).
Proof.
  intros Hn HQ. destruct (src_copy u n Hn) as (u' & E & Hs). apply wp_CopyTxData.
  intros res data rem u'' E'. rewrite E in E'. injection E' as <- <- <- <-. by apply HQ.
Qed.

Lemma build_sf ch cf u tr len Q :
  ch_ActiveSduId ch = id → 0 ≤ ch_PciId ch ≤ 1 → ch_SduLength ch = lenZ (src u) →
  ch_SduLengthRemaining ch = lenZ (src u) →
  asz + (if ch_PciId ch =? CANTP_NPCI_SFCAN then 1 else 2) + lenZ (src u) ≤ dl →
  (ch_PciId ch = 1 → CANTP_CANFD_SUPPORT = true) →
  built (sf_frame t (ch_PciId ch) (src u)) [] ch cf tr Q →
  wp (CanTp_Prv_CreateTxSingleFrame c (mkPduInfo (Some SduBuffer_garbage) len)) Q (foc w c 2 ch cf u tr).
Proof using Hwf HOk Ht Hv HC.
  intros Hid Hp HL HR Hfit Hfd HQ. destruct tx_facts as (Has & Ha & Hdlv & Hdl & Hg & Hcan).
  pose proof (lenZ_nonneg (src u)) as Hn0.
  set (k := if ch_PciId ch =? CANTP_NPCI_SFCAN then 1 else 2) in *.
  assert (1 ≤ k ≤ 2) as Hk by (subst k; case_match; lia).
  assert (aget CanTp_PciSize (ch_PciId ch) = Some k) as Hpci.
  { subst k. assert (ch_PciId ch = 0 ∨ ch_PciId ch = 1) as [-> | ->] by lia; done. }
  pose proof Ht as Ht'. rewrite <-Hid in Ht'.
  unfold CanTp_Prv_CreateTxSingleFrame. quiet_steps. test_is true. quiet_steps. rewrite (u8_small (asz + k)) by lia.
  rewrite HR, (u8_small (lenZ (src u))) by lia.
  apply wp_src_copy; [lia|]. intros u' Hu'. cbv beta iota.
  rewrite drop_ge in Hu' by (unfold lenZ; lia).
  rewrite (take_ge (src u) (Z.to_nat _)) by (unfold lenZ; lia).
  destruct (split3 SduBuffer_garbage (asz + k) (lenZ (src u))) as (x & y & z & Eg & Hx & Hy); [lia..|].
  rewrite Eg in *. rewrite !lenZ_app in Hg. foc_step. eapply wp_lift; [apply awrite_mid; congruence|].
  rewrite decide_True by done. foc_step.
  destruct (pad_spec (CanTp_Prv_GetBit (tx_BitFields t) CANTP_PADDINGON) (x ++ src u) z (asz + k) (lenZ (src u)) dl)
    as (z' & Ep & Hle); [rewrite lenZ_app; lia | lia | lia | rewrite lenZ_app; lia | done | rewrite lenZ_app; lia | done |].
  set (P := padding (CanTp_Prv_GetBit (tx_BitFields t) CANTP_PADDINGON) (lenZ (x ++ src u))) in *.
  replace (((x ++ src u) ++ P) ++ z') with (x ++ (src u ++ P ++ z')) in Ep by (by rewrite <-!app_assoc).
  rewrite <-app_assoc in Ep. eapply wp_lift; [exact Ep|]. cbv beta iota.
  pose proof (put_sf (tx_AddressFormatId t) (tx_Address t) (ch_PciId ch) (lenZ (src u)) x (src u ++ P ++ z')) as Hput.
  fold k in Hput. specialize (Hput Hx ltac:(lia) Hp Hfd). apply bind_Some_1 in Hput as ([b p] & E1 & E2).
  do 3 foc_step. rewrite HL. do 2 foc_step.
  fold (tx_header t (sf_bytes (ch_PciId ch) (lenZ (src u)))).
  assert (lenZ (tx_header t (sf_bytes (ch_PciId ch) (lenZ (src u)))) = lenZ x) as Hh.
  { unfold tx_header. rewrite lenZ_app, addr_len. unfold sf_bytes. subst k. case_match; unfold lenZ at 1; cbn; lia. }
  specialize (HQ z' u' (src u) Hu').
  assert (sf_frame t (ch_PciId ch) (src u) = (tx_header t (sf_bytes (ch_PciId ch) (lenZ (src u))) ++ src u) ++ P) as Ef.
  { unfold sf_frame, padded. by rewrite lenZ_app, Hh, <-lenZ_app. }
  rewrite Ef, <-!app_assoc, !lenZ_app, Hh in HQ. by rewrite !lenZ_app, <-Z.add_assoc.
Qed.

Lemma header_len pci : lenZ (tx_header t pci) = asz + lenZ pci.
Proof. unfold tx_header. by rewrite lenZ_app, addr_len. Qed.

Lemma build_ff ch cf u tr len Q :
  ch_ActiveSduId ch = id → 2 ≤ ch_PciId ch ≤ 3 → ch_SduLength ch = lenZ (src u) →
  ff_payload t (ch_PciId ch) ≤ lenZ (src u) < 4294967296 →
  (ch_PciId ch = 2 → lenZ (src u) ≤ 4095) → (ch_PciId ch = 3 → CANTP_CANFD_SUPPORT = true) →
  built (ff_frame t (ch_PciId ch) (src u)) (drop (Z.to_nat (ff_payload t (ch_PciId ch))) (src u)) ch cf tr Q →
  wp (CanTp_Prv_CreateTxFirstFrame c (mkPduInfo (Some SduBuffer_garbage) len)) Q (foc w c 2 ch cf u tr).
Proof using Hwf HOk Ht Hv HC.
  intros Hid Hp HL Hlen Hlim Hfd HQ. destruct tx_facts as (Has & Ha & Hdlv & Hdl & Hg & Hcan).
  unfold ff_payload in *. set (k := if ch_PciId ch =? CANTP_NPCI_FFCAN then 2 else 6) in *.
  assert (2 ≤ k ≤ 6) as Hk by (subst k; case_match; lia).
  assert (aget CanTp_PciSize (ch_PciId ch) = Some k) as Hpci.
  { subst k. assert (ch_PciId ch = 2 ∨ ch_PciId ch = 3) as [-> | ->] by lia; done. }
  pose proof Ht as Ht'. rewrite <-Hid in Ht'. pose proof pow2_plen.
  unfold CanTp_Prv_CreateTxFirstFrame. quiet_steps. test_is true. quiet_steps. rewrite (u8_small (asz + k)) by lia.
  rewrite plen_small by lia. set (n := dl - asz - k) in *. replace (dl - (asz + k)) with n by lia.
  apply wp_src_copy; [lia|]. intros u' Hu'. cbv beta iota.
  set (d := take (Z.to_nat n) (src u)) in *. assert (lenZ d = n) as Hd by (apply lenZ_take; lia).
  destruct (split3 SduBuffer_garbage (asz + k) n) as (x & y & z & Eg & Hx & Hy); [lia..|].
  rewrite Eg. foc_step. eapply wp_lift; [apply awrite_mid; congruence|]. rewrite decide_True by done.
  pose proof (put_ff (tx_AddressFormatId t) (tx_Address t) (ch_PciId ch) (lenZ (src u)) x (d ++ z)) as Hput.
  fold k in Hput. specialize (Hput Hx ltac:(lia) Hp Hlim Hfd). apply bind_Some_1 in Hput as ([b p] & E1 & E2).
  do 3 foc_step. rewrite HL. do 2 foc_step.
  assert (lenZ (tx_header t (ff_bytes (ch_PciId ch) (lenZ (src u)))) = lenZ x) as Hh.
  { rewrite header_len, Hx. unfold ff_bytes. subst k. by case_match. }
  specialize (HQ z u' d Hu'). unfold ff_frame, ff_payload in HQ. fold k in HQ. fold n d in HQ.
  rewrite <-app_assoc, lenZ_app, Hh, Hx, Hd in HQ. by replace (asz + k + n) with dl in HQ by lia.
Qed.

Lemma build_cf ch cf u tr len Q :
  ch_ActiveSduId ch = id → 0 ≤ ch_SN ch ≤ 15 → ch_SduLengthRemaining ch = lenZ (src u) →
  built (cf_frame t (ch_SN ch) (take (Z.to_nat (cf_payload t)) (src u))) (drop (Z.to_nat (cf_payload t)) (src u)) ch cf tr Q →
  wp (CanTp_Prv_CreateTxConsecutiveFrame c (mkPduInfo (Some SduBuffer_garbage) len)) Q (foc w c 2 ch cf u tr).
Proof using Hwf HOk Ht Hv HC.
  intros Hid Hsn HR HQ. destruct tx_facts as (Has & Ha & Hdlv & Hdl & Hg & Hcan).
  unfold cf_payload in *. set (m := dl - asz - 1) in *. pose proof (lenZ_nonneg (src u)).
  pose proof Ht as Ht'. rewrite <-Hid in Ht'.
  unfold CanTp_Prv_CreateTxConsecutiveFrame. quiet_steps. test_is true. quiet_steps.
  rewrite HR. unfold CANTP_CF_PCISIZE. rewrite (u8_small (asz + 1)) by lia. rewrite (u8_small (dl - (asz + 1))) by lia.
  replace (dl - (asz + 1)) with m by lia.
  set (d := take (Z.to_nat m) (src u)) in *. assert (lenZ d = Z.min m (lenZ (src u))) as Hd.
  { subst d. unfold lenZ. rewrite length_take. lia. }
  assert ((if m <? lenZ (src u) then m else u8 (lenZ (src u))) = lenZ d) as ->.
  { destruct (Z.ltb_spec m (lenZ (src u))); [lia|]. rewrite u8_small; lia. }
  assert (take (Z.to_nat (lenZ d)) (src u) = d) as Etake.
  { rewrite Hd. subst d. unfold lenZ. destruct (Z.min_spec m (Z.of_nat (length (src u)))) as [[_ ->]|[Hge ->]]; [done|].
    by rewrite !take_ge by lia. }
  assert (drop (Z.to_nat (lenZ d)) (src u) = drop (Z.to_nat m) (src u)) as Edrop.
  { rewrite Hd. unfold lenZ. destruct (Z.min_spec m (Z.of_nat (length (src u)))) as [[_ ->]|[Hge ->]]; [done|].
    by rewrite !drop_ge by lia. }
  apply wp_src_copy; [pose proof (lenZ_nonneg d); lia|]. intros u' Hu'. cbv beta iota. rewrite Etake, Edrop in *.
  destruct (split3 SduBuffer_garbage (asz + 1) (lenZ d)) as (x & y & z & Eg & Hx & Hy); [pose proof (lenZ_nonneg d); lia..|].
  rewrite Eg in *. rewrite !lenZ_app in Hg. foc_step. eapply wp_lift; [apply awrite_mid; congruence|]. rewrite decide_True by done.
  assert (lenZ (tx_header t [32 + ch_SN ch]) = lenZ x) as Hh by (rewrite header_len, Hx; done).
  set (P := padding (CanTp_Prv_GetBit (tx_BitFields t) CANTP_PADDINGON) (lenZ (x ++ d))).
  assert (cf_frame t (ch_SN ch) d = (tx_header t [32 + ch_SN ch] ++ d) ++ P) as Ef.
  { unfold cf_frame, padded. by rewrite lenZ_app, Hh, <-lenZ_app. }
  assert (∀ z', wp ('(buf, p) ← lift (put_address (x ++ d ++ P ++ z') (tx_AddressFormatId t) (tx_Address t));
      buf ← lift (aset buf p (Z.lor CANTP_CF_HIGHNIBBLE (ch_SN ch)));
      mret (E_OK, mkPduInfo (Some buf) (lenZ ((x ++ d) ++ P)))) Q
      (foc w c 2 ch cf u' (tr ++ [EvCopyTxData h d BUFREQ_OK]))) as Hend.
  { intros z'. pose proof (put_cf (tx_AddressFormatId t) (tx_Address t) (ch_SN ch) x (d ++ P ++ z') Hx Hsn) as Hput.
    apply bind_Some_1 in Hput as ([b p] & E1 & E2). do 5 foc_step. specialize (HQ z' u' d Hu').
    rewrite Ef, <-!app_assoc, !lenZ_app, Hh in HQ. by rewrite !lenZ_app, <-Z.add_assoc. }
  foc_step. destruct (Z.ltb_spec (lenZ (src u)) m).
  - destruct (pad_spec (CanTp_Prv_GetBit (tx_BitFields t) CANTP_PADDINGON) (x ++ d) z (asz + 1) (lenZ d) dl)
      as (z' & Ep & _); [rewrite lenZ_app; lia | lia | lia | rewrite lenZ_app; lia | done | rewrite lenZ_app; lia | done |].
    fold P in Ep. replace (((x ++ d) ++ P) ++ z') with (x ++ d ++ P ++ z') in Ep by (by rewrite <-!app_assoc).
    rewrite <-app_assoc in Ep. eapply wp_lift; [exact Ep|]. cbv beta iota. apply Hend.
  - foc_step. specialize (Hend z).
    assert (P = []) as EP by (unfold P; rewrite lenZ_app, Hx, Hd; replace (asz + 1 + Z.min m (lenZ (src u))) with dl by lia; by apply padding_full).
    rewrite EP, app_nil_r, lenZ_app, Hx, Hd in Hend.
    by replace (asz + 1 + Z.min m (lenZ (src u))) with dl in Hend by lia.
Qed.

(** ** Handing a frame to the CAN interface *)

(** The transmission context of a data frame. *)
Definition is_ctx (x : CanTp_TxContextType) : Prop :=
  tc_PduRApiId x = CANTP_TX_PDUR_CONFIRMATION ∧ tc_BitFields x = tx_BitFields t ∧ tc_ChannelId x = c ∧
  tc_TxConfirmationId x = tx_TxConfirmationId t ∧ tc_PduId x = tx_TxPduId t ∧ tc_PduRPduHandleId x = h.

(** [fr] goes out, [rest] is left in the upper layer. *)
Definition sent (fr rest : list Z) (ch : CanTp_ChannelType) (cf : list Z) (tr : list CanTp_Event)
    (Q : unit → W → Prop) : Prop :=
  ∀ u' data n, src u' = rest →
    Q tt (foc w c 2 ch (<[Z.to_nat (tx_TxConfirmationId t) := c]> cf) u'
      ((tr ++ [EvCopyTxData h data BUFREQ_OK]) ++ [EvCanIfTransmit (tx_TxPduId t) (Some fr) n E_OK])).

(** What the channel asks to be built. *)
Definition due (ch : CanTp_ChannelType) (u : U) (fr rest : list Z) : Prop :=
  ch_ActiveSduId ch = id ∧
  if decide (ch_PciId ch = CANTP_NPCI_CF) then
    0 ≤ ch_SN ch ≤ 15 ∧ ch_SduLengthRemaining ch = lenZ (src u) ∧
    fr = cf_frame t (ch_SN ch) (take (Z.to_nat (cf_payload t)) (src u)) ∧
    rest = drop (Z.to_nat (cf_payload t)) (src u)
  else
    ch_SduLength ch = lenZ (src u) ∧
    ((0 ≤ ch_PciId ch ≤ 1 ∧ ch_SduLengthRemaining ch = lenZ (src u) ∧
      asz + (if ch_PciId ch =? CANTP_NPCI_SFCAN then 1 else 2) + lenZ (src u) ≤ dl ∧
      (ch_PciId ch = 1 → CANTP_CANFD_SUPPORT = true) ∧
      fr = sf_frame t (ch_PciId ch) (src u) ∧ rest = []) ∨
     (2 ≤ ch_PciId ch ≤ 3 ∧ ff_payload t (ch_PciId ch) ≤ lenZ (src u) < 4294967296 ∧
      (ch_PciId ch = 2 → lenZ (src u) ≤ 4095) ∧ (ch_PciId ch = 3 → CANTP_CANFD_SUPPORT = true) ∧
      fr = ff_frame t (ch_PciId ch) (src u) ∧ rest = drop (Z.to_nat (ff_payload t (ch_PciId ch))) (src u))).

Lemma create_due ch cf u tr fr rest len Q :
  due ch u fr rest → built fr rest ch cf tr Q →
  wp (CanTp_Prv_CreateFrame c (mkPduInfo (Some SduBuffer_garbage) len)) Q (foc w c 2 ch cf u tr).
Proof using Hwf HOk Ht Hv HC.
  intros [Hid Hd] HQ. unfold CanTp_Prv_CreateFrame. foc_step. foc_step. foc_step.
  unfold CANTP_NPCI_CF in Hd. destruct (decide (ch_PciId ch = 4)) as [E4|].
  - destruct Hd as (Hsn & HR & -> & ->). rewrite E4. eapply wp_lift; [reflexivity|]. cbn [Z.eqb].
    change (CANTP_CONSECUTIVE_FRAME =? CANTP_CONSECUTIVE_FRAME) with true. cbv iota. by apply build_cf.
  - destruct Hd as [HL [(Hp & HR & Hfit & Hfd & -> & ->) | (Hp & Hlen & Hlim & Hfd & -> & ->)]].
    + eapply wp_lift with CANTP_SINGLE_FRAME; [assert (ch_PciId ch = 0 ∨ ch_PciId ch = 1) as [-> | ->] by lia; done|].
      change (CANTP_SINGLE_FRAME =? CANTP_SINGLE_FRAME) with true. cbv iota. by apply build_sf.
    + eapply wp_lift with CANTP_FIRST_FRAME; [assert (ch_PciId ch = 2 ∨ ch_PciId ch = 3) as [-> | ->] by lia; done|].
      change (CANTP_FIRST_FRAME =? CANTP_FIRST_FRAME) with true. cbv iota. by apply build_ff.
Qed.

Lemma transmit_due x ch cf u tr fr rest len Q :
  is_ctx x → due ch u fr rest → 0 ≤ tx_TxConfirmationId t < lenZ cf →
  sent fr rest ch cf tr Q → wp (CanTp_Prv_CanIfTransmit x len) Q (foc w c 2 ch cf u tr).
Proof using Hwf HOk Ht Hv HC Htrig.
  intros (Ha & Hb & Hc & Hx & Hp & Hh) Hd Hcf HQ. unfold CanTp_Prv_CanIfTransmit.
  rewrite Ha, Hb, Hc, Hx, Hp, Hh, Htrig. foc_step.
  eapply create_due; [exact Hd|]. intros z u' data Hs. cbv beta iota. foc_step. foc_step; [done|]. foc_step.
  apply wp_CanIf_Transmit; cbn [SduDataPtr SduLength].
  { rewrite lenZ_app. pose proof (lenZ_nonneg fr). pose proof (lenZ_nonneg z). lia. }
  intros res u2 E. unfold tx_bytes in *. rewrite take_lenZ in *.
  destruct (src_canif u' (Some fr) (lenZ fr)) as (u3 & E3 & Hs3). rewrite E3 in E. injection E as <- <-.
  cbv beta iota. apply wp_ret. by apply HQ; rewrite Hs3.
Qed.

(** The data of the next frame is there: the upper layer is asked, or has been. *)
Lemma buffer_due x s ch cf u tr Q :
  is_ctx x → tc_PayLoadLength x ≤ lenZ (src u) →
  (ch_TxBufferStatus ch = CANTP_BUFFER_AVAILABLE ∨ tc_ElapsedValue x < tc_CsTicks x) →
  (∀ u' tr', src u' = src u → outs tr' = outs tr →
    Q tt (foc w c s (set_ch_TxBufferStatus CANTP_BUFFER_AVAILABLE ch) cf u' tr')) →
  wp (CanTp_Prv_GetTxBuffer x) Q (foc w c s ch cf u tr).
Proof using Hv.
  intros (Ha & Hb & Hc & Hx & Hp & Hh) Hlen Hok HQ. unfold CanTp_Prv_GetTxBuffer. rewrite Hc, Hh. foc_step. foc_step.
  destruct (Z.eqb_spec (ch_TxBufferStatus ch) CANTP_BUFFER_AVAILABLE) as [E|E].
  - assert (set_ch_TxBufferStatus CANTP_BUFFER_AVAILABLE ch = ch) as Hid by (destruct ch; cbn in *; by subst).
    rewrite Hid in HQ. by destruct (_ <? _); apply wp_ret, HQ.
  - destruct Hok as [?|Hel]; [done|]. apply Z.ltb_lt in Hel. rewrite Hel. cbn [negb when].
    foc_step. apply wp_src_copy; [pose proof (lenZ_nonneg (src u)); lia|]. intros u' Hu'. cbv beta iota.
    rewrite Z.sub_0_r. apply Z.leb_le in Hlen. rewrite Hlen. foc_step. apply HQ; [done|].
    rewrite outs_app. cbn. by rewrite app_nil_r.
Qed.

(** The data did not come in time: the upper layer is told. *)
Lemma buffer_late x s ch cf u tr Q :
  is_ctx x → ch_TxBufferStatus ch ≠ CANTP_BUFFER_AVAILABLE → tc_CsTicks x ≤ tc_ElapsedValue x →
  (∀ u' tr', outs tr' = outs tr ++ [OConfirm h E_NOT_OK] → Q tt (foc w c 0 ch cf u' tr')) →
  wp (CanTp_Prv_GetTxBuffer x) Q (foc w c s ch cf u tr).
Proof using Hv.
  intros (Ha & Hb & Hc & Hx & Hp & Hh) E Hel HQ. unfold CanTp_Prv_GetTxBuffer. rewrite Hc, Hh, Ha. foc_step. foc_step.
  apply Z.ltb_ge in Hel. rewrite Hel. apply Z.eqb_neq in E. rewrite E. cbn [negb when]. do 5 foc_step.
  apply HQ. rewrite !outs_app. unfold report. by destruct CANTP_DEV_ERROR_DETECT; cbn; rewrite ?app_nil_r.
Qed.
End build.
End tx.

(** * CanTp: the transmit half implements the sender *)

(** ** The connection under consideration

    Connection [id] of configuration [C], its flow control frames arriving on PDU [p] behind
    the address bytes [pre] and padded with [post]; burst mode and shared flow control are
    not configured. *)
Record TxConn `{CanTp_Cfg} (C : CanTp_ConfigType) (id : Z) (t : CanTp_TxSduType) (o : CanTp_TimeOutType)
    (p : Z) (pre post : list Z) : Prop := {
  txc_wf : config_wf C;
  txc_t : aget (TxSdu C) id = Some t;
  txc_id : id < NumberOfTxSdus C;
  txc_o : aget (TimeOut C) (tx_TimeOutId t) = Some o;
  txc_burst : CANTP_TX_BURST_MODE = false;
  txc_trigger : CANTP_TRIGGER_TRANSMIT_API && CanTp_Prv_GetBit (tx_BitFields t) CANTP_TRIGGER_TRANSMIT_ON = false;
  txc_shared : CANTP_LEGACY_SHARED_FC_SUPPORT = false;
  txc_pdu : p < NumberOfRxPdus C ∧ ∃ rp, aget (RxPdu C) p = Some rp ∧
    match rp_GetSduPair rp with
    | None => pre = [] ∧ rp_TxSduId rp = id
    | Some f => ∃ a, pre = [a] ∧ fst (f (rp_TxSduId rp) (rp_RxSduId rp) a) = id
    end;
  txc_pre : lenZ pre = asize (tx_AddressFormatId t);
  txc_dlc : CanTp_Cfg_DlcCheck (lenZ pre + 3 + lenZ post)
    (if CanTp_Prv_GetBit (tx_BitFields t) CANTP_PADDINGON then CANTP_DEFAULT_CAN_DL
     else u8 (CANTP_FC_PCISIZE + asize (tx_AddressFormatId t))) = E_OK
}.

Section sim.
Context `{HCfg : CanTp_Cfg} {HOk : CanTp_CfgOk} {U : Type} `{HEnv : CanTp_Env U}.
Abbreviation W := (World U).
Context {C : CanTp_ConfigType} {id : Z} {t : CanTp_TxSduType} {o : CanTp_TimeOutType} {p : Z} {pre post : list Z}.
Context (HT : TxConn C id t o p pre post).
Context {HS : TxSource U (tx_PduRPduHandleId t) (tx_TxPduId t)}.
Abbreviation c := (tx_ChannelId t).
Abbreviation h := (tx_PduRPduHandleId t).
Abbreviation asz := (asize (tx_AddressFormatId t)).
Abbreviation dl := (CanTp_Prv_GetTxDl t).
Abbreviation k := (tx_TxConfirmationId t).
Let Hwf := txc_wf _ _ _ _ _ _ _ HT.
Let Ht := txc_t _ _ _ _ _ _ _ HT.
Let Ho := txc_o _ _ _ _ _ _ _ HT.
Let Htrig := txc_trigger _ _ _ _ _ _ _ HT.

(** The services the connection's neighbours call. *)
Definition tx_call (e : TxEv) : M W unit :=
  match e with
  | EMain => CanTp_MainFunction
  | EConf => CanTp_TxConfirmation k
  | EFc flow bs st =>
      let fc := pre ++ [48 + flow; bs; st] ++ post in CanTp_RxIndication p (Some (mkPduInfo (Some fc) (lenZ fc)))
  | ECancel => _ ← CanTp_CancelTransmit id; mret tt
  end.

(** A flow control frame carries a nibble and two bytes. *)
Definition tx_ev_ok (e : TxEv) : Prop :=
  match e with EFc flow bs st => 0 ≤ flow ≤ 15 ∧ byte_ok bs ∧ byte_ok st | _ => True end.

(** ** The simulation relation *)

Definition tx_sub (a : TxAbs) : Z :=
  match a with TIdle => 0 | TReq _ _ _ => 1 | TWait _ _ _ => 2 | TFc _ _ => 3 | TCf _ _ _ _ => 4 end.
Definition tx_conf (a : TxAbs) : Z := match a with TWait _ _ _ => c | _ => CANTP_INVALID_CHANNEL end.

Definition pos_rel (ch : CanTp_ChannelType) (x : TxPos) : Prop :=
  ch_ActiveSduId ch = id ∧ ch_SN ch = px_sn x ∧ 0 ≤ px_sn x ≤ 15 ∧
  ch_BlockCfsRemaining ch = px_blk x ∧ 0 ≤ px_blk x < 2 ^ PduLengthBits ∧ ch_STminTicks ch = px_stm x ∧
  (fc_off t = false → px_stm x ≠ CANTP_INVALID_STMIN_TICKS → ch_BS ch = px_bs x) ∧
  lenZ (px_rest x) < 2 ^ PduLengthBits ∧ 0 ≤ px_bs x < 256.

(** The PCI CanTp_Transmit chooses fits the message. *)
Definition pci_fits (pci : Z) (sdu : list Z) : Prop :=
  (0 ≤ pci ≤ 1 ∧ asz + (if pci =? CANTP_NPCI_SFCAN then 1 else 2) + lenZ sdu ≤ dl ∧
     (pci = 1 → CANTP_CANFD_SUPPORT = true)) ∨
  (2 ≤ pci ≤ 3 ∧ ff_payload t pci < lenZ sdu ∧ (pci = 2 → lenZ sdu ≤ 4095) ∧ (pci = 3 → CANTP_CANFD_SUPPORT = true)).

Definition max_copy (pci : Z) : Z := dl - asz - default 0 (aget CanTp_PciSize pci).

Definition tx_rel (a : TxAbs) (ch : CanTp_ChannelType) (data : list Z) (now : Z) : Prop :=
  match a with
  | TIdle => True
  | TReq pci sdu age =>
      ch_ActiveSduId ch = id ∧ ch_PciId ch = pci ∧ ch_SduLength ch = lenZ sdu ∧ data = sdu ∧
      0 < lenZ sdu < 2 ^ PduLengthBits ∧ age = tick (now - ch_InitialTicks ch) ∧
      ch_TxBufferStatus ch = CANTP_BUFFER_NOT_ASKED ∧ ch_STminTicks ch = CANTP_INVALID_STMIN_TICKS ∧ pci_fits pci sdu
  | TWait pci x age =>
      pos_rel ch x ∧ ch_PciId ch = pci ∧ data = px_rest x ∧ 0 ≤ pci ≤ 4 ∧
      (∃ n, ch_SduLengthRemaining ch = lenZ (px_rest x) + n ∧ 0 < n ≤ max_copy pci ∧
            (0 < lenZ (px_rest x) → n = max_copy pci) ∧ ch_SduLengthRemaining ch < 2 ^ PduLengthBits) ∧
      (pci = CANTP_NPCI_CF → 0 < px_blk x) ∧ (pci ≠ CANTP_NPCI_CF → px_blk x = 0) ∧
      ch_TxBufferStatus ch = CANTP_BUFFER_NOT_ASKED ∧ age = tick (now - ch_InitialTicks ch)
  | TFc x age =>
      pos_rel ch x ∧ data = px_rest x ∧ 0 < lenZ (px_rest x) ∧ ch_SduLengthRemaining ch = lenZ (px_rest x) ∧
      ch_PciId ch = CANTP_NPCI_FC ∧ ch_TxBufferStatus ch = CANTP_BUFFER_NOT_ASKED ∧ fc_off t = false ∧
      age = tick (now - ch_InitialTicks ch)
  | TCf first avail x age =>
      pos_rel ch x ∧ data = px_rest x ∧ 0 < lenZ (px_rest x) ∧ ch_SduLengthRemaining ch = lenZ (px_rest x) ∧
      0 < px_blk x ∧ first = negb (ch_PciId ch =? CANTP_NPCI_CF) ∧
      avail = (ch_TxBufferStatus ch =? CANTP_BUFFER_AVAILABLE) ∧ age = tick (now - ch_InitialTicks ch)
  end.

(** The module is initialised with [C] and no other channel is busy. *)
Record tx_env (w : W) : Prop := {
  te_cfg : CanTp_CfgPtr (tp w) = Some C;
  te_on : CanTp_MainState (tp w) = true;
  te_valid : ch_valid w c;
  te_conf : NumberOfTxPdus C ≤ lenZ (CanTp_TxConfirmationChannel (tp w));
  te_idle : ∀ i, 0 ≤ i < NumberOfChannels C → i ≠ c → aget (CanTp_SubState (tp w)) i = Some 0
}.

Definition tx_sim (a : TxAbs) (w : W) : Prop :=
  tx_env w ∧
  aget (CanTp_SubState (tp w)) c = Some (tx_sub a) ∧
  aget (CanTp_TxConfirmationChannel (tp w)) k = Some (tx_conf a) ∧
  ∃ ch, aget (CanTp_Channel (tp w)) c = Some ch ∧ tx_rel a ch (src (up w)) (CanTp_MainFunctionTicks (tp w)).

(** ** Entering and leaving a step *)

(** The channel after a step from a world focused on it. *)
Definition tx_post (w : W) (tr : list CanTp_Event) (r : TxAbs * list out) (w' : W) : Prop :=
  ∃ ch cf u tr', w' = foc w c (tx_sub (fst r)) ch cf u tr' ∧ aget cf k = Some (tx_conf (fst r)) ∧
    NumberOfTxPdus C ≤ lenZ cf ∧ tx_rel (fst r) ch (src u) (CanTp_MainFunctionTicks (tp w)) ∧
    outs tr' = outs tr ++ snd r.

Lemma tx_post_intro w tr a l ch cf u tr' :
  aget cf k = Some (tx_conf a) → NumberOfTxPdus C ≤ lenZ cf →
  tx_rel a ch (src u) (CanTp_MainFunctionTicks (tp w)) → outs tr' = outs tr ++ l →
  tx_post w tr (a, l) (foc w c (tx_sub a) ch cf u tr').
Proof. intros. exists ch, cf, u, tr'. done. Qed.

Lemma tx_post_sim w tr r w' :
  tx_env w → tx_post w tr r w' → tx_sim (fst r) w' ∧ outs (trace w') = outs tr ++ snd r.
Proof.
  intros [] (ch & cf & u & tr' & -> & Hk & Hl & Hr & Ho'). split; [|done].
  destruct te_valid0 as [Hv1 Hv2]. split; [|split; [|split; [done|]]].
  - split; cbn; try done.
    + split; cbn; by rewrite lenZ_insert.
    + intros i Hi Hne. rewrite aget_insert_ne by lia. by apply te_idle0.
  - cbn. by apply aget_insert_eq.
  - exists ch. split; [|done]. cbn. by apply aget_insert_eq.
Qed.

Lemma tx_sim_focus a w :
  tx_sim a w → ∃ ch cf, w = foc w c (tx_sub a) ch cf (up w) (trace w) ∧ aget cf k = Some (tx_conf a) ∧
    NumberOfTxPdus C ≤ lenZ cf ∧ tx_rel a ch (src (up w)) (CanTp_MainFunctionTicks (tp w)) ∧ tx_env w.
Proof.
  intros (He & Hs & Hk & ch & Hch & Hr). exists ch, (CanTp_TxConfirmationChannel (tp w)).
  split_and!; try done; [by apply foc_intro | apply He].
Qed.

(** ** Time *)

Lemma tick_0 : tick 0 = 0.
Proof. apply Zmod_0_l. Qed.
Lemma tick_self z : tick (z - z) = 0.
Proof. by rewrite Z.sub_diag, tick_0. Qed.
Lemma tick_older now i : tick (tick (now + 1) - i) = tick (tick (now - i) + 1).
Proof.
  unfold tick, uw. rewrite Zminus_mod_idemp_l, Zplus_mod_idemp_l. f_equal. lia.
Qed.

Lemma tx_rel_older a ch data now : tx_rel a ch data now → tx_rel (tx_older a) ch data (tick (now + 1)).
Proof. destruct a; cbn; [done|..]; intros; destruct_and!; subst; rewrite tick_older; done. Qed.

(** ** The main function runs the channel *)

Lemma exec_idle i w (Q : unit → W → Prop) :
  aget (CanTp_SubState (tp w)) i = Some 0 → Q tt w → wp (CanTp_Prv_ExecuteState i) Q w.
Proof. intros Hi HQ. unfold CanTp_Prv_ExecuteState, get_sub. wp_steps. by eapply wp_lift. Qed.

Lemma main_idle n i0 w (Q : unit → W → Prop) :
  (∀ i, i0 ≤ i < i0 + Z.of_nat n → aget (CanTp_SubState (tp w)) i = Some 0) →
  Q tt w → wp (mfor n i0 CanTp_Prv_ExecuteState) Q w.
Proof.
  revert i0. induction n as [|n IH]; intros i0 Hi HQ; cbn [mfor]; [by apply wp_ret|].
  apply wp_bind, exec_idle; [apply Hi; lia|]. apply IH; [|done]. intros. apply Hi. lia.
Qed.

Lemma main_one n i0 j w (Q : unit → W → Prop) :
  i0 ≤ j < i0 + Z.of_nat n →
  (∀ i, i0 ≤ i < j → aget (CanTp_SubState (tp w)) i = Some 0) →
  wp (CanTp_Prv_ExecuteState j)
    (λ _ w', (∀ i, j < i < i0 + Z.of_nat n → aget (CanTp_SubState (tp w')) i = Some 0) ∧ Q tt w') w →
  wp (mfor n i0 CanTp_Prv_ExecuteState) Q w.
Proof.
  revert i0. induction n as [|n IH]; intros i0 Hj Hi Hw; [lia|]. cbn [mfor]. apply wp_bind.
  destruct (decide (i0 = j)) as [->|Hne].
  - eapply wp_mono; [exact Hw|]. intros [] w' [Hi' HQ]. apply main_idle; [|done]. intros. apply Hi'. lia.
  - apply exec_idle; [apply Hi; lia|]. apply IH; [lia | intros; apply Hi; lia |].
    eapply wp_mono; [exact Hw|]. intros [] w' [Hi' HQ]. split; [|done]. intros. apply Hi'. lia.
Qed.

(** A world one tick later. *)
Definition later (w : W) : W :=
  set_tp (set_CanTp_MainFunctionTicks (tick (CanTp_MainFunctionTicks (tp w) + 1)) (tp w)) w.

Lemma later_sim a w : tx_sim a w → tx_sim (tx_older a) (later w).
Proof.
  intros ([] & Hs & Hk & ch & Hch & Hr). unfold tx_sim.
  replace (tx_sub (tx_older a)) with (tx_sub a) by (by destruct a).
  replace (tx_conf (tx_older a)) with (tx_conf a) by (by destruct a).
  split_and!; [by split|done..|]. exists ch. split; [done|]. by apply tx_rel_older.
Qed.

Lemma main_wp a w :
  tx_sim a w →
  (∀ ch cf, aget cf k = Some (tx_conf a) → NumberOfTxPdus C ≤ lenZ cf →
    tx_rel a ch (src (up w)) (CanTp_MainFunctionTicks (tp w)) →
    wp (CanTp_Prv_ExecuteState c) (λ _, tx_post w (trace w) (tx_exec t o a)) (foc w c (tx_sub a) ch cf (up w) (trace w))) →
  wp CanTp_MainFunction (λ _ w', tx_sim (fst (tx_step t o a EMain)) w' ∧
      outs (trace w') = outs (trace w) ++ snd (tx_step t o a EMain)) w.
Proof using HT.
  intros Hsim Hex. unfold CanTp_MainFunction. wp_step. wp_step.
  rewrite (te_on _ (proj1 Hsim)), andb_false_r. cbv iota. rewrite (txc_burst _ _ _ _ _ _ _ HT). wp_step. wp_step.
  wp_step. unfold cfg. wp_step. wp_step. eapply wp_lift; [apply Hsim|]. wp_step.
  pose proof (txw_channel _ _ (cw_tx _ Hwf _ _ Ht)) as Hc.
  pose proof (cw_channels _ Hwf) as Hn.
  apply (main_one _ _ c); [lia | intros; apply Hsim; lia |].
  destruct (tx_sim_focus _ _ Hsim) as (ch & cf & Ew & Hk & Hl & Hr & He). pose proof (Hex ch cf Hk Hl Hr) as Hx. rewrite <-Ew in Hx.
  eapply wp_mono; [exact Hx|]. intros [] w' Hp. pose proof (tx_post_sim _ _ _ _ He Hp) as [Hs' Ho'].
  split; [intros; apply Hs'; lia|]. unfold CanTp_IncrementCounter. wp_step. fold (later w').
  unfold tx_step. destruct (tx_exec t o a) as [a' l]. split; [by apply later_sim | done].
Qed.

(** ** The states of a transmission *)

Section exec.
Context (w : W) (He : tx_env w).
Let HC := te_cfg _ He.
Let Hv := te_valid _ He.
Abbreviation now := (CanTp_MainFunctionTicks (tp w)).

Lemma outs_report tr e : out_of e = None → outs (tr ++ report e) = outs tr.
Proof. intros He'. rewrite outs_app. unfold report. destruct CANTP_DEV_ERROR_DETECT; cbn; rewrite ?He'; apply app_nil_r. Qed.

Lemma fail_post tr tr' ch cf u :
  aget cf k = Some CANTP_INVALID_CHANNEL → NumberOfTxPdus C ≤ lenZ cf →
  outs tr' = outs tr ++ [OConfirm h E_NOT_OK] → tx_post w tr (tx_fail t) (foc w c 0 ch cf u tr').
Proof. intros. by apply (tx_post_intro w tr TIdle). Qed.

Lemma conf_range : 0 ≤ k < NumberOfTxPdus C.
Proof using HT. apply (txw_conf _ _ (cw_tx _ Hwf _ _ Ht)). Qed.

Lemma exec_wait pci x age ch cf u tr :
  aget cf k = Some c → NumberOfTxPdus C ≤ lenZ cf → tx_rel (TWait pci x age) ch (src u) now →
  wp (CanTp_Prv_TxWaitForTransmitConfirmation c) (λ _, tx_post w tr (tx_exec t o (TWait pci x age)))
    (foc w c 2 ch cf u tr).
Proof using HOk HT He.
  intros Hk Hl Hr. pose proof Hr as ((Hid & _) & _ & _ & _ & _ & _ & _ & _ & Hage). pose proof conf_range.
  pose proof Ht as Ht'. rewrite <-Hid in Ht'.
  unfold CanTp_Prv_TxWaitForTransmitConfirmation. quiet_steps. test_is true. quiet_steps. rewrite <-Hage. cbn [tx_exec].
  foc_step; bools.
  - rewrite (proj2 (Z.ltb_lt _ _)) by lia. do 6 foc_step; [lia|]. foc_step. apply fail_post.
    + apply aget_insert_eq. lia.
    + by rewrite lenZ_insert.
    + by rewrite outs_report, outs_app.
  - rewrite (proj2 (Z.ltb_ge _ _)) by lia. apply (tx_post_intro w tr (TWait pci x age)); [done..|]. by rewrite app_nil_r.
Qed.

Lemma exec_fc x age ch cf u tr :
  aget cf k = Some CANTP_INVALID_CHANNEL → NumberOfTxPdus C ≤ lenZ cf → tx_rel (TFc x age) ch (src u) now →
  wp (CanTp_Prv_TxWaitForFlowControlFrame c) (λ _, tx_post w tr (tx_exec t o (TFc x age))) (foc w c 3 ch cf u tr).
Proof using HOk HT He.
  intros Hk Hl Hr. pose proof Hr as ((Hid & _) & _ & _ & _ & _ & _ & _ & Hage).
  pose proof Ht as Ht'. rewrite <-Hid in Ht'.
  unfold CanTp_Prv_TxWaitForFlowControlFrame. quiet_steps. test_is true. quiet_steps. rewrite <-Hage. cbn [tx_exec].
  foc_step; bools.
  - rewrite (proj2 (Z.ltb_lt _ _)) by lia. foc_steps. apply fail_post; [done..|]. by rewrite outs_report, outs_app.
  - rewrite (proj2 (Z.ltb_ge _ _)) by lia. apply (tx_post_intro w tr (TFc x age)); [done..|]. by rewrite app_nil_r.
Qed.

(** Handing over a frame leads to the state of [tx_first] and [tx_next]. *)
Lemma hand_over y pci x fr len ch cf u tr tr1 :
  is_ctx t y → due id t ch u fr (px_rest x) → aget cf k = Some CANTP_INVALID_CHANNEL → NumberOfTxPdus C ≤ lenZ cf →
  outs tr1 = outs tr → tx_rel (TWait pci x 0) (set_ch_TxBufferStatus CANTP_BUFFER_NOT_ASKED ch) (px_rest x) now →
  wp (CanTp_Prv_CanIfTransmit y len)
    (λ _, wp (upd_ch c (set_ch_TxBufferStatus CANTP_BUFFER_NOT_ASKED))
      (λ _, tx_post w tr (TWait pci x 0, [OFrame (tx_TxPduId t) fr]))) (foc w c 2 ch cf u tr1).
Proof using HOk HT He.
  intros Hy Hd Hk Hl Ho' Hr. pose proof conf_range.
  eapply transmit_due; [exact Hwf | exact Ht | exact Htrig | done | exact HC | exact Hy | exact Hd | lia |].
  intros u' data n Hu'. foc_step. apply (tx_post_intro w tr (TWait pci x 0)).
  - apply aget_insert_eq. lia.
  - by rewrite lenZ_insert.
  - by rewrite Hu'.
  - rewrite !outs_app, Ho'. cbn. by rewrite app_nil_r.
Qed.

Lemma exec_req pci sdu age ch cf u tr :
  aget cf k = Some CANTP_INVALID_CHANNEL → NumberOfTxPdus C ≤ lenZ cf → tx_rel (TReq pci sdu age) ch (src u) now →
  wp (CanTp_Prv_TxTransmissionRequestAccepted c) (λ _, tx_post w tr (tx_exec t o (TReq pci sdu age)))
    (foc w c 1 ch cf u tr).
Proof using HOk HT He.
  intros Hk Hl (Hid & Hp & HL & Hsrc & Hlen & Hage & Hbuf & Hst & Hfit). pose proof conf_range.
  pose proof Ht as Ht'. rewrite <-Hid in Ht'. destruct (tx_facts C Hwf id t Ht) as (Has & Ha & Hdlv & Hdl & Hg & Hcan).
  destruct (PciSize_spec (ch_PciId ch)) as (n & Hn & Hnb & Hn0 & Hn1 & Hn2 & Hn3 & _); [destruct Hfit; lia|].
  unfold CanTp_Prv_TxTransmissionRequestAccepted. quiet_steps. test_is true. quiet_steps.
  rewrite Z.eqb_refl. cbv iota. quiet_steps. rewrite <-Hage, HL, Hp in *. rewrite (u8_small (asz + n)) by lia.
  set (len := if CANTP_NPCI_FFCAN <=? pci then _ else _).
  assert (len ≤ lenZ sdu ∧ (2 ≤ pci → len = ff_payload t pci)) as [Hle Hff].
  { subst len. unfold CANTP_NPCI_FFCAN. destruct Hfit as [(? & ? & ?)|(? & Hff & ?)].
    - rewrite (proj2 (Z.leb_gt _ _)) by lia. rewrite u8_small by (case_match; lia). lia.
    - rewrite (proj2 (Z.leb_le _ _)) by lia. unfold ff_payload, CANTP_NPCI_FFCAN in *.
      assert (n = if pci =? 2 then 2 else 6) as -> by (case_match; bools; lia). rewrite u8_small by lia. lia. }
  cbn [tx_exec]. destruct (Z.ltb_spec age (CsCrTicks o)) as [Hlt|Hge].
  - eapply buffer_due; try done; [cbn; by rewrite Hsrc | by right |]. intros u' tr' Hu' Htr'.
    foc_step. foc_step. test_is true. foc_steps.
    unfold tx_first. rewrite <-Hu' in Hsrc.
    assert (max_copy pci = dl - asz - n) as Hmax by (unfold max_copy; by rewrite Hn).
    assert (∀ fr rest m, due id t (set_ch_InitialTicks now (set_ch_TxBufferStatus CANTP_BUFFER_AVAILABLE
          (set_ch_SN 1 (set_ch_SduLengthRemaining (lenZ sdu) (set_ch_BlockCfsRemaining 0 ch))))) u' fr rest →
        lenZ sdu = lenZ rest + m → 0 < m ≤ max_copy pci → (0 < lenZ rest → m = max_copy pci) → 0 ≤ pci ≤ 3 →
        wp (CanTp_Prv_CanIfTransmit (mkTxContext CANTP_TX_PDUR_CONFIRMATION len (tx_BitFields t) c k (tx_TxPduId t) h 0
              now age (CsCrTicks o)) dl)
          (λ _, wp (upd_ch c (set_ch_TxBufferStatus CANTP_BUFFER_NOT_ASKED))
            (λ _, tx_post w tr (TWait pci (mkPos rest 1 0 0 CANTP_INVALID_STMIN_TICKS) 0, [OFrame (tx_TxPduId t) fr])))
          (foc w c 2 (set_ch_InitialTicks now (set_ch_TxBufferStatus CANTP_BUFFER_AVAILABLE
            (set_ch_SN 1 (set_ch_SduLengthRemaining (lenZ sdu) (set_ch_BlockCfsRemaining 0 ch))))) cf u' tr')) as Hgo.
    { intros fr rest m Hd Hm1 Hm2 Hm3 Hp3. apply hand_over; try done. pose proof pow2_plen.
      pose proof (lenZ_nonneg rest).
      unfold tx_rel, pos_rel. ch_simpl. cbn [px_rest px_sn px_blk px_bs px_stm]. unfold CANTP_NPCI_CF. split_and!; try done; try lia.
      - exists m. split_and!; try done; lia.
      - by rewrite tick_self. }
    destruct Hfit as [(? & Hfit & Hfd)|(? & Hfit & Hlim & Hfd)].
    + rewrite (proj2 (Z.leb_le pci CANTP_NPCI_SFCANFD)) by (unfold CANTP_NPCI_SFCANFD; lia).
      apply (Hgo _ [] (lenZ sdu)); try (change (lenZ (@nil Z)) with 0; lia).
      * split; [done|]. rewrite decide_False by (ch_simpl; unfold CANTP_NPCI_CF; lia). ch_simpl.
        rewrite Hp, Hsrc. split; [done|]. left. done.
      * assert (n = if pci =? CANTP_NPCI_SFCAN then 1 else 2) by (unfold CANTP_NPCI_SFCAN; destruct (Z.eqb_spec pci 0); lia). lia.
    + rewrite (proj2 (Z.leb_gt pci CANTP_NPCI_SFCANFD)) by (unfold CANTP_NPCI_SFCANFD; lia).
      assert (n = if pci =? CANTP_NPCI_FFCAN then 2 else 6) as En by (unfold CANTP_NPCI_FFCAN; destruct (Z.eqb_spec pci 2); lia).
      assert (ff_payload t pci = max_copy pci) as Eff by (unfold ff_payload; lia).
      apply (Hgo _ _ (max_copy pci)); try lia; try done.
      * split; [done|]. rewrite decide_False by (ch_simpl; unfold CANTP_NPCI_CF; lia). ch_simpl.
        rewrite Hp, Hsrc. split; [done|]. right. pose proof pow2_plen. split_and!; try done; lia.
      * rewrite lenZ_drop; lia.
  - eapply buffer_late; try done; [by cbn; rewrite Hbuf|]. intros u' tr' Htr'. foc_steps; ch_simpl; bools.
    + by rewrite Hbuf in *.
    + by apply fail_post.
Qed.

Lemma exec_cf first avail x age ch cf u tr :
  aget cf k = Some CANTP_INVALID_CHANNEL → NumberOfTxPdus C ≤ lenZ cf → tx_rel (TCf first avail x age) ch (src u) now →
  wp (CanTp_Prv_TxSendConsecutiveFrame c) (λ _, tx_post w tr (tx_exec t o (TCf first avail x age)))
    (foc w c 4 ch cf u tr).
Proof using HOk HT He.
  intros Hk Hl (Hpos & Hsrc & Hlen & HR & Hblk & Hfirst & Havail & Hage).
  destruct Hpos as (Hid & Hsn & Hsnb & Hbl & Hblb & Hst & Hbs & Hlim & Hbsb). pose proof conf_range.
  pose proof Ht as Ht'. rewrite <-Hid in Ht'. destruct (tx_facts C Hwf id t Ht) as (Has & Ha & Hdlv & Hdl & Hg & Hcan).
  unfold CanTp_Prv_TxSendConsecutiveFrame. quiet_steps. test_is true. quiet_steps.
  rewrite Z.eqb_refl. cbn [when]. quiet_steps. rewrite <-Hage, HR in *. unfold CANTP_CF_PCISIZE.
  rewrite (u8_small (dl - 1 - asz)) by lia. replace (dl - 1 - asz) with (cf_payload t) by (unfold cf_payload; lia).
  assert (cf_payload t = dl - asz - 1) as Hcp by done.
  set (len := if _ <? _ then _ else _).
  assert (len ≤ lenZ (src u)) as Hle.
  { subst len. rewrite Hsrc. destruct (Z.ltb_spec (lenZ (px_rest x)) (cf_payload t)); [rewrite u8_small|]; lia. }
  cbn [tx_exec]. destruct (avail || (age <? CsCrTicks o)) eqn:Eav.
  - eapply buffer_due; try done.
    { rewrite Havail in Eav. apply orb_true_iff in Eav as [?%Z.eqb_eq|?%Z.ltb_lt]; [by left | by right]. }
    intros u' tr' Hu' Htr'. foc_step. foc_step. ch_simpl. rewrite Hst, <-Hfirst.
    destruct ((px_stm x <=? age) || first) eqn:Ego.
    + test_is true. foc_steps. unfold tx_next. apply hand_over; try done.
      * split; [done|]. rewrite decide_True by done. ch_simpl. rewrite Hu', Hsrc, Hsn. done.
      * unfold tx_rel, pos_rel. ch_simpl. cbn [px_rest px_sn px_blk px_bs px_stm]. unfold CANTP_NPCI_CF, max_copy.
        change (default 0 (aget CanTp_PciSize 4)) with 1. rewrite <-Hcp, HR, <-Hsrc.
        rewrite <-Hsrc in Hlen, Hlim.
        split_and!; try done; try lia.
        -- unfold lenZ in *. rewrite length_drop. lia.
        -- exists (Z.min (cf_payload t) (lenZ (src u))). unfold lenZ in *. rewrite length_drop. lia.
        -- by rewrite tick_self.
    + test_is false. apply wp_ret. apply (tx_post_intro w tr (TCf first true x age)); [done..| |by rewrite app_nil_r].
      unfold tx_rel, pos_rel. ch_simpl. by rewrite Hu'.
  - apply orb_false_iff in Eav as [-> Hge%Z.ltb_ge]. symmetry in Havail. apply Z.eqb_neq in Havail.
    eapply buffer_late; try done. intros u' tr' Htr'. foc_steps; bools; [done|]. by apply fail_post.
Qed.

Lemma exec_state a ch cf u tr :
  aget cf k = Some (tx_conf a) → NumberOfTxPdus C ≤ lenZ cf → tx_rel a ch (src u) now →
  wp (CanTp_Prv_ExecuteState c) (λ _, tx_post w tr (tx_exec t o a)) (foc w c (tx_sub a) ch cf u tr).
Proof using HOk HT He.
  intros Hk Hl Hr. unfold CanTp_Prv_ExecuteState. foc_step. foc_step.
  destruct a; cbn [tx_sub]; cbn [Z.eqb]; repeat test_is false; try test_is true.
  - apply wp_ret. apply (tx_post_intro w tr TIdle); [done..|]. by rewrite app_nil_r.
  - by apply exec_req.
  - by apply exec_wait.
  - by apply exec_fc.
  - by apply exec_cf.
Qed.
End exec.
End sim.
