(* ===== verification/CanTpTxRef.v ===== *)
(** * CanTp: the services of a transmission, and the refinement theorem

    Confirmation, flow control and cancellation move the channel and the sender of
    [CanTpSender] in step; with the main function this gives the simulation for
    every sequence of calls. *)

From S2P Require Import Prelude ComStack CanTpTypes CanTpPrv CanTpFrames CanTpChan CanTp CanTpInv CanTpSafety CanTpSeg CanTpSender CanTpTxSim.
From stdpp Require Import base list numbers option.

#[local] Open Scope Z_scope.

(** Past the development-error check, for an identifier in range. *)
Lemma dev_pass `{CanTp_Cfg} {U} `{CanTp_Env U} {A} (C : CanTp_ConfigType) (w : World U) id api err (d : A) body Q :
  CanTp_MainState (tp w) = true → CanTp_CfgPtr (tp w) = Some C → id < total_ids C api →
  wp body Q w → wp (dev_checked id api err d body) Q w.
Proof.
  intros Hon HC Hid Hb. unfold dev_checked. destruct CANTP_DEV_ERROR_DETECT; [|done].
  unfold CanTp_Prv_IsNoDevError. wp_step. wp_step. wp_step. rewrite Hon. cbn [negb]. wp_step. unfold cfg.
  wp_step. wp_step. wp_step. eapply wp_lift; [exact HC|]. wp_step. fold (total_ids C api).
  rewrite (proj2 (Z.leb_gt _ _)) by done. rewrite decide_True by done. by wp_step.
Qed.

Section ref.
Context `{HCfg : CanTp_Cfg} {HOk : CanTp_CfgOk} {U : Type} `{HEnv : CanTp_Env U}.
Abbreviation W := (World U).
Context {C : CanTp_ConfigType} {id : Z} {t : CanTp_TxSduType} {o : CanTp_TimeOutType} {p : Z} {pre post : list Z}.
Context (HT : TxConn C id t o p pre post).
Context {HS : TxSource U (tx_PduRPduHandleId t) (tx_TxPduId t)}.
Abbreviation c := (tx_ChannelId t).
Abbreviation h := (tx_PduRPduHandleId t).
Abbreviation asz := (asize (tx_AddressFormatId t)).
Abbreviation dl := (CanTp_Prv_GetTxDl t).
Abbreviation k := (tx_TxConfirmationId t).
Let Hwf := txc_wf _ _ _ _ _ _ _ HT.
Let Ht := txc_t _ _ _ _ _ _ _ HT.
Let Ho := txc_o _ _ _ _ _ _ _ HT.

Section step.
Context (w : W) (He : tx_env (C := C) (t := t) w).
Let HC := te_cfg _ He.
Let Hv := te_valid _ He.
Abbreviation now := (CanTp_MainFunctionTicks (tp w)).
Abbreviation post_of := (tx_post (C := C) (id := id) (t := t) w).
Abbreviation rel := (tx_rel (id := id) (t := t)).

(** Nothing happens. *)
Lemma stay a ch cf u tr :
  aget cf k = Some (tx_conf (t := t) a) → NumberOfTxPdus C ≤ lenZ cf → rel a ch (src u) now →
  post_of tr (a, []) (foc w c (tx_sub a) ch cf u tr).
Proof. intros. apply tx_post_intro; try done. by rewrite app_nil_r. Qed.

Lemma burst_off ch_id trigger (Q : unit → W → Prop) w' : Q tt w' → wp (CanTp_Prv_BurstMainFunction ch_id trigger) Q w'.
Proof using HT. intros. unfold CanTp_Prv_BurstMainFunction. rewrite (txc_burst _ _ _ _ _ _ _ HT). by apply wp_ret. Qed.

Lemma wp_ncfs s ch cf u tr (Q : Z → W → Prop) data :
  ch_ActiveSduId ch = id → ch_SduLengthRemaining ch = lenZ data → lenZ data < 2 ^ PduLengthBits →
  Q (ncfs t data) (foc w c s ch cf u tr) → wp (CanTp_Prv_GetTxBlockCfs c) Q (foc w c s ch cf u tr).
Proof using HOk HT He.
  intros Hid HR Hlim HQ. destruct (tx_facts C Hwf id t Ht) as (Has & Ha & Hdlv & Hdl & Hg & Hcan).
  pose proof Ht as Ht'. rewrite <-Hid in Ht'. unfold CanTp_Prv_GetTxBlockCfs. foc_steps. rewrite HR. consts.
  rewrite u8_small by lia. pose proof (lenZ_nonneg data). apply wp_block_cfs; [lia..|].
  unfold ncfs, cf_payload in HQ. by replace (dl - 1 - asz) with (dl - asz - 1) by lia.
Qed.

Lemma ncfs_bound data : 0 < lenZ data → lenZ data < 2 ^ PduLengthBits → 0 < ncfs t data < 2 ^ PduLengthBits.
Proof using HOk HT.
  intros Hd Hlim. destruct (tx_facts C Hwf id t Ht) as (_ & Ha & _ & Hdl & _).
  unfold ncfs. pose proof (ceil_div_bound (lenZ data) (cf_payload t)). unfold cf_payload in *. lia.
Qed.

(** ** Confirmation of a frame *)

(** The confirmation slot is free again. *)
Lemma freed a l ch cf u tr tr' :
  tx_conf (t := t) a = CANTP_INVALID_CHANNEL → NumberOfTxPdus C ≤ lenZ cf → rel a ch (src u) now →
  outs tr' = outs tr ++ l →
  wp (set_conf k CANTP_INVALID_CHANNEL) (λ _, post_of tr (a, l)) (foc w c (tx_sub a) ch cf u tr').
Proof using HT.
  intros Ha Hl Hr Htr. pose proof (conf_range HT). apply wp_set_conf; [lia|]. apply tx_post_intro; try done.
  - rewrite Ha. apply aget_insert_eq. lia.
  - by rewrite lenZ_insert.
Qed.


(** A flow control frame is due, unless the connection works without. *)
Lemma prepare_fc s ch cf u tr data (Q : unit → W → Prop) :
  ch_ActiveSduId ch = id → ch_SduLengthRemaining ch = lenZ data → lenZ data < 2 ^ PduLengthBits →
  Q tt (if fc_off t
        then foc w c 4 (set_ch_PciId CANTP_NPCI_FC (set_ch_STminTicks CANTP_DEFAULT_STMIN_TICKS
               (set_ch_BlockCfsRemaining (ncfs t data) ch))) cf u tr
        else foc w c 3 (set_ch_PciId CANTP_NPCI_FC ch) cf u tr) →
  wp (CanTp_Prv_PrepareFcRecieve c) Q (foc w c s ch cf u tr).
Proof using HOk HT He.
  intros Hid HR Hlim HQ. pose proof Ht as Ht'. rewrite <-Hid in Ht'. unfold CanTp_Prv_PrepareFcRecieve, fc_off in *. foc_step.
  destruct CANTP_FC_DISABLE_SUPPORT; cbn [andb] in *; [|by foc_steps].
  quiet_steps. destruct (CanTp_Prv_GetBit _ _); [|by foc_steps].
  foc_step. eapply wp_ncfs; [done..|]. by foc_steps.
Qed.

(** After a confirmation: done, the next frame of the block, or a flow control frame is due. *)
Lemma confirm_tail pci x ch cf u tr :
  NumberOfTxPdus C ≤ lenZ cf → src u = px_rest x →
  pos_rel (id := id) (t := t) ch (tx_advance pci x) → ch_SduLengthRemaining ch = lenZ (px_rest x) →
  ch_TxBufferStatus ch = CANTP_BUFFER_NOT_ASKED → ch_InitialTicks ch = now →
  (px_blk (tx_advance pci x) ≠ 0 → ch_PciId ch = CANTP_NPCI_CF) →
  wp (ch ← get_ch c;
      (if ch_SduLengthRemaining ch =? 0 then
         set_sub c CANTP_IDLE;; CanTp_Prv_PduRConfirmation CANTP_TX_PDUR_CONFIRMATION h E_OK
       else if negb (ch_BlockCfsRemaining ch =? 0) then set_sub c CANTP_TX_SEND_CONSECUTIVE_FRAME
       else CanTp_Prv_PrepareFcRecieve c);;
      set_conf k CANTP_INVALID_CHANNEL) (λ _, post_of tr (tx_confirmed t pci x)) (foc w c 2 ch cf u tr).
Proof using HOk HT He.
  intros Hl Hsrc Hpos HR Hbuf Hi Hp. assert (px_rest (tx_advance pci x) = px_rest x) as Hrest by (unfold tx_advance; by case_match).
  unfold tx_confirmed. set (y := tx_advance pci x) in *. rewrite Hrest in *. pose proof (conf_range HT) as Hcr.
  destruct Hpos as (Hid & Hsn & Hsnb & Hbl & Hblb & Hst & Hbs & Hlim & Hbsb). pose proof (lenZ_nonneg (px_rest x)).
  foc_step. foc_step. foc_step. rewrite HR, Hbl. destruct (Z.eqb_spec (lenZ (px_rest x)) 0) as [E0|E0].
  { do 3 foc_step. apply (freed TIdle); try done. rewrite outs_app. done. }
  destruct (Z.eqb_spec (px_blk y) 0) as [Eb|Eb]; cbn [negb].
  - rewrite Hrest in Hlim. apply prepare_fc with (px_rest x); try done.
    assert (0 < ncfs t (px_rest x) < 2 ^ PduLengthBits) by (apply ncfs_bound; lia).
    destruct (fc_off t) eqn:Eoff; cbv iota.
    + apply (freed (TCf true false _ 0)); try done; [|by rewrite app_nil_r].
      unfold tx_rel, pos_rel. ch_simpl. cbn [px_rest px_sn px_blk px_bs px_stm].
      rewrite Eoff, Hi, tick_self, Hbuf, ?Hrest. split_and!; try done; lia.
    + apply (freed (TFc y 0)); try done; [|by rewrite app_nil_r].
      unfold tx_rel, pos_rel. ch_simpl. rewrite Hi, tick_self, Hrest. split_and!; try done; lia.
  - foc_step. apply (freed (TCf false false y 0)); try done; [|by rewrite app_nil_r].
    unfold tx_rel, pos_rel. rewrite Hrest in *. rewrite Hi, tick_self, Hbuf, Hp by done. split_and!; try done; lia.
Qed.

Lemma confirm_data pci x age ch cf u tr :
  aget cf k = Some c → NumberOfTxPdus C ≤ lenZ cf → rel (TWait pci x age) ch (src u) now →
  wp (TxConfirmation_data c k now) (λ _, post_of tr (tx_confirmed t pci x)) (foc w c 2 ch cf u tr).
Proof using HOk HT He.
  intros Hk Hl (Hpos & Hp & Hsrc & Hpci & (n & HR & Hn & Hn' & Hlim) & Hb1 & Hb2 & Hbuf & Hage).
  destruct Hpos as (Hid & Hsn & Hsnb & Hbl & Hblb & Hst & Hbs & Hlim' & Hbsb).
  pose proof (conf_range HT). destruct (tx_facts C Hwf id t Ht) as (Has & Ha & Hdlv & Hdl & Hg & Hcan).
  pose proof Ht as Ht'. rewrite <-Hid in Ht'. pose proof (lenZ_nonneg (px_rest x)).
  destruct (PciSize_spec (ch_PciId ch)) as (m & Hm & Hmb & _); [lia|].
  assert (max_copy (t := t) pci = dl - asz - m) as Hmax by (unfold max_copy; rewrite <-Hp, Hm; done).
  unfold TxConfirmation_data. quiet_steps. ch_simpl. rewrite HR, (u8_small (dl - asz - m)), <-Hmax by lia.
  set (rest := if _ <? _ then 0 else _).
  assert (rest = lenZ (px_rest x)) as ->.
  { subst rest. destruct (Z.ltb_spec (lenZ (px_rest x) + n) (max_copy (t := t) pci)); [lia|].
    rewrite plen_small; lia. }
  eapply wp_mono with (P := λ _ w', ∃ ch', w' = foc w c 2 ch' cf u tr ∧ pos_rel (id := id) (t := t) ch' (tx_advance pci x) ∧
    ch_SduLengthRemaining ch' = lenZ (px_rest x) ∧ ch_TxBufferStatus ch' = CANTP_BUFFER_NOT_ASKED ∧
    ch_InitialTicks ch' = now ∧ (px_blk (tx_advance pci x) ≠ 0 → ch_PciId ch' = CANTP_NPCI_CF)).
  - unfold tx_advance, pos_rel. rewrite Hp. unfold CANTP_LOWERNIBBLE_MASK. pose proof (Z.mod_pos_bound (px_sn x + 1) 16).
    foc_steps; match goal with E : (pci =? CANTP_NPCI_CF) = _ |- _ => rewrite E end; eexists; (split; [done|]); ch_simpl; cbn [px_rest px_sn px_blk px_bs px_stm];
      bools.
    + rewrite Hsn, Hbl, land_15, u8_small, plen_small by lia. split_and!; try done; lia.
    + split_and!; try done; try lia.
  - intros [] w' (ch' & -> & Hp' & HR' & Hb' & Hi' & Hc').
    by apply confirm_tail.
Qed.

Lemma conf_step a ch cf u tr :
  aget cf k = Some (tx_conf (t := t) a) → NumberOfTxPdus C ≤ lenZ cf → rel a ch (src u) now →
  wp (CanTp_TxConfirmation k) (λ _, post_of tr (tx_step t o a EConf)) (foc w c (tx_sub a) ch cf u tr).
Proof using HOk HT He.
  intros Hk Hl Hr. unfold CanTp_TxConfirmation.
  pose proof (conf_range HT). pose proof (cw_channels _ Hwf). pose proof (txw_channel _ _ (cw_tx _ Hwf _ _ Ht)).
  eapply dev_pass; [exact (te_on _ He) | exact HC | cbn; lia |]. quiet_steps.
  destruct a as [|pci sdu age|pci x age|x age|first avail x age]; cbn [tx_conf tx_sub] in *.
  3: { rewrite (proj2 (Z.ltb_lt c _)) by lia. foc_step. foc_step. test_is false. test_is true.
       eapply wp_mono; [by eapply confirm_data|]. intros [] w' Hp. by apply burst_off. }
  all: rewrite (proj2 (Z.ltb_ge _ _)) by (unfold CANTP_INVALID_CHANNEL; lia); foc_step; foc_step;
    test_is false; test_is false; foc_step; apply burst_off.
  - by apply (stay TIdle).
  - by apply (stay (TReq pci sdu age)).
  - by apply (stay (TFc x age)).
  - by apply (stay (TCf first avail x age)).
Qed.

(** ** Cancellation *)

Lemma cancel_step a ch cf u tr :
  aget cf k = Some (tx_conf (t := t) a) → NumberOfTxPdus C ≤ lenZ cf → rel a ch (src u) now →
  wp (CanTp_CancelTransmit id) (λ _, post_of tr (tx_step t o a ECancel)) (foc w c (tx_sub a) ch cf u tr).
Proof using HOk HT He.
  intros Hk Hl Hr. unfold CanTp_CancelTransmit. pose proof (conf_range HT).
  eapply dev_pass; [exact (te_on _ He) | exact HC | exact (txc_id _ _ _ _ _ _ _ HT) |].
  assert (a = TIdle ∨ (1 ≤ tx_sub a ≤ 4 ∧ ch_ActiveSduId ch = id)) as [->|[Hs Hid]].
  { destruct a; [by left | right; split; [cbn; lia | apply Hr]..]. }
  - quiet_steps. eapply wp_GetState; [done | reflexivity|]. cbv beta. quiet_steps.
    destruct (CanTp_Prv_GetBit _ _); test_is true; foc_steps; apply tx_post_intro; try done; by rewrite outs_report, app_nil_r.
  - quiet_steps. eapply (wp_GetState _ _ _ _ _ _ _ Hv CANTP_TRANSMISSION).
    { assert (tx_sub a = 1 ∨ tx_sub a = 2 ∨ tx_sub a = 3 ∨ tx_sub a = 4) as [->|[->|[->| ->]]] by lia; reflexivity. }
    quiet_steps. rewrite Z.eqb_refl, (proj2 (Z.eqb_eq id _)) by done. rewrite !orb_false_r.
    assert (tx_step t o a ECancel = if tc_off t then (a, []) else tx_fail t) as -> by (destruct a; cbn in *; done || lia).
    unfold tc_off. destruct (CanTp_Prv_GetBit _ _).
    + foc_steps. apply tx_post_intro; try done. by rewrite outs_report, app_nil_r.
    + foc_step. foc_step. foc_step. foc_step. foc_step. destruct a as [|pci sdu age|pci x age|x age|first avail x age]; cbn [tx_sub] in *.
      3: { test_is true. foc_step; [lia|]. foc_steps. apply fail_post; [by apply aget_insert_eq; lia | by rewrite lenZ_insert |].
           by rewrite outs_app. }
      { lia. }
      all: test_is false; foc_steps; apply fail_post; try done; by rewrite outs_app.
Qed.

(** ** Flow control *)

Abbreviation fc flow bs st := (pre ++ [48 + flow; bs; st] ++ post).

(** The reception context of a flow control frame this connection waits for. *)
Definition fc_ctx (flow : Z) (X : CanTp_RxContextType) : Prop :=
  cx_ChannelId X = c ∧ cx_SduId X = id ∧ cx_FrameType X = CANTP_FLOWCONTROL_FRAME ∧ cx_AddressSize X = asz ∧
  cx_IsPaddingOn X = CanTp_Prv_GetBit (tx_BitFields t) CANTP_PADDINGON ∧ cx_PduRPduHandleId X = h.

Lemma nibble flow : 0 ≤ flow ≤ 15 → Z.shiftr (48 + flow) 4 = 3 ∧ Z.land (48 + flow) 15 = flow.
Proof.
  intros Hf. rewrite shiftr_4, land_15. split.
  - symmetry. apply Z.div_unique with flow; lia.
  - symmetry. apply Z.mod_unique with 3; lia.
Qed.

Lemma fc_active X s ch cf u tr (Q : Std_ReturnType * CanTp_RxContextType → W → Prop) :
  cx_SduId X = id →
  Q (if s =? 3 then (E_OK, ctx_set_channel c X) else (E_NOT_OK, X)) (foc w c s ch cf u tr) →
  wp (CanTp_Prv_GetFcActiveChannel X) Q (foc w c s ch cf u tr).
Proof using HT He.
  intros Hid HQ. unfold CanTp_Prv_GetFcActiveChannel. foc_step. foc_step. foc_step. rewrite Hid.
  rewrite (proj2 (Z.ltb_lt id _)) by apply HT. quiet_steps.
  change (s =? CANTP_TX_WAIT_FOR_FLOWCONTROL_FRAME) with (s =? 3). destruct (s =? 3); foc_step; cbv beta iota;
    rewrite (txc_shared _ _ _ _ _ _ _ HT); cbn [andb]; by foc_step.
Qed.

Lemma fc_context flow bs st s ch cf u tr (Q : CanTp_ErrorId * CanTp_RxContextType → W → Prop) :
  0 ≤ flow ≤ 15 →
  (∀ e X, (s = 3 → e = CANTP_NO_ERROR ∧ fc_ctx flow X) → (s ≠ 3 → e = CANTP_E_PARAM_CONFIG) →
    Q (e, X) (foc w c s ch cf u tr)) →
  wp (CanTp_Prv_GetRxContext (RxContext_init p) (mkPduInfo (Some (fc flow bs st)) (lenZ (fc flow bs st)))) Q
    (foc w c s ch cf u tr).
Proof using HOk HT He.
  intros Hf HQ. destruct (nibble flow Hf) as [Hft _]. unfold CanTp_Prv_GetRxContext. foc_step. foc_step.
  destruct (txc_pdu _ _ _ _ _ _ _ HT) as (_ & rp & Hrp & Hpair).
  pose proof (txc_pre _ _ _ _ _ _ _ HT) as Hpre. foc_step. cbn [RxContext_init cx_PduId]. foc_step. foc_step.
  destruct (tx_facts C Hwf id t Ht) as (Has & _).
  destruct (rp_GetSduPair rp) as [f|].
  1: destruct Hpair as (a & Epre & Hf'). 2: destruct Hpair as (Epre & Hid).
  all: rewrite Epre; eapply wp_lift; [reflexivity|]; foc_step.
  1: destruct (f _ _ a) as [t0 r0]; cbn in Hf'; subst t0; foc_step; eapply wp_lift; [reflexivity|].
  2: rewrite Hid.
  all: foc_step; change CANTP_FRAMETYPE_OFFSET with 4; rewrite Hft; test_is true; test_is true; foc_step;
    apply fc_active; [done|]; destruct (Z.eqb_spec s 3); cbv beta iota; foc_step;
    [eapply wp_get_txsdu; [exact HC | exact Ht |]; foc_steps|]; apply HQ; done.
Qed.

(** It passes the length check, which reads the flow status. *)
Lemma fc_length X flow bs st s ch cf u tr (Q : Std_ReturnType * CanTp_RxContextType → W → Prop) :
  0 ≤ flow ≤ 15 → fc_ctx flow X →
  (∀ X', fc_ctx flow X' → cx_FlowStatus X' = flow → cx_DataOffset X' = asz + 1 → Q (E_OK, X') (foc w c s ch cf u tr)) →
  wp (CanTp_Prv_RxSduLengthCheck X (mkPduInfo (Some (fc flow bs st)) (lenZ (fc flow bs st)))) Q (foc w c s ch cf u tr).
Proof using HOk HT He.
  intros Hf (Hc & Hid & Hft & Has & Hpad & Hh) HQ. destruct (nibble flow Hf) as [_ Hnib].
  pose proof (txc_pre _ _ _ _ _ _ _ HT) as Hpre. pose proof (asize_bound (tx_AddressFormatId t)).
  assert (aget (fc flow bs st) asz = Some (48 + flow)) as Hd0.
  { unfold aget. rewrite decide_True by lia. rewrite <-Hpre. unfold lenZ. rewrite Nat2Z.id. cbn [app]. by rewrite list_lookup_middle. }
  unfold CanTp_Prv_RxSduLengthCheck. rewrite Hft, Has. foc_step. foc_step. foc_step. foc_step. foc_step.
  test_is false. test_is false. test_is false. test_is true. unfold FcLengthCheck. foc_step.
  change CANTP_LOWERNIBBLE_MASK with 15. rewrite Hnib, Hpad, Has. apply wp_ret.
  pose proof (txc_dlc _ _ _ _ _ _ _ HT) as Hdlc.
  replace (lenZ (fc flow bs st)) with (lenZ pre + 3 + lenZ post) by (rewrite !lenZ_app; unfold lenZ; cbn; lia).
  rewrite Hdlc. apply HQ; cbn; [done.. | rewrite u8_small; lia].
Qed.

Lemma aget_pre l i v : l !! Z.to_nat i = Some v → 0 ≤ i → aget (pre ++ l) (asz + i) = Some v.
Proof using HT.
  intros Hl Hi. pose proof (txc_pre _ _ _ _ _ _ _ HT) as Hpre. pose proof (asize_bound (tx_AddressFormatId t)).
  unfold aget. rewrite decide_True by lia. rewrite <-Hpre. unfold lenZ.
  rewrite lookup_app_r by lia. by replace (Z.to_nat (Z.of_nat (length pre) + i) - length pre)%nat with (Z.to_nat i) by lia.
Qed.

(** The block the receiver grants. *)
Lemma set_block X flow bs st x s ch cf u tr (Q : unit → W → Prop) :
  fc_ctx flow X → cx_DataOffset X = asz + 1 → byte_ok bs → byte_ok st →
  pos_rel (id := id) (t := t) ch x → 0 < lenZ (px_rest x) → ch_SduLengthRemaining ch = lenZ (px_rest x) → fc_off t = false →
  (∀ ch', pos_rel (id := id) (t := t) ch' (tx_granted t bs st x) → 0 < px_blk (tx_granted t bs st x) →
     ch_SduLengthRemaining ch' = lenZ (px_rest x) → ch_PciId ch' = ch_PciId ch →
     ch_TxBufferStatus ch' = ch_TxBufferStatus ch → ch_InitialTicks ch' = ch_InitialTicks ch →
     Q tt (foc w c s ch' cf u tr)) →
  wp (CanTp_Prv_SetTxBlockInfo X (mkPduInfo (Some (fc flow bs st)) (lenZ (fc flow bs st)))) Q (foc w c s ch cf u tr).
Proof using HOk HT He.
  intros (Hc & Hid & Hft & Has & Hpad & Hh) Hoff Hbs Hst (Hact & Hsn & Hsnb & Hbl & Hblb & Hstm & Hbs' & Hlim & Hbsb) Hne HR Hfc HQ.
  pose proof (ncfs_bound _ Hne Hlim) as Hn. pose proof pow2_plen.
  unfold CanTp_Prv_SetTxBlockInfo, byte_ok in *. rewrite Hc, Hoff. quiet_steps.
  set (ch1 := if CANTP_DYNAMIC_FC_SUPPORT || (px_stm x =? CANTP_INVALID_STMIN_TICKS)
              then set_ch_STminTicks (tick (CanTp_Cfg_GetUsToTicks (StminUs st))) (set_ch_BS bs ch) else ch).
  assert (∀ K, K tt (foc w c s ch1 cf u tr) →
    wp (when (CANTP_DYNAMIC_FC_SUPPORT || (ch_STminTicks ch =? CANTP_INVALID_STMIN_TICKS))
      (data ← lift (SduDataPtr (mkPduInfo (Some (fc flow bs st)) (lenZ (fc flow bs st))));
       bs ← lift (aget data (asz + 1)); st ← lift (aget data (asz + 1 + 1));
       upd_ch c (set_ch_BS bs);; upd_ch c (set_ch_STminTicks (tick (CanTp_Cfg_GetUsToTicks (StminUs st)))))) K
      (foc w c s ch cf u tr)) as Hset.
  { intros K HK. subst ch1. rewrite Hstm in *. destruct (_ || _); cbn [when]; [|by apply wp_ret].
    foc_step. foc_step. foc_step. eapply wp_lift; [by apply (aget_pre _ 1)|]. foc_step.
    replace (asz + 1 + 1) with (asz + 2) by lia. eapply wp_lift; [by apply (aget_pre _ 2)|]. by foc_steps. }
  apply Hset. foc_step. assert (ch_ActiveSduId ch1 = id ∧ ch_SduLengthRemaining ch1 = lenZ (px_rest x)) as [H1 H2].
  { subst ch1. by destruct (_ || _). }
  eapply wp_ncfs; [done..|]. quiet_steps.
  assert (∃ bs' stm', tx_granted t bs st x = mkPos (px_rest x) (px_sn x)
      (if (bs' =? 0) || (ncfs t (px_rest x) <? bs') then ncfs t (px_rest x) else bs') bs' stm' ∧
    ch_BS ch1 = bs' ∧ ch_STminTicks ch1 = stm' ∧ ch_SN ch1 = px_sn x ∧ ch_PciId ch1 = ch_PciId ch ∧
    ch_TxBufferStatus ch1 = ch_TxBufferStatus ch ∧ ch_InitialTicks ch1 = ch_InitialTicks ch ∧ 0 ≤ bs' < 256)
    as (bs' & stm' & Eg & Eb & Es & En & Ep & Et & Ei & Hb).
  { subst ch1. unfold tx_granted. destruct (CANTP_DYNAMIC_FC_SUPPORT || _) eqn:E; [by eauto 12|].
    apply orb_false_iff in E as [_ E%Z.eqb_neq]. exists (px_bs x), (px_stm x). rewrite Hbs' by done. done. }
  rewrite Eg, Eb in *. rewrite (u16_small bs') by lia.
  destruct ((bs' =? 0) || (ncfs t (px_rest x) <? bs')) eqn:E; foc_step; apply HQ; ch_simpl; try done;
    unfold pos_rel; ch_simpl; cbn [px_rest px_sn px_blk px_bs px_stm]; bools; split_and?; try done; lia.
Qed.

Lemma flow_status X flow bs st x age ch cf u tr :
  fc_ctx flow X → cx_DataOffset X = asz + 1 → byte_ok bs → byte_ok st → 0 ≤ flow →
  aget cf k = Some CANTP_INVALID_CHANNEL → NumberOfTxPdus C ≤ lenZ cf → rel (TFc x age) ch (src u) now →
  wp (if flow =? CANTP_FC_WAIT then upd_ch c (set_ch_FlowStatus CANTP_FC_WAIT)
      else if flow =? CANTP_FC_CTS then
        upd_ch c (set_ch_FlowStatus CANTP_FC_CTS);;
        CanTp_Prv_SetTxBlockInfo X (mkPduInfo (Some (fc flow bs st)) (lenZ (fc flow bs st)));;
        set_sub c CANTP_TX_SEND_CONSECUTIVE_FRAME
      else
        CanTp_Prv_PduRConfirmation CANTP_TX_PDUR_CONFIRMATION h E_NOT_OK;; set_sub c CANTP_IDLE)
    (λ _, post_of tr (if flow =? CANTP_FC_WAIT then (TFc x 0, [])
       else if flow =? CANTP_FC_CTS then (TCf true false (tx_granted t bs st x) 0, []) else tx_fail t))
    (foc w c 3 (set_ch_InitialTicks now ch) cf u tr).
Proof using HOk HT He.
  intros HX Hoff Hbs Hst Hf0 Hk Hl (Hpos & Hsrc & Hne & HR & Hpci & Hbuf & Hfc & Hage).
  destruct (flow =? CANTP_FC_WAIT); [|destruct (flow =? CANTP_FC_CTS)].
  - foc_step. apply (tx_post_intro w tr (TFc x 0)); try done; [|by rewrite app_nil_r].
    unfold tx_rel in *. ch_simpl. by rewrite tick_self.
  - foc_step. foc_step. foc_step. eapply set_block with (x := x); try done.
    intros ch' Hp' Hb' HR' Hpc' Hbf' Hi'. ch_simpl. foc_step.
    assert (px_rest (tx_granted t bs st x) = px_rest x) as Hr by (unfold tx_granted; by case_match).
    apply (tx_post_intro w tr (TCf true false _ 0)); try done; [|by rewrite app_nil_r].
    unfold tx_rel. rewrite Hr, Hpc', Hpci, Hbf', Hbuf, Hi', tick_self. done.
  - foc_steps. apply fail_post; try done. by rewrite outs_app.
Qed.

Lemma flow_frame X flow bs st x age ch cf u tr :
  fc_ctx flow X → cx_FlowStatus X = flow → cx_DataOffset X = asz + 1 → byte_ok bs → byte_ok st → 0 ≤ flow →
  aget cf k = Some CANTP_INVALID_CHANNEL → NumberOfTxPdus C ≤ lenZ cf → rel (TFc x age) ch (src u) now →
  wp (CanTp_Prv_ProcessRxFlowControlFrame X (mkPduInfo (Some (fc flow bs st)) (lenZ (fc flow bs st))))
    (λ _, post_of tr (tx_flow t o flow bs st x age)) (foc w c 3 ch cf u tr).
Proof using HOk HT He.
  intros HX Hfl Hoff Hbs Hst Hf0 Hk Hl Hr. pose proof Hr as (Hpos & _ & _ & _ & _ & _ & _ & Hage).
  pose proof HX as (Hc & Hid & _ & _ & _ & Hh).
  pose proof (proj1 Hpos) as Hact. pose proof Ht as Ht'. rewrite <-Hact in Ht'.
  unfold CanTp_Prv_ProcessRxFlowControlFrame, tx_flow. rewrite Hc, Hh, Hfl. quiet_steps. test_is true. foc_step.
  rewrite <-Hage. destruct CANTP_STRICT_BSCRTIMEOUT_CHECK; cbn [andb]; quiet_steps.
  1: destruct (BsBrTicks o <? age); [foc_steps; apply fail_post; [done..|]; by rewrite outs_report, outs_app|].
  all: quiet_steps; by apply flow_status with age.
Qed.

Lemma fc_step flow bs st a ch cf u tr :
  0 ≤ flow ≤ 15 → byte_ok bs → byte_ok st →
  aget cf k = Some (tx_conf (t := t) a) → NumberOfTxPdus C ≤ lenZ cf → rel a ch (src u) now →
  wp (CanTp_RxIndication p (Some (mkPduInfo (Some (fc flow bs st)) (lenZ (fc flow bs st)))))
    (λ _, post_of tr (tx_step t o a (EFc flow bs st))) (foc w c (tx_sub a) ch cf u tr).
Proof using HOk HT He.
  intros Hf Hbs Hst Hk Hl Hr. unfold CanTp_RxIndication.
  eapply dev_pass; [exact (te_on _ He) | exact HC | apply HT |]. foc_step.
  apply fc_context; [done|]. intros e X Hyes Hno. cbv beta iota.
  destruct (decide (tx_sub a = 3)) as [E|E].
  - destruct (Hyes E) as [-> HX]. test_is false. foc_step. rewrite E in *. eapply fc_length; [done..|].
    intros X' HX' Hfl Hoff. cbv beta iota. test_is false. foc_step.
    destruct a; try discriminate E. unfold CanTp_Prv_ProcessFrame. pose proof HX' as (_ & _ & -> & _).
    test_is false. test_is false. test_is false. test_is true.
    eapply wp_mono; [eapply flow_frame; try done; apply Hf|]. intros [] w' Hp. by apply burst_off.
  - rewrite (Hno E). test_is true. foc_step.
    assert (tx_step t o a (EFc flow bs st) = (a, [])) as -> by (by destruct a).
    apply tx_post_intro; try done. by rewrite outs_report, app_nil_r.
Qed.
End step.

(** ** The refinement *)

Lemma call_wp a w e :
  tx_sim (C := C) (id := id) a w → tx_ev_ok e →
  wp (tx_call (id := id) (t := t) (p := p) (pre := pre) (post := post) e)
    (λ _ w', tx_sim (C := C) (id := id) (fst (tx_step t o a e)) w' ∧
             outs (trace w') = outs (trace w) ++ snd (tx_step t o a e)) w.
Proof using HOk HT.
  intros Hsim Hok. destruct (tx_sim_focus _ _ Hsim) as (ch & cf & Ew & Hk & Hl & Hr & He).
  assert (∀ m : M W unit, wp m (λ _, tx_post (C := C) (id := id) (t := t) w (trace w) (tx_step t o a e))
      (foc w c (tx_sub a) ch cf (up w) (trace w)) →
    wp m (λ _ w', tx_sim (C := C) (id := id) (fst (tx_step t o a e)) w' ∧
      outs (trace w') = outs (trace w) ++ snd (tx_step t o a e)) w) as Hgo.
  { intros m Hm. rewrite <-Ew in Hm. eapply wp_mono; [exact Hm|]. intros [] w' Hp. by eapply tx_post_sim. }
  destruct e as [| |flow bs st|]; cbn [tx_call].
  - apply (main_wp HT); [done|]. intros. by apply (exec_state HT).
  - apply Hgo. by apply conf_step.
  - destruct Hok as (Hf & Hbs & Hst). apply Hgo. by apply fc_step.
  - apply Hgo, wp_bind. eapply wp_mono; [by apply cancel_step|]. intros r w' Hp. by apply wp_ret.
Qed.
End ref.
