(* ===== verification/CanTpTxClaims.v ===== *)
(** * CanTp: the transmission of a message

    CanTp_Transmit starts the sender of [CanTpSender]; with the refinement this
    gives the theorems on a whole transfer. *)

From S2P Require Import Prelude ComStack CanTpTypes CanTpPrv CanTpFrames CanTpChan CanTp CanTpInv CanTpSafety CanTpProps CanTpSeg CanTpSender CanTpTxSim CanTpTxRef.
From stdpp Require Import base list numbers option.

#[local] Open Scope Z_scope.

Section transfer.
Context `{HCfg : CanTp_Cfg} {HOk : CanTp_CfgOk} {U : Type} `{HEnv : CanTp_Env U}.
Abbreviation W := (World U).
Context (C : CanTp_ConfigType) (id : Z) (t : CanTp_TxSduType) (o : CanTp_TimeOutType) (p : Z) (pre post : list Z).
Context (HT : TxConn C id t o p pre post).
Context {HS : TxSource U (tx_PduRPduHandleId t) (tx_TxPduId t)}.
Abbreviation c := (tx_ChannelId t).
Abbreviation h := (tx_PduRPduHandleId t).
Abbreviation asz := (asize (tx_AddressFormatId t)).
Abbreviation dl := (CanTp_Prv_GetTxDl t).
Let Hwf := txc_wf _ _ _ _ _ _ _ HT.
Let Ht := txc_t _ _ _ _ _ _ _ HT.

(** The calls of a sequence of events. *)
Fixpoint tx_calls (evs : list TxEv) : M W unit :=
  match evs with
  | [] => mret tt
  | e :: evs => tx_call (id := id) (t := t) (p := p) (pre := pre) (post := post) e;; tx_calls evs
  end.

Lemma calls_wp evs a w :
  tx_sim (C := C) (id := id) (t := t) a w → Forall tx_ev_ok evs →
  wp (tx_calls evs) (λ _ w', tx_sim (C := C) (id := id) (t := t) (fst (tx_run t o a evs)) w' ∧
      outs (trace w') = outs (trace w) ++ snd (tx_run t o a evs)) w.
Proof using HOk HT.
  revert a w. induction evs as [|e evs IH]; intros a w Hsim Hok; cbn [tx_calls tx_run].
  - apply wp_ret. split; [done|]. by rewrite app_nil_r.
  - apply Forall_cons_1 in Hok as [Hok1 Hok2]. apply wp_bind. eapply wp_mono; [by apply (call_wp HT)|].
    intros [] w1. destruct (tx_step t o a e) as [a1 l1]. intros [Hs1 Ho1]. eapply wp_mono; [by apply IH|].
    intros [] w2. cbn [fst]. destruct (tx_run t o a1 evs) as [a2 l2]. intros [Hs2 Ho2]. cbn [fst snd] in *.
    split; [done|]. by rewrite Ho2, Ho1, app_assoc.
Qed.

(** ** The start of a transmission *)

Definition functional : bool := CanTp_Prv_GetBit (tx_BitFields t) CANTP_FUNCTIONAL.

(** The frame a message of [len] bytes starts with. *)
Definition tx_pci (len : Z) : Z :=
  if len + asz + 1 <=? 8 then CANTP_NPCI_SFCAN
  else if (8 <? dl) && (len + asz + 2 <=? dl) then CANTP_NPCI_SFCANFD
  else if (8 <? dl) && (4095 <? len) then CANTP_NPCI_FFCANFD
  else CANTP_NPCI_FFCAN.

(** Messages that can be sent: a single frame on a functional connection, else up to the
    16 bits the code keeps of the limit on CAN FD and the 12 bits of a classic first frame. *)
Definition tx_accepts (len : Z) : bool :=
  (0 <? len) && if functional then tx_pci len <=? CANTP_NPCI_SFCANFD else len <=? (if 8 <? dl then 65535 else 4095).

Lemma tx_pci_range len : 0 ≤ tx_pci len ≤ 3.
Proof. unfold tx_pci. repeat case_match; consts; lia. Qed.

Lemma fd_dl : (8 <? dl) = CANTP_CANFD_SUPPORT && (8 <? dl).
Proof. unfold CanTp_Prv_GetTxDl. by destruct CANTP_CANFD_SUPPORT. Qed.

Lemma max_bound pci : 0 ≤ pci ≤ 3 → TxMaxLength t pci asz ≤ 65535.
Proof using HOk HT.
  intros Hp. destruct (tx_facts C Hwf id t Ht) as (_ & Ha & _ & Hdl & _). unfold TxMaxLength. consts.
  rewrite (u8_small (dl - 1 - asz)) by lia. rewrite (u32_small (dl - 1 - asz - 1)) by lia.
  pose proof (u16_bound (if 8 <? dl then 4294967295 else 4095)). repeat case_match; try lia. done.
Qed.

(** CanTp_Transmit chooses the PCI and applies the limit. *)
Lemma accept_spec len :
  0 < len < 4294967296 →
  ∃ pci, CanTp_Prv_TxPciInit t len = Some pci ∧ 0 ≤ pci ≤ 3 ∧
    (TxMaxLength t pci asz <? len) = negb (tx_accepts len) ∧ (tx_accepts len = true → pci = tx_pci len).
Proof using HOk HT.
  intros Hlen. destruct (tx_facts C Hwf id t Ht) as (Has & Ha & _ & Hdl & _ & Hcan).
  unfold CanTp_Prv_TxPciInit. rewrite Has. cbn [mbind option_bind].
  eexists. split; [done|]. set (pci := if _ <=? _ then _ else _).
  assert (0 ≤ pci ≤ 3) as Hp by (unfold pci; repeat case_match; consts; lia). split; [done|].
  destruct (Z.lt_ge_cases len (4294967296 - 3)) as [Hs|Hs].
  - assert (pci = tx_pci len) as Epci.
    { unfold pci, tx_pci. rewrite !u32_small by lia. unfold CANTP_DEFAULT_CAN_DL, CANTP_MAXFFDL. by rewrite !andb_assoc, <-!fd_dl. }
    split; [|done]. rewrite Epci. clear pci Epci Hp. unfold tx_accepts, TxMaxLength. fold functional.
    rewrite (proj2 (Z.ltb_lt 0 len)) by lia. cbn [andb]. consts.
    rewrite (u8_small (dl - 1 - asz)) by lia. rewrite (u32_small (dl - 1 - asz - 1)) by lia.
    destruct functional.
    + unfold tx_pci. consts. repeat case_match; bools; cbn; try lia; (apply Z.ltb_lt || apply Z.ltb_ge); lia.
    + unfold CanTp_Prv_GetTxDl in *. rewrite Z.ltb_antisym.
      destruct CANTP_CANFD_SUPPORT; [by destruct (8 <? _)|done].
  - pose proof (max_bound _ Hp). assert (tx_accepts len = false) as E.
    { unfold tx_accepts. rewrite (proj2 (Z.ltb_lt 0 len)) by lia. destruct functional; cbn.
      - unfold tx_pci. consts. repeat case_match; bools; try lia; done.
      - apply Z.leb_gt. case_match; lia. }
    rewrite E. split; [apply Z.ltb_lt; lia | done].
Qed.

Lemma accepted_fits sdu : tx_accepts (lenZ sdu) = true → pci_fits (t := t) (tx_pci (lenZ sdu)) sdu.
Proof using HOk HT.
  destruct (tx_facts C Hwf id t Ht) as (_ & Ha & _ & Hdl & _ & Hcan). intros Hacc. unfold tx_accepts in Hacc. bools.
  assert (8 < dl → CANTP_CANFD_SUPPORT = true) as Hfd.
  { unfold CanTp_Prv_GetTxDl. destruct CANTP_CANFD_SUPPORT; [done|]. unfold CANTP_DEFAULT_CAN_DL. lia. }
  assert (tx_pci (lenZ sdu) = CANTP_NPCI_FFCAN → lenZ sdu ≤ 4095) as Hlim.
  { revert H0. unfold tx_pci. destruct functional.
    - consts. repeat case_match; bools; try lia; intros; bools; lia.
    - destruct (Z.ltb_spec 8 dl); cbn [andb]; consts; repeat case_match; bools; intros; bools; lia. }
  unfold pci_fits, ff_payload. revert Hlim. unfold tx_pci. consts.
  destruct (Z.leb_spec (lenZ sdu + asz + 1) 8); [left; cbn; lia|].
  destruct (Z.ltb_spec 8 dl); cbn [andb]; [|right; cbn; lia].
  destruct (Z.leb_spec (lenZ sdu + asz + 2) dl); [left; cbn; split_and!; auto; lia|].
  destruct (Z.ltb_spec 4095 (lenZ sdu)); right; cbn; split_and!; auto; lia.
Qed.

(** CanTp_Transmit on an idle channel: an acceptable message starts the sender, any other
    one is refused and changes nothing. *)
Lemma transmit_foc w ch cf u tr :
  tx_env (C := C) (t := t) w → aget cf (tx_TxConfirmationId t) = Some CANTP_INVALID_CHANNEL → NumberOfTxPdus C ≤ lenZ cf →
  lenZ (src u) < 2 ^ PduLengthBits →
  wp (CanTp_Transmit id (Some (lenZ (src u))))
    (λ r w', if tx_accepts (lenZ (src u))
       then r = E_OK ∧ tx_post (C := C) (id := id) (t := t) w tr (TReq (tx_pci (lenZ (src u))) (src u) 0, []) w'
       else r = E_NOT_OK ∧ tx_post (C := C) (id := id) (t := t) w tr (TIdle, []) w') (foc w c 0 ch cf u tr).
Proof using HOk HT.
  intros He Hk Hl Hlim. pose proof (te_cfg _ He) as HC. pose proof (te_valid _ He) as Hv.
  destruct (tx_facts C Hwf id t Ht) as (Has & _). pose proof (lenZ_nonneg (src u)) as H0. pose proof pow2_plen.
  assert (0 ≤ id < 256) as Hid by (pose proof (aget_Some _ _ _ Ht); pose proof (cw_txsdus _ Hwf); lia).
  unfold CanTp_Transmit. eapply dev_pass; [exact (te_on _ He) | exact HC | exact (txc_id _ _ _ _ _ _ _ HT) |].
  foc_step. foc_step. foc_step. destruct (Z.eqb_spec (lenZ (src u)) 0) as [E0|E0].
  { foc_step. test_is true. foc_steps. unfold tx_accepts. rewrite E0. split; [done|].
    apply tx_post_intro; try done. by rewrite outs_report, app_nil_r. }
  destruct (accept_spec (lenZ (src u))) as (pci & Epci & Hpci & Emax & Hacc); [lia|].
  foc_step. foc_step. foc_step. foc_step. foc_step. rewrite Emax.
  destruct (tx_accepts (lenZ (src u))) eqn:Eacc; cbn [negb].
  - test_is false. quiet_steps. eapply wp_GetState; [done | reflexivity|]. cbv beta. test_is true. foc_steps.
    split; [done|]. rewrite u8_small by lia. rewrite (Hacc eq_refl).
    apply tx_post_intro; try done; [|by rewrite app_nil_r].
    unfold tx_rel. ch_simpl. rewrite tick_self. split_and!; try done; try lia. by apply accepted_fits.
  - test_is true. foc_steps. split; [done|]. apply tx_post_intro; try done. by rewrite outs_report, app_nil_r.
Qed.

Lemma transmit_wp w :
  tx_sim (C := C) (id := id) (t := t) TIdle w → lenZ (src (up w)) < 2 ^ PduLengthBits →
  wp (CanTp_Transmit id (Some (lenZ (src (up w)))))
    (λ r w', outs (trace w') = outs (trace w) ∧
       if tx_accepts (lenZ (src (up w)))
       then r = E_OK ∧ tx_sim (C := C) (id := id) (t := t) (TReq (tx_pci (lenZ (src (up w)))) (src (up w)) 0) w'
       else r = E_NOT_OK ∧ tx_sim (C := C) (id := id) (t := t) TIdle w') w.
Proof using HOk HT.
  intros Hsim Hlim. destruct (tx_sim_focus _ _ Hsim) as (ch & cf & Ew & Hk & Hl & _ & He).
  pose proof (transmit_foc w ch cf (up w) (trace w) He Hk Hl Hlim) as Hwp. cbn [tx_sub] in Ew.
  rewrite <-Ew in Hwp. eapply wp_mono; [exact Hwp|]. intros r w'. destruct (tx_accepts _); intros [-> Hp];
    destruct (tx_post_sim _ _ _ _ He Hp) as [Hs Ho']; cbn [snd] in Ho'; rewrite app_nil_r in Ho'; done.
Qed.

(** A message is handed over, then the neighbours call as they like. *)
Definition transfer (len : Z) (evs : list TxEv) : M W Std_ReturnType :=
  r ← CanTp_Transmit id (Some len); tx_calls evs;; mret r.

Lemma transfer_wp evs w :
  tx_sim (C := C) (id := id) (t := t) TIdle w → tx_accepts (lenZ (src (up w))) = true →
  lenZ (src (up w)) < 2 ^ PduLengthBits → Forall tx_ev_ok evs →
  let a := TReq (tx_pci (lenZ (src (up w)))) (src (up w)) 0 in
  wp (transfer (lenZ (src (up w))) evs)
    (λ r w', r = E_OK ∧ tx_sim (C := C) (id := id) (t := t) (fst (tx_run t o a evs)) w' ∧
             outs (trace w') = outs (trace w) ++ snd (tx_run t o a evs)) w.
Proof using HOk HT.
  intros Hsim Hacc Hlim Hevs a. unfold transfer. apply wp_bind. eapply wp_mono; [by apply transmit_wp|].
  intros r w1 [Ho1 H1]. rewrite Hacc in H1. destruct H1 as [-> Hs1]. apply wp_bind.
  eapply wp_mono; [by apply calls_wp|]. intros [] w2 [Hs2 Ho2]. apply wp_ret. rewrite Ho1 in Ho2. done.
Qed.

Lemma cf_payload_pos : 1 ≤ cf_payload t.
Proof using HOk HT.
  destruct (tx_facts C Hwf id t Ht) as (_ & Ha & _ & Hdl & _). unfold cf_payload. lia.
Qed.
End transfer.

(** ** A concrete transfer *)

#[export] Instance ex_source : TxSource Upper 200 100.
Proof.
  refine {| src := tx_pending |}.
  - intros u n Hn. eexists. cbn. rewrite (proj2 (Z.leb_le _ _)) by lia. rewrite lenZ_drop by lia. done.
  - intros u d n. by eexists.
Defined.

(** The state after CanTp_Init. *)
Definition ex_idle (u : Upper) : World Upper :=
  mkWorld (mkVars true (Some ex_config) (replicate 2 (mkChannel 0 0 0 0 0 0 0 0 0 0 0 0 0)) [0; 0]
             [2; 2] (mkQ 0 0 (replicate 4 0)) [(0, 0)] 0) u [].

Lemma ex_TxConn : TxConn ex_config 0 ex_tx (mkTimeOut 100 100 100) 1 [] (replicate 5 0xAA).
Proof. split; try done; [apply ex_config_wf|]. split; [done|]. by eexists. Qed.

Lemma ex_idle_sim u : tx_sim (C := ex_config) (id := 0) (t := ex_tx) TIdle (ex_idle u).
Proof.
  split; [|split; [done|split; [done|]]]; [|by eexists].
  split; try done. intros i Hi Hne. cbn in *. by assert (i = 1) as -> by lia.
Qed.

Lemma coop_ok `{CanTp_Cfg} t o bs st n a : byte_ok bs → byte_ok st → Forall tx_ev_ok (coop_events t o bs st n a).
Proof.
  intros Hbs Hst. revert a. induction n as [|n IH]; intros a; cbn [coop_events]; constructor; [|apply IH].
  destruct a; cbn; unfold CANTP_FC_CTS; split_and?; try done; lia.
Qed.

Section claims.
Context `{HCfg : CanTp_Cfg} {HOk : CanTp_CfgOk} {U : Type} `{HEnv : CanTp_Env U}.

(** C2. The transmit half of CanTp refines the sender of the transport protocol: when a
    message is handed to an idle connection, CanTp_Transmit accepts it, and whatever sequence
    of main-function runs, confirmations, flow control frames and cancellations follows, the
    frames on the bus and the confirmations to the upper layer are those of the sender, and
    the channel is in the sender's state. *)
Theorem cantp_refines_sender (C : CanTp_ConfigType) (id : Z) (t : CanTp_TxSduType) (o : CanTp_TimeOutType)
    (p : Z) (pre post : list Z) {HS : TxSource U (tx_PduRPduHandleId t) (tx_TxPduId t)} (w : World U) (evs : list TxEv) :
  TxConn C id t o p pre post → tx_sim (C := C) (id := id) TIdle w →
  tx_accepts t (lenZ (src (up w))) = true → lenZ (src (up w)) < 2 ^ PduLengthBits → Forall tx_ev_ok evs →
  let a := TReq (tx_pci t (lenZ (src (up w)))) (src (up w)) 0 in
  ∃ w', transfer id t p pre post (lenZ (src (up w))) evs w = Some (E_OK, w') ∧
    outs (trace w') = outs (trace w) ++ snd (tx_run t o a evs) ∧
    aget (CanTp_SubState (tp w')) (tx_ChannelId t) = Some (tx_sub (fst (tx_run t o a evs))).
Proof using HOk.
  intros HT Hsim Hacc Hlim Hevs a. destruct (wp_run _ _ _ (transfer_wp _ _ _ _ _ _ _ HT _ _ Hsim Hacc Hlim Hevs))
    as (r & w' & Hrun & -> & Hs & Ho). exists w'. split_and!; [done..|apply Hs].
Qed.

(** C3. While the other channels are idle, PduR supplies the bytes of the message and CanIf
    accepts every frame: for any sequence of main-function runs, confirmations, flow control
    frames of any content and cancellations, in any order and at any time, the frames a
    transmission puts on the bus are the first ones of the segmentation of the message, in order
    and without repetition; the upper layer gets exactly one confirmation once the channel is
    idle again, and a positive one only after the last frame. *)
Theorem cantp_sends_segmentation (C : CanTp_ConfigType) (id : Z) (t : CanTp_TxSduType) (o : CanTp_TimeOutType)
    (p : Z) (pre post : list Z) {HS : TxSource U (tx_PduRPduHandleId t) (tx_TxPduId t)} (w : World U) (evs : list TxEv) :
  TxConn C id t o p pre post → tx_sim (C := C) (id := id) TIdle w →
  tx_accepts t (lenZ (src (up w))) = true → lenZ (src (up w)) < 2 ^ PduLengthBits → Forall tx_ev_ok evs →
  ∃ w' fs rest fin, transfer id t p pre post (lenZ (src (up w))) evs w = Some (E_OK, w') ∧
    outs (trace w') = outs (trace w) ++ map (OFrame (tx_TxPduId t)) fs ++ fin ∧
    segment t (tx_pci t (lenZ (src (up w)))) (src (up w)) = fs ++ rest ∧
    (fin = [] ∧ aget (CanTp_SubState (tp w')) (tx_ChannelId t) ≠ Some CANTP_IDLE ∨
     aget (CanTp_SubState (tp w')) (tx_ChannelId t) = Some CANTP_IDLE ∧
       (fin = [OConfirm (tx_PduRPduHandleId t) E_OK] ∧ rest = [] ∨ fin = [OConfirm (tx_PduRPduHandleId t) E_NOT_OK])).
Proof using HOk.
  intros HT Hsim Hacc Hlim Hevs. destruct (wp_run _ _ _ (transfer_wp _ _ _ _ _ _ _ HT _ _ Hsim Hacc Hlim Hevs))
    as (r & w' & Hrun & -> & Hs & Ho).
  destruct (run_prefix t o (cf_payload_pos _ _ _ _ _ _ _ HT) (TReq (tx_pci t (lenZ (src (up w)))) (src (up w)) 0) evs)
    as (fs & rest & fin & E1 & E2 & E3); [done | apply tx_pci_range |].
  exists w', fs, rest, fin. rewrite E1 in Ho. split_and!; [done..|].
  destruct Hs as (_ & Hsub & _). destruct E3 as [(-> & Hne & _)|[Hid Hfin]].
  - left. split; [done|]. rewrite Hsub. by destruct (fst _).
  - right. rewrite Hsub, Hid. done.
Qed.

(** C4. A transmission finishes: when the bus confirms the frames and the receiver answers
    with clear-to-send (any block size and separation time), there is a finite sequence of
    calls - those this environment makes - after which exactly the frames of the segmentation
    and then one positive confirmation have been given, and the channel is idle. *)
Theorem cantp_transmission_completes (C : CanTp_ConfigType) (id : Z) (t : CanTp_TxSduType) (o : CanTp_TimeOutType)
    (p : Z) (pre post : list Z) {HS : TxSource U (tx_PduRPduHandleId t) (tx_TxPduId t)} (w : World U) (bs st : Z) :
  TxConn C id t o p pre post → tx_sim (C := C) (id := id) TIdle w →
  tx_accepts t (lenZ (src (up w))) = true → lenZ (src (up w)) < 2 ^ PduLengthBits → byte_ok bs → byte_ok st →
  0 ≤ TickBits → 0 < CsCrTicks o → 0 ≤ BsBrTicks o → (fc_off t = true → stm_ok CANTP_DEFAULT_STMIN_TICKS) →
  let a := TReq (tx_pci t (lenZ (src (up w)))) (src (up w)) 0 in
  ∃ n w', transfer id t p pre post (lenZ (src (up w))) (coop_events t o bs st n a) w = Some (E_OK, w') ∧
    outs (trace w') = outs (trace w) ++
      map (OFrame (tx_TxPduId t)) (segment t (tx_pci t (lenZ (src (up w)))) (src (up w))) ++
      [OConfirm (tx_PduRPduHandleId t) E_OK] ∧
    aget (CanTp_SubState (tp w')) (tx_ChannelId t) = Some CANTP_IDLE.
Proof using HOk.
  intros HT Hsim Hacc Hlim Hbs Hst Htb Hcs Hbr Hdef a.
  destruct (ends_req t o (cf_payload_pos _ _ _ _ _ _ _ HT) bs st Htb Hcs Hbr Hdef (tx_pci t (lenZ (src (up w)))) (src (up w)))
    as [n Hn]; [apply tx_pci_range|]. fold a in Hn.
  assert (Forall tx_ev_ok (coop_events t o bs st n a)) as Hevs by (by apply coop_ok).
  destruct (wp_run _ _ _ (transfer_wp _ _ _ _ _ _ _ HT _ _ Hsim Hacc Hlim Hevs)) as (r & w' & Hrun & -> & Hs & Ho).
  exists n, w'. fold a in Hs, Ho. rewrite Hn in Hs, Ho. split_and!; [done..|apply Hs].
Qed.
End claims.

(** A message of 20 bytes: its first frame goes out and is confirmed, clear-to-send for one
    frame arrives, and the first consecutive frame goes out. *)
Lemma cantp_refines_sender_witness :
  ∃ w', transfer 0 ex_tx 1 [] (replicate 5 0xAA) 20 [EMain; EConf; EFc 0 1 0; EMain]
          (ex_idle (mkUpper (seqZ 1 20) [] 0 [])) = Some (E_OK, w') ∧
    outs (trace w') = [OFrame 100 [16; 20; 1; 2; 3; 4; 5; 6]; OFrame 100 [33; 7; 8; 9; 10; 11; 12; 13]] ∧
    aget (CanTp_SubState (tp w')) 0 = Some 2.
Proof.
  set (w := ex_idle (mkUpper (seqZ 1 20) [] 0 [])).
  assert (Forall tx_ev_ok [EMain; EConf; EFc 0 1 0; EMain]) as Hevs by (repeat constructor; done).
  destruct (cantp_refines_sender ex_config 0 ex_tx (mkTimeOut 100 100 100) 1 [] (replicate 5 0xAA) w
    _ ex_TxConn (ex_idle_sim _) eq_refl eq_refl Hevs) as (w' & Hrun & Ho & Hs).
  exists w'. split; [exact Hrun|]. split; [|exact Hs]. rewrite Ho. vm_compute. reflexivity.
Defined.

(** The receiver refuses after the first frame. *)
Lemma cantp_sends_segmentation_witness :
  ∃ w' fs rest fin, transfer 0 ex_tx 1 [] (replicate 5 0xAA) 20 [EMain; EConf; EFc 2 0 0]
          (ex_idle (mkUpper (seqZ 1 20) [] 0 [])) = Some (E_OK, w') ∧
    outs (trace w') = [] ++ map (OFrame 100) fs ++ fin ∧
    segment ex_tx 2 (seqZ 1 20) = fs ++ rest ∧
    (fin = [] ∧ aget (CanTp_SubState (tp w')) 0 ≠ Some CANTP_IDLE ∨
     aget (CanTp_SubState (tp w')) 0 = Some CANTP_IDLE ∧
       (fin = [OConfirm 200 E_OK] ∧ rest = [] ∨ fin = [OConfirm 200 E_NOT_OK])).
Proof.
  set (w := ex_idle (mkUpper (seqZ 1 20) [] 0 [])).
  assert (Forall tx_ev_ok [EMain; EConf; EFc 2 0 0]) as Hevs by (repeat constructor; done).
  exact (cantp_sends_segmentation ex_config 0 ex_tx (mkTimeOut 100 100 100) 1 [] (replicate 5 0xAA) w
    _ ex_TxConn (ex_idle_sim _) eq_refl eq_refl Hevs).
Defined.

(** Block size 1, 3 ms between frames. *)
Lemma cantp_transmission_completes_witness :
  ∃ n w', transfer 0 ex_tx 1 [] (replicate 5 0xAA) 20 (coop_events ex_tx (mkTimeOut 100 100 100) 1 3 n (TReq 2 (seqZ 1 20) 0))
      (ex_idle (mkUpper (seqZ 1 20) [] 0 [])) = Some (E_OK, w') ∧
    outs (trace w') = [] ++ [OFrame 100 [16; 20; 1; 2; 3; 4; 5; 6]; OFrame 100 [33; 7; 8; 9; 10; 11; 12; 13];
                             OFrame 100 [34; 14; 15; 16; 17; 18; 19; 20]; OConfirm 200 E_OK] ∧
    aget (CanTp_SubState (tp w')) 0 = Some CANTP_IDLE.
Proof.
  set (w := ex_idle (mkUpper (seqZ 1 20) [] 0 [])).
  assert (fc_off ex_tx = true → stm_ok CANTP_DEFAULT_STMIN_TICKS) as Hdef by discriminate.
  destruct (cantp_transmission_completes ex_config 0 ex_tx (mkTimeOut 100 100 100) 1 [] (replicate 5 0xAA)
    w 1 3 ex_TxConn (ex_idle_sim _) eq_refl eq_refl ltac:(done) ltac:(done) ltac:(done) ltac:(done) ltac:(done) Hdef)
    as (n & w' & Hrun & Ho & Hs).
  exists n, w'. split; [exact Hrun|]. split; [|exact Hs]. rewrite Ho. vm_compute. reflexivity.
Defined.
