(* ===== verification/CanTpRxSim.v ===== *)
(** * CanTp: the receive half implements the receiver

    The simulation between a channel that receives and the state machine of
    [CanTpReceiver]: the main function. *)

From S2P Require Import Prelude ComStack CanTpTypes CanTpPrv CanTpFrames CanTpChan CanTp CanTpInv CanTpSafe CanTpSafeState CanTpSafeRx CanTpSafety CanTpSeg CanTpSender CanTpReceiver CanTpTxSim CanTpTxRef.
From stdpp Require Import base list numbers option.

#[local] Open Scope Z_scope.

(** The upper layer behind handle [h] accepts messages of up to [snk_cap] bytes; the CAN
    interface accepts the frames of PDU [pdu]. *)
Class RxSink (U : Type) `{CanTp_Env U} (h pdu : Z) := {
  room : U → Z;
  snk_cap : Z;
  snk_start : ∀ u d n, n ≤ snk_cap →
    ∃ u', PduR_CanTpStartOfReception h d n u = (BUFREQ_OK, room u', u') ∧ n ≤ room u';
  snk_copy : ∀ u d, lenZ d ≤ room u →
    ∃ u', PduR_CanTpCopyRxData h d u = (BUFREQ_OK, room u', u') ∧ room u' = room u - lenZ d;
  snk_canif : ∀ u d n, ∃ u', CanIf_Transmit pdu d n u = (E_OK, u') ∧ room u' = room u
}.

(** Connection [j] of configuration [C], its data frames arriving on PDU [q] behind the
    address bytes [pre]. *)
Record RxConn `{CanTp_Cfg} (C : CanTp_ConfigType) (j : Z) (r : CanTp_RxSduType) (o : CanTp_TimeOutType)
    (q : Z) (pre : list Z) : Prop := {
  rxc_wf : config_wf C;
  rxc_r : aget (RxSdu C) j = Some r;
  rxc_j : j < NumberOfRxSdus C;
  rxc_o : aget (TimeOut C) (rx_TimeOutId r) = Some o;
  rxc_burst : CANTP_TX_BURST_MODE = false;
  rxc_trigger : CANTP_TRIGGER_TRANSMIT_API && CanTp_Prv_GetBit (rx_BitFields r) CANTP_TRIGGER_TRANSMIT_ON = false;
  rxc_callout : CANTP_FD_CALLOUT_SUPPORT = false;
  rxc_physical : CanTp_Prv_GetBit (rx_BitFields r) CANTP_FUNCTIONAL = false;
  rxc_pdu : q < NumberOfRxPdus C ∧ ∃ rp, aget (RxPdu C) q = Some rp ∧
    match rp_GetSduPair rp with
    | None => pre = [] ∧ rp_RxSduId rp = j
    | Some f => ∃ a, pre = [a] ∧ snd (f (rp_TxSduId rp) (rp_RxSduId rp) a) = j
    end;
  rxc_pre : lenZ pre = asize (rx_AddressFormatId r)
}.

Section sim.
Context `{HCfg : CanTp_Cfg} {HOk : CanTp_CfgOk} {U : Type} `{HEnv : CanTp_Env U}.
Abbreviation W := (World U).
Context {C : CanTp_ConfigType} {j : Z} {r : CanTp_RxSduType} {o : CanTp_TimeOutType} {q : Z} {pre : list Z}.
Context (HR : RxConn C j r o q pre) {stmin bsmax : Z}.
Context {HK : RxSink U (rx_PduRPduHandleId r) (rx_TxPduId r)}.
Abbreviation c := (rx_ChannelId r).
Abbreviation h := (rx_PduRPduHandleId r).
Abbreviation asz := (asize (rx_AddressFormatId r)).
Abbreviation k := (rx_TxConfirmationId r).
Let Hwf := rxc_wf _ _ _ _ _ _ HR.
Let Hr := rxc_r _ _ _ _ _ _ HR.
Let Ho := rxc_o _ _ _ _ _ _ HR.
Let Htrig := rxc_trigger _ _ _ _ _ _ HR.

(** ** The simulation relation *)

Definition rx_sub (a : RxAbs) : Z := match a with RIdle => 0 | RSendFc _ _ => 6 | RFcConf _ _ => 7 | RCf _ _ => 8 end.
Definition rx_conf (a : RxAbs) : Z := match a with RFcConf _ _ => c | _ => CANTP_INVALID_CHANNEL end.

(** The data length of the frames of a reception. *)
Definition ch_dl (ch : CanTp_ChannelType) : Z := if CANTP_CANFD_SUPPORT then ch_RX_DL ch else CANTP_DEFAULT_CAN_DL.

Definition rpos_rel (ch : CanTp_ChannelType) (y : RxPos) (u : U) : Prop :=
  ch_ActiveSduId ch = j ∧ ch_SduLengthRemaining ch = ry_left y ∧ 0 < ry_left y < 2 ^ PduLengthBits ∧
  ch_SN ch = ry_sn y ∧ 0 ≤ ry_sn y ≤ 15 ∧ ch_dl ch = ry_dl y ∧ dl_valid (ry_dl y) ∧ ry_left y ≤ room u ∧
  (CANTP_DYNAMIC_FC_SUPPORT = false → ch_STminTicks ch ≠ CANTP_INVALID_STMIN_TICKS → ch_BS ch = bsmax).

(** An idle channel keeps the bounds that make the look-up for a stray frame defined. *)
Definition idle_rel (ch : CanTp_ChannelType) : Prop :=
  0 ≤ ch_SduLengthRemaining ch ∧
  (CANTP_CANFD_SUPPORT = true → 0 ≤ ch_RX_DL ch ≤ 64 ∧ (2 ≤ ch_RX_DL ch ∨ ch_SduLengthRemaining ch ≤ 62)).

Definition rx_rel (a : RxAbs) (ch : CanTp_ChannelType) (u : U) (now : Z) : Prop :=
  match a with
  | RIdle => idle_rel ch
  | RSendFc y age => rpos_rel ch y u ∧ ch_FlowStatus ch = CANTP_FC_WAIT ∧ age = tick (now - ch_InitialTicks ch)
  | RFcConf y age =>
      rpos_rel ch y u ∧ ch_BlockCfsRemaining ch = ry_blk y ∧ 0 < ry_blk y < 2 ^ PduLengthBits ∧
      ch_FlowStatus ch = CANTP_FC_CTS ∧ age = tick (now - ch_InitialTicks ch)
  | RCf y age =>
      rpos_rel ch y u ∧ ch_BlockCfsRemaining ch = ry_blk y ∧ 0 < ry_blk y < 2 ^ PduLengthBits ∧
      age = tick (now - ch_InitialTicks ch)
  end.

(** The module is initialised with [C], no other channel is busy, and the flow control
    parameters of the connection are [stmin] and [bsmax]. *)
Record rx_env (w : W) : Prop := {
  re_cfg : CanTp_CfgPtr (tp w) = Some C;
  re_on : CanTp_MainState (tp w) = true;
  re_valid : ch_valid w c;
  re_conf : NumberOfTxPdus C ≤ lenZ (CanTp_TxConfirmationChannel (tp w));
  re_idle : ∀ i, 0 ≤ i < NumberOfChannels C → i ≠ c → aget (CanTp_SubState (tp w)) i = Some 0;
  re_bytes : byte_ok stmin ∧ byte_ok bsmax;
  re_param : if CANTP_CHANGE_PARAMETER_API then aget (CanTp_ParamPair (tp w)) j = Some (stmin, bsmax)
    else ∃ r' pa, aget (RxSdu C) j = Some r' ∧ aget (Param C) (rx_ParamId r') = Some pa ∧ (stmin, bsmax) = pa_Param pa
}.

Definition rx_sim (a : RxAbs) (w : W) : Prop :=
  rx_env w ∧
  aget (CanTp_SubState (tp w)) c = Some (rx_sub a) ∧
  aget (CanTp_TxConfirmationChannel (tp w)) k = Some (rx_conf a) ∧
  ∃ ch, aget (CanTp_Channel (tp w)) c = Some ch ∧ rx_rel a ch (up w) (CanTp_MainFunctionTicks (tp w)).

(** ** Entering and leaving a step *)

Definition rx_post (w : W) (tr : list CanTp_Event) (x : RxAbs * list out) (w' : W) : Prop :=
  ∃ ch cf u tr', w' = foc w c (rx_sub (fst x)) ch cf u tr' ∧ aget cf k = Some (rx_conf (fst x)) ∧
    NumberOfTxPdus C ≤ lenZ cf ∧ rx_rel (fst x) ch u (CanTp_MainFunctionTicks (tp w)) ∧
    outs tr' = outs tr ++ snd x.

Lemma rx_post_intro w tr a l ch cf u tr' :
  aget cf k = Some (rx_conf a) → NumberOfTxPdus C ≤ lenZ cf →
  rx_rel a ch u (CanTp_MainFunctionTicks (tp w)) → outs tr' = outs tr ++ l →
  rx_post w tr (a, l) (foc w c (rx_sub a) ch cf u tr').
Proof. intros. exists ch, cf, u, tr'. done. Qed.

Lemma rx_post_sim w tr x w' :
  rx_env w → rx_post w tr x w' → rx_sim (fst x) w' ∧ outs (trace w') = outs tr ++ snd x.
Proof.
  intros [] (ch & cf & u & tr' & -> & Hk & Hl & Hrel & Ho'). split; [|done].
  destruct re_valid0 as [Hv1 Hv2]. split; [|split; [|split; [done|]]].
  - split; cbn; try done.
    + split; cbn; by rewrite lenZ_insert.
    + intros i Hi Hne. rewrite aget_insert_ne by lia. by apply re_idle0.
  - cbn. by apply aget_insert_eq.
  - exists ch. split; [|done]. cbn. by apply aget_insert_eq.
Qed.

Lemma rx_sim_focus a w :
  rx_sim a w → ∃ ch cf, w = foc w c (rx_sub a) ch cf (up w) (trace w) ∧ aget cf k = Some (rx_conf a) ∧
    NumberOfTxPdus C ≤ lenZ cf ∧ rx_rel a ch (up w) (CanTp_MainFunctionTicks (tp w)) ∧ rx_env w.
Proof.
  intros (He & Hs & Hk & ch & Hch & Hrel). exists ch, (CanTp_TxConfirmationChannel (tp w)).
  split_and!; try done; [by apply foc_intro | apply He].
Qed.

Lemma rx_rel_older a ch u now : rx_rel a ch u now → rx_rel (rx_older a) ch u (tick (now + 1)).
Proof. destruct a; cbn; [done|..]; intros; destruct_and!; subst; rewrite tick_older; done. Qed.

Lemma later_rx_sim a w : rx_sim a w → rx_sim (rx_older a) (later w).
Proof.
  intros ([] & Hs & Hk & ch & Hch & Hrel). unfold rx_sim.
  replace (rx_sub (rx_older a)) with (rx_sub a) by (by destruct a).
  replace (rx_conf (rx_older a)) with (rx_conf a) by (by destruct a).
  split_and!; [by split|done..|]. exists ch. split; [done|]. by apply rx_rel_older.
Qed.

Lemma rx_main_wp a w :
  rx_sim a w →
  (∀ ch cf, aget cf k = Some (rx_conf a) → NumberOfTxPdus C ≤ lenZ cf →
    rx_rel a ch (up w) (CanTp_MainFunctionTicks (tp w)) →
    wp (CanTp_Prv_ExecuteState c) (λ _, rx_post w (trace w) (rx_exec r o stmin bsmax a))
      (foc w c (rx_sub a) ch cf (up w) (trace w))) →
  wp CanTp_MainFunction (λ _ w', rx_sim (fst (rx_step r o stmin bsmax a REMain)) w' ∧
      outs (trace w') = outs (trace w) ++ snd (rx_step r o stmin bsmax a REMain)) w.
Proof using HR.
  intros Hsim Hex. unfold CanTp_MainFunction. wp_step. wp_step.
  rewrite (re_on _ (proj1 Hsim)), andb_false_r. cbv iota. rewrite (rxc_burst _ _ _ _ _ _ HR). wp_step. wp_step.
  wp_step. unfold cfg. wp_step. wp_step. eapply wp_lift; [apply Hsim|]. wp_step.
  pose proof (rxw_channel _ _ (cw_rx _ Hwf _ _ Hr)) as Hc.
  pose proof (cw_channels _ Hwf) as Hn.
  apply (main_one _ _ c); [lia | intros; apply Hsim; lia |].
  destruct (rx_sim_focus _ _ Hsim) as (ch & cf & Ew & Hk & Hl & Hrel & He).
  pose proof (Hex ch cf Hk Hl Hrel) as Hx. rewrite <-Ew in Hx.
  eapply wp_mono; [exact Hx|]. intros [] w' Hp. pose proof (rx_post_sim _ _ _ _ He Hp) as [Hs' Ho'].
  split; [intros; apply Hs'; lia|]. unfold CanTp_IncrementCounter. wp_step. fold (later w').
  unfold rx_step. destruct (rx_exec r o stmin bsmax a) as [a' l]. split; [by apply later_rx_sim | done].
Qed.

(** ** The states of a reception *)

Section exec.
Context (w : W) (He : rx_env w).
Let HC := re_cfg _ He.
Let Hv := re_valid _ He.
Abbreviation now := (CanTp_MainFunctionTicks (tp w)).

Lemma rx_facts : aget CanTp_AddressSize (rx_AddressFormatId r) = Some asz ∧ 0 ≤ asz ≤ 1 ∧ 0 ≤ k < NumberOfTxPdus C.
Proof using HR.
  pose proof (cw_rx _ Hwf _ _ Hr) as Hw. split_and!; try apply asize_bound; [apply AddressSize_spec|..]; apply Hw.
Qed.

Lemma rpos_idle ch y u : rpos_rel ch y u → idle_rel ch.
Proof.
  intros (_ & HL & Hl & _ & _ & Hd & Hdv & _). pose proof (dl_valid_bound _ Hdv). unfold idle_rel, ch_dl in *.
  split; [lia|]. intros Hfd. rewrite Hfd in Hd. lia.
Qed.

(** The reception is given up. *)
Lemma rx_fail_post tr tr' ch cf u :
  idle_rel ch → aget cf k = Some CANTP_INVALID_CHANNEL → NumberOfTxPdus C ≤ lenZ cf →
  outs tr' = outs tr ++ [OIndicate h E_NOT_OK] → rx_post w tr (rx_fail r) (foc w c 0 ch cf u tr').
Proof. intros. by apply (rx_post_intro w tr RIdle). Qed.

Lemma exec_fcconf y age ch cf u tr :
  aget cf k = Some c → NumberOfTxPdus C ≤ lenZ cf → rx_rel (RFcConf y age) ch u now →
  wp (CanTp_Prv_RxWaitForFcTransmitConfirmation c) (λ _, rx_post w tr (rx_exec r o stmin bsmax (RFcConf y age)))
    (foc w c 7 ch cf u tr).
Proof using HR He.
  intros Hk Hl Hrel. pose proof Hrel as (Hpos & _ & _ & _ & Hage). destruct rx_facts as (_ & _ & Hkr).
  pose proof Hr as Hr'. rewrite <-(proj1 Hpos) in Hr'.
  unfold CanTp_Prv_RxWaitForFcTransmitConfirmation. quiet_steps. test_is true. quiet_steps. rewrite <-Hage. cbn [rx_exec].
  foc_step; bools.
  - rewrite (proj2 (Z.ltb_lt _ _)) by lia. do 6 foc_step; [lia|]. foc_step. apply rx_fail_post.
    + by eapply rpos_idle.
    + apply aget_insert_eq. lia.
    + by rewrite lenZ_insert.
    + by rewrite outs_report, outs_app.
  - rewrite (proj2 (Z.ltb_ge _ _)) by lia. apply (rx_post_intro w tr (RFcConf y age)); [done..|]. by rewrite app_nil_r.
Qed.

Lemma exec_waitcf y age ch cf u tr :
  aget cf k = Some CANTP_INVALID_CHANNEL → NumberOfTxPdus C ≤ lenZ cf → rx_rel (RCf y age) ch u now →
  wp (CanTp_Prv_RxWaitForConsecutiveFrame c) (λ _, rx_post w tr (rx_exec r o stmin bsmax (RCf y age)))
    (foc w c 8 ch cf u tr).
Proof using HR He.
  intros Hk Hl Hrel. pose proof Hrel as (Hpos & _ & _ & Hage).
  pose proof Hr as Hr'. rewrite <-(proj1 Hpos) in Hr'.
  unfold CanTp_Prv_RxWaitForConsecutiveFrame. quiet_steps. test_is true. quiet_steps. rewrite <-Hage. cbn [rx_exec].
  foc_step; bools.
  - rewrite (proj2 (Z.ltb_lt _ _)) by lia. foc_steps.
    apply rx_fail_post; [by eapply rpos_idle | done..|]. by rewrite outs_report, outs_app.
  - rewrite (proj2 (Z.ltb_ge _ _)) by lia. apply (rx_post_intro w tr (RCf y age)); [done..|]. by rewrite app_nil_r.
Qed.

(** The block granted by the next flow control frame. *)
Lemma wp_rx_ncfs s ch cf u tr y (Q : Z → W → Prop) :
  rpos_rel ch y u → Q (ceil_div (ry_left y) (cf_room r y)) (foc w c s ch cf u tr) →
  wp (CanTp_Prv_GetRxBlockCfs c) Q (foc w c s ch cf u tr).
Proof using HOk HR He.
  intros (Hid & HL & Hlen & _ & _ & Hd & Hdv & _) HQ. destruct rx_facts as (Has & Ha & _). pose proof (dl_valid_bound _ Hdv).
  pose proof Hr as Hr'. rewrite <-Hid in Hr'. unfold CanTp_Prv_GetRxBlockCfs. foc_steps. fold (ch_dl ch). rewrite HL, Hd. consts.
  rewrite u8_small by lia. apply wp_block_cfs; [lia..|]. unfold cf_room in HQ.
  by replace (ry_dl y - 1 - asz) with (ry_dl y - asz - 1) by lia.
Qed.

Lemma rx_ncfs_bound ch y u : rpos_rel ch y u → 0 < ceil_div (ry_left y) (cf_room r y) < 2 ^ PduLengthBits.
Proof using HOk HR.
  intros (_ & _ & Hlen & _ & _ & _ & Hdv & _). destruct rx_facts as (_ & Ha & _). pose proof (dl_valid_bound _ Hdv).
  pose proof (ceil_div_bound (ry_left y) (cf_room r y)). unfold cf_room in *. lia.
Qed.

(** Clear to send, for as much as the connection allows. *)
Lemma wp_set_rx_block s ch cf u tr y rem (Q : unit → W → Prop) :
  rpos_rel ch y u → ry_left y ≤ rem →
  (∀ ch', rpos_rel ch' y u → ch_FlowStatus ch' = CANTP_FC_CTS → ch_BS ch' = bsmax → ch_InitialTicks ch' = ch_InitialTicks ch →
     ch_BlockCfsRemaining ch' = (if bsmax =? 0 then ceil_div (ry_left y) (cf_room r y) else bsmax) →
     Q tt (foc w c s ch' cf u tr)) →
  wp (CanTp_Prv_SetRxBlockInfo c rem) Q (foc w c s ch cf u tr).
Proof using HOk HR He.
  intros Hpos Hrem HQ. pose proof Hpos as (Hid & HL & Hlen & Hsn & Hsnb & Hd & Hdv & Hroom & Hbs).
  destruct rx_facts as (Has & Ha & _). pose proof (dl_valid_bound _ Hdv). pose proof pow2_plen.
  pose proof Hr as Hr'. rewrite <-Hid in Hr'. destruct (re_bytes _ He) as [_ Hbb]. unfold byte_ok in Hbb.
  unfold CanTp_Prv_SetRxBlockInfo. do 9 foc_step. rewrite HL.
  eapply wp_pure with (P := λ b, b = bsmax).
  { destruct (CANTP_DYNAMIC_FC_SUPPORT || _) eqn:E.
    - foc_step. rewrite Hid. eapply wp_GetRxParam; [exact HC | exact (re_param _ He) |].
      rewrite (proj2 (Z.leb_le _ _)) by lia. by foc_step.
    - apply orb_false_iff in E as [E1 E2%Z.eqb_neq]. foc_step. by rewrite Hbs. }
  intros b ->. foc_step. rewrite (proj2 (Z.ltb_ge rem (ry_left y))) by lia. rewrite !andb_false_r. cbn [orb].
  foc_step. eapply wp_rx_ncfs; [exact Hpos|]. foc_steps; apply HQ; unfold rpos_rel, ch_dl in *; ch_simpl; try done;
    by destruct (bsmax =? 0).
Qed.

(** ** The flow control frame *)

(** Storing the address and the three bytes of the PCI replaces the front of the buffer. *)
Lemma put_fc f a v0 v1 v2 x R :
  lenZ x = asize f + 3 →
  ('(b, p) ← put_address (x ++ R) f a; b ← aset b p v0; b ← aset b (p + 1) v1; aset b (p + 2) v2) =
  Some ((addr_bytes f a ++ [v0; v1; v2]) ++ R).
Proof.
  intros Hx. unfold put_address, addr_bytes, asize, CANTP_STANDARD in *.
  destruct (f =? 0); cbn in *; explode x; cbn; aset_eval; done.
Qed.
Lemma put_address_offset b f a b' p : put_address b f a = Some (b', p) → p = asize f.
Proof.
  unfold put_address, asize, CANTP_STANDARD. destruct (f =? 0); cbn; [by intros [= _ <-]|].
  destruct (aset b 0 a); cbn; [by intros [= _ <-] | done].
Qed.

Lemma build_cts ch cf u tr len (Q : Std_ReturnType * PduInfoType → W → Prop) :
  ch_ActiveSduId ch = j → ch_FlowStatus ch = CANTP_FC_CTS → ch_BS ch = bsmax →
  (∀ z, Q (E_OK, mkPduInfo (Some (cts_frame r stmin bsmax ++ z)) (lenZ (cts_frame r stmin bsmax))) (foc w c 7 ch cf u tr)) →
  wp (CanTp_Prv_CreateTxFlowControlFrame c (mkPduInfo (Some SduBuffer_garbage) len)) Q (foc w c 7 ch cf u tr).
Proof using HOk HR He.
  intros Hid Hfl Hbs HQ. destruct rx_facts as (Has & Ha & _). pose proof Hr as Hr'. rewrite <-Hid in Hr'.
  pose proof ok_npdu as Hn. pose proof ok_garbage as Hg.
  destruct (split3 SduBuffer_garbage (asz + 3) (5 - asz)) as (x & y & z & Eg & Hx & Hy); [lia..|].
  unfold CanTp_Prv_CreateTxFlowControlFrame. foc_step. foc_step. test_is true. do 5 foc_step. rewrite Hid.
  eapply wp_GetRxParam; [exact HC | exact (re_param _ He) |]. change (pair_get (stmin, bsmax) TP_STMIN) with stmin.
  rewrite Eg. foc_step. foc_step. rewrite Hfl, Hbs.
  pose proof (put_fc (rx_AddressFormatId r) (rx_Address r) 48 bsmax stmin x (y ++ z) Hx) as Hput.
  apply bind_Some_1 in Hput as ([b0 p] & E0 & Hput). pose proof (put_address_offset _ _ _ _ _ E0) as ->.
  apply bind_Some_1 in Hput as (b1 & E1 & Hput). apply bind_Some_1 in Hput as (b2 & E2 & E3).
  change (u8 (Z.lor CANTP_FC_HIGHNIBBLE CANTP_FC_CTS)) with 48.
  do 8 foc_step. unfold cts_frame in HQ.
  set (hd := addr_bytes _ _ ++ _) in *. assert (lenZ hd = asz + 3) as Hh by (unfold hd; by rewrite lenZ_app, addr_len).
  destruct (CanTp_Prv_GetBit (rx_BitFields r) CANTP_PADDINGON).
  - foc_step. foc_step. unfold CANTP_FC_PCISIZE, CANTP_DEFAULT_CAN_DL. rewrite (u8_small (asz + 3)) by lia.
    foc_step. unfold CanTp_Prv_ArrayInit. rewrite u32_small by lia.
    replace (8 - (asz + 3)) with (5 - asz) by lia.
    rewrite ArrayInit_loop_spec by (rewrite ?lenZ_app; pose proof (lenZ_nonneg z); lia).
    rewrite (awrite_mid hd y z) by (try done; rewrite lenZ_replicate; lia). foc_step. foc_step.
    specialize (HQ z). rewrite lenZ_app, Hh, lenZ_replicate, <-app_assoc in HQ by lia. by replace (asz + 3 + (5 - asz)) with 8 in HQ by lia.
  - foc_step. specialize (HQ (y ++ z)). rewrite app_nil_r, Hh in HQ. unfold CANTP_FC_PCISIZE. by replace (3 + asz) with (asz + 3) by lia.
Qed.

(** Handing it to the CAN interface. *)
Lemma transmit_cts x ch cf u tr len (Q : unit → W → Prop) :
  tc_BitFields x = rx_BitFields r → tc_ChannelId x = c → tc_TxConfirmationId x = k → tc_PduId x = rx_TxPduId r →
  ch_ActiveSduId ch = j → ch_FlowStatus ch = CANTP_FC_CTS → ch_BS ch = bsmax → ch_PciId ch = CANTP_NPCI_FC → 0 ≤ k < lenZ cf →
  (∀ u' n, room u' = room u → Q tt (foc w c 7 ch (<[Z.to_nat k := c]> cf) u'
     (tr ++ [EvCanIfTransmit (rx_TxPduId r) (Some (cts_frame r stmin bsmax)) n E_OK]))) →
  wp (CanTp_Prv_CanIfTransmit x len) Q (foc w c 7 ch cf u tr).
Proof using HOk HR He.
  intros Hb Hc Hx Hp Hid Hfl Hbs Hpci Hcf HQ. unfold CanTp_Prv_CanIfTransmit. rewrite Hb, Hc, Hx, Hp, Htrig. foc_step.
  unfold CanTp_Prv_CreateFrame. foc_step. foc_step. foc_step. rewrite Hpci. eapply wp_lift; [reflexivity|].
  test_is false. test_is false. test_is false. apply build_cts; [done..|]. intros z. cbv beta iota.
  foc_step. foc_step; [done|]. foc_step. apply wp_CanIf_Transmit; cbn [SduDataPtr SduLength].
  { rewrite lenZ_app. pose proof (lenZ_nonneg (cts_frame r stmin bsmax)). pose proof (lenZ_nonneg z). lia. }
  intros res u2 E. unfold tx_bytes in *. rewrite take_lenZ in *.
  destruct (snk_canif u (Some (cts_frame r stmin bsmax)) (lenZ (cts_frame r stmin bsmax))) as (u3 & E3 & Hs3).
  rewrite E3 in E. injection E as <- <-. cbv beta iota. apply wp_ret. by apply HQ.
Qed.

(** The flow control frame goes out, or is skipped on a connection without flow control. *)
Lemma fc_transmit y x ch cf u tr tr1 v :
  tc_BitFields x = rx_BitFields r → tc_ChannelId x = c → tc_TxConfirmationId x = k → tc_PduId x = rx_TxPduId r →
  ry_left y ≤ tc_RemBufSize x → rpos_rel ch y u → ch_FlowStatus ch = CANTP_FC_CTS → ch_BS ch = bsmax → v = now →
  ch_BlockCfsRemaining ch = (if bsmax =? 0 then ceil_div (ry_left y) (cf_room r y) else bsmax) →
  aget cf k = Some CANTP_INVALID_CHANNEL → NumberOfTxPdus C ≤ lenZ cf → outs tr1 = outs tr →
  wp (CanTp_Prv_FcTransmit x CANTP_DEFAULT_CAN_DL true v) (λ _, rx_post w tr (rx_send_fc r stmin bsmax y)) (foc w c 6 ch cf u tr1).
Proof using HOk HR He.
  intros Hb Hc Hx Hp Hrem Hpos Hfl Hbs -> Hblk Hk Hl Ho'. destruct rx_facts as (_ & _ & Hkr).
  pose proof Hpos as (Hid & HL & _). pose proof Hr as Hr'. rewrite <-Hid in Hr'. pose proof (rx_ncfs_bound _ _ _ Hpos) as Hn.
  destruct (re_bytes _ He) as [_ Hbb]. unfold byte_ok in Hbb. pose proof pow2_plen.
  unfold CanTp_Prv_FcTransmit. rewrite Hc. foc_step. foc_step. test_is true. quiet_steps.
  unfold rx_send_fc, rx_grant, rx_fc_off.
  set (ch1 := set_ch_PciId CANTP_NPCI_FC (set_ch_InitialTicks now ch)).
  assert (rpos_rel ch1 y u) as Hpos1 by done.
  eapply wp_pure with (P := λ b, b = CANTP_FC_DISABLE_SUPPORT && CanTp_Prv_GetBit (rx_BitFields r) CANTP_FC_DISABLED).
  { destruct CANTP_FC_DISABLE_SUPPORT; by foc_steps. }
  intros b ->. destruct (CANTP_FC_DISABLE_SUPPORT && _).
  - foc_step. foc_step. change (ch_FlowStatus ch1) with (ch_FlowStatus ch).
    change (ch_SduLengthRemaining ch1) with (ch_SduLengthRemaining ch). rewrite Hfl, HL, (proj2 (Z.leb_le (ry_left y) _)) by lia. test_is true.
    foc_step. eapply wp_rx_ncfs; [exact Hpos1|]. foc_steps.
    apply (rx_post_intro w tr (RCf _ 0)); try done; [|by rewrite app_nil_r].
    unfold rx_rel, rpos_rel, ch_dl in *. ch_simpl. cbn. rewrite tick_self. split_and!; try done; try lia; apply Hpos.
  - eapply transmit_cts; try done; [lia|]. intros u' n Hu'. apply (rx_post_intro w tr (RFcConf _ 0)).
    + apply aget_insert_eq. lia.
    + by rewrite lenZ_insert.
    + unfold rx_rel, rpos_rel, ch_dl in *. ch_simpl. cbn. rewrite tick_self, Hu'. destruct_and! Hpos.
      destruct (Z.eqb_spec bsmax 0); split_and!; try done; lia.
    + rewrite outs_app, Ho'. done.
Qed.

(** A copy the sink has room for. *)
Lemma wp_snk_copy s ch cf u tr d (Q : BufReq_ReturnType * Z → W → Prop) :
  lenZ d ≤ room u →
  (∀ u', room u' = room u - lenZ d → Q (BUFREQ_OK, room u') (foc w c s ch cf u' (tr ++ [EvCopyRxData h d BUFREQ_OK]))) →
  wp (call_CopyRxData h d) Q (foc w c s ch cf u tr).
Proof.
  intros Hd HQ. destruct (snk_copy u d Hd) as (u' & E & Hu'). apply wp_CopyRxData.
  intros res rem u'' E'. rewrite E in E'. injection E' as <- <- <-. by apply HQ.
Qed.

Lemma exec_sendfc y age ch cf u tr :
  aget cf k = Some CANTP_INVALID_CHANNEL → NumberOfTxPdus C ≤ lenZ cf → rx_rel (RSendFc y age) ch u now →
  wp (CanTp_Prv_RxSendFlowControlFrame c) (λ _, rx_post w tr (rx_exec r o stmin bsmax (RSendFc y age)))
    (foc w c 6 ch cf u tr).
Proof using HOk HR He.
  intros Hk Hl (Hpos & Hfl & Hage). pose proof Hr as Hr'. rewrite <-(proj1 Hpos) in Hr'.
  assert (0 ≤ room u) by (unfold rpos_rel in Hpos; lia).
  unfold CanTp_Prv_RxSendFlowControlFrame. quiet_steps. test_is true. quiet_steps.
  rewrite Z.eqb_refl. cbn [when]. quiet_steps. rewrite Hfl. test_is true. foc_step.
  apply wp_snk_copy; [done|]. intros u' Hu'. change (lenZ (@nil Z)) with 0 in Hu'. rewrite Z.sub_0_r in Hu'. cbv beta iota.
  foc_step. test_is false. test_is true. foc_step.
  eapply wp_set_rx_block with (y := y); [unfold rpos_rel in *; ch_simpl; by rewrite Hu' | unfold rpos_rel in Hpos; lia |].
  intros ch' Hpos' Hfl' Hbs' Hi' Hblk'. foc_step. foc_step. rewrite Hfl'. foc_step. foc_step. foc_step. foc_step. foc_step.
  rewrite Hfl'. foc_step. test_is false. foc_step. foc_step. change (negb (CANTP_FC_CTS =? CANTP_FC_CTS)) with false. cbv iota.
  apply fc_transmit; try done; [unfold rpos_rel in *; cbn; lia|]. rewrite outs_app. cbn. by rewrite app_nil_r.
Qed.

Lemma rx_exec_state a ch cf u tr :
  aget cf k = Some (rx_conf a) → NumberOfTxPdus C ≤ lenZ cf → rx_rel a ch u now →
  wp (CanTp_Prv_ExecuteState c) (λ _, rx_post w tr (rx_exec r o stmin bsmax a)) (foc w c (rx_sub a) ch cf u tr).
Proof using HOk HR He.
  intros Hk Hl Hrel. unfold CanTp_Prv_ExecuteState. foc_step. foc_step.
  destruct a; cbn [rx_sub]; repeat test_is false; try test_is true.
  - apply wp_ret. apply (rx_post_intro w tr RIdle); [done..|]. by rewrite app_nil_r.
  - by apply exec_sendfc.
  - by apply exec_fcconf.
  - by apply exec_waitcf.
Qed.
End exec.
End sim.
