(* ===== verification/CanTpRxRef.v ===== *)
(** * CanTp: the services of a reception

    First frame, consecutive frame and confirmation move the channel and the
    receiver of [CanTpReceiver] in step. *)

From S2P Require Import Prelude ComStack CanTpTypes CanTpPrv CanTpFrames CanTpChan CanTp CanTpInv CanTpSafe CanTpSafeState CanTpSafeRx CanTpSafety CanTpSeg CanTpSender CanTpReceiver CanTpTxSim CanTpTxRef CanTpRxSim.
From stdpp Require Import base list numbers option.

#[local] Open Scope Z_scope.

(** A length from its four bytes. *)
Lemma len_of_bytes n :
  n / 16777216 * 16777216 + (n / 65536) mod 256 * 65536 + (n / 256) mod 256 * 256 + n mod 256 = n.
Proof.
  pose proof (Z.div_mod n 256 ltac:(lia)). pose proof (Z.div_mod (n / 256) 256 ltac:(lia)).
  pose proof (Z.div_mod (n / 65536) 256 ltac:(lia)).
  assert (n / 256 / 256 = n / 65536) by (by rewrite Z.div_div by lia).
  assert (n / 65536 / 256 = n / 16777216) by (by rewrite Z.div_div by lia). lia.
Qed.

Section ref.
Context `{HCfg : CanTp_Cfg} {HOk : CanTp_CfgOk} {U : Type} `{HEnv : CanTp_Env U}.
Abbreviation W := (World U).
Context {C : CanTp_ConfigType} {j : Z} {r : CanTp_RxSduType} {o : CanTp_TimeOutType} {q : Z} {pre : list Z}.
Context (HR : RxConn C j r o q pre) {stmin bsmax : Z}.
Context {HK : RxSink U (rx_PduRPduHandleId r) (rx_TxPduId r)}.
Abbreviation c := (rx_ChannelId r).
Abbreviation h := (rx_PduRPduHandleId r).
Abbreviation asz := (asize (rx_AddressFormatId r)).
Abbreviation k := (rx_TxConfirmationId r).
Abbreviation padding_on := (CanTp_Prv_GetBit (rx_BitFields r) CANTP_PADDINGON).
Let Hwf := rxc_wf _ _ _ _ _ _ HR.
Let Hr := rxc_r _ _ _ _ _ _ HR.
Let Ho := rxc_o _ _ _ _ _ _ HR.

Definition rx_frame (b : Z) (body : list Z) : PduInfoType :=
  mkPduInfo (Some (pre ++ b :: body)) (asz + 1 + lenZ body).

Definition rx_call (e : RxEv) : M W unit :=
  match e with
  | REMain => CanTp_MainFunction
  | REConf => CanTp_TxConfirmation k
  | RECf sn body => CanTp_RxIndication q (Some (rx_frame (32 + sn) body))
  end.

Section step.
Context (w : W) (He : rx_env (C := C) (j := j) (r := r) (stmin := stmin) (bsmax := bsmax) w).
Let HC := re_cfg _ He.
Let Hv := re_valid _ He.
Abbreviation now := (CanTp_MainFunctionTicks (tp w)).
Abbreviation post_of := (rx_post (C := C) (j := j) (r := r) (bsmax := bsmax) w).
Abbreviation rel := (rx_rel (j := j) (r := r) (bsmax := bsmax)).
Abbreviation rpos := (rpos_rel (j := j) (r := r) (bsmax := bsmax)).

Lemma rx_burst_off ch_id trigger (Q : unit → W → Prop) w' : Q tt w' → wp (CanTp_Prv_BurstMainFunction ch_id trigger) Q w'.
Proof using HR. intros. unfold CanTp_Prv_BurstMainFunction. rewrite (rxc_burst _ _ _ _ _ _ HR). by apply wp_ret. Qed.

(** ** Confirmation of the flow control frame *)

Lemma rx_conf_step a ch cf u tr :
  aget cf k = Some (rx_conf (r := r) a) → NumberOfTxPdus C ≤ lenZ cf → rel a ch u now →
  wp (CanTp_TxConfirmation k) (λ _, post_of tr (rx_step r o stmin bsmax a REConf)) (foc w c (rx_sub a) ch cf u tr).
Proof using HOk HR He.
  intros Hk Hl Hrel. unfold CanTp_TxConfirmation. destruct (rx_facts HR) as (_ & _ & Hkr).
  pose proof (cw_channels _ Hwf). pose proof (rxw_channel _ _ (cw_rx _ Hwf _ _ Hr)).
  eapply dev_pass; [exact (re_on _ He) | exact HC | cbn; lia |]. quiet_steps.
  destruct a as [|y age|y age|y age]; cbn [rx_conf rx_sub] in *.
  3: { rewrite (proj2 (Z.ltb_lt c _)) by lia. foc_step. foc_step. test_is true. foc_step. foc_step.
       pose proof Hrel as (Hpos & Hblk & Hb & Hfl & Hage). pose proof Hr as Hr'. rewrite <-(proj1 Hpos) in Hr'.
       foc_step. unfold CanTp_Prv_FcTxConfirmation. quiet_steps. ch_simpl. rewrite Hfl. test_is true.
       foc_step. foc_step; [lia|]. apply rx_burst_off. apply (rx_post_intro w tr (RCf y 0)).
       - apply aget_insert_eq. lia.
       - by rewrite lenZ_insert.
       - unfold rx_rel, rpos_rel, ch_dl in *. ch_simpl. rewrite tick_self. done.
       - by rewrite app_nil_r. }
  all: rewrite (proj2 (Z.ltb_ge _ _)) by (unfold CANTP_INVALID_CHANNEL; lia); foc_step; foc_step;
    test_is false; test_is false; foc_step; apply rx_burst_off.
  - apply (rx_post_intro w tr RIdle); try done. by rewrite app_nil_r.
  - apply (rx_post_intro w tr (RSendFc y age)); try done. by rewrite app_nil_r.
  - apply (rx_post_intro w tr (RCf y age)); try done. by rewrite app_nil_r.
Qed.

(** ** The context of a data frame *)

Definition data_ctx (ft : Z) (X : CanTp_RxContextType) : Prop :=
  cx_ChannelId X = c ∧ cx_SduId X = j ∧ cx_FrameType X = ft ∧ cx_AddressSize X = asz ∧
  cx_IsPaddingOn X = padding_on ∧ cx_IsFunctional X = false ∧ cx_PduRPduHandleId X = h.

Lemma data_context ft b body len s ch cf u tr (Q : CanTp_ErrorId * CanTp_RxContextType → W → Prop) :
  Z.shiftr b 4 = ft → 0 ≤ ft ≤ 2 →
  (∀ X, data_ctx ft X → Q (CANTP_NO_ERROR, X) (foc w c s ch cf u tr)) →
  wp (CanTp_Prv_GetRxContext (RxContext_init q) (mkPduInfo (Some (pre ++ b :: body)) len)) Q (foc w c s ch cf u tr).
Proof using HOk HR He.
  intros Hft Hb HQ. unfold CanTp_Prv_GetRxContext. foc_step. foc_step.
  destruct (rxc_pdu _ _ _ _ _ _ HR) as (_ & rp & Hrp & Hpair). destruct (rx_facts HR) as (Has & _).
  foc_step. cbn [RxContext_init cx_PduId]. foc_step. foc_step.
  destruct (rp_GetSduPair rp) as [f|].
  1: destruct Hpair as (a & Epre & Hf'). 2: destruct Hpair as (Epre & Hid).
  all: rewrite Epre; eapply wp_lift; [reflexivity|]; foc_step.
  1: destruct (f _ _ a) as [t0 r0]; cbn in Hf'; subst r0; foc_step; eapply wp_lift; [reflexivity|].
  2: rewrite Hid.
  all: foc_step; change CANTP_FRAMETYPE_OFFSET with 4; rewrite Hft; unfold CANTP_NUMBER_OF_FRAME_TYPES, CANTP_FLOWCONTROL_FRAME;
    rewrite (proj2 (Z.ltb_lt ft 4)), (proj2 (Z.eqb_neq ft 3)) by lia;
    cbn [ctx_set_sdu ctx_set_frametype cx_SduId]; rewrite (proj2 (Z.ltb_lt j _)) by apply HR;
    foc_step; (eapply wp_get_rxsdu; [exact HC | exact Hr |]); foc_steps; rewrite (rxc_physical _ _ _ _ _ _ HR); by apply HQ.
Qed.

Lemma aget_frame b body i : 0 ≤ i → aget (pre ++ b :: body) (asz + i) = (b :: body) !! Z.to_nat i.
Proof using HR.
  intros Hi. pose proof (rxc_pre _ _ _ _ _ _ HR) as Hpre. pose proof (asize_bound (rx_AddressFormatId r)).
  unfold aget. rewrite decide_True by lia. rewrite <-Hpre. unfold lenZ.
  rewrite lookup_app_r by lia. by replace (Z.to_nat (Z.of_nat (length pre) + i) - length pre)%nat with (Z.to_nat i) by lia.
Qed.

(** ** The length check of a consecutive frame *)

Lemma ry_dl_classic ch y u : rpos ch y u → CANTP_CANFD_SUPPORT = false → ry_dl y = 8.
Proof. intros (_ & _ & _ & _ & _ & Hd & _) E. unfold ch_dl in Hd. by rewrite E in Hd. Qed.

Lemma cf_expected_spec X ch y u :
  data_ctx 2 X → rpos ch y u →
  CfLengthCheck X (ry_left y) (ry_dl y) = Some (cf_expected r y, asz + 1, 0) ∧
  asz + 1 + Z.min (cf_room r y) (ry_left y) ≤ cf_expected r y ≤ 64 ∧
  (cf_room r y ≤ ry_left y → cf_expected r y = ry_dl y).
Proof using HOk.
  intros (_ & _ & _ & Has & Hpad & _) Hpos. pose proof (ry_dl_classic _ _ _ Hpos) as Hcl.
  destruct Hpos as (_ & _ & Hlen & _ & _ & _ & Hdv & _). pose proof (dl_valid_bound _ Hdv).
  pose proof (asize_bound (rx_AddressFormatId r)).
  unfold CfLengthCheck, cf_expected, cf_room. rewrite Has, Hpad. unfold CANTP_CF_PCISIZE.
  rewrite (u8_small (asz + 1)) by lia. rewrite (u8_small (ry_dl y - (asz + 1))) by lia.
  replace (ry_dl y - (asz + 1)) with (ry_dl y - asz - 1) by lia.
  set (n := if ry_left y <? ry_dl y - asz - 1 then ry_left y + asz + 1 else ry_dl y).
  assert ((if ry_left y <? ry_dl y - asz - 1 then u8 (ry_left y + (asz + 1)) else ry_dl y) = n ∧
    asz + 1 + Z.min (ry_dl y - asz - 1) (ry_left y) = n ∧ n ≤ ry_dl y ∧ (ry_dl y - asz - 1 ≤ ry_left y → n = ry_dl y)) as (-> & Hn1 & Hn2 & Hn3).
  { subst n. destruct (Z.ltb_spec (ry_left y) (ry_dl y - asz - 1)); [rewrite u8_small|]; lia. }
  destruct padding_on; [|split; [done|]; lia].
  destruct (GetCanDl_spec n) as (d & Ed & Hd1 & Hd2 & Hd3); [lia | intros E; specialize (Hcl E); lia |].
  rewrite Ed. cbn. pose proof (dl_valid_bound _ Hd2). pose proof (Hd3 _ Hdv). split; [done|]. lia.
Qed.

Lemma cf_length X sn body s ch cf u tr y (Q : Std_ReturnType * CanTp_RxContextType → W → Prop) :
  0 ≤ sn ≤ 15 → data_ctx 2 X → rpos ch y u →
  (∀ X', data_ctx 2 X' → cx_SN X' = sn → cx_CAN_DL X' = cf_expected r y → cx_DataOffset X' = asz + 1 →
    Q (CanTp_Cfg_DlcCheck (asz + 1 + lenZ body) (cf_expected r y), X') (foc w c s ch cf u tr)) →
  wp (CanTp_Prv_RxSduLengthCheck X (rx_frame (32 + sn) body)) Q (foc w c s ch cf u tr).
Proof using HOk HR He.
  intros Hsn HX Hpos HQ. pose proof HX as (Hc & _ & Hft & Has & _).
  destruct (cf_expected_spec _ _ _ _ HX Hpos) as (Hcf & _). pose proof Hpos as (_ & HL & _ & _ & _ & Hd & _).
  pose proof (aget_frame (32 + sn) body 0 ltac:(lia)) as Hd0. rewrite Z.add_0_r in Hd0.
  unfold CanTp_Prv_RxSduLengthCheck, rx_frame. rewrite Hft, Has. foc_step. foc_step. foc_step. eapply wp_lift; [exact Hd0|].
  foc_step. test_is false. test_is false. test_is true. rewrite Hc. do 4 foc_step. fold (ch_dl ch). rewrite HL, Hd, Hcf.
  foc_step. foc_step. foc_step. foc_step.
  assert (Z.land (32 + sn) CANTP_LOWERNIBBLE_MASK = sn) as ->.
  { unfold CANTP_LOWERNIBBLE_MASK. rewrite land_15. symmetry. apply Z.mod_unique with 2; lia. }
  apply HQ; done.
Qed.

(** ** A consecutive frame in the waiting state *)

Lemma slice_body b body n : 0 ≤ n ≤ lenZ body → aslice (pre ++ b :: body) (asz + 1) n = Some (take (Z.to_nat n) body).
Proof using HR.
  intros Hn. pose proof (rxc_pre _ _ _ _ _ _ HR) as Hpre. pose proof (asize_bound (rx_AddressFormatId r)).
  rewrite aslice_is_Some by (rewrite ?lenZ_app, ?lenZ_cons; lia). do 2 f_equal.
  replace (Z.to_nat (asz + 1)) with (length pre + 1)%nat by (unfold lenZ in Hpre; lia).
  rewrite <-drop_drop, drop_app_length. done.
Qed.

(** The expected frame: its data goes up, and the transfer ends, continues, or needs the next
    flow control frame. *)
Lemma cf_taken X sn body y ch cf u tr :
  data_ctx 2 X → cx_CAN_DL X = cf_expected r y → cx_DataOffset X = asz + 1 → cf_expected r y ≤ asz + 1 + lenZ body →
  aget cf k = Some CANTP_INVALID_CHANNEL → NumberOfTxPdus C ≤ lenZ cf →
  rpos ch y u → ch_BlockCfsRemaining ch = ry_blk y → 0 < ry_blk y < 2 ^ PduLengthBits →
  let PayloadLength := u8 (cx_CAN_DL X - cx_DataOffset X) in
  wp (NotifyValue ←
        (upd_ch c (set_ch_InitialTicks now);;
         let len := if PayloadLength <? ch_SduLengthRemaining ch then PayloadLength else u8 (ch_SduLengthRemaining ch) in
         data ← lift (SduDataPtr (rx_frame (32 + sn) body));
         sdu ← lift (aslice data (cx_DataOffset X) len);
         '(res, _) ← call_CopyRxData h sdu;
         if decide (res = BUFREQ_OK) then
           upd_ch c (set_ch_SN (Z.land (u8 (ch_SN ch + 1)) CANTP_LOWERNIBBLE_MASK));;
           upd_ch c (set_ch_SduLengthRemaining (plen (ch_SduLengthRemaining ch - len)));;
           upd_ch c (set_ch_BlockCfsRemaining (plen (ch_BlockCfsRemaining ch - 1)));;
           CanTp_Prv_PrepareFcTransmit c;;
           mret (if negb (plen (ch_SduLengthRemaining ch - len) =? 0) then None else Some E_OK)
         else mret (Some E_NOT_OK));
      match NotifyValue with
      | Some v => CanTp_Prv_PduRConfirmation CANTP_RX_PDUR_CONFIRMATION h v;; set_sub c CANTP_IDLE
      | None => mret tt
      end) (λ _, post_of tr (rx_take r y body)) (foc w c 8 ch cf u tr).
Proof using HOk HR He.
  intros HX Hdl Hoff Hfit Hk Hl Hpos Hblk Hb PayloadLength. destruct (cf_expected_spec _ _ _ _ HX Hpos) as (_ & Hexp & Hfull).
  pose proof Hpos as (Hid & HL & Hlen & Hsn & Hsnb & Hd & Hdv & Hroom & Hbs). pose proof (dl_valid_bound _ Hdv).
  pose proof (asize_bound (rx_AddressFormatId r)). assert (cf_room r y = ry_dl y - asz - 1) as Hcr by done.
  set (n := Z.min (cf_room r y) (ry_left y)) in *. subst PayloadLength. rewrite HL, Hdl, Hoff, Hsn, Hblk.
  assert ((if u8 (cf_expected r y - (asz + 1)) <? ry_left y then u8 (cf_expected r y - (asz + 1)) else u8 (ry_left y)) = n) as En.
  { rewrite u8_small by lia. destruct (Z.ltb_spec (cf_expected r y - (asz + 1)) (ry_left y)); [lia|]. rewrite u8_small; lia. }
  unfold rx_frame. foc_step. foc_step. foc_step. rewrite En.
  foc_step. foc_step. foc_step. rewrite slice_body by lia. foc_step. foc_step.
  assert (lenZ (take (Z.to_nat n) body) = n) as Hn by (apply lenZ_take; lia).
  apply wp_snk_copy; [lia|]. intros u' Hu'. rewrite Hn in Hu'. cbv beta iota. rewrite decide_True by done.
  assert (∀ tr', outs ((tr' ++ [EvCopyRxData h (take (Z.to_nat n) body) BUFREQ_OK])) =
    outs tr' ++ [OData h (take (Z.to_nat n) body)]) as Hout.
  { intros tr'. rewrite outs_app. destruct (take (Z.to_nat n) body); [rewrite lenZ_nil in Hn; lia | done]. }
  rewrite (plen_small (ry_left y - n)), (plen_small (ry_blk y - 1)) by lia.
  unfold CANTP_LOWERNIBBLE_MASK. rewrite land_15, u8_small by lia. pose proof (Z.mod_pos_bound (ry_sn y + 1) 16 ltac:(lia)).
  do 6 foc_step. foc_step. unfold CanTp_Prv_PrepareFcTransmit. foc_step. foc_step. ch_simpl.
  unfold rx_take. fold n. cbn [ry_left ry_blk].
  destruct (Z.eqb_spec (ry_blk y - 1) 0) as [Eb|Eb]; cbn [when]; foc_steps;
    destruct (Z.eqb_spec (ry_left y - n) 0) as [El|El]; cbn [negb]; cbv iota; foc_steps.
  all: apply rx_post_intro; [done..| | first [by rewrite Hout | by rewrite outs_app, Hout, <-app_assoc]].
  all: unfold rx_rel, rpos_rel, idle_rel, ch_dl in *; ch_simpl; cbn [ry_left ry_sn ry_blk ry_dl]; rewrite ?tick_self;
    destruct CANTP_CANFD_SUPPORT; split_and!; try done; try lia.
Qed.

Lemma cf_waiting X sn body y age ch cf u tr :
  data_ctx 2 X → cx_SN X = sn → cx_CAN_DL X = cf_expected r y → cx_DataOffset X = asz + 1 → cf_expected r y ≤ asz + 1 + lenZ body →
  aget cf k = Some CANTP_INVALID_CHANNEL → NumberOfTxPdus C ≤ lenZ cf → rel (RCf y age) ch u now →
  wp (CanTp_Prv_ProcessRxConsecutiveFrame X (rx_frame (32 + sn) body))
    (λ _, post_of tr (if CANTP_STRICT_BSCRTIMEOUT_CHECK && (CsCrTicks o <? age) then rx_fail r
       else if sn =? ry_sn y then rx_take r y body else rx_fail r)) (foc w c 8 ch cf u tr).
Proof using HOk HR He.
  intros HX HsnX Hdl Hoff Hfit Hk Hl (Hpos & Hblk & Hb & Hage). pose proof HX as (Hc & Hsdu & _ & _ & _ & _ & Hh).
  pose proof Hpos as (Hid & _ & _ & Hsn & _). pose proof (rpos_idle _ _ _ Hpos) as Hidle.
  unfold CanTp_Prv_ProcessRxConsecutiveFrame. rewrite Hc, Hsdu, Hh, HsnX. quiet_steps.
  rewrite Hid, (Z.eqb_refl j), (proj2 (Z.ltb_lt 0 (ch_BlockCfsRemaining ch))) by lia. test_is true. rewrite <-Hage. foc_step.
  eapply wp_pure with (P := λ b, b = CANTP_STRICT_BSCRTIMEOUT_CHECK && (CsCrTicks o <? age)).
  { destruct CANTP_STRICT_BSCRTIMEOUT_CHECK; by foc_steps. }
  intros late ->. destruct (CANTP_STRICT_BSCRTIMEOUT_CHECK && _).
  { foc_steps. apply rx_fail_post; [done..|]. by rewrite outs_report, outs_app. }
  rewrite Hsn. destruct (sn =? ry_sn y); [rewrite <-Hsn|].
  - by apply cf_taken.
  - foc_steps. apply rx_fail_post; [done..|]. by rewrite outs_app.
Qed.

(** Outside the waiting state the frame has no effect. *)
Lemma cf_stray X sn body s a ch cf u tr :
  data_ctx 2 X → s = rx_sub a → s ≠ 8 → aget cf k = Some (rx_conf (r := r) a) → NumberOfTxPdus C ≤ lenZ cf → rel a ch u now →
  wp ('(ok, Context) ← CanTp_Prv_RxSduLengthCheck X (rx_frame (32 + sn) body);
      if negb (bool_decide (ok = E_OK)) then CanTp_Prv_LengthError Context
      else CanTp_Prv_ProcessFrame Context (rx_frame (32 + sn) body);;
           CanTp_Prv_BurstMainFunction (cx_ChannelId Context) CANTP_TRIGGER_RX_INDICATION)
    (λ _, post_of tr (a, [])) (foc w c s ch cf u tr).
Proof using HOk HR He.
  intros HX -> Hs Hk Hl Hrel. pose proof HX as (Hc & _ & Hft & Has & _). pose proof (asize_bound (rx_AddressFormatId r)).
  assert (idle_rel ch) as Hidle by (destruct a; [done | eapply rpos_idle, Hrel..]).
  pose proof (aget_frame (32 + sn) body 0 ltac:(lia)) as Hd0. rewrite Z.add_0_r in Hd0.
  destruct (CfLengthCheck_spec X (ch_SduLengthRemaining ch) (ch_dl ch)) as (dl & off & Hcf & _ & _);
    [lia | apply Hidle | intros E; unfold ch_dl; rewrite E; by apply Hidle |].
  foc_step. unfold CanTp_Prv_RxSduLengthCheck, rx_frame. rewrite Hft, Has. foc_step. foc_step. foc_step. eapply wp_lift; [exact Hd0|].
  foc_step. test_is false. test_is false. test_is true. rewrite Hc. do 4 foc_step. fold (ch_dl ch). rewrite Hcf.
  foc_step. foc_step. foc_step. foc_step. cbn [cx_ChannelId ctx_set_frame]. rewrite ?Hc.
  assert (tx_sub TIdle = 0 ∧ rx_sub a ≠ 3) as [_ H3] by (split; [done | by destruct a]).
  destruct (CanTp_Cfg_DlcCheck _ dl).
  - test_is false. foc_step. unfold CanTp_Prv_ProcessFrame. cbn [ctx_set_frame cx_FrameType]. rewrite Hft.
    test_is false. test_is false. test_is true. unfold CanTp_Prv_ProcessRxConsecutiveFrame. cbn [ctx_set_frame cx_ChannelId].
    rewrite Hc. quiet_steps. unfold CANTP_RX_WAIT_FOR_CONSECUTIVE_FRAME.
    rewrite (proj2 (Z.eqb_neq (rx_sub a) 8)) by done. cbn [andb when]. foc_step. apply rx_burst_off.
    apply rx_post_intro; try done. by rewrite app_nil_r.
  - test_is true. unfold CanTp_Prv_LengthError. cbn [ctx_set_frame cx_ChannelId]. rewrite Hc. foc_step. foc_step. foc_step.
    unfold CANTP_TX_WAIT_FOR_FLOWCONTROL_FRAME, CANTP_RX_WAIT_FOR_CONSECUTIVE_FRAME.
    rewrite (proj2 (Z.eqb_neq (rx_sub a) 8)), (proj2 (Z.eqb_neq (rx_sub a) 3)) by done. cbn [orb when]. foc_step.
    foc_steps; apply rx_post_intro; try done; by rewrite outs_report, app_nil_r.
Qed.

Lemma cf_step sn body a ch cf u tr :
  0 ≤ sn ≤ 15 → aget cf k = Some (rx_conf (r := r) a) → NumberOfTxPdus C ≤ lenZ cf → rel a ch u now →
  wp (CanTp_RxIndication q (Some (rx_frame (32 + sn) body)))
    (λ _, post_of tr (rx_step r o stmin bsmax a (RECf sn body))) (foc w c (rx_sub a) ch cf u tr).
Proof using HOk HR He.
  intros Hsn Hk Hl Hrel. unfold CanTp_RxIndication.
  eapply dev_pass; [exact (re_on _ He) | exact HC | apply HR |]. foc_step. apply (data_context 2).
  { rewrite shiftr_4. symmetry. apply Z.div_unique with sn; lia. }
  { lia. }
  intros X HX. cbv beta iota. test_is false.
  assert ((∃ y age, a = RCf y age) ∨ rx_sub a ≠ 8) as [(y & age & ->)|Hs]; [destruct a; [by right..|left; by eexists _, _]| |].
  2: { replace (rx_step r o stmin bsmax a (RECf sn body)) with (a, @nil out) by (by destruct a). by apply cf_stray. }
  foc_step. pose proof Hrel as (Hpos & _). eapply cf_length; [done..|]. intros X' HX' HsnX Hdl Hoff. cbv beta iota. cbn [rx_step rx_sub] in *.
  unfold rx_consecutive. destruct (CanTp_Cfg_DlcCheck _ _) eqn:Edlc.
  - test_is false. foc_step. unfold CanTp_Prv_ProcessFrame. pose proof HX' as (_ & _ & -> & _). test_is false. test_is false. test_is true.
    eapply wp_mono; [eapply cf_waiting; try done; by apply ok_dlc|]. intros [] w' Hp. by apply rx_burst_off.
  - test_is true. pose proof HX' as (Hc & _ & Hft & _ & _ & _ & Hh). unfold CanTp_Prv_LengthError. rewrite Hc, Hft, Hh. foc_step. foc_step. foc_step.
    test_is true. change (2 =? CANTP_FLOWCONTROL_FRAME) with false. cbv iota.
    pose proof (rpos_idle _ _ _ Hpos).
    foc_steps; apply rx_fail_post; try done; by rewrite outs_report, outs_app.
Qed.

(** ** The frames that start a reception *)

Lemma accept_idle X Info ch cf u tr (Q : Std_ReturnType → W → Prop) :
  cx_ChannelId X = c → Q E_OK (foc w c 5 ch cf u tr) → wp (CanTp_Prv_GetConnectionAcceptance X Info) Q (foc w c 0 ch cf u tr).
Proof using HR He.
  intros Hc HQ. unfold CanTp_Prv_GetConnectionAcceptance. rewrite Hc, (rxc_callout _ _ _ _ _ _ HR). foc_step.
  eapply wp_GetState; [done | reflexivity|]. cbv beta. foc_step. foc_step. foc_step. test_is true. by foc_steps.
Qed.

Lemma wp_snk_start s ch cf u tr d n (Q : BufReq_ReturnType * Z → W → Prop) :
  n ≤ snk_cap →
  (∀ u', n ≤ room u' → Q (BUFREQ_OK, room u') (foc w c s ch cf u' (tr ++ [EvStartOfReception h d n BUFREQ_OK]))) →
  wp (call_StartOfReception h d n) Q (foc w c s ch cf u tr).
Proof.
  intros Hd HQ. destruct (snk_start u d n Hd) as (u' & E & Hu'). apply wp_StartOfReception.
  intros res rem u'' E'. rewrite E in E'. injection E' as <- <- <-. by apply HQ.
Qed.

(** A message of [len] bytes starts with [chunk] in a first frame of [dl] bytes. *)
Definition ff_ok (pci len : Z) (chunk : list Z) (dl : Z) : Prop :=
  2 ≤ pci ≤ 3 ∧ dl = asz + lenZ (ff_bytes pci len) + lenZ chunk ∧ dl_valid dl ∧ (CANTP_CANFD_SUPPORT = false → dl = 8) ∧
  (pci = 2 → 0 < len ≤ 4095) ∧ (pci = 3 → 4095 < len < 4294967296) ∧ len < 2 ^ PduLengthBits ∧ len ≤ snk_cap ∧
  dl - asz - (if 8 <? dl then 1 else 0) ≤ len ∧ 0 < lenZ chunk < len ∧ CanTp_Cfg_DlcCheck dl dl = E_OK.

Lemma FfLength_exact X pci len chunk dl :
  data_ctx 1 X → ff_ok pci len chunk dl →
  FfLengthCheck X dl (pre ++ ff_bytes pci len ++ chunk) = Some (dl, asz + lenZ (ff_bytes pci len), len).
Proof using HOk HR.
  intros (_ & _ & _ & Has & _ & Hf & _) (Hp & Hdl & Hdv & Hcl & H2 & H3 & Hlim & _ & Hmin & Hch & _).
  pose proof (dl_valid_bound _ Hdv). pose proof (asize_bound (rx_AddressFormatId r)). pose proof pow2_plen.
  unfold FfLengthCheck. rewrite Has, Hf. rewrite (u8_small dl) by lia.
  assert (CanTp_Prv_IsRxDlInValid dl = false) as ->.
  { unfold CanTp_Prv_IsRxDlInValid. destruct CANTP_CANFD_SUPPORT; [|by rewrite (Hcl eq_refl)].
    unfold dl_valid in Hdv. clear -Hdv. repeat (destruct Hdv as [->|Hdv]; [done|]). by rewrite Hdv. }
  unfold CANTP_DEFAULT_CAN_DL. rewrite (u32_small (dl - asz - _)) by (case_match; lia). rewrite (plen_small (dl - asz - _)) by (case_match; lia).
  assert (∀ i b, (ff_bytes pci len ++ chunk) !! Z.to_nat i = Some b → 0 ≤ i → aget (pre ++ ff_bytes pci len ++ chunk) (asz + i) = Some b) as Hget.
  { intros i b Hb Hi. unfold ff_bytes in *. destruct (pci =? CANTP_NPCI_FFCAN); cbn [app] in *; rewrite aget_frame by done; done. }
  assert (∀ n, n = len → (if (n <? dl - asz - (if 8 <? dl then 1 else 0)) then CANTP_INVALID_DL else dl) = dl ∧ plen n = len) as Hend.
  { intros n ->. rewrite (proj2 (Z.ltb_ge _ _)), plen_small by lia. done. }
  pose proof (Hget 0) as Hg0. rewrite Z.add_0_r in Hg0.
  assert (pci = 2 ∨ pci = 3) as [-> | ->] by lia.
  - specialize (H2 eq_refl). rewrite (Hg0 (16 + len / 256)), (Hget 1 (len mod 256)) by done. cbn [mbind option_bind].
    assert (0 ≤ len / 256 < 16) by (split; [apply Z.div_pos; lia | apply Z.div_lt_upper_bound; lia]).
    unfold CANTP_LOWERNIBBLE_MASK. rewrite land_15.
    replace ((16 + len / 256) mod 16) with (len / 256) by (apply Z.mod_unique with 1; lia).
    pose proof (Z.div_mod len 256 ltac:(lia)). rewrite plen_small by lia. replace (len / 256 * 256 + len mod 256) with len by lia.
    rewrite (proj2 (Z.eqb_neq len 0)) by lia. destruct (Hend len eq_refl) as [E1 E2].
    change (aget CanTp_PciSize _) with (Some (lenZ (ff_bytes 2 len))). cbn [mbind option_bind orb]. cbv beta iota.
    rewrite E1, E2, u8_small; [done|]. change (lenZ (ff_bytes 2 len)) with 2. lia.
  - specialize (H3 eq_refl). rewrite (Hg0 16), (Hget 1 0), (Hget 2 (len / 16777216)), (Hget 3 ((len / 65536) mod 256)), (Hget 4 ((len / 256) mod 256)), (Hget 5 (len mod 256)) by done.
    cbn [mbind option_bind]. assert (plen (Z.land 16 CANTP_LOWERNIBBLE_MASK * 256 + 0) = 0) as -> by (apply (plen_small 0); lia).
    change (0 =? 0) with true. cbv iota. assert (u32 (len / 16777216 * 16777216 + (len / 65536) mod 256 * 65536 + (len / 256) mod 256 * 256 + len mod 256) = len) as ->.
    { rewrite len_of_bytes. apply u32_small. lia. }
    unfold CANTP_MAXFDFFDL, CANTP_MAXFFDL. rewrite (proj2 (Z.ltb_ge 4294967295 len)), (proj2 (Z.leb_gt len 4095)) by lia. cbn [orb].
    destruct (Hend len eq_refl) as [E1 E2].
    change (aget CanTp_PciSize _) with (Some (lenZ (ff_bytes 3 len))). cbn [mbind option_bind orb]. cbv beta iota.
    rewrite E1, E2, u8_small; [done|]. change (lenZ (ff_bytes 3 len)) with 6. lia.
Qed.

Abbreviation ff_info pci len chunk dl := (mkPduInfo (Some (pre ++ ff_bytes pci len ++ chunk)) dl).

Lemma slice_data hd sdu rest off n :
  off = asz + lenZ hd → n = lenZ sdu → aslice (pre ++ hd ++ sdu ++ rest) off n = Some sdu.
Proof using HR.
  intros -> ->. pose proof (rxc_pre _ _ _ _ _ _ HR) as Hpre. rewrite app_assoc. apply aslice_app; [|done].
  rewrite lenZ_app. lia.
Qed.

Lemma ff_process X pci len chunk dl ch cf u tr :
  data_ctx 1 X → ff_ok pci len chunk dl → cx_DataOffset X = asz + lenZ (ff_bytes pci len) → cx_SduLength X = len →
  aget cf k = Some CANTP_INVALID_CHANNEL → NumberOfTxPdus C ≤ lenZ cf →
  wp (CanTp_Prv_ProcessRxFirstFrame X (ff_info pci len chunk dl))
    (λ _, post_of tr (RSendFc (mkRx (len - lenZ chunk) 1 0 dl) 0, [OStart h len; OData h chunk])) (foc w c 0 ch cf u tr).
Proof using HOk HR He.
  intros (Hc & Hsdu & _ & _ & _ & _ & Hh) (Hp & Hdl & Hdv & Hcl & H2 & H3 & Hlim & Hcap & Hmin & Hch & _) Hoff Hlen Hk Hl.
  pose proof (dl_valid_bound _ Hdv). pose proof (asize_bound (rx_AddressFormatId r)). pose proof (lenZ_nonneg (ff_bytes pci len)).
  unfold CanTp_Prv_ProcessRxFirstFrame. rewrite Hc, Hsdu, Hh, Hoff, Hlen. cbn [SduLength]. rewrite !(u8_small dl) by lia.
  replace (dl - (asz + lenZ (ff_bytes pci len))) with (lenZ chunk) by lia. rewrite !(u8_small (lenZ chunk)) by lia.
  foc_step. foc_step. foc_step. apply accept_idle; [done|]. test_is true. do 11 foc_step.
  pose proof (slice_data (ff_bytes pci len) chunk [] _ _ eq_refl eq_refl) as Hsl. rewrite app_nil_r in Hsl.
  foc_step. foc_step. apply wp_snk_start; [done|]. intros u1 Hu1. cbv beta iota. foc_step.
  rewrite (proj2 (Z.leb_le (lenZ chunk) (room u1))) by lia. foc_step. apply wp_snk_copy; [lia|]. intros u2 Hu2. cbv beta iota.
  rewrite decide_True by done. rewrite (plen_small (len - lenZ chunk)) by lia. do 11 foc_step. foc_step. foc_step.
  test_is true. foc_steps. apply (rx_post_intro w tr (RSendFc _ 0)); try done.
  - unfold rx_rel, rpos_rel, ch_dl in *. destruct CANTP_CANFD_SUPPORT; ch_simpl; cbn [ry_left ry_sn ry_blk ry_dl]; rewrite tick_self;
      split_and!; try done; try lia. by rewrite Hcl.
  - rewrite !outs_app. destruct chunk; [rewrite lenZ_nil in *; lia|]. cbn. by rewrite <-!app_assoc.
Qed.

Lemma ff_step pci len chunk dl ch cf u tr :
  ff_ok pci len chunk dl → aget cf k = Some CANTP_INVALID_CHANNEL → NumberOfTxPdus C ≤ lenZ cf →
  wp (CanTp_RxIndication q (Some (ff_info pci len chunk dl)))
    (λ _, post_of tr (RSendFc (mkRx (len - lenZ chunk) 1 0 dl) 0, [OStart h len; OData h chunk])) (foc w c 0 ch cf u tr).
Proof using HOk HR He.
  intros Hff Hk Hl. pose proof Hff as (Hp & Hdl & Hdv & _ & H2 & H3 & _ & _ & _ & _ & Hdlc).
  unfold CanTp_RxIndication. eapply dev_pass; [exact (re_on _ He) | exact HC | apply HR |]. foc_step.
  assert (∃ b body, ff_bytes pci len ++ chunk = b :: body ∧ Z.shiftr b 4 = 1) as (b & body & Eb & Hb).
  { unfold ff_bytes. assert (pci = 2 ∨ pci = 3) as [-> | ->] by lia; eexists _, _; (split; [reflexivity|]); [|done].
    rewrite shiftr_4. symmetry. apply Z.div_unique with (len / 256); [|lia]. left. specialize (H2 eq_refl).
    split; [apply Z.div_pos; lia | apply Z.div_lt_upper_bound; lia]. }
  assert (ff_info pci len chunk dl = mkPduInfo (Some (pre ++ b :: body)) dl) as Einfo by (by rewrite Eb).
  rewrite Einfo. apply (data_context 1); [done | lia|]. rewrite <-Einfo. intros X HX. cbv beta iota. test_is false. foc_step.
  pose proof HX as (_ & _ & Hft & Has & _). pose proof (FfLength_exact _ _ _ _ _ HX Hff) as Hlc.
  unfold CanTp_Prv_RxSduLengthCheck. rewrite Hft, Has. foc_step. foc_step. foc_step.
  pose proof (aget_frame b body 0 ltac:(lia)) as Hd0. change ((b :: body) !! Z.to_nat 0) with (Some b) in Hd0.
  rewrite Z.add_0_r, <-Eb in Hd0. eapply wp_lift; [exact Hd0|].
  foc_step. test_is false. test_is true. foc_step. foc_step. foc_step. foc_step. rewrite Hdlc. test_is false. foc_step.
  unfold CanTp_Prv_ProcessFrame. cbn [ctx_set_frame cx_FrameType]. rewrite Hft. test_is false. test_is true.
  eapply wp_mono; [by eapply ff_process|]. intros [] w' Hpost. by apply rx_burst_off.
Qed.

(** A message in a single frame, padded with [pad]. *)
Definition sf_ok (pci : Z) (sdu pad : list Z) : Prop :=
  let n := asz + lenZ (sf_bytes pci (lenZ sdu)) + lenZ sdu in
  0 < lenZ sdu ≤ snk_cap ∧ n + lenZ pad ≤ 64 ∧
  (pci = 0 ∧ n + lenZ pad ≤ 8 ∨
   pci = 1 ∧ CANTP_CANFD_SUPPORT = true ∧ 8 < n + lenZ pad ∧ 7 - asz < lenZ sdu ∧ n ≤ CANTP_MAX_NPDU_LENGTH) ∧
  CanTp_Cfg_DlcCheck (n + lenZ pad) (if padding_on then default n (CanTp_Prv_GetCanDl n) else n) = E_OK.

Abbreviation sf_info pci sdu pad :=
  (mkPduInfo (Some (pre ++ sf_bytes pci (lenZ sdu) ++ sdu ++ pad)) (asz + lenZ (sf_bytes pci (lenZ sdu)) + lenZ sdu + lenZ pad)).

Lemma SfLength_exact X pci sdu pad nib :
  data_ctx 0 X → sf_ok pci sdu pad → (pci = 0 → nib = lenZ sdu) → (pci = 1 → nib = 0) →
  let n := asz + lenZ (sf_bytes pci (lenZ sdu)) + lenZ sdu in
  SfLengthCheck X (n + lenZ pad) (pre ++ sf_bytes pci (lenZ sdu) ++ sdu ++ pad) nib =
  Some (if padding_on then default n (CanTp_Prv_GetCanDl n) else n, asz + lenZ (sf_bytes pci (lenZ sdu)), lenZ sdu).
Proof using HOk HR.
  intros (_ & _ & _ & Has & Hpad & _) (Hcap & H64 & Hcase & _) Hn0 Hn1 n. fold n in H64, Hcase.
  pose proof (asize_bound (rx_AddressFormatId r)). pose proof (lenZ_nonneg pad). pose proof ok_npdu.
  unfold SfLengthCheck. rewrite Has, Hpad.
  destruct Hcase as [[-> Hle]|(-> & Hfd & Hgt & Hmin & Hmax)].
  - change (lenZ (sf_bytes 0 (lenZ sdu))) with 1 in *. rewrite (Hn0 eq_refl). unfold CANTP_DEFAULT_CAN_DL.
    rewrite (proj2 (Z.leb_le _ _)) by lia. change (aget CanTp_PciSize CANTP_NPCI_SFCAN) with (Some 1). cbn [mbind option_bind].
    rewrite (u8_small (asz + 1)) by lia. rewrite (proj2 (Z.eqb_neq (lenZ sdu) 0)) by lia.
    rewrite (proj2 (Z.leb_le (lenZ sdu) _)) by lia. cbn [negb andb]. rewrite u8_small by lia. fold n.
    replace (asz + 1 + lenZ sdu) with n by lia. destruct padding_on; [|done].
    destruct (GetCanDl_spec n) as (d & Ed & Hd1 & Hd2 & Hd3); [lia..|]. rewrite Ed. cbn.
    pose proof (dl_valid_bound _ Hd2). pose proof (Hd3 8 ltac:(by left)). by replace d with 8 by lia.
  - change (lenZ (sf_bytes 1 (lenZ sdu))) with 2 in *. rewrite (Hn1 eq_refl), Hfd. unfold CANTP_DEFAULT_CAN_DL.
    rewrite (proj2 (Z.leb_gt _ _)) by lia. change (aget CanTp_PciSize CANTP_NPCI_SFCANFD) with (Some 2). cbn [mbind option_bind].
    change (sf_bytes 1 (lenZ sdu)) with [0; lenZ sdu]. cbn [app]. rewrite aget_frame by lia. change ((0 :: lenZ sdu :: sdu ++ pad) !! Z.to_nat 1) with (Some (lenZ sdu)).
    cbn [mbind option_bind]. rewrite (u8_small (asz + 2)) by lia. change (0 =? 0) with true. cbn [andb].
    rewrite (proj2 (Z.ltb_lt (7 - asz) _)), (proj2 (Z.leb_le (lenZ sdu) _)), (proj2 (Z.leb_le (asz + 2 + lenZ sdu) _)) by lia. cbn [andb].
    replace (asz + 2 + lenZ sdu) with n by lia. rewrite (u8_small n) by lia. destruct padding_on; [|done].
    destruct (GetCanDl_spec n) as (d & Ed & _); [lia | congruence |]. by rewrite Ed.
Qed.

Lemma sf_process X pci sdu pad ch cf u tr :
  data_ctx 0 X → sf_ok pci sdu pad → cx_DataOffset X = asz + lenZ (sf_bytes pci (lenZ sdu)) → cx_SduLength X = lenZ sdu →
  aget cf k = Some CANTP_INVALID_CHANNEL → NumberOfTxPdus C ≤ lenZ cf →
  wp (CanTp_Prv_ProcessRxSingleFrame X (sf_info pci sdu pad))
    (λ _, post_of tr (RIdle, [OStart h (lenZ sdu); OData h sdu; OIndicate h E_OK])) (foc w c 0 ch cf u tr).
Proof using HOk HR He.
  intros (Hc & Hsdu & _ & _ & _ & _ & Hh) (Hcap & H64 & _) Hoff Hlen Hk Hl.
  pose proof (asize_bound (rx_AddressFormatId r)). pose proof (lenZ_nonneg pad).
  assert (1 ≤ lenZ (sf_bytes pci (lenZ sdu))) by (unfold sf_bytes; by case_match).
  unfold CanTp_Prv_ProcessRxSingleFrame. rewrite Hc, Hsdu, Hh, Hoff, Hlen. cbn [SduLength].
  rewrite !(u8_small (asz + lenZ (sf_bytes pci (lenZ sdu)) + lenZ sdu + lenZ pad)) by lia.
  foc_step. foc_step. foc_step. apply accept_idle; [done|]. test_is true. do 13 foc_step.
  pose proof (slice_data (sf_bytes pci (lenZ sdu)) sdu pad _ _ eq_refl eq_refl) as Hsl.
  foc_step. foc_step. apply wp_snk_start; [lia|]. intros u1 Hu1. cbv beta iota. foc_step.
  rewrite (proj2 (Z.leb_le (lenZ sdu) (room u1))) by lia. foc_step. apply wp_snk_copy; [lia|]. intros u2 Hu2. cbv beta iota.
  rewrite decide_True by done. foc_steps. apply (rx_post_intro w tr RIdle); try done.
  - unfold rx_rel, idle_rel. destruct CANTP_CANFD_SUPPORT; ch_simpl; split_and?; try done; intros; try lia.
  - rewrite !outs_app. destruct sdu; [rewrite lenZ_nil in *; lia|]. cbn. by rewrite <-!app_assoc.
Qed.

Lemma sf_step pci sdu pad ch cf u tr :
  sf_ok pci sdu pad → aget cf k = Some CANTP_INVALID_CHANNEL → NumberOfTxPdus C ≤ lenZ cf →
  wp (CanTp_RxIndication q (Some (sf_info pci sdu pad)))
    (λ _, post_of tr (RIdle, [OStart h (lenZ sdu); OData h sdu; OIndicate h E_OK])) (foc w c 0 ch cf u tr).
Proof using HOk HR He.
  intros Hsf Hk Hl. pose proof Hsf as (Hcap & H64 & Hcase & Hdlc). pose proof (asize_bound (rx_AddressFormatId r)). pose proof (lenZ_nonneg pad).
  unfold CanTp_RxIndication. eapply dev_pass; [exact (re_on _ He) | exact HC | apply HR |]. foc_step.
  assert (∃ b body, sf_bytes pci (lenZ sdu) ++ sdu ++ pad = b :: body ∧ Z.shiftr b 4 = 0 ∧
    (pci = 0 → Z.land b 15 = lenZ sdu) ∧ (pci = 1 → Z.land b 15 = 0)) as (b & body & Eb & Hb & Hn0 & Hn1).
  { destruct Hcase as [[-> Hle]|(-> & _)]; eexists _, _; (split; [reflexivity|]); [|done].
    change (lenZ (sf_bytes 0 (lenZ sdu))) with 1 in *. rewrite shiftr_4, land_15, Z.div_small, Z.mod_small by lia. split_and!; done || lia. }
  assert (sf_info pci sdu pad = mkPduInfo (Some (pre ++ b :: body)) (asz + lenZ (sf_bytes pci (lenZ sdu)) + lenZ sdu + lenZ pad)) as Einfo
    by (by rewrite <-Eb).
  rewrite Einfo. apply (data_context 0); [done | lia|]. rewrite <-Einfo. intros X HX. cbv beta iota. test_is false. foc_step.
  pose proof HX as (_ & _ & Hft & Has & _). pose proof (SfLength_exact _ _ _ _ _ HX Hsf Hn0 Hn1) as Hlc. cbv zeta in Hlc.
  unfold CanTp_Prv_RxSduLengthCheck. rewrite Hft, Has. foc_step. foc_step. foc_step.
  pose proof (aget_frame b body 0 ltac:(lia)) as Hd0. change ((b :: body) !! Z.to_nat 0) with (Some b) in Hd0.
  rewrite Z.add_0_r, <-Eb in Hd0. eapply wp_lift; [exact Hd0|]. cbv beta.
  foc_step. test_is true. unfold CANTP_LOWERNIBBLE_MASK. foc_step. foc_step. foc_step. foc_step. rewrite Hdlc. test_is false. foc_step.
  unfold CanTp_Prv_ProcessFrame. cbn [ctx_set_frame cx_FrameType]. rewrite Hft. test_is true.
  eapply wp_mono; [by eapply sf_process|]. intros [] w' Hpost. by apply rx_burst_off.
Qed.
End step.

(** ** The refinement of a reception *)

Lemma rx_call_wp a w e :
  rx_sim (C := C) (j := j) (stmin := stmin) (bsmax := bsmax) a w → rx_ev_ok e →
  wp (rx_call e)
    (λ _ w', rx_sim (C := C) (j := j) (stmin := stmin) (bsmax := bsmax) (fst (rx_step r o stmin bsmax a e)) w' ∧
             outs (trace w') = outs (trace w) ++ snd (rx_step r o stmin bsmax a e)) w.
Proof using HOk HR.
  intros Hsim Hok. destruct (rx_sim_focus _ _ Hsim) as (ch & cf & Ew & Hk & Hl & Hrel & He).
  assert (∀ m : M W unit, wp m (λ _, rx_post (C := C) (j := j) (r := r) (bsmax := bsmax) w (trace w) (rx_step r o stmin bsmax a e))
      (foc w c (rx_sub a) ch cf (up w) (trace w)) →
    wp m (λ _ w', rx_sim (C := C) (j := j) (stmin := stmin) (bsmax := bsmax) (fst (rx_step r o stmin bsmax a e)) w' ∧
      outs (trace w') = outs (trace w) ++ snd (rx_step r o stmin bsmax a e)) w) as Hgo.
  { intros m Hm. rewrite <-Ew in Hm. eapply wp_mono; [exact Hm|]. intros [] w' Hp. by eapply rx_post_sim. }
  destruct e as [| |sn body]; cbn [rx_call].
  - apply (rx_main_wp HR); [done|]. intros. by apply (rx_exec_state HR).
  - apply Hgo. by apply rx_conf_step.
  - apply Hgo. by apply cf_step.
Qed.

Lemma rx_start_wp w pci len chunk dl :
  rx_sim (C := C) (j := j) (stmin := stmin) (bsmax := bsmax) RIdle w → ff_ok pci len chunk dl →
  wp (CanTp_RxIndication q (Some (mkPduInfo (Some (pre ++ ff_bytes pci len ++ chunk)) dl)))
    (λ _ w', rx_sim (C := C) (j := j) (stmin := stmin) (bsmax := bsmax) (RSendFc (mkRx (len - lenZ chunk) 1 0 dl) 0) w' ∧
      outs (trace w') = outs (trace w) ++ [OStart h len; OData h chunk]) w.
Proof using HOk HR.
  intros Hsim Hff. destruct (rx_sim_focus _ _ Hsim) as (ch & cf & Ew & Hk & Hl & Hrel & He).
  pose proof (ff_step w He pci len chunk dl ch cf (up w) (trace w) Hff Hk Hl) as Hm. cbn [rx_sub] in Ew. rewrite <-Ew in Hm.
  eapply wp_mono; [exact Hm|]. intros [] w' Hp. apply (rx_post_sim _ _ _ _ He Hp).
Qed.

Lemma rx_single_wp w pci sdu pad :
  rx_sim (C := C) (j := j) (stmin := stmin) (bsmax := bsmax) RIdle w → sf_ok pci sdu pad →
  wp (CanTp_RxIndication q (Some (mkPduInfo (Some (pre ++ sf_bytes pci (lenZ sdu) ++ sdu ++ pad))
        (asz + lenZ (sf_bytes pci (lenZ sdu)) + lenZ sdu + lenZ pad))))
    (λ _ w', rx_sim (C := C) (j := j) (stmin := stmin) (bsmax := bsmax) RIdle w' ∧
      outs (trace w') = outs (trace w) ++ [OStart h (lenZ sdu); OData h sdu; OIndicate h E_OK]) w.
Proof using HOk HR.
  intros Hsim Hsf. destruct (rx_sim_focus _ _ Hsim) as (ch & cf & Ew & Hk & Hl & Hrel & He).
  pose proof (sf_step w He pci sdu pad ch cf (up w) (trace w) Hsf Hk Hl) as Hm. cbn [rx_sub] in Ew. rewrite <-Ew in Hm.
  eapply wp_mono; [exact Hm|]. intros [] w' Hp. apply (rx_post_sim _ _ _ _ He Hp).
Qed.
End ref.
