(* ===== verification/CanTpRxClaims.v ===== *)
(** * CanTp: the reception of a message, and the transfer end to end *)

From S2P Require Import Prelude ComStack CanTpTypes CanTpPrv CanTpFrames CanTpChan CanTp CanTpInv CanTpSafety CanTpProps CanTpSeg CanTpSender CanTpReceiver CanTpTxSim CanTpTxRef CanTpTxClaims CanTpRxSim CanTpRxRef.
From stdpp Require Import base list numbers option.

#[local] Open Scope Z_scope.

Section reception.
Context `{HCfg : CanTp_Cfg} {HOk : CanTp_CfgOk} {U : Type} `{HEnv : CanTp_Env U}.
Abbreviation W := (World U).
Context (C : CanTp_ConfigType) (j : Z) (r : CanTp_RxSduType) (o : CanTp_TimeOutType) (q : Z) (pre : list Z).
Context (HR : RxConn C j r o q pre) (stmin bsmax : Z).
Context {HK : RxSink U (rx_PduRPduHandleId r) (rx_TxPduId r)}.
Abbreviation h := (rx_PduRPduHandleId r).
Abbreviation asz := (asize (rx_AddressFormatId r)).
Abbreviation sim := (rx_sim (C := C) (j := j) (r := r) (stmin := stmin) (bsmax := bsmax)).

Fixpoint rx_calls (evs : list RxEv) : M W unit :=
  match evs with [] => mret tt | e :: evs => rx_call (r := r) (q := q) (pre := pre) e;; rx_calls evs end.

(** A frame arrives as the bus carries it, then the calls of [evs]. *)
Definition reception (f : list Z) (evs : list RxEv) : M W unit :=
  CanTp_RxIndication q (Some (mkPduInfo (Some f) (lenZ f)));; rx_calls evs.

Lemma rx_calls_wp evs a w :
  sim a w → Forall rx_ev_ok evs →
  wp (rx_calls evs) (λ _ w', sim (fst (rx_run r o stmin bsmax a evs)) w' ∧
      outs (trace w') = outs (trace w) ++ snd (rx_run r o stmin bsmax a evs)) w.
Proof using HOk HR.
  revert a w. induction evs as [|e evs IH]; intros a w Hsim Hok; cbn [rx_calls rx_run].
  - apply wp_ret. split; [done|]. by rewrite app_nil_r.
  - apply Forall_cons_1 in Hok as [Hok1 Hok2]. apply wp_bind. eapply wp_mono; [by apply (rx_call_wp HR (stmin := stmin) (bsmax := bsmax))|].
    intros [] w1. destruct (rx_step r o stmin bsmax a e) as [a1 l1]. intros [Hs1 Ho1]. eapply wp_mono; [by apply IH|].
    intros [] w2. cbn [fst]. destruct (rx_run r o stmin bsmax a1 evs) as [a2 l2]. intros [Hs2 Ho2]. cbn [fst snd] in *.
    split; [done|]. by rewrite Ho2, Ho1, app_assoc.
Qed.

Lemma ff_frame_len pci len chunk dl :
  ff_ok (r := r) pci len chunk dl → lenZ (pre ++ ff_bytes pci len ++ chunk) = dl.
Proof using HR. intros (_ & -> & _). rewrite !lenZ_app, (rxc_pre _ _ _ _ _ _ HR). lia. Qed.

Lemma reception_wp w pci len chunk dl evs :
  sim RIdle w → ff_ok (r := r) pci len chunk dl → Forall rx_ev_ok evs →
  let a := RSendFc (mkRx (len - lenZ chunk) 1 0 dl) 0 in
  wp (reception (pre ++ ff_bytes pci len ++ chunk) evs)
    (λ _ w', sim (fst (rx_run r o stmin bsmax a evs)) w' ∧
       outs (trace w') = outs (trace w) ++ [OStart h len; OData h chunk] ++ snd (rx_run r o stmin bsmax a evs)) w.
Proof using HOk HR.
  intros Hsim Hff Hevs a. unfold reception. rewrite (ff_frame_len _ _ _ _ Hff). apply wp_bind.
  eapply wp_mono; [by apply (rx_start_wp HR (stmin := stmin) (bsmax := bsmax))|]. intros [] w1 [Hs1 Ho1]. eapply wp_mono; [by apply rx_calls_wp|].
  intros [] w2 [Hs2 Ho2]. split; [done|]. by rewrite Ho2, Ho1, app_assoc.
Qed.

(** The first frame is in order, so the receiver waits for the rest. *)
Lemma ff_ok_wf pci len chunk dl :
  ff_ok (r := r) pci len chunk dl → rx_wf (RSendFc (mkRx (len - lenZ chunk) 1 0 dl) 0).
Proof. intros (_ & _ & Hdv & Hcl & _ & _ & _ & _ & _ & Hch & _). split_and!; [cbn; lia | done..]. Qed.
End reception.

Section claims.
Context `{HCfg : CanTp_Cfg} {HOk : CanTp_CfgOk} {U : Type} `{HEnv : CanTp_Env U}.

(** C6. The receive half of CanTp refines the receiver of the transport protocol: after a
    first frame on an idle connection, whatever sequence of main-function runs, confirmations
    and consecutive frames (of any content) follows, the flow control frames sent, the data
    passed up and the indications are those of the receiver, and the channel is in the
    receiver's state. *)
Theorem cantp_refines_receiver (C : CanTp_ConfigType) (j : Z) (r : CanTp_RxSduType) (o : CanTp_TimeOutType) (q : Z)
    (pre : list Z) (stmin bsmax : Z) {HK : RxSink U (rx_PduRPduHandleId r) (rx_TxPduId r)} (w : World U)
    (pci len : Z) (chunk : list Z) (dl : Z) (evs : list RxEv) :
  RxConn C j r o q pre → rx_sim (C := C) (j := j) (stmin := stmin) (bsmax := bsmax) RIdle w →
  ff_ok (r := r) pci len chunk dl → Forall rx_ev_ok evs →
  let a := RSendFc (mkRx (len - lenZ chunk) 1 0 dl) 0 in
  ∃ w', reception r q pre (pre ++ ff_bytes pci len ++ chunk) evs w = Some (tt, w') ∧
    outs (trace w') = outs (trace w) ++ [OStart (rx_PduRPduHandleId r) len; OData (rx_PduRPduHandleId r) chunk] ++
      snd (rx_run r o stmin bsmax a evs) ∧
    aget (CanTp_SubState (tp w')) (rx_ChannelId r) = Some (rx_sub (fst (rx_run r o stmin bsmax a evs))).
Proof using HOk.
  intros HR Hsim Hff Hevs a. destruct (wp_run _ _ _ (reception_wp _ _ _ _ _ _ HR _ _ _ _ _ _ _ _ Hsim Hff Hevs))
    as ([] & w' & Hrun & Hs & Ho). exists w'. split_and!; [done..|apply Hs].
Qed.

(** Whatever arrives after a first frame, the upper layer gets pieces of data and then, once
    the channel is idle again, exactly one indication; it is positive only if the pieces make
    up exactly the announced length. *)
Theorem cantp_indicates_complete (C : CanTp_ConfigType) (j : Z) (r : CanTp_RxSduType) (o : CanTp_TimeOutType) (q : Z)
    (pre : list Z) (stmin bsmax : Z) {HK : RxSink U (rx_PduRPduHandleId r) (rx_TxPduId r)} (w : World U)
    (pci len : Z) (chunk : list Z) (dl : Z) (evs : list RxEv) :
  RxConn C j r o q pre → rx_sim (C := C) (j := j) (stmin := stmin) (bsmax := bsmax) RIdle w →
  ff_ok (r := r) pci len chunk dl → Forall rx_ev_ok evs →
  ∃ w' l fin, reception r q pre (pre ++ ff_bytes pci len ++ chunk) evs w = Some (tt, w') ∧
    outs (trace w') = outs (trace w) ++ OStart (rx_PduRPduHandleId r) len :: l ++ fin ∧ Forall (rx_going r stmin bsmax) l ∧
    (fin = [] ∧ aget (CanTp_SubState (tp w')) (rx_ChannelId r) ≠ Some CANTP_IDLE ∨
     aget (CanTp_SubState (tp w')) (rx_ChannelId r) = Some CANTP_IDLE ∧
       (fin = [OIndicate (rx_PduRPduHandleId r) E_OK] ∧ lenZ (data_of l) = len ∨
        fin = [OIndicate (rx_PduRPduHandleId r) E_NOT_OK])).
Proof using HOk.
  intros HR Hsim Hff Hevs. destruct (wp_run _ _ _ (reception_wp _ _ _ _ _ _ HR _ _ _ _ _ _ _ _ Hsim Hff Hevs))
    as ([] & w' & Hrun & Hs & Ho).
  destruct (rx_run_shape r o stmin bsmax (RSendFc (mkRx (len - lenZ chunk) 1 0 dl) 0) evs) as (l & fin & E1 & Hl & E2);
    [done | by eapply ff_ok_wf |].
  exists w', (OData (rx_PduRPduHandleId r) chunk :: l), fin. rewrite E1 in Ho. split_and!; [done..| |].
  { constructor; [left; by eexists | done]. }
  destruct Hs as (_ & Hsub & _). destruct E2 as [[-> Hne]|[Hid Hfin]].
  - left. split; [done|]. rewrite Hsub. by destruct (fst _).
  - right. rewrite Hsub, Hid. split; [done|]. destruct Hfin as [[-> Hlen]| ->]; [left; split; [done|] | by right].
    change (data_of (OData (rx_PduRPduHandleId r) chunk :: l)) with (chunk ++ data_of l). rewrite lenZ_app, Hlen. cbn. lia.
Qed.
End claims.

(** ** From one node to the other

    The sender's frames reach the receiver unchanged: both nodes run the same build, the
    receiver listens to the sender's address bytes and pads in the same way. *)

Section nodes.
Context `{HCfg : CanTp_Cfg} {HOk : CanTp_CfgOk} {UA UB : Type} {EA : CanTp_Env UA} {EB : CanTp_Env UB}.
Context (CA : CanTp_ConfigType) (id : Z) (t : CanTp_TxSduType) (oA : CanTp_TimeOutType) (p : Z) (preA postA : list Z).
Context (CB : CanTp_ConfigType) (j : Z) (r : CanTp_RxSduType) (oB : CanTp_TimeOutType) (q : Z) (pre : list Z).
Context {HS : TxSource UA (tx_PduRPduHandleId t) (tx_TxPduId t)}.
Context {HK : RxSink UB (rx_PduRPduHandleId r) (rx_TxPduId r)}.
Context (HT : TxConn CA id t oA p preA postA) (HR : RxConn CB j r oB q pre).

(** The two ends of one connection. *)
Record linked : Prop := {
  lk_addr : addr_bytes (tx_AddressFormatId t) (tx_Address t) = pre;
  lk_pad : CanTp_Prv_GetBit (tx_BitFields t) CANTP_PADDINGON = CanTp_Prv_GetBit (rx_BitFields r) CANTP_PADDINGON;
  lk_dlc : ∀ n, CanTp_Cfg_DlcCheck n n = E_OK
}.
Context (HL : linked).
Abbreviation asz := (asize (rx_AddressFormatId r)).
Abbreviation dl := (CanTp_Prv_GetTxDl t).

Lemma link_asz : asize (tx_AddressFormatId t) = asz.
Proof using HL HR. rewrite <-(addr_len _ (tx_Address t)), (lk_addr HL). apply (rxc_pre _ _ _ _ _ _ HR). Qed.

Lemma link_facts : 0 ≤ asz ≤ 1 ∧ dl_valid dl ∧ 8 ≤ dl ≤ 64 ∧ dl ≤ CANTP_MAX_NPDU_LENGTH ∧ (CANTP_CANFD_SUPPORT = false → dl = 8).
Proof using HOk HT HL HR.
  destruct (tx_facts CA (txc_wf _ _ _ _ _ _ _ HT) id t (txc_t _ _ _ _ _ _ _ HT)) as (_ & Ha & Hd & Hb & Hg & Hc).
  rewrite link_asz in Ha. by rewrite ok_garbage in Hg.
Qed.

(** A single frame of the sender is one the receiver takes. *)
Lemma link_single sdu :
  tx_accepts t (lenZ sdu) = true → lenZ sdu ≤ snk_cap → tx_pci t (lenZ sdu) ≤ CANTP_NPCI_SFCANFD →
  ∃ pad, sf_frame t (tx_pci t (lenZ sdu)) sdu = pre ++ sf_bytes (tx_pci t (lenZ sdu)) (lenZ sdu) ++ sdu ++ pad ∧
    sf_ok (r := r) (tx_pci t (lenZ sdu)) sdu pad.
Proof using HOk HT HL HR.
  intros Hacc Hcap Hle. destruct link_facts as (Ha & Hdv & Hb & Hmax & Hcan). set (pci := tx_pci t (lenZ sdu)) in *.
  set (n := asz + lenZ (sf_bytes pci (lenZ sdu)) + lenZ sdu).
  assert (0 < lenZ sdu) as Hpos by (unfold tx_accepts in Hacc; bools; done).
  assert (pci = 0 ∧ n ≤ 8 ∨ pci = 1 ∧ 8 < dl ∧ 8 < n ∧ 7 - asz < lenZ sdu ∧ n ≤ dl) as Hcase.
  { subst n. assert (pci = 0 ∧ lenZ sdu + asz + 1 ≤ 8 ∨ pci = 1 ∧ 8 < lenZ sdu + asz + 1 ∧ 8 < dl ∧ lenZ sdu + asz + 2 ≤ dl) as [[-> ?]|(-> & ?)].
    { subst pci. revert Hle. unfold tx_pci. rewrite link_asz. consts. repeat case_match; bools; intros; lia. }
    - change (lenZ (sf_bytes 0 (lenZ sdu))) with 1. lia.
    - change (lenZ (sf_bytes 1 (lenZ sdu))) with 2. lia. }
  exists (padding (CanTp_Prv_GetBit (tx_BitFields t) CANTP_PADDINGON) n). split.
  - unfold sf_frame, padded, tx_header. rewrite (lk_addr HL), !lenZ_app, (rxc_pre _ _ _ _ _ _ HR). fold n.
    by rewrite <-!app_assoc.
  - unfold sf_ok. fold n. rewrite (lk_pad HL). unfold padding.
    assert (n ≤ 64 ∧ (CANTP_CANFD_SUPPORT = false → n ≤ 8)) as [Hn Hn8].
    { split; [lia|]. intros E. specialize (Hcan E). lia. }
    assert (0 ≤ n) as H0 by (subst n; pose proof (lenZ_nonneg (sf_bytes pci (lenZ sdu))); lia).
    destruct (GetCanDl_spec n) as (d & -> & Hnd & Hdvd & Hmin); [lia | done |]. change (default n (Some d)) with d.
    assert (pci = 1 → CANTP_CANFD_SUPPORT = true) as Hfd.
    { intros ->. destruct CANTP_CANFD_SUPPORT; [done|]. specialize (Hcan eq_refl). lia. }
    pose proof (Hmin dl Hdv). pose proof (Hmin 8 (or_introl eq_refl)). pose proof (dl_valid_bound _ Hdvd).
    destruct (CanTp_Prv_GetBit (rx_BitFields r) CANTP_PADDINGON).
    + rewrite lenZ_replicate by lia. replace (n + (d - n)) with d by lia. rewrite (lk_dlc HL). split_and!; try done; [lia|].
      destruct Hcase as [[-> ?]|(-> & ?)]; [left; lia | right; split_and!; auto; lia].
    + change (lenZ (@nil Z)) with 0. rewrite Z.add_0_r, (lk_dlc HL). split_and!; try done.
      destruct Hcase as [[-> ?]|(-> & ?)]; [left; lia | right; split_and!; auto; lia].
Qed.

(** A first frame of the sender is one the receiver takes. *)
Lemma link_first sdu :
  tx_accepts t (lenZ sdu) = true → lenZ sdu < 2 ^ PduLengthBits → lenZ sdu ≤ snk_cap → CANTP_NPCI_SFCANFD < tx_pci t (lenZ sdu) →
  let pci := tx_pci t (lenZ sdu) in
  ff_frame t pci sdu = pre ++ ff_bytes pci (lenZ sdu) ++ take (Z.to_nat (ff_payload t pci)) sdu ∧
  ff_ok (r := r) pci (lenZ sdu) (take (Z.to_nat (ff_payload t pci)) sdu) dl.
Proof using HOk HT HL HR.
  intros Hacc Hlim Hcap Hgt pci. destruct link_facts as (Ha & Hdv & Hb & Hmax & Hcan).
  pose proof (accepted_fits _ _ _ _ _ _ _ HT sdu Hacc) as Hfit. fold pci in Hfit, Hgt.
  assert (dl - asz - (if 8 <? dl then 1 else 0) ≤ lenZ sdu ∧ (pci = 3 → 4095 < lenZ sdu)) as [Hmin H3].
  { revert Hgt. subst pci. unfold tx_pci. rewrite link_asz. consts. repeat case_match; bools; intros; split; intros; try lia; try done. }
  pose proof pow2_plen. destruct Hfit as [(? & _)|(Hp & Hpay & H2 & Hfd)]; [unfold CANTP_NPCI_SFCANFD in *; lia|].
  assert (0 < ff_payload t pci) as Hpos by (unfold ff_payload; rewrite link_asz; destruct (Z.eqb_spec pci CANTP_NPCI_FFCAN) as [|E]; [lia|];
    assert (CANTP_CANFD_SUPPORT = true) by (apply Hfd; unfold CANTP_NPCI_FFCAN in E; lia); lia).
  assert (lenZ (take (Z.to_nat (ff_payload t pci)) sdu) = ff_payload t pci) as Hlen by (apply lenZ_take; lia).
  split. { unfold ff_frame, tx_header. by rewrite (lk_addr HL), <-app_assoc. }
  unfold ff_ok. rewrite Hlen, (lk_dlc HL). split_and!; try done; try lia.
  unfold ff_payload, ff_bytes. rewrite link_asz. destruct (pci =? CANTP_NPCI_FFCAN); unfold lenZ; cbn [length]; lia.
Qed.

(** The receiver's side of a message: some schedule of its main function, its confirmations
    and exactly the frames of the segmentation delivers the message. *)
Lemma link_received wB stmin bsmax sdu :
  rx_sim (C := CB) (j := j) (r := r) (stmin := stmin) (bsmax := bsmax) RIdle wB →
  tx_accepts t (lenZ sdu) = true → lenZ sdu < 2 ^ PduLengthBits → lenZ sdu ≤ snk_cap → 0 ≤ TickBits → 1 ≤ CsCrTicks oB →
  ∃ f evs l, segment t (tx_pci t (lenZ sdu)) sdu = f :: fed pre evs ∧ data_of l = sdu ∧ Forall (rx_going r stmin bsmax) l ∧
    wp (reception r q pre f evs) (λ _ w', rx_sim (C := CB) (j := j) (r := r) (stmin := stmin) (bsmax := bsmax) RIdle w' ∧
      outs (trace w') = outs (trace wB) ++ OStart (rx_PduRPduHandleId r) (lenZ sdu) :: l ++ [OIndicate (rx_PduRPduHandleId r) E_OK]) wB.
Proof using HOk HT HL HR.
  intros Hsim Hacc Hlim Hcap Htb Hcr. unfold segment. set (pci := tx_pci t (lenZ sdu)).
  destruct (Z.leb_spec pci CANTP_NPCI_SFCANFD) as [Hle|Hgt].
  - destruct (link_single sdu Hacc Hcap Hle) as (pad & Ef & Hok). fold pci in Ef, Hok.
    exists (sf_frame t pci sdu), [], [OData (rx_PduRPduHandleId r) sdu]. split_and!; [done | apply data_one | |].
    { constructor; [left; by eexists | constructor]. }
    unfold reception. rewrite Ef, !lenZ_app, (rxc_pre _ _ _ _ _ _ HR), !Z.add_assoc. cbn [rx_calls]. apply wp_bind.
    eapply wp_mono; [exact (rx_single_wp HR _ _ _ _ Hsim Hok)|]. intros [] w1 [Hs1 Ho1]. apply wp_ret. done.
  - destruct (link_first sdu Hacc Hlim Hcap Hgt) as [Ef Hok]. fold pci in Ef, Hok. destruct link_facts as (_ & Hdv & _).
    set (chunk := take (Z.to_nat (ff_payload t pci)) sdu) in *. set (rest := drop (Z.to_nat (ff_payload t pci)) sdu).
    assert (sdu = chunk ++ rest) as Esdu by (symmetry; apply take_drop).
    assert (lenZ sdu = lenZ chunk + lenZ rest) as Elen by (rewrite Esdu at 1; apply lenZ_app).
    assert (lenZ chunk < lenZ sdu) by (destruct Hok as (_ & _ & _ & _ & _ & _ & _ & _ & _ & Hch & _); lia).
    destruct (receive_rest r oB stmin bsmax t pre (lk_addr HL) (rxc_pre _ _ _ _ _ _ HR) (lk_pad HL) Hdv (lk_dlc HL) Htb Hcr
      (mkRx (lenZ sdu - lenZ chunk) 1 0 dl) rest) as (evs & l & Hfed & Hevs & Hrun & Hd & Hgo); [lia | cbn; lia | done | done |].
    exists (ff_frame t pci sdu), evs, (OData (rx_PduRPduHandleId r) chunk :: l). rewrite Hfed. split_and!; [done | | |].
    { change (chunk ++ data_of l = sdu). by rewrite Hd, Esdu. }
    { constructor; [left; by eexists | done]. }
    rewrite Ef. eapply wp_mono; [exact (reception_wp _ _ _ _ _ _ HR _ _ _ _ _ _ _ _ Hsim Hok Hevs)|].
    rewrite Hrun. intros [] w1 [Hs1 Ho1]. done.
Qed.

(** C5. A message travels from one node to the other: the sender's node, served by a bus that
    confirms its frames and the receiver's flow control parameters, puts the segmentation of
    the message on the bus and confirms it; and there is a schedule of the receiver's node
    with exactly these frames after which its upper layer has been told the length, has been
    given exactly the bytes of the message and one positive indication; both channels are
    idle again. *)
Theorem cantp_end_to_end (stmin bsmax : Z) (wA : World UA) (wB : World UB) :
  tx_sim (C := CA) (id := id) (t := t) TIdle wA → rx_sim (C := CB) (j := j) (r := r) (stmin := stmin) (bsmax := bsmax) RIdle wB →
  tx_accepts t (lenZ (src (up wA))) = true → lenZ (src (up wA)) < 2 ^ PduLengthBits → lenZ (src (up wA)) ≤ snk_cap →
  0 ≤ TickBits → 0 < CsCrTicks oA → 0 ≤ BsBrTicks oA → (fc_off t = true → stm_ok CANTP_DEFAULT_STMIN_TICKS) → 1 ≤ CsCrTicks oB →
  let sdu := src (up wA) in
  ∃ n f evs l wA' wB',
    transfer id t p preA postA (lenZ sdu) (coop_events t oA bsmax stmin n (TReq (tx_pci t (lenZ sdu)) sdu 0)) wA = Some (E_OK, wA') ∧
    outs (trace wA') = outs (trace wA) ++ map (OFrame (tx_TxPduId t)) (f :: fed pre evs) ++ [OConfirm (tx_PduRPduHandleId t) E_OK] ∧
    reception r q pre f evs wB = Some (tt, wB') ∧
    outs (trace wB') = outs (trace wB) ++ OStart (rx_PduRPduHandleId r) (lenZ sdu) :: l ++ [OIndicate (rx_PduRPduHandleId r) E_OK] ∧
    data_of l = sdu ∧ Forall (rx_going r stmin bsmax) l ∧
    aget (CanTp_SubState (tp wA')) (tx_ChannelId t) = Some CANTP_IDLE ∧ aget (CanTp_SubState (tp wB')) (rx_ChannelId r) = Some CANTP_IDLE.
Proof using HOk HT HL HR.
  intros HsA HsB Hacc Hlim Hcap Htb HcsA HbsA Hdef HcsB sdu. destruct (re_bytes _ (proj1 HsB)) as [Hst Hbs].
  destruct (ends_req t oA (cf_payload_pos _ _ _ _ _ _ _ HT) bsmax stmin Htb HcsA HbsA Hdef (tx_pci t (lenZ sdu)) sdu)
    as [n Hn]; [apply tx_pci_range|].
  assert (Forall tx_ev_ok (coop_events t oA bsmax stmin n (TReq (tx_pci t (lenZ sdu)) sdu 0))) as Hevs by (by apply coop_ok).
  destruct (wp_run _ _ _ (transfer_wp _ _ _ _ _ _ _ HT _ _ HsA Hacc Hlim Hevs)) as (r0 & wA' & HrunA & -> & HA & HoA).
  fold sdu in HA, HoA, HrunA. rewrite Hn in HA, HoA.
  destruct (link_received wB stmin bsmax sdu HsB Hacc Hlim Hcap Htb HcsB) as (f & evs & l & Eseg & Hd & Hgo & Hwp).
  destruct (wp_run _ _ _ Hwp) as ([] & wB' & HrunB & HB & HoB). rewrite Eseg in HoA.
  exists n, f, evs, l, wA', wB'. split_and!; try done; [apply HA | apply HB].
Qed.
End nodes.

(** ** A concrete reception *)

#[export] Instance ex_sink : RxSink Upper 201 101.
Proof.
  refine {| room := rx_space; snk_cap := 4096 |}.
  - intros u d n Hn. eexists (mkUpper _ _ _ _). split; [reflexivity|]. done.
  - intros u d Hd. eexists (mkUpper _ _ _ _). split; [reflexivity|]. done.
  - intros u d n. eexists (mkUpper _ _ _ _). split; [reflexivity|]. done.
Defined.

Lemma ex_RxConn : RxConn ex_config 0 ex_rx (mkTimeOut 100 100 100) 0 [].
Proof. split; try done; [apply ex_config_wf|]. split; [done|]. by eexists. Qed.

Lemma ex_idle_rx_sim u : rx_sim (C := ex_config) (j := 0) (r := ex_rx) (stmin := 0) (bsmax := 0) RIdle (ex_idle u).
Proof.
  split; [|split; [done|split; [done|]]]; [|by eexists].
  split; try done. intros i Hi Hne. cbn in *. by assert (i = 0) as -> by lia.
Qed.

Lemma ex_ff_ok : ff_ok (r := ex_rx) 2 20 (seqZ 1 6) 8.
Proof. unfold ff_ok. split_and!; try done; try (cbn; lia). by left. Qed.

(** The first frame of a message of 20 bytes, the flow control frame with its confirmation,
    then a consecutive frame with a wrong sequence number. *)
Lemma cantp_refines_receiver_witness :
  ∃ w', reception ex_rx 0 [] [16; 20; 1; 2; 3; 4; 5; 6] [REMain; REConf; RECf 3 (seqZ 7 7)] (ex_idle (mkUpper [] [] 0 [])) = Some (tt, w') ∧
    outs (trace w') = [OStart 201 20; OData 201 [1; 2; 3; 4; 5; 6];
      OFrame 101 [48; 0; 0; 170; 170; 170; 170; 170]; OIndicate 201 E_NOT_OK] ∧
    aget (CanTp_SubState (tp w')) 1 = Some 0.
Proof.
  assert (Forall rx_ev_ok [REMain; REConf; RECf 3 (seqZ 7 7)]) as Hevs by (repeat constructor; done).
  destruct (cantp_refines_receiver ex_config 0 ex_rx (mkTimeOut 100 100 100) 0 [] 0 0 (ex_idle (mkUpper [] [] 0 []))
    2 20 (seqZ 1 6) 8 _ ex_RxConn (ex_idle_rx_sim _) ex_ff_ok Hevs) as (w' & Hrun & Ho & Hs).
  exists w'. split; [exact Hrun|]. split; [|exact Hs]. rewrite Ho. vm_compute. reflexivity.
Defined.

Lemma cantp_indicates_complete_witness :
  ∃ w' l fin, reception ex_rx 0 [] [16; 20; 1; 2; 3; 4; 5; 6] [REMain; REConf; RECf 1 (seqZ 7 7); RECf 2 (seqZ 14 7)]
      (ex_idle (mkUpper [] [] 0 [])) = Some (tt, w') ∧
    outs (trace w') = [] ++ OStart 201 20 :: l ++ fin ∧ Forall (rx_going ex_rx 0 0) l ∧
    (fin = [] ∧ aget (CanTp_SubState (tp w')) 1 ≠ Some CANTP_IDLE ∨
     aget (CanTp_SubState (tp w')) 1 = Some CANTP_IDLE ∧
       (fin = [OIndicate 201 E_OK] ∧ lenZ (data_of l) = 20 ∨ fin = [OIndicate 201 E_NOT_OK])).
Proof.
  assert (Forall rx_ev_ok [REMain; REConf; RECf 1 (seqZ 7 7); RECf 2 (seqZ 14 7)]) as Hevs by (repeat constructor; done).
  exact (cantp_indicates_complete ex_config 0 ex_rx (mkTimeOut 100 100 100) 0 [] 0 0 (ex_idle (mkUpper [] [] 0 []))
    2 20 (seqZ 1 6) 8 _ ex_RxConn (ex_idle_rx_sim _) ex_ff_ok Hevs).
Defined.

(** A build whose length check asks for exactly the expected length or more links the two
    connections of the example. *)
Lemma ex_linked : linked ex_tx ex_rx [].
Proof. split; [done..|]. intros n. cbn. by rewrite Z.leb_refl. Qed.

Lemma cantp_end_to_end_witness :
  ∃ n f evs l wA' wB',
    transfer 0 ex_tx 1 [] (replicate 5 0xAA) 20 (coop_events ex_tx (mkTimeOut 100 100 100) 0 0 n (TReq 2 (seqZ 1 20) 0))
      (ex_idle (mkUpper (seqZ 1 20) [] 0 [])) = Some (E_OK, wA') ∧
    outs (trace wA') = [] ++ map (OFrame 100) (f :: fed [] evs) ++ [OConfirm 200 E_OK] ∧
    reception ex_rx 0 [] f evs (ex_idle (mkUpper [] [] 0 [])) = Some (tt, wB') ∧
    outs (trace wB') = [] ++ OStart 201 20 :: l ++ [OIndicate 201 E_OK] ∧ data_of l = seqZ 1 20 ∧ Forall (rx_going ex_rx 0 0) l ∧
    aget (CanTp_SubState (tp wA')) 0 = Some CANTP_IDLE ∧ aget (CanTp_SubState (tp wB')) 1 = Some CANTP_IDLE.
Proof.
  set (wA := ex_idle (mkUpper (seqZ 1 20) [] 0 [])). set (wB := ex_idle (mkUpper [] [] 0 [])).
  assert (fc_off ex_tx = true → stm_ok CANTP_DEFAULT_STMIN_TICKS) as Hdef by discriminate.
  exact (cantp_end_to_end ex_config 0 ex_tx (mkTimeOut 100 100 100) 1 [] (replicate 5 0xAA)
    ex_config 0 ex_rx (mkTimeOut 100 100 100) 0 [] ex_TxConn ex_RxConn ex_linked 0 0 wA wB (ex_idle_sim _) (ex_idle_rx_sim _)
    eq_refl eq_refl ltac:(done) ltac:(done) ltac:(done) ltac:(done) Hdef ltac:(done)).
Defined.
