(* ===== verification/CanTpStuck.v ===== *)
(** * CanTp: a flow control confirmation slot that is never freed

    A first frame that restarts a reception while the confirmation of a flow control
    frame is pending leaves the slot of the confirmation occupied by the channel
    itself.  The flow control frame of the new reception waits for the slot, and
    the confirmation that arrives is dropped because the channel has left the state
    it belongs to: the channel stays busy whatever is confirmed and however long it
    waits. *)

From S2P Require Import Prelude ComStack CanTpTypes CanTpPrv CanTpFrames CanTpChan CanTp CanTpInv CanTpSafety CanTpProps CanTpSeg CanTpSender CanTpReceiver CanTpTxSim CanTpTxRef CanTpTxClaims CanTpRxSim CanTpRxRef CanTpRxClaims.
From stdpp Require Import base list numbers option.

#[local] Open Scope Z_scope.

Section stuck.
Context `{HCfg : CanTp_Cfg} {HOk : CanTp_CfgOk} {U : Type} `{HEnv : CanTp_Env U}.
Abbreviation W := (World U).
Context (C : CanTp_ConfigType) (j : Z) (r : CanTp_RxSduType) (o : CanTp_TimeOutType) (q : Z) (pre : list Z).
Context (HR : RxConn C j r o q pre) (stmin bsmax : Z).
Abbreviation c := (rx_ChannelId r).
Abbreviation k := (rx_TxConfirmationId r).

(** The channel is to send a flow control frame and its own confirmation slot is occupied. *)
Record stuck (w : W) : Prop := {
  sk_env : rx_env (C := C) (j := j) (r := r) (stmin := stmin) (bsmax := bsmax) w;
  sk_sub : aget (CanTp_SubState (tp w)) c = Some CANTP_RX_SEND_FC;
  sk_slot : aget (CanTp_TxConfirmationChannel (tp w)) k = Some c;
  sk_active : ∃ ch, aget (CanTp_Channel (tp w)) c = Some ch ∧ ch_ActiveSduId ch = j
}.

(** The world but for the clock. *)
Definition same_but_ticks (w w' : W) : Prop :=
  CanTp_SubState (tp w') = CanTp_SubState (tp w) ∧ CanTp_Channel (tp w') = CanTp_Channel (tp w) ∧
  CanTp_TxConfirmationChannel (tp w') = CanTp_TxConfirmationChannel (tp w) ∧ up w' = up w ∧ trace w' = trace w.

Lemma stuck_later w : stuck w → stuck (later w).
Proof. intros [[] ? ? ?]. by split. Qed.

Lemma stuck_slot : 0 ≤ c < NumberOfChannels C ∧ c ≠ CANTP_INVALID_CHANNEL.
Proof using HR.
  pose proof (cw_channels _ (rxc_wf _ _ _ _ _ _ HR)).
  pose proof (rxw_channel _ _ (cw_rx _ (rxc_wf _ _ _ _ _ _ HR) _ _ (rxc_r _ _ _ _ _ _ HR))).
  unfold CANTP_INVALID_CHANNEL. lia.
Qed.

(** The state function finds the slot occupied. *)
Lemma stuck_exec w (Q : unit → W → Prop) : stuck w → Q tt w → wp (CanTp_Prv_ExecuteState c) Q w.
Proof using HR.
  intros [He Hs Hk (ch & Hch & Ha)] HQ. pose proof (re_cfg _ He) as HC. pose proof (re_valid _ He) as Hv. destruct stuck_slot as [Hc Hne].
  pose proof (rxc_r _ _ _ _ _ _ HR) as Hr'. rewrite <-Ha in Hr'.
  rewrite (foc_intro w c _ ch Hch Hs) in HQ |- *. unfold CanTp_Prv_ExecuteState. foc_step. foc_step.
  repeat test_is false. test_is true. unfold CanTp_Prv_RxSendFlowControlFrame. quiet_steps. test_is true. quiet_steps.
  rewrite (proj2 (Z.eqb_neq c CANTP_INVALID_CHANNEL)) by done. cbn [when]. by apply wp_ret.
Qed.

Lemma stuck_main w : stuck w → wp CanTp_MainFunction (λ _ w', w' = later w) w.
Proof using HR.
  intros Hw. pose proof (sk_env _ Hw) as He. unfold CanTp_MainFunction. wp_step. wp_step.
  rewrite (re_on _ He), andb_false_r. cbv iota. rewrite (rxc_burst _ _ _ _ _ _ HR). wp_step. wp_step.
  wp_step. unfold cfg. wp_step. wp_step. eapply wp_lift; [apply He|]. wp_step. destruct stuck_slot as [Hc _].
  apply (main_one _ _ c); [lia | intros; apply (re_idle _ He); lia |]. apply stuck_exec; [done|].
  split; [intros; apply (re_idle _ He); lia|]. unfold CanTp_IncrementCounter. by wp_step.
Qed.

(** The confirmation is dropped: the channel is not in the state it belongs to. *)
Lemma stuck_conf w : stuck w → wp (CanTp_TxConfirmation k) (λ _ w', w' = w) w.
Proof using HR.
  intros [He Hs Hk (ch & Hch & Ha)]. pose proof (re_cfg _ He) as HC. pose proof (re_valid _ He) as Hv. destruct stuck_slot as [Hc Hne].
  destruct (rx_facts HR) as (_ & _ & Hkr). rewrite (foc_intro w c _ ch Hch Hs). unfold CanTp_TxConfirmation.
  eapply dev_pass; [exact (re_on _ He) | exact HC | cbn; lia |]. quiet_steps.
  rewrite (proj2 (Z.ltb_lt c _)) by lia. foc_step. foc_step. test_is false. test_is false. foc_step. by apply (rx_burst_off HR).
Qed.

Definition waits (e : RxEv) : Prop := match e with REMain | REConf => True | RECf _ _ => False end.

Lemma stuck_calls evs w : stuck w → Forall waits evs → wp (rx_calls r q pre evs) (λ _ w', stuck w' ∧ same_but_ticks w w') w.
Proof using HR.
  revert w. induction evs as [|e evs IH]; intros w Hw Hevs; cbn [rx_calls]; [by apply wp_ret|].
  apply Forall_cons_1 in Hevs as [He Hevs]. apply wp_bind. destruct e; [| |done]; cbn [rx_call].
  - eapply wp_mono; [by apply stuck_main|]. intros [] ? ->. eapply wp_mono; [by apply IH; [apply stuck_later|]|]. done.
  - eapply wp_mono; [by apply stuck_conf|]. intros [] ? ->. by apply IH.
Qed.

(** A channel that is to send a flow control frame while its own confirmation slot is
    occupied never gets out: whatever sequence of main-function runs and confirmations
    follows, nothing is sent or reported, the slot stays occupied and the channel stays busy. *)
Theorem cantp_fc_slot_stuck (w : W) (evs : list RxEv) :
  stuck w → Forall waits evs →
  ∃ w', rx_calls r q pre evs w = Some (tt, w') ∧ trace w' = trace w ∧ up w' = up w ∧
    aget (CanTp_SubState (tp w')) c = Some CANTP_RX_SEND_FC ∧ aget (CanTp_TxConfirmationChannel (tp w')) k = Some c.
Proof using HR.
  intros Hw Hevs. destruct (wp_run _ _ _ (stuck_calls evs w Hw Hevs)) as ([] & w' & Hrun & Hw' & Hsame).
  exists w'. destruct Hw', Hsame as (_ & _ & _ & ? & ?). done.
Qed.
End stuck.

(** Two first frames in a row, the second one before the confirmation of the flow control
    frame that answers the first. *)
Definition ex_restart : M (World Upper) unit :=
  CanTp_RxIndication 0 (Some (mkPduInfo (Some [16; 20; 1; 2; 3; 4; 5; 6]) 8));; CanTp_MainFunction;;
  CanTp_RxIndication 0 (Some (mkPduInfo (Some [16; 20; 1; 2; 3; 4; 5; 6]) 8)).

Definition ex_stuck : World Upper :=
  match ex_restart (ex_idle (mkUpper [] [] 0 [])) with Some (_, w) => w | None => ex_idle (mkUpper [] [] 0 []) end.

(** The state is reached, and a thousand main-function runs after the confirmation do not
    leave it. *)
Lemma cantp_fc_slot_stuck_witness :
  ex_restart (ex_idle (mkUpper [] [] 0 [])) = Some (tt, ex_stuck) ∧
  ∃ w', rx_calls ex_rx 0 [] (REConf :: replicate 1000 REMain) ex_stuck = Some (tt, w') ∧ trace w' = trace ex_stuck ∧
    up w' = up ex_stuck ∧ aget (CanTp_SubState (tp w')) 1 = Some CANTP_RX_SEND_FC ∧
    aget (CanTp_TxConfirmationChannel (tp w')) 1 = Some 1.
Proof.
  split; [vm_compute; reflexivity|].
  assert (stuck ex_config 0 ex_rx 0 0 ex_stuck) as Hs.
  { remember ex_stuck as w eqn:E. vm_compute in E. subst w.
    split; [|done|done|by eexists]. split; try done. intros i Hi Hne. cbn in Hi, Hne. by assert (i = 0) as -> by lia. }
  assert (Forall waits (REConf :: replicate 1000 REMain)) as Hw by (constructor; [done|]; by apply Forall_replicate).
  exact (cantp_fc_slot_stuck ex_config 0 ex_rx (mkTimeOut 100 100 100) 0 [] ex_RxConn 0 0 ex_stuck _ Hs Hw).
Defined.
