(* ===== verification/PduR.v ===== *)
(** * PduR: the router (PduR.c, PduR_Tp.c, PduR.h)

    The router keeps a pointer to its configuration, whose tables map an I-PDU
    identifier to the functions of the neighbouring modules and to the
    identifier under which these know the I-PDU.  The tables are generated and
    the function pointers lead to the neighbours, whose joint state is [A].

    The specification of the router is a look-up: [target] finds the function a
    call is routed to, if any.  Every service is shown to be the call of that
    function, or a negative answer that changes nothing.  The router between
    CanTp and the upper layer is an instance of the interface CanTp is proved
    against. *)

From S2P Require Import Prelude ComStack CanTpTypes CanTpPrv CanTpFrames CanTpChan CanTp CanTpInv CanTpSafe CanTpSafeState CanTpSafeRx CanTpSafety CanTpProps.
From stdpp Require Import base list numbers option.

#[local] Open Scope Z_scope.

(** The sizes of the routing tables (PduR_Cfg.h, generated). *)
Class PduR_Cfg := {
  PDUR_PDU_TX_MAX : Z;
  PDUR_PDU_RX_MAX : Z;
  PDUR_PDU_TP_TX_MAX : Z;
  PDUR_PDU_TP_RX_MAX : Z
}.

Section types.
Context (A : Type).

(** A function pointer is [None] for NULL_PTR.  A copy-out function answers with
    the bytes it writes and the value left in the length out-parameter.  The retry
    information is [None] for NULL_PTR, else whether TpDataState is TP_DATARETRY,
    and TxTpDataCnt. *)
Record PduR_RouteTblTx_st := mkRouteTx {
  LoTransmit : option (Z → option PduInfoType → A → Std_ReturnType * A);
  LoCancelTransmit : option (Z → A → Std_ReturnType * A);
  tx_LoTxPduId : Z;
  UpTxConfirmation : option (Z → A → A);
  tx_UpTxPduId : Z }.

Record PduR_RouteTblRx_st := mkRouteRx {
  UpRxIndication : option (Z → option PduInfoType → A → A);
  rx_UpRxPduId : Z }.

Record PduR_TpRouteTblTx_st := mkTpRouteTx {
  LoTpTransmit : option (Z → option PduInfoType → A → Std_ReturnType * A);
  LoTpCancelTransmit : option (Z → A → Std_ReturnType * A);
  tp_LoTxPduId : Z;
  UpTpCopyTxData : option (Z → Z → option (bool * Z) → A → BufReq_ReturnType * list Z * Z * A);
  UpTpTxConfirmation : option (Z → Std_ReturnType → A → A);
  tp_UpTxPduId : Z }.

Record PduR_TpRouteTblRx_st := mkTpRouteRx {
  UpTpStartOfReception : option (Z → list Z → Z → A → BufReq_ReturnType * Z * A);
  UpTpCopyRxData : option (Z → list Z → A → BufReq_ReturnType * Z * A);
  UpTpRxIndication : option (Z → Std_ReturnType → A → A);
  tp_UpRxPduId : Z }.

Record PduR_ConfigType := mkPduRConfig {
  RouteTblTx : list PduR_RouteTblTx_st;
  RouteTblRx : list PduR_RouteTblRx_st;
  TpRouteTblTx : list PduR_TpRouteTblTx_st;
  TpRouteTblRx : list PduR_TpRouteTblRx_st;
  TxInterrupt : option (Z → A → A);
  SetTxConfirmationLatency : option (Z → Z → A → A) }.

(** The router and its neighbours. *)
Record PduRWorld := mkPduR { PduR_Config : option PduR_ConfigType; around : A }.
End types.

Arguments mkPduR {A} _ _.
Arguments PduR_Config {A} _.
Arguments around {A} _.
Arguments mkPduRConfig {A} _ _ _ _ _ _.
Arguments mkRouteTx {A} _ _ _ _ _.
Arguments mkRouteRx {A} _ _.
Arguments mkTpRouteTx {A} _ _ _ _ _ _.
Arguments mkTpRouteRx {A} _ _ _ _.
Arguments LoTransmit {A} _.
Arguments LoCancelTransmit {A} _.
Arguments tx_LoTxPduId {A} _.
Arguments UpTxConfirmation {A} _.
Arguments tx_UpTxPduId {A} _.
Arguments UpRxIndication {A} _.
Arguments rx_UpRxPduId {A} _.
Arguments LoTpTransmit {A} _.
Arguments LoTpCancelTransmit {A} _.
Arguments tp_LoTxPduId {A} _.
Arguments UpTpCopyTxData {A} _.
Arguments UpTpTxConfirmation {A} _.
Arguments tp_UpTxPduId {A} _.
Arguments UpTpStartOfReception {A} _.
Arguments UpTpCopyRxData {A} _.
Arguments UpTpRxIndication {A} _.
Arguments tp_UpRxPduId {A} _.
Arguments RouteTblTx {A} _.
Arguments RouteTblRx {A} _.
Arguments TpRouteTblTx {A} _.
Arguments TpRouteTblRx {A} _.
Arguments TxInterrupt {A} _.
Arguments SetTxConfirmationLatency {A} _.

Section PduR.
Context `{PduR_Cfg} {A : Type}.
Abbreviation W := (PduRWorld A).
Abbreviation Cfg := (PduR_ConfigType A).

Definition PduR_Init (config : option Cfg) : M W unit := modify (λ w, mkPduR config (around w)).

(** [id < max && PduR_Config != NULL && table[id].fn != NULL], evaluated from the left;
    the call when all hold, [dflt] otherwise. *)
Definition guarded {E F R : Type} (max : Z) (table : Cfg → list E) (fn : Cfg → E → option F) (id : Z)
    (dflt : R) (call : E → F → M W R) : M W R :=
  if id <? max then
    p ← gets PduR_Config;
    match p with
    | None => mret dflt
    | Some c =>
        e ← lift (aget (table c) id);
        match fn c e with
        | None => mret dflt
        | Some f => call e f
        end
    end
  else mret dflt.

(** Calls through a function pointer, with and without a result. *)
Definition call_value {R : Type} (f : A → R * A) : M W R :=
  x ← gets around;
  let '(r, x') := f x in
  modify (λ w, mkPduR (PduR_Config w) x');; mret r.
Definition call_void (f : A → A) : M W unit := modify (λ w, mkPduR (PduR_Config w) (f (around w))).

(** ** Single frames (PduR.c) *)

Definition PduR_Transmit (id : Z) (info : option PduInfoType) : M W Std_ReturnType :=
  guarded PDUR_PDU_TX_MAX RouteTblTx (λ _, LoTransmit) id E_NOT_OK
    (λ e f, call_value (f (tx_LoTxPduId e) info)).

Definition PduR_CancelTransmit (id : Z) : M W Std_ReturnType :=
  guarded PDUR_PDU_TX_MAX RouteTblTx (λ _, LoCancelTransmit) id E_NOT_OK
    (λ e f, call_value (f (tx_LoTxPduId e))).

Definition PduR_TxConfirmation (id : Z) : M W unit :=
  guarded PDUR_PDU_TX_MAX RouteTblTx (λ _, UpTxConfirmation) id tt (λ e f, call_void (f (tx_UpTxPduId e))).

Definition PduR_RxIndication (id : Z) (info : option PduInfoType) : M W unit :=
  guarded PDUR_PDU_RX_MAX RouteTblRx (λ _, UpRxIndication) id tt (λ e f, call_void (f (rx_UpRxPduId e) info)).

Definition PduR_SetTxConfirmationLatency (id latency : Z) : M W unit :=
  guarded PDUR_PDU_TX_MAX RouteTblTx (λ c _, SetTxConfirmationLatency c) id tt
    (λ e f, call_void (f (tx_UpTxPduId e) latency)).

Definition PduR_TxInterrupt (id : Z) : M W unit :=
  guarded PDUR_PDU_TX_MAX RouteTblTx (λ c _, TxInterrupt c) id tt (λ e f, call_void (f (tx_UpTxPduId e))).

(** ** Transport protocol (PduR_Tp.c)

    [len] bytes are requested; [avail] and [size] are the values the
    out-parameters hold before the call. *)

Definition PduR_TpTransmit (id : Z) (info : option PduInfoType) : M W Std_ReturnType :=
  guarded PDUR_PDU_TP_TX_MAX TpRouteTblTx (λ _, LoTpTransmit) id E_NOT_OK
    (λ e f, call_value (f (tp_LoTxPduId e) info)).

Definition PduR_TpCancelTransmit (id : Z) : M W Std_ReturnType :=
  guarded PDUR_PDU_TP_TX_MAX TpRouteTblTx (λ _, LoTpCancelTransmit) id E_NOT_OK
    (λ e f, call_value (f (tp_LoTxPduId e))).

Definition PduR_TpCopyTxData (id len : Z) (retry : option (bool * Z)) (avail : Z) : M W (BufReq_ReturnType * list Z * Z) :=
  guarded PDUR_PDU_TP_TX_MAX TpRouteTblTx (λ _, UpTpCopyTxData) id (BUFREQ_E_NOT_OK, [], avail)
    (λ e f, call_value (f (tp_UpTxPduId e) len retry)).

Definition PduR_TpTxConfirmation (id : Z) (result : Std_ReturnType) : M W unit :=
  guarded PDUR_PDU_TP_TX_MAX TpRouteTblTx (λ _, UpTpTxConfirmation) id tt
    (λ e f, call_void (f (tp_UpTxPduId e) result)).

Definition PduR_TpStartOfReception (id : Z) (info : list Z) (length size : Z) : M W (BufReq_ReturnType * Z) :=
  guarded PDUR_PDU_TP_RX_MAX TpRouteTblRx (λ _, UpTpStartOfReception) id (BUFREQ_E_NOT_OK, size)
    (λ e f, call_value (f (tp_UpRxPduId e) info length)).

Definition PduR_TpCopyRxData (id : Z) (info : list Z) (size : Z) : M W (BufReq_ReturnType * Z) :=
  guarded PDUR_PDU_TP_RX_MAX TpRouteTblRx (λ _, UpTpCopyRxData) id (BUFREQ_E_NOT_OK, size)
    (λ e f, call_value (f (tp_UpRxPduId e) info)).

Definition PduR_TpRxIndication (id : Z) (result : Std_ReturnType) : M W unit :=
  guarded PDUR_PDU_TP_RX_MAX TpRouteTblRx (λ _, UpTpRxIndication) id tt
    (λ e f, call_void (f (tp_UpRxPduId e) result)).
End PduR.

(** * PduR: what the router promises *)

(** ** Calls and answers *)

Inductive pdur_call :=
| C_Transmit (info : option PduInfoType)
| C_CancelTransmit
| C_TxConfirmation
| C_RxIndication (info : option PduInfoType)
| C_SetTxConfirmationLatency (latency : Z)
| C_TxInterrupt
| C_TpTransmit (info : option PduInfoType)
| C_TpCancelTransmit
| C_TpCopyTxData (len : Z) (retry : option (bool * Z)) (avail : Z)
| C_TpTxConfirmation (result : Std_ReturnType)
| C_TpStartOfReception (info : list Z) (length size : Z)
| C_TpCopyRxData (info : list Z) (size : Z)
| C_TpRxIndication (result : Std_ReturnType).

Inductive answer :=
| A_void
| A_std (r : Std_ReturnType)
| A_buf (r : BufReq_ReturnType) (size : Z)
| A_copy (r : BufReq_ReturnType) (data : list Z) (avail : Z).

(** The answer to a call that is not routed anywhere. *)
Definition negative (k : pdur_call) : answer :=
  match k with
  | C_Transmit _ | C_CancelTransmit | C_TpTransmit _ | C_TpCancelTransmit => A_std E_NOT_OK
  | C_TpCopyTxData _ _ avail => A_copy BUFREQ_E_NOT_OK [] avail
  | C_TpStartOfReception _ _ size | C_TpCopyRxData _ size => A_buf BUFREQ_E_NOT_OK size
  | _ => A_void
  end.

Section PduRProps.
Context `{HP : PduR_Cfg} {A : Type}.
Abbreviation W := (PduRWorld A).
Abbreviation Cfg := (PduR_ConfigType A).

Definition pdur_run (k : pdur_call) (id : Z) : M W answer :=
  match k with
  | C_Transmit info => r ← PduR_Transmit id info; mret (A_std r)
  | C_CancelTransmit => r ← PduR_CancelTransmit id; mret (A_std r)
  | C_TxConfirmation => PduR_TxConfirmation id;; mret A_void
  | C_RxIndication info => PduR_RxIndication id info;; mret A_void
  | C_SetTxConfirmationLatency latency => PduR_SetTxConfirmationLatency id latency;; mret A_void
  | C_TxInterrupt => PduR_TxInterrupt id;; mret A_void
  | C_TpTransmit info => r ← PduR_TpTransmit id info; mret (A_std r)
  | C_TpCancelTransmit => r ← PduR_TpCancelTransmit id; mret (A_std r)
  | C_TpCopyTxData len retry avail => '(r, data, n) ← PduR_TpCopyTxData id len retry avail; mret (A_copy r data n)
  | C_TpTxConfirmation result => PduR_TpTxConfirmation id result;; mret A_void
  | C_TpStartOfReception info length size => '(r, n) ← PduR_TpStartOfReception id info length size; mret (A_buf r n)
  | C_TpCopyRxData info size => '(r, n) ← PduR_TpCopyRxData id info size; mret (A_buf r n)
  | C_TpRxIndication result => PduR_TpRxIndication id result;; mret A_void
  end.

(** Calls through the pointers of a table entry, by kind of result. *)
Definition to_std (f : A → Std_ReturnType * A) (x : A) : answer * A := let '(r, x') := f x in (A_std r, x').
Definition to_void (f : A → A) (x : A) : answer * A := (A_void, f x).
Definition to_buf (f : A → BufReq_ReturnType * Z * A) (x : A) : answer * A :=
  let '(r, n, x') := f x in (A_buf r n, x').
Definition to_copy (f : A → BufReq_ReturnType * list Z * Z * A) (x : A) : answer * A :=
  let '(r, d, n, x') := f x in (A_copy r d n, x').

Definition on_tx {R} (c : Cfg) (id : Z) (f : PduR_RouteTblTx_st A → option R) : option R :=
  aget (RouteTblTx c) id ≫= f.
Definition on_rx {R} (c : Cfg) (id : Z) (f : PduR_RouteTblRx_st A → option R) : option R :=
  aget (RouteTblRx c) id ≫= f.
Definition on_tptx {R} (c : Cfg) (id : Z) (f : PduR_TpRouteTblTx_st A → option R) : option R :=
  aget (TpRouteTblTx c) id ≫= f.
Definition on_tprx {R} (c : Cfg) (id : Z) (f : PduR_TpRouteTblRx_st A → option R) : option R :=
  aget (TpRouteTblRx c) id ≫= f.

(** The specification: where the configuration routes a call. *)
Definition target (c : Cfg) (k : pdur_call) (id : Z) : option (A → answer * A) :=
  match k with
  | C_Transmit info => on_tx c id (λ e, (λ f, to_std (f (tx_LoTxPduId e) info)) <$> LoTransmit e)
  | C_CancelTransmit => on_tx c id (λ e, (λ f, to_std (f (tx_LoTxPduId e))) <$> LoCancelTransmit e)
  | C_TxConfirmation => on_tx c id (λ e, (λ f, to_void (f (tx_UpTxPduId e))) <$> UpTxConfirmation e)
  | C_RxIndication info => on_rx c id (λ e, (λ f, to_void (f (rx_UpRxPduId e) info)) <$> UpRxIndication e)
  | C_SetTxConfirmationLatency latency =>
      on_tx c id (λ e, (λ f, to_void (f (tx_UpTxPduId e) latency)) <$> SetTxConfirmationLatency c)
  | C_TxInterrupt => on_tx c id (λ e, (λ f, to_void (f (tx_UpTxPduId e))) <$> TxInterrupt c)
  | C_TpTransmit info => on_tptx c id (λ e, (λ f, to_std (f (tp_LoTxPduId e) info)) <$> LoTpTransmit e)
  | C_TpCancelTransmit => on_tptx c id (λ e, (λ f, to_std (f (tp_LoTxPduId e))) <$> LoTpCancelTransmit e)
  | C_TpCopyTxData len retry _ => on_tptx c id (λ e, (λ f, to_copy (f (tp_UpTxPduId e) len retry)) <$> UpTpCopyTxData e)
  | C_TpTxConfirmation result =>
      on_tptx c id (λ e, (λ f, to_void (f (tp_UpTxPduId e) result)) <$> UpTpTxConfirmation e)
  | C_TpStartOfReception info length _ =>
      on_tprx c id (λ e, (λ f, to_buf (f (tp_UpRxPduId e) info length)) <$> UpTpStartOfReception e)
  | C_TpCopyRxData info _ => on_tprx c id (λ e, (λ f, to_buf (f (tp_UpRxPduId e) info)) <$> UpTpCopyRxData e)
  | C_TpRxIndication result =>
      on_tprx c id (λ e, (λ f, to_void (f (tp_UpRxPduId e) result)) <$> UpTpRxIndication e)
  end.

(** The tables have the sizes they are declared with. *)
Definition tables_ok (c : Cfg) : Prop :=
  lenZ (RouteTblTx c) = PDUR_PDU_TX_MAX ∧ lenZ (RouteTblRx c) = PDUR_PDU_RX_MAX ∧
  lenZ (TpRouteTblTx c) = PDUR_PDU_TP_TX_MAX ∧ lenZ (TpRouteTblRx c) = PDUR_PDU_TP_RX_MAX.

(** The specification of a call: the target found in the installed configuration is
    called; without one the answer is negative and nothing happens. *)
Definition pdur_spec (k : pdur_call) (id : Z) (w : W) : answer * W :=
  match PduR_Config w ≫= λ c, target c k id with
  | Some f => let '(r, x) := f (around w) in (r, mkPduR (PduR_Config w) x)
  | None => (negative k, w)
  end.

(** ** The guard *)

Lemma guarded_spec {E F R : Type} (max : Z) (table : Cfg → list E) (fn : Cfg → E → option F) id
    (dflt : R) (call : E → F → M W R) (w : W) :
  (∀ c, PduR_Config w = Some c → lenZ (table c) = max) → 0 ≤ id →
  guarded max table fn id dflt call w =
    match PduR_Config w ≫= λ c, aget (table c) id ≫= λ e, (λ f, (e, f)) <$> fn c e with
    | Some (e, f) => call e f w
    | None => Some (dflt, w)
    end.
Proof.
  intros Ht Hid. unfold guarded.
  change (@mbind (M W) _) with (@M_bind W). unfold M_bind, gets, lift.
  destruct (PduR_Config w) as [c|] eqn:Hc; cbn; [|by destruct (id <? max); cbn; rewrite ?Hc].
  specialize (Ht c eq_refl). destruct (Z.ltb_spec id max).
  - destruct (aget_is_Some (table c) id) as [e He]; [lia|]. rewrite He. cbn. rewrite Hc. cbn. rewrite He. cbn.
    by destruct (fn c e).
  - destruct (aget (table c) id) as [e|] eqn:He; [apply aget_Some in He; lia|]. done.
Qed.

Lemma pdur_run_spec k id w :
  (∀ c, PduR_Config w = Some c → tables_ok c) → 0 ≤ id → pdur_run k id w = Some (pdur_spec k id w).
Proof.
  intros Ht Hid. unfold pdur_spec.
  assert (Hlen : ∀ {E} (table : Cfg → list E) max,
    (∀ c, tables_ok c → lenZ (table c) = max) → ∀ c, PduR_Config w = Some c → lenZ (table c) = max) by auto.
  destruct k; cbn [pdur_run target negative];
    unfold PduR_Transmit, PduR_CancelTransmit, PduR_TxConfirmation, PduR_RxIndication,
      PduR_SetTxConfirmationLatency, PduR_TxInterrupt, PduR_TpTransmit, PduR_TpCancelTransmit, PduR_TpCopyTxData,
      PduR_TpTxConfirmation, PduR_TpStartOfReception, PduR_TpCopyRxData, PduR_TpRxIndication;
    change (@mbind (M W) _) with (@M_bind W); unfold M_bind;
    rewrite guarded_spec by (try done; apply Hlen; by intros c (? & ? & ? & ?));
    unfold on_tx, on_rx, on_tptx, on_tprx;
    destruct (PduR_Config w) as [c|] eqn:Hc; cbn; try done;
    (destruct (aget _ id) as [e|]; cbn; [|done]);
    (match goal with |- context [@fmap option _ _ _ _ ?o] => destruct o end; cbn; [|done]);
    unfold call_value, call_void, modify, gets, to_std, to_void, to_buf, to_copy;
    change (@mbind (M W) _) with (@M_bind W); unfold M_bind, mret, M_ret; cbn;
    repeat (case_match; simplify_eq/=); congruence.
Qed.
End PduRProps.

(** ** The router as the upper neighbour of CanTp

    Below the router CanTp sees the CAN interface and the CAN FD call-out; both
    belong to the surroundings. *)

Class Below (A : Type) := {
  below_CanIf_Transmit : Z → option (list Z) → Z → A → Std_ReturnType * A;
  below_FdCallOut : Z → PduInfoType → bool → A → Std_ReturnType * A
}.

Section stack.
Context `{HP : PduR_Cfg} {A : Type} {HB : Below A}.

(** A call of the router with configuration pointer [p]; the configuration is not
    changed by any service.  [pdur_run_spec] shows that the router always returns. *)
Definition through {R : Type} (p : option (PduR_ConfigType A)) (m : M (PduRWorld A) R) (dflt : R) (x : A) : R * A :=
  match m (mkPduR p x) with
  | Some (r, w) => (r, around w)
  | None => (dflt, x)
  end.

(** The inline functions of PduR_CanTp.h.  CanTp passes NULL_PTR for the retry
    information; its length out-parameters are uninitialised before the calls. *)
Definition routed_env (p : option (PduR_ConfigType A)) : CanTp_Env A := {|
  PduR_CanTpCopyTxData := λ id len, through p (PduR_TpCopyTxData id len None 0) (BUFREQ_E_NOT_OK, [], 0);
  PduR_CanTpStartOfReception := λ id data len, through p (PduR_TpStartOfReception id data len 0) (BUFREQ_E_NOT_OK, 0);
  PduR_CanTpCopyRxData := λ id data, through p (PduR_TpCopyRxData id data 0) (BUFREQ_E_NOT_OK, 0);
  PduR_CanTpTxConfirmation := λ id r x, snd (through p (PduR_TpTxConfirmation id r) tt x);
  PduR_CanTpRxIndication := λ id r x, snd (through p (PduR_TpRxIndication id r) tt x);
  CanIf_Transmit := below_CanIf_Transmit;
  CanTp_FdCallOut := below_FdCallOut
|}.

(** The copy functions of the upper layer never write more than they are asked for. *)
Definition upper_ok (c : PduR_ConfigType A) : Prop :=
  ∀ id e f, aget (TpRouteTblTx c) id = Some e → UpTpCopyTxData e = Some f →
  ∀ i len retry x res data rem x', f i len retry x = (res, data, rem, x') → 0 ≤ len → lenZ data ≤ len.

(** The router discharges what CanTp relies on. *)
Lemma routed_env_ok (p : option (PduR_ConfigType A)) :
  (∀ c, p = Some c → upper_ok c) → @CanTp_EnvOk A (routed_env p).
Proof.
  intros Hu. split. cbn. intros id len u res data rem u' E Hlen. revert E.
  unfold through, PduR_TpCopyTxData, guarded.
  destruct (id <? PDUR_PDU_TP_TX_MAX); [|by intros [= <- <- <- <-]].
  change (@mbind (M (PduRWorld A)) _) with (@M_bind (PduRWorld A)). unfold M_bind, gets, lift. cbn.
  destruct p as [c|]; [|by intros [= <- <- <- <-]].
  destruct (aget (TpRouteTblTx c) id) as [e|] eqn:He; cbn; [|by intros [= <- <- <- <-]].
  destruct (UpTpCopyTxData e) as [f|] eqn:Hf; [|by intros [= <- <- <- <-]].
  unfold call_value, gets, modify. change (@mbind (M (PduRWorld A)) _) with (@M_bind (PduRWorld A)).
  unfold M_bind. cbn. destruct (f (tp_UpTxPduId e) len None u) as [[[r d] n] x] eqn:Ef. cbn.
  intros [= <- <- <- <-]. by eapply (Hu c eq_refl).
Qed.
End stack.

(** ** Properties *)

(** C30. Every service of the router, called before initialisation or with any installed
    configuration whose tables have their declared sizes, for any identifier of an unsigned
    type, has a defined result: it calls exactly the function that the configuration names
    for the identifier, under the identifier the target knows, and answers what it answers;
    if there is none, it answers negatively and changes nothing. *)
Theorem pdur_refines_routing `{HP : PduR_Cfg} {A : Type} (k : pdur_call) (id : Z) (w : PduRWorld A) :
  (∀ c, PduR_Config w = Some c → tables_ok c) → 0 ≤ id → pdur_run k id w = Some (pdur_spec k id w).
Proof. apply pdur_run_spec. Qed.

#[export] Instance ex_pdur : PduR_Cfg :=
  {| PDUR_PDU_TX_MAX := 0; PDUR_PDU_RX_MAX := 0; PDUR_PDU_TP_TX_MAX := 201; PDUR_PDU_TP_RX_MAX := 0 |}.

(** A configuration with one route, for the identifier CanTp uses: the upper layer is the one of the example. *)
Definition ex_routes : PduR_ConfigType Upper :=
  mkPduRConfig [] []
    (replicate 200 (mkTpRouteTx None None 0 None None 0) ++
     [mkTpRouteTx None None 0 (Some (λ _ len _, @PduR_CanTpCopyTxData Upper ex_env 0 len)) (Some (λ _ _ u, u)) 7]) [] None None.

Lemma pdur_refines_routing_witness :
  pdur_run (C_TpCopyTxData 2 None 0) 200 (mkPduR (Some ex_routes) (mkUpper [1; 2; 3] [] 0 [])) =
    Some (A_copy BUFREQ_OK [1; 2] 1, mkPduR (Some ex_routes) (mkUpper [3] [] 0 [])).
Proof.
  apply (pdur_refines_routing (C_TpCopyTxData 2 None 0) 200 (mkPduR (Some ex_routes) (mkUpper [1; 2; 3] [] 0 [])));
    [|done]. by intros c [= <-].
Defined.

#[export] Instance ex_below : Below Upper :=
  {| below_CanIf_Transmit := @CanIf_Transmit Upper ex_env; below_FdCallOut := @CanTp_FdCallOut Upper ex_env |}.

(** CanTp and the router together: with CanTp on top of any routing configuration
    whose copy functions respect the requested length, every state reachable by calls of
    the CanTp services is safe and every further admissible call has a defined result. *)
Theorem pdur_cantp_safe `{HCfg : CanTp_Cfg} {HOk : CanTp_CfgOk} `{HP : PduR_Cfg} {A : Type} {HB : Below A}
    (p : option (PduR_ConfigType A)) (C : CanTp_ConfigType) (w : World A) (k : call) :
  (∀ c, p = Some c → upper_ok c) → config_wf C →
  @reachable _ A (routed_env p) C w → call_ok C w k →
  ∃ w', @run _ A (routed_env p) k w = Some (tt, w') ∧ Safe C w'.
Proof.
  intros Hu Hwf Hr Hk. pose proof (routed_env_ok p Hu) as HE.
  pose proof (@reachable_Safe _ _ A (routed_env p) HE C w Hwf Hr) as HS.
  destruct (wp_run _ _ _ (@safe_run _ _ A (routed_env p) HE C w k Hwf HS Hk)) as ([] & w' & Hrun & HS'). eauto.
Qed.

(** CanTp copies the data of a single frame through the router. *)
Lemma pdur_cantp_safe_witness :
  ∃ w w', @run _ Upper (routed_env (Some ex_routes)) Call_MainFunction w = Some (tt, w') ∧ Safe ex_config w' ∧
    bus (up w') = [(100, [5; 1; 2; 3; 4; 5; 0xAA; 0xAA])].
Proof.
  assert (∀ api i, 0 ≤ i → id_ok ex_config api i) as Hid by (intros; split; [done | discriminate]).
  eexists. edestruct (pdur_cantp_safe (Some ex_routes) ex_config) as (w' & Hr & HS).
  4: apply (conj (A := args_ok ex_config Call_MainFunction)); [done | by left].
  - intros c [= <-] id e f He. apply aget_elem in He. apply elem_of_app in He as [He|He]; [by apply elem_of_replicate_inv in He as ->|apply list_elem_of_singleton in He as ->].
    intros [= <-] i len retry. apply (@ok_copytx Upper ex_env ex_env_ok 0).
  - exact ex_config_wf.
  - eapply (reach_call _ _ (Call_Transmit 0 (Some 5))).
    + eapply (reach_call _ _ (Call_Init None)).
      * apply (reach_start _ (ex_static (mkUpper [1; 2; 3; 4; 5] [] 100 []))); [done | apply ex_static_Mem].
      * split; [done | by left].
      * vm_compute. reflexivity.
    + split; [|by left]. split; [by apply Hid|]. intros n [= <-]. done.
    + vm_compute. reflexivity.
  - exists w'. split; [exact Hr|]. split; [exact HS|]. revert Hr. vm_compute. by intros [= <-].
Defined.
