(* ===== verification/CanIf.v ===== *)
(** * CanIf: the CAN interface (CanIf.c, CanIf_Cbk.c, CanIf_Types.h, CanIf_Private.h)

    Controller and transceiver modes, transmission requests with their pending
    confirmation flags, and the dispatch of confirmations and receptions to the
    upper layers.  The driver, the ECU configuration and the supply monitor are
    the class [CanIf_Lower]; the upper layers are the class [CanIf_Users], whose
    functions run on the whole state, so that they may call CanIf again. *)

From S2P Require Import Prelude ComStack.
From stdpp Require Import base list numbers option.

#[local] Open Scope Z_scope.

(** ** Types *)

Inductive CanIf_ControllerModeType :=
| CANIF_CS_UNINIT | CANIF_CS_SLEEP | CANIF_CS_STARTED | CANIF_CS_STOPPED | CANIF_CS_WAKEUP.

(** Types of Can_GeneralTypes.h, which is not part of the repository. *)
Inductive CanTrcv_TrcvModeType := CANTRCV_TRCVMODE_NORMAL | CANTRCV_TRCVMODE_SLEEP | CANTRCV_TRCVMODE_STANDBY.
Inductive Can_ReturnType := CAN_OK | CAN_NOT_OK | CAN_BUSY.
Inductive Can_StateTransitionType := CAN_T_START | CAN_T_STOP | CAN_T_SLEEP | CAN_T_WAKEUP.
Record Can_PduType := mkCanPdu { swPduHandle : Z; pdu_id : Z; pdu_length : Z; pdu_sdu : option (list Z) }.

#[global] Instance CanIf_ControllerModeType_eq_dec : EqDecision CanIf_ControllerModeType.
Proof. solve_decision. Defined.
#[global] Instance CanTrcv_TrcvModeType_eq_dec : EqDecision CanTrcv_TrcvModeType.
Proof. solve_decision. Defined.
#[global] Instance Can_ReturnType_eq_dec : EqDecision Can_ReturnType.
Proof. solve_decision. Defined.

Record CanIf_PduHandleType := mkHandle { LoHwHandle : Z; UpPduId : Z }.

Inductive CanIf_PduUserCallbackULType := CANIF_CAN_TP | CANIF_CAN_TSYN | CANIF_PDUR | CANIF_CDD.

(** A received L-PDU: data and time stamp. *)
Record CanIf_RxInfo := mkRxInfo { rx_pdu : PduInfoType; SduTimeStamp : Z }.

Definition CANIF_API_TRANSMIT : Z := 2.
Definition CANIF_API_RXINDICATION : Z := 3.
Definition CANIF_API_TXCONFIRMATION : Z := 4.
Definition CANIF_API_GET_PDUID : Z := 5.
Definition CANIF_API_SET_CTRL_MODE : Z := 7.
Definition CANIF_API_GET_CTRL_MODE : Z := 8.
Definition CANIF_API_SET_TRCV_MODE : Z := 9.
Definition CANIF_API_GET_TRCV_MODE : Z := 10.
Definition CANIF_API_CTRL_BUSOFF : Z := 16.
Definition CANIF_API_CTRL_MODE_IND : Z := 17.
Definition CANIF_API_TRCV_MODE_IND : Z := 22.
Definition CANIF_ERR_MCAN_TRANSITION : Z := 1.
Definition CANIF_ERR_TRCV_TRANSITION : Z := 2.
Definition CANIF_ERR_PARAM_POINTER : Z := 4.
Definition CANIF_ERR_PARAM_PDUID : Z := 5.
Definition CANIF_ERR_PARAM_CTRLID : Z := 6.
Definition CANIF_ERR_PARAM_TRCVID : Z := 7.
Definition CANIF_ERR_PARAM_CTRLMODE : Z := 8.
Definition CANIF_ERR_PARAM_TRCVMODE : Z := 9.
Definition CANIF_ERR_TRANSMIT_FAILED : Z := 10.
Definition CANIF_ERR_PARAM_VOLTAGE : Z := 13.

(** What CanIf does that its neighbours can see, recorded in order. *)
Inductive CanIf_Event :=
| EvWrite (pdu : Z) (hth : Z) (frame : Can_PduType) (result : Can_ReturnType)
| EvTxConfirm (pdu : Z) (user : CanIf_PduUserCallbackULType) (up : Z)
| EvRxIndicate (pdu : Z) (user : CanIf_PduUserCallbackULType) (up : Z) (info : CanIf_RxInfo)
| EvDet (instance api err : Z).

(** ** State

    The arrays behind the pointers of CanIf_Config that change at run time; the
    CAN identifiers are rewritten by CanIf_Cfg_SetAnchorCanId. *)

Record CanIfVars := mkCanIf {
  CanIfPendingTxConfirm : list bool;
  CanIfControllerMode : list CanIf_ControllerModeType;
  CanIfTrcvMode : list CanTrcv_TrcvModeType;
  CanIfPduCanIdMappingCfg : list Z }.

Record CanIfWorld (X : Type) := mkCanIfWorld { canif : CanIfVars; lower : X; events : list CanIf_Event }.
Arguments mkCanIfWorld {X} _ _ _.
Arguments canif {X} _.
Arguments lower {X} _.
Arguments events {X} _.

(** The constant part of CanIf_Config, the driver behind its function pointers, the
    supply monitor and the state manager; [PduIdBits] is the width of PduIdType. *)
Class CanIf_Lower (X : Type) := {
  CANIF_DEV_ERROR_DETECT : bool;
  RBD_PK_BLE_TIMESYNC : bool;
  RBD_PK_CPU_CC26xx : bool;
  PduIdBits : Z;
  CAN_FD_FRAME_MASK : Z;
  CanIfPduMax : Z;
  CanIfNumController : Z;
  CanIfNumChannels : Z;
  CanIfCtrlId : Z;
  CanIfTimestampFrequency : Z;
  CanIfPduHandleCfg : list CanIf_PduHandleType;
  CanIfPduUserCallbackULCfg : list CanIf_PduUserCallbackULType;
  FakeTxConfirmPduId : list Z;
  CanIf_Cfg_SetAnchorCanId : list Z → X → list Z * X;
  CanTrcv_Write : Z → Can_PduType → X → Can_ReturnType * X;
  CanTrcv_SetControllerMode : Z → Can_StateTransitionType → X → Can_ReturnType * X;
  CanTrcv_SetOpMode : Z → CanTrcv_TrcvModeType → X → Std_ReturnType * X;
  CanTrcv_GetOpMode : Z → X → Std_ReturnType * CanTrcv_TrcvModeType * X;
  CanTrcv_DisableAllInterrupts : option (Z → X → X);
  CanTrcv_ClearTXBRP : option (Z → X → X);
  CanTrcv_GetCurrentTimeStampCounterValue : X → Z;
  CanTrcv_GetCurrentTxTimeStamp : X → Z;
  CanSM_ControllerBusOff : Z → X → X;
  rbdPwrVM_voltage_normal : X → bool
}.

(** The upper layers, and the user call-backs of the configuration. *)
Class CanIf_Users (X : Type) := {
  CanTp_TxConfirmation : Z → M (CanIfWorld X) unit;
  CanTp_RxIndication : Z → PduInfoType → M (CanIfWorld X) unit;
  PduR_TxConfirmation : Z → M (CanIfWorld X) unit;
  PduR_SetTxConfirmationLatency : Z → Z → M (CanIfWorld X) unit;
  PduR_RxIndication : Z → CanIf_RxInfo → M (CanIfWorld X) unit;
  UserTxConfirmationFn : list (option (Z → M (CanIfWorld X) unit));
  UserRxIndicationFn : list (option (Z → CanIf_RxInfo → M (CanIfWorld X) unit))
}.

Section CanIf.
Context {X : Type} `{HL : CanIf_Lower X}.
Abbreviation W := (CanIfWorld X).

Definition ev (e : CanIf_Event) : M W unit :=
  modify (λ w, mkCanIfWorld (canif w) (lower w) (events w ++ [e])).
Definition Det_ReportError (instance api err : Z) : M W unit := ev (EvDet instance api err).
Definition set_canif (f : CanIfVars → CanIfVars) : M W unit :=
  modify (λ w, mkCanIfWorld (f (canif w)) (lower w) (events w)).
Definition driver {R : Type} (f : X → R * X) : M W R :=
  x ← gets lower;
  let '(r, x') := f x in
  modify (λ w, mkCanIfWorld (canif w) x' (events w));; mret r.

Definition get_mode (c : Z) : M W CanIf_ControllerModeType :=
  l ← gets (λ w, CanIfControllerMode (canif w)); lift (aget l c).
Definition set_mode (c : Z) (m : CanIf_ControllerModeType) : M W unit :=
  l ← gets (λ w, CanIfControllerMode (canif w));
  l ← lift (aset l c m);
  set_canif (λ v, mkCanIf (CanIfPendingTxConfirm v) l (CanIfTrcvMode v) (CanIfPduCanIdMappingCfg v)).
Definition get_trcv (t : Z) : M W CanTrcv_TrcvModeType :=
  l ← gets (λ w, CanIfTrcvMode (canif w)); lift (aget l t).
Definition set_trcv (t : Z) (m : CanTrcv_TrcvModeType) : M W unit :=
  l ← gets (λ w, CanIfTrcvMode (canif w));
  l ← lift (aset l t m);
  set_canif (λ v, mkCanIf (CanIfPendingTxConfirm v) (CanIfControllerMode v) l (CanIfPduCanIdMappingCfg v)).
Definition get_pending (i : Z) : M W bool :=
  l ← gets (λ w, CanIfPendingTxConfirm (canif w)); lift (aget l i).
Definition set_pending (i : Z) (b : bool) : M W unit :=
  l ← gets (λ w, CanIfPendingTxConfirm (canif w));
  l ← lift (aset l i b);
  set_canif (λ v, mkCanIf l (CanIfControllerMode v) (CanIfTrcvMode v) (CanIfPduCanIdMappingCfg v)).

(** [(PduIdType)CanIf_Config.CanIfPduMax] *)
Definition PduMax : Z := uw PduIdBits CanIfPduMax.

(** ** CanIf.c *)

Definition CanIf_RefreshDynamicId : M W unit :=
  l ← gets (λ w, CanIfPduCanIdMappingCfg (canif w));
  l ← driver (CanIf_Cfg_SetAnchorCanId l);
  set_canif (λ v, mkCanIf (CanIfPendingTxConfirm v) (CanIfControllerMode v) (CanIfTrcvMode v) l).

Definition CanIf_Init : M W unit :=
  mfor (Z.to_nat CanIfNumController) 0 (λ Id, set_mode Id CANIF_CS_UNINIT);;
  mfor (Z.to_nat CanIfNumChannels) 0 (λ Id, set_trcv Id CANTRCV_TRCVMODE_SLEEP);;
  CanIf_RefreshDynamicId;;
  mfor (Z.to_nat CanIfPduMax) 0 (λ Id, set_pending Id false).

(** The call of the driver, up to its answer. *)
Definition Transmit_write (TxPduId : Z) (Info : PduInfoType) : M W Can_ReturnType :=
  ids ← gets (λ w, CanIfPduCanIdMappingCfg (canif w));
  id ← lift (aget ids TxPduId);
  h ← lift (aget CanIfPduHandleCfg TxPduId);
  let CanPdu := mkCanPdu TxPduId id (u8 (SduLength Info)) (SduDataPtr Info) in
  Ret ← driver (CanTrcv_Write (LoHwHandle h) CanPdu);
  ev (EvWrite TxPduId (LoHwHandle h) CanPdu Ret);;
  mret Ret.

(** What follows the answer of the driver. *)
Definition Transmit_result (TxPduId : Z) (Ret : Can_ReturnType) : M W Std_ReturnType :=
  match Ret with
  | CAN_BUSY => mret E_NOT_OK
  | CAN_NOT_OK =>
      when CANIF_DEV_ERROR_DETECT (Det_ReportError 0 CANIF_API_TRANSMIT CANIF_ERR_TRANSMIT_FAILED);;
      mret E_NOT_OK
  | CAN_OK => set_pending TxPduId true;; mret E_OK
  end.

Definition CanIf_Transmit (TxPduId : Z) (PduInfoPtr : option PduInfoType) : M W Std_ReturnType :=
  if CANIF_DEV_ERROR_DETECT && (PduMax <=? TxPduId) then
    Det_ReportError 0 CANIF_API_TRANSMIT CANIF_ERR_PARAM_PDUID;; mret E_NOT_OK
  else if CANIF_DEV_ERROR_DETECT && bool_decide (PduInfoPtr = None) then
    Det_ReportError 0 CANIF_API_TRANSMIT CANIF_ERR_PARAM_POINTER;; mret E_NOT_OK
  else
    normal ← gets (λ w, rbdPwrVM_voltage_normal (lower w));
    if negb normal then
      when CANIF_DEV_ERROR_DETECT (Det_ReportError 0 CANIF_API_TRANSMIT CANIF_ERR_PARAM_VOLTAGE);;
      mret E_NOT_OK
    else
      mode ← get_mode CanIfCtrlId;
      if bool_decide (mode = CANIF_CS_STARTED) then
        Info ← lift PduInfoPtr;
        Ret ← Transmit_write TxPduId Info;
        Transmit_result TxPduId Ret
      else mret E_NOT_OK.

Definition CanIf_SetControllerMode (ControllerId : Z) (ControllerMode : CanIf_ControllerModeType)
    : M W Std_ReturnType :=
  if CANIF_DEV_ERROR_DETECT && (CanIfNumController <=? ControllerId) then
    Det_ReportError 0 CANIF_API_SET_CTRL_MODE CANIF_ERR_PARAM_CTRLID;; mret E_NOT_OK
  else if CANIF_DEV_ERROR_DETECT && bool_decide (ControllerMode = CANIF_CS_UNINIT) then
    Det_ReportError ControllerId CANIF_API_SET_CTRL_MODE CANIF_ERR_PARAM_CTRLMODE;; mret E_NOT_OK
  else
    let Transition :=
      match ControllerMode with
      | CANIF_CS_STARTED => CAN_T_START
      | CANIF_CS_SLEEP => CAN_T_SLEEP
      | CANIF_CS_WAKEUP => CAN_T_WAKEUP
      | _ => CAN_T_STOP
      end in
    Ret ← driver (CanTrcv_SetControllerMode ControllerId Transition);
    match Ret with
    | CAN_OK => mret E_OK
    | CAN_BUSY => mret E_NOT_OK
    | CAN_NOT_OK =>
        when CANIF_DEV_ERROR_DETECT (Det_ReportError 0 CANIF_API_SET_CTRL_MODE CANIF_ERR_MCAN_TRANSITION);;
        mret E_NOT_OK
    end.

(** [ptr] tells whether the out-pointer is not NULL; the answer carries the value stored there. *)
Definition CanIf_GetControllerMode (ControllerId : Z) (ptr : bool)
    : M W (Std_ReturnType * option CanIf_ControllerModeType) :=
  if CANIF_DEV_ERROR_DETECT && (CanIfNumController <=? ControllerId) then
    Det_ReportError 0 CANIF_API_GET_CTRL_MODE CANIF_ERR_PARAM_CTRLID;; mret (E_NOT_OK, None)
  else if CANIF_DEV_ERROR_DETECT && negb ptr then
    Det_ReportError ControllerId CANIF_API_GET_CTRL_MODE CANIF_ERR_PARAM_POINTER;; mret (E_NOT_OK, None)
  else
    m ← get_mode ControllerId;
    if ptr then mret (E_OK, Some m) else ub.

Definition CanIf_SetTrcvMode (TransceiverId : Z) (TransceiverMode : CanTrcv_TrcvModeType) : M W Std_ReturnType :=
  if CANIF_DEV_ERROR_DETECT && (CanIfNumChannels <=? TransceiverId) then
    Det_ReportError 0 CANIF_API_SET_TRCV_MODE CANIF_ERR_PARAM_TRCVID;; mret E_NOT_OK
  else
    r ← driver (CanTrcv_SetOpMode TransceiverId TransceiverMode);
    RetValue ←
      (if bool_decide (r = E_OK) then
         '(r, CanTrcv_Mode) ← driver (CanTrcv_GetOpMode TransceiverId);
         mret (if bool_decide (r = E_OK) && negb (bool_decide (CanTrcv_Mode = TransceiverMode)) then E_NOT_OK else r)
       else mret r);
    when (CANIF_DEV_ERROR_DETECT && bool_decide (RetValue = E_NOT_OK))
      (Det_ReportError 0 CANIF_API_SET_TRCV_MODE CANIF_ERR_TRCV_TRANSITION);;
    mret RetValue.

Definition CanIf_GetTrcvMode (TransceiverId : Z) (ptr : bool) : M W (Std_ReturnType * option CanTrcv_TrcvModeType) :=
  if CANIF_DEV_ERROR_DETECT && (CanIfNumChannels <=? TransceiverId) then
    Det_ReportError 0 CANIF_API_GET_TRCV_MODE CANIF_ERR_PARAM_TRCVID;; mret (E_NOT_OK, None)
  else if CANIF_DEV_ERROR_DETECT && negb ptr then
    Det_ReportError 0 CANIF_API_GET_TRCV_MODE CANIF_ERR_PARAM_POINTER;; mret (E_NOT_OK, None)
  else
    mode ← get_mode CanIfCtrlId;
    let RetValue := if bool_decide (mode = CANIF_CS_UNINIT) then E_NOT_OK else E_OK in
    m ← get_trcv TransceiverId;
    if ptr then mret (RetValue, Some m) else ub.

Definition CanIf_ControllerModeIndication (ControllerId : Z) (ControllerMode : CanIf_ControllerModeType) : M W unit :=
  if CANIF_DEV_ERROR_DETECT && (CanIfNumController <=? ControllerId) then
    Det_ReportError 0 CANIF_API_CTRL_MODE_IND CANIF_ERR_PARAM_CTRLID
  else if CANIF_DEV_ERROR_DETECT &&
          negb (bool_decide (ControllerMode = CANIF_CS_SLEEP) || bool_decide (ControllerMode = CANIF_CS_STARTED) ||
                bool_decide (ControllerMode = CANIF_CS_STOPPED)) then
    Det_ReportError ControllerId CANIF_API_CTRL_MODE_IND CANIF_ERR_PARAM_CTRLMODE
  else set_mode ControllerId ControllerMode.

Definition CanIf_TrcvModeIndication (TransceiverId : Z) (TransceiverMode : CanTrcv_TrcvModeType) : M W unit :=
  if CANIF_DEV_ERROR_DETECT && (CanIfNumChannels <=? TransceiverId) then
    Det_ReportError 0 CANIF_API_TRCV_MODE_IND CANIF_ERR_PARAM_TRCVID
  else set_trcv TransceiverId TransceiverMode.

(** A call through a function pointer that may be NULL. *)
Definition call_optional (f : option (Z → X → X)) (c : Z) : M W unit :=
  match f with
  | Some f => driver (λ x, (tt, f c x))
  | None => mret tt
  end.

Definition CanIf_ControllerBusOff (ControllerId : Z) : M W unit :=
  if CANIF_DEV_ERROR_DETECT && (CanIfNumController <=? ControllerId) then
    Det_ReportError 0 CANIF_API_CTRL_BUSOFF CANIF_ERR_PARAM_CTRLID
  else
    set_mode ControllerId CANIF_CS_STOPPED;;
    call_optional CanTrcv_DisableAllInterrupts ControllerId;;
    call_optional CanTrcv_ClearTXBRP ControllerId;;
    driver (λ x, (tt, CanSM_ControllerBusOff ControllerId x)).

(** ** CanIf_Cbk.c *)

(** The CAN identifiers are compared without the CAN FD flag. *)
Definition same_id (CanId CfgId : Z) : bool :=
  Z.land (Z.lxor CanId CfgId) (u32 (Z.lnot CAN_FD_FRAME_MASK)) =? 0.

Fixpoint GetPduId_loop (n : nat) (PduId CanId : Z) (ids : list Z) : option (Std_ReturnType * Z) :=
  match n with
  | O => Some (E_NOT_OK, 0)
  | S n =>
      id ← aget ids PduId;
      if same_id CanId id then Some (E_OK, PduId) else GetPduId_loop n (PduId + 1) CanId ids
  end.

(** The second component is the identifier stored through PduIdPtr, on E_OK. *)
Definition CanIf_GetPduId (CanId : Z) : M W (Std_ReturnType * Z) :=
  ids ← gets (λ w, CanIfPduCanIdMappingCfg (canif w));
  lift (GetPduId_loop (Z.to_nat PduMax) 0 CanId ids).

(** The time since a time stamp, in nanoseconds. *)
Definition latency (stamp : Z) (x : X) : option Z :=
  if CanIfTimestampFrequency =? 0 then None
  else Some (u32 (Z.land (u32 (CanTrcv_GetCurrentTimeStampCounterValue x - stamp)) 0xFFFF *
                  (1000000000 / CanIfTimestampFrequency))).

Context `{HU : CanIf_Users X}.

(** The call of the upper layer that owns the PDU; TIMESYNC confirmations exist on the CC26xx only. *)
Definition confirm_user (CanTxPduId : Z) (ul : CanIf_PduUserCallbackULType) (TxPduId : Z) : M W unit :=
  match ul with
  | CANIF_CAN_TP => ev (EvTxConfirm CanTxPduId ul TxPduId);; CanTp_TxConfirmation TxPduId
  | CANIF_CAN_TSYN =>
      when (RBD_PK_BLE_TIMESYNC && RBD_PK_CPU_CC26xx)
        (l ← gets (λ w, latency (CanTrcv_GetCurrentTxTimeStamp (lower w)) (lower w));
         match l with Some l => PduR_SetTxConfirmationLatency TxPduId l | None => mret tt end;;
         ev (EvTxConfirm CanTxPduId ul TxPduId);; PduR_TxConfirmation TxPduId)
  | CANIF_PDUR => ev (EvTxConfirm CanTxPduId ul TxPduId);; PduR_TxConfirmation TxPduId
  | CANIF_CDD =>
      f ← lift (aget UserTxConfirmationFn CanTxPduId);
      match f with
      | Some f => ev (EvTxConfirm CanTxPduId ul TxPduId);; f TxPduId
      | None => mret tt
      end
  end.

Definition CanIf_TxConfirmation (CanTxPduId : Z) : M W unit :=
  if CANIF_DEV_ERROR_DETECT && (PduMax <=? CanTxPduId) then
    Det_ReportError 0 CANIF_API_TXCONFIRMATION CANIF_ERR_PARAM_PDUID
  else
    h ← lift (aget CanIfPduHandleCfg CanTxPduId);
    p ← get_pending CanTxPduId;
    when p
      (set_pending CanTxPduId false;;
       ul ← lift (aget CanIfPduUserCallbackULCfg CanTxPduId);
       confirm_user CanTxPduId ul (UpPduId h)).

Definition indicate_user (PduId : Z) (ul : CanIf_PduUserCallbackULType) (RxPduId : Z) (Info : CanIf_RxInfo) : M W unit :=
  match ul with
  | CANIF_CAN_TP => ev (EvRxIndicate PduId ul RxPduId Info);; CanTp_RxIndication RxPduId (rx_pdu Info)
  | CANIF_CAN_TSYN =>
      when RBD_PK_BLE_TIMESYNC
        (l ← gets (λ w, latency (SduTimeStamp Info) (lower w));
         let Info := mkRxInfo (rx_pdu Info) (default (SduTimeStamp Info) l) in
         ev (EvRxIndicate PduId ul RxPduId Info);; PduR_RxIndication RxPduId Info)
  | CANIF_PDUR => ev (EvRxIndicate PduId ul RxPduId Info);; PduR_RxIndication RxPduId Info
  | CANIF_CDD =>
      f ← lift (aget UserRxIndicationFn PduId);
      match f with
      | Some f => ev (EvRxIndicate PduId ul RxPduId Info);; f RxPduId Info
      | None => mret tt
      end
  end.

(** [Mailbox] is the CAN identifier of the mailbox, [None] for NULL_PTR. *)
Definition CanIf_RxIndication (Mailbox : option Z) (PduInfoPtr : option CanIf_RxInfo) : M W unit :=
  if CANIF_DEV_ERROR_DETECT && (bool_decide (Mailbox = None) || bool_decide (PduInfoPtr = None)) then
    Det_ReportError 0 CANIF_API_RXINDICATION CANIF_ERR_PARAM_POINTER
  else
    CanId ← lift Mailbox;
    '(r, PduId) ← CanIf_GetPduId CanId;
    when (bool_decide (r = E_OK))
      (h ← lift (aget CanIfPduHandleCfg PduId);
       fake ← lift (aget FakeTxConfirmPduId PduId);
       when (fake <? PduMax) (CanIf_TxConfirmation fake);;
       ul ← lift (aget CanIfPduUserCallbackULCfg PduId);
       Info ← lift PduInfoPtr;
       indicate_user PduId ul (UpPduId h) Info).
End CanIf.
