(* ===== verification/CanIfCalls.v ===== *)
(** * CanIf: clients that may call back, and sequences of calls

    The upper layers are programs that act on CanIf only through CanIf_Transmit
    ([client]).  For such users every sequence of calls keeps the arrays inside
    their bounds and delivers no more confirmations than frames were accepted. *)

From S2P Require Import Prelude ComStack CanIf.
From stdpp Require Import base list numbers option.

#[local] Open Scope Z_scope.

(** ** What CanIf relies on: tables of the declared sizes *)
Class CanIf_LowerOk (X : Type) `{CanIf_Lower X} : Prop := {
  ok_pdumax : 0 ≤ CanIfPduMax < 2 ^ PduIdBits;
  ok_handles : lenZ CanIfPduHandleCfg = CanIfPduMax;
  ok_users : lenZ CanIfPduUserCallbackULCfg = CanIfPduMax;
  ok_fake : lenZ FakeTxConfirmPduId = CanIfPduMax ∧ Forall (λ i, 0 ≤ i) FakeTxConfirmPduId;
  ok_ctrl : 0 ≤ CanIfCtrlId < CanIfNumController;
  ok_trcv : 0 ≤ CanIfNumChannels;
  ok_anchor : ∀ l x, lenZ (fst (CanIf_Cfg_SetAnchorCanId l x)) = lenZ l
}.

(** ** Counting events *)

Definition is_accept (i : Z) (e : CanIf_Event) : bool :=
  match e with EvWrite j _ _ CAN_OK => j =? i | _ => false end.
Definition is_confirm (i : Z) (e : CanIf_Event) : bool :=
  match e with EvTxConfirm j _ _ => j =? i | _ => false end.
Definition is_write (e : CanIf_Event) : bool := match e with EvWrite _ _ _ _ => true | _ => false end.

Fixpoint tally (f : CanIf_Event → bool) (l : list CanIf_Event) : Z :=
  match l with
  | [] => 0
  | e :: l => (if f e then 1 else 0) + tally f l
  end.

Lemma tally_app f l1 l2 : tally f (l1 ++ l2) = tally f l1 + tally f l2.
Proof. induction l1 as [|e l1 IH]; cbn; [done | rewrite IH; lia]. Qed.

(** Every confirmation is preceded by an accepted frame of its own. *)
Definition paired (l : list CanIf_Event) : Prop :=
  ∀ i n, tally (is_confirm i) (take n l) ≤ tally (is_accept i) (take n l).

Lemma paired_snoc l e :
  paired l → (∀ i, tally (is_confirm i) (l ++ [e]) ≤ tally (is_accept i) (l ++ [e])) → paired (l ++ [e]).
Proof.
  intros Hl He i n. destruct (decide (n ≤ length l)%nat).
  - rewrite take_app_le by done. apply Hl.
  - rewrite take_ge by (rewrite length_app; cbn; lia). apply He.
Qed.

Section CanIfProps.
Context {X : Type} `{HL : CanIf_Lower X} {HOk : CanIf_LowerOk X}.
Abbreviation W := (CanIfWorld X).
Implicit Types (w : W).

Lemma PduMax_eq : PduMax = CanIfPduMax.
Proof using HOk. apply uw_small, ok_pdumax. Qed.

(** ** The invariant *)

Definition pend w (i : Z) : Z := if aget (CanIfPendingTxConfirm (canif w)) i is Some true then 1 else 0.

Record IfInv w : Prop := {
  in_pending : lenZ (CanIfPendingTxConfirm (canif w)) = CanIfPduMax;
  in_mode : lenZ (CanIfControllerMode (canif w)) = CanIfNumController;
  in_trcv : lenZ (CanIfTrcvMode (canif w)) = CanIfNumChannels;
  in_ids : lenZ (CanIfPduCanIdMappingCfg (canif w)) = CanIfPduMax;
  in_acct : ∀ i, tally (is_confirm i) (events w) + pend w i ≤ tally (is_accept i) (events w);
  in_paired : paired (events w)
}.

(** ** Primitives *)

Lemma wp_driver {R} (f : X → R * X) (Q : R → W → Prop) w :
  (∀ r x, f (lower w) = (r, x) → Q r (mkCanIfWorld (canif w) x (events w))) → wp (driver f) Q w.
Proof. intros HQ. unfold driver. wp_steps. destruct (f (lower w)) as [r x]. wp_steps. by apply HQ. Qed.

Lemma inv_lower w x : IfInv w → IfInv (mkCanIfWorld (canif w) x (events w)).
Proof. by intros []. Qed.

Lemma inv_driver {R} (f : X → R * X) w : IfInv w → wp (driver f) (λ _, IfInv) w.
Proof. intros HI. apply wp_driver. intros r x _. by apply inv_lower. Qed.

(** Events that are neither accepted frames nor confirmations. *)
Lemma inv_ev w e :
  IfInv w → (∀ i, is_accept i e = false) → (∀ i, is_confirm i e = false) → wp (ev e) (λ _, IfInv) w.
Proof.
  intros [] Ha Hc. unfold ev. wp_step.
  assert (∀ i, tally (is_confirm i) (events w ++ [e]) = tally (is_confirm i) (events w) ∧
               tally (is_accept i) (events w ++ [e]) = tally (is_accept i) (events w)) as Ht.
  { intros i. rewrite !tally_app. cbn. rewrite Ha, Hc. lia. }
  split; cbn; try done.
  - intros i. destruct (Ht i) as [-> ->]. apply in_acct0.
  - apply paired_snoc; [done|]. intros i. destruct (Ht i) as [-> ->]. specialize (in_acct0 i).
    unfold pend in in_acct0. repeat case_match; lia.
Qed.

Lemma inv_det w a b c : IfInv w → wp (Det_ReportError a b c) (λ _, IfInv) w.
Proof. intros. by apply inv_ev. Qed.

Lemma wp_get_mode w c (Q : _ → W → Prop) :
  IfInv w → 0 ≤ c < CanIfNumController →
  (∀ m, aget (CanIfControllerMode (canif w)) c = Some m → Q m w) → wp (get_mode c) Q w.
Proof.
  intros [] Hc HQ. destruct (aget_is_Some (CanIfControllerMode (canif w)) c) as [m Hm]; [lia|].
  unfold get_mode. wp_steps. eapply wp_lift; [done | by apply HQ].
Qed.

Lemma inv_set_mode w c m : IfInv w → 0 ≤ c < CanIfNumController → wp (set_mode c m) (λ _, IfInv) w.
Proof.
  intros [] Hc. unfold set_mode, set_canif. wp_steps. eapply wp_lift; [apply aset_is_Some; lia|]. wp_steps.
  split; cbn; try done. by rewrite lenZ_insert.
Qed.

Lemma inv_set_trcv w t m : IfInv w → 0 ≤ t < CanIfNumChannels → wp (set_trcv t m) (λ _, IfInv) w.
Proof.
  intros [] Hc. unfold set_trcv, set_canif. wp_steps. eapply wp_lift; [apply aset_is_Some; lia|]. wp_steps.
  split; cbn; try done. by rewrite lenZ_insert.
Qed.

Lemma wp_set_pending w i b (Q : unit → W → Prop) :
  IfInv w → 0 ≤ i < CanIfPduMax →
  Q tt (mkCanIfWorld (mkCanIf (<[Z.to_nat i := b]> (CanIfPendingTxConfirm (canif w))) (CanIfControllerMode (canif w))
                        (CanIfTrcvMode (canif w)) (CanIfPduCanIdMappingCfg (canif w))) (lower w) (events w)) →
  wp (set_pending i b) Q w.
Proof.
  intros [] Hi HQ. unfold set_pending, set_canif. wp_steps. eapply wp_lift; [apply aset_is_Some; lia|]. by wp_steps.
Qed.

(** Clearing a flag keeps the invariant; setting one needs a spare accepted frame. *)
Lemma inv_set_pending w i b :
  IfInv w → 0 ≤ i < CanIfPduMax →
  (b = true → tally (is_confirm i) (events w) + 1 ≤ tally (is_accept i) (events w)) →
  wp (set_pending i b) (λ _, IfInv) w.
Proof.
  intros HI Hi Hb. pose proof HI as []. apply wp_set_pending; [done..|].
  split; cbn; try done; [by rewrite lenZ_insert|]. intros j. specialize (in_acct0 j). unfold pend in *. cbn.
  rewrite aget_insert by lia. case_decide as Hj; [|done]. subst j. destruct b; [by apply Hb|].
  repeat case_match; lia.
Qed.

(** ** The services *)

(** Arguments the caller owes where no check is compiled in. *)
Definition tx_args (id : Z) (p : option PduInfoType) : Prop :=
  0 ≤ id ∧ (CANIF_DEV_ERROR_DETECT = false → id < CanIfPduMax ∧ p ≠ None).

Lemma wp_Transmit_write w id I (Q : Can_ReturnType → W → Prop) :
  IfInv w → 0 ≤ id < CanIfPduMax →
  (∀ cid h r x, aget (CanIfPduCanIdMappingCfg (canif w)) id = Some cid → aget CanIfPduHandleCfg id = Some h →
    let f := mkCanPdu id cid (u8 (SduLength I)) (SduDataPtr I) in
    CanTrcv_Write (LoHwHandle h) f (lower w) = (r, x) →
    Q r (mkCanIfWorld (canif w) x (events w ++ [EvWrite id (LoHwHandle h) f r]))) →
  wp (Transmit_write id I) Q w.
Proof using HOk.
  intros HI Hid HQ. destruct HI. pose proof ok_handles.
  destruct (aget_is_Some (CanIfPduCanIdMappingCfg (canif w)) id) as [cid Hc]; [lia|].
  destruct (aget_is_Some CanIfPduHandleCfg id) as [h Hh]; [lia|].
  unfold Transmit_write, ev. wp_steps. eapply wp_lift; [done|]. wp_steps. eapply wp_lift; [done|]. wp_steps.
  apply wp_driver. intros r x Hr. wp_steps. by apply HQ.
Qed.

Lemma inv_accept w id hth f x :
  IfInv w → 0 ≤ id < CanIfPduMax →
  wp (set_pending id true) (λ _, IfInv) (mkCanIfWorld (canif w) x (events w ++ [EvWrite id hth f CAN_OK])).
Proof.
  intros [] Hid.
  assert (∀ i, tally (is_confirm i) (events w) ≤ tally (is_accept i) (events w)) as Hle.
  { intros i. specialize (in_acct0 i). unfold pend in in_acct0. repeat case_match; lia. }
  apply inv_set_pending; [|done|].
  - split; cbn; try done.
    + intros i. rewrite !tally_app. specialize (in_acct0 i). unfold pend in *. cbn. destruct (id =? i); lia.
    + apply paired_snoc; [done|]. intros i. rewrite !tally_app. specialize (Hle i). cbn. destruct (id =? i); lia.
  - intros _. cbn. rewrite !tally_app. cbn. rewrite Z.eqb_refl. specialize (Hle id). lia.
Qed.

Lemma inv_Transmit w id p : IfInv w → tx_args id p → wp (CanIf_Transmit id p) (λ _, IfInv) w.
Proof using HOk.
  intros HI [Hid Ha]. unfold CanIf_Transmit. rewrite PduMax_eq.
  wp_step; [by wp_step; eapply wp_mono; [by apply inv_det|]; intros; wp_steps|].
  wp_step; [by wp_step; eapply wp_mono; [by apply inv_det|]; intros; wp_steps|].
  assert (0 ≤ id < CanIfPduMax) as Hr.
  { destruct CANIF_DEV_ERROR_DETECT; cbn in *; bools; [lia|]. destruct Ha; [done|lia]. }
  assert (∃ I, p = Some I) as [I ->].
  { destruct p as [I|]; [by exists I|]. destruct CANIF_DEV_ERROR_DETECT; cbn in *; [done|]. by destruct Ha. }
  wp_step. wp_step. wp_step.
  { wp_step. wp_step; [eapply wp_mono; [by apply inv_det|]; intros; by wp_steps | by wp_steps]. }
  wp_step. apply wp_get_mode; [done | apply ok_ctrl |]. intros m Hm. wp_step; [|by wp_step].
  wp_step. eapply wp_lift; [done|]. wp_step. apply wp_Transmit_write; [done..|]. intros cid h r x Hc Hh f Hw.
  destruct r; cbn [Transmit_result].
  - wp_step. eapply wp_mono; [by apply inv_accept|]. intros. by wp_steps.
  - wp_step. assert (IfInv (mkCanIfWorld (canif w) x (events w ++ [EvWrite id (LoHwHandle h) f CAN_NOT_OK]))) as HI'.
    { pose proof (inv_ev (mkCanIfWorld (canif w) x (events w)) (EvWrite id (LoHwHandle h) f CAN_NOT_OK)) as He.
      apply He; [by apply inv_lower | done..]. }
    wp_step; [eapply wp_mono; [by apply inv_det|]; intros; by wp_steps | by wp_steps].
  - wp_step. pose proof (inv_ev (mkCanIfWorld (canif w) x (events w)) (EvWrite id (LoHwHandle h) f CAN_BUSY)) as He.
    apply He; [by apply inv_lower | done..].
Qed.

(** ** Clients *)

(** What an upper layer may do inside a call-back: read and change its own state and
    the driver's, and request transmissions. *)
Inductive client : M W unit → Prop :=
| client_ret : client (mret tt)
| client_read (k : X → M W unit) : (∀ x, client (k x)) → client (x ← gets lower; k x)
| client_local (f : X → X) m : client m →
    client (modify (λ w, mkCanIfWorld (canif w) (f (lower w)) (events w));; m)
| client_transmit id p (k : Std_ReturnType → M W unit) : tx_args id p → (∀ r, client (k r)) →
    client (r ← CanIf_Transmit id p; k r).

(** What local steps and transmissions preserve, clients preserve. *)
Lemma client_wp (J : W → Prop) m w :
  (∀ x w, J w → J (mkCanIfWorld (canif w) x (events w))) →
  (∀ id p w, tx_args id p → J w → wp (CanIf_Transmit id p) (λ _, J) w) →
  client m → J w → wp m (λ _, J) w.
Proof.
  intros Hl Ht Hm. revert w. induction Hm as [|k Hk IH|f m Hm IH|id p k Ha Hk IH]; intros w HJ.
  - by wp_step.
  - wp_steps. by apply IH.
  - wp_steps. by apply IH, Hl.
  - wp_step. eapply wp_mono; [by apply Ht|]. intros r w' HJ'. by apply IH.
Qed.
End CanIfProps.

(** The upper layers are clients, and their tables have the declared sizes. *)
Class CanIf_UsersOk (X : Type) `{HL : CanIf_Lower X} `{HU : CanIf_Users X} : Prop := {
  ok_tp_tx : ∀ id, client (CanTp_TxConfirmation id);
  ok_tp_rx : ∀ id I, client (CanTp_RxIndication id I);
  ok_pdur_tx : ∀ id, client (PduR_TxConfirmation id);
  ok_pdur_latency : ∀ id l, client (PduR_SetTxConfirmationLatency id l);
  ok_pdur_rx : ∀ id I, client (PduR_RxIndication id I);
  ok_user_tx : lenZ UserTxConfirmationFn = CanIfPduMax ∧
    ∀ i f, aget UserTxConfirmationFn i = Some (Some f) → ∀ id, client (f id);
  ok_user_rx : lenZ UserRxIndicationFn = CanIfPduMax ∧
    ∀ i f, aget UserRxIndicationFn i = Some (Some f) → ∀ id I, client (f id I)
}.

(** * CanIf: the call-backs and sequences of calls *)

(** The services of CanIf, as called by the driver, the upper layers and the state
    manager; [K_Lower] is a step of the driver or of the supply monitor. *)
Inductive if_call (X : Type) :=
| K_Init
| K_RefreshDynamicId
| K_Transmit (id : Z) (p : option PduInfoType)
| K_SetControllerMode (c : Z) (m : CanIf_ControllerModeType)
| K_GetControllerMode (c : Z) (ptr : bool)
| K_SetTrcvMode (t : Z) (m : CanTrcv_TrcvModeType)
| K_GetTrcvMode (t : Z) (ptr : bool)
| K_ControllerModeIndication (c : Z) (m : CanIf_ControllerModeType)
| K_TrcvModeIndication (t : Z) (m : CanTrcv_TrcvModeType)
| K_ControllerBusOff (c : Z)
| K_TxConfirmation (id : Z)
| K_RxIndication (mb : option Z) (p : option CanIf_RxInfo)
| K_Lower (f : X → X).
Arguments K_Init {X}.
Arguments K_RefreshDynamicId {X}.
Arguments K_Transmit {X} _ _.
Arguments K_SetControllerMode {X} _ _.
Arguments K_GetControllerMode {X} _ _.
Arguments K_SetTrcvMode {X} _ _.
Arguments K_GetTrcvMode {X} _ _.
Arguments K_ControllerModeIndication {X} _ _.
Arguments K_TrcvModeIndication {X} _ _.
Arguments K_ControllerBusOff {X} _.
Arguments K_TxConfirmation {X} _.
Arguments K_RxIndication {X} _ _.
Arguments K_Lower {X} _.

Section calls.
Context {X : Type} `{HL : CanIf_Lower X} {HOk : CanIf_LowerOk X} `{HU : CanIf_Users X} {HUok : CanIf_UsersOk X}.
Abbreviation W := (CanIfWorld X).
Implicit Types (w : W).

Definition if_run (k : if_call X) : M W unit :=
  match k with
  | K_Init => CanIf_Init
  | K_RefreshDynamicId => CanIf_RefreshDynamicId
  | K_Transmit id p => _ ← CanIf_Transmit id p; mret tt
  | K_SetControllerMode c m => _ ← CanIf_SetControllerMode c m; mret tt
  | K_GetControllerMode c ptr => _ ← CanIf_GetControllerMode c ptr; mret tt
  | K_SetTrcvMode t m => _ ← CanIf_SetTrcvMode t m; mret tt
  | K_GetTrcvMode t ptr => _ ← CanIf_GetTrcvMode t ptr; mret tt
  | K_ControllerModeIndication c m => CanIf_ControllerModeIndication c m
  | K_TrcvModeIndication t m => CanIf_TrcvModeIndication t m
  | K_ControllerBusOff c => CanIf_ControllerBusOff c
  | K_TxConfirmation id => CanIf_TxConfirmation id
  | K_RxIndication mb p => CanIf_RxIndication mb p
  | K_Lower f => driver (λ x, (tt, f x))
  end.

Fixpoint if_run_all (ks : list (if_call X)) : M W unit :=
  match ks with
  | [] => mret tt
  | k :: ks => if_run k;; if_run_all ks
  end.

Definition checked (i n : Z) : Prop := 0 ≤ i ∧ (CANIF_DEV_ERROR_DETECT = false → i < n).
Definition ptr_checked (b : bool) : Prop := CANIF_DEV_ERROR_DETECT = false → b = true.

(** Unsigned identifiers; in range, and pointers not NULL, where no check is compiled in. *)
Definition if_args (k : if_call X) : Prop :=
  match k with
  | K_Init | K_RefreshDynamicId | K_Lower _ => True
  | K_Transmit id p => tx_args id p
  | K_SetControllerMode c _ | K_ControllerModeIndication c _ | K_ControllerBusOff c => checked c CanIfNumController
  | K_GetControllerMode c ptr => checked c CanIfNumController ∧ ptr_checked ptr
  | K_SetTrcvMode t _ | K_TrcvModeIndication t _ => checked t CanIfNumChannels
  | K_GetTrcvMode t ptr => checked t CanIfNumChannels ∧ ptr_checked ptr
  | K_TxConfirmation id => checked id CanIfPduMax
  | K_RxIndication mb p => CANIF_DEV_ERROR_DETECT = false → mb ≠ None ∧ p ≠ None
  end.

Lemma in_range i n : checked i n → (CANIF_DEV_ERROR_DETECT && (n <=? i)) = false → 0 ≤ i < n.
Proof. intros [Hi Hn] Hb. destruct CANIF_DEV_ERROR_DETECT; cbn in Hb; bools; [lia|]. specialize (Hn eq_refl). lia. Qed.

Lemma not_null b : ptr_checked b → (CANIF_DEV_ERROR_DETECT && negb b) = false → b = true.
Proof. unfold ptr_checked. intros Hp. destruct CANIF_DEV_ERROR_DETECT; cbn in *; [by destruct b | intros _; by apply Hp]. Qed.

(** ** The invariant under every service *)

Lemma inv_client m w : client m → IfInv w → wp m (λ _, IfInv) w.
Proof using HOk. apply (client_wp IfInv); [intros; by apply inv_lower | intros; by apply inv_Transmit]. Qed.

(** Accepted frames of a PDU that are neither confirmed nor flagged. *)
Definition slack (i : Z) w : Z := tally (is_accept i) (events w) - tally (is_confirm i) (events w) - pend w i.

Lemma slack_Transmit i n id p w :
  n ≤ slack i w → wlp (CanIf_Transmit id p) (λ _ w', n ≤ slack i w') w.
Proof.
  intros Hn. assert (∀ e, is_confirm i e = false → (is_accept i e = false ∨ is_accept i e = true) →
    ∀ x, n ≤ slack i (mkCanIfWorld (canif w) x (events w ++ [e]))) as He.
  { intros e Hc Ha x. unfold slack, pend in *. cbn. rewrite !tally_app. cbn. rewrite Hc. destruct Ha as [-> | ->]; lia. }
  unfold CanIf_Transmit, Transmit_write, Transmit_result, get_mode, Det_ReportError, driver, ev.
  wlp_step; [wlp_steps; by apply He; [|left]|]. wlp_step; [wlp_steps; by apply He; [|left]|].
  do 3 wlp_step; [wlp_steps; [by apply He; [|left] | done]|].
  do 5 wlp_step; [|by wlp_step]. wlp_steps; try (by apply He; [|left]).
  - unfold set_pending, set_canif. wlp_steps. cbn. match goal with Hs : aset _ _ _ = Some _ |- _ => apply aset_Some in Hs as [Hid ->] end.
    unfold slack, pend in *. cbn in *. rewrite !tally_app, aget_insert by done. cbn.
    destruct (Z.eqb_spec id i); [subst; rewrite decide_True by done|rewrite decide_False by done; lia].
    repeat case_match; lia.
  - cbn. unfold slack, pend in *. cbn. rewrite !tally_app. cbn. lia.
Qed.

(** A confirmation is due: the flag has been cleared, the event is not yet recorded. *)
Definition due (i : Z) w : Prop := IfInv w ∧ 1 ≤ slack i w.

Lemma due_client i m w : client m → due i w → wp m (λ _, due i) w.
Proof using HOk.
  apply client_wp.
  - intros x w' [HI Hs]. split; [by apply inv_lower | done].
  - intros id p w' Ha [HI Hs]. apply (wp_wlp _ (λ _, IfInv) (λ _ w', 1 ≤ slack i w')); [by apply inv_Transmit|].
    by apply slack_Transmit.
Qed.

Lemma due_event w i ul up : due i w → wp (ev (EvTxConfirm i ul up)) (λ _, IfInv) w.
Proof.
  intros [[] Hs]. unfold slack in Hs. unfold ev. wp_step. split; cbn; try done.
  - intros j. specialize (in_acct0 j). rewrite !tally_app. unfold pend in *. cbn. destruct (Z.eqb_spec i j); [|lia].
    subst j. lia.
  - apply paired_snoc; [done|]. intros j. specialize (in_acct0 j). rewrite !tally_app. unfold pend in *. cbn.
    destruct (Z.eqb_spec i j); subst; repeat case_match; lia.
Qed.

Lemma inv_confirm_user w i ul up :
  0 ≤ i < CanIfPduMax → due i w → wp (confirm_user i ul up) (λ _, IfInv) w.
Proof using HOk HUok.
  intros Hi Hd. unfold confirm_user. destruct ul.
  - wp_step. eapply wp_mono; [by apply due_event|]. intros [] w' HI'. apply inv_client; [apply ok_tp_tx | done].
  - wp_step; [|apply Hd]. wp_step. wp_step. wp_step.
    eapply wp_mono with (P := λ _, due i).
    { destruct (latency _ _); [apply due_client; [apply ok_pdur_latency | done] | by wp_step]. }
    intros [] w1 Hd1. wp_step. eapply wp_mono; [by apply due_event|]. intros [] w' HI'.
    apply inv_client; [apply ok_pdur_tx | done].
  - wp_step. eapply wp_mono; [by apply due_event|]. intros [] w' HI'. apply inv_client; [apply ok_pdur_tx | done].
  - destruct ok_user_tx as [Hl Hu]. destruct (aget_is_Some UserTxConfirmationFn i) as [f Hf]; [lia|].
    wp_step. eapply wp_lift; [done|]. destruct f as [f|]; [|wp_step; apply Hd].
    wp_step. eapply wp_mono; [by apply due_event|]. intros [] w' HI'. apply inv_client; [by eapply Hu | done].
Qed.

Lemma wp_get_pending w i (Q : bool → W → Prop) :
  IfInv w → 0 ≤ i < CanIfPduMax →
  (∀ b, aget (CanIfPendingTxConfirm (canif w)) i = Some b → Q b w) → wp (get_pending i) Q w.
Proof.
  intros [] Hi HQ. destruct (aget_is_Some (CanIfPendingTxConfirm (canif w)) i) as [b Hb]; [lia|].
  unfold get_pending. wp_steps. eapply wp_lift; [done | by apply HQ].
Qed.

Lemma inv_TxConfirmation w id : IfInv w → checked id CanIfPduMax → wp (CanIf_TxConfirmation id) (λ _, IfInv) w.
Proof using HOk HUok.
  intros HI Hid. unfold CanIf_TxConfirmation. rewrite PduMax_eq. wp_step; [by apply inv_det|].
  assert (0 ≤ id < CanIfPduMax) as Hr by (by apply in_range).
  pose proof ok_handles. destruct (aget_is_Some CanIfPduHandleCfg id) as [h Hh]; [lia|].
  pose proof ok_users. destruct (aget_is_Some CanIfPduUserCallbackULCfg id) as [ul Hul]; [lia|].
  wp_step. eapply wp_lift; [done|]. wp_step. apply wp_get_pending; [done..|]. intros b Hb. wp_step; [|done].
  subst b. wp_step. pose proof HI as []. specialize (in_acct0 id). unfold pend in in_acct0. rewrite Hb in in_acct0.
  eapply wp_mono with (P := λ _, due id).
  { apply (wp_wlp _ (λ _, IfInv) (λ _ w', 1 ≤ slack id w')); [by apply inv_set_pending|].
    unfold set_pending, set_canif. wlp_steps. cbn.
    match goal with Hs : aset _ _ _ = Some _ |- _ => apply aset_Some in Hs as [? ->] end.
    unfold slack, pend. cbn. rewrite aget_insert_eq by done. lia. }
  intros [] w' Hd. wp_step. eapply wp_lift; [done|]. by apply inv_confirm_user.
Qed.

(** ** Reception *)

Lemma GetPduId_loop_spec n i CanId ids :
  0 ≤ i → i + Z.of_nat n ≤ lenZ ids →
  ∃ r j, GetPduId_loop n i CanId ids = Some (r, j) ∧ (r = E_OK → i ≤ j < i + Z.of_nat n).
Proof.
  revert i. induction n as [|n IH]; intros i Hi Hn; cbn [GetPduId_loop]; [by eexists _, _|].
  destruct (aget_is_Some ids i) as [cid Hc]; [lia|]. rewrite Hc. cbn.
  destruct (same_id CanId cid); [eexists _, _; split; [done|]; lia|].
  destruct (IH (i + 1)) as (r & j & Hr & Hj); [lia..|]. exists r, j. split; [done|]. intros. specialize (Hj H). lia.
Qed.

Lemma inv_indicate_user w i ul up I :
  0 ≤ i < CanIfPduMax → IfInv w → wp (indicate_user i ul up I) (λ _, IfInv) w.
Proof using HOk HUok.
  intros Hi HI. unfold indicate_user. destruct ul.
  - wp_step. eapply wp_mono; [by apply inv_ev|]. intros [] w' HI'. apply inv_client; [apply ok_tp_rx | done].
  - wp_step; [|done]. wp_step. wp_step. wp_step. eapply wp_mono; [by apply inv_ev|]. intros [] w' HI'.
    apply inv_client; [apply ok_pdur_rx | done].
  - wp_step. eapply wp_mono; [by apply inv_ev|]. intros [] w' HI'. apply inv_client; [apply ok_pdur_rx | done].
  - destruct ok_user_rx as [Hl Hu]. destruct (aget_is_Some UserRxIndicationFn i) as [f Hf]; [lia|].
    wp_step. eapply wp_lift; [done|]. destruct f as [f|]; [|by wp_step].
    wp_step. eapply wp_mono; [by apply inv_ev|]. intros [] w' HI'. apply inv_client; [by eapply Hu | done].
Qed.

Lemma inv_RxIndication w mb p :
  IfInv w → (CANIF_DEV_ERROR_DETECT = false → mb ≠ None ∧ p ≠ None) → wp (CanIf_RxIndication mb p) (λ _, IfInv) w.
Proof using HOk HUok.
  intros HI Ha. unfold CanIf_RxIndication. wp_step; [by apply inv_det|].
  assert (∃ cid I, mb = Some cid ∧ p = Some I) as (cid & I & -> & ->).
  { destruct mb as [cid|], p as [I|]; try by eexists _, _.
    all: destruct CANIF_DEV_ERROR_DETECT; cbn in *; [done|]; by destruct Ha. }
  wp_step. eapply wp_lift; [done|]. wp_step. unfold CanIf_GetPduId. wp_step. wp_step. rewrite PduMax_eq.
  pose proof HI as []. pose proof ok_pdumax.
  destruct (GetPduId_loop_spec (Z.to_nat CanIfPduMax) 0 cid (CanIfPduCanIdMappingCfg (canif w)))
    as (r & j & Hr & Hj); [lia..|].
  eapply wp_lift; [done|]. cbv beta iota. wp_step; [|done].
  match goal with Hb : bool_decide _ = true |- _ => apply bool_decide_eq_true in Hb; specialize (Hj Hb) end.
  pose proof ok_handles. destruct (aget_is_Some CanIfPduHandleCfg j) as [h Hh]; [lia|].
  pose proof ok_users. destruct (aget_is_Some CanIfPduUserCallbackULCfg j) as [ul Hul]; [lia|].
  destruct ok_fake as [Hfl Hfn]. destruct (aget_is_Some FakeTxConfirmPduId j) as [fk Hfk]; [lia|].
  pose proof (Forall_aget _ _ _ _ Hfn Hfk) as Hfk0. cbn in Hfk0.
  wp_step. eapply wp_lift; [done|]. wp_step. eapply wp_lift; [done|].
  wp_step. eapply wp_mono with (P := λ _, IfInv).
  { wp_step; [|done]. bools. apply inv_TxConfirmation; [done|]. split; [done | lia]. }
  intros [] w' HI'. wp_step. eapply wp_lift; [done|]. wp_step. eapply wp_lift; [done|].
  apply inv_indicate_user; [lia | done].
Qed.

(** ** Modes and initialisation *)

Lemma inv_Refresh w : IfInv w → wp CanIf_RefreshDynamicId (λ _, IfInv) w.
Proof using HOk.
  intros HI. unfold CanIf_RefreshDynamicId, set_canif. wp_step. wp_step. wp_step. apply wp_driver. intros l x Hl.
  wp_step. destruct HI. pose proof (ok_anchor (CanIfPduCanIdMappingCfg (canif w)) (lower w)) as Hlen.
  rewrite Hl in Hlen. cbn in Hlen. split; cbn; try done. lia.
Qed.

Lemma inv_Init w : IfInv w → wp CanIf_Init (λ _, IfInv) w.
Proof using HOk.
  intros HI. unfold CanIf_Init. pose proof ok_ctrl. pose proof ok_trcv. pose proof ok_pdumax.
  wp_step. eapply wp_mono; [apply wp_mfor with (I := λ _, IfInv); [done|]|].
  { intros i w' Hi HI'. apply inv_set_mode; [done | lia]. }
  intros [] w1 HI1. wp_step. eapply wp_mono; [apply wp_mfor with (I := λ _, IfInv); [done|]|].
  { intros i w' Hi HI'. apply inv_set_trcv; [done | lia]. }
  intros [] w2 HI2. wp_step. eapply wp_mono; [by apply inv_Refresh|].
  intros [] w3 HI3. eapply wp_mono; [apply wp_mfor with (I := λ _, IfInv); [done|]|].
  { intros i w' Hi HI'. apply inv_set_pending; [done | lia | done]. }
  done.
Qed.

Lemma inv_optional f c w : IfInv w → wp (call_optional f c) (λ _, IfInv) w.
Proof. intros HI. destruct f; cbn; [by apply inv_driver | by wp_step]. Qed.

Lemma inv_BusOff w c : IfInv w → checked c CanIfNumController → wp (CanIf_ControllerBusOff c) (λ _, IfInv) w.
Proof.
  intros HI Hc. unfold CanIf_ControllerBusOff. wp_step; [by apply inv_det|].
  wp_step. eapply wp_mono; [by apply inv_set_mode; [|apply in_range]|].
  intros [] w1 H1. wp_step. eapply wp_mono; [by apply inv_optional|].
  intros [] w2 H2. wp_step. eapply wp_mono; [by apply inv_optional|]. intros [] w3 H3. by apply inv_driver.
Qed.

Lemma inv_det_ret {A} (v : A) a b c w : IfInv w → wp (Det_ReportError a b c;; mret v) (λ _, IfInv) w.
Proof. intros HI. wp_step. eapply wp_mono; [by apply inv_det|]. intros. by wp_steps. Qed.

Lemma inv_when_det {A} (v : A) d a b c w :
  IfInv w → wp (when d (Det_ReportError a b c);; mret v) (λ _, IfInv) w.
Proof. intros HI. destruct d; cbn; [by apply inv_det_ret | wp_step; by wp_steps]. Qed.

Lemma inv_SetControllerMode w c m :
  IfInv w → checked c CanIfNumController → wp (CanIf_SetControllerMode c m) (λ _, IfInv) w.
Proof.
  intros HI Hc. unfold CanIf_SetControllerMode. wp_step; [by apply inv_det_ret|]. wp_step; [by apply inv_det_ret|].
  wp_step. eapply wp_mono; [by apply inv_driver|]. intros r w' HI'.
  destruct r; [by wp_step | by apply inv_when_det | by wp_step].
Qed.

Lemma inv_SetTrcvMode w t m : IfInv w → wp (CanIf_SetTrcvMode t m) (λ _, IfInv) w.
Proof.
  intros HI. unfold CanIf_SetTrcvMode. wp_step; [by apply inv_det_ret|].
  wp_step. eapply wp_mono; [by apply inv_driver|]. intros r w1 H1.
  wp_step. eapply wp_mono with (P := λ _, IfInv); [|intros v w2 H2; by apply inv_when_det].
  wp_step; [|by wp_step]. wp_step. eapply wp_mono; [by apply inv_driver|]. intros [r' m'] w2 H2. by wp_step.
Qed.

Lemma wp_get_trcv w t (Q : _ → W → Prop) :
  IfInv w → 0 ≤ t < CanIfNumChannels → (∀ m, aget (CanIfTrcvMode (canif w)) t = Some m → Q m w) → wp (get_trcv t) Q w.
Proof.
  intros [] Ht HQ. destruct (aget_is_Some (CanIfTrcvMode (canif w)) t) as [m Hm]; [lia|].
  unfold get_trcv. wp_steps. eapply wp_lift; [done | by apply HQ].
Qed.

Lemma inv_if_run w k : IfInv w → if_args k → wp (if_run k) (λ _, IfInv) w.
Proof using HOk HUok.
  intros HI Ha.
  assert (∀ {A} (m : M W A), wp m (λ _, IfInv) w → wp (_ ← m; mret tt) (λ _, IfInv) w) as Hdrop.
  { intros A m Hm. wp_step. eapply wp_mono; [done|]. intros. by wp_step. }
  destruct k; cbn [if_run if_args] in *; try match goal with |- wp (mbind _ _) _ _ => apply Hdrop end.
  - by apply inv_Init.
  - by apply inv_Refresh.
  - by apply inv_Transmit.
  - by apply inv_SetControllerMode.
  - destruct Ha as [Hc Hp]. unfold CanIf_GetControllerMode. wp_step; [by apply inv_det_ret|].
    wp_step; [by apply inv_det_ret|]. wp_step. apply wp_get_mode; [done | by apply in_range |].
    intros. rewrite (not_null ptr) by done. by wp_step.
  - by apply inv_SetTrcvMode.
  - destruct Ha as [Ht Hp]. unfold CanIf_GetTrcvMode. wp_step; [by apply inv_det_ret|].
    wp_step; [by apply inv_det_ret|]. wp_step. apply wp_get_mode; [done | apply ok_ctrl |]. intros.
    wp_step. apply wp_get_trcv; [done | by apply in_range |]. intros. rewrite (not_null ptr) by done. by wp_step.
  - unfold CanIf_ControllerModeIndication. wp_step; [by apply inv_det|]. wp_step; [by apply inv_det|].
    apply inv_set_mode; [done | by apply in_range].
  - unfold CanIf_TrcvModeIndication. wp_step; [by apply inv_det|]. apply inv_set_trcv; [done | by apply in_range].
  - by apply inv_BusOff.
  - by apply inv_TxConfirmation.
  - by apply inv_RxIndication.
  - by apply inv_driver.
Qed.

Lemma inv_if_run_all ks w : IfInv w → Forall if_args ks → wp (if_run_all ks) (λ _, IfInv) w.
Proof using HOk HUok.
  intros HI HF. revert w HI. induction HF as [|k ks Hk HF IH]; intros w HI; cbn [if_run_all]; [by wp_step|].
  wp_step. eapply wp_mono; [by apply inv_if_run|]. intros [] w' HI'. by apply IH.
Qed.

(** ** While the controller is not started nothing is written *)

Definition stopped (n : Z) w : Prop :=
  aget (CanIfControllerMode (canif w)) CanIfCtrlId ≠ Some CANIF_CS_STARTED ∧ tally is_write (events w) = n.

Lemma stopped_frame n w w' :
  stopped n w → CanIfControllerMode (canif w') = CanIfControllerMode (canif w) →
  tally is_write (events w') = tally is_write (events w) → stopped n w'.
Proof. intros [Hm Hn] Em En. split; [by rewrite Em | by rewrite En]. Qed.

Lemma stopped_ev n w e : is_write e = false → stopped n w → wlp (ev e) (λ _, stopped n) w.
Proof.
  intros He Hs. unfold ev. wlp_step. eapply stopped_frame; [done..|]. cbn. rewrite tally_app. cbn. rewrite He. lia.
Qed.

Lemma stopped_driver {R} n w (f : X → R * X) : stopped n w → wlp (driver f) (λ _, stopped n) w.
Proof. intros Hs. unfold driver. wlp_step. wlp_step. destruct (f (lower w)). wlp_steps. by eapply stopped_frame. Qed.

Lemma stopped_set_mode n w c m :
  c ≠ CanIfCtrlId ∨ m ≠ CANIF_CS_STARTED → stopped n w → wlp (set_mode c m) (λ _, stopped n) w.
Proof.
  intros Hcm [Hm Hn]. unfold set_mode, set_canif. wlp_steps.
  match goal with Hs : aset _ _ _ = Some _ |- _ => apply aset_Some in Hs as [? ->] end.
  split; [|done]. cbn. rewrite aget_insert by done. case_decide; [|done]. subst c. intros [= ->]. by destruct Hcm.
Qed.

Lemma stopped_Transmit n w id p : stopped n w → wlp (CanIf_Transmit id p) (λ _, stopped n) w.
Proof.
  intros Hs. unfold CanIf_Transmit, Det_ReportError.
  do 2 (wlp_step; [wlp_step; eapply wlp_mono; [by apply stopped_ev|]; intros; by wlp_steps|]).
  do 3 wlp_step.
  { wlp_step. wlp_step; [eapply wlp_mono; [by apply stopped_ev|]; intros; by wlp_steps | by wlp_steps]. }
  unfold get_mode. do 4 wlp_step. wlp_step; [|by wlp_step].
  destruct Hs as [Hm _]. match goal with Hb : bool_decide _ = true |- _ => apply bool_decide_eq_true in Hb; congruence end.
Qed.

Lemma stopped_client n m w : client m → stopped n w → wlp m (λ _, stopped n) w.
Proof.
  intros Hm. revert w. induction Hm as [|k Hk IH|f m Hm IH|id p k Ha Hk IH]; intros w Hs.
  - by wlp_step.
  - wlp_steps. by apply IH.
  - do 2 wlp_step. apply IH. by eapply stopped_frame.
  - wlp_step. eapply wlp_mono; [by apply stopped_Transmit|]. intros r w' Hs'. by apply IH.
Qed.

Lemma stopped_bind {A B} n (m : M W A) (k : A → M W B) w :
  wlp m (λ _, stopped n) w → (∀ a w', stopped n w' → wlp (k a) (λ _, stopped n) w') →
  wlp (m ≫= k) (λ _, stopped n) w.
Proof. intros Hm Hk. wlp_step. eapply wlp_mono; [done|]. intros a w' Hw. by apply Hk. Qed.

Lemma stopped_TxConfirmation n w id : stopped n w → wlp (CanIf_TxConfirmation id) (λ _, stopped n) w.
Proof using HUok.
  intros Hs. unfold CanIf_TxConfirmation, Det_ReportError. wlp_step; [by apply stopped_ev|].
  unfold get_pending. do 6 wlp_step. wlp_step; [|done].
  apply stopped_bind; [unfold set_pending, set_canif; wlp_steps; by eapply stopped_frame|].
  intros _ w1 Hs1. do 2 wlp_step. unfold confirm_user. destruct a1.
  - apply stopped_bind; [by apply stopped_ev|]. intros _ w2 Hs2. apply stopped_client; [apply ok_tp_tx | done].
  - wlp_step; [|done]. do 2 wlp_step. apply stopped_bind.
    { destruct (latency _ _); [apply stopped_client; [apply ok_pdur_latency | done] | by wlp_step]. }
    intros _ w2 Hs2. apply stopped_bind; [by apply stopped_ev|]. intros _ w3 Hs3.
    apply stopped_client; [apply ok_pdur_tx | done].
  - apply stopped_bind; [by apply stopped_ev|]. intros _ w2 Hs2. apply stopped_client; [apply ok_pdur_tx | done].
  - do 2 wlp_step. destruct a1 as [f|]; [|by wlp_step]. apply stopped_bind; [by apply stopped_ev|].
    intros _ w2 Hs2. apply stopped_client; [by eapply (proj2 ok_user_tx) | done].
Qed.

Lemma stopped_RxIndication n w mb p : stopped n w → wlp (CanIf_RxIndication mb p) (λ _, stopped n) w.
Proof using HUok.
  intros Hs. unfold CanIf_RxIndication, Det_ReportError, CanIf_GetPduId. wlp_step; [by apply stopped_ev|].
  do 6 wlp_step. destruct a0 as [r j]. wlp_step; [|done]. do 4 wlp_step.
  apply stopped_bind; [wlp_step; [by apply stopped_TxConfirmation | done]|].
  intros _ w1 Hs1. do 4 wlp_step. unfold indicate_user. destruct a2.
  - apply stopped_bind; [by apply stopped_ev|]. intros _ w2 Hs2. apply stopped_client; [apply ok_tp_rx | done].
  - wlp_step; [|done]. do 2 wlp_step. apply stopped_bind; [by apply stopped_ev|]. intros _ w3 Hs3.
    apply stopped_client; [apply ok_pdur_rx | done].
  - apply stopped_bind; [by apply stopped_ev|]. intros _ w2 Hs2. apply stopped_client; [apply ok_pdur_rx | done].
  - do 2 wlp_step. destruct a2 as [f|]; [|by wlp_step]. apply stopped_bind; [by apply stopped_ev|].
    intros _ w2 Hs2. apply stopped_client; [by eapply (proj2 ok_user_rx) | done].
Qed.

(** The only call that starts the controller. *)
Definition starts (k : if_call X) : bool :=
  match k with
  | K_ControllerModeIndication c m => (c =? CanIfCtrlId) && bool_decide (m = CANIF_CS_STARTED)
  | _ => false
  end.

Lemma stopped_optional n w f c : stopped n w → wlp (call_optional f c) (λ _, stopped n) w.
Proof. intros Hs. destruct f; cbn; [by apply stopped_driver | by wlp_step]. Qed.

Lemma stopped_Refresh n w : stopped n w → wlp CanIf_RefreshDynamicId (λ _, stopped n) w.
Proof.
  intros Hs. unfold CanIf_RefreshDynamicId, set_canif. do 2 wlp_step. apply stopped_bind; [by apply stopped_driver|].
  intros l w1 Hs1. wlp_step. by eapply stopped_frame.
Qed.

Lemma stopped_Init n w : stopped n w → wlp CanIf_Init (λ _, stopped n) w.
Proof.
  intros Hs. unfold CanIf_Init. apply stopped_bind.
  { apply wlp_mfor; [done|]. intros. apply stopped_set_mode; [by right | done]. }
  intros _ w1 Hs1. apply stopped_bind.
  { apply wlp_mfor; [done|]. intros. unfold set_trcv, set_canif. wlp_steps. by eapply stopped_frame. }
  intros _ w2 Hs2. apply stopped_bind; [by apply stopped_Refresh|]. intros _ w3 Hs3.
  apply wlp_mfor; [done|]. intros. unfold set_pending, set_canif. wlp_steps. by eapply stopped_frame.
Qed.

(** Error reports and driver calls in sequence. *)
Ltac stopped_steps :=
  repeat first
  [ done
  | apply stopped_bind; [|intros ? ? ?]
  | apply stopped_driver; done
  | apply stopped_ev; [done|]; done
  | wlp_step ].

Lemma stopped_run n w k : stopped n w → starts k = false → wlp (if_run k) (λ _, stopped n) w.
Proof using HUok.
  intros Hs Hk. destruct k; cbn [if_run starts] in *.
  - by apply stopped_Init.
  - by apply stopped_Refresh.
  - apply stopped_bind; [by apply stopped_Transmit|]. intros. by wlp_step.
  - unfold CanIf_SetControllerMode, Det_ReportError. stopped_steps.
  - unfold CanIf_GetControllerMode, Det_ReportError, get_mode. stopped_steps.
  - unfold CanIf_SetTrcvMode, Det_ReportError. stopped_steps.
  - unfold CanIf_GetTrcvMode, Det_ReportError, get_mode, get_trcv. stopped_steps.
  - unfold CanIf_ControllerModeIndication, Det_ReportError. wlp_step; [by apply stopped_ev|].
    wlp_step; [by apply stopped_ev|]. apply stopped_set_mode; [|done].
    apply andb_false_iff in Hk as [Hk|Hk]; [left; by bools | right; by apply bool_decide_eq_false in Hk].
  - unfold CanIf_TrcvModeIndication, Det_ReportError. wlp_step; [by apply stopped_ev|].
    unfold set_trcv, set_canif. wlp_steps. by eapply stopped_frame.
  - unfold CanIf_ControllerBusOff, Det_ReportError. wlp_step; [by apply stopped_ev|].
    apply stopped_bind; [apply stopped_set_mode; [by right | done]|]. intros _ w1 Hs1.
    apply stopped_bind; [by apply stopped_optional|]. intros _ w2 Hs2.
    apply stopped_bind; [by apply stopped_optional|]. intros _ w3 Hs3. by apply stopped_driver.
  - by apply stopped_TxConfirmation.
  - by apply stopped_RxIndication.
  - by apply stopped_driver.
Qed.

Lemma stopped_run_all n ks w :
  stopped n w → Forall (λ k, starts k = false) ks → wlp (if_run_all ks) (λ _, stopped n) w.
Proof using HUok.
  intros Hs HF. revert w Hs. induction HF as [|k ks Hk HF IH]; intros w Hs; cbn [if_run_all]; [by wlp_step|].
  apply stopped_bind; [by apply stopped_run|]. intros _ w' Hs'. by apply IH.
Qed.

Lemma BusOff_stops w :
  IfInv w → wp (CanIf_ControllerBusOff CanIfCtrlId) (λ _ w', IfInv w' ∧ stopped (tally is_write (events w)) w') w.
Proof using HOk.
  intros HI. pose proof ok_ctrl. apply wp_wlp; [apply inv_BusOff; [done | split; lia]|].
  unfold CanIf_ControllerBusOff. replace (CanIfNumController <=? CanIfCtrlId) with false by (symmetry; apply Z.leb_gt; lia).
  rewrite andb_false_r. wlp_step. eapply wlp_mono with (P := λ _, stopped (tally is_write (events w))).
  { unfold set_mode, set_canif. wlp_steps.
    match goal with Hs : aset _ _ _ = Some _ |- _ => apply aset_Some in Hs as [? ->] end.
    split; [|done]. cbn. by rewrite aget_insert_eq. }
  intros _ w1 Hs1. apply stopped_bind; [by apply stopped_optional|]. intros _ w2 Hs2.
  apply stopped_bind; [by apply stopped_optional|]. intros _ w3 Hs3. by apply stopped_driver.
Qed.
End calls.
