(* ===== verification/CanIfClaims.v ===== *)
(** * CanIf: properties *)

From S2P Require Import Prelude ComStack CanIf CanIfCalls.
From stdpp Require Import base list numbers option.

#[local] Open Scope Z_scope.

(** ** A node with one transmitted and one received PDU, for the witnesses

    The state below CanIf is the supply: normal or not. *)

#[export] Instance ex_lower : CanIf_Lower bool := {|
  CANIF_DEV_ERROR_DETECT := true;
  RBD_PK_BLE_TIMESYNC := true;
  RBD_PK_CPU_CC26xx := true;
  PduIdBits := 16;
  CAN_FD_FRAME_MASK := 0x40000000;
  CanIfPduMax := 2;
  CanIfNumController := 1;
  CanIfNumChannels := 1;
  CanIfCtrlId := 0;
  CanIfTimestampFrequency := 0;
  CanIfPduHandleCfg := [mkHandle 5 10; mkHandle 6 11];
  CanIfPduUserCallbackULCfg := [CANIF_CAN_TP; CANIF_CAN_TP];
  FakeTxConfirmPduId := [2; 0];
  CanIf_Cfg_SetAnchorCanId := λ l x, (l, x);
  CanTrcv_Write := λ _ _ x, (CAN_OK, x);
  CanTrcv_SetControllerMode := λ _ _ x, (CAN_OK, x);
  CanTrcv_SetOpMode := λ _ _ x, (E_OK, x);
  CanTrcv_GetOpMode := λ _ x, (E_OK, CANTRCV_TRCVMODE_NORMAL, x);
  CanTrcv_DisableAllInterrupts := None;
  CanTrcv_ClearTXBRP := None;
  CanTrcv_GetCurrentTimeStampCounterValue := λ _, 0;
  CanTrcv_GetCurrentTxTimeStamp := λ _, 0;
  CanSM_ControllerBusOff := λ _ x, x;
  rbdPwrVM_voltage_normal := λ x, x
|}.

#[export] Instance ex_lower_ok : CanIf_LowerOk bool.
Proof. split; cbn; try done. split; [done|]. repeat constructor; lia. Qed.

(** CanTp answers a reception by sending its next frame. *)
#[export] Instance ex_users : CanIf_Users bool := {|
  CanTp_TxConfirmation := λ _, mret tt;
  CanTp_RxIndication := λ _ I, _ ← CanIf_Transmit 0 (Some I); mret tt;
  PduR_TxConfirmation := λ _, mret tt;
  PduR_SetTxConfirmationLatency := λ _ _, mret tt;
  PduR_RxIndication := λ _ _, mret tt;
  UserTxConfirmationFn := [None; None];
  UserRxIndicationFn := [None; None]
|}.

#[export] Instance ex_users_ok : CanIf_UsersOk bool.
Proof.
  split; cbn; try (intros; apply client_ret).
  - intros id I. apply client_transmit; [by split | intros; apply client_ret].
  - split; [done|]. intros i f Hf%aget_elem. apply list_elem_of_In in Hf. cbn in Hf. intuition discriminate.
  - split; [done|]. intros i f Hf%aget_elem. apply list_elem_of_In in Hf. cbn in Hf. intuition discriminate.
Qed.

Definition ex_canif (m : CanIf_ControllerModeType) : CanIfWorld bool :=
  mkCanIfWorld (mkCanIf [false; false] [m] [CANTRCV_TRCVMODE_SLEEP] [0x100; 0x200]) true [].

Lemma ex_canif_inv m : IfInv (ex_canif m).
Proof.
  split; cbn; try done.
  - intros i. unfold pend. cbn. destruct (aget [false; false] i) as [[]|] eqn:E; try lia.
    apply aget_elem in E. apply list_elem_of_In in E. cbn in E. intuition discriminate.
  - intros i n. by rewrite take_nil.
Qed.

(** ** Confirmations *)

(** C7. Whatever the driver, the upper layers and the state manager call, in any order,
    and even if the upper layers transmit from inside their call-backs, CanIf stays
    inside its tables, and at every moment each PDU has had at most as many
    confirmations - real or faked - as frames that the driver accepted. *)
Theorem canif_confirmations_paired {X : Type} `{HL : CanIf_Lower X} {HOk : CanIf_LowerOk X}
    `{HU : CanIf_Users X} {HUok : CanIf_UsersOk X} (ks : list (if_call X)) (w : CanIfWorld X) :
  IfInv w → Forall if_args ks →
  ∃ w', if_run_all ks w = Some (tt, w') ∧ IfInv w' ∧
    ∀ i n, tally (is_confirm i) (take n (events w')) ≤ tally (is_accept i) (take n (events w')).
Proof.
  intros HI HF. destruct (wp_run _ _ _ (inv_if_run_all ks w HI HF)) as ([] & w' & Hr & HI').
  exists w'. split_and!; [done..|]. apply in_paired, HI'.
Qed.

Lemma canif_confirmations_paired_witness :
  ∃ w', if_run_all [K_Init; K_ControllerModeIndication 0 CANIF_CS_STARTED;
                    K_Transmit 0 (Some (mkPduInfo (Some [1; 2]) 2));
                    K_RxIndication (Some 0x200) (Some (mkRxInfo (mkPduInfo (Some [9]) 1) 0)); K_TxConfirmation 0]
          (ex_canif CANIF_CS_UNINIT) = Some (tt, w') ∧ IfInv w' ∧
    ∀ i n, tally (is_confirm i) (take n (events w')) ≤ tally (is_accept i) (take n (events w')).
Proof.
  apply canif_confirmations_paired; [apply ex_canif_inv|]. repeat (constructor; [cbn; try done; by split|]). constructor.
Defined.

(** C9. After a bus-off of the controller no frame is handed to the driver, whatever is
    called afterwards, until the driver indicates that the controller is started again. *)
Theorem canif_busoff_silences {X : Type} `{HL : CanIf_Lower X} {HOk : CanIf_LowerOk X}
    `{HU : CanIf_Users X} {HUok : CanIf_UsersOk X} (ks : list (if_call X)) (w : CanIfWorld X) :
  IfInv w → Forall if_args ks → Forall (λ k, starts k = false) ks →
  ∃ w', (CanIf_ControllerBusOff CanIfCtrlId;; if_run_all ks) w = Some (tt, w') ∧
    tally is_write (events w') = tally is_write (events w).
Proof.
  intros HI HF Hns.
  assert (wp (CanIf_ControllerBusOff CanIfCtrlId;; if_run_all ks)
    (λ _ w', tally is_write (events w') = tally is_write (events w)) w) as Hw.
  { wp_step. eapply wp_mono; [by apply BusOff_stops|]. intros [] w1 [H1 Hs1].
    eapply wp_mono; [apply wp_wlp; [by apply inv_if_run_all | by apply stopped_run_all]|].
    intros [] w2 (_ & _ & Hn). done. }
  apply wp_run in Hw as ([] & w' & Hr & Hn). eauto.
Qed.

Lemma canif_busoff_silences_witness :
  ∃ w', (CanIf_ControllerBusOff CanIfCtrlId;; if_run_all [K_Transmit 0 (Some (mkPduInfo (Some [1; 2]) 2));
          K_RxIndication (Some 0x200) (Some (mkRxInfo (mkPduInfo (Some [9]) 1) 0))])
          (ex_canif CANIF_CS_STARTED) = Some (tt, w') ∧ tally is_write (events w') = 0.
Proof.
  apply (canif_busoff_silences [K_Transmit 0 (Some (mkPduInfo (Some [1; 2]) 2));
          K_RxIndication (Some 0x200) (Some (mkRxInfo (mkPduInfo (Some [9]) 1) 0))] (ex_canif CANIF_CS_STARTED)).
  - apply ex_canif_inv.
  - repeat (constructor; [cbn; try done; by split|]). constructor.
  - repeat constructor.
Defined.

(** ** Transmission *)

Section transmit.
Context {X : Type} `{HL : CanIf_Lower X} {HOk : CanIf_LowerOk X}.

(** The specification of an accepted request: the frame, the driver's answer, the flag. *)
Definition transmit_spec (id : Z) (I : PduInfoType) (cid : Z) (h : CanIf_PduHandleType) (w : CanIfWorld X)
    : Std_ReturnType * CanIfWorld X :=
  let f := mkCanPdu id cid (u8 (SduLength I)) (SduDataPtr I) in
  let '(ret, x) := CanTrcv_Write (LoHwHandle h) f (lower w) in
  let es := events w ++ [EvWrite id (LoHwHandle h) f ret] in
  match ret with
  | CAN_OK =>
      (E_OK, mkCanIfWorld (mkCanIf (<[Z.to_nat id := true]> (CanIfPendingTxConfirm (canif w)))
                             (CanIfControllerMode (canif w)) (CanIfTrcvMode (canif w))
                             (CanIfPduCanIdMappingCfg (canif w))) x es)
  | CAN_BUSY => (E_NOT_OK, mkCanIfWorld (canif w) x es)
  | CAN_NOT_OK =>
      (E_NOT_OK, mkCanIfWorld (canif w) x
         (es ++ if CANIF_DEV_ERROR_DETECT then [EvDet 0 CANIF_API_TRANSMIT CANIF_ERR_TRANSMIT_FAILED] else []))
  end.

Lemma Transmit_spec id I w :
  IfInv w → 0 ≤ id < CanIfPduMax →
  wp (CanIf_Transmit id (Some I)) (λ r w',
    if bool_decide (rbdPwrVM_voltage_normal (lower w) = true ∧
                    aget (CanIfControllerMode (canif w)) CanIfCtrlId = Some CANIF_CS_STARTED)
    then ∃ cid h, aget (CanIfPduCanIdMappingCfg (canif w)) id = Some cid ∧ aget CanIfPduHandleCfg id = Some h ∧
         (r, w') = transmit_spec id I cid h w
    else r = E_NOT_OK ∧ canif w' = canif w ∧ lower w' = lower w ∧
         tally is_write (events w') = tally is_write (events w)) w.
Proof using HOk.
  intros HI Hid. unfold CanIf_Transmit. rewrite PduMax_eq.
  replace (CanIfPduMax <=? id) with false by (symmetry; apply Z.leb_gt; lia).
  rewrite (bool_decide_false (Some I = None)) by done. rewrite !andb_false_r. wp_step. wp_step.
  destruct (rbdPwrVM_voltage_normal (lower w)) eqn:Hv; cbn [negb].
  - wp_step. apply wp_get_mode; [done | apply ok_ctrl |]. intros m Hm. rewrite Hm. wp_step.
    + bools. match goal with Hb : bool_decide _ = true |- _ => apply bool_decide_eq_true in Hb; subst m end.
      rewrite bool_decide_true by done. wp_step. eapply wp_lift; [done|]. wp_step.
      apply wp_Transmit_write; [done..|]. intros cid h r x Hc Hh f Hw. unfold transmit_spec. subst f.
      destruct r; cbn [Transmit_result].
      * wp_step. pose proof HI as []. unfold set_pending, set_canif. wp_steps. cbn.
        eapply wp_lift; [apply aset_is_Some; lia|]. wp_steps. exists cid, h. by rewrite Hw.
      * unfold Det_ReportError, ev. wp_step. wp_step; wp_steps; exists cid, h; split_and!; try done; rewrite Hw.
        -- by rewrite H.
        -- by rewrite H, app_nil_r.
      * wp_step. exists cid, h. by rewrite Hw.
    + rewrite bool_decide_false; [by wp_step|]. intros [_ [= ->]].
      by match goal with Hb : bool_decide _ = false |- _ => apply bool_decide_eq_false in Hb end.
  - rewrite bool_decide_false by (by intros [? _]). unfold Det_ReportError, ev. wp_step. wp_step; wp_steps; cbn.
    + split_and!; try done. rewrite tally_app. cbn. lia.
    + done.
Qed.
End transmit.

(** C8. A request for a configured PDU reaches the driver exactly if the supply is normal
    and the controller is started; then the driver gets the configured CAN identifier,
    hardware handle and the length as a byte, and the request is accepted - with the
    confirmation flagged as pending - exactly if the driver accepts it.  Otherwise the
    request is refused and neither CanIf nor the driver changes. *)
Theorem canif_transmit_gate {X : Type} `{HL : CanIf_Lower X} {HOk : CanIf_LowerOk X}
    (id : Z) (I : PduInfoType) (w : CanIfWorld X) :
  IfInv w → 0 ≤ id < CanIfPduMax →
  ∃ r w', CanIf_Transmit id (Some I) w = Some (r, w') ∧
    if bool_decide (rbdPwrVM_voltage_normal (lower w) = true ∧
                    aget (CanIfControllerMode (canif w)) CanIfCtrlId = Some CANIF_CS_STARTED)
    then ∃ cid h, aget (CanIfPduCanIdMappingCfg (canif w)) id = Some cid ∧ aget CanIfPduHandleCfg id = Some h ∧
         (r, w') = transmit_spec id I cid h w
    else r = E_NOT_OK ∧ canif w' = canif w ∧ lower w' = lower w ∧
         tally is_write (events w') = tally is_write (events w).
Proof. intros HI Hid. by apply (wp_run _ _ _ (Transmit_spec id I w HI Hid)). Qed.

Lemma canif_transmit_gate_witness :
  ∃ r w', CanIf_Transmit 0 (Some (mkPduInfo (Some [1; 2]) 2)) (ex_canif CANIF_CS_STARTED) = Some (r, w') ∧
    r = E_OK ∧ CanIfPendingTxConfirm (canif w') = [true; false] ∧
    events w' = [EvWrite 0 5 (mkCanPdu 0 0x100 2 (Some [1; 2])) CAN_OK].
Proof.
  destruct (canif_transmit_gate 0 (mkPduInfo (Some [1; 2]) 2) (ex_canif CANIF_CS_STARTED))
    as (r & w' & Hr & Hg); [apply ex_canif_inv | done |].
  exists r, w'. split; [done|]. rewrite bool_decide_true in Hg by done.
  destruct Hg as (cid & h & Hc & Hh & E). vm_compute in Hc, Hh. injection Hc as <-. injection Hh as <-.
  vm_compute in E. by injection E as -> ->.
Defined.

(** ** Reception *)

Section receive.
Context {X : Type} `{HL : CanIf_Lower X} {HOk : CanIf_LowerOk X} `{HU : CanIf_Users X} {HUok : CanIf_UsersOk X}.
Implicit Types (w : CanIfWorld X).

Lemma fd_mask_clear y :
  Z.land (Z.lxor CAN_FD_FRAME_MASK y) (u32 (Z.lnot CAN_FD_FRAME_MASK)) = Z.land y (u32 (Z.lnot CAN_FD_FRAME_MASK)).
Proof.
  unfold u32. change 4294967296 with (2 ^ 32). rewrite <-Z.land_ones by lia.
  apply Z.bits_inj'. intros n Hn. rewrite !Z.land_spec, Z.lxor_spec, Z.lnot_spec by lia.
  by destruct (Z.testbit CAN_FD_FRAME_MASK n), (Z.testbit y n), (Z.testbit (Z.ones 32) n).
Qed.

Lemma same_id_fd x y : same_id (Z.lxor x CAN_FD_FRAME_MASK) y = same_id x y.
Proof.
  unfold same_id. rewrite (Z.lxor_comm x), Z.lxor_assoc, fd_mask_clear. done.
Qed.

Lemma same_id_refl x : same_id x x = true.
Proof. unfold same_id. by rewrite Z.lxor_nilpotent, Z.land_0_l. Qed.

Lemma GetPduId_loop_first n i j cid ids id :
  0 ≤ i ≤ j → j < i + Z.of_nat n → aget ids j = Some id → same_id cid id = true →
  (∀ a x, i ≤ a < j → aget ids a = Some x → same_id cid x = false) →
  GetPduId_loop n i cid ids = Some (E_OK, j).
Proof.
  revert i. induction n as [|n IH]; intros i Hij Hj Hid Hs Hn; [lia|]. cbn [GetPduId_loop].
  pose proof (aget_Some _ _ _ Hid). destruct (aget_is_Some ids i) as [x Hx]; [lia|]. rewrite Hx. cbn.
  destruct (decide (i = j)) as [->|Hne].
  - assert (x = id) as -> by congruence. by rewrite Hs.
  - rewrite (Hn i x) by (done || lia). apply IH; try done; [lia..|]. intros a y Ha. apply Hn. lia.
Qed.

(** Events in which no upper layer is called. *)
Definition silent (e : CanIf_Event) : Prop := match e with EvWrite _ _ _ _ | EvDet _ _ _ => True | _ => False end.
Definition extends_silently w w' : Prop := ∃ es, events w' = events w ++ es ∧ Forall silent es.

Lemma silent_trans w1 w2 w3 : extends_silently w1 w2 → extends_silently w2 w3 → extends_silently w1 w3.
Proof.
  intros (e1 & E1 & F1) (e2 & E2 & F2). exists (e1 ++ e2). split; [by rewrite E2, E1, app_assoc | by apply Forall_app].
Qed.

Lemma silent_Transmit id p w0 w :
  extends_silently w0 w → wlp (CanIf_Transmit id p) (λ _, extends_silently w0) w.
Proof.
  intros (es & E & F).
  assert (∀ v x l, Forall silent l → extends_silently w0 (mkCanIfWorld v x (events w ++ l))) as Hadd.
  { intros v x l Hl. exists (es ++ l). cbn. split; [by rewrite E, app_assoc | by apply Forall_app]. }
  unfold CanIf_Transmit, Transmit_write, Transmit_result, get_mode, Det_ReportError, driver, ev, set_pending, set_canif.
  wlp_steps; cbn; rewrite <-?app_assoc; try (apply Hadd; repeat constructor); by exists es.
Qed.

Lemma silent_client m w0 w : client m → extends_silently w0 w → wlp m (λ _, extends_silently w0) w.
Proof.
  intros Hm. revert w. induction Hm as [|k Hk IH|f m Hm IH|id p k Ha Hk IH]; intros w Hs.
  - by wlp_step.
  - wlp_steps. by apply IH.
  - do 2 wlp_step. by apply IH.
  - wlp_step. eapply wlp_mono; [by apply silent_Transmit|]. intros r w' Hs'. by apply IH.
Qed.

Lemma client_silent m w : client m → wlp m (λ _ w', extends_silently w w') w.
Proof. intros Hm. apply silent_client; [done|]. exists []. by rewrite app_nil_r. Qed.
End receive.

(** A table look-up whose result is known. *)
Ltac wlp_look :=
  try (apply wlp_bind); apply wlp_lift; let Hl := fresh in intros ? Hl; cbn in Hl; simplify_eq.

(** A received CAN identifier is mapped to the PDU it is configured for, with and
    without the CAN FD flag, provided no two PDUs share an identifier up to that flag. *)
Theorem canif_lookup_inverts_mapping {X : Type} `{HL : CanIf_Lower X} {HOk : CanIf_LowerOk X}
    (w : CanIfWorld X) (cid id j : Z) :
  IfInv w → aget (CanIfPduCanIdMappingCfg (canif w)) j = Some id →
  (∀ a b x y, aget (CanIfPduCanIdMappingCfg (canif w)) a = Some x →
     aget (CanIfPduCanIdMappingCfg (canif w)) b = Some y → same_id x y = true → a = b) →
  cid = id ∨ cid = Z.lxor id CAN_FD_FRAME_MASK →
  CanIf_GetPduId cid w = Some ((E_OK, j), w).
Proof.
  intros [] Hj Hu Hcid. pose proof (aget_Some _ _ _ Hj) as Hb. pose proof ok_pdumax.
  assert (∀ x, same_id cid x = same_id id x) as Hs by (intros x; destruct Hcid as [-> | ->]; [done | apply same_id_fd]).
  unfold CanIf_GetPduId. change (@mbind (M (CanIfWorld X)) _) with (@M_bind (CanIfWorld X)).
  unfold M_bind, gets, lift. cbn. rewrite PduMax_eq, (GetPduId_loop_first _ 0 j cid _ id); try done.
  - lia.
  - lia.
  - by rewrite Hs, same_id_refl.
  - intros a x Ha Hx. rewrite Hs. destruct (same_id id x) eqn:E; [|done]. specialize (Hu j a id x Hj Hx E). lia.
Qed.

Lemma canif_lookup_inverts_mapping_witness :
  CanIf_GetPduId 0x40000200 (ex_canif CANIF_CS_STARTED) = Some ((E_OK, 1), ex_canif CANIF_CS_STARTED).
Proof.
  apply (canif_lookup_inverts_mapping _ _ 0x200); [apply ex_canif_inv | done | | by right].
  intros a b x y Ha Hb. pose proof (aget_Some _ _ _ Ha) as Ra. pose proof (aget_Some _ _ _ Hb) as Rb. unfold lenZ in Ra, Rb. cbn in Ra, Rb.
  assert (a = 0 ∨ a = 1) as [-> | ->] by lia; assert (b = 0 ∨ b = 1) as [-> | ->] by lia;
    cbn in Ha, Hb; injection Ha as <-; injection Hb as <-; done.
Defined.

(** When a frame arrives while the frame it answers is still unconfirmed, CanTp gets
    the confirmation before the indication: the reception of a PDU that stands in for the
    confirmation of [tx] delivers exactly one confirmation of [tx], then the indication,
    and in between and afterwards at most requests the upper layer itself makes. *)
Theorem canif_fake_confirmation_first {X : Type} `{HL : CanIf_Lower X} {HOk : CanIf_LowerOk X}
    `{HU : CanIf_Users X} {HUok : CanIf_UsersOk X}
    (w w' : CanIfWorld X) (cid r tx : Z) (hr ht : CanIf_PduHandleType) (I : CanIf_RxInfo) :
  IfInv w → CanIf_GetPduId cid w = Some ((E_OK, r), w) →
  aget FakeTxConfirmPduId r = Some tx → 0 ≤ tx < CanIfPduMax →
  aget CanIfPduHandleCfg r = Some hr → aget CanIfPduHandleCfg tx = Some ht →
  aget CanIfPduUserCallbackULCfg r = Some CANIF_CAN_TP → aget CanIfPduUserCallbackULCfg tx = Some CANIF_CAN_TP →
  aget (CanIfPendingTxConfirm (canif w)) tx = Some true →
  CanIf_RxIndication (Some cid) (Some I) w = Some (tt, w') →
  ∃ es1 es2, Forall silent es1 ∧ Forall silent es2 ∧
    events w' = events w ++ [EvTxConfirm tx CANIF_CAN_TP (UpPduId ht)] ++ es1 ++
                [EvRxIndicate r CANIF_CAN_TP (UpPduId hr) I] ++ es2.
Proof.
  intros HI Hg Hf Htx Hhr Hht Hur Hut Hp Hrun.
  assert (wlp (CanIf_RxIndication (Some cid) (Some I)) (λ _ w', ∃ es1 es2, Forall silent es1 ∧ Forall silent es2 ∧
    events w' = events w ++ [EvTxConfirm tx CANIF_CAN_TP (UpPduId ht)] ++ es1 ++
                [EvRxIndicate r CANIF_CAN_TP (UpPduId hr) I] ++ es2) w) as Hw; [|by apply (wlp_run _ _ _ _ _ Hw Hrun)].
  unfold CanIf_RxIndication. rewrite !(bool_decide_false (Some _ = None)) by done. rewrite andb_false_r.
  wlp_look. wlp_step. apply (wlp_value _ _ _ _ _ Hg). cbn. rewrite bool_decide_true by done. cbn [when].
  wlp_look. wlp_look. rewrite PduMax_eq. replace (tx <? CanIfPduMax) with true by (symmetry; apply Z.ltb_lt; lia).
  cbn [when]. wlp_step. unfold CanIf_TxConfirmation. rewrite PduMax_eq.
  replace (CanIfPduMax <=? tx) with false by (symmetry; apply Z.leb_gt; lia). rewrite andb_false_r.
  wlp_look. unfold get_pending, set_pending, set_canif. do 3 wlp_step. wlp_look. cbn [when].
  do 6 wlp_step. wlp_look. cbn [confirm_user]. wlp_step. unfold ev at 1. wlp_step.
  eapply wlp_mono; [apply client_silent, ok_tp_tx|]. intros [] w1 (es1 & E1 & F1). cbn in E1.
  wlp_look. wlp_look. cbn [indicate_user]. wlp_step. unfold ev. wlp_step.
  eapply wlp_mono; [apply client_silent, ok_tp_rx|]. intros [] w2 (es2 & E2 & F2). cbn in E2.
  exists es1, es2. split_and!; [done..|]. rewrite E2, E1, <-!app_assoc. done.
Qed.

Lemma canif_fake_confirmation_first_witness :
  let w := mkCanIfWorld (mkCanIf [true; false] [CANIF_CS_STOPPED] [CANTRCV_TRCVMODE_SLEEP] [0x100; 0x200]) true
             [EvWrite 0 5 (mkCanPdu 0 0x100 2 (Some [1; 2])) CAN_OK] in
  let I := mkRxInfo (mkPduInfo (Some [9]) 1) 0 in
  ∃ w' es1 es2, CanIf_RxIndication (Some 0x200) (Some I) w = Some (tt, w') ∧
    events w' = events w ++ [EvTxConfirm 0 CANIF_CAN_TP 10] ++ es1 ++ [EvRxIndicate 1 CANIF_CAN_TP 11 I] ++ es2.
Proof.
  intros w I. destruct (CanIf_RxIndication (Some 0x200) (Some I) w) as [[[] w']|] eqn:Hr;
    [|vm_compute in Hr; discriminate].
  destruct (canif_fake_confirmation_first w w' 0x200 1 0 (mkHandle 6 11) (mkHandle 5 10) I)
    as (es1 & es2 & _ & _ & E); try done; [|exists w', es1, es2; by split].
  split; cbn; try done.
  - intros i. unfold pend. cbn. destruct (Z.eqb_spec 0 i) as [<-|Hne]; [done|].
    destruct (aget [true; false] i) as [[]|] eqn:E; try (by destruct i). exfalso. pose proof (aget_Some _ _ _ E) as Hb.
    unfold lenZ in Hb. cbn in Hb. assert (i = 1) as -> by lia. done.
  - intros i n. destruct n; cbn; [done|]. rewrite take_nil. by destruct i.
Defined.

(** ** The window between the driver's acceptance and the pending flag *)

(** The flag is set only after the driver has accepted the frame.  If the confirmation of
    the driver arrives in between - an interrupt between the two statements - it is lost: no
    upper layer is called, and the flag stays set although nothing is outstanding. *)
Theorem canif_confirmation_race {X : Type} `{HL : CanIf_Lower X} {HOk : CanIf_LowerOk X}
    `{HU : CanIf_Users X} (id : Z) (I : PduInfoType) (w w' : CanIfWorld X) (r : Std_ReturnType) :
  IfInv w → 0 ≤ id < CanIfPduMax → aget (CanIfPendingTxConfirm (canif w)) id = Some false →
  (Ret ← Transmit_write id I; CanIf_TxConfirmation id;; Transmit_result id Ret) w = Some (r, w') → r = E_OK →
  tally (is_confirm id) (events w') = tally (is_confirm id) (events w) ∧
  aget (CanIfPendingTxConfirm (canif w')) id = Some true.
Proof.
  intros HI Hid Hp Hrun Hok. revert Hok.
  assert (wlp (Ret ← Transmit_write id I; CanIf_TxConfirmation id;; Transmit_result id Ret)
    (λ r w', r = E_OK → tally (is_confirm id) (events w') = tally (is_confirm id) (events w) ∧
      aget (CanIfPendingTxConfirm (canif w')) id = Some true) w) as Hw; [|by apply (wlp_run _ _ _ _ _ Hw Hrun)].
  unfold Transmit_write, driver, ev. do 10 wlp_step. destruct (CanTrcv_Write _ _ _) as [ret x] eqn:Hw. do 7 wlp_step. cbn.
  unfold CanIf_TxConfirmation. rewrite PduMax_eq.
  replace (CanIfPduMax <=? id) with false by (symmetry; apply Z.leb_gt; lia). rewrite andb_false_r.
  unfold get_pending. do 6 wlp_step. cbn in *. simplify_eq. cbn [when]. wlp_step.
  destruct ret; cbn [Transmit_result]; [|unfold Det_ReportError, ev; wlp_steps; by intros [=]|wlp_steps; by intros [=]].
  unfold set_pending, set_canif. wlp_steps. cbn in *.
  match goal with Hs : aset _ _ _ = Some _ |- _ => apply aset_Some in Hs as [? ->] end.
  intros _. rewrite tally_app. cbn. split; [lia | by apply aget_insert_eq].
Qed.

Lemma canif_confirmation_race_witness :
  ∃ w', (Ret ← Transmit_write 0 (mkPduInfo (Some [1]) 1); CanIf_TxConfirmation 0;; Transmit_result 0 Ret)
          (ex_canif CANIF_CS_STARTED) = Some (E_OK, w') ∧
    tally (is_confirm 0) (events w') = 0 ∧ aget (CanIfPendingTxConfirm (canif w')) 0 = Some true.
Proof.
  eexists. split; [vm_compute; reflexivity|].
  apply (canif_confirmation_race 0 (mkPduInfo (Some [1]) 1) (ex_canif CANIF_CS_STARTED) _ E_OK);
    [apply ex_canif_inv | done | done | vm_compute; reflexivity | done].
Defined.

(** ** Transceiver mode *)

(** A transceiver mode request is answered with E_OK exactly if the transceiver accepts
    the mode and reading it back gives the mode that was requested. *)
Theorem canif_trcv_mode_verified {X : Type} `{HL : CanIf_Lower X} (t : Z) (m : CanTrcv_TrcvModeType)
    (w : CanIfWorld X) :
  t < CanIfNumChannels →
  ∃ r w', CanIf_SetTrcvMode t m w = Some (r, w') ∧ canif w' = canif w ∧
    (r = E_OK ↔ ∃ x x', CanTrcv_SetOpMode t m (lower w) = (E_OK, x) ∧ CanTrcv_GetOpMode t x = (E_OK, m, x')).
Proof.
  intros Ht.
  assert (wp (CanIf_SetTrcvMode t m) (λ r w', canif w' = canif w ∧ (r = E_OK ↔
    ∃ x x', CanTrcv_SetOpMode t m (lower w) = (E_OK, x) ∧ CanTrcv_GetOpMode t x = (E_OK, m, x'))) w) as Hw;
    [|apply wp_run in Hw as (r & w' & Hr & Hc & Hi); by exists r, w'].
  unfold CanIf_SetTrcvMode, Det_ReportError, ev.
  replace (CanIfNumChannels <=? t) with false by (symmetry; apply Z.leb_gt; lia).
  rewrite andb_false_r. cbv iota. wp_step. apply wp_driver. intros r x Hs. wp_step. destruct r.
  - rewrite bool_decide_true by done. wp_step. apply wp_driver. cbn. intros [r' m'] x' Hg.
    assert ((r' = E_OK ∧ m' = m) ↔ ∃ x0 x1, CanTrcv_SetOpMode t m (lower w) = (E_OK, x0) ∧
              CanTrcv_GetOpMode t x0 = (E_OK, m, x1)) as Hiff.
    { rewrite Hs. split; [intros [-> ->]; eauto|]. intros (x0 & x1 & [= <-] & E). rewrite Hg in E. by injection E. }
    wp_steps; cbn; (split; [done|]); rewrite <-Hiff; repeat case_bool_decide; cbn; destruct r'; intuition congruence.
  - rewrite bool_decide_false by done. rewrite Hs.
    wp_steps; cbn; (split; [done|]); split; [done | by intros (? & ? & [=] & _) | done | by intros (? & ? & [=] & _)].
Qed.

Lemma canif_trcv_mode_verified_witness :
  ∃ r w', CanIf_SetTrcvMode 0 CANTRCV_TRCVMODE_SLEEP (ex_canif CANIF_CS_STARTED) = Some (r, w') ∧ r ≠ E_OK.
Proof.
  destruct (canif_trcv_mode_verified 0 CANTRCV_TRCVMODE_SLEEP (ex_canif CANIF_CS_STARTED)) as (r & w' & Hr & _ & Hi);
    [done|]. exists r, w'. split; [done|]. rewrite Hi. by intros (x & x' & _ & [=]).
Defined.
