(* ===== verification/Spi.v ===== *)
(** * The SPI device of the emulated board (source_QEMU/stm32f2xx_spi.c)

    The register file, the frame state machine behind the data register, and the
    forwarding of complete frames to the character backend.  The SSI bus and the
    character backend are QEMU's: they are the operations of [SpiEnv]. *)

From S2P Require Import Prelude.
From stdpp Require Import base list numbers option.

#[local] Open Scope Z_scope.

Definition STM_SPI_CR1 : Z := 0x00.
Definition STM_SPI_CR2 : Z := 0x04.
Definition STM_SPI_SR : Z := 0x08.
Definition STM_SPI_DR : Z := 0x0C.
Definition STM_SPI_CRCPR : Z := 0x10.
Definition STM_SPI_RXCRCR : Z := 0x14.
Definition STM_SPI_TXCRCR : Z := 0x18.
Definition STM_SPI_I2SCFGR : Z := 0x1C.
Definition STM_SPI_I2SPR : Z := 0x20.
Definition STM_SPI_SR_RXNE : Z := 1.

(** FRAME_RECEIVING_DATA is declared and never entered. *)
Inductive FrameState :=
| FRAME_IDLE | FRAME_GOT_START | FRAME_GOT_LENGTH | FRAME_RECEIVING_DATA
| FRAME_WAIT_FOR_CHECKSUM | FRAME_WAIT_FOR_END.

#[global] Instance FrameState_eq_dec : EqDecision FrameState.
Proof. solve_decision. Defined.

Record STM32F2XXSPIState := mkSpi {
  spi_cr1 : Z; spi_cr2 : Z; spi_sr : Z; spi_dr : Z; spi_crcpr : Z; spi_rxcrcr : Z; spi_txcrcr : Z;
  spi_i2scfgr : Z; spi_i2spr : Z;
  frame_state : FrameState; frame_buffer : list Z; frame_index : Z; expected_len : Z }.

(** Updates of the registers and of the frame parser. *)
Definition set_cr1 (v : Z) (s : STM32F2XXSPIState) : STM32F2XXSPIState :=
  mkSpi v (spi_cr2 s) (spi_sr s) (spi_dr s) (spi_crcpr s) (spi_rxcrcr s) (spi_txcrcr s) (spi_i2scfgr s)
    (spi_i2spr s) (frame_state s) (frame_buffer s) (frame_index s) (expected_len s).
Definition set_cr2 (v : Z) (s : STM32F2XXSPIState) : STM32F2XXSPIState :=
  mkSpi (spi_cr1 s) v (spi_sr s) (spi_dr s) (spi_crcpr s) (spi_rxcrcr s) (spi_txcrcr s) (spi_i2scfgr s)
    (spi_i2spr s) (frame_state s) (frame_buffer s) (frame_index s) (expected_len s).
Definition set_dr_sr (dr sr : Z) (s : STM32F2XXSPIState) : STM32F2XXSPIState :=
  mkSpi (spi_cr1 s) (spi_cr2 s) sr dr (spi_crcpr s) (spi_rxcrcr s) (spi_txcrcr s) (spi_i2scfgr s)
    (spi_i2spr s) (frame_state s) (frame_buffer s) (frame_index s) (expected_len s).
Definition set_frame (st : FrameState) (buf : list Z) (i len : Z) (s : STM32F2XXSPIState) : STM32F2XXSPIState :=
  mkSpi (spi_cr1 s) (spi_cr2 s) (spi_sr s) (spi_dr s) (spi_crcpr s) (spi_rxcrcr s) (spi_txcrcr s)
    (spi_i2scfgr s) (spi_i2spr s) st buf i len.

(** The SSI bus, and the character backend: connected or not, and the result of a write. *)
Class SpiEnv (X : Type) := {
  ssi_transfer : Z → X → Z * X;
  qemu_chr_fe_backend_connected : X → bool;
  qemu_chr_fe_write_all : list Z → X → Z * X
}.

(** The device in its surroundings; [spi_sent] records what was handed to the backend. *)
Record SpiWorld (X : Type) := mkSpiWorld { spi : STM32F2XXSPIState; spi_env : X; spi_sent : list (list Z) }.
Arguments mkSpiWorld {X} _ _ _.
Arguments spi {X} _.
Arguments spi_env {X} _.
Arguments spi_sent {X} _.

Section Spi.
Context {X : Type} `{SpiEnv X}.
Abbreviation W := (SpiWorld X).

Definition upd (f : STM32F2XXSPIState → STM32F2XXSPIState) : M W unit :=
  modify (λ w, mkSpiWorld (f (spi w)) (spi_env w) (spi_sent w)).

Definition stm32f2xx_spi_reset : M W unit :=
  upd (λ _, mkSpi 0x00000000 0x00000000 0x0000000A 0x0000000C 0x00000007 0x00000000 0x00000000
              0x00000000 0x00000002 FRAME_IDLE (replicate 256 0) 0 0).

Definition stm32f2xx_spi_transfer : M W unit :=
  s ← gets spi;
  x ← gets spi_env;
  let '(dr, x') := ssi_transfer (spi_dr s) x in
  modify (λ w, mkSpiWorld (set_dr_sr (u32 dr) (Z.lor (spi_sr s) STM_SPI_SR_RXNE) s) x' (spi_sent w)).

Definition stm32f2xx_spi_read (addr : Z) : M W Z :=
  s ← gets spi;
  if addr =? STM_SPI_CR1 then mret (spi_cr1 s)
  else if addr =? STM_SPI_CR2 then mret (spi_cr2 s)
  else if addr =? STM_SPI_SR then mret (spi_sr s)
  else if addr =? STM_SPI_DR then upd (λ s, set_dr_sr 0x01 (spi_sr s) s);; mret 0x01
  else if addr =? STM_SPI_CRCPR then mret (spi_crcpr s)
  else if addr =? STM_SPI_RXCRCR then mret (spi_rxcrcr s)
  else if addr =? STM_SPI_TXCRCR then mret (spi_txcrcr s)
  else if addr =? STM_SPI_I2SCFGR then mret (spi_i2scfgr s)
  else if addr =? STM_SPI_I2SPR then mret (spi_i2spr s)
  else mret 0.

(** [s->frame_buffer[s->frame_index++] = byte], then the state [st] and the length [len]. *)
Definition store (byte : Z) (st : STM32F2XXSPIState → FrameState) (len : Z) : M W unit :=
  s ← gets spi;
  buf ← lift (aset (frame_buffer s) (frame_index s) byte);
  let s' := set_frame (frame_state s) buf (frame_index s + 1) len s in
  upd (λ _, set_frame (st s') buf (frame_index s + 1) len s).

(** A complete frame of the announced size goes to the backend. *)
Definition send_frame (total_size : Z) : M W unit :=
  s ← gets spi;
  x ← gets spi_env;
  when (qemu_chr_fe_backend_connected x)
    (data ← lift (aslice (frame_buffer s) 0 total_size);
     let '(_, x') := qemu_chr_fe_write_all data x in
     modify (λ w, mkSpiWorld (spi w) x' (spi_sent w ++ [data])));;
  upd (λ s, set_frame (frame_state s) (replicate 256 0) 0 0 s).

(** The frame state machine on one byte. *)
Definition frame_byte (byte : Z) : M W unit :=
  s ← gets spi;
  match frame_state s with
  | FRAME_IDLE =>
      when (byte =? 0x01)
        (buf ← lift (aset (frame_buffer s) 0 byte);
         upd (set_frame FRAME_GOT_START buf 1 (expected_len s)))
  | FRAME_GOT_START => store byte (λ _, FRAME_GOT_LENGTH) byte
  | FRAME_GOT_LENGTH =>
      store byte (λ s', if 2 + expected_len s' <=? frame_index s' then FRAME_WAIT_FOR_CHECKSUM
                        else FRAME_GOT_LENGTH) (expected_len s)
  | FRAME_WAIT_FOR_CHECKSUM => store byte (λ _, FRAME_WAIT_FOR_END) (expected_len s)
  | FRAME_WAIT_FOR_END =>
      store byte frame_state (expected_len s);;
      s ← gets spi;
      when (byte =? 0x0A)
        (let total_size := 2 + expected_len s + 1 + 1 in
         when (frame_index s =? total_size) (send_frame total_size));;
      upd (λ s, set_frame FRAME_IDLE (frame_buffer s) 0 (expected_len s) s)
  | FRAME_RECEIVING_DATA => upd (λ s, set_frame FRAME_IDLE (frame_buffer s) 0 0 s)
  end.

Definition stm32f2xx_spi_write (addr val64 : Z) : M W unit :=
  let byte := u8 val64 in
  let value := u32 val64 in
  if addr =? STM_SPI_CR1 then upd (set_cr1 value)
  else if addr =? STM_SPI_CR2 then upd (set_cr2 value)
  else if addr =? STM_SPI_DR then frame_byte byte;; stm32f2xx_spi_transfer
  else mret tt.

(** The guest writes the bytes of a list to the data register. *)
Fixpoint write_all (l : list Z) : M W unit :=
  match l with
  | [] => mret tt
  | b :: l => stm32f2xx_spi_write STM_SPI_DR b;; write_all l
  end.
End Spi.
