(* ===== verification/SpiClaims.v ===== *)
(** * The SPI device: streams of frames

    Bounds of the frame buffer, the frames forwarded for any stream of well-formed
    frames, resynchronisation, and the limits of the parser. *)

From S2P Require Import Prelude Spi.
From stdpp Require Import base list numbers option.

#[local] Open Scope Z_scope.

Section props.
Context {X : Type} `{HX : SpiEnv X}.
Abbreviation W := (SpiWorld X).
Implicit Types (w : W) (s : STM32F2XXSPIState).

(** The parser holds the bytes [pre] of the current frame, in state [st]. *)
Record parsing (st : FrameState) (pre : list Z) (len : Z) (sent : list (list Z)) w : Prop := {
  ps_state : frame_state (spi w) = st;
  ps_index : frame_index (spi w) = lenZ pre;
  ps_prefix : take (length pre) (frame_buffer (spi w)) = pre;
  ps_buffer : lenZ (frame_buffer (spi w)) = 256;
  ps_len : expected_len (spi w) = len;
  ps_sent : spi_sent w = sent
}.

(** Between frames the length and the buffer keep whatever they held. *)
Definition idle (sent : list (list Z)) w : Prop :=
  frame_state (spi w) = FRAME_IDLE ∧ lenZ (frame_buffer (spi w)) = 256 ∧ spi_sent w = sent.

Lemma take_insert_snoc {A} (l : list A) n x : (n < length l)%nat → take (S n) (<[n := x]> l) = take n l ++ [x].
Proof.
  intros. rewrite (take_S_r _ _ x) by (by apply list_lookup_insert_eq). by rewrite take_insert_ge by lia.
Qed.

(** The exchange on the SSI bus leaves the parser alone. *)
Lemma wp_transfer w (Q : unit → W → Prop) :
  (∀ dr sr x, Q tt (mkSpiWorld (set_dr_sr dr sr (spi w)) x (spi_sent w))) → wp stm32f2xx_spi_transfer Q w.
Proof. intros HQ. unfold stm32f2xx_spi_transfer. wp_steps. destruct (ssi_transfer _ _). wp_steps. apply HQ. Qed.

Lemma wp_write_DR b w (Q : unit → W → Prop) :
  0 ≤ b < 256 →
  wp (frame_byte b) (λ _ w', ∀ dr sr x, Q tt (mkSpiWorld (set_dr_sr dr sr (spi w')) x (spi_sent w'))) w →
  wp (stm32f2xx_spi_write STM_SPI_DR b) Q w.
Proof.
  intros Hb Hf. unfold stm32f2xx_spi_write. rewrite (u8_small b) by lia. cbn. wp_step.
  eapply wp_mono; [exact Hf|]. intros [] w' HQ. by apply wp_transfer.
Qed.

Lemma wp_store byte st len pre st0 len0 sent w (Q : unit → W → Prop) :
  parsing st0 pre len0 sent w → lenZ pre < 256 →
  (∀ w' s', frame_state s' = st0 → frame_index s' = lenZ pre + 1 → expected_len s' = len →
    spi_env w' = spi_env w → parsing (st s') (pre ++ [byte]) len sent w' → Q tt w') →
  wp (store byte st len) Q w.
Proof.
  intros [Hst Hi Hp Hb Hl Hs] Hlt HQ. unfold store. wp_steps. rewrite Hi.
  pose proof (lenZ_nonneg pre). eapply wp_lift; [apply aset_is_Some; lia|]. unfold upd. wp_steps.
  eapply (HQ _ (set_frame (frame_state (spi w)) (<[Z.to_nat (lenZ pre):=byte]> (frame_buffer (spi w)))
    (lenZ pre + 1) len (spi w))); [done..|].
  split; cbn; try done.
  - rewrite lenZ_app. by rewrite lenZ_cons, lenZ_nil.
  - rewrite length_app. cbn. replace (length pre + 1)%nat with (S (length pre)) by lia.
    unfold lenZ in *. rewrite Nat2Z.id. rewrite take_insert_snoc by lia. by rewrite Hp.
  - by rewrite lenZ_insert.
Qed.

(** ** One byte in every state *)

Lemma byte_idle b sent w (Q : unit → W → Prop) :
  idle sent w → 0 ≤ b < 256 →
  (∀ w', (if b =? 1 then parsing FRAME_GOT_START [1] (expected_len (spi w)) sent w' else idle sent w') → Q tt w') →
  wp (stm32f2xx_spi_write STM_SPI_DR b) Q w.
Proof.
  intros (Hst & Hb & Hs) Hb8 HQ. apply wp_write_DR; [done|]. unfold frame_byte. wp_steps. rewrite Hst.
  destruct (Z.eqb_spec b 1) as [->|]; wp_steps; try discriminate.
  - eapply wp_lift; [apply aset_is_Some; lia|]. unfold upd. wp_steps. intros. apply HQ.
    split; cbn; try done; [|by rewrite lenZ_insert]. destruct (frame_buffer (spi w)); done.
  - intros. by apply HQ.
Qed.

Lemma byte_start b pre len sent w (Q : unit → W → Prop) :
  parsing FRAME_GOT_START pre len sent w → 0 ≤ b < 256 → lenZ pre < 256 →
  (∀ w', parsing FRAME_GOT_LENGTH (pre ++ [b]) b sent w' → Q tt w') →
  wp (stm32f2xx_spi_write STM_SPI_DR b) Q w.
Proof.
  intros Hp Hb Hlt HQ. apply wp_write_DR; [done|]. unfold frame_byte. wp_steps. rewrite (ps_state _ _ _ _ _ Hp).
  eapply wp_store; [done..|]. intros w' s' _ _ _ _ [] dr sr x. by apply HQ.
Qed.

Lemma byte_length b pre len sent w (Q : unit → W → Prop) :
  parsing FRAME_GOT_LENGTH pre len sent w → 0 ≤ b < 256 → lenZ pre < 256 →
  (∀ w', parsing (if 2 + len <=? lenZ pre + 1 then FRAME_WAIT_FOR_CHECKSUM else FRAME_GOT_LENGTH)
           (pre ++ [b]) len sent w' → Q tt w') →
  wp (stm32f2xx_spi_write STM_SPI_DR b) Q w.
Proof.
  intros Hp Hb Hlt HQ. apply wp_write_DR; [done|]. unfold frame_byte. wp_steps. rewrite (ps_state _ _ _ _ _ Hp).
  rewrite (ps_len _ _ _ _ _ Hp). eapply wp_store; [done..|]. intros w' s' _ Hi Hl _ Hp' dr sr x.
  rewrite Hi, Hl in Hp'. apply HQ. by destruct Hp'.
Qed.

Lemma byte_checksum b pre len sent w (Q : unit → W → Prop) :
  parsing FRAME_WAIT_FOR_CHECKSUM pre len sent w → 0 ≤ b < 256 → lenZ pre < 256 →
  (∀ w', parsing FRAME_WAIT_FOR_END (pre ++ [b]) len sent w' → Q tt w') →
  wp (stm32f2xx_spi_write STM_SPI_DR b) Q w.
Proof.
  intros Hp Hb Hlt HQ. apply wp_write_DR; [done|]. unfold frame_byte. wp_steps. rewrite (ps_state _ _ _ _ _ Hp).
  rewrite (ps_len _ _ _ _ _ Hp). eapply wp_store; [done..|]. intros w' s' _ _ _ _ [] dr sr x. by apply HQ.
Qed.

(** What the last byte of a frame makes the device send. *)
Definition forwarded (b len : Z) (pre : list Z) (w : W) : list (list Z) :=
  if (b =? 0x0A) && (lenZ pre + 1 =? 2 + len + 1 + 1) && qemu_chr_fe_backend_connected (spi_env w)
  then [pre ++ [b]] else [].

Lemma byte_end b pre len sent w (Q : unit → W → Prop) :
  parsing FRAME_WAIT_FOR_END pre len sent w → 0 ≤ b < 256 → lenZ pre < 256 →
  (∀ w', idle (sent ++ forwarded b len pre w) w' → Q tt w') →
  wp (stm32f2xx_spi_write STM_SPI_DR b) Q w.
Proof.
  intros Hp Hb Hlt HQ. apply wp_write_DR; [done|]. unfold frame_byte. wp_step. wp_step.
  rewrite (ps_state _ _ _ _ _ Hp), (ps_len _ _ _ _ _ Hp). wp_step. eapply wp_store; [done..|].
  intros w1 s1 Hs1 _ _ Henv [Hst Hi Hpre Hbuf Hl Hsent]. rewrite Hs1 in Hst. wp_step. wp_step. wp_step.
  rewrite Hl, Hi. autorewrite with lenZ. cbn [lenZ length Z.of_nat].
  apply wp_mono with (λ _ w', lenZ (frame_buffer (spi w')) = 256 ∧ spi_sent w' = sent ++ forwarded b len pre w).
  2:{ intros [] w' [Hb' Hs']. unfold upd. wp_steps. intros dr sr x. by apply HQ. }
  unfold forwarded. rewrite <-Henv.
  destruct (b =? 10); cbn [andb]; [|wp_steps; try discriminate; split; [done | by rewrite app_nil_r]].
  rewrite (Z.add_0_r 1). destruct (Z.eqb_spec (lenZ pre + 1) (2 + len + 1 + 1)) as [E|]; cbn [andb];
    [|wp_steps; try discriminate; split; [done | by rewrite app_nil_r]].
  wp_step; [|discriminate]. wp_step; [|discriminate]. unfold send_frame. wp_steps.
  - rewrite H1. rewrite <-E. pose proof (lenZ_nonneg pre).
    rewrite aslice_is_Some by lia. eapply wp_lift; [done|]. destruct (qemu_chr_fe_write_all _ _). wp_steps.
    unfold upd. wp_steps. cbn. split; [done|]. rewrite Hsent. do 2 f_equal.
    rewrite length_app in Hpre. cbn in Hpre.
    replace (Z.to_nat (lenZ pre + 1)) with (length pre + 1)%nat by (unfold lenZ; lia). by rewrite drop_0.
  - rewrite H1. unfold upd. wp_steps. cbn. split; [done | by rewrite app_nil_r].
Qed.

(** ** Whole frames *)

Lemma wp_write_all_app l1 l2 w (Q : unit → W → Prop) :
  wp (write_all l1) (λ _, wp (write_all l2) Q) w → wp (write_all (l1 ++ l2)) Q w.
Proof.
  revert w. induction l1 as [|b l1 IH]; intros w Hw; cbn [app write_all] in *; [exact Hw|].
  apply wp_bind_inv in Hw. wp_step. eapply wp_mono; [exact Hw|]. intros []. apply IH.
Qed.

Lemma wp_write_nil w (Q : unit → W → Prop) : Q tt w → wp (write_all []) Q w.
Proof. apply wp_ret. Qed.

Lemma wp_write_cons b l w (Q : unit → W → Prop) :
  wp (stm32f2xx_spi_write STM_SPI_DR b) (λ _, wp (write_all l) Q) w → wp (write_all (b :: l)) Q w.
Proof. intros. cbn [write_all]. by wp_step. Qed.

(** The payload, up to the announced length. *)
Lemma write_payload p pre len sent w (Q : unit → W → Prop) :
  parsing FRAME_GOT_LENGTH pre len sent w → Forall byte_ok p → 0 < lenZ p →
  lenZ pre + lenZ p = 2 + len → 2 + len ≤ 256 →
  (∀ w', parsing FRAME_WAIT_FOR_CHECKSUM (pre ++ p) len sent w' → Q tt w') → wp (write_all p) Q w.
Proof.
  revert pre w. induction p as [|b p IH]; intros pre w Hp HF Hpos Hlen Hmax HQ; [cbv in Hpos; discriminate Hpos|].
  apply Forall_cons_1 in HF as [Hb HF]. rewrite lenZ_cons in Hlen. pose proof (lenZ_nonneg p).
  apply wp_write_cons. eapply byte_length; [done | exact Hb | lia |]. intros w' Hp'.
  destruct (Z.leb_spec (2 + len) (lenZ pre + 1)).
  - destruct p; [|rewrite lenZ_cons in *; pose proof (lenZ_nonneg p); lia]. by apply wp_write_nil, HQ.
  - apply (IH (pre ++ [b])); try done; autorewrite with lenZ; try lia. by rewrite <-app_assoc.
Qed.

(** The frame of a payload and a checksum byte, with the end marker [e]. *)
Definition frame (p : list Z) (ck e : Z) : list Z := [0x01; lenZ p] ++ p ++ [ck; e].

Definition payload_ok (p : list Z) (ck : Z) : Prop := Forall byte_ok p ∧ 1 ≤ lenZ p ≤ 252 ∧ byte_ok ck.

Lemma write_frame p ck e sent w (Q : unit → W → Prop) :
  idle sent w → payload_ok p ck → byte_ok e →
  (∀ x : X, qemu_chr_fe_backend_connected x = true) →
  (∀ w', idle (sent ++ if e =? 0x0A then [frame p ck e] else []) w' → Q tt w') →
  wp (write_all (frame p ck e)) Q w.
Proof.
  intros Hi (Hp & Hl & Hck) He Hconn HQ. unfold frame at 1. cbn [app].
  apply wp_write_cons. eapply byte_idle; [done | done |]. intros w1 H1. cbn in H1.
  apply wp_write_cons. eapply byte_start; [done | lia | done |]. intros w2 H2.
  apply wp_write_all_app. eapply write_payload; [exact H2 | done | lia | | lia |].
  { autorewrite with lenZ. lia. }
  intros w3 H3. apply wp_write_cons.
  assert (lenZ ([1] ++ [lenZ p] ++ p) = lenZ p + 2) as Hpre by (autorewrite with lenZ; lia).
  rewrite <-app_assoc in H3.
  eapply byte_checksum; [done | exact Hck | lia |]. intros w4 H4. apply wp_write_cons.
  eapply byte_end; [done | exact He | |]. { rewrite lenZ_app, Hpre, lenZ_cons, lenZ_nil. lia. }
  intros w5 H5. apply wp_write_nil, HQ. unfold forwarded in H5. rewrite Hconn, andb_true_r in H5.
  rewrite lenZ_app, Hpre, lenZ_cons, lenZ_nil in H5.
  replace (lenZ p + 2 + (1 + 0) + 1 =? 2 + lenZ p + 1 + 1) with true in H5 by (symmetry; apply Z.eqb_eq; lia).
  rewrite andb_true_r in H5. unfold frame. destruct (e =? 10); [|done].
  cbn [app] in *. rewrite <-app_assoc in H5. exact H5.
Qed.

(** ** Streams *)

(** A piece of the byte stream: a byte outside any frame, or a frame with its end marker. *)
Inductive item := Noise (b : Z) | Frame (p : list Z) (ck e : Z).

Definition item_bytes (i : item) : list Z :=
  match i with Noise b => [b] | Frame p ck e => frame p ck e end.

Definition item_ok (i : item) : Prop :=
  match i with Noise b => byte_ok b ∧ b ≠ 0x01 | Frame p ck e => payload_ok p ck ∧ byte_ok e end.

(** The frames closed by the end marker. *)
Definition closed (i : item) : list (list Z) :=
  match i with Noise _ => [] | Frame p ck e => if e =? 0x0A then [frame p ck e] else [] end.

Lemma write_stream l sent w (Q : unit → W → Prop) :
  idle sent w → Forall item_ok l → (∀ x : X, qemu_chr_fe_backend_connected x = true) →
  (∀ w', idle (sent ++ concat (closed <$> l)) w' → Q tt w') →
  wp (write_all (concat (item_bytes <$> l))) Q w.
Proof.
  intros Hi HF Hconn. revert sent w Hi. induction HF as [|i l Hok HF IH]; intros sent w Hi HQ; cbn [fmap list_fmap concat].
  { apply wp_write_nil, HQ. cbn. by rewrite app_nil_r. }
  apply wp_write_all_app. destruct i as [b|p ck e]; cbn [item_ok item_bytes] in *; destruct Hok as [H1 H2].
  - apply wp_write_cons. eapply byte_idle; [done | exact H1 |]. intros w1 Hw1.
    destruct (Z.eqb_spec b 1); [done|]. apply wp_write_nil, (IH sent); [done|]. exact HQ.
  - eapply write_frame; [done..|]. intros w1 Hw1. apply (IH _ _ Hw1). intros w2 Hw2.
    apply HQ. cbn. by rewrite app_assoc.
Qed.

(** ** The bounds of the frame buffer *)

(** Where the parser stands in its buffer. *)
Definition spi_inv w : Prop :=
  lenZ (frame_buffer (spi w)) = 256 ∧
  match frame_state (spi w) with
  | FRAME_IDLE => True
  | FRAME_GOT_START => frame_index (spi w) = 1
  | FRAME_GOT_LENGTH => 0 ≤ expected_len (spi w) < 256 ∧ 2 ≤ frame_index (spi w) ∧
      (frame_index (spi w) = 2 ∨ frame_index (spi w) < 2 + expected_len (spi w))
  | FRAME_WAIT_FOR_CHECKSUM => 0 ≤ expected_len (spi w) < 256 ∧
      frame_index (spi w) = Z.max 3 (2 + expected_len (spi w))
  | FRAME_WAIT_FOR_END => 0 ≤ expected_len (spi w) < 256 ∧
      frame_index (spi w) = Z.max 4 (3 + expected_len (spi w))
  | FRAME_RECEIVING_DATA => False
  end.

(** The announced length leaves room for checksum and end marker. *)
Definition fits w : Prop :=
  match frame_state (spi w) with
  | FRAME_IDLE | FRAME_GOT_START => True
  | _ => expected_len (spi w) ≤ 252
  end.

Lemma inv_store byte st len w (Q : unit → W → Prop) :
  lenZ (frame_buffer (spi w)) = 256 → 0 ≤ frame_index (spi w) < 256 →
  (∀ w', lenZ (frame_buffer (spi w')) = 256 → frame_index (spi w') = frame_index (spi w) + 1 →
    expected_len (spi w') = len →
    (∃ s', frame_state s' = frame_state (spi w) ∧ frame_index s' = frame_index (spi w) + 1 ∧
      expected_len s' = len ∧ frame_state (spi w') = st s') → Q tt w') →
  wp (store byte st len) Q w.
Proof.
  intros Hb Hi HQ. unfold store. wp_steps. eapply wp_lift; [apply aset_is_Some; lia|]. unfold upd. wp_steps.
  apply HQ; cbn; try done; [by rewrite lenZ_insert|]. eexists. split_and!; [..|reflexivity]; done.
Qed.

Lemma inv_frame_byte b w :
  0 ≤ b < 256 → spi_inv w → fits w →
  wp (frame_byte b) (λ _ w', spi_inv w' ∧ ((frame_state (spi w) = FRAME_GOT_START → b ≤ 252) → fits w')) w.
Proof.
  intros Hb8 [Hb Hinv] Hf. unfold fits in Hf |- *. unfold frame_byte. wp_step. wp_step. unfold spi_inv.
  destruct (frame_state (spi w)) eqn:Hst; [| | | done | |].
  - wp_steps; [|by rewrite Hst]. eapply wp_lift; [apply aset_is_Some; lia|]. unfold upd. wp_steps. cbn.
    by rewrite lenZ_insert.
  - apply inv_store; [done | lia |]. intros w' ? ? -> (s' & _ & _ & _ & ->).
    split; [split; [done | lia] | intros Hle; by apply Hle].
  - apply inv_store; [done | lia |]. intros w' Hb' Hi' Hl' (s' & _ & Hi & Hl & ->).
    rewrite Hi, Hl, Hl'. split; [split; [done|]|]; case_test; bools; lia.
  - apply inv_store; [done | lia |]. intros w' ? ? -> (s' & _ & _ & _ & ->). split; [split; [done|] |]; lia.
  - wp_step. apply inv_store; [done | lia |]. intros w' Hb' Hi' Hl' _. wp_step. wp_step. wp_step.
    apply wp_mono with (λ _ w', lenZ (frame_buffer (spi w')) = 256).
    2:{ intros [] w'' Hw''. unfold upd. by wp_steps. }
    wp_steps; try done. bools. unfold send_frame. wp_steps; unfold upd; wp_steps; try done.
    eapply wp_lift; [apply aslice_is_Some; lia|]. destruct (qemu_chr_fe_write_all _ _). by wp_steps.
Qed.

(** ** Frames too long for the buffer *)

Lemma write_payload_part p pre len sent w (Q : unit → W → Prop) :
  parsing FRAME_GOT_LENGTH pre len sent w → Forall byte_ok p →
  lenZ pre + lenZ p < 2 + len → lenZ pre + lenZ p ≤ 256 →
  (∀ w', parsing FRAME_GOT_LENGTH (pre ++ p) len sent w' → Q tt w') → wp (write_all p) Q w.
Proof.
  revert pre w. induction p as [|b p IH]; intros pre w Hp HF Hlen Hmax HQ.
  { apply wp_write_nil, HQ. by rewrite app_nil_r. }
  apply Forall_cons_1 in HF as [Hb HF]. rewrite lenZ_cons in *. pose proof (lenZ_nonneg p).
  apply wp_write_cons. eapply byte_length; [done | exact Hb | lia |]. intros w' Hp'.
  destruct (Z.leb_spec (2 + len) (lenZ pre + 1)); [lia|].
  apply (IH (pre ++ [b])); try done; autorewrite with lenZ; try lia. by rewrite <-app_assoc.
Qed.

(** A full buffer and one more byte: the store is outside the array. *)
Lemma byte_overflow st pre len sent w b l :
  parsing st pre len sent w → lenZ pre = 256 → st ≠ FRAME_IDLE → st ≠ FRAME_RECEIVING_DATA →
  0 ≤ b < 256 → write_all (b :: l) w = None.
Proof.
  intros [Hst Hi _ Hb _ _] Hpre Hni Hnr Hb8.
  assert (∀ f len, store b f len w = None) as Hstore.
  { intros f len'. unfold store, mbind, M_bind, gets, lift. cbn. rewrite Hi, Hpre.
    unfold aset. rewrite decide_False; [done|]. unfold lenZ in Hb. lia. }
  cbn [write_all]. unfold stm32f2xx_spi_write. rewrite u8_small by lia. cbn.
  unfold mbind, M_bind at 1 2. unfold frame_byte, mbind, M_bind, gets. rewrite Hst.
  destruct st; try done; by rewrite Hstore.
Qed.

Lemma write_all_None l1 l2 w :
  wp (write_all l1) (λ _ w', write_all l2 w' = None) w → write_all (l1 ++ l2) w = None.
Proof.
  revert w. induction l1 as [|b l1 IH]; intros w Hw; cbn [app write_all] in *.
  - apply wp_run in Hw as ([] & w' & Hr & Hn). by injection Hr as ->.
  - apply wp_bind_inv, wp_run in Hw as ([] & w' & Hr & Hn). unfold mbind, M_bind. rewrite Hr. by apply IH.
Qed.

Lemma frame_overflow p ck e sent w :
  idle sent w → Forall byte_ok p → 253 ≤ lenZ p ≤ 255 → byte_ok ck → byte_ok e →
  write_all (frame p ck e) w = None.
Proof.
  intros Hi Hp Hl Hck He. unfold frame.
  assert (∀ Q : W → Prop, (∀ w', parsing FRAME_GOT_LENGTH [1; lenZ p] (lenZ p) sent w' → Q w') →
    wp (write_all ([1; lenZ p])) (λ _, Q) w) as Hstart.
  { intros Q HQ. apply wp_write_cons. eapply byte_idle; [done | done |]. intros w1 H1. cbn in H1.
    apply wp_write_cons. eapply byte_start; [done | lia | done |]. intros w2 H2. apply wp_write_nil. by apply HQ. }
  assert (∀ l, lenZ (1 :: lenZ p :: l) = 2 + lenZ l) as H2 by (intros; autorewrite with lenZ; lia).
  apply write_all_None, Hstart. intros w1 H1.
  assert (lenZ p = 253 ∨ lenZ p = 254 ∨ lenZ p = 255) as [E|[E|E]] by lia.
  - apply write_all_None. eapply write_payload; [exact H1 | done | lia | rewrite H2, lenZ_nil; lia | lia |].
    intros w2 Hw2. apply (write_all_None [ck] [e]). apply wp_write_cons.
    eapply byte_checksum; [done | exact Hck | cbn [app]; rewrite H2; lia |]. intros w3 Hw3. apply wp_write_nil.
    eapply byte_overflow; [exact Hw3 | | done..| exact He]. cbn [app]. rewrite H2, lenZ_app, lenZ_cons, lenZ_nil. lia.
  - apply write_all_None. eapply write_payload; [exact H1 | done | lia | rewrite H2, lenZ_nil; lia | lia |].
    intros w2 Hw2. eapply byte_overflow; [exact Hw2 | | done..| exact Hck]. cbn [app]. rewrite H2. lia.
  - assert (∃ q x, p = q ++ [x]) as (q & x & ->).
    { destruct p as [|y p] using rev_ind; [by rewrite lenZ_nil in E|]. eauto. }
    pose proof E as E'. rewrite lenZ_app, lenZ_cons, lenZ_nil in E'. apply Forall_app in Hp as [Hq Hx]. apply Forall_cons_1 in Hx as [Hx _].
    rewrite <-app_assoc. apply write_all_None.
    eapply write_payload_part; [exact H1 | done | rewrite H2, lenZ_nil; lia | rewrite H2, lenZ_nil; lia |].
    intros w2 Hw2. eapply byte_overflow; [exact Hw2 | | done..| exact Hx]. cbn [app]. rewrite H2. lia.
Qed.
End props.

(** * The SPI device: properties *)

(** A bus that echoes and a connected backend, for the witnesses. *)
#[export] Instance echo_env : SpiEnv unit := {|
  ssi_transfer := λ v x, (v, x);
  qemu_chr_fe_backend_connected := λ _, true;
  qemu_chr_fe_write_all := λ l x, (lenZ l, x)
|}.

Definition spi_blank : SpiWorld unit := mkSpiWorld (mkSpi 0 0 0 0 0 0 0 0 0 FRAME_IDLE [] 0 0) tt [].

Section claims.
Context {X : Type} `{HX : SpiEnv X}.
Abbreviation W := (SpiWorld X).

Lemma reset_idle (w : W) (Q : unit → W → Prop) :
  (∀ w', idle (spi_sent w) w' → spi_inv w' → Q tt w') → wp stm32f2xx_spi_reset Q w.
Proof. intros HQ. unfold stm32f2xx_spi_reset, upd. wp_steps. by apply HQ. Qed.
End claims.

(** C31. After a reset, any stream that interleaves bytes other than the start byte with
    frames [0x01][length][payload][checksum][end] of 1 to 252 payload bytes makes the
    device hand exactly the frames closed by 0x0A to the connected backend, byte
    for byte and in order; frames with a wrong end marker are dropped and the
    parser is idle again after each of them. *)
Theorem spi_forwards_stream {X : Type} `{HX : SpiEnv X} (l : list item) (w : SpiWorld X)
    (Hconn : ∀ x : X, qemu_chr_fe_backend_connected x = true) (Hl : Forall item_ok l) :
  ∃ w', (stm32f2xx_spi_reset;; write_all (concat (item_bytes <$> l))) w = Some (tt, w') ∧
    frame_state (spi w') = FRAME_IDLE ∧ spi_sent w' = spi_sent w ++ concat (closed <$> l).
Proof.
  assert (wp (stm32f2xx_spi_reset;; write_all (concat (item_bytes <$> l)))
    (λ _ w', idle (spi_sent w ++ concat (closed <$> l)) w') w) as Hw.
  { wp_step. apply reset_idle. intros w1 Hi _. by eapply write_stream. }
  apply wp_run in Hw as ([] & w' & Hr & Hst & _ & Hs). eauto.
Qed.

Lemma spi_forwards_stream_witness :
  ∃ w', (stm32f2xx_spi_reset;; write_all (concat (item_bytes <$>
          [Noise 0x55; Frame [7; 8; 9] 0x20 0x0A; Frame [1] 2 0xFF; Frame [4] 5 0x0A]))) spi_blank
          = Some (tt, w') ∧
    frame_state (spi w') = FRAME_IDLE ∧ spi_sent w' = [[1; 3; 7; 8; 9; 0x20; 0x0A]; [1; 1; 4; 5; 0x0A]].
Proof.
  apply (spi_forwards_stream [Noise 0x55; Frame [7; 8; 9] 0x20 0x0A; Frame [1] 2 0xFF; Frame [4] 5 0x0A] spi_blank).
  - done.
  - repeat constructor; done.
Defined.

(** The frame parser stays inside its 256-byte buffer as long as no length
    byte exceeds 252: a register write in a state satisfying the parser's
    invariant has a defined result and restores it. *)
Theorem spi_write_in_bounds {X : Type} `{HX : SpiEnv X} (addr val : Z) (w : SpiWorld X) :
  spi_inv w → fits w →
  (addr = STM_SPI_DR → frame_state (spi w) = FRAME_GOT_START → u8 val ≤ 252) →
  ∃ w', stm32f2xx_spi_write addr val w = Some (tt, w') ∧ spi_inv w' ∧ fits w'.
Proof.
  intros Hinv Hf Hlen.
  assert (wp (stm32f2xx_spi_write addr val) (λ _ w', spi_inv w' ∧ fits w') w) as Hw.
  { unfold stm32f2xx_spi_write. wp_step; [unfold upd; by wp_steps|]. wp_step; [unfold upd; by wp_steps|].
    wp_step; [|by wp_step]. bools. wp_step. eapply wp_mono; [apply inv_frame_byte; [apply u8_bound | done..]|].
    intros [] w' [Hi' Hf']. apply wp_transfer. intros dr sr x. split; [exact Hi' | apply Hf']. auto. }
  apply wp_run in Hw as ([] & w' & Hr & Hi & Hf'). eauto.
Qed.

Lemma spi_write_in_bounds_witness :
  ∃ w', stm32f2xx_spi_write STM_SPI_DR 252
          (mkSpiWorld (mkSpi 0 0 10 12 7 0 0 0 2 FRAME_GOT_START (1 :: replicate 255 0) 1 0) tt []) = Some (tt, w') ∧
    spi_inv w' ∧ fits w'.
Proof. apply spi_write_in_bounds; [split; done | done | done]. Defined.

(** A frame whose length byte is 253, 254 or 255 makes the parser write past
    the end of [frame_buffer]: feeding such a frame to a device between frames
    has no defined result. *)
Theorem spi_long_frame_overflows {X : Type} `{HX : SpiEnv X} (p : list Z) (ck e : Z) (w : SpiWorld X) :
  frame_state (spi w) = FRAME_IDLE → lenZ (frame_buffer (spi w)) = 256 →
  Forall byte_ok p → 253 ≤ lenZ p ≤ 255 → byte_ok ck → byte_ok e →
  write_all (frame p ck e) w = None.
Proof. intros. by eapply (frame_overflow p ck e (spi_sent w)). Qed.

Lemma spi_long_frame_overflows_witness :
  write_all (frame (replicate 253 7) 0 0x0A)
    (mkSpiWorld (mkSpi 0 0 10 12 7 0 0 0 2 FRAME_IDLE (replicate 256 0) 0 0) tt []) = None.
Proof.
  apply spi_long_frame_overflows; try done. apply Forall_replicate. done.
Defined.

(** A frame with payload length zero is never forwarded: its checksum is
    taken for payload, its end marker for the checksum, and the byte that follows
    it - the start of the next frame - for the end marker. *)
Theorem spi_empty_frame_lost {X : Type} `{HX : SpiEnv X} (ck b : Z) (w : SpiWorld X) :
  frame_state (spi w) = FRAME_IDLE → lenZ (frame_buffer (spi w)) = 256 → byte_ok ck → byte_ok b →
  ∃ w', write_all (frame [] ck 0x0A ++ [b]) w = Some (tt, w') ∧
    frame_state (spi w') = FRAME_IDLE ∧ spi_sent w' = spi_sent w.
Proof.
  intros Hst Hb Hck Hb8. unfold frame. cbn [app lenZ length Z.of_nat].
  assert (wp (write_all [1; 0; ck; 10; b]) (λ _ w', idle (spi_sent w) w') w) as Hw.
  { apply wp_write_cons. eapply (byte_idle _ (spi_sent w)); [by split_and! | done |]. intros w1 H1. cbn in H1.
    apply wp_write_cons. eapply byte_start; [done | done | done |]. intros w2 H2.
    apply wp_write_cons. eapply byte_length; [done | exact Hck | done |]. intros w3 H3. cbn in H3.
    apply wp_write_cons. eapply byte_checksum; [done | done | done |]. intros w4 H4.
    apply wp_write_cons. eapply byte_end; [done | exact Hb8 | done |]. intros w5 H5.
    apply wp_write_nil. unfold forwarded in H5. cbn in H5. rewrite andb_false_r in H5. cbn in H5.
    by rewrite app_nil_r in H5. }
  apply wp_run in Hw as ([] & w' & Hr & Hst' & _ & Hs). eauto.
Qed.

Lemma spi_empty_frame_lost_witness :
  ∃ w', write_all (frame [] 9 0x0A ++ [1])
    (mkSpiWorld (mkSpi 0 0 10 12 7 0 0 0 2 FRAME_IDLE (replicate 256 0) 0 0) tt []) = Some (tt, w') ∧
    frame_state (spi w') = FRAME_IDLE ∧ spi_sent w' = [].
Proof. apply (spi_empty_frame_lost 9 1 (mkSpiWorld (mkSpi 0 0 10 12 7 0 0 0 2 FRAME_IDLE (replicate 256 0) 0 0) tt [])); done. Defined.
