(* ===== verification/Bridge.v ===== *)
(** * The TCP-to-CAN bridge (source_XL-Driver/src/xlSPICAN.c)

    One iteration of the receive loop of listen_uart: it reads a frame
    [0x01][length][payload][checksum][end] from the socket, checks the XOR
    checksum, and sends the payload in CAN messages of at most eight bytes.  The
    socket and the Vector XL driver are the operations of [XlEnv]. *)

From S2P Require Import Prelude.
From stdpp Require Import base list numbers option.

#[local] Open Scope Z_scope.

Definition BUFFER_SIZE : Z := 1024.

(** The [dlc] bytes of the message; the C array has eight. *)
Record CustomCANMessage := mkMsg { msg_id : Z; msg_dlc : Z; msg_data : list Z }.

Inductive XLstatus := XL_SUCCESS | XL_ERROR.

(** [recv n] answers the return value (negative on an error, 0 on a closed
    socket) and the bytes received.  The two transmit functions are those of CAN and of CAN FD ports. *)
Class XlEnv (Y : Type) := {
  recv : Z → Y → Z * list Z * Y;
  g_canFdSupport : bool;
  xlCanTransmit : CustomCANMessage → Y → XLstatus * Y;
  xlCanTransmitEx : CustomCANMessage → Y → XLstatus * Y
}.

(** The frame buffer, the world outside, and the messages handed to the driver. *)
Record Bridge (Y : Type) := mkBridge { buffer : list Z; br_env : Y; can_sent : list CustomCANMessage }.
Arguments mkBridge {Y} _ _ _.
Arguments buffer {Y} _.
Arguments br_env {Y} _.
Arguments can_sent {Y} _.

(** [for (i = 1; i < length; i++) checksum ^= data[i]], from index [i] with [n] bytes to go. *)
Fixpoint checksum_loop (n : nat) (data : list Z) (i checksum : Z) : option Z :=
  match n with
  | O => Some checksum
  | S n => b ← aget data i; checksum_loop n data (i + 1) (Z.lxor checksum b)
  end.

Definition calculate_checksum (data : list Z) (length : Z) : option Z :=
  checksum_loop (Z.to_nat (length - 1)) data 1 0.

(** [for (i = 0; i < dlc; i++) data[i] = buffer[off + i]], from index [i] on. *)
Fixpoint copy_loop (n : nat) (buf : list Z) (off : Z) : option (list Z) :=
  match n with
  | O => Some []
  | S n => b ← aget buf off; l ← copy_loop n buf (off + 1); Some (b :: l)
  end.

Section Bridge.
Context {Y : Type} `{XlEnv Y}.
Abbreviation W := (Bridge Y).

(** Receive up to [n] bytes into the buffer at [off]; the answer is bytes_received. *)
Definition recv_into (off n : Z) : M W Z :=
  y ← gets br_env;
  buf ← gets buffer;
  let '(bytes_received, bytes, y') := recv n y in
  buf ← lift (awrite buf off bytes);
  modify (λ w, mkBridge buf y' (can_sent w));;
  mret bytes_received.

Definition demoTransmitWithPayload (txID : Z) (payload : list Z) (payloadLength : Z) : M W XLstatus :=
  if 8 <? payloadLength then mret XL_ERROR
  else
    data ← lift (aslice payload 0 payloadLength);
    y ← gets br_env;
    let m := mkMsg txID payloadLength data in
    let '(xlStatus, y') := if g_canFdSupport then xlCanTransmitEx m y else xlCanTransmit m y in
    modify (λ w, mkBridge (buffer w) y' (can_sent w ++ [m]));;
    mret xlStatus.

(** The loop that cuts the payload into messages; each round takes at least one byte. *)
Fixpoint split_loop (fuel : nat) (remainingLength count : Z) : M W unit :=
  if 0 <? remainingLength then
    match fuel with
    | O => ub
    | S fuel =>
        buf ← gets buffer;
        len ← lift (aget buf 1);
        let id := 0x111 + len + count in
        let '(dlc, remainingLength) :=
          if 8 <=? remainingLength then (8, remainingLength - 8) else (remainingLength, 0) in
        data ← lift (copy_loop (Z.to_nat dlc) buf (2 + dlc * count));
        _ ← demoTransmitWithPayload id data dlc;
        split_loop fuel remainingLength (count + 1)
    end
  else mret tt.

(** One iteration of the loop of listen_uart. *)
Definition listen_iteration : M W unit :=
  n ← recv_into 0 1;
  buf ← gets buffer;
  b0 ← lift (aget buf 0);
  if negb (n =? 1) || negb (b0 =? 0x01) then mret tt
  else
    n ← recv_into 1 1;
    if negb (n =? 1) then mret tt
    else
      buf ← gets buffer;
      len ← lift (aget buf 1);
      n ← recv_into 2 len;
      if negb (n =? len) then mret tt
      else
        n ← recv_into (2 + len) 1;
        if negb (n =? 1) then mret tt
        else
          buf ← gets buffer;
          received_checksum ← lift (aget buf (len + 2));
          calculated_checksum ← lift (calculate_checksum buf (len + 2));
          if negb (received_checksum =? calculated_checksum) then mret tt
          else
            n ← recv_into (2 + len + 1) 1;
            if negb (n =? 1) then mret tt
            else split_loop (Z.to_nat len) len 0.

(** The loop of listen_uart, for a number of iterations. *)
Fixpoint listen (iterations : nat) : M W unit :=
  match iterations with
  | O => mret tt
  | S k => listen_iteration;; listen k
  end.
End Bridge.
