(* ===== verification/BridgeClaims.v ===== *)
(** * The bridge, alone and behind the SPI device

    What the receive loop makes of a frame, of a stream of frames and of damaged ones, then
    device and bridge together: from the SPI data register to the CAN bus. *)

From S2P Require Import Prelude Spi SpiClaims Bridge.
From stdpp Require Import base list numbers option.

#[local] Open Scope Z_scope.

(** ** The XOR checksum *)

Definition xor_list (l : list Z) : Z := foldr Z.lxor 0 l.

Lemma xor_list_app l1 l2 : xor_list (l1 ++ l2) = Z.lxor (xor_list l1) (xor_list l2).
Proof.
  unfold xor_list. induction l1 as [|b l1 IH]; cbn; [by rewrite Z.lxor_0_l|].
  by rewrite IH, Z.lxor_assoc.
Qed.

Lemma xor_list_inj l1 l2 b b' : xor_list (l1 ++ b :: l2) = xor_list (l1 ++ b' :: l2) → b = b'.
Proof.
  rewrite !xor_list_app. cbn. set (x := xor_list l1). set (y := foldr Z.lxor 0 l2). intros E.
  apply (f_equal (Z.lxor x)) in E. rewrite <-!Z.lxor_assoc, Z.lxor_nilpotent, !Z.lxor_0_l in E.
  apply (f_equal (λ z, Z.lxor z y)) in E. by rewrite !Z.lxor_assoc, Z.lxor_nilpotent, !Z.lxor_0_r in E.
Qed.

Lemma aget_app_cons {A} (l1 : list A) x l2 : aget (l1 ++ x :: l2) (lenZ l1) = Some x.
Proof.
  unfold aget, lenZ. rewrite decide_True by lia. rewrite Nat2Z.id.
  rewrite lookup_app_r by lia. by rewrite Nat.sub_diag.
Qed.

Lemma checksum_loop_spec l pre post acc :
  checksum_loop (length l) (pre ++ l ++ post) (lenZ pre) acc = Some (Z.lxor acc (xor_list l)).
Proof.
  revert pre acc. induction l as [|b l IH]; intros pre acc; cbn [length checksum_loop].
  { cbn. by rewrite Z.lxor_0_r. }
  cbn [app]. rewrite aget_app_cons. cbn.
  replace (lenZ pre + 1) with (lenZ (pre ++ [b])) by (autorewrite with lenZ; lia).
  replace (pre ++ b :: l ++ post) with ((pre ++ [b]) ++ l ++ post) by (by rewrite <-app_assoc).
  rewrite IH. by rewrite Z.lxor_assoc.
Qed.

(** The checksum of a frame covers the length byte and the payload. *)
Lemma calculate_checksum_frame s len p post :
  lenZ p = len → calculate_checksum (s :: len :: p ++ post) (len + 2) = Some (xor_list (len :: p)).
Proof.
  intros Hl. unfold calculate_checksum. pose proof (lenZ_nonneg p).
  replace (Z.to_nat (len + 2 - 1)) with (length (len :: p)) by (unfold lenZ in Hl; cbn [length]; lia).
  exact (checksum_loop_spec (len :: p) [s] post 0).
Qed.

Lemma copy_loop_spec l pre post : copy_loop (length l) (pre ++ l ++ post) (lenZ pre) = Some l.
Proof.
  revert pre. induction l as [|b l IH]; intros pre; cbn [length copy_loop]; [done|].
  cbn [app]. rewrite aget_app_cons. cbn.
  replace (lenZ pre + 1) with (lenZ (pre ++ [b])) by (autorewrite with lenZ; lia).
  replace (pre ++ b :: l ++ post) with ((pre ++ [b]) ++ l ++ post) by (by rewrite <-app_assoc).
  by rewrite IH.
Qed.

(** [n] bytes of [p] from [off]. *)
Definition slice (p : list Z) (off n : Z) : list Z := take (Z.to_nat n) (drop (Z.to_nat off) p).

Lemma slice_len p off n : 0 ≤ off → 0 ≤ n → off + n ≤ lenZ p → lenZ (slice p off n) = n.
Proof. unfold slice, lenZ. intros. rewrite length_take, length_drop. lia. Qed.

Lemma copy_loop_slice pre p post off n :
  0 ≤ off → 0 ≤ n → off + n ≤ lenZ p →
  copy_loop (Z.to_nat n) (pre ++ p ++ post) (lenZ pre + off) = Some (slice p off n).
Proof.
  intros Ho Hn Hle. pose proof (slice_len p off n Ho Hn Hle) as Hs.
  rewrite <-(take_drop (Z.to_nat off) p) at 1. rewrite <-(take_drop (Z.to_nat n) (drop (Z.to_nat off) p)) at 1.
  fold (slice p off n). rewrite <-!app_assoc. rewrite (app_assoc pre).
  replace (lenZ pre + off) with (lenZ (pre ++ take (Z.to_nat off) p))
    by (rewrite lenZ_app; unfold lenZ in *; rewrite length_take; lia).
  replace (Z.to_nat n) with (length (slice p off n)) at 1 by (unfold lenZ in Hs; lia).
  apply copy_loop_spec.
Qed.

(** ** The messages of a payload *)

(** The messages the code cuts the payload [p] into, [rem] bytes before the end. *)
Fixpoint messages (fuel : nat) (p : list Z) (rem count : Z) : list CustomCANMessage :=
  match fuel with
  | O => []
  | S fuel =>
      let id := 0x111 + lenZ p + count in
      if rem <=? 0 then []
      else if 8 <=? rem then mkMsg id 8 (slice p (8 * count) 8) :: messages fuel p (rem - 8) (count + 1)
      else [mkMsg id rem (slice p (rem * count) rem)]
  end.

(** A connected socket: [pending] are the bytes that arrive, and a request for as
    many as there are is served in full.  Transmitting does not read from it. *)
Class Socket (Y : Type) `{XlEnv Y} := {
  pending : Y → list Z;
  recv_all : ∀ n y, 0 ≤ n ≤ lenZ (pending y) →
    ∃ y', recv n y = (n, take (Z.to_nat n) (pending y), y') ∧ pending y' = drop (Z.to_nat n) (pending y);
  transmit_pending : ∀ m y, pending (snd (xlCanTransmit m y)) = pending y;
  transmitEx_pending : ∀ m y, pending (snd (xlCanTransmitEx m y)) = pending y
}.

Section bridge.
Context {Y : Type} `{HY : XlEnv Y}.
Abbreviation W := (Bridge Y).
Implicit Types (w : W).

Lemma wp_transmit id data n w (Q : XLstatus → W → Prop) :
  lenZ data = n → n ≤ 8 →
  (∀ st y, y = snd (if g_canFdSupport then xlCanTransmitEx (mkMsg id n data) (br_env w)
                    else xlCanTransmit (mkMsg id n data) (br_env w)) →
    Q st (mkBridge (buffer w) y (can_sent w ++ [mkMsg id n data]))) →
  wp (demoTransmitWithPayload id data n) Q w.
Proof.
  intros Hn H8 HQ. unfold demoTransmitWithPayload. destruct (Z.ltb_spec 8 n); [lia|].
  pose proof (lenZ_nonneg data). wp_step.
  eapply wp_lift; [apply aslice_is_Some; lia|]. wp_steps.
  rewrite drop_0, take_ge by (unfold lenZ in Hn; lia).
  destruct (if g_canFdSupport then _ else _) as [st y] eqn:E. wp_steps. by apply HQ.
Qed.

Lemma pending_transmit {HS : Socket Y} m (y : Y) :
  pending (snd (if g_canFdSupport then xlCanTransmitEx m y else xlCanTransmit m y)) = pending y.
Proof. destruct g_canFdSupport; [apply transmitEx_pending | apply transmit_pending]. Qed.

Lemma wp_split_loop {HS : Socket Y} fuel s p post rem count w (Q : unit → W → Prop) :
  buffer w = s :: lenZ p :: p ++ post → 0 ≤ rem ≤ Z.of_nat fuel → 0 ≤ count →
  8 * count + rem ≤ lenZ p →
  (∀ w', buffer w' = buffer w → pending (br_env w') = pending (br_env w) →
    can_sent w' = can_sent w ++ messages fuel p rem count → Q tt w') →
  wp (split_loop fuel rem count) Q w.
Proof.
  revert rem count w. induction fuel as [|fuel IH]; intros rem count w Hb Hrem Hc Hle HQ; cbn [split_loop].
  { destruct (Z.ltb_spec 0 rem); [lia|]. wp_steps. apply HQ; try done. cbn. by rewrite app_nil_r. }
  cbn [messages] in HQ. destruct (Z.ltb_spec 0 rem) as [Hpos|]; [destruct (Z.leb_spec rem 0); [lia|]|].
  2:{ wp_steps. apply HQ; try done. destruct (Z.leb_spec rem 0); [by rewrite app_nil_r | lia]. }
  wp_steps. rewrite Hb. eapply wp_lift; [done|]. wp_steps.
  assert (∀ n off, 0 ≤ off → 0 ≤ n → off + n ≤ lenZ p →
    copy_loop (Z.to_nat n) (s :: lenZ p :: p ++ post) (2 + off) = Some (slice p off n)) as Hcopy.
  { intros n off. exact (copy_loop_slice [s; lenZ p] p post off n). }
  destruct (Z.leb_spec 8 rem) as [H8|H8].
  - rewrite Hcopy by lia. wp_step. eapply wp_lift; [done|]. wp_steps.
    apply wp_transmit; [apply slice_len; lia | lia |]. intros st y ->.
    apply IH; try done; try lia. intros w' Hb' Hp' Hs'. apply HQ; [done|..].
    + rewrite Hp'. apply pending_transmit.
    + rewrite Hs'. cbn. by rewrite <-app_assoc.
  - assert (rem * count + rem ≤ lenZ p) by nia.
    rewrite Hcopy by lia. wp_step. eapply wp_lift; [done|]. wp_steps.
    apply wp_transmit; [apply slice_len; lia | lia |]. intros st y ->.
    assert (split_loop fuel 0 (count + 1) = mret tt) as -> by (by destruct fuel).
    wp_steps. apply HQ; [done | apply pending_transmit | done].
Qed.

(** The frame of a payload. *)
Definition frame_bytes (p : list Z) (e : Z) : list Z := 0x01 :: lenZ p :: p ++ [xor_list (lenZ p :: p); e].

Lemma wp_recv_into {HS : Socket Y} off n w (Q : Z → W → Prop) :
  0 ≤ off → 0 ≤ n ≤ lenZ (pending (br_env w)) → off + n ≤ lenZ (buffer w) →
  (∀ y, pending y = drop (Z.to_nat n) (pending (br_env w)) →
    Q n (mkBridge (take (Z.to_nat off) (buffer w) ++ take (Z.to_nat n) (pending (br_env w)) ++
                   drop (Z.to_nat off + Z.to_nat n) (buffer w)) y (can_sent w))) →
  wp (recv_into off n) Q w.
Proof.
  intros Ho Hn Hb HQ. unfold recv_into. wp_steps. destruct (recv_all n (br_env w) Hn) as (y' & -> & Hy).
  assert (length (take (Z.to_nat n) (pending (br_env w))) = Z.to_nat n) as Hl
    by (rewrite length_take; unfold lenZ in Hn; lia).
  rewrite awrite_is_Some by (unfold lenZ in *; lia). wp_step. eapply wp_lift; [done|]. wp_steps.
  rewrite Hl. by apply HQ.
Qed.

(** Reading on: the buffer holds [pre], the socket delivers [bs] next. *)
Lemma wp_recv_next {HS : Socket Y} pre tl bs rest w (Q : Z → W → Prop) off n :
  buffer w = pre ++ tl → pending (br_env w) = bs ++ rest → off = lenZ pre → n = lenZ bs → n ≤ lenZ tl →
  (∀ w', buffer w' = (pre ++ bs) ++ drop (length bs) tl → pending (br_env w') = rest →
    can_sent w' = can_sent w → Q n w') →
  wp (recv_into off n) Q w.
Proof.
  intros Hb Hp -> -> Hle HQ. pose proof (lenZ_nonneg pre). pose proof (lenZ_nonneg bs).
  pose proof (lenZ_nonneg rest). apply wp_recv_into; [lia | rewrite Hp, lenZ_app; lia | rewrite Hb, lenZ_app; lia |].
  intros y Hy. apply HQ; cbn; [|rewrite Hy, Hp|done].
  - rewrite Hb, Hp. unfold lenZ. rewrite !Nat2Z.id, !take_app_length, <-app_assoc. do 2 f_equal.
    by rewrite drop_app_add.
  - unfold lenZ. by rewrite Nat2Z.id, drop_app_length.
Qed.

(** An iteration on a frame with checksum byte [ck]: the messages of the
    payload, or nothing when the checksum is wrong; then the end byte is not
    consumed. *)
Lemma wp_listen_frame {HS : Socket Y} p ck e rest w (Q : unit → W → Prop) :
  lenZ (buffer w) = BUFFER_SIZE → pending (br_env w) = (0x01 :: lenZ p :: p ++ [ck; e]) ++ rest →
  0 ≤ lenZ p ≤ 255 →
  (∀ w', lenZ (buffer w') = BUFFER_SIZE →
    (if ck =? xor_list (lenZ p :: p) then pending (br_env w') = rest ∧
       can_sent w' = can_sent w ++ messages (Z.to_nat (lenZ p)) p (lenZ p) 0
     else pending (br_env w') = e :: rest ∧ can_sent w' = can_sent w) → Q tt w') →
  wp listen_iteration Q w.
Proof.
  intros Hb Hp Hl HQ. unfold listen_iteration, BUFFER_SIZE in *. set (tl := buffer w).
  assert (∀ n, lenZ (drop n tl) = Z.max 0 (1024 - Z.of_nat n)) as Hdrop.
  { intros n. subst tl. unfold lenZ in *. rewrite length_drop. lia. }
  wp_step. apply (wp_recv_next [] tl [1] ((lenZ p :: p ++ [ck; e]) ++ rest)); try done; [unfold tl; lia|].
  intros w1 Hb1 Hp1 Hs1. wp_steps. rewrite Hb1. eapply wp_lift; [done|]. wp_step; [discriminate|].
  wp_step. apply (wp_recv_next [1] (drop 1 tl) [lenZ p] ((p ++ [ck; e]) ++ rest)); try done; [rewrite Hdrop; lia|].
  intros w2 Hb2 Hp2 Hs2. wp_step; [discriminate|]. wp_steps. rewrite Hb2. eapply wp_lift; [done|].
  rewrite drop_drop in Hb2. wp_step.
  apply (wp_recv_next [1; lenZ p] (drop 2 tl) p ([ck; e] ++ rest)); try done; [by rewrite <-app_assoc in Hp2 | rewrite Hdrop; lia |].
  intros w3 Hb3 Hp3 Hs3. wp_step; [bools; lia|]. rewrite drop_drop in Hb3. wp_step.
  apply (wp_recv_next ([1; lenZ p] ++ p) (drop (2 + length p) tl) [ck] ([e] ++ rest)); try done;
    [by rewrite lenZ_app; autorewrite with lenZ; lia | rewrite Hdrop; unfold lenZ in *; lia |].
  intros w4 Hb4 Hp4 Hs4. wp_step; [discriminate|]. wp_steps. rewrite drop_drop in Hb4.
  assert (buffer w4 = 1 :: lenZ p :: p ++ ck :: drop (2 + length p + 1) tl) as Hb4'
    by (rewrite Hb4; cbn; by rewrite <-app_assoc).
  rewrite Hb4'. eapply wp_lift.
  { replace (lenZ p + 2) with (lenZ (1 :: lenZ p :: p)) by (autorewrite with lenZ; lia).
    exact (aget_app_cons (1 :: lenZ p :: p) ck _). }
  wp_steps. eapply wp_lift; [by apply calculate_checksum_frame|].
  destruct (ck =? xor_list (lenZ p :: p)) eqn:Eck; cbn [negb].
  2:{ wp_steps. apply HQ; [|split; [exact Hp4 | congruence]]. rewrite Hb4'. autorewrite with lenZ. rewrite Hdrop.
      unfold lenZ in *. lia. }
  wp_step.
  apply (wp_recv_next (([1; lenZ p] ++ p) ++ [ck]) (drop (2 + length p + 1) tl) [e] rest); try done;
    [autorewrite with lenZ; lia | rewrite Hdrop; unfold lenZ in *; lia |].
  intros w5 Hb5 Hp5 Hs5. wp_step; [discriminate|]. rewrite drop_drop in Hb5.
  eapply (wp_split_loop _ 1 p ([ck; e] ++ drop (2 + length p + 1 + 1) tl)); try lia.
  { rewrite Hb5. cbn. by rewrite <-!app_assoc. }
  intros w' Hb' Hp' Hs'. apply HQ; [|split; congruence].
  rewrite Hb', Hb5. autorewrite with lenZ. rewrite Hdrop. unfold lenZ in *. cbn [length]. lia.
Qed.

(** ** Streams of frames *)

Lemma wp_listen {HS : Socket Y} (ps : list (list Z)) w (Q : unit → W → Prop) :
  lenZ (buffer w) = BUFFER_SIZE →
  pending (br_env w) = concat ((λ p, frame_bytes p 0x0A) <$> ps) →
  Forall (λ p, 0 ≤ lenZ p ≤ 255) ps →
  (∀ w', pending (br_env w') = [] →
    can_sent w' = can_sent w ++ concat ((λ p, messages (Z.to_nat (lenZ p)) p (lenZ p) 0) <$> ps) → Q tt w') →
  wp (listen (length ps)) Q w.
Proof.
  revert w. induction ps as [|p ps IH]; intros w Hb Hp HF HQ; cbn [length listen].
  { wp_steps. apply HQ; [exact Hp | cbn; by rewrite app_nil_r]. }
  apply Forall_cons_1 in HF as [Hl HF]. wp_step.
  eapply (wp_listen_frame p (xor_list (lenZ p :: p)) 0x0A); [done | exact Hp | done |].
  intros w' Hb'. rewrite Z.eqb_refl. intros [Hp' Hs']. apply IH; try done.
  intros w'' Hp'' Hs''. apply HQ; [done|]. rewrite Hs'', Hs'. cbn. by rewrite <-app_assoc.
Qed.
End bridge.

(** ** Payload and messages *)

(** The lengths at which every byte is sent: one message, or whole messages only. *)
Definition even_split (p : list Z) : Prop := lenZ p ≤ 8 ∨ lenZ p mod 8 = 0.

Lemma slice_drop p off n : 0 ≤ off → 0 ≤ n → slice p off n ++ drop (Z.to_nat (off + n)) p = drop (Z.to_nat off) p.
Proof. intros. unfold slice. rewrite Z2Nat.inj_add, <-drop_drop by lia. apply take_drop. Qed.

Lemma slice_tail p off n : 0 ≤ off → off + n = lenZ p → 0 ≤ n → slice p off n = drop (Z.to_nat off) p.
Proof. intros. unfold slice. apply take_ge. rewrite length_drop. unfold lenZ in *. lia. Qed.

Lemma messages_data fuel p rem count :
  0 ≤ rem ≤ Z.of_nat fuel → 0 ≤ count → 8 * count + rem = lenZ p →
  (rem mod 8 = 0 ∨ count = 0 ∧ rem ≤ 8) →
  concat (msg_data <$> messages fuel p rem count) = drop (Z.to_nat (8 * count)) p.
Proof.
  revert rem count. induction fuel as [|fuel IH]; intros rem count Hrem Hc Hl Hor; cbn [messages].
  { cbn. rewrite drop_ge; [done|]. unfold lenZ in *. lia. }
  destruct (Z.leb_spec rem 0).
  { cbn. rewrite drop_ge; [done|]. unfold lenZ in *. lia. }
  destruct (Z.leb_spec 8 rem).
  - cbn [fmap list_fmap concat msg_data]. rewrite IH; try lia.
    + rewrite <-(slice_drop p (8 * count) 8) by lia. f_equal. f_equal. lia.
    + left. destruct Hor as [Hm|[-> ?]]; [|by replace rem with 8 by lia].
      rewrite Zminus_mod, Hm. done.
  - cbn [fmap list_fmap concat msg_data]. rewrite app_nil_r.
    destruct Hor as [Hm|[-> _]]; [rewrite Z.mod_small in Hm; lia|].
    rewrite !Z.mul_0_r. apply slice_tail; lia.
Qed.

Lemma even_split_data p : even_split p → concat (msg_data <$> messages (Z.to_nat (lenZ p)) p (lenZ p) 0) = p.
Proof.
  intros He. pose proof (lenZ_nonneg p). rewrite messages_data by (unfold even_split in He; lia). done.
Qed.

Lemma messages_dlc fuel p rem count :
  Forall (λ m, 1 ≤ msg_dlc m ≤ 8 ∧ lenZ (msg_data m) ≤ msg_dlc m) (messages fuel p rem count).
Proof.
  revert rem count. induction fuel as [|fuel IH]; intros rem count; cbn [messages]; [constructor|].
  destruct (Z.leb_spec rem 0); [constructor|]. destruct (Z.leb_spec 8 rem); constructor; cbn; auto;
    unfold slice, lenZ; rewrite length_take; lia.
Qed.

(** Otherwise the last message is read at the wrong place: [r * q] instead of [8 * q]. *)
Lemma messages_tail_data (m : nat) fuel p count r :
  0 ≤ count → 1 ≤ r ≤ 7 → lenZ p = 8 * (count + Z.of_nat m) + r → 8 * Z.of_nat m + r ≤ Z.of_nat fuel →
  concat (msg_data <$> messages fuel p (8 * Z.of_nat m + r) count) =
  slice p (8 * count) (8 * Z.of_nat m) ++ slice p (r * (count + Z.of_nat m)) r.
Proof.
  revert fuel count. induction m as [|m IH]; intros fuel count Hc Hr Hl Hf;
    (destruct fuel as [|fuel]; [lia|]); cbn [messages].
  - destruct (Z.leb_spec (8 * Z.of_nat 0 + r) 0); [lia|]. destruct (Z.leb_spec 8 (8 * Z.of_nat 0 + r)); [lia|].
    cbn [fmap list_fmap concat msg_data]. rewrite app_nil_r. cbn. by rewrite Z.add_0_r.
  - destruct (Z.leb_spec (8 * Z.of_nat (S m) + r) 0); [lia|].
    destruct (Z.leb_spec 8 (8 * Z.of_nat (S m) + r)); [|lia]. cbn [fmap list_fmap concat msg_data].
    replace (8 * Z.of_nat (S m) + r - 8) with (8 * Z.of_nat m + r) by lia.
    rewrite IH by lia. rewrite app_assoc. f_equal.
    + unfold slice. replace (Z.to_nat (8 * (count + 1))) with (Z.to_nat (8 * count) + 8)%nat by lia.
      rewrite <-drop_drop. replace (Z.to_nat (8 * Z.of_nat (S m))) with (8 + Z.to_nat (8 * Z.of_nat m))%nat by lia.
      set (l := drop (Z.to_nat (8 * count)) p). change (Z.to_nat 8) with 8%nat.
      symmetry. rewrite <-(take_drop 8 l) at 1. rewrite take_app_ge by (rewrite length_take; lia).
      rewrite length_take. f_equal. f_equal. subst l. rewrite length_drop. unfold lenZ in Hl. lia.
    + f_equal. lia.
Qed.

(** So the last byte of the payload is not sent. *)
Lemma tail_byte_lost p q r x :
  1 ≤ q → 1 ≤ r ≤ 7 → lenZ p = 8 * q + r → NoDup p → aget p (lenZ p - 1) = Some x →
  x ∉ concat (msg_data <$> messages (Z.to_nat (lenZ p)) p (lenZ p) 0).
Proof.
  intros Hq Hr Hl Hnd Hx.
  replace (messages (Z.to_nat (lenZ p)) p (lenZ p) 0)
    with (messages (Z.to_nat (lenZ p)) p (8 * Z.of_nat (Z.to_nat q) + r) 0) by (f_equal; lia).
  rewrite messages_tail_data by lia.
  assert (∀ off n, 0 ≤ off → 0 ≤ n → off + n ≤ lenZ p - 1 → x ∉ slice p off n) as Hnot.
  { intros off n Ho Hn Hle Hin. unfold slice in Hin.
    apply list_elem_of_lookup in Hin as [i Hi]. apply lookup_take_Some in Hi as [Hi Hin].
    rewrite lookup_drop in Hi. unfold aget in Hx. rewrite decide_True in Hx by lia.
    pose proof (NoDup_lookup _ _ _ _ Hnd Hi Hx). lia. }
  intros [Hin|Hin]%elem_of_app; revert Hin; apply Hnot; nia.
Qed.

(** * The bridge, alone and behind the SPI device: properties *)

(** A socket with bytes waiting, for the witnesses. *)
#[export] Instance stream_env : XlEnv (list Z) := {|
  recv := λ n y, (Z.min n (lenZ y), take (Z.to_nat n) y, drop (Z.to_nat n) y);
  g_canFdSupport := false;
  xlCanTransmit := λ m y, (XL_SUCCESS, y);
  xlCanTransmitEx := λ m y, (XL_SUCCESS, y)
|}.

#[export] Instance stream_socket : Socket (list Z).
Proof.
  refine {| pending := λ y, y |}; [|done..]. intros n y Hn. exists (drop (Z.to_nat n) y). split; [|done].
  cbn. by rewrite Z.min_l by lia.
Defined.

Definition bridge_on (bytes : list Z) : Bridge (list Z) := mkBridge (replicate 1024 0) bytes [].

(** What a payload needs to cross the bridge whole. *)
Definition bridgeable (p : list Z) : Prop := 0 ≤ lenZ p ≤ 255 ∧ even_split p.

Lemma bridged_data (ps : list (list Z)) :
  Forall bridgeable ps →
  concat (msg_data <$> concat ((λ p, messages (Z.to_nat (lenZ p)) p (lenZ p) 0) <$> ps)) = concat ps.
Proof.
  induction 1 as [|p ps [_ He] HF IH]; cbn [fmap list_fmap concat]; [done|].
  rewrite fmap_app, concat_app, IH, even_split_data by done. done.
Qed.

Lemma byte_ok_lxor a b : byte_ok a → byte_ok b → byte_ok (Z.lxor a b).
Proof.
  intros Ha Hb. unfold byte_ok in *. rewrite <-(Z.mod_small a 256), <-(Z.mod_small b 256) by lia.
  rewrite <-!land_0xFF.
  assert (Z.lxor (Z.land a 255) (Z.land b 255) = Z.land (Z.lxor a b) 255) as ->.
  { apply Z.bits_inj'. intros n _. rewrite Z.lxor_spec, !Z.land_spec, Z.lxor_spec.
    by destruct (Z.testbit a n), (Z.testbit b n), (Z.testbit 255 n). }
  rewrite land_0xFF. apply Z.mod_pos_bound. lia.
Qed.

Lemma xor_list_byte l : Forall byte_ok l → byte_ok (xor_list l).
Proof. induction 1 as [|b l Hb _ IH]; [done | by apply byte_ok_lxor]. Qed.

(** The device's run on a stream, for use with the bridge. *)
Lemma stream_run {X : Type} `{HX : SpiEnv X} (l : list item) (w : SpiWorld X) :
  (∀ x : X, qemu_chr_fe_backend_connected x = true) → Forall item_ok l →
  wp (stm32f2xx_spi_reset;; write_all (concat (item_bytes <$> l)))
    (λ _ w', spi_sent w' = spi_sent w ++ concat (closed <$> l)) w.
Proof.
  intros Hconn Hl. wp_step. apply reset_idle. intros w1 Hi _. eapply write_stream; [done..|].
  intros w' (_ & _ & Hs). done.
Qed.

(** When the socket delivers correctly checksummed frames whose payloads have at
    most eight bytes or a multiple of eight (up to 255), as many iterations of the
    receive loop as there are frames have a defined result, consume the stream, and
    hand the driver CAN messages of at most eight bytes whose data, in order, is
    exactly the concatenation of the payloads. *)
Theorem bridge_delivers {Y : Type} `{HY : XlEnv Y} {HS : Socket Y} (ps : list (list Z)) (w : Bridge Y) :
  lenZ (buffer w) = BUFFER_SIZE → can_sent w = [] →
  pending (br_env w) = concat ((λ p, frame_bytes p 0x0A) <$> ps) → Forall bridgeable ps →
  ∃ w', listen (length ps) w = Some (tt, w') ∧ pending (br_env w') = [] ∧
    concat (msg_data <$> can_sent w') = concat ps ∧
    Forall (λ m, 1 ≤ msg_dlc m ≤ 8 ∧ lenZ (msg_data m) ≤ msg_dlc m) (can_sent w').
Proof.
  intros Hb Hs Hp HF.
  assert (wp (listen (length ps)) (λ _ w', pending (br_env w') = [] ∧
    can_sent w' = concat ((λ p, messages (Z.to_nat (lenZ p)) p (lenZ p) 0) <$> ps)) w) as Hw.
  { eapply wp_listen; [done | done | |].
    - eapply Forall_impl; [|exact HF]. by intros p [].
    - intros w' Hp' Hs'. rewrite Hs in Hs'. done. }
  apply wp_run in Hw as ([] & w' & Hr & Hp' & Hs'). exists w'. split_and!; try done; rewrite Hs'.
  - by apply bridged_data.
  - clear. induction ps as [|p ps IH]; cbn; [constructor|]. apply Forall_app. split; [apply messages_dlc | done].
Qed.

Lemma bridge_delivers_witness :
  ∃ w', listen 2 (bridge_on (concat ((λ p, frame_bytes p 0x0A) <$> [[1; 2; 3]; seqZ 0 16]))) = Some (tt, w') ∧
    pending (br_env w') = [] ∧ concat (msg_data <$> can_sent w') = concat [[1; 2; 3]; seqZ 0 16] ∧
    Forall (λ m, 1 ≤ msg_dlc m ≤ 8 ∧ lenZ (msg_data m) ≤ msg_dlc m) (can_sent w').
Proof.
  apply (bridge_delivers [[1; 2; 3]; seqZ 0 16]); try done.
  constructor; [split; [done | by left]|]. constructor; [split; [done | by right]|]. constructor.
Defined.

(** A corrupted byte is caught: when one byte of the payload differs from the
    one the checksum was computed over, the iteration ends without any CAN message. *)
Theorem bridge_rejects_corruption {Y : Type} `{HY : XlEnv Y} {HS : Socket Y}
    (l1 l2 rest : list Z) (b b' e : Z) (w : Bridge Y) :
  b ≠ b' → lenZ (l1 ++ b :: l2) ≤ 255 → lenZ (buffer w) = BUFFER_SIZE →
  pending (br_env w) = (0x01 :: lenZ (l1 ++ b' :: l2) :: (l1 ++ b' :: l2) ++
    [xor_list (lenZ (l1 ++ b :: l2) :: l1 ++ b :: l2); e]) ++ rest →
  ∃ w', listen_iteration w = Some (tt, w') ∧ can_sent w' = can_sent w.
Proof.
  intros Hne Hl Hb Hp. assert (lenZ (l1 ++ b' :: l2) = lenZ (l1 ++ b :: l2)) as Elen
    by (autorewrite with lenZ; lia).
  assert (wp listen_iteration (λ _ w', can_sent w' = can_sent w) w) as Hw.
  { eapply (wp_listen_frame (l1 ++ b' :: l2)); [done | exact Hp | rewrite Elen; split; [apply lenZ_nonneg | done] |].
    intros w' _ Hw'. destruct (Z.eqb_spec (xor_list (lenZ (l1 ++ b :: l2) :: l1 ++ b :: l2))
      (xor_list (lenZ (l1 ++ b' :: l2) :: l1 ++ b' :: l2))) as [E|]; [|apply Hw'].
    rewrite Elen in E. by apply (xor_list_inj (lenZ (l1 ++ b :: l2) :: l1)) in E. }
  apply wp_run in Hw as ([] & w' & Hr & Hs). eauto.
Qed.

Lemma bridge_rejects_corruption_witness :
  ∃ w', listen_iteration (bridge_on [1; 3; 10; 99; 30; Z.lxor 3 (Z.lxor 10 (Z.lxor 20 30)); 0x0A]) = Some (tt, w') ∧
    can_sent w' = [].
Proof.
  exact (bridge_rejects_corruption [10] [30] [] 20 99 0x0A
    (bridge_on [1; 3; 10; 99; 30; Z.lxor 3 (Z.lxor 10 (Z.lxor 20 30)); 0x0A])
    ltac:(done) ltac:(done) ltac:(done) ltac:(vm_compute; reflexivity)).
Defined.

(** For a payload longer than eight bytes whose length is not a multiple of
    eight, the last message is copied from the wrong place of the buffer: if the
    bytes of the payload are distinct, its last byte is in none of the messages. *)
Theorem bridge_loses_tail {Y : Type} `{HY : XlEnv Y} {HS : Socket Y} (p rest : list Z) (q r x : Z) (w : Bridge Y) :
  1 ≤ q → 1 ≤ r ≤ 7 → lenZ p = 8 * q + r → lenZ p ≤ 255 → NoDup p → aget p (lenZ p - 1) = Some x →
  lenZ (buffer w) = BUFFER_SIZE → can_sent w = [] → pending (br_env w) = frame_bytes p 0x0A ++ rest →
  ∃ w', listen_iteration w = Some (tt, w') ∧ x ∉ concat (msg_data <$> can_sent w').
Proof.
  intros Hq Hr Hl H255 Hnd Hx Hb Hs Hp.
  assert (wp listen_iteration (λ _ w', x ∉ concat (msg_data <$> can_sent w')) w) as Hw.
  { eapply (wp_listen_frame p (xor_list (lenZ p :: p)) 0x0A); [done | exact Hp | lia |].
    intros w' _. rewrite Z.eqb_refl. intros [_ ->]. rewrite Hs. cbn [app]. by eapply tail_byte_lost. }
  apply wp_run in Hw as ([] & w' & Hr' & Hs'). eauto.
Qed.

Lemma bridge_loses_tail_witness :
  ∃ w', listen_iteration (bridge_on (frame_bytes (seqZ 1 9) 0x0A ++ [])) = Some (tt, w') ∧
    9 ∉ concat (msg_data <$> can_sent w').
Proof.
  apply (bridge_loses_tail (seqZ 1 9) [] 1 1 9); try done. apply NoDup_seqZ.
Defined.

(** One call of recv, with whatever answer. *)
Lemma wp_recv_answer {Y : Type} `{HY : XlEnv Y} off n r bytes y (w : Bridge Y) (Q : Z → Bridge Y → Prop) :
  recv n (br_env w) = (r, bytes, y) → 0 ≤ off → off + lenZ bytes ≤ lenZ (buffer w) →
  Q r (mkBridge (take (Z.to_nat off) (buffer w) ++ bytes ++ drop (Z.to_nat off + length bytes) (buffer w)) y (can_sent w)) → wp (recv_into off n) Q w.
Proof.
  intros E Ho Hl HQ. unfold recv_into. wp_steps. rewrite E. wp_step. eapply wp_lift; [by apply awrite_is_Some|]. wp_steps. exact HQ.
Qed.
(** A read that is served only in part drops the frame: when start byte and length have been
    received and recv then answers another number of bytes than the length, the iteration ends
    without a CAN message; the rest of the payload is taken for the start of a frame by the
    next iteration. *)
Theorem bridge_partial_recv_drops {Y : Type} `{HY : XlEnv Y} (w : Bridge Y) (len n : Z) (bytes : list Z) (y1 y2 y3 : Y) :
  recv 1 (br_env w) = (1, [0x01], y1) → recv 1 y1 = (1, [len], y2) → recv len y2 = (n, bytes, y3) →
  n ≠ len → lenZ bytes ≤ len ≤ 255 → lenZ (buffer w) = BUFFER_SIZE →
  ∃ w', listen_iteration w = Some (tt, w') ∧ can_sent w' = can_sent w ∧ br_env w' = y3.
Proof.
  intros E1 E2 E3 Hn Hl Hb. unfold BUFFER_SIZE in Hb.
  destruct (buffer w) as [|b0 [|b1 tl]] eqn:Eb; autorewrite with lenZ in Hb; try (cbn in Hb; lia). pose proof (lenZ_nonneg tl).
  assert (wp listen_iteration (λ _ w', can_sent w' = can_sent w ∧ br_env w' = y3) w) as Hw.
  { unfold listen_iteration. wp_step. eapply wp_recv_answer; [exact E1 | lia | rewrite Eb; autorewrite with lenZ; lia |]. rewrite Eb. change (take _ _ ++ _) with (1 :: b1 :: tl).
    wp_steps. eapply wp_lift; [done|]. wp_step; [done|]. wp_step. eapply wp_recv_answer; [exact E2 | lia | cbn; autorewrite with lenZ; lia |]. change (take _ _ ++ _) with (1 :: len :: tl).
    wp_step; [done|]. wp_steps. eapply wp_lift; [done|]. wp_step. eapply wp_recv_answer; [exact E3 | lia | cbn; autorewrite with lenZ; lia |].
    rewrite (proj2 (Z.eqb_neq _ _) Hn). by apply wp_ret. }
  apply wp_run in Hw as ([] & w' & Hr & Hs). eauto.
Qed.

(** A socket that hands out at most two bytes at a time. *)
Definition trickle_env : XlEnv (list Z) := {|
  recv := λ n y, let k := Z.min 2 (Z.min n (lenZ y)) in (k, take (Z.to_nat k) y, drop (Z.to_nat k) y);
  g_canFdSupport := false;
  xlCanTransmit := λ m y, (XL_SUCCESS, y);
  xlCanTransmitEx := λ m y, (XL_SUCCESS, y)
|}.
Lemma bridge_partial_recv_drops_witness :
  ∃ w', @listen_iteration _ trickle_env (bridge_on (frame_bytes [7; 8; 9] 0x0A)) = Some (tt, w') ∧ can_sent w' = [] ∧ br_env w' = [9; Z.lxor 3 (Z.lxor 7 (Z.lxor 8 9)); 0x0A].
Proof.
  exact (@bridge_partial_recv_drops _ trickle_env (bridge_on (frame_bytes [7; 8; 9] 0x0A)) 3 2 [7; 8] _ _ _ eq_refl eq_refl eq_refl ltac:(done) ltac:(done) ltac:(done)).
Defined.

(** C32. From the guest's SPI register to the CAN bus: when the guest writes the
    frames of payloads of one to eight bytes, or a multiple of eight up to 248, to the
    data register of a device with a connected backend, and the bridge reads what the device
    handed to the backend from a socket that serves every read in full, the CAN messages carry
    exactly the payloads, in order.  (Payloads of other lengths lose bytes, and a partial read
    drops the frame: see the two theorems above.) *)
Theorem spi_to_can {X : Type} `{HX : SpiEnv X} {Y : Type} `{HY : XlEnv Y} {HS : Socket Y}
    (ps : list (list Z)) (w : SpiWorld X) (b : Bridge Y) :
  (∀ x : X, qemu_chr_fe_backend_connected x = true) →
  Forall (λ p, even_split p ∧ 1 ≤ lenZ p ≤ 252 ∧ Forall byte_ok p) ps → spi_sent w = [] →
  lenZ (buffer b) = BUFFER_SIZE → can_sent b = [] →
  ∃ w', (stm32f2xx_spi_reset;; write_all (concat ((λ p, frame_bytes p 0x0A) <$> ps))) w = Some (tt, w') ∧
    (pending (br_env b) = concat (spi_sent w') →
     ∃ b', listen (length ps) b = Some (tt, b') ∧ concat (msg_data <$> can_sent b') = concat ps).
Proof.
  intros Hconn HF Hs Hb Hc.
  set (items := (λ p, Frame p (xor_list (lenZ p :: p)) 0x0A) <$> ps).
  assert (Forall item_ok items) as Hok.
  { apply Forall_fmap. eapply Forall_impl; [|exact HF]. intros p (_ & Hl & Hp). split; [|done].
    split_and!; try done; try lia. apply xor_list_byte. constructor; [unfold byte_ok; lia | done]. }
  assert (concat (item_bytes <$> items) = concat ((λ p, frame_bytes p 0x0A) <$> ps) ∧
          concat (concat (closed <$> items)) = concat ((λ p, frame_bytes p 0x0A) <$> ps)) as [E1 E2].
  { clear. unfold items. induction ps as [|p ps [IH1 IH2]]; [done|]. cbn in *. by rewrite IH1, IH2. }
  destruct (wp_run _ _ _ (stream_run items w Hconn Hok)) as ([] & w' & Hr & Hsent).
  rewrite E1 in Hr. exists w'. split; [done|]. intros Hp. rewrite Hsent, Hs in Hp. cbn [app] in Hp. rewrite E2 in Hp.
  assert (wp (listen (length ps)) (λ _ b', concat (msg_data <$> can_sent b') = concat ps) b) as Hw.
  { eapply wp_listen; [done | done | |].
    - eapply Forall_impl; [|exact HF]. intros p (_ & ? & _). lia.
    - intros b' _ ->. rewrite Hc. apply bridged_data.
      eapply Forall_impl; [|exact HF]. intros p (? & ? & _). split; [lia | done]. }
  apply wp_run in Hw as ([] & b' & Hr' & Hd). eauto.
Qed.

Lemma spi_to_can_witness :
  ∃ w', (stm32f2xx_spi_reset;; write_all (concat ((λ p, frame_bytes p 0x0A) <$> [[1; 2; 3]; seqZ 0 16]))) spi_blank
          = Some (tt, w') ∧
    (pending (br_env (bridge_on (concat ((λ p, frame_bytes p 0x0A) <$> [[1; 2; 3]; seqZ 0 16])))) = concat (spi_sent w') →
     ∃ b', listen 2 (bridge_on (concat ((λ p, frame_bytes p 0x0A) <$> [[1; 2; 3]; seqZ 0 16]))) = Some (tt, b') ∧
       concat (msg_data <$> can_sent b') = [1; 2; 3] ++ seqZ 0 16).
Proof.
  apply (spi_to_can [[1; 2; 3]; seqZ 0 16] spi_blank); try done.
  constructor; [split_and!; [by left | done | done | repeat constructor; done]|].
  constructor; [split_and!; [by right | done | done | repeat constructor; done]|]. constructor.
Defined.
