(* ===== verification/XlConsole.v ===== *)
(** * The program around the bridge (source_XL-Driver/src/xlSPICAN.c)

    main opens the Vector driver, selects the CAN channels, starts a receive thread and then
    listens to the socket (file Bridge); when the socket cannot be connected it reads commands
    from the keyboard instead.  A burst of messages is sent by a thread of its own.  The driver,
    the thread functions of Windows and the socket are the class [XlApi]; every call to the
    driver is recorded.  Printing (demoHelp, demoPrintConfig) has no effect and is left out. *)

From S2P Require Import Prelude.
From stdpp Require Import base list numbers option relations.

#[local] Open Scope Z_scope.

(** ** Constants (include/vxlapi.h) *)

Definition ST_SUCCESS : Z := 0.
Definition ST_QUEUE_IS_EMPTY : Z := 10.
Definition ST_ERROR : Z := 255.
Definition XL_INVALID_PORTHANDLE : Z := -1.
Definition XL_HWTYPE_VIRTUAL : Z := 1.
Definition XL_BUS_ACTIVE_CAP_CAN : Z := 65536.
Definition XL_CHANNEL_FLAG_CANFD_BOSCH_SUPPORT : Z := 536870912.
Definition XL_CHANNEL_FLAG_CANFD_ISO_SUPPORT : Z := 2147483648.
Definition XL_CONFIG_MAX_CHANNELS : Z := 64.
Definition XL_CAN_EXT_MSG_ID : Z := 2147483648.
Definition XL_CAN_MSG_FLAG_REMOTE_FRAME : Z := 16.
Definition XL_CAN_TXMSG_FLAG_EDL : Z := 1.
Definition XL_CAN_TXMSG_FLAG_BRS : Z := 2.
Definition XL_CAN_TXMSG_FLAG_RTR : Z := 16.
Definition XL_CAN_MAX_DATA_LEN : nat := 64.
Definition XL_MAX_APPNAME : Z := 32.
Definition XL_OUTPUT_MODE_SILENT : Z := 0.
Definition XL_OUTPUT_MODE_NORMAL : Z := 1.
Definition RX_QUEUE_SIZE : Z := 4096.
Definition RX_QUEUE_SIZE_FD : Z := 16384.

(** ** Data *)

(** The fields of a channel that the program reads. *)
Record XLchannelConfig := mkChannel {
  hwType : Z; channelIndex : Z; channelMask : Z; channelCapabilities : Z; channelBusCapabilities : Z
}.
(** A message with identifier, flags, length code and data. *)
Record XlMessage := mkXlMsg { xm_id : Z; xm_flags : Z; xm_dlc : Z; xm_data : list Z }.
Record XLcanFdConf := mkFdConf {
  arbitrationBitRate : Z; sjwAbr : Z; tseg1Abr : Z; tseg2Abr : Z;
  dataBitRate : Z; sjwDbr : Z; tseg1Dbr : Z; tseg2Dbr : Z; fd_options : Z
}.
Inductive XlThread := THREAD_RX | THREAD_RXCANFD | THREAD_TX.

(** The calls to the driver. *)
Inductive XlCall :=
| XlOpenDriver | XlGetDriverConfig | XlCloseDriver | XlClosePort
| XlOpenPort (app : list Z) (mask queue : Z) (v4 : bool)
| XlFdSetConfiguration (mask : Z) (conf : XLcanFdConf)
| XlSetChannelBitrate (mask rate : Z)
| XlSetNotification | XlCreateThread (t : XlThread)
| XlActivateChannel (mask : Z) | XlDeactivateChannel (mask : Z)
| XlSetChannelOutput (mask mode : Z)
| XlTransmit (mask : Z) (m : XlMessage) | XlTransmitEx (mask : Z) (m : XlMessage)
| XlRequestChipState (mask : Z) | XlSetTimerRate (rate : Z) | XlResetClock | XlGenerateSyncPulse (mask : Z)
| XlReceive (fd : bool) | XlShow.

Class XlApi (Y : Type) := {
  ENABLE_CAN_FD_MODE_NO_ISO : bool;
  xl_status : XlCall → Y → Z * Y;
  (** status, channelCount and the array of channels *)
  xlGetDriverConfig : Y → Z * (Z * list XLchannelConfig) * Y;
  (** status, port handle and permission mask *)
  xlOpenPort : list Z → Z → Z → bool → Y → Z * Z * Z * Y;
  (** whether a handle was given *)
  CreateThread : XlThread → Y → bool * Y;
  (** whether listen_uart gets as far as its loop, which it does not leave *)
  socket_connects : Y → bool * Y
}.

(** A transmit thread: created, in its loop with the event it sends and the last status, ended. *)
Inductive TxThreadState := TxCreated | TxLoop (m : XlMessage) (xlStatus : Z) | TxEnded.

Record Hw := mkHw {
  g_xlPortHandle : Z; channelCount : Z; channel : list XLchannelConfig;
  g_xlChannelMask : Z; g_xlPermissionMask : Z; g_fd : bool
}.
Record Opts := mkOpts { g_AppName : list Z; g_BaudRate : Z; g_silent : bool; g_TimerRate : Z }.
Record Burst := mkBurst {
  g_hTXThread : bool; g_TXThreadRun : bool; g_TXThreadCanId : Z; g_TXThreadTxMask : Z; tx_threads : list TxThreadState
}.
(** The variables of main, and the counter of demoTransmit. *)
Record MainVars := mkMain {
  xlChanMaskTx : Z; xlChanIndex : Z; txID : Z; outputMode : Z; activated : bool; stop : bool; xlStatus : Z; cnt : Z
}.
Record XlWorld (Y : Type) := mkXl { hw : Hw; opts : Opts; burst : Burst; mn : MainVars; xl_up : Y; calls : list XlCall }.
Arguments mkXl {Y} _ _ _ _ _ _.
Arguments hw {Y} _.
Arguments opts {Y} _.
Arguments burst {Y} _.
Arguments mn {Y} _.
Arguments xl_up {Y} _.
Arguments calls {Y} _.

Definition set_port (p : Z) (h : Hw) : Hw := mkHw p (channelCount h) (channel h) (g_xlChannelMask h) (g_xlPermissionMask h) (g_fd h).
Definition set_drvconfig (n : Z) (l : list XLchannelConfig) (h : Hw) : Hw := mkHw (g_xlPortHandle h) n l (g_xlChannelMask h) (g_xlPermissionMask h) (g_fd h).
Definition set_chanmask (m : Z) (h : Hw) : Hw := mkHw (g_xlPortHandle h) (channelCount h) (channel h) m (g_xlPermissionMask h) (g_fd h).
Definition set_permission (m : Z) (h : Hw) : Hw := mkHw (g_xlPortHandle h) (channelCount h) (channel h) (g_xlChannelMask h) m (g_fd h).
Definition set_fd (h : Hw) : Hw := mkHw (g_xlPortHandle h) (channelCount h) (channel h) (g_xlChannelMask h) (g_xlPermissionMask h) true.
Definition set_txchannel (m i : Z) (v : MainVars) : MainVars := mkMain m i (txID v) (outputMode v) (activated v) (stop v) (xlStatus v) (cnt v).
Definition set_txid (x : Z) (v : MainVars) : MainVars := mkMain (xlChanMaskTx v) (xlChanIndex v) x (outputMode v) (activated v) (stop v) (xlStatus v) (cnt v).
Definition set_output (x : Z) (v : MainVars) : MainVars := mkMain (xlChanMaskTx v) (xlChanIndex v) (txID v) x (activated v) (stop v) (xlStatus v) (cnt v).
Definition set_activated (b : bool) (v : MainVars) : MainVars := mkMain (xlChanMaskTx v) (xlChanIndex v) (txID v) (outputMode v) b (stop v) (xlStatus v) (cnt v).
Definition set_stop (v : MainVars) : MainVars := mkMain (xlChanMaskTx v) (xlChanIndex v) (txID v) (outputMode v) (activated v) true (xlStatus v) (cnt v).
Definition set_status (s : Z) (v : MainVars) : MainVars := mkMain (xlChanMaskTx v) (xlChanIndex v) (txID v) (outputMode v) (activated v) (stop v) s (cnt v).
Definition set_cnt (c : Z) (v : MainVars) : MainVars := mkMain (xlChanMaskTx v) (xlChanIndex v) (txID v) (outputMode v) (activated v) (stop v) (xlStatus v) c.

(** [data[i] = i - 1] for the indices from 1 on; index 0 is [b]. *)
Definition counting_data (b : Z) : list Z := b :: (Z.of_nat <$> seq 0 (XL_CAN_MAX_DATA_LEN - 1)).

(** ** Command line *)

Definition is_space (c : Z) : bool := (c =? 32) || ((9 <=? c) && (c <=? 13)).
Definition digit (base c : Z) : option Z :=
  let d := if (48 <=? c) && (c <=? 57) then c - 48
           else if (97 <=? c) && (c <=? 102) then c - 87
           else if (65 <=? c) && (c <=? 70) then c - 55 else base in
  if d <? base then Some d else None.
(** Leading digits: their value and whether there was any. *)
Fixpoint digits (base : Z) (s : list Z) (v : Z) (any : bool) : Z * bool :=
  match s with
  | c :: s => match digit base c with Some d => digits base s (v * base + d) true | None => (v, any) end
  | [] => (v, any)
  end.
Fixpoint skip_space (s : list Z) : list Z :=
  match s with c :: s' => if is_space c then skip_space s' else s | [] => [] end.
Definition sign (s : list Z) : bool * list Z :=
  match s with 45 :: s' => (true, s') | 43 :: s' => (false, s') | _ => (false, s) end.
(** [atoi]; no result for a value that is not an int. *)
Definition atoi (s : list Z) : option Z :=
  let '(neg, s) := sign (skip_space s) in
  let v := fst (digits 10 s 0 false) in
  let v := if neg then - v else v in
  if (-2147483648 <=? v) && (v <=? 2147483647) then Some v else None.
(** The conversion [%x] of sscanf: [Some None] when nothing matches. *)
Definition scan_hex (s : list Z) : option (option Z) :=
  let '(neg, s) := sign (skip_space s) in
  let s := match s with 48 :: x :: d :: s' => if ((x =? 120) || (x =? 88)) && bool_decide (is_Some (digit 16 d)) then d :: s' else s | _ => s end in
  let '(v, any) := digits 16 s 0 false in
  if negb any then Some None
  else if v <? 4294967296 then Some (Some (u32 (if neg then - v else v))) else None.

Section XlConsole.
Context {Y : Type} `{HY : XlApi Y}.
Abbreviation W := (XlWorld Y).

(** ** Access to the state *)

Definition set_hw (f : Hw → Hw) : M W unit := modify (λ w, mkXl (f (hw w)) (opts w) (burst w) (mn w) (xl_up w) (calls w)).
Definition set_opts (f : Opts → Opts) : M W unit := modify (λ w, mkXl (hw w) (f (opts w)) (burst w) (mn w) (xl_up w) (calls w)).
Definition set_burst (f : Burst → Burst) : M W unit := modify (λ w, mkXl (hw w) (opts w) (f (burst w)) (mn w) (xl_up w) (calls w)).
Definition set_mn (f : MainVars → MainVars) : M W unit := modify (λ w, mkXl (hw w) (opts w) (burst w) (f (mn w)) (xl_up w) (calls w)).
(** A function of the outside world, whose call is recorded. *)
Definition xl_call {R} (c : XlCall) (f : Y → R * Y) : M W R :=
  y ← gets xl_up;
  let '(r, y') := f y in
  modify (λ w, mkXl (hw w) (opts w) (burst w) (mn w) y' (calls w ++ [c]));;
  mret r.
Definition xl_do (c : XlCall) : M W Z := xl_call c (xl_status c).

(** ** Messages *)

Definition demoTransmit (txID xlChanMaskTx : Z) : M W Z :=
  h ← gets hw;
  if g_fd h then
    v ← gets mn;
    fl ← lift (aget [0; XL_CAN_TXMSG_FLAG_EDL; Z.lor XL_CAN_TXMSG_FLAG_EDL XL_CAN_TXMSG_FLAG_BRS] (cnt v mod 3));
    let dlc := if negb (Z.land fl XL_CAN_TXMSG_FLAG_EDL =? 0) then 15 else 8 in
    (if 2147483647 <=? cnt v then ub else mret tt);;
    set_mn (set_cnt (cnt v + 1));;
    xl_do (XlTransmitEx xlChanMaskTx (mkXlMsg txID fl dlc (counting_data (u8 (cnt v + 1)))))
  else xl_do (XlTransmit xlChanMaskTx (mkXlMsg txID 0 8 [1; 2; 3; 4; 5; 6; 7; 8])).

Definition demoTransmitRemote (txID xlChanMaskTx : Z) : M W Z :=
  h ← gets hw;
  (if g_fd h then xl_do (XlTransmitEx xlChanMaskTx (mkXlMsg txID XL_CAN_TXMSG_FLAG_RTR 8 (replicate XL_CAN_MAX_DATA_LEN 0)))
   else xl_do (XlTransmit xlChanMaskTx (mkXlMsg txID XL_CAN_MSG_FLAG_REMOTE_FRAME 8 (replicate 8 0))));;
  mret ST_SUCCESS.

(** The wait of 10 ms is not known to end with the end of the thread. *)
Definition demoStopTransmitBurst : M W unit :=
  b ← gets burst;
  when (g_hTXThread b) (set_burst (λ b, mkBurst false false (g_TXThreadCanId b) (g_TXThreadTxMask b) (tx_threads b))).

Definition demoTransmitBurst (txID xlChanMaskTx : Z) : M W unit :=
  demoStopTransmitBurst;;
  set_burst (λ b, mkBurst (g_hTXThread b) true txID xlChanMaskTx (tx_threads b));;
  ok ← xl_call (XlCreateThread THREAD_TX) (CreateThread THREAD_TX);
  set_burst (λ b, mkBurst ok (g_TXThreadRun b) (g_TXThreadCanId b) (g_TXThreadTxMask b) (tx_threads b ++ (if ok then [TxCreated] else []))).

(** One step of a transmit thread: up to its loop, one turn of the loop, or the end. *)
Definition TxThread (i : nat) : M W unit :=
  b ← gets burst;
  h ← gets hw;
  t ← lift (tx_threads b !! i);
  let put b t := set_burst (λ b', mkBurst (g_hTXThread b') b (g_TXThreadCanId b') (g_TXThreadTxMask b') (<[i := t]> (tx_threads b'))) in
  match t with
  | TxCreated =>
      put (g_TXThreadRun b)
        (TxLoop (if g_fd h then mkXlMsg (g_TXThreadCanId b) (Z.lor XL_CAN_TXMSG_FLAG_EDL XL_CAN_TXMSG_FLAG_BRS) 15 (counting_data 0)
                 else mkXlMsg (g_TXThreadCanId b) 0 8 [1; 2; 3; 4; 5; 6; 7; 8]) ST_SUCCESS)
  | TxLoop m st =>
      if g_TXThreadRun b && (st =? ST_SUCCESS) then
        d0 ← lift (aget (xm_data m) 0);
        d ← lift (aset (xm_data m) 0 (u8 (d0 + 1)));
        let m' := mkXlMsg (xm_id m) (xm_flags m) (xm_dlc m) d in
        st' ← xl_do (if g_fd h then XlTransmitEx (g_TXThreadTxMask b) m' else XlTransmit (g_TXThreadTxMask b) m');
        put (g_TXThreadRun b) (TxLoop m' st')
      else put false TxEnded
  | TxEnded => mret tt
  end.

(** ** Receive threads: one turn after the wait; [fuel] bounds the messages in the queue *)

Fixpoint RxThread (fuel : nat) : M W unit :=
  match fuel with
  | O => ub
  | S fuel =>
      st ← xl_do (XlReceive false);
      o ← gets opts;
      when (negb (st =? ST_QUEUE_IS_EMPTY) && negb (g_silent o)) (xl_do XlShow;; mret tt);;
      if st =? ST_SUCCESS then RxThread fuel else mret tt
  end.
Fixpoint RxCanFdThread (fuel : nat) : M W unit :=
  match fuel with
  | O => ub
  | S fuel =>
      st ← xl_do (XlReceive true);
      if st =? ST_QUEUE_IS_EMPTY then mret tt
      else
        o ← gets opts;
        when (negb (g_silent o)) (xl_do XlShow;; mret tt);;
        if st =? ST_SUCCESS then RxCanFdThread fuel else mret tt
  end.

(** ** Channels *)

Definition demoStartStop (act : bool) : M W Z :=
  h ← gets hw;
  (if act then xl_do (XlActivateChannel (g_xlChannelMask h))
   else demoStopTransmitBurst;; xl_do (XlDeactivateChannel (g_xlChannelMask h)));;
  mret ST_SUCCESS.

Definition demoSetOutput (mode xlChanMaskTx : Z) : M W Z :=
  h ← gets hw;
  xl_do (XlDeactivateChannel (g_xlChannelMask h));;
  xl_do (XlSetChannelOutput xlChanMaskTx mode);;
  xl_do (XlActivateChannel (g_xlChannelMask h)).

Definition demoCreateRxThread : M W Z :=
  h ← gets hw;
  if negb (g_xlPortHandle h =? XL_INVALID_PORTHANDLE) then
    st ← xl_do XlSetNotification;
    let t := if g_fd h then THREAD_RXCANFD else THREAD_RX in
    xl_call (XlCreateThread t) (CreateThread t);;
    mret st
  else mret ST_ERROR.

(** ** Start and end of the driver *)

Definition can_capable (c : XLchannelConfig) : bool := negb (Z.land (channelBusCapabilities c) XL_BUS_ACTIVE_CAP_CAN =? 0).
Definition fd_capable (c : XLchannelConfig) : bool :=
  negb (Z.land (channelCapabilities c) XL_CHANNEL_FLAG_CANFD_ISO_SUPPORT =? 0) && negb (hwType c =? XL_HWTYPE_VIRTUAL).
Definition noiso_capable (c : XLchannelConfig) : bool := negb (Z.land (channelCapabilities c) XL_CHANNEL_FLAG_CANFD_BOSCH_SUPPORT =? 0).

(** The loop over the channels, with the two masks that are local to the function. *)
Fixpoint select_channels (n : nat) (i xlChannelMaskFd xlChannelMaskFdNoIso : Z) : M W (Z * Z) :=
  match n with
  | O => mret (xlChannelMaskFd, xlChannelMaskFdNoIso)
  | S n =>
      h ← gets hw;
      c ← lift (aget (channel h) i);
      if can_capable c then
        v ← gets mn;
        when (xlChanMaskTx v =? 0) (set_mn (set_txchannel (channelMask c) (channelIndex c)));;
        if fd_capable c then
          select_channels n (i + 1) (Z.lor xlChannelMaskFd (channelMask c))
            (if noiso_capable c then Z.lor xlChannelMaskFdNoIso (channelMask c) else xlChannelMaskFdNoIso)
        else
          set_hw (set_chanmask (Z.lor (g_xlChannelMask h) (channelMask c)));;
          select_channels n (i + 1) xlChannelMaskFd xlChannelMaskFdNoIso
      else select_channels n (i + 1) xlChannelMaskFd xlChannelMaskFdNoIso
  end.

(** From the hardware configuration to the mask of the port. *)
Definition choose_mask : M W Z :=
  set_hw (set_chanmask 0);;
  h ← gets hw;
  fm ← select_channels (Z.to_nat (channelCount h)) 0 0 0;
  when (negb (fm.1 =? 0) && negb ENABLE_CAN_FD_MODE_NO_ISO) (set_hw (λ h, set_fd (set_chanmask fm.1 h)));;
  when (negb (fm.2 =? 0) && ENABLE_CAN_FD_MODE_NO_ISO) (set_hw (λ h, set_fd (set_chanmask fm.2 h)));;
  h ← gets hw;
  mret (if g_xlChannelMask h =? 0 then ST_ERROR else ST_SUCCESS).

Definition open_port : M W Z :=
  h ← gets hw;
  o ← gets opts;
  let q := if g_fd h then RX_QUEUE_SIZE_FD else RX_QUEUE_SIZE in
  r ← xl_call (XlOpenPort (g_AppName o) (g_xlChannelMask h) q (g_fd h))
        (λ y, let '(st, p, m, y') := xlOpenPort (g_AppName o) (g_xlChannelMask h) q (g_fd h) y in ((st, p, m), y'));
  let '(st, p, m) := r in
  set_hw (λ h, set_permission m (set_port p h));;
  mret st.

Definition set_bus_parameters : M W Z :=
  h ← gets hw;
  o ← gets opts;
  if g_fd h then
    xl_do (XlFdSetConfiguration (g_xlChannelMask h) (mkFdConf 1000000 2 6 3 2000000 2 6 3 (if ENABLE_CAN_FD_MODE_NO_ISO then 8 else 0)))
  else xl_do (XlSetChannelBitrate (g_xlChannelMask h) (g_BaudRate o)).

Definition demoInitDriver : M W Z :=
  st ← xl_do XlOpenDriver;
  st ← (if st =? ST_SUCCESS then
          r ← xl_call XlGetDriverConfig xlGetDriverConfig;
          let '(st, (n, l)) := r in
          set_hw (set_drvconfig n l);;
          mret st
        else mret st);
  st ← (if st =? ST_SUCCESS then choose_mask else mret st);
  set_hw (λ h, set_permission (g_xlChannelMask h) h);;
  st ← (if st =? ST_SUCCESS then open_port else mret st);
  h ← gets hw;
  if (st =? ST_SUCCESS) && negb (g_xlPortHandle h =? XL_INVALID_PORTHANDLE) then
    if g_xlChannelMask h =? g_xlPermissionMask h then set_bus_parameters else mret st
  else
    xl_do XlClosePort;;
    set_hw (set_port XL_INVALID_PORTHANDLE);;
    mret ST_ERROR.

Definition demoCleanUp : M W Z :=
  h ← gets hw;
  when (negb (g_xlPortHandle h =? XL_INVALID_PORTHANDLE)) (xl_do XlClosePort;; mret tt);;
  set_hw (set_port XL_INVALID_PORTHANDLE);;
  xl_do XlCloseDriver;;
  mret ST_SUCCESS.

(** ** main *)

Definition main_id (argv : list (list Z)) : M W unit :=
  match argv with
  | a :: _ => r ← lift (scan_hex a); match r with Some x => set_mn (set_txid x) | None => mret tt end
  | [] => mret tt
  end.
(** strncpy_s refuses a name that does not fit. *)
Definition main_appname (argv : list (list Z)) : M W unit :=
  match argv with
  | a :: argv =>
      (if lenZ a <? XL_MAX_APPNAME then set_opts (λ o, mkOpts a (g_BaudRate o) (g_silent o) (g_TimerRate o)) else ub);;
      main_id argv
  | [] => mret tt
  end.
(** The arguments behind the program name. *)
Definition main_args (argv : list (list Z)) : M W unit :=
  match argv with
  | a :: argv' =>
      v ← lift (atoi a);
      set_opts (λ o, mkOpts (g_AppName o) (u32 v) (g_silent o) (g_TimerRate o));;
      main_appname (if negb (u32 v =? 0) then argv' else argv)
  | [] => mret tt
  end.

(** Up to listen_uart; whether that stays in its loop. *)
Definition main_start (argv : list (list Z)) : M W bool :=
  main_args argv;;
  st ← demoInitDriver;
  st ← (if st =? ST_SUCCESS then demoCreateRxThread else mret st);
  h ← gets hw;
  st ← (if st =? ST_SUCCESS then
          st ← xl_do (XlActivateChannel (g_xlChannelMask h));
          when (st =? ST_SUCCESS) (set_mn (set_activated true));;
          mret st
        else mret st);
  set_mn (set_status st);;
  y ← gets xl_up;
  let '(connected, y') := socket_connects y in
  modify (λ w, mkXl (hw w) (opts w) (burst w) (mn w) y' (calls w));;
  mret connected.

(** The transmit channel becomes the one with the given index in the array. *)
Definition select_channel (i : Z) : M W unit :=
  h ← gets hw;
  c ← lift (aget (channel h) i);
  set_mn (set_txchannel (channelMask c) i).

(** A key, by its character code. *)
Definition key_command (c : Z) : M W unit :=
  h ← gets hw;
  o ← gets opts;
  v ← gets mn;
  match c with
  | 118 (* v *) => set_opts (λ o, mkOpts (g_AppName o) (g_BaudRate o) (negb (g_silent o)) (g_TimerRate o))
  | 116 (* t *) => demoTransmit (txID v) (xlChanMaskTx v);; mret tt
  | 98 (* b *) =>
      b ← gets burst;
      if g_TXThreadRun b then demoStopTransmitBurst else demoTransmitBurst (txID v) (xlChanMaskTx v)
  | 109 (* m *) => demoTransmitRemote (txID v) (xlChanMaskTx v);; mret tt
  | 45 (* - *) => select_channel (u32 ((if xlChanIndex v =? 0 then channelCount h else xlChanIndex v) - 1))
  | 43 (* + *) => select_channel (let i := u32 (xlChanIndex v + 1) in if channelCount h <=? i then 0 else i)
  | 120 (* x *) => set_mn (set_txid (Z.lxor (txID v) XL_CAN_EXT_MSG_ID))
  | 73 (* I *) =>
      set_mn (set_txid (if negb (Z.land (txID v) XL_CAN_EXT_MSG_ID =? 0) then Z.lor (u32 (txID v - 1)) XL_CAN_EXT_MSG_ID
                        else if txID v =? 0 then 2047 else u32 (txID v - 1)))
  | 105 (* i *) =>
      set_mn (set_txid (if negb (Z.land (txID v) XL_CAN_EXT_MSG_ID =? 0) then Z.lor (u32 (txID v + 1)) XL_CAN_EXT_MSG_ID
                        else if txID v =? 2047 then 0 else u32 (txID v + 1)))
  | 103 (* g *) => st ← xl_do (XlRequestChipState (g_xlChannelMask h)); set_mn (set_status st)
  | 97 (* a *) =>
      let rate := if negb (g_TimerRate o =? 0) then 0 else 20000 in
      set_opts (λ o, mkOpts (g_AppName o) (g_BaudRate o) (g_silent o) rate);;
      st ← xl_do (XlSetTimerRate rate);
      set_mn (set_status st)
  | 111 (* o *) =>
      let mode := if outputMode v =? XL_OUTPUT_MODE_NORMAL then XL_OUTPUT_MODE_SILENT else XL_OUTPUT_MODE_NORMAL in
      set_mn (set_output mode);;
      demoSetOutput mode (xlChanMaskTx v);;
      mret tt
  | 114 (* r *) => st ← xl_do XlResetClock; set_mn (set_status st)
  | 115 (* s *) => set_mn (set_activated (negb (activated v)));; demoStartStop (negb (activated v));; mret tt
  | 121 (* y *) => st ← xl_do (XlGenerateSyncPulse (xlChanMaskTx v)); set_mn (set_status st)
  | 27 (* escape *) => set_mn set_stop
  | _ => mret tt
  end.

Definition main_end : M W unit :=
  h ← gets hw;
  v ← gets mn;
  when (negb (xlStatus v =? ST_SUCCESS) && activated v)
    (st ← xl_do (XlDeactivateChannel (g_xlChannelMask h)); set_mn (set_status st));;
  demoCleanUp;;
  mret tt.

(** The keyboard, the threads and the rest of the world in any order. *)
Inductive xl_step : W → W → Prop :=
| xs_key c w w' : stop (mn w) = false → key_command c w = Some (tt, w') → xl_step w w'
| xs_tx i w w' : TxThread i w = Some (tt, w') → xl_step w w'
| xs_rx fuel w w' : RxThread fuel w = Some (tt, w') → xl_step w w'
| xs_rxfd fuel w w' : RxCanFdThread fuel w = Some (tt, w') → xl_step w w'
| xs_world y w : xl_step w (mkXl (hw w) (opts w) (burst w) (mn w) y (calls w)).
End XlConsole.

(** ** The channels that are opened *)

Definition mask_of (l : list XLchannelConfig) : Z := foldl (λ m c, Z.lor m (channelMask c)) 0 l.
(** All CAN FD channels if there are any (of those that can do without ISO, if that is wanted),
    otherwise all other CAN channels. *)
Definition selected_fd (noiso : bool) (l : list XLchannelConfig) : list XLchannelConfig :=
  List.filter (λ c, can_capable c && fd_capable c && (negb noiso || noiso_capable c)) l.
Definition selected_mask (noiso : bool) (l : list XLchannelConfig) : Z :=
  if mask_of (selected_fd noiso l) =? 0 then mask_of (List.filter (λ c, can_capable c && negb (fd_capable c)) l) else mask_of (selected_fd noiso l).
(** The first CAN channel is the one to transmit on. *)
Definition first_can (l : list XLchannelConfig) : option XLchannelConfig := head (List.filter can_capable l).

Section selection.
Context {Y : Type} `{HY : XlApi Y}.
Abbreviation W := (XlWorld Y).

Definition select_post (l : list XLchannelConfig) (w : W) (m0 fd ni : Z) (r : Z * Z) (w' : W) : Prop :=
  r.1 = foldl (λ m c, Z.lor m (channelMask c)) fd (List.filter (λ c, can_capable c && fd_capable c) l) ∧
  r.2 = foldl (λ m c, Z.lor m (channelMask c)) ni (List.filter (λ c, can_capable c && fd_capable c && noiso_capable c) l) ∧
  hw w' = set_chanmask (foldl (λ m c, Z.lor m (channelMask c)) m0 (List.filter (λ c, can_capable c && negb (fd_capable c)) l)) (hw w) ∧
  opts w' = opts w ∧ burst w' = burst w ∧ calls w' = calls w ∧ xl_up w' = xl_up w ∧
  mn w' = foldl (λ v c, if xlChanMaskTx v =? 0 then set_txchannel (channelMask c) (channelIndex c) v else v) (mn w) (List.filter can_capable l).

Lemma select_channels_spec l (pre post : list XLchannelConfig) fd ni (w : W) :
  channel (hw w) = pre ++ l ++ post →
  wp (select_channels (length l) (lenZ pre) fd ni) (select_post l w (g_xlChannelMask (hw w)) fd ni) w.
Proof.
  revert pre fd ni w. induction l as [|c l IH]; intros pre fd ni w E; cbn [length select_channels].
  - apply wp_ret. split_and!; try done. by destruct (hw w).
  - wp_step. wp_step. wp_step. eapply wp_lift.
    { rewrite E. unfold aget, lenZ. rewrite decide_True, Nat2Z.id by lia. rewrite lookup_app_r, Nat.sub_diag by lia. reflexivity. }
    assert (lenZ pre + 1 = lenZ (pre ++ [c])) as El by (rewrite lenZ_app; done).
    assert (pre ++ c :: l ++ post = (pre ++ [c]) ++ l ++ post) as Ea by (by rewrite <-(app_assoc pre)).
    unfold select_post. cbn [List.filter]. destruct (can_capable c) eqn:Hc; cbn [andb].
    2: { rewrite El. eapply wp_mono; [apply IH; by rewrite <-Ea|]. intros r w' H. exact H. }
    wp_step. wp_step. wp_step. unfold set_mn, set_hw.
    destruct (fd_capable c) eqn:Hf; cbn [andb negb].
    all: (apply wp_when; intros Ht; [apply wp_modify|]); rewrite El.
    all: try (apply wp_bind, wp_modify).
    all: (eapply wp_mono; [apply (IH (pre ++ [c])); cbn; by rewrite <-Ea|]); intros r w' (H1 & H2 & H3 & H4 & H5 & H6 & H7 & H8).
    all: cbn [hw opts burst mn xl_up calls g_xlChannelMask set_chanmask] in *; split_and!; try done.
    all: try (destruct (noiso_capable c); exact H2).
    all: rewrite H8; cbn [foldl]; rewrite ?Ht; done.
Qed.

(** The driver gives the array of 64 channels and how many of them there are. *)
Context (config_law : ∀ y, 0 ≤ (xlGetDriverConfig y).1.2.1 ≤ XL_CONFIG_MAX_CHANNELS ∧ lenZ (xlGetDriverConfig y).1.2.2 = XL_CONFIG_MAX_CHANNELS).

Definition found (w : W) : list XLchannelConfig := take (Z.to_nat (channelCount (hw w))) (channel (hw w)).
Definition config_wf (w : W) : Prop := 0 ≤ channelCount (hw w) ≤ 64 ∧ lenZ (channel (hw w)) = 64.

Lemma tx_channel_kept v l : xlChanMaskTx v ≠ 0 →
  foldl (λ v c, if xlChanMaskTx v =? 0 then set_txchannel (channelMask c) (channelIndex c) v else v) v l = v.
Proof. intros H. induction l as [|c l IH]; cbn; [done|]. by rewrite (proj2 (Z.eqb_neq _ _) H). Qed.

(** What the selection leaves behind. *)
Definition chosen (w w' : W) : Prop :=
  g_xlChannelMask (hw w') = selected_mask ENABLE_CAN_FD_MODE_NO_ISO (found w') ∧
  g_fd (hw w') = negb (mask_of (selected_fd ENABLE_CAN_FD_MODE_NO_ISO (found w')) =? 0) ∧
  (∀ c, first_can (found w') = Some c → channelMask c ≠ 0 → xlChanMaskTx (mn w') = channelMask c ∧ xlChanIndex (mn w') = channelIndex c).

Lemma wp_choose (w : W) : config_wf w → g_fd (hw w) = false → xlChanMaskTx (mn w) = 0 →
  wp choose_mask (λ r w', config_wf w' ∧ chosen w w' ∧ (r = ST_SUCCESS ↔ g_xlChannelMask (hw w') ≠ 0)) w.
Proof.
  intros [Hn Hl] Hfd Htx. unfold choose_mask, set_hw. wp_step. wp_step. wp_step. wp_step. wp_step. cbn [hw channelCount set_chanmask].
  set (w1 := mkXl _ _ _ _ _ _). set (l := found w).
  assert (channel (hw w1) = [] ++ l ++ drop (Z.to_nat (channelCount (hw w))) (channel (hw w))) as Ec by (cbn; unfold l, found; by rewrite take_drop).
  assert (length l = Z.to_nat (channelCount (hw w))) as El by (unfold l, found; rewrite length_take; unfold lenZ in Hl; lia).
  rewrite <-El. eapply wp_mono; [apply (select_channels_spec l [] _ 0 0 w1 Ec)|]. intros [m1 m2] w2 (H1 & H2 & H3 & H4 & H5 & H6 & H7 & H8). cbn [fst snd hw w1 g_xlChannelMask set_chanmask mn] in *.
  assert (∀ c, first_can l = Some c → channelMask c ≠ 0 → xlChanMaskTx (mn w2) = channelMask c ∧ xlChanIndex (mn w2) = channelIndex c) as Hfirst.
  { intros c Hc Hm. rewrite H8. unfold first_can in Hc. destruct (List.filter can_capable l) as [|c' l'] eqn:E; [done|]. injection Hc as ->. cbn [foldl].
    rewrite Htx. cbn [Z.eqb]. rewrite tx_channel_kept by done. done. }
  assert (mask_of (selected_fd ENABLE_CAN_FD_MODE_NO_ISO l) = if ENABLE_CAN_FD_MODE_NO_ISO then m2 else m1) as Em.
  { unfold selected_fd, mask_of. destruct ENABLE_CAN_FD_MODE_NO_ISO; subst; cbn [negb orb]; [done|]. f_equal. apply List.filter_ext. intros c. by rewrite andb_true_r. }
  assert (mask_of (List.filter (λ c, can_capable c && negb (fd_capable c)) l) = g_xlChannelMask (hw w2)) as Eo by (rewrite H3; done).
  assert (config_wf w2) as Hw2 by (unfold config_wf; rewrite H3; done). assert (found w2 = l) as Ef by (unfold found; rewrite H3; done).
  assert (g_fd (hw w2) = false) as Hfd2 by (by rewrite H3).
  set (m := if ENABLE_CAN_FD_MODE_NO_ISO then m2 else m1) in *.
  assert (wp (when (negb (m1 =? 0) && negb ENABLE_CAN_FD_MODE_NO_ISO) (set_hw (λ h, set_fd (set_chanmask m1 h)));;
              when (negb (m2 =? 0) && ENABLE_CAN_FD_MODE_NO_ISO) (set_hw (λ h, set_fd (set_chanmask m2 h))))
    (λ _ w3, w3 = if m =? 0 then w2 else mkXl (set_fd (set_chanmask m (hw w2))) (opts w2) (burst w2) (mn w2) (xl_up w2) (calls w2)) w2) as Hset.
  { unfold set_hw. subst m. clear Em. destruct ENABLE_CAN_FD_MODE_NO_ISO; cbn [negb]; rewrite ?andb_false_r, ?andb_true_r; apply wp_bind; cbn [when].
    - apply wp_ret. destruct (m2 =? 0); cbn; [apply wp_ret | apply wp_modify]; done.
    - destruct (m1 =? 0); cbn [negb when]; [apply wp_ret | apply wp_modify]; cbn [when]; by apply wp_ret. }
  apply wp_bind_inv in Hset. apply wp_bind. eapply wp_mono; [exact Hset|]. cbv beta. intros _ w3 H. apply wp_bind. eapply wp_mono; [exact H|]. cbv beta. intros _ ? ->. clear Hset H w3.
  apply wp_bind, wp_gets, wp_ret. unfold chosen, selected_mask. destruct (Z.eqb_spec m 0) as [Ez|Ez].
  - rewrite Ef, Em, Ez, Eo. cbn [Z.eqb negb]. split_and!; try done. destruct (Z.eqb_spec (g_xlChannelMask (hw w2)) 0); split; done.
  - unfold found. cbn [hw mn channel channelCount set_fd set_chanmask g_xlChannelMask g_fd]. fold (found w2). rewrite Ef, Em, (proj2 (Z.eqb_neq _ _) Ez). cbn [negb]. split_and!; try done.
Qed.

Lemma wp_xl_call {R} c (f : Y → R * Y) (Q : R → W → Prop) w :
  Q (f (xl_up w)).1 (mkXl (hw w) (opts w) (burst w) (mn w) (f (xl_up w)).2 (calls w ++ [c])) → wp (xl_call c f) Q w.
Proof. intros H. unfold xl_call. apply wp_bind, wp_gets. destruct (f (xl_up w)). by apply wp_bind, wp_modify, wp_ret. Qed.

(** Opening the driver.  The result is success only with an open port; then the port covers all
    CAN FD channels, or all CAN channels if there is none, and the channel to transmit on is the
    first CAN channel.  Without an open port the result is an error. *)
Theorem xl_init_selects (w : W) : config_wf w → g_fd (hw w) = false → xlChanMaskTx (mn w) = 0 →
  wp demoInitDriver (λ r w', config_wf w' ∧
    (g_xlPortHandle (hw w') = XL_INVALID_PORTHANDLE → r = ST_ERROR) ∧
    (r = ST_SUCCESS → g_xlPortHandle (hw w') ≠ XL_INVALID_PORTHANDLE ∧ g_xlChannelMask (hw w') ≠ 0 ∧ chosen w w')) w.
Proof using config_law.
  intros Hw Hfd Htx. unfold demoInitDriver, set_hw. apply wp_bind, wp_xl_call. set (w1 := mkXl _ _ _ _ _ _).
  apply wp_bind. apply wp_mono with (P := λ st w2, config_wf w2 ∧ g_fd (hw w2) = false ∧ xlChanMaskTx (mn w2) = 0).
  { apply wp_if; intros _; [|by apply wp_ret]. apply wp_bind, wp_xl_call. pose proof (config_law (xl_up w1)) as Hc. destruct (xlGetDriverConfig (xl_up w1)) as [[st [n l]] y]. by apply wp_bind, wp_modify, wp_ret. }
  intros st w2 (Hw2 & Hfd2 & Htx2). apply wp_bind.
  apply wp_mono with (P := λ st w3, config_wf w3 ∧ (st = ST_SUCCESS → chosen w w3 ∧ g_xlChannelMask (hw w3) ≠ 0)).
  { apply wp_if; intros E; [|apply wp_ret; split; [done|]; intros ->; done]. eapply wp_mono; [by apply wp_choose|]. intros r w3 (H1 & H2 & H3). split; [done|]. intros Hr. split; [exact H2 | by apply H3]. }
  clear st. intros st w3 (Hw3 & Hs3). apply wp_bind, wp_modify, wp_bind.
  apply wp_mono with (P := λ st w4, config_wf w4 ∧ (st = ST_SUCCESS → chosen w w4 ∧ g_xlChannelMask (hw w4) ≠ 0)).
  { apply wp_if; intros E; [|apply wp_ret; split; [done|]; intros ->; done]. apply Z.eqb_eq in E. destruct (Hs3 E) as [(H1 & H2 & H3) H4].
    unfold open_port, set_hw. apply wp_bind, wp_gets, wp_bind, wp_gets, wp_bind, wp_xl_call. cbn [hw opts xl_up].
    destruct (xlOpenPort _ _ _ _ _) as [[[st4 p] m] y]. cbn [fst snd]. apply wp_bind, wp_modify, wp_ret. split; [exact Hw3|]. intros _. split; [|exact H4]. split; [exact H1|]. split; [exact H2 | exact H3]. }
  clear st Hs3. intros st w4 (Hw4 & Hs4). apply wp_bind, wp_gets, wp_if; intros E.
  - apply andb_true_iff in E as [E1%Z.eqb_eq E2]. apply negb_true_iff, Z.eqb_neq in E2. destruct (Hs4 E1) as [Hc Hm].
    assert (∀ r y c, (λ r (w' : W), config_wf w' ∧ (g_xlPortHandle (hw w') = XL_INVALID_PORTHANDLE → r = ST_ERROR) ∧
      (r = ST_SUCCESS → g_xlPortHandle (hw w') ≠ XL_INVALID_PORTHANDLE ∧ g_xlChannelMask (hw w') ≠ 0 ∧ chosen w w')) r (mkXl (hw w4) (opts w4) (burst w4) (mn w4) y c)) as Hend by (intros r y c; split; [exact Hw4|]; split; done).
    apply wp_if; intros _; [|apply wp_ret; destruct w4; apply Hend].
    unfold set_bus_parameters. apply wp_bind, wp_gets, wp_bind, wp_gets, wp_if; intros _; apply wp_xl_call, Hend.
  - apply wp_bind, wp_xl_call, wp_bind, wp_modify, wp_ret. split; [exact Hw4|]. done.
Qed.
End selection.

(** ** The console *)

Section console.
Context {Y : Type} `{HY : XlApi Y}.
Abbreviation W := (XlWorld Y).

Definition thread_ok (t : TxThreadState) : Prop := match t with TxLoop m _ => xm_data m ≠ [] | _ => True end.
(** The transmit channel is the selected entry of the table. *)
Record console_ok (w : W) : Prop := {
  co_config : config_wf w;
  co_index : 0 ≤ xlChanIndex (mn w) < channelCount (hw w);
  co_mask : channelMask <$> aget (channel (hw w)) (xlChanIndex (mn w)) = Some (xlChanMaskTx (mn w));
  co_cnt : 0 ≤ cnt (mn w);
  co_threads : Forall thread_ok (tx_threads (burst w))
}.
(** Changes that the invariant does not see. *)
Definition same_console (w w' : W) : Prop :=
  hw w' = hw w ∧ xlChanIndex (mn w') = xlChanIndex (mn w) ∧ xlChanMaskTx (mn w') = xlChanMaskTx (mn w) ∧ cnt (mn w) ≤ cnt (mn w') ∧
  (Forall thread_ok (tx_threads (burst w)) → Forall thread_ok (tx_threads (burst w'))).
#[global] Instance same_console_refl : Reflexive same_console.
Proof. intros w. split_and!; try done; lia. Qed.
Lemma same_console_ok w w' : console_ok w → same_console w w' → console_ok w'.
Proof.
  intros [C1 C2 C3 C4 C5] (H1 & H2 & H3 & H4 & H5). split; unfold config_wf; rewrite ?H1, ?H2, ?H3; try done; [lia | by apply H5].
Qed.
Lemma same_xl_call {R} c (f : Y → R * Y) w : wlp (xl_call c f) (λ _ w', same_console w w') w.
Proof. unfold xl_call. apply wlp_bind, wlp_gets. destruct (f (xl_up w)). apply wlp_bind, wlp_modify, wlp_ret. split_and!; try done; cbn; lia. Qed.
Lemma same_xl_trans w1 w2 w3 : same_console w1 w2 → same_console w2 w3 → same_console w1 w3.
Proof. intros (A1 & A2 & A3 & A4 & A5) (B1 & B2 & B3 & B4 & B5). split_and!; try congruence; [lia | tauto]. Qed.

Lemma same_bind {A B} (m : M W A) (k : A → M W B) w :
  wlp m (λ _ w', same_console w w') w → (∀ a w', wlp (k a) (λ _ w'', same_console w' w'') w') → wlp (m ≫= k) (λ _ w', same_console w w') w.
Proof. intros Hm Hk. apply wlp_bind. eapply wlp_mono; [exact Hm|]. cbv beta. intros a w' H. eapply wlp_mono; [apply Hk|]. cbv beta. intros b w'' H'. by eapply same_xl_trans. Qed.
Lemma same_modify (f : W → W) w : same_console w (f w) → wlp (modify f) (λ _ w', same_console w w') w.
Proof. intros H. apply wlp_modify. exact H. Qed.
End console.

(** Runs that leave the selected channel as it is. *)
Ltac same_step :=
  match goal with
  | |- wlp (mbind _ (gets _)) _ _ => apply wlp_bind, wlp_gets
  | |- wlp (mbind _ (lift _)) _ _ => apply wlp_bind, wlp_lift; intros ? ?
  | |- wlp (mbind _ (mret _)) _ _ => apply wlp_bind, wlp_ret
  | |- wlp (mbind _ ub) _ _ => apply wlp_bind, wlp_ub
  | |- wlp (mbind _ (if ?b then _ else _)) _ _ => destruct b
  | |- wlp (mbind _ _) _ _ => apply same_bind; [|intros ? ?]
  | |- wlp (xl_call _ _) _ _ => apply same_xl_call
  | |- wlp (xl_do _) _ _ => apply same_xl_call
  | |- wlp (mret _) _ _ => apply wlp_ret; reflexivity
  | |- wlp ub _ _ => apply wlp_ub
  | |- wlp (when ?b _) _ _ => destruct b; cbn [when]
  | |- wlp (if ?b then _ else _) _ _ => destruct b
  | |- wlp (modify _) _ _ => apply same_modify; split_and!; cbn; try done; try lia
  | |- wlp (set_mn _) _ _ => unfold set_mn
  | |- wlp (set_opts _) _ _ => unfold set_opts
  | |- wlp (set_burst _) _ _ => unfold set_burst
  end; cbv beta zeta.

Section console.
Context {Y : Type} `{HY : XlApi Y}.
Abbreviation W := (XlWorld Y).

Lemma same_stop (w : W) : wlp demoStopTransmitBurst (λ _ w', same_console w w') w.
Proof. unfold demoStopTransmitBurst. repeat same_step. Qed.
Lemma same_transmit id m (w : W) : wlp (demoTransmit id m) (λ _ w', same_console w w') w.
Proof. unfold demoTransmit. repeat same_step. Qed.
Lemma same_burst id m (w : W) : wlp (demoTransmitBurst id m) (λ _ w', same_console w w') w.
Proof.
  unfold demoTransmitBurst. apply same_bind; [apply same_stop|intros _ w1]. repeat same_step.
  intros H. apply Forall_app. split; [done|]. case_match; by repeat constructor.
Qed.
Lemma same_remote id m (w : W) : wlp (demoTransmitRemote id m) (λ _ w', same_console w w') w.
Proof. unfold demoTransmitRemote. repeat same_step. Qed.
Lemma same_output mode m (w : W) : wlp (demoSetOutput mode m) (λ _ w', same_console w w') w.
Proof. unfold demoSetOutput. repeat same_step. Qed.
Lemma same_start_stop b (w : W) : wlp (demoStartStop b) (λ _ w', same_console w w') w.
Proof. unfold demoStartStop. repeat first [apply same_stop | same_step]. Qed.
Lemma same_rx fuel (w : W) : wlp (RxThread fuel) (λ _ w', same_console w w') w.
Proof. revert w. induction fuel as [|fuel IH]; intros w; cbn [RxThread]; repeat first [apply IH | same_step]. Qed.
Lemma same_rxfd fuel (w : W) : wlp (RxCanFdThread fuel) (λ _ w', same_console w w') w.
Proof. revert w. induction fuel as [|fuel IH]; intros w; cbn [RxCanFdThread]; repeat first [apply IH | same_step]. Qed.

(** A transmit thread keeps its event. *)
Lemma same_tx i (w : W) : wlp (TxThread i) (λ _ w', same_console w w') w.
Proof.
  unfold TxThread. apply wlp_bind, wlp_gets, wlp_bind, wlp_gets, wlp_bind, wlp_lift. intros t Ht. cbv zeta. destruct t as [|m st|]; [| |by apply wlp_ret].
  - unfold set_burst. apply same_modify. split_and!; cbn; try done; try lia. intros H. apply Forall_insert; [done|]. by destruct (g_fd _).
  - destruct (_ && _); [|unfold set_burst; apply same_modify; split_and!; cbn; try done; try lia; intros H; by apply Forall_insert].
    apply wlp_bind, wlp_lift. intros d0 H0. apply wlp_bind, wlp_lift. intros d Hd. apply same_bind; [destruct (g_fd _); apply same_xl_call|].
    intros st' w'. unfold set_burst. apply same_modify. split_and!; cbn; try done; try lia. intros H. apply Forall_insert; [done|]. cbn. intros ->.
    apply aset_length in Hd. destruct (xm_data m); done.
Qed.

Lemma select_ok i (w : W) : console_ok w → 0 ≤ i < channelCount (hw w) → wp (select_channel i) (λ _, console_ok) w.
Proof.
  intros [C1 C2 C3 C4 C5] Hi. destruct C1 as [Hn Hl]. destruct (aget_is_Some (channel (hw w)) i) as [c Hc]; [lia|].
  unfold select_channel, set_mn. apply wp_bind, wp_gets, wp_bind. eapply wp_lift; [exact Hc|]. apply wp_modify. split; cbn; try done. by rewrite Hc.
Qed.

Lemma next_index i n : 0 ≤ i < n → n ≤ 64 → 0 ≤ (if n <=? u32 (i + 1) then 0 else u32 (i + 1)) < n.
Proof. intros Hi Hn. rewrite u32_small by lia. destruct (Z.leb_spec n (i + 1)); lia. Qed.
Lemma prev_index i n : 0 ≤ i < n → n ≤ 64 → 0 ≤ u32 ((if i =? 0 then n else i) - 1) < n.
Proof. intros Hi Hn. destruct (Z.eqb_spec i 0); rewrite u32_small by lia; lia. Qed.
Lemma key_keeps c (w : W) : console_ok w → wlp (key_command c) (λ _, console_ok) w.
Proof.
  intros Hw. unfold key_command. apply wlp_bind, wlp_gets, wlp_bind, wlp_gets, wlp_bind, wlp_gets.
  assert (∀ A (m : M W A), wlp m (λ _ w', same_console w w') w → wlp m (λ _, console_ok) w) as Hs by (intros A m H; eapply wlp_mono; [exact H|]; intros ? ?; by apply same_console_ok).
  pose proof (co_index w Hw) as Hi. destruct (co_config w Hw) as [Hn _].
  repeat match goal with |- wlp (match ?x with _ => _ end) _ _ => is_var x; destruct x end; cbv beta zeta.
  all: try (by apply wlp_ret).
  all: first [apply wlp_of_wp, select_ok; [done|] | apply Hs].
  all: try (apply next_index; lia); try (apply prev_index; lia).
  all: repeat first [apply same_transmit | apply same_remote | apply same_stop | apply same_burst | apply same_output | apply same_start_stop | same_step].
Qed.

(** Every function of the console has a result. *)
Lemma def_xl_call {R} c (f : Y → R * Y) w (Q : R → W → Prop) : (∀ r w', Q r w') → wp (xl_call c f) Q w.
Proof. intros H. apply wp_xl_call, H. Qed.
Lemma def_stop (w : W) (Q : unit → W → Prop) : (∀ w', Q tt w') → wp demoStopTransmitBurst Q w.
Proof. intros H. unfold demoStopTransmitBurst, set_burst. apply wp_bind, wp_gets, wp_when; intros _; [apply wp_modify|]; apply H. Qed.
Lemma def_transmit id m (w : W) (Q : Z → W → Prop) : 0 ≤ cnt (mn w) < 2147483647 → (∀ r w', Q r w') → wp (demoTransmit id m) Q w.
Proof.
  intros Hc H. unfold demoTransmit. apply wp_bind, wp_gets, wp_if; intros _; [|by apply def_xl_call]. apply wp_bind, wp_gets, wp_bind.
  destruct (aget_is_Some [0; XL_CAN_TXMSG_FLAG_EDL; Z.lor XL_CAN_TXMSG_FLAG_EDL XL_CAN_TXMSG_FLAG_BRS] (cnt (mn w) mod 3)) as [f Hf]; [unfold lenZ; cbn [length]; pose proof (Z.mod_pos_bound (cnt (mn w)) 3 ltac:(lia)); lia|].
  eapply wp_lift; [exact Hf|]. cbv zeta. apply wp_bind. destruct (Z.leb_spec 2147483647 (cnt (mn w))); [lia|]. apply wp_ret. unfold set_mn. by apply wp_bind, wp_modify, def_xl_call.
Qed.
Lemma key_defined c (w : W) : console_ok w → cnt (mn w) < 2147483647 → wp (key_command c) (λ _ _, True) w.
Proof.
  intros Hw Hc. unfold key_command. apply wp_bind, wp_gets, wp_bind, wp_gets, wp_bind, wp_gets.
  pose proof (co_index w Hw) as Hi. destruct (co_config w Hw) as [Hn _]. pose proof (co_cnt w Hw).
  repeat match goal with |- wp (match ?x with _ => _ end) _ _ => is_var x; destruct x end; cbv beta zeta.
  all: try (by apply wp_ret).
  all: try (eapply wp_mono; [apply select_ok; [done | first [apply next_index; lia | apply prev_index; lia]] | done]).
  all: unfold demoTransmitBurst, demoTransmitRemote, demoSetOutput, demoStartStop, set_mn, set_opts, set_burst, xl_do.
  all: repeat first [done | apply wp_ret | apply def_xl_call; intros ? ? | apply def_transmit; [lia|]; intros ? ? | apply def_stop; intros ? | wp_step]; cbv beta zeta.
Qed.
Lemma tx_defined i (w : W) : console_ok w → (i < length (tx_threads (burst w)))%nat → wp (TxThread i) (λ _ _, True) w.
Proof.
  intros Hw [t Ht]%lookup_lt_is_Some. unfold TxThread, set_burst, xl_do. apply wp_bind, wp_gets, wp_bind, wp_gets, wp_bind. eapply wp_lift; [exact Ht|]. cbv zeta. destruct t as [|m st|]; [by apply wp_modify| |by apply wp_ret].
  apply wp_if; intros _; [|by apply wp_modify]. pose proof (Forall_lookup_1 _ _ _ _ (co_threads w Hw) Ht) as Hm. cbn in Hm. destruct (xm_data m) as [|d0 d]; [done|].
  apply wp_bind. eapply wp_lift; [reflexivity|]. apply wp_bind. eapply wp_lift; [apply aset_is_Some; rewrite lenZ_cons; pose proof (lenZ_nonneg d); lia|]. apply wp_bind, def_xl_call. intros ? ?. by apply wp_modify.
Qed.

(** However keys are pressed and threads run, the index of the selected channel stays in the
    table, the mask that is transmitted on is that of the selected channel, and every further
    key and every turn of a thread has a result, up to 2^31 - 1 messages. *)
Theorem xl_console_safe (w w' : W) : console_ok w → rtc xl_step w w' →
  console_ok w' ∧ (∀ c, cnt (mn w') < 2147483647 → wp (key_command c) (λ _, console_ok) w') ∧
  (∀ i, (i < length (tx_threads (burst w')))%nat → wp (TxThread i) (λ _, console_ok) w').
Proof.
  intros Hw Hr. assert (console_ok w') as Hw'.
  { induction Hr as [w|w w1 w2 Hs _ IH]; [done|]. apply IH. destruct Hs as [c w w1 _ E|i w w1 E|n w w1 E|n w w1 E|y w].
    - exact (wlp_run _ _ _ _ _ (key_keeps c w Hw) E).
    - eapply same_console_ok; [exact Hw | exact (wlp_run _ _ _ _ _ (same_tx i w) E)].
    - eapply same_console_ok; [exact Hw | exact (wlp_run _ _ _ _ _ (same_rx n w) E)].
    - eapply same_console_ok; [exact Hw | exact (wlp_run _ _ _ _ _ (same_rxfd n w) E)].
    - eapply same_console_ok; [exact Hw|]. split_and!; cbn; try done; lia. }
  split; [done|]. split.
  - intros c Hc. eapply wp_mono; [apply (wp_wlp _ _ _ _ (key_defined c w' Hw' Hc) (key_keeps c w' Hw'))|]. intros ? ? [_ H]. exact H.
  - intros i Hi. eapply wp_mono; [apply (wp_wlp _ _ _ _ (tx_defined i w' Hw' Hi) (same_tx i w'))|]. intros ? ? [_ H]. by eapply same_console_ok.
Qed.
End console.

(** ** A computer with a virtual channel and one CAN FD channel *)

Definition demo_channels : list XLchannelConfig :=
  [mkChannel XL_HWTYPE_VIRTUAL 0 1 XL_CHANNEL_FLAG_CANFD_ISO_SUPPORT XL_BUS_ACTIVE_CAP_CAN;
   mkChannel 57 1 2 XL_CHANNEL_FLAG_CANFD_ISO_SUPPORT XL_BUS_ACTIVE_CAP_CAN] ++ replicate 62 (mkChannel 0 0 0 0 0).
#[global] Instance demo_xl : XlApi unit := {|
  ENABLE_CAN_FD_MODE_NO_ISO := false;
  xl_status := λ _ y, (ST_SUCCESS, y);
  xlGetDriverConfig := λ y, (ST_SUCCESS, (2, demo_channels), y);
  xlOpenPort := λ _ mask _ _ y, (ST_SUCCESS, 7, mask, y);
  CreateThread := λ _ y, (true, y);
  socket_connects := λ y, (false, y)
|}.
Definition demo_power_on : XlWorld unit :=
  mkXl (mkHw XL_INVALID_PORTHANDLE 0 (replicate 64 (mkChannel 0 0 0 0 0)) 0 0 false) (mkOpts [] 500000 false 0) (mkBurst false false 0 0 [])
    (mkMain 0 0 1 XL_OUTPUT_MODE_NORMAL false false ST_SUCCESS 0) tt [].
Definition demo_run {A} (m : M (XlWorld unit) A) (w : XlWorld unit) : XlWorld unit := match m w with Some (_, w') => w' | None => w end.
Definition demo_console : XlWorld unit := demo_run (main_start []) demo_power_on.

Lemma demo_console_ok : console_ok demo_console.
Proof. split; [split; [vm_compute; split; discriminate | reflexivity] | vm_compute; split; [discriminate | reflexivity] | reflexivity | vm_compute; discriminate | vm_compute; constructor]. Qed.

(** The port is opened for the CAN FD channel alone, but messages go to the virtual channel,
    which was found first and is not part of the port. *)
Theorem xl_tx_channel_outside_port :
  g_xlPortHandle (hw demo_console) = 7 ∧ xlStatus (mn demo_console) = ST_SUCCESS ∧ g_xlChannelMask (hw demo_console) = 2 ∧
  calls (demo_run (key_command 116) demo_console) = calls demo_console ++ [XlTransmitEx 1 (mkXlMsg 1 0 8 (counting_data 1))].
Proof. vm_compute. done. Qed.

(** The key for a burst, three times, before the first thread has looked at its flag: two
    threads send at the same time. *)
Definition press_b : M (XlWorld unit) unit := key_command 98.
Theorem xl_two_bursts :
  let w := demo_run (press_b;; TxThread 0;; TxThread 0;; press_b;; press_b;; TxThread 1) demo_console in
  calls (demo_run (TxThread 0;; TxThread 1;; TxThread 0) w) =
    calls w ++ [XlTransmitEx 1 (mkXlMsg 1 3 15 (counting_data 2)); XlTransmitEx 1 (mkXlMsg 1 3 15 (counting_data 1)); XlTransmitEx 1 (mkXlMsg 1 3 15 (counting_data 3))].
Proof. vm_compute. done. Qed.

(** A first argument that is no number sets the bit rate to 0. *)
Theorem xl_name_clears_bitrate : g_BaudRate (opts (demo_run (main_args [[97; 112; 112]]) demo_power_on)) = 0.
Proof. reflexivity. Qed.
