(* ===== verification/ElTime.v ===== *)
(** * Elapsed-time timers

    The interface of rbdElTime (rbdElTime_Api.h is not part of the repository), as CanNm.c,
    rbdTxAncStatus.c, rbdImc_Ping.c, rbdImcRte.c and rbUds_Core.c use it: the operations as
    a class, and what the callers rely on as a class of laws over it. *)

From S2P Require Import Prelude.
From stdpp Require Import base list numbers option.

#[local] Open Scope Z_scope.

(** The answers of rbd_ElTime_rbTimerUpdate the callers tell apart. *)
Inductive rbTimerState :=
| RBD_ELTIME_RBTIMER_STATE_RUNNING
| RBD_ELTIME_RBTIMER_STATE_ELAPSED
| RBD_ELTIME_RBTIMER_STATE_STOPPED
| RBD_ELTIME_RBTIMER_STATE_IDLE.

#[global] Instance rbTimerState_eq_dec : EqDecision rbTimerState.
Proof. solve_decision. Defined.

(** A timer of type [T]; the clock is part of the environment [U]. *)
Class ElTime (T U : Type) := {
  rbd_ElTime_rbTimerInit : U → T → T;
  rbd_ElTime_rbTimerStart : U → Z → T → T;
  rbd_ElTime_rbTimerStop : U → T → T;
  rbd_ElTime_rbTimerUpdate : U → T → rbTimerState * T
}.

(** The answer at time [n] of a timer with end [t], or of one that does not run. *)
Definition timer_answer (n : Z) (t : option Z) (stopped : bool) : rbTimerState :=
  match t with
  | None => if stopped then RBD_ELTIME_RBTIMER_STATE_STOPPED else RBD_ELTIME_RBTIMER_STATE_IDLE
  | Some e => if n <? e then RBD_ELTIME_RBTIMER_STATE_RUNNING else RBD_ELTIME_RBTIMER_STATE_ELAPSED
  end.

(** A timer that has been initialised is idle; a started one runs until its time is over
    and is elapsed from then on, however often it is asked; a started one that is stopped
    is neither idle nor running. *)
Class ElTimeLaws (T U : Type) `{ElTime T U} := {
  now : U → Z;
  deadline : T → option Z;
  timer_stopped : T → bool;
  timer_init_off u t : deadline (rbd_ElTime_rbTimerInit u t) = None;
  timer_init_idle u t : timer_stopped (rbd_ElTime_rbTimerInit u t) = false;
  timer_start_on u d t : deadline (rbd_ElTime_rbTimerStart u d t) = Some (now u + d);
  timer_stop_off u t : deadline t ≠ None → deadline (rbd_ElTime_rbTimerStop u t) = None;
  timer_stop_stopped u t : deadline t ≠ None → timer_stopped (rbd_ElTime_rbTimerStop u t) = true;
  timer_update_keeps u t : deadline (snd (rbd_ElTime_rbTimerUpdate u t)) = deadline t;
  timer_update_stopped u t : timer_stopped (snd (rbd_ElTime_rbTimerUpdate u t)) = timer_stopped t;
  timer_update_state u t : fst (rbd_ElTime_rbTimerUpdate u t) = timer_answer (now u) (deadline t) (timer_stopped t)
}.

(** Whether the time of a timer is over. *)
Definition timer_over (n : Z) (t : option Z) : bool := match t with Some e => e <=? n | None => false end.

Lemma answer_elapsed n t b : bool_decide (timer_answer n t b = RBD_ELTIME_RBTIMER_STATE_ELAPSED) = timer_over n t.
Proof.
  destruct t as [e|]; [|by destruct b]. cbn. destruct (Z.ltb_spec n e); [rewrite (proj2 (Z.leb_gt _ _)) | rewrite (proj2 (Z.leb_le _ _))]; done.
Qed.

(** A timer that stores its end, for an environment with clock [clk]. *)
Inductive EndTimer := TimerIdle | TimerStopped | TimerEnds (e : Z).

Definition end_of (t : EndTimer) : option Z := match t with TimerEnds e => Some e | _ => None end.
Definition end_stopped (t : EndTimer) : bool := match t with TimerStopped => true | _ => false end.

Definition timer_of (t : option Z) : EndTimer := match t with Some e => TimerEnds e | None => TimerIdle end.
Lemma end_timer_of t : end_of (timer_of t) = t.
Proof. by destruct t. Qed.

Definition end_timer {U : Type} (clk : U → Z) : ElTime EndTimer U := {|
  rbd_ElTime_rbTimerInit := λ u t, TimerIdle;
  rbd_ElTime_rbTimerStart := λ u d t, TimerEnds (clk u + d);
  rbd_ElTime_rbTimerStop := λ u t, match t with TimerIdle => TimerIdle | _ => TimerStopped end;
  rbd_ElTime_rbTimerUpdate := λ u t, (timer_answer (clk u) (end_of t) (end_stopped t), t)
|}.
Definition end_timer_laws {U : Type} (clk : U → Z) : @ElTimeLaws EndTimer U (end_timer clk).
Proof. refine (@Build_ElTimeLaws _ _ (end_timer clk) clk end_of end_stopped _ _ _ _ _ _ _ _); try done; by intros u []. Defined.
