(* ===== verification/CanNm.v ===== *)
(** * CanNm: CAN network management (CanNm.c, CanNm.h)

    The state machine between bus sleep and normal operation, its three timers and
    the NM message.  The router, the state manager, the power manager, the plant data
    and the calibration are the class [CanNm_Env]; timers come from [ElTime]. *)

From S2P Require Import Prelude ComStack ElTime.
From stdpp Require Import base list numbers option.

#[local] Open Scope Z_scope.

(** ** Types *)

Inductive CanNm_ModeType := NM_MODE_BUS_SLEEP | NM_MODE_PREPARE_BUS_SLEEP | NM_MODE_NETWORK | NM_MODE_MAX_NUMBER.
Inductive CanNm_StateType :=
| NM_STATE_BUS_SLEEP | NM_STATE_PREPARE_BUS_SLEEP | NM_STATE_READY_SLEEP
| NM_STATE_NORMAL_OPERATION | NM_STATE_REPEAT_MESSAGE | NM_STATE_MAX_NUMBER.
Inductive CanNm_AdditionalNetworkStateType := NM_NETWORK_STATE_REQUESTED | NM_NETWORK_STATE_RELEASED.

#[global] Instance CanNm_ModeType_eq_dec : EqDecision CanNm_ModeType.
Proof. solve_decision. Defined.
#[global] Instance CanNm_StateType_eq_dec : EqDecision CanNm_StateType.
Proof. solve_decision. Defined.
#[global] Instance CanNm_AdditionalNetworkStateType_eq_dec : EqDecision CanNm_AdditionalNetworkStateType.
Proof. solve_decision. Defined.

(** The frame: node identifier, control bits (bit-fields from the least significant bit
    on), six unused bytes. *)
Definition CANNM_FRAME_LENGTH : Z := 8.
Definition CANNM_FRAME_MIN_LENGTH : Z := 2.
Definition CANNM_TXMESSAGE_TIMEOUT : Z := 500.
Definition bit_RepeatMessageRequest : Z := 0.
Definition bit_ActiveWakeup : Z := 4.

(** Service and error identifiers of CanNm_Private.h, which is not part of the repository,
    are kept as names. *)
Inductive CanNm_ApiId :=
| CANNM_APIID_PASSIVESTARTUP | CANNM_APIID_NETWORKREQUEST | CANNM_APIID_NETWORKRELEASE
| CANNM_APIID_DISABLECOMMUNICATION | CANNM_APIID_GETSTATE | CANNM_APIID_TXCONFIRMATION
| CANNM_APIID_RXINDICATION | CANNM_APIID_MAINFUNCTION | CANNM_APIID_TRIGGERTRANSMISSION | CANNM_APIID_TIMEOUTHANDLING.
Inductive CanNm_ErrorId :=
| CANNM_E_UNINIT | CANNM_E_PARAM_INVALID | CANNM_E_DATA_INVALID | CANNM_E_RETURN_INVALID | CANNM_E_TIMEOUT.

Inductive CanNm_Event :=
| NmTransmit (id : Z) (data : list Z) (result : Std_ReturnType)
| NmSleepIndication
| NmPwrRequest (id : Z)
| NmPwrRelease (id : Z)
| NmDet (api : CanNm_ApiId) (err : CanNm_ErrorId).

(** ** State and neighbours *)

Record CanNm_Vars (T : Type) := mkNm {
  CanNm_nextState : CanNm_StateType;
  CanNm_Network_State : CanNm_AdditionalNetworkStateType;
  nm_Initialized : bool;
  CanNm_State : CanNm_StateType;
  nm_TxEnabled : bool;
  nm_CanIdx : Z;
  NmTimeoutTimer : T;
  MsgCycleTimer : T;
  MsgTimeoutTimer : T;
  nm_TxId : Z;
  nm_TxLength : Z;
  nm_TxData : list Z;
  CanNm_CanFitted : bool;
  CanNm_PwrReqID : Z;
  CanNm_ImmediateTransmissionCount : Z
}.
Arguments mkNm {T} _ _ _ _ _ _ _ _ _ _ _ _ _ _ _.
Arguments CanNm_nextState {T} _.
Arguments CanNm_Network_State {T} _.
Arguments nm_Initialized {T} _.
Arguments CanNm_State {T} _.
Arguments nm_TxEnabled {T} _.
Arguments nm_CanIdx {T} _.
Arguments NmTimeoutTimer {T} _.
Arguments MsgCycleTimer {T} _.
Arguments MsgTimeoutTimer {T} _.
Arguments nm_TxId {T} _.
Arguments nm_TxLength {T} _.
Arguments nm_TxData {T} _.
Arguments CanNm_CanFitted {T} _.
Arguments CanNm_PwrReqID {T} _.
Arguments CanNm_ImmediateTransmissionCount {T} _.

Section setters.
Context {T : Type}.
Implicit Type v : CanNm_Vars T.
Definition set_nextState x v := mkNm x (CanNm_Network_State v) (nm_Initialized v) (CanNm_State v) (nm_TxEnabled v) (nm_CanIdx v) (NmTimeoutTimer v) (MsgCycleTimer v) (MsgTimeoutTimer v) (nm_TxId v) (nm_TxLength v) (nm_TxData v) (CanNm_CanFitted v) (CanNm_PwrReqID v) (CanNm_ImmediateTransmissionCount v).
Definition set_Network_State x v := mkNm (CanNm_nextState v) x (nm_Initialized v) (CanNm_State v) (nm_TxEnabled v) (nm_CanIdx v) (NmTimeoutTimer v) (MsgCycleTimer v) (MsgTimeoutTimer v) (nm_TxId v) (nm_TxLength v) (nm_TxData v) (CanNm_CanFitted v) (CanNm_PwrReqID v) (CanNm_ImmediateTransmissionCount v).
Definition set_State x v := mkNm (CanNm_nextState v) (CanNm_Network_State v) (nm_Initialized v) x (nm_TxEnabled v) (nm_CanIdx v) (NmTimeoutTimer v) (MsgCycleTimer v) (MsgTimeoutTimer v) (nm_TxId v) (nm_TxLength v) (nm_TxData v) (CanNm_CanFitted v) (CanNm_PwrReqID v) (CanNm_ImmediateTransmissionCount v).
Definition set_TxEnabled x v := mkNm (CanNm_nextState v) (CanNm_Network_State v) (nm_Initialized v) (CanNm_State v) x (nm_CanIdx v) (NmTimeoutTimer v) (MsgCycleTimer v) (MsgTimeoutTimer v) (nm_TxId v) (nm_TxLength v) (nm_TxData v) (CanNm_CanFitted v) (CanNm_PwrReqID v) (CanNm_ImmediateTransmissionCount v).
Definition set_CanIdx x v := mkNm (CanNm_nextState v) (CanNm_Network_State v) (nm_Initialized v) (CanNm_State v) (nm_TxEnabled v) x (NmTimeoutTimer v) (MsgCycleTimer v) (MsgTimeoutTimer v) (nm_TxId v) (nm_TxLength v) (nm_TxData v) (CanNm_CanFitted v) (CanNm_PwrReqID v) (CanNm_ImmediateTransmissionCount v).
Definition set_NmTimeoutTimer x v := mkNm (CanNm_nextState v) (CanNm_Network_State v) (nm_Initialized v) (CanNm_State v) (nm_TxEnabled v) (nm_CanIdx v) x (MsgCycleTimer v) (MsgTimeoutTimer v) (nm_TxId v) (nm_TxLength v) (nm_TxData v) (CanNm_CanFitted v) (CanNm_PwrReqID v) (CanNm_ImmediateTransmissionCount v).
Definition set_MsgCycleTimer x v := mkNm (CanNm_nextState v) (CanNm_Network_State v) (nm_Initialized v) (CanNm_State v) (nm_TxEnabled v) (nm_CanIdx v) (NmTimeoutTimer v) x (MsgTimeoutTimer v) (nm_TxId v) (nm_TxLength v) (nm_TxData v) (CanNm_CanFitted v) (CanNm_PwrReqID v) (CanNm_ImmediateTransmissionCount v).
Definition set_MsgTimeoutTimer x v := mkNm (CanNm_nextState v) (CanNm_Network_State v) (nm_Initialized v) (CanNm_State v) (nm_TxEnabled v) (nm_CanIdx v) (NmTimeoutTimer v) (MsgCycleTimer v) x (nm_TxId v) (nm_TxLength v) (nm_TxData v) (CanNm_CanFitted v) (CanNm_PwrReqID v) (CanNm_ImmediateTransmissionCount v).
Definition set_TxData x v := mkNm (CanNm_nextState v) (CanNm_Network_State v) (nm_Initialized v) (CanNm_State v) (nm_TxEnabled v) (nm_CanIdx v) (NmTimeoutTimer v) (MsgCycleTimer v) (MsgTimeoutTimer v) (nm_TxId v) (nm_TxLength v) x (CanNm_CanFitted v) (CanNm_PwrReqID v) (CanNm_ImmediateTransmissionCount v).
Definition set_ImmCount x v := mkNm (CanNm_nextState v) (CanNm_Network_State v) (nm_Initialized v) (CanNm_State v) (nm_TxEnabled v) (nm_CanIdx v) (NmTimeoutTimer v) (MsgCycleTimer v) (MsgTimeoutTimer v) (nm_TxId v) (nm_TxLength v) (nm_TxData v) (CanNm_CanFitted v) (CanNm_PwrReqID v) x.
End setters.

(** The module, its surroundings, and what they have seen of it. *)
Record NmWorld (T U : Type) := mkNmWorld { nm : CanNm_Vars T; nm_up : U; nm_trace : list CanNm_Event }.
Arguments mkNmWorld {T U} _ _ _.
Arguments nm {T U} _.
Arguments nm_up {T U} _.
Arguments nm_trace {T U} _.

(** The calibration, the tables of CanNm_Cfg.h and the modules around. *)
Class CanNm_Env (U : Type) := {
  PduR_TxPdu_AnchorNm : Z;
  CanNm_NodeId : list Z;
  cp_BB_CanNmMsgReducedTime : list Z;
  cp_BB_APS_CanNmTimeoutTime : Z;
  cp_BB_APS_CanNmWaitBusSleepTime : Z;
  cp_BB_APS_CanNmRepeatMessageTime : Z;
  cp_BB_APS_CanNmMsgCycleTime : Z;
  cp_BB_CanNmImmediateNmCycleTime : Z;
  cp_BB_CanNmImmediateNmTransmissions : Z;
  nm_PduR_Transmit : Z → PduInfoType → U → Std_ReturnType * U;
  CanSm_online : U → bool;
  rbdPlantData_CanLoaded : U → bool;
  rbdPwrReq_GetID : U → Z * U;
  rbdPwrReq_RequestService : Z → U → U;
  rbdPwrReq_ReleaseService : Z → U → U;
  rbdPwrMgmtAnc_SleepIndication : U → U
}.

Section CanNm.
Context {T U : Type} `{HT : ElTime T U} `{HE : CanNm_Env U}.
Abbreviation W := (NmWorld T U).

Definition nm_ev (e : CanNm_Event) : M W unit := modify (λ w, mkNmWorld (nm w) (nm_up w) (nm_trace w ++ [e])).
Definition nm_det (api : CanNm_ApiId) (err : CanNm_ErrorId) : M W unit := nm_ev (NmDet api err).
Definition set_nm (f : CanNm_Vars T → CanNm_Vars T) : M W unit := modify (λ w, mkNmWorld (f (nm w)) (nm_up w) (nm_trace w)).
Definition nm_call {R : Type} (f : U → R * U) : M W R :=
  u ← gets nm_up; let '(r, u') := f u in modify (λ w, mkNmWorld (nm w) u' (nm_trace w));; mret r.
Definition nm_call_ (f : U → U) : M W unit := modify (λ w, mkNmWorld (nm w) (f (nm_up w)) (nm_trace w)).

(** The timers of CanNm_Info. *)
Definition timer_init (get : CanNm_Vars T → T) (put : T → CanNm_Vars T → CanNm_Vars T) : M W unit :=
  u ← gets nm_up; set_nm (λ v, put (rbd_ElTime_rbTimerInit u (get v)) v).
Definition timer_start (get : CanNm_Vars T → T) (put : T → CanNm_Vars T → CanNm_Vars T) (ms : Z) : M W unit :=
  u ← gets nm_up; set_nm (λ v, put (rbd_ElTime_rbTimerStart u ms (get v)) v).
Definition timer_update (get : CanNm_Vars T → T) (put : T → CanNm_Vars T → CanNm_Vars T) : M W rbTimerState :=
  u ← gets nm_up; v ← gets nm;
  let '(s, t) := rbd_ElTime_rbTimerUpdate u (get v) in set_nm (put t);; mret s.

(** Writing a control bit of the frame. *)
Definition put_bit (b : Z) (on : bool) (data : list Z) : option (list Z) :=
  x ← aget data 1; aset data 1 (if on then Z.setbit x b else Z.clearbit x b).
Definition set_tx_bit (b : Z) (on : bool) : M W unit :=
  data ← gets (λ w, nm_TxData (nm w)); data ← lift (put_bit b on data); set_nm (set_TxData data).

(** ** Services *)

Definition CanNm_Init : M W unit :=
  fitted ← gets (λ w, rbdPlantData_CanLoaded (nm_up w));
  data ← gets (λ w, nm_TxData (nm w));
  data ← lift (awrite data 0 (replicate (Z.to_nat CANNM_FRAME_LENGTH) 0));
  set_nm (λ v, mkNm NM_STATE_BUS_SLEEP NM_NETWORK_STATE_RELEASED true NM_STATE_BUS_SLEEP true (nm_CanIdx v)
    (NmTimeoutTimer v) (MsgCycleTimer v) (MsgTimeoutTimer v) PduR_TxPdu_AnchorNm CANNM_FRAME_LENGTH data
    fitted (CanNm_PwrReqID v) (CanNm_ImmediateTransmissionCount v));;
  timer_init NmTimeoutTimer set_NmTimeoutTimer;;
  timer_init MsgCycleTimer set_MsgCycleTimer;;
  timer_init MsgTimeoutTimer set_MsgTimeoutTimer;;
  id ← nm_call rbdPwrReq_GetID;
  set_nm (λ v, mkNm (CanNm_nextState v) (CanNm_Network_State v) (nm_Initialized v) (CanNm_State v) (nm_TxEnabled v) (nm_CanIdx v)
    (NmTimeoutTimer v) (MsgCycleTimer v) (MsgTimeoutTimer v) (nm_TxId v) (nm_TxLength v) (nm_TxData v) (CanNm_CanFitted v) id 0).

Definition CanNm_IsModuleInitialized : M W bool := gets (λ w, nm_Initialized (nm w)).

(** [nmStatePtr], [nmModePtr]: whether the pointers are there.  The state is written after
    the switch also when it is not a state of the machine. *)
Definition CanNm_GetState (nmStatePtr nmModePtr : bool) : M W (Std_ReturnType * option (CanNm_StateType * CanNm_ModeType)) :=
  if negb nmStatePtr || negb nmModePtr then nm_det CANNM_APIID_GETSTATE CANNM_E_PARAM_INVALID;; mret (E_NOT_OK, None)
  else
    s ← gets (λ w, CanNm_State (nm w));
    mret match s with
         | NM_STATE_BUS_SLEEP => (E_OK, Some (s, NM_MODE_BUS_SLEEP))
         | NM_STATE_PREPARE_BUS_SLEEP => (E_OK, Some (s, NM_MODE_PREPARE_BUS_SLEEP))
         | NM_STATE_READY_SLEEP | NM_STATE_NORMAL_OPERATION | NM_STATE_REPEAT_MESSAGE => (E_OK, Some (s, NM_MODE_NETWORK))
         | NM_STATE_MAX_NUMBER => (E_NOT_OK, Some (s, NM_MODE_MAX_NUMBER))
         end.

(** The services that first ask for the state: [body] runs on it. *)
Definition with_state {R : Type} (api err_api : CanNm_ApiId) (fail : R) (body : CanNm_StateType → CanNm_ModeType → M W R) : M W R :=
  init ← CanNm_IsModuleInitialized;
  if negb init then nm_det api CANNM_E_UNINIT;; mret fail
  else
    '(r, sm) ← CanNm_GetState true true;
    if negb (bool_decide (r = E_OK)) then nm_det err_api CANNM_E_PARAM_INVALID;; mret fail
    else '(nmState, nmMode) ← lift sm; body nmState nmMode.

Definition CanNm_PassiveStartUp : M W Std_ReturnType :=
  with_state CANNM_APIID_PASSIVESTARTUP CANNM_APIID_PASSIVESTARTUP E_NOT_OK (λ _ nmMode,
    if bool_decide (nmMode = NM_MODE_BUS_SLEEP) || bool_decide (nmMode = NM_MODE_PREPARE_BUS_SLEEP)
    then set_nm (set_nextState NM_STATE_REPEAT_MESSAGE);; mret E_OK
    else mret E_NOT_OK).

Definition CanNm_NetworkRequest : M W Std_ReturnType :=
  with_state CANNM_APIID_NETWORKREQUEST CANNM_APIID_DISABLECOMMUNICATION E_NOT_OK (λ _ _,
    set_nm (set_Network_State NM_NETWORK_STATE_REQUESTED);; mret E_OK).

Definition CanNm_NetworkRelease : M W Std_ReturnType :=
  with_state CANNM_APIID_NETWORKRELEASE CANNM_APIID_DISABLECOMMUNICATION E_NOT_OK (λ _ _,
    set_nm (set_Network_State NM_NETWORK_STATE_RELEASED);; mret E_OK).

Definition CanNm_TxConfirmation (TxPduId : Z) : M W unit :=
  init ← CanNm_IsModuleInitialized;
  if negb init then nm_det CANNM_APIID_TXCONFIRMATION CANNM_E_UNINIT
  else timer_init MsgTimeoutTimer set_MsgTimeoutTimer.

(** The local copy of a received frame. *)
Definition rx_copy (Info : PduInfoType) : option (list Z) :=
  d ← SduDataPtr Info;
  if CANNM_FRAME_LENGTH <=? SduLength Info then aslice d 0 CANNM_FRAME_LENGTH
  else d' ← aslice d 0 (SduLength Info); awrite (replicate (Z.to_nat CANNM_FRAME_LENGTH) 0) 0 d'.

(** The pointer is dereferenced unchecked. *)
Definition CanNm_RxIndication (RxPduId : Z) (PduInfoPtr : option PduInfoType) : M W unit :=
  init ← CanNm_IsModuleInitialized;
  if negb init then nm_det CANNM_APIID_RXINDICATION CANNM_E_UNINIT
  else
    Info ← lift PduInfoPtr;
    if SduLength Info <? CANNM_FRAME_MIN_LENGTH then nm_det CANNM_APIID_RXINDICATION CANNM_E_DATA_INVALID
    else
      data ← lift (rx_copy Info);
      '(r, sm) ← CanNm_GetState true true;
      if negb (bool_decide (r = E_OK)) then nm_det CANNM_APIID_RXINDICATION CANNM_E_PARAM_INVALID
      else
        '(nmState, _) ← lift sm;
        match nmState with
        | NM_STATE_BUS_SLEEP | NM_STATE_PREPARE_BUS_SLEEP => set_nm (set_nextState NM_STATE_REPEAT_MESSAGE)
        | NM_STATE_READY_SLEEP => timer_start NmTimeoutTimer set_NmTimeoutTimer cp_BB_APS_CanNmTimeoutTime
        | NM_STATE_NORMAL_OPERATION =>
            idx ← gets (λ w, nm_CanIdx (nm w));
            reduced ← lift (aget cp_BB_CanNmMsgReducedTime idx);
            when (0 <? reduced) (timer_start MsgCycleTimer set_MsgCycleTimer reduced)
        | _ => mret tt
        end;;
        control ← lift (aget data 1);
        when (Z.testbit control bit_RepeatMessageRequest &&
              (bool_decide (nmState = NM_STATE_NORMAL_OPERATION) || bool_decide (nmState = NM_STATE_READY_SLEEP)))
          (set_nm (set_nextState NM_STATE_REPEAT_MESSAGE)).

(** ** Transmission *)

Definition CanNm_TriggerTransmission : M W Std_ReturnType :=
  id ← gets (λ w, nm_TxId (nm w));
  enabled ← gets (λ w, nm_TxEnabled (nm w));
  if negb enabled then mret E_NOT_OK
  else
    ns ← gets (λ w, CanNm_Network_State (nm w));
    set_tx_bit bit_ActiveWakeup (bool_decide (ns = NM_NETWORK_STATE_REQUESTED));;
    data ← gets (λ w, nm_TxData (nm w));
    len ← gets (λ w, nm_TxLength (nm w));
    r ← nm_call (nm_PduR_Transmit id (mkPduInfo (Some data) len));
    nm_ev (NmTransmit id data r);;
    if bool_decide (r = E_OK)
    then timer_start MsgTimeoutTimer set_MsgTimeoutTimer CANNM_TXMESSAGE_TIMEOUT;; mret E_OK
    else nm_det CANNM_APIID_TRIGGERTRANSMISSION CANNM_E_RETURN_INVALID;; mret E_NOT_OK.

Definition request_power : M W unit :=
  id ← gets (λ w, CanNm_PwrReqID (nm w)); nm_call_ (rbdPwrReq_RequestService id);; nm_ev (NmPwrRequest id).

Definition CanNm_SetState (NmState : CanNm_StateType) : M W unit :=
  set_nm (set_State NmState);;
  match NmState with
  | NM_STATE_BUS_SLEEP =>
      timer_init NmTimeoutTimer set_NmTimeoutTimer;;
      timer_init MsgCycleTimer set_MsgCycleTimer;;
      nm_call_ rbdPwrMgmtAnc_SleepIndication;; nm_ev NmSleepIndication;;
      id ← gets (λ w, CanNm_PwrReqID (nm w));
      nm_call_ (rbdPwrReq_ReleaseService id);; nm_ev (NmPwrRelease id)
  | NM_STATE_PREPARE_BUS_SLEEP =>
      timer_start NmTimeoutTimer set_NmTimeoutTimer cp_BB_APS_CanNmWaitBusSleepTime;;
      timer_init MsgCycleTimer set_MsgCycleTimer
  | NM_STATE_READY_SLEEP =>
      timer_start NmTimeoutTimer set_NmTimeoutTimer cp_BB_APS_CanNmTimeoutTime;;
      timer_init MsgCycleTimer set_MsgCycleTimer
  | NM_STATE_NORMAL_OPERATION =>
      timer_init NmTimeoutTimer set_NmTimeoutTimer;;
      s ← timer_update MsgCycleTimer set_MsgCycleTimer;
      when (negb (bool_decide (s = RBD_ELTIME_RBTIMER_STATE_RUNNING)))
        (timer_start MsgCycleTimer set_MsgCycleTimer cp_BB_APS_CanNmMsgCycleTime;;
         CanNm_TriggerTransmission;; mret tt);;
      request_power
  | NM_STATE_REPEAT_MESSAGE =>
      timer_start NmTimeoutTimer set_NmTimeoutTimer cp_BB_APS_CanNmRepeatMessageTime;;
      n ← gets (λ w, CanNm_ImmediateTransmissionCount (nm w));
      (if 0 <? n then
         timer_start MsgCycleTimer set_MsgCycleTimer cp_BB_CanNmImmediateNmCycleTime;;
         set_nm (set_ImmCount (n - 1))
       else timer_start MsgCycleTimer set_MsgCycleTimer cp_BB_APS_CanNmMsgCycleTime);;
      CanNm_TriggerTransmission;;
      request_power
  | NM_STATE_MAX_NUMBER => mret tt
  end.

(** ** The main function *)

Definition CanNm_MsgTimeoutTimerHandling : M W unit :=
  s ← timer_update MsgTimeoutTimer set_MsgTimeoutTimer;
  when (bool_decide (s = RBD_ELTIME_RBTIMER_STATE_ELAPSED))
    (timer_init MsgTimeoutTimer set_MsgTimeoutTimer;; nm_det CANNM_APIID_TIMEOUTHANDLING CANNM_E_TIMEOUT).

Definition CanNm_MsgCycleTimerHandling (nmState : CanNm_StateType) : M W unit :=
  s ← timer_update MsgCycleTimer set_MsgCycleTimer;
  when (bool_decide (s = RBD_ELTIME_RBTIMER_STATE_ELAPSED))
    (CanNm_TriggerTransmission;;
     match nmState with
     | NM_STATE_REPEAT_MESSAGE =>
         n ← gets (λ w, CanNm_ImmediateTransmissionCount (nm w));
         when (0 <? n) (set_nm (set_ImmCount (n - 1)));;
         n ← gets (λ w, CanNm_ImmediateTransmissionCount (nm w));
         if n =? 0 then timer_start MsgCycleTimer set_MsgCycleTimer cp_BB_APS_CanNmMsgCycleTime
         else timer_start MsgCycleTimer set_MsgCycleTimer cp_BB_CanNmImmediateNmCycleTime
     | NM_STATE_NORMAL_OPERATION => timer_start MsgCycleTimer set_MsgCycleTimer cp_BB_APS_CanNmMsgCycleTime
     | _ => mret tt
     end).

Definition CanNm_NmTimeoutTimerHandling (nmState : CanNm_StateType) : M W unit :=
  s ← timer_update NmTimeoutTimer set_NmTimeoutTimer;
  when (bool_decide (s = RBD_ELTIME_RBTIMER_STATE_ELAPSED))
    match nmState with
    | NM_STATE_PREPARE_BUS_SLEEP => set_nm (set_nextState NM_STATE_BUS_SLEEP)
    | NM_STATE_READY_SLEEP => set_nm (set_nextState NM_STATE_PREPARE_BUS_SLEEP)
    | _ => mret tt
    end.

Definition CanNm_NetworkRequestHandling (nmState : CanNm_StateType) (networkState : CanNm_AdditionalNetworkStateType) : M W unit :=
  match nmState with
  | NM_STATE_BUS_SLEEP | NM_STATE_PREPARE_BUS_SLEEP =>
      when (bool_decide (networkState = NM_NETWORK_STATE_REQUESTED))
        (set_nm (set_ImmCount (u16 cp_BB_CanNmImmediateNmTransmissions));; set_nm (set_nextState NM_STATE_REPEAT_MESSAGE))
  | NM_STATE_READY_SLEEP =>
      when (bool_decide (networkState = NM_NETWORK_STATE_REQUESTED)) (set_nm (set_nextState NM_STATE_NORMAL_OPERATION))
  | NM_STATE_NORMAL_OPERATION =>
      when (bool_decide (networkState = NM_NETWORK_STATE_RELEASED)) (set_nm (set_nextState NM_STATE_READY_SLEEP))
  | _ => mret tt
  end.

Definition CanNm_RepeatMessageTimeoutHandling (nmState : CanNm_StateType) : M W unit :=
  n ← gets (λ w, CanNm_ImmediateTransmissionCount (nm w));
  when (n =? 0)
    match nmState with
    | NM_STATE_REPEAT_MESSAGE =>
        s ← timer_update NmTimeoutTimer set_NmTimeoutTimer;
        when (bool_decide (s = RBD_ELTIME_RBTIMER_STATE_ELAPSED))
          (ns ← gets (λ w, CanNm_Network_State (nm w));
           set_nm (set_nextState (if bool_decide (ns = NM_NETWORK_STATE_REQUESTED)
                                  then NM_STATE_NORMAL_OPERATION else NM_STATE_READY_SLEEP)))
    | _ => mret tt
    end.

(** The end of the main function: a change of state. *)
Definition change_state (nmState : CanNm_StateType) : M W unit :=
  next ← gets (λ w, CanNm_nextState (nm w));
  when (negb (bool_decide (next = nmState)))
    (when (bool_decide (nmState = NM_STATE_REPEAT_MESSAGE)) (set_tx_bit bit_RepeatMessageRequest false);;
     CanNm_SetState next).

Definition CanNm_MainFunction : M W unit :=
  online ← gets (λ w, CanSm_online (nm_up w));
  fitted ← gets (λ w, CanNm_CanFitted (nm w));
  if negb online && fitted then mret tt
  else with_state CANNM_APIID_MAINFUNCTION CANNM_APIID_DISABLECOMMUNICATION tt (λ nmState _,
    CanNm_MsgCycleTimerHandling nmState;;
    CanNm_NmTimeoutTimerHandling nmState;;
    CanNm_RepeatMessageTimeoutHandling nmState;;
    ns ← gets (λ w, CanNm_Network_State (nm w));
    CanNm_NetworkRequestHandling nmState ns;;
    CanNm_MsgTimeoutTimerHandling;;
    change_state nmState).

Definition CanNm_SetCanIdx (CanIdx : Z) : M W unit :=
  node ← lift (aget CanNm_NodeId CanIdx);
  data ← gets (λ w, nm_TxData (nm w));
  data ← lift (aset data 0 node);
  set_nm (set_TxData data);;
  set_nm (set_TxEnabled (CanIdx <? 15));;
  set_nm (set_CanIdx CanIdx).
End CanNm.
