(* ===== verification/CanNmSpec.v ===== *)
(** * CanNm: network management as a timed automaton

    The specification of CanNm: one transition per call, over the states of the
    network, two deadlines, the pending request and the number of immediate
    messages; and what it promises.  [CanNmRef] shows that the module implements it. *)

From S2P Require Import Prelude ComStack ElTime CanNm.
From stdpp Require Import base list numbers option.

#[local] Open Scope Z_scope.

(** [a_next]: the state asked for by a received message or a passive start-up; [a_nmt],
    [a_cyc]: when the state's timer and the message cycle end; [a_now], [a_on], [a_fit]:
    the clock, whether the bus is online, whether there is a bus at all. *)
Record NmA := mkA {
  a_st : CanNm_StateType; a_next : CanNm_StateType; a_req : bool; a_en : bool; a_idx : Z; a_imm : Z;
  a_nmt : option Z; a_cyc : option Z; a_now : Z; a_on : bool; a_fit : bool
}.

(** What the neighbours see; [active] is the active-wake-up bit of the message. *)
Inductive nm_out := NSend (active : bool) | NSleep | NPowerOn | NPowerOff.

(** The calls; [NNothing] is a confirmation, or a frame too short to be looked at. *)
Inductive nm_op :=
| NMain
| NPassive
| NRequest
| NRelease
| NNothing
| NRx (repeat : bool)
| NIdx (i : Z)
| NEnv (time : Z) (online : bool).

Section spec.
Context {U : Type} `{CanNm_Env U}.

Definition sends (a : NmA) : list nm_out := if a_en a then [NSend (a_req a)] else [].

(** The message cycle: a due message is sent and the cycle restarted; in the repeat message
    state the immediate messages come first, at their own pace. *)
Definition nm_cycle (a : NmA) : NmA * list nm_out :=
  if timer_over (a_now a) (a_cyc a) then
    let imm := match a_st a with NM_STATE_REPEAT_MESSAGE => if 0 <? a_imm a then a_imm a - 1 else a_imm a | _ => a_imm a end in
    let cyc := match a_st a with
               | NM_STATE_REPEAT_MESSAGE =>
                   Some (a_now a + if imm =? 0 then cp_BB_APS_CanNmMsgCycleTime else cp_BB_CanNmImmediateNmCycleTime)
               | NM_STATE_NORMAL_OPERATION => Some (a_now a + cp_BB_APS_CanNmMsgCycleTime)
               | _ => a_cyc a
               end in
    (mkA (a_st a) (a_next a) (a_req a) (a_en a) (a_idx a) imm (a_nmt a) cyc (a_now a) (a_on a) (a_fit a), sends a)
  else (a, []).

(** Where to go from here: the node's own request comes first, then the end of the state's
    time, then what a received message has asked for. *)
Definition nm_target (a : NmA) : CanNm_StateType :=
  match a_st a with
  | NM_STATE_BUS_SLEEP => if a_req a then NM_STATE_REPEAT_MESSAGE else a_next a
  | NM_STATE_PREPARE_BUS_SLEEP =>
      if a_req a then NM_STATE_REPEAT_MESSAGE else if timer_over (a_now a) (a_nmt a) then NM_STATE_BUS_SLEEP else a_next a
  | NM_STATE_READY_SLEEP =>
      if a_req a then NM_STATE_NORMAL_OPERATION else if timer_over (a_now a) (a_nmt a) then NM_STATE_PREPARE_BUS_SLEEP else a_next a
  | NM_STATE_NORMAL_OPERATION => if a_req a then a_next a else NM_STATE_READY_SLEEP
  | NM_STATE_REPEAT_MESSAGE =>
      if (a_imm a =? 0) && timer_over (a_now a) (a_nmt a)
      then if a_req a then NM_STATE_NORMAL_OPERATION else NM_STATE_READY_SLEEP else a_next a
  | NM_STATE_MAX_NUMBER => a_next a
  end.

(** Immediate messages follow a request from sleep. *)
Definition nm_imm (a : NmA) : Z :=
  match a_st a with
  | NM_STATE_BUS_SLEEP | NM_STATE_PREPARE_BUS_SLEEP => if a_req a then u16 cp_BB_CanNmImmediateNmTransmissions else a_imm a
  | _ => a_imm a
  end.

Definition nm_enter (s : CanNm_StateType) (a : NmA) : NmA * list nm_out :=
  let n := a_now a in
  let go imm nmt cyc := mkA s s (a_req a) (a_en a) (a_idx a) imm nmt cyc n (a_on a) (a_fit a) in
  match s with
  | NM_STATE_BUS_SLEEP => (go (a_imm a) None None, [NSleep; NPowerOff])
  | NM_STATE_PREPARE_BUS_SLEEP => (go (a_imm a) (Some (n + cp_BB_APS_CanNmWaitBusSleepTime)) None, [])
  | NM_STATE_READY_SLEEP => (go (a_imm a) (Some (n + cp_BB_APS_CanNmTimeoutTime)) None, [])
  | NM_STATE_NORMAL_OPERATION =>
      if bool_decide (is_Some (a_cyc a)) && negb (timer_over n (a_cyc a)) then (go (a_imm a) None (a_cyc a), [NPowerOn])
      else (go (a_imm a) None (Some (n + cp_BB_APS_CanNmMsgCycleTime)), sends a ++ [NPowerOn])
  | NM_STATE_REPEAT_MESSAGE =>
      let nmt := Some (n + cp_BB_APS_CanNmRepeatMessageTime) in
      if 0 <? a_imm a then (go (a_imm a - 1) nmt (Some (n + cp_BB_CanNmImmediateNmCycleTime)), sends a ++ [NPowerOn])
      else (go (a_imm a) nmt (Some (n + cp_BB_APS_CanNmMsgCycleTime)), sends a ++ [NPowerOn])
  | NM_STATE_MAX_NUMBER => (go (a_imm a) (a_nmt a) (a_cyc a), [])
  end.

Definition nm_main (a : NmA) : NmA * list nm_out :=
  if negb (a_on a) && a_fit a then (a, [])
  else
    let '(a, l) := nm_cycle a in
    let s := nm_target a in
    let a' := mkA (a_st a) s (a_req a) (a_en a) (a_idx a) (nm_imm a) (a_nmt a) (a_cyc a) (a_now a) (a_on a) (a_fit a) in
    if bool_decide (s = a_st a) then (a', l) else let '(a'', l') := nm_enter s a' in (a'', l ++ l').

Definition nm_received (repeat : bool) (a : NmA) : NmA :=
  let go next nmt cyc := mkA (a_st a) next (a_req a) (a_en a) (a_idx a) (a_imm a) nmt cyc (a_now a) (a_on a) (a_fit a) in
  match a_st a with
  | NM_STATE_BUS_SLEEP | NM_STATE_PREPARE_BUS_SLEEP => go NM_STATE_REPEAT_MESSAGE (a_nmt a) (a_cyc a)
  | NM_STATE_READY_SLEEP =>
      go (if repeat then NM_STATE_REPEAT_MESSAGE else a_next a) (Some (a_now a + cp_BB_APS_CanNmTimeoutTime)) (a_cyc a)
  | NM_STATE_NORMAL_OPERATION =>
      let reduced := default 0 (aget cp_BB_CanNmMsgReducedTime (a_idx a)) in
      go (if repeat then NM_STATE_REPEAT_MESSAGE else a_next a) (a_nmt a)
         (if 0 <? reduced then Some (a_now a + reduced) else a_cyc a)
  | _ => a
  end.

Definition set_req (b : bool) (a : NmA) : NmA :=
  mkA (a_st a) (a_next a) b (a_en a) (a_idx a) (a_imm a) (a_nmt a) (a_cyc a) (a_now a) (a_on a) (a_fit a).

Definition nm_step (a : NmA) (op : nm_op) : NmA * list nm_out :=
  match op with
  | NMain => nm_main a
  | NPassive =>
      (match a_st a with
       | NM_STATE_BUS_SLEEP | NM_STATE_PREPARE_BUS_SLEEP =>
           mkA (a_st a) NM_STATE_REPEAT_MESSAGE (a_req a) (a_en a) (a_idx a) (a_imm a) (a_nmt a) (a_cyc a) (a_now a) (a_on a) (a_fit a)
       | _ => a
       end, [])
  | NRequest => (set_req true a, [])
  | NRelease => (set_req false a, [])
  | NNothing => (a, [])
  | NRx repeat => (nm_received repeat a, [])
  | NIdx i => (mkA (a_st a) (a_next a) (a_req a) (i <? 15) i (a_imm a) (a_nmt a) (a_cyc a) (a_now a) (a_on a) (a_fit a), [])
  | NEnv n on => (mkA (a_st a) (a_next a) (a_req a) (a_en a) (a_idx a) (a_imm a) (a_nmt a) (a_cyc a) n on (a_fit a), [])
  end.

Fixpoint nm_run (a : NmA) (ops : list nm_op) : NmA * list nm_out :=
  match ops with
  | [] => (a, [])
  | op :: ops => let '(a, l) := nm_step a op in let '(a, l') := nm_run a ops in (a, l ++ l')
  end.

(** The state after CanNm_Init. *)
Definition nm_start (idx n : Z) (on fit : bool) : NmA :=
  mkA NM_STATE_BUS_SLEEP NM_STATE_BUS_SLEEP false true idx 0 None None n on fit.
Lemma nm_run_app a ops ops' : nm_run a (ops ++ ops') = (fst (nm_run (fst (nm_run a ops)) ops'), snd (nm_run a ops) ++ snd (nm_run (fst (nm_run a ops)) ops')).
Proof.
  revert a. induction ops as [|op ops IH]; intros a; cbn [app nm_run]; [apply surjective_pairing|].
  destruct (nm_step a op) as [a1 l1]. rewrite IH. destruct (nm_run a1 ops) as [a2 l2]. cbn. by rewrite app_assoc.
Qed.

(** What every step keeps, every run keeps. *)
Lemma nm_run_keeps (P : NmA → Prop) (ok : nm_op → Prop) (good : nm_out → Prop) :
  (∀ a op, P a → ok op → P (fst (nm_step a op)) ∧ Forall good (snd (nm_step a op))) →
  ∀ ops a, P a → Forall ok ops → P (fst (nm_run a ops)) ∧ Forall good (snd (nm_run a ops)).
Proof.
  intros Hstep. induction ops as [|op ops IH]; intros a Ha Hok; cbn [nm_run]; [done|]. apply Forall_cons_1 in Hok as [Hop Hok].
  destruct (Hstep a op Ha Hop) as [H1 G1]. destruct (nm_step a op) as [a1 l1]. destruct (IH a1 H1 Hok) as [H2 G2].
  destruct (nm_run a1 ops) as [a2 l2]. cbn in *. split; [done|]. by apply Forall_app.
Qed.

(** ** The timers belong to the state *)

Definition nm_timers (a : NmA) : Prop :=
  match a_st a with
  | NM_STATE_BUS_SLEEP => a_nmt a = None ∧ a_cyc a = None
  | NM_STATE_PREPARE_BUS_SLEEP | NM_STATE_READY_SLEEP => is_Some (a_nmt a) ∧ a_cyc a = None
  | NM_STATE_NORMAL_OPERATION => a_nmt a = None ∧ is_Some (a_cyc a)
  | NM_STATE_REPEAT_MESSAGE => is_Some (a_nmt a) ∧ is_Some (a_cyc a)
  | NM_STATE_MAX_NUMBER => False
  end ∧ a_next a ≠ NM_STATE_MAX_NUMBER.

Lemma cycle_timers a : nm_timers a → nm_timers (fst (nm_cycle a)) ∧ a_st (fst (nm_cycle a)) = a_st a.
Proof.
  unfold nm_cycle, nm_timers. intros [Ht Hn]. destruct (timer_over _ _); [|done]. cbn. split; [|done]. split; [|done].
  destruct (a_st a); try done; destruct Ht; split; by eauto.
Qed.

Lemma target_valid a : a_next a ≠ NM_STATE_MAX_NUMBER → nm_target a ≠ NM_STATE_MAX_NUMBER.
Proof. intros. unfold nm_target. repeat case_match; done. Qed.

Lemma enter_timers s a : s ≠ NM_STATE_MAX_NUMBER → nm_timers (fst (nm_enter s a)).
Proof.
  intros Hs. unfold nm_enter, nm_timers. destruct s; try done.
  - destruct (bool_decide (is_Some (a_cyc a))) eqn:E; cbn [andb]; [|done]. apply bool_decide_eq_true in E. by destruct (negb _).
  - by destruct (0 <? a_imm a).
Qed.

Lemma step_timers a op : nm_timers a → nm_timers (fst (nm_step a op)).
Proof.
  intros Ha. destruct op; cbn [nm_step]; try done.
  - unfold nm_main. destruct (_ && _); [done|]. pose proof (cycle_timers a Ha) as [Hc _]. destruct (nm_cycle a) as [a1 l]. cbn [fst] in Hc.
    pose proof (target_valid a1 (proj2 Hc)) as Ht. destruct (bool_decide _) eqn:E.
    + split; [apply Hc | done].
    + pose proof (enter_timers (nm_target a1) (mkA (a_st a1) (nm_target a1) (a_req a1) (a_en a1) (a_idx a1) (nm_imm a1) (a_nmt a1) (a_cyc a1) (a_now a1) (a_on a1) (a_fit a1)) Ht) as He.
      by destruct (nm_enter _ _).
  - destruct Ha as [Ht Hn]. unfold nm_timers. destruct (a_st a) eqn:E; cbn; rewrite ?E; done.
  - destruct Ha as [Ht Hn]. unfold nm_received, nm_timers in *. destruct (a_st a) eqn:E; cbn; rewrite ?E; try done;
      destruct Ht; split_and!; eauto; repeat case_match; by eauto.
Qed.

(** ** A requested network stays up *)

Definition communicating (s : CanNm_StateType) : Prop := s = NM_STATE_NORMAL_OPERATION ∨ s = NM_STATE_REPEAT_MESSAGE.
Definition awake (a : NmA) : Prop := a_req a = true ∧ communicating (a_st a) ∧ communicating (a_next a).
Definition no_sleep (x : nm_out) : Prop := x ≠ NSleep ∧ x ≠ NPowerOff.

Lemma sends_no_sleep a : Forall no_sleep (sends a).
Proof. unfold sends. case_match; repeat constructor; done. Qed.

Lemma cycle_fields a : a_req (fst (nm_cycle a)) = a_req a ∧ a_st (fst (nm_cycle a)) = a_st a ∧ a_next (fst (nm_cycle a)) = a_next a ∧
  a_now (fst (nm_cycle a)) = a_now a ∧ a_nmt (fst (nm_cycle a)) = a_nmt a ∧ a_en (fst (nm_cycle a)) = a_en a ∧
  (snd (nm_cycle a) = [] ∨ snd (nm_cycle a) = sends a).
Proof. unfold nm_cycle. destruct (timer_over _ _); cbn; split_and!; auto. Qed.

Lemma enter_awake s a : communicating s → a_req (fst (nm_enter s a)) = a_req a ∧ a_st (fst (nm_enter s a)) = s ∧
  a_next (fst (nm_enter s a)) = s ∧ Forall no_sleep (snd (nm_enter s a)).
Proof.
  assert (Forall no_sleep [NPowerOn]) by (repeat constructor; done). pose proof (sends_no_sleep a).
  intros [->| ->]; unfold nm_enter; case_match; cbn; split_and!; try done; by apply Forall_app.
Qed.

Lemma step_awake a op : awake a → op ≠ NRelease → awake (fst (nm_step a op)) ∧ Forall no_sleep (snd (nm_step a op)).
Proof.
  intros (Hr & Hs & Hn) Hop. destruct op; cbn [nm_step]; try (by split; [split_and!|constructor]); try done.
  - unfold nm_main. destruct (_ && _); [done|]. pose proof (cycle_fields a) as (Er & Es & En & _ & _ & _ & Hl).
    destruct (nm_cycle a) as [a1 l]. cbn [fst snd] in *.
    assert (Forall no_sleep l) as Gl by (destruct Hl as [-> | ->]; [done | apply sends_no_sleep]).
    assert (communicating (nm_target a1)) as Ht.
    { unfold nm_target. rewrite Es, Er, Hr. destruct Hs as [-> | ->]; [by rewrite En|]. case_match; [by left | by rewrite En]. }
    destruct (bool_decide _); [by split; [split_and!; cbn; congruence|]|].
    destruct (enter_awake (nm_target a1) (mkA (a_st a1) (nm_target a1) (a_req a1) (a_en a1) (a_idx a1) (nm_imm a1) (a_nmt a1) (a_cyc a1) (a_now a1) (a_on a1) (a_fit a1)) Ht) as (E1 & E2 & E3 & E4).
    destruct (nm_enter _ _) as [a2 l2]. cbn in *. split; [|by apply Forall_app]. split_and!; [congruence | by rewrite E2 | by rewrite E3].
  - split; [|done]. unfold awake. destruct Hs as [E|E]; rewrite E; cbn; rewrite E; split_and!; try done; [by left | by right].
  - split; [|done]. unfold awake, nm_received. destruct Hs as [E|E]; rewrite E; cbn; rewrite ?E; split_and!; try done; try (by left); try (by right).
    by destruct repeat; [right|].
Qed.

(** ** A node that is not asked stays silent *)

Definition asleep (a : NmA) : Prop :=
  a_st a = NM_STATE_BUS_SLEEP ∧ a_next a = NM_STATE_BUS_SLEEP ∧ a_req a = false ∧ a_cyc a = None.
Definition unasked (op : nm_op) : Prop := match op with NRequest | NPassive | NRx _ => False | _ => True end.

Lemma step_asleep a op : asleep a → unasked op → asleep (fst (nm_step a op)) ∧ snd (nm_step a op) = [].
Proof.
  intros (Hs & Hn & Hr & Hc) Hop. destruct op; try done; cbn [nm_step]; try (by split).
  unfold nm_main. destruct (_ && _); [done|]. unfold nm_cycle. rewrite Hc. cbn [timer_over]. unfold nm_target, nm_imm. rewrite Hs, Hr, Hn.
  by rewrite bool_decide_true.
Qed.

(** A wake-up that meets the end of the wait time in the same run of the main function. *)
Lemma wakeup_overrun a e wake :
  a_st a = NM_STATE_PREPARE_BUS_SLEEP → a_req a = false → a_on a = true → a_nmt a = Some e → e ≤ a_now a → a_cyc a = None →
  (wake = NPassive ∨ ∃ rep, wake = NRx rep) →
  ∃ b, nm_run a [wake; NMain] = (b, [NSleep; NPowerOff]) ∧ asleep b.
Proof.
  intros Hs Hq Hon Hn Hle Hc Hwake.
  exists (mkA NM_STATE_BUS_SLEEP NM_STATE_BUS_SLEEP false (a_en a) (a_idx a) (a_imm a) None None (a_now a) true (a_fit a)). split; [|done].
  set (b := mkA NM_STATE_PREPARE_BUS_SLEEP NM_STATE_REPEAT_MESSAGE false (a_en a) (a_idx a) (a_imm a) (Some e) None (a_now a) true (a_fit a)).
  assert (nm_step a wake = (b, [])) as E.
  { destruct Hwake as [->|[rep ->]]; cbn [nm_step]; unfold nm_received; by rewrite Hs, Hq, Hon, Hn, Hc. }
  cbn [nm_run]. rewrite E. cbn [nm_step]. unfold nm_main. cbn [b a_on negb andb]. unfold nm_cycle. cbn [timer_over a_cyc b a_now].
  unfold nm_target. cbn [a_st a_req a_now a_nmt b timer_over]. rewrite (proj2 (Z.leb_le _ _)) by done. by rewrite bool_decide_false.
Qed.

(** A node without a valid index sends nothing. *)
Definition not_sending (x : nm_out) : Prop := match x with NSend _ => False | _ => True end.
Definition mute_op (op : nm_op) : Prop := match op with NIdx i => 15 ≤ i | _ => True end.

Lemma step_mute a op : a_en a = false → mute_op op → a_en (fst (nm_step a op)) = false ∧ Forall not_sending (snd (nm_step a op)).
Proof.
  intros He Hop. assert (∀ b, a_en b = false → sends b = []) as Hs by (intros b Hb; unfold sends; by rewrite Hb).
  destruct op; cbn [nm_step]; try done.
  - unfold nm_main. destruct (_ && _); [done|]. pose proof (cycle_fields a) as (_ & _ & _ & _ & _ & Ee & Hl).
    destruct (nm_cycle a) as [a1 l]. cbn [fst snd] in *. rewrite (Hs a He) in Hl. assert (l = []) as -> by tauto. rewrite He in Ee.
    destruct (bool_decide _); [done|]. unfold nm_enter. rewrite (Hs (mkA _ _ _ _ _ _ _ _ _ _ _)) by done.
    destruct (nm_target a1); cbn; repeat case_match; simplify_eq; cbn; split; try done; repeat constructor.
  - destruct (a_st a); done.
  - split; [|done]. unfold nm_received. by destruct (a_st a).
  - cbn. split; [|done]. by apply Z.ltb_ge.
Qed.

(** ** A released network goes to sleep *)

Section sleep.
Context (period : Z) (Hp : 0 < period) (Ht : 0 ≤ cp_BB_APS_CanNmTimeoutTime) (Hw : 0 ≤ cp_BB_APS_CanNmWaitBusSleepTime).

(** Main-function runs at the given distances, nothing else happening. *)
Fixpoint idle_ops (n : Z) (ds : list Z) : list nm_op :=
  match ds with [] => [] | d :: ds => NEnv (n + d) true :: NMain :: idle_ops (n + d) ds end.

(** The time to sleep, at most. *)
Definition left_of (a : NmA) : Z := match a_nmt a with Some e => Z.max 0 (e - a_now a) | None => 0 end.
Definition time_to_sleep (a : NmA) : Z :=
  match a_st a with
  | NM_STATE_BUS_SLEEP => 0
  | NM_STATE_PREPARE_BUS_SLEEP => left_of a + period
  | NM_STATE_READY_SLEEP => left_of a + period + cp_BB_APS_CanNmWaitBusSleepTime + period
  | _ => left_of a + period + cp_BB_APS_CanNmTimeoutTime + period + cp_BB_APS_CanNmWaitBusSleepTime + period
  end.
Definition sleepy (a : NmA) : Prop :=
  a_req a = false ∧ a_next a = a_st a ∧ nm_timers a ∧ (a_st a = NM_STATE_REPEAT_MESSAGE → a_imm a = 0).

Definition idle_step (a : NmA) (d : Z) : NmA * list nm_out := nm_run a [NEnv (a_now a + d) true; NMain].

Lemma idle_step_spec a d :
  sleepy a → 0 ≤ d ≤ period →
  let '(a', l) := idle_step a d in
  sleepy a' ∧ a_now a' = a_now a + d ∧
  (a_st a' = NM_STATE_BUS_SLEEP ∧ (a_st a ≠ NM_STATE_BUS_SLEEP → NSleep ∈ l) ∨
   a_st a ≠ NM_STATE_BUS_SLEEP ∧ a_st a' ≠ NM_STATE_BUS_SLEEP ∧ time_to_sleep a' ≤ time_to_sleep a - d).
Proof using Hp Ht Hw.
  intros (Hr & Hn & [Htm Hv] & Hi) Hd. unfold idle_step. cbn [nm_run nm_step]. set (b := mkA _ _ _ _ _ _ _ _ _ _ _).
  unfold nm_main. cbn [a_on negb andb b]. pose proof (cycle_fields b) as (Er & Es & En & Eno & Enm & _ & _).
  assert (a_st b = NM_STATE_REPEAT_MESSAGE → a_imm (fst (nm_cycle b)) = 0) as Hi'.
  { intros E. unfold nm_cycle. rewrite E. destruct (timer_over _ _); cbn; rewrite (Hi E); done. }
  assert (nm_timers (fst (nm_cycle b))) as [Htm' _] by (apply cycle_timers; done).
  destruct (nm_cycle b) as [a1 l]. cbn [fst snd a_st a_next a_req a_now a_nmt b] in *.
  unfold nm_target, nm_imm, nm_timers in *. rewrite Es, Er, En, Hr, Hn, Eno, Enm in *.
  unfold time_to_sleep, sleepy, nm_timers.
  destruct (a_st a) eqn:Est; [..|done].
  - rewrite bool_decide_true by done. cbn. destruct Htm'. split_and!; try done; try (by eexists). by left.
  - destruct Htm as [[e Ee] Hc]. rewrite Ee. cbn [timer_over].
    destruct (Z.leb_spec e (a_now a + d)).
    + rewrite bool_decide_false by done. cbn. split_and!; try done; try (by eexists). left. split; [done|]. intros _. rewrite app_nil_r. apply elem_of_app. right. left.
    + rewrite bool_decide_true by done. cbn. rewrite ?Es, ?Enm, ?Ee. destruct Htm'. split_and!; try done; try (by eexists). right. split; [done|]. split; [done|].
      unfold left_of. cbn. rewrite ?Enm, ?Ee, ?Eno. lia.
  - destruct Htm as [[e Ee] Hc]. rewrite Ee. cbn [timer_over].
    destruct (Z.leb_spec e (a_now a + d)).
    + rewrite bool_decide_false by done. cbn. split_and!; try done; try (by eexists). right. split; [done|]. split; [done|]. unfold left_of. cbn. rewrite ?Ee, ?Eno. lia.
    + rewrite bool_decide_true by done. cbn. rewrite ?Es, ?Enm, ?Ee. destruct Htm'. split_and!; try done; try (by eexists). right. split; [done|]. split; [done|].
      unfold left_of. cbn. rewrite ?Enm, ?Ee, ?Eno. lia.
  - rewrite bool_decide_false by done. cbn. split_and!; try done; try (by eexists). right. split; [done|]. split; [done|]. unfold left_of. cbn. destruct Htm as [-> _]. rewrite ?Eno. lia.
  - rewrite (Hi' eq_refl). destruct Htm as [[e Ee] Hc]. rewrite Ee. cbn [timer_over Z.eqb andb].
    destruct (Z.leb_spec e (a_now a + d)).
    + rewrite bool_decide_false by done. cbn. split_and!; try done; try (by eexists). right. split; [done|]. split; [done|]. unfold left_of. cbn. rewrite ?Ee, ?Eno. lia.
    + rewrite bool_decide_true by done. cbn. rewrite ?Es, ?Enm, ?Ee. destruct Htm'. split_and!; try done; try (by eexists). all: try (by rewrite (Hi' eq_refl)). right. split; [done|]. split; [done|].
      unfold left_of. cbn. rewrite ?Enm, ?Ee, ?Eno. lia.
Qed.

Lemma idle_ops_run n ds a : a_now a = n →
  nm_run a (idle_ops n ds) =
  match ds with
  | [] => (a, [])
  | d :: ds => let '(a1, l1) := idle_step a d in let '(a2, l2) := nm_run a1 (idle_ops (n + d) ds) in (a2, l1 ++ l2)
  end.
Proof.
  intros <-. destruct ds as [|d ds]; [done|]. cbn [idle_ops]. change (NEnv (a_now a + d) true :: NMain :: ?k) with ([NEnv (a_now a + d) true; NMain] ++ k).
  rewrite nm_run_app. fold (idle_step a d). destruct (idle_step a d) as [a1 l1]. cbn. by destruct (nm_run a1 _).
Qed.

Lemma idle_sleeps ds a :
  sleepy a → Forall (λ d, 0 ≤ d ≤ period) ds →
  let '(a', l) := nm_run a (idle_ops (a_now a) ds) in
  a_st a' = NM_STATE_BUS_SLEEP ∧ (a_st a ≠ NM_STATE_BUS_SLEEP → NSleep ∈ l) ∨
  a_st a ≠ NM_STATE_BUS_SLEEP ∧ 0 < time_to_sleep a - foldr Z.add 0 ds.
Proof using Hp Ht Hw.
  revert a. induction ds as [|d ds IH]; intros a Ha Hds.
  - cbn. destruct (decide (a_st a = NM_STATE_BUS_SLEEP)) as [E|E]; [by left|]. right. split; [done|].
    unfold time_to_sleep, left_of. repeat case_match; try done; lia.
  - apply Forall_cons_1 in Hds as [Hd Hds]. rewrite idle_ops_run by done.
    pose proof (idle_step_spec a d Ha Hd) as Hs. destruct (idle_step a d) as [a1 l1]. destruct Hs as (Ha1 & En & Hs). rewrite <-En.
    specialize (IH a1 Ha1 Hds). destruct (nm_run a1 _) as [a2 l2]. cbn [foldr].
    destruct Hs as [[E1 Hl]|(Hne & E1 & Hle)], IH as [[E2 Hl2]|[Hne2 Hpos]]; try done.
    + left. split; [done|]. intros Hne. apply elem_of_app. left. auto.
    + left. split; [done|]. intros _. apply elem_of_app. right. auto.
    + right. split; [done|]. lia.
Qed.
End sleep.

End spec.
