(* ===== verification/CanNmRef.v ===== *)
(** * CanNm: the module implements the timed automaton *)

From S2P Require Import Prelude ComStack ElTime CanNm CanNmSpec.
From stdpp Require Import base list numbers option.

#[local] Open Scope Z_scope.

(** The surroundings as the automaton sees them: they can be at any time and on or off
    line, and a call to a neighbour takes no time and leaves the bus as it is. *)
Class NmClock (T U : Type) `{HL : ElTimeLaws T U} `{HE : CanNm_Env U} := {
  nm_env : Z → bool → U → U;
  env_now n on u : now (nm_env n on u) = n;
  env_online n on u : CanSm_online (nm_env n on u) = on;
  transmit_quiet id info u :
    now (snd (nm_PduR_Transmit id info u)) = now u ∧ CanSm_online (snd (nm_PduR_Transmit id info u)) = CanSm_online u;
  getid_quiet u : now (snd (rbdPwrReq_GetID u)) = now u ∧ CanSm_online (snd (rbdPwrReq_GetID u)) = CanSm_online u;
  request_quiet id u :
    now (rbdPwrReq_RequestService id u) = now u ∧ CanSm_online (rbdPwrReq_RequestService id u) = CanSm_online u;
  release_quiet id u :
    now (rbdPwrReq_ReleaseService id u) = now u ∧ CanSm_online (rbdPwrReq_ReleaseService id u) = CanSm_online u;
  sleep_quiet u :
    now (rbdPwrMgmtAnc_SleepIndication u) = now u ∧ CanSm_online (rbdPwrMgmtAnc_SleepIndication u) = CanSm_online u
}.

Definition active_bit (data : list Z) : bool := match aget data 1 with Some x => Z.testbit x bit_ActiveWakeup | None => false end.
Definition nm_out_of (e : CanNm_Event) : option nm_out :=
  match e with
  | NmTransmit _ data _ => Some (NSend (active_bit data))
  | NmSleepIndication => Some NSleep
  | NmPwrRequest _ => Some NPowerOn
  | NmPwrRelease _ => Some NPowerOff
  | NmDet _ _ => None
  end.
Definition nm_outs (tr : list CanNm_Event) : list nm_out := omap nm_out_of tr.
Lemma nm_outs_snoc tr e : nm_outs (tr ++ [e]) = nm_outs tr ++ match nm_out_of e with Some x => [x] | None => [] end.
Proof. unfold nm_outs. rewrite omap_app. cbn. by destruct (nm_out_of e). Qed.

Lemma bit_put b on data data' :
  put_bit b on data = Some data' → lenZ data' = lenZ data ∧ (b = bit_ActiveWakeup → active_bit data' = on).
Proof.
  unfold put_bit. destruct (aget data 1) as [x|] eqn:E; [|done]. cbn. intros [? ->]%aset_Some.
  split; [apply lenZ_insert|]. intros ->. unfold active_bit. rewrite aget_insert_eq by done.
  destruct on; [by apply Z.setbit_eq | apply Z.clearbit_eq].
Qed.

Section ref.
Context {T U : Type} `{HT : ElTime T U} {HL : ElTimeLaws T U} {HE : CanNm_Env U} {HC : NmClock T U}.
Abbreviation W := (NmWorld T U).

Definition idx_ok (i : Z) : Prop := 0 ≤ i < lenZ cp_BB_CanNmMsgReducedTime.
Definition net_of (req : bool) : CanNm_AdditionalNetworkStateType :=
  if req then NM_NETWORK_STATE_REQUESTED else NM_NETWORK_STATE_RELEASED.

Record nm_rel (a : NmA) (w : W) : Prop := {
  r_init : nm_Initialized (nm w) = true;
  r_st : CanNm_State (nm w) = a_st a;
  r_next : CanNm_nextState (nm w) = a_next a;
  r_req : CanNm_Network_State (nm w) = net_of (a_req a);
  r_en : nm_TxEnabled (nm w) = a_en a;
  r_idx : nm_CanIdx (nm w) = a_idx a ∧ idx_ok (a_idx a);
  r_imm : CanNm_ImmediateTransmissionCount (nm w) = a_imm a ∧ 0 ≤ a_imm a;
  r_nmt : deadline (NmTimeoutTimer (nm w)) = a_nmt a;
  r_cyc : deadline (MsgCycleTimer (nm w)) = a_cyc a;
  r_now : now (nm_up w) = a_now a;
  r_on : CanSm_online (nm_up w) = a_on a;
  r_fit : CanNm_CanFitted (nm w) = a_fit a;
  r_data : lenZ (nm_TxData (nm w)) = CANNM_FRAME_LENGTH;
  r_valid : a_st a ≠ NM_STATE_MAX_NUMBER ∧ a_next a ≠ NM_STATE_MAX_NUMBER
}.

Definition nm_post (tr : list CanNm_Event) (x : NmA * list nm_out) (w : W) : Prop :=
  nm_rel (fst x) w ∧ nm_outs (nm_trace w) = nm_outs tr ++ snd x.

Lemma nm_post_stay a w : nm_rel a w → nm_post (nm_trace w) (a, []) w.
Proof. intros Ha. split; [done|]. by rewrite app_nil_r. Qed.

(** Composition of steps. *)
Lemma nm_post_bind {A B} (m : M W A) (k : A → M W B) w a' l (Q : B → W → Prop) :
  wp m (λ _, nm_post (nm_trace w) (a', l)) w →
  (∀ x w', nm_rel a' w' → nm_outs (nm_trace w') = nm_outs (nm_trace w) ++ l → wp (k x) Q w') →
  wp (m ≫= k) Q w.
Proof. intros Hm Hk. apply wp_bind. eapply wp_mono; [exact Hm|]. intros x w' [Hr Ho]. by apply Hk. Qed.

(** Build the relation field by field from the one before. *)
Ltac rel_build H := destruct H; split; cbn in *; rewrite ?timer_init_off, ?timer_start_on, ?timer_update_keeps; try done; try congruence.

Lemma update_nmt a w (Q : rbTimerState → W → Prop) :
  nm_rel a w → (∀ b w', nm_rel a w' → nm_trace w' = nm_trace w → Q (timer_answer (a_now a) (a_nmt a) b) w') →
  wp (timer_update NmTimeoutTimer set_NmTimeoutTimer) Q w.
Proof.
  intros Ha HQ. unfold timer_update. wp_step. wp_step. wp_step. wp_step.
  pose proof (timer_update_state (nm_up w) (NmTimeoutTimer (nm w))) as Es. pose proof (timer_update_keeps (nm_up w) (NmTimeoutTimer (nm w))) as Ek.
  destruct (rbd_ElTime_rbTimerUpdate _ _) as [s t]. cbn in Es, Ek. unfold set_nm. wp_steps.
  rewrite (r_nmt _ _ Ha), (r_now _ _ Ha) in Es. rewrite Es. apply HQ; [|done]. rel_build Ha.
Qed.

Lemma update_cyc a w (Q : rbTimerState → W → Prop) :
  nm_rel a w → (∀ b w', nm_rel a w' → nm_trace w' = nm_trace w → Q (timer_answer (a_now a) (a_cyc a) b) w') →
  wp (timer_update MsgCycleTimer set_MsgCycleTimer) Q w.
Proof.
  intros Ha HQ. unfold timer_update. wp_step. wp_step. wp_step. wp_step.
  pose proof (timer_update_state (nm_up w) (MsgCycleTimer (nm w))) as Es. pose proof (timer_update_keeps (nm_up w) (MsgCycleTimer (nm w))) as Ek.
  destruct (rbd_ElTime_rbTimerUpdate _ _) as [s t]. cbn in Es, Ek. unfold set_nm. wp_steps.
  rewrite (r_cyc _ _ Ha), (r_now _ _ Ha) in Es. rewrite Es. apply HQ; [|done]. rel_build Ha.
Qed.

(** The message timer is not part of the automaton. *)
Lemma msg_timeout_wp a w : nm_rel a w → wp CanNm_MsgTimeoutTimerHandling (λ _, nm_post (nm_trace w) (a, [])) w.
Proof.
  intros Ha. unfold CanNm_MsgTimeoutTimerHandling, timer_update. wp_step. wp_step. wp_step. wp_step. wp_step.
  destruct (rbd_ElTime_rbTimerUpdate _ _) as [s t]. unfold set_nm, timer_init, nm_det, nm_ev. wp_steps.
  - split; [rel_build Ha|]. cbn. by rewrite nm_outs_snoc.
  - split; [rel_build Ha|]. cbn. by rewrite app_nil_r.
Qed.

Lemma trigger_wp a w : nm_rel a w → wp CanNm_TriggerTransmission (λ _, nm_post (nm_trace w) (a, sends a)) w.
Proof.
  intros Ha. unfold CanNm_TriggerTransmission. wp_step. wp_step. wp_step. wp_step. rewrite (r_en _ _ Ha). unfold sends.
  destruct (a_en a); cbn [negb]; [|by apply wp_ret, nm_post_stay].
  unfold set_tx_bit, nm_call, nm_ev. do 6 wp_step.
  destruct (aget_is_Some (nm_TxData (nm w)) 1) as [x Ex]; [rewrite (r_data _ _ Ha); unfold CANNM_FRAME_LENGTH; lia|].
  rewrite (r_req _ _ Ha). assert (bool_decide (net_of (a_req a) = NM_NETWORK_STATE_REQUESTED) = a_req a) as -> by (by destruct (a_req a)).
  destruct (put_bit bit_ActiveWakeup (a_req a) (nm_TxData (nm w))) as [d|] eqn:Ed.
  2: { unfold put_bit in Ed. rewrite Ex in Ed. cbn in Ed. rewrite aset_is_Some in Ed; [done|]. by eapply aget_Some. }
  destruct (bit_put _ _ _ _ Ed) as [Hlen Hbit]. eapply wp_lift; [reflexivity|]. unfold set_nm. do 8 wp_step.
  cbn [nm nm_up nm_trace nm_TxData nm_TxLength nm_TxId set_TxData]. destruct (transmit_quiet (nm_TxId (nm w)) (mkPduInfo (Some d) (nm_TxLength (nm w))) (nm_up w)) as [Hn Hon].
  destruct (nm_PduR_Transmit _ _ _) as [r u']. cbn in Hn, Hon. unfold timer_start, nm_det, nm_ev, set_nm.
  specialize (Hbit eq_refl). wp_steps; cbn.
  - split; [rel_build Ha|]. cbn. by rewrite nm_outs_snoc, <-Hbit.
  - split; [rel_build Ha|]. cbn. by rewrite !nm_outs_snoc, <-Hbit, app_nil_r.
Qed.
(** ** The handlers of the main function *)

Definition with_next (s : CanNm_StateType) (a : NmA) : NmA :=
  mkA (a_st a) s (a_req a) (a_en a) (a_idx a) (a_imm a) (a_nmt a) (a_cyc a) (a_now a) (a_on a) (a_fit a).

Lemma rel_next s a w : nm_rel a w → s ≠ NM_STATE_MAX_NUMBER →
  wp (set_nm (set_nextState s)) (λ _, nm_post (nm_trace w) (with_next s a, [])) w.
Proof. intros Ha Hs. unfold set_nm. wp_step. split; [rel_build Ha|by rewrite app_nil_r]. by destruct r_valid0. Qed.

Lemma with_next_same a : with_next (a_next a) a = a.
Proof. by destruct a. Qed.

(** The trace of the automaton's outputs is all that matters. *)
Lemma post_from tr tr' x w : nm_outs tr = nm_outs tr' → nm_post tr x w → nm_post tr' x w.
Proof. unfold nm_post. by intros ->. Qed.

Lemma cycle_wp a w : nm_rel a w → wp (CanNm_MsgCycleTimerHandling (a_st a)) (λ _, nm_post (nm_trace w) (nm_cycle a)) w.
Proof.
  intros Ha. unfold CanNm_MsgCycleTimerHandling, nm_cycle. wp_step. apply (update_cyc a); [done|]. intros ? w1 H1 <-.
  rewrite answer_elapsed. destruct (timer_over (a_now a) (a_cyc a)); cbn [when]; [|by apply wp_ret, nm_post_stay].
  eapply nm_post_bind; [by apply trigger_wp|]. intros _ w2 H2 Ho2. pose proof (r_imm _ _ H2) as [Ei Hi].
  destruct (a_st a) eqn:Est; unfold timer_start, set_nm; try (apply wp_ret; split; [by destruct a; cbn in *; subst|done]).
  - wp_step. wp_step. wp_step. split; [rel_build H2|done].
  - wp_step. wp_step. rewrite Ei. destruct (Z.ltb_spec 0 (a_imm a)); cbn [when]; repeat first [rewrite Ei | wp_step | progress cbn in *];
    (split; [|done]); destruct H2; split; cbn in *; rewrite ?timer_start_on; try done; try congruence;
    bools; try lia; try (f_equal; f_equal); try congruence; case_match; bools; try congruence; try lia.
Qed.

Lemma timeout_wp a w :
  nm_rel a w →
  let s := if timer_over (a_now a) (a_nmt a) then
             match a_st a with NM_STATE_PREPARE_BUS_SLEEP => NM_STATE_BUS_SLEEP | NM_STATE_READY_SLEEP => NM_STATE_PREPARE_BUS_SLEEP | _ => a_next a end
           else a_next a in
  wp (CanNm_NmTimeoutTimerHandling (a_st a)) (λ _, nm_post (nm_trace w) (with_next s a, [])) w.
Proof.
  intros Ha s. subst s. unfold CanNm_NmTimeoutTimerHandling. wp_step. apply (update_nmt a); [done|]. intros ? w1 H1 <-.
  rewrite answer_elapsed. destruct (timer_over (a_now a) (a_nmt a)); cbn [when].
  2: { apply wp_ret. rewrite with_next_same. by apply nm_post_stay. }
  destruct (a_st a); try by (apply wp_ret; rewrite with_next_same; apply nm_post_stay).
  all: by apply rel_next.
Qed.

Lemma repeat_wp a w :
  nm_rel a w →
  let s := match a_st a with
           | NM_STATE_REPEAT_MESSAGE =>
               if (a_imm a =? 0) && timer_over (a_now a) (a_nmt a) then if a_req a then NM_STATE_NORMAL_OPERATION else NM_STATE_READY_SLEEP else a_next a
           | _ => a_next a
           end in
  wp (CanNm_RepeatMessageTimeoutHandling (a_st a)) (λ _, nm_post (nm_trace w) (with_next s a, [])) w.
Proof.
  intros Ha s. subst s. unfold CanNm_RepeatMessageTimeoutHandling. wp_step. wp_step. rewrite (proj1 (r_imm _ _ Ha)).
  assert (wp (mret tt : M W unit) (λ _, nm_post (nm_trace w) (with_next (a_next a) a, [])) w) as Hstay
    by (apply wp_ret; rewrite with_next_same; by apply nm_post_stay).
  destruct (a_imm a =? 0); cbn [when andb]; [|by destruct (a_st a)].
  destruct (a_st a); try exact Hstay. wp_step. apply (update_nmt a); [done|]. intros ? w1 H1 Etr. rewrite <-Etr.
  rewrite answer_elapsed. destruct (timer_over (a_now a) (a_nmt a)); cbn [when]; [|apply wp_ret; rewrite with_next_same; by apply nm_post_stay].
  wp_step. wp_step. rewrite (r_req _ _ H1). by destruct (a_req a); apply rel_next.
Qed.

Lemma request_wp a w :
  nm_rel a w →
  let s := match a_st a with
           | NM_STATE_BUS_SLEEP | NM_STATE_PREPARE_BUS_SLEEP => if a_req a then NM_STATE_REPEAT_MESSAGE else a_next a
           | NM_STATE_READY_SLEEP => if a_req a then NM_STATE_NORMAL_OPERATION else a_next a
           | NM_STATE_NORMAL_OPERATION => if a_req a then a_next a else NM_STATE_READY_SLEEP
           | _ => a_next a
           end in
  wp (CanNm_NetworkRequestHandling (a_st a) (net_of (a_req a)))
    (λ _, nm_post (nm_trace w) (mkA (a_st a) s (a_req a) (a_en a) (a_idx a) (nm_imm a) (a_nmt a) (a_cyc a) (a_now a) (a_on a) (a_fit a), [])) w.
Proof.
  intros Ha s. subst s. unfold CanNm_NetworkRequestHandling, nm_imm, set_nm. pose proof (u16_bound cp_BB_CanNmImmediateNmTransmissions).
  destruct (a_st a) eqn:Est, (a_req a) eqn:Er; cbn; wp_steps; (split; [|by rewrite app_nil_r]);
    destruct Ha; rewrite ?Est, ?Er in *; split; cbn in *; try done; destruct r_valid0, r_imm0; (split; [done|lia]).
Qed.

(** ** Entering a state *)

Lemma power_wp a w : nm_rel a w → wp request_power (λ _, nm_post (nm_trace w) (a, [NPowerOn])) w.
Proof.
  intros Ha. unfold request_power, nm_call_, nm_ev. wp_steps. destruct (request_quiet (CanNm_PwrReqID (nm w)) (nm_up w)).
  split; [rel_build Ha|]. cbn. by rewrite nm_outs_snoc.
Qed.

(** Sending, then requesting the processor. *)
Lemma send_power_wp a w :
  nm_rel a w → wp (CanNm_TriggerTransmission;; request_power) (λ _, nm_post (nm_trace w) (a, sends a ++ [NPowerOn])) w.
Proof.
  intros Ha. eapply nm_post_bind; [by apply trigger_wp|]. intros x w' H' Ho.
  eapply wp_mono; [by apply power_wp|]. intros [] w'' [Hr'' Ho'']. split; [done|]. cbn [snd] in *. by rewrite Ho'', Ho, <-app_assoc.
Qed.

Lemma enter_sleep_wp a w : nm_rel a w → a_next a = NM_STATE_BUS_SLEEP →
  wp (CanNm_SetState NM_STATE_BUS_SLEEP) (λ _, nm_post (nm_trace w) (nm_enter NM_STATE_BUS_SLEEP a)) w.
Proof.
  intros Ha En. unfold CanNm_SetState, set_nm, timer_init, nm_call_, nm_ev. wp_steps. unfold set_nm. wp_steps. cbn.
  destruct (sleep_quiet (nm_up w)). destruct (release_quiet (CanNm_PwrReqID (nm w)) (rbdPwrMgmtAnc_SleepIndication (nm_up w))).
  split; [|cbn; by rewrite !nm_outs_snoc, <-app_assoc]. rel_build Ha.
Qed.

Lemma enter_normal_wp a w : nm_rel a w → a_next a = NM_STATE_NORMAL_OPERATION →
  wp (CanNm_SetState NM_STATE_NORMAL_OPERATION) (λ _, nm_post (nm_trace w) (nm_enter NM_STATE_NORMAL_OPERATION a)) w.
Proof.
  intros Ha En. unfold CanNm_SetState, nm_enter.
  set (b c := mkA NM_STATE_NORMAL_OPERATION NM_STATE_NORMAL_OPERATION (a_req a) (a_en a) (a_idx a) (a_imm a) None c (a_now a) (a_on a) (a_fit a)).
  unfold timer_init, set_nm. do 6 wp_step. set (w0 := mkNmWorld _ _ _).
  assert (nm_rel (b (a_cyc a)) w0) as Hb by rel_build Ha. wp_step. apply (update_cyc (b (a_cyc a))); [done|]. intros sb w1 H1 Etr.
  change (nm_trace w0) with (nm_trace w) in Etr. cbn [a_now a_cyc b].
  assert (bool_decide (timer_answer (a_now a) (a_cyc a) sb = RBD_ELTIME_RBTIMER_STATE_RUNNING) =
          bool_decide (is_Some (a_cyc a)) && negb (timer_over (a_now a) (a_cyc a))) as ->.
  { destruct (a_cyc a) as [e|]; [|by destruct sb]. cbn. destruct (Z.ltb_spec (a_now a) e); [rewrite (proj2 (Z.leb_gt _ _)) by lia | rewrite (proj2 (Z.leb_le _ _)) by lia]; done. }
  rewrite <-Etr. destruct (_ && _); cbn [negb when]; [wp_step; wp_step; by apply power_wp|].
  unfold timer_start, set_nm. do 5 wp_step. set (w2 := mkNmWorld _ _ _).
  assert (nm_rel (b (Some (a_now a + cp_BB_APS_CanNmMsgCycleTime))) w2) as Hb' by rel_build H1. wp_step.
  eapply wp_mono; [by apply trigger_wp|]. intros x w3 [H3 Ho3]. wp_step.
  eapply wp_mono; [by apply power_wp|]. intros [] w4 [H4 Ho4]. split; [done|]. cbn [snd fst] in *. by rewrite Ho4, Ho3, <-app_assoc.
Qed.

Lemma enter_repeat_wp a w : nm_rel a w → a_next a = NM_STATE_REPEAT_MESSAGE →
  wp (CanNm_SetState NM_STATE_REPEAT_MESSAGE) (λ _, nm_post (nm_trace w) (nm_enter NM_STATE_REPEAT_MESSAGE a)) w.
Proof.
  intros Ha En. unfold CanNm_SetState, nm_enter. pose proof (r_imm _ _ Ha) as [Ei Hi].
  set (b i c := mkA NM_STATE_REPEAT_MESSAGE NM_STATE_REPEAT_MESSAGE (a_req a) (a_en a) (a_idx a) i (Some (a_now a + cp_BB_APS_CanNmRepeatMessageTime)) c (a_now a) (a_on a) (a_fit a)).
  unfold timer_start, set_nm. do 9 wp_step.
  cbn [nm CanNm_ImmediateTransmissionCount set_NmTimeoutTimer set_State]. rewrite Ei.
  destruct (0 <? a_imm a) eqn:E; bools.
  - do 5 wp_step. set (w2 := mkNmWorld _ _ _).
    apply (send_power_wp (b (a_imm a - 1) (Some (a_now a + cp_BB_CanNmImmediateNmCycleTime))) w2). rel_build Ha. lia.
  - do 3 wp_step. set (w2 := mkNmWorld _ _ _).
    apply (send_power_wp (b (a_imm a) (Some (a_now a + cp_BB_APS_CanNmMsgCycleTime))) w2). rel_build Ha.
Qed.

Lemma set_state_wp s a w :
  nm_rel a w → a_next a = s → s ≠ NM_STATE_MAX_NUMBER → wp (CanNm_SetState s) (λ _, nm_post (nm_trace w) (nm_enter s a)) w.
Proof.
  intros Ha En Hs. destruct s; [by apply enter_sleep_wp | | | by apply enter_normal_wp | by apply enter_repeat_wp | done].
  all: unfold CanNm_SetState, set_nm, timer_start, timer_init; wp_steps; unfold set_nm; wp_steps; (split; [rel_build Ha|by rewrite app_nil_r]).
Qed.

Lemma change_wp a w :
  nm_rel a w →
  wp (change_state (a_st a)) (λ _, nm_post (nm_trace w) (if bool_decide (a_next a = a_st a) then (a, []) else nm_enter (a_next a) a)) w.
Proof.
  intros Ha. unfold change_state. wp_step. wp_step. rewrite (r_next _ _ Ha). pose proof (r_valid _ _ Ha) as [_ Hn].
  destruct (bool_decide (a_next a = a_st a)); cbn [negb when]; [by apply wp_ret, nm_post_stay|].
  assert (wp (when (bool_decide (a_st a = NM_STATE_REPEAT_MESSAGE)) (set_tx_bit bit_RepeatMessageRequest false))
    (λ _, nm_post (nm_trace w) (a, [])) w) as Hbit.
  { wp_step; [|by apply nm_post_stay]. unfold set_tx_bit. do 3 wp_step.
    destruct (put_bit bit_RepeatMessageRequest false (nm_TxData (nm w))) as [d|] eqn:Ed.
    - destruct (bit_put _ _ _ _ Ed) as [Hl _]. eapply wp_lift; [reflexivity|]. unfold set_nm. wp_step. split; [rel_build Ha|by rewrite app_nil_r].
    - exfalso. unfold put_bit in Ed. destruct (aget_is_Some (nm_TxData (nm w)) 1) as [x Ex]; [rewrite (r_data _ _ Ha); unfold CANNM_FRAME_LENGTH; lia|].
      rewrite Ex in Ed. cbn in Ed. rewrite aset_is_Some in Ed; [done|]. by eapply aget_Some. }
  eapply nm_post_bind; [exact Hbit|]. intros _ w1 H1 Ho1. eapply wp_mono; [by apply set_state_wp|]. intros [] w2. apply post_from.
  by rewrite Ho1, app_nil_r.
Qed.

(** ** The calls *)

Lemma get_state_wp a w (Q : Std_ReturnType * option (CanNm_StateType * CanNm_ModeType) → W → Prop) :
  nm_rel a w → (∀ m, (a_st a = NM_STATE_BUS_SLEEP ↔ m = NM_MODE_BUS_SLEEP) → (a_st a = NM_STATE_PREPARE_BUS_SLEEP ↔ m = NM_MODE_PREPARE_BUS_SLEEP) →
    Q (E_OK, Some (a_st a, m)) w) →
  wp (CanNm_GetState true true) Q w.
Proof.
  intros Ha HQ. unfold CanNm_GetState. cbn [negb orb]. wp_step. wp_step. wp_step. rewrite (r_st _ _ Ha). pose proof (r_valid _ _ Ha) as [Hv _].
  destruct (a_st a); try done; by apply HQ.
Qed.

Lemma with_state_wp {R} api err_api (fail : R) body a w (Q : R → W → Prop) :
  nm_rel a w →
  (∀ m, (a_st a = NM_STATE_BUS_SLEEP ↔ m = NM_MODE_BUS_SLEEP) → (a_st a = NM_STATE_PREPARE_BUS_SLEEP ↔ m = NM_MODE_PREPARE_BUS_SLEEP) →
    wp (body (a_st a) m) Q w) →
  wp (with_state api err_api fail body) Q w.
Proof.
  intros Ha HQ. unfold with_state, CanNm_IsModuleInitialized. wp_step. wp_step. rewrite (r_init _ _ Ha). cbn [negb]. wp_step.
  apply (get_state_wp a); [done|]. intros m H1 H2. cbv beta iota. rewrite bool_decide_true by done. cbn [negb]. wp_step. eapply wp_lift; [reflexivity|]. by apply HQ.
Qed.

(** The handlers, one after the other, compute the target. *)
Lemma handlers_wp a w :
  nm_rel a w →
  wp (CanNm_NmTimeoutTimerHandling (a_st a);; CanNm_RepeatMessageTimeoutHandling (a_st a);;
      ns ← gets (λ w, CanNm_Network_State (nm w)); CanNm_NetworkRequestHandling (a_st a) ns;; CanNm_MsgTimeoutTimerHandling)
    (λ _, nm_post (nm_trace w)
      (mkA (a_st a) (nm_target a) (a_req a) (a_en a) (a_idx a) (nm_imm a) (a_nmt a) (a_cyc a) (a_now a) (a_on a) (a_fit a), [])) w.
Proof.
  intros Ha. eapply nm_post_bind; [by apply timeout_wp|]. intros _ w1 H1 Ho1. cbn [snd] in Ho1. rewrite app_nil_r in Ho1.
  set (a1 := with_next _ a) in H1. eapply nm_post_bind; [by apply (repeat_wp a1)|]. intros _ w2 H2 Ho2. rewrite app_nil_r in Ho2.
  set (a2 := with_next _ a1) in H2. wp_step. wp_step. rewrite (r_req _ _ H2).
  eapply nm_post_bind; [by apply (request_wp a2)|]. intros _ w3 H3 Ho3. rewrite app_nil_r in Ho3.
  eapply wp_mono; [by apply msg_timeout_wp|]. intros [] w4. replace (nm_target a) with (a_next (mkA (a_st a2)
    match a_st a2 with
    | NM_STATE_BUS_SLEEP | NM_STATE_PREPARE_BUS_SLEEP => if a_req a2 then NM_STATE_REPEAT_MESSAGE else a_next a2
    | NM_STATE_READY_SLEEP => if a_req a2 then NM_STATE_NORMAL_OPERATION else a_next a2
    | NM_STATE_NORMAL_OPERATION => if a_req a2 then a_next a2 else NM_STATE_READY_SLEEP
    | _ => a_next a2
    end (a_req a2) (a_en a2) (a_idx a2) (nm_imm a2) (a_nmt a2) (a_cyc a2) (a_now a2) (a_on a2) (a_fit a2))).
  - apply post_from. congruence.
  - unfold nm_target. cbn. destruct (a_st a); cbn; try done; destruct (a_req a); try done; destruct (timer_over _ _); try done; by destruct (_ =? _).
Qed.

Lemma nm_main_wp a w : nm_rel a w → wp CanNm_MainFunction (λ _, nm_post (nm_trace w) (nm_main a)) w.
Proof.
  intros Ha. unfold CanNm_MainFunction, nm_main. wp_step. wp_step. wp_step. wp_step. rewrite (r_on _ _ Ha), (r_fit _ _ Ha).
  destruct (negb (a_on a) && a_fit a); [by apply wp_ret, nm_post_stay|]. apply (with_state_wp _ _ _ _ a); [done|]. intros m _ _.
  pose proof (cycle_wp a w Ha) as Hc. assert (a_st (fst (nm_cycle a)) = a_st a) as Est by (unfold nm_cycle; by destruct (timer_over _ _)).
  destruct (nm_cycle a) as [a1 l1]. cbn [fst] in Est. rewrite <-Est in *. eapply nm_post_bind; [exact Hc|]. intros _ w1 H1 Ho1.
  pose proof (handlers_wp a1 w1 H1) as Hh. apply wp_bind_inv in Hh. wp_step. eapply wp_mono; [exact Hh|]. clear Hh. intros ? w2 Hh.
  apply wp_bind_inv in Hh. wp_step. eapply wp_mono; [exact Hh|]. clear Hh. intros ? w3 Hh.
  apply wp_bind_inv in Hh. wp_step. eapply wp_mono; [exact Hh|]. clear Hh. intros ns w4 Hh.
  apply wp_bind_inv in Hh. wp_step. eapply wp_mono; [exact Hh|]. clear Hh. intros ? w5 Hh.
  wp_step. eapply wp_mono; [exact Hh|]. clear Hh. intros ? w6 [H6 Ho6]. cbn [fst snd] in H6, Ho6. rewrite app_nil_r in Ho6.
  pose proof (change_wp _ _ H6) as Hch. cbn [a_st a_next] in Hch. eapply wp_mono; [exact Hch|]. intros [] w7 [H7 Ho7].
  destruct (bool_decide (nm_target a1 = a_st a1)); cbn [fst snd] in *.
  - split; [done|]. cbn [snd]. by rewrite Ho7, Ho6, Ho1, app_nil_r.
  - destruct (nm_enter _ _) as [a'' l'']. split; [done|]. cbn [fst snd] in *. by rewrite Ho7, Ho6, Ho1, <-app_assoc.
Qed.

(** A frame whose repeat-message bit is [rep]. *)
Definition nm_frame (rep : bool) (Info : PduInfoType) : Prop :=
  CANNM_FRAME_MIN_LENGTH ≤ SduLength Info ∧ ∃ d, SduDataPtr Info = Some d ∧ SduLength Info ≤ lenZ d ∧
    ∃ x, aget d 1 = Some x ∧ Z.testbit x bit_RepeatMessageRequest = rep.

Lemma aget_take {A} (l z : list A) n i : 0 ≤ i < n → n ≤ lenZ l → aget (take (Z.to_nat n) l ++ z) i = aget l i.
Proof.
  intros Hi Hn. unfold aget, lenZ in *. rewrite !decide_True by lia. rewrite lookup_app_l by (rewrite length_take; lia).
  by rewrite lookup_take_lt by lia.
Qed.

Lemma rx_copy_spec rep Info :
  nm_frame rep Info → ∃ data x, rx_copy Info = Some data ∧ aget data 1 = Some x ∧ Z.testbit x bit_RepeatMessageRequest = rep.
Proof.
  intros (Hmin & d & Ed & Hl & x & Ex & Hx). unfold rx_copy, CANNM_FRAME_LENGTH, CANNM_FRAME_MIN_LENGTH in *. rewrite Ed. cbn [mbind option_bind].
  destruct (Z.leb_spec 8 (SduLength Info)); rewrite aslice_is_Some by lia; cbn [mbind option_bind]; change (Z.to_nat 0) with 0%nat; rewrite drop_0.
  - eexists _, x. split; [done|]. split; [|done]. rewrite <-(app_nil_r (take _ _)), aget_take; [done | lia..].
  - rewrite awrite_is_Some; [|lia|unfold lenZ in *; rewrite length_take, length_replicate; lia].
    eexists _, x. split; [done|]. split; [|done]. change (take (Z.to_nat 0) (replicate (Z.to_nat 8) 0)) with (@nil Z). rewrite app_nil_l, aget_take; [done | lia..].
Qed.

End ref.
