(* ===== verification/CanNmClaims.v ===== *)
(** * CanNm: what the module guarantees *)

From S2P Require Import Prelude ComStack ElTime CanNm CanNmSpec CanNmRef.
From stdpp Require Import base list numbers option.

#[local] Open Scope Z_scope.

Section calls.
Context {T U : Type} `{HT : ElTime T U} {HL : ElTimeLaws T U} {HE : CanNm_Env U} {HC : NmClock T U}.
Abbreviation W := (NmWorld T U).

(** The calls of the module and the operations of the automaton they stand for. *)
Inductive nm_does : nm_op → M W unit → Prop :=
| does_main : nm_does NMain CanNm_MainFunction
| does_passive : nm_does NPassive (CanNm_PassiveStartUp;; mret tt)
| does_request : nm_does NRequest (CanNm_NetworkRequest;; mret tt)
| does_release : nm_does NRelease (CanNm_NetworkRelease;; mret tt)
| does_conf id : nm_does NNothing (CanNm_TxConfirmation id)
| does_short id Info : SduLength Info < CANNM_FRAME_MIN_LENGTH → nm_does NNothing (CanNm_RxIndication id (Some Info))
| does_rx id Info rep : nm_frame rep Info → nm_does (NRx rep) (CanNm_RxIndication id (Some Info))
| does_idx i : 0 ≤ i < lenZ CanNm_NodeId → idx_ok i → nm_does (NIdx i) (CanNm_SetCanIdx i)
| does_env n on : nm_does (NEnv n on) (modify (λ w, mkNmWorld (nm w) (nm_env n on (nm_up w)) (nm_trace w))).

Fixpoint nm_calls (ms : list (M W unit)) : M W unit := match ms with [] => mret tt | m :: ms => m;; nm_calls ms end.

(** The main function runs at the given distances. *)
Fixpoint idle_calls (n : Z) (ds : list Z) : list (M W unit) :=
  match ds with
  | [] => []
  | d :: ds =>
      modify (λ w, mkNmWorld (nm w) (nm_env (n + d) true (nm_up w)) (nm_trace w)) :: CanNm_MainFunction :: idle_calls (n + d) ds
  end.

Lemma idle_calls_do n ds : Forall2 nm_does (idle_ops n ds) (idle_calls n ds).
Proof. revert n. induction ds as [|d ds IH]; intros n; cbn; repeat constructor; auto. Qed.

Ltac rel_build H := destruct H; split; cbn in *; rewrite ?timer_init_off, ?timer_start_on, ?timer_update_keeps; try done; try congruence.

Lemma rx_wp a w id Info rep :
  nm_rel a w → nm_frame rep Info → wp (CanNm_RxIndication id (Some Info)) (λ _, nm_post (nm_trace w) (nm_received rep a, [])) w.
Proof.
  intros Ha Hf. destruct (rx_copy_spec rep Info Hf) as (data & x & Ec & Ex & Hx). destruct Hf as (Hmin & _).
  unfold CanNm_RxIndication, CanNm_IsModuleInitialized. wp_step. wp_step. rewrite (r_init _ _ Ha). cbn [negb].
  wp_step. eapply wp_lift; [reflexivity|]. rewrite (proj2 (Z.ltb_ge _ _)) by done. wp_step. eapply wp_lift; [exact Ec|].
  wp_step. apply (get_state_wp a); [done|]. intros m _ _. cbv beta iota. rewrite bool_decide_true by done. cbn [negb].
  wp_step. eapply wp_lift; [reflexivity|]. cbv beta iota. wp_step. pose proof (r_valid _ _ Ha) as [Hv _].
  pose proof (r_idx _ _ Ha) as [Ei Hi]. destruct (aget_is_Some _ _ Hi) as [red Er].
  unfold nm_received, timer_start, set_nm. rewrite Er. cbn [default].
  destruct (a_st a) eqn:Est; try done; wp_steps;
    rewrite ?Ei; try (eapply wp_lift; [exact Er|]); wp_steps; (eapply wp_lift; [exact Ex|]); rewrite Hx; destruct rep; cbn [andb]; wp_steps; bools.
  all: try (exfalso; by rewrite ?bool_decide_true, ?bool_decide_false in *).
  all: cbn; try rewrite (proj2 (Z.ltb_lt 0 red)) by done; try rewrite (proj2 (Z.ltb_ge 0 red)) by done.
  all: (split; [|by rewrite app_nil_r]); rel_build Ha; try (split; congruence); by destruct r_valid0.
Qed.

Lemma does_wp op m a w : nm_does op m → nm_rel a w → wp m (λ _, nm_post (nm_trace w) (nm_step a op)) w.
Proof.
  intros Hd Ha. destruct Hd as [| | | |id|id Info Hs|id Info rep Hf|i Hi Hok|n on]; cbn [nm_step].
  - by apply nm_main_wp.
  - wp_step. apply (with_state_wp _ _ _ _ a); [done|]. intros m Hm1 Hm2. unfold set_nm.
    destruct (a_st a) eqn:Est, m; try done; try (by exfalso; destruct Hm1, Hm2; intuition congruence);
      cbn [bool_decide]; rewrite ?bool_decide_true, ?bool_decide_false by done; cbn [orb]; wp_steps;
      try (by apply nm_post_stay); (split; [|by rewrite app_nil_r]); rel_build Ha; split; congruence.
  - wp_step. apply (with_state_wp _ _ _ _ a); [done|]. intros m _ _. unfold set_nm. wp_steps. split; [rel_build Ha|by rewrite app_nil_r].
  - wp_step. apply (with_state_wp _ _ _ _ a); [done|]. intros m _ _. unfold set_nm. wp_steps. split; [rel_build Ha|by rewrite app_nil_r].
  - unfold CanNm_TxConfirmation, CanNm_IsModuleInitialized, timer_init, set_nm. wp_step. wp_step. rewrite (r_init _ _ Ha). cbn [negb]. wp_steps.
    split; [rel_build Ha|by rewrite app_nil_r].
  - unfold CanNm_RxIndication, CanNm_IsModuleInitialized, nm_det, nm_ev. wp_step. wp_step. rewrite (r_init _ _ Ha). cbn [negb].
    wp_step. eapply wp_lift; [reflexivity|]. rewrite (proj2 (Z.ltb_lt _ _)) by done. wp_step. split; [rel_build Ha|]. cbn. by rewrite nm_outs_snoc.
  - by apply rx_wp.
  - unfold CanNm_SetCanIdx, set_nm. wp_step. destruct (aget_is_Some _ _ Hi) as [x Ex]. eapply wp_lift; [exact Ex|]. do 3 wp_step.
    eapply wp_lift; [apply aset_is_Some; rewrite (r_data _ _ Ha); unfold CANNM_FRAME_LENGTH; lia|]. wp_steps.
    split; [|by rewrite app_nil_r]. rel_build Ha. by rewrite lenZ_insert.
  - wp_step. split; [|by rewrite app_nil_r]. rel_build Ha; [apply env_now | apply env_online].
Qed.

Lemma nm_calls_wp ops ms a w :
  Forall2 nm_does ops ms → nm_rel a w → wp (nm_calls ms) (λ _, nm_post (nm_trace w) (nm_run a ops)) w.
Proof.
  intros Hf. revert a w. induction Hf as [|op m ops ms Hd _ IH]; intros a w Ha; cbn [nm_calls nm_run].
  - by apply wp_ret, nm_post_stay.
  - wp_step. eapply wp_mono; [by apply does_wp|]. intros [] w1 [H1 Ho1]. destruct (nm_step a op) as [a1 l1]. cbn [fst snd] in *.
    eapply wp_mono; [by apply (IH a1)|]. intros [] w2 [H2 Ho2]. destruct (nm_run a1 ops) as [a2 l2]. split; [done|].
    cbn [snd] in *. by rewrite Ho2, Ho1, <-app_assoc.
Qed.

(** CanNm_Init, from static memory. *)
Lemma init_wp (w : W) :
  lenZ (nm_TxData (nm w)) = CANNM_FRAME_LENGTH → idx_ok (nm_CanIdx (nm w)) →
  wp CanNm_Init (λ _, nm_post (nm_trace w)
    (nm_start (nm_CanIdx (nm w)) (now (nm_up w)) (CanSm_online (nm_up w)) (rbdPlantData_CanLoaded (nm_up w)), [])) w.
Proof.
  intros Hd Hi. unfold CanNm_Init, timer_init, nm_call, set_nm. do 5 wp_step.
  eapply wp_lift; [apply awrite_is_Some; [lia|rewrite Hd; done]|]. wp_steps. unfold set_nm. wp_steps.
  cbn. destruct (getid_quiet (nm_up w)) as [Hn Ho]. destruct (rbdPwrReq_GetID (nm_up w)) as [i u']. cbn in Hn, Ho. wp_steps.
  split; [|by rewrite app_nil_r]. split; cbn; rewrite ?timer_init_off; try done.
  destruct (nm_TxData (nm w)) as [|b0 [|b1 [|b2 [|b3 [|b4 [|b5 [|b6 [|b7 l]]]]]]]]; done.
Qed.
(** From CanNm_Init on. *)
Definition started (w : W) (ops : list nm_op) : NmA * list nm_out :=
  nm_run (nm_start (nm_CanIdx (nm w)) (now (nm_up w)) (CanSm_online (nm_up w)) (rbdPlantData_CanLoaded (nm_up w))) ops.

Lemma started_wp ops ms w :
  lenZ (nm_TxData (nm w)) = CANNM_FRAME_LENGTH → idx_ok (nm_CanIdx (nm w)) → Forall2 nm_does ops ms →
  wp (CanNm_Init;; nm_calls ms) (λ _, nm_post (nm_trace w) (started w ops)) w.
Proof.
  intros Hd Hi Hf. wp_step. eapply wp_mono; [by apply init_wp|]. intros [] w1 [H1 Ho1]. cbn [fst snd] in *. rewrite app_nil_r in Ho1.
  eapply wp_mono; [by apply nm_calls_wp|]. intros [] w2. by apply post_from.
Qed.

(** C19. CanNm implements the network management automaton: after CanNm_Init, whatever sequence
    of main-function runs, requests, releases, passive start-ups, received messages,
    confirmations and index changes follows, and however time passes, every call has a defined
    result, the messages sent (with their active-wake-up bit), the sleep indication and the
    power requests are those of the automaton, and the state is the automaton's. *)
Theorem cannm_refines (ops : list nm_op) (ms : list (M W unit)) (w : W) :
  lenZ (nm_TxData (nm w)) = CANNM_FRAME_LENGTH → idx_ok (nm_CanIdx (nm w)) → Forall2 nm_does ops ms →
  ∃ w', (CanNm_Init;; nm_calls ms) w = Some (tt, w') ∧
    nm_outs (nm_trace w') = nm_outs (nm_trace w) ++ snd (started w ops) ∧ CanNm_State (nm w') = a_st (fst (started w ops)).
Proof.
  intros Hd Hi Hf. destruct (wp_run _ _ _ (started_wp ops ms w Hd Hi Hf)) as ([] & w' & Hrun & Hr & Ho). exists w'. by destruct Hr.
Qed.

(** In every reachable state the timers are those of the state: none in bus sleep, only the
    state's timer in prepare bus sleep and ready sleep, only the message cycle in normal
    operation, both in the repeat message state; so no state waits for a timer that does not
    run. *)
Theorem cannm_timers_match_state (ops : list nm_op) (ms : list (M W unit)) (w : W) :
  lenZ (nm_TxData (nm w)) = CANNM_FRAME_LENGTH → idx_ok (nm_CanIdx (nm w)) → Forall2 nm_does ops ms →
  ∃ w', (CanNm_Init;; nm_calls ms) w = Some (tt, w') ∧
    match CanNm_State (nm w') with
    | NM_STATE_BUS_SLEEP => deadline (NmTimeoutTimer (nm w')) = None ∧ deadline (MsgCycleTimer (nm w')) = None
    | NM_STATE_PREPARE_BUS_SLEEP | NM_STATE_READY_SLEEP =>
        is_Some (deadline (NmTimeoutTimer (nm w'))) ∧ deadline (MsgCycleTimer (nm w')) = None
    | NM_STATE_NORMAL_OPERATION => deadline (NmTimeoutTimer (nm w')) = None ∧ is_Some (deadline (MsgCycleTimer (nm w')))
    | NM_STATE_REPEAT_MESSAGE => is_Some (deadline (NmTimeoutTimer (nm w'))) ∧ is_Some (deadline (MsgCycleTimer (nm w')))
    | NM_STATE_MAX_NUMBER => False
    end.
Proof.
  intros Hd Hi Hf. destruct (wp_run _ _ _ (started_wp ops ms w Hd Hi Hf)) as ([] & w' & Hrun & Hr & _). exists w'. split; [done|].
  assert (∀ a op, nm_timers a → True → nm_timers (fst (nm_step a op)) ∧ Forall (λ _, True) (snd (nm_step a op))) as Hstep.
  { intros a op Ha _. split; [by apply step_timers | by apply Forall_true]. }
  destruct (nm_run_keeps nm_timers (λ _, True) (λ _, True) Hstep ops
    (nm_start (nm_CanIdx (nm w)) (now (nm_up w)) (CanSm_online (nm_up w)) (rbdPlantData_CanLoaded (nm_up w)))) as [[Ht _] _]; [done | by apply Forall_true |].
  fold (started w ops) in Ht. destruct Hr. by rewrite r_st, r_nmt, r_cyc.
Qed.

(** C20. While the network is requested the node does not go to sleep: from a communicating state
    (normal operation or repeat message, with nothing else pending), as long as the network is
    not released, every sequence of calls leaves it in one of these two states, and neither the
    sleep indication nor the release of the processor is given. *)
Theorem cannm_requested_stays_awake (a : NmA) (ops : list nm_op) (ms : list (M W unit)) (w : W) :
  nm_rel a w → awake a → Forall2 nm_does ops ms → Forall (λ op, op ≠ NRelease) ops →
  ∃ w' l, nm_calls ms w = Some (tt, w') ∧ nm_outs (nm_trace w') = nm_outs (nm_trace w) ++ l ∧
    (NSleep ∉ l) ∧ (NPowerOff ∉ l) ∧ communicating (CanNm_State (nm w')).
Proof.
  intros Hr Ha Hf Hops. destruct (wp_run _ _ _ (nm_calls_wp ops ms a w Hf Hr)) as ([] & w' & Hrun & Hr' & Ho).
  destruct (nm_run_keeps awake _ _ step_awake ops a Ha Hops) as [(_ & Hc & _) Hl]. rewrite Forall_forall in Hl.
  exists w', (snd (nm_run a ops)). destruct Hr'. rewrite r_st. split_and!; try done; intros Hin%list_elem_of_In; by destruct (Hl _ Hin).
Qed.

(** A node nobody asks stays silent: after CanNm_Init, without a request, a passive
    start-up or a received message, nothing is sent and the node stays in bus sleep. *)
Theorem cannm_unasked_is_silent (ops : list nm_op) (ms : list (M W unit)) (w : W) :
  lenZ (nm_TxData (nm w)) = CANNM_FRAME_LENGTH → idx_ok (nm_CanIdx (nm w)) → Forall2 nm_does ops ms → Forall unasked ops →
  ∃ w', (CanNm_Init;; nm_calls ms) w = Some (tt, w') ∧ nm_outs (nm_trace w') = nm_outs (nm_trace w) ∧
    CanNm_State (nm w') = NM_STATE_BUS_SLEEP.
Proof.
  intros Hd Hi Hf Hops. destruct (wp_run _ _ _ (started_wp ops ms w Hd Hi Hf)) as ([] & w' & Hrun & Hr & Ho). exists w'.
  assert (∀ a op, asleep a → unasked op → asleep (fst (nm_step a op)) ∧ Forall (λ _, False) (snd (nm_step a op))) as Hstep.
  { intros a op Ha Hop. destruct (step_asleep a op Ha Hop) as [? ->]. done. }
  destruct (nm_run_keeps asleep unasked (λ _, False) Hstep ops
    (nm_start (nm_CanIdx (nm w)) (now (nm_up w)) (CanSm_online (nm_up w)) (rbdPlantData_CanLoaded (nm_up w)))) as [(Hs & _) Hl]; [done..|].
  fold (started w ops) in Hs, Hl. destruct (snd (started w ops)) as [|x l] eqn:E; [|by inversion Hl].
  rewrite app_nil_r in Ho. destruct Hr. by rewrite r_st.
Qed.

(** A node whose index is not assigned (15 or more) sends no message, whatever happens, until
    it gets a valid one. *)
Theorem cannm_invalid_index_is_mute (a : NmA) (ops : list nm_op) (ms : list (M W unit)) (w : W) :
  nm_rel a w → nm_TxEnabled (nm w) = false → Forall2 nm_does ops ms → Forall mute_op ops →
  ∃ w' l, nm_calls ms w = Some (tt, w') ∧ nm_outs (nm_trace w') = nm_outs (nm_trace w) ++ l ∧ Forall not_sending l ∧
    nm_TxEnabled (nm w') = false.
Proof.
  intros Hr He Hf Hops. destruct (wp_run _ _ _ (nm_calls_wp ops ms a w Hf Hr)) as ([] & w' & Hrun & Hr' & Ho).
  rewrite (r_en _ _ Hr) in He. destruct (nm_run_keeps _ _ _ step_mute ops a He Hops) as [He' Hl].
  exists w', (snd (nm_run a ops)). destruct Hr'. by rewrite r_en.
Qed.

(** C21. A released network goes to sleep: when no change of state and no immediate transmission
    is pending, and from now on nothing is received or requested, the bus is online and the main
    function runs at least every [period], the node is in bus sleep, and has given the sleep
    indication, at the latest when the times of the states it has to pass ([time_to_sleep]) are
    over: what is left of the repeat message time (if it is in that state), the NM time-out, the
    wait time and one period for each of the three changes; from ready sleep and prepare bus
    sleep correspondingly less. *)
Theorem cannm_released_sleeps (period : Z) (a : NmA) (ds : list Z) (w : W) :
  0 < period → 0 ≤ cp_BB_APS_CanNmTimeoutTime → 0 ≤ cp_BB_APS_CanNmWaitBusSleepTime →
  nm_rel a w → sleepy a → a_st a ≠ NM_STATE_BUS_SLEEP → Forall (λ d, 0 ≤ d ≤ period) ds → time_to_sleep period a ≤ foldr Z.add 0 ds →
  ∃ w' l, nm_calls (idle_calls (a_now a) ds) w = Some (tt, w') ∧ nm_outs (nm_trace w') = nm_outs (nm_trace w) ++ l ∧
    NSleep ∈ l ∧ CanNm_State (nm w') = NM_STATE_BUS_SLEEP.
Proof.
  intros Hp Ht Hw Hr Ha Hne Hds Hsum. destruct (wp_run _ _ _ (nm_calls_wp _ _ a w (idle_calls_do (a_now a) ds) Hr)) as ([] & w' & Hrun & Hr' & Ho).
  pose proof (idle_sleeps period Hp Ht Hw ds a Ha Hds) as Hs. destruct (nm_run a (idle_ops (a_now a) ds)) as [a' l]. cbn [fst snd] in *.
  destruct Hs as [[Hst Hin]|[_ Hpos]]; [|lia]. exists w', l. destruct Hr'. rewrite r_st. auto.
Qed.

(** A wake-up can be lost: in prepare bus sleep, when a message has been received or a
    passive start-up accepted after the wait time has run out but before the main function has
    run again, the main function still goes to bus sleep, and without another request the node
    stays there. *)
Theorem cannm_wakeup_lost (a : NmA) (e : Z) (wake : nm_op) (m : M W unit) (ops : list nm_op) (ms : list (M W unit)) (w : W) :
  nm_rel a w → a_st a = NM_STATE_PREPARE_BUS_SLEEP → a_req a = false → a_on a = true → a_nmt a = Some e → e ≤ a_now a → a_cyc a = None →
  (wake = NPassive ∨ ∃ rep, wake = NRx rep) → nm_does wake m → Forall2 nm_does ops ms → Forall unasked ops →
  ∃ w' , nm_calls (m :: CanNm_MainFunction :: ms) w = Some (tt, w') ∧
    nm_outs (nm_trace w') = nm_outs (nm_trace w) ++ [NSleep; NPowerOff] ∧ CanNm_State (nm w') = NM_STATE_BUS_SLEEP.
Proof.
  intros Hr Hs Hq Hon Hn Hle Hc Hwake Hd Hf Hops.
  destruct (wp_run _ _ _ (nm_calls_wp (wake :: NMain :: ops) (m :: CanNm_MainFunction :: ms) a w ltac:(repeat constructor; done) Hr))
    as ([] & w' & Hrun & Hr' & Ho). exists w'. split; [done|].
  destruct (wakeup_overrun a e wake) as (b & E & Hb); [done..|].
  change (wake :: NMain :: ops) with ([wake; NMain] ++ ops) in *. rewrite nm_run_app, E in *. cbn [fst snd] in *.
  assert (∀ a op, asleep a → unasked op → asleep (fst (nm_step a op)) ∧ Forall (λ _, False) (snd (nm_step a op))) as Hstep.
  { intros x op Hx Hop. destruct (step_asleep x op Hx Hop) as [? ->]. done. }
  destruct (nm_run_keeps asleep unasked (λ _, False) Hstep ops b Hb Hops) as [(Hs' & _) Hl]. destruct (nm_run b ops) as [b' l]. cbn [fst snd] in *.
  destruct l as [|x l]; [|by inversion Hl]. destruct Hr'. by rewrite r_st.
Qed.
End calls.

(** ** A concrete node

    Time in milliseconds, the bus on or off line; messages go out. *)

#[export] Instance ex_nm_timer : ElTime EndTimer (Z * bool) := end_timer fst.
#[export] Instance ex_nm_laws : ElTimeLaws EndTimer (Z * bool) := end_timer_laws fst.
#[export] Instance ex_nm_env : CanNm_Env (Z * bool) := {|
  PduR_TxPdu_AnchorNm := 7; CanNm_NodeId := seqZ 32 16; cp_BB_CanNmMsgReducedTime := replicate 16 0;
  cp_BB_APS_CanNmTimeoutTime := 2000; cp_BB_APS_CanNmWaitBusSleepTime := 1500; cp_BB_APS_CanNmRepeatMessageTime := 1600;
  cp_BB_APS_CanNmMsgCycleTime := 640; cp_BB_CanNmImmediateNmCycleTime := 20; cp_BB_CanNmImmediateNmTransmissions := 3;
  nm_PduR_Transmit := λ _ _ u, (E_OK, u); CanSm_online := snd; rbdPlantData_CanLoaded := λ _, true;
  rbdPwrReq_GetID := λ u, (1, u); rbdPwrReq_RequestService := λ _ u, u; rbdPwrReq_ReleaseService := λ _ u, u;
  rbdPwrMgmtAnc_SleepIndication := λ u, u
|}.
#[export] Instance ex_nm_clock : NmClock EndTimer (Z * bool).
Proof. refine {| nm_env := λ n on _, (n, on) |}; done. Defined.

Definition ex_nm (s next : CanNm_StateType) (ns : CanNm_AdditionalNetworkStateType) (en : bool) (nmt cyc : option Z) : NmWorld EndTimer (Z * bool) :=
  mkNmWorld (mkNm next ns true s en 2 (timer_of nmt) (timer_of cyc) TimerIdle 7 8 (replicate 8 0) true 1 0) (1000, true) [].
Definition ex_nm_static : NmWorld EndTimer (Z * bool) :=
  mkNmWorld (mkNm NM_STATE_BUS_SLEEP NM_NETWORK_STATE_REQUESTED false NM_STATE_BUS_SLEEP false 0 TimerIdle TimerIdle TimerIdle 0 0 (replicate 8 0) true 0 0) (0, true) [].

Definition ex_nm_a (s next : CanNm_StateType) (req en : bool) (nmt cyc : option Z) : NmA := mkA s next req en 2 0 nmt cyc 1000 true true.
Lemma ex_nm_rel s next req en nmt cyc :
  s ≠ NM_STATE_MAX_NUMBER → next ≠ NM_STATE_MAX_NUMBER → nm_rel (ex_nm_a s next req en nmt cyc) (ex_nm s next (net_of req) en nmt cyc).
Proof. intros. split; try done; apply end_timer_of. Qed.

(** A message of two bytes with the repeat bit. *)
Definition ex_nm_frame : PduInfoType := mkPduInfo (Some [5; 1]) 2.
Lemma ex_nm_frame_ok : nm_frame true ex_nm_frame.
Proof. split; [done|]. exists [5; 1]. split; [done|]. split; [done|]. by exists 1. Qed.

(** A request, then the main function: the node repeats its message. *)
Lemma cannm_refines_witness :
  ∃ w', (CanNm_Init;; nm_calls [CanNm_NetworkRequest;; mret tt; CanNm_MainFunction]) ex_nm_static = Some (tt, w') ∧
    nm_outs (nm_trace w') = [NSend true; NPowerOn] ∧ CanNm_State (nm w') = NM_STATE_REPEAT_MESSAGE.
Proof.
  assert (Forall2 nm_does [NRequest; NMain] [CanNm_NetworkRequest;; mret tt; CanNm_MainFunction]) as Hf by repeat constructor.
  assert (idx_ok (nm_CanIdx (nm ex_nm_static))) as Hi by done.
  exact (cannm_refines _ _ ex_nm_static eq_refl Hi Hf).
Defined.

Lemma cannm_timers_match_state_witness :
  ∃ w', (CanNm_Init;; nm_calls [CanNm_NetworkRequest;; mret tt; CanNm_MainFunction]) ex_nm_static = Some (tt, w') ∧
    CanNm_State (nm w') = NM_STATE_REPEAT_MESSAGE ∧ is_Some (end_of (NmTimeoutTimer (nm w'))) ∧ is_Some (end_of (MsgCycleTimer (nm w'))).
Proof.
  assert (Forall2 nm_does [NRequest; NMain] [CanNm_NetworkRequest;; mret tt; CanNm_MainFunction]) as Hf by repeat constructor.
  assert (idx_ok (nm_CanIdx (nm ex_nm_static))) as Hi by done.
  destruct (cannm_timers_match_state _ _ ex_nm_static eq_refl Hi Hf) as (w' & Hrun & Ht).
  exists w'. split; [exact Hrun|]. revert Ht. assert (CanNm_State (nm w') = NM_STATE_REPEAT_MESSAGE) as E.
  { vm_compute in Hrun. injection Hrun as <-. done. }
  rewrite E. done.
Defined.

(** The peer asks for a repeat message phase. *)
Lemma cannm_requested_stays_awake_witness :
  ∃ w' l, nm_calls [CanNm_RxIndication 0 (Some ex_nm_frame); CanNm_MainFunction]
      (ex_nm NM_STATE_NORMAL_OPERATION NM_STATE_NORMAL_OPERATION (net_of true) true None (Some 1500)) = Some (tt, w') ∧
    nm_outs (nm_trace w') = [] ++ l ∧ (NSleep ∉ l) ∧ (NPowerOff ∉ l) ∧ communicating (CanNm_State (nm w')).
Proof.
  assert (Forall2 nm_does [NRx true; NMain] [CanNm_RxIndication 0 (Some ex_nm_frame); CanNm_MainFunction]) as Hf
    by (repeat constructor; apply ex_nm_frame_ok).
  assert (Forall (λ op, op ≠ NRelease) [NRx true; NMain]) as Hops by (repeat constructor; done).
  assert (awake (ex_nm_a NM_STATE_NORMAL_OPERATION NM_STATE_NORMAL_OPERATION true true None (Some 1500))) as Ha by (split_and!; [done | by left | by left]).
  exact (cannm_requested_stays_awake _ _ _ _ (ex_nm_rel NM_STATE_NORMAL_OPERATION NM_STATE_NORMAL_OPERATION true true None (Some 1500) ltac:(done) ltac:(done)) Ha Hf Hops).
Defined.

Lemma cannm_unasked_is_silent_witness :
  ∃ w', (CanNm_Init;; nm_calls [CanNm_MainFunction; CanNm_TxConfirmation 7; CanNm_MainFunction]) ex_nm_static = Some (tt, w') ∧
    nm_outs (nm_trace w') = [] ∧ CanNm_State (nm w') = NM_STATE_BUS_SLEEP.
Proof.
  assert (Forall2 nm_does [NMain; NNothing; NMain] [CanNm_MainFunction; CanNm_TxConfirmation 7; CanNm_MainFunction]) as Hf by repeat constructor.
  assert (Forall unasked [NMain; NNothing; NMain]) as Hops by repeat constructor.
  assert (idx_ok (nm_CanIdx (nm ex_nm_static))) as Hi by done.
  exact (cannm_unasked_is_silent _ _ ex_nm_static eq_refl Hi Hf Hops).
Defined.

Lemma cannm_invalid_index_is_mute_witness :
  ∃ w' l, nm_calls [CanNm_NetworkRequest;; mret tt; CanNm_MainFunction]
      (ex_nm NM_STATE_BUS_SLEEP NM_STATE_BUS_SLEEP (net_of false) false None None) = Some (tt, w') ∧
    nm_outs (nm_trace w') = [] ++ l ∧ Forall not_sending l ∧ nm_TxEnabled (nm w') = false.
Proof.
  assert (Forall2 nm_does [NRequest; NMain] [CanNm_NetworkRequest;; mret tt; CanNm_MainFunction]) as Hf by repeat constructor.
  assert (Forall mute_op [NRequest; NMain]) as Hops by repeat constructor.
  exact (cannm_invalid_index_is_mute _ _ _ _ (ex_nm_rel NM_STATE_BUS_SLEEP NM_STATE_BUS_SLEEP false false None None ltac:(done) ltac:(done)) eq_refl Hf Hops).
Defined.

(** A main function every 10 ms: normal operation to bus sleep in 3530 ms. *)
Lemma cannm_released_sleeps_witness :
  ∃ w' l, nm_calls (idle_calls 1000 (replicate 353 10))
      (ex_nm NM_STATE_NORMAL_OPERATION NM_STATE_NORMAL_OPERATION (net_of false) true None (Some 1500)) = Some (tt, w') ∧
    nm_outs (nm_trace w') = [] ++ l ∧ NSleep ∈ l ∧ CanNm_State (nm w') = NM_STATE_BUS_SLEEP.
Proof.
  set (a := ex_nm_a NM_STATE_NORMAL_OPERATION NM_STATE_NORMAL_OPERATION false true None (Some 1500)).
  assert (sleepy a) as Ha by (split; [done|]; split; [done|]; split; [|done]; split; [|done]; split; [done | by eexists]).
  assert (Forall (λ d, 0 ≤ d ≤ 10) (replicate 353 10)) as Hds by (by apply Forall_replicate).
  assert (time_to_sleep 10 a ≤ foldr Z.add 0 (replicate 353 10)) as Hsum by (vm_compute; discriminate).
  exact (cannm_released_sleeps 10 a _ _ ltac:(done) ltac:(done) ltac:(done)
    (ex_nm_rel NM_STATE_NORMAL_OPERATION NM_STATE_NORMAL_OPERATION false true None (Some 1500) ltac:(done) ltac:(done)) Ha ltac:(done) Hds Hsum).
Defined.

(** The passive start-up is accepted, the node sleeps on. *)
Lemma cannm_wakeup_lost_witness :
  ∃ w', nm_calls [CanNm_PassiveStartUp;; mret tt; CanNm_MainFunction; CanNm_MainFunction]
      (ex_nm NM_STATE_PREPARE_BUS_SLEEP NM_STATE_PREPARE_BUS_SLEEP (net_of false) true (Some 990) None) = Some (tt, w') ∧
    nm_outs (nm_trace w') = [NSleep; NPowerOff] ∧ CanNm_State (nm w') = NM_STATE_BUS_SLEEP.
Proof.
  set (a := ex_nm_a NM_STATE_PREPARE_BUS_SLEEP NM_STATE_PREPARE_BUS_SLEEP false true (Some 990) None).
  assert (Forall2 nm_does [NMain] [CanNm_MainFunction]) as Hf by repeat constructor.
  assert (Forall unasked [NMain]) as Hops by repeat constructor.
  exact (cannm_wakeup_lost a 990 NPassive _ _ _ _ (ex_nm_rel NM_STATE_PREPARE_BUS_SLEEP NM_STATE_PREPARE_BUS_SLEEP false true (Some 990) None ltac:(done) ltac:(done)) eq_refl eq_refl eq_refl eq_refl
    ltac:(done) eq_refl (or_introl eq_refl) does_passive Hf Hops).
Defined.
