(* ===== verification/TxAncStatus.v ===== *)
(** * rbdTxAncStatus: the anchor status message (rbdTxAncStatus.c)

    While the network is up the anchor sends its status cyclically, with one
    diagnostic trouble code per message.  The module runs beside CanNm, whose state it
    asks for; the power manager, the DTC manager and the router are the class
    [AncStatus_Env]. *)

From S2P Require Import Prelude ComStack ElTime CanNm.
From stdpp Require Import base list numbers option.

#[local] Open Scope Z_scope.

(** The static variables, those of the functions included. *)
Record AncVars (T : Type) := mkAnc {
  rbdTxAncStatus_Cyclic_Timer : T;
  rbdTxAncStatus_TxEnabled : bool;
  prev_NmMode : CanNm_ModeType;
  dtcIndex : Z
}.
Arguments mkAnc {T} _ _ _ _.
Arguments rbdTxAncStatus_Cyclic_Timer {T} _.
Arguments rbdTxAncStatus_TxEnabled {T} _.
Arguments prev_NmMode {T} _.
Arguments dtcIndex {T} _.

(** The module beside CanNm; the messages it has handed to the router. *)
Record AncWorld (T U : Type) := mkAncWorld { anc : AncVars T; anc_nm : NmWorld T U; anc_sent : list (list Z) }.
Arguments mkAncWorld {T U} _ _ _.
Arguments anc {T U} _.
Arguments anc_nm {T U} _.
Arguments anc_sent {T U} _.

(** [read_dtcs]: whether DtcMgr_ApiUdsReadDtcSupported answers positively, and the rows of
    five bytes it fills in. *)
Class AncStatus_Env (U : Type) := {
  PduR_TxPdu_AnchorStatus : Z;
  cp_BB_APS_CanStatusMsgCycleTime : Z;
  cp_BB_APS_CanStatusMsgCycleTimeFast : Z;
  DTC_MGR_CFG_NUMBER_DTCS : Z;
  RBD_PK_12H_REBOOT : bool;
  rbdRxSysCtrl_GetBBAnchorPwrModeTarget_Rx : U → Z;
  rbdPwrMgmtAnc_GetAnchorPwrMode : U → Z;
  rbdPwrMgmtAnc_GetBBUwbPwrMode : U → Z;
  rbdPwrAncRam_SecureBootCounter_Read : U → Z;
  read_dtcs : U → bool * list (list Z) * U;
  anc_PduR_Transmit : Z → PduInfoType → U → Std_ReturnType * U
}.

Section TxAncStatus.
Context {T U : Type} `{HT : ElTime T U} `{HE : AncStatus_Env U}.
Abbreviation W := (AncWorld T U).

Definition set_anc (f : AncVars T → AncVars T) : M W unit := modify (λ w, mkAncWorld (f (anc w)) (anc_nm w) (anc_sent w)).
(** A call of CanNm. *)
Definition in_nm {R : Type} (m : M (NmWorld T U) R) : M W R :=
  λ w, match m (anc_nm w) with Some (r, n) => Some (r, mkAncWorld (anc w) n (anc_sent w)) | None => None end.
Definition anc_call {R : Type} (f : U → R * U) : M W R :=
  n ← gets anc_nm;
  let '(r, u) := f (nm_up n) in modify (λ w, mkAncWorld (anc w) (mkNmWorld (nm n) u (nm_trace n)) (anc_sent w));; mret r.

Definition anc_timer (f : U → T → T) : M W unit :=
  n ← gets anc_nm; set_anc (λ v, mkAnc (f (nm_up n) (rbdTxAncStatus_Cyclic_Timer v)) (rbdTxAncStatus_TxEnabled v) (prev_NmMode v) (dtcIndex v)).
Definition anc_timer_update : M W rbTimerState :=
  n ← gets anc_nm; v ← gets anc;
  let '(s, t) := rbd_ElTime_rbTimerUpdate (nm_up n) (rbdTxAncStatus_Cyclic_Timer v) in
  set_anc (λ v, mkAnc t (rbdTxAncStatus_TxEnabled v) (prev_NmMode v) (dtcIndex v));; mret s.

Definition rbdTxAncStatus_Init : M W unit := anc_timer rbd_ElTime_rbTimerInit.

(** The power bytes of the message. *)
Definition status_byte0 (u : U) : Z :=
  u8 (Z.lor (Z.land (u8 (rbdRxSysCtrl_GetBBAnchorPwrModeTarget_Rx u)) 15) (Z.shiftl (u8 (rbdPwrMgmtAnc_GetAnchorPwrMode u)) 4)).
Definition status_byte1 (u : U) : Z :=
  if RBD_PK_12H_REBOOT
  then u8 (Z.lor (Z.land (rbdPwrMgmtAnc_GetBBUwbPwrMode u) 15) (Z.shiftl (Z.land (rbdPwrAncRam_SecureBootCounter_Read u) 3) 4))
  else u8 (Z.land (rbdPwrMgmtAnc_GetBBUwbPwrMode u) 15).

(** Code and status of one DTC, at bytes 8 to 11. *)
Definition put_dtc (row : list Z) (AncStatus : list Z) : option (list Z) :=
  a ← aget row 1; AncStatus ← aset AncStatus 8 a;
  b ← aget row 2; AncStatus ← aset AncStatus 9 b;
  c ← aget row 3; AncStatus ← aset AncStatus 10 c;
  d ← aget row 4; aset AncStatus 11 d.

Definition rbdTxAncStatus_Transmit : M W unit :=
  v ← gets anc;
  when (rbdTxAncStatus_TxEnabled v)
    (u ← gets (λ w, nm_up (anc_nm w));
     AncStatus ← lift (aset (replicate 16 0) 0 (status_byte0 u));
     AncStatus ← lift (aset AncStatus 1 (status_byte1 u));
     '(positive, dtcStatus) ← anc_call read_dtcs;
     AncStatus ← (if positive : bool then row ← lift (aget dtcStatus (dtcIndex v)); lift (put_dtc row AncStatus) else mret AncStatus);
     anc_call (anc_PduR_Transmit PduR_TxPdu_AnchorStatus (mkPduInfo (Some AncStatus) 16));;
     modify (λ w, mkAncWorld (anc w) (anc_nm w) (anc_sent w ++ [AncStatus]));;
     let i := u8 (dtcIndex v + 1) in
     set_anc (λ v, mkAnc (rbdTxAncStatus_Cyclic_Timer v) (rbdTxAncStatus_TxEnabled v) (prev_NmMode v)
                     (if u8 DTC_MGR_CFG_NUMBER_DTCS <=? i then 0 else i))).

(** [NmState >= NM_STATE_MAX_NUMBER] is the last constant of the enumeration. *)
Definition rbdTxAncStatus_Cyclic : M W unit :=
  '(NmStateResult, sm) ← in_nm (CanNm_GetState true true);
  '(NmState, NmMode) ← lift sm;
  let NmMode := if negb (bool_decide (NmStateResult = E_OK)) || bool_decide (NmState = NM_STATE_MAX_NUMBER) then NM_MODE_BUS_SLEEP else NmMode in
  let cyclicTime := if bool_decide (NmState = NM_STATE_REPEAT_MESSAGE)
                    then cp_BB_APS_CanStatusMsgCycleTimeFast else cp_BB_APS_CanStatusMsgCycleTime in
  prev ← gets (λ w, prev_NmMode (anc w));
  (if bool_decide (NmMode = NM_MODE_NETWORK) && negb (bool_decide (prev = NM_MODE_NETWORK)) then
     rbdTxAncStatus_Transmit;;
     anc_timer (λ u, rbd_ElTime_rbTimerStart u cyclicTime)
   else if bool_decide (NmMode = NM_MODE_NETWORK) then
     timerState ← anc_timer_update;
     when (bool_decide (timerState = RBD_ELTIME_RBTIMER_STATE_ELAPSED))
       (anc_timer (λ u, rbd_ElTime_rbTimerStart u cyclicTime);;
        rbdTxAncStatus_Transmit)
   else mret tt);;
  set_anc (λ v, mkAnc (rbdTxAncStatus_Cyclic_Timer v) (rbdTxAncStatus_TxEnabled v) NmMode (dtcIndex v)).

Definition rbdTxAncStatus_SetCanIdx (CanIdx : Z) : M W unit :=
  set_anc (λ v, mkAnc (rbdTxAncStatus_Cyclic_Timer v) (CanIdx <? 15) (prev_NmMode v) (dtcIndex v)).
End TxAncStatus.

(** * rbdTxAncStatus: when the status is sent, and what is in it *)

(** What the module relies on: there are 1 to 255 DTCs, a positive answer fills in five bytes
    for each, and calls take no time. *)
Class AncLaws (T U : Type) `{HL : ElTimeLaws T U} `{HE : AncStatus_Env U} := {
  anc_count : 1 ≤ DTC_MGR_CFG_NUMBER_DTCS ≤ 255;
  anc_rows u p rows u' : read_dtcs u = (p, rows, u') →
    lenZ rows = DTC_MGR_CFG_NUMBER_DTCS ∧ Forall (λ r, lenZ r = 5) rows ∧ now u' = now u;
  anc_tx_now id info u : now (snd (anc_PduR_Transmit id info u)) = now u
}.

Section claims.
Context {T U : Type} `{HT : ElTime T U} {HL : ElTimeLaws T U} {HE : AncStatus_Env U} {HA : AncLaws T U}.
Abbreviation W := (AncWorld T U).
Abbreviation N := DTC_MGR_CFG_NUMBER_DTCS.

Definition index_ok (w : W) : Prop := 0 ≤ dtcIndex (anc w) < N.

Lemma put_dtc_spec row msg : lenZ row = 5 → lenZ msg = 16 →
  ∃ msg', put_dtc row msg = Some msg' ∧ lenZ msg' = 16 ∧ aslice msg' 8 4 = aslice row 1 4.
Proof.
  intros Hr Hm. destruct row as [|r0 [|r1 [|r2 [|r3 [|r4 [|]]]]]]; try done; [|unfold lenZ in Hr; cbn in Hr; lia].
  unfold put_dtc. change (aget [r0; r1; r2; r3; r4] 1) with (Some r1). change (aget [r0; r1; r2; r3; r4] 2) with (Some r2).
  change (aget [r0; r1; r2; r3; r4] 3) with (Some r3). change (aget [r0; r1; r2; r3; r4] 4) with (Some r4). cbn [mbind option_bind].
  do 16 (destruct msg as [|? msg]; [done|]). destruct msg; [|unfold lenZ in Hm; cbn in Hm; lia].
  eexists. split; [reflexivity|]. done.
Qed.

(** The next code in turn. *)
Definition next_index (i : Z) : Z := (i + 1) mod N.

Lemma next_index_spec i : 0 ≤ i < N → (if u8 N <=? u8 (i + 1) then 0 else u8 (i + 1)) = next_index i.
Proof using HA.
  intros Hi. pose proof anc_count. rewrite !u8_small by lia. unfold next_index. destruct (Z.leb_spec N (i + 1)).
  - replace (i + 1) with N by lia. symmetry. apply Z.mod_same. lia.
  - symmetry. apply Z.mod_small. lia.
Qed.

(** What a transmission leaves alone. *)
Definition same_rest (w w' : W) : Prop :=
  rbdTxAncStatus_Cyclic_Timer (anc w') = rbdTxAncStatus_Cyclic_Timer (anc w) ∧ rbdTxAncStatus_TxEnabled (anc w') = rbdTxAncStatus_TxEnabled (anc w) ∧
  prev_NmMode (anc w') = prev_NmMode (anc w) ∧ nm (anc_nm w') = nm (anc_nm w) ∧ now (nm_up (anc_nm w')) = now (nm_up (anc_nm w)).

Lemma status_wp (w : W) :
  index_ok w →
  wp rbdTxAncStatus_Transmit (λ _ w', same_rest w w' ∧
    if rbdTxAncStatus_TxEnabled (anc w)
    then ∃ msg p rows u', read_dtcs (nm_up (anc_nm w)) = (p, rows, u') ∧ anc_sent w' = anc_sent w ++ [msg] ∧ lenZ msg = 16 ∧
           dtcIndex (anc w') = next_index (dtcIndex (anc w)) ∧
           (p = true → ∃ row, aget rows (dtcIndex (anc w)) = Some row ∧ aslice msg 8 4 = aslice row 1 4)
    else anc_sent w' = anc_sent w ∧ dtcIndex (anc w') = dtcIndex (anc w)) w.
Proof using HA.
  intros Hi. unfold rbdTxAncStatus_Transmit, anc_call. wp_step. wp_step. destruct (rbdTxAncStatus_TxEnabled (anc w)) eqn:E; cbn [when]; [|by apply wp_ret].
  do 3 wp_step. eapply wp_lift; [reflexivity|]. wp_step. eapply wp_lift; [reflexivity|]. do 3 wp_step.
  destruct (read_dtcs (nm_up (anc_nm w))) as [[p rows] u'] eqn:Er. destruct (anc_rows _ _ _ _ Er) as (Hn & Hf & Hnow). cbv beta iota. do 4 wp_step. cbv beta iota.
  set (msg := <[_ := _]> _). assert (lenZ msg = 16) as Hm by (unfold msg; by rewrite !lenZ_insert).
  destruct (aget_is_Some rows (dtcIndex (anc w))) as [row Erow]; [rewrite Hn; apply Hi|].
  assert (lenZ row = 5) as Hrow by (rewrite Forall_forall in Hf; apply Hf, list_elem_of_In; by eapply aget_elem).
  destruct (put_dtc_spec row msg Hrow Hm) as (msg' & Eput & Hm' & Hs).
  apply wp_mono with (P := λ (m : list Z) (w' : W), w' = mkAncWorld (anc w) (mkNmWorld (nm (anc_nm w)) u' (nm_trace (anc_nm w))) (anc_sent w) ∧ lenZ m = 16 ∧ (p = true → aslice m 8 4 = aslice row 1 4)).
  { destruct p; [|by apply wp_ret]. wp_step. eapply wp_lift; [exact Erow|]. eapply wp_lift; [exact Eput|]. done. }
  intros m w1 (-> & Hm1 & Hs1). do 3 wp_step. cbn [anc_nm nm_up].
  pose proof (anc_tx_now PduR_TxPdu_AnchorStatus (mkPduInfo (Some m) 16) u') as Htx. destruct (anc_PduR_Transmit _ _ u') as [r u'']. cbn in Htx.
  unfold set_anc. wp_steps. cbn. rewrite next_index_spec by apply Hi. split; [split_and!; try done; cbn; congruence|].
  exists m, p, rows, u'. split_and!; try done. intros Hp. exists row. auto.
Qed.

Lemma timer_wp (f : U → T → T) (Q : unit → W → Prop) w :
  Q tt (mkAncWorld (mkAnc (f (nm_up (anc_nm w)) (rbdTxAncStatus_Cyclic_Timer (anc w))) (rbdTxAncStatus_TxEnabled (anc w)) (prev_NmMode (anc w)) (dtcIndex (anc w))) (anc_nm w) (anc_sent w)) →
  wp (anc_timer f) Q w.
Proof. intros HQ. unfold anc_timer, set_anc. by wp_steps. Qed.

Lemma state_wp w (Q : Std_ReturnType * option (CanNm_StateType * CanNm_ModeType) → W → Prop) :
  (∀ r m, (bool_decide (r = E_OK) = negb (bool_decide (CanNm_State (nm (anc_nm w)) = NM_STATE_MAX_NUMBER))) →
     (m = NM_MODE_NETWORK ↔ CanNm_State (nm (anc_nm w)) = NM_STATE_READY_SLEEP ∨ CanNm_State (nm (anc_nm w)) = NM_STATE_NORMAL_OPERATION ∨ CanNm_State (nm (anc_nm w)) = NM_STATE_REPEAT_MESSAGE) →
     Q (r, Some (CanNm_State (nm (anc_nm w)), m)) w) →
  wp (in_nm (CanNm_GetState true true)) Q w.
Proof.
  destruct w as [v [n u tr] l]. intros HQ. apply (wp_eq _ _ _ (match CanNm_State n with
    | NM_STATE_BUS_SLEEP => (E_OK, Some (CanNm_State n, NM_MODE_BUS_SLEEP))
    | NM_STATE_PREPARE_BUS_SLEEP => (E_OK, Some (CanNm_State n, NM_MODE_PREPARE_BUS_SLEEP))
    | NM_STATE_READY_SLEEP | NM_STATE_NORMAL_OPERATION | NM_STATE_REPEAT_MESSAGE => (E_OK, Some (CanNm_State n, NM_MODE_NETWORK))
    | NM_STATE_MAX_NUMBER => (E_NOT_OK, Some (CanNm_State n, NM_MODE_MAX_NUMBER))
    end) (mkAncWorld v (mkNmWorld n u tr) l)); [done|]. cbn in *.
  destruct (CanNm_State n) eqn:E; apply HQ; try done; split; auto; intros; destruct_or?; congruence.
Qed.

(** ** The cycle *)

Definition in_network (s : CanNm_StateType) : bool :=
  bool_decide (s = NM_STATE_READY_SLEEP ∨ s = NM_STATE_NORMAL_OPERATION ∨ s = NM_STATE_REPEAT_MESSAGE).
Definition cycle_over (w : W) : bool := timer_over (now (nm_up (anc_nm w))) (deadline (rbdTxAncStatus_Cyclic_Timer (anc w))).
Definition status_due (w : W) : bool :=
  in_network (CanNm_State (nm (anc_nm w))) && (negb (bool_decide (prev_NmMode (anc w) = NM_MODE_NETWORK)) || cycle_over w).
Definition cycle_time (s : CanNm_StateType) : Z :=
  if bool_decide (s = NM_STATE_REPEAT_MESSAGE) then cp_BB_APS_CanStatusMsgCycleTimeFast else cp_BB_APS_CanStatusMsgCycleTime.

(** One run of the cyclic function, as a relation between the worlds. *)
Definition cycled (w w' : W) (msg : list Z) : Prop :=
  let s := CanNm_State (nm (anc_nm w)) in
  let due := status_due w in
  lenZ msg = 16 ∧
  anc_sent w' = anc_sent w ++ (if due && rbdTxAncStatus_TxEnabled (anc w) then [msg] else []) ∧
  deadline (rbdTxAncStatus_Cyclic_Timer (anc w')) =
    (if due then Some (now (nm_up (anc_nm w)) + cycle_time s) else deadline (rbdTxAncStatus_Cyclic_Timer (anc w))) ∧
  (prev_NmMode (anc w') = NM_MODE_NETWORK ↔ in_network s = true) ∧
  dtcIndex (anc w') = (if due && rbdTxAncStatus_TxEnabled (anc w) then next_index (dtcIndex (anc w)) else dtcIndex (anc w)) ∧
  nm (anc_nm w') = nm (anc_nm w).

(** A transmission in the words of [cycled]. *)
Lemma transmit_sent w : index_ok w →
  wp rbdTxAncStatus_Transmit (λ _ w', same_rest w w' ∧ ∃ msg, lenZ msg = 16 ∧
    anc_sent w' = anc_sent w ++ (if rbdTxAncStatus_TxEnabled (anc w) then [msg] else []) ∧
    dtcIndex (anc w') = (if rbdTxAncStatus_TxEnabled (anc w) then next_index (dtcIndex (anc w)) else dtcIndex (anc w))) w.
Proof using HA.
  intros Hi. eapply wp_mono; [by apply status_wp|]. intros [] w' [Hs H]. split; [done|]. destruct (rbdTxAncStatus_TxEnabled (anc w)).
  - destruct H as (msg & _ & _ & _ & _ & E & Hm & Ei & _). by exists msg.
  - destruct H as [E Ei]. exists (replicate 16 0). split; [done|]. by rewrite app_nil_r.
Qed.

Lemma cyclic_wp w : index_ok w → wp rbdTxAncStatus_Cyclic (λ _ w', ∃ msg, cycled w w' msg) w.
Proof using HA.
  intros Hi. unfold rbdTxAncStatus_Cyclic. wp_step. apply state_wp. intros r m Hr Hm. cbv beta iota. wp_step. eapply wp_lift; [reflexivity|]. cbv beta iota zeta. wp_step. wp_step.
  set (s := CanNm_State (nm (anc_nm w))) in *. set (m' := if negb (bool_decide (r = E_OK)) || bool_decide (s = NM_STATE_MAX_NUMBER) then NM_MODE_BUS_SLEEP else m).
  assert (bool_decide (m' = NM_MODE_NETWORK) = in_network s) as Hnet.
  { unfold m', in_network. rewrite Hr, negb_involutive. apply bool_decide_ext. rewrite <-Hm. destruct (bool_decide (s = NM_STATE_MAX_NUMBER)) eqn:E; [|done].
    apply bool_decide_eq_true in E. rewrite Hm. cbn. split; [done|]. intros. destruct_or?; congruence. }
  fold (cycle_time s). assert (m' = NM_MODE_NETWORK ↔ in_network s = true) as Hprev by (rewrite <-Hnet; by rewrite bool_decide_eq_true).
  rewrite Hnet. unfold cycled, status_due. fold s. wp_step.
  destruct (in_network s); cbn [andb]; [|unfold set_anc; wp_steps; exists (replicate 16 0); by rewrite app_nil_r].
  destruct (bool_decide (prev_NmMode (anc w) = NM_MODE_NETWORK)); cbn [negb orb].
  - wp_step. unfold anc_timer_update at 1. do 4 wp_step. pose proof (timer_update_state (nm_up (anc_nm w)) (rbdTxAncStatus_Cyclic_Timer (anc w))) as Es.
    pose proof (timer_update_keeps (nm_up (anc_nm w)) (rbdTxAncStatus_Cyclic_Timer (anc w))) as Ek.
    destruct (rbd_ElTime_rbTimerUpdate _ _) as [st tm]. cbn in Es, Ek. unfold set_anc at 1. do 3 wp_step.
    assert (bool_decide (st = RBD_ELTIME_RBTIMER_STATE_ELAPSED) = cycle_over w) as ->.
    { rewrite Es. apply answer_elapsed. }
    destruct (cycle_over w); cbn [when andb].
    + wp_step. apply timer_wp. cbn. eapply wp_mono; [by apply transmit_sent|]. intros [] w' [(E1 & E2 & E3 & E4 & E5) (msg & Hmsg & Hs & Hd)].
      unfold set_anc. wp_step. exists msg. cbn in *. rewrite E1, timer_start_on. done.
    + unfold set_anc. wp_steps. exists (replicate 16 0). by rewrite app_nil_r.
  - wp_step. eapply wp_mono; [by apply transmit_sent|]. intros [] w' [(E1 & E2 & E3 & E4 & E5) (msg & Hmsg & Hs & Hd)]. apply timer_wp.
    unfold set_anc. wp_step. exists msg. cbn in *. rewrite timer_start_on, E5. done.
Qed.

(** C38. The status is due when CanNm reports a network mode and the node has just entered it or
    the cycle is over.  A run of the cyclic function hands one message of 16 bytes to the router
    exactly when the status is due and transmission is enabled, that is the CAN index last given
    to rbdTxAncStatus_SetCanIdx is below 15 (rbdTxAncStatus_TxEnabled), and then goes on to the
    next trouble code; with transmission disabled nothing is sent.  The cycle restarts whenever the status is due, with the fast cycle in
    the repeat message state, and otherwise runs on.  CanNm is only read. *)
Theorem ancstatus_sent_when_due (w : W) :
  index_ok w →
  ∃ w' msg, rbdTxAncStatus_Cyclic w = Some (tt, w') ∧ cycled w w' msg.
Proof using HA.
  intros Hi. destruct (wp_run _ _ _ (cyclic_wp w Hi)) as ([] & w' & Hrun & msg & Hp). by exists w', msg.
Qed.
(** ** Every code in turn *)

Fixpoint transmits (n : nat) : M W unit := match n with O => mret tt | S n => rbdTxAncStatus_Transmit;; transmits n end.

(** The code and status of DTC [i]. *)
Definition dtc_field (rows : list (list Z)) (i : Z) : option (list Z) := row ← aget rows i; aslice row 1 4.

Lemma transmits_wp rows (Hrows : ∀ u, ∃ u', read_dtcs u = (true, rows, u')) n (w : W) :
  index_ok w → rbdTxAncStatus_TxEnabled (anc w) = true →
  wp (transmits n) (λ _ w', ∃ msgs, anc_sent w' = anc_sent w ++ msgs ∧
    map (λ m, aslice m 8 4) msgs = map (λ k, dtc_field rows ((dtcIndex (anc w) + k) mod N)) (seqZ 0 (Z.of_nat n))) w.
Proof using HA.
  pose proof anc_count. revert w. induction n as [|n IH]; intros w Hi He; cbn [transmits].
  { apply wp_ret. exists []. by rewrite app_nil_r. }
  wp_step. eapply wp_mono; [by apply status_wp|]. intros [] w1 [(_ & E2 & _) H1]. rewrite He in H1.
  destruct H1 as (msg & p & rows' & u' & Er & Es & Hm & Ei & Hrow). destruct (Hrows (nm_up (anc_nm w))) as [u'' Er']. rewrite Er in Er'. injection Er' as -> -> ->.
  destruct (Hrow eq_refl) as (row & Erow & Ef).
  assert (index_ok w1) as Hi1 by (unfold index_ok; rewrite Ei; apply Z.mod_pos_bound; lia).
  eapply wp_mono; [apply IH; [done | congruence]|]. intros [] w2 (msgs & Es2 & Em). exists (msg :: msgs). split.
  { by rewrite Es2, Es, <-app_assoc. }
  rewrite Nat2Z.inj_succ, seqZ_cons by lia. cbn [map]. rewrite Z.add_0_r, (Z.mod_small (dtcIndex (anc w))) by apply Hi. f_equal.
  - rewrite Ef. unfold dtc_field. by rewrite Erow.
  - rewrite Em, Ei. unfold next_index. rewrite Z.pred_succ, <-(fmap_add_seqZ 1 0). change (Z.add 1 <$> ?l) with (map (Z.add 1) l). rewrite map_map.
    apply map_ext. intros k. f_equal. rewrite Zplus_mod_idemp_l. f_equal. lia.
Qed.

(** The trouble codes are reported in turn: [n] status messages carry the codes and statuses
    of the [n] DTCs that follow each other cyclically, starting where the last message left
    off; so as many messages as there are DTCs report every one of them once. *)
Theorem ancstatus_reports_in_turn (rows : list (list Z)) (n : nat) (w : W) :
  (∀ u, ∃ u', read_dtcs u = (true, rows, u')) → index_ok w → rbdTxAncStatus_TxEnabled (anc w) = true →
  ∃ w' msgs, transmits n w = Some (tt, w') ∧ anc_sent w' = anc_sent w ++ msgs ∧
    map (λ m, aslice m 8 4) msgs = map (λ k, dtc_field rows ((dtcIndex (anc w) + k) mod N)) (seqZ 0 (Z.of_nat n)).
Proof using HA.
  intros Hrows Hi He. destruct (wp_run _ _ _ (transmits_wp rows Hrows n w Hi He)) as ([] & w' & Hrun & msgs & H). by exists w', msgs.
Qed.
End claims.

(** ** A concrete anchor: three trouble codes *)

#[export] Instance ex_anc_timer : ElTime EndTimer Z := end_timer id.
#[export] Instance ex_anc_laws : ElTimeLaws EndTimer Z := end_timer_laws id.
#[export] Instance ex_anc_env : AncStatus_Env Z := {|
  PduR_TxPdu_AnchorStatus := 9; cp_BB_APS_CanStatusMsgCycleTime := 1000; cp_BB_APS_CanStatusMsgCycleTimeFast := 100;
  DTC_MGR_CFG_NUMBER_DTCS := 3; RBD_PK_12H_REBOOT := true;
  rbdRxSysCtrl_GetBBAnchorPwrModeTarget_Rx := λ _, 2; rbdPwrMgmtAnc_GetAnchorPwrMode := λ _, 1;
  rbdPwrMgmtAnc_GetBBUwbPwrMode := λ _, 1; rbdPwrAncRam_SecureBootCounter_Read := λ _, 2;
  read_dtcs := λ u, (true, [[0; 1; 2; 3; 4]; [0; 5; 6; 7; 8]; [0; 9; 10; 11; 12]], u);
  anc_PduR_Transmit := λ _ _ u, (E_OK, u)
|}.
#[export] Instance ex_anc_ok : AncLaws EndTimer Z.
Proof.
  split; [done| |done]. intros u p rows u' [= <- <- <-]. split; [done|]. split; [|done]. repeat constructor.
Defined.

Definition ex_anc (s : CanNm_StateType) (prev : CanNm_ModeType) (t : EndTimer) : AncWorld EndTimer Z :=
  mkAncWorld (mkAnc t true prev 1) (mkNmWorld (mkNm s NM_NETWORK_STATE_RELEASED true s true 2 TimerIdle TimerIdle TimerIdle 7 8 (replicate 8 0) true 1 0) 5000 []) [].

(** The network comes up in the repeat message state. *)
Lemma ancstatus_sent_when_due_witness :
  ∃ w' msg, rbdTxAncStatus_Cyclic (ex_anc NM_STATE_REPEAT_MESSAGE NM_MODE_BUS_SLEEP TimerIdle) = Some (tt, w') ∧ lenZ msg = 16 ∧
    anc_sent w' = [msg] ∧ end_of (rbdTxAncStatus_Cyclic_Timer (anc w')) = Some 5100.
Proof.
  assert (index_ok (ex_anc NM_STATE_REPEAT_MESSAGE NM_MODE_BUS_SLEEP TimerIdle)) as Hi by done.
  destruct (ancstatus_sent_when_due _ Hi) as (w' & msg & Hrun & Hm & Hs & Hd & _). exists w', msg. split; [exact Hrun|]. split; [exact Hm|].
  split; [exact Hs | exact Hd].
Defined.

Lemma ancstatus_reports_in_turn_witness :
  ∃ w' msgs, transmits 3 (ex_anc NM_STATE_NORMAL_OPERATION NM_MODE_NETWORK TimerIdle) = Some (tt, w') ∧ anc_sent w' = [] ++ msgs ∧
    map (λ m, aslice m 8 4) msgs = [Some [5; 6; 7; 8]; Some [9; 10; 11; 12]; Some [1; 2; 3; 4]].
Proof.
  assert (index_ok (ex_anc NM_STATE_NORMAL_OPERATION NM_MODE_NETWORK TimerIdle)) as Hi by done.
  assert (∀ u, ∃ u', read_dtcs u = (true, [[0; 1; 2; 3; 4]; [0; 5; 6; 7; 8]; [0; 9; 10; 11; 12]], u')) as Hrows by (intros u; by exists u).
  exact (ancstatus_reports_in_turn _ 3 _ Hrows Hi eq_refl).
Defined.
