(* ===== verification/ImcTp.v ===== *)
(** * rbdImc transport protocol (rbdImc_PduRTp.c, rbdImc_PduR_Types.h)

    Messages of up to 65535 bytes between two microcontrollers, cut into packets of
    the inter-microcontroller link.  The router above and the packet queue below
    (ImcIf, not part of the repository) are the class [ImcTp_Env].  The trace function
    rbdImc_TpPrintBuf is empty in this build (RBDIMCTP_TRACE_BUF is off), the mutex
    macros are empty on this processor. *)

From S2P Require Import Prelude ComStack.
From stdpp Require Import base list numbers option.

#[local] Open Scope Z_scope.

(** ** Types *)

Record rbdImc_TpMsgCfg_st := mkTpMsg { tm_UpperTxFromPduR : Z; tm_UpperTxToPduR : Z; tm_UpperRxPduId : Z; tm_ImcPduId : Z }.
Record rbdImc_TpTxInfo_st := mkTpTx { tt_bytesRemaining : Z; tt_offset : Z; tt_sequence : Z; tt_numPktsPending : Z }.
Record rbdImc_TpRxInfo_st := mkTpRx { tr_bytesRemaining : Z; tr_active : bool; tr_sequence : Z }.

Definition RBDIMCPDUR_TP_TX : Z := 2.
Definition RBDIMCPDUR_TP_RX : Z := 4.
Definition RBDIMCPDUR_TP_CANCEL : Z := 6.
Definition RBDIMCPDUR_ERR_NULL : Z := 1.
Definition RBDIMCPDUR_ERR_PDU : Z := 2.
Definition RBDIMCPDUR_ERR_LENGTH : Z := 3.
Definition RBDIMCPDUR_ERR_SEQUENCE : Z := 4.
Definition RBDIMCPDUR_ERR_RESULT : Z := 5.

Inductive ImcTp_Event :=
| ImcQueued (channel : Z) (packet : list Z)
| ImcTxConfirm (id : Z) (r : Std_ReturnType)
| ImcStart (id len : Z) (r : BufReq_ReturnType)
| ImcCopyRx (id : Z) (data : list Z) (r : BufReq_ReturnType)
| ImcRxIndicate (id : Z) (r : Std_ReturnType)
| ImcDet (runtime : bool) (instance service error : Z).

Record ImcTpWorld (U : Type) := mkImcTp {
  tp_TxInfo : list rbdImc_TpTxInfo_st; tp_RxInfo : list rbdImc_TpRxInfo_st; tp_up : U; tp_trace : list ImcTp_Event }.
Arguments mkImcTp {U} _ _ _ _.
Arguments tp_TxInfo {U} _.
Arguments tp_RxInfo {U} _.
Arguments tp_up {U} _.
Arguments tp_trace {U} _.

(** The constant part of rbdImc_TpCfg, the link and the router.  [ImcIf_GetBuffer] gives the
    channel and the memory of a free packet; [tp_CopyTxData] the bytes the upper layer stores,
    the answers of the other calls are those of the router. *)
Class ImcTp_Env (U : Type) := {
  TpNumMsg : Z;
  TpMsgCfg : list rbdImc_TpMsgCfg_st;
  IMCIF_MSG_MAX_LEN : Z;
  ImcIf_GetBuffer : Z → Z → U → option (Z * list Z) * U;
  ImcIf_QueueAdd : Z → list Z → U → U;
  tp_CopyTxData : Z → Z → U → BufReq_ReturnType * list Z * U;
  tp_TxConfirmation : Z → Std_ReturnType → U → U;
  tp_StartOfReception : Z → Z → Z → U → BufReq_ReturnType * U;
  tp_CopyRxData : Z → list Z → U → BufReq_ReturnType * U;
  tp_RxIndication : Z → Std_ReturnType → U → U
}.

Section ImcTp.
Context {U : Type} `{HE : ImcTp_Env U}.
Abbreviation W := (ImcTpWorld U).

Definition tp_ev (e : ImcTp_Event) : M W unit := modify (λ w, mkImcTp (tp_TxInfo w) (tp_RxInfo w) (tp_up w) (tp_trace w ++ [e])).
Definition tp_call {R : Type} (f : U → R * U) : M W R :=
  u ← gets tp_up; let '(r, u') := f u in modify (λ w, mkImcTp (tp_TxInfo w) (tp_RxInfo w) u' (tp_trace w));; mret r.
Definition tp_call_ (f : U → U) : M W unit := modify (λ w, mkImcTp (tp_TxInfo w) (tp_RxInfo w) (f (tp_up w)) (tp_trace w)).

Definition get_tx (i : Z) : M W rbdImc_TpTxInfo_st := l ← gets tp_TxInfo; lift (aget l i).
Definition set_tx (i : Z) (x : rbdImc_TpTxInfo_st) : M W unit :=
  l ← gets tp_TxInfo; l ← lift (aset l i x); modify (λ w, mkImcTp l (tp_RxInfo w) (tp_up w) (tp_trace w)).
Definition get_rx (i : Z) : M W rbdImc_TpRxInfo_st := l ← gets tp_RxInfo; lift (aget l i).
Definition set_rx (i : Z) (x : rbdImc_TpRxInfo_st) : M W unit :=
  l ← gets tp_RxInfo; l ← lift (aset l i x); modify (λ w, mkImcTp (tp_TxInfo w) l (tp_up w) (tp_trace w)).
Definition get_msg (i : Z) : M W rbdImc_TpMsgCfg_st := lift (aget TpMsgCfg i).

(** ** Looking up a message *)

Fixpoint find_loop (n : nat) (chId : Z) (test : rbdImc_TpMsgCfg_st → bool) : option Z :=
  match n with
  | O => Some TpNumMsg
  | S n => c ← aget TpMsgCfg chId; if test c then Some chId else find_loop n (chId + 1) test
  end.
Definition rbdImc_TpFindByImcId (id : Z) : option Z := find_loop (Z.to_nat TpNumMsg) 0 (λ c, id =? tm_ImcPduId c).
Definition rbdImc_TpFindByPdurTxId (id : Z) : option Z := find_loop (Z.to_nat TpNumMsg) 0 (λ c, id =? tm_UpperTxFromPduR c).

(** ** Transmission *)

Definition rbdImcTp_Transmit (TxPduId : Z) (PduInfoPtr : option PduInfoType) : M W Std_ReturnType :=
  PduIdx ← lift (rbdImc_TpFindByPdurTxId TxPduId);
  match PduInfoPtr with
  | None => tp_ev (ImcDet false 0 RBDIMCPDUR_TP_TX RBDIMCPDUR_ERR_NULL);; mret E_NOT_OK
  | Some Info =>
      if TpNumMsg <=? PduIdx then tp_ev (ImcDet false (u8 TxPduId) RBDIMCPDUR_TP_TX RBDIMCPDUR_ERR_PDU);; mret E_NOT_OK
      else
        t ← get_tx PduIdx;
        set_tx PduIdx (mkTpTx (u16 (SduLength Info)) 0 0 (tt_numPktsPending t));; mret E_OK
  end.

Definition rbdImcTp_CancelTransmit (CanTxPduId : Z) : M W Std_ReturnType :=
  PduIdx ← lift (rbdImc_TpFindByPdurTxId CanTxPduId);
  if TpNumMsg <=? PduIdx then tp_ev (ImcDet false (u8 CanTxPduId) RBDIMCPDUR_TP_CANCEL RBDIMCPDUR_ERR_PDU);; mret E_NOT_OK
  else
    t ← get_tx PduIdx;
    if tt_bytesRemaining t =? 0 then mret E_NOT_OK
    else set_tx PduIdx (mkTpTx 0 (tt_offset t) (tt_sequence t) (tt_numPktsPending t));; mret E_OK.

(** The header of the next packet, written into its memory, and where the data starts. *)
Definition packet_header (t : rbdImc_TpTxInfo_st) (Msg : list Z) : option (list Z * Z) :=
  Msg ← aset Msg 0 (Z.land (tt_sequence t) 15);
  if negb (tt_sequence t =? 0) then
    b ← aget Msg 0; Msg ← aset Msg 0 (Z.lor b 32); Some (Msg, 1)
  else
    Msg ← aset Msg 1 (u8 (Z.shiftr (tt_bytesRemaining t) 8));
    Msg ← aset Msg 2 (u8 (Z.land (tt_bytesRemaining t) 255)); Some (Msg, 3).

(** One message of the cyclic function. *)
Definition TpCyclic_one (PduIdx : Z) : M W unit :=
  t ← get_tx PduIdx;
  when (0 <? tt_bytesRemaining t)
    (c ← get_msg PduIdx;
     QueueItem ← tp_call (ImcIf_GetBuffer (tm_ImcPduId c) IMCIF_MSG_MAX_LEN);
     match QueueItem with
     | None => mret tt
     | Some (Channel, Msg) =>
         '(Msg, pos) ← lift (packet_header t Msg);
         let room := u32 (IMCIF_MSG_MAX_LEN - pos) in
         let bytesThisPacket := if tt_bytesRemaining t <? room then tt_bytesRemaining t else room in
         '(res, data) ← tp_call (tp_CopyTxData (tm_UpperTxToPduR c) (u16 bytesThisPacket));
         when (bool_decide (res = BUFREQ_OK))
           (Msg ← lift (awrite Msg pos data);
            set_tx PduIdx (mkTpTx (u16 (tt_bytesRemaining t - u16 bytesThisPacket)) (tt_offset t) (u8 (tt_sequence t + 1)) (u8 (tt_numPktsPending t + 1)));;
            packet ← lift (aslice Msg 0 (u16 (pos + bytesThisPacket)));
            tp_call_ (ImcIf_QueueAdd Channel packet);;
            tp_ev (ImcQueued Channel packet))
     end).

Definition rbdImc_TpCyclic : M W unit := mfor (Z.to_nat TpNumMsg) 0 TpCyclic_one.

Definition rbdImc_TpTxConfirmation (MsgId : Z) : M W unit :=
  PduIdx ← lift (rbdImc_TpFindByImcId MsgId);
  if TpNumMsg <=? PduIdx then tp_ev (ImcDet false (u8 MsgId) RBDIMCPDUR_TP_RX RBDIMCPDUR_ERR_PDU)
  else
    t ← get_tx PduIdx;
    when (0 <? tt_numPktsPending t)
      (set_tx PduIdx (mkTpTx (tt_bytesRemaining t) (tt_offset t) (tt_sequence t) (tt_numPktsPending t - 1)));;
    t ← get_tx PduIdx;
    when ((tt_numPktsPending t =? 0) && (tt_bytesRemaining t =? 0))
      (c ← get_msg PduIdx;
       tp_call_ (tp_TxConfirmation (tm_UpperTxToPduR c) E_OK);; tp_ev (ImcTxConfirm (tm_UpperTxToPduR c) E_OK)).

(** ** Reception *)

Definition indicate (PduIdx : Z) (r : Std_ReturnType) : M W unit :=
  c ← get_msg PduIdx; tp_call_ (tp_RxIndication (tm_UpperRxPduId c) r);; tp_ev (ImcRxIndicate (tm_UpperRxPduId c) r).

Definition rbdImc_TpReportRxError (PduIdx Instance Service Error : Z) : M W unit :=
  tp_ev (ImcDet true Instance Service Error);;
  r ← get_rx PduIdx;
  when (tr_active r)
    (set_rx PduIdx (mkTpRx (tr_bytesRemaining r) false (tr_sequence r));; indicate PduIdx E_NOT_OK).

Definition copy_rx (id : Z) (data : list Z) : M W BufReq_ReturnType :=
  r ← tp_call (tp_CopyRxData id data); tp_ev (ImcCopyRx id data r);; mret r.

Definition rbdImc_TpRxFirstFrame (PduIdx Length : Z) (Msg : list Z) : M W unit :=
  b1 ← lift (aget Msg 1);
  b2 ← lift (aget Msg 2);
  let totalMsgLen := u16 (u16 (Z.shiftl b1 8) + b2) in
  let bytesThisFrame := u16 (Length - 3) in
  if totalMsgLen <? bytesThisFrame then rbdImc_TpReportRxError PduIdx (u8 bytesThisFrame) RBDIMCPDUR_TP_RX RBDIMCPDUR_ERR_LENGTH
  else
    c ← get_msg PduIdx;
    PduRResult ← tp_call (tp_StartOfReception (tm_UpperRxPduId c) bytesThisFrame totalMsgLen);
    tp_ev (ImcStart (tm_UpperRxPduId c) totalMsgLen PduRResult);;
    PduRResult ← (if bool_decide (PduRResult = BUFREQ_OK)
                  then data ← lift (aslice Msg 3 bytesThisFrame); copy_rx (tm_UpperRxPduId c) data else mret PduRResult);
    r ← get_rx PduIdx;
    set_rx PduIdx (if bool_decide (PduRResult = BUFREQ_OK)
                   then mkTpRx (u16 (totalMsgLen - bytesThisFrame)) true 1
                   else mkTpRx (tr_bytesRemaining r) false (tr_sequence r)).

Definition rbdImc_TpRxConsecutiveFrame (PduIdx Length : Z) (Msg : list Z) : M W unit :=
  let bytesThisFrame := u16 (Length - 1) in
  b0 ← lift (aget Msg 0);
  r ← get_rx PduIdx;
  if negb (Z.land b0 15 =? Z.land (tr_sequence r) 15) then rbdImc_TpReportRxError PduIdx b0 RBDIMCPDUR_TP_RX RBDIMCPDUR_ERR_SEQUENCE
  else if tr_bytesRemaining r <? bytesThisFrame
  then rbdImc_TpReportRxError PduIdx (u8 bytesThisFrame) RBDIMCPDUR_TP_RX RBDIMCPDUR_ERR_LENGTH
  else
    c ← get_msg PduIdx;
    data ← lift (aslice Msg 1 bytesThisFrame);
    PduRResult ← copy_rx (tm_UpperRxPduId c) data;
    if bool_decide (PduRResult = BUFREQ_OK)
    then set_rx PduIdx (mkTpRx (u16 (tr_bytesRemaining r - bytesThisFrame)) (tr_active r) (u8 (tr_sequence r + 1)))
    else rbdImc_TpReportRxError PduIdx (u8 bytesThisFrame) RBDIMCPDUR_TP_RX RBDIMCPDUR_ERR_RESULT.

(** Too short to be a packet; the first byte is only looked at if there is one. *)
Definition too_short (Length : Z) (Msg : list Z) : option bool :=
  if Length <? 1 then Some true else b ← aget Msg 0; Some ((b =? 0) && (Length <? 3)).

Definition rbdImc_TpRxIndication (MsgId Length : Z) (Msg : option (list Z)) : M W unit :=
  PduIdx ← lift (rbdImc_TpFindByImcId MsgId);
  if TpNumMsg <=? PduIdx then tp_ev (ImcDet false (u8 MsgId) RBDIMCPDUR_TP_RX RBDIMCPDUR_ERR_PDU)
  else
    match Msg with
    | None => tp_ev (ImcDet false (u8 MsgId) RBDIMCPDUR_TP_RX RBDIMCPDUR_ERR_NULL)
    | Some Msg =>
        short ← lift (too_short Length Msg);
        if short : bool then rbdImc_TpReportRxError PduIdx (u8 MsgId) RBDIMCPDUR_TP_RX RBDIMCPDUR_ERR_LENGTH
        else
          b ← lift (aget Msg 0);
          (if b =? 0 then rbdImc_TpRxFirstFrame PduIdx Length Msg else rbdImc_TpRxConsecutiveFrame PduIdx Length Msg);;
          r ← get_rx PduIdx;
          when ((tr_bytesRemaining r =? 0) && tr_active r)
            (set_rx PduIdx (mkTpRx 0 false 0);; indicate PduIdx E_OK)
    end.
End ImcTp.
