(* ===== verification/ImcTpSafe.v ===== *)
(** * rbdImc transport protocol: every call is defined *)

From S2P Require Import Prelude ComStack ImcTp.
From stdpp Require Import base list numbers option.

#[local] Open Scope Z_scope.

(** The configuration: a table entry per message, packets with room for a header and data. *)
Class ImcTp_CfgOk (U : Type) `{ImcTp_Env U} := {
  tp_num_ok : 0 ≤ TpNumMsg ≤ lenZ TpMsgCfg;
  tp_len_ok : 4 ≤ IMCIF_MSG_MAX_LEN ≤ 65535;
  tp_buffer_ok id n u ch m u' : ImcIf_GetBuffer id n u = (Some (ch, m), u') → n ≤ lenZ m;
  tp_copytx_ok id n u d u' : tp_CopyTxData id n u = (BUFREQ_OK, d, u') → lenZ d = n
}.

Section safe.
Context {U : Type} `{HE : ImcTp_Env U} {HO : ImcTp_CfgOk U}.
Abbreviation W := (ImcTpWorld U).

Definition tx_ok (t : rbdImc_TpTxInfo_st) : Prop :=
  0 ≤ tt_bytesRemaining t < 65536 ∧ 0 ≤ tt_sequence t < 256 ∧ 0 ≤ tt_numPktsPending t < 256.
Definition rx_ok (r : rbdImc_TpRxInfo_st) : Prop := 0 ≤ tr_bytesRemaining r < 65536 ∧ 0 ≤ tr_sequence r < 256.

(** The state of every message is there and its counters are in range. *)
Definition tp_inv (w : W) : Prop :=
  (TpNumMsg ≤ lenZ (tp_TxInfo w) ∧ TpNumMsg ≤ lenZ (tp_RxInfo w)) ∧ Forall tx_ok (tp_TxInfo w) ∧ Forall rx_ok (tp_RxInfo w).

(** ** Look-up *)

Lemma find_loop_spec n i test :
  0 ≤ i → i + Z.of_nat n = TpNumMsg →
  ∃ x, find_loop n i test = Some x ∧ i ≤ x ≤ TpNumMsg.
Proof using HO.
  pose proof tp_num_ok. revert i. induction n as [|n IH]; intros i Hi Hn; cbn [find_loop]; [exists TpNumMsg; split; [done|lia]|].
  destruct (aget_is_Some TpMsgCfg i) as [c ->]; [lia|]. cbn [mbind option_bind]. destruct (test c); [exists i; split; [done|lia]|].
  destruct (IH (i + 1)) as (x & -> & Hx); [lia..|]. exists x. split; [done|lia].
Qed.

Lemma find_spec test : ∃ x, find_loop (Z.to_nat TpNumMsg) 0 test = Some x ∧ 0 ≤ x ≤ TpNumMsg.
Proof using HO. pose proof tp_num_ok. apply find_loop_spec; lia. Qed.

(** ** Access to the state *)

Lemma wp_get_tx i w (Q : rbdImc_TpTxInfo_st → W → Prop) :
  tp_inv w → 0 ≤ i < TpNumMsg → (∀ t, aget (tp_TxInfo w) i = Some t → tx_ok t → Q t w) → wp (get_tx i) Q w.
Proof.
  intros ([H1 H2] & Ht & _) Hi HQ. unfold get_tx. wp_step. wp_step. destruct (aget_is_Some (tp_TxInfo w) i) as [t Et]; [lia|].
  eapply wp_lift; [exact Et|]. apply HQ; [done|]. rewrite Forall_forall in Ht. apply Ht, list_elem_of_In. by eapply aget_elem.
Qed.
Lemma wp_get_rx i w (Q : rbdImc_TpRxInfo_st → W → Prop) :
  tp_inv w → 0 ≤ i < TpNumMsg → (∀ r, aget (tp_RxInfo w) i = Some r → rx_ok r → Q r w) → wp (get_rx i) Q w.
Proof.
  intros ([H1 H2] & _ & Hr) Hi HQ. unfold get_rx. wp_step. wp_step. destruct (aget_is_Some (tp_RxInfo w) i) as [t Et]; [lia|].
  eapply wp_lift; [exact Et|]. apply HQ; [done|]. rewrite Forall_forall in Hr. apply Hr, list_elem_of_In. by eapply aget_elem.
Qed.
Lemma wp_set_tx i t w (Q : unit → W → Prop) :
  tp_inv w → 0 ≤ i < TpNumMsg →
  (tx_ok t → tp_inv (mkImcTp (<[Z.to_nat i := t]> (tp_TxInfo w)) (tp_RxInfo w) (tp_up w) (tp_trace w)) →
   Q tt (mkImcTp (<[Z.to_nat i := t]> (tp_TxInfo w)) (tp_RxInfo w) (tp_up w) (tp_trace w))) →
  tx_ok t → wp (set_tx i t) Q w.
Proof.
  intros ([H1 H2] & Ht & Hr) Hi HQ Hok. unfold set_tx. wp_step. wp_step. wp_step. eapply wp_lift; [apply aset_is_Some; lia|]. wp_step.
  apply HQ; [done|]. split; [cbn; by rewrite lenZ_insert|]. split; [|done]. by apply Forall_insert.
Qed.
Lemma wp_set_rx i r w (Q : unit → W → Prop) :
  tp_inv w → 0 ≤ i < TpNumMsg →
  (tp_inv (mkImcTp (tp_TxInfo w) (<[Z.to_nat i := r]> (tp_RxInfo w)) (tp_up w) (tp_trace w)) →
   Q tt (mkImcTp (tp_TxInfo w) (<[Z.to_nat i := r]> (tp_RxInfo w)) (tp_up w) (tp_trace w))) →
  rx_ok r → wp (set_rx i r) Q w.
Proof.
  intros ([H1 H2] & Ht & Hr) Hi HQ Hok. unfold set_rx. wp_step. wp_step. wp_step. eapply wp_lift; [apply aset_is_Some; lia|]. wp_step.
  apply HQ. split; [cbn; by rewrite lenZ_insert|]. split; [done|]. by apply Forall_insert.
Qed.
Lemma wp_get_msg i w (Q : rbdImc_TpMsgCfg_st → W → Prop) :
  0 ≤ i < TpNumMsg → (∀ c, aget TpMsgCfg i = Some c → Q c w) → wp (get_msg i) Q w.
Proof using HO.
  intros Hi HQ. pose proof tp_num_ok. unfold get_msg. destruct (aget_is_Some TpMsgCfg i) as [c Ec]; [lia|]. eapply wp_lift; [exact Ec|]. auto.
Qed.

(** Calls of the neighbours leave the state of the module alone. *)
Lemma wp_tp_ev e w (Q : unit → W → Prop) : Q tt (mkImcTp (tp_TxInfo w) (tp_RxInfo w) (tp_up w) (tp_trace w ++ [e])) → wp (tp_ev e) Q w.
Proof. done. Qed.
Lemma wp_tp_call_ f w (Q : unit → W → Prop) : Q tt (mkImcTp (tp_TxInfo w) (tp_RxInfo w) (f (tp_up w)) (tp_trace w)) → wp (tp_call_ f) Q w.
Proof. done. Qed.
Lemma wp_tp_call {R} (f : U → R * U) w (Q : R → W → Prop) :
  (∀ r u', f (tp_up w) = (r, u') → Q r (mkImcTp (tp_TxInfo w) (tp_RxInfo w) u' (tp_trace w))) → wp (tp_call f) Q w.
Proof. intros HQ. unfold tp_call. wp_step. wp_step. destruct (f (tp_up w)) as [r u'] eqn:E. wp_steps. by apply HQ. Qed.

Ltac tp_step :=
  match goal with
  | |- wp (get_tx _) _ _ => apply wp_get_tx; [done | lia |]; intros
  | |- wp (get_rx _) _ _ => apply wp_get_rx; [done | lia |]; intros
  | |- wp (get_msg _) _ _ => apply wp_get_msg; [lia |]; intros
  | |- wp (tp_ev _) _ _ => apply wp_tp_ev
  | |- wp (tp_call_ _) _ _ => apply wp_tp_call_
  | |- wp (tp_call _) _ _ => apply wp_tp_call; intros
  | |- wp (set_rx _ _) _ _ => apply wp_set_rx; [done | lia | intros |]
  | |- wp (set_tx _ _) _ _ => apply wp_set_tx; [done | lia | intros |]
  | _ => wp_step
  end; cbv beta iota zeta.
Ltac tp_steps := repeat tp_step.

(** ** The operations *)

Lemma transmit_safe id Info w : tp_inv w → wp (rbdImcTp_Transmit id Info) (λ _, tp_inv) w.
Proof using HO.
  intros Hw. unfold rbdImcTp_Transmit. wp_step. destruct (find_spec (λ c, id =? tm_UpperTxFromPduR c)) as (x & Ex & Hx). eapply wp_lift; [exact Ex|].
  destruct Info as [Info|]; tp_steps; bools; try done; tp_steps; try done. pose proof (u16_bound (SduLength Info)). unfold tx_ok in *. cbn. lia.
Qed.

Lemma cancel_safe id w : tp_inv w → wp (rbdImcTp_CancelTransmit id) (λ _, tp_inv) w.
Proof using HO.
  intros Hw. unfold rbdImcTp_CancelTransmit. wp_step. destruct (find_spec (λ c, id =? tm_UpperTxFromPduR c)) as (x & Ex & Hx). eapply wp_lift; [exact Ex|].
  tp_steps; bools; try done; tp_steps; try done. unfold tx_ok in *. cbn. lia.
Qed.

Lemma conf_safe id w : tp_inv w → wp (rbdImc_TpTxConfirmation id) (λ _, tp_inv) w.
Proof using HO.
  intros Hw. unfold rbdImc_TpTxConfirmation. wp_step. destruct (find_spec (λ c, id =? tm_ImcPduId c)) as (x & Ex & Hx). eapply wp_lift; [exact Ex|].
  tp_steps; bools; try done; tp_steps; bools; try done; tp_steps; try done; unfold tx_ok in *; cbn; lia.
Qed.

(** What the header is, and that it fits. *)
Definition header (t : rbdImc_TpTxInfo_st) : list Z :=
  if tt_sequence t =? 0 then [0; tt_bytesRemaining t / 256; tt_bytesRemaining t mod 256] else [Z.lor (tt_sequence t mod 16) 32].

Lemma packet_header_spec t Msg :
  tx_ok t → 4 ≤ lenZ Msg → ∃ z, packet_header t Msg = Some (header t ++ z, lenZ (header t)) ∧ lenZ z = lenZ Msg - lenZ (header t).
Proof.
  intros (Hb & Hs & _) Hl. destruct Msg as [|m0 [|m1 [|m2 [|m3 l]]]]; try (unfold lenZ in Hl; cbn in Hl; lia).
  unfold packet_header, header. rewrite land_15. rewrite aset_is_Some by (unfold lenZ in *; cbn in *; lia). cbn [mbind option_bind].
  change (Z.to_nat 0) with 0%nat. cbn [insert list_insert]. destruct (Z.eqb_spec (tt_sequence t) 0) as [E|E]; cbn [negb].
  - rewrite aset_is_Some by (unfold lenZ in *; cbn in *; lia). cbn [mbind option_bind]. change (Z.to_nat 1) with 1%nat. cbn [insert list_insert].
    rewrite aset_is_Some by (unfold lenZ in *; cbn in *; lia). cbn [mbind option_bind]. change (Z.to_nat 2) with 2%nat. cbn [insert list_insert].
    exists (m3 :: l). rewrite E, land_0xFF. rewrite Z.shiftr_div_pow2 by lia. change (2 ^ 8) with 256.
    rewrite (u8_small (_ / _)) by (split; [apply Z.div_pos; lia | apply Z.div_lt_upper_bound; lia]).
    rewrite (u8_small (_ mod _)) by (apply Z.mod_pos_bound; lia). split; [done|]. unfold lenZ in *. cbn in *. lia.
  - change (aget (tt_sequence t mod 16 :: m1 :: m2 :: m3 :: l) 0) with (Some (tt_sequence t mod 16)). cbn [mbind option_bind].
    rewrite aset_is_Some by (unfold lenZ in *; cbn in *; lia). cbn [mbind option_bind]. exists (m1 :: m2 :: m3 :: l). split; [done|]. unfold lenZ in *. cbn in *. lia.
Qed.

Lemma imc_header_len t : lenZ (header t) = if tt_sequence t =? 0 then 3 else 1.
Proof. unfold header. by destruct (_ =? 0). Qed.

(** The payload of the next packet. *)
Definition payload_len (t : rbdImc_TpTxInfo_st) : Z := Z.min (tt_bytesRemaining t) (IMCIF_MSG_MAX_LEN - lenZ (header t)).

(** One packet: nothing to send, no buffer, no data, or the packet. *)
Lemma cyclic_one_spec i w (Q : unit → W → Prop) :
  tp_inv w → 0 ≤ i < TpNumMsg →
  (∀ t c, aget (tp_TxInfo w) i = Some t → aget TpMsgCfg i = Some c → tx_ok t →
    (tt_bytesRemaining t = 0 → Q tt w) ∧
    (∀ u1, 0 < tt_bytesRemaining t → ImcIf_GetBuffer (tm_ImcPduId c) IMCIF_MSG_MAX_LEN (tp_up w) = (None, u1) →
      Q tt (mkImcTp (tp_TxInfo w) (tp_RxInfo w) u1 (tp_trace w))) ∧
    (∀ u1 u2 ch m res data, 0 < tt_bytesRemaining t → ImcIf_GetBuffer (tm_ImcPduId c) IMCIF_MSG_MAX_LEN (tp_up w) = (Some (ch, m), u1) →
      tp_CopyTxData (tm_UpperTxToPduR c) (payload_len t) u1 = (res, data, u2) →
      Q tt (if bool_decide (res = BUFREQ_OK)
            then mkImcTp (<[Z.to_nat i := mkTpTx (tt_bytesRemaining t - payload_len t) (tt_offset t) (u8 (tt_sequence t + 1)) (u8 (tt_numPktsPending t + 1))]> (tp_TxInfo w))
                   (tp_RxInfo w) (ImcIf_QueueAdd ch (header t ++ data) u2) (tp_trace w ++ [ImcQueued ch (header t ++ data)])
            else mkImcTp (tp_TxInfo w) (tp_RxInfo w) u2 (tp_trace w)))) →
  wp (TpCyclic_one i) Q w.
Proof using HO.
  intros Hw Hi HQ. pose proof tp_len_ok. unfold TpCyclic_one. wp_step. tp_step. rename H1 into Hok, H0 into Et.
  destruct (aget_is_Some TpMsgCfg i) as [c Ec]; [pose proof tp_num_ok; lia|]. destruct (HQ _ c Et Ec Hok) as (Q0 & Q1 & Q2). destruct Hok as (Hb & Hs & Hp) eqn:Eok. clear Eok.
  destruct (Z.ltb_spec 0 (tt_bytesRemaining t)); cbn [when]; [|apply wp_ret, Q0; lia].
  wp_step. unfold get_msg. eapply wp_lift; [exact Ec|]. wp_step. tp_step. rename H1 into Eb. destruct r as [[ch m]|]; [|by apply wp_ret, Q1].
  pose proof (tp_buffer_ok _ _ _ _ _ _ Eb) as Hm. destruct (packet_header_spec t m) as (z & Eh & Hz); [done|lia|].
  wp_step. eapply wp_lift; [exact Eh|]. cbv beta iota zeta. pose proof (imc_header_len t) as Hh.
  assert (lenZ (header t) ≤ 3) by (case_match; lia). assert (1 ≤ lenZ (header t)) by (case_match; lia).
  rewrite (u32_small (IMCIF_MSG_MAX_LEN - _)) by lia.
  replace (if tt_bytesRemaining t <? _ then _ else _) with (payload_len t) by (unfold payload_len; destruct (Z.ltb_spec (tt_bytesRemaining t) (IMCIF_MSG_MAX_LEN - lenZ (header t))); lia).
  assert (0 < payload_len t ≤ IMCIF_MSG_MAX_LEN - lenZ (header t) ∧ payload_len t ≤ tt_bytesRemaining t) as Hpl by (unfold payload_len; lia).
  rewrite !(u16_small (payload_len t)) by lia. wp_step. apply wp_tp_call. intros [res data] u2 Ecp. cbv beta iota. specialize (Q2 _ _ _ _ _ _ H0 Eb Ecp). cbn [tp_up] in *.
  destruct (bool_decide (res = BUFREQ_OK)) eqn:Er; cbn [when]; [|by apply wp_ret]. apply bool_decide_eq_true in Er as ->.
  pose proof (tp_copytx_ok _ _ _ _ _ Ecp) as Hd. wp_step. eapply wp_lift; [apply awrite_is_Some; [lia|rewrite lenZ_app; lia]|].
  wp_step. unfold set_tx. wp_step. wp_step. wp_step. cbn [tp_TxInfo]. eapply wp_lift; [apply aset_is_Some; destruct Hw as ([? _] & _); lia|]. do 2 wp_step. unfold lenZ at 1. rewrite Nat2Z.id, take_app_length.
  rewrite !u16_small by lia. eapply wp_lift; [apply aslice_is_Some; rewrite ?lenZ_app; pose proof (lenZ_nonneg (drop (Z.to_nat (lenZ (header t)) + length data) (header t ++ z))); lia|].
  tp_steps. change (Z.to_nat 0) with 0%nat. rewrite drop_0, app_assoc.
  replace (Z.to_nat (lenZ (header t) + payload_len t)) with (length (header t ++ data)) by (rewrite length_app; unfold lenZ in *; lia).
  rewrite take_app_length. done.
Qed.
Lemma one_safe i w : tp_inv w → 0 ≤ i < TpNumMsg → wp (TpCyclic_one i) (λ _, tp_inv) w.
Proof using HO.
  intros Hw Hi. apply cyclic_one_spec; [done..|]. intros t c Et Ec (Hb & Hs & Hp). pose proof tp_len_ok. pose proof (imc_header_len t) as Hh.
  assert (1 ≤ lenZ (header t) ≤ 3) by (case_match; lia). split_and!; try done. intros u1 u2 ch m res data Hpos _ _. destruct (bool_decide _); [|done].
  destruct Hw as ([H1 H2] & Ht & Hr). split; [cbn; by rewrite lenZ_insert|]. split; [|done]. apply Forall_insert; [done|].
  pose proof (u8_bound (tt_sequence t + 1)). pose proof (u8_bound (tt_numPktsPending t + 1)). unfold tx_ok, payload_len. cbn. lia.
Qed.

Lemma cyclic_safe w : tp_inv w → wp rbdImc_TpCyclic (λ _, tp_inv) w.
Proof using HO.
  intros Hw. pose proof tp_num_ok. unfold rbdImc_TpCyclic. apply (wp_mfor _ _ _ (λ _, tp_inv)); [done|]. intros i w' Hi Hw'. apply one_safe; [done|lia].
Qed.

Lemma error_safe i inst svc err w : tp_inv w → 0 ≤ i < TpNumMsg → wp (rbdImc_TpReportRxError i inst svc err) (λ _, tp_inv) w.
Proof using HO.
  intros Hw Hi. unfold rbdImc_TpReportRxError, indicate. wp_step. tp_step. assert (tp_inv (mkImcTp (tp_TxInfo w) (tp_RxInfo w) (tp_up w) (tp_trace w ++ [ImcDet true inst svc err]))) as Hw' by done.
  tp_steps; done.
Qed.

Lemma first_safe i len Msg w :
  tp_inv w → 0 ≤ i < TpNumMsg → 3 ≤ len < 65536 → len ≤ lenZ Msg → wp (rbdImc_TpRxFirstFrame i len Msg) (λ _, tp_inv) w.
Proof using HO.
  intros Hw Hi Hl Hm. unfold rbdImc_TpRxFirstFrame, copy_rx. rewrite (u16_small (len - 3)) by lia.
  destruct (aget_is_Some Msg 1) as [b1 E1]; [lia|]. destruct (aget_is_Some Msg 2) as [b2 E2]; [lia|]. wp_step. eapply wp_lift; [exact E1|]. wp_step. eapply wp_lift; [exact E2|].
  pose proof (u16_bound (u16 (Z.shiftl b1 8) + b2)). set (total := u16 (_ + _)) in *. wp_step; bools; [by apply error_safe|].
  wp_step. tp_step. wp_step. tp_step. wp_step. tp_step. wp_step.
  eapply (wp_mono _ (λ _, tp_inv)).
  { wp_step; bools; [|by tp_steps]. wp_step. eapply wp_lift; [apply aslice_is_Some; lia|]. tp_steps. done. }
  intros res w' Hw'. wp_step. tp_step. tp_step; [done|]. pose proof (u16_bound (total - (len - 3))). case_match; unfold rx_ok in *; cbn; lia.
Qed.

Lemma consecutive_safe i len Msg w :
  tp_inv w → 0 ≤ i < TpNumMsg → 1 ≤ len < 65536 → len ≤ lenZ Msg → wp (rbdImc_TpRxConsecutiveFrame i len Msg) (λ _, tp_inv) w.
Proof using HO.
  intros Hw Hi Hl Hm. unfold rbdImc_TpRxConsecutiveFrame, copy_rx. rewrite (u16_small (len - 1)) by lia.
  destruct (aget_is_Some Msg 0) as [b0 E0]; [lia|]. wp_step. eapply wp_lift; [exact E0|]. wp_step. tp_step. wp_step; [by apply error_safe|]. wp_step; bools; [by apply error_safe|].
  wp_step. tp_step. wp_step. eapply wp_lift; [apply aslice_is_Some; lia|]. wp_step. wp_step. tp_step. wp_step. tp_step. wp_step. wp_step.
  - tp_step; [done|]. pose proof (u16_bound (tr_bytesRemaining r - (len - 1))). pose proof (u8_bound (tr_sequence r + 1)). unfold rx_ok in *. cbn. lia.
  - by apply error_safe.
Qed.

Lemma rx_safe id len Msg w :
  tp_inv w → 0 ≤ len < 65536 → (∀ m, Msg = Some m → len ≤ lenZ m) → wp (rbdImc_TpRxIndication id len Msg) (λ _, tp_inv) w.
Proof using HO.
  intros Hw Hl Hm. unfold rbdImc_TpRxIndication, indicate. wp_step. destruct (find_spec (λ c, id =? tm_ImcPduId c)) as (x & Ex & Hx). eapply wp_lift; [exact Ex|].
  wp_step; bools; [by tp_steps|]. destruct Msg as [m|]; [|by tp_steps]. specialize (Hm m eq_refl).
  assert (∃ s, too_short len m = Some s ∧ (s = false → 1 ≤ len ∧ ∃ b, aget m 0 = Some b ∧ (b = 0 → 3 ≤ len))) as (s & Es & Hs).
  { unfold too_short. destruct (Z.ltb_spec len 1); [by exists true|]. destruct (aget_is_Some m 0) as [b ->]; [lia|]. cbn [mbind option_bind].
    eexists. split; [done|]. intros E. split; [lia|]. exists b. split; [done|]. intros ->. change (0 =? 0) with true in E. cbn [andb] in E. bools. lia. }
  wp_step. eapply wp_lift; [exact Es|]. destruct s; [apply error_safe; [done|lia]|]. destruct (Hs eq_refl) as (H1 & b & Eb & H3).
  wp_step. eapply wp_lift; [exact Eb|]. wp_step. apply (wp_mono _ (λ _, tp_inv)).
  { wp_step; bools; [apply first_safe; try done; lia | apply consecutive_safe; try done; lia]. }
  intros [] w' Hw'. by tp_steps.
Qed.

(** ** Sequences of calls *)

Inductive tp_op :=
| TpTransmit (id : Z) (Info : option PduInfoType)
| TpCancel (id : Z)
| TpCyclic
| TpTxConf (id : Z)
| TpRx (id len : Z) (Msg : option (list Z)).

(** The memory behind a message is as long as its length says. *)
Definition tp_op_ok (op : tp_op) : Prop :=
  match op with TpRx _ len Msg => 0 ≤ len < 65536 ∧ (∀ m, Msg = Some m → len ≤ lenZ m) | _ => True end.

Definition tp_do (op : tp_op) : M W unit :=
  match op with
  | TpTransmit id Info => rbdImcTp_Transmit id Info;; mret tt
  | TpCancel id => rbdImcTp_CancelTransmit id;; mret tt
  | TpCyclic => rbdImc_TpCyclic
  | TpTxConf id => rbdImc_TpTxConfirmation id
  | TpRx id len Msg => rbdImc_TpRxIndication id len Msg
  end.
Fixpoint tp_run (ops : list tp_op) : M W unit := match ops with [] => mret tt | op :: ops => tp_do op;; tp_run ops end.

Lemma do_safe op w : tp_inv w → tp_op_ok op → wp (tp_do op) (λ _, tp_inv) w.
Proof using HO.
  intros Hw Hop. destruct op; cbn [tp_do tp_op_ok] in *.
  - wp_step. eapply wp_mono; [by apply transmit_safe|]. done.
  - wp_step. eapply wp_mono; [by apply cancel_safe|]. done.
  - by apply cyclic_safe.
  - by apply conf_safe.
  - apply rx_safe; tauto.
Qed.
End safe.
