(* ===== verification/ImcTpClaims.v ===== *)
(** * rbdImc: a transfer over the link

    The packets of a message, as the sender's cyclic function queues them one per run,
    and their reassembly by the receiver.

    The round trip of a message between two microcontrollers, and where it fails: the
    sequence counter that wraps and the confirmation of a cancelled message.  The instance
    at the end is a link with one message, on which the theorems are applied. *)

From S2P Require Import Prelude ComStack ImcTp ImcTpSafe.
From stdpp Require Import base list numbers option.

#[local] Open Scope Z_scope.

(** The upper layer of the sender holds the message ([src]) and hands it out as asked; the
    queue always has a packet free. *)
Class ImcSource (U : Type) `{ImcTp_Env U} (c : rbdImc_TpMsgCfg_st) := {
  imc_src : U → list Z;
  imc_free u : ∃ ch m u', ImcIf_GetBuffer (tm_ImcPduId c) IMCIF_MSG_MAX_LEN u = (Some (ch, m), u') ∧ imc_src u' = imc_src u;
  imc_queue ch p u : imc_src (ImcIf_QueueAdd ch p u) = imc_src u;
  imc_copy n u : 0 ≤ n ≤ lenZ (imc_src u) →
    ∃ u', tp_CopyTxData (tm_UpperTxToPduR c) n u = (BUFREQ_OK, take (Z.to_nat n) (imc_src u), u') ∧ imc_src u' = drop (Z.to_nat n) (imc_src u)
}.

(** The upper layer of the receiver takes messages of up to [imc_cap] bytes. *)
Class ImcSink (U : Type) `{ImcTp_Env U} (c : rbdImc_TpMsgCfg_st) := {
  imc_room : U → Z;
  imc_cap : Z;
  imc_start n len u : len ≤ imc_cap → ∃ u', tp_StartOfReception (tm_UpperRxPduId c) n len u = (BUFREQ_OK, u') ∧ len ≤ imc_room u';
  imc_take d u : lenZ d ≤ imc_room u → ∃ u', tp_CopyRxData (tm_UpperRxPduId c) d u = (BUFREQ_OK, u') ∧ imc_room u' = imc_room u - lenZ d
}.

(** Message [i] of the configuration, found under its identifiers. *)
Record ImcConn {U : Type} `{ImcTp_Env U} (i : Z) (c : rbdImc_TpMsgCfg_st) : Prop := {
  ic_range : 0 ≤ i < TpNumMsg;
  ic_cfg : aget TpMsgCfg i = Some c;
  ic_imc : rbdImc_TpFindByImcId (tm_ImcPduId c) = Some i;
  ic_pdur : rbdImc_TpFindByPdurTxId (tm_UpperTxFromPduR c) = Some i
}.

(** ** Packets *)

Definition imc_hdr (s len : Z) : list Z := if s =? 0 then [0; len / 256; len mod 256] else [Z.lor (s mod 16) 32].
Definition imc_chunk (max s : Z) : nat := Z.to_nat (max - lenZ (imc_hdr s 0)).

(** The packets of [data] from sequence number [s] on; the counter has eight bits. *)
Fixpoint imc_packets (fuel : nat) (max s : Z) (data : list Z) : list (list Z) :=
  match fuel, data with
  | O, _ | _, [] => []
  | S fuel, _ => (imc_hdr s (lenZ data) ++ take (imc_chunk max s) data) :: imc_packets fuel max (u8 (s + 1)) (drop (imc_chunk max s) data)
  end.

(** As many packets as the message needs: each but the last carries its chunk. *)
Definition imc_segment (max : Z) (data : list Z) : list (list Z) := imc_packets (length data) max 0 data.

Lemma hdr_len s len : lenZ (imc_hdr s len) = if s =? 0 then 3 else 1.
Proof. unfold imc_hdr. by destruct (s =? 0). Qed.

Lemma chunk_pos max s : 4 ≤ max → (0 < imc_chunk max s)%nat.
Proof. intros. unfold imc_chunk. rewrite hdr_len. case_match; lia. Qed.

(** More fuel than bytes changes nothing. *)
Lemma packets_enough max fuel s data : 4 ≤ max → (length data ≤ fuel)%nat → imc_packets fuel max s data = imc_packets (length data) max s data.
Proof.
  intros Hm. remember (length data) as n eqn:En. revert fuel s data En.
  induction n as [n IH] using lt_wf_ind. intros fuel s data En Hf. destruct data as [|b data]; [by destruct fuel, n|].
  destruct n as [|n]; [done|]. destruct fuel as [|fuel]; [cbn in *; lia|]. cbn [imc_packets]. f_equal. pose proof (chunk_pos max s Hm).
  set (rest := drop (imc_chunk max s) (b :: data)). assert (length rest ≤ n)%nat as Hr by (unfold rest; rewrite length_drop; cbn in *; lia).
  rewrite (IH (length rest)) by (try done; cbn in *; lia). by rewrite (IH (length rest) ltac:(lia) n).
Qed.

Lemma segment_step max s data : 4 ≤ max → data ≠ [] →
  imc_packets (length data) max s data =
  (imc_hdr s (lenZ data) ++ take (imc_chunk max s) data) :: imc_packets (length (drop (imc_chunk max s) data)) max (u8 (s + 1)) (drop (imc_chunk max s) data).
Proof.
  intros Hm Hne. destruct data as [|b data]; [done|]. cbn [length imc_packets]. f_equal. apply packets_enough; [done|].
  pose proof (chunk_pos max s Hm). rewrite length_drop. cbn. lia.
Qed.

Section sender.
Context {U : Type} `{HE : ImcTp_Env U} {HO : ImcTp_CfgOk U} (i : Z) (c : rbdImc_TpMsgCfg_st) (HI : ImcConn i c) {HS : ImcSource U c}.
Abbreviation W := (ImcTpWorld U).
Abbreviation max := IMCIF_MSG_MAX_LEN.

(** The packets handed to the queue, and the confirmations given. *)
Definition queued (tr : list ImcTp_Event) : list (list Z) := omap (λ e, match e with ImcQueued _ p => Some p | _ => None end) tr.
Definition confirms (tr : list ImcTp_Event) : list Std_ReturnType := omap (λ e, match e with ImcTxConfirm _ r => Some r | _ => None end) tr.
Lemma queued_app l l' : queued (l ++ l') = queued l ++ queued l'.
Proof. apply omap_app. Qed.
Lemma confirms_app l l' : confirms (l ++ l') = confirms l ++ confirms l'.
Proof. apply omap_app. Qed.

(** Message [i] is being sent, from sequence number [s] on, with [p] packets to be confirmed;
    no other message is. *)
Record sending (s p : Z) (w : W) : Prop := {
  se_inv : tp_inv w;
  se_tx : ∃ off, aget (tp_TxInfo w) i = Some (mkTpTx (lenZ (imc_src (tp_up w))) off s p);
  se_others : ∀ j t, 0 ≤ j < TpNumMsg → j ≠ i → aget (tp_TxInfo w) j = Some t → tt_bytesRemaining t = 0
}.

(** The cyclic function works on one message only. *)
Lemma cyclic_one_wp w (Q : unit → W → Prop) :
  tp_inv w → (∀ j t, 0 ≤ j < TpNumMsg → j ≠ i → aget (tp_TxInfo w) j = Some t → tt_bytesRemaining t = 0) →
  wp (TpCyclic_one i) (λ _ w', tp_inv w' ∧ (∀ j, j ≠ i → aget (tp_TxInfo w') j = aget (tp_TxInfo w) j) ∧ Q tt w') w →
  wp rbdImc_TpCyclic Q w.
Proof using HO HI.
  intros Hw Ho H1. unfold rbdImc_TpCyclic. destruct (ic_range _ _ HI) as [Hi0 Hi1].
  assert (∀ j w', tp_inv w' → 0 ≤ j < TpNumMsg → (∀ t, aget (tp_TxInfo w') j = Some t → tt_bytesRemaining t = 0) → wp (TpCyclic_one j) (λ _ x, x = w') w') as Hidle.
  { intros j w' Hw' Hj Ht. unfold TpCyclic_one. wp_step. apply wp_get_tx; [done..|]. intros t Et _. rewrite (Ht t Et). by apply wp_ret. }
  replace (Z.to_nat TpNumMsg) with (Z.to_nat i + S (Z.to_nat (TpNumMsg - i - 1)))%nat by lia.
  assert (∀ n k w', tp_inv w' → (∀ j t, k ≤ j < k + Z.of_nat n → aget (tp_TxInfo w') j = Some t → tt_bytesRemaining t = 0) → 0 ≤ k → k + Z.of_nat n ≤ TpNumMsg →
    ∀ m (Q' : unit → W → Prop), wp (mfor m (k + Z.of_nat n) TpCyclic_one) Q' w' → wp (mfor (n + m) k TpCyclic_one) Q' w') as Hskip.
  { induction n as [|n IH]; intros k w' Hw' Ht Hk Hn m Q' HQ; [by rewrite Z.add_0_r in HQ|]. cbn [Nat.add mfor]. wp_step.
    eapply wp_mono; [apply Hidle; [done|lia|]|]; [intros t Et; apply (Ht k); [lia|done]|]. intros [] x ->. apply IH; [done| |lia|lia|].
    - intros j t Hj. apply Ht. lia.
    - by replace (k + 1 + Z.of_nat n) with (k + Z.of_nat (S n)) by lia. }
  apply Hskip; [done| |lia|lia|].
  { intros j t Hj. apply Ho; lia. }
  replace (0 + Z.of_nat (Z.to_nat i)) with i by lia. cbn [mfor]. wp_step. eapply wp_mono; [exact H1|]. intros [] w' (Hw' & Hsame & HQ).
  rewrite <-(Nat.add_0_r (Z.to_nat _)). apply Hskip; [done| |lia|lia|done].
  intros j t Hj Et. rewrite Hsame in Et by lia. apply (Ho j t); [lia..|done].
Qed.

(** A run of the cyclic function queues the next packet. *)
Lemma sending_step s p w :
  sending s p w → imc_src (tp_up w) ≠ [] →
  wp rbdImc_TpCyclic (λ _ w', sending (u8 (s + 1)) (u8 (p + 1)) w' ∧
    imc_src (tp_up w') = drop (imc_chunk max s) (imc_src (tp_up w)) ∧ confirms (tp_trace w') = confirms (tp_trace w) ∧
    queued (tp_trace w') = queued (tp_trace w) ++ [imc_hdr s (lenZ (imc_src (tp_up w))) ++ take (imc_chunk max s) (imc_src (tp_up w))]) w.
Proof using HO HI.
  intros [Hw (off & Et) Ho] Hne. set (data := imc_src (tp_up w)) in *. apply cyclic_one_wp; [done..|].
  pose proof (one_safe i w Hw (ic_range _ _ HI)) as Hsafe. destruct (ic_range _ _ HI) as [Hi0 Hi1]. pose proof tp_len_ok.
  assert (0 < lenZ data) as Hpos by (destruct data; [done|]; rewrite lenZ_cons; pose proof (lenZ_nonneg data); lia).
  apply (wp_mono _ (λ _ w', tp_inv w' ∧ ((∀ j, j ≠ i → aget (tp_TxInfo w') j = aget (tp_TxInfo w) j) ∧
    (∃ off, aget (tp_TxInfo w') i = Some (mkTpTx (lenZ (imc_src (tp_up w'))) off (u8 (s + 1)) (u8 (p + 1)))) ∧
    imc_src (tp_up w') = drop (imc_chunk max s) data ∧ confirms (tp_trace w') = confirms (tp_trace w) ∧
    queued (tp_trace w') = queued (tp_trace w) ++ [imc_hdr s (lenZ data) ++ take (imc_chunk max s) data]))).
  2: { intros [] w' (Hw' & Hsame & Htx & Hsrc & Hq). split; [done|]. split; [done|]. split; [|done]. split; [done..|].
       intros j t Hj Hji Ej. rewrite Hsame in Ej by done. by apply (Ho j t). }
  apply wp_and; [done|]. clear Hsafe. apply cyclic_one_spec; [done..|]. intros t c' Et' Ec' Hok. rewrite Et in Et'. injection Et' as <-.
  rewrite (ic_cfg _ _ HI) in Ec'. injection Ec' as <-. cbn [tt_bytesRemaining tt_sequence tt_numPktsPending tt_offset].
  destruct (imc_free (tp_up w)) as (ch & m & u1 & Eb & Es1). split_and!; [lia | intros u Hb E; congruence |].
  intros u1' u2 ch' m' res d _ Eb' Ecp. rewrite Eb in Eb'. injection Eb' as <- <- <-.
  set (t := mkTpTx (lenZ data) off s p) in *. assert (header t = imc_hdr s (lenZ data)) as Eh by done.
  assert (Z.to_nat (payload_len t) = Nat.min (length data) (imc_chunk max s)) as En.
  { unfold payload_len, imc_chunk. rewrite Eh, !hdr_len. cbn [tt_bytesRemaining t]. unfold lenZ. case_match; lia. }
  assert (0 ≤ payload_len t ≤ lenZ (imc_src u1)) as Hpl.
  { unfold payload_len. rewrite Eh, hdr_len, Es1. fold data. cbn [tt_bytesRemaining t]. case_match; lia. }
  destruct (imc_copy (payload_len t) u1 Hpl) as (u2' & Ecp' & Es2). rewrite Ecp in Ecp'. injection Ecp' as -> -> ->.
  rewrite bool_decide_true by done. cbn [tp_TxInfo tp_up tp_trace]. rewrite Es1, En in *. fold data in Es2 |- *.
  assert (take (Nat.min (length data) (imc_chunk max s)) data = take (imc_chunk max s) data) as Etk.
  { destruct (Nat.le_ge_cases (length data) (imc_chunk max s)); [rewrite Nat.min_l, !take_ge by lia; done | by rewrite Nat.min_r by lia]. }
  assert (drop (Nat.min (length data) (imc_chunk max s)) data = drop (imc_chunk max s) data) as Edr.
  { destruct (Nat.le_ge_cases (length data) (imc_chunk max s)); [rewrite Nat.min_l, !drop_ge by lia; done | by rewrite Nat.min_r by lia]. }
  rewrite imc_queue, Es2, Edr, Etk. split_and!; try done.
  - intros j Hj. by rewrite aget_insert_ne by lia.
  - exists off. rewrite aget_insert_eq by (destruct Hw as ([? _] & _); lia). do 2 f_equal.
    rewrite <-Edr. unfold lenZ in *. rewrite length_drop. rewrite <-En. cbn [tt_bytesRemaining t]. lia.
  - by rewrite confirms_app, app_nil_r.
  - by rewrite queued_app, Eh.
Qed.
Fixpoint cyclics (n : nat) : M W unit := match n with O => mret tt | S n => rbdImc_TpCyclic;; cyclics n end.
Fixpoint confs (n : nat) : M W unit := match n with O => mret tt | S n => rbdImc_TpTxConfirmation (tm_ImcPduId c);; confs n end.

Lemma sending_ranges s p w : sending s p w → 0 ≤ s < 256 ∧ 0 ≤ p < 256 ∧ lenZ (imc_src (tp_up w)) < 65536.
Proof.
  intros [(_ & Ht & _) (off & Et) _]. rewrite Forall_forall in Ht. destruct (Ht _ ltac:(apply list_elem_of_In; by eapply aget_elem)) as (? & ? & ?). cbn in *. lia.
Qed.

(** One packet per run, until the message is out. *)
Lemma cyclics_wp n s p w :
  sending s p w →
  let fs := imc_packets (length (imc_src (tp_up w))) max s (imc_src (tp_up w)) in
  (n ≤ length fs)%nat →
  wp (cyclics n) (λ _ w', sending (u8 (s + Z.of_nat n)) (u8 (p + Z.of_nat n)) w' ∧ (imc_src (tp_up w') = [] ↔ n = length fs) ∧
    confirms (tp_trace w') = confirms (tp_trace w) ∧ queued (tp_trace w') = queued (tp_trace w) ++ take n fs) w.
Proof using HO HI.
  pose proof tp_len_ok as [Hmax _]. revert s p w. induction n as [|n IH]; intros s p w Hs fs Hn; destruct (sending_ranges _ _ _ Hs) as (Hsr & Hpr & _).
  { cbn [cyclics Z.of_nat]. rewrite !Z.add_0_r, !u8_small by done. apply wp_ret. rewrite take_0, app_nil_r. split_and!; try done.
    unfold fs. destruct (imc_src (tp_up w)); done. }
  set (data := imc_src (tp_up w)) in *. assert (data ≠ []) as Hne by (intros E; subst fs; rewrite E in Hn; cbn in Hn; lia).
  subst fs. rewrite segment_step in Hn |- * by done. set (rest := drop (imc_chunk max s) data) in *. cbn [length cyclics take] in *. wp_step.
  eapply wp_mono; [by apply sending_step|]. intros [] w1 (Hs1 & Esrc & Ec1 & Eq1). fold data rest in Esrc, Eq1.
  pose proof (IH (u8 (s + 1)) (u8 (p + 1)) w1 Hs1) as Hwp. rewrite Esrc in Hwp. cbn zeta in Hwp.
  eapply wp_mono; [apply Hwp; lia|]. intros [] w2 (Hs2 & E2 & Ec2 & Eq2). split_and!; [|by rewrite E2; lia|congruence|].
  - unfold u8 in *. rewrite !Zplus_mod_idemp_l in Hs2. by replace (Z.of_nat (S n)) with (1 + Z.of_nat n) by lia; rewrite !Z.add_assoc.
  - by rewrite Eq2, Eq1, <-app_assoc.
Qed.

(** Nothing is left to send, [p] packets are to be confirmed. *)
Definition outstanding (p : Z) (w : W) : Prop := tp_inv w ∧ ∃ off s, aget (tp_TxInfo w) i = Some (mkTpTx 0 off s p).

(** The last outstanding packet confirms the message. *)
Lemma confs_wp n w :
  (0 < n)%nat → outstanding (Z.of_nat n) w →
  wp (confs n) (λ _ w', confirms (tp_trace w') = confirms (tp_trace w) ++ [E_OK] ∧ queued (tp_trace w') = queued (tp_trace w)) w.
Proof using HO HI.
  revert w. induction n as [|n IH]; intros w Hn (Hw & off & s & Et); [lia|]. destruct (ic_range _ _ HI) as [Hi0 Hi1]. pose proof Hw as ([Hl1 Hl2] & Ht & Hr).
  assert (tx_ok (mkTpTx 0 off s (Z.of_nat (S n)))) as (_ & Hsr & Hpr) by (rewrite Forall_forall in Ht; apply Ht, list_elem_of_In; by eapply aget_elem). cbn [tt_sequence tt_numPktsPending] in *.
  cbn [confs]. wp_step. unfold rbdImc_TpTxConfirmation.
  wp_step. eapply wp_lift; [apply (ic_imc _ _ HI)|]. rewrite (proj2 (Z.leb_gt _ _)) by lia. wp_step. unfold get_tx, set_tx. do 2 wp_step. eapply wp_lift; [exact Et|].
  cbn [tt_numPktsPending tt_bytesRemaining tt_offset tt_sequence]. rewrite (proj2 (Z.ltb_lt _ _)) by lia. cbn [when]. do 4 wp_step.
  eapply wp_lift; [apply aset_is_Some; lia|]. do 4 wp_step. cbn [tp_TxInfo]. eapply wp_lift; [apply aget_insert_eq; lia|]. cbn [tt_numPktsPending tt_bytesRemaining].
  change (0 =? 0) with true. rewrite andb_true_r. destruct n as [|n].
  - cbn [when Z.of_nat]. change (Z.of_nat 1 - 1 =? 0) with true. cbn [when]. unfold get_msg. wp_step. eapply wp_lift; [apply (ic_cfg _ _ HI)|].
    unfold tp_call_, tp_ev. wp_steps. cbn [confs]. apply wp_ret. cbn [tp_trace]. split; [apply confirms_app | rewrite queued_app; apply app_nil_r].
  - rewrite (proj2 (Z.eqb_neq _ _)) by lia. cbn [when]. wp_step. set (w1 := mkImcTp _ _ _ _).
    assert (outstanding (Z.of_nat (S n)) w1) as Hs1.
    { split.
      - split; [cbn; by rewrite lenZ_insert|]. split; [|done]. cbn. apply Forall_insert; [done|]. unfold tx_ok. cbn. lia.
      - exists off, s. unfold w1. cbn [tp_TxInfo tp_up]. rewrite aget_insert_eq by lia. do 2 f_equal. lia. }
    eapply wp_mono; [apply IH; [lia|done]|]. done.
Qed.

(** A message that is all out waits for its confirmations. *)
Lemma sending_outstanding s p w : sending s p w → imc_src (tp_up w) = [] → outstanding p w.
Proof. intros [Hw (off & Et) _] E. rewrite E in Et. split; [done|]. by exists off, s. Qed.

(** Cancelling drops what is left to send. *)
Lemma cancel_wp s p w : sending s p w → imc_src (tp_up w) ≠ [] →
  wp (rbdImcTp_CancelTransmit (tm_UpperTxFromPduR c)) (λ r w', r = E_OK ∧ outstanding p w' ∧ tp_trace w' = tp_trace w) w.
Proof using HO HI.
  intros Hs Hne. destruct (sending_ranges _ _ _ Hs) as (Hsr & Hpr & Hl). destruct Hs as [Hw (off & Et) Ho]. destruct (ic_range _ _ HI) as [Hi0 Hi1]. pose proof Hw as ([Hl1 Hl2] & Ht & Hr).
  assert (0 < lenZ (imc_src (tp_up w))) by (destruct (imc_src (tp_up w)) as [|b d]; [done|]; rewrite lenZ_cons; pose proof (lenZ_nonneg d); lia).
  unfold rbdImcTp_CancelTransmit, get_tx, set_tx. wp_step. eapply wp_lift; [apply (ic_pdur _ _ HI)|]. rewrite (proj2 (Z.leb_gt _ _)) by lia.
  do 3 wp_step. eapply wp_lift; [exact Et|]. cbn [tt_bytesRemaining tt_offset tt_sequence tt_numPktsPending]. rewrite (proj2 (Z.eqb_neq _ _)) by lia.
  do 4 wp_step. eapply wp_lift; [apply aset_is_Some; lia|]. wp_steps. split_and!; try done. split.
  - split; [cbn; by rewrite lenZ_insert|]. split; [|done]. cbn. apply Forall_insert; [done|]. unfold tx_ok. cbn. lia.
  - exists off, s. cbn. by rewrite aget_insert_eq by lia.
Qed.

(** Nothing is being sent, no confirmation is outstanding on message [i]. *)
Record imc_idle (w : W) : Prop := {
  ii_inv : tp_inv w;
  ii_tx : ∃ off s, aget (tp_TxInfo w) i = Some (mkTpTx 0 off s 0);
  ii_others : ∀ j t, 0 ≤ j < TpNumMsg → j ≠ i → aget (tp_TxInfo w) j = Some t → tt_bytesRemaining t = 0
}.

Lemma transmit_starts w d : imc_idle w → lenZ (imc_src (tp_up w)) < 65536 →
  wp (rbdImcTp_Transmit (tm_UpperTxFromPduR c) (Some (mkPduInfo d (lenZ (imc_src (tp_up w))))))
    (λ r w', r = E_OK ∧ sending 0 0 w' ∧ tp_trace w' = tp_trace w ∧ tp_up w' = tp_up w) w.
Proof using HO HI.
  intros [Hw (off & s & Et) Ho] Hl. destruct (ic_range _ _ HI) as [Hi0 Hi1]. pose proof Hw as ([Hl1 Hl2] & Ht & Hr). pose proof (lenZ_nonneg (imc_src (tp_up w))).
  unfold rbdImcTp_Transmit, get_tx, set_tx. wp_step. eapply wp_lift; [apply (ic_pdur _ _ HI)|]. rewrite (proj2 (Z.leb_gt _ _)) by lia.
  do 3 wp_step. eapply wp_lift; [exact Et|]. do 4 wp_step. eapply wp_lift; [apply aset_is_Some; lia|]. wp_steps. cbn [SduLength tt_numPktsPending]. rewrite u16_small by lia.
  split_and!; try done. split.
  - split; [cbn; by rewrite lenZ_insert|]. split; [|done]. cbn. apply Forall_insert; [done|]. unfold tx_ok. cbn. lia.
  - exists 0. cbn. by rewrite aget_insert_eq by lia.
  - intros j t Hj Hji. cbn. rewrite aget_insert_ne by lia. by apply Ho.
Qed.

End sender.

Section receiver.
Context {U : Type} `{HE : ImcTp_Env U} {HO : ImcTp_CfgOk U} (i : Z) (c : rbdImc_TpMsgCfg_st) (HI : ImcConn i c) {HK : ImcSink U c}.
Abbreviation W := (ImcTpWorld U).

(** What the upper layer sees of a reception. *)
Inductive rx_out := RxStart (len : Z) | RxData (data : list Z) | RxResult (r : Std_ReturnType).
Definition rx_out_of (e : ImcTp_Event) : option rx_out :=
  match e with
  | ImcStart _ len BUFREQ_OK => Some (RxStart len)
  | ImcCopyRx _ d BUFREQ_OK => Some (RxData d)
  | ImcRxIndicate _ r => Some (RxResult r)
  | _ => None
  end.
Definition rx_outs (tr : list ImcTp_Event) : list rx_out := omap rx_out_of tr.
Lemma rx_outs_snoc tr e x : rx_out_of e = Some x → rx_outs (tr ++ [e]) = rx_outs tr ++ [x].
Proof. intros E. unfold rx_outs. rewrite omap_app. cbn. by rewrite E. Qed.
Definition rx_data (l : list rx_out) : list Z := concat (omap (λ x, match x with RxData d => Some d | _ => None end) l).
Lemma rx_data_app l l' : rx_data (l ++ l') = rx_data l ++ rx_data l'.
Proof. unfold rx_data. by rewrite omap_app, concat_app. Qed.

(** The packets arrive. *)
Fixpoint feeds (fs : list (list Z)) : M W unit :=
  match fs with [] => mret tt | f :: fs => rbdImc_TpRxIndication (tm_ImcPduId c) (lenZ f) (Some f);; feeds fs end.

(** [left] bytes are missing, the next sequence number is [s]; or nothing is. *)
Definition receiving (left s : Z) (w : W) : Prop :=
  tp_inv w ∧ aget (tp_RxInfo w) i = Some (mkTpRx left true s) ∧ left ≤ imc_room (tp_up w) ∧ 0 ≤ left.
Definition received_all (w : W) : Prop := tp_inv w ∧ ∃ s, aget (tp_RxInfo w) i = Some (mkTpRx 0 false s).

Definition after (left s : Z) (w : W) : Prop := if left =? 0 then received_all w else receiving left s w.

Lemma inv_rx (w : W) x u tr : tp_inv w → rx_ok x → tp_inv (mkImcTp (tp_TxInfo w) (<[Z.to_nat i := x]> (tp_RxInfo w)) u tr).
Proof. intros ([H1 H2] & Ht & Hr) Hx. split; [cbn; by rewrite lenZ_insert|]. split; [done|]. by apply Forall_insert. Qed.

(** The end of RxIndication: the transfer may be over. *)
Lemma finish_wp left s w tr0 l :
  receiving left s w → rx_outs (tp_trace w) = rx_outs tr0 ++ l →
  wp (r ← get_rx i; when ((tr_bytesRemaining r =? 0) && tr_active r) (set_rx i (mkTpRx 0 false 0);; indicate i E_OK))
    (λ _ w', after left s w' ∧ rx_outs (tp_trace w') = rx_outs tr0 ++ l ++ (if left =? 0 then [RxResult E_OK] else [])) w.
Proof using HO HI.
  intros (Hw & Er & Hroom & H0) Eo. destruct (ic_range _ _ HI) as [Hi0 Hi1]. pose proof Hw as ([Hl1 Hl2] & _). unfold get_rx, set_rx, after. do 3 wp_step. eapply wp_lift; [exact Er|].
  cbn [tr_bytesRemaining tr_active]. rewrite andb_true_r. destruct (left =? 0) eqn:E; cbn [when]; [|apply wp_ret; by rewrite app_nil_r].
  do 4 wp_step. eapply wp_lift; [apply aset_is_Some; lia|]. wp_step. unfold indicate, get_msg. wp_step. eapply wp_lift; [apply (ic_cfg _ _ HI)|]. unfold tp_call_, tp_ev. wp_steps. cbn [tp_RxInfo tp_TxInfo tp_trace].
  split.
  - split; [by apply inv_rx|]. exists 0. cbn. by rewrite aget_insert_eq by lia.
  - rewrite (rx_outs_snoc _ _ (RxResult E_OK)) by done. by rewrite Eo, <-app_assoc.
Qed.

(** A first packet starts a reception, whatever the state. *)
Lemma first_wp w len chunk :
  tp_inv w → 0 ≤ len < 65536 → len ≤ imc_cap → lenZ chunk ≤ len → lenZ chunk + 3 < 65536 →
  let f := imc_hdr 0 len ++ chunk in
  wp (rbdImc_TpRxIndication (tm_ImcPduId c) (lenZ f) (Some f))
    (λ _ w', after (len - lenZ chunk) 1 w' ∧ rx_outs (tp_trace w') = rx_outs (tp_trace w) ++ [RxStart len; RxData chunk] ++
       (if len - lenZ chunk =? 0 then [RxResult E_OK] else [])) w.
Proof using HO HI.
  intros Hw Hlen Hcap Hch Hlim f. destruct (ic_range _ _ HI) as [Hi0 Hi1]. pose proof Hw as ([Hl1 Hl2] & _). pose proof (lenZ_nonneg chunk).
  assert (lenZ f = lenZ chunk + 3) as Ef by (unfold f; rewrite lenZ_app, hdr_len; cbn; lia). rewrite Ef.
  unfold rbdImc_TpRxIndication. wp_step. eapply wp_lift; [apply (ic_imc _ _ HI)|]. rewrite (proj2 (Z.leb_gt _ _)) by lia.
  assert (too_short (lenZ chunk + 3) f = Some false) as Es.
  { unfold too_short, f. rewrite (proj2 (Z.ltb_ge _ _)) by lia. cbn. by rewrite (proj2 (Z.ltb_ge _ _)) by lia. }
  wp_step. eapply wp_lift; [exact Es|]. cbv iota. wp_step. eapply wp_lift; [reflexivity|]. change (0 =? 0) with true. cbv iota.
  wp_step. unfold rbdImc_TpRxFirstFrame. wp_step. eapply wp_lift; [reflexivity|]. wp_step. eapply wp_lift; [reflexivity|].
  rewrite Z.shiftl_mul_pow2 by lia. change (2 ^ 8) with 256.
  assert (0 ≤ len / 256 < 256) by (split; [apply Z.div_pos; lia | apply Z.div_lt_upper_bound; lia]). pose proof (Z.div_mod len 256 ltac:(lia)). pose proof (Z.mod_pos_bound len 256 ltac:(lia)).
  rewrite (u16_small (len / 256 * 256)) by lia. replace (len / 256 * 256 + len mod 256) with len by lia. rewrite (u16_small len) by lia. rewrite (u16_small (lenZ chunk + 3 - 3)) by lia.
  replace (lenZ chunk + 3 - 3) with (lenZ chunk) by lia. rewrite (proj2 (Z.ltb_ge len _)) by lia. wp_step. unfold get_msg. eapply wp_lift; [apply (ic_cfg _ _ HI)|].
  wp_step. apply wp_tp_call. intros res u1 E1. destruct (imc_start (lenZ chunk) len (tp_up w) Hcap) as (u1' & E1' & Hroom). rewrite E1 in E1'. injection E1' as -> ->.
  rewrite bool_decide_true by done. wp_step. apply wp_tp_ev. wp_step. wp_step. eapply wp_lift; [unfold f; rewrite <-(app_nil_r chunk) at 1; apply aslice_app; done|].
  unfold copy_rx. wp_step. apply wp_tp_call. cbn [tp_up tp_TxInfo tp_RxInfo tp_trace]. intros res u2 E2. destruct (imc_take chunk u1') as (u2' & E2' & Hroom2); [lia|]. rewrite E2 in E2'. injection E2' as -> ->.
  wp_step. apply wp_tp_ev. wp_step. unfold get_rx at 1, set_rx at 1. wp_step. do 2 wp_step. cbn [tp_up tp_TxInfo tp_RxInfo tp_trace].
  destruct (aget_is_Some (tp_RxInfo w) i) as [x Ex]; [lia|]. eapply wp_lift; [exact Ex|]. rewrite bool_decide_true by done. do 3 wp_step. cbn [tp_RxInfo]. eapply wp_lift; [apply aset_is_Some; lia|]. wp_step. cbn [tp_up tp_TxInfo tp_RxInfo tp_trace].
  rewrite u16_small by lia. apply finish_wp.
  - split; [apply inv_rx; [done|]; unfold rx_ok; cbn; lia|]. split; [cbn; by rewrite aget_insert_eq by lia|]. cbn. lia.
  - cbn [tp_trace]. rewrite (rx_outs_snoc _ _ (RxData chunk)), (rx_outs_snoc _ _ (RxStart len)) by done. by rewrite <-app_assoc.
Qed.

Lemma seq_byte s : Z.land (Z.lor (s mod 16) 32) 15 = s mod 16 ∧ Z.lor (s mod 16) 32 ≠ 0.
Proof.
  pose proof (Z.mod_pos_bound s 16 ltac:(lia)) as Hs.
  assert (Forall (λ x, Z.land (Z.lor x 32) 15 = x ∧ Z.lor x 32 ≠ 0) (seqZ 0 16)) as HF by (vm_compute; repeat constructor; discriminate).
  rewrite Forall_forall in HF. apply HF, list_elem_of_In, elem_of_seqZ. lia.
Qed.

(** The next packet in sequence. *)
Lemma next_wp w left s chunk :
  receiving left s w → 0 < s < 256 → lenZ chunk ≤ left → lenZ chunk + 1 < 65536 →
  let f := imc_hdr s left ++ chunk in
  wp (rbdImc_TpRxIndication (tm_ImcPduId c) (lenZ f) (Some f))
    (λ _ w', after (left - lenZ chunk) (u8 (s + 1)) w' ∧ rx_outs (tp_trace w') = rx_outs (tp_trace w) ++ [RxData chunk] ++
       (if left - lenZ chunk =? 0 then [RxResult E_OK] else [])) w.
Proof using HO HI.
  intros (Hw & Er & Hroom & H0) Hs Hch Hlim f. destruct (ic_range _ _ HI) as [Hi0 Hi1]. pose proof Hw as ([Hl1 Hl2] & _ & Hr). pose proof (lenZ_nonneg chunk).
  destruct (seq_byte s) as [Hb Hb0]. assert (imc_hdr s left = [Z.lor (s mod 16) 32]) as Eh by (unfold imc_hdr; by rewrite (proj2 (Z.eqb_neq _ _)) by lia).
  assert (rx_ok (mkTpRx left true s)) as [Hlr _] by (rewrite Forall_forall in Hr; apply Hr, list_elem_of_In; by eapply aget_elem). cbn in Hlr.
  unfold f. rewrite Eh, lenZ_app. change (lenZ [_]) with 1. set (b := Z.lor (s mod 16) 32) in *. clearbody b.
  unfold rbdImc_TpRxIndication. wp_step. eapply wp_lift; [apply (ic_imc _ _ HI)|]. rewrite (proj2 (Z.leb_gt _ _)) by lia.
  assert (too_short (1 + lenZ chunk) ([b] ++ chunk) = Some false) as Es.
  { unfold too_short. rewrite (proj2 (Z.ltb_ge _ _)) by lia. change (aget ([b] ++ chunk) 0) with (Some b). cbn [mbind option_bind]. by rewrite (proj2 (Z.eqb_neq b 0)) by done. }
  wp_step. eapply wp_lift; [exact Es|]. cbv iota. wp_step. apply (wp_lift _ b); [reflexivity|]. rewrite (proj2 (Z.eqb_neq b 0)) by done. cbv iota.
  wp_step. unfold rbdImc_TpRxConsecutiveFrame. wp_step. apply (wp_lift _ b); [reflexivity|]. unfold get_rx at 1. do 3 wp_step. eapply wp_lift; [exact Er|].
  cbn [tr_sequence tr_bytesRemaining tr_active]. rewrite Hb, land_15, Z.eqb_refl. cbn [negb]. rewrite (u16_small (1 + lenZ chunk - 1)) by lia. replace (1 + lenZ chunk - 1) with (lenZ chunk) by lia.
  rewrite (proj2 (Z.ltb_ge left _)) by lia. wp_step. unfold get_msg. eapply wp_lift; [apply (ic_cfg _ _ HI)|].
  wp_step. eapply wp_lift; [rewrite <-(app_nil_r chunk) at 1; apply aslice_app; done|].
  unfold copy_rx. wp_step. wp_step. apply wp_tp_call. cbn [tp_up tp_TxInfo tp_RxInfo tp_trace]. intros res u2 E2. destruct (imc_take chunk (tp_up w)) as (u2' & E2' & Hroom2); [lia|]. rewrite E2 in E2'. injection E2' as -> ->.
  wp_step. apply wp_tp_ev. wp_step. rewrite bool_decide_true by done. unfold set_rx at 1. do 3 wp_step. cbn [tp_up tp_TxInfo tp_RxInfo tp_trace]. eapply wp_lift; [apply aset_is_Some; lia|]. wp_step. cbn [tp_up tp_TxInfo tp_RxInfo tp_trace].
  rewrite u16_small by lia. pose proof (u8_bound (s + 1)). apply finish_wp.
  - split; [apply inv_rx; [done|]; unfold rx_ok; cbn; lia|]. split; [cbn; by rewrite aget_insert_eq by lia|]. cbn. lia.
  - cbn [tp_trace]. by rewrite (rx_outs_snoc _ _ (RxData chunk)).
Qed.
Context (mx : Z).

(** Up to [n] further packets, as long as the counter does not wrap. *)
Lemma feeds_next n s data w :
  receiving (lenZ data) s w → data ≠ [] → 0 < s → s + Z.of_nat n ≤ 256 → 4 ≤ mx ≤ 65535 →
  let k := (n * Z.to_nat (mx - 1))%nat in
  wp (feeds (imc_packets n mx s data)) (λ _ w', after (lenZ (drop k data)) (u8 (s + Z.of_nat n)) w' ∧
    ∃ chunks, concat chunks = take k data ∧
      rx_outs (tp_trace w') = rx_outs (tp_trace w) ++ (RxData <$> chunks) ++ (if decide (drop k data = []) then [RxResult E_OK] else [])) w.
Proof using HO HI.
  intros Hr Hne Hs Hn Hmx. revert s data w Hr Hne Hs Hn. induction n as [|n IH]; intros s data w Hr Hne Hs Hn k.
  { subst k. cbn [imc_packets feeds Nat.mul]. rewrite drop_0, decide_False by done. apply wp_ret. rewrite Z.add_0_r. cbn in Hn. split.
    - unfold after. rewrite (proj2 (Z.eqb_neq _ _)) by (destruct data; [done|]; rewrite lenZ_cons; pose proof (lenZ_nonneg data); lia).
      destruct (decide (s = 256)) as [->|]; [|by rewrite u8_small by lia]. exfalso. destruct Hr as ((_ & _ & Hf) & Er & _).
      rewrite Forall_forall in Hf. destruct (Hf _ ltac:(apply list_elem_of_In; by eapply aget_elem)) as [_ ?]. cbn in *. lia.
    - exists []. by rewrite take_0, !app_nil_r. }
  destruct data as [|b0 data0] eqn:Ed; [done|]. rewrite <-Ed in *. assert (imc_packets (S n) mx s data =
    (imc_hdr s (lenZ data) ++ take (imc_chunk mx s) data) :: imc_packets n mx (u8 (s + 1)) (drop (imc_chunk mx s) data)) as -> by (by rewrite Ed).
  assert (imc_chunk mx s = Z.to_nat (mx - 1)) as Ec by (unfold imc_chunk; rewrite hdr_len, (proj2 (Z.eqb_neq s 0)) by lia; done). rewrite Ec.
  set (c1 := take _ data). set (d1 := drop _ data). assert (lenZ data - lenZ c1 = lenZ d1) as El by (unfold c1, d1, lenZ; rewrite length_take, length_drop; lia).
  pose proof (lenZ_nonneg c1). pose proof (lenZ_nonneg d1). cbn [feeds]. wp_step. eapply wp_mono.
  { apply (next_wp w (lenZ data) s c1); [done|lia|lia|unfold c1, lenZ; rewrite length_take; lia]. }
  intros [] w1 (Ha & Eo). rewrite El in *. assert (drop k data = drop (n * Z.to_nat (mx - 1)) d1) as Edk by (unfold k, d1; rewrite drop_drop; f_equal; lia).
  assert (take k data = c1 ++ take (n * Z.to_nat (mx - 1)) d1) as Etk by (unfold k, c1, d1; rewrite Nat.mul_succ_l, Nat.add_comm, take_take_drop; done).
  rewrite Edk, Etk. destruct (decide (d1 = [])) as [E1|Hne1].
  - rewrite E1 in *. rewrite drop_nil, take_nil, decide_True by done. replace (imc_packets n mx (u8 (s + 1)) []) with (@nil (list Z)) by (by destruct n).
    cbn [feeds]. apply wp_ret. split; [done|]. exists [c1]. split; [cbn; by rewrite app_nil_r|]. exact Eo.
  - assert (lenZ d1 ≠ 0) as H1 by (destruct d1; [done|]; rewrite lenZ_cons; pose proof (lenZ_nonneg d1); lia).
    rewrite (proj2 (Z.eqb_neq _ _) H1), app_nil_r in Eo. unfold after in Ha. rewrite (proj2 (Z.eqb_neq _ _) H1) in Ha.
    destruct (decide (n = 0%nat)) as [->|Hn0].
    + cbn [imc_packets feeds Nat.mul]. rewrite drop_0, take_0, decide_False by done. apply wp_ret. change (s + Z.of_nat 1) with (s + 1). split; [unfold after; by rewrite (proj2 (Z.eqb_neq _ _) H1)|].
      exists [c1]. split; [done|]. by rewrite Eo.
    + rewrite (u8_small (s + 1)) in * by lia. eapply wp_mono; [apply (IH (s + 1) d1 w1 Ha Hne1); lia|]. cbn zeta. replace (s + 1 + Z.of_nat n) with (s + Z.of_nat (S n)) by lia.
      intros [] w2 (Ha2 & chunks & Ech & Eo2). split; [done|]. exists (c1 :: chunks). split; [cbn; by rewrite Ech|]. by rewrite Eo2, Eo, <-app_assoc.
Qed.
(** What the 256 packets of one round of the sequence counter carry. *)
Definition imc_round : nat := (Z.to_nat (mx - 3) + 255 * Z.to_nat (mx - 1))%nat.

(** A message, from any state of the receiver: at most one round of packets. *)
Lemma feeds_message data w :
  tp_inv w → data ≠ [] → lenZ data < 65536 → lenZ data ≤ imc_cap → 4 ≤ mx ≤ 65535 →
  wp (feeds (imc_packets 256 mx 0 data)) (λ _ w', tp_inv w' ∧
    ∃ chunks, concat chunks = take imc_round data ∧
      rx_outs (tp_trace w') = rx_outs (tp_trace w) ++ RxStart (lenZ data) :: (RxData <$> chunks) ++ (if decide (drop imc_round data = []) then [RxResult E_OK] else [])) w.
Proof using HO HI.
  intros Hw Hne Hlen Hcap Hmx. assert (imc_packets 256 mx 0 data =
    (imc_hdr 0 (lenZ data) ++ take (imc_chunk mx 0) data) :: imc_packets 255 mx 1 (drop (imc_chunk mx 0) data)) as -> by (by destruct data).
  assert (imc_chunk mx 0 = Z.to_nat (mx - 3)) as -> by done. set (c0 := take _ data). set (d0 := drop _ data).
  assert (lenZ data - lenZ c0 = lenZ d0) as El by (unfold c0, d0, lenZ; rewrite length_take, length_drop; lia). pose proof (lenZ_nonneg c0). pose proof (lenZ_nonneg d0). pose proof (lenZ_nonneg data).
  cbn [feeds]. wp_step. eapply wp_mono. { apply (first_wp w (lenZ data) c0); [done|lia|done|lia|unfold c0, lenZ; rewrite length_take; lia]. }
  intros [] w1 (Ha & Eo). rewrite El in *. assert (drop imc_round data = drop (255 * Z.to_nat (mx - 1)) d0) as -> by (unfold imc_round, d0; by rewrite drop_drop).
  assert (take imc_round data = c0 ++ take (255 * Z.to_nat (mx - 1)) d0) as -> by (unfold imc_round, c0, d0; by rewrite take_take_drop).
  assert (∀ l s x, after l s x → tp_inv x) as Hinv by (intros l s x; unfold after; destruct (l =? 0); intros Hx; apply Hx).
  destruct (decide (d0 = [])) as [E0|Hne0].
  - rewrite E0 in *. rewrite drop_nil, take_nil, decide_True by done. replace (imc_packets 255 mx 1 []) with (@nil (list Z)) by done.
    cbn [feeds]. apply wp_ret. split; [by eapply Hinv|]. exists [c0]. split; [cbn; by rewrite !app_nil_r|]. exact Eo.
  - assert (lenZ d0 ≠ 0) as Hd by (destruct d0; [done|]; rewrite lenZ_cons; pose proof (lenZ_nonneg d0); lia).
    unfold after in Ha. rewrite (proj2 (Z.eqb_neq _ _) Hd) in Ha, Eo. eapply wp_mono; [apply (feeds_next 255 1 d0 w1 Ha Hne0); lia|].
    cbn zeta. intros [] w2 (Ha2 & chunks & Ech & Eo2). split; [by eapply Hinv|]. exists (c0 :: chunks). split; [cbn [concat]; by rewrite Ech|]. by rewrite Eo2, Eo, <-app_assoc.
Qed.

Lemma feeds_app fs fs' w (Q : unit → W → Prop) : wp (feeds fs) (λ _, wp (feeds fs') Q) w → wp (feeds (fs ++ fs')) Q w.
Proof.
  revert w. induction fs as [|f fs IH]; intros w Hq; cbn [feeds app] in *; [exact Hq|]. wp_step. apply wp_bind_inv in Hq. eapply wp_mono; [exact Hq|]. intros [] w1 H1. by apply IH.
Qed.
End receiver.

(** ** Rounds of the sequence counter *)

Lemma packets_nil n max s : imc_packets n max s [] = [].
Proof. by destruct n. Qed.

Lemma packets_length n max s data : (length (imc_packets n max s data) ≤ n)%nat.
Proof. revert s data. induction n as [|n IH]; intros s data; [done|]. destruct data; cbn [imc_packets length]; [lia|]. specialize (IH (u8 (s + 1)) (drop (imc_chunk max s) (z :: data))). lia. Qed.

Lemma packets_split n m max s data :
  0 < s → s + Z.of_nat n ≤ 256 → data ≠ [] → (0 < n)%nat →
  imc_packets (n + m) max s data = imc_packets n max s data ++ imc_packets m max (u8 (s + Z.of_nat n)) (drop (n * Z.to_nat (max - 1)) data).
Proof.
  intros Hs Hn Hne H0. revert s data Hs Hn Hne. induction n as [|n IH]; [lia|]. intros s data Hs Hn Hne. destruct data as [|b data]; [done|]. cbn [imc_packets Nat.add app]. f_equal.
  assert (imc_chunk max s = Z.to_nat (max - 1)) as -> by (unfold imc_chunk; rewrite hdr_len, (proj2 (Z.eqb_neq s 0)) by lia; done).
  set (d := drop _ (b :: data)). replace (drop (S n * Z.to_nat (max - 1)) (b :: data)) with (drop (n * Z.to_nat (max - 1)) d) by (unfold d; rewrite drop_drop; f_equal; lia).
  destruct (decide (n = 0%nat)) as [->|]; [done|]. destruct (decide (d = [])) as [->|Hd]; [by rewrite !drop_nil, !packets_nil|].
  rewrite (u8_small (s + 1)) by lia. rewrite IH by (done || lia). by replace (s + 1 + Z.of_nat n) with (s + Z.of_nat (S n)) by lia.
Qed.

(** After 256 packets the sender starts again with a first packet for what is left. *)
Lemma segment_rounds max data : 4 ≤ max → imc_segment max data = imc_packets 256 max 0 data ++ imc_segment max (drop (imc_round max) data).
Proof.
  intros Hm. destruct data as [|b0 t0] eqn:Ed; [by rewrite drop_nil|]. rewrite <-Ed in *.
  unfold imc_segment. rewrite <-(packets_enough max (256 + length data) 0 data) by (done || lia). rewrite <-(packets_enough max (length data) 0 (drop _ data)) by (done || (rewrite length_drop; lia)).
  assert (∀ n, imc_packets (S n) max 0 data = (imc_hdr 0 (lenZ data) ++ take (imc_chunk max 0) data) :: imc_packets n max 1 (drop (imc_chunk max 0) data)) as Es by (intros; by rewrite Ed).
  change (256 + length data)%nat with (S (255 + length data)). rewrite !Es. cbn [app]. f_equal. change (imc_chunk max 0) with (Z.to_nat (max - 3)).
  unfold imc_round. rewrite <-drop_drop. destruct (decide (drop (Z.to_nat (max - 3)) data = [])) as [->|Hd]; [by rewrite !drop_nil, !packets_nil|].
  by rewrite packets_split by (done || lia).
Qed.

(** The number of packets, short of a whole round. *)
Lemma segment_count max data : 4 ≤ max → lenZ data ≤ max - 3 + 254 * (max - 1) → (length (imc_segment max data) ≤ 255)%nat.
Proof.
  intros Hm Hl. destruct data as [|b0 t0] eqn:Ed; [cbn; lia|]. rewrite <-Ed in *. unfold imc_segment. rewrite segment_step by (done || by rewrite Ed).
  cbn [length]. change (u8 (0 + 1)) with 1. set (rest := drop _ data). destruct (decide (rest = [])) as [->|Hr]; [cbn; lia|].
  rewrite <-(packets_enough max (254 + length rest) 1 rest), packets_split by (done || lia).
  replace (drop _ rest) with (@nil Z); [rewrite packets_nil, app_nil_r; pose proof (packets_length 254 max 1 rest); lia|].
  symmetry. apply drop_ge. unfold rest, lenZ in *. rewrite length_drop. change (imc_chunk max 0) with (Z.to_nat (max - 3)). lia.
Qed.

(** * rbdImc transport protocol: what a message goes through *)

Section claims.
Context {U : Type} `{HE : ImcTp_Env U} {HO : ImcTp_CfgOk U} (i : Z) (c : rbdImc_TpMsgCfg_st) (HI : ImcConn i c) {HS : ImcSource U c}.
Context {V : Type} {HE' : ImcTp_Env V} {HO' : ImcTp_CfgOk V} (i' : Z) (c' : rbdImc_TpMsgCfg_st) (HI' : ImcConn i' c') {HK : ImcSink V c'}.
Abbreviation max := (IMCIF_MSG_MAX_LEN (U := U)).

(** C36. The transport protocol of the inter-microcontroller link is memory safe: from counters in
    range, after any sequence of transmissions, cancellations, cyclic runs, confirmations and
    received packets of any content and length - whatever the router and the packet queue
    answer - every call has a defined result and the counters are in range. *)
Theorem imctp_defined (ops : list tp_op) (w : ImcTpWorld U) :
  tp_inv w → Forall tp_op_ok ops → ∃ w', tp_run ops w = Some (tt, w') ∧ tp_inv w'.
Proof using HO.
  intros Hw Hops. assert (wp (tp_run ops) (λ _, tp_inv) w) as Hwp.
  { revert w Hw. induction Hops as [|op ops Hop Hops IH]; intros w Hw; cbn [tp_run]; [by apply wp_ret|].
    wp_step. eapply wp_mono; [by apply do_safe|]. intros [] w' Hw'. by apply IH. }
  destruct (wp_run _ _ _ Hwp) as ([] & w' & Hrun & Hw'). by exists w'.
Qed.

(** The transmission of [data], as the code runs it: the request, then one cyclic run per packet. *)
Lemma transmit_cyclics (w : ImcTpWorld U) d n :
  imc_idle i w → lenZ (imc_src (tp_up w)) < 65536 → (n ≤ length (imc_segment max (imc_src (tp_up w))))%nat →
  ∃ w1 w2, rbdImcTp_Transmit (tm_UpperTxFromPduR c) (Some (mkPduInfo d (lenZ (imc_src (tp_up w))))) w = Some (E_OK, w1) ∧
    cyclics n w1 = Some (tt, w2) ∧ sending i c (u8 (Z.of_nat n)) (u8 (Z.of_nat n)) w2 ∧
    (imc_src (tp_up w2) = [] ↔ n = length (imc_segment max (imc_src (tp_up w)))) ∧
    confirms (tp_trace w2) = confirms (tp_trace w) ∧ queued (tp_trace w2) = queued (tp_trace w) ++ take n (imc_segment max (imc_src (tp_up w))).
Proof using HO HI.
  intros Hw Hl Hn. destruct (wp_run _ _ _ (transmit_starts i c HI w d Hw Hl)) as (r & w1 & E1 & -> & Hs1 & Et1 & Eu1).
  pose proof (cyclics_wp i c HI n 0 0 w1 Hs1) as Hc. rewrite Eu1 in Hc. specialize (Hc Hn). destruct (wp_run _ _ _ Hc) as ([] & w2 & E2 & Hs2 & Esrc & Ec & Eq).
  exists w1, w2. rewrite Et1 in Ec, Eq. by rewrite !Z.add_0_l in Hs2.
Qed.

(** The receiver on a message of one round. *)
Lemma one_round data v :
  tp_inv v → data ≠ [] → lenZ data < 65536 → lenZ data ≤ imc_cap (U := V) → (length data ≤ imc_round max)%nat →
  ∃ v' chunks, feeds c' (imc_segment max data) v = Some (tt, v') ∧ concat chunks = data ∧
    rx_outs (tp_trace v') = rx_outs (tp_trace v) ++ RxStart (lenZ data) :: (RxData <$> chunks) ++ [RxResult E_OK].
Proof using HO HO' HI'.
  intros Hv Hne Hl Hcap Hr. pose proof (tp_len_ok (U := U)) as Hmax. rewrite segment_rounds, drop_ge by lia. change (imc_segment max []) with (@nil (list Z)). rewrite app_nil_r.
  destruct (wp_run _ _ _ (feeds_message i' c' HI' max data v Hv Hne Hl Hcap Hmax)) as ([] & v' & E & _ & chunks & Ech & Eo).
  rewrite drop_ge, decide_True in Eo by (done || lia). rewrite take_ge in Ech by lia. by exists v', chunks.
Qed.

(** C35. A message of 1 to (max - 3) + 254 (max - 1) bytes, where max is the length of a packet, crosses
    the link.  Sender: the request is accepted, one cyclic run per packet queues the packets of
    the message in order, and their confirmations confirm the message to the router exactly
    once, positively.  Receiver, in any state: fed with these packets it starts one
    reception of the message's length, hands up chunks that are the message, and indicates
    it complete. *)
Theorem imctp_round_trip (w : ImcTpWorld U) (v : ImcTpWorld V) d :
  let data := imc_src (tp_up w) in
  let packets := imc_segment max data in
  imc_idle i w → tp_inv v → data ≠ [] → lenZ data < 65536 → lenZ data ≤ max - 3 + 254 * (max - 1) → lenZ data ≤ imc_cap (U := V) →
  ∃ w1 w2 w3 v' chunks,
    rbdImcTp_Transmit (tm_UpperTxFromPduR c) (Some (mkPduInfo d (lenZ data))) w = Some (E_OK, w1) ∧
    cyclics (length packets) w1 = Some (tt, w2) ∧ queued (tp_trace w2) = queued (tp_trace w) ++ packets ∧
    confirms (tp_trace w2) = confirms (tp_trace w) ∧
    confs c (length packets) w2 = Some (tt, w3) ∧ confirms (tp_trace w3) = confirms (tp_trace w) ++ [E_OK] ∧
    feeds c' packets v = Some (tt, v') ∧ concat chunks = data ∧
    rx_outs (tp_trace v') = rx_outs (tp_trace v) ++ RxStart (lenZ data) :: (RxData <$> chunks) ++ [RxResult E_OK].
Proof using HO HI HO' HI'.
  intros data packets Hw Hv Hne Hl Hround Hcap. pose proof (tp_len_ok (U := U)) as Hmax.
  destruct (transmit_cyclics w d (length packets) Hw Hl) as (w1 & w2 & E1 & E2 & Hs & Esrc & Ec & Eq); [done|].
  assert (1 ≤ length packets ≤ 255)%nat as Hp.
  { unfold packets. split; [unfold imc_segment; rewrite segment_step by (done || lia); cbn; lia|]. apply segment_count; [lia|done]. }
  rewrite u8_small in Hs by lia. destruct (wp_run _ _ _ (confs_wp i c HI (length packets) w2 ltac:(lia) (sending_outstanding i c _ _ _ Hs (proj2 Esrc eq_refl)))) as ([] & w3 & E3 & Ec3 & _).
  destruct (one_round data v) as (v' & chunks & E4 & Ech & Eo); try done.
  { unfold imc_round, lenZ in *. lia. }
  exists w1, w2, w3, v', chunks. rewrite Eq. unfold packets at 2. rewrite firstn_all. rewrite Ec in Ec3. done.
Qed.

(** The sequence number of a packet has eight bits and zero marks a first packet: a message of
    more than (max - 3) + 255 (max - 1) bytes is accepted, but its packet 257 is a first
    packet again, and the receiver starts over.  It hands up the front of the message without ever
    indicating it, then the rest as a message of its own, indicated complete. *)
Theorem imctp_sequence_wraps (w : ImcTpWorld U) (v : ImcTpWorld V) d :
  let data := imc_src (tp_up w) in
  let packets := imc_segment max data in
  let rest := drop (imc_round max) data in
  imc_idle i w → tp_inv v → lenZ data < 65536 → rest ≠ [] → (length rest ≤ imc_round max)%nat → lenZ data ≤ imc_cap (U := V) →
  ∃ w1 w2 v' front back,
    rbdImcTp_Transmit (tm_UpperTxFromPduR c) (Some (mkPduInfo d (lenZ data))) w = Some (E_OK, w1) ∧
    cyclics (length packets) w1 = Some (tt, w2) ∧ queued (tp_trace w2) = queued (tp_trace w) ++ packets ∧
    feeds c' packets v = Some (tt, v') ∧ concat front ++ concat back = data ∧ concat back = rest ∧
    rx_outs (tp_trace v') = rx_outs (tp_trace v) ++
      (RxStart (lenZ data) :: (RxData <$> front)) ++ (RxStart (lenZ rest) :: (RxData <$> back)) ++ [RxResult E_OK].
Proof using HO HI HO' HI'.
  intros data packets rest Hw Hv Hl Hne Hround Hcap. pose proof (tp_len_ok (U := U)) as Hmax.
  destruct (transmit_cyclics w d (length packets) Hw Hl) as (w1 & w2 & E1 & E2 & _ & _ & _ & Eq); [done|].
  assert (data ≠ []) as Hd by (intros E; apply Hne; unfold rest; by rewrite E, drop_nil).
  assert (wp (feeds c' (imc_packets 256 max 0 data)) (λ _ v1, tp_inv v1 ∧ ∃ front, concat front = take (imc_round max) data ∧
    rx_outs (tp_trace v1) = rx_outs (tp_trace v) ++ RxStart (lenZ data) :: (RxData <$> front)) v) as Hfront.
  { eapply wp_mono; [by apply (feeds_message i' c' HI' max)|]. intros [] v1 (Hv1 & front & Ef & Eo). split; [done|]. exists front. split; [done|].
    fold rest in Eo. rewrite decide_False in Eo by done. by rewrite app_nil_r in Eo. }
  assert (lenZ rest ≤ lenZ data) as Hrl by (unfold rest, lenZ; rewrite length_drop; lia).
  assert (wp (feeds c' packets) (λ _ v', ∃ front back, concat front = take (imc_round max) data ∧ concat back = rest ∧
    rx_outs (tp_trace v') = rx_outs (tp_trace v) ++
      (RxStart (lenZ data) :: (RxData <$> front)) ++ (RxStart (lenZ rest) :: (RxData <$> back)) ++ [RxResult E_OK]) v) as Hall.
  { unfold packets. rewrite segment_rounds by lia. apply feeds_app. eapply wp_mono; [exact Hfront|]. intros [] v1 (Hv1 & front & Ef & Eo).
    fold rest. destruct (one_round rest v1) as (v' & back & E & Eb & Eo'); try done; try lia. apply (wp_eq _ _ _ _ _ E). exists front, back. split_and!; try done.
    by rewrite Eo', Eo, <-app_assoc. }
  destruct (wp_run _ _ _ Hall) as ([] & v' & E4 & front & back & Ef & Eb & Eo). exists w1, w2, v', front, back. rewrite Eq. unfold packets at 2. rewrite firstn_all.
  split_and!; try done. rewrite Ef, Eb. apply take_drop.
Qed.

(** A cancelled message is confirmed as sent: when CancelTransmit is accepted after n of the
    message's packets were queued, the rest is never sent, and the confirmation of
    the n-th packet gives the router a positive confirmation for the message. *)
Theorem imctp_cancel_confirms (w : ImcTpWorld U) d (n : nat) :
  let data := imc_src (tp_up w) in
  imc_idle i w → lenZ data < 65536 → (0 < n < 256)%nat → (n < length (imc_segment max data))%nat →
  ∃ w1 w2 w3 w4,
    rbdImcTp_Transmit (tm_UpperTxFromPduR c) (Some (mkPduInfo d (lenZ data))) w = Some (E_OK, w1) ∧
    cyclics n w1 = Some (tt, w2) ∧ rbdImcTp_CancelTransmit (tm_UpperTxFromPduR c) w2 = Some (E_OK, w3) ∧
    confs c n w3 = Some (tt, w4) ∧ queued (tp_trace w4) = queued (tp_trace w) ++ take n (imc_segment max data) ∧
    confirms (tp_trace w4) = confirms (tp_trace w) ++ [E_OK].
Proof using HO HI.
  intros data Hw Hl Hn Hlt. destruct (transmit_cyclics w d n Hw Hl) as (w1 & w2 & E1 & E2 & Hs & Esrc & Ec & Eq); [fold data; lia|].
  rewrite u8_small in Hs by lia. assert (imc_src (tp_up w2) ≠ []) as Hne by (intros E; apply Esrc in E; fold data in E; lia).
  destruct (wp_run _ _ _ (cancel_wp i c HI _ _ _ Hs Hne)) as (r & w3 & E3 & -> & Ho & Et).
  destruct (wp_run _ _ _ (confs_wp i c HI n w3 ltac:(lia) Ho)) as ([] & w4 & E4 & Ec4 & Eq4). exists w1, w2, w3, w4. rewrite Eq4, Ec4, Et. by rewrite Eq, Ec.
Qed.
End claims.

(** ** A link with one message

    The upper layer is the bytes it has to send and the room it has left; packets of [mx] bytes. *)

Definition LinkUser : Type := list Z * Z.
Definition link_msg : rbdImc_TpMsgCfg_st := mkTpMsg 10 11 12 13.

Definition link_env (mx : Z) : ImcTp_Env LinkUser := {|
  TpNumMsg := 1; TpMsgCfg := [link_msg]; IMCIF_MSG_MAX_LEN := mx;
  ImcIf_GetBuffer _ n u := (Some (0, replicate (Z.to_nat n) 0), u);
  ImcIf_QueueAdd _ _ u := u;
  tp_CopyTxData _ n u := if bool_decide (0 ≤ n ≤ lenZ u.1) then (BUFREQ_OK, take (Z.to_nat n) u.1, (drop (Z.to_nat n) u.1, u.2)) else (BUFREQ_E_NOT_OK, [], u);
  tp_TxConfirmation _ _ u := u;
  tp_StartOfReception _ _ len u := if bool_decide (len ≤ 65535) then (BUFREQ_OK, (u.1, len)) else (BUFREQ_E_OVFL, u);
  tp_CopyRxData _ d u := if bool_decide (lenZ d ≤ u.2) then (BUFREQ_OK, (u.1, u.2 - lenZ d)) else (BUFREQ_E_NOT_OK, u);
  tp_RxIndication _ _ u := u
|}.

Lemma link_cfg_ok mx : 4 ≤ mx ≤ 65535 → @ImcTp_CfgOk LinkUser (link_env mx).
Proof.
  intros Hmx. split; cbn.
  - unfold lenZ. cbn. lia.
  - done.
  - intros _ n u ch m u' [= <- <- <-]. unfold lenZ. rewrite length_replicate. lia.
  - intros _ n u d u' E. case_bool_decide as Hn; [|done]. injection E as <- _. unfold lenZ in *. rewrite length_take. lia.
Qed.

Lemma link_conn mx : @ImcConn LinkUser (link_env mx) 0 link_msg.
Proof. split; done. Qed.

Definition link_source mx : @ImcSource LinkUser (link_env mx) link_msg.
Proof.
  refine {| imc_src u := u.1 |}.
  - intros u. by exists 0, (replicate (Z.to_nat mx) 0), u.
  - done.
  - intros n u Hn. eexists. cbn. by rewrite bool_decide_true by done.
Defined.

Definition link_sink mx : @ImcSink LinkUser (link_env mx) link_msg.
Proof.
  refine {| imc_room u := u.2; imc_cap := 65535 |}.
  - intros n len u Hl. exists (u.1, len). cbn. by rewrite bool_decide_true by done.
  - intros d u Hd. exists (u.1, u.2 - lenZ d). cbn. by rewrite bool_decide_true by done.
Defined.

(** Both ends are idle, the sender's upper layer has [n] bytes. *)
Definition link_idle (n : nat) : ImcTpWorld LinkUser := mkImcTp [mkTpTx 0 0 0 0] [mkTpRx 0 false 0] (replicate n 7, 0) [].

Lemma link_inv mx n : @tp_inv LinkUser (link_env mx) (link_idle n).
Proof. split; [cbn; unfold lenZ; cbn; lia|]. split; repeat constructor; cbn; lia. Qed.

Lemma link_is_idle mx n : @imc_idle LinkUser (link_env mx) 0 (link_idle n).
Proof. split; [apply link_inv | by exists 0, 0 | cbn; lia]. Qed.

Lemma imctp_defined_witness : ∃ w', @tp_run _ (link_env 8) [TpTransmit 10 (Some (mkPduInfo None 20)); TpCyclic; TpTxConf 13; TpRx 13 2 (Some [0; 1])] (link_idle 20) = Some (tt, w') ∧ @tp_inv _ (link_env 8) w'.
Proof.
  apply (@imctp_defined _ (link_env 8) (link_cfg_ok 8 ltac:(lia))); [apply link_inv|]. repeat constructor; cbn; try lia. intros m [= <-]. unfold lenZ. cbn. lia.
Defined.

Lemma imctp_round_trip_witness : ∃ w1 w2 w3 v' chunks,
  @rbdImcTp_Transmit _ (link_env 8) 10 (Some (mkPduInfo None 20)) (link_idle 20) = Some (E_OK, w1) ∧
  @cyclics _ (link_env 8) 4 w1 = Some (tt, w2) ∧ queued (tp_trace w2) = imc_segment 8 (replicate 20 7) ∧ confirms (tp_trace w2) = [] ∧
  @confs _ (link_env 8) link_msg 4 w2 = Some (tt, w3) ∧ confirms (tp_trace w3) = [E_OK] ∧
  @feeds _ (link_env 8) link_msg (imc_segment 8 (replicate 20 7)) (link_idle 0) = Some (tt, v') ∧ concat chunks = replicate 20 7 ∧
  rx_outs (tp_trace v') = RxStart 20 :: (RxData <$> chunks) ++ [RxResult E_OK].
Proof.
  apply (@imctp_round_trip _ (link_env 8) (link_cfg_ok 8 ltac:(lia)) 0 link_msg (link_conn 8) (link_source 8)
    _ (link_env 8) (link_cfg_ok 8 ltac:(lia)) 0 link_msg (link_conn 8) (link_sink 8) (link_idle 20) (link_idle 0) None);
    [apply link_is_idle | apply link_inv | done | done | done | done].
Defined.

Lemma imctp_sequence_wraps_witness :
  let data := @imc_src _ _ _ (link_source 4) (tp_up (link_idle 800)) in
  let packets := imc_segment (@IMCIF_MSG_MAX_LEN _ (link_env 4)) data in
  let rest := drop (imc_round (@IMCIF_MSG_MAX_LEN _ (link_env 4))) data in
  ∃ w1 w2 v' front back,
    @rbdImcTp_Transmit _ (link_env 4) (tm_UpperTxFromPduR link_msg) (Some (mkPduInfo None (lenZ data))) (link_idle 800) = Some (E_OK, w1) ∧
    @cyclics _ (link_env 4) (length packets) w1 = Some (tt, w2) ∧ queued (tp_trace w2) = queued (tp_trace (link_idle 800)) ++ packets ∧
    @feeds _ (link_env 4) link_msg packets (link_idle 0) = Some (tt, v') ∧
    concat front ++ concat back = data ∧ concat back = rest ∧
    rx_outs (tp_trace v') = rx_outs (tp_trace (link_idle 0)) ++
      (RxStart (lenZ data) :: (RxData <$> front)) ++ (RxStart (lenZ rest) :: (RxData <$> back)) ++ [RxResult E_OK].
Proof.
  refine (@imctp_sequence_wraps _ (link_env 4) (link_cfg_ok 4 ltac:(lia)) 0 link_msg (link_conn 4) (link_source 4)
    _ (link_env 4) (link_cfg_ok 4 ltac:(lia)) 0 link_msg (link_conn 4) (link_sink 4) (link_idle 800) (link_idle 0) None _ _ _ _ _ _);
    [apply link_is_idle | apply link_inv | vm_compute; done | vm_compute; done | vm_compute; lia | vm_compute; done].
Defined.

Lemma imctp_cancel_confirms_witness : ∃ w1 w2 w3 w4,
  @rbdImcTp_Transmit _ (link_env 8) 10 (Some (mkPduInfo None 20)) (link_idle 20) = Some (E_OK, w1) ∧
  @cyclics _ (link_env 8) 2 w1 = Some (tt, w2) ∧ @rbdImcTp_CancelTransmit _ (link_env 8) 10 w2 = Some (E_OK, w3) ∧
  @confs _ (link_env 8) link_msg 2 w3 = Some (tt, w4) ∧ queued (tp_trace w4) = take 2 (imc_segment 8 (replicate 20 7)) ∧ confirms (tp_trace w4) = [E_OK].
Proof.
  apply (@imctp_cancel_confirms _ (link_env 8) (link_cfg_ok 8 ltac:(lia)) 0 link_msg (link_conn 8) (link_source 8) (link_idle 20) None 2);
    [apply link_is_idle | done | lia | vm_compute; lia].
Defined.
