(* ===== verification/ImcCom.v ===== *)
(** * rbdImc: channels, direct messages, ping test and RTE layer
    (rbdImc.c, rbdImc.h, rbdImc_PduR.c, rbdImc_Ping.c, rbdImcRte.c)

    The parts of rbdImc around the transport protocol of ImcTp: which channels are enabled,
    the messages that bypass the transport protocol, the test that measures the round-trip
    time, and the cyclic tasks of the master.  The layers below (ImcIf, ImcTl, ImcDlSpi, not
    part of the repository), plant data, digital outputs and counters are the class
    [Imc_Env]; build switches are its fields.  ImcIf calls back into rbdImc while its main
    function runs: [ImcIf_MainFunction] answers the call-backs it makes, in order. *)

From S2P Require Import Prelude ComStack ElTime ImcTp.
From stdpp Require Import base list numbers option.

#[local] Open Scope Z_scope.

(** ** Types *)

(** The processors of rbdImc.h, and the ends of a channel. *)
Inductive Imc_Cpu := RBD_PK_CPU_SPC58ECx | IMC_CPU_CC26xx | RBD_PK_CPU_S32 | IMC_CPU_NCJ29D5.
Inductive Imc_Role := IMC_MASTER | IMC_SLAVE.
Inductive rbdImc_ChannelEn_et := IMC_CH_EN_OFF | IMC_CH_EN_DL_ONLY | IMC_CH_EN_FULL.

#[global] Instance Imc_Cpu_eq_dec : EqDecision Imc_Cpu.
Proof. solve_decision. Defined.
#[global] Instance Imc_Role_eq_dec : EqDecision Imc_Role.
Proof. solve_decision. Defined.
#[global] Instance ChannelEn_eq_dec : EqDecision rbdImc_ChannelEn_et.
Proof. solve_decision. Defined.

Definition IMC_MCUBLE_EN (cpu : Imc_Cpu) : option Imc_Role :=
  match cpu with RBD_PK_CPU_SPC58ECx => Some IMC_MASTER | IMC_CPU_CC26xx => Some IMC_SLAVE | _ => None end.
Definition IMC_BLEUWB_EN (cpu : Imc_Cpu) : option Imc_Role :=
  match cpu with IMC_CPU_CC26xx | RBD_PK_CPU_S32 => Some IMC_MASTER | IMC_CPU_NCJ29D5 => Some IMC_SLAVE | RBD_PK_CPU_SPC58ECx => None end.

(** The enumeration rbdImc_Channel_et: its members depend on the channels that exist. *)
Definition IMC_CH_MCUBLE : Z := 0.
Definition IMC_CH_BLEUWB (cpu : Imc_Cpu) : Z := match IMC_MCUBLE_EN cpu with Some _ => 1 | None => 0 end.
Definition IMC_CH_COUNT (cpu : Imc_Cpu) : Z := match IMC_MCUBLE_EN cpu, IMC_BLEUWB_EN cpu with Some _, Some _ => 2 | None, None => 0 | _, _ => 1 end.

Record rbdImc_PduRMsgCfgRx_st := mkImcRxCfg { ir_UpperRxToPduR : Z; ir_Imc_PduId : Z }.
Record rbdImc_PduRMsgCfgTx_st := mkImcTxCfg { it_UpperTxFromPduR : Z; it_UpperTxToPduR : Z; it_Imc_PduId : Z }.

(** rbdImc_Ping_s. *)
Record rbdImc_Ping (T : Type) := mkPing {
  pg_SumRTT : Z; pg_NumPackets : Z; pg_NumTx : Z; pg_NumRx : Z; pg_running : bool; pg_STmin_ms : Z; pg_timer : T }.
Arguments mkPing {T} _ _ _ _ _ _ _.
Arguments pg_SumRTT {T} _.
Arguments pg_NumPackets {T} _.
Arguments pg_NumTx {T} _.
Arguments pg_NumRx {T} _.
Arguments pg_running {T} _.
Arguments pg_STmin_ms {T} _.
Arguments pg_timer {T} _.

(** The variables of rbdImcRte.c. *)
Record rbdImc_Rte (T : Type) := mkImcRte { re_powerModeTxTimer : T; re_BleResetDelay : Z; re_IsFastSleepActive : bool }.
Arguments mkImcRte {T} _ _ _.
Arguments re_powerModeTxTimer {T} _.
Arguments re_BleResetDelay {T} _.
Arguments re_IsFastSleepActive {T} _.

(** Calls of ImcIf into rbdImc. *)
Inductive Imc_Callback :=
| CbTxInterrupt (MsgId : Z)
| CbTxConfirmation (MsgId : Z)
| CbRxIndication (MsgId Length : Z) (Msg : option (list Z)) (timestamp : Z)
| CbTpTxConfirmation (MsgId : Z)
| CbTpRxIndication (MsgId Length : Z) (Msg : option (list Z))
| CbPingRxIndication (MsgId Length : Z) (Msg : option (list Z)).

Inductive Imc_Event :=
| ImTx (MsgId Length : Z) (Msg : option (list Z)) (accepted : bool)
| ImTxInterrupt (id : Z)
| ImTxConfirmation (id : Z)
| ImRxIndication (id : Z) (Info : PduInfoType) (SduTimeStamp : Z)
| ImDet (instance service error : Z)
| ImBleReset (released : bool)
| ImTxCanNm
| ImTxFastSleep (mode : Z).

Definition RBDIMCPDUR_IF_TX : Z := 1.
Definition RBDIMC_BLE_RESET_CYCLES : Z := 1.

Class Imc_Env (U : Type) := {
  imc_cpu : Imc_Cpu;
  imc_RBD_PK_APP : bool; imc_RBD_PK_VEHICLE : bool; imc_RBD_PK_KEYFOB : bool; imc_RBD_PK_FBL : bool; imc_RBD_PK_MASTER_MCU : bool;
  RBD_DEVELOPMENT : bool;
  big_endian : bool;
  NumTxMsg : Z; NumRxMsg : Z;
  TxCfg : option (list rbdImc_PduRMsgCfgTx_st);
  RxCfg : option (list rbdImc_PduRMsgCfgRx_st);
  IMCIF_MSG_PING_BLE : Z; IMCIF_MSG_PING_UWB : Z;
  imc_UDS_PR : Z; RB_UDS_14229_BRR : Z; RB_UDS_14229_RSE : Z;
  RBD_ELTIME_KHZ_TICK_TO_MS : Z → Z;
  RBDIMC_CANNM_PERIOD_MS : Z;
  SduTimeStamp_bits : Z;
  ImcIf_Tx : Z → Z → option (list Z) → U → bool * U;
  imc_PduR_TxInterrupt : Z → U → U;
  imc_PduR_TxConfirmation : Z → U → U;
  imc_PduR_RxIndication : Z → PduInfoType → Z → U → U;
  MicrosSince : Z → U → Z;
  CounterKHz : U → Z;
  CanLoading_is_None : U → bool;
  UwbLoading_is_None : U → bool;
  ImcDlSpi_Initialise : U → U; ImcTl_Initialise : U → U; ImcIf_Initialise : U → U;
  CanIf_StartImc : U → U; CanIf_OnlineImc : U → U;
  ImcDlSpi_Cyclic : U → U;
  ImcIf_MainFunction : U → list Imc_Callback * U;
  ImcTl_Cyclic : U → U;
  ImcIf_ResetChannel : Z → U → U; ImcTl_ResetChannel : Z → U → U; ImcDlSpi_ResetChannel : Z → U → U;
  rbdSpecialRam_isPOR : U → bool;
  RBD_PK_NM_STATE_NORMAL_OPERATION : Z; RBD_PK_NM_STATE_REPEAT_MESSAGE : Z;
  imc_NmState : U → Z;
  ImcIf_CfgMcu_TxCanNm : U → U; ImcIf_CfgMcu_TxFastSleep : Z → U → U
}.

(** The module state; the transport protocol keeps its own tables and trace and the state of
    the neighbours. *)
Record ImcWorld (T U : Type) := mkImc {
  im_tp : ImcTpWorld U; im_ping : rbdImc_Ping T; im_ChannelEn : list rbdImc_ChannelEn_et; im_rte : rbdImc_Rte T; im_trace : list Imc_Event }.
Arguments mkImc {T U} _ _ _ _ _.
Arguments im_tp {T U} _.
Arguments im_ping {T U} _.
Arguments im_ChannelEn {T U} _.
Arguments im_rte {T U} _.
Arguments im_trace {T U} _.

Section ImcCom.
Context {T U : Type} `{HT : ImcTp_Env U} `{HI : Imc_Env U} `{HK : ElTime T U}.
Abbreviation W := (ImcWorld T U).

(** ** Access *)

Definition in_tp {A} (m : M (ImcTpWorld U) A) : M W A := λ w,
  match m (im_tp w) with Some (a, t) => Some (a, mkImc t (im_ping w) (im_ChannelEn w) (im_rte w) (im_trace w)) | None => None end.
Definition im_up (w : W) : U := tp_up (im_tp w).
Definition im_call {R} (f : U → R * U) : M W R := in_tp (tp_call f).
Definition im_call_ (f : U → U) : M W unit := in_tp (tp_call_ f).
Definition im_ev (e : Imc_Event) : M W unit := modify (λ w, mkImc (im_tp w) (im_ping w) (im_ChannelEn w) (im_rte w) (im_trace w ++ [e])).
Definition set_ping (p : rbdImc_Ping T) : M W unit := modify (λ w, mkImc (im_tp w) p (im_ChannelEn w) (im_rte w) (im_trace w)).
Definition set_rte (r : rbdImc_Rte T) : M W unit := modify (λ w, mkImc (im_tp w) (im_ping w) (im_ChannelEn w) r (im_trace w)).
Definition set_en (ch : Z) (e : rbdImc_ChannelEn_et) : M W unit :=
  l ← gets im_ChannelEn; l ← lift (aset l ch e); modify (λ w, mkImc (im_tp w) (im_ping w) l (im_rte w) (im_trace w)).

(** A message handed to ImcIf. *)
Definition imc_tx (MsgId Length : Z) (Msg : option (list Z)) : M W bool :=
  ok ← im_call (ImcIf_Tx MsgId Length Msg); im_ev (ImTx MsgId Length Msg ok);; mret ok.

(** ** rbdImc_PduR.c: direct messages *)

(** The search of rbdImcCom_Transmit goes on after a match. *)
Fixpoint Transmit_loop (n : nat) (i : Z) (cfg : list rbdImc_PduRMsgCfgTx_st) (TxPduId : Z) (Info : PduInfoType) (result : Std_ReturnType) : M W Std_ReturnType :=
  match n with
  | O => mret result
  | S n =>
      c ← lift (aget cfg i);
      result ← (if TxPduId =? it_UpperTxFromPduR c then ok ← imc_tx (it_Imc_PduId c) (SduLength Info) (SduDataPtr Info); mret (if ok : bool then E_OK else result) else mret result);
      Transmit_loop n (i + 1) cfg TxPduId Info result
  end.
Definition rbdImcCom_Transmit (TxPduId : Z) (PduInfoPtr : option PduInfoType) : M W Std_ReturnType :=
  match PduInfoPtr, TxCfg with
  | None, _ => im_ev (ImDet 0 RBDIMCPDUR_IF_TX RBDIMCPDUR_ERR_NULL);; mret E_NOT_OK
  | Some _, None => mret E_NOT_OK
  | Some Info, Some cfg => if NumTxMsg =? 0 then mret E_NOT_OK else Transmit_loop (Z.to_nat NumTxMsg) 0 cfg TxPduId Info E_NOT_OK
  end.
Definition rbdImcCom_CancelTransmit (CanTxPduId : Z) : M W Std_ReturnType := mret E_NOT_OK.

Definition rbdImc_IfTxInterrupt (MsgId : Z) : M W unit :=
  if imc_RBD_PK_APP && (bool_decide (imc_cpu = IMC_CPU_CC26xx) || bool_decide (imc_cpu = RBD_PK_CPU_S32)) then
    match TxCfg with
    | None => mret tt
    | Some cfg => mfor (Z.to_nat NumTxMsg) 0 (λ i, c ← lift (aget cfg i);
        when (MsgId =? it_Imc_PduId c) (im_call_ (imc_PduR_TxInterrupt (it_UpperTxToPduR c));; im_ev (ImTxInterrupt (it_UpperTxToPduR c))))
    end
  else mret tt.

Definition rbdImc_IfTxConfirmation (MsgId : Z) : M W unit :=
  match TxCfg with
  | None => mret tt
  | Some cfg => mfor (Z.to_nat NumTxMsg) 0 (λ i, c ← lift (aget cfg i);
      when (MsgId =? it_Imc_PduId c) (im_call_ (imc_PduR_TxConfirmation (it_UpperTxToPduR c));; im_ev (ImTxConfirmation (it_UpperTxToPduR c))))
  end.

Definition rbdImc_IfRxIndication (MsgId Length : Z) (Msg : option (list Z)) (timestamp : Z) : M W unit :=
  match RxCfg with
  | None => mret tt
  | Some cfg => mfor (Z.to_nat NumRxMsg) 0 (λ i, c ← lift (aget cfg i);
      when (MsgId =? ir_Imc_PduId c)
        (us ← gets (λ w, MicrosSince timestamp (im_up w));
         let Info := mkPduInfo Msg Length in
         let ts := uw SduTimeStamp_bits (us * 1000) in
         im_call_ (imc_PduR_RxIndication (ir_UpperRxToPduR c) Info ts);; im_ev (ImRxIndication (ir_UpperRxToPduR c) Info ts)))
  end.

(** ** rbdImc_Ping.c: the ping test *)

Definition RBDIMC_PING_TXMSG : option Z :=
  if imc_RBD_PK_APP then match imc_cpu with RBD_PK_CPU_SPC58ECx => Some IMCIF_MSG_PING_BLE | IMC_CPU_CC26xx | RBD_PK_CPU_S32 => Some IMCIF_MSG_PING_UWB | IMC_CPU_NCJ29D5 => None end
  else None.
Definition RBDIMC_PING_RXMSG : option Z :=
  if imc_RBD_PK_APP then match imc_cpu with IMC_CPU_CC26xx => Some IMCIF_MSG_PING_BLE | IMC_CPU_NCJ29D5 => Some IMCIF_MSG_PING_UWB | _ => None end else None.

(** rbdImc_PingMsg_ut: the four bytes of a time stamp in memory. *)
Definition le_bytes (v : Z) : list Z := [v mod 256; v / 256 mod 256; v / 65536 mod 256; v / 16777216 mod 256].
Definition ping_bytes (v : Z) : list Z := if big_endian then rev (le_bytes v) else le_bytes v.
Definition ping_value (b : list Z) : Z := foldr (λ x acc, x + 256 * acc) 0 (if big_endian then rev b else b).

Definition rbdImc_PingStart (In_ReqData : list Z) : M W Z :=
  p ← gets im_ping;
  if pg_running p then mret RB_UDS_14229_BRR
  else
    hi ← lift (aget In_ReqData 0); lo ← lift (aget In_ReqData 1);
    u ← gets im_up;
    set_ping (mkPing 0 (u16 (Z.shiftl (u16 hi) 8 + lo)) 0 0 true (pg_STmin_ms p) (rbd_ElTime_rbTimerInit u (pg_timer p)));;
    mret imc_UDS_PR.

(** [ErrorCode], the return value and [DataLength]. *)
Definition rbdImc_ImcPingStart_Start (Signal : list Z) : M W (Z * bool * Z) :=
  code ← rbdImc_PingStart Signal; mret (code, code =? imc_UDS_PR, 0).

Definition rbdImc_storeU16 (buf : list Z) (off value : Z) : option (list Z) := b ← aset buf off (u8 (Z.shiftr value 8)); aset b (off + 1) (u8 value).

(** The answer, the contents of the buffer and, when it is set, the length. *)
Definition rbdImc_PingResult (buf : list Z) : M W (Z * list Z * option Z) :=
  p ← gets im_ping;
  if pg_NumPackets p =? 0 then mret (RB_UDS_14229_RSE, buf, None)
  else
    let RTT := if 0 <? pg_NumRx p then u16 (RBD_ELTIME_KHZ_TICK_TO_MS (pg_SumRTT p / pg_NumRx p)) else 0 in
    buf ← lift (rbdImc_storeU16 buf 0 (pg_NumTx p));
    buf ← lift (rbdImc_storeU16 buf 2 (pg_NumRx p));
    buf ← lift (rbdImc_storeU16 buf 4 RTT);
    mret (imc_UDS_PR, buf, Some 6).
(** A length that was not set is indeterminate. *)
Definition rbdImc_ImcPingResult_Result (buf : list Z) : M W (Z * bool * list Z * option Z) :=
  '(code, buf, len) ← rbdImc_PingResult buf; mret (code, code =? imc_UDS_PR, buf, len).

Definition rbdImc_PingCyclic : M W unit :=
  match RBDIMC_PING_TXMSG with
  | None => mret tt
  | Some TXMSG =>
      p ← gets im_ping;
      when (RBD_DEVELOPMENT && pg_running p)
        (u ← gets im_up;
         let '(timerState, timer) := rbd_ElTime_rbTimerUpdate u (pg_timer p) in
         let p := mkPing (pg_SumRTT p) (pg_NumPackets p) (pg_NumTx p) (pg_NumRx p) (pg_running p) (pg_STmin_ms p) timer in
         set_ping p;;
         if pg_NumPackets p <=? pg_NumTx p then
           set_ping (mkPing (pg_SumRTT p) (pg_NumPackets p) (pg_NumTx p) (pg_NumRx p) false (pg_STmin_ms p) timer)
         else if bool_decide (timerState = RBD_ELTIME_RBTIMER_STATE_RUNNING) then mret tt
         else
           ok ← imc_tx TXMSG 4 (Some (ping_bytes (CounterKHz u)));
           when ok
             (u ← gets im_up;
              set_ping (mkPing (pg_SumRTT p) (pg_NumPackets p) (u16 (pg_NumTx p + 1)) (pg_NumRx p) (pg_running p) (pg_STmin_ms p)
                (if 0 <? pg_STmin_ms p then rbd_ElTime_rbTimerStart u (pg_STmin_ms p) timer else timer))))
  end.

Definition rbdImc_PingRxIndication (MsgId Length : Z) (Msg : option (list Z)) : M W unit :=
  when RBD_DEVELOPMENT
    (match RBDIMC_PING_RXMSG with
     | Some RXMSG => when (MsgId =? RXMSG) (imc_tx RXMSG Length Msg;; mret tt)
     | None => mret tt
     end;;
     match RBDIMC_PING_TXMSG with
     | Some TXMSG =>
         when (MsgId =? TXMSG)
           (t ← gets (λ w, CounterKHz (im_up w));
            Msg ← lift Msg; b ← lift (aslice Msg 0 4);
            p ← gets im_ping;
            set_ping (mkPing (u32 (pg_SumRTT p + u32 (t - ping_value b))) (pg_NumPackets p) (pg_NumTx p) (u16 (pg_NumRx p + 1)) (pg_running p) (pg_STmin_ms p) (pg_timer p)))
     | None => mret tt
     end).

(** ** rbdImc.c: the module *)

Definition imc_callback (c : Imc_Callback) : M W unit :=
  match c with
  | CbTxInterrupt m => rbdImc_IfTxInterrupt m
  | CbTxConfirmation m => rbdImc_IfTxConfirmation m
  | CbRxIndication m n d t => rbdImc_IfRxIndication m n d t
  | CbTpTxConfirmation m => in_tp (rbdImc_TpTxConfirmation m)
  | CbTpRxIndication m n d => in_tp (rbdImc_TpRxIndication m n d)
  | CbPingRxIndication m n d => rbdImc_PingRxIndication m n d
  end.
Fixpoint imc_callbacks (cs : list Imc_Callback) : M W unit := match cs with [] => mret tt | c :: cs => imc_callback c;; imc_callbacks cs end.

Definition rbdImc_Init : M W unit :=
  u ← gets im_up;
  match IMC_MCUBLE_EN imc_cpu with
  | None => mret tt
  | Some IMC_MASTER => set_en IMC_CH_MCUBLE IMC_CH_EN_FULL
  | Some IMC_SLAVE => set_en IMC_CH_MCUBLE (if CanLoading_is_None u then IMC_CH_EN_FULL else IMC_CH_EN_OFF)
  end;;
  match IMC_BLEUWB_EN imc_cpu with
  | None => mret tt
  | Some IMC_MASTER => set_en (IMC_CH_BLEUWB imc_cpu) (if UwbLoading_is_None u then IMC_CH_EN_OFF else IMC_CH_EN_FULL)
  | Some IMC_SLAVE => set_en (IMC_CH_BLEUWB imc_cpu) IMC_CH_EN_FULL
  end;;
  im_call_ ImcDlSpi_Initialise;; im_call_ ImcTl_Initialise;; im_call_ ImcIf_Initialise;;
  when imc_RBD_PK_MASTER_MCU (im_call_ CanIf_StartImc;; im_call_ CanIf_OnlineImc).

Definition rbdImc_CyclicFast : M W unit := im_call_ ImcDlSpi_Cyclic.

Definition rbdImc_CyclicMedium : M W unit :=
  cs ← im_call ImcIf_MainFunction;
  imc_callbacks cs;;
  im_call_ ImcTl_Cyclic;;
  when (negb imc_RBD_PK_KEYFOB && negb (imc_RBD_PK_FBL && (bool_decide (imc_cpu = IMC_CPU_NCJ29D5) || bool_decide (imc_cpu = RBD_PK_CPU_S32)))) (in_tp rbdImc_TpCyclic);;
  when (imc_RBD_PK_APP && imc_RBD_PK_VEHICLE) rbdImc_PingCyclic.

Definition rbdImc_SetChannelEn (ch : Z) (enable : rbdImc_ChannelEn_et) : M W unit := when (ch <? IMC_CH_COUNT imc_cpu) (set_en ch enable).

Definition rbdImc_ResetChannel (ch : Z) : M W unit :=
  im_call_ (ImcIf_ResetChannel ch);; im_call_ (ImcTl_ResetChannel ch);; im_call_ (ImcDlSpi_ResetChannel ch).

Definition rbdImcTx_Tx (MsgType Length : Z) (Msg : option (list Z)) : M W Std_ReturnType :=
  ok ← imc_tx MsgType Length Msg; mret (if ok : bool then E_OK else E_NOT_OK).

Definition rbdImc_CyclicFast2 : M W unit := rbdImc_CyclicFast.

(** ** rbdImcRte.c: the tasks of the master *)

Definition rbd_cddImc_Init : M W unit :=
  u ← gets im_up; r ← gets im_rte;
  set_rte (mkImcRte (rbd_ElTime_rbTimerInit u (re_powerModeTxTimer r)) (re_BleResetDelay r) (re_IsFastSleepActive r));;
  when (rbdSpecialRam_isPOR u)
    (im_ev (ImBleReset false);;
     r ← gets im_rte; set_rte (mkImcRte (re_powerModeTxTimer r) RBDIMC_BLE_RESET_CYCLES (re_IsFastSleepActive r))).

Definition rbd_cddImc_Cyclic : M W unit :=
  r ← gets im_rte; u ← gets im_up;
  when (negb (re_IsFastSleepActive r))
    (if (imc_NmState u =? RBD_PK_NM_STATE_NORMAL_OPERATION) || (imc_NmState u =? RBD_PK_NM_STATE_REPEAT_MESSAGE) then
       let '(st, t) := rbd_ElTime_rbTimerUpdate u (re_powerModeTxTimer r) in
       set_rte (mkImcRte t (re_BleResetDelay r) (re_IsFastSleepActive r));;
       when (negb (bool_decide (st = RBD_ELTIME_RBTIMER_STATE_RUNNING)))
         (im_call_ ImcIf_CfgMcu_TxCanNm;; im_ev ImTxCanNm;;
          u ← gets im_up;
          set_rte (mkImcRte (rbd_ElTime_rbTimerStart u RBDIMC_CANNM_PERIOD_MS t) (re_BleResetDelay r) (re_IsFastSleepActive r)))
     else set_rte (mkImcRte (rbd_ElTime_rbTimerStop u (re_powerModeTxTimer r)) (re_BleResetDelay r) (re_IsFastSleepActive r)));;
  r ← gets im_rte;
  when (0 <? re_BleResetDelay r)
    (let d := u8 (re_BleResetDelay r - 1) in
     set_rte (mkImcRte (re_powerModeTxTimer r) d (re_IsFastSleepActive r));;
     when (d =? 0) (im_ev (ImBleReset true))).

Definition rbd_cddImc_FastSleepReq (mode : Z) : M W unit :=
  im_call_ (ImcIf_CfgMcu_TxFastSleep mode);; im_ev (ImTxFastSleep mode);;
  r ← gets im_rte; set_rte (mkImcRte (re_powerModeTxTimer r) (re_BleResetDelay r) true).
End ImcCom.
