(* ===== verification/ImcComClaims.v ===== *)
(** * rbdImc: what the ping test and the direct messages do *)

From S2P Require Import Prelude ComStack ElTime ImcTp ImcCom.
From stdpp Require Import base list numbers option.

#[local] Open Scope Z_scope.

Section calls.
Context {T U : Type} `{HT : ImcTp_Env U} `{HI : Imc_Env U} `{HK : ElTime T U}.
Abbreviation W := (ImcWorld T U).

(** The state of the neighbours replaced. *)
Definition with_up (u : U) (w : W) : W :=
  mkImc (mkImcTp (tp_TxInfo (im_tp w)) (tp_RxInfo (im_tp w)) u (tp_trace (im_tp w))) (im_ping w) (im_ChannelEn w) (im_rte w) (im_trace w).
Definition with_ev (e : Imc_Event) (w : W) : W := mkImc (im_tp w) (im_ping w) (im_ChannelEn w) (im_rte w) (im_trace w ++ [e]).

Lemma wp_im_call_ f Q w : Q tt (with_up (f (im_up w)) w) → wp (im_call_ f) Q w.
Proof. intros H. eapply wp_eq; [|exact H]. done. Qed.
Lemma wp_im_call {R} (f : U → R * U) Q w : (∀ r u, f (im_up w) = (r, u) → Q r (with_up u w)) → wp (im_call f) Q w.
Proof. intros H. destruct (f (im_up w)) as [r u] eqn:E. eapply wp_eq; [|by apply H]. unfold im_call, in_tp, tp_call, mbind, M_bind, gets, modify, mret, M_ret. unfold im_up in E. by rewrite E. Qed.
Lemma wp_imc_tx MsgId n d (Q : bool → W → Prop) w :
  (∀ ok u, ImcIf_Tx MsgId n d (im_up w) = (ok, u) → Q ok (with_ev (ImTx MsgId n d ok) (with_up u w))) → wp (imc_tx MsgId n d) Q w.
Proof. intros H. unfold imc_tx. wp_step. apply wp_im_call. intros ok u E. unfold im_ev. wp_steps. by apply H. Qed.
End calls.

(** The time stamp survives the trip through the message. *)
Section stamps.
Context {U : Type} `{HI : Imc_Env U}.
Lemma ping_stamp v : 0 ≤ v < 4294967296 → ping_value (ping_bytes v) = v.
Proof.
  intros Hv. unfold ping_value, ping_bytes. destruct big_endian; rewrite ?rev_involutive; unfold le_bytes; cbn [foldr]; Z.div_mod_to_equations; lia.
Qed.
Lemma ping_bytes_len v : lenZ (ping_bytes v) = 4.
Proof. unfold ping_bytes. by destruct big_endian. Qed.
Lemma ping_bytes_all v : aslice (ping_bytes v) 0 4 = Some (ping_bytes v).
Proof. rewrite <-(app_nil_r (ping_bytes v)) at 1. by apply (aslice_app [] (ping_bytes v) []); [|rewrite ping_bytes_len]. Qed.
End stamps.

(** ** The ping test *)

(** The build sends ping messages with identifier [tx] and the link accepts them. *)
Class PingLink (U : Type) `{Imc_Env U} (tx : Z) := {
  pl_dev : RBD_DEVELOPMENT = true;
  pl_tx : RBDIMC_PING_TXMSG = Some tx;
  pl_rx : RBDIMC_PING_RXMSG ≠ Some tx;
  pl_accepts d u : (ImcIf_Tx tx 4 d u).1 = true;
  pl_counter u : 0 ≤ CounterKHz u < 4294967296
}.

Section ping.
Context {T U : Type} `{HT : ImcTp_Env U} `{HI : Imc_Env U} `{HK : ElTime T U} {HL : ElTimeLaws T U} (tx : Z) {HP : PingLink U tx}.
Abbreviation W := (ImcWorld T U).

(** One packet: time passes, the cyclic function sends, and the echo may come back later. *)
Definition ping_round (before : U → U) (reply : option (U → U)) : M W (list Z) :=
  im_call_ before;;
  t0 ← gets (λ w, CounterKHz (im_up w));
  rbdImc_PingCyclic;;
  match reply with
  | None => mret []
  | Some after =>
      im_call_ after;;
      t1 ← gets (λ w, CounterKHz (im_up w));
      rbdImc_PingRxIndication tx 4 (Some (ping_bytes t0));; mret [u32 (t1 - t0)]
  end.
Fixpoint ping_rounds (l : list ((U → U) * option (U → U))) : M W (list Z) :=
  match l with [] => mret [] | (f, g) :: l => a ← ping_round f g; b ← ping_rounds l; mret (a ++ b) end.

(** The test is under way: [k] of [n] packets sent, [r] received, times [s] in all. *)
Record ping_at (s n k r : Z) (w : W) : Prop := {
  pa_ping : ∃ t, im_ping w = mkPing s n k r true 0 t ∧ deadline t = None;
  pa_k : 0 ≤ k ≤ n; pa_n : n < 65536; pa_r : 0 ≤ r ≤ k; pa_s : 0 ≤ s < 4294967296
}.

Lemma ping_send w s n k r :
  ping_at s n k r w → k < n →
  wp rbdImc_PingCyclic (λ _ w', (∃ t, im_ping w' = mkPing s n (k + 1) r true 0 t ∧ deadline t = None) ∧ im_trace w' = im_trace w ++ [ImTx tx 4 (Some (ping_bytes (CounterKHz (im_up w)))) true]) w.
Proof using HL HP.
  intros [(t & Ep & Ht) Hk Hn Hr Hs] Hlt. unfold rbdImc_PingCyclic. rewrite pl_tx. wp_step. wp_step. rewrite Ep, pl_dev. cbn [pg_running pg_timer andb when]. do 2 wp_step.
  destruct (rbd_ElTime_rbTimerUpdate (im_up w) t) as [st t'] eqn:Eu. pose proof (timer_update_state (im_up w) t) as Hst. pose proof (timer_update_keeps (im_up w) t) as Hkeep. rewrite Eu, Ht in *. cbn [fst snd] in *. subst st.
  cbn [pg_SumRTT pg_NumPackets pg_NumTx pg_NumRx pg_running pg_STmin_ms pg_timer]. unfold set_ping. do 2 wp_step. rewrite (proj2 (Z.leb_gt _ _)) by lia. rewrite bool_decide_false by (cbn; by destruct timer_stopped).
  wp_step. apply wp_imc_tx. intros ok u E. pose proof (pl_accepts (Some (ping_bytes (CounterKHz (im_up w)))) (im_up w)) as Hok.
  cbn [im_up im_tp] in E. change (ImcIf_Tx tx 4 (Some (ping_bytes (CounterKHz (im_up w)))) (im_up w) = (ok, u)) in E. rewrite E in Hok. cbn in Hok. subst ok. cbn [when]. wp_steps. cbn. rewrite u16_small by lia.
  split; [by exists t'|done].
Qed.

Lemma ping_receive w s n k r t0 :
  ping_at s n k r w → r < k → 0 ≤ t0 < 4294967296 →
  wp (rbdImc_PingRxIndication tx 4 (Some (ping_bytes t0))) (λ _ w', ping_at (u32 (s + u32 (CounterKHz (im_up w) - t0))) n k (r + 1) w' ∧ im_trace w' = im_trace w) w.
Proof using HP.
  intros [(t & Ep & Ht) Hk Hn Hr Hs] Hlt Ht0. unfold rbdImc_PingRxIndication. rewrite pl_dev, pl_tx. cbn [when]. wp_step.
  apply (wp_mono _ (λ _ w', w' = w)).
  { destruct RBDIMC_PING_RXMSG as [rx|] eqn:Erx; [|by wp_step]. rewrite (proj2 (Z.eqb_neq _ _)); [by wp_step|]. intros ->. by apply pl_rx. }
  intros _ ? ->. rewrite Z.eqb_refl. cbn [when]. do 2 wp_step. wp_step. eapply wp_lift; [reflexivity|]. wp_step.
  eapply wp_lift; [apply ping_bytes_all|]. unfold set_ping. wp_steps. cbn. rewrite Ep. cbn.
  rewrite ping_stamp by done. rewrite u16_small by lia. split; [|done]. split; [by exists t|lia..|apply u32_bound].
Qed.

(** The echoes that come back. *)
Definition echoed (g : option (U → U)) : Z := match g with Some _ => 1 | None => 0 end.
Definition echoes (l : list ((U → U) * option (U → U))) : Z := foldr (λ x n, echoed x.2 + n) 0 l.
Lemma echoes_range l : 0 ≤ echoes l ≤ lenZ l.
Proof. induction l as [|[f g] l IH]; [done|]. rewrite lenZ_cons. cbn [echoes foldr snd]. fold (echoes l). destruct g; cbn [echoed]; lia. Qed.

Definition sum_u32 (s : Z) (l : list Z) : Z := foldl (λ s x, u32 (s + x)) s l.

Lemma ping_round_wp f g w s n k r :
  ping_at s n k r w → k < n →
  wp (ping_round f g) (λ a w', ping_at (sum_u32 s a) n (k + 1) (r + echoed g) w' ∧ lenZ a = echoed g ∧ ∃ d, im_trace w' = im_trace w ++ [ImTx tx 4 d true]) w.
Proof using HL HP.
  intros Hw Hk. unfold ping_round. wp_step. apply wp_im_call_. wp_step. wp_step. set (w1 := with_up _ w). assert (ping_at s n k r w1) as H1 by (by destruct Hw).
  wp_step. eapply wp_mono; [by apply ping_send|]. intros [] w2 [(t & Ep & Ht) Etr]. assert (ping_at s n (k + 1) r w2) as H2 by (destruct Hw; split; [by exists t|lia..]).
  destruct g as [after|]; cbn [echoed]; [|wp_step; rewrite Z.add_0_r; split; [done|]; split; [done|by eexists]].
  wp_step. apply wp_im_call_. wp_step. wp_step. set (w3 := with_up _ w2). assert (ping_at s n (k + 1) r w3) as H3 by (by destruct H2).
  wp_step. eapply wp_mono; [apply ping_receive; [exact H3|destruct Hw; lia|apply pl_counter]|]. intros [] w4 [H4 E4]. wp_step. split; [exact H4|]. split; [done|]. rewrite E4. by eexists.
Qed.

Lemma ping_rounds_wp l w s n k r :
  ping_at s n k r w → k + lenZ l ≤ n →
  wp (ping_rounds l) (λ a w', ping_at (sum_u32 s a) n (k + lenZ l) (r + echoes l) w' ∧ lenZ a = echoes l ∧
    ∃ ds, lenZ ds = lenZ l ∧ im_trace w' = im_trace w ++ ((λ d, ImTx tx 4 d true) <$> ds)) w.
Proof using HL HP.
  revert w s k r. induction l as [|[f g] l IH]; intros w s k r Hw Hk; cbn [ping_rounds].
  { wp_step. rewrite lenZ_nil, !Z.add_0_r. split; [done|]. split; [done|]. exists []. cbn. by rewrite app_nil_r. }
  rewrite lenZ_cons in *. pose proof (lenZ_nonneg l). wp_step. eapply wp_mono; [apply ping_round_wp; [done|lia]|]. intros a w1 (H1 & La & d & E1).
  wp_step. eapply wp_mono; [apply IH; [done|lia]|]. intros b w2 (H2 & Lb & ds & Lds & E2). wp_step. unfold sum_u32 in *. rewrite foldl_app. cbn [echoes foldr snd]. fold (echoes l).
  replace (k + (1 + lenZ l)) with (k + 1 + lenZ l) by lia. rewrite Z.add_assoc, lenZ_app, La, Lb. split; [done|]. split; [done|]. exists (d :: ds).
  rewrite lenZ_cons, Lds, E2, E1, <-app_assoc. done.
Qed.

Definition be16 (v : Z) : list Z := [v / 256; v mod 256].
Lemma storeU16_mid x y l v rest : 0 ≤ v < 65536 → rbdImc_storeU16 (l ++ x :: y :: rest) (lenZ l) v = Some (l ++ be16 v ++ rest).
Proof.
  intros Hv. unfold rbdImc_storeU16, be16. pose proof (lenZ_nonneg rest). pose proof (lenZ_nonneg l). rewrite aset_is_Some by (rewrite lenZ_app, !lenZ_cons; lia). cbn [mbind option_bind].
  unfold lenZ. rewrite Nat2Z.id, insert_app_r_alt, Nat.sub_diag by lia. cbn [list_insert insert]. rewrite aset_is_Some by (unfold lenZ in *; rewrite length_app; cbn; lia).
  replace (Z.to_nat (Z.of_nat (length l) + 1)) with (length l + 1)%nat by lia. rewrite insert_app_r. cbn. unfold u8. rewrite Z.shiftr_div_pow2 by lia. change (2 ^ 8) with 256. rewrite (Z.mod_small (v / 256)); [done|].
  split; [apply Z.div_pos; lia|apply Z.div_lt_upper_bound; lia].
Qed.

(** The six bytes of the result. *)
Lemma ping_result_wp buf (w : W) s n k r t b :
  im_ping w = mkPing s n k r b 0 t → 0 < n → 0 ≤ k < 65536 → 0 ≤ r < 65536 → 6 ≤ lenZ buf →
  let avg := if 0 <? r then u16 (RBD_ELTIME_KHZ_TICK_TO_MS (s / r)) else 0 in
  wp (rbdImc_PingResult buf) (λ a w', a = (imc_UDS_PR, be16 k ++ be16 r ++ be16 avg ++ drop 6 buf, Some 6) ∧ w' = w) w.
Proof.
  intros Ep Hn Hk Hr Hb avg. unfold rbdImc_PingResult. do 2 wp_step. rewrite Ep. cbn [pg_NumPackets pg_NumTx pg_NumRx pg_SumRTT]. rewrite (proj2 (Z.eqb_neq n 0)) by lia. fold avg.
  assert (0 ≤ avg < 65536) as Ha by (unfold avg; case_match; [apply u16_bound|lia]).
  destruct buf as [|b0 [|b1 [|b2 [|b3 [|b4 [|b5 buf]]]]]]; try (unfold lenZ in Hb; cbn in Hb; lia).
  wp_step. eapply wp_lift; [apply (storeU16_mid b0 b1 [] k (b2 :: b3 :: b4 :: b5 :: buf)); lia|].
  wp_step. eapply wp_lift; [apply (storeU16_mid b2 b3 (be16 k) r (b4 :: b5 :: buf)); lia|].
  wp_step. eapply wp_lift; [apply (storeU16_mid b4 b5 (be16 k ++ be16 r) avg buf); lia|]. wp_step. done.
Qed.

(** C37. A ping test ends and reports what happened.  In the development build, with a link that accepts every
    message (ImcIf_Tx) and a separation time of 0, a test of [n] packets (two bytes, not zero) started
    while no test runs sends exactly one ping message per run of the cyclic function, [n] in
    all, where each echo either arrives before the next run or is lost, and time and the
    surroundings may change in any way between the runs; the next run ends the test and no
    later run sends anything.  The result then holds [n],
    the number of echoes, and the mean of the measured round-trip times: the differences of the
    millisecond counter between sending and echo, summed in 32 bits. *)
Theorem imc_ping_completes (w : W) (hi lo : Z) (rounds : list ((U → U) * option (U → U))) (buf : list Z) :
  let n := 256 * hi + lo in
  0 ≤ hi < 256 → 0 ≤ lo < 256 → 0 < n → lenZ rounds = n → pg_running (im_ping w) = false → pg_STmin_ms (im_ping w) = 0 → 6 ≤ lenZ buf →
  ∃ w1 w2 w3 rtts ds,
    rbdImc_PingStart [hi; lo] w = Some (imc_UDS_PR, w1) ∧ ping_rounds rounds w1 = Some (rtts, w2) ∧ lenZ rtts = echoes rounds ∧
    rbdImc_PingCyclic w2 = Some (tt, w3) ∧ im_trace w3 = im_trace w ++ ((λ d, ImTx tx 4 d true) <$> ds) ∧ lenZ ds = n ∧
    pg_running (im_ping w3) = false ∧ rbdImc_PingCyclic w3 = Some (tt, w3) ∧
    let avg := if 0 <? echoes rounds then u16 (RBD_ELTIME_KHZ_TICK_TO_MS (sum_u32 0 rtts / echoes rounds)) else 0 in
    rbdImc_PingResult buf w3 = Some ((imc_UDS_PR, be16 n ++ be16 (echoes rounds) ++ be16 avg ++ drop 6 buf, Some 6), w3).
Proof using HL HP.
  intros n Hhi Hlo Hn Hlen Hrun Hst Hbuf.
  assert (wp (rbdImc_PingStart [hi; lo]) (λ r w1, r = imc_UDS_PR ∧ ping_at 0 n 0 0 w1 ∧ im_trace w1 = im_trace w) w) as H1.
  { unfold rbdImc_PingStart. do 2 wp_step. rewrite Hrun. wp_step. eapply wp_lift; [reflexivity|]. wp_step. eapply wp_lift; [reflexivity|]. unfold set_ping. wp_steps. rewrite (u16_small hi) by lia.
    rewrite Z.shiftl_mul_pow2 by lia. change (2 ^ 8) with 256. rewrite Hst, u16_small by lia. split; [done|]. split; [|done]. split; [|lia..]. eexists. split; [cbn; unfold n; do 2 f_equal; lia|apply timer_init_off]. }
  destruct (wp_run _ _ _ H1) as (r & w1 & E1 & -> & P1 & T1).
  destruct (wp_run _ _ _ (ping_rounds_wp rounds w1 0 n 0 0 P1 ltac:(lia))) as (rtts & w2 & E2 & P2 & L2 & ds & Lds & T2). rewrite !Z.add_0_l, Hlen in *.
  pose proof (echoes_range rounds) as He. destruct P2 as [(t & Ep & Ht) _ Hn2 _ Hs].
  assert (wp rbdImc_PingCyclic (λ _ w3, (∃ t', im_ping w3 = mkPing (sum_u32 0 rtts) n n (echoes rounds) false 0 t') ∧ im_trace w3 = im_trace w2) w2) as H3.
  { unfold rbdImc_PingCyclic. rewrite pl_tx. wp_step. wp_step. rewrite Ep, pl_dev. cbn [pg_running pg_timer andb when]. do 2 wp_step. destruct (rbd_ElTime_rbTimerUpdate (im_up w2) t) as [st t'].
    cbn [pg_SumRTT pg_NumPackets pg_NumTx pg_NumRx pg_running pg_STmin_ms pg_timer]. unfold set_ping. do 2 wp_step. rewrite Z.leb_refl. wp_step. by split; [eexists|]. }
  destruct (wp_run _ _ _ H3) as ([] & w3 & E3 & (t' & Ep3) & T3). eexists _, w2, w3, rtts, ds. do 4 (split; [done|]).
  split; [by rewrite T3, T2, T1|]. split; [done|]. split; [by rewrite Ep3|]. split.
  { unfold rbdImc_PingCyclic. rewrite pl_tx. unfold mbind, M_bind, gets. rewrite Ep3. cbn. by rewrite andb_false_r. }
  destruct (wp_run _ _ _ (ping_result_wp buf w3 _ _ _ _ _ _ Ep3 Hn ltac:(lia) ltac:(lia) Hbuf)) as (r & w4 & E4 & -> & ->). exact E4.
Qed.
End ping.

(** ** Direct messages *)

(** A counting loop over a table that acts on the entries that pass a test is the iteration over
    those entries. *)
Section search.
Context {S C : Type}.
Fixpoint miter (act : C → M S unit) (l : list C) : M S unit := match l with [] => mret tt | c :: l => act c;; miter act l end.

Lemma aget_mid (pre l : list C) c : aget (pre ++ c :: l) (lenZ pre) = Some c.
Proof. unfold aget, lenZ. rewrite decide_True by lia. rewrite Nat2Z.id. by apply list_lookup_middle. Qed.
Lemma lenZ_snoc (pre : list C) c : lenZ (pre ++ [c]) = lenZ pre + 1.
Proof. by rewrite lenZ_app. Qed.

Lemma lift_bind {A B} (x : option A) a (k : A → M S B) s : x = Some a → (lift x ≫= k) s = k a s.
Proof. by intros ->. Qed.
Lemma bind_eq {A B} (m : M S A) (k1 k2 : A → M S B) s : (∀ a s', k1 a s' = k2 a s') → (m ≫= k1) s = (m ≫= k2) s.
Proof. intros Hk. unfold mbind, M_bind. by destruct (m s) as [[a s']|]. Qed.

Lemma bind_eq_l {A B} (m1 m2 : M S A) (k : A → M S B) s : m1 s = m2 s → (m1 ≫= k) s = (m2 ≫= k) s.
Proof. intros E. unfold mbind, M_bind. by rewrite E. Qed.

Lemma table_loop (act : C → M S unit) (test : C → bool) l pre s :
  mfor (length l) (lenZ pre) (λ i, c ← lift (aget (pre ++ l) i); when (test c) (act c)) s = miter act (filter (λ c, test c = true) l) s.
Proof.
  revert s pre. induction l as [|c l IH]; intros s pre; [done|]. cbn [length mfor].
  trans ((when (test c) (act c);; miter act (filter (λ c, test c = true) l)) s).
  - trans ((when (test c) (act c);; mfor (length l) (lenZ pre + 1) (λ i, c ← lift (aget (pre ++ c :: l) i); when (test c) (act c))) s).
    + apply bind_eq_l. apply (lift_bind _ c (λ c, when (test c) (act c))), aget_mid.
    + apply bind_eq. intros [] s'. rewrite <-(lenZ_snoc pre c). replace (pre ++ c :: l) with ((pre ++ [c]) ++ l) by (by rewrite <-app_assoc). apply IH.
  - rewrite filter_cons. destruct (test c); [by rewrite decide_True by done|by rewrite decide_False by done].
Qed.

Lemma filter_absent (key : C → Z) l k : k ∉ key <$> l → filter (λ x, (k =? key x) = true) l = [].
Proof.
  induction l as [|x l IH]; [done|]. cbn [fmap list_fmap]. rewrite not_elem_of_cons. intros [Hx Hl]. rewrite filter_cons, decide_False; [by apply IH|]. by intros ->%Z.eqb_eq.
Qed.
Lemma filter_unique (key : C → Z) l c : NoDup (key <$> l) → c ∈ l → filter (λ x, (key c =? key x) = true) l = [c].
Proof.
  intros Hnd Hin. induction l as [|x l IH]; [by apply not_elem_of_nil in Hin|]. inversion Hnd as [|? ? Hx Hnd' E1]; subst. rewrite filter_cons. apply elem_of_cons in Hin as [->|Hin].
  - rewrite decide_True by apply Z.eqb_refl. f_equal. by apply filter_absent.
  - rewrite decide_False; [by apply IH|]. intros E%Z.eqb_eq. apply Hx. rewrite <-E. by apply list_elem_of_fmap_2.
Qed.
End search.

Section direct.
Context {T U : Type} `{HT : ImcTp_Env U} `{HI : Imc_Env U}.
Abbreviation W := (ImcWorld T U).

(** Every configured message of the identifier is sent; one accepted message is enough. *)
Fixpoint send_all (l : list rbdImc_PduRMsgCfgTx_st) (Info : PduInfoType) (result : Std_ReturnType) : M W Std_ReturnType :=
  match l with [] => mret result | c :: l => ok ← imc_tx (it_Imc_PduId c) (SduLength Info) (SduDataPtr Info); send_all l Info (if ok : bool then E_OK else result) end.

Lemma Transmit_loop_eq id Info l pre res (w : W) :
  Transmit_loop (length l) (lenZ pre) (pre ++ l) id Info res w = send_all (filter (λ c, (id =? it_UpperTxFromPduR c) = true) l) Info res w.
Proof.
  revert pre res w. induction l as [|c l IH]; intros pre res w; [done|]. cbn [length Transmit_loop].
  rewrite (lift_bind _ c) by apply aget_mid. rewrite filter_cons. rewrite <-(lenZ_snoc pre c). replace (pre ++ c :: l) with ((pre ++ [c]) ++ l) by (by rewrite <-app_assoc).
  destruct (id =? it_UpperTxFromPduR c).
  - rewrite decide_True by done. cbn [send_all]. unfold mbind, M_bind, mret, M_ret. destruct (imc_tx _ _ _ w) as [[ok w']|]; [apply IH|done].
  - rewrite decide_False by done. apply IH.
Qed.

(** A service that goes through a table: an action for every matching entry, in order. *)
Lemma IfTxConfirmation_eq cfg m (w : W) : TxCfg = Some cfg → NumTxMsg = lenZ cfg →
  rbdImc_IfTxConfirmation m w = miter (λ c, im_call_ (imc_PduR_TxConfirmation (it_UpperTxToPduR c));; im_ev (ImTxConfirmation (it_UpperTxToPduR c))) (filter (λ c, (m =? it_Imc_PduId c) = true) cfg) w.
Proof. intros Ec En. unfold rbdImc_IfTxConfirmation. rewrite Ec, En. unfold lenZ. rewrite Nat2Z.id. apply (table_loop _ (λ c, m =? it_Imc_PduId c) cfg []). Qed.
Definition indicate (n : Z) (d : option (list Z)) (ts : Z) (c : rbdImc_PduRMsgCfgRx_st) : M W unit :=
  us ← gets (λ w, MicrosSince ts (im_up w));
  let Info := mkPduInfo d n in
  let ts := uw SduTimeStamp_bits (us * 1000) in
  im_call_ (imc_PduR_RxIndication (ir_UpperRxToPduR c) Info ts);; im_ev (ImRxIndication (ir_UpperRxToPduR c) Info ts).
Lemma IfRxIndication_eq cfg m n d ts (w : W) : RxCfg = Some cfg → NumRxMsg = lenZ cfg →
  rbdImc_IfRxIndication m n d ts w = miter (indicate n d ts) (filter (λ c, (m =? ir_Imc_PduId c) = true) cfg) w.
Proof. intros Ec En. unfold rbdImc_IfRxIndication. rewrite Ec, En. unfold lenZ. rewrite Nat2Z.id. apply (table_loop (indicate n d ts) (λ c, m =? ir_Imc_PduId c) cfg []). Qed.
Lemma Transmit_eq cfg id Info (w : W) : TxCfg = Some cfg → NumTxMsg = lenZ cfg →
  rbdImcCom_Transmit id (Some Info) w = send_all (filter (λ c, (id =? it_UpperTxFromPduR c) = true) cfg) Info E_NOT_OK w.
Proof.
  intros Ec En. unfold rbdImcCom_Transmit. rewrite Ec, En. destruct (Z.eqb_spec (lenZ cfg) 0) as [E0|_].
  - destruct cfg; [done|]. rewrite lenZ_cons in E0. pose proof (lenZ_nonneg cfg). lia.
  - unfold lenZ. rewrite Nat2Z.id. apply (Transmit_loop_eq _ _ cfg []).
Qed.
End direct.

Section path.
Context {T U : Type} `{HT : ImcTp_Env U} `{HI : Imc_Env U}.
Context {T' U' : Type} {HT' : ImcTp_Env U'} {HI' : Imc_Env U'}.

(** A direct message takes the configured way.  With unambiguous tables, a request for a
    configured identifier hands the bytes to the link exactly once, under the configured
    message identifier, and is accepted exactly if the link accepts; the confirmation of the
    link reaches the router once, under the configured confirmation identifier; at a
    node configured for this message identifier a received message is indicated once, under
    the configured identifier, with the same bytes.  Identifiers that are not configured have no
    effect. *)
Theorem imc_direct_path (w : ImcWorld T U) (v : ImcWorld T' U') (txs : list rbdImc_PduRMsgCfgTx_st) (rxs : list rbdImc_PduRMsgCfgRx_st) (c : rbdImc_PduRMsgCfgTx_st) (d : rbdImc_PduRMsgCfgRx_st) (Info : PduInfoType) (ts : Z) :
  @TxCfg U HI = Some txs → @NumTxMsg U HI = lenZ txs → @RxCfg U' HI' = Some rxs → @NumRxMsg U' HI' = lenZ rxs →
  NoDup (it_UpperTxFromPduR <$> txs) → NoDup (it_Imc_PduId <$> txs) → NoDup (ir_Imc_PduId <$> rxs) → c ∈ txs → d ∈ rxs → ir_Imc_PduId d = it_Imc_PduId c →
  (∃ w', @rbdImcCom_Transmit T U HI (it_UpperTxFromPduR c) (Some Info) w = Some (if (@ImcIf_Tx U HI (it_Imc_PduId c) (SduLength Info) (SduDataPtr Info) (im_up w)).1 then E_OK else E_NOT_OK, w') ∧
    im_trace w' = im_trace w ++ [ImTx (it_Imc_PduId c) (SduLength Info) (SduDataPtr Info) (@ImcIf_Tx U HI (it_Imc_PduId c) (SduLength Info) (SduDataPtr Info) (im_up w)).1]) ∧
  (∃ w', @rbdImc_IfTxConfirmation T U HI (it_Imc_PduId c) w = Some (tt, w') ∧ im_trace w' = im_trace w ++ [ImTxConfirmation (it_UpperTxToPduR c)]) ∧
  (∃ v' stamp, @rbdImc_IfRxIndication T' U' HI' (it_Imc_PduId c) (SduLength Info) (SduDataPtr Info) ts v = Some (tt, v') ∧
    im_trace v' = im_trace v ++ [ImRxIndication (ir_UpperRxToPduR d) (mkPduInfo (SduDataPtr Info) (SduLength Info)) stamp]) ∧
  (∀ id, id ∉ it_UpperTxFromPduR <$> txs → @rbdImcCom_Transmit T U HI id (Some Info) w = Some (E_NOT_OK, w)) ∧
  (∀ id, id ∉ ir_Imc_PduId <$> rxs → @rbdImc_IfRxIndication T' U' HI' id (SduLength Info) (SduDataPtr Info) ts v = Some (tt, v)).
Proof.
  intros Et Nt Er Nr D1 D2 D3 Hc Hd Eid. split_and!.
  - rewrite (Transmit_eq txs) by done. rewrite filter_unique by done. cbn [send_all].
    assert (wp (imc_tx (it_Imc_PduId c) (SduLength Info) (SduDataPtr Info)) (λ ok w', ok = (ImcIf_Tx (it_Imc_PduId c) (SduLength Info) (SduDataPtr Info) (im_up w)).1 ∧ im_trace w' = im_trace w ++ [ImTx (it_Imc_PduId c) (SduLength Info) (SduDataPtr Info) ok]) w) as Hw.
    { apply wp_imc_tx. intros ok u E. by rewrite E. }
    destruct (wp_run _ _ _ Hw) as (ok & w' & E & -> & Etr). exists w'. unfold mbind, M_bind. by rewrite E.
  - rewrite (IfTxConfirmation_eq txs) by done. rewrite filter_unique by done. by eexists.
  - rewrite (IfRxIndication_eq rxs) by done. rewrite <-Eid, filter_unique by done. by eexists _, _.
  - intros id Hid. rewrite (Transmit_eq txs) by done. by rewrite filter_absent.
  - intros id Hid. rewrite (IfRxIndication_eq rxs) by done. by rewrite filter_absent.
Qed.
End path.

(** ** A board *)

Definition board_txs : list rbdImc_PduRMsgCfgTx_st := [mkImcTxCfg 1 2 40; mkImcTxCfg 3 4 41].
Definition board_rxs : list rbdImc_PduRMsgCfgRx_st := [mkImcRxCfg 7 41; mkImcRxCfg 8 42].

(** The neighbours are the millisecond clock. *)
Definition board_env (cpu : Imc_Cpu) : Imc_Env Z := {|
  imc_cpu := cpu; imc_RBD_PK_APP := true; imc_RBD_PK_VEHICLE := true; imc_RBD_PK_KEYFOB := false; imc_RBD_PK_FBL := false; imc_RBD_PK_MASTER_MCU := false;
  RBD_DEVELOPMENT := true; big_endian := false; NumTxMsg := 2; NumRxMsg := 2; TxCfg := Some board_txs; RxCfg := Some board_rxs;
  IMCIF_MSG_PING_BLE := 50; IMCIF_MSG_PING_UWB := 51; imc_UDS_PR := 0; RB_UDS_14229_BRR := 33; RB_UDS_14229_RSE := 36;
  RBD_ELTIME_KHZ_TICK_TO_MS x := x; RBDIMC_CANNM_PERIOD_MS := 500; SduTimeStamp_bits := 32;
  ImcIf_Tx _ _ _ u := (true, u + 1); imc_PduR_TxInterrupt _ u := u; imc_PduR_TxConfirmation _ u := u; imc_PduR_RxIndication _ _ _ u := u;
  MicrosSince t u := 1000 * (u - t); CounterKHz u := u mod 4294967296; CanLoading_is_None _ := true; UwbLoading_is_None _ := false;
  ImcDlSpi_Initialise u := u; ImcTl_Initialise u := u; ImcIf_Initialise u := u; CanIf_StartImc u := u; CanIf_OnlineImc u := u;
  ImcDlSpi_Cyclic u := u; ImcIf_MainFunction u := ([], u); ImcTl_Cyclic u := u; ImcIf_ResetChannel _ u := u; ImcTl_ResetChannel _ u := u; ImcDlSpi_ResetChannel _ u := u;
  rbdSpecialRam_isPOR _ := false; RBD_PK_NM_STATE_NORMAL_OPERATION := 4; RBD_PK_NM_STATE_REPEAT_MESSAGE := 5; imc_NmState _ := 4;
  ImcIf_CfgMcu_TxCanNm u := u; ImcIf_CfgMcu_TxFastSleep _ u := u |}.

Lemma board_link : @PingLink Z (board_env RBD_PK_CPU_S32) 51.
Proof. split; try done. intros u. apply Z.mod_pos_bound. lia. Qed.

Definition board_idle : ImcWorld EndTimer Z :=
  mkImc (mkImcTp [] [] 100 []) (mkPing 0 0 0 0 false 0 TimerIdle) [IMC_CH_EN_FULL; IMC_CH_EN_FULL] (mkImcRte TimerIdle 0 false) [].

(** Three packets; the second echo is lost. *)
Definition board_rounds : list ((Z → Z) * option (Z → Z)) := [(Z.add 5, Some (Z.add 6)); (Z.add 5, None); (Z.add 5, Some (Z.add 8))].

Lemma imc_ping_completes_witness :
  let E := board_env RBD_PK_CPU_S32 in
  let K := end_timer (λ u : Z, u) in
  ∃ w1 w2 w3 rtts ds,
    @rbdImc_PingStart _ _ E K [0; 3] board_idle = Some (0, w1) ∧ @ping_rounds _ _ E K 51 board_rounds w1 = Some (rtts, w2) ∧ lenZ rtts = @echoes Z board_rounds ∧
    @rbdImc_PingCyclic _ _ E K w2 = Some (tt, w3) ∧ im_trace w3 = im_trace board_idle ++ ((λ d, ImTx 51 4 d true) <$> ds) ∧ lenZ ds = 256 * 0 + 3 ∧
    pg_running (im_ping w3) = false ∧ @rbdImc_PingCyclic _ _ E K w3 = Some (tt, w3) ∧
    let avg := if 0 <? @echoes Z board_rounds then u16 (@RBD_ELTIME_KHZ_TICK_TO_MS _ E (sum_u32 0 rtts / @echoes Z board_rounds)) else 0 in
    @rbdImc_PingResult _ _ E (replicate 8 9) w3 = Some ((0, be16 (256 * 0 + 3) ++ be16 (@echoes Z board_rounds) ++ be16 avg ++ drop 6 (replicate 8 9), Some 6), w3).
Proof.
  refine (@imc_ping_completes EndTimer Z (board_env RBD_PK_CPU_S32) (end_timer (λ u, u)) (end_timer_laws (λ u, u)) 51 board_link board_idle 0 3 board_rounds (replicate 8 9) _ _ _ _ _ _ _);
    by first [lia | vm_compute].
Defined.

(** The result of this test: 3 sent, 2 received, 8 ms in the mean. *)
Example board_ping_result : (λ x, x.1.1.2) <$> (rbdImc_PingStart (HI := board_env RBD_PK_CPU_S32) (HK := end_timer (λ u, u)) [0; 3];; ping_rounds (HI := board_env RBD_PK_CPU_S32) (HK := end_timer (λ u, u)) 51 board_rounds;; rbdImc_PingResult (HI := board_env RBD_PK_CPU_S32) (replicate 6 0)) board_idle
  = Some [0; 3; 0; 2; 0; 8].
Proof. vm_compute. reflexivity. Qed.

(** Message 3 of the one board is message 7 of the other. *)
Lemma imc_direct_path_witness :
  let E := board_env RBD_PK_CPU_S32 in let E' := board_env IMC_CPU_NCJ29D5 in let Info := mkPduInfo (Some [1; 2; 3]) 3 in
  (∃ w', @rbdImcCom_Transmit _ _ E 3 (Some Info) board_idle = Some (E_OK, w') ∧ im_trace w' = im_trace board_idle ++ [ImTx 41 3 (Some [1; 2; 3]) true]) ∧
  (∃ w', @rbdImc_IfTxConfirmation _ _ E 41 board_idle = Some (tt, w') ∧ im_trace w' = im_trace board_idle ++ [ImTxConfirmation 4]) ∧
  (∃ v' stamp, @rbdImc_IfRxIndication _ _ E' 41 3 (Some [1; 2; 3]) 90 board_idle = Some (tt, v') ∧ im_trace v' = im_trace board_idle ++ [ImRxIndication 7 Info stamp]) ∧
  (∀ id, id ∉ it_UpperTxFromPduR <$> board_txs → @rbdImcCom_Transmit _ _ E id (Some Info) board_idle = Some (E_NOT_OK, board_idle)) ∧
  (∀ id, id ∉ ir_Imc_PduId <$> board_rxs → @rbdImc_IfRxIndication _ _ E' id 3 (Some [1; 2; 3]) 90 board_idle = Some (tt, board_idle)).
Proof.
  refine (@imc_direct_path EndTimer Z (board_env RBD_PK_CPU_S32) EndTimer Z (board_env IMC_CPU_NCJ29D5) board_idle board_idle board_txs board_rxs (mkImcTxCfg 3 4 41) (mkImcRxCfg 7 41) (mkPduInfo (Some [1; 2; 3]) 3) 90
    _ _ _ _ _ _ _ _ _ _); try done; try (apply (bool_decide_eq_true_1 _); vm_compute; done); repeat constructor.
Defined.
