(* ===== verification/AnchorTypes.v ===== *)
(** * rbdAnchorComTp: data and access primitives (rbdAnchorComTp.c)

    Secure messages between the anchors and the master.  Every message has a transmit buffer
    per peer; messages wait in a ring of sixteen slots per peer while they are formatted,
    encrypted, authenticated and sent, and in a second ring while they are verified, decrypted
    and handed to the application.

    rbdAnchorCom_Private.h, rbdAnchorCom_Api.h and rbdAnchorCom_CfgMsg.h are not part of
    the repository: the constants and tables they define, and the widths of the counters, are
    fields of the class [Anchor_Cfg]; the cryptographic services, the freshness manager, the
    time base and the router are the class [Anchor_Env].  The build is that without the
    test messages (RBDANCHORCOM_TEST off) and with synchronous cryptography; the log
    macros produce no code. *)

From S2P Require Import Prelude ComStack.
From stdpp Require Import base list numbers option.

#[local] Open Scope Z_scope.

(** ** Enumerations *)

Inductive rbdAnchorCom_Result_et := RBDANCHORCOM_OK | RBDANCHORCOM_FAIL | RBDANCHORCOM_PENDING | RBDANCHORCOM_FATAL_FAIL.
Inductive BufState_et := RBDANCHORCOM_TPSTATE_IDLE | RBDANCHORCOM_TPSTATE_HASDATA.
Inductive QueueState_et :=
| RBDANCHORCOM_TX_IDLE | RBDANCHORCOM_TX_QUEUED | RBDANCHORCOM_TX_ENC_READY | RBDANCHORCOM_TX_ENC_RUNNING
| RBDANCHORCOM_TX_CMAC_READY | RBDANCHORCOM_TX_CMAC_RUNNING | RBDANCHORCOM_TX_TRANS_READY | RBDANCHORCOM_TX_TRANS_RUNNING
| RBDANCHORCOM_TX_TRANS_DONE
| RBDANCHORCOM_RX_QUEUED | RBDANCHORCOM_RX_CMAC_READY | RBDANCHORCOM_RX_CMAC_RUNNING | RBDANCHORCOM_RX_DEC_READY
| RBDANCHORCOM_RX_DEC_RUNNING | RBDANCHORCOM_RX_PROCESS_READY | RBDANCHORCOM_RX_PROCESS_DONE.

#[global] Instance Result_eq_dec : EqDecision rbdAnchorCom_Result_et.
Proof. solve_decision. Defined.
#[global] Instance BufState_eq_dec : EqDecision BufState_et.
Proof. solve_decision. Defined.
#[global] Instance QueueState_eq_dec : EqDecision QueueState_et.
Proof. solve_decision. Defined.

(** The three programs this file is compiled into. *)
Inductive Anchor_Build := RBD_PK_CPU_CC26xx | RBD_PK_CPU_NCJ29D5 | RBD_PK_MASTER_MCU.
#[global] Instance Build_eq_dec : EqDecision Anchor_Build.
Proof. solve_decision. Defined.

(** ** Records *)

(** One configured message; the application's reception function is only asked for. *)
Record rbdAnchorComTp_Cfg_st := mkAnchorCfg {
  cf_PduId : Z; cf_Channel : Z; cf_RxIndication : bool; cf_Length : Z; cf_EncDecFlag : bool; cf_Broadcast : bool }.
Record rbdAnchorComTp_MsgInfo_st := mkMsgInfo { mi_Length : Z; mi_BufState : BufState_et }.
Record rbdAnchorComTp_Queue_st := mkTxQ {
  tq_MsgIdx : Z; tq_AnchorId : Z; tq_Channel : Z; tq_QueueState : QueueState_et; tq_ErrCounter : Z; tq_TruncFresh : Z; tq_CmacValue : list Z }.
(** BufferPtr points to the buffer of [rq_Channel] and [rq_AnchorId], in ChRxTemp or in ChRxBuff
    according to [rq_IsTempBuf]. *)
Record rbdAnchorComTp_RxQueue_st := mkRxQ {
  rq_Channel : Z; rq_AnchorId : Z; rq_IsTempBuf : bool; rq_QueueState : QueueState_et; rq_ErrCounter : Z; rq_DataLen : Z;
  rq_MsgIdx : Z; rq_TruncFresh : Z; rq_CmacValue : list Z }.
Record rbdAnchorComTp_ChTxInfo_st := mkChTx { ct_TxInProgress : bool; ct_TxOffset : Z; ct_TxMsgIdx : Z }.
Record rbdAnchorComTp_ChRxInfo_st := mkChRx { cr_RxOffset : Z; cr_RxBuffer : list Z }.
Record rbdAnchorComTp_ChRxDataInfo_st := mkChRxData { cd_RxBuffer : list Z; cd_RxOffset : Z; cd_PduId : Z; cd_NeedVerify : bool }.

Definition set_tq_QueueState s q := mkTxQ (tq_MsgIdx q) (tq_AnchorId q) (tq_Channel q) s (tq_ErrCounter q) (tq_TruncFresh q) (tq_CmacValue q).
Definition set_tq_ErrCounter n q := mkTxQ (tq_MsgIdx q) (tq_AnchorId q) (tq_Channel q) (tq_QueueState q) n (tq_TruncFresh q) (tq_CmacValue q).
Definition set_tq_TruncFresh b q := mkTxQ (tq_MsgIdx q) (tq_AnchorId q) (tq_Channel q) (tq_QueueState q) (tq_ErrCounter q) b (tq_CmacValue q).
Definition set_tq_CmacValue l q := mkTxQ (tq_MsgIdx q) (tq_AnchorId q) (tq_Channel q) (tq_QueueState q) (tq_ErrCounter q) (tq_TruncFresh q) l.
Definition set_rq_QueueState s q := mkRxQ (rq_Channel q) (rq_AnchorId q) (rq_IsTempBuf q) s (rq_ErrCounter q) (rq_DataLen q) (rq_MsgIdx q) (rq_TruncFresh q) (rq_CmacValue q).
Definition set_rq_ErrCounter n q := mkRxQ (rq_Channel q) (rq_AnchorId q) (rq_IsTempBuf q) (rq_QueueState q) n (rq_DataLen q) (rq_MsgIdx q) (rq_TruncFresh q) (rq_CmacValue q).
Definition set_rq_DataLen n q := mkRxQ (rq_Channel q) (rq_AnchorId q) (rq_IsTempBuf q) (rq_QueueState q) (rq_ErrCounter q) n (rq_MsgIdx q) (rq_TruncFresh q) (rq_CmacValue q).
Definition set_rq_MsgIdx n q := mkRxQ (rq_Channel q) (rq_AnchorId q) (rq_IsTempBuf q) (rq_QueueState q) (rq_ErrCounter q) (rq_DataLen q) n (rq_TruncFresh q) (rq_CmacValue q).
Definition set_rq_Auth b l q := mkRxQ (rq_Channel q) (rq_AnchorId q) (rq_IsTempBuf q) (rq_QueueState q) (rq_ErrCounter q) (rq_DataLen q) (rq_MsgIdx q) b l.
Definition set_mi_Length n i := mkMsgInfo n (mi_BufState i).
Definition set_mi_BufState s i := mkMsgInfo (mi_Length i) s.
Definition set_ct_TxInProgress b i := mkChTx b (ct_TxOffset i) (ct_TxMsgIdx i).
Definition set_ct_TxOffset n i := mkChTx (ct_TxInProgress i) n (ct_TxMsgIdx i).
Definition set_cd_NeedVerify b i := mkChRxData (cd_RxBuffer i) (cd_RxOffset i) (cd_PduId i) b.
Definition set_cd_RxBuffer l i := mkChRxData l (cd_RxOffset i) (cd_PduId i) (cd_NeedVerify i).

(** ** Configuration and neighbours *)

Definition RBDANCHORCOM_TP_QUEUE_SIZE : Z := 16.

Class Anchor_Cfg := {
  anchor_build : Anchor_Build;
  RBD_PK_MASTER_HAS_RF : bool;
  MsgCfg : list rbdAnchorComTp_Cfg_st;
  RBDANCHORCOM_TP_NUM_LL_TX : Z;
  RBDANCHORCOM_TP_NUM_LL_RX : Z;
  RBDANCHORCOM_TPCH_MAX : Z;
  RBDANCHORCOM_TPCH_BLE : Z;
  RBD_PK_MAX_NODES : Z;
  LowerTxCallPdu : list (list Z);
  LowerTxCbPdu : list Z;
  LowerRxPdu : list Z;
  Master0Hi_Cb : Z;
  RBDANCHORCOM_CHANID_LEN : Z;
  RBDANCHORCOM_PREFIX_LEN : Z;
  RBDANCHORCOM_HEADER_LEN : Z;
  RBDANCHORCOM_APPEND_LEN : Z;
  RBDANCHORCOM_CMAC_LEN : Z;
  RBDANCHORCOM_FRESH_LEN : Z;
  RBDANCHORCOM_AES_KEY_LEN : Z;
  RBDANCHORCOM_TP_MAX_RX_BUFFER_LEN : Z;
  RBDANCHORCOM_TP_MIN_RX_DATA_LEN : Z;
  RBDANCHORCOM_MAX_RETRY_COUNT : Z;
  ErrCounter_bits : Z;
  MsgLength_bits : Z;
  DataLen_bits : Z;
  PduLength_bits : Z
}.

Inductive Anchor_Api := API_TP_GETBUFFER | API_TP_TRANSMIT | API_TX_FORMAT | API_TP_TXCOPY | API_TP_TXCONFIRMATION | API_TP_RXSTART | API_TP_RXCOPY | API_TP_RXINDICATION.
Inductive Anchor_Err := ERR_PDU | ERR_OTHERENDIDX | ERR_LENGTH | ERR_NULL.

Inductive Anchor_Event :=
| AnError (value : Z) (api : Anchor_Api) (err : Anchor_Err)
| AnTransmit (PduId len : Z) (r : Std_ReturnType)
| AnRx (AnchorId PduId : Z) (payload : list Z).

(** [Fresh_GetTx]: the freshness value and its truncation; [Csm_Encrypt] and [Csm_Decrypt] work in
    place, so they answer the new contents; [RadioTime]: the answer of StbM_GetCurrentTime, the
    length of the user data and its first byte; [LostCommStatus]: whether the status of each
    node is DTC_PASS; [an_RxIndication]: the application takes a message. *)
Class Anchor_Env (U : Type) := {
  Fresh_GetTx : Z → U → Std_ReturnType * list Z * Z * U;
  Fresh_GetRx : Z → Z → U → Std_ReturnType * list Z * U;
  Csm_Encrypt : list Z → list Z → U → rbdAnchorCom_Result_et * list Z * U;
  Csm_Decrypt : Z → list Z → list Z → U → rbdAnchorCom_Result_et * list Z * U;
  Csm_Authenticate : list Z → U → rbdAnchorCom_Result_et * list Z * U;
  Csm_Verify : Z → list Z → list Z → U → rbdAnchorCom_Result_et * U;
  an_PduR_Transmit : Z → Z → U → Std_ReturnType * U;
  an_RxIndication : Z → Z → list Z → U → U;
  NvM_AnchorCanIdx : U → Z;
  rbdUwbInfo_GetCANIdx : U → Z;
  RadioTime : U → Std_ReturnType * Z * Z;
  LostCommStatus : U → list bool;
  R4Sec_IsCryptoFree : U → bool
}.

(** ** The module variables *)

Record AnchorTx := mkAnchorTx {
  TxBuffer : list (list (option (list Z)));       (* [message][peer], None: no buffer (a received message) *)
  MsgTxInfo : list (list rbdAnchorComTp_MsgInfo_st);   (* [peer][message] *)
  TxMsgQueue : list (list rbdAnchorComTp_Queue_st);    (* [peer][slot] *)
  TxHead : list Z; TxTail : list Z;
  ChTxInfo : list (list rbdAnchorComTp_ChTxInfo_st)    (* [channel][peer] *)
}.
Record AnchorRx := mkAnchorRx {
  RxMsgQueue : list (list rbdAnchorComTp_RxQueue_st);
  RxHead : list Z; RxTail : list Z;
  ChRxInfo : list (list rbdAnchorComTp_ChRxInfo_st);
  ChRxBuff : list (list rbdAnchorComTp_ChRxDataInfo_st);
  ChRxTemp : list (list rbdAnchorComTp_ChRxDataInfo_st)
}.
Record AnchorWorld (U : Type) := mkAnchor { an_tx : AnchorTx; an_rx : AnchorRx; an_up : U; an_trace : list Anchor_Event }.
Arguments mkAnchor {U} _ _ _ _.
Arguments an_tx {U} _.
Arguments an_rx {U} _.
Arguments an_up {U} _.
Arguments an_trace {U} _.

(** Tables with two indices. *)
Definition aget2 {A} (l : list (list A)) (i j : Z) : option A := r ← aget l i; aget r j.
Definition aset2 {A} (l : list (list A)) (i j : Z) (x : A) : option (list (list A)) := r ← aget l i; r' ← aset r j x; aset l i r'.

Definition set_TxBuffer x t := mkAnchorTx x (MsgTxInfo t) (TxMsgQueue t) (TxHead t) (TxTail t) (ChTxInfo t).
Definition set_MsgTxInfo x t := mkAnchorTx (TxBuffer t) x (TxMsgQueue t) (TxHead t) (TxTail t) (ChTxInfo t).
Definition set_TxMsgQueue x t := mkAnchorTx (TxBuffer t) (MsgTxInfo t) x (TxHead t) (TxTail t) (ChTxInfo t).
Definition set_TxHead x t := mkAnchorTx (TxBuffer t) (MsgTxInfo t) (TxMsgQueue t) x (TxTail t) (ChTxInfo t).
Definition set_TxTail x t := mkAnchorTx (TxBuffer t) (MsgTxInfo t) (TxMsgQueue t) (TxHead t) x (ChTxInfo t).
Definition set_ChTxInfo x t := mkAnchorTx (TxBuffer t) (MsgTxInfo t) (TxMsgQueue t) (TxHead t) (TxTail t) x.
Definition set_RxMsgQueue x r := mkAnchorRx x (RxHead r) (RxTail r) (ChRxInfo r) (ChRxBuff r) (ChRxTemp r).
Definition set_RxHead x r := mkAnchorRx (RxMsgQueue r) x (RxTail r) (ChRxInfo r) (ChRxBuff r) (ChRxTemp r).
Definition set_RxTail x r := mkAnchorRx (RxMsgQueue r) (RxHead r) x (ChRxInfo r) (ChRxBuff r) (ChRxTemp r).
Definition set_ChRxInfo x r := mkAnchorRx (RxMsgQueue r) (RxHead r) (RxTail r) x (ChRxBuff r) (ChRxTemp r).
Definition set_ChRxBuff x r := mkAnchorRx (RxMsgQueue r) (RxHead r) (RxTail r) (ChRxInfo r) x (ChRxTemp r).
Definition set_ChRxTemp x r := mkAnchorRx (RxMsgQueue r) (RxHead r) (RxTail r) (ChRxInfo r) (ChRxBuff r) x.

Section primitives.
Context {U : Type}.
Abbreviation W := (AnchorWorld U).

Definition upd_tx (f : AnchorTx → AnchorTx) : M W unit := modify (λ w, mkAnchor (f (an_tx w)) (an_rx w) (an_up w) (an_trace w)).
Definition upd_rx (f : AnchorRx → AnchorRx) : M W unit := modify (λ w, mkAnchor (an_tx w) (f (an_rx w)) (an_up w) (an_trace w)).
Definition an_ev (e : Anchor_Event) : M W unit := modify (λ w, mkAnchor (an_tx w) (an_rx w) (an_up w) (an_trace w ++ [e])).
Definition an_call {R : Type} (f : U → R * U) : M W R :=
  u ← gets an_up; let '(r, u') := f u in modify (λ w, mkAnchor (an_tx w) (an_rx w) u' (an_trace w));; mret r.
Definition rbdAnchorCom_ReportError (value : Z) (api : Anchor_Api) (err : Anchor_Err) : M W unit := an_ev (AnError value api err).

(** Elements of the transmit tables. *)
Definition tx_elem {A} (f : AnchorTx → list A) (i : Z) : M W A := l ← gets (λ w, f (an_tx w)); lift (aget l i).
Definition tx_elem2 {A} (f : AnchorTx → list (list A)) (i j : Z) : M W A := l ← gets (λ w, f (an_tx w)); lift (aget2 l i j).
Definition tx_put {A} (f : AnchorTx → list A) (put : list A → AnchorTx → AnchorTx) (i : Z) (x : A) : M W unit :=
  l ← gets (λ w, f (an_tx w)); l ← lift (aset l i x); upd_tx (put l).
Definition tx_put2 {A} (f : AnchorTx → list (list A)) (put : list (list A) → AnchorTx → AnchorTx) (i j : Z) (x : A) : M W unit :=
  l ← gets (λ w, f (an_tx w)); l ← lift (aset2 l i j x); upd_tx (put l).
Definition rx_elem {A} (f : AnchorRx → list A) (i : Z) : M W A := l ← gets (λ w, f (an_rx w)); lift (aget l i).
Definition rx_elem2 {A} (f : AnchorRx → list (list A)) (i j : Z) : M W A := l ← gets (λ w, f (an_rx w)); lift (aget2 l i j).
Definition rx_put {A} (f : AnchorRx → list A) (put : list A → AnchorRx → AnchorRx) (i : Z) (x : A) : M W unit :=
  l ← gets (λ w, f (an_rx w)); l ← lift (aset l i x); upd_rx (put l).
Definition rx_put2 {A} (f : AnchorRx → list (list A)) (put : list (list A) → AnchorRx → AnchorRx) (i j : Z) (x : A) : M W unit :=
  l ← gets (λ w, f (an_rx w)); l ← lift (aset2 l i j x); upd_rx (put l).

(** A message's state, a queue slot, a channel, read and changed. *)
Definition get_mi := tx_elem2 MsgTxInfo.
Definition upd_mi (o m : Z) (f : rbdAnchorComTp_MsgInfo_st → rbdAnchorComTp_MsgInfo_st) : M W unit :=
  x ← get_mi o m; tx_put2 MsgTxInfo set_MsgTxInfo o m (f x).
Definition get_tq (q : Z * Z) : M W rbdAnchorComTp_Queue_st := tx_elem2 TxMsgQueue (fst q) (snd q).
Definition upd_tq (q : Z * Z) (f : rbdAnchorComTp_Queue_st → rbdAnchorComTp_Queue_st) : M W unit :=
  x ← get_tq q; tx_put2 TxMsgQueue set_TxMsgQueue (fst q) (snd q) (f x).
Definition get_ct := tx_elem2 ChTxInfo.
Definition upd_ct (c o : Z) (f : rbdAnchorComTp_ChTxInfo_st → rbdAnchorComTp_ChTxInfo_st) : M W unit :=
  x ← get_ct c o; tx_put2 ChTxInfo set_ChTxInfo c o (f x).
(** The memory of a transmit buffer; NULL cannot be used. *)
Definition get_buf (m o : Z) : M W (list Z) := b ← tx_elem2 TxBuffer m o; lift b.
Definition put_buf (m o : Z) (b : list Z) : M W unit := tx_put2 TxBuffer set_TxBuffer m o (Some b).

Definition get_rq (q : Z * Z) : M W rbdAnchorComTp_RxQueue_st := rx_elem2 RxMsgQueue (fst q) (snd q).
Definition upd_rq (q : Z * Z) (f : rbdAnchorComTp_RxQueue_st → rbdAnchorComTp_RxQueue_st) : M W unit :=
  x ← get_rq q; rx_put2 RxMsgQueue set_RxMsgQueue (fst q) (snd q) (f x).
Definition get_cr := rx_elem2 ChRxInfo.
Definition put_cr := rx_put2 ChRxInfo set_ChRxInfo.
(** ChRxTemp or ChRxBuff. *)
Definition get_cd (temp : bool) : Z → Z → M W rbdAnchorComTp_ChRxDataInfo_st := rx_elem2 (if temp then ChRxTemp else ChRxBuff).
Definition put_cd (temp : bool) : Z → Z → rbdAnchorComTp_ChRxDataInfo_st → M W unit :=
  if temp then rx_put2 ChRxTemp set_ChRxTemp else rx_put2 ChRxBuff set_ChRxBuff.
(** The memory behind BufferPtr. *)
Definition rq_buffer (q : rbdAnchorComTp_RxQueue_st) : M W (list Z) :=
  d ← get_cd (rq_IsTempBuf q) (rq_Channel q) (rq_AnchorId q); mret (cd_RxBuffer d).
Definition put_rq_buffer (q : rbdAnchorComTp_RxQueue_st) (b : list Z) : M W unit :=
  d ← get_cd (rq_IsTempBuf q) (rq_Channel q) (rq_AnchorId q);
  put_cd (rq_IsTempBuf q) (rq_Channel q) (rq_AnchorId q) (set_cd_RxBuffer b d).
End primitives.
