(* ===== verification/AnchorTx.v ===== *)
(** * rbdAnchorComTp: transmission (rbdAnchorComTp.c, rbdAnchorCom.c) *)

From S2P Require Import Prelude ComStack AnchorTypes.
From stdpp Require Import base list numbers option.

#[local] Open Scope Z_scope.

Section AnchorTx.
Context {U : Type} `{HC : Anchor_Cfg} `{HE : Anchor_Env U}.
Abbreviation W := (AnchorWorld U).

Definition RBDANCHORCOM_TP_NUM_MSG : Z := lenZ MsgCfg.
Definition errc (z : Z) : Z := uw ErrCounter_bits z.
Definition mlen (z : Z) : Z := uw MsgLength_bits z.

(** ** Look-up *)

Fixpoint FindIdx_loop (n : nat) (idx PduId : Z) : option Z :=
  match n with
  | O => Some idx
  | S n => c ← aget MsgCfg idx; if cf_PduId c =? PduId then Some idx else FindIdx_loop n (idx + 1) PduId
  end.
Definition rbdAnchorComTp_FindIdx (PduId : Z) : option Z := FindIdx_loop (Z.to_nat RBDANCHORCOM_TP_NUM_MSG) 0 PduId.

(** The inner loop over the peers of a channel, then the loop over the channels. *)
Fixpoint FindLL_peer (n : nat) (OtherEndIdx : Z) (PduId : Z) (PduList : list Z) (base : Z) : option (option Z) :=
  match n with
  | O => Some None
  | S n => p ← aget PduList (base + OtherEndIdx); if p =? PduId then Some (Some OtherEndIdx) else FindLL_peer n (OtherEndIdx + 1) PduId PduList base
  end.
Fixpoint FindLL_ch (n : nat) (Ch : Z) (PduId : Z) (PduList : list Z) (TpPduNum : Z) : option (option (Z * Z)) :=
  match n with
  | O => Some None
  | S n =>
      r ← FindLL_peer (Z.to_nat TpPduNum) 0 PduId PduList (Ch * TpPduNum);
      match r with Some o => Some (Some (Ch, o)) | None => FindLL_ch n (Ch + 1) PduId PduList TpPduNum end
  end.
Definition rbdAnchorComTp_FindByLLPdu (PduId : Z) (PduList : list Z) (TpPduNum : Z) : option (option (Z * Z)) :=
  FindLL_ch (Z.to_nat RBDANCHORCOM_TPCH_MAX) 0 PduId PduList TpPduNum.

(** ** The transmit queue of a peer *)

Definition rbdAnchorComTp_GetTxQueueHead (OtherEndIdx : Z) : M W (option (Z * Z)) :=
  t ← tx_elem TxTail OtherEndIdx;
  h ← tx_elem TxHead OtherEndIdx;
  if t =? h then mret None else mret (Some (OtherEndIdx, h)).

Definition rbdAnchorComTp_RemoveTxQueueHead (OtherEndIdx : Z) : M W Std_ReturnType :=
  t ← tx_elem TxTail OtherEndIdx;
  h ← tx_elem TxHead OtherEndIdx;
  if t =? h then mret E_NOT_OK
  else tx_put TxHead set_TxHead OtherEndIdx ((h + 1) mod RBDANCHORCOM_TP_QUEUE_SIZE);; mret E_OK.

Definition rbdAnchorComTp_AddTxQueue (OtherEndIdx msgIdx : Z) : M W Std_ReturnType :=
  t ← tx_elem TxTail OtherEndIdx;
  h ← tx_elem TxHead OtherEndIdx;
  if (t + 1) mod RBDANCHORCOM_TP_QUEUE_SIZE =? h then mret E_NOT_OK
  else
    c ← lift (aget MsgCfg msgIdx);
    upd_tq (OtherEndIdx, t) (λ q, mkTxQ msgIdx OtherEndIdx (cf_Channel c) RBDANCHORCOM_TX_QUEUED 0 (tq_TruncFresh q) (tq_CmacValue q));;
    tx_put TxTail set_TxTail OtherEndIdx ((t + 1) mod RBDANCHORCOM_TP_QUEUE_SIZE);; mret E_OK.

(** ** The interface of the application *)

(** Broadcast messages have a target of their own. *)
Definition target_idx (c : rbdAnchorComTp_Cfg_st) (OtherEndIdx : Z) : Z := if cf_Broadcast c then RBD_PK_MAX_NODES else OtherEndIdx.

Definition tx_free (i : rbdAnchorComTp_MsgInfo_st) (OverwriteOldData : bool) : bool :=
  bool_decide (mi_BufState i = RBDANCHORCOM_TPSTATE_IDLE) || (bool_decide (mi_BufState i = RBDANCHORCOM_TPSTATE_HASDATA) && OverwriteOldData).

Definition rbdAnchorCom_IsTxPossible (OtherEndIdx PduId : Z) (OverwriteOldData : bool) : M W Std_ReturnType :=
  Idx ← lift (rbdAnchorComTp_FindIdx PduId);
  if RBDANCHORCOM_TP_NUM_MSG <=? Idx then rbdAnchorCom_ReportError PduId API_TP_GETBUFFER ERR_PDU;; mret E_NOT_OK
  else if RBDANCHORCOM_TP_NUM_LL_TX <=? OtherEndIdx then rbdAnchorCom_ReportError OtherEndIdx API_TP_GETBUFFER ERR_OTHERENDIDX;; mret E_NOT_OK
  else
    c ← lift (aget MsgCfg Idx);
    i ← get_mi (target_idx c OtherEndIdx) Idx;
    mret (if tx_free i OverwriteOldData then E_OK else E_NOT_OK).

Definition rbdAnchorCom_Transmit (OtherEndIdx PduId Length : Z) (Buf : option (list Z)) (Length2 : Z) (Buf2 : option (list Z)) (OverwriteOldData : bool)
  : M W Std_ReturnType :=
  Idx ← lift (rbdAnchorComTp_FindIdx PduId);
  let TotalLength := u16 (Length + Length2) in
  if RBDANCHORCOM_TP_NUM_MSG <=? Idx then rbdAnchorCom_ReportError PduId API_TP_TRANSMIT ERR_PDU;; mret E_NOT_OK
  else if RBDANCHORCOM_TP_NUM_LL_TX <=? OtherEndIdx then rbdAnchorCom_ReportError OtherEndIdx API_TP_GETBUFFER ERR_OTHERENDIDX;; mret E_NOT_OK
  else
    c ← lift (aget MsgCfg Idx);
    if cf_Length c <? TotalLength then rbdAnchorCom_ReportError Length API_TP_TRANSMIT ERR_LENGTH;; mret E_NOT_OK
    else if bool_decide (Buf = None) || ((0 <? Length2) && bool_decide (Buf2 = None)) then rbdAnchorCom_ReportError 0 API_TP_TRANSMIT ERR_NULL;; mret E_NOT_OK
    else
      let OtherEndIdxToUse := target_idx c OtherEndIdx in
      i ← get_mi OtherEndIdxToUse Idx;
      if tx_free i OverwriteOldData then
        b ← get_buf Idx OtherEndIdxToUse;
        src ← lift Buf; src ← lift (aslice src 0 Length);
        b ← lift (awrite b RBDANCHORCOM_HEADER_LEN src);
        b ← (if 0 <? Length2 then src2 ← lift Buf2; src2 ← lift (aslice src2 0 Length2); lift (awrite b (RBDANCHORCOM_HEADER_LEN + Length) src2) else mret b);
        put_buf Idx OtherEndIdxToUse b;;
        upd_mi OtherEndIdxToUse Idx (set_mi_Length TotalLength);;
        upd_mi OtherEndIdx Idx (set_mi_BufState RBDANCHORCOM_TPSTATE_HASDATA);;
        r ← rbdAnchorComTp_AddTxQueue OtherEndIdxToUse (u8 Idx);
        if bool_decide (r = E_OK) then
          upd_mi OtherEndIdxToUse Idx (set_mi_BufState RBDANCHORCOM_TPSTATE_HASDATA);; mret E_OK
        else mret E_NOT_OK
      else mret E_NOT_OK.

(** ** Formatting, encryption, authentication *)

Definition rbdAnchorComTp_GetChanId (CanIdx : Z) (IsBroadcast IsBleChannel FromMaster : bool) : Z :=
  let ChanId := Z.land CanIdx 15 in
  let ChanId := if IsBroadcast then Z.lor ChanId 128 else ChanId in
  let ChanId := if IsBleChannel then Z.lor ChanId 64 else Z.lor ChanId 16 in
  if FromMaster then Z.lor ChanId 32 else ChanId.

Definition rbdAnchorComTp_GetTxChanId (u : U) (c : rbdAnchorComTp_Cfg_st) (AnchorId : Z) : Z :=
  match anchor_build with
  | RBD_PK_CPU_CC26xx => rbdAnchorComTp_GetChanId (NvM_AnchorCanIdx u) (cf_Broadcast c) true false
  | RBD_PK_CPU_NCJ29D5 => rbdAnchorComTp_GetChanId (rbdUwbInfo_GetCANIdx u) (cf_Broadcast c) false false
  | RBD_PK_MASTER_MCU => rbdAnchorComTp_GetChanId (u8 (if cf_Broadcast c then 0 else AnchorId + 1)) (cf_Broadcast c) (cf_Channel c =? RBDANCHORCOM_TPCH_BLE) true
  end.

(** The pad bytes of an encrypted message and their number in the header. *)
Definition pad_for_crypto (Buffer : list Z) (PayloadLen : Z) : option (list Z * Z) :=
  Buffer ← aset Buffer 2 128;
  let Padding := u8 (PayloadLen mod RBDANCHORCOM_AES_KEY_LEN) in
  if negb (Padding =? 0) then
    let Padding := u8 (RBDANCHORCOM_AES_KEY_LEN - Padding) in
    Buffer ← awrite Buffer (PayloadLen + RBDANCHORCOM_HEADER_LEN) (replicate (Z.to_nat Padding) 0);
    b ← aget Buffer 2; Buffer ← aset Buffer 2 (Z.lor b (Z.land Padding 15)); Some (Buffer, Padding)
  else Buffer ← aset Buffer 2 0; Some (Buffer, 0).

Definition rbdAnchorComTp_TxFormatForCrypto (QueuePtr : option (Z * Z)) : M W rbdAnchorCom_Result_et :=
  match QueuePtr with
  | None => rbdAnchorCom_ReportError 0 API_TX_FORMAT ERR_NULL;; mret RBDANCHORCOM_FATAL_FAIL
  | Some QueuePtr =>
      '(r, FreshArray, TruncFresh) ← an_call (Fresh_GetTx RBDANCHORCOM_FRESH_LEN);
      if bool_decide (r = E_OK) then
        q ← get_tq QueuePtr;
        let MsgIdx := tq_MsgIdx q in
        let PeerIdx := tq_AnchorId q in
        i ← get_mi PeerIdx MsgIdx;
        let PayloadLen := u16 (mi_Length i) in
        Buffer ← get_buf MsgIdx PeerIdx;
        c ← lift (aget MsgCfg MsgIdx);
        ChanId ← gets (λ w, rbdAnchorComTp_GetTxChanId (an_up w) c PeerIdx);
        Buffer ← lift (aset Buffer 0 ChanId);
        Buffer ← lift (aset Buffer 1 (cf_PduId c));
        '(Buffer, Padding) ← (if cf_EncDecFlag c then lift (pad_for_crypto Buffer PayloadLen) else mret (Buffer, 0));
        let PayloadLen := u16 (PayloadLen + Padding) in
        when (negb (Padding =? 0)) (upd_mi PeerIdx MsgIdx (λ i, set_mi_Length (mlen (mi_Length i + Padding)) i));;
        Buffer ← lift (awrite Buffer (PayloadLen + RBDANCHORCOM_HEADER_LEN) FreshArray);
        put_buf MsgIdx PeerIdx Buffer;;
        upd_tq QueuePtr (set_tq_TruncFresh TruncFresh);;
        upd_tq QueuePtr (set_tq_QueueState (if cf_EncDecFlag c then RBDANCHORCOM_TX_ENC_READY else RBDANCHORCOM_TX_CMAC_READY));;
        mret RBDANCHORCOM_OK
      else mret RBDANCHORCOM_FAIL
  end.

Definition rbdAnchorComTp_TxStartEncryption (QueuePtr : option (Z * Z)) : M W rbdAnchorCom_Result_et :=
  match QueuePtr with
  | None => rbdAnchorCom_ReportError 0 API_TX_FORMAT ERR_NULL;; mret RBDANCHORCOM_FATAL_FAIL
  | Some QueuePtr =>
      q ← get_tq QueuePtr;
      Buffer ← get_buf (tq_MsgIdx q) (tq_AnchorId q);
      i ← get_mi (tq_AnchorId q) (tq_MsgIdx q);
      let PayloadLen := u16 (mi_Length i) in
      Payload ← lift (aslice Buffer RBDANCHORCOM_HEADER_LEN PayloadLen);
      Fresh ← lift (aslice Buffer (RBDANCHORCOM_HEADER_LEN + PayloadLen) RBDANCHORCOM_FRESH_LEN);
      '(ret, Payload) ← an_call (Csm_Encrypt Payload Fresh);
      Buffer ← lift (awrite Buffer RBDANCHORCOM_HEADER_LEN Payload);
      put_buf (tq_MsgIdx q) (tq_AnchorId q) Buffer;; mret ret
  end.

Definition rbdAnchorComTp_TxStartCmac (QueuePtr : option (Z * Z)) : M W rbdAnchorCom_Result_et :=
  match QueuePtr with
  | None => rbdAnchorCom_ReportError 0 API_TX_FORMAT ERR_NULL;; mret RBDANCHORCOM_FATAL_FAIL
  | Some QueuePtr =>
      q ← get_tq QueuePtr;
      Buffer ← get_buf (tq_MsgIdx q) (tq_AnchorId q);
      i ← get_mi (tq_AnchorId q) (tq_MsgIdx q);
      let DataLen := u16 (mi_Length i + RBDANCHORCOM_HEADER_LEN + RBDANCHORCOM_FRESH_LEN) in
      Data ← lift (aslice Buffer 0 DataLen);
      '(ret, Cmac) ← an_call (Csm_Authenticate Data);
      upd_tq QueuePtr (set_tq_CmacValue Cmac);; mret ret
  end.

(** The request to the router, on the channel of the queue slot or on that of the second
    broadcast target. *)
Definition start_tx (Channel OtherEndIdx MsgIdx Length : Z) : M W Std_ReturnType :=
  upd_ct Channel OtherEndIdx (λ _, mkChTx true 0 MsgIdx);;
  PduId ← lift (aget2 LowerTxCallPdu Channel OtherEndIdx);
  r ← an_call (an_PduR_Transmit PduId Length);
  an_ev (AnTransmit PduId Length r);; mret r.

Definition rbdAnchorComTp_TxStartTx (QueuePtr : option (Z * Z)) : M W rbdAnchorCom_Result_et :=
  match QueuePtr with
  | None => rbdAnchorCom_ReportError 0 API_TX_FORMAT ERR_NULL;; mret RBDANCHORCOM_FATAL_FAIL
  | Some QueuePtr =>
      q ← get_tq QueuePtr;
      i ← get_mi (tq_AnchorId q) (tq_MsgIdx q);
      r ← start_tx (tq_Channel q) (tq_AnchorId q) (tq_MsgIdx q) (mi_Length i);
      c ← lift (aget MsgCfg (tq_MsgIdx q));
      if RBD_PK_MASTER_HAS_RF && cf_Broadcast c then
        r2 ← start_tx (tq_Channel q) (u8 (tq_AnchorId q + 1)) (tq_MsgIdx q) (mi_Length i);
        mret (if bool_decide (r = E_OK) || bool_decide (r2 = E_OK) then RBDANCHORCOM_OK else RBDANCHORCOM_FATAL_FAIL)
      else mret (if bool_decide (r = E_OK) then RBDANCHORCOM_OK else RBDANCHORCOM_FATAL_FAIL)
  end.

Definition rbdAnchorComTp_FinishData (QueuePtr : option (Z * Z)) : M W rbdAnchorCom_Result_et :=
  match QueuePtr with
  | None => rbdAnchorCom_ReportError 0 API_TX_FORMAT ERR_NULL;; mret RBDANCHORCOM_FATAL_FAIL
  | Some QueuePtr =>
      q ← get_tq QueuePtr;
      upd_mi (tq_AnchorId q) (tq_MsgIdx q) (set_mi_BufState RBDANCHORCOM_TPSTATE_IDLE);;
      rbdAnchorComTp_RemoveTxQueueHead (tq_AnchorId q);; mret RBDANCHORCOM_OK
  end.

(** ** The state machine of the queue head *)

(** The counter of failed attempts; a fatal failure uses up all of them. *)
Definition tx_failed (QueuePtr : Z * Z) (n : Z) : M W unit := upd_tq QueuePtr (λ q, set_tq_ErrCounter (errc (tq_ErrCounter q + n)) q).
(** The reaction to a result: the next state, waiting, or a failed attempt. *)
Definition tx_react (QueuePtr : Z * Z) (ret : rbdAnchorCom_Result_et) (done : M W unit) (pending : M W unit) : M W unit :=
  match ret with
  | RBDANCHORCOM_OK => done
  | RBDANCHORCOM_PENDING => pending
  | RBDANCHORCOM_FAIL => tx_failed QueuePtr 1
  | RBDANCHORCOM_FATAL_FAIL => tx_failed QueuePtr RBDANCHORCOM_MAX_RETRY_COUNT
  end.

Definition rbdAnchorComTp_TxPart1 (QueuePtr : option (Z * Z)) : M W rbdAnchorCom_Result_et :=
  match QueuePtr with
  | None => rbdAnchorCom_ReportError 0 API_TX_FORMAT ERR_NULL;; mret RBDANCHORCOM_FATAL_FAIL
  | Some Ptr =>
      q ← get_tq Ptr;
      if bool_decide (tq_QueueState q = RBDANCHORCOM_TX_QUEUED) then
        ret ← rbdAnchorComTp_TxFormatForCrypto QueuePtr;
        when (negb (bool_decide (ret = RBDANCHORCOM_OK))) (tx_failed Ptr 1);;
        q ← get_tq Ptr;
        if bool_decide (tq_QueueState q = RBDANCHORCOM_TX_ENC_READY) then
          ret ← rbdAnchorComTp_TxStartEncryption QueuePtr;
          tx_react Ptr ret (upd_tq Ptr (set_tq_QueueState RBDANCHORCOM_TX_CMAC_READY)) (upd_tq Ptr (set_tq_QueueState RBDANCHORCOM_TX_ENC_RUNNING));;
          mret ret
        else mret ret
      else mret RBDANCHORCOM_OK
  end.

(** The authentication code takes the place of the freshness value. *)
Definition append_cmac (Ptr : Z * Z) : M W unit :=
  q ← get_tq Ptr;
  Buffer ← get_buf (tq_MsgIdx q) (tq_AnchorId q);
  i ← get_mi (tq_AnchorId q) (tq_MsgIdx q);
  let CmacOffset := u16 (mi_Length i + RBDANCHORCOM_HEADER_LEN) in
  Buffer ← lift (aset Buffer CmacOffset (tq_TruncFresh q));
  Cmac ← lift (aslice (tq_CmacValue q) 0 RBDANCHORCOM_CMAC_LEN);
  Buffer ← lift (awrite Buffer (CmacOffset + 1) Cmac);
  put_buf (tq_MsgIdx q) (tq_AnchorId q) Buffer;;
  upd_mi (tq_AnchorId q) (tq_MsgIdx q) (λ i, set_mi_Length (mlen (mi_Length i + (RBDANCHORCOM_APPEND_LEN + RBDANCHORCOM_PREFIX_LEN))) i);;
  upd_tq Ptr (set_tq_QueueState RBDANCHORCOM_TX_TRANS_READY).

Definition rbdAnchorComTp_TxPart2 (QueuePtr : option (Z * Z)) : M W rbdAnchorCom_Result_et :=
  match QueuePtr with
  | None => rbdAnchorCom_ReportError 0 API_TX_FORMAT ERR_NULL;; mret RBDANCHORCOM_FATAL_FAIL
  | Some Ptr =>
      q ← get_tq Ptr;
      if bool_decide (tq_QueueState q = RBDANCHORCOM_TX_CMAC_READY) then
        ret ← rbdAnchorComTp_TxStartCmac QueuePtr;
        tx_react Ptr ret (append_cmac Ptr) (upd_tq Ptr (set_tq_QueueState RBDANCHORCOM_TX_CMAC_RUNNING));;
        mret ret
      else mret RBDANCHORCOM_OK
  end.

Definition rbdAnchorComTp_TxPart3 (QueuePtr : option (Z * Z)) : M W rbdAnchorCom_Result_et :=
  match QueuePtr with
  | None => rbdAnchorCom_ReportError 0 API_TX_FORMAT ERR_NULL;; mret RBDANCHORCOM_FATAL_FAIL
  | Some Ptr =>
      q ← get_tq Ptr;
      if bool_decide (tq_QueueState q = RBDANCHORCOM_TX_TRANS_READY) then
        upd_tq Ptr (set_tq_QueueState RBDANCHORCOM_TX_TRANS_RUNNING);;
        ret ← rbdAnchorComTp_TxStartTx QueuePtr;
        (match ret with
         | RBDANCHORCOM_OK => upd_tq Ptr (set_tq_QueueState RBDANCHORCOM_TX_TRANS_RUNNING)
         | RBDANCHORCOM_FAIL => tx_failed Ptr 1
         | _ => tx_failed Ptr RBDANCHORCOM_MAX_RETRY_COUNT
         end);;
        mret ret
      else mret RBDANCHORCOM_OK
  end.

(** ** The cyclic function *)

(** rbdAnchorCom.c: which peers may be sent to. *)
Fixpoint NodeOk_loop (n : nat) (nodeIdx : Z) (LostCommStatus : list bool) (result : Z) : option Z :=
  match n with
  | O => Some result
  | S n => pass ← aget LostCommStatus nodeIdx; NodeOk_loop n (nodeIdx + 1) LostCommStatus (if pass : bool then Z.lor result (u32 (Z.shiftl 1 nodeIdx)) else result)
  end.
Definition rbdAnchorCom_NodeOkToTx : M W Z :=
  u ← gets an_up;
  if bool_decide (anchor_build = RBD_PK_MASTER_MCU) then lift (NodeOk_loop (Z.to_nat RBD_PK_MAX_NODES) 0 (LostCommStatus u) 0)
  else
    let '(r, userDataLength, userByte0) := RadioTime u in
    mret (if bool_decide (r = E_OK) && (0 <? userDataLength) && negb (userByte0 =? 0) then 4294967295 else 0).

(** The head of a queue: finished messages leave it, the transmission under way is timed. *)
Definition settle_head (OtherEndIdx : Z) : M W (option (Z * Z)) :=
  TxHeadPtr ← rbdAnchorComTp_GetTxQueueHead OtherEndIdx;
  match TxHeadPtr with
  | None => mret None
  | Some Ptr =>
      q ← get_tq Ptr;
      if bool_decide (tq_QueueState q = RBDANCHORCOM_TX_TRANS_DONE) then rbdAnchorComTp_FinishData TxHeadPtr;; rbdAnchorComTp_GetTxQueueHead OtherEndIdx
      else
        when (bool_decide (tq_QueueState q = RBDANCHORCOM_TX_TRANS_RUNNING)) (tx_failed Ptr 1);;
        mret TxHeadPtr
  end.

Definition CyclicTx_peer (OtherEndIdx : Z) : M W unit :=
  TxHeadPtr ← settle_head OtherEndIdx;
  match TxHeadPtr with
  | None => mret tt
  | Some Ptr =>
      rbdAnchorComTp_TxPart1 TxHeadPtr;;
      rbdAnchorComTp_TxPart2 TxHeadPtr;;
      rbdAnchorComTp_TxPart3 TxHeadPtr;;
      q ← get_tq Ptr;
      when (RBDANCHORCOM_MAX_RETRY_COUNT <=? tq_ErrCounter q)
        (upd_mi (tq_AnchorId q) (tq_MsgIdx q) (set_mi_BufState RBDANCHORCOM_TPSTATE_IDLE);;
         upd_ct (tq_Channel q) (tq_AnchorId q) (set_ct_TxInProgress false);;
         rbdAnchorComTp_RemoveTxQueueHead (tq_AnchorId q);; mret tt)
  end.

Definition crypto_free : M W bool :=
  u ← gets an_up; mret (negb (bool_decide (anchor_build = RBD_PK_CPU_NCJ29D5)) || R4Sec_IsCryptoFree u).

Definition rbdAnchorComTp_CyclicTx : M W unit :=
  TransmitAllowed ← rbdAnchorCom_NodeOkToTx;
  free ← crypto_free;
  when free
    (mfor (Z.to_nat RBDANCHORCOM_TP_NUM_LL_TX) 0 (λ OtherEndIdx,
       let mask := u32 (Z.shiftl 1 OtherEndIdx) in
       when (negb (Z.land TransmitAllowed mask =? 0) || (RBD_PK_MAX_NODES <=? OtherEndIdx)) (CyclicTx_peer OtherEndIdx))).

Definition rbdAnchorCom_CyclicTx : M W unit := rbdAnchorComTp_CyclicTx.

(** ** Call-backs of the router *)

Definition is_Master0Hi (id : Z) : bool := bool_decide (anchor_build = RBD_PK_MASTER_MCU) && RBD_PK_MASTER_HAS_RF && (id =? Master0Hi_Cb).

(** [info]: SduLength and whether SduDataPtr is set; [retry]: whether TpDataState is TP_DATARETRY,
    and TxTpDataCnt.  The answer carries the bytes stored at SduDataPtr and *availableDataPtr. *)
Definition rbdAnchorComTp_CopyTxData (id : Z) (info : option (Z * bool)) (retry : option (bool * Z)) : M W (BufReq_ReturnType * list Z * Z) :=
  match info with
  | None => rbdAnchorCom_ReportError id API_TP_TXCOPY ERR_NULL;; mret (BUFREQ_E_NOT_OK, [], 0)
  | Some (SduLength, HasBuf) =>
      f ← lift (rbdAnchorComTp_FindByLLPdu id LowerTxCbPdu RBDANCHORCOM_TP_NUM_LL_TX);
      match f with
      | None => rbdAnchorCom_ReportError id API_TP_TXCOPY ERR_PDU;; mret (BUFREQ_E_NOT_OK, [], 0)
      | Some (Channel, OtherEndIdx) =>
          ct ← get_ct Channel OtherEndIdx;
          let MsgIdx := ct_TxMsgIdx ct in
          HeadPtr ← rbdAnchorComTp_GetTxQueueHead OtherEndIdx;
          if bool_decide (HeadPtr = None) && negb (is_Master0Hi id) then rbdAnchorCom_ReportError id API_TP_TXCOPY ERR_NULL;; mret (BUFREQ_E_NOT_OK, [], 0)
          else
            let Offset := match retry with Some (true, n) => u16 n | _ => ct_TxOffset ct end in
            let Source := if is_Master0Hi id then OtherEndIdx - 1 else OtherEndIdx in
            i ← get_mi Source MsgIdx;
            let BytesRemaining := u16 (mi_Length i - Offset) in
            let BytesToCopy := if BytesRemaining <? u16 SduLength then BytesRemaining else u16 SduLength in
            if HasBuf : bool then
              Buffer ← get_buf MsgIdx Source;
              data ← lift (aslice Buffer (Offset + RBDANCHORCOM_CHANID_LEN) BytesToCopy);
              upd_ct Channel OtherEndIdx (set_ct_TxOffset (u16 (Offset + BytesToCopy)));;
              let BytesRemaining := BytesRemaining - BytesToCopy in
              when (bool_decide (anchor_build = RBD_PK_CPU_NCJ29D5) && (BytesRemaining =? 0))
                (upd_ct Channel OtherEndIdx (set_ct_TxInProgress false);;
                 Ptr ← lift HeadPtr; upd_tq Ptr (set_tq_QueueState RBDANCHORCOM_TX_TRANS_DONE));;
              mret (BUFREQ_OK, data, BytesRemaining)
            else mret (BUFREQ_OK, [], BytesRemaining)
      end
  end.

Definition rbdAnchorComTp_TpTxConfirmation (id : Z) (result : Std_ReturnType) : M W unit :=
  f ← lift (rbdAnchorComTp_FindByLLPdu id LowerTxCbPdu RBDANCHORCOM_TP_NUM_LL_TX);
  match f with
  | None => rbdAnchorCom_ReportError id API_TP_TXCONFIRMATION ERR_PDU
  | Some (Channel, OtherEndIdx) =>
      HeadPtr ← rbdAnchorComTp_GetTxQueueHead OtherEndIdx;
      match HeadPtr with
      | None =>
          if is_Master0Hi id then
            ct ← get_ct Channel OtherEndIdx;
            when (ct_TxInProgress ct) (upd_ct Channel OtherEndIdx (set_ct_TxInProgress false))
          else rbdAnchorCom_ReportError id API_TP_TXCOPY ERR_NULL
      | Some Ptr =>
          ct ← get_ct Channel OtherEndIdx;
          when (ct_TxInProgress ct)
            (upd_ct Channel OtherEndIdx (set_ct_TxInProgress false);;
             if bool_decide (result = E_OK) then upd_tq Ptr (set_tq_QueueState RBDANCHORCOM_TX_TRANS_DONE)
             else upd_tq Ptr (set_tq_QueueState RBDANCHORCOM_TX_TRANS_READY);; tx_failed Ptr 1)
      end
  end.
End AnchorTx.
