(* ===== verification/AnchorRx.v ===== *)
(** * rbdAnchorComTp: reception and initialisation (rbdAnchorComTp.c, rbdAnchorCom.c) *)

From S2P Require Import Prelude ComStack AnchorTypes AnchorTx.
From stdpp Require Import base list numbers option.

#[local] Open Scope Z_scope.

Section AnchorRx.
Context {U : Type} `{HC : Anchor_Cfg} `{HE : Anchor_Env U}.
Abbreviation W := (AnchorWorld U).

Definition dlen (z : Z) : Z := uw DataLen_bits z.

(** ** The receive queue of a peer *)

Definition rbdAnchorComTp_GetRxQueueHead (OtherEndIdx : Z) : M W (option (Z * Z)) :=
  t ← rx_elem RxTail OtherEndIdx;
  h ← rx_elem RxHead OtherEndIdx;
  if t =? h then mret None else mret (Some (OtherEndIdx, h)).

Definition rbdAnchorComTp_RemoveRxQueueHead (OtherEndIdx : Z) : M W Std_ReturnType :=
  t ← rx_elem RxTail OtherEndIdx;
  h ← rx_elem RxHead OtherEndIdx;
  if t =? h then mret E_NOT_OK
  else
    upd_rq (OtherEndIdx, h) (set_rq_QueueState RBDANCHORCOM_TX_IDLE);;
    rx_put RxHead set_RxHead OtherEndIdx ((h + 1) mod RBDANCHORCOM_TP_QUEUE_SIZE);; mret E_OK.

Definition rbdAnchorComTp_AddRxQueue (Channel OtherEndIdx : Z) (IsTempBuf : bool) : M W Std_ReturnType :=
  t ← rx_elem RxTail OtherEndIdx;
  h ← rx_elem RxHead OtherEndIdx;
  if (t + 1) mod RBDANCHORCOM_TP_QUEUE_SIZE =? h then mret E_NOT_OK
  else
    d ← get_cd IsTempBuf Channel OtherEndIdx;
    upd_rq (OtherEndIdx, t) (λ q, mkRxQ Channel OtherEndIdx IsTempBuf RBDANCHORCOM_RX_QUEUED 0 (dlen (cd_RxOffset d)) (rq_MsgIdx q) (rq_TruncFresh q) (rq_CmacValue q));;
    rx_put RxTail set_RxTail OtherEndIdx ((t + 1) mod RBDANCHORCOM_TP_QUEUE_SIZE);; mret E_OK.

(** ** Verification, decryption, distribution *)

Definition rbdAnchorComTp_GetRxChanId (u : U) (c : rbdAnchorComTp_Cfg_st) (AnchorId : Z) : Z :=
  match anchor_build with
  | RBD_PK_CPU_CC26xx => rbdAnchorComTp_GetChanId (NvM_AnchorCanIdx u) (cf_Broadcast c) true true
  | RBD_PK_CPU_NCJ29D5 => rbdAnchorComTp_GetChanId (if cf_Broadcast c then 0 else rbdUwbInfo_GetCANIdx u) (cf_Broadcast c) false true
  | RBD_PK_MASTER_MCU => rbdAnchorComTp_GetChanId (u8 (AnchorId + 1)) (cf_Broadcast c) (cf_Channel c =? RBDANCHORCOM_TPCH_BLE) false
  end.

(** The truncated freshness value and the authentication code at the end of a message. *)
Definition take_auth (QueuePtr : Z * Z) : M W unit :=
  q ← get_rq QueuePtr;
  when (4 <? rq_DataLen q)
    (Buffer ← rq_buffer q;
     b ← lift (aget Buffer (rq_DataLen q - RBDANCHORCOM_APPEND_LEN));
     m ← lift (aslice Buffer (rq_DataLen q - RBDANCHORCOM_CMAC_LEN) RBDANCHORCOM_CMAC_LEN);
     upd_rq QueuePtr (set_rq_Auth b m)).

Definition rbdAnchorComTp_RxFormatForCmac (QueuePtr : option (Z * Z)) : M W rbdAnchorCom_Result_et :=
  match QueuePtr with
  | None => rbdAnchorCom_ReportError 0 API_TX_FORMAT ERR_NULL;; mret RBDANCHORCOM_FATAL_FAIL
  | Some Ptr =>
      q ← get_rq Ptr;
      Buffer ← rq_buffer q;
      PduId ← lift (aget Buffer RBDANCHORCOM_CHANID_LEN);
      MsgIdx ← lift (rbdAnchorComTp_FindIdx PduId);
      if MsgIdx <? RBDANCHORCOM_TP_NUM_MSG then
        upd_rq Ptr (set_rq_MsgIdx (u8 MsgIdx));;
        take_auth Ptr;;
        q ← get_rq Ptr;
        '(r, FreshArray) ← an_call (Fresh_GetRx (rq_TruncFresh q) RBDANCHORCOM_FRESH_LEN);
        if bool_decide (r = E_OK) then
          c ← lift (aget MsgCfg (rq_MsgIdx q));
          ChanId ← gets (λ w, rbdAnchorComTp_GetRxChanId (an_up w) c (rq_AnchorId q));
          Buffer ← rq_buffer q;
          Buffer ← lift (aset Buffer 0 ChanId);
          Buffer ← lift (awrite Buffer (rq_DataLen q - RBDANCHORCOM_APPEND_LEN) FreshArray);
          put_rq_buffer q Buffer;;
          upd_rq Ptr (λ q, set_rq_DataLen (dlen (rq_DataLen q + RBDANCHORCOM_APPEND_LEN)) q);;
          upd_rq Ptr (set_rq_QueueState RBDANCHORCOM_RX_CMAC_READY);;
          mret RBDANCHORCOM_OK
        else mret RBDANCHORCOM_FAIL
      else mret RBDANCHORCOM_FATAL_FAIL
  end.

Definition rbdAnchorComTp_RxStartCmac (QueuePtr : option (Z * Z)) : M W rbdAnchorCom_Result_et :=
  match QueuePtr with
  | None => rbdAnchorCom_ReportError 0 API_TX_FORMAT ERR_NULL;; mret RBDANCHORCOM_FATAL_FAIL
  | Some Ptr =>
      q ← get_rq Ptr;
      Buffer ← rq_buffer q;
      Data ← lift (aslice Buffer 0 (u16 (rq_DataLen q)));
      an_call (Csm_Verify (rq_AnchorId q) Data (rq_CmacValue q))
  end.

Definition rbdAnchorComTp_RxStartDecryption (QueuePtr : option (Z * Z)) : M W rbdAnchorCom_Result_et :=
  match QueuePtr with
  | None => rbdAnchorCom_ReportError 0 API_TX_FORMAT ERR_NULL;; mret RBDANCHORCOM_FATAL_FAIL
  | Some Ptr =>
      q ← get_rq Ptr;
      Buffer ← rq_buffer q;
      let PayloadLen := u16 (rq_DataLen q - RBDANCHORCOM_HEADER_LEN) in
      Payload ← lift (aslice Buffer RBDANCHORCOM_HEADER_LEN PayloadLen);
      Fresh ← lift (aslice Buffer (RBDANCHORCOM_HEADER_LEN + PayloadLen) RBDANCHORCOM_FRESH_LEN);
      '(ret, Payload) ← an_call (Csm_Decrypt (rq_AnchorId q) Payload Fresh);
      Buffer ← lift (awrite Buffer RBDANCHORCOM_HEADER_LEN Payload);
      put_rq_buffer q Buffer;; mret ret
  end.

Definition rbdAnchorComTp_RxDistributeMsg (QueuePtr : option (Z * Z)) : M W rbdAnchorCom_Result_et :=
  match QueuePtr with
  | None => rbdAnchorCom_ReportError 0 API_TX_FORMAT ERR_NULL;; mret RBDANCHORCOM_FATAL_FAIL
  | Some Ptr =>
      q ← get_rq Ptr;
      c ← lift (aget MsgCfg (rq_MsgIdx q));
      if cf_RxIndication c then
        let RxPayloadLen := u16 (rq_DataLen q - u16 RBDANCHORCOM_HEADER_LEN) in
        Buffer ← rq_buffer q;
        Payload ← lift (aslice Buffer RBDANCHORCOM_HEADER_LEN RxPayloadLen);
        an_call (λ u, (tt, an_RxIndication (rq_AnchorId q) (cf_PduId c) Payload u));;
        an_ev (AnRx (rq_AnchorId q) (cf_PduId c) Payload);;
        mret RBDANCHORCOM_OK
      else mret RBDANCHORCOM_FATAL_FAIL
  end.

(** ** The state machine of the queue head *)

Definition rx_failed (QueuePtr : Z * Z) (n : Z) : M W unit := upd_rq QueuePtr (λ q, set_rq_ErrCounter (errc (rq_ErrCounter q + n)) q).
Definition rx_react (QueuePtr : Z * Z) (ret : rbdAnchorCom_Result_et) (done : M W unit) (pending : M W unit) : M W unit :=
  match ret with
  | RBDANCHORCOM_OK => done
  | RBDANCHORCOM_PENDING => pending
  | RBDANCHORCOM_FAIL => rx_failed QueuePtr 1
  | RBDANCHORCOM_FATAL_FAIL => rx_failed QueuePtr RBDANCHORCOM_MAX_RETRY_COUNT
  end.

(** A verified message: the freshness value is dropped. *)
Definition verified (Ptr : Z * Z) : M W unit :=
  upd_rq Ptr (λ q, set_rq_DataLen (dlen (rq_DataLen q - RBDANCHORCOM_FRESH_LEN)) q);;
  q ← get_rq Ptr;
  c ← lift (aget MsgCfg (rq_MsgIdx q));
  upd_rq Ptr (set_rq_QueueState (if cf_EncDecFlag c then RBDANCHORCOM_RX_DEC_READY else RBDANCHORCOM_RX_PROCESS_READY)).

Definition rbdAnchorComTp_RxPart1 (QueuePtr : option (Z * Z)) : M W rbdAnchorCom_Result_et :=
  match QueuePtr with
  | None => rbdAnchorCom_ReportError 0 API_TX_FORMAT ERR_NULL;; mret RBDANCHORCOM_FATAL_FAIL
  | Some Ptr =>
      q ← get_rq Ptr;
      ret ← (if bool_decide (rq_QueueState q = RBDANCHORCOM_RX_QUEUED) then
               ret ← rbdAnchorComTp_RxFormatForCmac QueuePtr;
               when (negb (bool_decide (ret = RBDANCHORCOM_OK))) (rx_failed Ptr 1);; mret ret
             else mret RBDANCHORCOM_FATAL_FAIL);
      q ← get_rq Ptr;
      if bool_decide (rq_QueueState q = RBDANCHORCOM_RX_CMAC_READY) then
        ret ← rbdAnchorComTp_RxStartCmac QueuePtr;
        rx_react Ptr ret (verified Ptr) (upd_rq Ptr (set_rq_QueueState RBDANCHORCOM_RX_CMAC_RUNNING));; mret ret
      else mret ret
  end.

(** A decrypted message: the padding is dropped. *)
Definition decrypted (Ptr : Z * Z) : M W unit :=
  q ← get_rq Ptr;
  Buffer ← rq_buffer q;
  b ← lift (aget Buffer 2);
  upd_rq Ptr (λ q, set_rq_DataLen (dlen (rq_DataLen q - Z.land b 15)) q);;
  upd_rq Ptr (set_rq_QueueState RBDANCHORCOM_RX_PROCESS_READY).

Definition rbdAnchorComTp_RxPart2 (QueuePtr : option (Z * Z)) : M W rbdAnchorCom_Result_et :=
  match QueuePtr with
  | None => rbdAnchorCom_ReportError 0 API_TX_FORMAT ERR_NULL;; mret RBDANCHORCOM_FATAL_FAIL
  | Some Ptr =>
      q ← get_rq Ptr;
      if bool_decide (rq_QueueState q = RBDANCHORCOM_RX_DEC_READY) then
        ret ← rbdAnchorComTp_RxStartDecryption QueuePtr;
        rx_react Ptr ret (decrypted Ptr) (upd_rq Ptr (set_rq_QueueState RBDANCHORCOM_RX_DEC_RUNNING));; mret ret
      else mret RBDANCHORCOM_OK
  end.

Definition rbdAnchorComTp_RxPart3 (QueuePtr : option (Z * Z)) : M W rbdAnchorCom_Result_et :=
  match QueuePtr with
  | None => rbdAnchorCom_ReportError 0 API_TX_FORMAT ERR_NULL;; mret RBDANCHORCOM_FATAL_FAIL
  | Some Ptr =>
      q ← get_rq Ptr;
      if bool_decide (rq_QueueState q = RBDANCHORCOM_RX_PROCESS_READY) then
        ret ← rbdAnchorComTp_RxDistributeMsg QueuePtr;
        (match ret with
         | RBDANCHORCOM_OK => upd_rq Ptr (set_rq_QueueState RBDANCHORCOM_RX_PROCESS_DONE)
         | RBDANCHORCOM_FAIL => rx_failed Ptr 1
         | _ => rx_failed Ptr RBDANCHORCOM_MAX_RETRY_COUNT
         end);; mret ret
      else mret RBDANCHORCOM_OK
  end.

Definition CyclicRx_peer (OtherEndIdx : Z) : M W unit :=
  RxHeadPtr ← rbdAnchorComTp_GetRxQueueHead OtherEndIdx;
  match RxHeadPtr with
  | None => mret tt
  | Some Ptr =>
      rbdAnchorComTp_RxPart1 RxHeadPtr;;
      rbdAnchorComTp_RxPart2 RxHeadPtr;;
      rbdAnchorComTp_RxPart3 RxHeadPtr;;
      q ← get_rq Ptr;
      when ((RBDANCHORCOM_MAX_RETRY_COUNT <=? rq_ErrCounter q) || bool_decide (rq_QueueState q = RBDANCHORCOM_RX_PROCESS_DONE))
        (d ← get_cd (rq_IsTempBuf q) (rq_Channel q) (rq_AnchorId q);
         put_cd (rq_IsTempBuf q) (rq_Channel q) (rq_AnchorId q) (set_cd_NeedVerify false d);;
         rbdAnchorComTp_RemoveRxQueueHead (rq_AnchorId q);; mret tt)
  end.

Definition rbdAnchorCom_CyclicRx : M W unit :=
  free ← crypto_free;
  when free (mfor (Z.to_nat RBDANCHORCOM_TP_NUM_LL_RX) 0 CyclicRx_peer).

(** ** Call-backs of the router *)

(** The answers carry *bufferSizePtr. *)
Definition rbdAnchorComTp_StartOfReception (id TpSduLength : Z) : M W (BufReq_ReturnType * option Z) :=
  f ← lift (rbdAnchorComTp_FindByLLPdu id LowerRxPdu RBDANCHORCOM_TP_NUM_LL_RX);
  match f with
  | None => rbdAnchorCom_ReportError id API_TP_RXSTART ERR_PDU;; mret (BUFREQ_E_NOT_OK, None)
  | Some (Channel, OtherEndIdx) =>
      if RBDANCHORCOM_TP_MAX_RX_BUFFER_LEN <? TpSduLength then mret (BUFREQ_E_OVFL, None)
      else
        i ← get_cr Channel OtherEndIdx;
        put_cr Channel OtherEndIdx (mkChRx RBDANCHORCOM_CHANID_LEN (cr_RxBuffer i));;
        mret (BUFREQ_OK, Some RBDANCHORCOM_TP_MAX_RX_BUFFER_LEN)
  end.

Definition rbdAnchorComTp_CopyRxData (id : Z) (info : option PduInfoType) (HasSizePtr : bool) : M W (BufReq_ReturnType * option Z) :=
  f ← lift (rbdAnchorComTp_FindByLLPdu id LowerRxPdu RBDANCHORCOM_TP_NUM_LL_RX);
  match f, info with
  | None, _ => rbdAnchorCom_ReportError id API_TP_RXCOPY ERR_PDU;; mret (BUFREQ_E_NOT_OK, None)
  | Some _, None => rbdAnchorCom_ReportError id API_TP_RXCOPY ERR_NULL;; mret (BUFREQ_E_NOT_OK, None)
  | Some (Channel, OtherEndIdx), Some info =>
      if negb HasSizePtr then rbdAnchorCom_ReportError id API_TP_RXCOPY ERR_NULL;; mret (BUFREQ_E_NOT_OK, None)
      else
        i ← get_cr Channel OtherEndIdx;
        let Offset := cr_RxOffset i in
        let NewLength := uw PduLength_bits (Offset + SduLength info) in
        if RBDANCHORCOM_TP_MAX_RX_BUFFER_LEN <? NewLength then mret (BUFREQ_E_OVFL, None)
        else
          (match SduDataPtr info with
           | None => mret tt
           | Some data =>
               src ← lift (aslice data 0 (SduLength info));
               b ← lift (awrite (cr_RxBuffer i) Offset src);
               put_cr Channel OtherEndIdx (mkChRx (u16 NewLength) b)
           end);;
          mret (BUFREQ_OK, Some (RBDANCHORCOM_TP_MAX_RX_BUFFER_LEN - NewLength))
  end.

(** A complete message is copied to a free buffer of the peer and queued. *)
Definition store_message (temp : bool) (id Channel OtherEndIdx : Z) : M W unit :=
  i ← get_cr Channel OtherEndIdx;
  d ← get_cd temp Channel OtherEndIdx;
  src ← lift (aslice (cr_RxBuffer i) 0 (cr_RxOffset i));
  b ← lift (awrite (cd_RxBuffer d) 0 src);
  put_cd temp Channel OtherEndIdx (mkChRxData b (cr_RxOffset i) id true);;
  r ← rbdAnchorComTp_AddRxQueue Channel OtherEndIdx temp;
  when (bool_decide (r = E_NOT_OK))
    (d ← get_cd temp Channel OtherEndIdx; put_cd temp Channel OtherEndIdx (set_cd_NeedVerify false d)).

Definition rbdAnchorComTp_TpRxIndication (id : Z) (result : Std_ReturnType) : M W unit :=
  f ← lift (rbdAnchorComTp_FindByLLPdu id LowerRxPdu RBDANCHORCOM_TP_NUM_LL_RX);
  match f with
  | None => rbdAnchorCom_ReportError id API_TP_RXINDICATION ERR_PDU
  | Some (Channel, OtherEndIdx) =>
      if negb (bool_decide (result = E_OK)) then mret tt
      else
        i ← get_cr Channel OtherEndIdx;
        when (RBDANCHORCOM_TP_MIN_RX_DATA_LEN <=? cr_RxOffset i)
          (d ← get_cd false Channel OtherEndIdx;
           if negb (cd_NeedVerify d) then store_message false id Channel OtherEndIdx
           else
             t ← get_cd true Channel OtherEndIdx;
             if negb (cd_NeedVerify t) then store_message true id Channel OtherEndIdx else mret tt)
  end.

(** ** Initialisation *)

Definition rbdAnchorComTp_Init : M W unit :=
  mfor (Z.to_nat RBDANCHORCOM_TP_NUM_LL_TX) 0 (λ OtherEndIdx,
    mfor (Z.to_nat RBDANCHORCOM_TP_NUM_MSG) 0 (λ MsgIdx, upd_mi OtherEndIdx MsgIdx (set_mi_BufState RBDANCHORCOM_TPSTATE_IDLE));;
    mfor (Z.to_nat RBDANCHORCOM_TPCH_MAX) 0 (λ Channel, upd_ct Channel OtherEndIdx (set_ct_TxInProgress false));;
    tx_put TxHead set_TxHead OtherEndIdx 0;;
    tx_put TxTail set_TxTail OtherEndIdx 0);;
  mfor (Z.to_nat RBDANCHORCOM_TP_NUM_LL_RX) 0 (λ OtherEndIdx,
    mfor (Z.to_nat RBDANCHORCOM_TPCH_MAX) 0 (λ Channel,
      d ← get_cd false Channel OtherEndIdx; put_cd false Channel OtherEndIdx (set_cd_NeedVerify false d);;
      d ← get_cd true Channel OtherEndIdx; put_cd true Channel OtherEndIdx (set_cd_NeedVerify false d));;
    rx_put RxHead set_RxHead OtherEndIdx 0;;
    rx_put RxTail set_RxTail OtherEndIdx 0).

Definition rbdAnchorCom_Init : M W unit := rbdAnchorComTp_Init.
End AnchorRx.
