(* ===== verification/AnchorFoc.v ===== *)
(** * rbdAnchorComTp: symbolic execution on one message

    The work on the head of a transmit queue touches one message of one peer: its buffer,
    its state, its queue slot and its channel.  [tfoc] is a world seen from there; every
    primitive maps such a world to such a world.  [rfoc] is the same for the head of a
    receive queue. *)

From S2P Require Import Prelude ComStack AnchorTypes AnchorTx AnchorRx.
From stdpp Require Import base list numbers option.

#[local] Open Scope Z_scope.

(** ** Tables with two indices *)

Section tables.
Context {A : Type}.
Implicit Types (l : list (list A)) (i j : Z) (x : A).

Definition ins2 l i j x : list (list A) := <[Z.to_nat i := <[Z.to_nat j := x]> (default [] (l !! Z.to_nat i))]> l.
Definition in2 l i j : Prop := is_Some (aget2 l i j).

Lemma in2_inv l i j : in2 l i j → ∃ r, 0 ≤ i < lenZ l ∧ l !! Z.to_nat i = Some r ∧ 0 ≤ j < lenZ r.
Proof.
  intros [x E]. unfold aget2 in E. destruct (aget l i) as [r|] eqn:Er; [|done]. cbn in E. exists r.
  split; [by eapply aget_Some|]. split; [|by eapply aget_Some]. unfold aget in Er. by case_decide.
Qed.
Lemma aget_lookup {B} (l : list B) i (y : B) : 0 ≤ i → l !! Z.to_nat i = Some y → aget l i = Some y.
Proof. intros. unfold aget. by rewrite decide_True. Qed.

Lemma aset2_ins2 l i j x : in2 l i j → aset2 l i j x = Some (ins2 l i j x).
Proof.
  intros (r & Hi & Er & Hj)%in2_inv. unfold aset2, ins2. rewrite (aget_lookup l i r) by (done || lia). cbn [mbind option_bind].
  rewrite (aset_is_Some r) by lia. cbn [mbind option_bind]. rewrite aset_is_Some by lia. by rewrite Er.
Qed.
Lemma ins2_lookup l i j x : in2 l i j → aget2 (ins2 l i j x) i j = Some x.
Proof.
  intros (r & Hi & Er & Hj)%in2_inv. unfold aget2, ins2. rewrite aget_insert_eq by lia. cbn [mbind option_bind].
  rewrite Er. by apply aget_insert_eq.
Qed.
Lemma ins2_same l i j x : aget2 l i j = Some x → ins2 l i j x = l.
Proof.
  intros E. destruct (in2_inv l i j) as (r & Hi & Er & Hj); [by exists x|]. unfold ins2. rewrite Er. cbn [default].
  unfold aget2 in E. rewrite (aget_lookup l i r) in E by (done || lia). cbn [mbind option_bind] in E. unfold aget in E. case_decide; [|done].
  rewrite (list_insert_id r) by done. by rewrite list_insert_id.
Qed.
Lemma ins2_ins2 l i j x y : in2 l i j → ins2 (ins2 l i j x) i j y = ins2 l i j y.
Proof.
  intros (r & Hi & Er & Hj)%in2_inv. unfold ins2. rewrite list_lookup_insert_eq by (unfold lenZ in *; lia). cbn [default].
  unfold id. by rewrite !list_insert_insert_eq.
Qed.
Lemma ins2_other l i j x i' j' : 0 ≤ i → 0 ≤ j → (i, j) ≠ (i', j') → aget2 (ins2 l i j x) i' j' = aget2 l i' j'.
Proof.
  intros Hi Hj Hne. unfold aget2, ins2. destruct (decide (i = i')) as [->|Hii].
  - destruct (l !! Z.to_nat i') as [r|] eqn:Er; [|rewrite list_insert_ge; [done|by apply lookup_ge_None in Er]].
    pose proof (lookup_lt_Some _ _ _ Er). rewrite aget_insert_eq by (unfold lenZ; lia). rewrite (aget_lookup l i' r) by (done || lia).
    cbn [mbind option_bind default]. apply aget_insert_ne; [done|congruence].
  - by rewrite aget_insert_ne by (done || lia).
Qed.
Lemma ins2_in2 l i j x i' j' : in2 l i' j' → in2 (ins2 l i j x) i' j'.
Proof.
  intros (r & Hi & Er & Hj)%in2_inv. unfold in2, ins2, aget2. destruct (decide (Z.to_nat i = Z.to_nat i')) as [E|E].
  - rewrite E, Er. cbn [default]. unfold id. rewrite aget_insert_eq by lia. cbn [mbind option_bind].
    destruct (aget_is_Some (<[Z.to_nat j:=x]> r) j') as [y ->]; [rewrite lenZ_insert; lia|]. by eexists.
  - rewrite (aget_lookup (<[Z.to_nat i:=_]> l) i' r) by (lia || by rewrite list_lookup_insert_ne). cbn [mbind option_bind].
    destruct (aget_is_Some r j') as [y ->]; [done|]. by eexists.
Qed.
End tables.

Lemma insert_lookup1 {A} (l : list A) i x : is_Some (aget l i) → aget (<[Z.to_nat i := x]> l) i = Some x.
Proof. intros [y E]. apply aget_insert_eq. by eapply aget_Some. Qed.
Lemma aset_insert {A} (l : list A) i x : is_Some (aget l i) → aset l i x = Some (<[Z.to_nat i := x]> l).
Proof. intros [y E]. apply aset_is_Some. by eapply aget_Some. Qed.
Lemma insert_some {A} (l : list A) i j x : is_Some (aget l j) → is_Some (aget (<[Z.to_nat i := x]> l) j).
Proof. intros [y E]. apply aget_Some in E. destruct (aget_is_Some (<[Z.to_nat i:=x]> l) j) as [z ->]; [by rewrite lenZ_insert|]. by eexists. Qed.

(** ** The transmit side *)

Section tfoc.
Context {U : Type} `{HC : Anchor_Cfg} `{HE : Anchor_Env U}.
Abbreviation W := (AnchorWorld U).

Definition tfoc (w : W) (o m s ch : Z) (b : list Z) (mi : rbdAnchorComTp_MsgInfo_st) (q : rbdAnchorComTp_Queue_st) (ct : rbdAnchorComTp_ChTxInfo_st)
    (h t : Z) (u : U) (tr : list Anchor_Event) : W :=
  mkAnchor (mkAnchorTx (ins2 (TxBuffer (an_tx w)) m o (Some b)) (ins2 (MsgTxInfo (an_tx w)) o m mi) (ins2 (TxMsgQueue (an_tx w)) o s q)
              (<[Z.to_nat o := h]> (TxHead (an_tx w))) (<[Z.to_nat o := t]> (TxTail (an_tx w))) (ins2 (ChTxInfo (an_tx w)) ch o ct)) (an_rx w) u tr.

(** The indices are indices of the tables. *)
Record tx_at (w : W) (o m s ch : Z) : Prop := {
  ta_buf : in2 (TxBuffer (an_tx w)) m o;
  ta_mi : in2 (MsgTxInfo (an_tx w)) o m;
  ta_tq : in2 (TxMsgQueue (an_tx w)) o s;
  ta_h : is_Some (aget (TxHead (an_tx w)) o);
  ta_t : is_Some (aget (TxTail (an_tx w)) o);
  ta_ct : in2 (ChTxInfo (an_tx w)) ch o
}.

Lemma tfoc_intro w o m s ch b mi q ct h t :
  aget2 (TxBuffer (an_tx w)) m o = Some (Some b) → aget2 (MsgTxInfo (an_tx w)) o m = Some mi → aget2 (TxMsgQueue (an_tx w)) o s = Some q →
  aget2 (ChTxInfo (an_tx w)) ch o = Some ct → aget (TxHead (an_tx w)) o = Some h → aget (TxTail (an_tx w)) o = Some t →
  w = tfoc w o m s ch b mi q ct h t (an_up w) (an_trace w) ∧ tx_at w o m s ch.
Proof.
  intros Eb Em Eq Ec Eh Et. split; [|by split; eexists]. unfold tfoc. rewrite !ins2_same by done.
  assert (∀ (l : list Z) i x, aget l i = Some x → <[Z.to_nat i := x]> l = l) as Hi.
  { intros l i x E. unfold aget in E. case_decide; [|done]. by apply list_insert_id. }
  rewrite !Hi by done. by destruct w as [[] ? ? ?].
Qed.

Context (w : W) (o m s ch : Z) (b : list Z) (mi : rbdAnchorComTp_MsgInfo_st) (q : rbdAnchorComTp_Queue_st) (ct : rbdAnchorComTp_ChTxInfo_st)
  (h t : Z) (u : U) (tr : list Anchor_Event) (Ha : tx_at w o m s ch).
Abbreviation F := (tfoc w o m s ch b mi q ct h t u tr).

Lemma wp_tf_mi Q : Q mi F → wp (get_mi o m) Q F.
Proof using Ha. intros. unfold get_mi, tx_elem2. wp_steps. eapply wp_lift; [cbn; apply ins2_lookup, Ha|done]. Qed.
Lemma wp_tf_upd_mi f Q : Q tt (tfoc w o m s ch b (f mi) q ct h t u tr) → wp (upd_mi o m f) Q F.
Proof using Ha.
  intros. unfold upd_mi. wp_step. apply wp_tf_mi. unfold tx_put2, upd_tx. wp_steps. eapply wp_lift; [cbn; apply aset2_ins2, ins2_in2, Ha|].
  wp_steps. unfold set_MsgTxInfo. cbn. rewrite ins2_ins2 by apply Ha. done.
Qed.
Lemma wp_tf_tq Q : Q q F → wp (get_tq (o, s)) Q F.
Proof using Ha. intros. unfold get_tq, tx_elem2. wp_steps. eapply wp_lift; [cbn; apply ins2_lookup, Ha|done]. Qed.
Lemma wp_tf_upd_tq f Q : Q tt (tfoc w o m s ch b mi (f q) ct h t u tr) → wp (upd_tq (o, s) f) Q F.
Proof using Ha.
  intros. unfold upd_tq. wp_step. apply wp_tf_tq. unfold tx_put2, upd_tx. wp_steps. eapply wp_lift; [cbn; apply aset2_ins2, ins2_in2, Ha|].
  wp_steps. unfold set_TxMsgQueue. cbn. rewrite ins2_ins2 by apply Ha. done.
Qed.
Lemma wp_tf_ct Q : Q ct F → wp (get_ct ch o) Q F.
Proof using Ha. intros. unfold get_ct, tx_elem2. wp_steps. eapply wp_lift; [cbn; apply ins2_lookup, Ha|done]. Qed.
Lemma wp_tf_upd_ct f Q : Q tt (tfoc w o m s ch b mi q (f ct) h t u tr) → wp (upd_ct ch o f) Q F.
Proof using Ha.
  intros. unfold upd_ct. wp_step. apply wp_tf_ct. unfold tx_put2, upd_tx. wp_steps. eapply wp_lift; [cbn; apply aset2_ins2, ins2_in2, Ha|].
  wp_steps. unfold set_ChTxInfo. cbn. rewrite ins2_ins2 by apply Ha. done.
Qed.
Lemma wp_tf_buf Q : Q b F → wp (get_buf m o) Q F.
Proof using Ha. intros. unfold get_buf, tx_elem2. wp_steps. eapply wp_lift; [cbn; apply ins2_lookup, Ha|]. by eapply wp_lift. Qed.
Lemma wp_tf_put_buf b' Q : Q tt (tfoc w o m s ch b' mi q ct h t u tr) → wp (put_buf m o b') Q F.
Proof using Ha.
  intros. unfold put_buf, tx_put2, upd_tx. wp_steps. eapply wp_lift; [cbn; apply aset2_ins2, ins2_in2, Ha|].
  wp_steps. unfold set_TxBuffer. cbn. rewrite ins2_ins2 by apply Ha. done.
Qed.
Lemma wp_tf_head Q : Q h F → wp (tx_elem TxHead o) Q F.
Proof using Ha. intros. unfold tx_elem. wp_steps. eapply wp_lift; [cbn; apply insert_lookup1, Ha|done]. Qed.
Lemma wp_tf_tail Q : Q t F → wp (tx_elem TxTail o) Q F.
Proof using Ha. intros. unfold tx_elem. wp_steps. eapply wp_lift; [cbn; apply insert_lookup1, Ha|done]. Qed.
Lemma wp_tf_put_head x Q : Q tt (tfoc w o m s ch b mi q ct x t u tr) → wp (tx_put TxHead set_TxHead o x) Q F.
Proof using Ha.
  intros. unfold tx_put, upd_tx. wp_steps. eapply wp_lift; [cbn; apply aset_insert, insert_some, Ha|]. wp_steps. unfold set_TxHead. cbn. by rewrite list_insert_insert_eq.
Qed.
Lemma wp_tf_put_tail x Q : Q tt (tfoc w o m s ch b mi q ct h x u tr) → wp (tx_put TxTail set_TxTail o x) Q F.
Proof using Ha.
  intros. unfold tx_put, upd_tx. wp_steps. eapply wp_lift; [cbn; apply aset_insert, insert_some, Ha|]. wp_steps. unfold set_TxTail. cbn. by rewrite list_insert_insert_eq.
Qed.
Lemma wp_tf_ev e Q : Q tt (tfoc w o m s ch b mi q ct h t u (tr ++ [e])) → wp (an_ev e) Q F.
Proof. intros. unfold an_ev. by wp_steps. Qed.
Lemma wp_tf_call {R} (f : U → R * U) Q :
  (∀ r u', f u = (r, u') → Q r (tfoc w o m s ch b mi q ct h t u' tr)) → wp (an_call f) Q F.
Proof. intros HQ. unfold an_call. wp_step. wp_step. cbn [an_up tfoc]. destruct (f u) as [r u'] eqn:E. wp_steps. by apply HQ. Qed.

Lemma wp_tf_GetHead Q : (if t =? h then Q None F else Q (Some (o, h)) F) → wp (rbdAnchorComTp_GetTxQueueHead o) Q F.
Proof using Ha. intros. unfold rbdAnchorComTp_GetTxQueueHead. wp_step. apply wp_tf_tail. wp_step. apply wp_tf_head. by destruct (t =? h). Qed.
Lemma wp_tf_Remove Q :
  (if t =? h then Q E_NOT_OK F else Q E_OK (tfoc w o m s ch b mi q ct ((h + 1) mod RBDANCHORCOM_TP_QUEUE_SIZE) t u tr)) → wp (rbdAnchorComTp_RemoveTxQueueHead o) Q F.
Proof using Ha.
  intros. unfold rbdAnchorComTp_RemoveTxQueueHead. wp_step. apply wp_tf_tail. wp_step. apply wp_tf_head. destruct (t =? h); [done|].
  wp_step. apply wp_tf_put_head. by wp_steps.
Qed.
End tfoc.

Ltac tf_prim :=
  match goal with
  | |- wp (get_mi _ _) _ _ => apply wp_tf_mi; [assumption|]
  | |- wp (upd_mi _ _ _) _ _ => apply wp_tf_upd_mi; [assumption|]
  | |- wp (get_tq _) _ _ => apply wp_tf_tq; [assumption|]
  | |- wp (upd_tq _ _) _ _ => apply wp_tf_upd_tq; [assumption|]
  | |- wp (tx_failed _ _) _ _ => apply wp_tf_upd_tq; [assumption|]
  | |- wp (get_ct _ _) _ _ => apply wp_tf_ct; [assumption|]
  | |- wp (upd_ct _ _ _) _ _ => apply wp_tf_upd_ct; [assumption|]
  | |- wp (get_buf _ _) _ _ => apply wp_tf_buf; [assumption|]
  | |- wp (put_buf _ _ _) _ _ => apply wp_tf_put_buf; [assumption|]
  | |- wp (rbdAnchorComTp_GetTxQueueHead _) _ _ => apply wp_tf_GetHead; [assumption|]
  | |- wp (rbdAnchorComTp_RemoveTxQueueHead _) _ _ => apply wp_tf_Remove; [assumption|]
  | |- wp (an_ev _) _ _ => apply wp_tf_ev
  | |- wp (rbdAnchorCom_ReportError _ _ _) _ _ => apply wp_tf_ev
  | |- wp (mbind _ _) _ _ => apply wp_bind
  | |- wp (mret _) _ _ => apply wp_ret
  | |- wp (gets _) _ _ => apply wp_gets
  end; cbv beta.
Ltac tf_steps := repeat tf_prim.

(** ** The receive side *)

Section rfoc.
Context {U : Type} `{HC : Anchor_Cfg} `{HE : Anchor_Env U}.
Abbreviation W := (AnchorWorld U).

Definition rfoc (w : W) (temp : bool) (o s ch : Z) (q : rbdAnchorComTp_RxQueue_st) (cd : rbdAnchorComTp_ChRxDataInfo_st) (cr : rbdAnchorComTp_ChRxInfo_st)
    (h t : Z) (u : U) (tr : list Anchor_Event) : W :=
  mkAnchor (an_tx w) (mkAnchorRx (ins2 (RxMsgQueue (an_rx w)) o s q) (<[Z.to_nat o := h]> (RxHead (an_rx w))) (<[Z.to_nat o := t]> (RxTail (an_rx w)))
    (ins2 (ChRxInfo (an_rx w)) ch o cr)
    (if temp then ChRxBuff (an_rx w) else ins2 (ChRxBuff (an_rx w)) ch o cd)
    (if temp then ins2 (ChRxTemp (an_rx w)) ch o cd else ChRxTemp (an_rx w))) u tr.

Definition cd_table (temp : bool) (w : W) : list (list rbdAnchorComTp_ChRxDataInfo_st) := if temp then ChRxTemp (an_rx w) else ChRxBuff (an_rx w).

Record rx_at (w : W) (temp : bool) (o s ch : Z) : Prop := {
  ra_rq : in2 (RxMsgQueue (an_rx w)) o s;
  ra_h : is_Some (aget (RxHead (an_rx w)) o);
  ra_t : is_Some (aget (RxTail (an_rx w)) o);
  ra_cr : in2 (ChRxInfo (an_rx w)) ch o;
  ra_cd : in2 (cd_table temp w) ch o
}.

Lemma rfoc_intro w temp o s ch q cd cr h t :
  aget2 (RxMsgQueue (an_rx w)) o s = Some q → aget2 (cd_table temp w) ch o = Some cd → aget2 (ChRxInfo (an_rx w)) ch o = Some cr →
  aget (RxHead (an_rx w)) o = Some h → aget (RxTail (an_rx w)) o = Some t →
  w = rfoc w temp o s ch q cd cr h t (an_up w) (an_trace w) ∧ rx_at w temp o s ch.
Proof.
  intros Eq Ed Ec Eh Et. split; [|by split; eexists]. unfold rfoc, cd_table in *. rewrite (ins2_same (RxMsgQueue _)), (ins2_same (ChRxInfo _)) by done.
  assert (∀ (l : list Z) i x, aget l i = Some x → <[Z.to_nat i := x]> l = l) as Hi.
  { intros l i x E. unfold aget in E. case_decide; [|done]. by apply list_insert_id. }
  rewrite !Hi by done. destruct temp; rewrite ins2_same by done; by destruct w as [? [] ? ?].
Qed.

Context (w : W) (temp : bool) (o s ch : Z) (q : rbdAnchorComTp_RxQueue_st) (cd : rbdAnchorComTp_ChRxDataInfo_st) (cr : rbdAnchorComTp_ChRxInfo_st)
  (h t : Z) (u : U) (tr : list Anchor_Event) (Ha : rx_at w temp o s ch).
Abbreviation F := (rfoc w temp o s ch q cd cr h t u tr).

Lemma wp_rf_rq Q : Q q F → wp (get_rq (o, s)) Q F.
Proof using Ha. intros. unfold get_rq, rx_elem2. wp_steps. eapply wp_lift; [cbn; apply ins2_lookup, Ha|done]. Qed.
Lemma wp_rf_upd_rq f Q : Q tt (rfoc w temp o s ch (f q) cd cr h t u tr) → wp (upd_rq (o, s) f) Q F.
Proof using Ha.
  intros. unfold upd_rq. wp_step. apply wp_rf_rq. unfold rx_put2, upd_rx. wp_steps. eapply wp_lift; [cbn; apply aset2_ins2, ins2_in2, Ha|].
  wp_steps. unfold set_RxMsgQueue. cbn. rewrite ins2_ins2 by apply Ha. done.
Qed.
Lemma wp_rf_cr Q : Q cr F → wp (get_cr ch o) Q F.
Proof using Ha. intros. unfold get_cr, rx_elem2. wp_steps. eapply wp_lift; [cbn; apply ins2_lookup, Ha|done]. Qed.
Lemma wp_rf_put_cr x Q : Q tt (rfoc w temp o s ch q cd x h t u tr) → wp (put_cr ch o x) Q F.
Proof using Ha.
  intros. unfold put_cr, rx_put2, upd_rx. wp_steps. eapply wp_lift; [cbn; apply aset2_ins2, ins2_in2, Ha|].
  wp_steps. unfold set_ChRxInfo. cbn. rewrite ins2_ins2 by apply Ha. done.
Qed.
Lemma wp_rf_cd Q : Q cd F → wp (get_cd temp ch o) Q F.
Proof using Ha.
  intros. pose proof (ra_cd _ _ _ _ _ Ha) as Hd. unfold get_cd, rx_elem2, cd_table in *. wp_steps. destruct temp; (eapply wp_lift; [cbn; by apply ins2_lookup|done]).
Qed.
Lemma wp_rf_put_cd x Q : Q tt (rfoc w temp o s ch q x cr h t u tr) → wp (put_cd temp ch o x) Q F.
Proof using Ha.
  intros HQ. pose proof (ra_cd _ _ _ _ _ Ha) as Hd. unfold put_cd, rx_put2, upd_rx, cd_table in *.
  destruct temp; wp_steps; (eapply wp_lift; [cbn; by apply aset2_ins2, ins2_in2|]); wp_steps; unfold set_ChRxTemp, set_ChRxBuff, rfoc in *; cbn in *; by rewrite ins2_ins2 by done.
Qed.
Lemma wp_rf_tail Q : Q t F → wp (rx_elem RxTail o) Q F.
Proof using Ha. intros. unfold rx_elem. wp_steps. eapply wp_lift; [cbn; apply insert_lookup1, Ha|done]. Qed.
Lemma wp_rf_head Q : Q h F → wp (rx_elem RxHead o) Q F.
Proof using Ha. intros. unfold rx_elem. wp_steps. eapply wp_lift; [cbn; apply insert_lookup1, Ha|done]. Qed.
Lemma wp_rf_put_head x Q : Q tt (rfoc w temp o s ch q cd cr x t u tr) → wp (rx_put RxHead set_RxHead o x) Q F.
Proof using Ha.
  intros. unfold rx_put, upd_rx. wp_steps. eapply wp_lift; [cbn; apply aset_insert, insert_some, Ha|]. wp_steps. unfold set_RxHead. cbn. by rewrite list_insert_insert_eq.
Qed.
Lemma wp_rf_put_tail x Q : Q tt (rfoc w temp o s ch q cd cr h x u tr) → wp (rx_put RxTail set_RxTail o x) Q F.
Proof using Ha.
  intros. unfold rx_put, upd_rx. wp_steps. eapply wp_lift; [cbn; apply aset_insert, insert_some, Ha|]. wp_steps. unfold set_RxTail. cbn. by rewrite list_insert_insert_eq.
Qed.
Lemma wp_rf_ev e Q : Q tt (rfoc w temp o s ch q cd cr h t u (tr ++ [e])) → wp (an_ev e) Q F.
Proof. intros. unfold an_ev. by wp_steps. Qed.
Lemma wp_rf_call {R} (f : U → R * U) Q :
  (∀ r u', f u = (r, u') → Q r (rfoc w temp o s ch q cd cr h t u' tr)) → wp (an_call f) Q F.
Proof. intros HQ. unfold an_call. wp_step. wp_step. cbn [an_up rfoc]. destruct (f u) as [r u'] eqn:E. wp_steps. by apply HQ. Qed.
Lemma wp_rf_GetHead Q : (if t =? h then Q None F else Q (Some (o, h)) F) → wp (rbdAnchorComTp_GetRxQueueHead o) Q F.
Proof using Ha. intros. unfold rbdAnchorComTp_GetRxQueueHead. wp_step. apply wp_rf_tail. wp_step. apply wp_rf_head. by destruct (t =? h). Qed.

(** The buffer a slot of this peer and channel points to. *)
Definition points_here (q : rbdAnchorComTp_RxQueue_st) : Prop := rq_IsTempBuf q = temp ∧ rq_Channel q = ch ∧ rq_AnchorId q = o.
Lemma wp_rf_buffer q0 Q : points_here q0 → Q (cd_RxBuffer cd) F → wp (rq_buffer q0) Q F.
Proof using Ha. intros (E1 & E2 & E3) HQ. unfold rq_buffer. wp_step. rewrite E1, E2, E3. apply wp_rf_cd. by wp_steps. Qed.
Lemma wp_rf_put_buffer q0 b Q : points_here q0 → Q tt (rfoc w temp o s ch q (set_cd_RxBuffer b cd) cr h t u tr) → wp (put_rq_buffer q0 b) Q F.
Proof using Ha. intros (E1 & E2 & E3) HQ. unfold put_rq_buffer. wp_step. rewrite E1, E2, E3. apply wp_rf_cd. by apply wp_rf_put_cd. Qed.
End rfoc.

Ltac rf_prim :=
  match goal with
  | |- wp (get_rq _) _ _ => apply wp_rf_rq; [assumption|]
  | |- wp (upd_rq _ _) _ _ => apply wp_rf_upd_rq; [assumption|]
  | |- wp (rx_failed _ _) _ _ => apply wp_rf_upd_rq; [assumption|]
  | |- wp (get_cr _ _) _ _ => apply wp_rf_cr; [assumption|]
  | |- wp (put_cr _ _ _) _ _ => apply wp_rf_put_cr; [assumption|]
  | |- wp (get_cd _ _ _) _ _ => apply wp_rf_cd; [assumption|]
  | |- wp (put_cd _ _ _ _) _ _ => apply wp_rf_put_cd; [assumption|]
  | |- wp (rx_elem RxTail _) _ _ => apply wp_rf_tail; [assumption|]
  | |- wp (rx_elem RxHead _) _ _ => apply wp_rf_head; [assumption|]
  | |- wp (rx_put RxHead _ _ _) _ _ => apply wp_rf_put_head; [assumption|]
  | |- wp (rx_put RxTail _ _ _) _ _ => apply wp_rf_put_tail; [assumption|]
  | |- wp (rbdAnchorComTp_GetRxQueueHead _) _ _ => apply wp_rf_GetHead; [assumption|]
  | |- wp (rq_buffer _) _ _ => apply wp_rf_buffer; [assumption|done|]
  | |- wp (put_rq_buffer _ _) _ _ => apply wp_rf_put_buffer; [assumption|done|]
  | |- wp (an_ev _) _ _ => apply wp_rf_ev
  | |- wp (rbdAnchorCom_ReportError _ _ _) _ _ => apply wp_rf_ev
  | |- wp (mbind _ _) _ _ => apply wp_bind
  | |- wp (mret _) _ _ => apply wp_ret
  | |- wp (gets _) _ _ => apply wp_gets
  end; cbv beta.
Ltac rf_steps := repeat rf_prim.
