(* ===== verification/AnchorSend.v ===== *)
(** * rbdAnchorCom: from the request to the wire

    The head of a transmit queue is formatted, encrypted, authenticated and requested in one
    run of the cyclic function, and the router then reads the bytes of [anchor_wire]. *)

From S2P Require Import Prelude ComStack AnchorTypes AnchorTx AnchorRx AnchorFoc.
From stdpp Require Import base list numbers option.

#[local] Open Scope Z_scope.

(** The field lengths the comments of the code give, and counters wide enough for them. *)
Class Anchor_CfgOk `{Anchor_Cfg} := {
  al_chanid : RBDANCHORCOM_CHANID_LEN = 1;
  al_prefix : RBDANCHORCOM_PREFIX_LEN = 2;
  al_header : RBDANCHORCOM_HEADER_LEN = 3;
  al_append : RBDANCHORCOM_APPEND_LEN = 4;
  al_cmac : RBDANCHORCOM_CMAC_LEN = 3;
  al_fresh : RBDANCHORCOM_FRESH_LEN = 8;
  al_aes : RBDANCHORCOM_AES_KEY_LEN = 16;
  al_msglen : 16 ≤ MsgLength_bits;
  al_datalen : 16 ≤ DataLen_bits;
  al_pdulen : 16 ≤ PduLength_bits;
  al_retry : 0 < RBDANCHORCOM_MAX_RETRY_COUNT
}.

(** The freshness manager of the sender, when it has a value. *)
Class AnchorFresh (U : Type) `{Anchor_Cfg} `{Anchor_Env U} := {
  sd_fresh : list Z; sd_trunc : Z;
  sd_fresh_len : lenZ sd_fresh = 8;
  sd_GetTx u : ∃ u', Fresh_GetTx RBDANCHORCOM_FRESH_LEN u = (E_OK, sd_fresh, sd_trunc, u') ∧ NvM_AnchorCanIdx u' = NvM_AnchorCanIdx u ∧ rbdUwbInfo_GetCANIdx u' = rbdUwbInfo_GetCANIdx u
}.

(** The cryptography of the sender, when it works: cipher and code. *)
Class AnchorSender (U : Type) `{AnchorFresh U} := {
  sd_enc : list Z → list Z; sd_mac : list Z → list Z;
  sd_enc_len p : lenZ (sd_enc p) = lenZ p;
  sd_mac_len d : 3 ≤ lenZ (sd_mac d);
  sd_Encrypt p u : ∃ u', Csm_Encrypt p sd_fresh u = (RBDANCHORCOM_OK, sd_enc p, u');
  sd_Authenticate d u : ∃ u', Csm_Authenticate d u = (RBDANCHORCOM_OK, sd_mac d, u')
}.

(** ** List arithmetic of the buffers *)

Lemma split_at {A} (l : list A) n : 0 ≤ n ≤ lenZ l → ∃ l1 l2, l = l1 ++ l2 ∧ lenZ l1 = n.
Proof.
  intros Hn. exists (take (Z.to_nat n) l), (drop (Z.to_nat n) l). split; [by rewrite take_drop|]. unfold lenZ in *. rewrite length_take. lia.
Qed.

(** ** The format *)

(** The number of pad bytes. *)
Definition pad_len (n : Z) : Z := if n mod 16 =? 0 then 0 else 16 - n mod 16.
Lemma pad_len_range n : 0 ≤ pad_len n < 16.
Proof. unfold pad_len. pose proof (Z.mod_pos_bound n 16 ltac:(lia)). case_match; lia. Qed.

(** The information byte of the header, and the payload as it is encrypted. *)
Definition info_byte (enc : bool) (old : Z) (n : Z) : Z := if enc then (if pad_len n =? 0 then 0 else Z.lor 128 (pad_len n)) else old.
Definition padded (enc : bool) (p : list Z) : list Z := if enc then p ++ replicate (Z.to_nat (pad_len (lenZ p))) 0 else p.

Lemma padded_len enc p : lenZ (padded enc p) = lenZ p + (if enc then pad_len (lenZ p) else 0).
Proof. unfold padded. destruct enc; [|lia]. rewrite lenZ_app, lenZ_replicate by apply pad_len_range. done. Qed.

Section send.
Context {U : Type} `{HC : Anchor_Cfg} `{HE : Anchor_Env U} {HL : Anchor_CfgOk} {HF : AnchorFresh U} {HS : AnchorSender U}.
Abbreviation W := (AnchorWorld U).

Definition sd_body (enc : bool) (p : list Z) : list Z := if enc then sd_enc (padded true p) else p.

(** What is authenticated, and what goes over the wire. *)
Definition auth_data (chan pdu info : Z) (body : list Z) : list Z := chan :: pdu :: info :: body ++ sd_fresh.
Definition anchor_wire (chan pdu info : Z) (body : list Z) : list Z := pdu :: info :: body ++ sd_trunc :: take 3 (sd_mac (auth_data chan pdu info body)).

Context (w : W) (o m ch : Z) (c : rbdAnchorComTp_Cfg_st) (Hm : aget MsgCfg m = Some c) (Hu8 : 0 ≤ m < 256).

Lemma pad_for_crypto_spec x0 x1 x2 p rest :
  lenZ p < 65000 → pad_len (lenZ p) ≤ lenZ rest →
  ∃ rest', pad_for_crypto (x0 :: x1 :: x2 :: p ++ rest) (lenZ p) = Some (x0 :: x1 :: info_byte true x2 (lenZ p) :: padded true p ++ rest', pad_len (lenZ p)) ∧
    lenZ rest' = lenZ rest - pad_len (lenZ p).
Proof using HL.
  intros Hl Hr. pose proof (lenZ_nonneg p). unfold pad_for_crypto, padded, info_byte, pad_len in *. rewrite al_aes, al_header.
  change (aset (x0 :: x1 :: x2 :: p ++ rest) 2 128) with (aset ([x0; x1; x2] ++ p ++ rest) 2 128). rewrite aset_is_Some by (rewrite lenZ_app; unfold lenZ; cbn; lia).
  change (<[Z.to_nat 2:=128]> ([x0; x1; x2] ++ p ++ rest)) with (x0 :: x1 :: 128 :: p ++ rest). cbn [mbind option_bind].
  pose proof (Z.mod_pos_bound (lenZ p) 16 ltac:(lia)). rewrite (u8_small (_ mod 16)) by lia. destruct (Z.eqb_spec (lenZ p mod 16) 0) as [E|E]; cbn [negb].
  - exists rest. rewrite aset_is_Some by (unfold lenZ; cbn; lia). change (<[Z.to_nat 2:=0]> (x0 :: x1 :: 128 :: p ++ rest)) with (x0 :: x1 :: 0 :: p ++ rest).
    cbn [mbind option_bind Z.to_nat replicate]. by rewrite app_nil_r, Z.sub_0_r.
  - rewrite (u8_small (16 - _)) by lia. set (n := 16 - lenZ p mod 16) in *. destruct (split_at rest n ltac:(lia)) as (z & rest' & -> & Hz).
    change (x0 :: x1 :: 128 :: p ++ z ++ rest') with ((x0 :: x1 :: 128 :: p) ++ z ++ rest').
    rewrite (awrite_mid (x0 :: x1 :: 128 :: p) z rest') by (rewrite ?lenZ_replicate; rewrite ?lenZ_cons; lia). cbn [mbind option_bind].
    change (aget ((x0 :: x1 :: 128 :: p) ++ replicate (Z.to_nat n) 0 ++ rest') 2) with (Some 128). cbn [mbind option_bind].
    rewrite aset_is_Some by (rewrite lenZ_app; unfold lenZ; cbn; lia). cbn [mbind option_bind]. exists rest'. rewrite lenZ_app, Hz. split; [|lia].
    rewrite land_15, Z.mod_small by lia. rewrite (proj2 (Z.eqb_neq n 0)) by lia.
    change (<[Z.to_nat 2:=?x]> ((x0 :: x1 :: 128 :: p) ++ ?l)) with (x0 :: x1 :: x :: p ++ l). by rewrite <-app_assoc.
Qed.

Context (s h t : Z) (Ha : tx_at w o m s ch).
Abbreviation T := (tfoc w o m s ch).

(** A slot of the queue that holds this message. *)
Definition slot (st : QueueState_et) (err tr : Z) (cm : list Z) : rbdAnchorComTp_Queue_st := mkTxQ m o ch st err tr cm.

Lemma mlen_small z : 0 ≤ z < 65536 → mlen z = z.
Proof using HL. intros. apply uw_small. pose proof al_msglen. assert (2 ^ 16 ≤ 2 ^ MsgLength_bits) by (apply Z.pow_le_mono_r; lia). lia. Qed.

(** Formatting. *)
Lemma format_wp x0 x1 x2 p rest bst err tr cm ct u tra :
  lenZ p < 65000 → 23 ≤ lenZ rest →
  let chan := rbdAnchorComTp_GetTxChanId u c o in
  let enc := cf_EncDecFlag c in
  wp (rbdAnchorComTp_TxFormatForCrypto (Some (o, s)))
    (λ r w', r = RBDANCHORCOM_OK ∧ ∃ u' rest', lenZ (padded enc p ++ sd_fresh ++ rest') = lenZ (p ++ rest) ∧ w' =
       T (chan :: cf_PduId c :: info_byte enc x2 (lenZ p) :: padded enc p ++ sd_fresh ++ rest') (mkMsgInfo (lenZ (padded enc p)) bst)
         (slot (if enc then RBDANCHORCOM_TX_ENC_READY else RBDANCHORCOM_TX_CMAC_READY) err sd_trunc cm) ct h t u' tra)
    (T (x0 :: x1 :: x2 :: p ++ rest) (mkMsgInfo (lenZ p) bst) (slot RBDANCHORCOM_TX_QUEUED err tr cm) ct h t u tra).
Proof using HL HF Hm Ha.
  intros Hp Hr chan enc. pose proof (lenZ_nonneg p). pose proof (pad_len_range (lenZ p)). unfold rbdAnchorComTp_TxFormatForCrypto. wp_step. apply wp_tf_call. intros [[r f] tf] u1 E1.
  destruct (sd_GetTx u) as (u1' & E1' & Hc1 & Hc2). rewrite E1 in E1'. injection E1' as -> -> -> ->. rewrite bool_decide_true by done. tf_steps. cbn [tq_MsgIdx tq_AnchorId slot].
  tf_steps. cbn [mi_Length]. rewrite (u16_small (lenZ p)) by lia. eapply wp_lift; [exact Hm|]. tf_steps. cbn [an_up tfoc].
  replace (rbdAnchorComTp_GetTxChanId u1' c o) with chan by (unfold chan, rbdAnchorComTp_GetTxChanId; by rewrite Hc1, Hc2).
  eapply wp_lift; [apply aset_is_Some; rewrite lenZ_cons; pose proof (lenZ_nonneg (x1 :: x2 :: p ++ rest)); lia|]. tf_steps.
  change (<[Z.to_nat 0:=chan]> (x0 :: x1 :: x2 :: p ++ rest)) with (chan :: x1 :: x2 :: p ++ rest).
  eapply wp_lift; [apply aset_is_Some; rewrite !lenZ_cons; pose proof (lenZ_nonneg (p ++ rest)); lia|]. tf_steps.
  change (<[Z.to_nat 1:=cf_PduId c]> (chan :: x1 :: x2 :: p ++ rest)) with (chan :: cf_PduId c :: x2 :: p ++ rest).
  assert (∃ rest1 n, (if enc then pad_for_crypto (chan :: cf_PduId c :: x2 :: p ++ rest) (lenZ p) else Some (chan :: cf_PduId c :: x2 :: p ++ rest, 0)) =
    Some (chan :: cf_PduId c :: info_byte enc x2 (lenZ p) :: padded enc p ++ rest1, n) ∧ n = (if enc then pad_len (lenZ p) else 0) ∧ 8 ≤ lenZ rest1 ∧ lenZ rest1 = lenZ rest - n) as (rest1 & n & Epad & Hn & Hr1 & Hrl).
  { destruct enc; [|exists rest, 0; split; [done|]; split; [done|split; lia]]. destruct (pad_for_crypto_spec chan (cf_PduId c) x2 p rest) as (rest1 & E & Hl); [lia..|].
    exists rest1, (pad_len (lenZ p)). split; [done|]. split; [done|split; lia]. }
  eapply (wp_mono _ (λ r x, r = (chan :: cf_PduId c :: info_byte enc x2 (lenZ p) :: padded enc p ++ rest1, n) ∧ x = T (x0 :: x1 :: x2 :: p ++ rest) (mkMsgInfo (lenZ p) bst) (slot RBDANCHORCOM_TX_QUEUED err tr cm) ct h t u1' tra)).
  { fold enc. destruct enc; [eapply wp_lift; [exact Epad|]; done|]. apply (inj Some) in Epad. apply wp_ret. by split. }
  intros r x [-> ->]. cbv beta iota. pose proof (padded_len enc p) as Hpl. assert (0 ≤ n < 16) as Hn16 by (rewrite Hn; case_match; lia). rewrite <-Hn in Hpl.
  rewrite (u16_small (lenZ p + n)) by lia. rewrite <-Hpl, al_header. tf_steps.
  apply (wp_mono _ (λ _ x, x = T (x0 :: x1 :: x2 :: p ++ rest) (mkMsgInfo (lenZ (padded enc p)) bst) (slot RBDANCHORCOM_TX_QUEUED err tr cm) ct h t u1' tra)).
  { destruct (Z.eqb_spec n 0) as [E0|E0]; cbn [negb when]; [apply wp_ret; by rewrite Hpl, E0, Z.add_0_r|].
    tf_steps. unfold set_mi_Length. cbn [mi_Length mi_BufState]. rewrite mlen_small by lia. by rewrite Hpl. }
  intros [] x ->. tf_steps. destruct (split_at rest1 8 ltac:(lia)) as (z & rest2 & -> & Hz).
  eapply wp_lift; [apply (awrite_mid (chan :: cf_PduId c :: info_byte enc x2 (lenZ p) :: padded enc p) z rest2); [rewrite !lenZ_cons; lia|rewrite sd_fresh_len; lia]|].
  tf_steps. split; [done|]. exists u1', rest2. split; [rewrite !lenZ_app, sd_fresh_len in *; lia|]. unfold set_tq_QueueState, set_tq_TruncFresh, slot. cbn [tq_MsgIdx tq_AnchorId tq_Channel tq_ErrCounter tq_CmacValue tq_TruncFresh]. done.
Qed.

Lemma encrypt_wp a0 a1 a2 pp rest bst q ct u tra :
  tq_MsgIdx q = m → tq_AnchorId q = o → lenZ pp < 65536 →
  wp (rbdAnchorComTp_TxStartEncryption (Some (o, s)))
    (λ r w', r = RBDANCHORCOM_OK ∧ ∃ u', w' = T (a0 :: a1 :: a2 :: sd_enc pp ++ sd_fresh ++ rest) (mkMsgInfo (lenZ pp) bst) q ct h t u' tra)
    (T (a0 :: a1 :: a2 :: pp ++ sd_fresh ++ rest) (mkMsgInfo (lenZ pp) bst) q ct h t u tra).
Proof using HL HS Ha.
  intros Em Eo Hp. pose proof (lenZ_nonneg pp). unfold rbdAnchorComTp_TxStartEncryption. tf_steps. rewrite Em, Eo. tf_steps. cbn [mi_Length]. rewrite (u16_small (lenZ pp)) by lia.
  rewrite al_header, al_fresh. eapply wp_lift; [apply (aslice_app [a0; a1; a2] pp (sd_fresh ++ rest)); done|]. tf_steps.
  eapply wp_lift; [apply (aslice_app (a0 :: a1 :: a2 :: pp) sd_fresh rest); [rewrite !lenZ_cons; lia|by rewrite sd_fresh_len]|]. tf_steps.
  apply wp_tf_call. intros [r e] u1 E1. destruct (sd_Encrypt pp u) as (u1' & E1'). rewrite E1 in E1'. injection E1' as -> -> ->. cbv beta iota. tf_steps.
  eapply wp_lift; [apply (awrite_mid [a0; a1; a2] pp (sd_fresh ++ rest)); [done|apply sd_enc_len]|]. tf_steps. split; [done|]. by exists u1'.
Qed.

(** The first part of the cyclic work: format and encrypt. *)
Lemma part1_wp x0 x1 x2 p rest bst err tr cm ct u tra :
  lenZ p < 65000 → 23 ≤ lenZ rest →
  let chan := rbdAnchorComTp_GetTxChanId u c o in
  let enc := cf_EncDecFlag c in
  wp (rbdAnchorComTp_TxPart1 (Some (o, s)))
    (λ _ w', ∃ u' rest', lenZ (sd_body enc p ++ sd_fresh ++ rest') = lenZ (p ++ rest) ∧ w' =
       T (chan :: cf_PduId c :: info_byte enc x2 (lenZ p) :: sd_body enc p ++ sd_fresh ++ rest') (mkMsgInfo (lenZ (sd_body enc p)) bst)
         (slot RBDANCHORCOM_TX_CMAC_READY err sd_trunc cm) ct h t u' tra)
    (T (x0 :: x1 :: x2 :: p ++ rest) (mkMsgInfo (lenZ p) bst) (slot RBDANCHORCOM_TX_QUEUED err tr cm) ct h t u tra).
Proof using HL HS Hm Ha.
  intros Hp Hr chan enc. unfold rbdAnchorComTp_TxPart1. tf_steps. cbn [tq_QueueState slot]. rewrite bool_decide_true by done. tf_steps.
  eapply wp_mono; [by apply format_wp|]. cbv zeta. fold chan enc. intros r x (-> & u1 & rest1 & Hl & ->). rewrite bool_decide_true by done. cbn [negb when]. tf_steps. cbn [tq_QueueState slot].
  destruct enc eqn:Ee; [|rewrite bool_decide_false by done; tf_steps; exists u1, rest1; done].
  rewrite bool_decide_true by done. pose proof (padded_len true p) as Hpl. cbv iota in Hpl. pose proof (pad_len_range (lenZ p)). tf_steps.
  eapply wp_mono; [apply encrypt_wp; [done|done|lia]|]. intros r x (-> & u2 & ->). cbn [tx_react]. tf_steps. exists u2, rest1. unfold sd_body. rewrite sd_enc_len. split; [|done]. rewrite <-Hl, !lenZ_app, sd_enc_len. done.
Qed.

(** The second part: authenticate. *)
Lemma part2_wp a0 a1 a2 body rest bst err cm ct u tra :
  lenZ body < 65100 →
  let mac := sd_mac (auth_data a0 a1 a2 body) in
  wp (rbdAnchorComTp_TxPart2 (Some (o, s)))
    (λ _ w', ∃ u' rest', lenZ ((sd_trunc :: take 3 mac) ++ rest') = lenZ (sd_fresh ++ rest) ∧ w' =
       T (a0 :: a1 :: a2 :: body ++ (sd_trunc :: take 3 mac) ++ rest') (mkMsgInfo (lenZ body + 6) bst) (slot RBDANCHORCOM_TX_TRANS_READY err sd_trunc mac) ct h t u' tra)
    (T (a0 :: a1 :: a2 :: body ++ sd_fresh ++ rest) (mkMsgInfo (lenZ body) bst) (slot RBDANCHORCOM_TX_CMAC_READY err sd_trunc cm) ct h t u tra).
Proof using HL HS Ha.
  intros Hb mac. pose proof (lenZ_nonneg body). pose proof (sd_mac_len (auth_data a0 a1 a2 body)) as Hmac. fold mac in Hmac. unfold rbdAnchorComTp_TxPart2. tf_steps. cbn [tq_QueueState slot]. rewrite bool_decide_true by done. tf_steps.
  unfold rbdAnchorComTp_TxStartCmac. tf_steps. cbn [tq_MsgIdx tq_AnchorId slot mi_Length]. tf_steps. cbn [mi_Length]. rewrite al_header, al_fresh, u16_small by lia.
  assert (aslice (a0 :: a1 :: a2 :: body ++ sd_fresh ++ rest) 0 (lenZ body + 3 + 8) = Some (auth_data a0 a1 a2 body)) as Es.
  { unfold auth_data. replace (a0 :: a1 :: a2 :: body ++ sd_fresh ++ rest) with ([] ++ (a0 :: a1 :: a2 :: body ++ sd_fresh) ++ rest) by (cbn; by rewrite <-app_assoc).
    apply aslice_app; [done|]. rewrite !lenZ_cons, lenZ_app, sd_fresh_len. lia. }
  eapply wp_lift; [exact Es|]. tf_steps. apply wp_tf_call. intros [r mc] u1 E1. destruct (sd_Authenticate (auth_data a0 a1 a2 body) u) as (u1' & E1'). rewrite E1 in E1'. injection E1' as -> -> ->.
  cbv beta iota. tf_steps. cbn [tx_react]. unfold append_cmac. tf_steps. unfold set_tq_CmacValue, slot. cbn [tq_MsgIdx tq_AnchorId tq_Channel tq_QueueState tq_ErrCounter tq_TruncFresh tq_CmacValue].
  tf_steps. cbn [mi_Length]. rewrite (u16_small (lenZ body + _)) by (rewrite ?al_header; lia). rewrite al_header, al_cmac.
  destruct (split_at sd_fresh 1 ltac:(rewrite sd_fresh_len; lia)) as (f1 & f2 & Ef & Hf1). destruct f1 as [|f0 f1]; [done|]. rewrite lenZ_cons in Hf1. pose proof (lenZ_nonneg f1). destruct f1; [|rewrite lenZ_cons in Hf1; pose proof (lenZ_nonneg f1); lia].
  assert (lenZ f2 = 7) as Hf2 by (pose proof sd_fresh_len as Hl; rewrite Ef, lenZ_app in Hl; cbn in Hl; unfold lenZ in *; cbn in *; lia). rewrite Ef.
  eapply wp_lift; [apply aset_is_Some; rewrite !lenZ_cons, !lenZ_app, lenZ_cons; pose proof (lenZ_nonneg (@nil Z ++ f2 ++ rest)); pose proof (lenZ_nonneg f2); pose proof (lenZ_nonneg rest); cbn; lia|].
  replace (<[Z.to_nat (lenZ body + 3):=sd_trunc]> (a0 :: a1 :: a2 :: body ++ [f0] ++ f2 ++ rest)) with ((a0 :: a1 :: a2 :: body ++ [sd_trunc]) ++ f2 ++ rest).
  2: { change (a0 :: a1 :: a2 :: body ++ [f0] ++ f2 ++ rest) with ((a0 :: a1 :: a2 :: body) ++ f0 :: f2 ++ rest).
       replace (Z.to_nat (lenZ body + 3)) with (length (a0 :: a1 :: a2 :: body) + 0)%nat by (cbn; unfold lenZ; lia). rewrite insert_app_r. cbn. by rewrite <-app_assoc. }
  tf_steps. fold mac. eapply wp_lift; [apply aslice_is_Some; lia|]. tf_steps. rewrite drop_0. change (Z.to_nat 3) with 3%nat. destruct (split_at f2 3 ltac:(lia)) as (g1 & g2 & -> & Hg1).
  rewrite <-(app_assoc g1). eapply wp_lift; [apply awrite_mid; [rewrite !lenZ_cons, lenZ_app; cbn; unfold lenZ; cbn; lia | rewrite Hg1; unfold lenZ in *; rewrite length_take; lia]|].
  tf_steps. exists u1', (g2 ++ rest). split.
  { unfold lenZ in *. rewrite !length_app in *. cbn [length]. rewrite length_take. lia. }
  unfold set_tq_QueueState, set_mi_Length. cbn [tq_MsgIdx tq_AnchorId tq_Channel tq_ErrCounter tq_TruncFresh tq_CmacValue mi_Length mi_BufState].
  rewrite al_append, al_prefix, mlen_small by lia. f_equal. cbn. by rewrite <-!app_assoc.
Qed.

Context (pd : Z) (Hpd : aget2 LowerTxCallPdu ch o = Some pd) (Hbc : RBD_PK_MASTER_HAS_RF && cf_Broadcast c = false).
(** The router accepts the request. *)
Context (Hrouter : ∀ n u, ∃ u', an_PduR_Transmit pd n u = (E_OK, u')).

Lemma part3_wp b n bst err tr cm ct u tra :
  wp (rbdAnchorComTp_TxPart3 (Some (o, s)))
    (λ _ w', ∃ u', w' = T b (mkMsgInfo n bst) (slot RBDANCHORCOM_TX_TRANS_RUNNING err tr cm) (mkChTx true 0 m) h t u' (tra ++ [AnTransmit pd n E_OK]))
    (T b (mkMsgInfo n bst) (slot RBDANCHORCOM_TX_TRANS_READY err tr cm) ct h t u tra).
Proof using Hm Ha Hpd Hbc Hrouter.
  unfold rbdAnchorComTp_TxPart3. tf_steps. cbn [tq_QueueState slot]. rewrite bool_decide_true by done. tf_steps. unfold rbdAnchorComTp_TxStartTx. tf_steps.
  unfold set_tq_QueueState. cbn [tq_MsgIdx tq_AnchorId tq_Channel slot]. tf_steps. unfold start_tx. tf_steps. eapply wp_lift; [exact Hpd|]. tf_steps. apply wp_tf_call. intros r u1 E1.
  cbn [mi_Length] in E1. destruct (Hrouter n u) as (u1' & E1'). rewrite E1 in E1'. injection E1' as -> ->. tf_steps. eapply wp_lift; [exact Hm|]. rewrite Hbc. rewrite bool_decide_true by done. tf_steps. exists u1'. done.
Qed.

(** The head of the queue goes through all three parts in one run. *)
Lemma peer_sends x0 x1 x2 p rest bst tr cm ct u tra :
  s = h → t ≠ h → lenZ p < 65000 → 23 ≤ lenZ rest →
  let chan := rbdAnchorComTp_GetTxChanId u c o in
  let info := info_byte (cf_EncDecFlag c) x2 (lenZ p) in
  let wire := anchor_wire chan (cf_PduId c) info (sd_body (cf_EncDecFlag c) p) in
  wp (CyclicTx_peer o)
    (λ _ w', ∃ u' rest' mac, lenZ (wire ++ rest') = lenZ (x1 :: x2 :: p ++ rest) ∧ w' = T (chan :: wire ++ rest') (mkMsgInfo (lenZ wire) bst) (slot RBDANCHORCOM_TX_TRANS_RUNNING 0 sd_trunc mac) (mkChTx true 0 m) h t u' (tra ++ [AnTransmit pd (lenZ wire) E_OK]))
    (T (x0 :: x1 :: x2 :: p ++ rest) (mkMsgInfo (lenZ p) bst) (slot RBDANCHORCOM_TX_QUEUED 0 tr cm) ct h t u tra).
Proof using HL HS Hm Ha Hpd Hbc Hrouter.
  intros Es Ht Hp Hr chan info wire. set (body := sd_body (cf_EncDecFlag c) p) in *.
  assert (lenZ body < 65100) as Hb.
  { unfold body, sd_body. destruct (cf_EncDecFlag c); [|lia]. rewrite sd_enc_len, padded_len. pose proof (pad_len_range (lenZ p)). lia. }
  assert (lenZ wire = lenZ body + 6) as Hw.
  { unfold wire, anchor_wire. rewrite !lenZ_cons, lenZ_app, lenZ_cons. pose proof (sd_mac_len (auth_data chan (cf_PduId c) info body)). unfold lenZ in *. rewrite length_take. lia. }
  unfold CyclicTx_peer, settle_head. tf_steps. rewrite (proj2 (Z.eqb_neq t h) Ht). replace (o, h) with (o, s) by congruence. tf_steps. cbn [tq_QueueState slot]. rewrite !bool_decide_false by done. cbn [when]. tf_steps.
  eapply wp_mono; [by apply part1_wp|]. cbv zeta. fold chan info body. intros _ x (u1 & rest1 & Hl1 & ->). tf_steps.
  eapply wp_mono; [by apply part2_wp|]. cbv zeta. intros _ x (u2 & rest2 & Hl2 & ->). tf_steps.
  eapply wp_mono; [apply part3_wp|]. intros _ x (u3 & ->). tf_steps. cbn [tq_ErrCounter slot]. rewrite (proj2 (Z.leb_gt _ _) al_retry). cbn [when]. tf_steps.
  exists u3, rest2. eexists. split; [rewrite !lenZ_cons; rewrite lenZ_app, Hw; rewrite !lenZ_app, lenZ_cons in *; pose proof (sd_mac_len (auth_data chan (cf_PduId c) info body)); unfold lenZ in *; rewrite length_take in *; lia|]. rewrite Hw. unfold wire, anchor_wire. cbn. by rewrite <-!app_assoc.
Qed.
End send.

(** * rbdAnchorComTp: the transmission of a message, call by call *)

Section calls.
Context {U : Type} `{HC : Anchor_Cfg} `{HE : Anchor_Env U} {HL : Anchor_CfgOk} {HF : AnchorFresh U} {HS : AnchorSender U}.
Abbreviation W := (AnchorWorld U).

(** Message [m], configured as [c], goes to peer [o] under the router's identifiers [pd] (requests)
    and [cb] (call-backs); the peer may be sent to and the router accepts. *)
Record AnchorRoute (o m : Z) (c : rbdAnchorComTp_Cfg_st) (pd cb : Z) : Prop := {
  ar_idx : rbdAnchorComTp_FindIdx (cf_PduId c) = Some m;
  ar_cfg : aget MsgCfg m = Some c;
  ar_u8 : m < 256;
  ar_bc : cf_Broadcast c = false;
  ar_len : 0 ≤ cf_Length c < 4096;
  ar_peer : 0 ≤ o < RBDANCHORCOM_TP_NUM_LL_TX;
  ar_pd : aget2 LowerTxCallPdu (cf_Channel c) o = Some pd;
  ar_cb : rbdAnchorComTp_FindByLLPdu cb LowerTxCbPdu RBDANCHORCOM_TP_NUM_LL_TX = Some (Some (cf_Channel c, o));
  ar_hi : is_Master0Hi cb = false;
  ar_build : anchor_build ≠ RBD_PK_CPU_NCJ29D5;
  ar_router n u : ∃ u', an_PduR_Transmit pd n u = (E_OK, u');
  ar_allowed (w : W) : ∃ a, rbdAnchorCom_NodeOkToTx w = Some (a, w) ∧ (Z.land a (u32 (Z.shiftl 1 o)) ≠ 0 ∨ RBD_PK_MAX_NODES ≤ o)
}.

(** The slot after a slot is another one. *)
Lemma next_slot_ne h : 0 ≤ h < 16 → (h + 1) mod 16 ≠ h.
Proof.
  intros Hh. destruct (decide (h = 15)) as [->|]; [done|]. rewrite Z.mod_small by lia. lia.
Qed.

(** The queue of every other peer is empty. *)
Definition others_empty (o : Z) (w : W) : Prop :=
  ∀ j, 0 ≤ j < RBDANCHORCOM_TP_NUM_LL_TX → j ≠ o → ∃ x, aget (TxHead (an_tx w)) j = Some x ∧ aget (TxTail (an_tx w)) j = Some x.

(** Nothing waits for peer [o], and message [m] has its buffer free. *)
Record tx_ready (o m : Z) (c : rbdAnchorComTp_Cfg_st) (w : W) : Prop := {
  ty_buf : ∃ b, aget2 (TxBuffer (an_tx w)) m o = Some (Some b) ∧ cf_Length c + 26 ≤ lenZ b;
  ty_mi : ∃ n, aget2 (MsgTxInfo (an_tx w)) o m = Some (mkMsgInfo n RBDANCHORCOM_TPSTATE_IDLE);
  ty_queue : ∃ h, aget (TxHead (an_tx w)) o = Some h ∧ aget (TxTail (an_tx w)) o = Some h ∧ 0 ≤ h < 16;
  ty_slots k : 0 ≤ k < 16 → in2 (TxMsgQueue (an_tx w)) o k;
  ty_ct : ∃ ct, aget2 (ChTxInfo (an_tx w)) (cf_Channel c) o = Some ct;
  ty_others : others_empty o w
}.

Context (o m : Z) (c : rbdAnchorComTp_Cfg_st) (pd cb : Z) (HR : AnchorRoute o m c pd cb).
Abbreviation ch := (cf_Channel c).

Lemma others_tfoc w s b mi q ct h t u tr : others_empty o w → others_empty o (tfoc w o m s ch b mi q ct h t u tr).
Proof using HR.
  intros Hw j Hj Hne. destruct (Hw j Hj Hne) as (x & E1 & E2). exists x. destruct (ar_peer _ _ _ _ _ HR). cbn. by rewrite !aget_insert_ne by lia.
Qed.

(** Queueing. *)
Lemma transmit_queues w p ow :
  tx_ready o m c w → lenZ p ≤ cf_Length c →
  ∃ h x0 x1 x2 rest tr cm ct, tx_at w o m h ch ∧ 0 ≤ h < 16 ∧ cf_Length c + 23 ≤ lenZ p + lenZ rest ∧
  wp (rbdAnchorCom_Transmit o (cf_PduId c) (lenZ p) (Some p) 0 None ow)
    (λ r w', r = E_OK ∧ w' = tfoc w o m h ch (x0 :: x1 :: x2 :: p ++ rest) (mkMsgInfo (lenZ p) RBDANCHORCOM_TPSTATE_HASDATA)
       (slot o m ch RBDANCHORCOM_TX_QUEUED 0 tr cm) ct h ((h + 1) mod 16) (an_up w) (an_trace w)) w.
Proof using HL HR.
  intros [(b & Eb & Hb) (n & Em) (h & Eh & Et & Hh) Hsl (ct & Ec) _] Hp. destruct (Hsl h Hh) as [q Eq]. destruct HR as [Hi Hc Hu Hbc Hl Ho _ _ _ _ _ _]. pose proof (lenZ_nonneg p).
  destruct (tfoc_intro w o m h ch b _ q ct h h Eb Em Eq Ec Eh Et) as [Ew Ha].
  destruct b as [|x0 [|x1 [|x2 b]]]; try (unfold lenZ in Hb; cbn in Hb; lia). rewrite !lenZ_cons in Hb. destruct (split_at b (lenZ p) ltac:(lia)) as (z & rest & -> & Hz). rewrite lenZ_app in Hb.
  exists h, x0, x1, x2, rest, (tq_TruncFresh q), (tq_CmacValue q), ct. split_and!; [done|lia|lia|lia|]. rewrite Ew at 1. unfold rbdAnchorCom_Transmit.
  pose proof (aget_Some _ _ _ Hc). wp_step. eapply wp_lift; [exact Hi|]. cbv zeta. unfold RBDANCHORCOM_TP_NUM_MSG. rewrite (proj2 (Z.leb_gt _ _)) by lia. rewrite (proj2 (Z.leb_gt _ o)) by lia.
  wp_step. eapply wp_lift; [exact Hc|]. rewrite Z.add_0_r, u16_small by lia. rewrite (proj2 (Z.ltb_ge _ _)) by lia. rewrite bool_decide_false by done. cbn [orb andb Z.ltb]. change (0 <? 0) with false. cbn [andb].
  unfold target_idx. rewrite Hbc. tf_steps. unfold tx_free. cbn [mi_BufState]. rewrite bool_decide_true by done. cbn [orb]. tf_steps. eapply wp_lift; [done|]. tf_steps.
  eapply wp_lift; [apply aslice_is_Some; lia|]. rewrite drop_0. replace (take (Z.to_nat (lenZ p)) p) with p by (unfold lenZ; by rewrite Nat2Z.id, firstn_all). tf_steps. rewrite al_header.
  eapply wp_lift; [apply (awrite_mid [x0; x1; x2] z rest); [done|lia]|]. tf_steps. unfold rbdAnchorComTp_AddTxQueue. wp_step. apply wp_tf_tail; [done|]. wp_step. apply wp_tf_head; [done|].
  unfold RBDANCHORCOM_TP_QUEUE_SIZE. rewrite (proj2 (Z.eqb_neq ((h + 1) mod 16) h) (next_slot_ne h Hh)).
  rewrite u8_small by lia. wp_step. eapply wp_lift; [exact Hc|]. tf_steps. apply wp_tf_put_tail; [done|]. tf_steps. rewrite bool_decide_true by done. tf_steps. split; [done|]. done.
Qed.

(** The cyclic function works for this peer only. *)
Lemma cyclictx_one w (Q : unit → W → Prop) :
  others_empty o w → wp (CyclicTx_peer o) (λ _ w', others_empty o w' ∧ Q tt w') w → wp rbdAnchorCom_CyclicTx Q w.
Proof using HR.
  intros Ho H1. destruct (ar_peer _ _ _ _ _ HR) as [Hp0 Hp1]. unfold rbdAnchorCom_CyclicTx, rbdAnchorComTp_CyclicTx. wp_step. destruct (ar_allowed _ _ _ _ _ HR w) as (a & Ea & Hal).
  apply (wp_eq _ _ _ _ _ Ea). wp_step. unfold crypto_free. do 3 wp_step. rewrite bool_decide_false by apply (ar_build _ _ _ _ _ HR). cbn [negb orb when].
  set (body := λ OtherEndIdx, _). assert (∀ j w', others_empty o w' → 0 ≤ j < RBDANCHORCOM_TP_NUM_LL_TX → j ≠ o → wp (body j) (λ _ x, x = w') w') as Hidle.
  { intros j w' Hw' Hj Hne. unfold body. cbv zeta. wp_step; [|done]. destruct (Hw' j Hj Hne) as (x & E1 & E2). unfold CyclicTx_peer, settle_head, rbdAnchorComTp_GetTxQueueHead, tx_elem.
    wp_steps. eapply wp_lift; [exact E2|]. wp_steps. eapply wp_lift; [exact E1|]. rewrite Z.eqb_refl. by wp_steps. }
  assert (∀ n k m' w' (Q' : unit → W → Prop), others_empty o w' → 0 ≤ k → k + Z.of_nat n ≤ RBDANCHORCOM_TP_NUM_LL_TX → (∀ j, k ≤ j < k + Z.of_nat n → j ≠ o) →
    wp (mfor m' (k + Z.of_nat n) body) Q' w' → wp (mfor (n + m') k body) Q' w') as Hskip.
  { induction n as [|n IH]; intros k m' w' Q' Hw' Hk Hn Hj HQ; [by rewrite Z.add_0_r in HQ|]. cbn [Nat.add mfor]. wp_step.
    eapply wp_mono; [apply Hidle; [done|lia|apply Hj; lia]|]. intros [] x ->. apply IH; [done|lia|lia|intros j Hj'; apply Hj; lia|]. by replace (k + 1 + Z.of_nat n) with (k + Z.of_nat (S n)) by lia. }
  replace (Z.to_nat RBDANCHORCOM_TP_NUM_LL_TX) with (Z.to_nat o + S (Z.to_nat (RBDANCHORCOM_TP_NUM_LL_TX - o - 1)))%nat by lia.
  apply Hskip; [done|lia|lia|intros; lia|]. replace (0 + Z.of_nat (Z.to_nat o)) with o by lia. cbn [mfor]. wp_step. unfold body at 1. cbv zeta.
  replace (negb (Z.land a (u32 (Z.shiftl 1 o)) =? 0) || (RBD_PK_MAX_NODES <=? o)) with true.
  2: { destruct Hal as [Hal|Hal]; [by rewrite (proj2 (Z.eqb_neq _ _) Hal) | by rewrite (proj2 (Z.leb_le _ _) Hal), orb_true_r]. }
  cbn [when]. eapply wp_mono; [exact H1|]. intros [] w' [Hw' HQ]. rewrite <-(Nat.add_0_r (Z.to_nat _)). apply Hskip; [done|lia|lia|intros; lia|done].
Qed.

(** ** The router reads the message, and confirms it *)

Fixpoint copies (ns : list Z) : M W (list Z) :=
  match ns with
  | [] => mret []
  | n :: ns => '(_, d, _) ← rbdAnchorComTp_CopyTxData cb (Some (n, true)) None; ds ← copies ns; mret (d ++ ds)
  end.

Context (w : W) (s h t : Z) (Ha : tx_at w o m s ch).
Abbreviation T := (tfoc w o m s ch).

Lemma copy_wp chan wire rest bst q off u tra n :
  t ≠ h → 0 ≤ off → 0 ≤ n → off + n ≤ lenZ wire → lenZ wire < 65536 →
  wp (rbdAnchorComTp_CopyTxData cb (Some (n, true)) None)
    (λ r w', r.1.2 = take (Z.to_nat n) (drop (Z.to_nat off) wire) ∧ w' = T (chan :: wire ++ rest) (mkMsgInfo (lenZ wire) bst) q (mkChTx true (off + n) m) h t u tra)
    (T (chan :: wire ++ rest) (mkMsgInfo (lenZ wire) bst) q (mkChTx true off m) h t u tra).
Proof using HL HR Ha.
  intros Ht H0 Hn Hle Hw. unfold rbdAnchorComTp_CopyTxData. wp_step. eapply wp_lift; [apply (ar_cb _ _ _ _ _ HR)|]. cbv iota. tf_steps. rewrite (proj2 (Z.eqb_neq _ _) Ht).
  rewrite bool_decide_false by done. cbn [andb ct_TxMsgIdx ct_TxOffset]. rewrite (ar_hi _ _ _ _ _ HR). tf_steps. cbn [mi_Length]. rewrite (u16_small (lenZ wire - off)), (u16_small n) by lia.
  replace (if lenZ wire - off <? n then lenZ wire - off else n) with n by (case_match; bools; lia). tf_steps. rewrite al_chanid.
  eapply wp_lift; [apply aslice_is_Some; rewrite ?lenZ_cons, ?lenZ_app; pose proof (lenZ_nonneg rest); lia|]. tf_steps.
  rewrite (bool_decide_false (anchor_build = _)) by apply (ar_build _ _ _ _ _ HR). cbn [andb when]. tf_steps. cbn [fst snd]. unfold set_ct_TxOffset. cbn [ct_TxInProgress ct_TxMsgIdx]. rewrite u16_small by lia. split; [|done].
  replace (Z.to_nat (off + 1)) with (S (Z.to_nat off)) by lia. cbn [drop]. unfold lenZ in *. rewrite drop_app_le by lia. rewrite take_app_le; [done|]. rewrite length_drop. lia.
Qed.

Lemma copies_wp ns chan wire rest bst q off u tra :
  t ≠ h → 0 ≤ off → Forall (Z.le 0) ns → off + foldr Z.add 0 ns = lenZ wire → lenZ wire < 65536 →
  wp (copies ns)
    (λ r w', r = drop (Z.to_nat off) wire ∧ w' = T (chan :: wire ++ rest) (mkMsgInfo (lenZ wire) bst) q (mkChTx true (lenZ wire) m) h t u tra)
    (T (chan :: wire ++ rest) (mkMsgInfo (lenZ wire) bst) q (mkChTx true off m) h t u tra).
Proof using HL HR Ha.
  intros Ht. revert off. induction ns as [|n ns IH]; intros off H0 Hns Hsum Hw; cbn [copies foldr] in *.
  { apply wp_ret. rewrite Z.add_0_r in Hsum. rewrite Hsum. split; [|done]. unfold lenZ. by rewrite Nat2Z.id, drop_all. }
  inversion Hns as [|? ? Hn Hns']; subst. assert (0 ≤ foldr Z.add 0 ns) by (clear -Hns'; induction Hns'; cbn; lia).
  wp_step. eapply wp_mono; [apply copy_wp; lia|]. intros [[r d] av] x [Ed ->]. cbn [fst snd] in Ed. cbv beta iota. wp_step. eapply wp_mono; [apply (IH (off + n)); [lia|done|lia|lia]|].
  intros ds x [-> ->]. apply wp_ret. split; [|done]. rewrite Ed. replace (Z.to_nat (off + n)) with (Z.to_nat off + Z.to_nat n)%nat by lia. rewrite <-drop_drop. apply take_drop.
Qed.

Lemma confirm_wp b mi err tr cm ct u tra :
  t ≠ h → s = h → ct_TxInProgress ct = true →
  wp (rbdAnchorComTp_TpTxConfirmation cb E_OK)
    (λ _ w', w' = T b mi (slot o m ch RBDANCHORCOM_TX_TRANS_DONE err tr cm) (set_ct_TxInProgress false ct) h t u tra)
    (T b mi (slot o m ch RBDANCHORCOM_TX_TRANS_RUNNING err tr cm) ct h t u tra).
Proof using HR Ha.
  intros Ht Es Ec. unfold rbdAnchorComTp_TpTxConfirmation. wp_step. eapply wp_lift; [apply (ar_cb _ _ _ _ _ HR)|]. cbv iota. tf_steps. rewrite (proj2 (Z.eqb_neq _ _) Ht).
  replace (o, h) with (o, s) by congruence. tf_steps. rewrite Ec. cbn [when]. tf_steps. rewrite bool_decide_true by done. tf_steps. done.
Qed.

(** The confirmed message leaves the queue. *)
Lemma finish_peer b n err tr cm ct u tra :
  t = (h + 1) mod 16 → 0 ≤ h < 16 → s = h →
  wp (CyclicTx_peer o)
    (λ _ w', w' = T b (mkMsgInfo n RBDANCHORCOM_TPSTATE_IDLE) (slot o m ch RBDANCHORCOM_TX_TRANS_DONE err tr cm) ct t t u tra)
    (T b (mkMsgInfo n RBDANCHORCOM_TPSTATE_HASDATA) (slot o m ch RBDANCHORCOM_TX_TRANS_DONE err tr cm) ct h t u tra).
Proof using HR Ha.
  intros Et Hh Es. assert (t ≠ h) as Ht by (rewrite Et; by apply next_slot_ne). unfold CyclicTx_peer, settle_head. tf_steps. rewrite (proj2 (Z.eqb_neq _ _) Ht). replace (o, h) with (o, s) by congruence.
  tf_steps. cbn [tq_QueueState slot]. rewrite bool_decide_true by done. unfold rbdAnchorComTp_FinishData. tf_steps. cbn [tq_AnchorId tq_MsgIdx slot]. tf_steps. rewrite (proj2 (Z.eqb_neq _ _) Ht).
  tf_steps. unfold RBDANCHORCOM_TP_QUEUE_SIZE. rewrite <-Et, Z.eqb_refl. tf_steps. done.
Qed.
End calls.

Section message.
Context {U : Type} `{HC : Anchor_Cfg} `{HE : Anchor_Env U} {HL : Anchor_CfgOk} {HF : AnchorFresh U} {HS : AnchorSender U}.
Abbreviation W := (AnchorWorld U).
Context (o m : Z) (c : rbdAnchorComTp_Cfg_st) (pd cb : Z) (HR : AnchorRoute o m c pd cb).
Abbreviation ch := (cf_Channel c).

Lemma wire_len chan pdu info body : lenZ (anchor_wire chan pdu info body) = lenZ body + 6.
Proof.
  unfold anchor_wire. rewrite !lenZ_cons, lenZ_app, lenZ_cons. pose proof (sd_mac_len (auth_data chan pdu info body)). unfold lenZ in *. rewrite length_take. lia.
Qed.
Lemma body_len enc p : lenZ (sd_body enc p) = lenZ (padded enc p).
Proof. unfold sd_body. destruct enc; [apply sd_enc_len|done]. Qed.

(** The whole transmission: requested, sent by one cyclic run, read in any portions, confirmed, and
    the peer is ready for the next one. *)
Lemma send_message w p ow :
  tx_ready o m c w → lenZ p ≤ cf_Length c →
  ∃ old, let info := info_byte (cf_EncDecFlag c) old (lenZ p) in
  let wire := anchor_wire (rbdAnchorComTp_GetTxChanId (an_up w) c o) (cf_PduId c) info (sd_body (cf_EncDecFlag c) p) in
  ∃ w1 w2, rbdAnchorCom_Transmit o (cf_PduId c) (lenZ p) (Some p) 0 None ow w = Some (E_OK, w1) ∧
    rbdAnchorCom_CyclicTx w1 = Some (tt, w2) ∧ an_trace w2 = an_trace w ++ [AnTransmit pd (lenZ wire) E_OK] ∧
    ∀ ns, Forall (Z.le 0) ns → foldr Z.add 0 ns = lenZ wire →
    ∃ w3 w4 w5, copies cb ns w2 = Some (wire, w3) ∧ rbdAnchorComTp_TpTxConfirmation cb E_OK w3 = Some (tt, w4) ∧
      rbdAnchorCom_CyclicTx w4 = Some (tt, w5) ∧ tx_ready o m c w5 ∧ an_trace w5 = an_trace w2.
Proof using HL HS HR.
  intros Hw Hp. pose proof (ar_len _ _ _ _ _ HR) as Hlen. pose proof (lenZ_nonneg p).
  destruct (transmit_queues o m c pd cb HR w p ow Hw Hp) as (h & x0 & x1 & x2 & rest & tr & cm & ct & Ha & Hh & Hrest & Hwp). exists x2. intros info wire.
  destruct (wp_run _ _ _ Hwp) as (r & w1 & E1 & -> & ->). pose proof (next_slot_ne h Hh) as Hne. pose proof (padded_len (cf_EncDecFlag c) p) as Hpl. pose proof (pad_len_range (lenZ p)).
  assert (lenZ wire < 65536 ∧ lenZ (sd_body (cf_EncDecFlag c) p) < 65000) as [Hwl Hbl] by (unfold wire; rewrite wire_len, body_len, Hpl; case_match; lia).
  assert (others_empty o w) as Hoth by apply Hw.
  assert (wp rbdAnchorCom_CyclicTx (λ _ w', ∃ u' rest' mac, lenZ (wire ++ rest') = lenZ (x1 :: x2 :: p ++ rest) ∧ w' = tfoc w o m h ch (rbdAnchorComTp_GetTxChanId (an_up w) c o :: wire ++ rest') (mkMsgInfo (lenZ wire) RBDANCHORCOM_TPSTATE_HASDATA)
    (slot o m ch RBDANCHORCOM_TX_TRANS_RUNNING 0 sd_trunc mac) (mkChTx true 0 m) h ((h + 1) mod 16) u' (an_trace w ++ [AnTransmit pd (lenZ wire) E_OK]))
    (tfoc w o m h ch (x0 :: x1 :: x2 :: p ++ rest) (mkMsgInfo (lenZ p) RBDANCHORCOM_TPSTATE_HASDATA) (slot o m ch RBDANCHORCOM_TX_QUEUED 0 tr cm) ct h ((h + 1) mod 16) (an_up w) (an_trace w))) as H2.
  { apply (cyclictx_one o m c pd cb HR); [by apply (others_tfoc o m c pd cb HR)|]. eapply wp_mono.
    { apply (peer_sends w o m ch c (ar_cfg _ _ _ _ _ HR) h h ((h + 1) mod 16) Ha pd (ar_pd _ _ _ _ _ HR)); [by rewrite (ar_bc _ _ _ _ _ HR), andb_false_r|apply (ar_router _ _ _ _ _ HR)|done|done|lia|lia]. }
    intros _ x (u' & rest' & mac & Hrl & ->). split; [by apply (others_tfoc o m c pd cb HR)|]. by exists u', rest', mac. }
  destruct (wp_run _ _ _ H2) as ([] & w2 & E2 & u2 & rest2 & mac & Hrl & ->). eexists _, _. split; [exact E1|]. split; [exact E2|]. split; [done|]. intros ns Hns Hsum.
  destruct (wp_run _ _ _ (copies_wp o m c pd cb HR w h h ((h + 1) mod 16) Ha ns (rbdAnchorComTp_GetTxChanId (an_up w) c o) wire rest2 RBDANCHORCOM_TPSTATE_HASDATA (slot o m ch RBDANCHORCOM_TX_TRANS_RUNNING 0 sd_trunc mac) 0 u2
    (an_trace w ++ [AnTransmit pd (lenZ wire) E_OK]) Hne ltac:(lia) Hns ltac:(lia) Hwl)) as (ds & w3 & E3 & Eds & ->).
  destruct (wp_run _ _ _ (confirm_wp o m c pd cb HR w h h ((h + 1) mod 16) Ha (rbdAnchorComTp_GetTxChanId (an_up w) c o :: wire ++ rest2) (mkMsgInfo (lenZ wire) RBDANCHORCOM_TPSTATE_HASDATA) 0 sd_trunc mac (mkChTx true (lenZ wire) m) u2
    (an_trace w ++ [AnTransmit pd (lenZ wire) E_OK]) Hne eq_refl eq_refl)) as ([] & w4 & E4 & ->).
  eassert (wp rbdAnchorCom_CyclicTx (λ _ w', w' = tfoc w o m h ch _ (mkMsgInfo (lenZ wire) RBDANCHORCOM_TPSTATE_IDLE) (slot o m ch RBDANCHORCOM_TX_TRANS_DONE 0 sd_trunc mac) _ ((h + 1) mod 16) ((h + 1) mod 16) u2 _) _) as H5.
  { apply (cyclictx_one o m c pd cb HR); [by apply (others_tfoc o m c pd cb HR)|]. eapply wp_mono; [by apply (finish_peer o m c pd cb HR w h h ((h + 1) mod 16) Ha)|].
    intros _ x ->. split; [by apply (others_tfoc o m c pd cb HR)|reflexivity]. }
  destruct (wp_run _ _ _ H5) as ([] & w5 & E5 & ->). eexists _, _, _. split; [rewrite E3, Eds; done|]. split; [exact E4|]. split; [exact E5|]. split; [|done].
  destruct Ha as [Hbuf Hmi Htq Hh' Ht' Hct]. split.
  - eexists. split; [by apply ins2_lookup|]. rewrite lenZ_cons, Hrl, !lenZ_cons, lenZ_app. lia.
  - eexists. by apply ins2_lookup.
  - exists ((h + 1) mod 16). cbn. rewrite !insert_lookup1 by done. split_and!; try done; apply Z.mod_pos_bound; lia.
  - intros k Hk. cbn. apply ins2_in2. by apply Hw.
  - eexists. by apply ins2_lookup.
  - by apply (others_tfoc o m c pd cb HR).
Qed.
End message.
