(* ===== verification/AnchorRecv.v ===== *)
(** * rbdAnchorCom: from the wire to the application

    A received message is verified, decrypted and handed to the application by one run
    of the cyclic function. *)

From S2P Require Import Prelude ComStack AnchorTypes AnchorTx AnchorRx AnchorFoc AnchorSend.
From stdpp Require Import base list numbers option.

#[local] Open Scope Z_scope.

Section recv.
Context {U : Type} `{HC : Anchor_Cfg} `{HE : Anchor_Env U} {HL : Anchor_CfgOk}.
Abbreviation W := (AnchorWorld U).

(** What the cryptography of the receiver does with the messages of a sender that uses this
    freshness value, cipher and code for peer [o]. *)
Class AnchorReceiver (o : Z) (fresh : list Z) (trunc : Z) (enc mac : list Z → list Z) := {
  rc_fresh_len : lenZ fresh = 8;
  rc_enc_len p : lenZ (enc p) = lenZ p;
  rc_mac_len d : 3 ≤ lenZ (mac d);
  rc_GetRx u : ∃ u', Fresh_GetRx trunc RBDANCHORCOM_FRESH_LEN u = (E_OK, fresh, u') ∧ NvM_AnchorCanIdx u' = NvM_AnchorCanIdx u ∧ rbdUwbInfo_GetCANIdx u' = rbdUwbInfo_GetCANIdx u;
  rc_Verify d u : ∃ u', Csm_Verify o d (take 3 (mac d)) u = (RBDANCHORCOM_OK, u');
  rc_Decrypt p u : ∃ u', Csm_Decrypt o (enc p) fresh u = (RBDANCHORCOM_OK, p, u')
}.

Context (o m ch : Z) (c : rbdAnchorComTp_Cfg_st) (fresh : list Z) (trunc : Z) (enc mac : list Z → list Z) {HV : AnchorReceiver o fresh trunc enc mac}.
Context (Hidx : rbdAnchorComTp_FindIdx (cf_PduId c) = Some m) (Hm : aget MsgCfg m = Some c) (Hu8 : m < 256) (Hrx : cf_RxIndication c = true).
Context (w : W) (temp : bool) (s h t : Z) (Ha : rx_at w temp o s ch).
Abbreviation R := (rfoc w temp o s ch).

Lemma dlen_small z : 0 ≤ z < 65536 → dlen z = z.
Proof using HL. intros. apply uw_small. pose proof al_datalen. assert (2 ^ 16 ≤ 2 ^ DataLen_bits) by (apply Z.pow_le_mono_r; lia). lia. Qed.

(** What was sent. *)
Context (p : list Z) (chan info : Z).
Abbreviation ef := (cf_EncDecFlag c).
Abbreviation body := (if ef then enc (padded true p) else p).
Abbreviation auth := (chan :: cf_PduId c :: info :: body ++ fresh).
Abbreviation code := (take 3 (mac auth)).
Context (Hp : lenZ p < 4096) (Hinfo : ef = true → Z.land info 15 = pad_len (lenZ p)).

Lemma body_len' : lenZ body = lenZ (padded ef p).
Proof using HV.
  assert (∀ e : bool, lenZ (if e then enc (padded true p) else p) = lenZ (padded e p)) as He by (intros []; [apply rc_enc_len|done]). apply He.
Qed.
Lemma body_range : 0 ≤ lenZ body < 60000.
Proof using HV Hp.
  rewrite body_len', padded_len. pose proof (pad_len_range (lenZ p)). pose proof (lenZ_nonneg p).
  assert (∀ e : bool, 0 ≤ lenZ p + (if e then pad_len (lenZ p) else 0) < 60000) as He by (intros []; lia). apply He.
Qed.
Lemma code_len : lenZ code = 3.
Proof using HV. pose proof (rc_mac_len auth). unfold lenZ in *. rewrite length_take. lia. Qed.

(** The slot of the queue at its stages. *)
Definition rslot (st : QueueState_et) (n mi tf : Z) (cm : list Z) : rbdAnchorComTp_RxQueue_st := mkRxQ ch o temp st 0 n mi tf cm.

Lemma find_in : m < RBDANCHORCOM_TP_NUM_MSG.
Proof using Hm. unfold RBDANCHORCOM_TP_NUM_MSG. pose proof (aget_Some _ _ _ Hm). lia. Qed.

Lemma msg_range : 0 ≤ m < 256.
Proof using Hm Hu8. pose proof (aget_Some _ _ _ Hm). lia. Qed.

(** Formatting: the code is taken out, the freshness value put in its place. *)
Lemma rx_format_wp x0 rest off id nv cr u tra mi tf cm :
  rbdAnchorComTp_GetRxChanId u c o = chan → 4 ≤ lenZ rest →
  let n := lenZ body in
  wp (rbdAnchorComTp_RxFormatForCmac (Some (o, s)))
    (λ r w', r = RBDANCHORCOM_OK ∧ ∃ u' rest', w' =
      R (rslot RBDANCHORCOM_RX_CMAC_READY (n + 11) m trunc code) (mkChRxData (auth ++ rest') off id nv) cr h t u' tra)
    (R (rslot RBDANCHORCOM_RX_QUEUED (n + 7) mi tf cm) (mkChRxData (x0 :: cf_PduId c :: info :: body ++ trunc :: code ++ rest) off id nv) cr h t u tra).
Proof using HL HV Hidx Hm Hu8 Ha Hp.
  intros Hch Hrest n. pose proof msg_range. pose proof body_range as Hn. fold n in Hn.
  pose proof code_len as Hcl. unfold rbdAnchorComTp_RxFormatForCmac. rf_steps. cbn [cd_RxBuffer]. rewrite al_chanid.
  eapply wp_lift; [reflexivity|]. rf_steps. eapply wp_lift; [exact Hidx|]. rewrite (proj2 (Z.ltb_lt _ _) find_in). rf_steps. rewrite u8_small by lia.
  unfold take_auth. rf_steps. cbn [rq_DataLen rslot set_rq_MsgIdx]. rewrite (proj2 (Z.ltb_lt _ _)) by lia. cbn [when]. rf_steps. cbn [cd_RxBuffer]. rewrite al_append, al_cmac.
  set (buf := x0 :: cf_PduId c :: info :: body ++ trunc :: code ++ rest).
  assert (aget buf (n + 7 - 4) = Some trunc) as E1.
  { unfold buf. change (x0 :: cf_PduId c :: info :: body ++ trunc :: code ++ rest) with ((x0 :: cf_PduId c :: info :: body) ++ trunc :: code ++ rest).
    unfold aget. rewrite decide_True by lia. replace (Z.to_nat (n + 7 - 4)) with (length (x0 :: cf_PduId c :: info :: body)) by (cbn [length]; unfold n, lenZ; lia). by apply list_lookup_middle. }
  assert (aslice buf (n + 7 - 3) 3 = Some code) as E2.
  { unfold buf. replace (x0 :: cf_PduId c :: info :: body ++ trunc :: code ++ rest) with ((x0 :: cf_PduId c :: info :: body ++ [trunc]) ++ code ++ rest) by (cbn; by rewrite <-app_assoc).
    apply aslice_app; [|done]. rewrite !lenZ_cons, lenZ_app. change (lenZ [trunc]) with 1. fold n. lia. }
  eapply wp_lift; [exact E1|]. rf_steps. eapply wp_lift; [exact E2|]. rf_steps. apply wp_rf_call. intros [r f] u1 Ef. cbn [rq_TruncFresh set_rq_Auth] in Ef.
  destruct (rc_GetRx u) as (u1' & Ef' & Hc1 & Hc2). rewrite Ef in Ef'. injection Ef' as -> -> ->. cbv beta iota. rewrite bool_decide_true by done. rf_steps. cbn [rq_MsgIdx set_rq_Auth set_rq_MsgIdx rslot].
  eapply wp_lift; [exact Hm|]. rf_steps. cbn [an_up rfoc rq_AnchorId rq_DataLen set_rq_Auth set_rq_MsgIdx rslot cd_RxBuffer].
  replace (rbdAnchorComTp_GetRxChanId u1' c o) with chan by (rewrite <-Hch; unfold rbdAnchorComTp_GetRxChanId; by rewrite Hc1, Hc2).
  eapply wp_lift; [apply aset_is_Some; unfold buf; rewrite lenZ_cons; pose proof (lenZ_nonneg (cf_PduId c :: info :: body ++ trunc :: code ++ rest)); lia|]. rf_steps.
  destruct (split_at rest 4 ltac:(lia)) as (r4 & rest' & -> & Hr4).
  replace (<[Z.to_nat 0:=chan]> buf) with ((chan :: cf_PduId c :: info :: body) ++ (trunc :: code ++ r4) ++ rest') by (unfold buf; cbn; by rewrite <-app_assoc).
  eapply wp_lift; [apply awrite_mid; [rewrite !lenZ_cons; fold n; lia | rewrite lenZ_cons, lenZ_app, rc_fresh_len; lia]|]. rf_steps.
  split; [done|]. exists u1', rest'. unfold set_rq_QueueState, set_rq_DataLen, set_rq_Auth, set_rq_MsgIdx, rslot, set_cd_RxBuffer.
  cbn [rq_Channel rq_AnchorId rq_IsTempBuf rq_QueueState rq_ErrCounter rq_DataLen rq_MsgIdx rq_TruncFresh rq_CmacValue cd_RxOffset cd_PduId cd_NeedVerify].
  rewrite dlen_small by lia. replace (n + 7 + 4) with (n + 11) by lia. f_equal. f_equal. cbn. by rewrite <-app_assoc.
Qed.

(** Verification. *)
Lemma rx_part1_wp x0 rest off id nv cr u tra mi tf cm :
  rbdAnchorComTp_GetRxChanId u c o = chan → 4 ≤ lenZ rest →
  let n := lenZ body in
  wp (rbdAnchorComTp_RxPart1 (Some (o, s)))
    (λ _ w', ∃ u' rest', w' =
      R (rslot (if ef then RBDANCHORCOM_RX_DEC_READY else RBDANCHORCOM_RX_PROCESS_READY) (n + 3) m trunc code) (mkChRxData (auth ++ rest') off id nv) cr h t u' tra)
    (R (rslot RBDANCHORCOM_RX_QUEUED (n + 7) mi tf cm) (mkChRxData (x0 :: cf_PduId c :: info :: body ++ trunc :: code ++ rest) off id nv) cr h t u tra).
Proof using HL HV Hidx Hm Hu8 Ha Hp.
  intros Hch Hrest n. pose proof body_range as Hn. fold n in Hn.
  unfold rbdAnchorComTp_RxPart1. rf_steps. cbn [rq_QueueState rslot]. rewrite bool_decide_true by done. rf_steps.
  eapply wp_mono; [by apply rx_format_wp|]. cbv zeta. fold n. intros r x (-> & u1 & rest1 & ->). rewrite bool_decide_true by done. cbn [negb when]. rf_steps. cbn [rq_QueueState rslot]. rewrite bool_decide_true by done. rf_steps.
  unfold rbdAnchorComTp_RxStartCmac. rf_steps. cbn [rq_DataLen rq_AnchorId rq_CmacValue rslot cd_RxBuffer]. rewrite u16_small by lia.
  eapply wp_lift; [apply (aslice_app [] auth rest1); [done|rewrite !lenZ_cons, lenZ_app; fold n; rewrite (rc_fresh_len (fresh := fresh)); lia]|]. apply wp_rf_call. intros r u2 E2.
  destruct (rc_Verify auth u1) as (u2' & E2'). rewrite E2 in E2'. injection E2' as -> ->. cbn [rx_react]. unfold verified. rf_steps. cbn [rq_MsgIdx rslot set_rq_DataLen]. eapply wp_lift; [exact Hm|]. rf_steps.
  exists u2', rest1. unfold set_rq_QueueState, set_rq_DataLen, rslot. cbn [rq_Channel rq_AnchorId rq_IsTempBuf rq_QueueState rq_ErrCounter rq_DataLen rq_MsgIdx rq_TruncFresh rq_CmacValue].
  rewrite al_fresh, dlen_small by lia. by replace (n + 11 - 8) with (n + 3) by lia.
Qed.

(** Decryption. *)
Lemma rx_part2_wp rest off id nv cr u tra :
  wp (rbdAnchorComTp_RxPart2 (Some (o, s)))
    (λ _ w', ∃ u' rest', w' =
      R (rslot RBDANCHORCOM_RX_PROCESS_READY (lenZ p + 3) m trunc code) (mkChRxData (chan :: cf_PduId c :: info :: p ++ rest') off id nv) cr h t u' tra)
    (R (rslot (if ef then RBDANCHORCOM_RX_DEC_READY else RBDANCHORCOM_RX_PROCESS_READY) (lenZ body + 3) m trunc code) (mkChRxData (auth ++ rest) off id nv) cr h t u tra).
Proof using HL HV Ha Hp Hinfo.
  pose proof (lenZ_nonneg p). pose proof (pad_len_range (lenZ p)). pose proof body_len' as Hb. rewrite padded_len in Hb. unfold rbdAnchorComTp_RxPart2. rf_steps. cbn [rq_QueueState rslot].
  destruct ef eqn:Ee.
  2: { rewrite bool_decide_false by done. rf_steps. exists u, (fresh ++ rest). do 2 f_equal. cbn. by rewrite <-app_assoc. }
  specialize (Hinfo eq_refl). rewrite bool_decide_true by done. unfold rbdAnchorComTp_RxStartDecryption. rf_steps. cbn [cd_RxBuffer rq_DataLen rslot]. rewrite al_header, al_fresh.
  replace (lenZ (enc (padded true p)) + 3 - 3) with (lenZ (enc (padded true p))) by lia. rewrite u16_small by lia.
  replace ((chan :: cf_PduId c :: info :: enc (padded true p) ++ fresh) ++ rest) with ([chan; cf_PduId c; info] ++ enc (padded true p) ++ fresh ++ rest) by (cbn; by rewrite <-app_assoc).
  eapply wp_lift; [apply aslice_app; done|]. rf_steps. rewrite app_assoc. eapply wp_lift; [apply aslice_app; [rewrite lenZ_app; done | by rewrite rc_fresh_len]|]. rf_steps.
  apply wp_rf_call. intros [r e] u1 E1. cbn [rq_AnchorId rslot] in E1. destruct (rc_Decrypt (padded true p) u) as (u1' & E1'). rewrite E1 in E1'. injection E1' as -> -> ->. cbv beta iota. rf_steps.
  rewrite <-app_assoc. eapply wp_lift; [apply awrite_mid; [done|by rewrite (rc_enc_len (enc := enc))]|]. rf_steps. cbn [rx_react]. unfold decrypted. rf_steps. unfold set_cd_RxBuffer. cbn [cd_RxBuffer]. eapply wp_lift; [reflexivity|]. rf_steps.
  exists u1', (replicate (Z.to_nat (pad_len (lenZ p))) 0 ++ fresh ++ rest). unfold set_rq_QueueState, set_rq_DataLen, rslot. cbn [rq_Channel rq_AnchorId rq_IsTempBuf rq_QueueState rq_ErrCounter rq_DataLen rq_MsgIdx rq_TruncFresh rq_CmacValue cd_RxOffset cd_PduId cd_NeedVerify].
  rewrite Hinfo. rewrite dlen_small by lia. f_equal; [f_equal; lia|]. f_equal. unfold padded. cbn. by rewrite <-app_assoc.
Qed.

(** Distribution. *)
Lemma rx_part3_wp rest off id nv cr u tra :
  wp (rbdAnchorComTp_RxPart3 (Some (o, s)))
    (λ _ w', ∃ u', w' =
      R (rslot RBDANCHORCOM_RX_PROCESS_DONE (lenZ p + 3) m trunc code) (mkChRxData (chan :: cf_PduId c :: info :: p ++ rest) off id nv) cr h t u' (tra ++ [AnRx o (cf_PduId c) p]))
    (R (rslot RBDANCHORCOM_RX_PROCESS_READY (lenZ p + 3) m trunc code) (mkChRxData (chan :: cf_PduId c :: info :: p ++ rest) off id nv) cr h t u tra).
Proof using HL Hm Hrx Ha Hp.
  pose proof (lenZ_nonneg p). unfold rbdAnchorComTp_RxPart3. rf_steps. cbn [rq_QueueState rslot]. rewrite bool_decide_true by done. unfold rbdAnchorComTp_RxDistributeMsg. rf_steps.
  cbn [rq_MsgIdx rslot]. eapply wp_lift; [exact Hm|]. rewrite Hrx. cbn [rq_DataLen rq_AnchorId rslot]. rewrite al_header, (u16_small 3) by lia. rewrite u16_small by lia. replace (lenZ p + 3 - 3) with (lenZ p) by lia.
  rf_steps. cbn [cd_RxBuffer]. eapply wp_lift; [apply (aslice_app [chan; cf_PduId c; info] p rest); done|]. rf_steps. apply wp_rf_call. intros r u1 E1. rf_steps. exists u1. done.
Qed.

(** The whole run for the head of the queue; the slot and the buffer are free again. *)
Lemma rx_peer_wp x0 rest off id cr u tra mi tf cm :
  s = h → t ≠ h → rbdAnchorComTp_GetRxChanId u c o = chan → 4 ≤ lenZ rest →
  let n := lenZ body in
  wp (CyclicRx_peer o)
    (λ _ w', ∃ u' b', w' = R (rslot RBDANCHORCOM_TX_IDLE (lenZ p + 3) m trunc code) (mkChRxData b' off id false) cr ((h + 1) mod 16) t u' (tra ++ [AnRx o (cf_PduId c) p]))
    (R (rslot RBDANCHORCOM_RX_QUEUED (n + 7) mi tf cm) (mkChRxData (x0 :: cf_PduId c :: info :: body ++ trunc :: code ++ rest) off id true) cr h t u tra).
Proof using HL HV Hidx Hm Hu8 Hrx Ha Hp Hinfo.
  intros Es Ht Hch Hrest n. unfold CyclicRx_peer. rf_steps. rewrite (proj2 (Z.eqb_neq _ _) Ht). replace (o, h) with (o, s) by congruence. rf_steps.
  eapply wp_mono; [by apply rx_part1_wp|]. cbv zeta. intros _ x (u1 & rest1 & ->). rf_steps.
  eapply wp_mono; [apply rx_part2_wp|]. intros _ x (u2 & rest2 & ->). rf_steps.
  eapply wp_mono; [apply rx_part3_wp|]. intros _ x (u3 & ->). rf_steps. cbn [rq_ErrCounter rq_QueueState rslot]. rewrite bool_decide_true by done. rewrite orb_true_r. cbn [when].
  cbn [rq_IsTempBuf rq_Channel rq_AnchorId rslot]. rf_steps. unfold rbdAnchorComTp_RemoveRxQueueHead. rf_steps. rewrite (proj2 (Z.eqb_neq _ _) Ht). replace (o, h) with (o, s) by congruence. rf_steps.
  exists u3. eexists. done.
Qed.
End recv.

(** * rbdAnchorComTp: the reception of a message, call by call *)

Section calls.
Context {U : Type} `{HC : Anchor_Cfg} `{HE : Anchor_Env U} {HL : Anchor_CfgOk}.
Abbreviation W := (AnchorWorld U).

(** Messages with the router's identifier [rx] come from peer [o] on channel [ch]. *)
Record AnchorRxRoute (o ch rx : Z) : Prop := {
  rr_rx : rbdAnchorComTp_FindByLLPdu rx LowerRxPdu RBDANCHORCOM_TP_NUM_LL_RX = Some (Some (ch, o));
  rr_peer : 0 ≤ o < RBDANCHORCOM_TP_NUM_LL_RX;
  rr_build : anchor_build ≠ RBD_PK_CPU_NCJ29D5;
  rr_max : 1 ≤ RBDANCHORCOM_TP_MAX_RX_BUFFER_LEN < 65536
}.

Definition rx_others_empty (o : Z) (w : W) : Prop :=
  ∀ j, 0 ≤ j < RBDANCHORCOM_TP_NUM_LL_RX → j ≠ o → ∃ x, aget (RxHead (an_rx w)) j = Some x ∧ aget (RxTail (an_rx w)) j = Some x.

(** Nothing waits to be verified; the buffers are as large as the comments of the code say. *)
Record rx_ready (o ch : Z) (w : W) : Prop := {
  ry_cr : ∃ cr, aget2 (ChRxInfo (an_rx w)) ch o = Some cr ∧ RBDANCHORCOM_TP_MAX_RX_BUFFER_LEN ≤ lenZ (cr_RxBuffer cr);
  ry_cd : ∃ cd, aget2 (ChRxBuff (an_rx w)) ch o = Some cd ∧ RBDANCHORCOM_TP_MAX_RX_BUFFER_LEN + 4 ≤ lenZ (cd_RxBuffer cd) ∧ cd_NeedVerify cd = false;
  ry_queue : ∃ h q, aget (RxHead (an_rx w)) o = Some h ∧ aget (RxTail (an_rx w)) o = Some h ∧ 0 ≤ h < 16 ∧ aget2 (RxMsgQueue (an_rx w)) o h = Some q;
  ry_others : rx_others_empty o w
}.

Context (o ch rx : Z) (HR : AnchorRxRoute o ch rx).

Lemma rx_others_rfoc w s q cd cr h t u tr : rx_others_empty o w → rx_others_empty o (rfoc w false o s ch q cd cr h t u tr).
Proof using HR.
  intros Hw j Hj Hne. destruct (Hw j Hj Hne) as (x & E1 & E2). exists x. destruct (rr_peer _ _ _ HR). cbn. by rewrite !aget_insert_ne by lia.
Qed.

(** The cyclic function works for this peer only. *)
Lemma cyclicrx_one w (Q : unit → W → Prop) :
  rx_others_empty o w → wp (CyclicRx_peer o) (λ _ w', rx_others_empty o w' ∧ Q tt w') w → wp rbdAnchorCom_CyclicRx Q w.
Proof using HR.
  intros Ho H1. destruct (rr_peer _ _ _ HR) as [Hp0 Hp1]. unfold rbdAnchorCom_CyclicRx, crypto_free. do 4 wp_step.
  rewrite bool_decide_false by apply (rr_build _ _ _ HR). cbn [negb orb when].
  assert (∀ j w', rx_others_empty o w' → 0 ≤ j < RBDANCHORCOM_TP_NUM_LL_RX → j ≠ o → wp (CyclicRx_peer j) (λ _ x, x = w') w') as Hidle.
  { intros j w' Hw' Hj Hne. destruct (Hw' j Hj Hne) as (x & E1 & E2). unfold CyclicRx_peer, rbdAnchorComTp_GetRxQueueHead, rx_elem.
    wp_steps. eapply wp_lift; [exact E2|]. wp_steps. eapply wp_lift; [exact E1|]. rewrite Z.eqb_refl. by wp_steps. }
  assert (∀ n k m' w' (Q' : unit → W → Prop), rx_others_empty o w' → 0 ≤ k → k + Z.of_nat n ≤ RBDANCHORCOM_TP_NUM_LL_RX → (∀ j, k ≤ j < k + Z.of_nat n → j ≠ o) →
    wp (mfor m' (k + Z.of_nat n) CyclicRx_peer) Q' w' → wp (mfor (n + m') k CyclicRx_peer) Q' w') as Hskip.
  { induction n as [|n IH]; intros k m' w' Q' Hw' Hk Hn Hj HQ; [by rewrite Z.add_0_r in HQ|]. cbn [Nat.add mfor]. wp_step.
    eapply wp_mono; [apply Hidle; [done|lia|apply Hj; lia]|]. intros [] x ->. apply IH; [done|lia|lia|intros j Hj'; apply Hj; lia|]. by replace (k + 1 + Z.of_nat n) with (k + Z.of_nat (S n)) by lia. }
  replace (Z.to_nat RBDANCHORCOM_TP_NUM_LL_RX) with (Z.to_nat o + S (Z.to_nat (RBDANCHORCOM_TP_NUM_LL_RX - o - 1)))%nat by lia.
  apply Hskip; [done|lia|lia|intros; lia|]. replace (0 + Z.of_nat (Z.to_nat o)) with o by lia. cbn [mfor]. wp_step.
  eapply wp_mono; [exact H1|]. intros [] w' [Hw' HQ]. rewrite <-(Nat.add_0_r (Z.to_nat _)). apply Hskip; [done|lia|lia|intros; lia|done].
Qed.

(** The router hands over the chunks of a message. *)
Fixpoint copy_rxs (ds : list (list Z)) : M W (list BufReq_ReturnType) :=
  match ds with
  | [] => mret []
  | d :: ds => '(r, _) ← rbdAnchorComTp_CopyRxData rx (Some (mkPduInfo (Some d) (lenZ d))) true; rs ← copy_rxs ds; mret (r :: rs)
  end.

Context (w : W) (s h t : Z) (Ha : rx_at w false o s ch).
Abbreviation R := (rfoc w false o s ch).

Lemma start_wp n cr q cd u tra :
  n ≤ RBDANCHORCOM_TP_MAX_RX_BUFFER_LEN →
  wp (rbdAnchorComTp_StartOfReception rx n)
    (λ r w', r = (BUFREQ_OK, Some RBDANCHORCOM_TP_MAX_RX_BUFFER_LEN) ∧ w' = R q cd (mkChRx 1 (cr_RxBuffer cr)) h t u tra) (R q cd cr h t u tra).
Proof using HL HR Ha.
  intros Hn. unfold rbdAnchorComTp_StartOfReception. wp_step. eapply wp_lift; [apply (rr_rx _ _ _ HR)|]. cbv iota. rewrite (proj2 (Z.ltb_ge _ _)) by lia. rf_steps. by rewrite al_chanid.
Qed.

Lemma copy_rxs_wp ds x0 got rest q cd u tra :
  1 + lenZ got + lenZ (concat ds) ≤ RBDANCHORCOM_TP_MAX_RX_BUFFER_LEN → lenZ (concat ds) ≤ lenZ rest →
  wp (copy_rxs ds)
    (λ r w', r = replicate (length ds) BUFREQ_OK ∧ ∃ rest', lenZ rest' = lenZ rest - lenZ (concat ds) ∧
       w' = R q cd (mkChRx (1 + lenZ (got ++ concat ds)) (x0 :: (got ++ concat ds) ++ rest')) h t u tra)
    (R q cd (mkChRx (1 + lenZ got) (x0 :: got ++ rest)) h t u tra).
Proof using HL HR Ha.
  pose proof (rr_max _ _ _ HR). revert got rest. induction ds as [|d ds IH]; intros got rest Hmax Hrest; cbn [copy_rxs concat length replicate] in *.
  { apply wp_ret. split; [done|]. exists rest. rewrite app_nil_r, lenZ_nil. split; [lia|done]. }
  rewrite lenZ_app in Hmax, Hrest. pose proof (lenZ_nonneg d). pose proof (lenZ_nonneg got). pose proof (lenZ_nonneg (concat ds)). destruct (split_at rest (lenZ d) ltac:(lia)) as (z & rest1 & -> & Hz). rewrite lenZ_app in Hrest.
  wp_step. unfold rbdAnchorComTp_CopyRxData. wp_step. eapply wp_lift; [apply (rr_rx _ _ _ HR)|]. cbv iota. cbn [negb]. rf_steps. cbn [cr_RxOffset cr_RxBuffer SduLength SduDataPtr].
  rewrite uw_small by (pose proof al_pdulen; assert (2 ^ 16 ≤ 2 ^ PduLength_bits) by (apply Z.pow_le_mono_r; lia); lia). rewrite (proj2 (Z.ltb_ge _ _)) by lia. rf_steps.
  eapply wp_lift; [apply aslice_is_Some; lia|]. rewrite drop_0. replace (take (Z.to_nat (lenZ d)) d) with d by (unfold lenZ; by rewrite Nat2Z.id, firstn_all). rf_steps.
  eapply wp_lift; [apply (awrite_mid (x0 :: got) z rest1); [by rewrite lenZ_cons|lia]|]. rf_steps. rewrite u16_small by lia.
  replace (1 + lenZ got + lenZ d) with (1 + lenZ (got ++ d)) by (rewrite lenZ_app; lia). change ((x0 :: got) ++ d ++ rest1) with (x0 :: got ++ d ++ rest1). rewrite (app_assoc got d rest1).
  eapply wp_mono; [apply (IH (got ++ d) rest1); [rewrite lenZ_app; lia|lia]|]. intros rs x (-> & rest' & Hl & ->). rf_steps. split; [done|]. exists rest'. split; [rewrite !lenZ_app in *; lia|].
  by rewrite <-(app_assoc got d).
Qed.

Lemma rx_indication_wp x0 wire rest q cdb off pid u tra :
  t = h → 0 ≤ h < 16 → s = h → RBDANCHORCOM_TP_MIN_RX_DATA_LEN ≤ 1 + lenZ wire → 1 + lenZ wire ≤ RBDANCHORCOM_TP_MAX_RX_BUFFER_LEN → RBDANCHORCOM_TP_MAX_RX_BUFFER_LEN + 4 ≤ lenZ cdb →
  wp (rbdAnchorComTp_TpRxIndication rx E_OK)
    (λ _ w', ∃ rest', 4 ≤ lenZ rest' ∧ w' = R (mkRxQ ch o false RBDANCHORCOM_RX_QUEUED 0 (1 + lenZ wire) (rq_MsgIdx q) (rq_TruncFresh q) (rq_CmacValue q))
       (mkChRxData (x0 :: wire ++ rest') (1 + lenZ wire) rx true) (mkChRx (1 + lenZ wire) (x0 :: wire ++ rest)) h ((h + 1) mod 16) u tra)
    (R q (mkChRxData cdb off pid false) (mkChRx (1 + lenZ wire) (x0 :: wire ++ rest)) h t u tra).
Proof using HL HR Ha.
  intros Et Hh Es Hmin Hmax Hcdb. pose proof (rr_max _ _ _ HR). pose proof (lenZ_nonneg wire). pose proof (lenZ_nonneg rest). unfold rbdAnchorComTp_TpRxIndication. wp_step. eapply wp_lift; [apply (rr_rx _ _ _ HR)|]. cbv iota.
  rewrite bool_decide_true by done. cbn [negb]. rf_steps. cbn [cr_RxOffset]. rewrite (proj2 (Z.leb_le _ _)) by lia. cbn [when]. rf_steps. cbn [cd_NeedVerify negb]. unfold store_message. rf_steps. cbn [cr_RxOffset cr_RxBuffer cd_RxBuffer].
  eapply wp_lift; [apply (aslice_app [] (x0 :: wire) rest); [done|by rewrite lenZ_cons]|]. rf_steps. destruct (split_at cdb (1 + lenZ wire) ltac:(lia)) as (z & rest' & -> & Hz). rewrite lenZ_app in Hcdb.
  eapply wp_lift; [apply (awrite_mid [] z rest'); [done|rewrite lenZ_cons; lia]|]. rf_steps. unfold rbdAnchorComTp_AddRxQueue. rf_steps. unfold RBDANCHORCOM_TP_QUEUE_SIZE.
  rewrite Et. rewrite (proj2 (Z.eqb_neq ((h + 1) mod 16) h) (next_slot_ne h Hh)). rf_steps. replace (o, h) with (o, s) by congruence. rf_steps. rewrite bool_decide_false by done. cbn [when]. rf_steps.
  exists rest'. split; [lia|]. cbn [cd_RxOffset]. rewrite dlen_small by lia. done.
Qed.
End calls.
