(* ===== verification/AnchorAuth.v ===== *)
(** * rbdAnchorComTp: only verified messages are delivered

    An invariant of all services: as long as the verification of a peer's messages does not
    succeed, none of them gets past the verification stage of the receive queue.  The slots
    carry the peer they were queued for, and only the verification stage moves a slot on. *)

From S2P Require Import Prelude ComStack AnchorTypes AnchorTx AnchorRx.
From stdpp Require Import base list numbers option.

#[local] Open Scope Z_scope.

(** [m] preserves [P] whenever it has a defined result. *)
Definition keeps {S A} (P : S → Prop) (m : M S A) : Prop := ∀ w, P w → wlp m (λ _, P) w.

Section keeps.
Context {S : Type} (P : S → Prop).
Lemma keeps_ret {A} (a : A) : keeps P (mret a).
Proof. intros w Hw. by apply wlp_ret. Qed.
Lemma keeps_gets {A} (f : S → A) : keeps P (gets f).
Proof. intros w Hw. by apply wlp_gets. Qed.
Lemma keeps_lift {A} (x : option A) : keeps P (lift x).
Proof. intros w Hw. by apply wlp_lift. Qed.
Lemma keeps_bind {A B} (m : M S A) (k : A → M S B) : keeps P m → (∀ a, keeps P (k a)) → keeps P (m ≫= k).
Proof. intros Hm Hk w Hw. apply wlp_bind. eapply wlp_mono; [by apply Hm|]. intros a w' Hw'. by apply Hk. Qed.
Lemma keeps_when b (m : M S unit) : keeps P m → keeps P (when b m).
Proof. intros Hm w Hw. apply wlp_when; intros _; [by apply Hm|done]. Qed.
Lemma keeps_mfor n i (body : Z → M S unit) : (∀ i, keeps P (body i)) → keeps P (mfor n i body).
Proof. intros Hb w Hw. apply wlp_mfor; [done|]. intros j w' Hw'. by apply Hb. Qed.
Lemma keeps_modify (f : S → S) : (∀ w, P w → P (f w)) → keeps P (modify f).
Proof. intros Hf w Hw. apply wlp_modify. by apply Hf. Qed.
End keeps.

Lemma aset2_lookup {A} (l l' : list (list A)) i j x a b y :
  aset2 l i j x = Some l' → aget2 l' a b = Some y → y = x ∧ (a, b) = (i, j) ∨ aget2 l a b = Some y ∧ (a, b) ≠ (i, j).
Proof.
  unfold aset2, aget2. intros E1 E2. apply bind_Some in E1 as (r & Er & E1). apply bind_Some in E1 as (r' & Er' & E1).
  apply aset_Some in E1 as [Hi ->]. apply aset_Some in Er' as [Hj ->]. apply bind_Some in E2 as (s & Es & E2).
  destruct (decide (a = i)) as [->|Hne].
  - rewrite aget_insert_eq in Es by done. injection Es as <-. destruct (decide (b = j)) as [->|Hb].
    + rewrite aget_insert_eq in E2 by done. injection E2 as <-. by left.
    + right. split; [|congruence]. rewrite Er. cbn. by rewrite aget_insert_ne in E2 by lia.
  - right. split; [|congruence]. rewrite aget_insert_ne in Es by lia. rewrite Es. done.
Qed.

Section auth.
Context {U : Type} `{HC : Anchor_Cfg} `{HE : Anchor_Env U} (o : Z).
Abbreviation W := (AnchorWorld U).

Definition early (s : QueueState_et) : bool := bool_decide (s ≠ RBDANCHORCOM_RX_DEC_READY ∧ s ≠ RBDANCHORCOM_RX_PROCESS_READY).
Definition slot_ok (q : rbdAnchorComTp_RxQueue_st) : Prop := rq_AnchorId q = o → early (rq_QueueState q) = true.
Definition event_ok (e : Anchor_Event) : Prop := match e with AnRx a _ _ => a ≠ o | _ => True end.
Definition foreign (p : Z * Z) (w : W) : Prop := ∃ q, aget2 (RxMsgQueue (an_rx w)) p.1 p.2 = Some q ∧ rq_AnchorId q ≠ o.

(** No slot of peer [o] is past verification and nothing of [o] was delivered; the slot [fp], if
    given, belongs to another peer. *)
Record unverified (fp : option (Z * Z)) (w : W) : Prop := {
  uv_slots : ∀ i j q, aget2 (RxMsgQueue (an_rx w)) i j = Some q → slot_ok q;
  uv_trace : Forall event_ok (an_trace w);
  uv_foreign : ∀ p, fp = Some p → foreign p w
}.

Section fp.
Context (fp : option (Z * Z)).
Abbreviation K := (keeps (unverified fp)).

Lemma keeps_upd_tx f : K (upd_tx f).
Proof. apply keeps_modify. by intros w []. Qed.
Lemma keeps_upd_rx f : (∀ r, RxMsgQueue (f r) = RxMsgQueue r) → K (upd_rx f).
Proof. intros Hf. apply keeps_modify. intros w [H1 H2 H3]. split; [|done|]; [|intros p Hp; destruct (H3 p Hp) as (q & E & Hq); exists q]; cbn; rewrite Hf; [apply H1|done]. Qed.
Lemma keeps_an_ev e : event_ok e → K (an_ev e).
Proof. intros He. apply keeps_modify. intros w [H1 H2 H3]. split; [done| |done]. cbn. apply Forall_app. by split; [|constructor]. Qed.
Lemma keeps_ReportError v a e : K (rbdAnchorCom_ReportError v a e).
Proof. by apply keeps_an_ev. Qed.
Lemma keeps_an_call {R} (f : U → R * U) : K (an_call f).
Proof.
  unfold an_call. apply keeps_bind; [apply keeps_gets|]. intros u. destruct (f u) as [r u']. apply keeps_bind; [|intros _; apply keeps_ret].
  apply keeps_modify. by intros w [].
Qed.

(** A changed slot: it stays admissible, or it is the slot of the other peer and stays so. *)
Lemma keeps_upd_rq q f :
  (∀ x, slot_ok x → slot_ok (f x)) ∨ fp = Some q → fp = None ∨ (∀ x, rq_AnchorId (f x) = rq_AnchorId x) → K (upd_rq q f).
Proof.
  intros H1 H2 w [Hs Ht Hf]. unfold upd_rq, get_rq, rx_elem2, rx_put2, upd_rx. wlp_steps. rename a into x, a0 into l.
  match goal with Hx : aget2 _ _ _ = Some x, Hl : aset2 _ _ _ _ = Some l |- _ => rename Hx into Ex, Hl into El end. split; cbn; [|done|].
  - intros i j y Hy. destruct (aset2_lookup _ _ _ _ _ _ _ _ El Hy) as [[-> E]|[Hy' _]]; [|by apply Hs in Hy'].
    destruct H1 as [H1|H1]; [eapply H1, Hs, Ex|]. destruct H2 as [H2|H2]; [congruence|]. intros Ea. destruct (Hf _ H1) as (z & Ez & Hz). rewrite Ez in Ex. injection Ex as ->. by rewrite H2 in Ea.
  - intros p Hp. destruct H2 as [H2|H2]; [congruence|]. destruct (Hf _ Hp) as (z & Ez & Hz). unfold foreign. cbn.
    destruct (aget2 l p.1 p.2) as [y|] eqn:Ey.
    + exists y. split; [done|]. destruct (aset2_lookup _ _ _ _ _ _ _ _ El Ey) as [[-> E]|[Hy' _]]; [|congruence].
      rewrite H2. destruct p, q. cbn in *. injection E as -> ->. congruence.
    + exfalso. unfold aset2, aget2 in *. apply bind_Some in El as (r & Er & El). apply bind_Some in El as (r' & Er' & El). apply aset_Some in El as [Hi ->], Er' as [Hj ->].
      rewrite aget_insert in Ey by done. case_decide as Hd; [|congruence]. rewrite <-Hd, Er in Ez. cbn in Ez, Ey. rewrite aget_insert in Ey by done. case_decide; congruence.
Qed.
Lemma keeps_rx_failed q n : K (rx_failed q n).
Proof. apply keeps_upd_rq; [by left|by right]. Qed.

Lemma keeps_tx_put {A} f (put : list A → AnchorTx → AnchorTx) i x : K (tx_put f put i x).
Proof. unfold tx_put. repeat (apply keeps_bind; [first [apply keeps_gets|apply keeps_lift]|intros ?]). apply keeps_upd_tx. Qed.
Lemma keeps_tx_put2 {A} f (put : list (list A) → AnchorTx → AnchorTx) i j x : K (tx_put2 f put i j x).
Proof. unfold tx_put2. repeat (apply keeps_bind; [first [apply keeps_gets|apply keeps_lift]|intros ?]). apply keeps_upd_tx. Qed.
Lemma keeps_rx_put {A} f (put : list A → AnchorRx → AnchorRx) i x : (∀ l r, RxMsgQueue (put l r) = RxMsgQueue r) → K (rx_put f put i x).
Proof. intros. unfold rx_put. repeat (apply keeps_bind; [first [apply keeps_gets|apply keeps_lift]|intros ?]). by apply keeps_upd_rx. Qed.
Lemma keeps_rx_put2 {A} f (put : list (list A) → AnchorRx → AnchorRx) i j x : (∀ l r, RxMsgQueue (put l r) = RxMsgQueue r) → K (rx_put2 f put i j x).
Proof. intros. unfold rx_put2. repeat (apply keeps_bind; [first [apply keeps_gets|apply keeps_lift]|intros ?]). by apply keeps_upd_rx. Qed.
Lemma keeps_put_cd temp c i x : K (put_cd temp c i x).
Proof. destruct temp; by apply keeps_rx_put2. Qed.
End fp.

Ltac head_of t := lazymatch t with ?f _ => head_of f | _ => t end.

(** Symbolic execution of the services: what does not touch the receive queue. *)
Ltac keep :=
  lazymatch goal with
  | |- keeps _ (mbind _ _) => apply keeps_bind; [|intros ?]
  | |- keeps _ (mret _) => apply keeps_ret
  | |- keeps _ (gets _) => apply keeps_gets
  | |- keeps _ (lift _) => apply keeps_lift
  | |- keeps _ (when _ _) => apply keeps_when
  | |- keeps _ (mfor _ _ _) => apply keeps_mfor; intros ?
  | |- keeps _ (upd_tx _) => apply keeps_upd_tx
  | |- keeps _ (rbdAnchorCom_ReportError _ _ _) => apply keeps_ReportError
  | |- keeps _ (an_call _) => apply keeps_an_call
  | |- keeps _ (tx_put _ _ _ _) => apply keeps_tx_put
  | |- keeps _ (tx_put2 _ _ _ _ _) => apply keeps_tx_put2
  | |- keeps _ (put_cd _ _ _ _) => apply keeps_put_cd
  | |- keeps _ (rx_failed _ _) => apply keeps_rx_failed
  | |- keeps _ (rx_put RxHead _ _ _) => apply keeps_rx_put; done
  | |- keeps _ (rx_put RxTail _ _ _) => apply keeps_rx_put; done
  | |- keeps _ (put_cr _ _ _) => apply keeps_rx_put2; done
  | |- keeps _ (an_ev _) => apply keeps_an_ev; exact I
  | |- keeps _ (if ?b then _ else _) => destruct b
  | |- keeps _ (match ?x with _ => _ end) => destruct x
  | |- keeps _ ?m => let h := head_of m in unfold h
  end.
Ltac keep_all := repeat keep.

Section services.
Context (fp : option (Z * Z)).
Abbreviation K := (keeps (unverified fp)).

Lemma keeps_Transmit a b c d e f g : K (rbdAnchorCom_Transmit a b c d e f g).
Proof. keep_all. Qed.
Lemma keeps_IsTxPossible a b c : K (rbdAnchorCom_IsTxPossible a b c).
Proof. keep_all. Qed.
Lemma keeps_CyclicTx : K rbdAnchorCom_CyclicTx.
Proof. keep_all. Qed.
Lemma keeps_CopyTxData a b c : K (rbdAnchorComTp_CopyTxData a b c).
Proof. keep_all. Qed.
Lemma keeps_TpTxConfirmation a b : K (rbdAnchorComTp_TpTxConfirmation a b).
Proof. keep_all. Qed.
Lemma keeps_StartOfReception a b : K (rbdAnchorComTp_StartOfReception a b).
Proof. keep_all. Qed.
Lemma keeps_CopyRxData a b c : K (rbdAnchorComTp_CopyRxData a b c).
Proof. keep_all. Qed.
Lemma keeps_Init : K rbdAnchorCom_Init.
Proof. keep_all. Qed.
End services.

(** ** Reception *)

Lemma keeps_AddRxQueue c a t : keeps (unverified None) (rbdAnchorComTp_AddRxQueue c a t).
Proof.
  unfold rbdAnchorComTp_AddRxQueue. repeat first [apply keeps_upd_rq; [left; by intros x _ _|by left] | keep].
Qed.
Lemma keeps_store t a c b : keeps (unverified None) (store_message t a c b).
Proof. unfold store_message. repeat first [apply keeps_AddRxQueue | keep]. Qed.
Lemma keeps_TpRxIndication a b : keeps (unverified None) (rbdAnchorComTp_TpRxIndication a b).
Proof. unfold rbdAnchorComTp_TpRxIndication. repeat first [apply keeps_store | keep]. Qed.

Lemma keeps_early_upd fp q f : (∀ x, rq_AnchorId (f x) = rq_AnchorId x ∧ (early (rq_QueueState x) = true → early (rq_QueueState (f x)) = true)) → keeps (unverified fp) (upd_rq q f).
Proof.
  intros H. apply keeps_upd_rq; [left|right; intros x; apply H]. intros x Hx Ha. apply H, Hx. by rewrite <-(proj1 (H x)).
Qed.
Ltac keep_rx := repeat first [apply keeps_early_upd; by intros [] | keep].

Lemma keeps_RxFormatForCmac fp p : keeps (unverified fp) (rbdAnchorComTp_RxFormatForCmac p).
Proof. keep_rx. Qed.
Lemma keeps_RemoveRxQueueHead a : keeps (unverified None) (rbdAnchorComTp_RemoveRxQueueHead a).
Proof. keep_rx. Qed.

(** Under the assumption that the slot belongs to another peer, everything is allowed. *)
Lemma keeps_own_upd p f : (∀ x, rq_AnchorId (f x) = rq_AnchorId x) → keeps (unverified (Some p)) (upd_rq p f).
Proof. intros Hf. apply keeps_upd_rq; by right. Qed.
Ltac keep_own := repeat first [apply keeps_own_upd; by intros [] | keep].
Lemma keeps_verified p : keeps (unverified (Some p)) (verified p).
Proof. keep_own. Qed.
Lemma keeps_RxStartDecryption p : keeps (unverified (Some p)) (rbdAnchorComTp_RxStartDecryption (Some p)).
Proof. keep_own. Qed.
Lemma keeps_decrypted p : keeps (unverified (Some p)) (decrypted p).
Proof. keep_own. Qed.

Lemma unverified_forget fp w : unverified fp w → unverified None w.
Proof. by intros []. Qed.
Lemma wlp_forget {A} p (m : M W A) w : keeps (unverified (Some p)) m → unverified (Some p) w → wlp m (λ _, unverified None) w.
Proof. intros Hm Hw. eapply wlp_mono; [by apply Hm|]. intros a w'. apply unverified_forget. Qed.
(** A slot past verification is another peer's. *)
Lemma wlp_get_slot p w (Q : rbdAnchorComTp_RxQueue_st → W → Prop) :
  unverified None w → (∀ q, aget2 (RxMsgQueue (an_rx w)) p.1 p.2 = Some q → slot_ok q → Q q w) → wlp (get_rq p) Q w.
Proof. intros Hw HQ. unfold get_rq, rx_elem2. wlp_steps. apply HQ; [done|]. by eapply uv_slots. Qed.
Lemma unverified_foreign p w q : unverified None w → aget2 (RxMsgQueue (an_rx w)) p.1 p.2 = Some q → rq_AnchorId q ≠ o → unverified (Some p) w.
Proof. intros [H1 H2 _] Eq Hq. split; [done..|]. intros ? [= <-]. by exists q. Qed.

Lemma wlp_get_own p w (Q : rbdAnchorComTp_RxQueue_st → W → Prop) :
  unverified (Some p) w → (∀ q, rq_AnchorId q ≠ o → Q q w) → wlp (get_rq p) Q w.
Proof. intros Hw HQ. unfold get_rq, rx_elem2. wlp_steps. apply HQ. destruct (uv_foreign _ _ Hw p eq_refl) as (q & Eq & Hq). congruence. Qed.

Lemma RxDistribute_own p : keeps (unverified (Some p)) (rbdAnchorComTp_RxDistributeMsg (Some p)).
Proof.
  intros w Hw. unfold rbdAnchorComTp_RxDistributeMsg. wlp_step. apply wlp_get_own; [done|]. intros q Hq. revert w Hw.
  match goal with |- ∀ w, _ → wlp ?m _ w => change (keeps (unverified (Some p)) m) end. repeat first [apply keeps_an_ev; exact Hq | keep].
Qed.

Context (Hbad : ∀ d m u, (Csm_Verify o d m u).1 ≠ RBDANCHORCOM_OK).

Lemma wlp_an_call {R} (f : U → R * U) (Q : R → W → Prop) w :
  (∀ r u, f (an_up w) = (r, u) → Q r (mkAnchor (an_tx w) (an_rx w) u (an_trace w))) → wlp (an_call f) Q w.
Proof. intros H. unfold an_call. do 2 wlp_step. destruct (f (an_up w)) as [r u] eqn:E. do 2 wlp_step. by apply wlp_ret, H. Qed.

(** The verification stage. *)
Lemma RxStartCmac_unverified p w :
  unverified None w → wlp (rbdAnchorComTp_RxStartCmac (Some p)) (λ r w', unverified None w' ∧ (r = RBDANCHORCOM_OK → unverified (Some p) w')) w.
Proof using Hbad.
  intros Hw. unfold rbdAnchorComTp_RxStartCmac. wlp_step. apply wlp_get_slot; [done|]. intros q Eq Hq. unfold rq_buffer, get_cd, rx_elem2. do 8 wlp_step.
  apply wlp_an_call. intros r u E. assert (unverified None (mkAnchor (an_tx w) (an_rx w) u (an_trace w))) as Hw' by (by destruct Hw). split; [done|].
  intros ->. eapply unverified_foreign; [done|exact Eq|]. intros Ho. rewrite Ho in E. by apply (Hbad _ _ _ (f_equal fst E)).
Qed.

Lemma RxPart1_unverified p : keeps (unverified None) (rbdAnchorComTp_RxPart1 p).
Proof using Hbad.
  unfold rbdAnchorComTp_RxPart1. destruct p as [p|]; [|by keep_all]. keep; [by keep_all|]. keep; [keep; [keep; [apply keeps_RxFormatForCmac|by intros; keep_all]|by keep_all]|].
  keep; [by keep_all|]. keep; [|by keep_all]. intros w Hw. wlp_step. eapply wlp_mono; [by apply RxStartCmac_unverified|]. intros r w' [Hw' Hf]. wlp_step.
  apply (wlp_mono _ (λ _, unverified None)); [|intros [] w'' Hw''; by apply wlp_ret]. unfold rx_react. destruct r.
  - apply (wlp_forget p); [apply keeps_verified|by apply Hf].
  - by apply keeps_rx_failed.
  - apply keeps_early_upd; [by intros []|done].
  - by apply keeps_rx_failed.
Qed.

(** The stages behind it do not run for the slots of this peer. *)
Lemma past_is_foreign p w q s : unverified None w → aget2 (RxMsgQueue (an_rx w)) p.1 p.2 = Some q → rq_QueueState q = s → early s = false → unverified (Some p) w.
Proof. intros Hw Eq Es He. eapply unverified_foreign; [done..|]. intros Ho. pose proof (uv_slots _ _ Hw _ _ _ Eq Ho) as Hs. congruence. Qed.

Lemma RxPart2_unverified p : keeps (unverified None) (rbdAnchorComTp_RxPart2 p).
Proof.
  unfold rbdAnchorComTp_RxPart2. destruct p as [p|]; [|by keep_all]. intros w Hw. wlp_step. apply wlp_get_slot; [done|]. intros q Eq _. wlp_step; [|by wlp_step].
  match goal with Hs : bool_decide _ = true |- _ => apply bool_decide_eq_true in Hs; pose proof (past_is_foreign _ _ _ _ Hw Eq Hs eq_refl) as Hf end.
  apply (wlp_forget p); [|done]. keep; [apply keeps_RxStartDecryption|]. keep; [|by keep_all]. unfold rx_react. keep; [apply keeps_decrypted|apply keeps_rx_failed|by apply keeps_own_upd|apply keeps_rx_failed].
Qed.
Lemma RxPart3_unverified p : keeps (unverified None) (rbdAnchorComTp_RxPart3 p).
Proof.
  unfold rbdAnchorComTp_RxPart3. destruct p as [p|]; [|by keep_all]. intros w Hw. wlp_step. apply wlp_get_slot; [done|]. intros q Eq _. wlp_step; [|by wlp_step].
  match goal with Hs : bool_decide _ = true |- _ => apply bool_decide_eq_true in Hs; pose proof (past_is_foreign _ _ _ _ Hw Eq Hs eq_refl) as Hf end.
  apply (wlp_forget p); [|done]. keep; [apply RxDistribute_own|]. keep; [|by keep_all]. keep; by first [apply keeps_rx_failed | apply keeps_own_upd].
Qed.
Lemma CyclicRx_unverified : keeps (unverified None) rbdAnchorCom_CyclicRx.
Proof using Hbad.
  unfold rbdAnchorCom_CyclicRx, CyclicRx_peer. repeat first [apply RxPart1_unverified | apply RxPart2_unverified | apply RxPart3_unverified | apply keeps_RemoveRxQueueHead | keep].
Qed.

(** ** Sequences of calls *)

Inductive Anchor_Call :=
| AcInit
| AcIsTxPossible (OtherEndIdx PduId : Z) (ow : bool)
| AcTransmit (OtherEndIdx PduId Length : Z) (Buf : option (list Z)) (Length2 : Z) (Buf2 : option (list Z)) (ow : bool)
| AcCyclicTx
| AcCyclicRx
| AcCopyTx (id : Z) (info : option (Z * bool)) (retry : option (bool * Z))
| AcTxConf (id : Z) (r : Std_ReturnType)
| AcStart (id len : Z)
| AcCopyRx (id : Z) (info : option PduInfoType) (p : bool)
| AcRxInd (id : Z) (r : Std_ReturnType).

Definition anchor_call (c : Anchor_Call) : M W unit :=
  match c with
  | AcInit => rbdAnchorCom_Init
  | AcIsTxPossible a b c => rbdAnchorCom_IsTxPossible a b c;; mret tt
  | AcTransmit a b c d e f g => rbdAnchorCom_Transmit a b c d e f g;; mret tt
  | AcCyclicTx => rbdAnchorCom_CyclicTx
  | AcCyclicRx => rbdAnchorCom_CyclicRx
  | AcCopyTx a b c => rbdAnchorComTp_CopyTxData a b c;; mret tt
  | AcTxConf a b => rbdAnchorComTp_TpTxConfirmation a b
  | AcStart a b => rbdAnchorComTp_StartOfReception a b;; mret tt
  | AcCopyRx a b c => rbdAnchorComTp_CopyRxData a b c;; mret tt
  | AcRxInd a b => rbdAnchorComTp_TpRxIndication a b
  end.
Fixpoint anchor_run (cs : list Anchor_Call) : M W unit := match cs with [] => mret tt | c :: cs => anchor_call c;; anchor_run cs end.

Lemma call_unverified c : keeps (unverified None) (anchor_call c).
Proof using Hbad.
  destruct c; cbn [anchor_call];
    repeat first [apply keeps_Init | apply keeps_IsTxPossible | apply keeps_Transmit | apply keeps_CyclicTx | apply CyclicRx_unverified | apply keeps_CopyTxData
      | apply keeps_TpTxConfirmation | apply keeps_StartOfReception | apply keeps_CopyRxData | apply keeps_TpRxIndication | keep].
Qed.
Lemma run_unverified cs : keeps (unverified None) (anchor_run cs).
Proof using Hbad. induction cs as [|c cs IH]; cbn [anchor_run]; [apply keeps_ret|]. apply keeps_bind; [apply call_unverified|by intros _]. Qed.
End auth.
