(* ===== verification/AnchorClaims.v ===== *)
(** * rbdAnchorComTp: what the secure messages go through

    The round trip of a message, what a failed encryption does to the queue, and which
    channel identifiers agree.  The instance at the end is an anchor that talks to a master. *)

From S2P Require Import Prelude ComStack AnchorTypes AnchorTx AnchorRx AnchorFoc AnchorSend AnchorRecv AnchorAuth.
From stdpp Require Import base list numbers option.

#[local] Open Scope Z_scope.

Lemma info_pad old n : Z.land (info_byte true old n) 15 = pad_len n.
Proof.
  unfold info_byte. pose proof (pad_len_range n) as Hr. destruct (Z.eqb_spec (pad_len n) 0) as [->|]; [done|].
  assert (Forall (λ x, Z.land (Z.lor 128 x) 15 = x) (seqZ 0 16)) as HF by (vm_compute; repeat constructor).
  rewrite Forall_forall in HF. apply HF, list_elem_of_In, elem_of_seqZ. lia.
Qed.

Section receive.
Context {U : Type} `{HC : Anchor_Cfg} `{HE : Anchor_Env U} {HL : Anchor_CfgOk}.
Context (o m ch rx : Z) (c : rbdAnchorComTp_Cfg_st) (HR : AnchorRxRoute o ch rx).
Context (fresh : list Z) (trunc : Z) (enc mac : list Z → list Z) {HV : AnchorReceiver o fresh trunc enc mac}.
Context (Hidx : rbdAnchorComTp_FindIdx (cf_PduId c) = Some m) (Hm : aget MsgCfg m = Some c) (Hu8 : m < 256) (Hrx : cf_RxIndication c = true).

(** A message in any portions, then one run of the cyclic function. *)
Lemma receive_message (v : AnchorWorld U) p chan info ds :
  let body := if cf_EncDecFlag c then enc (padded true p) else p in
  let wire := cf_PduId c :: info :: body ++ trunc :: take 3 (mac (chan :: cf_PduId c :: info :: body ++ fresh)) in
  rx_ready o ch v → rbdAnchorComTp_GetRxChanId (an_up v) c o = chan → lenZ p < 4096 → (cf_EncDecFlag c = true → Z.land info 15 = pad_len (lenZ p)) →
  RBDANCHORCOM_TP_MIN_RX_DATA_LEN ≤ 1 + lenZ wire → 1 + lenZ wire ≤ RBDANCHORCOM_TP_MAX_RX_BUFFER_LEN → concat ds = wire →
  ∃ v1 v2 v3 v4, rbdAnchorComTp_StartOfReception rx (lenZ wire) v = Some ((BUFREQ_OK, Some RBDANCHORCOM_TP_MAX_RX_BUFFER_LEN), v1) ∧
    copy_rxs rx ds v1 = Some (replicate (length ds) BUFREQ_OK, v2) ∧ rbdAnchorComTp_TpRxIndication rx E_OK v2 = Some (tt, v3) ∧
    rbdAnchorCom_CyclicRx v3 = Some (tt, v4) ∧ an_trace v4 = an_trace v ++ [AnRx o (cf_PduId c) p].
Proof using HL HR HV Hidx Hm Hu8 Hrx.
  intros body wire [(cr & Ecr & Hcr) (cd & Ecd & Hcd & Hnv) (h & q & Eh & Et & Hh & Eq) Hoth] Hchan Hp Hinfo Hmin Hmax Hds. pose proof (rr_max _ _ _ HR).
  destruct (rfoc_intro v false o h ch q cd cr h h Eq Ecd Ecr Eh Et) as [Ev Ha]. destruct cr as [off0 rb], cd as [cdb doff dpid dnv]. cbn [cr_RxBuffer cd_RxBuffer cd_NeedVerify] in *. subst dnv.
  destruct (wp_run _ _ _ (start_wp o ch rx HR v h h h Ha (lenZ wire) (mkChRx off0 rb) q (mkChRxData cdb doff dpid false) (an_up v) (an_trace v) ltac:(lia))) as (r & v1 & E1 & -> & ->). rewrite <-Ev in E1. cbn [cr_RxBuffer] in E1.
  destruct rb as [|x0 rb]; [unfold lenZ in Hcr; cbn in Hcr; lia|]. rewrite lenZ_cons in Hcr.
  destruct (wp_run _ _ _ (copy_rxs_wp o ch rx HR v h h h Ha ds x0 [] rb q (mkChRxData cdb doff dpid false) (an_up v) (an_trace v) ltac:(rewrite Hds, lenZ_nil; lia) ltac:(rewrite Hds; lia))) as (rs & v2 & E2 & -> & rest & Hrest & ->).
  rewrite Hds in E2. cbn [app] in E2. rewrite lenZ_nil in E2.
  destruct (wp_run _ _ _ (rx_indication_wp o ch rx HR v h h h Ha x0 wire rest q cdb doff dpid (an_up v) (an_trace v) eq_refl Hh eq_refl Hmin Hmax Hcd)) as ([] & v3 & E3 & rest' & Hr' & ->).
  assert (lenZ wire + 1 = lenZ body + 7) as Hwl.
  { unfold wire. rewrite !lenZ_cons, lenZ_app, lenZ_cons. pose proof (rc_mac_len (chan :: cf_PduId c :: info :: body ++ fresh)). unfold lenZ in *. rewrite length_take. lia. }
  rewrite (Z.add_comm 1 (lenZ wire)), Hwl in *.
  match type of E3 with _ = Some (_, ?v3) => assert (wp rbdAnchorCom_CyclicRx (λ _ x, an_trace x = an_trace v ++ [AnRx o (cf_PduId c) p]) v3) as H4 end.
  { apply (cyclicrx_one o ch rx HR); [by apply (rx_others_rfoc o ch rx HR)|]. eapply wp_mono.
    { replace (wire ++ rest') with (cf_PduId c :: info :: body ++ trunc :: take 3 (mac (chan :: cf_PduId c :: info :: body ++ fresh)) ++ rest') by (unfold wire; cbn; by rewrite <-app_assoc).
      apply (rx_peer_wp o m ch c fresh trunc enc mac Hidx Hm Hu8 Hrx v false h h ((h + 1) mod 16) Ha p chan info Hp Hinfo x0 rest'); [done|by apply next_slot_ne|done|done]. }
    intros _ x (u' & b' & ->). split; [by apply (rx_others_rfoc o ch rx HR)|done]. }
  destruct (wp_run _ _ _ H4) as ([] & v4 & E4 & Htr). eexists _, _, _, v4. split_and!; [exact E1|exact E2|exact E3|exact E4|exact Htr].
Qed.
End receive.

Section roundtrip.
Context {V : Type} {HC' : Anchor_Cfg} {HE' : Anchor_Env V} {HL' : @Anchor_CfgOk HC'}.
Context (o' m' ch' rx : Z) (c' : rbdAnchorComTp_Cfg_st) (HX : @AnchorRxRoute HC' o' ch' rx).
Context (Hidx : @rbdAnchorComTp_FindIdx HC' (cf_PduId c') = Some m') (Hm : aget (@MsgCfg HC') m' = Some c') (Hu8 : m' < 256) (Hrx : cf_RxIndication c' = true).
Context {U : Type} {HC : Anchor_Cfg} {HE : Anchor_Env U} {HL : Anchor_CfgOk} {HF : AnchorFresh U} {HS : AnchorSender U}.
Context (o m : Z) (c : rbdAnchorComTp_Cfg_st) (pd cb : Z) (HT : AnchorRoute o m c pd cb).
Context {HV : @AnchorReceiver V HC' HE' o' sd_fresh sd_trunc sd_enc sd_mac}.

(** C33. A secure message crosses the link.  The application's request is accepted; one run of the
    cyclic function formats, pads, encrypts and authenticates it and asks the router to send it;
    the router reads the same bytes in whatever portions it asks for; after the confirmation
    the next run frees queue and buffer.  A receiver that gets these bytes, in whatever portions,
    and shares freshness value, keys and channel identifier, hands exactly the bytes of the
    request to its application, as one message of the same PDU from that peer. *)
Theorem anchor_round_trip (w : AnchorWorld U) (v : AnchorWorld V) (p : list Z) (ow : bool) :
  tx_ready o m c w → @rx_ready V HC' o' ch' v → lenZ p ≤ cf_Length c → cf_PduId c' = cf_PduId c → cf_EncDecFlag c' = cf_EncDecFlag c →
  rbdAnchorComTp_GetTxChanId (an_up w) c o = @rbdAnchorComTp_GetRxChanId V HC' HE' (an_up v) c' o' →
  @RBDANCHORCOM_TP_MIN_RX_DATA_LEN HC' ≤ lenZ p + 7 → lenZ p + 22 ≤ @RBDANCHORCOM_TP_MAX_RX_BUFFER_LEN HC' →
  ∃ wire w1 w2, rbdAnchorCom_Transmit o (cf_PduId c) (lenZ p) (Some p) 0 None ow w = Some (E_OK, w1) ∧
    rbdAnchorCom_CyclicTx w1 = Some (tt, w2) ∧ an_trace w2 = an_trace w ++ [AnTransmit pd (lenZ wire) E_OK] ∧
    (∀ ns, Forall (Z.le 0) ns → foldr Z.add 0 ns = lenZ wire →
      ∃ w3 w4 w5, copies cb ns w2 = Some (wire, w3) ∧ rbdAnchorComTp_TpTxConfirmation cb E_OK w3 = Some (tt, w4) ∧
        rbdAnchorCom_CyclicTx w4 = Some (tt, w5) ∧ tx_ready o m c w5) ∧
    (∀ ds, concat ds = wire →
      ∃ v1 v2 v3 v4 size, @rbdAnchorComTp_StartOfReception V HC' rx (lenZ wire) v = Some ((BUFREQ_OK, size), v1) ∧
        @copy_rxs V HC' rx ds v1 = Some (replicate (length ds) BUFREQ_OK, v2) ∧ @rbdAnchorComTp_TpRxIndication V HC' rx E_OK v2 = Some (tt, v3) ∧
        @rbdAnchorCom_CyclicRx V HC' HE' v3 = Some (tt, v4) ∧ an_trace v4 = an_trace v ++ [AnRx o' (cf_PduId c) p]).
Proof using HL HF HS HT HL' HX HV Hidx Hm Hu8 Hrx.
  intros Hw Hv Hp Epdu Eenc Echan Hmin Hmax. pose proof (ar_len _ _ _ _ _ HT). pose proof (lenZ_nonneg p). pose proof (pad_len_range (lenZ p)).
  destruct (send_message o m c pd cb HT w p ow Hw Hp) as (old & w1 & w2 & E1 & E2 & Et2 & Hcopies). set (info := info_byte _ _ _) in *. set (wire := anchor_wire _ _ _ _) in *.
  exists wire, w1, w2. do 3 (split; [done|]). split.
  { intros ns Hns Hsum. destruct (Hcopies ns Hns Hsum) as (w3 & w4 & w5 & E3 & E4 & E5 & Hr & _). by exists w3, w4, w5. }
  intros ds Hds. assert (lenZ wire = lenZ (padded (cf_EncDecFlag c) p) + 6) as Hwl by (unfold wire; by rewrite wire_len, body_len). rewrite padded_len in Hwl.
  assert (wire = cf_PduId c' :: info :: (if cf_EncDecFlag c' then sd_enc (padded true p) else p) ++ sd_trunc ::
    take 3 (sd_mac (rbdAnchorComTp_GetTxChanId (an_up w) c o :: cf_PduId c' :: info :: (if cf_EncDecFlag c' then sd_enc (padded true p) else p) ++ sd_fresh))) as Ewire by (rewrite Epdu, Eenc; done).
  destruct (receive_message o' m' ch' rx c' HX sd_fresh sd_trunc sd_enc sd_mac Hidx Hm Hu8 Hrx v p (rbdAnchorComTp_GetTxChanId (an_up w) c o) info ds) as (v1 & v2 & v3 & v4 & R1 & R2 & R3 & R4 & Rt); try done.
  - lia.
  - rewrite Eenc. unfold info. intros ->. apply info_pad.
  - rewrite <-Ewire, Hwl. destruct (cf_EncDecFlag c); lia.
  - rewrite <-Ewire, Hwl. destruct (cf_EncDecFlag c); lia.
  - by rewrite Hds.
  - rewrite <-Ewire in R1. rewrite Epdu in Rt. by exists v1, v2, v3, v4, (Some (@RBDANCHORCOM_TP_MAX_RX_BUFFER_LEN HC')).
Qed.
End roundtrip.

(** ** A failed encryption *)

Section blocked.
Context {U : Type} {HC : Anchor_Cfg} {HE : Anchor_Env U} {HL : Anchor_CfgOk} {HF : AnchorFresh U}.
Context (o m : Z) (c : rbdAnchorComTp_Cfg_st) (pd cb : Z) (HT : AnchorRoute o m c pd cb).
Abbreviation ch := (cf_Channel c).

Fixpoint cyclic_txs (n : nat) : M (AnchorWorld U) unit := match n with O => mret tt | S n => rbdAnchorCom_CyclicTx;; cyclic_txs n end.

(** A head that waits for its encryption is passed over. *)
Lemma waiting_peer w s h t b mi err tr cm ct u tra :
  tx_at w o m s ch → s = h → t ≠ h → err < RBDANCHORCOM_MAX_RETRY_COUNT →
  let x := tfoc w o m s ch b mi (slot o m ch RBDANCHORCOM_TX_ENC_READY err tr cm) ct h t u tra in
  wp (CyclicTx_peer o) (λ _ w', w' = x) x.
Proof.
  intros Ha Es Ht Herr x. unfold x, CyclicTx_peer, settle_head. tf_steps. rewrite (proj2 (Z.eqb_neq _ _) Ht). replace (o, h) with (o, s) by congruence. tf_steps. cbn [tq_QueueState slot].
  rewrite !bool_decide_false by done. cbn [when]. tf_steps. unfold rbdAnchorComTp_TxPart1, rbdAnchorComTp_TxPart2, rbdAnchorComTp_TxPart3. tf_steps. cbn [tq_QueueState slot]. rewrite bool_decide_false by done. tf_steps.
  cbn [tq_QueueState slot]. rewrite bool_decide_false by done. tf_steps. cbn [tq_QueueState slot]. rewrite bool_decide_false by done. tf_steps. cbn [tq_ErrCounter slot]. rewrite (proj2 (Z.leb_gt _ _)) by lia. by apply wp_ret.
Qed.

(** A failed encryption blocks a peer for good: the cyclic function starts the encryption only
    from the state before formatting, so when Csm_Encrypt fails for the head of a queue it is
    never asked again: the head stays, no run of the cyclic function changes anything any
    more, the retry counter included, and nothing of this queue is ever sent. *)
Theorem anchor_encrypt_fail_blocks (w : AnchorWorld U) (p : list Z) (ow : bool) :
  tx_ready o m c w → lenZ p ≤ cf_Length c → cf_EncDecFlag c = true → 1 < RBDANCHORCOM_MAX_RETRY_COUNT → 1 ≤ ErrCounter_bits →
  (∀ x u, ∃ e u', Csm_Encrypt x sd_fresh u = (RBDANCHORCOM_FAIL, e, u') ∧ lenZ e = lenZ x) →
  ∃ w1 w2 h q, rbdAnchorCom_Transmit o (cf_PduId c) (lenZ p) (Some p) 0 None ow w = Some (E_OK, w1) ∧
    rbdAnchorCom_CyclicTx w1 = Some (tt, w2) ∧ an_trace w2 = an_trace w ∧
    aget (TxHead (an_tx w2)) o = Some h ∧ aget2 (TxMsgQueue (an_tx w2)) o h = Some q ∧ tq_MsgIdx q = m ∧ tq_QueueState q = RBDANCHORCOM_TX_ENC_READY ∧
    ∀ n, cyclic_txs n w2 = Some (tt, w2).
Proof using HL HF HT.
  intros Hw Hp Henc Hretry Hbits Hfail. pose proof (ar_len _ _ _ _ _ HT) as Hlen. pose proof (lenZ_nonneg p). pose proof (pad_len_range (lenZ p)).
  destruct (transmit_queues o m c pd cb HT w p ow Hw Hp) as (h & x0 & x1 & x2 & rest & tr & cm & ct & Ha & Hh & Hrest & Hwp).
  destruct (wp_run _ _ _ Hwp) as (r & w1 & E1 & -> & ->). pose proof (next_slot_ne h Hh) as Hne. assert (others_empty o w) as Hoth by apply Hw.
  match type of E1 with _ = Some (_, ?w1) => assert (wp rbdAnchorCom_CyclicTx (λ _ w2, ∃ b mi u, w2 = tfoc w o m h ch b mi (slot o m ch RBDANCHORCOM_TX_ENC_READY 1 sd_trunc cm) ct h ((h + 1) mod 16) u (an_trace w)) w1) as H2 end.
  { apply (cyclictx_one o m c pd cb HT); [by apply (others_tfoc o m c pd cb HT)|].
    unfold CyclicTx_peer, settle_head. tf_steps. rewrite (proj2 (Z.eqb_neq _ _) Hne). tf_steps. cbn [tq_QueueState slot]. rewrite !bool_decide_false by done. cbn [when]. tf_steps.
    unfold rbdAnchorComTp_TxPart1. tf_steps. cbn [tq_QueueState slot]. rewrite bool_decide_true by done. tf_steps.
    eapply wp_mono; [apply (format_wp w o m ch c (ar_cfg _ _ _ _ _ HT)); [done|lia|lia]|]. cbv zeta. rewrite Henc. intros r x (-> & u1 & rest1 & Hl1 & ->). rewrite bool_decide_true by done. cbn [negb when]. tf_steps. cbn [tq_QueueState slot]. rewrite bool_decide_true by done.
    pose proof (padded_len true p) as Hpl. cbv iota in Hpl. tf_steps. unfold rbdAnchorComTp_TxStartEncryption. tf_steps. cbn [tq_MsgIdx tq_AnchorId slot]. tf_steps. cbn [mi_Length]. rewrite (u16_small (lenZ _)) by lia. rewrite al_header, al_fresh.
    set (pp := padded true p) in *. eapply wp_lift; [apply (aslice_app [_; _; _] pp (sd_fresh ++ rest1)); done|]. tf_steps.
    eapply wp_lift; [apply (aslice_app (_ :: _ :: _ :: pp) sd_fresh rest1); [rewrite !lenZ_cons; lia|by rewrite sd_fresh_len]|]. tf_steps.
    apply wp_tf_call. intros [r e] u2 E2. destruct (Hfail pp u1) as (e' & u2' & E2' & He). rewrite E2 in E2'. injection E2' as -> -> ->. cbv beta iota. tf_steps.
    eapply wp_lift; [apply (awrite_mid [_; _; _] pp (sd_fresh ++ rest1)); [done|done]|]. tf_steps. cbn [tx_react]. tf_steps. unfold set_tq_ErrCounter, slot. cbn [tq_MsgIdx tq_AnchorId tq_Channel tq_QueueState tq_TruncFresh tq_CmacValue tq_ErrCounter].
    assert (errc (0 + 1) = 1) as -> by (apply uw_small; assert (2 ^ 1 ≤ 2 ^ ErrCounter_bits) by (apply Z.pow_le_mono_r; lia); lia).
    unfold rbdAnchorComTp_TxPart2, rbdAnchorComTp_TxPart3. tf_steps. cbn [tq_QueueState]. rewrite bool_decide_false by done. tf_steps. cbn [tq_QueueState]. rewrite bool_decide_false by done. tf_steps. cbn [tq_ErrCounter].
    rewrite (proj2 (Z.leb_gt _ _)) by lia. apply wp_ret. split; [by apply (others_tfoc o m c pd cb HT)|]. by eexists _, _, _. }
  destruct (wp_run _ _ _ H2) as ([] & w2 & E2 & b & mi & u & ->). eexists _, _, h, _. split; [exact E1|]. split; [exact E2|]. split; [done|]. destruct Ha as [Hbuf Hmi Htq Hh' Ht' Hct] eqn:Eha.
  split; [cbn; by apply insert_lookup1|]. split; [cbn; by apply ins2_lookup|]. do 2 (split; [done|]). induction n as [|n IH]; [done|]. cbn [cyclic_txs].
  match type of E2 with _ = Some (_, ?w2) => assert (wp rbdAnchorCom_CyclicTx (λ _ x, x = w2) w2) as H3 end.
  { apply (cyclictx_one o m c pd cb HT); [by apply (others_tfoc o m c pd cb HT)|]. eapply wp_mono; [by apply waiting_peer|]. intros _ x ->. split; [by apply (others_tfoc o m c pd cb HT)|done]. }
  destruct (wp_run _ _ _ H3) as ([] & w3 & E3 & ->). unfold mbind, M_bind. by rewrite E3.
Qed.
End blocked.

(** ** Channel identifiers *)

(** The low four bits identify the node, the flags are apart. *)
Lemma chanid_low x b e f : Z.land (rbdAnchorComTp_GetChanId x b e f) 15 = Z.land x 15.
Proof.
  unfold rbdAnchorComTp_GetChanId. destruct b, e, f; rewrite ?Z.land_lor_distr_l, <-Z.land_assoc; cbn; by rewrite ?Z.lor_0_r.
Qed.
Lemma chanid_agree x y b e f : rbdAnchorComTp_GetChanId x b e f = rbdAnchorComTp_GetChanId y b e f ↔ Z.land x 15 = Z.land y 15.
Proof.
  split; intros E; [by rewrite <-(chanid_low x b e f), <-(chanid_low y b e f), E|]. unfold rbdAnchorComTp_GetChanId. by rewrite E.
Qed.
Lemma chanid_direction x b e f : Z.testbit (rbdAnchorComTp_GetChanId x b e f) 5 = f.
Proof.
  unfold rbdAnchorComTp_GetChanId. destruct b, e, f; rewrite ?Z.lor_spec, Z.land_spec; cbn; by rewrite ?andb_false_r.
Qed.
Lemma u8_low z : Z.land (u8 z) 15 = z mod 16.
Proof. rewrite land_15. unfold u8. change 256 with (16 * 16). rewrite Z.rem_mul_r by lia. rewrite (Z.mul_comm 16), Z.mod_add, Z.mod_mod by lia. done. Qed.

Section chanids.
Context {U V : Type} {HC : Anchor_Cfg} {HE : Anchor_Env U} {HC' : Anchor_Cfg} {HE' : Anchor_Env V}.

(** C39. The channel identifier is the first byte that is authenticated and is not sent, so a
    message passes verification only if both ends compute the same one.  Between the master and
    an anchor on the BLE channel: an anchor's message is accepted as that of peer [id] exactly if
    the anchor's CAN index is [id + 1] modulo 16; a message of the master for peer [id]
    likewise, but a broadcast only if the anchor's CAN index is a multiple of 16.  No
    node accepts what it sends itself, whatever the message and the peer. *)
Theorem anchor_chanid_agree (um : U) (ua : V) (c c' : rbdAnchorComTp_Cfg_st) (id o : Z) :
  @anchor_build HC = RBD_PK_MASTER_MCU → @anchor_build HC' = RBD_PK_CPU_CC26xx → cf_Channel c = @RBDANCHORCOM_TPCH_BLE HC → cf_Broadcast c' = cf_Broadcast c →
  let idx := @NvM_AnchorCanIdx V HE' ua mod 16 in
  (@rbdAnchorComTp_GetTxChanId V HC' HE' ua c' o = @rbdAnchorComTp_GetRxChanId U HC HE um c id ↔ idx = (id + 1) mod 16) ∧
  (@rbdAnchorComTp_GetTxChanId U HC HE um c id = @rbdAnchorComTp_GetRxChanId V HC' HE' ua c' o ↔ idx = (if cf_Broadcast c then 0 else (id + 1) mod 16)) ∧
  (∀ c1 c2 i j, @rbdAnchorComTp_GetTxChanId U HC HE um c1 i ≠ @rbdAnchorComTp_GetRxChanId U HC HE um c2 j) ∧
  (∀ c1 c2 i j, @rbdAnchorComTp_GetTxChanId V HC' HE' ua c1 i ≠ @rbdAnchorComTp_GetRxChanId V HC' HE' ua c2 j).
Proof.
  intros Hb Hb' Hch Hbc idx. unfold idx, rbdAnchorComTp_GetTxChanId, rbdAnchorComTp_GetRxChanId. rewrite Hb, Hb', Hch, Hbc, Z.eqb_refl. split_and!.
  - by rewrite chanid_agree, u8_low, land_15.
  - rewrite chanid_agree, u8_low, land_15. destruct (cf_Broadcast c); [rewrite Zmod_0_l|]; split; congruence.
  - intros c1 c2 i j E. apply (f_equal (λ z, Z.testbit z 5)) in E. by rewrite !chanid_direction in E.
  - intros c1 c2 i j E. apply (f_equal (λ z, Z.testbit z 5)) in E. by rewrite !chanid_direction in E.
Qed.
End chanids.

(** ** Authenticity *)

Section authentic.
Context {U : Type} {HC : Anchor_Cfg} {HE : Anchor_Env U}.

(** C34. Nothing unverified reaches the application: if the verification service accepts no message
    of peer [o], then whatever sequence of requests, cyclic runs and call-backs of the router
    runs, with any lengths and contents, and whatever the other services answer, no message is
    handed to the application as one of [o].  Messages of other peers are not restricted. *)
Theorem anchor_unverified_not_delivered (o : Z) (cs : list Anchor_Call) (w w' : AnchorWorld U) (PduId : Z) (payload : list Z) :
  (∀ d m u, (Csm_Verify o d m u).1 ≠ RBDANCHORCOM_OK) → (∀ i j q, aget2 (RxMsgQueue (an_rx w)) i j = Some q → rq_QueueState q = RBDANCHORCOM_TX_IDLE) → an_trace w = [] →
  anchor_run cs w = Some (tt, w') → AnRx o PduId payload ∉ an_trace w'.
Proof.
  intros Hbad Hq Ht Hrun. assert (unverified o None w) as Hw.
  { split; [intros i j q Eq _; by rewrite (Hq i j q Eq)|by rewrite Ht|done]. }
  pose proof (wlp_run _ _ _ _ _ (run_unverified o Hbad cs w Hw) Hrun) as [_ Hall _]. intros Hin. rewrite Forall_forall in Hall. by apply (Hall _ (proj1 (list_elem_of_In _ _) Hin)).
Qed.
End authentic.

(** ** An anchor and a master *)

Definition demo_msgs (rx : bool) : list rbdAnchorComTp_Cfg_st := [mkAnchorCfg 4 0 rx 16 false false; mkAnchorCfg 5 0 rx 32 true false].
Definition demo_msg (rx : bool) : rbdAnchorComTp_Cfg_st := mkAnchorCfg 5 0 rx 32 true false.

Definition demo_cfg (b : Anchor_Build) (peers : Z) (rx : bool) : Anchor_Cfg := {|
  anchor_build := b; RBD_PK_MASTER_HAS_RF := false; MsgCfg := demo_msgs rx; RBDANCHORCOM_TP_NUM_LL_TX := peers; RBDANCHORCOM_TP_NUM_LL_RX := peers;
  RBDANCHORCOM_TPCH_MAX := 1; RBDANCHORCOM_TPCH_BLE := 0; RBD_PK_MAX_NODES := peers; LowerTxCallPdu := [[10; 11]]; LowerTxCbPdu := [20; 21]; LowerRxPdu := [30; 31];
  Master0Hi_Cb := 99; RBDANCHORCOM_CHANID_LEN := 1; RBDANCHORCOM_PREFIX_LEN := 2; RBDANCHORCOM_HEADER_LEN := 3; RBDANCHORCOM_APPEND_LEN := 4;
  RBDANCHORCOM_CMAC_LEN := 3; RBDANCHORCOM_FRESH_LEN := 8; RBDANCHORCOM_AES_KEY_LEN := 16; RBDANCHORCOM_TP_MAX_RX_BUFFER_LEN := 64;
  RBDANCHORCOM_TP_MIN_RX_DATA_LEN := 8; RBDANCHORCOM_MAX_RETRY_COUNT := 5; ErrCounter_bits := 8; MsgLength_bits := 16; DataLen_bits := 16; PduLength_bits := 16 |}.
Abbreviation demo_anchor := (demo_cfg RBD_PK_CPU_CC26xx 1 false).
Abbreviation demo_master := (demo_cfg RBD_PK_MASTER_MCU 2 true).

(** A toy cipher and code; [ok]: the encryption service works; [ver]: verification can succeed. *)
Definition demo_fresh : list Z := [1; 2; 3; 4; 5; 6; 7; 8].
Definition demo_enc (p : list Z) : list Z := (λ x, 255 - x) <$> p.
Definition demo_mac (d : list Z) : list Z := [foldr Z.add 0 d mod 256; lenZ d mod 256; foldr Z.lxor 0 d].
Definition demo_env (ok ver : bool) : Anchor_Env unit := {|
  Fresh_GetTx _ u := (E_OK, demo_fresh, 8, u);
  Fresh_GetRx t _ u := (if t =? 8 then E_OK else E_NOT_OK, demo_fresh, u);
  Csm_Encrypt p _ u := (if ok then RBDANCHORCOM_OK else RBDANCHORCOM_FAIL, demo_enc p, u);
  Csm_Decrypt _ p _ u := (RBDANCHORCOM_OK, demo_enc p, u);
  Csm_Authenticate d u := (RBDANCHORCOM_OK, demo_mac d, u);
  Csm_Verify _ d m u := (if ver && bool_decide (m = take 3 (demo_mac d)) then RBDANCHORCOM_OK else RBDANCHORCOM_FAIL, u);
  an_PduR_Transmit _ _ u := (E_OK, u);
  an_RxIndication _ _ _ u := u;
  NvM_AnchorCanIdx _ := 2;
  rbdUwbInfo_GetCANIdx _ := 2;
  RadioTime _ := (E_OK, 1, 1);
  LostCommStatus _ := [true; true];
  R4Sec_IsCryptoFree _ := true |}.

Lemma demo_cfg_ok b n rx : @Anchor_CfgOk (demo_cfg b n rx).
Proof. split; cbn; lia. Qed.
Definition demo_sender_fresh ok : @AnchorFresh unit demo_anchor (demo_env ok true).
Proof. refine {| sd_fresh := demo_fresh; sd_trunc := 8 |}; [done|]. intros u. by exists u. Defined.
Lemma demo_enc_len p : lenZ (demo_enc p) = lenZ p.
Proof. unfold lenZ, demo_enc. by rewrite length_fmap. Qed.
Lemma demo_enc_inv p : demo_enc (demo_enc p) = p.
Proof. unfold demo_enc. rewrite <-list_fmap_compose. rewrite <-(list_fmap_id p) at 2. apply list_fmap_ext. intros i x _. cbn. lia. Qed.
Definition demo_sender : @AnchorSender unit demo_anchor (demo_env true true) (demo_sender_fresh true).
Proof.
  refine {| sd_enc := demo_enc; sd_mac := demo_mac |}; [apply demo_enc_len | done | intros p u; by exists u..].
Defined.
Lemma demo_receiver : @AnchorReceiver unit demo_master (demo_env true true) 1 demo_fresh 8 demo_enc demo_mac.
Proof.
  split; [done | apply demo_enc_len | done | intros u; by exists u | | ].
  - intros d u. exists u. cbn [Csm_Verify demo_env]. by rewrite bool_decide_true.
  - intros p u. exists u. cbn [Csm_Decrypt demo_env]. by rewrite demo_enc_inv.
Qed.

Lemma demo_route ok : @AnchorRoute unit demo_anchor (demo_env ok true) 0 1 (demo_msg false) 10 20.
Proof.
  split; try done; cbn; try lia.
  - intros n u. by exists u.
  - intros w. exists 4294967295. split; [done|]. left. by vm_compute.
Qed.
Lemma demo_rx_route : @AnchorRxRoute demo_master 1 0 31.
Proof. split; try done; cbn; lia. Qed.

(** Both ends after initialisation. *)
Definition demo_sender_idle : AnchorWorld unit :=
  mkAnchor (mkAnchorTx [[Some (replicate 42 0)]; [Some (replicate 58 0)]] [[mkMsgInfo 0 RBDANCHORCOM_TPSTATE_IDLE; mkMsgInfo 0 RBDANCHORCOM_TPSTATE_IDLE]]
      [replicate 16 (mkTxQ 0 0 0 RBDANCHORCOM_TX_IDLE 0 0 [])] [0] [0] [[mkChTx false 0 0]])
    (mkAnchorRx [] [] [] [] [] []) tt [].
Definition demo_rx_buffer : rbdAnchorComTp_ChRxDataInfo_st := mkChRxData (replicate 68 0) 0 0 false.
Definition demo_receiver_idle : AnchorWorld unit :=
  mkAnchor (mkAnchorTx [] [] [] [] [] [])
    (mkAnchorRx (replicate 2 (replicate 16 (mkRxQ 0 0 false RBDANCHORCOM_TX_IDLE 0 0 0 0 []))) [0; 0] [0; 0] [replicate 2 (mkChRx 0 (replicate 64 0))]
      [replicate 2 demo_rx_buffer] [replicate 2 demo_rx_buffer]) tt [].

Lemma demo_tx_ready : @tx_ready unit demo_anchor 0 1 (demo_msg false) demo_sender_idle.
Proof.
  split.
  - eexists. by split.
  - by eexists.
  - exists 0. split_and!; [done..|lia].
  - intros k Hk. unfold in2. change (is_Some (aget (replicate 16 (mkTxQ 0 0 0 RBDANCHORCOM_TX_IDLE 0 0 [])) k)).
    rewrite (aget_lookup _ k (mkTxQ 0 0 0 RBDANCHORCOM_TX_IDLE 0 0 [])); [done|lia|]. apply lookup_replicate. split; [done|lia].
  - by eexists.
  - intros j Hj Hne. cbn in Hj. lia.
Qed.
Lemma demo_rx_ready : @rx_ready unit demo_master 1 0 demo_receiver_idle.
Proof.
  split.
  - eexists. by split.
  - eexists. by split_and!.
  - eexists 0, _. split_and!; [done..|lia|lia|done].
  - intros j Hj Hne. cbn in Hj. assert (j = 0) as -> by lia. by exists 0.
Qed.

Definition demo_payload : list Z := [10; 20; 30; 40; 50].

Lemma anchor_round_trip_witness : ∃ wire w1 w2,
  @rbdAnchorCom_Transmit unit demo_anchor 0 5 (lenZ demo_payload) (Some demo_payload) 0 None false demo_sender_idle = Some (E_OK, w1) ∧
  @rbdAnchorCom_CyclicTx unit demo_anchor (demo_env true true) w1 = Some (tt, w2) ∧ an_trace w2 = an_trace demo_sender_idle ++ [AnTransmit 10 (lenZ wire) E_OK] ∧
  (∀ ns, Forall (Z.le 0) ns → foldr Z.add 0 ns = lenZ wire →
    ∃ w3 w4 w5, @copies unit demo_anchor 20 ns w2 = Some (wire, w3) ∧ @rbdAnchorComTp_TpTxConfirmation unit demo_anchor 20 E_OK w3 = Some (tt, w4) ∧
      @rbdAnchorCom_CyclicTx unit demo_anchor (demo_env true true) w4 = Some (tt, w5) ∧ @tx_ready unit demo_anchor 0 1 (demo_msg false) w5) ∧
  (∀ ds, concat ds = wire →
    ∃ v1 v2 v3 v4 size, @rbdAnchorComTp_StartOfReception unit demo_master 31 (lenZ wire) demo_receiver_idle = Some ((BUFREQ_OK, size), v1) ∧
      @copy_rxs unit demo_master 31 ds v1 = Some (replicate (length ds) BUFREQ_OK, v2) ∧ @rbdAnchorComTp_TpRxIndication unit demo_master 31 E_OK v2 = Some (tt, v3) ∧
      @rbdAnchorCom_CyclicRx unit demo_master (demo_env true true) v3 = Some (tt, v4) ∧ an_trace v4 = an_trace demo_receiver_idle ++ [AnRx 1 5 demo_payload]).
Proof.
  refine (@anchor_round_trip unit demo_master (demo_env true true) (demo_cfg_ok _ _ _) 1 1 0 31 (demo_msg true) demo_rx_route eq_refl eq_refl eq_refl eq_refl
    unit demo_anchor (demo_env true true) (demo_cfg_ok _ _ _) (demo_sender_fresh true) demo_sender 0 1 (demo_msg false) 10 20 (demo_route true) demo_receiver
    demo_sender_idle demo_receiver_idle demo_payload false demo_tx_ready demo_rx_ready _ _ _ _ _ _); by vm_compute.
Defined.

Lemma anchor_encrypt_fail_blocks_witness : ∃ w1 w2 h q,
  @rbdAnchorCom_Transmit unit demo_anchor 0 5 (lenZ demo_payload) (Some demo_payload) 0 None false demo_sender_idle = Some (E_OK, w1) ∧
  @rbdAnchorCom_CyclicTx unit demo_anchor (demo_env false true) w1 = Some (tt, w2) ∧ an_trace w2 = an_trace demo_sender_idle ∧
  aget (TxHead (an_tx w2)) 0 = Some h ∧ aget2 (TxMsgQueue (an_tx w2)) 0 h = Some q ∧ tq_MsgIdx q = 1 ∧ tq_QueueState q = RBDANCHORCOM_TX_ENC_READY ∧
  ∀ n, @cyclic_txs unit demo_anchor (demo_env false true) n w2 = Some (tt, w2).
Proof.
  refine (@anchor_encrypt_fail_blocks unit demo_anchor (demo_env false true) (demo_cfg_ok _ _ _) (demo_sender_fresh false) 0 1 (demo_msg false) 10 20 (demo_route false)
    demo_sender_idle demo_payload false demo_tx_ready _ _ _ _ _); [by vm_compute..|]. intros x u. exists (demo_enc x), u. split; [done|apply demo_enc_len].
Defined.

Lemma anchor_chanid_agree_witness :
  (@rbdAnchorComTp_GetTxChanId unit demo_anchor (demo_env true true) tt (demo_msg false) 0 = @rbdAnchorComTp_GetRxChanId unit demo_master (demo_env true true) tt (demo_msg true) 1).
Proof.
  apply (@anchor_chanid_agree unit unit demo_master (demo_env true true) demo_anchor (demo_env true true) tt tt (demo_msg true) (demo_msg false) 1 0); done.
Defined.

(** The bytes of a message whose authentication code is wrong. *)
Definition demo_forged : list Z := [4; 0; 1; 2; 3; 8; 9; 9; 9].
Definition demo_attack : list Anchor_Call :=
  [AcStart 31 9; AcCopyRx 31 (Some (mkPduInfo (Some demo_forged) 9)) true; AcRxInd 31 E_OK] ++ replicate 5 AcCyclicRx.

Lemma demo_queue_idle i j q : aget2 (RxMsgQueue (an_rx demo_receiver_idle)) i j = Some q → rq_QueueState q = RBDANCHORCOM_TX_IDLE.
Proof.
  unfold aget2. intros Hq. apply bind_Some in Hq as (r & Er & Eq). apply aget_elem in Er. apply elem_of_replicate_inv in Er as ->. apply aget_elem in Eq. by apply elem_of_replicate_inv in Eq as ->.
Qed.

Lemma anchor_unverified_not_delivered_witness : ∃ w',
  @anchor_run unit demo_master (demo_env true false) demo_attack demo_receiver_idle = Some (tt, w') ∧ AnRx 1 4 [1; 2; 3] ∉ an_trace w'.
Proof.
  eexists. split; [vm_compute; reflexivity|].
  refine (@anchor_unverified_not_delivered unit demo_master (demo_env true false) 1 demo_attack demo_receiver_idle _ 4 [1; 2; 3] _ demo_queue_idle eq_refl _); [done|vm_compute; reflexivity].
Defined.
