(* ===== verification/UdsTypes.v ===== *)
(** * rbUds_Core: data and neighbours of the diagnostic core (rbUds_Core.c, rbUds_Core.h, rbUds_CoreCfg.h)

    The core takes a diagnostic request from the transport layer, finds its service in a
    table, lets the service's handler fill the response buffer and hands the response to
    the transport layer; a service that needs more time answers "response pending" and is
    asked again by the cyclic task.  Here: the control block, the world it lives in, the
    events it causes, and the class of the code it calls that is not part of the
    repository: service handlers, session and security state, power requests, the
    constants of ISO 14229 and the message layouts. *)

From S2P Require Import Prelude ElTime.
From stdpp Require Import base list numbers option.

#[local] Open Scope Z_scope.

Definition UDS_SUBFN_LEN : Z := 1.
Definition UDS_SID_LEN : Z := 1.
(** [(uint8_t)(~0u)]. *)
Definition UDS_CORE_INVALID_RCRRP_INDEX : Z := 255.
Definition UDS_CORE_SPRMIB_MASK : Z := 128.
Definition UDS_CORE_SUBFN_MASK : Z := 127.
Definition UDS_CORE_NEG_RESP_LEN : Z := 3.
Definition SID_NR : Z := 127.
Definition SID_PR : Z := 64.

(** The header enumerations of rbUds_Core.c. *)
Definition RB_UDS_CDTCI_GODTC_HB_OFFSET : Z := 0.
Definition RB_UDS_CDTCI_GODTC_MB_OFFSET : Z := 1.
Definition RB_UDS_CDTCI_GODTC_LB_OFFSET : Z := 2.
Definition RB_UDS_CDTCI_HDR_LEN : Z := 3.
Definition RB_UDS_SUB_FN_OFFSET : Z := 0.
Definition RB_UDS_SUBFN_ONLY_HDR_LEN : Z := 1.
Definition RB_UDS_SUBFN_ONLY_DATA_OFFSET : Z := RB_UDS_SUBFN_ONLY_HDR_LEN.
Definition RB_UDS_DATA_FORMAT_OFFSET : Z := 0.
Definition RB_UDS_ADDR_LEN_FORMAT_OFFSET : Z := 1.
Definition RB_UDS_MEM_ADDR_OFFSET : Z := 2.
Definition RB_UDS_REQ_DOWNLOAD_HDR_LEN : Z := 4.
Definition RB_UDS_BLOCK_SEQ_COUNTER_OFFSET : Z := 0.
Definition RB_UDS_TRANSFER_DATA_HDR_LEN : Z := 1.
Definition RB_UDS_REQ_TRANSFER_EXIT_HDR_LEN : Z := 0.
Definition RB_UDS_NR_SID_NR : Z := 0.
Definition RB_UDS_NR_SID : Z := 1.
Definition RB_UDS_NR_CODE : Z := 2.

(** rbUds_CoreCfg.h, in milliseconds. *)
Definition UDS_S3_SERVER_MAX_MS : Z := 5000.
Definition UDS_RCRRP_INTERVAL_MS : Z := 1000.
Definition UDS_RCRRP_LIMIT_MS : Z := 10 * UDS_RCRRP_INTERVAL_MS.

(** rbUds_Core.h: service and error identifiers of the error tracer. *)
Definition RB_UDS_E_VALUE : Z := 1.
Definition RB_UDS_E_NULL : Z := 3.
Definition RB_UDS_E_TIMEOUT : Z := 6.
Definition RB_UDS_S_APIDATAINDICATION : Z := 1.
Definition RB_UDS_S_CORERESPONSEPENDINGSUBTASK : Z := 2.

(** The control block; [req] is the address kept from the last request. *)
Record Uds_ControlBlock (T : Type) := mkUds {
  isBusy : bool;
  suppressPosResp : bool;
  rcrrpTxConfirm : bool;
  rcrrpSidIndex : Z;
  rcrrpTimer : T;
  s3Timer : T;
  req : Z;
  reqLen : Z;
  respLen : Z;
  resp_a : list Z;
  negResp_a : list Z;
  rcrrpPendingTimer : T
}.
Arguments mkUds {T} _ _ _ _ _ _ _ _ _ _ _ _.
Arguments isBusy {T} _.
Arguments suppressPosResp {T} _.
Arguments rcrrpTxConfirm {T} _.
Arguments rcrrpSidIndex {T} _.
Arguments rcrrpTimer {T} _.
Arguments s3Timer {T} _.
Arguments req {T} _.
Arguments reqLen {T} _.
Arguments respLen {T} _.
Arguments resp_a {T} _.
Arguments negResp_a {T} _.
Arguments rcrrpPendingTimer {T} _.

Section fields.
Context {T : Type}.
Abbreviation CB := (Uds_ControlBlock T).
Definition set_isBusy (x : bool) (c : CB) : CB :=
  mkUds x (suppressPosResp c) (rcrrpTxConfirm c) (rcrrpSidIndex c) (rcrrpTimer c) (s3Timer c) (req c) (reqLen c) (respLen c) (resp_a c) (negResp_a c) (rcrrpPendingTimer c).
Definition set_suppressPosResp (x : bool) (c : CB) : CB :=
  mkUds (isBusy c) x (rcrrpTxConfirm c) (rcrrpSidIndex c) (rcrrpTimer c) (s3Timer c) (req c) (reqLen c) (respLen c) (resp_a c) (negResp_a c) (rcrrpPendingTimer c).
Definition set_rcrrpTxConfirm (x : bool) (c : CB) : CB :=
  mkUds (isBusy c) (suppressPosResp c) x (rcrrpSidIndex c) (rcrrpTimer c) (s3Timer c) (req c) (reqLen c) (respLen c) (resp_a c) (negResp_a c) (rcrrpPendingTimer c).
Definition set_rcrrpSidIndex (x : Z) (c : CB) : CB :=
  mkUds (isBusy c) (suppressPosResp c) (rcrrpTxConfirm c) x (rcrrpTimer c) (s3Timer c) (req c) (reqLen c) (respLen c) (resp_a c) (negResp_a c) (rcrrpPendingTimer c).
Definition set_rcrrpTimer (x : T) (c : CB) : CB :=
  mkUds (isBusy c) (suppressPosResp c) (rcrrpTxConfirm c) (rcrrpSidIndex c) x (s3Timer c) (req c) (reqLen c) (respLen c) (resp_a c) (negResp_a c) (rcrrpPendingTimer c).
Definition set_s3Timer (x : T) (c : CB) : CB :=
  mkUds (isBusy c) (suppressPosResp c) (rcrrpTxConfirm c) (rcrrpSidIndex c) (rcrrpTimer c) x (req c) (reqLen c) (respLen c) (resp_a c) (negResp_a c) (rcrrpPendingTimer c).
Definition set_reqPtr (x : Z) (c : CB) : CB :=
  mkUds (isBusy c) (suppressPosResp c) (rcrrpTxConfirm c) (rcrrpSidIndex c) (rcrrpTimer c) (s3Timer c) x (reqLen c) (respLen c) (resp_a c) (negResp_a c) (rcrrpPendingTimer c).
Definition set_reqLen (x : Z) (c : CB) : CB :=
  mkUds (isBusy c) (suppressPosResp c) (rcrrpTxConfirm c) (rcrrpSidIndex c) (rcrrpTimer c) (s3Timer c) (req c) x (respLen c) (resp_a c) (negResp_a c) (rcrrpPendingTimer c).
Definition set_respLen (x : Z) (c : CB) : CB :=
  mkUds (isBusy c) (suppressPosResp c) (rcrrpTxConfirm c) (rcrrpSidIndex c) (rcrrpTimer c) (s3Timer c) (req c) (reqLen c) x (resp_a c) (negResp_a c) (rcrrpPendingTimer c).
Definition set_resp_a (x : list Z) (c : CB) : CB :=
  mkUds (isBusy c) (suppressPosResp c) (rcrrpTxConfirm c) (rcrrpSidIndex c) (rcrrpTimer c) (s3Timer c) (req c) (reqLen c) (respLen c) x (negResp_a c) (rcrrpPendingTimer c).
Definition set_negResp_a (x : list Z) (c : CB) : CB :=
  mkUds (isBusy c) (suppressPosResp c) (rcrrpTxConfirm c) (rcrrpSidIndex c) (rcrrpTimer c) (s3Timer c) (req c) (reqLen c) (respLen c) (resp_a c) x (rcrrpPendingTimer c).
Definition set_rcrrpPendingTimer (x : T) (c : CB) : CB :=
  mkUds (isBusy c) (suppressPosResp c) (rcrrpTxConfirm c) (rcrrpSidIndex c) (rcrrpTimer c) (s3Timer c) (req c) (reqLen c) (respLen c) (resp_a c) (negResp_a c) x.
End fields.

(** A buffer of the transport layer: where it is, and its bytes at the time of the call. *)
Record UdsBuf := mkBuf { buf_addr : Z; buf_bytes : list Z }.
(** [&b[k]], which C allows up to the end of the array. *)
Definition buf_at (b : UdsBuf) (k : Z) : option UdsBuf :=
  if decide (0 ≤ k ≤ lenZ (buf_bytes b)) then Some (mkBuf (buf_addr b + k) (drop (Z.to_nat k) (buf_bytes b))) else None.

(** What a handler that writes a response leaves: its response code, the bytes it has written
    from the address it was given, and the length it reports. *)
Record UdsAns := mkAns { ans_code : Z; ans_data : list Z; ans_len : Z }.

(** What the core does to its neighbours. *)
Inductive Uds_Event :=
| UdsSend (bytes : list Z) (suppress : bool)
| UdsDet (instance service error : Z)
| UdsPwrRequest (id : Z)
| UdsPwrRelease (id : Z)
| UdsMcuReset
| UdsClearState (sid : Z)
| UdsSessionExpired.

Record UdsWorld (T U : Type) := mkUdsWorld { uds : Uds_ControlBlock T; Uds_PwrReqID : Z; uds_up : U; uds_trace : list Uds_Event }.
Arguments mkUdsWorld {T U} _ _ _ _.
Arguments uds {T U} _.
Arguments Uds_PwrReqID {T U} _.
Arguments uds_up {T U} _.
Arguments uds_trace {T U} _.

(** A pending function is given the offset of its response in the response buffer, and
    address and length of the request. *)
Definition Uds_CoreServicePending_fn (U : Type) : Type := Z → Z → Z → U → UdsAns * U.

(** The code the core calls.  [U] holds its state, the clock and the contents of buffers that
    belong to others included. *)
Class Uds_Env (U : Type) := {
  uds_RBD_PK_APP : bool; uds_RBD_PK_FBL : bool;
  UDS_BUFFER_SIZE : Z;
  RB_UDS_14229_SID_DSC : Z; RB_UDS_14229_SID_ER : Z; RB_UDS_14229_SID_CDTCI : Z; RB_UDS_14229_SID_RDTCI : Z;
  RB_UDS_14229_SID_RDBI : Z; RB_UDS_14229_SID_SA : Z; RB_UDS_14229_SID_WDBI : Z; RB_UDS_14229_SID_RC : Z;
  RB_UDS_14229_SID_RD : Z; RB_UDS_14229_SID_TD : Z; RB_UDS_14229_SID_RTE : Z; RB_UDS_14229_SID_TP : Z;
  RB_UDS_14229_PR : Z; RB_UDS_14229_RCRRP : Z; RB_UDS_14229_GR : Z; RB_UDS_14229_SNS : Z; RB_UDS_14229_SNSIAS : Z;
  RB_UDS_14229_IMLOIF : Z; RB_UDS_14229_SFNS : Z; RB_UDS_14229_SAD : Z;
  UDS_SESSION_ANY : Z; UDS_SESSION_MASK_DS : Z; UDS_SESSION_MASK_EXTDS : Z; UDS_SESSION_MASK_PRGS : Z; RB_UDS_SECURITY_MASK_ANY : Z;
  RB_UDS_DID_MSB_OFFSET : Z; RB_UDS_DID_LSB_OFFSET : Z; RB_UDS_DID_HDR_LEN : Z;
  RB_UDS_ROUTINE_SUB_FN_OFFSET : Z; RB_UDS_ROUTINE_RID_MSB_OFFSET : Z; RB_UDS_ROUTINE_RID_LSB_OFFSET : Z; RB_UDS_ROUTINE_HDR_LEN : Z;
  rbUds_Make16Bit : Z → Z → Z;
  rbUds_Make32Bit : Z → Z → Z → Z → Z;
  rbUds_SessionGetState : U → Z;
  rbUds_SecurityGetLevel : U → Z;
  rbUds_SessionS3TimerExpiredReset : U → U;
  rbUds_RoutineClearStateinfo : U → U; rbUds_DidReadClearStateinfo : U → U; rbUds_WriteDidClearStateinfo : U → U;
  Mcu_PerformReset : U → U;
  uds_PwrReq_GetID : U → Z * U; uds_PwrReq_RequestService : Z → U → U; uds_PwrReq_ReleaseService : Z → U → U;
  Uds_CoreCfgSendResponse : list Z → bool → U → U;
  rbUds_DidRead : Z → U → UdsAns * U;
  rbUds_DidWrite : UdsBuf → Z → Z → U → UdsAns * U;
  rbUds_Routine : UdsBuf → Z → Z → Z → U → UdsAns * U;
  rbUds_DtcRead : UdsBuf → Z → Z → U → UdsAns * U;
  rbUds_DtcClearCfgClear : Z → U → Z * U;
  rbUds_Session : Z → U → UdsAns * U;
  rbUds_Security : UdsBuf → Z → Z → U → UdsAns * U;
  rbUds_RequestDownloadCfg : UdsBuf → Z → Z → Z → U → Z * U;
  rbUds_TransferDataCfg : UdsBuf → Z → Z → U → UdsAns * U;
  rbUds_TransferExitCfg : UdsBuf → Z → U → UdsAns * U;
  rbUds_EcuReset : Z → U → Z * U;
  rbUds_SessionCfgPendingCallback : Uds_CoreServicePending_fn U;
  rbUds_DtcClearCfgClearIsComplete : Uds_CoreServicePending_fn U;
  rbUds_DidReadPendingCallback : Uds_CoreServicePending_fn U;
  rbUds_SecurityPendingCallback : Uds_CoreServicePending_fn U;
  rbUds_DidWritePendingCallback : Uds_CoreServicePending_fn U;
  rbUds_RoutinePendingCallback : Uds_CoreServicePending_fn U;
  rbUds_RequestDownloadCfgCallback : Uds_CoreServicePending_fn U;
  rbUds_TransferDataCfgCallback : Uds_CoreServicePending_fn U;
  rbUds_TransferExitCfgCallback : Uds_CoreServicePending_fn U
}.
