(* ===== verification/UdsCore.v ===== *)
(** * rbUds_Core: the functions (rbUds_Core.c)

    All functions of the file, for both builds (application and boot loader; the
    latter adds the download services).  Functions come before those that call them: the
    leaf functions, the service filters, the service table, then the entry points of the
    transport layer and the cyclic task.  Handlers do not call back into the core. *)

From S2P Require Import Prelude ElTime UdsTypes.
From stdpp Require Import base list numbers option.

#[local] Open Scope Z_scope.

Section UdsCore.
Context {T U : Type} `{HT : ElTime T U} `{HE : Uds_Env U}.
Abbreviation W := (UdsWorld T U).
Abbreviation CB := (Uds_ControlBlock T).

(** ** Primitives *)

Definition set_uds (f : CB → CB) : M W unit := modify (λ w, mkUdsWorld (f (uds w)) (Uds_PwrReqID w) (uds_up w) (uds_trace w)).
Definition uds_ev (e : Uds_Event) : M W unit := modify (λ w, mkUdsWorld (uds w) (Uds_PwrReqID w) (uds_up w) (uds_trace w ++ [e])).
Definition uds_call {R : Type} (f : U → R * U) : M W R :=
  λ w, let '(r, u) := f (uds_up w) in Some (r, mkUdsWorld (uds w) (Uds_PwrReqID w) u (uds_trace w)).
Definition uds_call_ (f : U → U) : M W unit := uds_call (λ u, (tt, f u)).
Definition uds_det (instance service error : Z) : M W unit := uds_ev (UdsDet instance service error).

(** A timer of the control block. *)
Definition uds_timer (get : CB → T) (set : T → CB → CB) (f : U → T → T) : M W unit :=
  u ← gets uds_up; set_uds (λ c, set (f u (get c)) c).
Definition uds_timer_update (get : CB → T) (set : T → CB → CB) : M W rbTimerState :=
  u ← gets uds_up; c ← gets uds;
  let '(s, t) := rbd_ElTime_rbTimerUpdate u (get c) in set_uds (set t);; mret s.

(** [resp_a[i] = x]. *)
Definition put_resp (i x : Z) : M W unit :=
  c ← gets uds; r ← lift (aset (resp_a c) i x); set_uds (set_resp_a r).
Definition put_negResp (i x : Z) : M W unit :=
  c ← gets uds; r ← lift (aset (negResp_a c) i x); set_uds (set_negResp_a r).
Definition uds_respLen (n : Z) : M W unit := set_uds (set_respLen n).

(** A handler called with [&resp_a[off]] and a length to fill in. *)
Definition call_handler (off : Z) (f : U → UdsAns * U) : M W (Z * Z) :=
  a ← uds_call f;
  c ← gets uds; r ← lift (awrite (resp_a c) off (ans_data a)); set_uds (set_resp_a r);;
  mret (ans_code a, ans_len a).

(** The response handed to the transport layer: [n] bytes of a buffer. *)
Definition send_response (buf : CB → list Z) (n : Z) (suppress : bool) : M W unit :=
  c ← gets uds; bytes ← lift (aslice (buf c) 0 n);
  uds_call_ (Uds_CoreCfgSendResponse bytes suppress);;
  uds_ev (UdsSend bytes suppress).

(** ** Leaf functions *)

Definition Uds_CoreSetIdle : M W unit :=
  set_uds (set_isBusy false);;
  set_uds (set_rcrrpTxConfirm false);;
  set_uds (set_rcrrpSidIndex UDS_CORE_INVALID_RCRRP_INDEX);;
  uds_respLen 0;;
  set_uds (set_suppressPosResp false);;
  uds_timer rcrrpTimer set_rcrrpTimer rbd_ElTime_rbTimerInit.

Definition Uds_CoreReset : M W unit :=
  Uds_CoreSetIdle;;
  uds_timer s3Timer set_s3Timer rbd_ElTime_rbTimerInit.

Definition Uds_CorePwrReqIDInit : M W unit :=
  id ← uds_call uds_PwrReq_GetID;
  modify (λ w, mkUdsWorld (uds w) id (uds_up w) (uds_trace w)).

Definition rbUds_CoreStartS3 : M W unit :=
  uds_timer s3Timer set_s3Timer (λ u, rbd_ElTime_rbTimerStart u UDS_S3_SERVER_MAX_MS);;
  id ← gets Uds_PwrReqID;
  uds_call_ (uds_PwrReq_RequestService id);;
  uds_ev (UdsPwrRequest id).

Definition Uds_CoreExtractSubFn (Byte : Z) : M W Z :=
  when (UDS_CORE_SPRMIB_MASK =? u8 (Z.land Byte UDS_CORE_SPRMIB_MASK)) (set_uds (set_suppressPosResp true));;
  mret (u8 (Z.land Byte UDS_CORE_SUBFN_MASK)).

Definition Uds_CoreFillNegativeResponse (Sid ResponseCode : Z) : M W unit :=
  put_negResp RB_UDS_NR_SID_NR SID_NR;;
  put_negResp RB_UDS_NR_SID Sid;;
  put_negResp RB_UDS_NR_CODE ResponseCode.

Definition Uds_CoreSendNegativeResponse (Sid ResponseCode : Z) : M W unit :=
  Uds_CoreFillNegativeResponse Sid ResponseCode;;
  send_response negResp_a UDS_CORE_NEG_RESP_LEN false;;
  Uds_CoreSetIdle.

Definition Uds_CoreSendPendingResponse (Sid : Z) : M W unit :=
  Uds_CoreFillNegativeResponse Sid RB_UDS_14229_RCRRP;;
  send_response negResp_a UDS_CORE_NEG_RESP_LEN false;;
  uds_timer rcrrpTimer set_rcrrpTimer (λ u, rbd_ElTime_rbTimerStart u (3 * UDS_RCRRP_INTERVAL_MS));;
  set_uds (set_suppressPosResp false);;
  set_uds (set_rcrrpTxConfirm false).

Definition Uds_CoreCheckSessionSecurity (PermittedSession PermittedSecurity : Z) : M W Z :=
  u ← gets uds_up;
  let currentSession := rbUds_SessionGetState u in
  let currentSecurity := rbUds_SecurityGetLevel u in
  mret (if (u8 UDS_SESSION_MASK_DS =? currentSession) && negb (u8 RB_UDS_SECURITY_MASK_ANY =? PermittedSecurity) then RB_UDS_14229_GR
        else if Z.land currentSession PermittedSession =? 0 then RB_UDS_14229_SNSIAS
        else if Z.land currentSecurity PermittedSecurity =? 0 then RB_UDS_14229_SAD
        else RB_UDS_14229_PR).

(** ** The service filters

    Each is given the request behind the service identifier. *)

(** [code == PR || code == RCRRP]. *)
Definition pr_or_rcrrp (code : Z) : bool := (u8 RB_UDS_14229_PR =? code) || (u8 RB_UDS_14229_RCRRP =? code).

Definition Uds_CoreRdbi (Req_a : UdsBuf) (ReqLen : Z) : M W Z :=
  if negb (RB_UDS_DID_HDR_LEN =? ReqLen) then uds_respLen 0;; mret RB_UDS_14229_IMLOIF
  else
    msb ← lift (aget (buf_bytes Req_a) RB_UDS_DID_MSB_OFFSET);
    lsb ← lift (aget (buf_bytes Req_a) RB_UDS_DID_LSB_OFFSET);
    '(responseCode, n) ← call_handler (UDS_SID_LEN + RB_UDS_DID_HDR_LEN) (rbUds_DidRead (rbUds_Make16Bit msb lsb));
    (if pr_or_rcrrp responseCode then
       put_resp (UDS_SID_LEN + RB_UDS_DID_MSB_OFFSET) msb;;
       put_resp (UDS_SID_LEN + RB_UDS_DID_LSB_OFFSET) lsb;;
       let n := if RB_UDS_14229_RCRRP =? responseCode then 0 else n in
       uds_respLen (u16 (RB_UDS_DID_HDR_LEN + n))
     else uds_respLen 0);;
    mret responseCode.

Definition Uds_CoreWdbi (Req_a : UdsBuf) (ReqLen : Z) : M W Z :=
  msb ← lift (aget (buf_bytes Req_a) RB_UDS_DID_MSB_OFFSET);
  lsb ← lift (aget (buf_bytes Req_a) RB_UDS_DID_LSB_OFFSET);
  data ← lift (buf_at Req_a RB_UDS_DID_HDR_LEN);
  '(responseCode, n) ← call_handler (UDS_SID_LEN + RB_UDS_DID_HDR_LEN)
                         (rbUds_DidWrite data (u16 (ReqLen - RB_UDS_DID_HDR_LEN)) (rbUds_Make16Bit msb lsb));
  (if pr_or_rcrrp responseCode then
     put_resp (UDS_SID_LEN + RB_UDS_DID_MSB_OFFSET) msb;;
     put_resp (UDS_SID_LEN + RB_UDS_DID_LSB_OFFSET) lsb;;
     uds_respLen (u16 (RB_UDS_DID_HDR_LEN + n))
   else uds_respLen 0);;
  mret responseCode.

Definition Uds_CoreRc (Req_a : UdsBuf) (ReqLen : Z) : M W Z :=
  b ← lift (aget (buf_bytes Req_a) RB_UDS_ROUTINE_SUB_FN_OFFSET);
  subFn ← Uds_CoreExtractSubFn b;
  msb ← lift (aget (buf_bytes Req_a) RB_UDS_ROUTINE_RID_MSB_OFFSET);
  lsb ← lift (aget (buf_bytes Req_a) RB_UDS_ROUTINE_RID_LSB_OFFSET);
  data ← lift (buf_at Req_a RB_UDS_ROUTINE_HDR_LEN);
  set_uds (set_reqPtr (buf_addr data));;
  set_uds (set_reqLen (u16 (ReqLen - RB_UDS_ROUTINE_HDR_LEN)));;
  '(responseCode, n) ← call_handler (UDS_SID_LEN + RB_UDS_ROUTINE_HDR_LEN)
                         (rbUds_Routine data (u16 (ReqLen - RB_UDS_ROUTINE_HDR_LEN)) (rbUds_Make16Bit msb lsb) subFn);
  (if pr_or_rcrrp responseCode then
     put_resp (UDS_SID_LEN + RB_UDS_ROUTINE_SUB_FN_OFFSET) subFn;;
     put_resp (UDS_SID_LEN + RB_UDS_ROUTINE_RID_MSB_OFFSET) msb;;
     put_resp (UDS_SID_LEN + RB_UDS_ROUTINE_RID_LSB_OFFSET) lsb;;
     uds_respLen (u16 (RB_UDS_ROUTINE_HDR_LEN + n))
   else uds_respLen 0);;
  mret responseCode.

Definition Uds_CoreRdtci (Req_a : UdsBuf) (ReqLen : Z) : M W Z :=
  b ← lift (aget (buf_bytes Req_a) RB_UDS_SUB_FN_OFFSET);
  subFn ← Uds_CoreExtractSubFn b;
  data ← lift (buf_at Req_a RB_UDS_SUBFN_ONLY_DATA_OFFSET);
  '(responseCode, n) ← call_handler (UDS_SID_LEN + RB_UDS_SUBFN_ONLY_DATA_OFFSET)
                         (rbUds_DtcRead data (u16 (ReqLen - RB_UDS_SUBFN_ONLY_HDR_LEN)) subFn);
  (if u8 RB_UDS_14229_PR =? responseCode then
     put_resp (UDS_SID_LEN + RB_UDS_SUB_FN_OFFSET) subFn;;
     uds_respLen (u16 (RB_UDS_SUBFN_ONLY_HDR_LEN + n))
   else uds_respLen 0);;
  mret responseCode.

Definition Uds_CoreCdtci (Req_a : UdsBuf) (ReqLen : Z) : M W Z :=
  responseCode ←
    (if negb (RB_UDS_CDTCI_HDR_LEN =? ReqLen) then mret RB_UDS_14229_IMLOIF
     else
       hb ← lift (aget (buf_bytes Req_a) RB_UDS_CDTCI_GODTC_HB_OFFSET);
       mb ← lift (aget (buf_bytes Req_a) RB_UDS_CDTCI_GODTC_MB_OFFSET);
       lb ← lift (aget (buf_bytes Req_a) RB_UDS_CDTCI_GODTC_LB_OFFSET);
       uds_call (rbUds_DtcClearCfgClear (rbUds_Make32Bit 0 hb mb lb)));
  uds_respLen 0;;
  mret responseCode.

Definition Uds_CoreDsc (Req_a : UdsBuf) (ReqLen : Z) : M W Z :=
  if negb (ReqLen =? 1) then uds_respLen 0;; mret RB_UDS_14229_IMLOIF
  else
    b ← lift (aget (buf_bytes Req_a) RB_UDS_SUB_FN_OFFSET);
    subFn ← Uds_CoreExtractSubFn b;
    '(responseCode, n) ← call_handler (UDS_SID_LEN + RB_UDS_SUBFN_ONLY_DATA_OFFSET) (rbUds_Session subFn);
    (if pr_or_rcrrp responseCode then
       put_resp (UDS_SID_LEN + RB_UDS_SUB_FN_OFFSET) subFn;;
       uds_respLen (u16 (RB_UDS_SUBFN_ONLY_HDR_LEN + n))
     else uds_respLen 0);;
    mret responseCode.

Definition Uds_CoreTp (Req_a : UdsBuf) (ReqLen : Z) : M W Z :=
  b ← lift (aget (buf_bytes Req_a) RB_UDS_SUB_FN_OFFSET);
  subFn ← Uds_CoreExtractSubFn b;
  if negb (ReqLen =? 1) then uds_respLen 0;; mret RB_UDS_14229_IMLOIF
  else if negb (subFn =? 0) then uds_respLen 0;; mret RB_UDS_14229_SFNS
  else
    put_resp (UDS_SID_LEN + RB_UDS_SUB_FN_OFFSET) subFn;;
    uds_respLen RB_UDS_SUBFN_ONLY_HDR_LEN;;
    mret RB_UDS_14229_PR.

Definition Uds_CoreSa (Req_a : UdsBuf) (ReqLen : Z) : M W Z :=
  b ← lift (aget (buf_bytes Req_a) RB_UDS_SUB_FN_OFFSET);
  subFn ← Uds_CoreExtractSubFn b;
  data ← lift (buf_at Req_a RB_UDS_SUBFN_ONLY_DATA_OFFSET);
  '(responseCode, n) ← call_handler (UDS_SID_LEN + RB_UDS_SUBFN_ONLY_DATA_OFFSET)
                         (rbUds_Security data (u16 (ReqLen - RB_UDS_SUBFN_ONLY_HDR_LEN)) subFn);
  (if pr_or_rcrrp responseCode then
     put_resp (UDS_SID_LEN + RB_UDS_SUB_FN_OFFSET) subFn;;
     uds_respLen (u16 (RB_UDS_SUBFN_ONLY_HDR_LEN + n))
   else uds_respLen 0);;
  mret responseCode.

Definition Uds_CoreRd (Req_a : UdsBuf) (ReqLen : Z) : M W Z :=
  dataFormatId ← lift (aget (buf_bytes Req_a) RB_UDS_DATA_FORMAT_OFFSET);
  addrAndLenFormatId ← lift (aget (buf_bytes Req_a) RB_UDS_ADDR_LEN_FORMAT_OFFSET);
  data ← lift (buf_at Req_a RB_UDS_MEM_ADDR_OFFSET);
  responseCode ← uds_call (rbUds_RequestDownloadCfg data (u16 (ReqLen - RB_UDS_MEM_ADDR_OFFSET)) dataFormatId addrAndLenFormatId);
  let responseCode := if u8 RB_UDS_14229_PR =? responseCode then RB_UDS_14229_GR else responseCode in
  uds_respLen 0;;
  mret responseCode.

Definition Uds_CoreTd (Req_a : UdsBuf) (ReqLen : Z) : M W Z :=
  blockSequence ← lift (aget (buf_bytes Req_a) RB_UDS_BLOCK_SEQ_COUNTER_OFFSET);
  data ← lift (buf_at Req_a RB_UDS_TRANSFER_DATA_HDR_LEN);
  '(responseCode, n) ← call_handler UDS_SID_LEN (rbUds_TransferDataCfg data (u16 (ReqLen - RB_UDS_TRANSFER_DATA_HDR_LEN)) blockSequence);
  (if u8 RB_UDS_14229_PR =? responseCode then uds_respLen n else uds_respLen 0);;
  mret responseCode.

Definition Uds_CoreRte (Req_a : UdsBuf) (ReqLen : Z) : M W Z :=
  data ← lift (buf_at Req_a RB_UDS_REQ_TRANSFER_EXIT_HDR_LEN);
  '(responseCode, n) ← call_handler UDS_SID_LEN (rbUds_TransferExitCfg data (u16 (ReqLen - RB_UDS_REQ_TRANSFER_EXIT_HDR_LEN)));
  (if u8 RB_UDS_14229_PR =? responseCode then uds_respLen n else uds_respLen 0);;
  mret responseCode.

Definition Uds_CoreEr (Req_a : UdsBuf) (ReqLen : Z) : M W Z :=
  b ← lift (aget (buf_bytes Req_a) RB_UDS_SUB_FN_OFFSET);
  subFn ← Uds_CoreExtractSubFn b;
  if negb (ReqLen =? 1) then uds_respLen 0;; mret RB_UDS_14229_IMLOIF
  else
    responseCode ← uds_call (rbUds_EcuReset subFn);
    (if u8 RB_UDS_14229_PR =? responseCode then
       put_resp (UDS_SID_LEN + RB_UDS_SUB_FN_OFFSET) subFn;;
       uds_respLen RB_UDS_SUBFN_ONLY_HDR_LEN
     else uds_respLen 0);;
    mret responseCode.

(** ** The service table *)

Record Uds_CoreServiceElement := mkService {
  sid : Z;
  permittedSession : Z;
  minLength : Z;
  Sid_fp : option (UdsBuf → Z → M W Z);
  SidPending_fp : option (Uds_CoreServicePending_fn U)
}.

Definition serviceCfg_a : list Uds_CoreServiceElement :=
  [ mkService (u8 RB_UDS_14229_SID_DSC) UDS_SESSION_ANY (1 + UDS_SUBFN_LEN) (Some Uds_CoreDsc) (Some rbUds_SessionCfgPendingCallback);
    mkService (u8 RB_UDS_14229_SID_ER) UDS_SESSION_ANY (1 + UDS_SUBFN_LEN) (Some Uds_CoreEr) None ] ++
  (if uds_RBD_PK_APP then
     [ mkService (u8 RB_UDS_14229_SID_CDTCI) (u8 UDS_SESSION_MASK_EXTDS) (1 + RB_UDS_CDTCI_HDR_LEN) (Some Uds_CoreCdtci)
         (Some rbUds_DtcClearCfgClearIsComplete);
       mkService (u8 RB_UDS_14229_SID_RDTCI) (Z.lor (u8 UDS_SESSION_MASK_DS) (u8 UDS_SESSION_MASK_EXTDS)) (1 + UDS_SUBFN_LEN)
         (Some Uds_CoreRdtci) None ] else []) ++
  [ mkService (u8 RB_UDS_14229_SID_RDBI) UDS_SESSION_ANY (u8 (1 + u8 RB_UDS_DID_HDR_LEN)) (Some Uds_CoreRdbi) (Some rbUds_DidReadPendingCallback);
    mkService (u8 RB_UDS_14229_SID_SA) (Z.lor (u8 UDS_SESSION_MASK_PRGS) (u8 UDS_SESSION_MASK_EXTDS)) (1 + UDS_SUBFN_LEN) (Some Uds_CoreSa)
      (Some rbUds_SecurityPendingCallback);
    mkService (u8 RB_UDS_14229_SID_WDBI) (u8 UDS_SESSION_MASK_EXTDS) (u8 (1 + u8 RB_UDS_DID_HDR_LEN + 1)) (Some Uds_CoreWdbi)
      (Some rbUds_DidWritePendingCallback);
    mkService (u8 RB_UDS_14229_SID_RC) (u8 (Z.lor UDS_SESSION_MASK_EXTDS UDS_SESSION_MASK_PRGS)) (u8 (1 + u8 UDS_SUBFN_LEN + u8 RB_UDS_DID_HDR_LEN))
      (Some Uds_CoreRc) (Some rbUds_RoutinePendingCallback) ] ++
  (if uds_RBD_PK_FBL then
     [ mkService (u8 RB_UDS_14229_SID_RD) (u8 UDS_SESSION_MASK_PRGS) (1 + RB_UDS_REQ_DOWNLOAD_HDR_LEN) (Some Uds_CoreRd)
         (Some rbUds_RequestDownloadCfgCallback);
       mkService (u8 RB_UDS_14229_SID_TD) (u8 UDS_SESSION_MASK_PRGS) (1 + RB_UDS_TRANSFER_DATA_HDR_LEN) (Some Uds_CoreTd)
         (Some rbUds_TransferDataCfgCallback);
       mkService (u8 RB_UDS_14229_SID_RTE) (u8 UDS_SESSION_MASK_PRGS) (1 + RB_UDS_REQ_TRANSFER_EXIT_HDR_LEN) (Some Uds_CoreRte)
         (Some rbUds_TransferExitCfgCallback) ] else []) ++
  [ mkService (u8 RB_UDS_14229_SID_TP) UDS_SESSION_ANY (1 + UDS_SUBFN_LEN) (Some Uds_CoreTp) None ].

(** ** Transmission *)

Definition Uds_CoreTxConfirmation : M W unit :=
  c ← gets uds;
  if lenZ serviceCfg_a <=? rcrrpSidIndex c then rbUds_CoreStartS3 else set_uds (set_rcrrpTxConfirm true).

Definition Uds_CoreTxAborted : M W unit := Uds_CoreTxConfirmation.

Definition Uds_CoreSendPositiveResponse (Sid : Z) : M W unit :=
  put_resp 0 (u8 (Sid + SID_PR));;
  c ← gets uds;
  uds_respLen (u16 (respLen c + 1));;
  c ← gets uds;
  send_response resp_a (respLen c) (suppressPosResp c);;
  c ← gets uds;
  when (suppressPosResp c) Uds_CoreTxConfirmation;;
  Uds_CoreSetIdle.

(** ** Requests *)

Definition UdsResponse_function (responseCode Sid ii : Z) : M W unit :=
  if responseCode =? RB_UDS_14229_PR then Uds_CoreSendPositiveResponse Sid
  else if responseCode =? RB_UDS_14229_RCRRP then
    uds_timer rcrrpPendingTimer set_rcrrpPendingTimer (λ u, rbd_ElTime_rbTimerStart u UDS_RCRRP_LIMIT_MS);;
    cfg ← lift (aget serviceCfg_a ii);
    match SidPending_fp cfg with
    | None => Uds_CoreSendNegativeResponse Sid RB_UDS_14229_GR
    | Some _ => set_uds (set_rcrrpSidIndex (u8 ii));; Uds_CoreSendPendingResponse Sid
    end
  else Uds_CoreSendNegativeResponse Sid responseCode.

(** What is done with a request whose service is entry [ii]. *)
Definition process_sid (cfg : Uds_CoreServiceElement) (ii : Z) (Req_a : UdsBuf) (ReqLen Sid : Z) : M W unit :=
  u ← gets uds_up;
  let currentSession := rbUds_SessionGetState u in
  match Sid_fp cfg with
  | None =>
      uds_det 1 RB_UDS_S_APIDATAINDICATION RB_UDS_E_NULL;;
      Uds_CoreSendNegativeResponse Sid RB_UDS_14229_GR
  | Some fp =>
      if Z.land currentSession (permittedSession cfg) =? 0 then Uds_CoreSendNegativeResponse Sid RB_UDS_14229_SNSIAS
      else if ReqLen <? minLength cfg then Uds_CoreSendNegativeResponse Sid RB_UDS_14229_IMLOIF
      else
        set_uds (set_isBusy true);;
        rest ← lift (buf_at Req_a 1);
        responseCode ← fp rest (u16 (ReqLen - 1));
        UdsResponse_function responseCode Sid ii
  end.

(** The search of the table, from entry [ii]; it ends at the first match. *)
Fixpoint sid_search (tbl : list Uds_CoreServiceElement) (ii : Z) (Req_a : UdsBuf) (ReqLen Sid : Z) : M W bool :=
  match tbl with
  | [] => mret false
  | cfg :: tbl =>
      if sid cfg =? Sid then process_sid cfg ii Req_a ReqLen Sid;; mret true
      else sid_search tbl (ii + 1) Req_a ReqLen Sid
  end.

Definition Uds_ApiDataIndication (Req_a : option UdsBuf) (ReqLen : Z) : M W unit :=
  rbUds_CoreStartS3;;
  match Req_a with
  | None =>
      uds_det 0 RB_UDS_S_APIDATAINDICATION RB_UDS_E_NULL;;
      Uds_CoreSendNegativeResponse 0 RB_UDS_14229_GR
  | Some Req_a =>
      if ReqLen <? 1 then
        uds_det 0 RB_UDS_S_APIDATAINDICATION RB_UDS_E_VALUE;;
        Uds_CoreSendNegativeResponse 0 RB_UDS_14229_GR
      else
        c ← gets uds;
        s ← lift (aget (buf_bytes Req_a) 0);
        if isBusy c then
          (* The test for a functional tester present has two empty branches. *)
          when ((ReqLen =? 2) && (s =? u8 RB_UDS_14229_SID_TP)) (lift (aget (buf_bytes Req_a) 1);; mret tt)
        else
          set_uds (set_reqPtr (buf_addr Req_a));;
          set_uds (set_reqLen ReqLen);;
          uds_respLen 0;;
          isFound ← sid_search serviceCfg_a 0 Req_a ReqLen s;
          when (negb isFound) (Uds_CoreSendNegativeResponse s RB_UDS_14229_SNS)
  end.

(** ** The session timer *)

Definition rbUds_ApiRxStarted : M W unit :=
  s3TimerState ← uds_timer_update s3Timer set_s3Timer;
  match s3TimerState with
  | RBD_ELTIME_RBTIMER_STATE_STOPPED => mret tt
  | RBD_ELTIME_RBTIMER_STATE_IDLE =>
      uds_timer s3Timer set_s3Timer (λ u, rbd_ElTime_rbTimerStart u UDS_S3_SERVER_MAX_MS);;
      uds_timer s3Timer set_s3Timer rbd_ElTime_rbTimerStop
  | _ => uds_timer s3Timer set_s3Timer rbd_ElTime_rbTimerInit
  end.

Definition rbUds_ApiRxAborted : M W unit := rbUds_CoreStartS3.

Definition rbUds_ApiIsS3Active : M W bool :=
  s3TimerState ← uds_timer_update s3Timer set_s3Timer;
  mret (match s3TimerState with
        | RBD_ELTIME_RBTIMER_STATE_RUNNING | RBD_ELTIME_RBTIMER_STATE_STOPPED => true
        | _ => false
        end).

Definition Uds_CoreS3TimerSubtask : M W unit :=
  u ← gets uds_up;
  let currentSession := rbUds_SessionGetState u in
  s3TimerState ← uds_timer_update s3Timer set_s3Timer;
  let elapsed := bool_decide (s3TimerState = RBD_ELTIME_RBTIMER_STATE_ELAPSED) in
  when (negb (u8 UDS_SESSION_MASK_DS =? currentSession) && elapsed)
    (uds_call_ rbUds_SessionS3TimerExpiredReset;;
     uds_ev UdsSessionExpired;;
     Uds_CoreReset);;
  when elapsed
    (id ← gets Uds_PwrReqID;
     uds_call_ (uds_PwrReq_ReleaseService id);;
     uds_ev (UdsPwrRelease id)).

(** ** Pending responses *)

Definition rbUds_ApiPendingSubtask : M W bool :=
  c ← gets uds; mret (rcrrpSidIndex c <? lenZ serviceCfg_a).

Definition Uds_CoreResponsePendingTask (responseCode Sid n : Z) : M W unit :=
  rcrrpTimerState ← uds_timer_update rcrrpTimer set_rcrrpTimer;
  if responseCode =? RB_UDS_14229_PR then
    c ← gets uds;
    uds_respLen (u16 (respLen c + n));;
    Uds_CoreSendPositiveResponse Sid
  else if responseCode =? RB_UDS_14229_RCRRP then
    when (bool_decide (rcrrpTimerState = RBD_ELTIME_RBTIMER_STATE_ELAPSED))
      (rbUds_CoreStartS3;; Uds_CoreSendPendingResponse Sid)
  else Uds_CoreSendNegativeResponse Sid responseCode.

(** What is done when the time for pending responses is over, and the response code then. *)
Definition rcrrp_limit (Sid responseCode : Z) : M W Z :=
  if (u8 RB_UDS_14229_SID_SA =? Sid) || (u8 RB_UDS_14229_SID_DSC =? Sid) || (u8 RB_UDS_14229_SID_ER =? Sid) then
    uds_call_ Mcu_PerformReset;; uds_ev UdsMcuReset;; mret responseCode
  else
    (if Sid =? RB_UDS_14229_SID_RC then uds_call_ rbUds_RoutineClearStateinfo;; uds_ev (UdsClearState Sid)
     else if Sid =? RB_UDS_14229_SID_RDBI then uds_call_ rbUds_DidReadClearStateinfo;; uds_ev (UdsClearState Sid)
     else if Sid =? RB_UDS_14229_SID_WDBI then uds_call_ rbUds_WriteDidClearStateinfo;; uds_ev (UdsClearState Sid)
     else mret tt);;
    mret RB_UDS_14229_GR.

Definition Uds_CoreResponsePendingSubtask : M W unit :=
  c ← gets uds;
  when (rcrrpSidIndex c <? lenZ serviceCfg_a)
    (cfg ← lift (aget serviceCfg_a (rcrrpSidIndex c));
     match SidPending_fp cfg with
     | None =>
         uds_det 0 RB_UDS_S_CORERESPONSEPENDINGSUBTASK RB_UDS_E_NULL;;
         Uds_CoreSetIdle
     | Some Pending_fp =>
         rcrrpTimerState ← uds_timer_update rcrrpTimer set_rcrrpTimer;
         timerState ← uds_timer_update rcrrpPendingTimer set_rcrrpPendingTimer;
         c ← gets uds;
         if rcrrpTxConfirm c then
           let off := if u8 RB_UDS_14229_SID_RDBI =? sid cfg then UDS_SID_LEN + RB_UDS_DID_HDR_LEN else UDS_SID_LEN + respLen c in
           '(responseCode, n) ← call_handler off (Pending_fp off (req c) (reqLen c));
           responseCode ← (if bool_decide (timerState = RBD_ELTIME_RBTIMER_STATE_ELAPSED) then rcrrp_limit (sid cfg) responseCode else mret responseCode);
           Uds_CoreResponsePendingTask responseCode (sid cfg) n
         else when (bool_decide (rcrrpTimerState = RBD_ELTIME_RBTIMER_STATE_ELAPSED))
           (uds_det 0 RB_UDS_S_CORERESPONSEPENDINGSUBTASK RB_UDS_E_TIMEOUT;;
            Uds_CoreSetIdle)
     end).

Definition Uds_CoreCyclic : M W unit :=
  Uds_CoreResponsePendingSubtask;;
  Uds_CoreS3TimerSubtask.

Definition Uds_CoreIsBusy : M W bool := gets (λ w, isBusy (uds w)).
End UdsCore.
