(* ===== verification/UdsSpec.v ===== *)
(** * rbUds_Core: the diagnostic server as an exchange automaton

    The specification.  The server has at most one exchange open: a request that was
    answered "response pending" and whose final answer is due.  A request is answered by a
    table of services without an order, a message is the list of its bytes, and there are
    no buffers, lengths, flags or indices.  [uds_step] is one call. *)

From S2P Require Import Prelude ElTime UdsTypes.
From stdpp Require Import base list numbers option.

#[local] Open Scope Z_scope.

Inductive Service := Dsc | Er | Cdtci | Rdtci | Rdbi | Sa | Wdbi | Rc | Rd | Td | Rte | Tp.
#[global] Instance Service_eq_dec : EqDecision Service.
Proof. solve_decision. Defined.

(** The calls: those of the transport layer, of the scheduler and of other modules; between
    them time passes and the neighbours change. *)
Inductive uds_op (U : Type) :=
| ORequest (buf : option UdsBuf) (len : Z)
| ORxStarted | ORxAborted | OTxAborted | OTxConfirmation | OStartS3 | OCyclic | OReset | OPwrInit | OS3Active
| OEnv (f : U → U).
Arguments ORequest {U} _ _.
Arguments ORxStarted {U}.
Arguments ORxAborted {U}.
Arguments OTxAborted {U}.
Arguments OTxConfirmation {U}.
Arguments OStartS3 {U}.
Arguments OCyclic {U}.
Arguments OReset {U}.
Arguments OPwrInit {U}.
Arguments OS3Active {U}.
Arguments OEnv {U} _.

(** An open exchange: the service, the part of the answer that is known, whether the last
    "response pending" has been confirmed, when the next one is due, when the time is over,
    and where the request is. *)
Record Exchange := mkEx { ex_svc : Service; ex_head : list Z; ex_conf : bool; ex_next : Z; ex_limit : Z; ex_req : Z; ex_reqLen : Z }.

Record UdsA (U : Type) := mkUdsA { a_open : option Exchange; a_s3 : EndTimer; a_pwr : Z; a_up : U; a_trace : list Uds_Event }.
Arguments mkUdsA {U} _ _ _ _ _.
Arguments a_open {U} _.
Arguments a_s3 {U} _.
Arguments a_pwr {U} _.
Arguments a_up {U} _.
Arguments a_trace {U} _.

(** What a service makes of a request. *)
Record Reply := mkReply { rp_code : Z; rp_body : list Z; rp_sup : bool }.

Section spec.
Context {T U : Type} `{HT : ElTime T U} {HL : ElTimeLaws T U} `{HE : Uds_Env U}.
Abbreviation A := (UdsA U).

(** ** Services *)

Definition services : list Service :=
  [Dsc; Er] ++ (if uds_RBD_PK_APP then [Cdtci; Rdtci] else []) ++ [Rdbi; Sa; Wdbi; Rc] ++
  (if uds_RBD_PK_FBL then [Rd; Td; Rte] else []) ++ [Tp].

Definition svc_sid (s : Service) : Z :=
  match s with
  | Dsc => RB_UDS_14229_SID_DSC | Er => RB_UDS_14229_SID_ER | Cdtci => RB_UDS_14229_SID_CDTCI | Rdtci => RB_UDS_14229_SID_RDTCI
  | Rdbi => RB_UDS_14229_SID_RDBI | Sa => RB_UDS_14229_SID_SA | Wdbi => RB_UDS_14229_SID_WDBI | Rc => RB_UDS_14229_SID_RC
  | Rd => RB_UDS_14229_SID_RD | Td => RB_UDS_14229_SID_TD | Rte => RB_UDS_14229_SID_RTE | Tp => RB_UDS_14229_SID_TP
  end.

(** The sessions in which a service is allowed. *)
Definition svc_sessions (s : Service) : Z :=
  match s with
  | Dsc | Er | Rdbi | Tp => UDS_SESSION_ANY
  | Cdtci | Wdbi => UDS_SESSION_MASK_EXTDS
  | Rdtci => Z.lor UDS_SESSION_MASK_DS UDS_SESSION_MASK_EXTDS
  | Sa => Z.lor UDS_SESSION_MASK_PRGS UDS_SESSION_MASK_EXTDS
  | Rc => Z.lor UDS_SESSION_MASK_EXTDS UDS_SESSION_MASK_PRGS
  | Rd | Td | Rte => UDS_SESSION_MASK_PRGS
  end.

(** The length of the shortest request. *)
Definition svc_min (s : Service) : Z :=
  match s with Dsc | Er | Rdtci | Sa | Tp | Td => 2 | Rdbi => 3 | Cdtci | Wdbi | Rc => 4 | Rd => 5 | Rte => 1 end.

(** The function that is asked for the rest of the answer. *)
Definition svc_pending (s : Service) : option (Uds_CoreServicePending_fn U) :=
  match s with
  | Dsc => Some rbUds_SessionCfgPendingCallback | Cdtci => Some rbUds_DtcClearCfgClearIsComplete
  | Rdbi => Some rbUds_DidReadPendingCallback | Sa => Some rbUds_SecurityPendingCallback
  | Wdbi => Some rbUds_DidWritePendingCallback | Rc => Some rbUds_RoutinePendingCallback
  | Rd => Some rbUds_RequestDownloadCfgCallback | Td => Some rbUds_TransferDataCfgCallback
  | Rte => Some rbUds_TransferExitCfgCallback | Er | Rdtci | Tp => None
  end.

(** Sub-function and suppress bit of a byte. *)
Definition sub_fn (b : Z) : Z := Z.land b 127.
Definition sup_bit (b : Z) : bool := Z.testbit b 7.
#[global] Arguments sub_fn : simpl never.
#[global] Arguments sup_bit : simpl never.

(** A handler's answer behind the bytes [echo] of the request; the data of an answer that is
    still pending count if [early]. *)
Definition reply_with (sup : bool) (echo : list Z) (pend early : bool) (x : UdsAns * U) : Reply * U :=
  let '(a, u) := x in
  (mkReply (ans_code a)
     (if ans_code a =? RB_UDS_14229_PR then echo ++ ans_data a
      else if pend && (ans_code a =? RB_UDS_14229_RCRRP) then echo ++ (if early then ans_data a else []) else []) sup, u).
Definition reply_code (sup : bool) (echo : list Z) (x : Z * U) : Reply * U :=
  let '(c, u) := x in (mkReply c (if c =? RB_UDS_14229_PR then echo else []) sup, u).
Definition refuse (c : Z) (u : U) : Reply * U := (mkReply c [] false, u).

(** The rest of a buffer. *)
Definition rest (b : UdsBuf) (k : nat) : UdsBuf := mkBuf (buf_addr b + Z.of_nat k) (drop k (buf_bytes b)).

(** The answer of a service to the [n] bytes behind the service identifier. *)
Definition svc_reply (s : Service) (b : UdsBuf) (n : Z) (u : U) : Reply * U :=
  match s, buf_bytes b with
  | Rdbi, h :: l :: _ =>
      if n =? 2 then reply_with false [h; l] true false (rbUds_DidRead (rbUds_Make16Bit h l) u) else refuse RB_UDS_14229_IMLOIF u
  | Wdbi, h :: l :: _ => reply_with false [h; l] true true (rbUds_DidWrite (rest b 2) (n - 2) (rbUds_Make16Bit h l) u)
  | Rc, f :: h :: l :: _ =>
      reply_with (sup_bit f) [sub_fn f; h; l] true true (rbUds_Routine (rest b 3) (n - 3) (rbUds_Make16Bit h l) (sub_fn f) u)
  | Rdtci, f :: _ => reply_with (sup_bit f) [sub_fn f] false false (rbUds_DtcRead (rest b 1) (n - 1) (sub_fn f) u)
  | Cdtci, x :: y :: z :: _ =>
      if n =? 3 then reply_code false [] (rbUds_DtcClearCfgClear (rbUds_Make32Bit 0 x y z) u) else refuse RB_UDS_14229_IMLOIF u
  | Dsc, f :: _ =>
      if n =? 1 then reply_with (sup_bit f) [sub_fn f] true true (rbUds_Session (sub_fn f) u) else refuse RB_UDS_14229_IMLOIF u
  | Tp, f :: _ =>
      if negb (n =? 1) then refuse RB_UDS_14229_IMLOIF u
      else if negb (sub_fn f =? 0) then refuse RB_UDS_14229_SFNS u
      else (mkReply RB_UDS_14229_PR [0] (sup_bit f), u)
  | Sa, f :: _ => reply_with (sup_bit f) [sub_fn f] true true (rbUds_Security (rest b 1) (n - 1) (sub_fn f) u)
  | Er, f :: _ => if n =? 1 then reply_code (sup_bit f) [sub_fn f] (rbUds_EcuReset (sub_fn f) u) else refuse RB_UDS_14229_IMLOIF u
  | Rd, f :: g :: _ =>
      let '(c, u) := rbUds_RequestDownloadCfg (rest b 2) (n - 2) f g u in
      refuse (if c =? RB_UDS_14229_PR then RB_UDS_14229_GR else c) u
  | Td, q :: _ => reply_with false [] false false (rbUds_TransferDataCfg (rest b 1) (n - 1) q u)
  | Rte, _ => reply_with false [] false false (rbUds_TransferExitCfg (rest b 0) n u)
  | _, _ => refuse RB_UDS_14229_GR u
  end.

(** ** The automaton *)

Definition a_emit (e : Uds_Event) (a : A) : A := mkUdsA (a_open a) (a_s3 a) (a_pwr a) (a_up a) (a_trace a ++ [e]).
Definition a_with (f : U → U) (a : A) : A := mkUdsA (a_open a) (a_s3 a) (a_pwr a) (f (a_up a)) (a_trace a).
Definition a_set (x : option Exchange) (a : A) : A := mkUdsA x (a_s3 a) (a_pwr a) (a_up a) (a_trace a).
Definition a_set_s3 (t : EndTimer) (a : A) : A := mkUdsA (a_open a) t (a_pwr a) (a_up a) (a_trace a).

Definition a_send (bytes : list Z) (sup : bool) (a : A) : A := a_emit (UdsSend bytes sup) (a_with (Uds_CoreCfgSendResponse bytes sup) a).
Definition a_start_s3 (a : A) : A :=
  a_emit (UdsPwrRequest (a_pwr a)) (a_with (uds_PwrReq_RequestService (a_pwr a)) (a_set_s3 (TimerEnds (now (a_up a) + UDS_S3_SERVER_MAX_MS)) a)).

(** The final answers close the exchange; a suppressed one counts as confirmed. *)
Definition a_negative (s c : Z) (a : A) : A := a_set None (a_send [SID_NR; s; c] false a).
Definition a_positive (s : Z) (body : list Z) (sup : bool) (a : A) : A :=
  let a := a_send (u8 (s + SID_PR) :: body) sup a in a_set None (if sup then a_start_s3 a else a).
Definition a_pending (x : Exchange) (a : A) : A :=
  let a := a_send [SID_NR; svc_sid (ex_svc x); RB_UDS_14229_RCRRP] false a in
  a_set (Some (mkEx (ex_svc x) (ex_head x) false (now (a_up a) + 3 * UDS_RCRRP_INTERVAL_MS) (ex_limit x) (ex_req x) (ex_reqLen x))) a.

(** Where a pending function finds the request: the routine filter moves the pointer behind
    its header. *)
Definition kept_req (s : Service) (b : UdsBuf) (len : Z) : Z * Z :=
  match s with Rc => (buf_addr b + 4, len - 4) | _ => (buf_addr b, len) end.

Definition a_service (s : Service) (b : UdsBuf) (len : Z) (a : A) : A :=
  if Z.land (rbUds_SessionGetState (a_up a)) (svc_sessions s) =? 0 then a_negative (svc_sid s) RB_UDS_14229_SNSIAS a
  else if len <? svc_min s then a_negative (svc_sid s) RB_UDS_14229_IMLOIF a
  else
    let '(r, u) := svc_reply s (rest b 1) (len - 1) (a_up a) in
    let a := a_with (λ _, u) a in
    if rp_code r =? RB_UDS_14229_PR then a_positive (svc_sid s) (rp_body r) (rp_sup r) a
    else if rp_code r =? RB_UDS_14229_RCRRP then
      match svc_pending s with
      | None => a_negative (svc_sid s) RB_UDS_14229_GR a
      | Some _ => a_pending (mkEx s (rp_body r) false 0 (now u + UDS_RCRRP_LIMIT_MS) (fst (kept_req s b len)) (snd (kept_req s b len))) a
      end
    else a_negative (svc_sid s) (rp_code r) a.

Definition a_request (buf : option UdsBuf) (len : Z) (a : A) : A :=
  let a := a_start_s3 a in
  match buf with
  | None => a_negative 0 RB_UDS_14229_GR (a_emit (UdsDet 0 RB_UDS_S_APIDATAINDICATION RB_UDS_E_NULL) a)
  | Some b =>
      if len <? 1 then a_negative 0 RB_UDS_14229_GR (a_emit (UdsDet 0 RB_UDS_S_APIDATAINDICATION RB_UDS_E_VALUE) a)
      else match a_open a, buf_bytes b with
      | None, q :: _ =>
          match find (λ s, svc_sid s =? q) services with
          | Some s => a_service s b len a
          | None => a_negative q RB_UDS_14229_SNS a
          end
      | _, _ => a
      end
  end.

(** The services that end in a reset of the controller when their time is over. *)
Definition resets (s : Service) : bool := match s with Sa | Dsc | Er => true | _ => false end.
Definition a_limit (s : Service) (c : Z) (a : A) : Z * A :=
  if resets s then (c, a_emit UdsMcuReset (a_with Mcu_PerformReset a))
  else (RB_UDS_14229_GR,
        match s with
        | Rc => a_emit (UdsClearState (svc_sid s)) (a_with rbUds_RoutineClearStateinfo a)
        | Rdbi => a_emit (UdsClearState (svc_sid s)) (a_with rbUds_DidReadClearStateinfo a)
        | Wdbi => a_emit (UdsClearState (svc_sid s)) (a_with rbUds_WriteDidClearStateinfo a)
        | _ => a
        end).

(** An open exchange is asked for its answer once its "response pending" is confirmed, and
    given up if the confirmation does not come in time. *)
Definition a_ask (x : Exchange) (f : Uds_CoreServicePending_fn U) (a : A) : A :=
  let late := timer_over (now (a_up a)) (Some (ex_limit x)) in
  let '(ans, u) := f (1 + lenZ (ex_head x)) (ex_req x) (ex_reqLen x) (a_up a) in
  let a := a_with (λ _, u) a in
  let '(c, a) := if late then a_limit (ex_svc x) (ans_code ans) a else (ans_code ans, a) in
  if c =? RB_UDS_14229_PR then a_positive (svc_sid (ex_svc x)) (ex_head x ++ ans_data ans) false a
  else if c =? RB_UDS_14229_RCRRP then if timer_over (now (a_up a)) (Some (ex_next x)) then a_pending x (a_start_s3 a) else a
  else a_negative (svc_sid (ex_svc x)) c a.

Definition a_poll (a : A) : A :=
  match a_open a with
  | None => a
  | Some x =>
      match svc_pending (ex_svc x) with
      | None => a
      | Some f =>
          if ex_conf x then a_ask x f a
          else if timer_over (now (a_up a)) (Some (ex_next x))
          then a_set None (a_emit (UdsDet 0 RB_UDS_S_CORERESPONSEPENDINGSUBTASK RB_UDS_E_TIMEOUT) a)
          else a
      end
  end.

(** Outside the default session the end of the session timer closes everything. *)
Definition a_session (a : A) : A :=
  if timer_over (now (a_up a)) (end_of (a_s3 a)) then
    let a' := if u8 UDS_SESSION_MASK_DS =? rbUds_SessionGetState (a_up a) then a
              else a_set_s3 TimerIdle (a_set None (a_emit UdsSessionExpired (a_with rbUds_SessionS3TimerExpiredReset a))) in
    a_emit (UdsPwrRelease (a_pwr a)) (a_with (uds_PwrReq_ReleaseService (a_pwr a)) a')
  else a.

Definition a_confirm (a : A) : A :=
  match a_open a with
  | None => a_start_s3 a
  | Some x => a_set (Some (mkEx (ex_svc x) (ex_head x) true (ex_next x) (ex_limit x) (ex_req x) (ex_reqLen x))) a
  end.

Definition a_rx_started (a : A) : A :=
  match a_s3 a with
  | TimerStopped => a
  | TimerIdle => a_set_s3 TimerStopped a
  | TimerEnds _ => a_set_s3 TimerIdle a
  end.

Definition uds_step (op : uds_op U) (a : A) : A :=
  match op with
  | ORequest buf len => a_request buf len a
  | ORxStarted => a_rx_started a
  | ORxAborted | OStartS3 => a_start_s3 a
  | OTxAborted | OTxConfirmation => a_confirm a
  | OCyclic => a_session (a_poll a)
  | OReset => a_set_s3 TimerIdle (a_set None a)
  | OPwrInit => let '(id, u) := uds_PwrReq_GetID (a_up a) in mkUdsA (a_open a) (a_s3 a) id u (a_trace a)
  | OS3Active => a
  | OEnv f => a_with f a
  end.

Definition uds_run (ops : list (uds_op U)) (a : A) : A := foldl (λ a op, uds_step op a) a ops.
End spec.
