(* ===== verification/UdsBase.v ===== *)
(** * rbUds_Core: the simulation relation, leaf functions and service filters

    The relation between the control block and the automaton of UdsSpec, the laws of the service
    handlers, and the steps of the simulation for the leaf functions and the twelve filters. *)

From S2P Require Import Prelude ElTime UdsTypes UdsCore UdsSpec.
From stdpp Require Import base list numbers option.

#[local] Open Scope Z_scope.

(** A handler that is given [&resp_a[off]] stays inside the buffer and reports the length it
    has written. *)
Definition ans_fits {U : Type} (size off : Z) (f : U → UdsAns * U) : Prop :=
  ∀ u, off + lenZ (ans_data (fst (f u))) ≤ size ∧ ans_len (fst (f u)) = lenZ (ans_data (fst (f u))).

(** The layouts and ranges of ISO 14229, different codes for different things, and handlers
    that keep to the buffer. *)
Class UdsLaws (U : Type) `{HE : Uds_Env U} := {
  ul_size : 4 ≤ UDS_BUFFER_SIZE < 65536;
  ul_did : RB_UDS_DID_MSB_OFFSET = 0 ∧ RB_UDS_DID_LSB_OFFSET = 1 ∧ RB_UDS_DID_HDR_LEN = 2;
  ul_rid : RB_UDS_ROUTINE_SUB_FN_OFFSET = 0 ∧ RB_UDS_ROUTINE_RID_MSB_OFFSET = 1 ∧ RB_UDS_ROUTINE_RID_LSB_OFFSET = 2 ∧ RB_UDS_ROUTINE_HDR_LEN = 3;
  ul_sid s : byte_ok (svc_sid s);
  ul_sids s t : svc_sid s = svc_sid t → s = t;
  ul_masks : Forall byte_ok [UDS_SESSION_MASK_DS; UDS_SESSION_MASK_EXTDS; UDS_SESSION_MASK_PRGS];
  ul_codes : Forall byte_ok [RB_UDS_14229_PR; RB_UDS_14229_RCRRP];
  ul_distinct : NoDup [RB_UDS_14229_PR; RB_UDS_14229_RCRRP; RB_UDS_14229_GR; RB_UDS_14229_IMLOIF; RB_UDS_14229_SFNS];
  ul_DidRead d : ans_fits UDS_BUFFER_SIZE 3 (rbUds_DidRead d);
  ul_DidWrite b n d : ans_fits UDS_BUFFER_SIZE 3 (rbUds_DidWrite b n d);
  ul_Routine b n r f : ans_fits UDS_BUFFER_SIZE 4 (rbUds_Routine b n r f);
  ul_DtcRead b n f : ans_fits UDS_BUFFER_SIZE 2 (rbUds_DtcRead b n f);
  ul_Session f : ans_fits UDS_BUFFER_SIZE 2 (rbUds_Session f);
  ul_Security b n f : ans_fits UDS_BUFFER_SIZE 2 (rbUds_Security b n f);
  ul_TransferData b n q : ans_fits UDS_BUFFER_SIZE 1 (rbUds_TransferDataCfg b n q);
  ul_TransferExit b n : ans_fits UDS_BUFFER_SIZE 1 (rbUds_TransferExitCfg b n);
  ul_pending s f off r n : svc_pending s = Some f → 1 ≤ off ≤ UDS_BUFFER_SIZE → ans_fits UDS_BUFFER_SIZE off (f off r n)
}.

Lemma lor_byte x y : byte_ok x → byte_ok y → byte_ok (Z.lor x y).
Proof.
  intros Hx Hy. unfold byte_ok. replace (Z.lor x y) with (Z.lor x y mod 256); [apply Z.mod_pos_bound; lia|].
  rewrite <-(land_0xFF (Z.lor x y)), Z.land_lor_distr_l, !land_0xFF. by rewrite !Z.mod_small.
Qed.

Section rel.
Context {T U : Type} `{HT : ElTime T U} {HL : ElTimeLaws T U} `{HE : Uds_Env U} {HU : UdsLaws U}.
Abbreviation W := (UdsWorld T U).
Abbreviation CB := (Uds_ControlBlock T).
Abbreviation A := (UdsA U).
Abbreviation SIZE := UDS_BUFFER_SIZE.

(** ** The service table is the set of services *)

Definition svc_filter (s : Service) : UdsBuf → Z → M W Z :=
  match s with
  | Dsc => Uds_CoreDsc | Er => Uds_CoreEr | Cdtci => Uds_CoreCdtci | Rdtci => Uds_CoreRdtci | Rdbi => Uds_CoreRdbi | Sa => Uds_CoreSa
  | Wdbi => Uds_CoreWdbi | Rc => Uds_CoreRc | Rd => Uds_CoreRd | Td => Uds_CoreTd | Rte => Uds_CoreRte | Tp => Uds_CoreTp
  end.
Definition svc_entry (s : Service) : Uds_CoreServiceElement :=
  mkService (svc_sid s) (svc_sessions s) (svc_min s) (Some (svc_filter s)) (svc_pending s).

Lemma masks_u8 : u8 UDS_SESSION_MASK_DS = UDS_SESSION_MASK_DS ∧ u8 UDS_SESSION_MASK_EXTDS = UDS_SESSION_MASK_EXTDS ∧
  u8 UDS_SESSION_MASK_PRGS = UDS_SESSION_MASK_PRGS ∧
  u8 (Z.lor UDS_SESSION_MASK_EXTDS UDS_SESSION_MASK_PRGS) = Z.lor UDS_SESSION_MASK_EXTDS UDS_SESSION_MASK_PRGS.
Proof using HU.
  pose proof ul_masks as H. rewrite !list.Forall_cons in H. destruct H as (H1 & H2 & H3 & _). rewrite !u8_small by done. split_and!; try done.
  by apply u8_small, lor_byte.
Qed.

Lemma table_eq : serviceCfg_a = svc_entry <$> services.
Proof using HU.
  destruct masks_u8 as (E1 & E2 & E3 & E4). destruct ul_did as (_ & _ & E5). pose proof (λ s, u8_small _ (ul_sid s)) as Es.
  unfold serviceCfg_a, services, svc_entry. rewrite E1, E2, E3, E4, E5.
  pose proof (Es Dsc). pose proof (Es Er). pose proof (Es Cdtci). pose proof (Es Rdtci). pose proof (Es Rdbi). pose proof (Es Sa).
  pose proof (Es Wdbi). pose proof (Es Rc). pose proof (Es Rd). pose proof (Es Td). pose proof (Es Rte). pose proof (Es Tp). cbn [svc_sid] in *.
  destruct uds_RBD_PK_APP, uds_RBD_PK_FBL; cbn; repeat f_equal; done.
Qed.

Lemma aget_table i e : aget (serviceCfg_a (T := T)) i = Some e → ∃ s, aget services i = Some s ∧ e = svc_entry s.
Proof using HU.
  rewrite table_eq. unfold aget. case_decide; [|done]. rewrite list_lookup_fmap. intros (s & E & ->)%fmap_Some. eauto.
Qed.
Lemma aget_table_2 i s : aget services i = Some s → aget (serviceCfg_a (T := T)) i = Some (svc_entry s).
Proof using HU. rewrite table_eq. unfold aget. case_decide; [|done]. rewrite list_lookup_fmap. by intros ->. Qed.
Lemma table_small : lenZ (serviceCfg_a (T := T)) < 255.
Proof using HU. rewrite table_eq. unfold services. destruct uds_RBD_PK_APP, uds_RBD_PK_FBL; done. Qed.

(** ** The relation *)

Definition s3_rel (e : EndTimer) (t : T) : Prop := deadline t = end_of e ∧ (end_of e = None → timer_stopped t = end_stopped e).

Definition idle_cb (c : CB) : Prop := isBusy c = false ∧ rcrrpTxConfirm c = false ∧ rcrrpSidIndex c = UDS_CORE_INVALID_RCRRP_INDEX ∧ respLen c = 0.

(** The bytes of the answer behind the service identifier. *)
Definition holds (c : CB) (body : list Z) : Prop := respLen c = lenZ body ∧ ∃ x z, resp_a c = x :: body ++ z.

Record open_cb (x : Exchange) (c : CB) : Prop := {
  o_busy : isBusy c = true;
  o_conf : rcrrpTxConfirm c = ex_conf x;
  o_svc : aget services (rcrrpSidIndex c) = Some (ex_svc x);
  o_pend : is_Some (svc_pending (ex_svc x));
  o_head : holds c (ex_head x);
  o_next : deadline (rcrrpTimer c) = Some (ex_next x);
  o_limit : deadline (rcrrpPendingTimer c) = Some (ex_limit x);
  o_req : req c = ex_req x;
  o_reqLen : reqLen c = ex_reqLen x;
  o_rdbi : ex_svc x = Rdbi → lenZ (ex_head x) = 2
}.

(** What holds within a call. *)
Record base (a : A) (w : W) : Prop := {
  b_s3 : s3_rel (a_s3 a) (s3Timer (uds w));
  b_pwr : Uds_PwrReqID w = a_pwr a;
  b_up : uds_up w = a_up a;
  b_trace : uds_trace w = a_trace a;
  b_resp : lenZ (resp_a (uds w)) = SIZE;
  b_neg : lenZ (negResp_a (uds w)) = UDS_CORE_NEG_RESP_LEN
}.

(** What holds between calls. *)
Record uds_rel (a : A) (w : W) : Prop := {
  r_base : base a w;
  r_sup : suppressPosResp (uds w) = false;
  r_open : match a_open a with None => idle_cb (uds w) | Some x => open_cb x (uds w) end
}.

Lemma holds_bound c body : lenZ (resp_a c) = SIZE → holds c body → 0 ≤ lenZ body ∧ 1 + lenZ body ≤ SIZE.
Proof. intros Hl (_ & x & z & E). rewrite E in Hl. autorewrite with lenZ in Hl. pose proof (lenZ_nonneg z). pose proof (lenZ_nonneg body). lia. Qed.

(** ** Primitives *)

Lemma wp_set_uds (f : CB → CB) (Q : unit → W → Prop) w :
  Q tt (mkUdsWorld (f (uds w)) (Uds_PwrReqID w) (uds_up w) (uds_trace w)) → wp (set_uds f) Q w.
Proof. done. Qed.
Lemma wp_uds_ev e (Q : unit → W → Prop) w : Q tt (mkUdsWorld (uds w) (Uds_PwrReqID w) (uds_up w) (uds_trace w ++ [e])) → wp (uds_ev e) Q w.
Proof. done. Qed.
Lemma wp_uds_call {R} (f : U → R * U) (Q : R → W → Prop) w :
  Q (fst (f (uds_up w))) (mkUdsWorld (uds w) (Uds_PwrReqID w) (snd (f (uds_up w))) (uds_trace w)) → wp (uds_call f) Q w.
Proof. intros H. eapply wp_eq; [|exact H]. unfold uds_call. by destruct (f (uds_up w)). Qed.
Lemma wp_uds_call_ (f : U → U) (Q : unit → W → Prop) w :
  Q tt (mkUdsWorld (uds w) (Uds_PwrReqID w) (f (uds_up w)) (uds_trace w)) → wp (uds_call_ f) Q w.
Proof. done. Qed.
Lemma wp_timer get set f (Q : unit → W → Prop) w :
  Q tt (mkUdsWorld (set (f (uds_up w) (get (uds w))) (uds w)) (Uds_PwrReqID w) (uds_up w) (uds_trace w)) → wp (uds_timer get set f) Q w.
Proof. done. Qed.
(** The answer of a timer; asking it changes nothing that is observed. *)
Lemma wp_timer_update get set (Q : rbTimerState → W → Prop) w :
  (∀ t, deadline t = deadline (get (uds w)) → timer_stopped t = timer_stopped (get (uds w)) →
     Q (timer_answer (now (uds_up w)) (deadline (get (uds w))) (timer_stopped (get (uds w))))
       (mkUdsWorld (set t (uds w)) (Uds_PwrReqID w) (uds_up w) (uds_trace w))) →
  wp (uds_timer_update get set) Q w.
Proof.
  intros H. unfold uds_timer_update. do 4 wp_step. pose proof (timer_update_keeps (uds_up w) (get (uds w))) as Ek.
  pose proof (timer_update_stopped (uds_up w) (get (uds w))) as Ex. pose proof (timer_update_state (uds_up w) (get (uds w))) as Es.
  destruct (rbd_ElTime_rbTimerUpdate _ _) as [s t]. cbn in *. subst s. unfold set_uds. wp_steps. by apply H.
Qed.
Lemma wp_put_resp i x (Q : unit → W → Prop) w :
  0 ≤ i < lenZ (resp_a (uds w)) → Q tt (mkUdsWorld (set_resp_a (<[Z.to_nat i := x]> (resp_a (uds w))) (uds w)) (Uds_PwrReqID w) (uds_up w) (uds_trace w)) →
  wp (put_resp i x) Q w.
Proof. intros Hi HQ. unfold put_resp. do 2 wp_step. wp_step. eapply wp_lift; [by apply aset_is_Some|]. by apply wp_set_uds. Qed.
Lemma wp_put_negResp i x (Q : unit → W → Prop) w :
  0 ≤ i < lenZ (negResp_a (uds w)) → Q tt (mkUdsWorld (set_negResp_a (<[Z.to_nat i := x]> (negResp_a (uds w))) (uds w)) (Uds_PwrReqID w) (uds_up w) (uds_trace w)) →
  wp (put_negResp i x) Q w.
Proof. intros Hi HQ. unfold put_negResp. do 2 wp_step. wp_step. eapply wp_lift; [by apply aset_is_Some|]. by apply wp_set_uds. Qed.
Lemma wp_send buf n sup bytes (Q : unit → W → Prop) w :
  aslice (buf (uds w)) 0 n = Some bytes →
  Q tt (mkUdsWorld (uds w) (Uds_PwrReqID w) (Uds_CoreCfgSendResponse bytes sup (uds_up w)) (uds_trace w ++ [UdsSend bytes sup])) →
  wp (send_response buf n sup) Q w.
Proof. intros E HQ. unfold send_response. do 2 wp_step. wp_step. eapply wp_lift; [done|]. wp_step. apply wp_uds_call_. by apply wp_uds_ev. Qed.
End rel.

(** One step of symbolic execution of a function of the core. *)
Ltac uds_step1 :=
  match goal with
  | |- wp (mbind _ _) _ _ => apply wp_bind
  | |- wp (mret _) _ _ => apply wp_ret
  | |- wp (gets _) _ _ => apply wp_gets
  | |- wp (set_uds _) _ _ => apply wp_set_uds
  | |- wp (uds_respLen _) _ _ => apply wp_set_uds
  | |- wp (uds_ev _) _ _ => apply wp_uds_ev
  | |- wp (uds_det _ _ _) _ _ => apply wp_uds_ev
  | |- wp (uds_call _) _ _ => apply wp_uds_call
  | |- wp (uds_call_ _) _ _ => apply wp_uds_call_
  | |- wp (uds_timer _ _ _) _ _ => apply wp_timer
  end; cbv beta.
Ltac uds_steps := repeat uds_step1.

(** * rbUds_Core: the service filters give the answers of the specification *)

Section filter.
Context {T U : Type} `{HT : ElTime T U} `{HE : Uds_Env U} {HU : UdsLaws U}.
Abbreviation W := (UdsWorld T U).
Abbreviation CB := (Uds_ControlBlock T).
Abbreviation SIZE := UDS_BUFFER_SIZE.

(** ** Codes and sub-functions *)

Lemma codes_u8 : u8 RB_UDS_14229_PR = RB_UDS_14229_PR ∧ u8 RB_UDS_14229_RCRRP = RB_UDS_14229_RCRRP.
Proof using HU. pose proof ul_codes as H. rewrite !list.Forall_cons in H. destruct H as (H1 & H2 & _). by rewrite !u8_small. Qed.

Lemma codes_ne : RB_UDS_14229_RCRRP ≠ RB_UDS_14229_PR ∧ RB_UDS_14229_GR ≠ RB_UDS_14229_PR ∧ RB_UDS_14229_IMLOIF ≠ RB_UDS_14229_PR ∧ RB_UDS_14229_SFNS ≠ RB_UDS_14229_PR ∧
  RB_UDS_14229_GR ≠ RB_UDS_14229_RCRRP ∧ RB_UDS_14229_IMLOIF ≠ RB_UDS_14229_RCRRP ∧ RB_UDS_14229_SFNS ≠ RB_UDS_14229_RCRRP.
Proof using HU. pose proof ul_distinct as H. rewrite !list.NoDup_cons, !not_elem_of_cons in H. destruct_and?. split_and!; congruence. Qed.

Lemma sub_fn_u8 b : u8 (Z.land b UDS_CORE_SUBFN_MASK) = sub_fn b.
Proof.
  apply u8_small. unfold UDS_CORE_SUBFN_MASK, sub_fn. change 127 with (Z.ones 7). rewrite Z.land_ones by lia.
  pose proof (Z.mod_pos_bound b (2 ^ 7) ltac:(lia)). lia.
Qed.
Lemma sup_bit_u8 b : (UDS_CORE_SPRMIB_MASK =? u8 (Z.land b UDS_CORE_SPRMIB_MASK)) = sup_bit b.
Proof.
  unfold sup_bit, UDS_CORE_SPRMIB_MASK. assert (Z.land b 128 = if Z.testbit b 7 then 128 else 0) as ->; [|by destruct (Z.testbit b 7)].
  apply Z.bits_inj_iff. intros i. rewrite Z.land_spec. change 128 with (2 ^ 7). destruct (Z.eq_dec i 7) as [->|Hi].
  - rewrite Z.pow2_bits_true by lia. rewrite andb_true_r. destruct (Z.testbit b 7) eqn:E; [by rewrite Z.pow2_bits_true|by rewrite Z.testbit_0_l].
  - rewrite Z.pow2_bits_false by lia. rewrite andb_false_r. destruct (Z.testbit b 7); [by rewrite Z.pow2_bits_false by lia|by rewrite Z.testbit_0_l].
Qed.

Lemma wp_sub_fn b (Q : Z → W → Prop) w :
  Q (sub_fn b) (mkUdsWorld (if sup_bit b then set_suppressPosResp true (uds w) else uds w) (Uds_PwrReqID w) (uds_up w) (uds_trace w)) →
  wp (Uds_CoreExtractSubFn b) Q w.
Proof.
  intros HQ. unfold Uds_CoreExtractSubFn. rewrite sub_fn_u8, sup_bit_u8. apply wp_bind. destruct (sup_bit b); cbn [when]; uds_steps; [done|].
  by destruct w.
Qed.

(** ** Handlers *)

Lemma wp_call_handler off f x tl (Q : Z * Z → W → Prop) w :
  resp_a (uds w) = x ++ tl → off = lenZ x → lenZ (resp_a (uds w)) = SIZE → ans_fits SIZE off f →
  (∀ z, lenZ (x ++ ans_data (fst (f (uds_up w))) ++ z) = SIZE →
     Q (ans_code (fst (f (uds_up w))), lenZ (ans_data (fst (f (uds_up w)))))
       (mkUdsWorld (set_resp_a (x ++ ans_data (fst (f (uds_up w))) ++ z) (uds w)) (Uds_PwrReqID w) (snd (f (uds_up w))) (uds_trace w))) →
  wp (call_handler off f) Q w.
Proof.
  intros Er -> Hl Hf HQ. destruct (Hf (uds_up w)) as [Hfit Elen]. unfold call_handler. uds_steps. cbn. set (d := ans_data _) in *.
  assert (awrite (resp_a (uds w)) (lenZ x) d = Some (x ++ d ++ drop (length d) tl)) as Ew.
  { rewrite Er in *. rewrite <-(take_drop (length d) tl) at 1. apply awrite_mid; [done|]. unfold lenZ in *. rewrite length_take. rewrite length_app in Hl. lia. }
  eapply wp_lift; [exact Ew|]. uds_steps. rewrite Elen. fold d. apply HQ. apply awrite_length in Ew. unfold lenZ in *. congruence.
Qed.

(** ** The filters *)

(** What a filter does not touch. *)
Definition kept_fields (c c' : CB) : Prop :=
  isBusy c' = isBusy c ∧ rcrrpTxConfirm c' = rcrrpTxConfirm c ∧ rcrrpSidIndex c' = rcrrpSidIndex c ∧ rcrrpTimer c' = rcrrpTimer c ∧
  s3Timer c' = s3Timer c ∧ negResp_a c' = negResp_a c ∧ rcrrpPendingTimer c' = rcrrpPendingTimer c.

Definition filter_req (s : Service) (b : UdsBuf) (n : Z) (c : CB) : Z * Z :=
  match s with Rc => (buf_addr b + 3, n - 3) | _ => (req c, reqLen c) end.

Record filtered (s : Service) (b : UdsBuf) (n : Z) (w : W) (code : Z) (w' : W) : Prop := {
  f_code : code = rp_code (fst (svc_reply s b n (uds_up w)));
  f_up : uds_up w' = snd (svc_reply s b n (uds_up w));
  f_pwr : Uds_PwrReqID w' = Uds_PwrReqID w;
  f_trace : uds_trace w' = uds_trace w;
  f_frame : kept_fields (uds w) (uds w');
  f_size : lenZ (resp_a (uds w')) = SIZE;
  f_body : holds (uds w') (rp_body (fst (svc_reply s b n (uds_up w))));
  f_sup : code = RB_UDS_14229_PR → suppressPosResp (uds w') = rp_sup (fst (svc_reply s b n (uds_up w)));
  f_req : (req (uds w'), reqLen (uds w')) = filter_req s b n (uds w)
}.

Definition ready (s : Service) (b : UdsBuf) (n : Z) (w : W) : Prop :=
  svc_min s - 1 ≤ n ≤ lenZ (buf_bytes b) ∧ n < 65536 ∧ lenZ (resp_a (uds w)) = SIZE ∧ suppressPosResp (uds w) = false ∧ respLen (uds w) = 0.

Lemma aget_0 {X} (x : X) l : aget (x :: l) 0 = Some x.
Proof. done. Qed.
Lemma aget_1 {X} (x y : X) l : aget (x :: y :: l) 1 = Some y.
Proof. done. Qed.
Lemma aget_2 {X} (x y z : X) l : aget (x :: y :: z :: l) 2 = Some z.
Proof. done. Qed.
Lemma buf_at_rest b (k : nat) : Z.of_nat k ≤ lenZ (buf_bytes b) → buf_at b (Z.of_nat k) = Some (rest b k).
Proof. intros H. unfold buf_at. rewrite decide_True by lia. by rewrite Nat2Z.id. Qed.

(** The buffer has room for every header. *)
Lemma resp_split (c : CB) : lenZ (resp_a c) = SIZE → ∃ r0 r1 r2 r3 tl, resp_a c = r0 :: r1 :: r2 :: r3 :: tl.
Proof using HU.
  intros H. pose proof ul_size. destruct (resp_a c) as [|r0 [|r1 [|r2 [|r3 tl]]]]; try (unfold lenZ in H; cbn in H; lia). by eexists _, _, _, _, _.
Qed.

(** The end of a filter: what is left to show when the answer is in the buffer. *)
Lemma filtered_reply s b n w r code u c :
  svc_reply s b n (uds_up w) = (r, u) → code = rp_code r → kept_fields (uds w) c → lenZ (resp_a c) = SIZE → holds c (rp_body r) →
  (rp_code r = RB_UDS_14229_PR → suppressPosResp c = rp_sup r) → (req c, reqLen c) = filter_req s b n (uds w) →
  filtered s b n w code (mkUdsWorld c (Uds_PwrReqID w) u (uds_trace w)).
Proof. intros E ->. intros. split; rewrite ?E; done. Qed.

Lemma wp_put_at l1 y l2 i x (Q : unit → W → Prop) w :
  resp_a (uds w) = l1 ++ y :: l2 → i = lenZ l1 →
  Q tt (mkUdsWorld (set_resp_a (l1 ++ x :: l2) (uds w)) (Uds_PwrReqID w) (uds_up w) (uds_trace w)) → wp (put_resp i x) Q w.
Proof.
  intros E -> HQ. apply wp_put_resp; rewrite E.
  - autorewrite with lenZ. pose proof (lenZ_nonneg l1). pose proof (lenZ_nonneg l2). lia.
  - unfold lenZ. by rewrite Nat2Z.id, insert_app_r_alt, Nat.sub_diag by done.
Qed.

Lemma holds_head (c : CB) body x z : respLen c = lenZ body → resp_a c = x :: body ++ z → holds c body.
Proof. intros. split; [done|]. by eexists _, _. Qed.
End filter.

Ltac reads := repeat (apply wp_bind; eapply wp_lift; [first [apply aget_0 | apply aget_1 | apply aget_2]|]).

Section filters.
Context {T U : Type} `{HT : ElTime T U} `{HE : Uds_Env U} {HU : UdsLaws U}.
Abbreviation W := (UdsWorld T U).
Abbreviation CB := (Uds_ControlBlock T).
Abbreviation SIZE := UDS_BUFFER_SIZE.

(** Header bytes behind the service identifier. *)
Ltac put1 := apply wp_bind; eapply (wp_put_at [_]); [done|done|]; cbn [app].
Ltac put2 := apply wp_bind; eapply (wp_put_at [_; _]); [done|done|]; cbn [app].
Ltac put3 := apply wp_bind; eapply (wp_put_at [_; _; _]); [done|done|]; cbn [app].
(** Decide the comparisons of codes that are known. *)
Ltac known := repeat match goal with
  | H : ?x = ?y |- context [?x =? ?y] => rewrite (proj2 (Z.eqb_eq x y) H)
  | H : ?x ≠ ?y |- context [?x =? ?y] => rewrite (proj2 (Z.eqb_neq x y) H)
  end.
Ltac lens := autorewrite with lenZ in *; repeat match goal with
  | _ : context [lenZ ?l] |- _ => lazymatch goal with _ : 0 ≤ lenZ l |- _ => fail | _ => pose proof (lenZ_nonneg l) end end; lia.
(** The answer is in the buffer. *)
Ltac held := known; cbn [andb]; eapply holds_head; cbn; [rewrite ?u16_small by lens; cbn; lens || reflexivity | try match goal with H : resp_a _ = _ |- _ => rewrite H end; reflexivity].
(** The filter has set its code: compare with the specification. *)
Ltac reply E := uds_steps; cbn [uds Uds_PwrReqID uds_up uds_trace fst snd]; eapply filtered_reply; [cbn; rewrite ?E; known; reflexivity|..];
  cbn [fst snd rp_code rp_body rp_sup filter_req svc_reply reply_with] in *; try done; try congruence; try held.

(** What every filter starts from; then the cases of a handler's code. *)
Ltac filter_start b :=
  cbv delta [RB_UDS_SUBFN_ONLY_DATA_OFFSET RB_UDS_SUBFN_ONLY_HDR_LEN RB_UDS_MEM_ADDR_OFFSET RB_UDS_TRANSFER_DATA_HDR_LEN RB_UDS_REQ_TRANSFER_EXIT_HDR_LEN RB_UDS_CDTCI_HDR_LEN];
  intros (Hn & Hn' & Hz & Hs & Hl); cbn [svc_min] in Hn; destruct codes_ne as (N1 & N2 & N3 & N4 & N5 & N6 & N7);
  destruct (resp_split _ Hz) as (r0 & r1 & r2 & r3 & tl & Er); pose proof ul_size as Hsize;
  destruct b as [ad bs]; cbn [buf_bytes] in *;
  rewrite ?(proj1 ul_did), ?(proj1 (proj2 ul_did)), ?(proj2 (proj2 ul_did)), ?(proj1 ul_rid), ?(proj1 (proj2 ul_rid)), ?(proj1 (proj2 (proj2 ul_rid))), ?(proj2 (proj2 (proj2 ul_rid))).
Ltac sup_cases f := cbn; destruct (sup_bit f).
Ltac sized := match goal with E : resp_a ?c = _, H : lenZ (resp_a ?c) = _ |- lenZ _ = _ => rewrite E in H; exact H end.
Ltac closes := done || sized || held.
Ltac short := unfold lenZ in *; cbn in *; lia.
Ltac code_cases E := cbn [fst snd] in *; cbv beta iota; unfold pr_or_rcrrp; rewrite ?(proj1 codes_u8), ?(proj2 codes_u8); rewrite ?(Z.eqb_sym _ (ans_code E));
  destruct (Z.eqb_spec (ans_code E) RB_UDS_14229_PR), (Z.eqb_spec (ans_code E) RB_UDS_14229_RCRRP); try congruence; cbn [orb]; apply wp_bind.

Lemma rdbi_wp b n (w : W) : ready Rdbi b n w → wp (Uds_CoreRdbi b n) (filtered Rdbi b n w) w.
Proof using HU.
  unfold Uds_CoreRdbi. filter_start b. destruct bs as [|h [|l bs]]; [short..|]. rewrite Z.eqb_sym. destruct (Z.eqb_spec n 2) as [->|Hne]; cbn [negb].
  - reads. apply wp_bind, (wp_call_handler _ _ [r0; r1; r2] (r3 :: tl)); [done|done|done|apply ul_DidRead|]. intros z Hlen.
    destruct (rbUds_DidRead (rbUds_Make16Bit h l) (uds_up w)) as [a u'] eqn:Ex. code_cases a; [put1; put2|put1; put2|]; reply Ex.
  - reply Hl.
Qed.

Lemma wdbi_wp b n (w : W) : ready Wdbi b n w → wp (Uds_CoreWdbi b n) (filtered Wdbi b n w) w.
Proof using HU.
  unfold Uds_CoreWdbi. filter_start b. destruct bs as [|h [|l bs]]; [short..|]. reads. apply wp_bind. eapply wp_lift; [apply (buf_at_rest _ 2); cbn [buf_bytes]; lia|].
  rewrite u16_small by lia. apply wp_bind, (wp_call_handler _ _ [r0; r1; r2] (r3 :: tl)); [done|done|done|apply ul_DidWrite|]. intros z Hlen.
  destruct (rbUds_DidWrite (rest (mkBuf ad (h :: l :: bs)) 2) (n - 2) (rbUds_Make16Bit h l) (uds_up w)) as [a u'] eqn:Ex. code_cases a; [put1; put2|put1; put2|]; reply Ex.
Qed.

(** A routine request moves the stored request behind its header. *)
Lemma rc_wp b n (w : W) : ready Rc b n w → wp (Uds_CoreRc b n) (filtered Rc b n w) w.
Proof using HU.
  unfold Uds_CoreRc. filter_start b. destruct bs as [|f [|h [|l bs]]]; [short..|]. reads. apply wp_bind, wp_sub_fn. reads.
  apply wp_bind. eapply wp_lift; [apply (buf_at_rest _ 3); cbn [buf_bytes]; lia|]. rewrite u16_small by lia. uds_steps.
  apply (wp_call_handler _ _ [r0; r1; r2; r3] tl); [by sup_cases f|done|by sup_cases f|apply ul_Routine|]. intros z Hlen.
  cbn [uds Uds_PwrReqID uds_up uds_trace] in *. destruct (rbUds_Routine _ _ _ _ (uds_up w)) as [a u'] eqn:Ex. code_cases a; [put1; put2; put3|put1; put2; put3|]; reply Ex; sup_cases f; closes.
Qed.

Lemma rdtci_wp b n (w : W) : ready Rdtci b n w → wp (Uds_CoreRdtci b n) (filtered Rdtci b n w) w.
Proof using HU.
  unfold Uds_CoreRdtci. filter_start b. destruct bs as [|f bs]; [short..|]. reads. apply wp_bind, wp_sub_fn.
  apply wp_bind. eapply wp_lift; [apply (buf_at_rest _ 1); cbn [buf_bytes]; lia|]. rewrite u16_small by lia.
  apply wp_bind, (wp_call_handler _ _ [r0; r1] (r2 :: r3 :: tl)); [by sup_cases f|done|by sup_cases f|apply ul_DtcRead|]. intros z Hlen.
  cbn [uds Uds_PwrReqID uds_up uds_trace] in *. destruct (rbUds_DtcRead _ _ _ (uds_up w)) as [a u'] eqn:Ex. code_cases a; [put1| |]; reply Ex; sup_cases f; closes.
Qed.

Lemma cdtci_wp b n (w : W) : ready Cdtci b n w → wp (Uds_CoreCdtci b n) (filtered Cdtci b n w) w.
Proof using HU.
  unfold Uds_CoreCdtci. filter_start b. destruct bs as [|x [|y [|z bs]]]; [short..|]. apply wp_bind. rewrite Z.eqb_sym.
  destruct (Z.eqb_spec n 3) as [->|Hne]; cbn [negb]; [|reply Hl].
  reads. apply wp_uds_call. destruct (rbUds_DtcClearCfgClear _ (uds_up w)) as [c u'] eqn:Ex. cbn [fst snd]. reply Ex. destruct (c =? RB_UDS_14229_PR); held.
Qed.

Lemma dsc_wp b n (w : W) : ready Dsc b n w → wp (Uds_CoreDsc b n) (filtered Dsc b n w) w.
Proof using HU.
  unfold Uds_CoreDsc. filter_start b. destruct bs as [|f bs]; [short..|]. destruct (Z.eqb_spec n 1) as [->|Hne]; cbn [negb]; [|reply Hl].
  reads. apply wp_bind, wp_sub_fn.
  apply wp_bind, (wp_call_handler _ _ [r0; r1] (r2 :: r3 :: tl)); [by sup_cases f|done|by sup_cases f|apply ul_Session|]. intros z Hlen.
  cbn [uds Uds_PwrReqID uds_up uds_trace] in *. destruct (rbUds_Session _ (uds_up w)) as [a u'] eqn:Ex. code_cases a; [put1|put1|]; reply Ex; sup_cases f; closes.
Qed.

Lemma tp_wp b n (w : W) : ready Tp b n w → wp (Uds_CoreTp b n) (filtered Tp b n w) w.
Proof using HU.
  unfold Uds_CoreTp. filter_start b. destruct bs as [|f bs]; [short..|]. reads. apply wp_bind, wp_sub_fn.
  destruct (Z.eqb_spec n 1) as [->|Hne]; cbn [negb]; [|reply Hl; sup_cases f; closes].
  destruct (Z.eqb_spec (sub_fn f) 0) as [E0|Hne]; cbn [negb]; [|reply Hl; sup_cases f; closes].
  rewrite E0. apply wp_bind, (wp_put_at [r0] r1 (r2 :: r3 :: tl)); [by sup_cases f|done|]. reply Hl; sup_cases f; closes.
Qed.

Lemma sa_wp b n (w : W) : ready Sa b n w → wp (Uds_CoreSa b n) (filtered Sa b n w) w.
Proof using HU.
  unfold Uds_CoreSa. filter_start b. destruct bs as [|f bs]; [short..|]. reads. apply wp_bind, wp_sub_fn.
  apply wp_bind. eapply wp_lift; [apply (buf_at_rest _ 1); cbn [buf_bytes]; lia|]. rewrite u16_small by lia.
  apply wp_bind, (wp_call_handler _ _ [r0; r1] (r2 :: r3 :: tl)); [by sup_cases f|done|by sup_cases f|apply ul_Security|]. intros z Hlen.
  cbn [uds Uds_PwrReqID uds_up uds_trace] in *. destruct (rbUds_Security _ _ _ (uds_up w)) as [a u'] eqn:Ex. code_cases a; [put1|put1|]; reply Ex; sup_cases f; closes.
Qed.

Lemma er_wp b n (w : W) : ready Er b n w → wp (Uds_CoreEr b n) (filtered Er b n w) w.
Proof using HU.
  unfold Uds_CoreEr. filter_start b. destruct bs as [|f bs]; [short..|]. reads. apply wp_bind, wp_sub_fn.
  destruct (Z.eqb_spec n 1) as [->|Hne]; cbn [negb]; [|reply Hl; sup_cases f; closes].
  apply wp_bind, wp_uds_call. cbn [uds Uds_PwrReqID uds_up uds_trace] in *. destruct (rbUds_EcuReset _ (uds_up w)) as [c u'] eqn:Ex. cbn [fst snd].
  rewrite (proj1 codes_u8), Z.eqb_sym. apply wp_bind. destruct (Z.eqb_spec c RB_UDS_14229_PR) as [EP|].
  - apply wp_bind, (wp_put_at [r0] r1 (r2 :: r3 :: tl)); [by sup_cases f|done|]. reply Ex; sup_cases f; closes.
  - reply Ex; sup_cases f; closes.
Qed.

Lemma rd_wp b n (w : W) : ready Rd b n w → wp (Uds_CoreRd b n) (filtered Rd b n w) w.
Proof using HU.
  unfold Uds_CoreRd. filter_start b. destruct bs as [|f [|g bs]]; [short..|]. reads.
  apply wp_bind. eapply wp_lift; [apply (buf_at_rest _ 2); cbn [buf_bytes]; lia|]. rewrite u16_small by lia. apply wp_bind, wp_uds_call.
  destruct (rbUds_RequestDownloadCfg _ _ _ _ (uds_up w)) as [c u'] eqn:Ex. cbn [fst snd]. rewrite (proj1 codes_u8), Z.eqb_sym. reply Ex.
Qed.

Lemma td_wp b n (w : W) : ready Td b n w → wp (Uds_CoreTd b n) (filtered Td b n w) w.
Proof using HU.
  unfold Uds_CoreTd. filter_start b. destruct bs as [|q bs]; [short..|]. reads.
  apply wp_bind. eapply wp_lift; [apply (buf_at_rest _ 1); cbn [buf_bytes]; lia|]. rewrite u16_small by lia.
  apply wp_bind, (wp_call_handler _ _ [r0] (r1 :: r2 :: r3 :: tl)); [done|done|done|apply ul_TransferData|]. intros z Hlen.
  destruct (rbUds_TransferDataCfg _ _ _ (uds_up w)) as [a u'] eqn:Ex. code_cases a; reply Ex.
Qed.

Lemma rte_wp b n (w : W) : ready Rte b n w → wp (Uds_CoreRte b n) (filtered Rte b n w) w.
Proof using HU.
  unfold Uds_CoreRte. filter_start b.
  apply wp_bind. eapply wp_lift; [apply (buf_at_rest _ 0); cbn [buf_bytes]; lia|]. rewrite Z.sub_0_r, u16_small by lia.
  apply wp_bind, (wp_call_handler _ _ [r0] (r1 :: r2 :: r3 :: tl)); [done|done|done|apply ul_TransferExit|]. intros z Hlen.
  destruct (rbUds_TransferExitCfg _ _ (uds_up w)) as [a u'] eqn:Ex. code_cases a; reply Ex.
Qed.

Lemma filter_wp s b n (w : W) : ready s b n w → wp (svc_filter s b n) (filtered s b n w) w.
Proof using HU.
  destruct s; cbn [svc_filter];
    eauto using rdbi_wp, wdbi_wp, rc_wp, rdtci_wp, cdtci_wp, dsc_wp, tp_wp, sa_wp, er_wp, rd_wp, td_wp, rte_wp.
Qed.
End filters.
