(* ===== verification/UdsRef.v ===== *)
(** * rbUds_Core: requests and the cyclic task

    The steps of the simulation for a request, for the cyclic task and for whole sequences of
    calls. *)

From S2P Require Import Prelude ElTime UdsTypes UdsCore UdsSpec UdsBase.
From stdpp Require Import base list numbers option.

#[local] Open Scope Z_scope.

Section ref.
Context {T U : Type} `{HT : ElTime T U} {HL : ElTimeLaws T U} `{HE : Uds_Env U} {HU : UdsLaws U}.
Abbreviation W := (UdsWorld T U).
Abbreviation CB := (Uds_ControlBlock T).
Abbreviation A := (UdsA U).
Abbreviation SIZE := UDS_BUFFER_SIZE.

(** ** Leaf functions *)

(** Rebuild the base relation after changes of single fields. *)
Ltac base_build H := destruct H; split; cbn in *; try done; try congruence.

Lemma set_idle_wp a w : base a w → wp Uds_CoreSetIdle (λ _ w', uds_rel (a_set None a) w' ∧ s3Timer (uds w') = s3Timer (uds w)) w.
Proof.
  intros H. unfold Uds_CoreSetIdle. uds_steps. split; [|done]. split; [base_build H|done|]. cbn. by split_and!.
Qed.

Lemma start_s3_wp a w (Q : unit → W → Prop) :
  base a w →
  (∀ t u tr, base (a_start_s3 a) (mkUdsWorld (set_s3Timer t (uds w)) (Uds_PwrReqID w) u tr) →
     Q tt (mkUdsWorld (set_s3Timer t (uds w)) (Uds_PwrReqID w) u tr)) →
  wp rbUds_CoreStartS3 Q w.
Proof.
  intros H HQ. unfold rbUds_CoreStartS3. uds_steps. apply HQ. destruct H as [[_ _] Hp Hu Ht Hr Hn]. split; cbn in *; try congruence.
  split; cbn; [|done]. rewrite timer_start_on. by rewrite Hu.
Qed.

Lemma fill_neg_wp s c (Q : unit → W → Prop) w :
  lenZ (negResp_a (uds w)) = UDS_CORE_NEG_RESP_LEN →
  Q tt (mkUdsWorld (set_negResp_a [SID_NR; s; c] (uds w)) (Uds_PwrReqID w) (uds_up w) (uds_trace w)) → wp (Uds_CoreFillNegativeResponse s c) Q w.
Proof.
  destruct w as [[? ? ? ? ? ? ? ? ? ? na ?] pw u tr]. cbn. intros Hn HQ.
  destruct na as [|x [|y [|z [|]]]]; try (unfold lenZ in Hn; cbn in Hn; unfold UDS_CORE_NEG_RESP_LEN in Hn; lia).
  unfold Uds_CoreFillNegativeResponse. do 2 (apply wp_bind, wp_put_negResp; [done|]; cbn). apply wp_put_negResp; [done|]. exact HQ.
Qed.

(** A message of three bytes leaves the core. *)
Lemma send_neg_bytes s c (k : M W unit) (Q : unit → W → Prop) a w :
  base a w →
  (∀ u tr, let w' := mkUdsWorld (set_negResp_a [SID_NR; s; c] (uds w)) (Uds_PwrReqID w) u tr in base (a_send [SID_NR; s; c] false a) w' → wp k Q w') →
  wp (Uds_CoreFillNegativeResponse s c;; (send_response negResp_a UDS_CORE_NEG_RESP_LEN false;; k)) Q w.
Proof.
  intros H HQ. apply wp_bind, fill_neg_wp; [apply H|]. apply wp_bind, (wp_send _ _ _ [SID_NR; s; c]); [done|]. apply HQ. base_build H.
Qed.

Lemma neg_wp s c a w : base a w → wp (Uds_CoreSendNegativeResponse s c) (λ _ w', uds_rel (a_negative s c a) w') w.
Proof.
  intros H. apply (send_neg_bytes s c _ _ a); [done|]. intros u tr w' H'.
  eapply wp_mono; [by apply set_idle_wp|]. by intros [] w'' [? _].
Qed.

Lemma pending_wp x a w :
  base a w → isBusy (uds w) = true → aget services (rcrrpSidIndex (uds w)) = Some (ex_svc x) → is_Some (svc_pending (ex_svc x)) → holds (uds w) (ex_head x) →
  deadline (rcrrpPendingTimer (uds w)) = Some (ex_limit x) → req (uds w) = ex_req x → reqLen (uds w) = ex_reqLen x → (ex_svc x = Rdbi → lenZ (ex_head x) = 2) →
  wp (Uds_CoreSendPendingResponse (svc_sid (ex_svc x))) (λ _ w', uds_rel (a_pending x a) w') w.
Proof.
  intros H Hb Hs Hp Hh Hl Hq Hn Hd. apply (send_neg_bytes _ _ _ _ a); [done|]. intros u tr w' H'. unfold w' in *. uds_steps.
  split; [base_build H'|done|]. cbn. split; cbn; try done. rewrite timer_start_on. apply b_up in H'. cbn in H'. by subst u.
Qed.

(** The answer of a confirmation outside an exchange. *)
Lemma confirm_idle_wp a w (Q : unit → W → Prop) :
  base a w → rcrrpSidIndex (uds w) = UDS_CORE_INVALID_RCRRP_INDEX →
  (∀ w', base (a_start_s3 a) w' → rcrrpSidIndex (uds w') = UDS_CORE_INVALID_RCRRP_INDEX → Q tt w') → wp Uds_CoreTxConfirmation Q w.
Proof using HU.
  intros H Hi HQ. unfold Uds_CoreTxConfirmation. uds_steps. pose proof (table_small (T := T)) as Ht. rewrite Hi.
  rewrite (proj2 (Z.leb_le _ _)) by (unfold UDS_CORE_INVALID_RCRRP_INDEX; lia). apply (start_s3_wp a); [done|]. intros t u tr H'. by apply HQ.
Qed.

Lemma pos_wp s body a w :
  base a w → holds (uds w) body → (suppressPosResp (uds w) = true → rcrrpSidIndex (uds w) = UDS_CORE_INVALID_RCRRP_INDEX) →
  wp (Uds_CoreSendPositiveResponse s) (λ _ w', uds_rel (a_positive s body (suppressPosResp (uds w)) a) w') w.
Proof using HU.
  intros H Hh Hs. pose proof (holds_bound _ _ (b_resp _ _ H) Hh) as Hb. pose proof ul_size as Hz. destruct Hh as (Hl & x & z & Er).
  unfold Uds_CoreSendPositiveResponse. apply wp_bind, wp_put_resp; [rewrite (b_resp _ _ H); lia|]. rewrite Er. change (<[Z.to_nat 0:=?y]> (x :: ?l)) with (y :: l). uds_steps. cbn.
  rewrite Hl, u16_small by lia. eapply wp_send; [cbn; apply (aslice_app [] (u8 (s + SID_PR) :: body) z); autorewrite with lenZ; [done|lia]|].
  uds_steps. cbn. assert (base (a_send (u8 (s + SID_PR) :: body) (suppressPosResp (uds w)) a)
    (mkUdsWorld (set_respLen (lenZ body + 1) (set_resp_a (u8 (s + SID_PR) :: body ++ z) (uds w))) (Uds_PwrReqID w)
       (Uds_CoreCfgSendResponse (u8 (s + SID_PR) :: body) (suppressPosResp (uds w)) (uds_up w)) (uds_trace w ++ [UdsSend (u8 (s + SID_PR) :: body) (suppressPosResp (uds w))]))) as H1.
  { base_build H. rewrite Er in *. autorewrite with lenZ in *. lia. }
  unfold a_positive. destruct (suppressPosResp (uds w)); cbn [when].
  - apply (confirm_idle_wp _ _ _ H1); [by apply Hs|]. intros w' H' _. eapply wp_mono; [by apply set_idle_wp|]. by intros [] w'' [? _].
  - apply wp_ret. eapply wp_mono; [by apply set_idle_wp|]. by intros [] w'' [? _].
Qed.

(** ** Requests *)

(** A field that the base relation does not mention may change. *)
Lemma base_same a w c : base a w → s3Timer c = s3Timer (uds w) → lenZ (resp_a c) = SIZE → negResp_a c = negResp_a (uds w) →
  base a (mkUdsWorld c (Uds_PwrReqID w) (uds_up w) (uds_trace w)).
Proof. intros H E1 E2 E3. base_build H. Qed.

Lemma services_small ii s : aget services ii = Some s → 0 ≤ ii < 255.
Proof.
  intros H%aget_Some. revert H. unfold services. destruct uds_RBD_PK_APP, uds_RBD_PK_FBL; unfold lenZ; cbn; lia.
Qed.

(** What is known of the answer to a read request that is pending is the identifier. *)
Lemma rdbi_head b n u r u' : svc_reply Rdbi b n u = (r, u') → rp_code r = RB_UDS_14229_RCRRP → lenZ (rp_body r) = 2.
Proof using HU.
  destruct codes_ne as (N1 & N2 & N3 & N4 & N5 & N6 & N7). unfold svc_reply, refuse, reply_with. destruct (buf_bytes b) as [|h [|l bs]]; [by intros [= <- <-]..|].
  destruct (n =? 2); [|by intros [= <- <-]]. destruct (rbUds_DidRead _ _) as [a u'']. intros [= <- <-]. cbn. intros E. rewrite E, Z.eqb_refl. by rewrite (proj2 (Z.eqb_neq _ _) N1).
Qed.

Lemma response_wp s ii b n a w code w1 :
  base a w → filtered s b n w code w1 → isBusy (uds w) = true → rcrrpSidIndex (uds w) = UDS_CORE_INVALID_RCRRP_INDEX → aget services ii = Some s →
  wp (UdsResponse_function code (svc_sid s) ii)
    (λ _ w', uds_rel (let '(r, u) := svc_reply s b n (a_up a) in let a := a_with (λ _, u) a in
        if rp_code r =? RB_UDS_14229_PR then a_positive (svc_sid s) (rp_body r) (rp_sup r) a
        else if rp_code r =? RB_UDS_14229_RCRRP then
          match svc_pending s with
          | None => a_negative (svc_sid s) RB_UDS_14229_GR a
          | Some _ => a_pending (mkEx s (rp_body r) false 0 (now u + UDS_RCRRP_LIMIT_MS) (fst (filter_req s b n (uds w))) (snd (filter_req s b n (uds w)))) a
          end
        else a_negative (svc_sid s) (rp_code r) a) w') w1.
Proof using HU.
  intros H [Fc Fu Fp Ft (F1 & F2 & F3 & F4 & F5 & F6 & F7) Fs Fb Fsup Fr] Hb Hi Hii. rewrite <-(b_up _ _ H).
  destruct (svc_reply s b n (uds_up w)) as [r u] eqn:Erep. cbn [fst snd] in *. subst code.
  assert (base (a_with (λ _, u) a) w1) as H1 by (destruct H as [X1 X2 X3 X4 X5 X6]; split; cbn; congruence).
  unfold UdsResponse_function. destruct (Z.eqb_spec (rp_code r) RB_UDS_14229_PR) as [EP|].
  - rewrite <-(Fsup EP). apply pos_wp; [done|done|]. congruence.
  - destruct (Z.eqb_spec (rp_code r) RB_UDS_14229_RCRRP) as [EC|]; [|by apply neg_wp]. uds_steps. cbn. eapply wp_lift; [by apply aget_table_2|]. cbn [svc_entry SidPending_fp].
    destruct (svc_pending s) as [f|] eqn:Ef; [|by apply neg_wp, (base_same _ w1)]. pose proof (services_small _ _ Hii). uds_steps. rewrite u8_small by lia. cbn.
    rewrite <-Fr. cbn [fst snd]. apply (pending_wp (mkEx s _ _ _ _ _ _)); try done; [by apply (base_same _ w1)|cbn; congruence|cbn; rewrite timer_start_on; by rewrite Fu|].
    cbn. intros ->. by eapply rdbi_head.
Qed.

(** The request as a filter sees it. *)
Lemma kept_filter s b len (c : CB) : req c = buf_addr b → reqLen c = len → filter_req s (rest b 1) (len - 1) c = kept_req s b len.
Proof. intros E1 E2. destruct s; cbn; rewrite ?E1, ?E2; try done. f_equal; lia. Qed.

Lemma process_wp s ii b len a w :
  base a w → idle_cb (uds w) → suppressPosResp (uds w) = false → req (uds w) = buf_addr b → reqLen (uds w) = len →
  aget services ii = Some s → 1 ≤ len ≤ lenZ (buf_bytes b) → len < 65536 →
  wp (process_sid (svc_entry s) ii b len (svc_sid s)) (λ _ w', uds_rel (a_service s b len a) w') w.
Proof using HU.
  intros H (I1 & I2 & I3 & I4) Hs Hq Hql Hii Hlen Hlen'. unfold process_sid, a_service. uds_steps. cbn [svc_entry Sid_fp permittedSession minLength]. rewrite (b_up _ _ H).
  destruct (_ =? 0); [by apply neg_wp|]. destruct (Z.ltb_spec len (svc_min s)); [by apply neg_wp|]. uds_steps. eapply wp_lift; [apply (buf_at_rest _ 1); lia|].
  rewrite u16_small by lia. rewrite <-(kept_filter s b len (uds w)) by done. uds_steps. set (w1 := mkUdsWorld _ _ _ _).
  assert (base a w1) as H1 by (apply (base_same a w); done || apply H).
  eapply wp_mono; [apply filter_wp; split_and!; cbn|].
  - lia.
  - unfold lenZ. cbn. rewrite length_drop. unfold lenZ in Hlen. lia.
  - lia.
  - apply H.
  - done.
  - done.
  - intros code w2 H2. exact (response_wp s ii (rest b 1) (len - 1) a w1 code w2 H1 H2 eq_refl I3 Hii).
Qed.

Lemma search_wp tbl pre b len q a w :
  services = pre ++ tbl → base a w → idle_cb (uds w) → suppressPosResp (uds w) = false → req (uds w) = buf_addr b → reqLen (uds w) = len →
  1 ≤ len ≤ lenZ (buf_bytes b) → len < 65536 →
  wp (sid_search (svc_entry <$> tbl) (lenZ pre) b len q)
    (λ found w', match find (λ s, svc_sid s =? q) tbl with Some s => found = true ∧ uds_rel (a_service s b len a) w' | None => found = false ∧ w' = w end) w.
Proof using HU.
  revert pre. induction tbl as [|s tbl IH]; intros pre Es; intros; cbn [fmap list_fmap sid_search find]; [by apply wp_ret|].
  cbn [svc_entry sid]. destruct (Z.eqb_spec (svc_sid s) q) as [<-|Hne].
  - apply wp_bind. eapply wp_mono; [eapply process_wp; try done|].
    + rewrite Es. unfold aget, lenZ. rewrite decide_True by lia. rewrite Nat2Z.id. by apply list_lookup_middle.
    + intros [] w' Hw'. by apply wp_ret.
  - replace (lenZ pre + 1) with (lenZ (pre ++ [s])) by (by autorewrite with lenZ). apply IH; try done. by rewrite Es, <-app_assoc.
Qed.

(** A request has as many bytes as it says. *)
Definition request_ok (buf : option UdsBuf) (len : Z) : Prop :=
  0 ≤ len < 65536 ∧ match buf with Some b => len ≤ lenZ (buf_bytes b) | None => True end.

Lemma open_same x c c' : open_cb x c → isBusy c' = isBusy c → rcrrpTxConfirm c' = rcrrpTxConfirm c → rcrrpSidIndex c' = rcrrpSidIndex c → respLen c' = respLen c → resp_a c' = resp_a c →
  deadline (rcrrpTimer c') = deadline (rcrrpTimer c) → deadline (rcrrpPendingTimer c') = deadline (rcrrpPendingTimer c) → req c' = req c → reqLen c' = reqLen c → open_cb x c'.
Proof. intros [] E1 E2 E3 E4 E5. intros. split; try done; try congruence. unfold holds. by rewrite E4, E5. Qed.

Lemma uds_request_wp buf len a w : uds_rel a w → request_ok buf len → wp (Uds_ApiDataIndication buf len) (λ _ w', uds_rel (a_request buf len a) w') w.
Proof using HU.
  intros [Hb Hs Ho] [Hlen Hbuf]. unfold Uds_ApiDataIndication, a_request. apply wp_bind, (start_s3_wp a); [done|]. intros t u tr Hb'.
  destruct buf as [b|]; [|uds_steps; apply neg_wp; base_build Hb']. destruct (Z.ltb_spec len 1); [uds_steps; apply neg_wp; base_build Hb'|].
  destruct (buf_bytes b) as [|q bytes] eqn:Eb; [unfold lenZ in Hbuf; cbn in Hbuf; lia|]. uds_steps. cbn [uds]. eapply wp_lift; [apply aget_0|].
  change (a_open (a_start_s3 a)) with (a_open a). destruct (a_open a) as [x|] eqn:Eo.
  - change (isBusy (set_s3Timer t (uds w))) with (isBusy (uds w)). rewrite (o_busy _ _ Ho). set (w1 := mkUdsWorld _ _ _ _) in *.
    assert (uds_rel (a_start_s3 a) w1) as Hr by (split; [done|done|]; cbn; rewrite Eo; by eapply open_same).
    apply wp_when; intros Hc; [|done]. apply andb_true_iff in Hc as [->%Z.eqb_eq _]. destruct bytes as [|q' bytes]; [unfold lenZ in Hbuf; cbn in Hbuf; lia|].
    apply wp_bind. eapply wp_lift; [apply aget_1|]. by apply wp_ret.
  - destruct Ho as (I1 & I2 & I3 & I4). change (isBusy (set_s3Timer t (uds w))) with (isBusy (uds w)). rewrite I1. uds_steps. cbn [uds Uds_PwrReqID uds_up uds_trace]. rewrite table_eq.
    eapply wp_mono; [apply (search_wp services [] b len q (a_start_s3 a)); try done; [base_build Hb'|rewrite Eb; lia|lia]|].
    intros found w' Hf. destruct (find _ services) as [s|]; destruct Hf as [-> Hf]; cbn [negb when]; [by apply wp_ret|]. subst w'. apply neg_wp. base_build Hb'.
Qed.

(** ** Confirmations and the session timer *)

Lemma uds_confirm_wp a w : uds_rel a w → wp Uds_CoreTxConfirmation (λ _ w', uds_rel (a_confirm a) w') w.
Proof using HU.
  intros [Hb Hs Ho]. unfold a_confirm. destruct (a_open a) as [x|] eqn:Eo.
  - unfold Uds_CoreTxConfirmation. uds_steps. pose proof (o_svc _ _ Ho) as Hx. apply (aget_table_2 (T := T)), aget_Some in Hx.
    rewrite (proj2 (Z.leb_gt _ _)) by lia. uds_steps. split; [base_build Hb|done|]. cbn. destruct Ho. by split.
  - destruct Ho as (I1 & I2 & I3 & I4). unfold Uds_CoreTxConfirmation. uds_steps. rewrite I3. pose proof (table_small (T := T)).
    rewrite (proj2 (Z.leb_le _ _)) by (unfold UDS_CORE_INVALID_RCRRP_INDEX; lia). apply (start_s3_wp a); [done|]. intros t u tr Hb'. split; [done|done|]. cbn. by rewrite Eo.
Qed.

Lemma uds_start_wp a w : uds_rel a w → wp rbUds_CoreStartS3 (λ _ w', uds_rel (a_start_s3 a) w') w.
Proof.
  intros [Hb Hs Ho]. apply (start_s3_wp a); [done|]. intros t u tr Hb'. split; [done|done|]. cbn. destruct (a_open a); [by eapply open_same|done].
Qed.

(** A change of the session timer alone. *)
Lemma s3_changes a w e t : uds_rel a w → s3_rel e t → uds_rel (a_set_s3 e a) (mkUdsWorld (set_s3Timer t (uds w)) (Uds_PwrReqID w) (uds_up w) (uds_trace w)).
Proof. intros [Hb Hs Ho] Ht. split; [base_build Hb|done|]. cbn. destruct (a_open a); [by eapply open_same|done]. Qed.
Lemma a_set_s3_same (a : A) : a_set_s3 (a_s3 a) a = a.
Proof. by destruct a. Qed.

(** The answer of the session timer. *)
Lemma s3_update a w (Q : rbTimerState → W → Prop) :
  uds_rel a w →
  (∀ t, s3_rel (a_s3 a) t → let w' := mkUdsWorld (set_s3Timer t (uds w)) (Uds_PwrReqID w) (uds_up w) (uds_trace w) in
     uds_rel a w' → Q (timer_answer (now (a_up a)) (end_of (a_s3 a)) (end_stopped (a_s3 a))) w') →
  wp (uds_timer_update s3Timer set_s3Timer) Q w.
Proof.
  intros Hr HQ. apply wp_timer_update. intros t E1 E2. destruct (b_s3 _ _ (r_base _ _ Hr)) as [D1 D2].
  assert (timer_answer (now (uds_up w)) (deadline (s3Timer (uds w))) (timer_stopped (s3Timer (uds w))) = timer_answer (now (a_up a)) (end_of (a_s3 a)) (end_stopped (a_s3 a))) as ->.
  { rewrite (b_up _ _ (r_base _ _ Hr)), D1. unfold timer_answer. destruct (end_of (a_s3 a)); [done|]. by rewrite D2. }
  assert (s3_rel (a_s3 a) t) as Ht by (split; [congruence|]; intros E; by rewrite E2, D2). apply HQ; [done|].
  pose proof (s3_changes a w (a_s3 a) t Hr Ht) as Hc. by rewrite a_set_s3_same in Hc.
Qed.

Lemma rx_started_wp a w : uds_rel a w → wp rbUds_ApiRxStarted (λ _ w', uds_rel (a_rx_started a) w') w.
Proof.
  intros Hr. unfold rbUds_ApiRxStarted. apply wp_bind, (s3_update a); [done|]. intros t Ht w' Hr'. unfold a_rx_started.
  destruct (a_s3 a) as [| |e] eqn:E; cbn; [|by apply wp_ret|].
  - uds_steps. cbn. eapply (s3_changes a w TimerStopped); [done|]. split; cbn; [apply timer_stop_off|intros _; apply timer_stop_stopped]; by rewrite timer_start_on.
  - assert (uds_rel (a_set_s3 TimerIdle a) (mkUdsWorld (set_s3Timer (rbd_ElTime_rbTimerInit (uds_up w) t) (uds w)) (Uds_PwrReqID w) (uds_up w) (uds_trace w))) as Hd.
    { apply s3_changes; [done|]. split; cbn; [apply timer_init_off|intros _; apply timer_init_idle]. }
    destruct (_ <? _); uds_steps; exact Hd.
Qed.

Lemma s3_active_wp a w : uds_rel a w →
  wp rbUds_ApiIsS3Active (λ r w', uds_rel a w' ∧ r = match a_s3 a with TimerIdle => false | TimerStopped => true | TimerEnds e => now (a_up a) <? e end) w.
Proof.
  intros Hr. unfold rbUds_ApiIsS3Active. apply wp_bind, (s3_update a); [done|]. intros t Ht w' Hr'. uds_steps. split; [done|].
  destruct (a_s3 a); cbn; try done. by destruct (_ <? _).
Qed.
End ref.

(** * rbUds_Core: the cyclic task, and sequences of calls *)

Section poll.
Context {T U : Type} `{HT : ElTime T U} {HL : ElTimeLaws T U} `{HE : Uds_Env U} {HU : UdsLaws U}.
Abbreviation W := (UdsWorld T U).
Abbreviation CB := (Uds_ControlBlock T).
Abbreviation A := (UdsA U).
Abbreviation SIZE := UDS_BUFFER_SIZE.

Ltac base_build H := destruct H; split; cbn in *; try done; try congruence.

(** ** The session timer task *)

Lemma reset_wp a w : base a w → wp Uds_CoreReset (λ _ w', uds_rel (a_set_s3 TimerIdle (a_set None a)) w') w.
Proof.
  intros H. unfold Uds_CoreReset. apply wp_bind. eapply wp_mono; [by apply set_idle_wp|]. intros [] w' [Hr _]. uds_steps.
  apply s3_changes; [done|]. split; cbn; [apply timer_init_off|intros _; apply timer_init_idle].
Qed.

Lemma ev_rel a w (f : U → U) e : uds_rel a w → uds_rel (a_emit e (a_with f a)) (mkUdsWorld (uds w) (Uds_PwrReqID w) (f (uds_up w)) (uds_trace w ++ [e])).
Proof. intros [Hb Hs Ho]. split; [base_build Hb|done|done]. Qed.

Lemma session_wp a w : uds_rel a w → wp Uds_CoreS3TimerSubtask (λ _ w', uds_rel (a_session a) w') w.
Proof.
  intros Hr. unfold Uds_CoreS3TimerSubtask, a_session. uds_steps. apply (s3_update a); [done|]. intros t Ht w1 Hr1. rewrite answer_elapsed, (b_up _ _ (r_base _ _ Hr)).
  destruct (timer_over _ _); rewrite ?andb_true_r, ?andb_false_r; cbn [when]; [|by uds_steps].
  apply wp_bind. apply wp_mono with (P := λ _ w', uds_rel (if u8 UDS_SESSION_MASK_DS =? rbUds_SessionGetState (a_up a) then a
      else a_set_s3 TimerIdle (a_set None (a_emit UdsSessionExpired (a_with rbUds_SessionS3TimerExpiredReset a)))) w' ∧ Uds_PwrReqID w' = a_pwr a).
  - destruct (u8 _ =? _); cbn [negb when]; uds_steps; [split; [done|apply Hr1]|].
    eapply wp_mono; [apply reset_wp; apply (r_base _ _ (ev_rel a w1 _ UdsSessionExpired Hr1))|]. intros [] w' Hr'. split; [done|]. by rewrite (b_pwr _ _ (r_base _ _ Hr')).
  - intros [] w' [Hr' Hp]. uds_steps. rewrite Hp. pose proof (ev_rel _ w' (uds_PwrReq_ReleaseService (a_pwr a)) (UdsPwrRelease (a_pwr a)) Hr') as He. rewrite Hp in He. exact He.
Qed.

(** ** The response pending task *)

Lemma svc_eqb s t : (svc_sid s =? svc_sid t) = bool_decide (s = t).
Proof using HU. destruct (Z.eqb_spec (svc_sid s) (svc_sid t)) as [E%ul_sids|Hn]; symmetry; [by apply bool_decide_eq_true|apply bool_decide_eq_false; congruence]. Qed.

Lemma limit_wp s c a w : base a w →
  wp (rcrrp_limit (svc_sid s) c) (λ c' w', c' = fst (a_limit s c a) ∧ base (snd (a_limit s c a)) w' ∧ uds w' = uds w) w.
Proof using HU.
  intros H. unfold rcrrp_limit, a_limit, resets.
  change RB_UDS_14229_SID_SA with (svc_sid Sa). change RB_UDS_14229_SID_DSC with (svc_sid Dsc). change RB_UDS_14229_SID_ER with (svc_sid Er).
  change RB_UDS_14229_SID_RC with (svc_sid Rc). change RB_UDS_14229_SID_RDBI with (svc_sid Rdbi). change RB_UDS_14229_SID_WDBI with (svc_sid Wdbi).
  rewrite !(u8_small (svc_sid _)) by apply ul_sid. rewrite !svc_eqb. destruct s; cbn; uds_steps; cbn; (split; [done|]); (split; [|done]); base_build H.
Qed.

(** The exchange as the pending task finds it, around a handler that has written [data]. *)
Lemma open_write x c data z y : open_cb x c → resp_a c = y :: ex_head x ++ z → ∀ z', open_cb x (set_resp_a (y :: ex_head x ++ data ++ z') c).
Proof. intros [] E z'. split; try done. destruct o_head as [El _]. split; [done|]. by exists y, (data ++ z'). Qed.

Lemma task_wp x c a w ans :
  base a w → open_cb x (uds w) → suppressPosResp (uds w) = false → (∃ y z, resp_a (uds w) = y :: ex_head x ++ ans ++ z) → a_open a = Some x →
  wp (Uds_CoreResponsePendingTask c (svc_sid (ex_svc x)) (lenZ ans))
    (λ _ w', uds_rel (if c =? RB_UDS_14229_PR then a_positive (svc_sid (ex_svc x)) (ex_head x ++ ans) false a
                      else if c =? RB_UDS_14229_RCRRP then if timer_over (now (a_up a)) (Some (ex_next x)) then a_pending x (a_start_s3 a) else a
                      else a_negative (svc_sid (ex_svc x)) c a) w') w.
Proof using HU.
  intros H Ho Hs (y & z & Er) Ea. pose proof ul_size as Hz. unfold Uds_CoreResponsePendingTask. apply wp_bind, wp_timer_update. intros t Et1 Et2.
  rewrite answer_elapsed. rewrite (o_next _ _ Ho), (b_up _ _ H). set (w1 := mkUdsWorld _ _ _ _).
  assert (base a w1) as H1 by base_build H. assert (open_cb x (uds w1)) as Ho1 by (eapply open_same; done).
  destruct (c =? RB_UDS_14229_PR).
  - uds_steps. destruct (o_head _ _ Ho) as [El _]. cbn. rewrite El.
    assert (lenZ (ex_head x) + lenZ ans < SIZE) as Hb.
    { pose proof (b_resp _ _ H) as Hl. rewrite Er in Hl. autorewrite with lenZ in Hl. pose proof (lenZ_nonneg z). lia. }
    pose proof (lenZ_nonneg (ex_head x)). pose proof (lenZ_nonneg ans). rewrite u16_small by lia.
    eapply wp_mono; [apply (pos_wp _ (ex_head x ++ ans) a); [base_build H1| |cbn; congruence]|intros [] w' Hw; cbn in Hw; rewrite Hs in Hw; exact Hw].
    split; cbn; [by rewrite lenZ_app|]. exists y, z. by rewrite <-app_assoc.
  - destruct (c =? RB_UDS_14229_RCRRP); [|by apply neg_wp]. destruct (timer_over _ _); cbn [when]; [|by split; [|done|rewrite Ea]].
    apply wp_bind, (start_s3_wp a); [done|]. intros t' u tr H2. destruct Ho1. by apply pending_wp.
Qed.

(** Where the pending function writes: behind what is known of the answer. *)
Lemma pending_off x c : open_cb x c →
  (if u8 RB_UDS_14229_SID_RDBI =? svc_sid (ex_svc x) then UDS_SID_LEN + RB_UDS_DID_HDR_LEN else UDS_SID_LEN + respLen c) = 1 + lenZ (ex_head x).
Proof using HU.
  intros Ho. change RB_UDS_14229_SID_RDBI with (svc_sid Rdbi). rewrite u8_small by apply ul_sid. rewrite svc_eqb.
  case_bool_decide as E; [rewrite (o_rdbi _ _ Ho) by done; by rewrite (proj2 (proj2 ul_did))|]. by rewrite (proj1 (o_head _ _ Ho)).
Qed.

(** A change of the timers that cannot be observed. *)
Lemma timers_same a w t t' : uds_rel a w → deadline t = deadline (rcrrpTimer (uds w)) → deadline t' = deadline (rcrrpPendingTimer (uds w)) →
  uds_rel a (mkUdsWorld (set_rcrrpPendingTimer t' (set_rcrrpTimer t (uds w))) (Uds_PwrReqID w) (uds_up w) (uds_trace w)).
Proof. intros [Hb Hs Ho] E1 E2. split; [base_build Hb|done|]. destruct (a_open a); [by eapply open_same|done]. Qed.

Lemma ask_wp x f a w :
  uds_rel a w → a_open a = Some x → svc_pending (ex_svc x) = Some f → ∀ off, off = 1 + lenZ (ex_head x) →
  wp ('(responseCode, n) ← call_handler off (f off (req (uds w)) (reqLen (uds w)));
      responseCode ← (if timer_over (now (a_up a)) (Some (ex_limit x)) then rcrrp_limit (svc_sid (ex_svc x)) responseCode else mret responseCode);
      Uds_CoreResponsePendingTask responseCode (svc_sid (ex_svc x)) n) (λ _ w', uds_rel (a_ask x f a) w') w.
Proof using HU.
  intros [Hb Hs Ho] Ea Ef off ->. rewrite Ea in Ho. pose proof Ho as Ho'. destruct Ho' as [_ _ _ _ (Hl & y & z & Er) _ _ Eq Eqn _].
  apply wp_bind, (wp_call_handler _ _ (y :: ex_head x) z); [done|by rewrite lenZ_cons|apply Hb|..].
  { apply (ul_pending (ex_svc x)); [done|]. pose proof (b_resp _ _ Hb) as Hlen. rewrite Er in Hlen. autorewrite with lenZ in Hlen.
    pose proof (lenZ_nonneg z). pose proof (lenZ_nonneg (ex_head x)). lia. }
  intros z' Hlen. unfold a_ask. rewrite <-(b_up _ _ Hb), <-Eq, <-Eqn. cbv beta iota. destruct (f _ _ _ (uds_up w)) as [ans u'] eqn:Eu. cbn [fst snd] in *.
  set (w1 := mkUdsWorld _ _ _ _). assert (base (a_with (λ _, u') a) w1) as H1 by base_build Hb.
  assert (open_cb x (uds w1)) as Ho1 by (by eapply open_write). apply wp_bind.
  apply wp_mono with (P := λ c' w', c' = fst (if timer_over (now (uds_up w)) (Some (ex_limit x)) then a_limit (ex_svc x) (ans_code ans) (a_with (λ _, u') a) else (ans_code ans, a_with (λ _, u') a)) ∧
    base (snd (if timer_over (now (uds_up w)) (Some (ex_limit x)) then a_limit (ex_svc x) (ans_code ans) (a_with (λ _, u') a) else (ans_code ans, a_with (λ _, u') a))) w' ∧ uds w' = uds w1).
  { destruct (timer_over _ _); [by apply limit_wp|]. by apply wp_ret. }
  intros c' w' (-> & H2 & E2). assert (a_open (snd (if timer_over (now (uds_up w)) (Some (ex_limit x)) then a_limit (ex_svc x) (ans_code ans) (a_with (λ _, u') a) else (ans_code ans, a_with (λ _, u') a))) = Some x) as Ex2.
  { destruct (timer_over _ _); [|done]. unfold a_limit. destruct (resets _); [done|]. by destruct (ex_svc x). }
  destruct (if timer_over (now (uds_up w)) (Some (ex_limit x)) then _ else _) as [c a2]. cbn [fst snd] in *.
  apply task_wp; try done; rewrite E2; [done..|]. by exists y, z'.
Qed.

Lemma poll_wp a w : uds_rel a w → wp Uds_CoreResponsePendingSubtask (λ _ w', uds_rel (a_poll a) w') w.
Proof using HU.
  intros Hr. pose proof Hr as [Hb Hs Ho]. unfold Uds_CoreResponsePendingSubtask, a_poll. uds_steps. destruct (a_open a) as [x|] eqn:Eo.
  - pose proof (aget_table_2 (T := T) _ _ (o_svc _ _ Ho)) as Hx. pose proof (aget_Some _ _ _ Hx). rewrite (proj2 (Z.ltb_lt _ _)) by lia. cbn [when].
    apply wp_bind. eapply wp_lift; [exact Hx|]. cbn [svc_entry SidPending_fp sid]. destruct (o_pend _ _ Ho) as [f Ef]. rewrite Ef.
    apply wp_bind, wp_timer_update. intros t Et1 Et2. apply wp_bind, wp_timer_update. intros t' Et1' Et2'. cbn in Et1', Et2'. cbn [uds Uds_PwrReqID uds_up uds_trace].
    pose proof (timers_same a w t t' Hr Et1 Et1') as Hr'. set (w1 := mkUdsWorld _ _ _ _) in *. rewrite !answer_elapsed. cbn [rcrrpTimer rcrrpPendingTimer set_rcrrpTimer].
    rewrite (o_next _ _ Ho), (o_limit _ _ Ho), (b_up _ _ Hb). uds_steps. change (rcrrpTxConfirm (uds w1)) with (rcrrpTxConfirm (uds w)). rewrite (o_conf _ _ Ho).
    pose proof (r_open _ _ Hr') as Ho'. rewrite Eo in Ho'. destruct (ex_conf x); [apply ask_wp; [done..|by apply pending_off]|].
    destruct (timer_over _ _); cbn [when]; [|done]. uds_steps. eapply wp_mono; [apply (set_idle_wp (a_emit (UdsDet 0 RB_UDS_S_CORERESPONSEPENDINGSUBTASK RB_UDS_E_TIMEOUT) a))|].
    { destruct (r_base _ _ Hr'). split; cbn in *; congruence. } by intros [] w2 [? _].
  - destruct Ho as (I1 & I2 & I3 & I4). rewrite I3. pose proof (table_small (T := T)). rewrite (proj2 (Z.ltb_ge _ _)) by (unfold UDS_CORE_INVALID_RCRRP_INDEX; lia). done.
Qed.

Lemma uds_cyclic_wp a w : uds_rel a w → wp Uds_CoreCyclic (λ _ w', uds_rel (a_session (a_poll a)) w') w.
Proof using HU.
  intros Hr. unfold Uds_CoreCyclic. apply wp_bind. eapply wp_mono; [by apply poll_wp|]. intros [] w' Hr'. by apply session_wp.
Qed.
End poll.

(** ** Sequences of calls *)

Section calls.
Context {T U : Type} `{HT : ElTime T U} {HL : ElTimeLaws T U} `{HE : Uds_Env U} {HU : UdsLaws U}.
Abbreviation W := (UdsWorld T U).
Abbreviation A := (UdsA U).

Definition op_code (op : uds_op U) : M W unit :=
  match op with
  | ORequest buf len => Uds_ApiDataIndication buf len
  | ORxStarted => rbUds_ApiRxStarted
  | ORxAborted => rbUds_ApiRxAborted
  | OTxAborted => Uds_CoreTxAborted
  | OTxConfirmation => Uds_CoreTxConfirmation
  | OStartS3 => rbUds_CoreStartS3
  | OCyclic => Uds_CoreCyclic
  | OReset => Uds_CoreReset
  | OPwrInit => Uds_CorePwrReqIDInit
  | OS3Active => rbUds_ApiIsS3Active;; mret tt
  | OEnv f => uds_call_ f
  end.
Definition op_ok (op : uds_op U) : Prop := match op with ORequest buf len => request_ok buf len | _ => True end.
Fixpoint uds_calls (ops : list (uds_op U)) : M W unit := match ops with [] => mret tt | op :: ops => op_code op;; uds_calls ops end.

Lemma step_wp op a w : uds_rel a w → op_ok op → wp (op_code op) (λ _ w', uds_rel (uds_step op a) w') w.
Proof using HU.
  intros Hr Hok. destruct op; cbn [op_code uds_step].
  - by apply uds_request_wp.
  - by apply rx_started_wp.
  - by apply uds_start_wp.
  - by apply uds_confirm_wp.
  - by apply uds_confirm_wp.
  - by apply uds_start_wp.
  - by apply uds_cyclic_wp.
  - apply reset_wp, Hr.
  - destruct Hr as [[] Hs Ho]. unfold Uds_CorePwrReqIDInit. uds_steps. rewrite <-b_up. destruct (uds_PwrReq_GetID (uds_up w)) as [id u]. by split.
  - apply wp_bind. eapply wp_mono; [by apply s3_active_wp|]. intros r w' [? _]. by apply wp_ret.
  - destruct Hr as [[] Hs Ho]. apply wp_uds_call_. split; [|done|done]. split; cbn; congruence.
Qed.

Lemma run_wp ops a w : uds_rel a w → Forall op_ok ops → wp (uds_calls ops) (λ _ w', uds_rel (uds_run ops a) w') w.
Proof using HU.
  revert a w. induction ops as [|op ops IH]; intros a w Hr Hops; [by apply wp_ret|]. apply list.Forall_cons in Hops as [Hop Hops].
  apply wp_bind. eapply wp_mono; [by apply step_wp|]. intros [] w' Hr'. by apply IH.
Qed.

(** The automaton after a reset of memory [w]. *)
Definition uds_start (w : W) : A := mkUdsA None TimerIdle (Uds_PwrReqID w) (uds_up w) (uds_trace w).

Lemma start_rel (w : W) : lenZ (resp_a (uds w)) = UDS_BUFFER_SIZE → lenZ (negResp_a (uds w)) = UDS_CORE_NEG_RESP_LEN →
  wp Uds_CoreReset (λ _ w', uds_rel (uds_start w) w') w.
Proof.
  intros H1 H2. pose (e := match deadline (s3Timer (uds w)) with Some e => TimerEnds e | None => if timer_stopped (s3Timer (uds w)) then TimerStopped else TimerIdle end).
  apply (reset_wp (mkUdsA None e (Uds_PwrReqID w) (uds_up w) (uds_trace w))). split; try done. cbn. unfold e. destruct (deadline _) eqn:E; [done|].
  split; destruct (timer_stopped _) eqn:E'; cbn; done.
Qed.

Lemma reach_wp ops (w : W) : lenZ (resp_a (uds w)) = UDS_BUFFER_SIZE → lenZ (negResp_a (uds w)) = UDS_CORE_NEG_RESP_LEN → Forall op_ok ops →
  wp (Uds_CoreReset;; uds_calls ops) (λ _ w', uds_rel (uds_run ops (uds_start w)) w') w.
Proof using HU.
  intros H1 H2 Hops. apply wp_bind. eapply wp_mono; [by apply start_rel|]. intros [] w' Hr. by apply run_wp.
Qed.

Lemma rel_busy a w : uds_rel a w → isBusy (uds w) = bool_decide (is_Some (a_open a)).
Proof. intros [_ _ Ho]. destruct (a_open a); [by rewrite (o_busy _ _ Ho)|apply Ho]. Qed.
End calls.
