(* ===== verification/UdsClaims.v ===== *)
(** * rbUds_Core: what the diagnostic server promises *)

From S2P Require Import Prelude ElTime UdsTypes UdsCore UdsSpec UdsBase UdsRef.
From stdpp Require Import base sets list numbers option.

#[local] Open Scope Z_scope.

(** The messages among the events. *)
Definition messages (l : list Uds_Event) : list (list Z * bool) := omap (λ e, match e with UdsSend m s => Some (m, s) | _ => None end) l.
Lemma sent_app l1 l2 : messages (l1 ++ l2) = messages l1 ++ messages l2.
Proof. apply omap_app. Qed.

Section automaton.
Context {T U : Type} `{HT : ElTime T U} {HL : ElTimeLaws T U} `{HE : Uds_Env U}.
Abbreviation A := (UdsA U).

(** The events of a transition. *)
Definition adds (a a' : A) (l : list Uds_Event) : Prop := a_trace a' = a_trace a ++ l.
Lemma adds_nil a : adds a a [].
Proof. unfold adds. by rewrite app_nil_r. Qed.
Lemma adds_trans a1 a2 a3 l1 l2 : adds a1 a2 l1 → adds a2 a3 l2 → adds a1 a3 (l1 ++ l2).
Proof. unfold adds. intros E1 E2. by rewrite E2, E1, app_assoc. Qed.
Lemma adds_emit e (f : U → U) a : adds a (a_emit e (a_with f a)) [e].
Proof. done. Qed.

Lemma adds_with f a : adds a (a_with f a) [].
Proof. unfold adds. cbn. by rewrite app_nil_r. Qed.
Lemma adds_start a : adds a (a_start_s3 a) [UdsPwrRequest (a_pwr a)].
Proof. done. Qed.

Definition pending_msg (q : Z) : list Z * bool := ([SID_NR; q; RB_UDS_14229_RCRRP], false).

(** A request to an idle server is answered once; the exchange stays open exactly behind a
    pending answer. *)
Definition answered (q : Z) (a a' : A) (l : list Uds_Event) : Prop :=
  adds a a' l ∧ ∃ m, messages l = [m] ∧ (is_Some (a_open a') → m = pending_msg q).

Lemma negative_answered q s c a : answered q a (a_negative s c a) [UdsSend [SID_NR; s; c] false].
Proof. split; [done|]. eexists. split; [done|]. by intros [? ?]. Qed.

Lemma positive_answered q s body sup a : ∃ l, answered q a (a_positive s body sup a) l.
Proof.
  unfold a_positive. destruct sup; eexists; (split; [unfold adds; cbn; by rewrite <-?app_assoc|]); (eexists; split; [done|]); by intros [? ?].
Qed.

Lemma service_answered s b len a : ∃ l, answered (svc_sid s) a (a_service s b len a) l.
Proof.
  unfold a_service. destruct (_ =? 0); [eexists; apply negative_answered|]. destruct (_ <? _); [eexists; apply negative_answered|].
  destruct (svc_reply _ _ _ _) as [r u]. destruct (rp_code r =? _); [apply (positive_answered _ _ _ _ (a_with (λ _, u) a))|].
  destruct (rp_code r =? _); [|eexists; apply (negative_answered _ _ _ (a_with (λ _, u) a))].
  destruct (svc_pending s); [|eexists; apply (negative_answered _ _ _ (a_with (λ _, u) a))].
  eexists. split; [done|]. eexists. by split.
Qed.

Definition bad_request (buf : option UdsBuf) (len : Z) : bool := match buf with None => true | Some _ => len <? 1 end.

Lemma request_law buf len a : request_ok buf len → ∃ l, adds a (a_request buf len a) l ∧
  if bad_request buf len then messages l = [([SID_NR; 0; RB_UDS_14229_GR], false)] ∧ a_open (a_request buf len a) = None
  else match a_open a with
       | Some x => messages l = [] ∧ a_open (a_request buf len a) = Some x
       | None => ∃ q m, (b ← buf; head (buf_bytes b)) = Some q ∧ messages l = [m] ∧ (is_Some (a_open (a_request buf len a)) → m = pending_msg q)
       end.
Proof.
  intros [Hlen Hb]. unfold a_request, bad_request. destruct buf as [b|]; [|eexists; split; [unfold adds; cbn; by rewrite <-!app_assoc|done]].
  destruct (Z.ltb_spec len 1); [eexists; split; [unfold adds; cbn; by rewrite <-!app_assoc|done]|].
  change (a_open (a_start_s3 a)) with (a_open a). destruct (a_open a) as [x|] eqn:E; [by eexists|].
  destruct (buf_bytes b) as [|q bs] eqn:Eb; [unfold lenZ in Hb; cbn in Hb; lia|].
  destruct (find _ services) as [s|] eqn:Ef.
  - destruct (service_answered s b len (a_start_s3 a)) as (l & Hl & m & Em & Hm). eexists. split; [eapply adds_trans; [apply adds_start|exact Hl]|].
    apply find_some in Ef as [_ Eq%Z.eqb_eq]. exists q, m. cbn. rewrite Eb. by rewrite <-Eq.
  - eexists. split; [unfold adds; cbn; by rewrite <-!app_assoc|]. eexists q, _. cbn. rewrite Eb. split; [done|]. split; [done|]. by intros [? ?].
Qed.

(** The pending task closes an exchange with a message or by the error of a confirmation
    time-out. *)
Lemma limit_adds s c a : ∃ l, adds a (snd (a_limit s c a)) l ∧ messages l = [] ∧ a_open (snd (a_limit s c a)) = a_open a.
Proof. unfold a_limit. destruct (resets s); [by eexists|]. destruct s; by first [eexists; split; [apply adds_nil|] | eexists; split; [apply adds_emit|]]. Qed.

Lemma ask_law x f a : a_open a = Some x → ∃ l, adds a (a_ask x f a) l ∧ (length (messages l) ≤ 1)%nat ∧ (a_open (a_ask x f a) = None → messages l ≠ []).
Proof.
  intros Eo. unfold a_ask. destruct (f _ _ _ _) as [ans u].
  assert (∃ l, adds a (snd (if timer_over (now (a_up a)) (Some (ex_limit x)) then a_limit (ex_svc x) (ans_code ans) (a_with (λ _, u) a) else (ans_code ans, a_with (λ _, u) a))) l ∧ messages l = [] ∧
    a_open (snd (if timer_over (now (a_up a)) (Some (ex_limit x)) then a_limit (ex_svc x) (ans_code ans) (a_with (λ _, u) a) else (ans_code ans, a_with (λ _, u) a))) = Some x) as (l & Hl & Es & Eo').
  { destruct (timer_over _ _); [rewrite <-Eo; apply (limit_adds _ _ (a_with (λ _, u) a))|]. exists []. split; [apply adds_with|done]. }
  destruct (if timer_over _ _ then _ else _) as [c a']. cbn [snd] in *.
  destruct (c =? _); [destruct (positive_answered 0 (svc_sid (ex_svc x)) (ex_head x ++ ans_data ans) false a') as (l' & Hl' & m & Em & _); exists (l ++ l'); split; [by eapply adds_trans|]; by rewrite sent_app, Es, Em|].
  destruct (c =? _); [|eexists; split; [by eapply adds_trans; [|apply (negative_answered 0)]|]; by rewrite sent_app, Es].
  destruct (timer_over _ _); [|exists l; split; [done|]; rewrite Es; split; [cbn; lia|congruence]].
  eexists. split; [eapply adds_trans; [exact Hl|]; unfold adds; cbn; by rewrite <-!app_assoc|]. rewrite sent_app, Es. done.
Qed.

Lemma session_adds a : ∃ l, adds a (a_session a) l ∧ messages l = [] ∧ (a_open (a_session a) = a_open a ∨ a_open (a_session a) = None ∧ UdsSessionExpired ∈ l).
Proof.
  unfold a_session. destruct (timer_over _ _); [|exists []; split; [apply adds_nil|]; auto].
  destruct (_ =? _); [eexists; split; [apply adds_emit|]; auto|]. eexists. split; [unfold adds; cbn; by rewrite <-!app_assoc|]. split; [done|]. right. split; [done|]. set_solver.
Qed.

Definition timed_out (l : list Uds_Event) : Prop := UdsDet 0 RB_UDS_S_CORERESPONSEPENDINGSUBTASK RB_UDS_E_TIMEOUT ∈ l ∨ UdsSessionExpired ∈ l.

Lemma poll_law a : ∃ l, adds a (a_poll a) l ∧ (length (messages l) ≤ 1)%nat ∧ (a_open a = None → l = [] ∧ a_open (a_poll a) = None) ∧
  (a_open a ≠ None → a_open (a_poll a) = None → messages l = [] → timed_out l).
Proof.
  unfold a_poll. destruct (a_open a) as [x|] eqn:Eo; [|exists []; split; [apply adds_nil|]; by split; [cbn; lia|]].
  destruct (svc_pending _) as [f|]; [|exists []; split; [apply adds_nil|]; split; [cbn; lia|]; split; [done|congruence]].
  destruct (ex_conf x); [destruct (ask_law x f a Eo) as (l & Hl & Hs & Hc); exists l; split_and!; try done; intros; by destruct Hc|].
  destruct (timer_over _ _); [eexists; split; [apply (adds_emit _ id)|]; split; [cbn; lia|]; split; [done|]; intros; left; set_solver|].
  exists []. split; [apply adds_nil|]. split; [cbn; lia|]. split; [done|congruence].
Qed.

Lemma cyclic_law a : ∃ l, adds a (a_session (a_poll a)) l ∧ (length (messages l) ≤ 1)%nat ∧
  (a_open a = None → messages l = [] ∧ a_open (a_session (a_poll a)) = None) ∧
  (a_open a ≠ None → a_open (a_session (a_poll a)) = None → messages l = [] → timed_out l).
Proof.
  destruct (poll_law a) as (l1 & H1 & Hs1 & Hi1 & Ho1), (session_adds (a_poll a)) as (l2 & H2 & Hs2 & Ho2). exists (l1 ++ l2). split; [by eapply adds_trans|].
  rewrite sent_app, Hs2, app_nil_r. split; [done|]. split.
  - intros E. destruct (Hi1 E) as [-> E']. split; [done|]. destruct Ho2 as [->|[-> _]]; done.
  - intros E E' Es. unfold timed_out. rewrite !elem_of_app. destruct Ho2 as [Eq|[_ Hx]]; [|by right; right]. rewrite Eq in E'. destruct (Ho1 E E' Es); auto.
Qed.
End automaton.

Section claims.
Context {T U : Type} `{HT : ElTime T U} {HL : ElTimeLaws T U} `{HE : Uds_Env U} {HU : UdsLaws U}.
Abbreviation W := (UdsWorld T U).
Abbreviation A := (UdsA U).
Abbreviation SIZE := UDS_BUFFER_SIZE.

(** Memory with buffers of the declared size; nothing else is assumed of it. *)
Definition uds_memory (w : W) : Prop := lenZ (resp_a (uds w)) = SIZE ∧ lenZ (negResp_a (uds w)) = UDS_CORE_NEG_RESP_LEN.

Lemma reached ops (w w1 : W) : uds_memory w → Forall op_ok ops → (Uds_CoreReset;; uds_calls ops) w = Some (tt, w1) → uds_rel (uds_run ops (uds_start w)) w1.
Proof using HU. intros [H1 H2] Hops E. pose proof (reach_wp ops w H1 H2 Hops) as Hw. by rewrite (wp_eq _ _ _ _ _ E) in Hw. Qed.

(** C22. The diagnostic core is the exchange automaton: after a reset, any sequence of calls
    (requests of any length and content, confirmations, the cyclic task, time passing and
    neighbours changing in between) has a defined result, and messages, power requests,
    resets and errors are, in this order, those of the automaton, in which services are
    a set, messages are lists and one open exchange replaces buffers, lengths, flags and
    indices.  In particular no handler result and no request makes the core leave its
    buffers or tables. *)
Theorem uds_refines (ops : list (uds_op U)) (w : W) :
  uds_memory w → Forall op_ok ops →
  let a := uds_run ops (uds_start w) in
  ∃ w', (Uds_CoreReset;; uds_calls ops) w = Some (tt, w') ∧ uds_trace w' = a_trace a ∧ uds_up w' = a_up a ∧
    isBusy (uds w') = bool_decide (is_Some (a_open a)).
Proof using HU.
  intros [H1 H2] Hops a. destruct (wp_run _ _ _ (reach_wp ops w H1 H2 Hops)) as ([] & w' & E & Hr). exists w'. split; [done|].
  split_and!; [apply Hr..|by apply rel_busy].
Qed.

(** The control block between calls: busy means that the index points to a service with a
    pending function and both timers run; idle means that the index is the invalid one and
    nothing of an answer is left. *)
Definition control_block_ok (c : Uds_ControlBlock T) : Prop :=
  lenZ (resp_a c) = SIZE ∧ lenZ (negResp_a c) = UDS_CORE_NEG_RESP_LEN ∧ suppressPosResp c = false ∧ 0 ≤ respLen c < SIZE ∧
  if isBusy c
  then ∃ cfg : Uds_CoreServiceElement (T := T), aget serviceCfg_a (rcrrpSidIndex c) = Some cfg ∧ is_Some (SidPending_fp cfg) ∧
         is_Some (deadline (rcrrpTimer c)) ∧ is_Some (deadline (rcrrpPendingTimer c))
  else rcrrpSidIndex c = UDS_CORE_INVALID_RCRRP_INDEX ∧ rcrrpTxConfirm c = false ∧ respLen c = 0.

Lemma rel_block a w : uds_rel a w → control_block_ok (uds w).
Proof using HU.
  intros [Hb Hs Ho]. pose proof ul_size. split; [apply Hb|]. split; [apply Hb|]. split; [done|]. destruct (a_open a) as [x|].
  - destruct Ho. pose proof (holds_bound _ _ (b_resp _ _ Hb) o_head) as Hl. rewrite <-(proj1 o_head) in Hl. split; [lia|]. rewrite o_busy.
    eexists. split; [by apply aget_table_2|]. by rewrite o_next, o_limit.
  - destruct Ho as (-> & E2 & E3 & E4). rewrite E4. by split; [lia|].
Qed.

(** C29. The control block is well-formed after every sequence of calls, and so the busy flag, the
    pending index, the response length and the timers always agree. *)
Theorem uds_control_block_wf (ops : list (uds_op U)) (w : W) :
  uds_memory w → Forall op_ok ops →
  ∃ w', (Uds_CoreReset;; uds_calls ops) w = Some (tt, w') ∧ control_block_ok (uds w').
Proof using HU.
  intros [H1 H2] Hops. destruct (wp_run _ _ _ (reach_wp ops w H1 H2 Hops)) as ([] & w' & E & Hr). exists w'. split; [done|]. by eapply rel_block.
Qed.

(** What one call may send and when it may end an exchange; [b] and [b']: busy before and after. *)
Definition exchange_law (op : uds_op U) (b b' : bool) (l : list Uds_Event) : Prop :=
  match op with
  | ORequest buf len =>
      if bad_request buf len then messages l = [([SID_NR; 0; RB_UDS_14229_GR], false)] ∧ b' = false
      else if b then messages l = [] ∧ b' = true
      else ∃ q m, (x ← buf; head (buf_bytes x)) = Some q ∧ messages l = [m] ∧ (b' = true → m = pending_msg q)
  | OCyclic => (length (messages l) ≤ 1)%nat ∧ (b = false → messages l = [] ∧ b' = false) ∧ (b = true → b' = false → messages l = [] → timed_out l)
  | OReset => messages l = [] ∧ b' = false
  | _ => messages l = [] ∧ b' = b
  end.

Lemma law_step op (a : A) : op_ok op → ∃ l, adds a (uds_step op a) l ∧
  exchange_law op (bool_decide (is_Some (a_open a))) (bool_decide (is_Some (a_open (uds_step op a)))) l.
Proof.
  intros Hok. destruct op; cbn [uds_step exchange_law].
  - destruct (request_law buf len a Hok) as (l & Hl & H). exists l. split; [done|]. destruct (bad_request buf len); [by destruct H as [-> ->]|].
    destruct (a_open a) as [x|]; [by destruct H as [-> ->]|]. destruct H as (q & m & E & Em & Hm). exists q, m. split_and!; try done. by rewrite bool_decide_eq_true.
  - exists []. unfold a_rx_started. by destruct (a_s3 a); (split; [unfold adds; cbn; by rewrite app_nil_r|]).
  - eexists. split; [apply adds_start|done].
  - unfold a_confirm. destruct (a_open a) eqn:E; [exists []; split; [unfold adds; cbn; by rewrite app_nil_r|done]|]. eexists. split; [apply adds_start|]. cbn. by rewrite E.
  - unfold a_confirm. destruct (a_open a) eqn:E; [exists []; split; [unfold adds; cbn; by rewrite app_nil_r|done]|]. eexists. split; [apply adds_start|]. cbn. by rewrite E.
  - eexists. split; [apply adds_start|done].
  - destruct (cyclic_law a) as (l & Hl & H1 & H2 & H3). exists l. split; [done|]. split; [done|]. split.
    + intros E%bool_decide_eq_false. rewrite <-eq_None_not_Some in E. destruct (H2 E) as [-> ->]. done.
    + intros Hb%bool_decide_eq_true Hb'%bool_decide_eq_false Es. rewrite <-eq_None_not_Some in Hb'. apply H3; try done. by destruct Hb as [? ->].
  - exists []. split; [unfold adds; cbn; by rewrite app_nil_r|done].
  - exists []. destruct (uds_PwrReq_GetID (a_up a)). split; [unfold adds; cbn; by rewrite app_nil_r|done].
  - exists []. split; [apply adds_nil|done].
  - exists []. split; [apply adds_with|done].
Qed.

(** C23. The exchange with the tester: in every reachable state a well-formed request to an idle
    core is answered by exactly one message, and the core stays busy only behind a "response
    pending" of this service; a well-formed request to a busy core is ignored; the cyclic
    task sends at most one message, none if the core is idle; no other call sends.  An
    exchange ends with a message, by the error of a missing confirmation, by the end of the
    session, by a reset, or by a request without bytes: that one is looked at before the busy
    flag, is answered with identifier 0 and ends the exchange, so its own answer is never
    sent. *)
Theorem uds_exchanges (ops : list (uds_op U)) (op : uds_op U) (w : W) :
  uds_memory w → Forall op_ok ops → op_ok op →
  ∃ w1 w2 l, (Uds_CoreReset;; uds_calls ops) w = Some (tt, w1) ∧ op_code op w1 = Some (tt, w2) ∧ uds_trace w2 = uds_trace w1 ++ l ∧
    exchange_law op (isBusy (uds w1)) (isBusy (uds w2)) l.
Proof using HL HU.
  intros [H1 H2] Hops Hop. destruct (wp_run _ _ _ (reach_wp ops w H1 H2 Hops)) as ([] & w1 & E & Hr).
  destruct (wp_run _ _ _ (step_wp op _ _ Hr Hop)) as ([] & w2 & E2 & Hr2). destruct (law_step op (uds_run ops (uds_start w)) Hop) as (l & Hl & Hlaw).
  exists w1, w2, l. split; [done|]. split; [done|]. split; [by rewrite (b_trace _ _ (r_base _ _ Hr)), (b_trace _ _ (r_base _ _ Hr2))|].
  by rewrite (rel_busy _ _ Hr), (rel_busy _ _ Hr2).
Qed.

(** ** How long an exchange lasts *)

Definition not_request (op : uds_op U) : Prop := match op with ORequest _ _ => False | _ => True end.

(** Without a new request the open exchange is the one that was open. *)
Definition same_exchange (x x' : Exchange) : Prop := ex_svc x' = ex_svc x ∧ ex_limit x' = ex_limit x.

Lemma ask_keeps x f a x' : a_open a = Some x → a_open (a_ask x f a) = Some x' → same_exchange x x'.
Proof.
  intros Ea. unfold a_ask. destruct (f _ _ _ _) as [ans u].
  assert (a_open (snd (if timer_over (now (a_up a)) (Some (ex_limit x)) then a_limit (ex_svc x) (ans_code ans) (a_with (λ _, u) a) else (ans_code ans, a_with (λ _, u) a))) = Some x) as Eo.
  { destruct (timer_over _ _); [|done]. destruct (limit_adds (ex_svc x) (ans_code ans) (a_with (λ _, u) a)) as (? & _ & _ & ->). done. }
  destruct (if timer_over _ _ then _ else _) as [c a']. cbn [snd] in *. destruct (c =? _); [done|]. destruct (c =? _); [|done].
  destruct (timer_over _ _); [by intros [= <-]|]. rewrite Eo. by intros [= <-].
Qed.

Lemma step_keeps op (a : A) x' : not_request op → a_open (uds_step op a) = Some x' → ∃ x, a_open a = Some x ∧ same_exchange x x'.
Proof.
  intros Hop. assert (∀ b : A, a_open b = Some x' → a_open b = a_open a → ∃ x, a_open a = Some x ∧ same_exchange x x') as Hsame by (intros b E <-; by exists x').
  destruct op; cbn [uds_step]; try done.
  - intros E. apply (Hsame _ E). unfold a_rx_started. by destruct (a_s3 a).
  - intros E. by apply (Hsame _ E).
  - unfold a_confirm. destruct (a_open a) as [x|] eqn:Eo; [intros [= <-]; by exists x|cbn; rewrite Eo; done].
  - unfold a_confirm. destruct (a_open a) as [x|] eqn:Eo; [intros [= <-]; by exists x|cbn; rewrite Eo; done].
  - intros E. by apply (Hsame _ E).
  - destruct (session_adds (a_poll a)) as (l & _ & _ & [->|[-> _]]); [|done]. unfold a_poll. destruct (a_open a) as [x|] eqn:Eo; [|congruence].
    destruct (svc_pending _); [|rewrite Eo; intros [= <-]; by exists x]. destruct (ex_conf x); [intros E; exists x; split; [done|]; by eapply ask_keeps|].
    destruct (timer_over _ _); [done|]. rewrite Eo. intros [= <-]. by exists x.
  - destruct (uds_PwrReq_GetID (a_up a)). intros E. by apply (Hsame _ E).
  - intros E. by apply (Hsame _ E).
  - intros E. by apply (Hsame _ E).
Qed.

Lemma run_keeps ops (a : A) x' : Forall not_request ops → a_open (uds_run ops a) = Some x' → ∃ x, a_open a = Some x ∧ same_exchange x x'.
Proof.
  revert a. induction ops as [|op ops IH]; intros a Hops E; [by exists x'|]. apply list.Forall_cons in Hops as [Hop Hops].
  destruct (IH _ Hops E) as (x & Ex & [E1 E2]). destruct (step_keeps _ _ _ Hop Ex) as (x0 & Ex0 & [E3 E4]). exists x0. split; [done|]. split; congruence.
Qed.

(** The exchange a request opens has ten seconds. *)
Lemma request_limit buf len a x :
  (∀ m s u, now u ≤ now (Uds_CoreCfgSendResponse m s u)) → a_open a = None → a_open (a_request buf len a) = Some x → ex_limit x ≤ now (a_up (a_request buf len a)) + UDS_RCRRP_LIMIT_MS.
Proof.
  intros Hmono Ea. unfold a_request. destruct buf as [b|]; [|done]. destruct (len <? 1); [done|]. change (a_open (a_start_s3 a)) with (a_open a). rewrite Ea.
  destruct (buf_bytes b); [cbn; by rewrite Ea|]. destruct (find _ services) as [s|]; [|done]. unfold a_service. destruct (_ =? 0); [done|]. destruct (_ <? _); [done|].
  destruct (svc_reply _ _ _ _) as [r u]. destruct (rp_code r =? _); [unfold a_positive; by destruct (rp_sup r)|]. destruct (rp_code r =? _); [|done].
  destruct (svc_pending s); [|done]. intros [= <-]. cbn. pose proof (Hmono [SID_NR; svc_sid s; RB_UDS_14229_RCRRP] false u). lia.
Qed.

(** The cyclic task after that time. *)
Lemma late_poll x (a : A) : a_open a = Some x → is_Some (svc_pending (ex_svc x)) → ex_conf x = true → ex_limit x ≤ now (a_up a) →
  ∃ l, adds a (a_poll a) l ∧ (UdsMcuReset ∈ l ∨ messages l = [([SID_NR; svc_sid (ex_svc x); RB_UDS_14229_GR], false)] ∧ a_open (a_poll a) = None).
Proof using HU.
  intros Ea [f Ef] Ec Hl. unfold a_poll. rewrite Ea, Ef, Ec. unfold a_ask. cbn [timer_over]. rewrite (proj2 (Z.leb_le _ _)) by done.
  destruct (f _ _ _ _) as [ans u]. destruct codes_ne as (N1 & N2 & N3 & N4 & N5 & N6 & N7). unfold a_limit. destruct (resets (ex_svc x)).
  - destruct (ans_code ans =? _); [|destruct (ans_code ans =? _); [destruct (_ <=? _)|]]; eexists;
      (split; [unfold adds, a_positive; cbn; by rewrite <-?app_assoc|]); left; set_solver.
  - rewrite (proj2 (Z.eqb_neq _ _) N2), (proj2 (Z.eqb_neq _ _) N5). destruct (ex_svc x) eqn:Es; eexists;
      (split; [unfold adds; cbn; by rewrite <-?app_assoc|]); right; done.
Qed.

(** C24. An exchange whose messages are confirmed does not stay open: when the core has answered
    a request with "response pending" at some time, and ten seconds later (whatever calls other
    than requests were made in between) the exchange is still open and the transmission of its
    last response-pending message has been confirmed (rcrrpTxConfirm), the next run of the cyclic task either answers the request with a general reject and
    is idle, or, for security access and session control, resets the controller.  The clock
    is assumed not to go back while a response is handed over. *)
Theorem uds_pending_bounded (ops1 ops2 : list (uds_op U)) (buf : option UdsBuf) (len : Z) (w w1 w2 w3 : W) :
  (∀ m s u, now u ≤ now (Uds_CoreCfgSendResponse m s u)) →
  uds_memory w → Forall op_ok ops1 → Forall op_ok ops2 → Forall not_request ops2 → request_ok buf len →
  (Uds_CoreReset;; uds_calls ops1) w = Some (tt, w1) → isBusy (uds w1) = false →
  Uds_ApiDataIndication buf len w1 = Some (tt, w2) →
  uds_calls ops2 w2 = Some (tt, w3) → isBusy (uds w3) = true → rcrrpTxConfirm (uds w3) = true →
  now (uds_up w2) + UDS_RCRRP_LIMIT_MS ≤ now (uds_up w3) →
  ∃ w4 l, Uds_CoreCyclic w3 = Some (tt, w4) ∧ uds_trace w4 = uds_trace w3 ++ l ∧
    (UdsMcuReset ∈ l ∨ isBusy (uds w4) = false ∧ ∃ q, messages l = [([SID_NR; q; RB_UDS_14229_GR], false)]).
Proof using HU.
  intros Hmono Hmem Hok1 Hok2 Hno Hreq E1 Hidle E2 E3 Hbusy Hconf Hlate. pose proof (reached _ _ _ Hmem Hok1 E1) as R1.
  pose proof (uds_request_wp buf len _ _ R1 Hreq) as R2. rewrite (wp_eq _ _ _ _ _ E2) in R2. pose proof (run_wp ops2 _ _ R2 Hok2) as R3. rewrite (wp_eq _ _ _ _ _ E3) in R3.
  rewrite (rel_busy _ _ R1) in Hidle. apply bool_decide_eq_false in Hidle. rewrite <-eq_None_not_Some in Hidle.
  rewrite (rel_busy _ _ R3) in Hbusy. apply bool_decide_eq_true in Hbusy as [x3 Ex3]. pose proof (r_open _ _ R3) as O3. rewrite Ex3 in O3.
  destruct (run_keeps _ _ _ Hno Ex3) as (x2 & Ex2 & Es & El). pose proof (request_limit _ _ _ _ Hmono Hidle Ex2) as Hlim.
  rewrite (b_up _ _ (r_base _ _ R2)), (b_up _ _ (r_base _ _ R3)) in Hlate.
  destruct (late_poll x3 _ Ex3 (o_pend _ _ O3)) as (l & Hl & Hend); [by rewrite <-(o_conf _ _ O3)|rewrite El; lia|].
  destruct (session_adds (a_poll (uds_run ops2 (a_request buf len (uds_run ops1 (uds_start w)))))) as (l' & Hl' & Es' & Ho').
  destruct (wp_run _ _ _ (uds_cyclic_wp _ _ R3)) as ([] & w4 & E4 & R4). exists w4, (l ++ l'). split; [done|]. split.
  { rewrite (b_trace _ _ (r_base _ _ R4)), (b_trace _ _ (r_base _ _ R3)). by apply (adds_trans _ _ _ _ _ Hl). }
  destruct Hend as [Hm|[Esent Eo]]; [left; apply elem_of_app; by left|right]. rewrite (rel_busy _ _ R4). split.
  - apply bool_decide_eq_false, eq_None_not_Some. destruct Ho' as [->|[-> _]]; done.
  - eexists. by rewrite sent_app, Es', app_nil_r.
Qed.

(** While a request is being received the core reports that no tester is active: with the
    session timer running, the start of a reception puts the timer into its idle state
    instead of stopping it, and [rbUds_ApiIsS3Active], which said yes before, says no until the
    request is complete; a second start of a reception turns the answer round again. *)
Theorem uds_reception_looks_inactive (ops : list (uds_op U)) (w w1 : W) (e : Z) :
  uds_memory w → Forall op_ok ops → (Uds_CoreReset;; uds_calls ops) w = Some (tt, w1) →
  deadline (s3Timer (uds w1)) = Some e → now (uds_up w1) < e →
  (∃ w2, rbUds_ApiIsS3Active w1 = Some (true, w2)) ∧
  (∃ w2, (rbUds_ApiRxStarted;; rbUds_ApiIsS3Active) w1 = Some (false, w2)) ∧
  (∃ w2, (rbUds_ApiRxStarted;; rbUds_ApiRxStarted;; rbUds_ApiIsS3Active) w1 = Some (true, w2)).
Proof using HU.
  intros Hmem Hok E1 Hd Hnow. pose proof (reached _ _ _ Hmem Hok E1) as R. set (a := uds_run ops (uds_start w)) in *. destruct (b_s3 _ _ (r_base _ _ R)) as [D _].
  rewrite Hd in D. assert (a_s3 a = TimerEnds e) as Es by (destruct (a_s3 a); cbn in D; congruence). pose proof (b_up _ _ (r_base _ _ R)) as Eu.
  assert (∀ b w', uds_rel b w' → wp rbUds_ApiIsS3Active (λ r _, r = match a_s3 b with TimerIdle => false | TimerStopped => true | TimerEnds e => now (a_up b) <? e end) w') as Hact.
  { intros b w' Rb. eapply wp_mono; [by apply s3_active_wp|]. by intros r w'' [_ Er]. }
  split; [|split].
  - destruct (wp_run _ _ _ (Hact _ _ R)) as (r & w2 & E & ->). rewrite Es, <-Eu, (proj2 (Z.ltb_lt _ _)) in E by done. by exists w2.
  - assert (wp (rbUds_ApiRxStarted;; rbUds_ApiIsS3Active) (λ r _, r = false) w1) as Hw.
    { apply wp_bind. eapply wp_mono; [by apply rx_started_wp|]. intros [] w' R'. eapply wp_mono; [by apply Hact|]. intros r w'' ->. unfold a_rx_started. by rewrite Es. }
    destruct (wp_run _ _ _ Hw) as (r & w2 & E & ->). by exists w2.
  - assert (wp (rbUds_ApiRxStarted;; rbUds_ApiRxStarted;; rbUds_ApiIsS3Active) (λ r _, r = true) w1) as Hw.
    { apply wp_bind. eapply wp_mono; [by apply rx_started_wp|]. intros [] w' R'. apply wp_bind. eapply wp_mono; [by apply rx_started_wp|]. intros [] w'' R''.
      eapply wp_mono; [by apply Hact|]. intros r w3 ->. unfold a_rx_started. by rewrite Es. }
    destruct (wp_run _ _ _ Hw) as (r & w2 & E & ->). by exists w2.
Qed.
End claims.

(** ** A concrete server

    Time in milliseconds, extended session.  Identifier F190 is read at once, F191 takes for
    ever; the other handlers refuse. *)

Definition uds_refusal {U : Type} (u : U) : UdsAns * U := (mkAns 49 [] 0, u).
Definition uds_still_busy (off r n : Z) (u : Z) : UdsAns * Z := (mkAns 120 [] 0, u).
#[export] Instance server_env : Uds_Env Z := {|
  uds_RBD_PK_APP := true; uds_RBD_PK_FBL := false; UDS_BUFFER_SIZE := 64;
  RB_UDS_14229_SID_DSC := 16; RB_UDS_14229_SID_ER := 17; RB_UDS_14229_SID_CDTCI := 20; RB_UDS_14229_SID_RDTCI := 25;
  RB_UDS_14229_SID_RDBI := 34; RB_UDS_14229_SID_SA := 39; RB_UDS_14229_SID_WDBI := 46; RB_UDS_14229_SID_RC := 49;
  RB_UDS_14229_SID_RD := 52; RB_UDS_14229_SID_TD := 54; RB_UDS_14229_SID_RTE := 55; RB_UDS_14229_SID_TP := 62;
  RB_UDS_14229_PR := 0; RB_UDS_14229_RCRRP := 120; RB_UDS_14229_GR := 16; RB_UDS_14229_SNS := 17; RB_UDS_14229_SNSIAS := 127;
  RB_UDS_14229_IMLOIF := 19; RB_UDS_14229_SFNS := 18; RB_UDS_14229_SAD := 51;
  UDS_SESSION_ANY := 255; UDS_SESSION_MASK_DS := 1; UDS_SESSION_MASK_EXTDS := 4; UDS_SESSION_MASK_PRGS := 2; RB_UDS_SECURITY_MASK_ANY := 255;
  RB_UDS_DID_MSB_OFFSET := 0; RB_UDS_DID_LSB_OFFSET := 1; RB_UDS_DID_HDR_LEN := 2;
  RB_UDS_ROUTINE_SUB_FN_OFFSET := 0; RB_UDS_ROUTINE_RID_MSB_OFFSET := 1; RB_UDS_ROUTINE_RID_LSB_OFFSET := 2; RB_UDS_ROUTINE_HDR_LEN := 3;
  rbUds_Make16Bit h l := 256 * h + l; rbUds_Make32Bit a b c d := 16777216 * a + 65536 * b + 256 * c + d;
  rbUds_SessionGetState _ := 4; rbUds_SecurityGetLevel _ := 1; rbUds_SessionS3TimerExpiredReset u := u;
  rbUds_RoutineClearStateinfo u := u; rbUds_DidReadClearStateinfo u := u; rbUds_WriteDidClearStateinfo u := u; Mcu_PerformReset u := u;
  uds_PwrReq_GetID u := (3, u); uds_PwrReq_RequestService _ u := u; uds_PwrReq_ReleaseService _ u := u; Uds_CoreCfgSendResponse _ _ u := u;
  rbUds_DidRead d u := if d =? 61840 then (mkAns 0 [1; 2; 3] 3, u) else if d =? 61841 then (mkAns 120 [] 0, u) else uds_refusal u;
  rbUds_DidWrite _ _ _ := uds_refusal; rbUds_Routine _ _ _ _ := uds_refusal; rbUds_DtcRead _ _ _ := uds_refusal; rbUds_DtcClearCfgClear _ u := (49, u);
  rbUds_Session _ := uds_refusal; rbUds_Security _ _ _ := uds_refusal; rbUds_RequestDownloadCfg _ _ _ _ u := (49, u);
  rbUds_TransferDataCfg _ _ _ := uds_refusal; rbUds_TransferExitCfg _ _ := uds_refusal; rbUds_EcuReset _ u := (49, u);
  rbUds_SessionCfgPendingCallback := uds_still_busy; rbUds_DtcClearCfgClearIsComplete := uds_still_busy; rbUds_DidReadPendingCallback := uds_still_busy;
  rbUds_SecurityPendingCallback := uds_still_busy; rbUds_DidWritePendingCallback := uds_still_busy; rbUds_RoutinePendingCallback := uds_still_busy;
  rbUds_RequestDownloadCfgCallback := uds_still_busy; rbUds_TransferDataCfgCallback := uds_still_busy; rbUds_TransferExitCfgCallback := uds_still_busy
|}.
#[export] Instance server_timer : ElTime EndTimer Z := end_timer id.
#[export] Instance server_time : ElTimeLaws EndTimer Z := end_timer_laws id.
#[export] Instance server_laws : UdsLaws Z.
Proof.
  split; try done; try (intros; intros u; cbn; done); try (repeat constructor; done).
  - by intros [].
  - by intros [] [].
  - apply (bool_decide_unpack _). by vm_compute.
  - intros d u. cbn. destruct (d =? 61840); [done|]. by destruct (d =? 61841).
  - intros [] f off r n; cbn; try done; intros [= <-] Hoff u; cbn in *; split; try done; unfold lenZ; cbn; lia.
Defined.

Definition server_memory : UdsWorld EndTimer Z :=
  mkUdsWorld (mkUds true true true 0 TimerStopped TimerIdle 0 0 9 (replicate 64 0) [0; 0; 0] TimerIdle) 3 0 [].
(** A request for identifier F1[n]. *)
Definition server_read (n : Z) : uds_op Z := ORequest (Some (mkBuf 4096 [34; 241; n])) 3.
Lemma server_read_ok n : op_ok (server_read n).
Proof. split; [done|]. cbn. unfold lenZ. cbn. lia. Qed.

(** One identifier is read at once, a second time with a request that is too long, a third
    one is ignored while the exchange for F191 is open. *)
Lemma uds_refines_witness :
  ∃ w', (Uds_CoreReset;; uds_calls [server_read 144; ORequest (Some (mkBuf 0 [34; 241; 144; 0])) 4; server_read 145; server_read 144]) server_memory = Some (tt, w') ∧
    messages (uds_trace w') = [([98; 241; 144; 1; 2; 3], false); ([127; 34; 19], false); ([127; 34; 120], false)] ∧ isBusy (uds w') = true.
Proof.
  assert (Forall op_ok [server_read 144; ORequest (Some (mkBuf 0 [34; 241; 144; 0])) 4; server_read 145; server_read 144]) as Hok by (repeat constructor; cbn; try done; unfold lenZ; cbn; lia).
  destruct (uds_refines _ server_memory ltac:(done) Hok) as (w' & E & Et & _ & Eb). exists w'. split; [exact E|]. rewrite Et, Eb. split; vm_compute; reflexivity.
Defined.

Lemma uds_control_block_wf_witness :
  ∃ w', (Uds_CoreReset;; uds_calls [server_read 145; OTxConfirmation; OCyclic]) server_memory = Some (tt, w') ∧ control_block_ok (uds w').
Proof. apply (uds_control_block_wf [server_read 145; OTxConfirmation; OCyclic]); [done|]. repeat constructor; cbn; try done; unfold lenZ; cbn; lia. Defined.

(** An empty request ends the open exchange. *)
Lemma uds_exchanges_witness :
  ∃ w1 w2 l, (Uds_CoreReset;; uds_calls [server_read 145; OTxConfirmation]) server_memory = Some (tt, w1) ∧ op_code (ORequest (Some (mkBuf 0 [])) 0) w1 = Some (tt, w2) ∧
    uds_trace w2 = uds_trace w1 ++ l ∧ isBusy (uds w1) = true ∧ messages l = [([127; 0; 16], false)] ∧ isBusy (uds w2) = false.
Proof.
  assert (Forall op_ok [server_read 145; OTxConfirmation]) as Hok by (repeat constructor; cbn; try done; unfold lenZ; cbn; lia).
  assert (op_ok (ORequest (U := Z) (Some (mkBuf 0 [])) 0)) as Hop by done.
  destruct (uds_exchanges _ _ server_memory ltac:(done) Hok Hop) as (w1 & w2 & l & E1 & E2 & El & Hm & Hb). exists w1, w2, l.
  split; [exact E1|]. split; [exact E2|]. split; [exact El|]. split; [|split; [exact Hm|exact Hb]]. vm_compute in E1. injection E1 as <-. reflexivity.
Defined.

Definition server_late : list (uds_op Z) := [OTxConfirmation; OEnv (λ u, u + 10000)].
Definition server_world (ops : list (uds_op Z)) : UdsWorld EndTimer Z :=
  match (Uds_CoreReset;; uds_calls ops) server_memory with Some (_, w) => w | None => server_memory end.

Lemma uds_pending_bounded_witness :
  ∃ w4 l, Uds_CoreCyclic (server_world [server_read 145; OTxConfirmation; OEnv (λ u, u + 10000)]) = Some (tt, w4) ∧
    uds_trace w4 = uds_trace (server_world [server_read 145; OTxConfirmation; OEnv (λ u, u + 10000)]) ++ l ∧
    (UdsMcuReset ∈ l ∨ isBusy (uds w4) = false ∧ ∃ q, messages l = [([SID_NR; q; RB_UDS_14229_GR], false)]).
Proof.
  apply (uds_pending_bounded [] server_late (Some (mkBuf 4096 [34; 241; 145])) 3 server_memory (server_world []) (server_world [server_read 145]));
    [intros m s u; apply Z.le_refl|done|constructor|repeat constructor|repeat constructor|apply (server_read_ok 145)|vm_compute; reflexivity..|vm_compute; discriminate].
Defined.

Lemma uds_reception_looks_inactive_witness :
  (∃ w2, rbUds_ApiIsS3Active (server_world [server_read 144]) = Some (true, w2)) ∧
  (∃ w2, (rbUds_ApiRxStarted;; rbUds_ApiIsS3Active) (server_world [server_read 144]) = Some (false, w2)) ∧
  (∃ w2, (rbUds_ApiRxStarted;; rbUds_ApiRxStarted;; rbUds_ApiIsS3Active) (server_world [server_read 144]) = Some (true, w2)).
Proof.
  apply (uds_reception_looks_inactive [server_read 144] server_memory _ 5000); [done| |vm_compute; reflexivity..].
  repeat constructor; cbn; try done; unfold lenZ; cbn; lia.
Defined.
