(* ===== verification/Protothread.v ===== *)
(** * Protothreads

    CanSpi.c is written as protothreads: functions that give up the processor at marked
    points and go on from there in the next call.  Their macros (pt.h) are not part of the
    repository; they are read as their comments in CanSpi.c say: PT_YIELD gives up the
    processor once, PT_WAIT_UNTIL as long as its condition fails and not at all if it holds at
    first, PT_YIELD_UNTIL at least once; PT_GOSUB runs another thread to its end, PT_EXIT ends
    a thread, and the main thread begins again in the call after its end.

    A thread is an interaction tree whose events are the atomic pieces of code, in the monad
    of the C functions, and the yields.  [pt_next] is its execution: at a yield the rest of
    the program changes the world, as far as the rely relation allows.  [pwp] is a program
    logic for it, by steps, so that endless loops need no coinduction. *)

From S2P Require Import Prelude.
From stdpp Require Import base list numbers option relations.
From ITree Require Import ITree.

#[local] Open Scope Z_scope.

Inductive ptE (W : Type) : Type → Type :=
| PtAct {R : Type} (m : M W R) : ptE W R
| PtYield : ptE W unit.
Arguments PtAct {W R} m.
Arguments PtYield {W}.

Definition pt (W A : Type) : Type := itree (ptE W) A.
#[global] Instance pt_ret {W} : MRet (pt W) := λ A a, Ret a.
#[global] Instance pt_bind {W} : MBind (pt W) := λ A B k t, ITree.bind t k.
#[global] Typeclasses Opaque pt.

Section macros.
Context {W : Type}.
(** A piece of code without a yield. *)
Definition act {R : Type} (m : M W R) : pt W R := ITree.trigger (PtAct m).
Definition PT_YIELD : pt W unit := ITree.trigger PtYield.
Definition PT_WAIT_UNTIL (c : M W bool) : pt W unit :=
  ITree.iter (λ _, b ← act c; if b : bool then mret (inr tt) else PT_YIELD;; mret (inl tt)) tt.
Definition PT_YIELD_UNTIL (c : M W bool) : pt W unit :=
  ITree.iter (λ _, PT_YIELD;; b ← act c; mret (if b : bool then inr tt else inl tt)) tt.
(** [RBD_FOREVER] with a body that says whether to leave the loop. *)
Definition RBD_FOREVER {A : Type} (body : pt W (option A)) : pt W A :=
  ITree.iter (λ _, r ← body; mret (match r with Some a => inr a | None => inl tt end)) tt.
(** A thread that begins again in the call after its end. *)
Definition pt_thread (body : pt W unit) : pt W unit := ITree.iter (λ _, body;; PT_YIELD;; mret (inl tt)) tt.
End macros.

(** ** Execution *)

Section exec.
Context {W : Type} (rely : W → W → Prop).

Definition pt_next {A : Type} (c c' : pt W A * W) : Prop :=
  match observe (fst c) with
  | RetF _ => False
  | TauF t => c' = (t, snd c)
  | VisF e k =>
      match e in ptE _ R return (R → itree (ptE W) A) → Prop with
      | PtAct m => λ k, ∃ r w, m (snd c) = Some (r, w) ∧ c' = (k r, w)
      | PtYield => λ k, ∃ w, rely (snd c) w ∧ c' = (k tt, w)
      end k
  end.

(** The thread has given up the processor. *)
Definition at_yield {A : Type} (t : pt W A) : Prop :=
  match observe t with VisF e _ => match e with PtYield => True | _ => False end | _ => False end.
(** The next piece of code has no defined result. *)
Definition pt_stuck {A : Type} (c : pt W A * W) : Prop :=
  match observe (fst c) with VisF e _ => match e with PtAct m => m (snd c) = None | PtYield => False end | _ => False end.
End exec.

(** Running a thread up to its next yield, with at most [n] pieces of code. *)
Fixpoint pt_call {W A : Type} (n : nat) (t : pt W A) (w : W) : option (pt W A * W) :=
  match n with
  | O => None
  | S n =>
      match observe t with
      | RetF _ => None
      | TauF t => pt_call n t w
      | VisF e k =>
          match e in ptE _ R return (R → itree (ptE W) A) → option (pt W A * W) with
          | PtAct m => λ k, match m w with Some (r, w') => pt_call n (k r) w' | None => None end
          | PtYield => λ k, Some (k tt, w)
          end k
      end
  end.

Lemma observe_bind {W A B : Type} (t : pt W A) (k : A → pt W B) :
  observe (ITree.bind t k) =
    match observe t with RetF r => observe (k r) | TauF t => TauF (ITree.bind t k) | VisF e ke => VisF e (λ x, ITree.bind (ke x) k) end.
Proof.
  change (observe (ITree.bind t k)) with
    (observe (match observe t with RetF r => k r | TauF t => Tau (ITree.bind t k) | VisF e ke => Vis e (λ x, ITree.bind (ke x) k) end)).
  by destruct (observe t).
Qed.

(** ** A program logic *)

Section logic.
Context {W : Type} (rely : W → W → Prop) (G : W → Prop).

(** For [n] steps every piece of code is defined, [G] holds at every yield, and [Q] at the end. *)
Fixpoint wpn {A : Type} (n : nat) (t : pt W A) (Q : A → W → Prop) (w : W) : Prop :=
  match n with
  | O => True
  | S n =>
      match observe t with
      | RetF a => Q a w
      | TauF t => wpn n t Q w
      | VisF e k =>
          match e in ptE _ R return (R → itree (ptE W) A) → Prop with
          | PtAct m => λ k, wp m (λ r w', wpn n (k r) Q w') w
          | PtYield => λ k, G w ∧ ∀ w', rely w w' → wpn n (k tt) Q w'
          end k
      end
  end.
Definition pwp {A : Type} (t : pt W A) (Q : A → W → Prop) (w : W) : Prop := ∀ n, wpn n t Q w.

Lemma wpn_mono {A} n (t : pt W A) (P Q : A → W → Prop) w : wpn n t P w → (∀ a w', P a w' → Q a w') → wpn n t Q w.
Proof.
  intros H HQ. revert t w H. induction n as [|n IH]; intros t w; cbn; [done|]. destruct (observe t) as [a|t'|R e k]; [auto..|].
  destruct e; cbn; [intros H; eapply wp_mono; [exact H|]; auto|]. intros [HG H]. auto.
Qed.

Lemma wpn_down {A} n m (t : pt W A) Q w : (m ≤ n)%nat → wpn n t Q w → wpn m t Q w.
Proof.
  revert m t w. induction n as [|n IH]; intros [|m] t w Hm; cbn; try done; [lia|]. assert (m ≤ n)%nat as Hm' by lia.
  destruct (observe t) as [a|t'|R e k]; [done|by apply IH|]. destruct e; [|intros [HG H]; split; [done|]; intros w' Hw; by apply IH, H].
  intros H. eapply wp_mono; [exact H|]. intros r w'. by apply IH.
Qed.

Lemma wpn_bind {A B} n (t : pt W A) (k : A → pt W B) Q w : wpn n t (λ a, wpn n (k a) Q) w → wpn n (t ≫= k) Q w.
Proof.
  revert t w. induction n as [|n IH]; intros t w; [done|]. unfold mbind, pt_bind in *. cbn [wpn].
  rewrite observe_bind.
  assert (∀ t' w', wpn n t' (λ a, wpn (S n) (k a) Q) w' → wpn n (ITree.bind t' k) Q w') as Hstep.
  { intros t' w' Ht. apply IH. eapply wpn_mono; [exact Ht|]. intros a w''. apply wpn_down. lia. }
  destruct (observe t) as [a|t'|R e ke]; [done|by apply Hstep|].
  destruct e; [|intros [HG H]; split; [done|]; intros; apply Hstep; auto]. intros H. eapply wp_mono; [exact H|]. intros r w'. apply Hstep.
Qed.

Lemma pwp_ret {A} (a : A) (Q : A → W → Prop) w : Q a w → pwp (mret a) Q w.
Proof. by intros H [|n]. Qed.
Lemma pwp_mono {A} (t : pt W A) (P Q : A → W → Prop) w : pwp t P w → (∀ a w', P a w' → Q a w') → pwp t Q w.
Proof. intros H HQ n. by eapply wpn_mono. Qed.
Lemma pwp_bind {A B} (t : pt W A) (k : A → pt W B) Q w : pwp t (λ a, pwp (k a) Q) w → pwp (t ≫= k) Q w.
Proof. intros H n. apply wpn_bind. eapply wpn_mono; [apply H|]. intros a w' Hk. apply Hk. Qed.
Lemma pwp_act {R} (m : M W R) (Q : R → W → Prop) w : wp m Q w → pwp (act m) Q w.
Proof. intros H [|[|n]]; cbn; [done|by eapply wp_mono|]. by eapply wp_mono. Qed.
Lemma pwp_yield (Q : unit → W → Prop) w : G w → (∀ w', rely w w' → Q tt w') → pwp PT_YIELD Q w.
Proof. intros HG H [|[|n]]; cbn; [done|by split|]. split; [done|]. intros w' Hw. by apply H. Qed.

(** An invariant of the body is one of the loop. *)
Lemma pwp_iter {X A} (body : X → pt W (X + A)) (I : X → W → Prop) (Q : A → W → Prop) x w :
  (∀ x w, I x w → pwp (body x) (λ r w', match r with inl y => I y w' | inr a => Q a w' end) w) → I x w → pwp (ITree.iter body x) Q w.
Proof.
  intros Hb HI n. revert x w HI. induction n as [n IH] using lt_wf_ind. intros x w HI.
  assert (wpn n (ITree.bind (body x) (λ lr, match lr with inl l => Tau (ITree.iter body l) | inr r => Ret r end)) Q w) as H.
  { apply wpn_bind. eapply wpn_mono; [by apply Hb|]. intros [y|a] w' Hw; destruct n as [|n]; cbn; try done. apply IH; [lia|done]. }
  destruct n as [|n]; [done|]. cbn [wpn] in *. exact H.
Qed.

Lemma pwp_wait_until (c : M W bool) (I : W → Prop) (Q : unit → W → Prop) w :
  I w → (∀ w, I w → wp c (λ b w', if b : bool then Q tt w' else G w' ∧ ∀ w'', rely w' w'' → I w'') w) → pwp (PT_WAIT_UNTIL c) Q w.
Proof.
  intros HI Hc. apply (pwp_iter _ (λ _, I)); [|done]. intros [] w1 H1. apply pwp_bind, pwp_act. eapply wp_mono; [by apply Hc|].
  intros [] w2 H2; [by apply pwp_ret|]. destruct H2 as [HG H2]. apply pwp_bind, pwp_yield; [done|]. intros w3 H3. apply pwp_ret. auto.
Qed.
Lemma pwp_yield_until (c : M W bool) (I : W → Prop) (Q : unit → W → Prop) w :
  I w → (∀ w, I w → G w) → (∀ w w', I w → rely w w' → wp c (λ b w'', if b : bool then Q tt w'' else I w'') w') → pwp (PT_YIELD_UNTIL c) Q w.
Proof.
  intros HI HG Hc. apply (pwp_iter _ (λ _, I)); [|done]. intros [] w1 H1. apply pwp_bind, pwp_yield; [auto|]. intros w2 H2.
  apply pwp_bind, pwp_act. eapply wp_mono; [by apply (Hc w1)|]. intros [] w3 H3; by apply pwp_ret.
Qed.
Lemma pwp_forever {A} (body : pt W (option A)) (I : W → Prop) (Q : A → W → Prop) w :
  I w → (∀ w, I w → pwp body (λ r w', match r with Some a => Q a w' | None => I w' end) w) → pwp (RBD_FOREVER body) Q w.
Proof.
  intros HI Hb. apply (pwp_iter _ (λ _, I)); [|done]. intros [] w1 H1. apply pwp_bind. eapply pwp_mono; [by apply Hb|]. intros [a|] w2 H2; by apply pwp_ret.
Qed.
Lemma pwp_thread (body : pt W unit) (I : W → Prop) (Q : unit → W → Prop) w :
  I w → (∀ w, I w → pwp body (λ _ w', G w' ∧ ∀ w'', rely w' w'' → I w'') w) → pwp (pt_thread body) Q w.
Proof.
  intros HI Hb. apply (pwp_iter _ (λ _, I)); [|done]. intros [] w1 H1. apply pwp_bind. eapply pwp_mono; [by apply Hb|]. intros [] w2 [HG H2].
  apply pwp_bind, pwp_yield; [done|]. intros w3 H3. apply pwp_ret. auto.
Qed.

(** The logic speaks about the execution. *)
Lemma pwp_next {A} (t t' : pt W A) Q w w' : pwp t Q w → pt_next rely (t, w) (t', w') → pwp t' Q w'.
Proof.
  intros H Hn n. specialize (H (S n)). unfold pt_next in Hn. cbn in *. destruct (observe t) as [a|t1|R e k]; [done|by injection Hn as -> ->|].
  destruct e.
  - destruct Hn as (r & w1 & E & Hc). injection Hc as -> ->. exact (proj1 (wp_eq _ _ _ _ _ E) H).
  - destruct Hn as (w1 & Hr & Hc). injection Hc as -> ->. by apply H.
Qed.
Lemma pwp_safe {A} (t t' : pt W A) Q w w' :
  pwp t Q w → rtc (pt_next rely) (t, w) (t', w') → (at_yield t' → G w') ∧ ¬ pt_stuck (t', w').
Proof.
  intros H Hs. remember (t, w) as c eqn:Ec. remember (t', w') as c' eqn:Ec'. revert t w Ec H. induction Hs as [c|c c1 c2 Hn Hs IH]; intros t w -> H.
  - injection Ec' as <- <-. specialize (H 1%nat). unfold at_yield, pt_stuck. cbn in *. destruct (observe t) as [a|t1|R e k]; [by split; intros []..|].
    destruct e; cbn in *; [|split; [intros _; by destruct H|by intros []]]. split; [by intros []|]. intros E. destruct (wp_run _ _ _ H) as (r & w1 & E' & _). congruence.
  - destruct c1 as [t1 w1]. eapply (IH Ec'); [done|]. by eapply pwp_next.
Qed.
End logic.

(** ** Runs without a yield *)

(** Running a thread to its end, if it does not give up the processor before. *)
Fixpoint pt_run {W A : Type} (n : nat) (t : pt W A) (w : W) : option (A * W) :=
  match n with
  | O => None
  | S n =>
      match observe t with
      | RetF a => Some (a, w)
      | TauF t => pt_run n t w
      | VisF e k =>
          match e in ptE _ R return (R → itree (ptE W) A) → option (A * W) with
          | PtAct m => λ k, match m w with Some (r, w') => pt_run n (k r) w' | None => None end
          | PtYield => λ _, None
          end k
      end
  end.

(** The thread ends in this call with [a]. *)
Definition runs {W A : Type} (t : pt W A) (w : W) (a : A) (w' : W) : Prop := ∃ n, pt_run n t w = Some (a, w').
(** The thread gives up the processor in this call and has [t'] left to do. *)
Definition calls {W A : Type} (t : pt W A) (w : W) (t' : pt W A) (w' : W) : Prop := ∃ n, pt_call n t w = Some (t', w').

Section runs.
Context {W : Type}.

Lemma runs_ret {A} (a : A) (w : W) : runs (mret a) w a w.
Proof. by exists 1%nat. Qed.
Lemma runs_act {R} (m : M W R) w r w' : m w = Some (r, w') → runs (act m) w r w'.
Proof. intros E. exists 2%nat. cbn. by rewrite E. Qed.
Lemma runs_act_wp {R} (m : M W R) (Q : R → W → Prop) w : wp m Q w → ∃ r w', runs (act m) w r w' ∧ Q r w'.
Proof. intros H. destruct (wp_run _ _ _ H) as (r & w' & E & HQ). exists r, w'. split; [by apply runs_act|done]. Qed.

Lemma runs_bind {A B} (t : pt W A) (k : A → pt W B) w a w1 b w2 : runs t w a w1 → runs (k a) w1 b w2 → runs (t ≫= k) w b w2.
Proof.
  intros [n Hn] [m Hm]. revert t w Hn. induction n as [|n IH]; intros t w; [done|]. cbn [pt_run]. intros E.
  destruct (observe t) as [a'|t'|R e ke] eqn:Eo.
  - injection E as -> ->. exists m. destruct m as [|m]; [done|]. cbn [pt_run] in *. unfold mbind, pt_bind. by rewrite observe_bind, Eo.
  - destruct (IH _ _ E) as [j Hj]. exists (S j). cbn [pt_run]. unfold mbind, pt_bind. by rewrite observe_bind, Eo.
  - destruct e as [R m'|]; [|done]. destruct (m' w) as [[r w']|] eqn:Em; [|done]. destruct (IH _ _ E) as [j Hj]. exists (S j). cbn [pt_run]. unfold mbind, pt_bind.
    by rewrite observe_bind, Eo, Em.
Qed.
Lemma runs_calls {A B} (t : pt W A) (k : A → pt W B) w a w1 t' w2 : runs t w a w1 → calls (k a) w1 t' w2 → calls (t ≫= k) w t' w2.
Proof.
  intros [n Hn] [m Hm]. revert t w Hn. induction n as [|n IH]; intros t w; [done|]. cbn [pt_run]. intros E.
  destruct (observe t) as [a'|t1|R e ke] eqn:Eo.
  - injection E as -> ->. exists m. destruct m as [|m]; [done|]. cbn [pt_call] in *. unfold mbind, pt_bind. by rewrite observe_bind, Eo.
  - destruct (IH _ _ E) as [j Hj]. exists (S j). cbn [pt_call]. unfold mbind, pt_bind. by rewrite observe_bind, Eo.
  - destruct e as [R m'|]; [|done]. destruct (m' w) as [[r w']|] eqn:Em; [|done]. destruct (IH _ _ E) as [j Hj]. exists (S j). cbn [pt_call]. unfold mbind, pt_bind.
    by rewrite observe_bind, Eo, Em.
Qed.
Lemma calls_bind {A B} (t : pt W A) (k : A → pt W B) w t' w' : calls t w t' w' → calls (t ≫= k) w (t' ≫= k) w'.
Proof.
  intros [n Hn]. exists n. revert t w Hn. induction n as [|n IH]; intros t w; [done|]. cbn [pt_call]. unfold mbind, pt_bind in *. rewrite observe_bind.
  destruct (observe t) as [a|t1|R e ke]; [done|apply IH|]. destruct e as [R m|]; [destruct (m w) as [[r w1]|]; [apply IH|done]|]. intros E. by injection E as <- <-.
Qed.
Lemma calls_yield (w : W) : calls PT_YIELD w (mret tt) w.
Proof. by exists 1%nat. Qed.

(** A loop runs like its body followed by the rest of the loop. *)
Lemma runs_iter {X A} (body : X → pt W (X + A)) x w a w' :
  runs (ITree.bind (body x) (λ lr, match lr with inl l => Tau (ITree.iter body l) | inr r => Ret r end)) w a w' → runs (ITree.iter body x) w a w'.
Proof. intros [n Hn]. exists n. destruct n as [|n]; [done|exact Hn]. Qed.
Lemma calls_iter {X A} (body : X → pt W (X + A)) x w (t : pt W A) w' :
  calls (ITree.bind (body x) (λ lr, match lr with inl l => Tau (ITree.iter body l) | inr r => Ret r end)) w t w' → calls (ITree.iter body x) w t w'.
Proof. intros [n Hn]. exists n. destruct n as [|n]; [done|exact Hn]. Qed.
Lemma runs_iter_end {X A} (body : X → pt W (X + A)) x w a w' : runs (body x) w (inr a) w' → runs (ITree.iter body x) w a w'.
Proof. intros H. apply runs_iter. eapply (runs_bind (body x)); [exact H|]. by exists 1%nat. Qed.
Lemma runs_wait (c : M W bool) w w' : c w = Some (true, w') → runs (PT_WAIT_UNTIL c) w tt w'.
Proof. intros E. apply runs_iter_end. eapply runs_bind; [by apply runs_act|]. apply runs_ret. Qed.
Lemma runs_forever {A} (body : pt W (option A)) w a w' : runs body w (Some a) w' → runs (RBD_FOREVER body) w a w'.
Proof. intros H. apply runs_iter_end. eapply runs_bind; [exact H|]. apply runs_ret. Qed.
Lemma calls_forever {A} (body : pt W (option A)) w t' w' : calls body w t' w' → ∃ t, calls (RBD_FOREVER body) w t w'.
Proof. intros H. eexists. apply calls_iter. eapply (calls_bind (_ ≫= _)), calls_bind, H. Qed.
Lemma calls_thread (body : pt W unit) w t' w' : calls body w t' w' → ∃ t, calls (pt_thread body) w t w'.
Proof. intros H. eexists. apply calls_iter. eapply (calls_bind (_ ≫= _)), calls_bind, H. Qed.
(** Behind [PT_YIELD_UNTIL] the thread ends in the next call if the condition holds then. *)
Lemma calls_yield_until (c : M W bool) w : ∃ t, calls (PT_YIELD_UNTIL c) w t w ∧ ∀ w1 w2, c w1 = Some (true, w2) → runs t w1 tt w2.
Proof.
  eexists. split; [apply calls_iter; eapply (calls_bind (_ ≫= _)), calls_bind, calls_yield|].
  intros w1 w2 E. eapply (runs_bind (_ ≫= _)); [eapply runs_bind; [apply runs_ret|]; eapply runs_bind; [by apply runs_act|]; apply runs_ret|]. apply runs_ret.
Qed.

(** A call is an execution to a point where the thread has given up the processor. *)
Lemma call_exec {A} rely n (t : pt W A) w w' : snd <$> pt_call n t w = Some w' → ∃ t', rtc (pt_next rely) (t, w) (t', w') ∧ at_yield t'.
Proof.
  revert t w. induction n as [|n IH]; intros t w; [done|]. cbn [pt_call]. destruct (observe t) as [a|t1|R e ke] eqn:Eo; [done|..].
  - intros E. destruct (IH _ _ E) as (t' & Hs & Hy). exists t'. split; [|done]. eapply rtc_l; [|exact Hs]. unfold pt_next. cbn. by rewrite Eo.
  - destruct e as [R m|].
    + destruct (m w) as [[r w1]|] eqn:Em; [|done]. intros E. destruct (IH _ _ E) as (t' & Hs & Hy). exists t'. split; [|done]. eapply rtc_l; [|exact Hs]. unfold pt_next. cbn. rewrite Eo. by exists r, w1.
    + intros E. injection E as <-. exists t. split; [done|]. unfold at_yield. by rewrite Eo.
Qed.
End runs.
