(* ===== verification/CanSpi.v ===== *)
(** * CanSpi: initialisation and supervision of the CAN controller chip (CanSpi.c)

    The module brings up the TCAN4550, which is attached by SPI, polls its health, stops the
    CAN interface while the chip is not available and puts it to sleep on request.  It is a
    protothread (file Protothread) with the functions of CanSpi.c as sub-threads; the
    functions that other modules call are plain functions.  Registers are read and written
    in frames of eight bytes, modelled as bytes with the byte swaps of the code.  SPI driver,
    CAN driver, CanIf, CanSM, watchdog, power and voltage services are the class
    [CanSpi_Env]; log output has no effect and is left out. *)

From S2P Require Import Prelude ComStack Protothread.
From stdpp Require Import base list numbers option.

#[local] Open Scope Z_scope.

Definition CANSPI_DEVID_RETRIES_MAX : nat := 100.
Definition CANSPI_INIT_RETRIES_MAX : nat := 2.
Definition CANSPI_RESET_DELAY_MS : Z := 2.
Definition CANSPI_API_CYCLIC : Z := 2.
Definition CANSPI_ERR_INIT : Z := 2.

Inductive nCANSPIteState := CANSPI_INITSTATE_PWRON | CANSPI_INITSTATE_INIT | CANSPI_INITSTATE_FAULT | CANSPI_INITSTATE_READY.
#[global] Instance nCANSPIteState_eq_dec : EqDecision nCANSPIteState.
Proof. solve_decision. Defined.
Inductive nCANSPIteFastSleep := nCANSPIkeFS_None | nCANSPIkeFS_Request | nCANSPIkeFS_Complete.
#[global] Instance nCANSPIteFastSleep_eq_dec : EqDecision nCANSPIteFastSleep.
Proof. solve_decision. Defined.

(** The registers that are used, and the op-codes. *)
Definition TCANRAkeDevID0 : Z := 0.
Definition TCANRAkeTCANVer : Z := 8.
Definition TCANRAkeIrqFlags : Z := 2080.
Definition TCANRAkeCREL : Z := 4096.
Definition TCANRAkeENDN : Z := 4100.
Definition TCANRAkeDBTP : Z := 4108.
Definition TCANOPkeRead : Z := 65.
Definition TCANOPkeWrite : Z := 97.

(** Bits of nTCAN4550tuIrqFlags. *)
Definition TSD (lw : Z) : bool := Z.testbit lw 19.
Definition PWRON (lw : Z) : bool := Z.testbit lw 20.
Definition UVIO (lw : Z) : bool := Z.testbit lw 21.
Definition UVSUP (lw : Z) : bool := Z.testbit lw 22.
(** TSD, PWRON, UVIO and UVSUP. *)
Definition kuTxClrErr : Z := 7864320.

(** The state variables of the CAN and transceiver drivers this module reads and resets. *)
Inductive TcanDriverState := CAN_44_TCAN4x5x_UNINIT | CAN_44_TCAN4x5x_READY | CAN_44_TCAN4x5x_OTHER.
Inductive TrcvInitState := CANTRCV_44_TCAN4x5x_UNINIT | CANTRCV_44_TCAN4x5x_INIT.
#[global] Instance TcanDriverState_eq_dec : EqDecision TcanDriverState.
Proof. solve_decision. Defined.
#[global] Instance TrcvInitState_eq_dec : EqDecision TrcvInitState.
Proof. solve_decision. Defined.
Inductive TrcvMode := CANTRCV_TRCVMODE_NORMAL | CANTRCV_TRCVMODE_SLEEP.
Inductive CtrlMode := SPI_CANIF_CS_STARTED | SPI_CANIF_CS_STOPPED | SPI_CANIF_CS_SLEEP.

(** What the module does to its neighbours. *)
Inductive CanSpi_Event :=
| SpiFrame (tx rx : list Z)
| SpiResetPin (high : bool)
| SpiInitTcan (st : TcanDriverState)
| SpiInitTrcv (st : TrcvInitState)
| SpiTrcvMode (id : Z) (mode : TrcvMode) (r : Std_ReturnType)
| SpiCtrlMode (id : Z) (mode : CtrlMode)
| SpiBusOff (id : Z)
| SpiCpuDelay (loops : Z)
| SpiWdg (running : bool)
| SpiDet (api error : Z)
| SpiIrq.

Record CanSpiWorld (U : Type) := mkSpi {
  nCANSPIlwTimer : Z;
  nCANSPIeState : nCANSPIteState;
  nCANSPIbPwrReqID : Z;
  nCANSPIeFastSleep : nCANSPIteFastSleep;
  Can_44_TCAN4x5x_DriverState : TcanDriverState;
  CanTrcv_44_TCAN4x5x_TrcvInitState : TrcvInitState;
  spi_pin_high : bool;
  spi_no_sleep : bool;
  spi_up : U;
  spi_trace : list CanSpi_Event
}.
Arguments mkSpi {U} _ _ _ _ _ _ _ _ _ _.
Arguments nCANSPIlwTimer {U} _.
Arguments nCANSPIeState {U} _.
Arguments nCANSPIbPwrReqID {U} _.
Arguments nCANSPIeFastSleep {U} _.
Arguments Can_44_TCAN4x5x_DriverState {U} _.
Arguments CanTrcv_44_TCAN4x5x_TrcvInitState {U} _.
Arguments spi_pin_high {U} _.
Arguments spi_no_sleep {U} _.
Arguments spi_up {U} _.
Arguments spi_trace {U} _.

(** [spi_transfer] is Spi_SyncTransmit with the buffers set up before; [PT_DELAY_START] is the
    value the macro stores in its timer, [PT_DELAY_CHK_EXPIRED] its test. *)
Class CanSpi_Env (U : Type) := {
  DET_PRINTF : bool;
  spi_CanIfCtrlId : Z; spi_CanIfTrcvId : Z;
  PT_MS_TO_TICKS : Z → Z;
  PT_DELAY_START : U → Z;
  PT_DELAY_CHK_EXPIRED : Z → Z → U → bool;
  spi_PwrReq_GetID : U → Z * U; spi_PwrReq_RequestService : Z → U → U; spi_PwrReq_ReleaseService : Z → U → U;
  Spi_SetupEB : U → bool * U;
  spi_transfer : list Z → U → list Z * U;
  undervoltage : U → bool;
  CanSM_in_wake : U → bool;
  Can_44_TCAN4x5x_Init : U → TcanDriverState * U;
  CanTrcv_44_TCAN4x5x_Init : U → TrcvInitState * U;
  spi_CanIf_SetTrcvMode : Z → TrcvMode → U → Std_ReturnType * U;
  spi_CanIf_SetControllerMode : Z → CtrlMode → U → U;
  spi_CanIf_ControllerBusOff : Z → U → U;
  Can_44_TCAN4x5x_HasPendingISR : U → bool;
  Can_44_TCAN4x5x_Irq_Handler : U → U;
  WdgMgr_Resume : U → U; WdgMgr_Stop : U → U;
  cpu_freq_lo : U → Z;
  CPUdelay : Z → U → U
}.

Section CanSpi.
Context {U : Type} `{HE : CanSpi_Env U}.
Abbreviation W := (CanSpiWorld U).

(** ** Primitives *)

Definition spi_call {R : Type} (f : U → R * U) : M W R := λ w,
  let '(r, u) := f (spi_up w) in
  Some (r, mkSpi (nCANSPIlwTimer w) (nCANSPIeState w) (nCANSPIbPwrReqID w) (nCANSPIeFastSleep w) (Can_44_TCAN4x5x_DriverState w)
             (CanTrcv_44_TCAN4x5x_TrcvInitState w) (spi_pin_high w) (spi_no_sleep w) u (spi_trace w)).
Definition spi_call_ (f : U → U) : M W unit := spi_call (λ u, (tt, f u)).
Definition spi_ev (e : CanSpi_Event) : M W unit := modify (λ w,
  mkSpi (nCANSPIlwTimer w) (nCANSPIeState w) (nCANSPIbPwrReqID w) (nCANSPIeFastSleep w) (Can_44_TCAN4x5x_DriverState w)
    (CanTrcv_44_TCAN4x5x_TrcvInitState w) (spi_pin_high w) (spi_no_sleep w) (spi_up w) (spi_trace w ++ [e])).
Definition set_timer (t : Z) : M W unit := modify (λ w,
  mkSpi t (nCANSPIeState w) (nCANSPIbPwrReqID w) (nCANSPIeFastSleep w) (Can_44_TCAN4x5x_DriverState w)
    (CanTrcv_44_TCAN4x5x_TrcvInitState w) (spi_pin_high w) (spi_no_sleep w) (spi_up w) (spi_trace w)).
Definition set_spi_state (s : nCANSPIteState) : M W unit := modify (λ w,
  mkSpi (nCANSPIlwTimer w) s (nCANSPIbPwrReqID w) (nCANSPIeFastSleep w) (Can_44_TCAN4x5x_DriverState w)
    (CanTrcv_44_TCAN4x5x_TrcvInitState w) (spi_pin_high w) (spi_no_sleep w) (spi_up w) (spi_trace w)).
Definition set_fast_sleep (s : nCANSPIteFastSleep) : M W unit := modify (λ w,
  mkSpi (nCANSPIlwTimer w) (nCANSPIeState w) (nCANSPIbPwrReqID w) s (Can_44_TCAN4x5x_DriverState w)
    (CanTrcv_44_TCAN4x5x_TrcvInitState w) (spi_pin_high w) (spi_no_sleep w) (spi_up w) (spi_trace w)).
Definition set_drivers (d : TcanDriverState) (t : TrcvInitState) : M W unit := modify (λ w,
  mkSpi (nCANSPIlwTimer w) (nCANSPIeState w) (nCANSPIbPwrReqID w) (nCANSPIeFastSleep w) d t (spi_pin_high w) (spi_no_sleep w) (spi_up w) (spi_trace w)).
Definition set_pwr (id : Z) (b : bool) : M W unit := modify (λ w,
  mkSpi (nCANSPIlwTimer w) (nCANSPIeState w) id (nCANSPIeFastSleep w) (Can_44_TCAN4x5x_DriverState w)
    (CanTrcv_44_TCAN4x5x_TrcvInitState w) (spi_pin_high w) b (spi_up w) (spi_trace w)).
(** [Dio_WriteChannel( DIOkeP_CAN_Reset, level )]. *)
Definition reset_pin (high : bool) : M W unit :=
  modify (λ w,
    mkSpi (nCANSPIlwTimer w) (nCANSPIeState w) (nCANSPIbPwrReqID w) (nCANSPIeFastSleep w) (Can_44_TCAN4x5x_DriverState w)
      (CanTrcv_44_TCAN4x5x_TrcvInitState w) high (spi_no_sleep w) (spi_up w) (spi_trace w));;
  spi_ev (SpiResetPin high).

(** The CPU service is requested or released under the identifier of the module. *)
Definition request_cpu : M W unit :=
  id ← gets nCANSPIbPwrReqID; spi_call_ (spi_PwrReq_RequestService id);; set_pwr id true.
Definition release_cpu : M W unit :=
  id ← gets nCANSPIbPwrReqID; spi_call_ (spi_PwrReq_ReleaseService id);; set_pwr id false.

Definition delay_start : M W unit := u ← gets spi_up; set_timer (PT_DELAY_START u).
Definition delay_expired (ms : Z) : M W bool := gets (λ w, PT_DELAY_CHK_EXPIRED (nCANSPIlwTimer w) (PT_MS_TO_TICKS ms) (spi_up w)).
(** [PT_DELAY( pt, nCANSPIlwTimer, PT_MS_TO_TICKS( ms ) )]. *)
Definition PT_DELAY (ms : Z) : pt W unit := act delay_start;; PT_WAIT_UNTIL (delay_expired ms).

(** ** Register access *)

(** The request as it lies in memory: op-code, address, number of words, data. *)
Definition tx_frame (is_read : bool) (eRegAddr lwTXData : Z) : list Z :=
  [if is_read then TCANOPkeRead else TCANOPkeWrite] ++ [u8 (rev16 eRegAddr); u8 (Z.shiftr (rev16 eRegAddr) 8)] ++ [1] ++ le32 (rev32 lwTXData).

(** [is_read]: a place for the received word is given. *)
Definition nCANSPI_cTransceive (is_read : bool) (eRegAddr lwTXData : Z) : pt W Z :=
  let tx := tx_frame is_read eRegAddr lwTXData in
  PT_WAIT_UNTIL (spi_call Spi_SetupEB);;
  act (rx ← spi_call (spi_transfer tx);
       spi_ev (SpiFrame tx rx);;
       if is_read then
         data ← lift (aslice rx 4 4);
         lwData ← lift (of_le32 data);
         mret (rev32 lwData)
       else mret 0).

(** [memcmp] of the bytes of the word with "TCAN". *)
Definition kaczTCAN : list Z := [84; 67; 65; 78].
Definition nCANSPI_cCommsTest : pt W bool :=
  lwDevID ← nCANSPI_cTransceive true TCANRAkeDevID0 4294967295;
  mret (bool_decide (le32 lwDevID = kaczTCAN)).

Definition nCANSPI_cQueryVersion : pt W unit :=
  if DET_PRINTF then
    nCANSPI_cTransceive true TCANRAkeTCANVer 4294967295;;
    nCANSPI_cTransceive true TCANRAkeCREL 4294967295;;
    mret tt
  else mret tt.

(** The answer is (poPwrOn, poThermErr). *)
Definition nCANSPI_cChkFaultFlags : pt W (bool * bool) :=
  irq ← nCANSPI_cTransceive true TCANRAkeIrqFlags 4294967295;
  dbtp ← nCANSPI_cTransceive true TCANRAkeDBTP 4294967295;
  lwEndianReg ← nCANSPI_cTransceive true TCANRAkeENDN 4294967295;
  let oBadReg := (dbtp =? 2611) || negb (lwEndianReg =? 2271560481) in
  let oPwrOn := PWRON irq || UVSUP irq || UVIO irq || oBadReg in
  let oThermErr := TSD irq in
  (if oThermErr then nCANSPI_cTransceive false TCANRAkeIrqFlags kuTxClrErr;; mret tt else mret tt);;
  mret (oPwrOn, oThermErr).

(** ** Initialisation *)

Definition nCANSPI_oInitTCAN : M W bool :=
  st ← spi_call Can_44_TCAN4x5x_Init;
  w ← gets id;
  set_drivers st (CanTrcv_44_TCAN4x5x_TrcvInitState w);;
  spi_ev (SpiInitTcan st);;
  mret (bool_decide (st = CAN_44_TCAN4x5x_READY)).

Definition nCANSPI_oInitTrcv : M W bool :=
  st ← spi_call CanTrcv_44_TCAN4x5x_Init;
  w ← gets id;
  set_drivers (Can_44_TCAN4x5x_DriverState w) st;;
  spi_ev (SpiInitTrcv st);;
  mret (bool_decide (st = CANTRCV_44_TCAN4x5x_INIT)).

Definition set_trcv_mode (id : Z) (mode : TrcvMode) : M W Std_ReturnType :=
  r ← spi_call (spi_CanIf_SetTrcvMode id mode);
  spi_ev (SpiTrcvMode id mode r);;
  mret r.
Definition set_ctrl_mode (id : Z) (mode : CtrlMode) : M W unit :=
  spi_call_ (spi_CanIf_SetControllerMode id mode);;
  spi_ev (SpiCtrlMode id mode).

Definition nCANSPI_oSetTrcvNorm : M W bool :=
  r ← set_trcv_mode spi_CanIfCtrlId CANTRCV_TRCVMODE_NORMAL;
  mret (bool_decide (r = E_OK)).

Definition nCANSPI_oStartCtrl : M W bool :=
  set_ctrl_mode spi_CanIfCtrlId SPI_CANIF_CS_STARTED;;
  mret true.

Definition kaf_oInit : list (M W bool) := [nCANSPI_oInitTCAN; nCANSPI_oInitTrcv; nCANSPI_oSetTrcvNorm; nCANSPI_oStartCtrl].

(** The loop that polls the device identifier, with [n] tries left: [None] when the thread
    exits for lack of voltage, [Some b] at the end of the loop, [b] if there was an answer. *)
Fixpoint devid_loop (n : nat) : pt W (option bool) :=
  match n with
  | O => mret (Some false)
  | S n =>
      low ← act (gets (λ w, undervoltage (spi_up w)));
      if low : bool then mret None
      else
        oOk ← nCANSPI_cCommsTest;
        if oOk : bool then mret (Some true)
        else PT_DELAY 5;; devid_loop n
  end.

(** The tries of one initialisation function: whether one succeeded. *)
Fixpoint try_loop (n : nat) (f : M W bool) : pt W bool :=
  match n with
  | O => mret false
  | S n =>
      ok ← act f;
      if ok : bool then mret true else PT_DELAY 2;; try_loop n f
  end.

(** The initialisation functions in turn, until one fails. *)
Fixpoint init_loop (fs : list (M W bool)) : pt W bool :=
  match fs with
  | [] => mret true
  | f :: fs =>
      ok ← try_loop CANSPI_INIT_RETRIES_MAX f;
      if ok : bool then init_loop fs
      else act (spi_ev (SpiDet CANSPI_API_CYCLIC CANSPI_ERR_INIT));; mret false
  end.

Definition nCANSPI_cPwrOnInit (oPartial : bool) : pt W unit :=
  act request_cpu;;
  polled ← devid_loop CANSPI_DEVID_RETRIES_MAX;
  match polled with
  | None | Some false => mret tt
  | Some true =>
      s ← act (gets nCANSPIeState);
      (if decide (s = CANSPI_INITSTATE_PWRON) then nCANSPI_cQueryVersion else mret tt);;
      act (set_spi_state CANSPI_INITSTATE_INIT);;
      ok ← init_loop (if oPartial then drop 2 kaf_oInit else kaf_oInit);
      if ok : bool then
        act (spi_call_ WdgMgr_Resume;; spi_ev (SpiWdg true);;
             set_spi_state CANSPI_INITSTATE_READY;;
             release_cpu)
      else mret tt
  end.

(** ** Faults, reset and sleep *)

Definition nCANSPI_vSetUnavailable (eState : nCANSPIteState) : M W unit :=
  set_spi_state eState;;
  set_ctrl_mode 0 SPI_CANIF_CS_STOPPED;;
  spi_call_ (spi_CanIf_ControllerBusOff 0);;
  spi_ev (SpiBusOff 0).

(** [Freq_s.lo * 40 / 1000000 / 3] in 32 bits. *)
Definition reset_loops (u : U) : Z := u32 (cpu_freq_lo u * 40) / 1000000 / 3.

Definition nCANSPI_cResetTCAN : pt W unit :=
  act (request_cpu;;
       set_drivers CAN_44_TCAN4x5x_UNINIT CANTRCV_44_TCAN4x5x_UNINIT;;
       nCANSPI_vSetUnavailable CANSPI_INITSTATE_INIT;;
       spi_call_ WdgMgr_Stop;;
       spi_ev (SpiWdg false));;
  RBD_FOREVER
    (low ← act (gets (λ w, undervoltage (spi_up w)));
     if low : bool then PT_DELAY 20;; mret None else mret (Some tt));;
  act (reset_pin true;;
       u ← gets spi_up;
       spi_call_ (CPUdelay (reset_loops u));;
       spi_ev (SpiCpuDelay (reset_loops u));;
       reset_pin false);;
  PT_YIELD_UNTIL (delay_expired CANSPI_RESET_DELAY_MS).

(** The answer is poRestart. *)
Definition nCANSPI_cChkHealth : pt W bool :=
  PT_WAIT_UNTIL (gets (λ w, CanSM_in_wake (spi_up w)));;
  act request_cpu;;
  oDevIDOk ← nCANSPI_cCommsTest;
  '(oPwrOn, oThermErr) ← (if oDevIDOk : bool then nCANSPI_cChkFaultFlags else mret (false, false));
  if negb oDevIDOk || oPwrOn then mret true
  else
    act release_cpu;;
    s ← act (gets nCANSPIeState);
    (if oThermErr && bool_decide (s = CANSPI_INITSTATE_READY) then act (nCANSPI_vSetUnavailable CANSPI_INITSTATE_FAULT) else mret tt);;
    s ← act (gets nCANSPIeState);
    (if negb oThermErr && negb (bool_decide (s = CANSPI_INITSTATE_READY)) then nCANSPI_cPwrOnInit true else mret tt);;
    mret false.

(** The polling after the reset, without a test of the voltage. *)
Fixpoint sleep_loop (n : nat) : pt W unit :=
  match n with
  | O => mret tt
  | S n =>
      oOk ← nCANSPI_cCommsTest;
      if oOk : bool then mret tt else PT_DELAY 5;; sleep_loop n
  end.

Definition nCANSPI_cFastSleep : pt W unit :=
  act (set_ctrl_mode spi_CanIfCtrlId SPI_CANIF_CS_STOPPED);;
  nCANSPI_cResetTCAN;;
  sleep_loop CANSPI_DEVID_RETRIES_MAX;;
  act (set_trcv_mode spi_CanIfTrcvId CANTRCV_TRCVMODE_SLEEP;;
       set_ctrl_mode spi_CanIfCtrlId SPI_CANIF_CS_SLEEP;;
       release_cpu).

(** ** The cyclic function *)

(** The interrupt service loop, left after 50 ms or for a fast sleep. *)
Definition isr_loop : pt W unit :=
  RBD_FOREVER
    (act (u ← gets spi_up; when (Can_44_TCAN4x5x_HasPendingISR u) (spi_call_ Can_44_TCAN4x5x_Irq_Handler;; spi_ev SpiIrq));;
     PT_YIELD;;
     expired ← act (delay_expired 50);
     if expired : bool then mret (Some tt)
     else fs ← act (gets nCANSPIeFastSleep); mret (if decide (fs = nCANSPIkeFS_None) then None else Some tt)).

(** The running loop: [true] when it is left for a fast sleep, [false] when the thread exits
    behind a reset. *)
Definition running_loop : pt W bool :=
  RBD_FOREVER
    (act delay_start;;
     isr_loop;;
     fs ← act (gets nCANSPIeFastSleep);
     if decide (fs = nCANSPIkeFS_None) then
       oRestart ← nCANSPI_cChkHealth;
       if oRestart : bool then nCANSPI_cResetTCAN;; mret (Some false) else mret None
     else mret (Some true)).

(** One pass of the main thread. *)
Definition cyclic_body : pt W unit :=
  nCANSPI_cPwrOnInit false;;
  s ← act (gets nCANSPIeState);
  if decide (s = CANSPI_INITSTATE_READY) then
    sleep ← running_loop;
    if sleep : bool then
      fs ← act (gets nCANSPIeFastSleep);
      if decide (fs = nCANSPIkeFS_None) then mret tt
      else
        nCANSPI_cFastSleep;;
        act (set_fast_sleep nCANSPIkeFS_Complete);;
        PT_WAIT_UNTIL (mret false)
    else mret tt
  else nCANSPI_cResetTCAN.

(** All calls of the cyclic function, one behind the other. *)
Definition CanSpi_Cyclic : pt W unit := pt_thread cyclic_body.

(** ** Calls of other modules *)

Definition CanSpi_Init : M W unit :=
  reset_pin false;;
  set_spi_state CANSPI_INITSTATE_PWRON;;
  delay_start;;
  id ← spi_call spi_PwrReq_GetID;
  w ← gets spi_no_sleep;
  set_pwr id w;;
  request_cpu.

Definition CanSpi_CanHwReady : M W bool := gets (λ w, bool_decide (nCANSPIeState w = CANSPI_INITSTATE_READY)).

Definition CanSpi_ReqFastSleep : M W unit :=
  set_fast_sleep nCANSPIkeFS_Request;;
  request_cpu.

Definition CanSpi_QryFastSleep : M W bool := gets (λ w, negb (bool_decide (nCANSPIeFastSleep w = nCANSPIkeFS_Request))).
End CanSpi.
