(* ===== verification/CanSpiInv.v ===== *)
(** * CanSpi: sub-threads and the invariant of the thread

    What each sub-thread does to the world and relies on, then the invariant that the main
    thread keeps from yield to yield. *)

From S2P Require Import Prelude ComStack Protothread CanSpi.
From stdpp Require Import base list numbers option relations.

#[local] Open Scope Z_scope.

(** What the code relies on: a transfer fills the reply buffer; the CPU clock is constant and
    between 1 and 107 MHz, where [Freq_s.lo * 40] does not overflow. *)
Class CanSpiLaws (U : Type) `{HE : CanSpi_Env U} := {
  transfer_len tx u : lenZ (fst (spi_transfer tx u)) = 8;
  cpu_freq : Z;
  cpu_freq_range : 1000000 ≤ cpu_freq ≤ 107000000;
  cpu_freq_const u : cpu_freq_lo u = cpu_freq
}.

Section call.
Context {U : Type} `{HE : CanSpi_Env U}.
Lemma wp_spi_call {R} (f : U → R * U) (Q : R → CanSpiWorld U → Prop) w :
  Q (fst (f (spi_up w))) (mkSpi (nCANSPIlwTimer w) (nCANSPIeState w) (nCANSPIbPwrReqID w) (nCANSPIeFastSleep w) (Can_44_TCAN4x5x_DriverState w)
             (CanTrcv_44_TCAN4x5x_TrcvInitState w) (spi_pin_high w) (spi_no_sleep w) (snd (f (spi_up w))) (spi_trace w)) → wp (spi_call f) Q w.
Proof. intros H. eapply wp_eq; [|exact H]. unfold spi_call. by destruct (f (spi_up w)). Qed.
End call.

(** Symbolic execution, with the fields of the world kept short. *)
Ltac spi_cbn := cbn [nCANSPIlwTimer nCANSPIeState nCANSPIbPwrReqID nCANSPIeFastSleep Can_44_TCAN4x5x_DriverState CanTrcv_44_TCAN4x5x_TrcvInitState
  spi_pin_high spi_no_sleep spi_up spi_trace id fst snd].
Ltac spi_step := first [wp_step | apply wp_spi_call]; spi_cbn.
Ltac spi_steps := repeat spi_step.

Section threads.
Context {U : Type} `{HE : CanSpi_Env U} {HC : CanSpiLaws U}.
Abbreviation W := (CanSpiWorld U).

(** ** Steps that leave the state machine alone *)

(** The requests of other modules: nothing, or a fast sleep. *)
Definition asked (w w' : W) : Prop :=
  (nCANSPIeFastSleep w' = nCANSPIeFastSleep w ∧ spi_no_sleep w' = spi_no_sleep w) ∨ (nCANSPIeFastSleep w' = nCANSPIkeFS_Request ∧ spi_no_sleep w' = true).

(** The world has gone on with the events [l]; only the timer and the neighbours changed, and
    other modules may have asked for a fast sleep. *)
Record evolve (l : list CanSpi_Event) (w w' : W) : Prop := {
  e_state : nCANSPIeState w' = nCANSPIeState w;
  e_drv : Can_44_TCAN4x5x_DriverState w' = Can_44_TCAN4x5x_DriverState w;
  e_trcv : CanTrcv_44_TCAN4x5x_TrcvInitState w' = CanTrcv_44_TCAN4x5x_TrcvInitState w;
  e_pin : spi_pin_high w' = spi_pin_high w;
  e_trace : spi_trace w' = spi_trace w ++ l;
  e_asked : asked w w'
}.

Lemma asked_refl w : asked w w.
Proof. by left. Qed.
Lemma asked_trans w1 w2 w3 : asked w1 w2 → asked w2 w3 → asked w1 w3.
Proof. unfold asked. intros [[E1 E2]|[E1 E2]] [[E3 E4]|[E3 E4]]; rewrite ?E3, ?E4, ?E1, ?E2; auto. Qed.
Lemma evolve_trans l1 l2 w1 w2 w3 : evolve l1 w1 w2 → evolve l2 w2 w3 → evolve (l1 ++ l2) w1 w3.
Proof. intros [] []. split; try congruence; [by rewrite e_trace1, e_trace0, app_assoc|by eapply asked_trans]. Qed.
Lemma evolve_trans_nil l w1 w2 w3 : evolve l w1 w2 → evolve [] w2 w3 → evolve l w1 w3.
Proof. intros H1 H2. rewrite <-(app_nil_r l). by eapply evolve_trans. Qed.
Lemma evolve_refl w : evolve [] w w.
Proof. split; try done; [by rewrite app_nil_r|apply asked_refl]. Qed.

(** What the rest of the program may do at a yield: use [CanSpi_ReqFastSleep] and change the
    neighbours, but not the variables of the module. *)
Definition spi_rely (w w' : W) : Prop := evolve [] w w' ∧ nCANSPIlwTimer w' = nCANSPIlwTimer w ∧ nCANSPIbPwrReqID w' = nCANSPIbPwrReqID w.

Context (G : W → Prop).
Abbreviation pw := (pwp spi_rely G).

(** [G] holds whatever happens without events. *)
Definition stable (w : W) : Prop := ∀ w', evolve [] w w' → G w'.
Lemma stable_evolve w w' : stable w → evolve [] w w' → stable w'.
Proof. intros Hs He w'' He'. apply Hs. by eapply (evolve_trans_nil []). Qed.

(** Waiting for a condition on the neighbours. *)
Lemma wait_pwp (c : M W bool) (Q : unit → W → Prop) w :
  stable w → (∀ w', evolve [] w w' → wp c (λ b w'', evolve [] w w'' ∧ if b : bool then Q tt w'' else True) w') → pw (PT_WAIT_UNTIL c) Q w.
Proof.
  intros Hs Hc. apply (pwp_wait_until _ _ _ (λ w', evolve [] w w')); [apply evolve_refl|]. intros w1 H1. eapply wp_mono; [by apply Hc|].
  intros [] w2 [H2 H3]; [done|]. split; [by apply Hs|]. intros w3 [H4 _]. by eapply (evolve_trans_nil []).
Qed.

Lemma delay_pwp ms w : stable w → pw (PT_DELAY ms) (λ _ w', evolve [] w w') w.
Proof.
  intros Hs. unfold PT_DELAY. apply pwp_bind, pwp_act. unfold delay_start, set_timer. wp_steps. set (w1 := mkSpi _ _ _ _ _ _ _ _ _ _).
  assert (evolve [] w w1) as H1 by (split; try done; [by rewrite app_nil_r|by left]). apply wait_pwp; [by eapply stable_evolve|].
  intros w2 H2. unfold delay_expired. wp_steps. split; [done|]. case_match; [by eapply (evolve_trans_nil [])|done].
Qed.

(** ** Register access *)

Definition be32_value (l : list Z) : option Z := match l with [a; b; c; d] => Some (rev32 (a + Z.shiftl b 8 + Z.shiftl c 16 + Z.shiftl d 24)) | _ => None end.

Lemma transceive_pwp r a d w :
  stable w → pw (nCANSPI_cTransceive r a d)
    (λ v w', ∃ rx, evolve [SpiFrame (tx_frame r a d) rx] w w' ∧ (∃ u, rx = fst (spi_transfer (tx_frame r a d) u)) ∧
             (r = true → be32_value (drop 4 rx) = Some v)) w.
Proof using HC.
  intros Hs. unfold nCANSPI_cTransceive. apply pwp_bind. eapply wait_pwp; [done|]. intros w1 H1. apply wp_spi_call. split.
  { eapply (evolve_trans_nil []); [exact H1|]. split; try done; [by rewrite app_nil_r|by left]. }
  destruct (fst (Spi_SetupEB (spi_up w1))); [|done]. apply pwp_act. wp_step. apply wp_spi_call. cbn [spi_up]. set (u := snd (Spi_SetupEB (spi_up w1))).
  pose proof (transfer_len (tx_frame r a d) u) as Hlen. set (rx := fst (spi_transfer _ _)) in *. unfold spi_ev. do 2 wp_step.
  set (w2 := mkSpi _ _ _ _ _ _ _ _ _ _). assert (evolve [SpiFrame (tx_frame r a d) rx] w w2) as H2.
  { apply (evolve_trans [] _ _ w1); [done|]. split; try done. by left. }
  destruct rx as [|b0 [|b1 [|b2 [|b3 [|b4 [|b5 [|b6 [|b7 [|]]]]]]]]] eqn:Erx; try (unfold lenZ in Hlen; cbn in Hlen; lia).
  destruct r.
  - wp_step. eapply wp_lift; [reflexivity|]. wp_step. eapply wp_lift; [reflexivity|]. wp_step. eexists. split; [exact H2|]. split; [by exists u|done].
  - wp_step. eexists. split; [exact H2|]. split; [by exists u|done].
Qed.

(** Frames and errors do not concern the state machine. *)
Definition neutral (e : CanSpi_Event) : Prop := match e with SpiFrame _ _ | SpiDet _ _ | SpiIrq => True | _ => False end.

(** [G] holds whatever happens with such events. *)
Definition nstable (w : W) : Prop := ∀ l w', Forall neutral l → evolve l w w' → G w'.
Definition nevolve (w w' : W) : Prop := ∃ l, Forall neutral l ∧ evolve l w w'.
Lemma nstable_stable w : nstable w → stable w.
Proof. intros H w' He. by eapply (H []). Qed.
Lemma nevolve_refl w : nevolve w w.
Proof. exists []. split; [done|apply evolve_refl]. Qed.
Lemma nevolve_trans w1 w2 w3 : nevolve w1 w2 → nevolve w2 w3 → nevolve w1 w3.
Proof. intros (l1 & N1 & H1) (l2 & N2 & H2). exists (l1 ++ l2). split; [by apply Forall_app_2|by eapply evolve_trans]. Qed.
Lemma nevolve_evolve w1 w2 : evolve [] w1 w2 → nevolve w1 w2.
Proof. by exists []. Qed.
Lemma nstable_nevolve w w' : nstable w → nevolve w w' → nstable w'.
Proof. intros Hs (l & Hl & He) l' w'' Hl' He'. eapply (Hs (l ++ l')); [by apply Forall_app_2|by eapply evolve_trans]. Qed.
Lemma nevolve_G w w' : nstable w → nevolve w w' → G w'.
Proof. intros Hs (l & Hl & He). by eapply Hs. Qed.

Lemma ntransceive_pwp r a d w : nstable w → pw (nCANSPI_cTransceive r a d) (λ _ w', nevolve w w') w.
Proof using HC.
  intros Hs. eapply pwp_mono; [by apply transceive_pwp, nstable_stable|]. intros v w' (rx & He & _). eexists. split; [|exact He]. by repeat constructor.
Qed.
Lemma ncomms_pwp w : nstable w → pw nCANSPI_cCommsTest (λ _ w', nevolve w w') w.
Proof using HC.
  intros Hs. unfold nCANSPI_cCommsTest. apply pwp_bind. eapply pwp_mono; [by apply ntransceive_pwp|]. intros v w' He. by apply pwp_ret.
Qed.
Lemma nversion_pwp w : nstable w → pw nCANSPI_cQueryVersion (λ _ w', nevolve w w') w.
Proof using HC.
  intros Hs. unfold nCANSPI_cQueryVersion. destruct DET_PRINTF; [|apply pwp_ret, nevolve_refl]. apply pwp_bind.
  eapply pwp_mono; [by apply ntransceive_pwp|]. intros v w1 H1. apply pwp_bind. eapply pwp_mono; [by apply ntransceive_pwp; eapply nstable_nevolve|].
  intros v' w2 H2. apply pwp_ret. exact (nevolve_trans _ _ _ H1 H2).
Qed.
Lemma nflags_pwp w : nstable w → pw nCANSPI_cChkFaultFlags (λ _ w', nevolve w w') w.
Proof using HC.
  intros Hs. unfold nCANSPI_cChkFaultFlags.
  apply pwp_bind. eapply pwp_mono; [by apply ntransceive_pwp|]. intros v1 w1 H1. assert (nstable w1) as Hs1 by (by eapply nstable_nevolve).
  apply pwp_bind. eapply pwp_mono; [by apply ntransceive_pwp|]. intros v2 w2 H2. assert (nstable w2) as Hs2 by (by eapply nstable_nevolve).
  apply pwp_bind. eapply pwp_mono; [by apply ntransceive_pwp|]. intros v3 w3 H3. assert (nstable w3) as Hs3 by (by eapply nstable_nevolve).
  pose proof (nevolve_trans _ _ _ H1 (nevolve_trans _ _ _ H2 H3)) as H03. apply pwp_bind. apply pwp_mono with (P := λ _ w', nevolve w w').
  - destruct (TSD v1); [|by apply pwp_ret]. apply pwp_bind. eapply pwp_mono; [by apply ntransceive_pwp|]. intros v4 w4 H4. apply pwp_ret. exact (nevolve_trans _ _ _ H03 H4).
  - intros [] w4 H4. by apply pwp_ret.
Qed.
Lemma ndelay_pwp ms w : nstable w → pw (PT_DELAY ms) (λ _ w', nevolve w w') w.
Proof. intros Hs. eapply pwp_mono; [by apply delay_pwp, nstable_stable|]. intros [] w'. apply nevolve_evolve. Qed.

Lemma ndevid_pwp n w : nstable w → pw (devid_loop n) (λ _ w', nevolve w w') w.
Proof using HC.
  revert w. induction n as [|n IH]; intros w Hs; cbn [devid_loop]; [apply pwp_ret, nevolve_refl|].
  apply pwp_bind, pwp_act. wp_step. destruct (undervoltage _); [apply pwp_ret, nevolve_refl|].
  apply pwp_bind. eapply pwp_mono; [by apply ncomms_pwp|]. intros [] w1 H1; [by apply pwp_ret|]. assert (nstable w1) as Hs1 by (by eapply nstable_nevolve).
  apply pwp_bind. eapply pwp_mono; [by apply ndelay_pwp|]. intros [] w2 H2. eapply pwp_mono; [by apply IH; eapply nstable_nevolve|].
  intros r w3 H3. exact (nevolve_trans _ _ _ H1 (nevolve_trans _ _ _ H2 H3)).
Qed.
Lemma nsleep_pwp n w : nstable w → pw (sleep_loop n) (λ _ w', nevolve w w') w.
Proof using HC.
  revert w. induction n as [|n IH]; intros w Hs; cbn [sleep_loop]; [apply pwp_ret, nevolve_refl|].
  apply pwp_bind. eapply pwp_mono; [by apply ncomms_pwp|]. intros [] w1 H1; [by apply pwp_ret|]. assert (nstable w1) as Hs1 by (by eapply nstable_nevolve).
  apply pwp_bind. eapply pwp_mono; [by apply ndelay_pwp|]. intros [] w2 H2. eapply pwp_mono; [by apply IH; eapply nstable_nevolve|].
  intros r w3 H3. exact (nevolve_trans _ _ _ H1 (nevolve_trans _ _ _ H2 H3)).
Qed.

(** The tries of a function that takes [P] to [Q] or, if it fails, back to [P]. *)
Lemma try_pwp n f (P Q : W → Prop) w :
  (∀ w, P w → stable w) → (∀ w w', P w → evolve [] w w' → P w') →
  (∀ w, P w → wp f (λ b w', if b : bool then Q w' else P w') w) → P w → pw (try_loop n f) (λ b w', if b : bool then Q w' else P w') w.
Proof.
  intros Hst Hev Hf. revert w. induction n as [|n IH]; intros w HP; cbn [try_loop]; [by apply pwp_ret|].
  apply pwp_bind, pwp_act. eapply wp_mono; [by apply Hf|]. intros [] w1 H1; [by apply pwp_ret|].
  apply pwp_bind. eapply pwp_mono; [apply delay_pwp; auto|]. intros [] w2 H2. apply IH. eauto.
Qed.
End threads.

(** * CanSpi: the invariant of the supervision thread *)

(** ** What the events say about the chip *)

Section history.
Context {U : Type} `{HE : CanSpi_Env U} {HC : CanSpiLaws U}.

(** How many of the four steps of the initialisation, in their order, have succeeded and not
    been undone since: CAN driver, transceiver driver, transceiver in normal mode, controller
    started.  A failed step and a stop undo the later ones, a reset all of them. *)
Definition progress_step (n : Z) (e : CanSpi_Event) : Z :=
  match e with
  | SpiInitTcan st => if decide (st = CAN_44_TCAN4x5x_READY) then 1 else 0
  | SpiInitTrcv st => if decide (st = CANTRCV_44_TCAN4x5x_INIT) then if 1 <=? n then 2 else n else Z.min n 1
  | SpiTrcvMode _ CANTRCV_TRCVMODE_NORMAL r => if decide (r = E_OK) then if 2 <=? n then 3 else n else Z.min n 2
  | SpiTrcvMode _ CANTRCV_TRCVMODE_SLEEP _ => Z.min n 2
  | SpiCtrlMode _ SPI_CANIF_CS_STARTED => if 3 <=? n then 4 else n
  | SpiCtrlMode _ _ | SpiBusOff _ => Z.min n 3
  | SpiResetPin true => 0
  | _ => n
  end.
Definition progress (l : list CanSpi_Event) : Z := foldl progress_step 0 l.

(** Resets of the chip: in a reset pulse the CAN interface has been stopped, bus-off been
    reported and the watchdog stopped just before, and the pulse lasts for at least 30
    microseconds (three cycles per loop) and is followed at once by the release of the pin. *)
Inductive reset_phase := RNormal (n : Z) | RHigh | RHeld | RBad.
Definition reset_step (p : reset_phase) (e : CanSpi_Event) : reset_phase :=
  match p, e with
  | RNormal _, SpiCtrlMode 0 SPI_CANIF_CS_STOPPED => RNormal 1
  | RNormal 1, SpiBusOff 0 => RNormal 2
  | RNormal 2, SpiWdg false => RNormal 3
  | RNormal 3, SpiResetPin true => RHigh
  | RNormal _, SpiResetPin true => RBad
  | RNormal _, _ => RNormal 0
  | RHigh, SpiCpuDelay d => if 30 * cpu_freq <=? 3 * d * 1000000 then RHeld else RBad
  | RHeld, SpiResetPin false => RNormal 0
  | _, _ => RBad
  end.
Definition reset_history (l : list CanSpi_Event) : reset_phase := foldl reset_step (RNormal 0) l.
Definition resets_ok (l : list CanSpi_Event) : Prop := ∃ n, reset_history l = RNormal n.

Lemma progress_snoc l e : progress (l ++ [e]) = progress_step (progress l) e.
Proof. unfold progress. by rewrite foldl_app. Qed.
Lemma resets_snoc l e : reset_history (l ++ [e]) = reset_step (reset_history l) e.
Proof. unfold reset_history. by rewrite foldl_app. Qed.

Lemma progress_bound l : 0 ≤ progress l ≤ 4.
Proof.
  induction l as [|e l IH] using rev_ind; [done|]. rewrite progress_snoc. destruct e as [| | | |? [] ?|? []| | | | |]; cbn; repeat case_match; lia.
Qed.
Lemma progress_neutral l l' : Forall neutral l' → progress (l ++ l') = progress l.
Proof.
  induction l' as [|e l' IH] using rev_ind; intros H; [by rewrite app_nil_r|]. apply Forall_app in H as [H1 H2]. rewrite app_assoc, progress_snoc, IH by done.
  apply list.Forall_cons in H2 as [H2 _]. by destruct e.
Qed.

(** Events other than those of a reset keep the normal phase. *)
Definition no_pulse (e : CanSpi_Event) : Prop := e ≠ SpiResetPin true.
Lemma resets_step_ok n e : no_pulse e → ∃ m, reset_step (RNormal n) e = RNormal m.
Proof.
  intros He. cbn. destruct n as [|p|]; [|destruct p as [[]|[]|]|]; destruct e as [| [] | | | |[] []|[]| |[]| |]; try done; eauto.
Qed.
Lemma resets_ok_snoc l e : resets_ok l → no_pulse e → resets_ok (l ++ [e]).
Proof. intros [n E] He. unfold resets_ok. rewrite resets_snoc, E. by apply resets_step_ok. Qed.
Lemma resets_ok_app l l' : resets_ok l → Forall no_pulse l' → resets_ok (l ++ l').
Proof.
  intros H. induction l' as [|e l' IH] using rev_ind; intros Hl; [by rewrite app_nil_r|]. apply Forall_app in Hl as [H1 H2]. apply list.Forall_cons in H2 as [H2 _].
  rewrite app_assoc. apply resets_ok_snoc; auto.
Qed.
Lemma neutral_no_pulse l : Forall neutral l → Forall no_pulse l.
Proof. intros H. eapply Forall_impl; [exact H|]. by intros []. Qed.

(** The pulse is long enough. *)
Lemma reset_pulse u : 30 * cpu_freq ≤ 3 * reset_loops u * 1000000.
Proof using HC.
  unfold reset_loops. rewrite (cpu_freq_const u). pose proof cpu_freq_range. rewrite u32_small by lia. Z.div_mod_to_equations. lia.
Qed.
End history.

(** ** The invariant *)

Section inv.
Context {U : Type} `{HE : CanSpi_Env U} {HC : CanSpiLaws U}.
Abbreviation W := (CanSpiWorld U).

Definition chip_up (w : W) : Prop := Can_44_TCAN4x5x_DriverState w = CAN_44_TCAN4x5x_READY ∧ CanTrcv_44_TCAN4x5x_TrcvInitState w = CANTRCV_44_TCAN4x5x_INIT.

Record spi_inv (w : W) : Prop := {
  v_pin : spi_pin_high w = false;
  v_ready : nCANSPIeState w = CANSPI_INITSTATE_READY → progress (spi_trace w) = 4 ∧ chip_up w;
  v_sleep : spi_no_sleep w = false → chip_up w ∨ nCANSPIeFastSleep w ≠ nCANSPIkeFS_None;
  v_resets : resets_ok (spi_trace w)
}.
Abbreviation pw := (pwp spi_rely spi_inv).

(** In the running loop. *)
Definition run_inv (w : W) : Prop := spi_inv w ∧ chip_up w ∧ 2 ≤ progress (spi_trace w).

Lemma up_evolve l w w' : evolve l w w' → chip_up w → chip_up w'.
Proof. intros [] [E1 E2]. split; congruence. Qed.
Lemma up_evolve' l w w' : evolve l w w' → chip_up w' → chip_up w.
Proof. intros [] [E1 E2]. split; congruence. Qed.

Lemma inv_nevolve w w' : spi_inv w → nevolve w w' → spi_inv w'.
Proof.
  intros [Hp Hr Hs Ht] (l & Hl & He). destruct He as [E1 E2 E3 E4 E5 Ea] eqn:EE. split.
  - congruence.
  - rewrite E1, E5, progress_neutral by done. intros H. destruct (Hr H) as [? ?]. split; [done|]. by eapply up_evolve.
  - intros H. destruct Ea as [[F1 F2]|[F1 F2]]; [|congruence]. rewrite F1. rewrite F2 in H. destruct (Hs H); [left; by eapply up_evolve|by right].
  - rewrite E5. by apply resets_ok_app, neutral_no_pulse.
Qed.
Lemma inv_nstable w : spi_inv w → nstable spi_inv w.
Proof. intros H l w' Hl He. eapply inv_nevolve; [done|]. by exists l. Qed.
Lemma run_nevolve w w' : run_inv w → nevolve w w' → run_inv w'.
Proof.
  intros (Hi & Hu & Hp) Hn. split; [by eapply inv_nevolve|]. destruct Hn as (l & Hl & He). split; [by eapply up_evolve|]. by rewrite (e_trace _ _ _ He), progress_neutral.
Qed.

(** ** Initialisation *)

(** The state in which [k] steps have been done; sleep is blocked. *)
Record stage (k : Z) (w : W) : Prop := {
  s_state : nCANSPIeState w = CANSPI_INITSTATE_INIT;
  s_pin : spi_pin_high w = false;
  s_sleep : spi_no_sleep w = true;
  s_resets : resets_ok (spi_trace w);
  s_progress : k ≤ progress (spi_trace w);
  s_tcan : 1 ≤ k → Can_44_TCAN4x5x_DriverState w = CAN_44_TCAN4x5x_READY;
  s_trcv : 2 ≤ k → CanTrcv_44_TCAN4x5x_TrcvInitState w = CANTRCV_44_TCAN4x5x_INIT
}.

Lemma stage_inv k w : stage k w → spi_inv w.
Proof. intros []. split; try done; congruence. Qed.
Lemma stage_nevolve k w w' : stage k w → nevolve w w' → stage k w'.
Proof.
  intros [] (l & Hl & []). split; try congruence; [by destruct e_asked0 as [[_ ->]|[_ ->]]|rewrite e_trace0; by apply resets_ok_app, neutral_no_pulse|by rewrite e_trace0, progress_neutral|..].
  - intros. rewrite e_drv0. auto.
  - intros. rewrite e_trcv0. auto.
Qed.
Lemma stage_evolve k w w' : stage k w → evolve [] w w' → stage k w'.
Proof. intros Hs He. eapply stage_nevolve; [done|]. by apply nevolve_evolve. Qed.
Lemma stage_stable k w : stage k w → stable spi_inv w.
Proof. intros Hs w' He. eapply stage_inv, stage_evolve; done. Qed.
Lemma stage_less k j w : stage k w → j ≤ k → stage j w.
Proof. intros [] Hj. split; try done; [lia|intros; apply s_tcan0; lia|intros; apply s_trcv0; lia]. Qed.

Ltac stage_build :=
  split; cbn in *; try done; try congruence; try (by apply resets_ok_snoc);
  [rewrite progress_snoc; cbn; repeat (case_decide || case_match); bools; first [lia | congruence]|..];
  intros; match goal with H : _ ≤ _ → ?x |- ?x => apply H; lia end.

Lemma init_tcan_wp w : stage 0 w → wp nCANSPI_oInitTCAN (λ b w', if b : bool then stage 1 w' else stage 0 w') w.
Proof.
  intros []. unfold nCANSPI_oInitTCAN. spi_steps. unfold set_drivers, spi_ev. spi_steps. cbn. case_bool_decide; stage_build.
Qed.
Lemma init_trcv_wp w : stage 1 w → wp nCANSPI_oInitTrcv (λ b w', if b : bool then stage 2 w' else stage 1 w') w.
Proof.
  intros []. unfold nCANSPI_oInitTrcv. spi_steps. unfold set_drivers, spi_ev. spi_steps. cbn. case_bool_decide; stage_build.
Qed.
Lemma trcv_norm_wp w : stage 2 w → wp nCANSPI_oSetTrcvNorm (λ b w', if b : bool then stage 3 w' else stage 2 w') w.
Proof.
  intros []. unfold nCANSPI_oSetTrcvNorm, set_trcv_mode. spi_steps. unfold spi_ev. spi_steps. cbn. case_bool_decide; stage_build.
Qed.
Lemma start_ctrl_wp w : stage 3 w → wp nCANSPI_oStartCtrl (λ b w', if b : bool then stage 4 w' else stage 3 w') w.
Proof.
  intros []. unfold nCANSPI_oStartCtrl, set_ctrl_mode. spi_steps. unfold spi_ev. spi_steps. cbn. stage_build.
Qed.

(** A step of the initialisation, with its tries. *)
Lemma stage_try n f k w : (∀ w, stage k w → wp f (λ b w', if b : bool then stage (k + 1) w' else stage k w') w) → stage k w →
  pw (try_loop n f) (λ b w', if b : bool then stage (k + 1) w' else stage k w') w.
Proof. intros Hf. apply try_pwp; [apply stage_stable|apply stage_evolve|exact Hf]. Qed.

(** The functions that are left do the steps from [k] on. *)
Inductive steps_from : Z → list (M W bool) → Prop :=
| steps_end : steps_from 4 []
| steps_cons k f fs : (∀ w, stage k w → wp f (λ b w', if b : bool then stage (k + 1) w' else stage k w') w) → steps_from (k + 1) fs → steps_from k (f :: fs).

Lemma init_pwp k fs w : steps_from k fs → stage k w → pw (init_loop fs) (λ b w', stage (if b : bool then 4 else k) w') w.
Proof.
  intros Hst. revert w. induction Hst as [|k f fs Hf Hst IH]; intros w Hs; cbn [init_loop]; [by apply pwp_ret|].
  apply pwp_bind. eapply pwp_mono; [by apply (stage_try _ f k)|]. intros [] w1 H1.
  - eapply pwp_mono; [by apply IH|]. intros [] w2 H2; [done|]. eapply stage_less; [done|lia].
  - apply pwp_bind, pwp_act. unfold spi_ev. wp_step. apply pwp_ret. eapply stage_nevolve; [done|]. eexists. split; [|split; try done; by left]. by repeat constructor.
Qed.
Lemma all_steps : steps_from 0 kaf_oInit.
Proof.
  apply steps_cons; [apply init_tcan_wp|]. apply steps_cons; [apply init_trcv_wp|]. apply steps_cons; [apply trcv_norm_wp|]. apply steps_cons; [apply start_ctrl_wp|]. apply steps_end.
Qed.
Lemma last_steps : steps_from 2 (drop 2 kaf_oInit).
Proof. apply steps_cons; [apply trcv_norm_wp|]. apply steps_cons; [apply start_ctrl_wp|]. apply steps_end. Qed.

Lemma wp_request (Q : unit → W → Prop) w :
  (∀ u, Q tt (mkSpi (nCANSPIlwTimer w) (nCANSPIeState w) (nCANSPIbPwrReqID w) (nCANSPIeFastSleep w) (Can_44_TCAN4x5x_DriverState w)
     (CanTrcv_44_TCAN4x5x_TrcvInitState w) (spi_pin_high w) true u (spi_trace w))) → wp request_cpu Q w.
Proof. intros H. unfold request_cpu, spi_call_. spi_steps. unfold set_pwr. spi_steps. apply H. Qed.
Lemma wp_release (Q : unit → W → Prop) w :
  (∀ u, Q tt (mkSpi (nCANSPIlwTimer w) (nCANSPIeState w) (nCANSPIbPwrReqID w) (nCANSPIeFastSleep w) (Can_44_TCAN4x5x_DriverState w)
     (CanTrcv_44_TCAN4x5x_TrcvInitState w) (spi_pin_high w) false u (spi_trace w))) → wp release_cpu Q w.
Proof. intros H. unfold release_cpu, spi_call_. spi_steps. unfold set_pwr. spi_steps. apply H. Qed.

Lemma pwron_pwp p w : spi_inv w → (p = true → run_inv w) → pw (nCANSPI_cPwrOnInit p) (λ _ w', spi_inv w' ∧ (p = true → run_inv w')) w.
Proof using HC.
  intros Hi Hp. unfold nCANSPI_cPwrOnInit. apply pwp_bind, pwp_act, wp_request. intros u. set (w1 := mkSpi _ _ _ _ _ _ _ _ _ _).
  assert (spi_inv w1) as Hi1 by (destruct Hi; by split). assert (p = true → run_inv w1) as Hp1 by (intros E; destruct (Hp E) as (_ & Hu & Hg); by split).
  apply pwp_bind. eapply pwp_mono; [by apply ndevid_pwp, inv_nstable|]. intros polled w2 H2. pose proof (inv_nevolve _ _ Hi1 H2) as Hi2.
  assert (p = true → run_inv w2) as Hp2 by (intros E; eapply run_nevolve; [by apply Hp1|done]).
  assert (spi_no_sleep w2 = true) as Hns by (destruct H2 as (l & _ & []); by destruct e_asked0 as [[_ ->]|[_ ->]]).
  destruct polled as [[]|]; [|by apply pwp_ret..]. apply pwp_bind, pwp_act. wp_step. apply pwp_bind.
  apply pwp_mono with (P := λ _ w', nevolve w2 w').
  { case_decide; [by apply nversion_pwp, inv_nstable|apply pwp_ret, nevolve_refl]. }
  intros [] w3 H3. pose proof (inv_nevolve _ _ Hi2 H3) as Hi3. apply pwp_bind, pwp_act. unfold set_spi_state at 1. wp_step. set (w4 := mkSpi _ _ _ _ _ _ _ _ _ _).
  assert (stage (if p then 2 else 0) w4) as Hs4.
  { destruct H3 as (l & Hl & He). assert (spi_no_sleep w3 = true) as Hns3 by (destruct (e_asked _ _ _ He) as [[_ ->]|[_ ->]]; done).
    destruct Hi3. split; cbn; try done.
    - destruct p; [|apply progress_bound]. eapply run_nevolve; [by apply Hp2|by exists l].
    - destruct p; [|lia]. intros _. destruct (Hp2 eq_refl) as (_ & [E1 E2] & _). by rewrite (e_drv _ _ _ He).
    - destruct p; [|lia]. intros _. destruct (Hp2 eq_refl) as (_ & [E1 E2] & _). by rewrite (e_trcv _ _ _ He). }
  apply pwp_bind. eapply pwp_mono; [apply (init_pwp (if p then 2 else 0)); [|exact Hs4]; destruct p; [apply last_steps|apply all_steps]|].
  assert (∀ k w', stage k w' → (p = true → 2 ≤ k) → spi_inv w' ∧ (p = true → run_inv w')) as Hend.
  { intros k w' Hs Hk. split; [by eapply stage_inv|]. intros E. specialize (Hk E). split; [by eapply stage_inv|]. destruct Hs. split; [split; auto; apply s_tcan0; lia|lia]. }
  intros [] w5 H5; [|apply pwp_ret; apply (Hend _ _ H5); by intros ->].
  apply pwp_act. unfold spi_call_. spi_steps. unfold spi_ev, set_spi_state. spi_steps. apply wp_release. intros u6. cbn.
  destruct H5. assert (Can_44_TCAN4x5x_DriverState w5 = CAN_44_TCAN4x5x_READY ∧ CanTrcv_44_TCAN4x5x_TrcvInitState w5 = CANTRCV_44_TCAN4x5x_INIT) as Hup by (split; [apply s_tcan0|apply s_trcv0]; lia).
  pose proof (progress_bound (spi_trace w5)). set (w6 := mkSpi _ _ _ _ _ _ _ _ _ _). assert (progress (spi_trace w6) = 4) as Hg by (cbn; rewrite progress_snoc; cbn; lia).
  assert (spi_inv w6) as Hi6 by (split; try done; [by left|by apply resets_ok_snoc]). split; [done|]. intros _. split; [done|]. split; [done|lia].
Qed.

(** ** Reset *)

(** A request for a fast sleep stays. *)
Definition keeps_sleep (w w' : W) : Prop := nCANSPIeFastSleep w ≠ nCANSPIkeFS_None → nCANSPIeFastSleep w' ≠ nCANSPIkeFS_None.
Lemma nevolve_keeps w w' : nevolve w w' → keeps_sleep w w'.
Proof. intros (l & _ & []). unfold keeps_sleep. by destruct e_asked0 as [[-> _]|[-> _]]. Qed.
Lemma keeps_trans w1 w2 w3 : keeps_sleep w1 w2 → keeps_sleep w2 w3 → keeps_sleep w1 w3.
Proof. unfold keeps_sleep. auto. Qed.

(** Before the pulse: everything is stopped and sleep is blocked. *)
Definition stopped (w : W) : Prop := stage 0 w ∧ reset_history (spi_trace w) = RNormal 3.
Lemma stopped_evolve w w' : stopped w → evolve [] w w' → stopped w'.
Proof. intros [H1 H2] He. split; [by eapply stage_evolve|]. by rewrite (e_trace _ _ _ He), app_nil_r. Qed.

(** Where a reset may begin. *)
Definition resettable (w : W) : Prop := spi_pin_high w = false ∧ resets_ok (spi_trace w).
Lemma inv_resettable w : spi_inv w → resettable w.
Proof. by intros []. Qed.

Lemma shutdown_wp w : resettable w →
  wp (request_cpu;; set_drivers CAN_44_TCAN4x5x_UNINIT CANTRCV_44_TCAN4x5x_UNINIT;; nCANSPI_vSetUnavailable CANSPI_INITSTATE_INIT;; spi_call_ WdgMgr_Stop;; spi_ev (SpiWdg false))
    (λ _ w', stopped w' ∧ keeps_sleep w w') w.
Proof.
  intros [Hp [n Hn]]. wp_step. apply wp_request. intros u. unfold set_drivers, nCANSPI_vSetUnavailable, set_spi_state, set_ctrl_mode, spi_call_, spi_ev. spi_steps. cbn.
  assert (reset_history (((spi_trace w ++ [SpiCtrlMode 0 SPI_CANIF_CS_STOPPED]) ++ [SpiBusOff 0]) ++ [SpiWdg false]) = RNormal 3) as Hr.
  { rewrite !resets_snoc, Hn. by destruct n as [|[[]|[]|]|]. }
  split; [|by intros ?]. split; [|exact Hr]. split; cbn; try done; [by exists 3|apply progress_bound].
Qed.

Lemma pulse_wp w : stopped w →
  wp (reset_pin true;; u ← gets spi_up; spi_call_ (CPUdelay (reset_loops u));; spi_ev (SpiCpuDelay (reset_loops u));; reset_pin false) (λ _ w', stage 0 w' ∧ keeps_sleep w w') w.
Proof using HC.
  intros [[] Hr]. unfold reset_pin, spi_call_, spi_ev. spi_steps. cbn. split; [|by intros ?].
  assert (reset_history ((((spi_trace w ++ [SpiResetPin true]) ++ [SpiCpuDelay (reset_loops (spi_up w))]) ++ [SpiResetPin false])) = RNormal 0) as Hr'.
  { rewrite !resets_snoc, Hr. cbn. by rewrite (proj2 (Z.leb_le _ _)) by apply reset_pulse. }
  split; cbn; try done; [by exists 0|apply progress_bound].
Qed.

Lemma reset_pwp w : resettable w → pw nCANSPI_cResetTCAN (λ _ w', stage 0 w' ∧ keeps_sleep w w') w.
Proof using HC.
  intros Hi. unfold nCANSPI_cResetTCAN. apply pwp_bind, pwp_act. eapply wp_mono; [by apply shutdown_wp|]. intros [] w1 [H1 K1].
  apply pwp_bind. apply (pwp_forever _ _ _ (λ w', stopped w' ∧ keeps_sleep w w')); [done|]. intros w2 [H2 K2]. apply pwp_bind, pwp_act. wp_step. destruct (undervoltage _).
  - apply pwp_bind. eapply pwp_mono; [by apply delay_pwp; eapply stage_stable, H2|]. intros [] w3 H3. apply pwp_ret. split; [by eapply stopped_evolve|].
    by eapply keeps_trans, nevolve_keeps, nevolve_evolve.
  - apply pwp_ret. apply pwp_bind, pwp_act. eapply wp_mono; [by apply pulse_wp|]. intros [] w3 [H3 K3]. pose proof (keeps_trans _ _ _ K2 K3) as K03.
    apply (pwp_yield_until _ _ _ (λ w', stage 0 w' ∧ keeps_sleep w w')); [done|by intros w4 [H4 _]; eapply stage_inv|].
    intros w4 w5 [H4 K4] [He _]. assert (stage 0 w5 ∧ keeps_sleep w w5) as H5 by (split; [by eapply stage_evolve|]; by eapply keeps_trans, nevolve_keeps, nevolve_evolve).
    unfold delay_expired. spi_steps. by case_match.
Qed.

(** ** Health check and running loop *)

(** A change of the power request. *)
Lemma run_pwr w u b : run_inv w → run_inv (mkSpi (nCANSPIlwTimer w) (nCANSPIeState w) (nCANSPIbPwrReqID w) (nCANSPIeFastSleep w) (Can_44_TCAN4x5x_DriverState w)
     (CanTrcv_44_TCAN4x5x_TrcvInitState w) (spi_pin_high w) b u (spi_trace w)).
Proof. intros ([] & Hu & Hg). split; [|done]. split; try done. by left. Qed.

Lemma fault_wp w : run_inv w → wp (nCANSPI_vSetUnavailable CANSPI_INITSTATE_FAULT) (λ _, run_inv) w.
Proof.
  intros ([] & Hu & Hg). unfold nCANSPI_vSetUnavailable, set_spi_state, set_ctrl_mode, spi_call_, spi_ev. spi_steps. cbn.
  split; [split; cbn; try done; by apply resets_ok_snoc; [apply resets_ok_snoc|]|]. split; [done|]. cbn. rewrite !progress_snoc. cbn. lia.
Qed.

Lemma health_pwp w : run_inv w → pw nCANSPI_cChkHealth (λ r w', spi_inv w' ∧ (r = false → run_inv w')) w.
Proof using HC.
  intros Hi. unfold nCANSPI_cChkHealth. apply pwp_bind. apply wait_pwp; [apply nstable_stable, inv_nstable, Hi|]. intros w1 H1. wp_step. split; [done|]. case_match; [|done].
  pose proof (run_nevolve _ _ Hi (nevolve_evolve _ _ H1)) as Hi1. apply pwp_bind, pwp_act, wp_request. intros u. set (w2 := mkSpi _ _ _ _ _ _ _ _ _ _). pose proof (run_pwr w1 u true Hi1 : run_inv w2) as Hi2.
  apply pwp_bind. eapply pwp_mono; [apply ncomms_pwp, inv_nstable, Hi2|]. intros ok w3 H3. pose proof (run_nevolve _ _ Hi2 H3) as Hi3.
  apply pwp_bind. apply pwp_mono with (P := λ _ w', run_inv w').
  { destruct ok; [|by apply pwp_ret]. eapply pwp_mono; [apply nflags_pwp, inv_nstable, Hi3|]. intros r w4 H4. by eapply run_nevolve. }
  intros [pon therm] w4 Hi4. destruct (negb ok || pon); [apply pwp_ret; split; [apply Hi4|done]|].
  apply pwp_bind, pwp_act, wp_release. intros u5. set (w5 := mkSpi _ _ _ _ _ _ _ _ _ _). pose proof (run_pwr w4 u5 false Hi4 : run_inv w5) as Hi5.
  apply pwp_bind, pwp_act. wp_step. apply pwp_bind. apply pwp_mono with (P := λ _ w', run_inv w').
  { destruct (therm && _); [apply pwp_act; by apply fault_wp|by apply pwp_ret]. }
  intros [] w6 Hi6. apply pwp_bind, pwp_act. wp_step. apply pwp_bind. apply pwp_mono with (P := λ _ w', run_inv w').
  { destruct (negb therm && _); [|by apply pwp_ret]. eapply pwp_mono; [apply pwron_pwp; [apply Hi6|done]|]. intros [] w7 [_ H7]. by apply H7. }
  intros [] w7 Hi7. apply pwp_ret. split; [apply Hi7|done].
Qed.

Lemma isr_pwp w : run_inv w → pw isr_loop (λ _ w', run_inv w') w.
Proof.
  intros Hi. unfold isr_loop. apply (pwp_forever _ _ _ run_inv); [done|]. intros w1 Hi1. apply pwp_bind, pwp_act. do 2 wp_step.
  apply wp_mono with (P := λ _ w', run_inv w').
  { apply wp_when; intros _; [|done]. unfold spi_call_. spi_steps. unfold spi_ev. wp_step. eapply run_nevolve; [exact Hi1|].
    eexists. split; [|split; try done; by left]. by repeat constructor. }
  intros [] w2 Hi2. apply pwp_bind, pwp_yield; [apply Hi2|]. intros w3 [He _]. pose proof (run_nevolve _ _ Hi2 (nevolve_evolve _ _ He)) as Hi3.
  apply pwp_bind, pwp_act. unfold delay_expired. wp_step. case_match; [by apply pwp_ret|]. apply pwp_bind, pwp_act. wp_step. apply pwp_ret. by case_decide.
Qed.

Lemma running_pwp w : run_inv w → pw running_loop (λ b w', if b : bool then run_inv w' ∧ nCANSPIeFastSleep w' ≠ nCANSPIkeFS_None else spi_inv w') w.
Proof using HC.
  intros Hi. unfold running_loop. apply (pwp_forever _ _ _ run_inv); [done|]. intros w1 Hi1. apply pwp_bind, pwp_act. unfold delay_start, set_timer. spi_steps.
  assert (run_inv (mkSpi (PT_DELAY_START (spi_up w1)) (nCANSPIeState w1) (nCANSPIbPwrReqID w1) (nCANSPIeFastSleep w1) (Can_44_TCAN4x5x_DriverState w1)
    (CanTrcv_44_TCAN4x5x_TrcvInitState w1) (spi_pin_high w1) (spi_no_sleep w1) (spi_up w1) (spi_trace w1))) as Hi2.
  { eapply run_nevolve; [exact Hi1|]. exists []. split; [done|]. split; try done; [by rewrite app_nil_r|by left]. }
  apply pwp_bind. eapply pwp_mono; [by apply isr_pwp|]. intros [] w3 Hi3. apply pwp_bind, pwp_act. wp_step. case_decide as Ef; [|by apply pwp_ret].
  apply pwp_bind. eapply pwp_mono; [by apply health_pwp|]. intros [] w4 [Hi4 Hr4]; [|apply pwp_ret; by apply Hr4].
  apply pwp_bind. eapply pwp_mono; [by apply reset_pwp, inv_resettable|]. intros [] w5 [H5 _]. apply pwp_ret. by eapply stage_inv.
Qed.

(** ** The main thread *)

Lemma sleep_pwp w : run_inv w → nCANSPIeFastSleep w ≠ nCANSPIkeFS_None →
  pw nCANSPI_cFastSleep (λ _ w', spi_inv w' ∧ nCANSPIeState w' = CANSPI_INITSTATE_INIT) w.
Proof using HC.
  intros ([] & Hu & Hg) Hf. unfold nCANSPI_cFastSleep. apply pwp_bind, pwp_act. unfold set_ctrl_mode at 1. unfold spi_call_ at 1. spi_steps. unfold spi_ev at 1. wp_step.
  set (w1 := mkSpi _ _ _ _ _ _ _ _ _ _). assert (resettable w1) as Hr1 by (split; [done|by apply resets_ok_snoc]).
  apply pwp_bind. eapply pwp_mono; [by apply reset_pwp|]. intros [] w2 [H2 K2]. apply pwp_bind.
  eapply pwp_mono; [by apply nsleep_pwp, inv_nstable; eapply stage_inv|]. intros [] w3 H3. pose proof (stage_nevolve _ _ _ H2 H3) as Hs3.
  assert (nCANSPIeFastSleep w3 ≠ nCANSPIkeFS_None) as Hf3 by (apply (nevolve_keeps _ _ H3), K2; exact Hf).
  apply pwp_act. unfold set_trcv_mode, set_ctrl_mode, spi_call_, spi_ev. spi_steps. apply wp_release. intros u. cbn.
  destruct Hs3. split; [|done]. split; cbn; try done; [congruence|by right|by apply resets_ok_snoc; [apply resets_ok_snoc|]].
Qed.

Lemma cyclic_pwp w : spi_inv w → pw cyclic_body (λ _ w', spi_inv w') w.
Proof using HC.
  intros Hi. unfold cyclic_body. apply pwp_bind. eapply pwp_mono; [by apply pwron_pwp|]. intros [] w1 [Hi1 _].
  apply pwp_bind, pwp_act. wp_step. case_decide as Es; [|eapply pwp_mono; [by apply reset_pwp, inv_resettable|]; intros [] w2 [H2 _]; by eapply stage_inv].
  assert (run_inv w1) as Hr1 by (destruct (v_ready _ Hi1 Es) as [E ?]; split; [done|]; split; [done|lia]).
  apply pwp_bind. eapply pwp_mono; [by apply running_pwp|]. intros [] w2 H2; [|by apply pwp_ret]. destruct H2 as [Hr2 Hf2].
  apply pwp_bind, pwp_act. wp_step. case_decide as Ef; [done|]. apply pwp_bind. eapply pwp_mono; [by apply sleep_pwp|]. intros [] w3 [Hi3 Es3].
  apply pwp_bind, pwp_act. unfold set_fast_sleep. wp_step. set (w4 := mkSpi _ _ _ _ _ _ _ _ _ _).
  assert (spi_inv w4) as Hi4 by (destruct Hi3; split; cbn; try done; by right).
  apply wait_pwp; [by apply nstable_stable, inv_nstable|]. intros w5 H5. wp_step. by split.
Qed.

(** The thread keeps the invariant at every yield. *)
Lemma thread_pwp w : spi_inv w → pw CanSpi_Cyclic (λ _ _, True) w.
Proof using HC.
  intros Hi. apply (pwp_thread _ _ _ spi_inv); [done|]. intros w1 Hi1. eapply pwp_mono; [by apply cyclic_pwp|]. intros [] w2 Hi2. split; [done|].
  intros w3 [He _]. by eapply inv_nevolve, nevolve_evolve.
Qed.

(** The initialisation of the module at power-up. *)
Lemma spi_init_wp w : spi_trace w = [] → wp CanSpi_Init (λ _, spi_inv) w.
Proof.
  intros Et. unfold CanSpi_Init, reset_pin, set_spi_state, delay_start, set_timer, spi_ev, set_pwr. spi_steps. apply wp_request. intros u.
  split; cbn; try done. rewrite Et. by exists 0.
Qed.
End inv.
