(* ===== verification/CanSpiClaims.v ===== *)
(** * CanSpi: runs of the thread and the theorems

    Runs of the thread with a chip that answers and with one that does not, then the theorems,
    with a module that starts up as the example. *)

From S2P Require Import Prelude ComStack Protothread CanSpi CanSpiInv.
From stdpp Require Import base list numbers option relations.

#[local] Open Scope Z_scope.

(** ** Registers on the bus *)

Lemma be32_value_range l v : be32_value l = Some v → 0 ≤ v < 4294967296.
Proof. destruct l as [|a [|b [|c [|d [|]]]]]; try done. intros E. injection E as <-. apply rev32_range. Qed.
Lemma be32_value_be32 x : 0 ≤ x < 4294967296 → be32_value (be32 x) = Some x.
Proof.
  intros Hx. unfold be32, be32_value. f_equal. rewrite rev32_bytes by apply u8_bound. rewrite !Z.shiftr_div_pow2 by lia. unfold u8. Z.div_mod_to_equations. lia.
Qed.
(** The bytes of a word in memory are "TCAN" for the identifier of the chip only. *)
Definition TCAN_DEVICE_ID : Z := 1312899924.
Lemma le32_tcan x : 0 ≤ x < 4294967296 → bool_decide (le32 x = kaczTCAN) = (x =? TCAN_DEVICE_ID).
Proof.
  intros Hx. apply eq_true_iff_eq. rewrite bool_decide_eq_true, Z.eqb_eq. unfold TCAN_DEVICE_ID. split; [|by intros ->].
  unfold le32, kaczTCAN, u8. rewrite !Z.shiftr_div_pow2 by lia. intros E. injection E as E1 E2 E3 E4. Z.div_mod_to_equations. lia.
Qed.

(** ** The chip *)

Section runs.
Context {U : Type} `{HE : CanSpi_Env U} {HC : CanSpiLaws U}.
Abbreviation W := (CanSpiWorld U).

(** The SPI bus is free and the chip answers with its registers. *)
Record chip_answers (regs : Z → Z) : Prop := {
  ca_free u : fst (Spi_SetupEB u) = true;
  ca_range a : 0 ≤ regs a < 4294967296;
  ca_reads a u : drop 4 (fst (spi_transfer (tx_frame true a 4294967295) u)) = be32 (regs a)
}.
Context (regs : Z → Z) (Hchip : chip_answers regs).

(** Only the neighbours and the events have changed. *)
Definition with_events (u : U) (l : list CanSpi_Event) (w : W) : W :=
  mkSpi (nCANSPIlwTimer w) (nCANSPIeState w) (nCANSPIbPwrReqID w) (nCANSPIeFastSleep w) (Can_44_TCAN4x5x_DriverState w)
    (CanTrcv_44_TCAN4x5x_TrcvInitState w) (spi_pin_high w) (spi_no_sleep w) u (spi_trace w ++ l).
Definition is_frame (e : CanSpi_Event) : Prop := match e with SpiFrame _ _ => True | _ => False end.
Definition framed (w w' : W) : Prop := ∃ u l, Forall is_frame l ∧ w' = with_events u l w.
Lemma framed_refl w : framed w w.
Proof. exists (spi_up w), []. split; [done|]. destruct w. unfold with_events. cbn. by rewrite app_nil_r. Qed.
Lemma framed_trans w1 w2 w3 : framed w1 w2 → framed w2 w3 → framed w1 w3.
Proof.
  intros (u1 & l1 & F1 & ->) (u2 & l2 & F2 & ->). exists u2, (l1 ++ l2). split; [by apply Forall_app_2|]. unfold with_events. cbn. by rewrite app_assoc.
Qed.

Lemma transceive_runs r a d w : ∃ v w', runs (nCANSPI_cTransceive r a d) w v w' ∧ framed w w' ∧ (r = true → d = 4294967295 → v = regs a).
Proof using HC Hchip.
  unfold nCANSPI_cTransceive. set (tx := tx_frame r a d).
  assert (spi_call Spi_SetupEB w = Some (true, with_events (snd (Spi_SetupEB (spi_up w))) [] w)) as Ew.
  { unfold spi_call. pose proof (ca_free _ Hchip (spi_up w)) as Hf. destruct (Spi_SetupEB (spi_up w)) as [b u]. cbn in *. subst b. unfold with_events. by rewrite app_nil_r. }
  set (w1 := with_events _ _ w) in *. pose proof (transfer_len tx (spi_up w1)) as Hlen.
  assert (∃ v w', runs (act (rx ← spi_call (spi_transfer tx); spi_ev (SpiFrame tx rx);;
       if r then data ← lift (aslice rx 4 4); lwData ← lift (of_le32 data); mret (rev32 lwData) else mret 0)) w1 v w' ∧ framed w w' ∧ (r = true → d = 4294967295 → v = regs a))
    as (v & w' & Hv & Hw & Hr).
  { apply runs_act_wp. wp_step. apply wp_spi_call. pose proof (ca_reads _ Hchip a (spi_up w1)) as Hr. set (rx := fst (spi_transfer tx _)) in *.
    unfold spi_ev. do 2 wp_step. set (w2 := mkSpi _ _ _ _ _ _ _ _ _ _).
    assert (framed w w2) as Hw2 by (exists (snd (spi_transfer tx (spi_up w1))), [SpiFrame tx rx]; split; [by repeat constructor|]; subst w2 w1; unfold with_events; cbn; by rewrite app_nil_r).
    destruct rx as [|b0 [|b1 [|b2 [|b3 [|b4 [|b5 [|b6 [|b7 [|]]]]]]]]] eqn:Erx; try (unfold lenZ in Hlen; cbn in Hlen; lia).
    destruct r; [|wp_step; by split]. wp_step. eapply wp_lift; [reflexivity|]. wp_step. eapply wp_lift; [reflexivity|]. wp_step. split; [done|]. intros _ ->.
    pose proof (be32_value_be32 (regs a) (ca_range _ Hchip a)) as Hb. fold tx in Hr. fold rx in Hr. rewrite Erx in Hr. cbn [drop] in Hr. rewrite <-Hr in Hb. cbn in Hb. by injection Hb. }
  exists v, w'. split; [|done]. eapply runs_bind; [by apply runs_wait|exact Hv].
Qed.
Lemma read_runs a w : ∃ w', runs (nCANSPI_cTransceive true a 4294967295) w (regs a) w' ∧ framed w w'.
Proof using HC Hchip. destruct (transceive_runs true a 4294967295 w) as (v & w' & H & F & E). rewrite (E eq_refl eq_refl) in H. by exists w'. Qed.

Lemma comms_runs w : ∃ w', runs nCANSPI_cCommsTest w (regs TCANRAkeDevID0 =? TCAN_DEVICE_ID) w' ∧ framed w w'.
Proof using HC Hchip.
  destruct (read_runs TCANRAkeDevID0 w) as (w' & H & F). exists w'. split; [|done]. eapply runs_bind; [exact H|].
  rewrite (le32_tcan (regs TCANRAkeDevID0)) by apply (ca_range _ Hchip). apply runs_ret.
Qed.

Lemma version_runs w : ∃ w', runs nCANSPI_cQueryVersion w tt w' ∧ framed w w'.
Proof using HC Hchip.
  unfold nCANSPI_cQueryVersion. destruct DET_PRINTF; [|exists w; split; [apply runs_ret|apply framed_refl]].
  destruct (read_runs TCANRAkeTCANVer w) as (w1 & H1 & F1). destruct (read_runs TCANRAkeCREL w1) as (w2 & H2 & F2). exists w2.
  split; [|by eapply framed_trans]. eapply runs_bind; [exact H1|]. eapply runs_bind; [exact H2|]. apply runs_ret.
Qed.

(** What the fault flags and the two M_CAN registers say. *)
Definition lost_power : bool :=
  (PWRON (regs TCANRAkeIrqFlags) || UVSUP (regs TCANRAkeIrqFlags) || UVIO (regs TCANRAkeIrqFlags)) || ((regs TCANRAkeDBTP =? 2611) || negb (regs TCANRAkeENDN =? 2271560481)).
Definition too_hot : bool := TSD (regs TCANRAkeIrqFlags).

Lemma flags_runs w : ∃ w', runs nCANSPI_cChkFaultFlags w (lost_power, too_hot) w' ∧ framed w w'.
Proof using HC Hchip.
  destruct (read_runs TCANRAkeIrqFlags w) as (w1 & H1 & F1). destruct (read_runs TCANRAkeDBTP w1) as (w2 & H2 & F2). destruct (read_runs TCANRAkeENDN w2) as (w3 & H3 & F3).
  pose proof (framed_trans _ _ _ F1 (framed_trans _ _ _ F2 F3)) as F03.
  assert (∃ w4, runs (if too_hot then nCANSPI_cTransceive false TCANRAkeIrqFlags kuTxClrErr;; mret tt else mret tt) w3 tt w4 ∧ framed w w4) as (w4 & H4 & F4).
  { destruct too_hot; [|exists w3; split; [apply runs_ret|done]]. destruct (transceive_runs false TCANRAkeIrqFlags kuTxClrErr w3) as (v & w4 & H4 & F4 & _).
    exists w4. split; [|by eapply framed_trans]. eapply runs_bind; [exact H4|]. apply runs_ret. }
  exists w4. split; [|done]. unfold nCANSPI_cChkFaultFlags. eapply runs_bind; [exact H1|]. eapply runs_bind; [exact H2|]. eapply runs_bind; [exact H3|]. cbv zeta. eapply runs_bind; [exact H4|]. apply runs_ret.
Qed.

(** The verdict of the health check: the chip has to be restarted. *)
Definition needs_restart : bool := negb (regs TCANRAkeDevID0 =? TCAN_DEVICE_ID) || lost_power.

(** ** Pieces without a yield *)

(** The power request changes nothing else. *)
Definition with_pwr (b : bool) (u : U) (w : W) : W :=
  mkSpi (nCANSPIlwTimer w) (nCANSPIeState w) (nCANSPIbPwrReqID w) (nCANSPIeFastSleep w) (Can_44_TCAN4x5x_DriverState w)
    (CanTrcv_44_TCAN4x5x_TrcvInitState w) (spi_pin_high w) b u (spi_trace w).
Lemma request_runs w : ∃ u, runs (act request_cpu) w tt (with_pwr true u w).
Proof. eexists. by apply runs_act. Qed.
Lemma release_runs w : ∃ u, runs (act release_cpu) w tt (with_pwr false u w).
Proof. eexists. by apply runs_act. Qed.

(** The identifier is polled once. *)
Lemma devid_runs n w : (∀ u, undervoltage u = false) → regs TCANRAkeDevID0 = TCAN_DEVICE_ID → ∃ w', runs (devid_loop (S n)) w (Some true) w' ∧ framed w w'.
Proof using HC Hchip.
  intros Hv Hid. destruct (comms_runs w) as (w' & H & F). rewrite Hid, Z.eqb_refl in H. exists w'. split; [|done]. cbn [devid_loop].
  eapply runs_bind; [by apply runs_act|]. cbn beta. rewrite Hv. eapply runs_bind; [exact H|]. apply runs_ret.
Qed.

Lemma try_runs n f w w' : f w = Some (true, w') → runs (try_loop (S n) f) w true w'.
Proof. intros E. cbn [try_loop]. eapply runs_bind; [by apply runs_act|]. apply runs_ret. Qed.
Lemma init_runs f fs (Q : W → Prop) w :
  wp f (λ b w1, b = true ∧ ∃ w2, runs (init_loop fs) w1 true w2 ∧ Q w2) w → ∃ w2, runs (init_loop (f :: fs)) w true w2 ∧ Q w2.
Proof.
  intros H. destruct (wp_run _ _ _ H) as (b & w1 & E & -> & w2 & H2 & HQ). exists w2. split; [|done]. cbn [init_loop].
  eapply runs_bind; [by apply (try_runs 1)|exact H2].
Qed.

(** The drivers come up, and the supply is good. *)
Record drivers_ok : Prop := {
  do_volt u : undervoltage u = false;
  do_tcan u : fst (Can_44_TCAN4x5x_Init u) = CAN_44_TCAN4x5x_READY;
  do_trcv u : fst (CanTrcv_44_TCAN4x5x_Init u) = CANTRCV_44_TCAN4x5x_INIT;
  do_norm u : fst (spi_CanIf_SetTrcvMode spi_CanIfCtrlId CANTRCV_TRCVMODE_NORMAL u) = E_OK
}.
(** The bring-up as its neighbours see it. *)
Definition bring_up : list CanSpi_Event :=
  [SpiInitTcan CAN_44_TCAN4x5x_READY; SpiInitTrcv CANTRCV_44_TCAN4x5x_INIT; SpiTrcvMode spi_CanIfCtrlId CANTRCV_TRCVMODE_NORMAL E_OK; SpiCtrlMode spi_CanIfCtrlId SPI_CANIF_CS_STARTED].

Lemma all_init_runs w : drivers_ok → ∃ w', runs (init_loop kaf_oInit) w true w' ∧
  spi_trace w' = spi_trace w ++ bring_up ∧ Can_44_TCAN4x5x_DriverState w' = CAN_44_TCAN4x5x_READY ∧ CanTrcv_44_TCAN4x5x_TrcvInitState w' = CANTRCV_44_TCAN4x5x_INIT.
Proof.
  intros []. apply init_runs. unfold nCANSPI_oInitTCAN, set_drivers, spi_ev. spi_steps. rewrite do_tcan0. split; [done|].
  apply init_runs. unfold nCANSPI_oInitTrcv, set_drivers, spi_ev. spi_steps. rewrite do_trcv0. split; [done|].
  apply init_runs. unfold nCANSPI_oSetTrcvNorm, set_trcv_mode, spi_ev. spi_steps. rewrite do_norm0. split; [done|].
  apply init_runs. unfold nCANSPI_oStartCtrl, set_ctrl_mode, spi_call_, spi_ev. spi_steps. split; [done|].
  eexists. split; [apply runs_ret|]. cbn. split; [by rewrite <-!app_assoc|done].
Qed.

Lemma pwron_runs w : drivers_ok → regs TCANRAkeDevID0 = TCAN_DEVICE_ID → ∃ w' frames, runs (nCANSPI_cPwrOnInit false) w tt w' ∧ Forall is_frame frames ∧
  spi_trace w' = spi_trace w ++ frames ++ bring_up ++ [SpiWdg true] ∧ nCANSPIeState w' = CANSPI_INITSTATE_READY ∧ spi_no_sleep w' = false.
Proof using HC Hchip.
  intros Hd Hid. destruct (request_runs w) as [u1 H1]. destruct (devid_runs 99 (with_pwr true u1 w) (do_volt Hd) Hid) as (w2 & H2 & F2).
  assert (∃ w3, runs (if decide (nCANSPIeState w2 = CANSPI_INITSTATE_PWRON) then nCANSPI_cQueryVersion else mret tt) w2 tt w3 ∧ framed w2 w3) as (w3 & H3 & F3).
  { case_decide; [apply version_runs|]. exists w2. split; [apply runs_ret|apply framed_refl]. }
  destruct (framed_trans _ _ _ F2 F3) as (u3 & l & Hl & E3).
  assert (∃ w4, runs (act (set_spi_state CANSPI_INITSTATE_INIT)) w3 tt w4 ∧ spi_trace w4 = spi_trace w3) as (w4 & H4 & E4) by (eexists; split; [by apply runs_act|done]).
  destruct (all_init_runs w4 Hd) as (w5 & H5 & E5 & _).
  destruct (runs_act_wp (spi_call_ WdgMgr_Resume;; spi_ev (SpiWdg true);; set_spi_state CANSPI_INITSTATE_READY;; release_cpu)
    (λ r w', r = tt ∧ spi_trace w' = spi_trace w5 ++ [SpiWdg true] ∧ nCANSPIeState w' = CANSPI_INITSTATE_READY ∧ spi_no_sleep w' = false) w5) as ([] & w6 & H6 & _ & E6).
  { unfold spi_call_, spi_ev, set_spi_state, release_cpu, set_pwr. spi_steps. cbn. done. }
  exists w6, l. split; [|split; [done|]; rewrite (proj1 E6), E5, E4, E3; cbn; split; [by rewrite <-!app_assoc|apply E6]].
  unfold nCANSPI_cPwrOnInit. eapply runs_bind; [exact H1|]. eapply runs_bind; [exact H2|]. eapply runs_bind; [by apply runs_act|]. eapply runs_bind; [exact H3|].
  eapply runs_bind; [exact H4|]. eapply runs_bind; [exact H5|]. exact H6.
Qed.

(** The interrupt service loop gives up the processor in its first pass. *)
Lemma isr_calls w : ∃ t w' irq, calls isr_loop w t w' ∧ (irq = [] ∨ irq = [SpiIrq]) ∧ spi_trace w' = spi_trace w ++ irq ∧ nCANSPIeState w' = nCANSPIeState w ∧ spi_no_sleep w' = spi_no_sleep w.
Proof.
  destruct (runs_act_wp (u ← gets spi_up; when (Can_44_TCAN4x5x_HasPendingISR u) (spi_call_ Can_44_TCAN4x5x_Irq_Handler;; spi_ev SpiIrq))
    (λ r w', r = tt ∧ ∃ irq, (irq = [] ∨ irq = [SpiIrq]) ∧ spi_trace w' = spi_trace w ++ irq ∧ nCANSPIeState w' = nCANSPIeState w ∧ spi_no_sleep w' = spi_no_sleep w) w)
    as ([] & w1 & H1 & _ & irq & Hi).
  { unfold spi_call_, spi_ev. do 2 spi_step. apply wp_when; intros _; [|split; [done|]; exists []; rewrite app_nil_r; auto]. spi_steps. split; [done|]. exists [SpiIrq]. auto. }
  assert (∃ t, calls isr_loop w t w1) as [t Ht] by (eapply calls_forever, runs_calls; [exact H1|]; apply calls_bind, calls_yield).
  exists t, w1, irq. split; [exact Ht|exact Hi].
Qed.

Lemma snoc_two {A} (l : list A) x y : l ++ [x; y] = (l ++ [x]) ++ [y].
Proof. by rewrite <-app_assoc. Qed.

(** The end of the health check when no restart is needed and the chip is not to be
    initialised again. *)
Definition faulty (hot : bool) (w : W) : bool := hot && bool_decide (nCANSPIeState w = CANSPI_INITSTATE_READY).
Definition settled (fault : bool) (u : U) (w : W) : W :=
  mkSpi (nCANSPIlwTimer w) (if fault then CANSPI_INITSTATE_FAULT else nCANSPIeState w) (nCANSPIbPwrReqID w) (nCANSPIeFastSleep w) (Can_44_TCAN4x5x_DriverState w)
    (CanTrcv_44_TCAN4x5x_TrcvInitState w) (spi_pin_high w) false u (spi_trace w ++ (if fault then [SpiCtrlMode 0 SPI_CANIF_CS_STOPPED; SpiBusOff 0] else [])).
Lemma settle_runs hot w : hot || bool_decide (nCANSPIeState w = CANSPI_INITSTATE_READY) = true →
  ∃ u, runs (act release_cpu;;
    s ← act (gets nCANSPIeState);
    (if hot && bool_decide (s = CANSPI_INITSTATE_READY) then act (nCANSPI_vSetUnavailable CANSPI_INITSTATE_FAULT) else mret tt);;
    s ← act (gets nCANSPIeState);
    (if negb hot && negb (bool_decide (s = CANSPI_INITSTATE_READY)) then nCANSPI_cPwrOnInit true else mret tt);;
    mret false) w false (settled (faulty hot w) u w).
Proof.
  intros Hcase. destruct (release_runs w) as [u1 H1]. set (w1 := with_pwr false u1 w) in *.
  assert (∃ u, runs (if faulty hot w then act (nCANSPI_vSetUnavailable CANSPI_INITSTATE_FAULT) else mret tt) w1 tt (settled (faulty hot w) u w)) as [u2 H2].
  { destruct (faulty hot w); [eexists; apply runs_act; unfold settled; by rewrite (snoc_two (spi_trace w))|]. exists u1. unfold settled. rewrite app_nil_r. apply runs_ret. }
  exists u2. eapply runs_bind; [exact H1|]. eapply runs_bind; [by apply runs_act|]. eapply runs_bind; [exact H2|]. eapply runs_bind; [by apply runs_act|].
  assert (negb hot && negb (bool_decide (nCANSPIeState (settled (faulty hot w) u2 w) = CANSPI_INITSTATE_READY)) = false) as ->; [|eapply runs_bind; apply runs_ret].
  unfold faulty. destruct hot; [done|]. cbn in *. by rewrite Hcase.
Qed.
End runs.

(** ** A chip that does not answer *)

Section mute.
Context {U : Type} `{HE : CanSpi_Env U} {HC : CanSpiLaws U}.
Abbreviation W := (CanSpiWorld U).

(** No answer has the identifier of the chip in it. *)
Definition chip_mute : Prop := ∀ u v, be32_value (drop 4 (fst (spi_transfer (tx_frame true TCANRAkeDevID0 4294967295) u))) = Some v → v ≠ TCAN_DEVICE_ID.
Context (Hmute : chip_mute).

(** A fast sleep has been asked for, the interface is not up, and the processor stays awake. *)
Definition starving (w : W) : Prop := nCANSPIeFastSleep w = nCANSPIkeFS_Request ∧ nCANSPIeState w ≠ CANSPI_INITSTATE_READY ∧ spi_no_sleep w = true.
Abbreviation pw := (pwp spi_rely starving).

Lemma starving_evolve l w w' : starving w → evolve l w w' → starving w'.
Proof. intros (H1 & H2 & H3) []. unfold starving. rewrite e_state. by destruct e_asked as [[-> ->]|[-> ->]]. Qed.
Lemma starving_nevolve w w' : starving w → nevolve w w' → starving w'.
Proof. intros Hs (l & _ & He). by eapply starving_evolve. Qed.
Lemma starving_nstable w : starving w → nstable starving w.
Proof. intros Hs l w' _. by apply starving_evolve. Qed.

Lemma mute_comms_pwp w : starving w → pw nCANSPI_cCommsTest (λ b w', b = false ∧ starving w') w.
Proof using HC Hmute.
  intros Hs. unfold nCANSPI_cCommsTest. apply pwp_bind. eapply pwp_mono; [by apply transceive_pwp, nstable_stable, starving_nstable|].
  intros v w' (rx & He & [u ->] & Hv). specialize (Hv eq_refl). apply pwp_ret. split; [|by eapply starving_evolve].
  rewrite le32_tcan by by eapply be32_value_range. apply Z.eqb_neq. by eapply Hmute.
Qed.
Lemma mute_devid_pwp n w : starving w → pw (devid_loop n) (λ r w', r ≠ Some true ∧ starving w') w.
Proof using HC Hmute.
  revert w. induction n as [|n IH]; intros w Hs; cbn [devid_loop]; [by apply pwp_ret|].
  apply pwp_bind, pwp_act. wp_step. destruct (undervoltage _); [by apply pwp_ret|]. apply pwp_bind. eapply pwp_mono; [by apply mute_comms_pwp|]. intros b w1 [-> H1].
  apply pwp_bind. eapply pwp_mono; [by apply ndelay_pwp, starving_nstable|]. intros [] w2 H2. apply IH. by eapply starving_nevolve.
Qed.
Lemma mute_pwron_pwp w : starving w → pw (nCANSPI_cPwrOnInit false) (λ _, starving) w.
Proof using HC Hmute.
  intros Hs. unfold nCANSPI_cPwrOnInit. apply pwp_bind, pwp_act. unfold request_cpu, spi_call_, set_pwr. spi_steps.
  apply pwp_bind. eapply pwp_mono; [apply mute_devid_pwp; destruct Hs as (? & ? & _); by split_and!|]. intros [[]|] w1 [Hr H1]; [done|by apply pwp_ret..].
Qed.
Lemma starving_reset_pwp w : starving w → pw nCANSPI_cResetTCAN (λ _, starving) w.
Proof.
  intros Hs. unfold nCANSPI_cResetTCAN. apply pwp_bind, pwp_act.
  unfold request_cpu, set_pwr, set_drivers, nCANSPI_vSetUnavailable, set_spi_state, set_ctrl_mode, spi_call_, spi_ev. spi_steps.
  apply pwp_bind, (pwp_forever _ _ _ starving); [destruct Hs as (? & ? & _); by split_and!|]. intros w1 H1. apply pwp_bind, pwp_act. wp_step. destruct (undervoltage _).
  - apply pwp_bind. eapply pwp_mono; [by apply ndelay_pwp, starving_nstable|]. intros [] w2 H2. apply pwp_ret. by eapply starving_nevolve.
  - apply pwp_ret. apply pwp_bind, pwp_act. unfold reset_pin, spi_call_, spi_ev. spi_steps. apply (pwp_yield_until _ _ _ starving); [done|done|].
    intros w2 w3 H2 [He _]. unfold delay_expired. wp_step. pose proof (starving_evolve _ _ _ H2 He). by case_match.
Qed.
Lemma starving_thread_pwp w : starving w → pw CanSpi_Cyclic (λ _ _, True) w.
Proof using HC Hmute.
  intros Hs. apply (pwp_thread _ _ _ starving); [done|]. intros w1 H1. apply pwp_mono with (P := λ _, starving).
  - unfold cyclic_body. apply pwp_bind. eapply pwp_mono; [by apply mute_pwron_pwp|]. intros [] w2 H2. apply pwp_bind, pwp_act. wp_step.
    rewrite decide_False by apply H2. by apply starving_reset_pwp.
  - intros [] w2 H2. split; [done|]. intros w3 [He _]. by eapply starving_evolve.
Qed.
End mute.

(** * CanSpi: claims *)

(** ** A concrete environment *)

(** A chip with the given identifier and flags, drivers that come up, and a timer that has
    always run down. *)
Definition demo_regs (id irq a : Z) : Z := if a =? TCANRAkeDevID0 then id else if a =? TCANRAkeIrqFlags then irq else if a =? TCANRAkeENDN then 2271560481 else 0.
Definition demo_spi (id irq : Z) : CanSpi_Env unit := {|
  DET_PRINTF := true; spi_CanIfCtrlId := 0; spi_CanIfTrcvId := 0;
  PT_MS_TO_TICKS ms := ms; PT_DELAY_START _ := 0; PT_DELAY_CHK_EXPIRED _ _ _ := true;
  spi_PwrReq_GetID u := (7, u); spi_PwrReq_RequestService _ u := u; spi_PwrReq_ReleaseService _ u := u;
  Spi_SetupEB u := (true, u);
  spi_transfer tx u := ([0; 0; 0; 0] ++ be32 (match tx with _ :: a :: b :: _ => demo_regs id irq (256 * a + b) | _ => 0 end), u);
  undervoltage _ := false; CanSM_in_wake _ := true;
  Can_44_TCAN4x5x_Init u := (CAN_44_TCAN4x5x_READY, u); CanTrcv_44_TCAN4x5x_Init u := (CANTRCV_44_TCAN4x5x_INIT, u);
  spi_CanIf_SetTrcvMode _ _ u := (E_OK, u); spi_CanIf_SetControllerMode _ _ u := u; spi_CanIf_ControllerBusOff _ u := u;
  Can_44_TCAN4x5x_HasPendingISR _ := false; Can_44_TCAN4x5x_Irq_Handler u := u;
  WdgMgr_Resume u := u; WdgMgr_Stop u := u; cpu_freq_lo _ := 48000000; CPUdelay _ u := u
|}.
Lemma demo_spi_laws id irq : @CanSpiLaws unit (demo_spi id irq).
Proof. by refine (@Build_CanSpiLaws unit (demo_spi id irq) _ 48000000 _ _). Defined.
(** The world at power-up. *)
Definition demo_up : CanSpiWorld unit :=
  mkSpi 0 CANSPI_INITSTATE_PWRON 0 nCANSPIkeFS_None CAN_44_TCAN4x5x_UNINIT CANTRCV_44_TCAN4x5x_UNINIT true false tt [].
(** The world behind [CanSpi_Init], and with the chip running. *)
Definition demo_started : CanSpiWorld unit :=
  mkSpi 0 CANSPI_INITSTATE_PWRON 7 nCANSPIkeFS_None CAN_44_TCAN4x5x_UNINIT CANTRCV_44_TCAN4x5x_UNINIT false true tt [SpiResetPin false].
Definition demo_ready : CanSpiWorld unit :=
  mkSpi 0 CANSPI_INITSTATE_READY 7 nCANSPIkeFS_None CAN_44_TCAN4x5x_READY CANTRCV_44_TCAN4x5x_INIT false false tt [SpiResetPin false].

Section claims.
Context {U : Type} `{HE : CanSpi_Env U} {HC : CanSpiLaws U}.
Abbreviation W := (CanSpiWorld U).

(** C25. From power-up on, whatever the chip, the drivers and the other modules do, whenever
    the supervision thread has given up the processor: the reset pin is released; if
    CanSpi_CanHwReady answers TRUE then CAN driver and transceiver driver are initialised and
    the four steps of the bring-up (driver, transceiver, normal mode, controller started) have
    succeeded in this order since the last reset, with no stop or bus-off behind them; and the
    module lets the processor sleep only while the drivers are up or a fast sleep has been
    asked for.  No piece of its code is undefined. *)
Theorem canspi_ready_means_up w0 w t w' :
  spi_trace w0 = [] → CanSpi_Init w0 = Some (tt, w) → rtc (pt_next spi_rely) (CanSpi_Cyclic, w) (t, w') →
  ¬ pt_stuck (t, w') ∧
  (at_yield t →
     spi_pin_high w' = false ∧
     (CanSpi_CanHwReady w' = Some (true, w') → progress (spi_trace w') = 4 ∧ chip_up w') ∧
     (spi_no_sleep w' = false → chip_up w' ∨ nCANSPIeFastSleep w' ≠ nCANSPIkeFS_None)).
Proof using HC.
  intros Et Ei Hs. pose proof (proj1 (wp_eq _ _ _ _ _ Ei) (spi_init_wp w0 Et)) as Hi. destruct (pwp_safe _ _ _ _ _ _ _ (thread_pwp w Hi) Hs) as [HG Hn].
  split; [done|]. intros Hy. destruct (HG Hy) as [Hp Hr Hsl _]. split; [done|]. split; [|done]. intros E. injection E as E. apply Hr. by apply bool_decide_eq_true in E.
Qed.

(** C26. From power-up on, every reset of the chip is a complete pulse: just before it the CAN
    controller has been stopped, bus-off been reported and the watchdog of the chip stopped,
    in this order; the pin is held for at least the 30 microseconds the chip needs and
    released at once; and no pulse is ever cut by a yield of the thread. *)
Theorem canspi_reset_pulse w0 w t w' :
  spi_trace w0 = [] → CanSpi_Init w0 = Some (tt, w) → rtc (pt_next spi_rely) (CanSpi_Cyclic, w) (t, w') → at_yield t → resets_ok (spi_trace w').
Proof using HC.
  intros Et Ei Hs Hy. pose proof (proj1 (wp_eq _ _ _ _ _ Ei) (spi_init_wp w0 Et)) as Hi. destruct (pwp_safe _ _ _ _ _ _ _ (thread_pwp w Hi) Hs) as [HG _].
  by destruct (HG Hy).
Qed.

(** C28. With the bus free, CAN awake and a chip that answers with the registers [regs], the
    health check runs through in one call, and its verdict is what the registers say: restart
    exactly if the identifier is not that of the TCAN4550, one of the flags PWRON, UVSUP and
    UVIO is set, the bit timing register has its reset value or the endian register cannot be
    read.  Otherwise a chip that is too hot takes the module from READY to FAULT, with the
    controller stopped and bus-off reported, and nothing else changes; the processor may sleep
    afterwards exactly if no restart is needed.  (A chip that has cooled down while the module
    is not READY is initialised again instead, the case left out here.) *)
Theorem canspi_health_check regs w :
  chip_answers regs → CanSM_in_wake (spi_up w) = true → needs_restart regs || too_hot regs || bool_decide (nCANSPIeState w = CANSPI_INITSTATE_READY) = true →
  let fault := negb (needs_restart regs) && too_hot regs && bool_decide (nCANSPIeState w = CANSPI_INITSTATE_READY) in
  ∃ w' frames, runs nCANSPI_cChkHealth w (needs_restart regs) w' ∧ Forall is_frame frames ∧
    spi_trace w' = spi_trace w ++ frames ++ (if fault then [SpiCtrlMode 0 SPI_CANIF_CS_STOPPED; SpiBusOff 0] else []) ∧
    nCANSPIeState w' = (if fault then CANSPI_INITSTATE_FAULT else nCANSPIeState w) ∧
    spi_no_sleep w' = needs_restart regs.
Proof using HC.
  intros Hc Hwake Hcase. cbv zeta. destruct (request_runs w) as [u1 H1]. set (w1 := with_pwr true u1 w) in *. destruct (comms_runs regs Hc w1) as (w2 & H2 & F2).
  assert (∃ w3 r, runs (if regs TCANRAkeDevID0 =? TCAN_DEVICE_ID then nCANSPI_cChkFaultFlags else mret (false, false)) w2 r w3 ∧ framed w1 w3 ∧
    negb (regs TCANRAkeDevID0 =? TCAN_DEVICE_ID) || fst r = needs_restart regs ∧ (needs_restart regs = false → snd r = too_hot regs)) as (w3 & r & H3 & F3 & Er & Eh).
  { unfold needs_restart. case_match; [|exists w2, (false, false); split; [apply runs_ret|]; by split]. destruct (flags_runs regs Hc w2) as (w3 & H3 & F3).
    exists w3, (lost_power regs, too_hot regs). split; [done|]. split; [by eapply framed_trans|done]. }
  destruct F3 as (u3 & l & Hl & ->). set (w3 := with_events u3 l w1) in *.
  assert (∃ u, runs (if needs_restart regs then mret true else act release_cpu;;
    s ← act (gets nCANSPIeState);
    (if snd r && bool_decide (s = CANSPI_INITSTATE_READY) then act (nCANSPI_vSetUnavailable CANSPI_INITSTATE_FAULT) else mret tt);;
    s ← act (gets nCANSPIeState);
    (if negb (snd r) && negb (bool_decide (s = CANSPI_INITSTATE_READY)) then nCANSPI_cPwrOnInit true else mret tt);;
    mret false) w3 (needs_restart regs) (if needs_restart regs then w3 else settled (faulty (too_hot regs) w3) u w3)) as [u4 H4].
  { destruct (needs_restart regs); [eexists u3; apply runs_ret|]. rewrite (Eh eq_refl). by apply settle_runs. }
  exists (if needs_restart regs then w3 else settled (faulty (too_hot regs) w3) u4 w3), l. split.
  { unfold nCANSPI_cChkHealth. eapply runs_bind; [apply runs_wait; unfold gets; by rewrite Hwake|]. eapply runs_bind; [exact H1|]. eapply runs_bind; [exact H2|].
    eapply runs_bind; [exact H3|]. destruct r. cbn [fst snd] in *. by rewrite Er. }
  split; [done|]. unfold faulty. destruct (needs_restart regs); [by rewrite app_nil_r|]. cbn. by rewrite <-app_assoc.
Qed.

(** C27. With a good supply, a free bus, a chip that identifies itself and drivers that can be
    initialised, a run of the thread CanSpi_Cyclic from its beginning (as after power-up; the
    states in which it is suspended inside a delay, in the running loop or after a fast sleep
    are not the subject) brings the interface up, whatever the variables of the module, the pins
    and the drivers were before: at its end CanSpi_CanHwReady answers TRUE and the processor may sleep, and what
    the module did was to read registers, to initialise CAN driver and transceiver driver, to
    set the transceiver to normal mode, to start the controller and to resume the watchdog, in
    this order, and to serve at most one interrupt. *)
Theorem canspi_brings_up regs w :
  chip_answers regs → regs TCANRAkeDevID0 = TCAN_DEVICE_ID → drivers_ok →
  ∃ t w' frames irq, calls CanSpi_Cyclic w t w' ∧ CanSpi_CanHwReady w' = Some (true, w') ∧ spi_no_sleep w' = false ∧
    Forall is_frame frames ∧ (irq = [] ∨ irq = [SpiIrq]) ∧ spi_trace w' = spi_trace w ++ frames ++ bring_up ++ [SpiWdg true] ++ irq.
Proof using HC.
  intros Hc Hid Hd. destruct (pwron_runs regs Hc w Hd Hid) as (w1 & l & H1 & Hl & E1 & Es1 & En1). destruct (runs_act delay_start w1 tt _ eq_refl) as [n2 H2].
  set (w2 := mkSpi _ _ _ _ _ _ _ _ _ _) in H2. destruct (isr_calls w2) as (t3 & w3 & irq & H3 & Hi & E3 & Es3 & En3).
  assert (∃ t, calls CanSpi_Cyclic w t w3) as [t Ht].
  { assert (∃ t, calls running_loop w1 t w3) as [t Ht] by (eapply calls_forever, runs_calls; [by exists n2|]; eapply calls_bind, H3).
    eapply calls_thread, runs_calls; [exact H1|]. eapply runs_calls; [by apply runs_act|]. rewrite Es1, decide_True by done. eapply calls_bind, Ht. }
  exists t, w3, l, irq. split; [exact Ht|]. split; [unfold CanSpi_CanHwReady, gets; rewrite Es3; cbn; by rewrite Es1|]. split; [by rewrite En3|]. split; [done|]. split; [done|].
  rewrite E3. cbn. rewrite E1. by rewrite <-!app_assoc.
Qed.

(** The wait for the chip behind a reset tests the timer of the module without starting
    it: if the timer has already run for two milliseconds, as it has behind a health check,
    the reset ends in the very next call of the thread after the pin is released, so the chip
    is used without the two milliseconds it needs for its own initialisation. *)
Theorem canspi_reset_wait_skipped w :
  (∀ u, undervoltage u = false) →
  ∃ t w1, calls nCANSPI_cResetTCAN w t w1 ∧ last (spi_trace w1) = Some (SpiResetPin false) ∧ nCANSPIlwTimer w1 = nCANSPIlwTimer w ∧
    (∀ w2, spi_rely w1 w2 → PT_DELAY_CHK_EXPIRED (nCANSPIlwTimer w) (PT_MS_TO_TICKS CANSPI_RESET_DELAY_MS) (spi_up w2) = true → runs t w2 tt w2).
Proof.
  intros Hv. set (pre := request_cpu;; set_drivers CAN_44_TCAN4x5x_UNINIT CANTRCV_44_TCAN4x5x_UNINIT;; nCANSPI_vSetUnavailable CANSPI_INITSTATE_INIT;;
    spi_call_ WdgMgr_Stop;; spi_ev (SpiWdg false)).
  destruct (runs_act_wp pre (λ r w', r = tt ∧ nCANSPIlwTimer w' = nCANSPIlwTimer w) w) as ([] & w1 & H1 & _ & E1).
  { unfold pre, request_cpu, set_pwr, set_drivers, nCANSPI_vSetUnavailable, set_spi_state, set_ctrl_mode, spi_call_, spi_ev. spi_steps. done. }
  set (pulse := reset_pin true;; u ← gets spi_up; spi_call_ (CPUdelay (reset_loops u));; spi_ev (SpiCpuDelay (reset_loops u));; reset_pin false).
  destruct (runs_act_wp pulse (λ r w', r = tt ∧ last (spi_trace w') = Some (SpiResetPin false) ∧ nCANSPIlwTimer w' = nCANSPIlwTimer w1) w1) as ([] & w2 & H2 & _ & El & E2).
  { unfold pulse, reset_pin, spi_call_, spi_ev. spi_steps. by rewrite last_snoc. }
  destruct (calls_yield_until (delay_expired CANSPI_RESET_DELAY_MS) w2) as (t & Ht & Hend).
  exists t, w2. split; [|split; [done|split; [congruence|]]].
  - unfold nCANSPI_cResetTCAN. eapply runs_calls; [exact H1|]. eapply runs_calls; [eapply runs_forever, runs_bind; [by apply runs_act|]; rewrite Hv; apply runs_ret|].
    eapply runs_calls; [exact H2|exact Ht].
  - intros w3 (_ & Et & _) Hx. apply Hend. unfold delay_expired, gets. rewrite Et, E2, E1, Hx. done.
Qed.

(** A fast sleep asked for while the chip does not answer with its identifier is never
    carried out: from power-up on, at every yield of the thread, CanSpi_QryFastSleep answers
    that the request is still open, the hardware is not ready, and the module keeps the
    processor from sleeping. *)
Theorem canspi_fast_sleep_starved w0 w t w' :
  chip_mute → (CanSpi_Init;; CanSpi_ReqFastSleep) w0 = Some (tt, w) → rtc (pt_next spi_rely) (CanSpi_Cyclic, w) (t, w') → at_yield t →
  CanSpi_QryFastSleep w' = Some (false, w') ∧ CanSpi_CanHwReady w' = Some (false, w') ∧ spi_no_sleep w' = true.
Proof using HC.
  intros Hm Ei Hs Hy. assert (wp (CanSpi_Init;; CanSpi_ReqFastSleep) (λ _, starving) w0) as Hi.
  { unfold CanSpi_Init, CanSpi_ReqFastSleep, reset_pin, set_spi_state, set_fast_sleep, delay_start, set_timer, request_cpu, set_pwr, spi_call_, spi_ev. by spi_steps. }
  pose proof (proj1 (wp_eq _ _ _ _ _ Ei) Hi) as Hst. destruct (pwp_safe _ _ _ _ _ _ _ (starving_thread_pwp Hm w Hst) Hs) as [HG _].
  destruct (HG Hy) as (E1 & E2 & E3). unfold CanSpi_QryFastSleep, CanSpi_CanHwReady, gets. rewrite bool_decide_true, bool_decide_false by done. done.
Qed.
End claims.

Lemma demo_init id irq : @CanSpi_Init unit (demo_spi id irq) demo_up = Some (tt, demo_started).
Proof. reflexivity. Qed.

(** The world at the end of the first call of the cyclic function. *)
#[local] Opaque pt_call.
Definition demo_first (id irq : Z) : option (CanSpiWorld unit) := let HE := demo_spi id irq in snd <$> pt_call 3000 CanSpi_Cyclic demo_started.
Definition demo_after (id irq : Z) : CanSpiWorld unit := default demo_up (demo_first id irq).
Lemma demo_exec id irq : is_Some (demo_first id irq) → let HE := demo_spi id irq in
  ∃ t, rtc (pt_next spi_rely) (CanSpi_Cyclic, demo_started) (t, demo_after id irq) ∧ at_yield t.
Proof. intros [w E] HE. unfold demo_after. rewrite E. unfold demo_first in E. cbv zeta in E. exact (call_exec spi_rely 3000 _ _ _ E). Qed.

(** The chip comes up in the first call. *)
Lemma canspi_ready_means_up_witness : let HE := demo_spi TCAN_DEVICE_ID 0 in
  ∃ t w', rtc (pt_next spi_rely) (CanSpi_Cyclic, demo_started) (t, w') ∧ at_yield t ∧ CanSpi_CanHwReady w' = Some (true, w') ∧
    spi_no_sleep w' = false ∧ progress (spi_trace w') = 4 ∧ chip_up w'.
Proof.
  intros HE. destruct (demo_exec TCAN_DEVICE_ID 0) as (t & Hs & Hy); [vm_compute; by eexists|]. set (w' := demo_after TCAN_DEVICE_ID 0) in *. exists t, w'. split; [exact Hs|]. split; [exact Hy|].
  assert (CanSpi_CanHwReady w' = Some (true, w')) as Hr by (vm_compute; reflexivity). split; [exact Hr|]. split; [vm_compute; reflexivity|].
  exact (proj1 (proj2 (proj2 (@canspi_ready_means_up unit HE (demo_spi_laws _ _) demo_up demo_started t w' eq_refl (demo_init _ _) Hs) Hy)) Hr).
Defined.

(** A chip that does not answer is reset. *)
Lemma canspi_reset_pulse_witness : let HE := demo_spi 0 0 in let HC := demo_spi_laws 0 0 in
  ∃ t w', rtc (pt_next spi_rely) (CanSpi_Cyclic, demo_started) (t, w') ∧ at_yield t ∧ SpiResetPin true ∈ spi_trace w' ∧ @resets_ok unit HE HC (spi_trace w').
Proof.
  intros HE HC. destruct (demo_exec 0 0) as (t & Hs & Hy); [vm_compute; by eexists|]. set (w' := demo_after 0 0) in *. exists t, w'. split; [exact Hs|]. split; [exact Hy|].
  split; [apply list_elem_of_In; vm_compute; tauto|]. exact (@canspi_reset_pulse unit HE HC demo_up demo_started t w' eq_refl (demo_init _ _) Hs Hy).
Defined.

Lemma demo_answers id irq : 0 ≤ id < 4294967296 → 0 ≤ irq < 4294967296 → @chip_answers unit (demo_spi id irq) (λ a, demo_regs id irq (256 * u8 (Z.shiftr a 8) + u8 a)).
Proof.
  intros Hid Hirq. split; [done|intros a; unfold demo_regs; repeat case_match; lia|]. intros a u. cbn -[be32 demo_regs]. do 2 f_equal. unfold rev16.
  assert (u8 (Z.lor (Z.shiftl (u8 a) 8) (u8 (Z.shiftr a 8))) = u8 (Z.shiftr a 8) ∧ u8 (Z.shiftr (Z.lor (Z.shiftl (u8 a) 8) (u8 (Z.shiftr a 8))) 8) = u8 a) as [-> ->]; [|done].
  pose proof (u8_bound a). pose proof (u8_bound (Z.shiftr a 8)). rewrite (lor_shift 8) by lia. rewrite (Z.shiftr_div_pow2 (_ + _)) by lia.
  generalize dependent (u8 (Z.shiftr a 8)). generalize dependent (u8 a). intros x Hx y Hy. unfold u8. split; Z.div_mod_to_equations; lia.
Qed.

(** A hot chip takes the module out of READY. *)
Lemma canspi_health_check_witness : let HE := demo_spi TCAN_DEVICE_ID (2 ^ 19) in
  ∃ w', runs nCANSPI_cChkHealth demo_ready false w' ∧ nCANSPIeState w' = CANSPI_INITSTATE_FAULT ∧ spi_no_sleep w' = false.
Proof.
  intros HE. destruct (@canspi_health_check unit HE (demo_spi_laws _ _) _ demo_ready (demo_answers TCAN_DEVICE_ID (2 ^ 19) ltac:(done) ltac:(done)) eq_refl eq_refl) as (w' & l & Hr & _ & _ & Es & En).
  exists w'. split; [exact Hr|]. split; [exact Es|exact En].
Defined.

Lemma canspi_brings_up_witness : let HE := demo_spi TCAN_DEVICE_ID 0 in
  ∃ t w', calls CanSpi_Cyclic demo_started t w' ∧ CanSpi_CanHwReady w' = Some (true, w').
Proof.
  intros HE. destruct (@canspi_brings_up unit HE (demo_spi_laws _ _) _ demo_started (demo_answers TCAN_DEVICE_ID 0 ltac:(done) ltac:(done)) eq_refl) as (t & w' & l & irq & Hc & Hr & _).
  - by split.
  - exists t, w'. by split.
Defined.

Lemma canspi_reset_wait_skipped_witness : let HE := demo_spi TCAN_DEVICE_ID (2 ^ 20) in
  ∃ t w1, calls nCANSPI_cResetTCAN demo_ready t w1 ∧ last (spi_trace w1) = Some (SpiResetPin false) ∧ runs t w1 tt w1.
Proof.
  intros HE. destruct (@canspi_reset_wait_skipped unit HE demo_ready (λ _, eq_refl)) as (t & w1 & Hc & Hl & Ht & Hend). exists t, w1. split; [done|]. split; [done|].
  apply Hend; [|done]. split; [apply evolve_refl|done].
Defined.

(** The request for a fast sleep at power-up. *)
Definition demo_asked : CanSpiWorld unit :=
  mkSpi 0 CANSPI_INITSTATE_PWRON 7 nCANSPIkeFS_Request CAN_44_TCAN4x5x_UNINIT CANTRCV_44_TCAN4x5x_UNINIT false true tt [SpiResetPin false].
Lemma canspi_fast_sleep_starved_witness : let HE := demo_spi 0 0 in
  ∃ t w', rtc (pt_next spi_rely) (CanSpi_Cyclic, demo_asked) (t, w') ∧ at_yield t ∧ CanSpi_QryFastSleep w' = Some (false, w').
Proof.
  intros HE. destruct (snd <$> pt_call 3000 CanSpi_Cyclic demo_asked) as [w'|] eqn:E; [|exfalso; vm_compute in E; discriminate E].
  destruct (call_exec spi_rely 3000 _ _ _ E) as (t & Hs & Hy). exists t, w'. split; [exact Hs|]. split; [exact Hy|].
  refine (proj1 (@canspi_fast_sleep_starved unit HE (demo_spi_laws _ _) demo_up demo_asked t w' _ eq_refl Hs Hy)). intros u v Hv. vm_compute in Hv. by injection Hv as <-.
Defined.
