(* ===== verification/TcanTypes.v ===== *)
(** * The CAN driver: constants, configuration, state (Can_44_TCAN4x5x.h, Can_44_TCAN4x5x_MCan.h)

    The driver of the TCAN4x5x, an M_CAN controller behind an SPI link.  The variables of the
    two source files that are arrays over the controllers are grouped in one record per
    controller; the common prefix Can_44_TCAN4x5x_ is shortened to Tcan_ or dropped.  SPI
    driver, configuration and compile-time switches are the class [Tcan_Env]; what the driver
    tells its neighbours is recorded in a trace. *)

From S2P Require Import Prelude ComStack CanIf.
From stdpp Require Import base list numbers option.

#[local] Open Scope Z_scope.

(** ** Registers

    Byte addresses; the offsets are those of the register structures. *)

Definition DEVCFG_BASE : Z := 2048.
Definition MCAN_BASE : Z := 4096.
Definition MSG_RAM_BASE_ADDR : Z := 32768.
Definition DEV_ModePinsCfg : Z := DEVCFG_BASE.
Definition DEV_Prescale : Z := DEVCFG_BASE + 4.
Definition MCAN_reg (index : Z) : Z := MCAN_BASE + 4 * index.
Definition REG_DBTP : Z := MCAN_reg 3.
Definition REG_CCCR : Z := MCAN_reg 6.
Definition REG_NBTP : Z := MCAN_reg 7.
Definition REG_TSCC : Z := MCAN_reg 8.
Definition REG_TSCV : Z := MCAN_reg 9.
Definition REG_TOCC : Z := MCAN_reg 10.
Definition REG_TDCE : Z := MCAN_reg 18.
Definition REG_INTR : Z := MCAN_reg 20.
Definition REG_IE : Z := MCAN_reg 21.
Definition REG_GFC : Z := MCAN_reg 32.
Definition REG_SIDFC : Z := MCAN_reg 33.
Definition REG_NDAT1 : Z := MCAN_reg 38.
Definition REG_NDAT2 : Z := MCAN_reg 39.
Definition REG_RXF0C : Z := MCAN_reg 40.
Definition REG_RXF0S : Z := MCAN_reg 41.
Definition REG_RXF0A : Z := MCAN_reg 42.
Definition REG_RXBC : Z := MCAN_reg 43.
Definition REG_RXF1C : Z := MCAN_reg 44.
Definition REG_RXF1S : Z := MCAN_reg 45.
Definition REG_RXF1A : Z := MCAN_reg 46.
Definition REG_RXESC : Z := MCAN_reg 47.
Definition REG_TXBC : Z := MCAN_reg 48.
Definition REG_TXESC : Z := MCAN_reg 50.
Definition REG_TXBRP : Z := MCAN_reg 51.
Definition REG_TXBAR : Z := MCAN_reg 52.
Definition REG_TXBCR : Z := MCAN_reg 53.
Definition REG_TXEFC : Z := MCAN_reg 60.
Definition REG_TXEFS : Z := MCAN_reg 61.
Definition REG_TXEFA : Z := MCAN_reg 62.

(** Masks of the registers and of the message RAM elements. *)
Definition CCCR_INIT : Z := 1.
Definition CCCR_CCE : Z := 2.
Definition CCCR_CSR : Z := 16.
Definition CCCR_FDOE : Z := 256.
Definition CCCR_BRSE : Z := 512.
Definition IR_RF0N : Z := 1.
Definition IR_RF0L : Z := 8.
Definition IR_RF1N : Z := 16.
Definition IR_RF1L : Z := 128.
Definition IR_TEFN : Z := 4096.
Definition IR_TEFL : Z := 32768.
Definition IR_DRX : Z := 524288.
Definition IR_BO : Z := 33554432.
Definition ILE_EINT0 : Z := 1.
Definition ILE_EINT1 : Z := 2.
Definition RXFS_RFL : Z := 33554432.
Definition RXFS_FGI : Z := 16128.
Definition RXFS_FFL : Z := 127.
Definition TXEFS_REFGI : Z := 7936.
Definition TXEFS_EFFL : Z := 63.
Definition RX_ELEMENT_R0_XTD : Z := 1073741824.
Definition RX_ELEMENT_R0_ID : Z := 536870911.
Definition RX_ELEMENT_R1_FDF : Z := 2097152.
Definition RX_ELEMENT_R1_DLC : Z := 983040.
Definition RX_ELEMENT_R1_FIDX : Z := 2130706432.
Definition TX_EVENT_FIFO_ELEMENT_R1_MM : Z := 4278190080.
Definition ID_TYPE_MASK : Z := 2147483648.
Definition FRAME_TYPE_MASK : Z := 1073741824.
Definition EXTD_ID_MASK : Z := 2147483648.
Definition FD_FRAME_MASK : Z := 1073741824.

Definition SPI_WRITE : Z := 97.
Definition SPI_READ : Z := 65.
Definition SPI_READ_WAIT : Z := 81.

Definition TASK_CONTEXT : Z := 0.
Definition ISR_CONTEXT : Z := 1.
Definition MAIN_FUNCTION_CONTEXT : Z := 2.

Definition INIT_WAIT_TIMEOUT : nat := 10.

(** Limits of the nominal bit timing. *)
Definition TSEG1_MIN : Z := 1.
Definition TSEG1_MAX : Z := 255.
Definition TSEG2_MAX : Z := 127.
Definition SJW_MAX : Z := 127.
Definition NBRP_MAX : Z := 511.

(** ** Service and error codes *)

Definition SID_INIT : Z := 0.
Definition SID_MAINFUNCTION_WRITE : Z := 1.
Definition SID_SETCONTROLLERMODE : Z := 3.
Definition SID_DISABLECONTROLLERINTERRUPTS : Z := 4.
Definition SID_ENABLECONTROLLERINTERRUPTS : Z := 5.
Definition SID_WRITE : Z := 6.
Definition SID_GETVERSIONINFO : Z := 7.
Definition SID_MAINFUNCTION_READ : Z := 8.
Definition SID_MAINFUNCTION_BUSOFF : Z := 9.
Definition SID_CHECKWAKEUP : Z := 11.
Definition SID_MAINFUNCTION_MODE : Z := 12.
Definition SID_SET_BAUDRATE : Z := 15.
Definition SET_ICOMCONFIGURATION_INIT : Z := 31.
Definition DET_PARAM_POINTER : Z := 1.
Definition DET_PARAM_HANDLE : Z := 2.
Definition DET_PARAM_DLC : Z := 3.
Definition DET_PARAM_CONTROLLER : Z := 4.
Definition DET_UNINIT : Z := 5.
Definition DET_TRANSITION : Z := 6.
Definition DET_DATALOST : Z := 7.
Definition DET_PARAM_BAUDRATE : Z := 8.
Definition DET_INIT_FAILED : Z := 9.
Definition DET_INVALID_NOMINAL_BITTIMING_PARAM : Z := 10.
Definition DET_INVALID_DATA_BITTIMING_PARAM : Z := 12.
Definition DET_TX_EVENT_FIFO_ELEMENT_LOST : Z := 15.
Definition DET_SETBAUDRATE_FAILED : Z := 26.
Definition DET_SETMODE_FAILED : Z := 42.
Definition DET_ICOM_CONFIG_INVALID : Z := 47.
Definition DET_INVALID_ARGUMENTS : Z := 186.

(** Values of DriverState: CAN_44_TCAN4x5x_UNINIT, CAN_44_TCAN4x5x_READY and the error code
    CAN_44_TCAN4x5x_E_UNINIT, which Init stores too. *)
Definition DRV_UNINIT : Z := 0.
Definition DRV_READY : Z := 1.
Definition DRV_E_UNINIT : Z := 5.

(** CAN_44_TCAN4x5x_StateType. *)
Inductive TcanDevState := STATE_UNINIT | STATE_IDLE | STATE_RUNNING | STATE_SLEEP | STATE_BUSOFF | STATE_WAKEUP.
#[global] Instance TcanDevState_eq_dec : EqDecision TcanDevState.
Proof. solve_decision. Defined.
#[global] Instance Can_StateTransitionType_eq_dec : EqDecision Can_StateTransitionType.
Proof. solve_decision. Defined.

(** ** Configuration

    A pointer to an array of structures is the list of them; the lengths the code trusts are
    the fields of the source. *)

Record FdBaudrateConfig := mkFdBaud {
  CanFDControllerBRP : Z;
  CanControllerDataPropSeg : Z;
  CanControllerDataSeg1 : Z;
  CanControllerDataSeg2 : Z;
  CanControllerDataSyncJumpWidth : Z;
  CanControllerDataTrcvDelayCompensationOffset : Z;
  CanControllerDataTxBitRateSwitch : Z }.

Record BaudrateConfig := mkBaud {
  CanControllerBRP : Z;
  CanControllerPropSeg : Z;
  CanControllerSeg1 : Z;
  CanControllerSeg2 : Z;
  CanControllerSyncJumpWidth : Z;
  CanControllerFdBaudrateConf : option FdBaudrateConfig }.

Record RxObjFilterConfig := mkFilter {
  CanIdType : Z;
  CanFilterType : Z;
  CanMessageBufferType : Z;
  CanHwFilterCode : Z;
  CanHwFilterMask : Z }.

Record TxObjConfig := mkTxObj {
  CanFdPaddingValue : Z;
  CanHwObjectCount : Z;
  CanTxBufferIndex : Z;
  CanTriggerTransmitEnable : bool }.

Record MsgRamConfig := mkMsgRam {
  CanStdandardIDFiltersCount : Z;
  CanExtendedIDFiltersCount : Z;
  CanFifo0BufferCount : Z;
  CanFifo1BufferCount : Z;
  CanDedicatedRxBufferCount : Z;
  CanTxBufferCount : Z }.

Record ControllerConfig := mkCtrlCfg {
  CanControllerDefaultBaudrate : Z;
  CanMsgRamConfig : MsgRamConfig;
  CanNumOfBaudRateConf : Z;
  CanControllerBaudrateConfigPtr : list BaudrateConfig;
  CanRxObjFilterConfigPtr : list RxObjFilterConfig;
  CanTxObjConfigPtr : list TxObjConfig;
  CanFilterIdxToRxObjStandard : list Z;
  CanFilterIdxToRxObjExtended : list Z;
  CanSpiBaudrateRef : Z }.

Record HTHMappingConfig := mkHth { CanCtrlId : Z; CanHthIndex : Z }.

Record TcanConfig := mkTcanCfg {
  CanHTHobjectsCount : Z;
  CanHRHobjectsCount : Z;
  CanSpiCommRetryDelay : Z;
  CanSpiCommRetries : Z;
  CanHTHMappingConfigPtr : list HTHMappingConfig;
  CanControllerConfiguration : list ControllerConfig }.

(** Can_44_TCAN4x5x_ControllerConfigType_PC. *)
Inductive Processing := POLLING | INTERRUPT.
#[global] Instance Processing_eq_dec : EqDecision Processing.
Proof. solve_decision. Defined.
Record ControllerSetting := mkSetting {
  CanXtalClock : Z;
  CanSpiSequenceRef : list Z;
  CanSpiChannel : list Z;
  CanFDBaudRateEnabled : bool;
  CanFdDataBufSize : Z;
  CanBusoffProcessing : Processing;
  CanRxProcessing : Processing;
  CanTxProcessing : Processing;
  CanWakeupRef : Z }.

(** Pretended networking. *)
Inductive IcomSignalOperation := ICOM_SIG_OP_AND | ICOM_SIG_OP_EQUAL | ICOM_SIG_OP_GREATER | ICOM_SIG_OP_SMALLER | ICOM_SIG_OP_XOR.
Record IcomRxMessageSignalConfig := mkIcomSig {
  CanIcomSignalMask : Z;
  CanIcomSignalOperation : IcomSignalOperation;
  CanIcomSignalValue : Z }.
Record IcomRxMessage := mkIcomMsg {
  CanIcomCounterValue : Z;
  CanRxObjFilterIComConfigPtr : list RxObjFilterConfig;
  CanIcomPayloadLengthError : bool;
  CanIcomRxMessageSignalConfig_size : Z;
  CanIcomRxMessageSignalConfigPtr : list IcomRxMessageSignalConfig }.
Record IcomConfig := mkIcom {
  canIcomRxMessages_size : Z;
  CanIcomRxMessagePtr : list IcomRxMessage }.

(** ** State *)

(** Can_44_TCAN4x5x_MCAN_RWDevType. *)
Record RWDevType := mkDev {
  dev_state : TcanDevState;
  EXTND_ID_FILTER_START_ADDR : Z;
  RX_BUFFER_START_ADDR : Z;
  RX_FIFO0_START_ADDR : Z;
  RX_FIFO1_START_ADDR : Z;
  TX_EVENT_FIFO_START_ADDR : Z;
  TX_BUFFER_START_ADDR : Z }.

(** ControllerIf_State: a mode of CanIf or CAN_44_TCAN4x5x_MODE_TRANSITION_IN_PROGRESS. *)
Inductive IfState := IF_MODE (m : CanIf_ControllerModeType) | MODE_TRANSITION_IN_PROGRESS.
#[global] Instance IfState_eq_dec : EqDecision IfState.
Proof. solve_decision. Defined.

(** The elements of one controller in the arrays of the driver.  [SpiBuf] holds the words
    of SpiTxBuf[3][20] followed by those of SpiRxBuf[3][20]; [ControllerMode] is [None] when
    the variable has a value that is no transition. *)
Record Ctrl := mkCtrl {
  ControllerMode : option Can_StateTransitionType;
  ControllerIf_State : IfState;
  InterruptDisableCount : Z;
  SpiBuf : list Z;
  ExCntxt : Z;
  ReadCmd : Z;
  RWDev : RWDevType;
  Mcan_swPduHandle : list Z;
  Mcan_FdConfig : option FdBaudrateConfig;
  CurrentTxTimeStamp : Z;
  IcomWakeup : Z;
  GComConfigId : Z;
  IcomMsgCounter : list Z }.

Record Vars := mkVars {
  DriverState : Z;
  WasCanTrcvInSleep : Z;
  ApiId : Z;
  MajorRevId : Z;
  Mcan_stdFilterIndex : Z;
  Mcan_extFilterIndex : Z;
  HthMutex : list Z;
  ConfigPtr : option TcanConfig;
  DrvConfigPtr : option TcanConfig }.

(** What the driver tells its neighbours.  The functions it calls there are taken not to call
    the driver again before they return. *)
Inductive Tcan_Event :=
| EvModeIndication (c : Z) (m : CanIf_ControllerModeType)
| EvBusOff (c : Z)
| EvRxIndication (c hoh canid : Z) (sdu : option (list Z)) (len ts : Z)
| EvTxConfirmation (pdu : Z)
| EvTcanDet (service error : Z)
| EvWdgKick
| EvCheckWakeup (source : Z)
| EvSetWakeupEvent (source : Z)
| EvIcomConfiguration (c id : Z) (ok : bool).

Record TcanWorld (U : Type) := mkTcan { vars : Vars; ctrls : list Ctrl; up : U; tc_trace : list Tcan_Event }.
Arguments mkTcan {U} _ _ _ _.
Arguments vars {U} _.
Arguments ctrls {U} _.
Arguments up {U} _.
Arguments tc_trace {U} _.

(** The switches and values of Can_44_TCAN4x5x_Cfg.h, which is not part of the repository,
    the SPI driver and the macro SWAP32.  [Spi_SyncTransmit seq out u] transfers the bytes of
    the buffers that Spi_SetupEB was given: [out] are the bytes behind the transmit pointer,
    the second result those that arrive behind the receive pointer.  [TRANSITION_0] is the
    transition whose enumerator has the value 0, if there is one. *)
Class Tcan_Env (U : Type) := {
  DEV_ERROR_DETECT : bool;
  VARIANT_PRE_COMPILE : option TcanConfig;
  VARIANT_POST_BUILD : bool;
  TARGET_TCAN1043 : bool;
  PUBLIC_ICOM_SUPPORT : bool;
  ICOM_COUNTER_VALUE : bool;
  ICOM_RX_MESSAGE_SINAL_CONFIGURATION : bool;
  ICOM_CONFIG_MAX : Z;
  ICOM_RX_MESSAGE_TOTAL : nat;
  Icomconfig : list IcomConfig;
  TRIGGER_TRANSMIT_SUPPORTED_IN_CANIF : bool;
  ANCHOR_PCB : bool;
  SPI_MSG_DET_LOG : bool;
  TRANSITION_0 : option Can_StateTransitionType;
  NUM_CONTROLLER_MAX : nat;
  XTAL_FREQUENCY : Z;
  TIMESTAMP_FREQUENCY : Z;
  ControllerSetting_PC : list ControllerSetting;
  SWAP32 : Z → Z;
  tcan_SetupEB : Z → Z → U → Std_ReturnType * U;
  tcan_SyncTransmit : Z → list Z → U → Std_ReturnType * list Z * U;
  CanIf_TriggerTransmit : Z → Z → U → Std_ReturnType * PduInfoType * U;
  LPDU_RECEIVE_CALLOUT : option (Z → Z → Z → option (list Z) → bool)
}.

(** The cleared variables at power-on. *)
Definition cleared_dev : RWDevType := mkDev STATE_UNINIT 0 0 0 0 0 0.
Definition cleared_ctrl `{Tcan_Env U} : Ctrl :=
  mkCtrl TRANSITION_0 (IF_MODE CANIF_CS_UNINIT) 0 (replicate 120 0) 0 0 cleared_dev (replicate 32 0) None 0 0 0 (replicate ICOM_RX_MESSAGE_TOTAL 0).
Definition cleared_vars `{Tcan_Env U} : Vars :=
  mkVars DRV_UNINIT 0 0 0 0 0 (replicate (32 * NUM_CONTROLLER_MAX) 0) None None.
Definition tcan_power_on `{Tcan_Env U} (u : U) : TcanWorld U :=
  mkTcan cleared_vars (replicate NUM_CONTROLLER_MAX cleared_ctrl) u [].

(** ** Updates of the records *)

Definition set_mode (m : option Can_StateTransitionType) (k : Ctrl) : Ctrl :=
  mkCtrl m (ControllerIf_State k) (InterruptDisableCount k) (SpiBuf k) (ExCntxt k) (ReadCmd k) (RWDev k) (Mcan_swPduHandle k)
    (Mcan_FdConfig k) (CurrentTxTimeStamp k) (IcomWakeup k) (GComConfigId k) (IcomMsgCounter k).
Definition set_ifstate (s : IfState) (k : Ctrl) : Ctrl :=
  mkCtrl (ControllerMode k) s (InterruptDisableCount k) (SpiBuf k) (ExCntxt k) (ReadCmd k) (RWDev k) (Mcan_swPduHandle k)
    (Mcan_FdConfig k) (CurrentTxTimeStamp k) (IcomWakeup k) (GComConfigId k) (IcomMsgCounter k).
Definition set_discount (n : Z) (k : Ctrl) : Ctrl :=
  mkCtrl (ControllerMode k) (ControllerIf_State k) n (SpiBuf k) (ExCntxt k) (ReadCmd k) (RWDev k) (Mcan_swPduHandle k)
    (Mcan_FdConfig k) (CurrentTxTimeStamp k) (IcomWakeup k) (GComConfigId k) (IcomMsgCounter k).
Definition set_buf (b : list Z) (k : Ctrl) : Ctrl :=
  mkCtrl (ControllerMode k) (ControllerIf_State k) (InterruptDisableCount k) b (ExCntxt k) (ReadCmd k) (RWDev k) (Mcan_swPduHandle k)
    (Mcan_FdConfig k) (CurrentTxTimeStamp k) (IcomWakeup k) (GComConfigId k) (IcomMsgCounter k).
Definition set_excntxt (x : Z) (k : Ctrl) : Ctrl :=
  mkCtrl (ControllerMode k) (ControllerIf_State k) (InterruptDisableCount k) (SpiBuf k) x (ReadCmd k) (RWDev k) (Mcan_swPduHandle k)
    (Mcan_FdConfig k) (CurrentTxTimeStamp k) (IcomWakeup k) (GComConfigId k) (IcomMsgCounter k).
Definition set_readcmd (x : Z) (k : Ctrl) : Ctrl :=
  mkCtrl (ControllerMode k) (ControllerIf_State k) (InterruptDisableCount k) (SpiBuf k) (ExCntxt k) x (RWDev k) (Mcan_swPduHandle k)
    (Mcan_FdConfig k) (CurrentTxTimeStamp k) (IcomWakeup k) (GComConfigId k) (IcomMsgCounter k).
Definition set_dev (d : RWDevType) (k : Ctrl) : Ctrl :=
  mkCtrl (ControllerMode k) (ControllerIf_State k) (InterruptDisableCount k) (SpiBuf k) (ExCntxt k) (ReadCmd k) d (Mcan_swPduHandle k)
    (Mcan_FdConfig k) (CurrentTxTimeStamp k) (IcomWakeup k) (GComConfigId k) (IcomMsgCounter k).
Definition set_dev_state (s : TcanDevState) (k : Ctrl) : Ctrl :=
  let d := RWDev k in
  set_dev (mkDev s (EXTND_ID_FILTER_START_ADDR d) (RX_BUFFER_START_ADDR d) (RX_FIFO0_START_ADDR d) (RX_FIFO1_START_ADDR d)
             (TX_EVENT_FIFO_START_ADDR d) (TX_BUFFER_START_ADDR d)) k.
Definition set_pduhandles (l : list Z) (k : Ctrl) : Ctrl :=
  mkCtrl (ControllerMode k) (ControllerIf_State k) (InterruptDisableCount k) (SpiBuf k) (ExCntxt k) (ReadCmd k) (RWDev k) l
    (Mcan_FdConfig k) (CurrentTxTimeStamp k) (IcomWakeup k) (GComConfigId k) (IcomMsgCounter k).
Definition set_fdconfig (f : option FdBaudrateConfig) (k : Ctrl) : Ctrl :=
  mkCtrl (ControllerMode k) (ControllerIf_State k) (InterruptDisableCount k) (SpiBuf k) (ExCntxt k) (ReadCmd k) (RWDev k) (Mcan_swPduHandle k)
    f (CurrentTxTimeStamp k) (IcomWakeup k) (GComConfigId k) (IcomMsgCounter k).
Definition set_txts (t : Z) (k : Ctrl) : Ctrl :=
  mkCtrl (ControllerMode k) (ControllerIf_State k) (InterruptDisableCount k) (SpiBuf k) (ExCntxt k) (ReadCmd k) (RWDev k) (Mcan_swPduHandle k)
    (Mcan_FdConfig k) t (IcomWakeup k) (GComConfigId k) (IcomMsgCounter k).
Definition set_icom (wakeup id : Z) (cnt : list Z) (k : Ctrl) : Ctrl :=
  mkCtrl (ControllerMode k) (ControllerIf_State k) (InterruptDisableCount k) (SpiBuf k) (ExCntxt k) (ReadCmd k) (RWDev k) (Mcan_swPduHandle k)
    (Mcan_FdConfig k) (CurrentTxTimeStamp k) wakeup id cnt.

Definition set_driverstate (x : Z) (v : Vars) : Vars :=
  mkVars x (WasCanTrcvInSleep v) (ApiId v) (MajorRevId v) (Mcan_stdFilterIndex v) (Mcan_extFilterIndex v) (HthMutex v) (ConfigPtr v) (DrvConfigPtr v).
Definition set_wassleep (x : Z) (v : Vars) : Vars :=
  mkVars (DriverState v) x (ApiId v) (MajorRevId v) (Mcan_stdFilterIndex v) (Mcan_extFilterIndex v) (HthMutex v) (ConfigPtr v) (DrvConfigPtr v).
Definition set_apiid (x : Z) (v : Vars) : Vars :=
  mkVars (DriverState v) (WasCanTrcvInSleep v) x (MajorRevId v) (Mcan_stdFilterIndex v) (Mcan_extFilterIndex v) (HthMutex v) (ConfigPtr v) (DrvConfigPtr v).
Definition set_revid (x : Z) (v : Vars) : Vars :=
  mkVars (DriverState v) (WasCanTrcvInSleep v) (ApiId v) x (Mcan_stdFilterIndex v) (Mcan_extFilterIndex v) (HthMutex v) (ConfigPtr v) (DrvConfigPtr v).
Definition set_filteridx (s e : Z) (v : Vars) : Vars :=
  mkVars (DriverState v) (WasCanTrcvInSleep v) (ApiId v) (MajorRevId v) s e (HthMutex v) (ConfigPtr v) (DrvConfigPtr v).
Definition set_mutexes (l : list Z) (v : Vars) : Vars :=
  mkVars (DriverState v) (WasCanTrcvInSleep v) (ApiId v) (MajorRevId v) (Mcan_stdFilterIndex v) (Mcan_extFilterIndex v) l (ConfigPtr v) (DrvConfigPtr v).
Definition set_configptr (c : option TcanConfig) (v : Vars) : Vars :=
  mkVars (DriverState v) (WasCanTrcvInSleep v) (ApiId v) (MajorRevId v) (Mcan_stdFilterIndex v) (Mcan_extFilterIndex v) (HthMutex v) c (DrvConfigPtr v).
Definition set_drvconfigptr (c : option TcanConfig) (v : Vars) : Vars :=
  mkVars (DriverState v) (WasCanTrcvInSleep v) (ApiId v) (MajorRevId v) (Mcan_stdFilterIndex v) (Mcan_extFilterIndex v) (HthMutex v) (ConfigPtr v) c.

(** ** Accesses *)

Section access.
Context {U : Type} `{HE : Tcan_Env U}.
Abbreviation W := (TcanWorld U).

Definition setv (f : Vars → Vars) : M W unit := modify (λ w, mkTcan (f (vars w)) (ctrls w) (up w) (tc_trace w)).
Definition getv {A} (f : Vars → A) : M W A := gets (λ w, f (vars w)).
Definition tc_ev (e : Tcan_Event) : M W unit := modify (λ w, mkTcan (vars w) (ctrls w) (up w) (tc_trace w ++ [e])).
Definition tc_call {R} (f : U → R * U) : M W R := λ w,
  let '(r, u) := f (up w) in Some (r, mkTcan (vars w) (ctrls w) u (tc_trace w)).
(** The variables of controller [c]. *)
Definition ctl (c : Z) : M W Ctrl := w ← gets id; lift (aget (ctrls w) c).
Definition getc {A} (c : Z) (f : Ctrl → A) : M W A := k ← ctl c; mret (f k).
Definition setc (c : Z) (f : Ctrl → Ctrl) : M W unit :=
  w ← gets id;
  k ← lift (aget (ctrls w) c);
  l ← lift (aset (ctrls w) c (f k));
  modify (λ w, mkTcan (vars w) l (up w) (tc_trace w)).
Definition setting (c : Z) : M W ControllerSetting := lift (aget ControllerSetting_PC c).
(** [Can_44_TCAN4x5x_ConfigPtr->...]. *)
Definition config : M W TcanConfig := p ← getv ConfigPtr; lift p.
Definition ctrl_config (cfg : TcanConfig) (c : Z) : M W ControllerConfig := lift (aget (CanControllerConfiguration cfg) c).
(** The word [i] of SpiTxBuf[ExCntxt] and of SpiRxBuf[ExCntxt]. *)
Definition tx_base (k : Ctrl) : Z := ExCntxt k * 20.
Definition rx_base (k : Ctrl) : Z := 60 + ExCntxt k * 20.
Definition txset (c i x : Z) : M W unit :=
  k ← ctl c; b ← lift (aset (SpiBuf k) (tx_base k + i) x); setc c (set_buf b).
Definition txget (c i : Z) : M W Z := k ← ctl c; lift (aget (SpiBuf k) (tx_base k + i)).
Definition rxget (c i : Z) : M W Z := k ← ctl c; lift (aget (SpiBuf k) (rx_base k + i)).
(** Det_ReportError, which is compiled in with DEV_ERROR_DETECT only. *)
Definition det (service error : Z) : M W unit := when DEV_ERROR_DETECT (tc_ev (EvTcanDet service error)).
Definition det_api (error : Z) : M W unit := s ← getv ApiId; det s error.
End access.
