(* ===== verification/TcanSpi.v ===== *)
(** * The CAN driver: access to the registers over SPI (Can_44_TCAN4x5x_MCan.c)

    Every register and every word of the message RAM is reached by a transfer of a header
    word and data words, in the buffers of the execution context.  The words are swapped in
    place before and after the transfer.  Critical sections have no effect on the sequential
    behaviour; the variant that masks the pin interrupt through GPIO registers
    (CAN_44_TCAN4x5x_ENABLE_GPIO_INTERRUPT_CONTROL) is left out. *)

From S2P Require Import Prelude ComStack CanIf TcanTypes.
From stdpp Require Import base list numbers option.

#[local] Open Scope Z_scope.

Section TcanSpi.
Context {U : Type} `{HE : Tcan_Env U}.
Abbreviation W := (TcanWorld U).

(** The loop [for (i = 0; i < n; i++) p[i] = SWAP32(p[i])] on the words from [off] on. *)
Definition swap_words (aId off n : Z) : M W unit :=
  k ← ctl aId;
  ws ← lift (aslice (SpiBuf k) off n);
  b ← lift (awrite (SpiBuf k) off (SWAP32 <$> ws));
  setc aId (set_buf b).

(** One call of Spi_SyncTransmit on the buffers that were set up. *)
Definition spi_transmit (aId seq tx rx n : Z) : M W Std_ReturnType :=
  k ← ctl aId;
  out ← lift (aslice (SpiBuf k) tx (n + 1));
  rm ← tc_call (tcan_SyncTransmit seq (bytes_of out));
  b ← lift (awrite (SpiBuf k) rx (words_of rm.2));
  setc aId (set_buf b);;
  mret rm.1.

(** The do-while loop.  The 8-bit counter of tries exceeds every limit below 255 within 256
    turns; with a limit of 255 a link that never answers keeps the loop going for ever, and
    the model then has no result. *)
Fixpoint spi_retry (fuel : nat) (aId seq tx rx n NoOfSpiCommRetry : Z) : M W Std_ReturnType :=
  match fuel with
  | O => ub
  | S fuel =>
      r ← spi_transmit aId seq tx rx n;
      match r with
      | E_OK => swap_words aId rx (n + 1);; mret E_OK
      | E_NOT_OK =>
          cfg ← config;
          let tries := u8 (NoOfSpiCommRetry + 1) in
          if tries <=? CanSpiCommRetries cfg then spi_retry fuel aId seq tx rx n tries else mret E_NOT_OK
      end
  end.

(** For the wait variant of the read command the answer starts one word later, and the
    receive pointer one word earlier. *)
Definition Tcan_SpiRW (aId address word_count cmd : Z) : M W Std_ReturnType :=
  k ← ctl aId;
  txset aId 0 (u32 (Z.lor (Z.lor (Z.shiftl cmd 24) (Z.shiftl address 8)) word_count));;
  swap_words aId (tx_base k) (word_count + 1);;
  cs ← setting aId;
  ch ← lift (aget (CanSpiChannel cs) (ExCntxt k));
  let wait := cmd =? SPI_READ_WAIT in
  let rx := if wait then rx_base k - 1 else rx_base k in
  let n := if wait then u8 (word_count + 1) else word_count in
  r ← tc_call (tcan_SetupEB ch (u16 (Z.shiftl (n + 1) 2)));
  match r with
  | E_NOT_OK => mret E_NOT_OK
  | E_OK =>
      seq ← lift (aget (CanSpiSequenceRef cs) (ExCntxt k));
      spi_retry 256 aId seq (tx_base k) rx n 0
  end.

Definition Tcan_SpiRead (aId address word_count : Z) : M W Std_ReturnType :=
  cmd ← getc aId ReadCmd;
  Tcan_SpiRW aId address word_count cmd.

(** With SPI_MSG_DET_LOG the words are read back after the write (and logged). *)
Definition Tcan_SpiWrite (aId address word_count : Z) : M W Std_ReturnType :=
  if SPI_MSG_DET_LOG then
    r ← Tcan_SpiRW aId address word_count SPI_WRITE;
    mfor (Z.to_nat word_count) 1 (λ ii, k ← ctl aId; b ← lift (aset (SpiBuf k) (rx_base k + ii) 0); setc aId (set_buf b));;
    cmd ← getc aId ReadCmd;
    Tcan_SpiRW aId address word_count cmd;;
    mret r
  else Tcan_SpiRW aId address word_count SPI_WRITE.

(** Revision 3 of the chip: a register that reads as zero is read again. *)
Definition Tcan_VerifySpiRead (aId address : Z) : M W unit :=
  rev ← getv MajorRevId;
  when (rev =? 3)
    (x ← rxget aId 1;
     when (x =? 0)
       (if REG_NDAT1 =? address then
          y ← rxget aId 2;
          when (y =? 0) (Tcan_SpiRead aId address 2;; mret tt)
        else Tcan_SpiRead aId address 1;; mret tt)).

(** Read a register and look again, as the callers do; the status is that of the first read. *)
Definition read_verified (aId address word_count : Z) : M W Std_ReturnType :=
  r ← Tcan_SpiRead aId address word_count;
  Tcan_VerifySpiRead aId address;;
  mret r.
(** Store one word in the transmit buffer and write it to a register. *)
Definition write_word (aId address x : Z) : M W Std_ReturnType :=
  txset aId 1 x;; Tcan_SpiWrite aId address 1.
(** Read, modify and write a register, if the read succeeds. *)
Definition modify_reg (aId address : Z) (f : Z → Z) : M W unit :=
  r ← Tcan_SpiRead aId address 1;
  match r with
  | E_OK => x ← rxget aId 1; write_word aId address (f x);; mret tt
  | E_NOT_OK => mret tt
  end.
End TcanSpi.
