(* ===== verification/TcanMCan.v ===== *)
(** * The CAN driver: modes, bit timing, message RAM and start-up (Can_44_TCAN4x5x_MCan.c)

    The functions of Can_44_TCAN4x5x_MCan.c that configure the controller.  Clearing the bits
    [m] of a word is [Z.ldiff x m].  The codes E_OK and E_NOT_OK, where the source mixes them
    with those of Can_ReturnType, are CAN_OK and CAN_NOT_OK.  The loop-back and FPGA variants
    are left out. *)

From S2P Require Import Prelude ComStack CanIf TcanTypes TcanSpi.
From stdpp Require Import base list numbers option.

#[local] Open Scope Z_scope.

Definition MCAN_ROBufferSizeFD : list Z := [8; 12; 16; 20; 24; 32; 48; 64].

(** ** Bit search *)

(** The loop of GetCntLeadZero, for the counts [cs]. *)
Fixpoint clz_loop (cs : list Z) (value Num : Z) : Z :=
  match cs with
  | [] => Num - value
  | Cnt :: cs =>
      let temp1 := Z.shiftr value Cnt in
      if negb (temp1 =? 0) then clz_loop cs temp1 (Num - Cnt) else clz_loop cs value Num
  end.
Definition GetCntLeadZero (value : Z) : Z := clz_loop [16; 8; 4; 2; 1] value 32.

Definition getmsb (val : Z) : Z :=
  let bitpos := 31 - GetCntLeadZero (u32 (Z.shiftr val 32)) in
  if bitpos <? 0 then 31 - GetCntLeadZero (Z.land val 4294967295) else bitpos + 32.

(** ** Length codes *)

Definition ConvertToDLC (msgLength : Z) : Z :=
  if msgLength <=? 8 then msgLength
  else if msgLength <=? 12 then 9
  else if msgLength <=? 16 then 10
  else if msgLength <=? 20 then 11
  else if msgLength <=? 24 then 12
  else if msgLength <=? 32 then 13
  else if msgLength <=? 48 then 14
  else 15.

Definition ConvertCanDLC (canDLC : Z) : Z :=
  if canDLC =? 9 then 12
  else if canDLC =? 10 then 16
  else if canDLC =? 11 then 20
  else if canDLC =? 12 then 24
  else if canDLC =? 13 then 32
  else if canDLC =? 14 then 48
  else if canDLC =? 15 then 64
  else canDLC.

(** Bytes to words, rounded up. *)
Definition words_for (MsgLength : Z) : Z :=
  if negb (Z.land MsgLength 3 =? 0) then MsgLength / 4 + 1 else MsgLength / 4.

Section TcanMCan.
Context {U : Type} `{HE : Tcan_Env U}.
Abbreviation W := (TcanWorld U).

(** The size of the data field of a buffer element of the controller. *)
Definition buf_size (aId : Z) : M W Z :=
  cs ← setting aId; lift (aget MCAN_ROBufferSizeFD (CanFdDataBufSize cs)).

(** ** Initialisation mode *)

(** Bits 6 and 7, or bit 21 from silicon 2.0 on, of the mode register of the TCAN1043. *)
Definition test_mode_bits (rev : Z) : Z := if negb (rev =? 2) then 192 else 2097152.

Fixpoint init_wait (timeout : nat) (aId : Z) : M W Can_ReturnType :=
  match timeout with
  | O => mret CAN_OK
  | S timeout =>
      Tcan_SpiRead aId REG_CCCR 1;;
      CCCRValue ← rxget aId 1;
      if negb (Z.land CCCRValue CCCR_INIT =? 0) then mret CAN_OK
      else if DEV_ERROR_DETECT && bool_decide (timeout = 0%nat) then det_api DET_INIT_FAILED;; mret CAN_NOT_OK
      else init_wait timeout aId
  end.

Definition Tcan_MCAN_SetInit (aId : Z) : M W Can_ReturnType :=
  Tcan_SpiRead aId REG_CCCR 1;;
  CCCRValue ← rxget aId 1;
  if Z.land CCCRValue CCCR_INIT =? 0 then
    Tcan_SpiRead aId DEV_ModePinsCfg 1;;
    rev ← getv MajorRevId;
    when (TARGET_TCAN1043 && (rev =? 2))
      (x ← rxget aId 1; write_word aId DEV_ModePinsCfg (Z.ldiff (Z.lor x 64) 128);; mret tt);;
    x ← rxget aId 1;
    write_word aId DEV_ModePinsCfg (if TARGET_TCAN1043 then Z.lor (Z.ldiff x 32) (test_mode_bits rev) else Z.ldiff x 32);;
    write_word aId REG_CCCR (Z.lor CCCRValue CCCR_INIT);;
    init_wait INIT_WAIT_TIMEOUT aId
  else mret CAN_OK.

(** Whether the bit was seen cleared. *)
Fixpoint run_wait (timeout : nat) (aId : Z) : M W bool :=
  match timeout with
  | O => mret false
  | S timeout =>
      Tcan_SpiRead aId REG_CCCR 1;;
      ResetVal ← rxget aId 1;
      if Z.land ResetVal CCCR_INIT =? 0 then mret true else run_wait timeout aId
  end.

Definition Tcan_MCAN_ResetInit (aId : Z) : M W unit :=
  Tcan_SpiRead aId REG_CCCR 1;;
  x ← rxget aId 1;
  write_word aId REG_CCCR (Z.ldiff x CCCR_INIT);;
  ok ← run_wait INIT_WAIT_TIMEOUT aId;
  if ok : bool then
    Tcan_SpiRead aId DEV_ModePinsCfg 1;;
    y ← rxget aId 1;
    rev ← getv MajorRevId;
    write_word aId DEV_ModePinsCfg (if TARGET_TCAN1043 then Z.lor (Z.lor y 32) (test_mode_bits rev) else Z.lor y 32);;
    when (TARGET_TCAN1043 && (rev =? 2))
      (z ← txget aId 1; write_word aId DEV_ModePinsCfg (Z.ldiff (Z.lor z 128) 64);; mret tt)
  else det_api DET_INIT_FAILED.

Definition Tcan_MCAN_ResetCCE (aId : Z) : M W unit :=
  ret ← Tcan_MCAN_SetInit aId;
  match ret with
  | CAN_OK => modify_reg aId REG_CCCR (λ x, Z.ldiff x CCCR_CCE)
  | _ => mret tt
  end.

Definition Tcan_MCAN_ClearTXBRP (aId : Z) : M W unit :=
  r ← Tcan_SpiRead aId REG_TXBRP 1;
  match r with
  | E_OK => x ← rxget aId 1; when (negb (x =? 0)) (write_word aId REG_TXBCR x;; mret tt)
  | E_NOT_OK => mret tt
  end.

(** ** Interrupts *)

Definition IE_value (cs : ControllerSetting) : Z :=
  Z.lor (Z.lor (if decide (CanRxProcessing cs = INTERRUPT) then Z.lor IR_DRX (Z.lor IR_RF0N (Z.lor IR_RF1N (Z.lor IR_RF0L IR_RF1L))) else 0)
               (if decide (CanTxProcessing cs = INTERRUPT) then Z.lor IR_TEFN IR_TEFL else 0))
        (if decide (CanBusoffProcessing cs = INTERRUPT) then IR_BO else 0).

Definition Tcan_MCAN_EnableAllInterrupts (aId : Z) : M W unit :=
  cs ← setting aId;
  txset aId 1 (IE_value cs);;
  txset aId 2 (if ANCHOR_PCB then 1073741823 else 0);;
  txset aId 3 (if ANCHOR_PCB then ILE_EINT1 else ILE_EINT0);;
  Tcan_SpiWrite aId REG_IE 3;;
  mret tt.

Definition Tcan_MCAN_DisableAllInterrupts (aId : Z) : M W unit :=
  write_word aId REG_IE 0;; mret tt.

(** ** Controller modes *)

Definition Tcan_MCAN_SetMode (aId : Z) (aState : TcanDevState) : M W Can_ReturnType :=
  if Z.of_nat NUM_CONTROLLER_MAX <=? aId then mret CAN_NOT_OK
  else
    match aState with
    | STATE_IDLE =>
        setc aId (set_dev_state STATE_IDLE);;
        read_verified aId REG_TXBRP 1;;
        TXBRPValue ← rxget aId 1;
        if negb (TXBRPValue =? 0) then
          write_word aId REG_TXBCR TXBRPValue;;
          mret CAN_BUSY
        else
          retval ← Tcan_MCAN_SetInit aId;
          modify_reg aId REG_CCCR (λ x, Z.ldiff (Z.lor x CCCR_CCE) CCCR_CSR);;
          mret retval
    | STATE_RUNNING =>
        setc aId (set_dev_state STATE_RUNNING);;
        Tcan_MCAN_EnableAllInterrupts aId;;
        Tcan_MCAN_ResetCCE aId;;
        Tcan_MCAN_ResetInit aId;;
        mret CAN_OK
    | STATE_SLEEP =>
        setc aId (set_dev_state STATE_SLEEP);;
        modify_reg aId REG_CCCR (λ x, Z.lor x CCCR_CSR);;
        Tcan_MCAN_DisableAllInterrupts aId;;
        mret CAN_OK
    | STATE_WAKEUP =>
        setc aId (set_dev_state STATE_WAKEUP);;
        modify_reg aId REG_CCCR (λ x, Z.ldiff x CCCR_CSR);;
        mret CAN_OK
    | STATE_UNINIT =>
        setc aId (set_dev_state STATE_UNINIT);;
        setv (set_driverstate 0);;
        mret CAN_OK
    | STATE_BUSOFF => mret CAN_NOT_OK
    end.

Definition Tcan_MCAN_SetCCE (aId : Z) : M W unit :=
  r ← Tcan_MCAN_SetMode aId STATE_IDLE;
  match r with
  | CAN_OK => modify_reg aId REG_CCCR (λ x, Z.lor x CCCR_CCE)
  | _ => det_api DET_INIT_FAILED
  end.

(** Compiled in for the test environment only. *)
Definition Tcan_MCAN_DeInit (aId : Z) : M W unit :=
  s ← getc aId (λ k, dev_state (RWDev k));
  if decide (s = STATE_UNINIT) then mret tt
  else
    Tcan_MCAN_DisableAllInterrupts aId;;
    Tcan_MCAN_SetMode aId STATE_UNINIT;;
    setc aId (set_mode TRANSITION_0).

(** ** Bit timing *)

Definition nbtp_value (ntseg1 ntseg2 nsjw nbrp : Z) : Z :=
  u32 (Z.lor (Z.lor (Z.shiftl nsjw 25) (Z.shiftl nbrp 16)) (Z.lor (Z.shiftl ntseg1 8) ntseg2)).
Definition dbtp_value (dtseg1 dtseg2 dsjw dbrp tdc : Z) : Z :=
  u32 (Z.lor (Z.lor (Z.lor dsjw (Z.shiftl dbrp 16)) (Z.lor (Z.shiftl dtseg1 8) (Z.shiftl dtseg2 4))) (Z.shiftl tdc 23)).
(** The test of both the nominal and the data bit timing, against the nominal limits. *)
Definition bittiming_invalid (tseg1 tseg2 sjw brp : Z) : bool :=
  (tseg1 <? TSEG1_MIN) || (TSEG1_MAX <? tseg1) || (TSEG2_MAX <? tseg2) || (SJW_MAX <? sjw) || (NBRP_MAX <? brp).

(** The part on the data phase: the error code so far and the value for DBTP. *)
Definition set_data_timing (aId : Z) (aConfig : BaudrateConfig) : M W (Can_ReturnType * Z) :=
  setc aId (set_fdconfig (CanControllerFdBaudrateConf aConfig));;
  fd ← lift (CanControllerFdBaudrateConf aConfig);
  let dtseg1 := CanControllerDataPropSeg fd + CanControllerDataSeg1 fd in
  let dtseg2 := CanControllerDataSeg2 fd in
  let dsjw := CanControllerDataSyncJumpWidth fd in
  let dbrp := CanFDControllerBRP fd in
  let tdc := if negb (CanControllerDataTrcvDelayCompensationOffset fd =? 0) then 1 else 0 in
  let bad := DEV_ERROR_DETECT && bittiming_invalid dtseg1 dtseg2 dsjw dbrp in
  when bad (det_api DET_INVALID_DATA_BITTIMING_PARAM);;
  mret (if bad then CAN_NOT_OK else CAN_OK,
        if CanControllerDataTxBitRateSwitch fd =? 1 then dbtp_value dtseg1 dtseg2 dsjw dbrp tdc else 0).

Definition Tcan_MCAN_SetBaudrate (aId : Z) (aConfig : BaudrateConfig) : M W Can_ReturnType :=
  let ntseg1 := CanControllerPropSeg aConfig + CanControllerSeg1 aConfig in
  let ntseg2 := CanControllerSeg2 aConfig in
  let nsjw := CanControllerSyncJumpWidth aConfig in
  let nbrp := CanControllerBRP aConfig in
  if DEV_ERROR_DETECT && bittiming_invalid ntseg1 ntseg2 nsjw nbrp then
    det_api DET_INVALID_NOMINAL_BITTIMING_PARAM;; mret CAN_NOT_OK
  else
    cs ← setting aId;
    let fdon := CanFDBaudRateEnabled cs in
    rd ← (if fdon then set_data_timing aId aConfig else mret (CAN_OK, 0));
    write_word aId DEV_Prescale (u32 (XTAL_FREQUENCY / 8 / TIMESTAMP_FREQUENCY));;
    write_word aId REG_TSCC 2;;
    write_word aId REG_TOCC 0;;
    when fdon
      (modify_reg aId REG_CCCR (λ x, Z.lor x CCCR_FDOE);;
       fd ← lift (CanControllerFdBaudrateConf aConfig);
       when (CanControllerDataTxBitRateSwitch fd =? 1) (modify_reg aId REG_CCCR (λ x, Z.lor x CCCR_BRSE)));;
    write_word aId REG_NBTP (nbtp_value ntseg1 ntseg2 nsjw nbrp);;
    when fdon
      (fd ← lift (CanControllerFdBaudrateConf aConfig);
       let off := CanControllerDataTrcvDelayCompensationOffset fd in
       when (negb (off =? 0)) (write_word aId REG_TDCE (u32 (Z.shiftl (off - 1) 8));; mret tt);;
       write_word aId REG_DBTP rd.2;;
       mret tt);;
    mret rd.1.

(** ** Filters *)

Definition configFilterMasks (aId : Z) (filterObjPtr : RxObjFilterConfig) (filterConfig : Z) : M W unit :=
  if CanIdType filterObjPtr =? 0 then
    idx ← getv Mcan_stdFilterIndex;
    write_word aId (MSG_RAM_BASE_ADDR + 4 * idx)
      (u32 (Z.lor (Z.lor (Z.shiftl (CanFilterType filterObjPtr) 30) (Z.shiftl filterConfig 27))
                  (Z.lor (Z.shiftl (CanHwFilterCode filterObjPtr) 16) (CanHwFilterMask filterObjPtr))));;
    ext ← getv Mcan_extFilterIndex;
    setv (set_filteridx (u8 (idx + 1)) ext)
  else
    idx ← getv Mcan_extFilterIndex;
    start ← getc aId (λ k, EXTND_ID_FILTER_START_ADDR (RWDev k));
    txset aId 1 (u32 (Z.lor (Z.shiftl filterConfig 29) (CanHwFilterCode filterObjPtr)));;
    txset aId 2 (u32 (Z.lor (Z.shiftl (CanFilterType filterObjPtr) 30) (CanHwFilterMask filterObjPtr)));;
    Tcan_SpiWrite aId (MSG_RAM_BASE_ADDR + start + 4 * idx) 2;;
    std ← getv Mcan_stdFilterIndex;
    setv (set_filteridx std (u8 (idx + 2))).

Definition Tcan_MCAN_ConfigureGlobalFilters (aId : Z) (rxFilterObjPtr : list RxObjFilterConfig) (canFilterObjSize : Z) : M W unit :=
  write_word aId REG_GFC 63;;
  setv (set_filteridx 0 0);;
  mfor (Z.to_nat canFilterObjSize) 0 (λ idx,
    f ← lift (aget rxFilterObjPtr idx);
    configFilterMasks aId f (CanMessageBufferType f)).

(** ** Message RAM *)

Definition set_dev_field (aId : Z) (f : RWDevType → RWDevType) : M W unit := setc aId (λ k, set_dev (f (RWDev k)) k).

(** Where the areas of the message RAM start, for counts and an element data size. *)
Definition ext_filter_start (m : MsgRamConfig) : Z := CanStdandardIDFiltersCount m * 4.
Definition fifo0_start (m : MsgRamConfig) : Z := ext_filter_start m + CanExtendedIDFiltersCount m * 8.
Definition fifo1_start (m : MsgRamConfig) (size : Z) : Z := fifo0_start m + CanFifo0BufferCount m * (size + 8).
Definition rx_buffer_start (m : MsgRamConfig) (size : Z) : Z := fifo1_start m size + CanFifo1BufferCount m * (size + 8).
Definition tx_event_start (m : MsgRamConfig) (size : Z) : Z := rx_buffer_start m size + CanDedicatedRxBufferCount m * (size + 8).
Definition tx_buffer_start (m : MsgRamConfig) (size : Z) : Z := tx_event_start m size + CanTxBufferCount m * 8.

Definition Tcan_MCAN_MessageRAM_Init (aId : Z) (m : MsgRamConfig) : M W unit :=
  txset aId 1 (u32 (Z.lor (Z.shiftl (CanStdandardIDFiltersCount m) 16) 0));;
  set_dev_field aId (λ d, mkDev (dev_state d) (ext_filter_start m) (RX_BUFFER_START_ADDR d) (RX_FIFO0_START_ADDR d) (RX_FIFO1_START_ADDR d)
                            (TX_EVENT_FIFO_START_ADDR d) (TX_BUFFER_START_ADDR d));;
  txset aId 2 (u32 (Z.lor (Z.shiftl (CanExtendedIDFiltersCount m) 16) (ext_filter_start m)));;
  Tcan_SpiWrite aId REG_SIDFC 2;;
  set_dev_field aId (λ d, mkDev (dev_state d) (EXTND_ID_FILTER_START_ADDR d) (RX_BUFFER_START_ADDR d) (fifo0_start m) (RX_FIFO1_START_ADDR d)
                            (TX_EVENT_FIFO_START_ADDR d) (TX_BUFFER_START_ADDR d));;
  size ← buf_size aId;
  write_word aId REG_RXF0C (u32 (Z.lor (Z.shiftl (CanFifo0BufferCount m) 16) (fifo0_start m)));;
  set_dev_field aId (λ d, mkDev (dev_state d) (EXTND_ID_FILTER_START_ADDR d) (RX_BUFFER_START_ADDR d) (RX_FIFO0_START_ADDR d) (fifo1_start m size)
                            (TX_EVENT_FIFO_START_ADDR d) (TX_BUFFER_START_ADDR d));;
  write_word aId REG_RXF1C (u32 (Z.lor (Z.shiftl (CanFifo1BufferCount m) 16) (fifo1_start m size)));;
  set_dev_field aId (λ d, mkDev (dev_state d) (EXTND_ID_FILTER_START_ADDR d) (rx_buffer_start m size) (RX_FIFO0_START_ADDR d) (RX_FIFO1_START_ADDR d)
                            (TX_EVENT_FIFO_START_ADDR d) (TX_BUFFER_START_ADDR d));;
  write_word aId REG_RXBC (rx_buffer_start m size);;
  set_dev_field aId (λ d, mkDev (dev_state d) (EXTND_ID_FILTER_START_ADDR d) (RX_BUFFER_START_ADDR d) (RX_FIFO0_START_ADDR d) (RX_FIFO1_START_ADDR d)
                            (tx_event_start m size) (TX_BUFFER_START_ADDR d));;
  write_word aId REG_TXEFC (u32 (Z.lor (Z.shiftl (CanTxBufferCount m) 16) (tx_event_start m size)));;
  set_dev_field aId (λ d, mkDev (dev_state d) (EXTND_ID_FILTER_START_ADDR d) (RX_BUFFER_START_ADDR d) (RX_FIFO0_START_ADDR d) (RX_FIFO1_START_ADDR d)
                            (TX_EVENT_FIFO_START_ADDR d) (tx_buffer_start m size));;
  write_word aId REG_TXBC (u32 (Z.lor (Z.shiftl 1 30) (Z.lor (Z.shiftl (CanTxBufferCount m) 16) (tx_buffer_start m size))));;
  cs ← setting aId;
  let code := CanFdDataBufSize cs in
  write_word aId REG_RXESC (u32 (Z.lor (Z.lor (Z.shiftl code 8) (Z.shiftl code 4)) code));;
  write_word aId REG_TXESC code;;
  mret tt.

(** ** Start-up *)

(** The pins of the TCAN1043 are set up in three writes. *)
Definition tcan1043_pins (aId : Z) : M W unit :=
  Tcan_SpiRead aId DEV_ModePinsCfg 1;;
  r ← rxget aId 1;
  rev ← getv MajorRevId;
  let r1 := Z.lor (Z.ldiff r 16384) 32768 in
  write_word aId DEV_ModePinsCfg r1;;
  let r2 := if negb (rev =? 2) then Z.lor (Z.ldiff r1 2) 1 else Z.lor r1 1 in
  write_word aId DEV_ModePinsCfg r2;;
  write_word aId DEV_ModePinsCfg (Z.lor r2 (test_mode_bits rev));;
  mret tt.

Definition clear_message_ram (aId : Z) : M W unit :=
  mfor 16 0 (λ indx, txset aId (1 + indx) 0);;
  mfor 32 0 (λ indx,
    Tcan_SpiWrite aId (MSG_RAM_BASE_ADDR + indx * 16 * 4) 16;;
    when (indx =? 16) (tc_ev EvWdgKick)).

(** The configuration of a controller of known revision. *)
Definition mcan_configure (aId : Z) (cc : ControllerConfig) : M W unit :=
  Tcan_MCAN_SetCCE aId;;
  clear_message_ram aId;;
  Tcan_MCAN_MessageRAM_Init aId (CanMsgRamConfig cc);;
  baud ← lift (aget (CanControllerBaudrateConfigPtr cc) (CanControllerDefaultBaudrate cc));
  ret ← Tcan_MCAN_SetBaudrate aId baud;
  let filter_size := u8 (CanStdandardIDFiltersCount (CanMsgRamConfig cc) + CanExtendedIDFiltersCount (CanMsgRamConfig cc)) in
  Tcan_MCAN_ConfigureGlobalFilters aId (CanRxObjFilterConfigPtr cc) filter_size;;
  when TARGET_TCAN1043 (tcan1043_pins aId);;
  when DEV_ERROR_DETECT
    (when (negb (bool_decide (ret = CAN_OK))) (det_api DET_SETBAUDRATE_FAILED);;
     r ← Tcan_MCAN_SetMode aId STATE_IDLE;
     when (negb (bool_decide (r = CAN_OK))) (det_api DET_SETMODE_FAILED)).

Definition Tcan_MCAN_Init (aId : Z) (aConfig : option TcanConfig) : M W unit :=
  cs ← setting aId;
  cfg ← lift aConfig;
  cc ← ctrl_config cfg aId;
  (if (12400000 <? CanSpiBaudrateRef cc) && (CanXtalClock cs <=? 20000000) then
     setc aId (set_readcmd SPI_READ_WAIT);;
     write_word aId 20 522126355;; mret tt
   else setc aId (set_readcmd SPI_READ));;
  when TARGET_TCAN1043 (write_word aId 2096 0;; mret tt);;
  Tcan_SpiRead aId 8 1;;
  ReadData ← rxget aId 1;
  setv (set_revid (Z.land (Z.shiftr ReadData 8) 255));;
  rev ← getv MajorRevId;
  if negb (rev =? 1) then
    (if aId <? Z.of_nat NUM_CONTROLLER_MAX then mcan_configure aId cc else det_api DET_INVALID_ARGUMENTS);;
    setv (set_drvconfigptr aConfig)
  else mret tt.
End TcanMCan.
