(* ===== verification/TcanTraffic.v ===== *)
(** * The CAN driver: reception, transmission, events (Can_44_TCAN4x5x_MCan.c, Can_44_TCAN4x5x_Irq.c)

    Elements of the Rx buffers and FIFOs become indications to CanIf, entries of the Tx event
    FIFO confirmations, and frames to send Tx buffer elements.  The code that takes an Rx
    element apart, which the source repeats for buffers and both FIFOs, is
    [read_rx_element]. *)

From S2P Require Import Prelude ComStack CanIf TcanTypes TcanSpi TcanMCan.
From stdpp Require Import base list numbers option.

#[local] Open Scope Z_scope.

(** Can_44_TCAN4x5x_MsgInfoType: [canMsgDataPtr] holds the [canMsgLength] bytes behind the
    pointer, [None] for NULL_PTR. *)
Record MsgInfoType := mkMsgInfo {
  canID : Z;
  canMsgExt : bool;
  canMsgLength : Z;
  canMsgDataPtr : option (list Z);
  canMessageFormat : Z;
  canFilterIndex : Z;
  canTimeStamp : Z }.

(** The message that the words [r0], [r1] of an Rx element announce, with its data. *)
Definition rx_message (r0 r1 : Z) (data : list Z) : MsgInfoType :=
  let ext := negb (Z.land r0 RX_ELEMENT_R0_XTD =? 0) in
  let len := ConvertCanDLC (Z.shiftr (Z.land r1 RX_ELEMENT_R1_DLC) 16) in
  mkMsgInfo (if ext then Z.land r0 RX_ELEMENT_R0_ID else Z.shiftr (Z.land r0 RX_ELEMENT_R0_ID) 18) ext len
    (if 0 <? len then Some data else None)
    (Z.shiftr (Z.land r1 RX_ELEMENT_R1_FDF) 21) (Z.shiftr (Z.land r1 RX_ELEMENT_R1_FIDX) 24) (u16 r1).

(** [1UL << n] on 32 bits; a shift by 32 or more has no defined result. *)
Definition bit32 (n : Z) : option Z := if (0 <=? n) && (n <? 32) then Some (Z.shiftl 1 n) else None.

Section TcanTraffic.
Context {U : Type} `{HE : Tcan_Env U}.
Abbreviation W := (TcanWorld U).

(** ** Pretended networking *)

Definition check_wakeup (aId : Z) : M W unit :=
  cs ← setting aId; tc_ev (EvCheckWakeup (CanWakeupRef cs)).
Definition set_icom_wakeup (aId x : Z) : M W unit := setc aId (λ k, set_icom x (GComConfigId k) (IcomMsgCounter k) k).

(** Whether the operation of the signal holds of the masked data. *)
Definition icom_signal_holds (op : IcomSignalOperation) (data value : Z) : bool :=
  match op with
  | ICOM_SIG_OP_AND => negb (Z.land data value =? 0)
  | ICOM_SIG_OP_EQUAL => data =? value
  | ICOM_SIG_OP_GREATER => value <? data
  | ICOM_SIG_OP_SMALLER => data <? value
  | ICOM_SIG_OP_XOR => negb (Z.lxor data value =? 0)
  end.

(** The signals of a message in turn; the value compared with is that of the first one. *)
Fixpoint icom_signals (n : nat) (i : Z) (sigs : list IcomRxMessageSignalConfig) (data value : Z) : M W bool :=
  match n with
  | O => mret false
  | S n =>
      s ← lift (aget sigs i);
      if icom_signal_holds (CanIcomSignalOperation s) data value then mret true else icom_signals n (i + 1) sigs data value
  end.

(** The data bytes shifted into a 64-bit word, most significant first. *)
Definition icom_shift_in (data : Z) (bytes : list Z) : Z :=
  foldl (λ d b, Z.lor (uw 64 (Z.shiftl d 8)) b) data bytes.

(** The loop over the messages: [ptr] is the index of LpIcomRxmessagePtr, [data] the word that
    the turns share. *)
Fixpoint icom_loop (n : nat) (aId LucCount ptr : Z) (msgs : list IcomRxMessage) (MsgInfo : MsgInfoType) (data : Z) : M W bool :=
  match n with
  | O => mret false
  | S n =>
      m ← lift (aget msgs ptr);
      f ← lift (aget (CanRxObjFilterIComConfigPtr m) LucCount);
      if CanIcomPayloadLengthError m && negb (canMsgLength MsgInfo =? 8) then
        set_icom_wakeup aId 1;;
        check_wakeup aId;;
        icom_loop n aId (LucCount + 1) ptr msgs MsgInfo data
      else
        when (ICOM_COUNTER_VALUE && (canID MsgInfo =? CanHwFilterCode f))
          (k ← ctl aId;
           c ← lift (aget (IcomMsgCounter k) LucCount);
           let c' := u8 (c + 1) in
           let hit := CanIcomCounterValue m <=? c' in
           l ← lift (aset (IcomMsgCounter k) LucCount (if hit then 0 else c'));
           setc aId (set_icom (if hit then 1 else IcomWakeup k) (GComConfigId k) l);;
           when hit (check_wakeup aId));;
        r ← (if ICOM_RX_MESSAGE_SINAL_CONFIGURATION then
               s ← lift (aget (CanIcomRxMessageSignalConfigPtr m) 0);
               bytes ← (if 0 <? canMsgLength MsgInfo then lift (canMsgDataPtr MsgInfo) else mret []);
               let d := Z.land (icom_shift_in data bytes) (CanIcomSignalMask s) in
               hit ← icom_signals (Z.to_nat (CanIcomRxMessageSignalConfig_size m)) 0 (CanIcomRxMessageSignalConfigPtr m) d (CanIcomSignalValue s);
               mret (hit, d)
             else mret (false, data));
        if r.1 : bool then mret true
        else icom_loop n aId (LucCount + 1) (ptr + 1) msgs MsgInfo r.2
  end.

Definition Tcan_ProcessIcomRx (aId : Z) (MsgInfo : MsgInfoType) : M W bool :=
  id ← getc aId GComConfigId;
  ic ← lift (aget Icomconfig (id - 1));
  CALL_Notification ← icom_loop (Z.to_nat (canIcomRxMessages_size ic)) aId 0 0 (CanIcomRxMessagePtr ic) MsgInfo 0;
  when CALL_Notification (set_icom_wakeup aId 1);;
  mret CALL_Notification.

(** ** Notifications *)

Definition Tcan_TxNotification (swPduHandle : Z) : M W unit := tc_ev (EvTxConfirmation swPduHandle).

(** Mailbox and PDU of an accepted message, to CanIf. *)
Definition rx_indicate (aId : Z) (MsgInfo : MsgInfoType) : M W unit :=
  k ← ctl aId;
  cs ← setting aId;
  Hoh ← (if negb (canMsgExt MsgInfo) && PUBLIC_ICOM_SUPPORT && negb (GComConfigId k =? 0) then mret 0
         else
           p ← getv DrvConfigPtr;
           cfg ← lift p;
           cc ← ctrl_config cfg aId;
           lift (aget (if canMsgExt MsgInfo then CanFilterIdxToRxObjExtended cc else CanFilterIdxToRxObjStandard cc) (canFilterIndex MsgInfo)));
  let id0 := if canMsgExt MsgInfo then Z.lor (canID MsgInfo) EXTD_ID_MASK else canID MsgInfo in
  let CanId := if CanFDBaudRateEnabled cs && (canMessageFormat MsgInfo =? 1) then Z.lor id0 FD_FRAME_MASK else id0 in
  let go := match LPDU_RECEIVE_CALLOUT with
            | None => true
            | Some f => f Hoh CanId (canMsgLength MsgInfo) (canMsgDataPtr MsgInfo)
            end in
  when go
    (tc_ev (EvRxIndication aId Hoh CanId (canMsgDataPtr MsgInfo) (canMsgLength MsgInfo) (canTimeStamp MsgInfo));;
     k' ← ctl aId;
     when (PUBLIC_ICOM_SUPPORT && negb (GComConfigId k' =? 0) && (IcomWakeup k' =? 1)) (check_wakeup aId)).

Definition Tcan_RxNotification (aId : Z) (MsgInfo : MsgInfoType) : M W unit :=
  id ← getc aId GComConfigId;
  ok ← (if PUBLIC_ICOM_SUPPORT && negb (id =? 0) then Tcan_ProcessIcomRx aId MsgInfo else mret true);
  when ok (rx_indicate aId MsgInfo).

(** ** Reception *)

(** The element at [rxElemAdrs]: two words, then as many data words as the length code says. *)
Definition read_rx_element (aId rxElemAdrs : Z) : M W MsgInfoType :=
  Tcan_SpiRead aId rxElemAdrs 2;;
  r0 ← rxget aId 1;
  r1 ← rxget aId 2;
  let MsgLength := canMsgLength (rx_message r0 r1 []) in
  let n := words_for MsgLength in
  Tcan_SpiRead aId (rxElemAdrs + 8) (u8 n);;
  k ← ctl aId;
  ws ← lift (aslice (SpiBuf k) (rx_base k + 1) n);
  mret (rx_message r0 r1 (take (Z.to_nat MsgLength) (bytes_of ws))).

(** [fuel] is one more than the number of bits: every turn clears one. *)
Fixpoint rxbuffer_loop (fuel : nat) (aId ndat_val : Z) : M W unit :=
  if ndat_val =? 0 then mret tt
  else
    match fuel with
    | O => ub
    | S fuel =>
        let buf_index := getmsb ndat_val in
        size ← buf_size aId;
        start ← getc aId (λ k, RX_BUFFER_START_ADDR (RWDev k));
        RxMsg ← read_rx_element aId (MSG_RAM_BASE_ADDR + start + 4 * ((2 + Z.shiftr size 2) * u8 buf_index));
        (if u8 buf_index <? 32 then b ← lift (bit32 (u8 buf_index)); write_word aId REG_NDAT1 b
         else b ← lift (bit32 (u8 buf_index - 32)); write_word aId REG_NDAT2 b);;
        Tcan_RxNotification aId RxMsg;;
        rxbuffer_loop fuel aId (Z.ldiff ndat_val (Z.shiftl 1 (u8 buf_index)))
    end.

Definition Tcan_MCAN_ProcessRxBuffer (aId : Z) : M W unit :=
  read_verified aId REG_NDAT1 2;;
  lo ← rxget aId 1;
  hi ← rxget aId 2;
  rxbuffer_loop 64 aId (Z.lor lo (Z.shiftl hi 32)).

(** One FIFO: its status and acknowledge registers and where its elements start. *)
Record RxFifo := mkRxFifo { fifo_status : Z; fifo_ack : Z; fifo_start : RWDevType → Z }.
Definition FIFO_0 : RxFifo := mkRxFifo REG_RXF0S REG_RXF0A RX_FIFO0_START_ADDR.
Definition FIFO_1 : RxFifo := mkRxFifo REG_RXF1S REG_RXF1A RX_FIFO1_START_ADDR.

Fixpoint rxfifo_loop (fifoLevel : nat) (f : RxFifo) (aId : Z) : M W unit :=
  match fifoLevel with
  | O => mret tt
  | S fifoLevel =>
      s ← rxget aId 1;
      let index := Z.shiftr (Z.land s RXFS_FGI) 8 in
      size ← buf_size aId;
      start ← getc aId (λ k, fifo_start f (RWDev k));
      RxMsg ← read_rx_element aId (MSG_RAM_BASE_ADDR + start + 4 * ((2 + Z.shiftr size 2) * index));
      write_word aId (fifo_ack f) index;;
      Tcan_RxNotification aId RxMsg;;
      when (negb (bool_decide (fifoLevel = 0%nat))) (read_verified aId (fifo_status f) 1;; mret tt);;
      rxfifo_loop fifoLevel f aId
  end.

Definition Tcan_MCAN_ProcessRxFIFO (aId : Z) (f : RxFifo) : M W unit :=
  read_verified aId (fifo_status f) 1;;
  s ← rxget aId 1;
  rxfifo_loop (Z.to_nat (Z.land s RXFS_FFL)) f aId.

(** A FIFO that has a new message, and perhaps lost one. *)
Definition process_fifo_flags (aId intr new lost : Z) (f : RxFifo) : M W unit :=
  when (negb (Z.land intr new =? 0))
    (when (DEV_ERROR_DETECT && negb (Z.land intr lost =? 0))
       (read_verified aId (fifo_status f) 1;;
        s ← rxget aId 1;
        when (negb (Z.land s RXFS_RFL =? 0)) (det_api DET_DATALOST));;
     Tcan_MCAN_ProcessRxFIFO aId f).

Definition RX_FLAGS : Z := Z.lor IR_RF0N (Z.lor IR_RF1N (Z.lor IR_DRX (Z.lor IR_RF0L IR_RF1L))).

Definition Tcan_MCAN_ProcessCanRx (aId : Z) : M W unit :=
  Read_Status ← read_verified aId REG_INTR 1;
  match Read_Status with
  | E_OK =>
      x ← rxget aId 1;
      let intr := Z.land x RX_FLAGS in
      when (negb (intr =? 0)) (write_word aId REG_INTR intr;; mret tt);;
      when (negb (Z.land intr IR_DRX =? 0)) (Tcan_MCAN_ProcessRxBuffer aId);;
      process_fifo_flags aId intr IR_RF0N IR_RF0L FIFO_0;;
      process_fifo_flags aId intr IR_RF1N IR_RF1L FIFO_1
  | E_NOT_OK => mret tt
  end.

(** ** Bus-off *)

Definition Tcan_MCAN_BusoffProcess (aId : Z) : M W unit :=
  Read_Status ← read_verified aId REG_INTR 1;
  match Read_Status with
  | E_OK =>
      x ← rxget aId 1;
      let intr := Z.land x IR_BO in
      when (negb (intr =? 0)) (write_word aId REG_INTR intr;; mret tt);;
      when (0 <? intr)
        (m ← getc aId ControllerMode;
         when (bool_decide (m = Some CAN_T_START))
           (setc aId (λ k, set_dev_state STATE_IDLE (set_mode (Some CAN_T_STOP) k));;
            tc_ev (EvBusOff aId)))
  | E_NOT_OK => mret tt
  end.

(** ** Confirmations *)

Fixpoint txevent_loop (fifoLevel : nat) (aId : Z) : M W unit :=
  match fifoLevel with
  | O => mret tt
  | S fifoLevel =>
      s ← rxget aId 1;
      let index := Z.shiftr (Z.land s TXEFS_REFGI) 8 in
      start ← getc aId (λ k, TX_EVENT_FIFO_START_ADDR (RWDev k));
      Tcan_SpiRead aId (MSG_RAM_BASE_ADDR + start + 4 * (2 * index + 1)) 1;;
      x ← rxget aId 1;
      let canMM := Z.shiftr (Z.land x TX_EVENT_FIFO_ELEMENT_R1_MM) 24 in
      setc aId (set_txts (u16 x));;
      write_word aId REG_TXEFA index;;
      k ← ctl aId;
      h ← lift (aget (Mcan_swPduHandle k) canMM);
      Tcan_TxNotification h;;
      when (negb (bool_decide (fifoLevel = 0%nat))) (read_verified aId REG_TXEFS 1;; mret tt);;
      txevent_loop fifoLevel aId
  end.

Definition Tcan_MCAN_ProcessTx (aId : Z) : M W unit :=
  read_verified aId REG_TXEFS 1;;
  s ← rxget aId 1;
  txevent_loop (Z.to_nat (Z.land s TXEFS_EFFL)) aId.

Definition Tcan_MCAN_ProcessCanTx (aId : Z) : M W unit :=
  Read_Status ← read_verified aId REG_INTR 1;
  match Read_Status with
  | E_OK =>
      x ← rxget aId 1;
      let intr := Z.land x (Z.lor IR_TEFN IR_TEFL) in
      when (negb (intr =? 0)) (write_word aId REG_INTR intr;; mret tt);;
      when (negb (Z.land intr IR_TEFN =? 0))
        (when (negb (Z.land intr IR_TEFL =? 0)) (det_api DET_TX_EVENT_FIFO_ELEMENT_LOST);;
         Tcan_MCAN_ProcessTx aId)
  | E_NOT_OK => mret tt
  end.

(** ** Interrupt *)

Definition Tcan_MCAN_ProcessCanIRQLine0 (aId : Z) : M W unit :=
  if Z.of_nat NUM_CONTROLLER_MAX <=? aId then det_api DET_PARAM_CONTROLLER
  else
    k ← ctl aId;
    when (bool_decide (dev_state (RWDev k) = STATE_RUNNING))
      (let exec_context_backup := ExCntxt k in
       cs ← setting aId;
       setc aId (set_excntxt ISR_CONTEXT);;
       when (bool_decide (CanTxProcessing cs = INTERRUPT)) (Tcan_MCAN_ProcessCanTx aId);;
       when (bool_decide (CanRxProcessing cs = INTERRUPT)) (Tcan_MCAN_ProcessCanRx aId);;
       when (bool_decide (CanBusoffProcessing cs = INTERRUPT)) (Tcan_MCAN_BusoffProcess aId);;
       setc aId (set_excntxt exec_context_backup)).

Definition Tcan_Irq_Handler (aId : Z) : M W unit :=
  cs ← setting aId;
  when (bool_decide (CanRxProcessing cs = INTERRUPT) || bool_decide (CanTxProcessing cs = INTERRUPT) || bool_decide (CanBusoffProcessing cs = INTERRUPT))
    (Tcan_MCAN_ProcessCanIRQLine0 aId).

(** ** Transmission *)

(** [memset(&txElem[2], 0, n)]: a last word that is not covered whole keeps its upper bytes. *)
Definition clear_data (aId n : Z) : M W unit :=
  mfor (Z.to_nat (n / 4)) 0 (λ i, txset aId (3 + i) 0);;
  when (negb (n mod 4 =? 0))
    (x ← txget aId (3 + n / 4);
     txset aId (3 + n / 4) (Z.shiftl (Z.shiftr x (8 * (n mod 4))) (8 * (n mod 4)))).

(** The loop that stores the data bytes, those past the SDU padded on an FD controller. *)
Definition store_data (aId : Z) (fd : bool) (pad : Z) (info : PduInfoType) (msgLength : Z) : M W unit :=
  mfor (Z.to_nat msgLength) 0 (λ index,
    data ← (if fd && (SduLength info <=? index) then mret pad
            else p ← lift (SduDataPtr info); lift (aget p index));
    x ← txget aId (3 + index / 4);
    txset aId (3 + index / 4) (Z.lor x (Z.shiftl data (8 * (index mod 4))))).

Definition tx_element_0 (id : Z) : Z :=
  if Z.land id ID_TYPE_MASK =? 0 then u32 (Z.shiftl id 18) else Z.lor (Z.shiftl 1 30) id.
Definition tx_element_1 (marker fdf brs dlc : Z) : Z :=
  u32 (Z.lor (Z.lor (Z.shiftl marker 24) (Z.shiftl 1 23)) (Z.lor (Z.lor (Z.shiftl fdf 21) (Z.shiftl brs 20)) (Z.shiftl dlc 16))).

(** The free Tx buffer [idx] is filled and its transmission requested.  The result of the
    last transfer is not looked at. *)
Definition write_element (aId : Z) (pduInfo : Can_PduType) (TxObj : TxObjConfig) (info : PduInfoType) (idx : Z) : M W Can_ReturnType :=
  txset aId 1 (tx_element_0 (pdu_id pduInfo));;
  k ← ctl aId;
  l ← lift (aset (Mcan_swPduHandle k) idx (swPduHandle pduInfo));
  setc aId (set_pduhandles l);;
  cs ← setting aId;
  let fd := CanFDBaudRateEnabled cs in
  let fdf := if fd && negb (Z.land (pdu_id pduInfo) FRAME_TYPE_MASK =? 0) then 1 else 0 in
  brs ← (if fd then f ← lift (Mcan_FdConfig k); mret (CanControllerDataTxBitRateSwitch f) else mret 0);
  let dlcCode := if fd then ConvertToDLC (SduLength info) else SduLength info in
  let msgLength := if fd then ConvertCanDLC dlcCode else SduLength info in
  txset aId 2 (tx_element_1 idx fdf brs dlcCode);;
  clear_data aId msgLength;;
  store_data aId fd (CanFdPaddingValue TxObj) info msgLength;;
  size ← buf_size aId;
  let start := TX_BUFFER_START_ADDR (RWDev k) in
  Tcan_SpiWrite aId (MSG_RAM_BASE_ADDR + start + 4 * ((2 + Z.shiftr size 2) * idx)) (u8 (words_for msgLength) + 2);;
  b ← lift (bit32 idx);
  write_word aId REG_TXBAR b;;
  mret CAN_OK.

(** The Tx buffers of the object in turn, until one has no pending request. *)
Fixpoint write_loop (n : nat) (aId : Z) (pduInfo : Can_PduType) (TxObj : TxObjConfig) (TXBRPValue tx_buf_idx : Z) (retval : Can_ReturnType) : M W Can_ReturnType :=
  match n with
  | O => mret retval
  | S n =>
      b ← lift (bit32 tx_buf_idx);
      if Z.land TXBRPValue b =? 0 then
        if TRIGGER_TRANSMIT_SUPPORTED_IN_CANIF && bool_decide (pdu_sdu pduInfo = None) && CanTriggerTransmitEnable TxObj then
          ri ← tc_call (CanIf_TriggerTransmit (swPduHandle pduInfo) (pdu_length pduInfo));
          match ri.1 with
          | E_OK => write_element aId pduInfo TxObj ri.2 tx_buf_idx
          | E_NOT_OK => mret CAN_NOT_OK
          end
        else write_element aId pduInfo TxObj (mkPduInfo (pdu_sdu pduInfo) (pdu_length pduInfo)) tx_buf_idx
      else write_loop n aId pduInfo TxObj TXBRPValue (u8 (tx_buf_idx + 1)) CAN_BUSY
  end.

Definition Tcan_MCAN_Write (aId : Z) (pduInfo : Can_PduType) (TxObj : TxObjConfig) : M W Can_ReturnType :=
  read_verified aId REG_TXBRP 1;;
  TXBRPValue ← rxget aId 1;
  write_loop (Z.to_nat (CanHwObjectCount TxObj)) aId pduInfo TxObj TXBRPValue (CanTxBufferIndex TxObj) CAN_OK.

(** ** Time stamps *)

Definition Tcan_GetCurrentTimeStampCounterValue (aId : Z) : M W Z :=
  Tcan_SpiRead aId REG_TSCV 1;; x ← rxget aId 1; mret (u16 x).
Definition Tcan_GetCurrentTxTimeStamp (aId : Z) : M W Z := getc aId CurrentTxTimeStamp.
End TcanTraffic.
