(* ===== verification/Tcan.v ===== *)
(** * The CAN driver: the services of the module (Can_44_TCAN4x5x.c)

    Every service checks its arguments when development error detection is on and works on
    one or all controllers. *)

From S2P Require Import Prelude ComStack CanIf TcanTypes TcanSpi TcanMCan TcanTraffic.
From stdpp Require Import base list numbers option.

#[local] Open Scope Z_scope.

Section Tcan.
Context {U : Type} `{HE : Tcan_Env U}.
Abbreviation W := (TcanWorld U).

Definition set_api (sid : Z) : M W unit := when DEV_ERROR_DETECT (setv (set_apiid sid)).

(** ** Checks *)

Definition Tcan_ReportDetUninit (ServiceId : Z) : M W Std_ReturnType :=
  s ← getv DriverState;
  if s =? DRV_UNINIT then det ServiceId DET_UNINIT;; mret E_NOT_OK else mret E_OK.

Definition Tcan_ReportDetParamController (ControllerId ServiceId : Z) : M W Std_ReturnType :=
  if ControllerId <? Z.of_nat NUM_CONTROLLER_MAX then mret E_OK
  else det ServiceId DET_PARAM_CONTROLLER;; mret E_NOT_OK.

(** Whether the transition is allowed in the mode of the controller. *)
Definition transition_ok (mode : option Can_StateTransitionType) (t : Can_StateTransitionType) : bool :=
  match t with
  | CAN_T_START => bool_decide (mode = Some CAN_T_STOP)
  | CAN_T_SLEEP => bool_decide (mode = Some CAN_T_SLEEP) || bool_decide (mode = Some CAN_T_STOP)
  | CAN_T_STOP => bool_decide (mode = Some CAN_T_START) || bool_decide (mode = Some CAN_T_STOP)
  | CAN_T_WAKEUP => bool_decide (mode = Some CAN_T_SLEEP) || bool_decide (mode = Some CAN_T_STOP)
  end.
Definition Tcan_ModeDetCheck (Controller : Z) (Transition : Can_StateTransitionType) : M W Std_ReturnType :=
  m ← getc Controller ControllerMode;
  mret (if transition_ok m Transition then E_OK else E_NOT_OK).

Definition Tcan_WriteDetCheck (Hth : Z) (PduInfo : option Can_PduType) : M W Std_ReturnType :=
  cfg ← config;
  if (Hth <? CanHRHobjectsCount cfg) || (CanHRHobjectsCount cfg + CanHTHobjectsCount cfg <=? Hth) then
    det SID_WRITE DET_PARAM_HANDLE;; mret E_NOT_OK
  else
    match PduInfo with
    | None => det SID_WRITE DET_PARAM_POINTER;; mret E_NOT_OK
    | Some pdu =>
        hth ← lift (aget (CanHTHMappingConfigPtr cfg) (Hth - CanHRHobjectsCount cfg));
        cs ← setting (CanCtrlId hth);
        if negb (CanFDBaudRateEnabled cs) && (8 <? pdu_length pdu) then
          det SID_WRITE DET_PARAM_DLC;; mret E_NOT_OK
        else if CanFDBaudRateEnabled cs then
          if (8 <? pdu_length pdu) && (pdu_length pdu <=? 64) && (Z.land (pdu_id pdu) FRAME_TYPE_MASK =? 0) then
            det SID_WRITE DET_PARAM_DLC;; mret E_NOT_OK
          else
            size ← buf_size (CanCtrlId hth);
            if size <? pdu_length pdu then det SID_WRITE DET_PARAM_DLC;; mret E_NOT_OK else mret E_OK
        else
          match pdu_sdu pdu with
          | Some _ => mret E_OK
          | None =>
              cc ← ctrl_config cfg (CanCtrlId hth);
              obj ← lift (aget (CanTxObjConfigPtr cc) (CanHthIndex hth));
              if CanTriggerTransmitEnable obj then mret E_OK
              else det SID_WRITE DET_PARAM_POINTER;; mret E_NOT_OK
          end
    end.

(** The checks of the services for one controller; with detection off all pass. *)
Definition check_driver (sid : Z) : M W Std_ReturnType :=
  if DEV_ERROR_DETECT then Tcan_ReportDetUninit sid else mret E_OK.
Definition check_controller (Controller sid : Z) : M W Std_ReturnType :=
  if DEV_ERROR_DETECT then
    Status ← Tcan_ReportDetUninit sid;
    match Status with E_OK => Tcan_ReportDetParamController Controller sid | E_NOT_OK => mret E_NOT_OK end
  else mret E_OK.

(** ** Initialisation *)

Definition init_check (Config : option TcanConfig) : M W Std_ReturnType :=
  if VARIANT_POST_BUILD && bool_decide (Config = None) then det_api DET_PARAM_POINTER;; mret E_NOT_OK
  else
    s ← getv DriverState;
    if negb (DRV_UNINIT =? s) then det_api DET_TRANSITION;; mret E_NOT_OK
    else
      mfor NUM_CONTROLLER_MAX 0 (λ c,
        m ← getc c ControllerMode;
        when (negb (bool_decide (m = TRANSITION_0))) (det_api DET_TRANSITION));;
      mret E_OK.

Definition init_controller (CtrlIndex : Z) : M W unit :=
  p ← getv ConfigPtr;
  Tcan_MCAN_Init CtrlIndex p;;
  rev ← getv MajorRevId;
  when (negb (rev =? 1)) (setc CtrlIndex (set_mode (Some CAN_T_STOP))).

(** The part behind the checks. *)
Definition init_controllers (Config : option TcanConfig) : M W unit :=
  when VARIANT_POST_BUILD (setv (set_configptr Config));;
  mfor NUM_CONTROLLER_MAX 0 init_controller;;
  rev ← getv MajorRevId;
  setv (set_driverstate (if negb (rev =? 1) then DRV_READY else DRV_E_UNINIT)).

Definition Tcan_Init (Config : option TcanConfig) : M W unit :=
  set_api SID_INIT;;
  match VARIANT_PRE_COMPILE with Some c => setv (set_configptr (Some c)) | None => mret tt end;;
  Status ← (if DEV_ERROR_DETECT then init_check Config else mret E_OK);
  match Status with
  | E_NOT_OK => mret tt
  | E_OK => init_controllers Config
  end.

(** Std_VersionInfoType: vendor, module, major, minor and patch version. *)
Definition Tcan_GetVersionInfo (versioninfo : bool) : M W (option (list Z)) :=
  set_api SID_GETVERSIONINFO;;
  if DEV_ERROR_DETECT && negb versioninfo then det_api DET_PARAM_POINTER;; mret None
  else if versioninfo then mret (Some [44; 80; 2; 3; 0]) else ub.

(** ** Baud rate *)

Definition Tcan_SetBaudrate (Controller BaudRateConfigID : Z) : M W Std_ReturnType :=
  set_api SID_SET_BAUDRATE;;
  Status ← (if DEV_ERROR_DETECT then
              s ← check_controller Controller SID_SET_BAUDRATE;
              match s with
              | E_NOT_OK => mret E_NOT_OK
              | E_OK =>
                  m ← getc Controller ControllerMode;
                  if negb (bool_decide (m = Some CAN_T_STOP)) then det_api DET_TRANSITION;; mret E_NOT_OK else mret E_OK
              end
            else mret E_OK);
  match Status with
  | E_NOT_OK => mret E_NOT_OK
  | E_OK =>
      cfg ← config;
      cc ← ctrl_config cfg Controller;
      if DEV_ERROR_DETECT && (CanNumOfBaudRateConf cc <=? BaudRateConfigID) then det_api DET_PARAM_BAUDRATE;; mret E_NOT_OK
      else
        Tcan_MCAN_SetCCE Controller;;
        baud ← lift (aget (CanControllerBaudrateConfigPtr cc) BaudRateConfigID);
        Tcan_MCAN_SetBaudrate Controller baud;;
        mret E_OK
  end.

(** ** Controller mode *)

(** The request to the hardware: the answer and the transition that was made; CAN_BUSY when
    nothing was to be done. *)
Definition request_mode (Controller : Z) (Transition : Can_StateTransitionType) : M W (Can_ReturnType * Can_StateTransitionType) :=
  m ← getc Controller ControllerMode;
  match Transition with
  | CAN_T_STOP =>
      if negb (bool_decide (m = Some CAN_T_STOP)) then
        r ← Tcan_MCAN_SetMode Controller STATE_IDLE;
        setc Controller (set_ifstate (if decide (r = CAN_BUSY) then MODE_TRANSITION_IN_PROGRESS else IF_MODE CANIF_CS_STOPPED));;
        mret (r, CAN_T_STOP)
      else mret (CAN_BUSY, CAN_T_STOP)
  | CAN_T_START =>
      if negb (bool_decide (m = Some CAN_T_START)) then
        was ← getv WasCanTrcvInSleep;
        when (was =? 1)
          (p ← getv ConfigPtr;
           Tcan_MCAN_Init Controller p;;
           setv (set_wassleep 0));;
        r ← Tcan_MCAN_SetMode Controller STATE_RUNNING;
        setc Controller (set_ifstate (IF_MODE CANIF_CS_STARTED));;
        mret (r, CAN_T_START)
      else mret (CAN_BUSY, CAN_T_START)
  | CAN_T_WAKEUP =>
      if negb (bool_decide (m = Some CAN_T_STOP)) then
        r ← Tcan_MCAN_SetMode Controller STATE_WAKEUP;
        setc Controller (set_ifstate (IF_MODE CANIF_CS_STOPPED));;
        mret (r, CAN_T_STOP)
      else mret (CAN_BUSY, CAN_T_WAKEUP)
  | CAN_T_SLEEP =>
      if negb (bool_decide (m = Some CAN_T_SLEEP)) then
        r ← Tcan_MCAN_SetMode Controller STATE_SLEEP;
        setc Controller (set_ifstate (IF_MODE CANIF_CS_SLEEP));;
        mret (r, CAN_T_SLEEP)
      else mret (CAN_BUSY, CAN_T_SLEEP)
  end.

(** The mode that is reported; an unfinished transition has no mode of its own. *)
Definition reported_mode (s : IfState) : option CanIf_ControllerModeType :=
  match s with IF_MODE m => Some m | MODE_TRANSITION_IN_PROGRESS => None end.
Definition mode_indication (Controller : Z) : M W unit :=
  s ← getc Controller ControllerIf_State;
  m ← lift (reported_mode s);
  tc_ev (EvModeIndication Controller m).

Definition mode_check (Controller : Z) (Transition : Can_StateTransitionType) : M W Std_ReturnType :=
  if DEV_ERROR_DETECT then
    s ← check_controller Controller SID_SETCONTROLLERMODE;
    match s with
    | E_NOT_OK => mret E_NOT_OK
    | E_OK =>
        c ← Tcan_ModeDetCheck Controller Transition;
        match c with
        | E_NOT_OK => det_api DET_TRANSITION;; mret E_NOT_OK
        | E_OK => mret E_OK
        end
    end
  else mret E_OK.

Definition Tcan_SetControllerMode (Controller : Z) (Transition : Can_StateTransitionType) : M W Can_ReturnType :=
  set_api SID_SETCONTROLLERMODE;;
  Status ← mode_check Controller Transition;
  match Status with
  | E_NOT_OK => mret CAN_NOT_OK
  | E_OK =>
      rt ← request_mode Controller Transition;
      match rt.1 with
      | CAN_OK =>
          setc Controller (set_mode (Some rt.2));;
          mode_indication Controller;;
          mret CAN_OK
      | CAN_BUSY => mret CAN_OK
      | CAN_NOT_OK => mret CAN_NOT_OK
      end
  end.

(** ** Interrupts *)

Definition Tcan_DisableControllerInterrupts (Controller : Z) : M W unit :=
  set_api SID_DISABLECONTROLLERINTERRUPTS;;
  Status ← check_controller Controller SID_DISABLECONTROLLERINTERRUPTS;
  match Status with
  | E_NOT_OK => mret tt
  | E_OK =>
      n ← getc Controller InterruptDisableCount;
      when (n =? 0) (Tcan_MCAN_DisableAllInterrupts Controller);;
      setc Controller (set_discount (u8 (n + 1)))
  end.

Definition Tcan_EnableControllerInterrupts (Controller : Z) : M W unit :=
  set_api SID_ENABLECONTROLLERINTERRUPTS;;
  Status ← check_controller Controller SID_ENABLECONTROLLERINTERRUPTS;
  match Status with
  | E_NOT_OK => mret tt
  | E_OK =>
      n ← getc Controller InterruptDisableCount;
      when (0 <? n)
        (setc Controller (set_discount (u8 (n - 1)));;
         when (u8 (n - 1) =? 0) (Tcan_MCAN_EnableAllInterrupts Controller))
  end.

(** ** Wake-up *)

Definition Tcan_CheckWakeup (Controller : Z) : M W Can_ReturnType :=
  set_api SID_CHECKWAKEUP;;
  Status ← check_controller Controller SID_CHECKWAKEUP;
  match Status with
  | E_NOT_OK => mret CAN_NOT_OK
  | E_OK =>
      if PUBLIC_ICOM_SUPPORT then
        x ← getc Controller IcomWakeup;
        if x =? 1 then
          set_icom_wakeup Controller 0;;
          cs ← setting Controller;
          tc_ev (EvSetWakeupEvent (CanWakeupRef cs));;
          mret CAN_OK
        else mret CAN_NOT_OK
      else mret CAN_NOT_OK
  end.

(** ** Transmission

    The critical sections split the service in three parts: the mutex of the object is taken,
    the element is written, the mutex is released.  Can_HwHandleType has 16 bits. *)

(** Whether the mutex was free; then it is taken. *)
Definition write_enter (hth : Z) : M W bool :=
  l ← getv HthMutex;
  x ← lift (aget l hth);
  if x =? 0 then
    l' ← lift (aset l hth 1);
    setv (set_mutexes l');;
    mret true
  else mret false.
(** The answer, and whether the mutex is to be released. *)
Definition write_body (hth : Z) (PduInfo : option Can_PduType) : M W (Can_ReturnType * bool) :=
  cfg ← config;
  h ← lift (aget (CanHTHMappingConfigPtr cfg) hth);
  id ← getc (CanCtrlId h) GComConfigId;
  if PUBLIC_ICOM_SUPPORT && negb (id =? 0) then mret (CAN_BUSY, false)
  else
    cc ← ctrl_config cfg (CanCtrlId h);
    obj ← lift (aget (CanTxObjConfigPtr cc) (CanHthIndex h));
    pdu ← lift PduInfo;
    ret ← Tcan_MCAN_Write (CanCtrlId h) pdu obj;
    (if decide (ret = CAN_NOT_OK) then det SID_WRITE DET_PARAM_POINTER else mret tt);;
    mret (ret, true).
Definition write_exit (hth : Z) : M W unit :=
  l ← getv HthMutex;
  l' ← lift (aset l hth 0);
  setv (set_mutexes l').

Definition write_check (Hth : Z) (PduInfo : option Can_PduType) : M W Std_ReturnType :=
  if DEV_ERROR_DETECT then
    s ← Tcan_ReportDetUninit SID_WRITE;
    match s with E_OK => Tcan_WriteDetCheck Hth PduInfo | E_NOT_OK => mret E_NOT_OK end
  else mret E_OK.

Definition Tcan_Write (Hth : Z) (PduInfo : option Can_PduType) : M W Can_ReturnType :=
  set_api SID_WRITE;;
  Status ← write_check Hth PduInfo;
  match Status with
  | E_NOT_OK => mret CAN_NOT_OK
  | E_OK =>
      cfg ← config;
      let hth := u16 (Hth - CanHRHobjectsCount cfg) in
      free ← write_enter hth;
      if free : bool then
        rb ← write_body hth PduInfo;
        when rb.2 (write_exit hth);;
        mret rb.1
      else mret CAN_BUSY
  end.

(** ** Cyclic functions *)

(** Run [f] for the controllers that are polled, in the context of the main function. *)
Definition poll_controllers (p : ControllerSetting → Processing) (f : Z → M W unit) : M W unit :=
  mfor NUM_CONTROLLER_MAX 0 (λ c,
    cs ← setting c;
    when (bool_decide (p cs = POLLING))
      (exec_context_backup ← getc c ExCntxt;
       setc c (set_excntxt MAIN_FUNCTION_CONTEXT);;
       f c;;
       setc c (set_excntxt exec_context_backup))).

(** Without error detection the polling functions test for the error code of Init instead. *)
Definition polling_check (sid : Z) : M W Std_ReturnType :=
  if DEV_ERROR_DETECT then Tcan_ReportDetUninit sid
  else s ← getv DriverState; mret (if negb (DRV_E_UNINIT =? s) then E_OK else E_NOT_OK).

Definition Tcan_MainFunction_Write : M W unit :=
  set_api SID_MAINFUNCTION_WRITE;;
  Status ← polling_check SID_MAINFUNCTION_WRITE;
  match Status with E_OK => poll_controllers CanTxProcessing Tcan_MCAN_ProcessCanTx | E_NOT_OK => mret tt end.
Definition Tcan_MainFunction_Read : M W unit :=
  set_api SID_MAINFUNCTION_READ;;
  Status ← polling_check SID_MAINFUNCTION_READ;
  match Status with E_OK => poll_controllers CanRxProcessing Tcan_MCAN_ProcessCanRx | E_NOT_OK => mret tt end.
Definition Tcan_MainFunction_BusOff : M W unit :=
  set_api SID_MAINFUNCTION_BUSOFF;;
  Status ← polling_check SID_MAINFUNCTION_BUSOFF;
  match Status with E_OK => poll_controllers CanBusoffProcessing Tcan_MCAN_BusoffProcess | E_NOT_OK => mret tt end.

Definition poll_mode (c : Z) : M W unit :=
  s ← getc c ControllerIf_State;
  if decide (s = MODE_TRANSITION_IN_PROGRESS) then
    r ← Tcan_MCAN_SetMode c STATE_IDLE;
    match r with
    | CAN_OK =>
        setc c (λ k, set_mode (Some CAN_T_STOP) (set_ifstate (IF_MODE CANIF_CS_STOPPED) k));;
        mode_indication c
    | _ => mret tt
    end
  else mret tt.
Definition Tcan_MainFunction_Mode : M W unit :=
  set_api SID_MAINFUNCTION_MODE;;
  Status ← check_driver SID_MAINFUNCTION_MODE;
  match Status with E_OK => mfor NUM_CONTROLLER_MAX 0 poll_mode | E_NOT_OK => mret tt end.

(** ** Pretended networking *)

(** The do-while loop; [timeout] is the number of tries. *)
Fixpoint icom_idle (timeout : nat) (Controller : Z) : M W Can_ReturnType :=
  match timeout with
  | O => mret CAN_BUSY
  | S timeout =>
      r ← Tcan_MCAN_SetMode Controller STATE_IDLE;
      if decide (r = CAN_BUSY) then icom_idle timeout Controller else mret r
  end.

Definition icom_activate (Controller ConfigurationId : Z) : M W Can_ReturnType :=
  icom_idle INIT_WAIT_TIMEOUT Controller;;
  ic ← lift (aget Icomconfig (ConfigurationId - 1));
  let size := canIcomRxMessages_size ic in
  m ← lift (aget (CanIcomRxMessagePtr ic) 0);
  Tcan_MCAN_MessageRAM_Init Controller (mkMsgRam size 0 size 0 0 0);;
  Tcan_MCAN_ConfigureGlobalFilters Controller (CanRxObjFilterIComConfigPtr m) size;;
  Tcan_MCAN_SetMode Controller STATE_RUNNING.
Definition icom_deactivate (Controller : Z) : M W Can_ReturnType :=
  cfg ← config;
  cc ← ctrl_config cfg Controller;
  let ram := CanMsgRamConfig cc in
  Tcan_MCAN_SetMode Controller STATE_IDLE;;
  Tcan_MCAN_MessageRAM_Init Controller ram;;
  Tcan_MCAN_ConfigureGlobalFilters Controller (CanRxObjFilterConfigPtr cc) (u8 (CanStdandardIDFiltersCount ram + CanExtendedIDFiltersCount ram));;
  Tcan_MCAN_SetMode Controller STATE_RUNNING.

Definition Tcan_SetIcomConfiguration (Controller ConfigurationId : Z) : M W Std_ReturnType :=
  if DEV_ERROR_DETECT && (ICOM_CONFIG_MAX <? ConfigurationId) then
    det SET_ICOMCONFIGURATION_INIT DET_ICOM_CONFIG_INVALID;; mret E_NOT_OK
  else
    r ← (if negb (ConfigurationId =? 0) then icom_activate Controller ConfigurationId else icom_deactivate Controller);
    match r with
    | CAN_OK =>
        setc Controller (λ k, set_icom (IcomWakeup k) ConfigurationId
          (if ICOM_COUNTER_VALUE then replicate ICOM_RX_MESSAGE_TOTAL 0 else IcomMsgCounter k) k);;
        tc_ev (EvIcomConfiguration Controller ConfigurationId true)
    | _ => tc_ev (EvIcomConfiguration Controller ConfigurationId false)
    end;;
    mret E_OK.
End Tcan.
