(* ===== verification/TcanMode.v ===== *)
(** * The CAN driver: what its functions keep

    [Pres R m]: a run of [m] that has a result moves along the preorder [R] on states,
    whatever the chip answers; it is closed under the constructs of the monad and decided by
    the tactic [pres].

    Everything below the services leaves the modes and the state of the driver as they are
    and tells CanIf nothing about modes: the relation [quiet]. *)

From S2P Require Import Prelude ComStack CanIf TcanTypes TcanSpi TcanMCan TcanTraffic Tcan.
From stdpp Require Import base list numbers option.

#[local] Open Scope Z_scope.

(** ** Preservation *)

Definition Pres {S A} (R : relation S) (m : M S A) : Prop := ∀ s, wlp m (λ _ s', R s s') s.

Create HintDb pres.

Section pres.
Context {S : Type} (R : relation S) `{!PreOrder R}.

Lemma pres_ret {A} (a : A) : Pres R (mret a).
Proof. intros s. by apply wlp_ret. Qed.
Lemma pres_gets {A} (f : S → A) : Pres R (gets f).
Proof. intros s. by apply wlp_gets. Qed.
Lemma pres_ub {A} : Pres R (ub : M S A).
Proof. intros s. apply wlp_ub. Qed.
Lemma pres_lift {A} (o : option A) : Pres R (lift o).
Proof. intros s. by apply wlp_lift. Qed.
Lemma pres_bind {A B} (m : M S A) (k : A → M S B) : Pres R m → (∀ a, Pres R (k a)) → Pres R (m ≫= k).
Proof using PreOrder0.
  intros Hm Hk s. apply wlp_bind. eapply wlp_mono; [apply Hm|]. intros a s1 H1.
  eapply wlp_mono; [apply Hk|]. intros b s2 H2. cbv beta in *. by transitivity s1.
Qed.
Lemma pres_when b (m : M S unit) : Pres R m → Pres R (when b m).
Proof using PreOrder0. intros Hm. destruct b; [exact Hm | apply pres_ret]. Qed.
Lemma pres_mfor n i (body : Z → M S unit) : (∀ j, Pres R (body j)) → Pres R (mfor n i body).
Proof using PreOrder0.
  intros Hb. revert i. induction n as [|n IH]; intros i; cbn [mfor]; [apply pres_ret|]. by apply pres_bind.
Qed.
Lemma pres_run {A} (m : M S A) s a s' : Pres R m → m s = Some (a, s') → R s s'.
Proof. intros Hm E. exact (wlp_run _ _ _ _ _ (Hm s) E). Qed.
End pres.

(** Split a function into its primitive steps; the hints of [pres] close those. *)
Ltac pres_step :=
  match goal with
  | |- Pres _ (mbind _ _) => apply pres_bind; [typeclasses eauto | | intros ?]
  | |- Pres _ (when _ _) => apply pres_when; [typeclasses eauto |]
  | |- Pres _ (mfor _ _ _) => apply pres_mfor; [typeclasses eauto |]; intros ?
  | |- Pres _ (mret _) => apply pres_ret; typeclasses eauto
  | |- Pres _ (gets _) => apply pres_gets; typeclasses eauto
  | |- Pres _ (getv _) => apply pres_gets; typeclasses eauto
  | |- Pres _ (lift _) => apply pres_lift; typeclasses eauto
  | |- Pres _ ub => apply pres_ub
  | |- Pres _ (if ?b then _ else _) => destruct b
  | |- Pres _ (match ?x with _ => _ end) => destruct x
  | |- Pres _ _ => solve [auto with pres]
  end; cbv beta.
Ltac pres := repeat pres_step.

(** ** Access to a controller, partial correctness *)

Section access.
Context {U : Type} `{HE : Tcan_Env U}.
Abbreviation W := (TcanWorld U).

Lemma wlp_ctl c (Q : Ctrl → W → Prop) w : (∀ k, aget (ctrls w) c = Some k → Q k w) → wlp (ctl c) Q w.
Proof. intros HQ. unfold ctl. apply wlp_bind, wlp_gets, wlp_lift. done. Qed.
Lemma wlp_getc {A} c (f : Ctrl → A) (Q : A → W → Prop) w : (∀ k, aget (ctrls w) c = Some k → Q (f k) w) → wlp (getc c f) Q w.
Proof. intros HQ. unfold getc. apply wlp_bind, wlp_ctl. intros k Hk. by apply wlp_ret, HQ. Qed.
Lemma wlp_setc c f (Q : unit → W → Prop) w :
  (∀ k, aget (ctrls w) c = Some k → 0 ≤ c < lenZ (ctrls w) →
     Q tt (mkTcan (vars w) (<[Z.to_nat c := f k]> (ctrls w)) (up w) (tc_trace w))) → wlp (setc c f) Q w.
Proof.
  intros HQ. unfold setc. apply wlp_bind, wlp_gets, wlp_bind, wlp_lift. intros k Hk. apply wlp_bind, wlp_lift.
  intros l [Hc ->]%aset_Some. apply wlp_modify. by apply HQ.
Qed.
End access.

(** * The CAN driver: the mode of a controller and what CanIf is told *)

Definition mode_event (e : Tcan_Event) : Prop :=
  match e with EvModeIndication _ _ | EvBusOff _ => True | _ => False end.

Section mode.
Context {U : Type} `{HE : Tcan_Env U}.
Abbreviation W := (TcanWorld U).

Record quiet (w w' : W) : Prop := {
  q_modes : ControllerMode <$> ctrls w' = ControllerMode <$> ctrls w;
  q_trace : ∃ es, tc_trace w' = tc_trace w ++ es ∧ Forall (λ e, ¬ mode_event e) es;
  q_driver : DriverState (vars w') = DriverState (vars w)
}.

#[global] Instance quiet_preorder : PreOrder quiet.
Proof.
  split.
  - intros w. split; [done | | done]. exists []. by rewrite app_nil_r.
  - intros w1 w2 w3 [M1 (e1 & T1 & F1) D1] [M2 (e2 & T2 & F2) D2]. split; [congruence | | congruence].
    exists (e1 ++ e2). split; [rewrite T2, T1; by rewrite app_assoc | by apply Forall_app].
Qed.

(** ** Primitive steps *)

Lemma quiet_setv f : (∀ v, DriverState (f v) = DriverState v) → Pres quiet (setv f).
Proof.
  intros Hf w. apply wlp_modify. split; [done | | apply Hf]. exists []. by rewrite app_nil_r.
Qed.
Lemma quiet_ev e : ¬ mode_event e → Pres quiet (tc_ev e).
Proof. intros He w. apply wlp_modify. split; [done | by exists [e]; auto | done]. Qed.
Lemma quiet_call {R} (f : U → R * U) : Pres quiet (tc_call f).
Proof.
  intros w. destruct (f (up w)) as [r u] eqn:E. eapply wlp_value; [unfold tc_call; by rewrite E|].
  split; [done | | done]. exists []. by rewrite app_nil_r.
Qed.
Lemma quiet_setc c f : (∀ k, ControllerMode (f k) = ControllerMode k) → Pres quiet (setc c f).
Proof.
  intros Hf w. unfold setc. wlp_steps. match goal with H : aset _ _ _ = Some _ |- _ => apply aset_Some in H as [Hc ->] end.
  split; cbn; [| by exists []; rewrite app_nil_r | done].
  rewrite list_fmap_insert, Hf. apply list_insert_id. rewrite list_lookup_fmap.
  match goal with H : aget _ _ = Some ?k |- _ => unfold aget in H; case_decide; [|done]; cbn in H; rewrite H end. done.
Qed.
End mode.

(** The setters that do not concern modes. *)
#[export] Hint Extern 1 (Pres quiet (setv _)) => apply quiet_setv; intros; reflexivity : pres.
#[export] Hint Extern 1 (Pres quiet (setc _ _)) => apply quiet_setc; intros; reflexivity : pres.
#[export] Hint Extern 1 (Pres quiet (tc_ev _)) => apply quiet_ev; intros []; fail : pres.
#[export] Hint Extern 1 (Pres quiet (tc_ev _)) => apply quiet_ev; cbn; tauto : pres.
#[export] Hint Resolve quiet_call : pres.

(** Look inside the access functions. *)
Ltac quiet_prim :=
  match goal with
  | |- Pres _ (ctl _) => unfold ctl
  | |- Pres _ (getc _ _) => unfold getc
  | |- Pres _ (txset _ _ _) => unfold txset
  | |- Pres _ (txget _ _) => unfold txget
  | |- Pres _ (rxget _ _) => unfold rxget
  | |- Pres _ (setting _) => unfold setting
  | |- Pres _ config => unfold config
  | |- Pres _ (ctrl_config _ _) => unfold ctrl_config
  | |- Pres _ (det_api _) => unfold det_api
  | |- Pres _ (det _ _) => unfold det
  | |- Pres _ (write_word _ _ _) => unfold write_word
  | |- Pres _ (modify_reg _ _ _) => unfold modify_reg
  | |- Pres _ (buf_size _) => unfold buf_size
  | |- Pres _ (set_dev_field _ _) => unfold set_dev_field
  | |- Pres _ (check_wakeup _) => unfold check_wakeup
  | |- Pres _ (set_icom_wakeup _ _) => unfold set_icom_wakeup
  | |- Pres _ (set_api _) => unfold set_api
  end.
Ltac quiet := repeat (quiet_prim || pres_step).

(** ** The functions of the controller *)

Section functions.
Context {U : Type} `{HE : Tcan_Env U}.
Abbreviation W := (TcanWorld U).

Lemma quiet_retry fuel aId seq tx rx n r : Pres quiet (spi_retry fuel aId seq tx rx n r).
Proof.
  revert r. induction fuel as [|fuel IH]; intros r; cbn [spi_retry]; [apply pres_ub|].
  unfold spi_transmit, swap_words. quiet.
Qed.
Hint Resolve quiet_retry : pres.
Lemma quiet_rw aId a n cmd : Pres quiet (Tcan_SpiRW aId a n cmd).
Proof. unfold Tcan_SpiRW, swap_words. quiet. Qed.
Hint Resolve quiet_rw : pres.
Lemma quiet_read aId a n : Pres quiet (Tcan_SpiRead aId a n).
Proof. unfold Tcan_SpiRead. quiet. Qed.
Lemma quiet_write aId a n : Pres quiet (Tcan_SpiWrite aId a n).
Proof. unfold Tcan_SpiWrite. quiet. Qed.
Hint Resolve quiet_read quiet_write : pres.
Lemma quiet_verified aId a n : Pres quiet (read_verified aId a n).
Proof. unfold read_verified, Tcan_VerifySpiRead. quiet. Qed.
Hint Resolve quiet_verified : pres.

Lemma quiet_init_wait n aId : Pres quiet (init_wait n aId).
Proof. induction n; cbn [init_wait]; quiet. Qed.
Lemma quiet_run_wait n aId : Pres quiet (run_wait n aId).
Proof. induction n; cbn [run_wait]; quiet. Qed.
Hint Resolve quiet_init_wait quiet_run_wait : pres.
Lemma quiet_SetInit aId : Pres quiet (Tcan_MCAN_SetInit aId).
Proof. unfold Tcan_MCAN_SetInit. quiet. Qed.
Hint Resolve quiet_SetInit : pres.
Lemma quiet_enable aId : Pres quiet (Tcan_MCAN_EnableAllInterrupts aId).
Proof. unfold Tcan_MCAN_EnableAllInterrupts. quiet. Qed.
Lemma quiet_disable aId : Pres quiet (Tcan_MCAN_DisableAllInterrupts aId).
Proof. unfold Tcan_MCAN_DisableAllInterrupts. quiet. Qed.
Lemma quiet_ResetCCE aId : Pres quiet (Tcan_MCAN_ResetCCE aId).
Proof. unfold Tcan_MCAN_ResetCCE. quiet. Qed.
Lemma quiet_ResetInit aId : Pres quiet (Tcan_MCAN_ResetInit aId).
Proof. unfold Tcan_MCAN_ResetInit. quiet. Qed.
Hint Resolve quiet_enable quiet_disable quiet_ResetCCE quiet_ResetInit : pres.
Lemma quiet_SetMode aId s : s ≠ STATE_UNINIT → Pres quiet (Tcan_MCAN_SetMode aId s).
Proof. intros Hs. unfold Tcan_MCAN_SetMode. destruct (_ <=? aId); [quiet|]. destruct s; try done; quiet. Qed.
Hint Extern 1 (Pres quiet (Tcan_MCAN_SetMode _ _)) => apply quiet_SetMode; done : pres.
Lemma quiet_SetCCE aId : Pres quiet (Tcan_MCAN_SetCCE aId).
Proof. unfold Tcan_MCAN_SetCCE. quiet. Qed.
Lemma quiet_SetBaudrate aId cfg : Pres quiet (Tcan_MCAN_SetBaudrate aId cfg).
Proof. unfold Tcan_MCAN_SetBaudrate, set_data_timing. quiet. Qed.
Lemma quiet_filters aId fs n : Pres quiet (Tcan_MCAN_ConfigureGlobalFilters aId fs n).
Proof. unfold Tcan_MCAN_ConfigureGlobalFilters, configFilterMasks. quiet. Qed.
Lemma quiet_ram aId m : Pres quiet (Tcan_MCAN_MessageRAM_Init aId m).
Proof. unfold Tcan_MCAN_MessageRAM_Init. quiet. Qed.
Hint Resolve quiet_SetCCE quiet_SetBaudrate quiet_filters quiet_ram : pres.
Lemma quiet_MCAN_Init aId cfg : Pres quiet (Tcan_MCAN_Init aId cfg).
Proof. unfold Tcan_MCAN_Init, mcan_configure, clear_message_ram, tcan1043_pins. quiet. Qed.
Hint Resolve quiet_MCAN_Init : pres.
End functions.

#[export] Hint Resolve quiet_rw quiet_read quiet_write quiet_verified quiet_SetInit quiet_enable quiet_disable quiet_ResetCCE quiet_ResetInit
  quiet_SetCCE quiet_SetBaudrate quiet_filters quiet_ram quiet_MCAN_Init : pres.
#[export] Hint Extern 1 (Pres quiet (Tcan_MCAN_SetMode _ _)) => apply quiet_SetMode; done : pres.

(** ** Traffic *)

Section traffic.
Context {U : Type} `{HE : Tcan_Env U}.
Abbreviation W := (TcanWorld U).

Lemma quiet_icom_signals n i sigs d v : Pres (quiet (U:=U)) (icom_signals n i sigs d v).
Proof. revert i. induction n; intros i; cbn [icom_signals]; quiet. Qed.
Hint Resolve quiet_icom_signals : pres.
Lemma quiet_icom_loop n aId i p msgs m d : Pres quiet (icom_loop n aId i p msgs m d).
Proof. revert i p d. induction n; intros i p d; cbn [icom_loop]; quiet. Qed.
Hint Resolve quiet_icom_loop : pres.
Lemma quiet_RxNotification aId m : Pres quiet (Tcan_RxNotification aId m).
Proof. unfold Tcan_RxNotification, Tcan_ProcessIcomRx, rx_indicate. quiet. Qed.
Hint Resolve quiet_RxNotification : pres.
Lemma quiet_rx_element aId a : Pres quiet (read_rx_element aId a).
Proof. unfold read_rx_element. quiet. Qed.
Hint Resolve quiet_rx_element : pres.
Lemma quiet_rxbuffer fuel aId d : Pres quiet (rxbuffer_loop fuel aId d).
Proof. revert d. induction fuel; intros d; cbn [rxbuffer_loop]; quiet. Qed.
Lemma quiet_rxfifo n f aId : Pres quiet (rxfifo_loop n f aId).
Proof. induction n; cbn [rxfifo_loop]; quiet. Qed.
Lemma quiet_txevent n aId : Pres quiet (txevent_loop n aId).
Proof. induction n; cbn [txevent_loop]; unfold Tcan_TxNotification; quiet. Qed.
Hint Resolve quiet_rxbuffer quiet_rxfifo quiet_txevent : pres.
Lemma quiet_ProcessCanRx aId : Pres quiet (Tcan_MCAN_ProcessCanRx aId).
Proof. unfold Tcan_MCAN_ProcessCanRx, process_fifo_flags, Tcan_MCAN_ProcessRxFIFO, Tcan_MCAN_ProcessRxBuffer. quiet. Qed.
Lemma quiet_ProcessCanTx aId : Pres quiet (Tcan_MCAN_ProcessCanTx aId).
Proof. unfold Tcan_MCAN_ProcessCanTx, Tcan_MCAN_ProcessTx. quiet. Qed.
Lemma quiet_write_element aId p o i n : Pres quiet (write_element aId p o i n).
Proof. unfold write_element, clear_data, store_data. quiet. Qed.
Hint Resolve quiet_write_element : pres.
Lemma quiet_write_loop n aId p o t i r : Pres quiet (write_loop n aId p o t i r).
Proof. revert i r. induction n; intros i r; cbn [write_loop]; quiet. Qed.
Hint Resolve quiet_write_loop : pres.
Lemma quiet_MCAN_Write aId p o : Pres quiet (Tcan_MCAN_Write aId p o).
Proof. unfold Tcan_MCAN_Write. quiet. Qed.
Hint Resolve quiet_MCAN_Write : pres.

(** ** The services that do not change modes *)

Lemma quiet_Write h p : Pres quiet (Tcan_Write h p).
Proof. unfold Tcan_Write, write_check, Tcan_ReportDetUninit, Tcan_WriteDetCheck, write_enter, write_body, write_exit. quiet. Qed.
Lemma quiet_SetBaudrate_service c b : Pres quiet (Tcan_SetBaudrate c b).
Proof. unfold Tcan_SetBaudrate, check_controller, Tcan_ReportDetUninit, Tcan_ReportDetParamController. quiet. Qed.
Lemma quiet_DisableController c : Pres quiet (Tcan_DisableControllerInterrupts c).
Proof. unfold Tcan_DisableControllerInterrupts, check_controller, Tcan_ReportDetUninit, Tcan_ReportDetParamController. quiet. Qed.
Lemma quiet_EnableController c : Pres quiet (Tcan_EnableControllerInterrupts c).
Proof. unfold Tcan_EnableControllerInterrupts, check_controller, Tcan_ReportDetUninit, Tcan_ReportDetParamController. quiet. Qed.
Lemma quiet_CheckWakeup c : Pres quiet (Tcan_CheckWakeup c).
Proof. unfold Tcan_CheckWakeup, check_controller, Tcan_ReportDetUninit, Tcan_ReportDetParamController. quiet. Qed.
Lemma quiet_poll p f : (∀ c, Pres quiet (f c)) → Pres quiet (poll_controllers p f).
Proof. intros Hf. unfold poll_controllers. quiet. Qed.
Lemma quiet_MainWrite : Pres quiet Tcan_MainFunction_Write.
Proof. unfold Tcan_MainFunction_Write, polling_check, Tcan_ReportDetUninit. pose proof (quiet_poll CanTxProcessing _ quiet_ProcessCanTx). quiet. Qed.
Lemma quiet_MainRead : Pres quiet Tcan_MainFunction_Read.
Proof. unfold Tcan_MainFunction_Read, polling_check, Tcan_ReportDetUninit. pose proof (quiet_poll CanRxProcessing _ quiet_ProcessCanRx). quiet. Qed.
Lemma quiet_icom_idle n c : Pres quiet (icom_idle n c).
Proof. induction n; cbn [icom_idle]; quiet. Qed.
Hint Resolve quiet_icom_idle : pres.
Lemma quiet_Icom c i : Pres quiet (Tcan_SetIcomConfiguration c i).
Proof. unfold Tcan_SetIcomConfiguration, icom_activate, icom_deactivate. quiet. Qed.
End traffic.
