(* ===== verification/TcanExample.v ===== *)
(** * The CAN driver: a chip to run it with

    An executable model of the controller chip behind the SPI link, as far as the driver looks
    at it: registers and message RAM as a memory, flags that are cleared by writing ones, FIFOs
    that are acknowledged.  It instantiates the environment of the driver in the examples. *)

From S2P Require Import Prelude ComStack CanIf TcanTypes TcanSpi TcanMCan TcanTraffic Tcan.
From stdpp Require Import base list numbers option gmap.

#[local] Open Scope Z_scope.

Definition Chip : Type := gmap Z Z.
Definition chip_peek (m : Chip) (a : Z) : Z := u32 (default 0 (m !! a)).

(** One element less in a FIFO of [n] elements: the fill level is in the lowest bits of the
    status word, the get index in the byte above. *)
Definition fifo_pop (n s : Z) : Z :=
  let level := Z.land s 127 in
  let get := Z.land (Z.shiftr s 8) 63 in
  if level =? 0 then s else Z.lor (Z.shiftl ((get + 1) mod n) 8) (level - 1).
Definition chip_poke (a v : Z) (m : Chip) : Chip :=
  if (a =? REG_INTR) || (a =? REG_NDAT1) || (a =? REG_NDAT2) then <[a := Z.ldiff (chip_peek m a) v]> m
  else if a =? REG_RXF0A then <[REG_RXF0S := fifo_pop (Z.shiftr (chip_peek m REG_RXF0C) 16) (chip_peek m REG_RXF0S)]> m
  else if a =? REG_TXEFA then <[REG_TXEFS := fifo_pop (Z.shiftr (chip_peek m REG_TXEFC) 16) (chip_peek m REG_TXEFS)]> m
  else if a =? REG_TXBAR then <[REG_TXBRP := Z.lor (chip_peek m REG_TXBRP) v]> m
  else <[a := v]> m.
Fixpoint chip_pokes (a : Z) (ws : list Z) (m : Chip) : Chip :=
  match ws with [] => m | x :: ws => chip_pokes (a + 4) ws (chip_poke a x m) end.

(** The words of a transfer as they are on the bus, most significant byte first. *)
Fixpoint be_words (l : list Z) : list Z :=
  match l with
  | a :: b :: c :: d :: l => (a * 16777216 + b * 65536 + c * 256 + d) :: be_words l
  | _ => []
  end.
Definition chip_transfer (out : list Z) (m : Chip) : Std_ReturnType * list Z * Chip :=
  match out with
  | cmd :: ah :: al :: n :: rest =>
      let a := ah * 256 + al in
      let words := mjoin (be32 <$> (chip_peek m <$> ((λ i, a + 4 * i) <$> seqZ 0 n))) in
      if cmd =? SPI_READ then (E_OK, replicate 4 0 ++ words, m)
      else if cmd =? SPI_READ_WAIT then (E_OK, replicate 8 0 ++ words, m)
      else (E_OK, replicate (length out) 0, chip_pokes a (be_words rest) m)
  | _ => (E_NOT_OK, [], m)
  end.
(** A link on which every other transfer fails: whether the next one does, and the chip. *)
Definition Link : Type := bool * Chip.
(** As many bytes come in as go out. *)
Definition duplex (out miso : list Z) : list Z := take (length out) (miso ++ replicate (length out) 0).
Definition link_transfer (out : list Z) (l : Link) : Std_ReturnType * list Z * Link :=
  if l.1 then (E_NOT_OK, replicate (length out) 0, (false, l.2))
  else let '(r, miso, m) := chip_transfer out l.2 in (r, duplex out miso, (true, m)).

(** A frame on the bus is stored in Rx FIFO 0: two header words and the data words. *)
Definition chip_receives (r0 r1 : Z) (data : list Z) (size : Z) (m : Chip) : Chip :=
  let s := chip_peek m REG_RXF0S in
  let level := Z.land s 127 in
  let put := (Z.land (Z.shiftr s 8) 63 + level) mod Z.shiftr (chip_peek m REG_RXF0C) 16 in
  let a := MSG_RAM_BASE_ADDR + Z.land (chip_peek m REG_RXF0C) 65535 + put * (size + 8) in
  <[REG_RXF0S := Z.lor (Z.ldiff s 127) (level + 1)]>
    (<[REG_INTR := Z.lor (chip_peek m REG_INTR) IR_RF0N]> (chip_pokes a (r0 :: r1 :: data) m)).

Definition ex_filter : RxObjFilterConfig := mkFilter 0 1 1 291 2047.
Definition ex_ctrl : ControllerConfig :=
  mkCtrlCfg 0 (mkMsgRam 1 0 2 0 0 2) 1 [mkBaud 0 6 7 2 1 (Some (mkFdBaud 0 3 4 2 1 8 1))] [ex_filter] [mkTxObj 204 2 0 false] [5] [] 1000000.
Definition ex_config : TcanConfig := mkTcanCfg 1 6 10 3 [mkHth 0 0] [ex_ctrl].
Definition ex_setting (p : Processing) : ControllerSetting := mkSetting 40000000 [0; 1; 2] [0; 1; 2] true 7 p p p 0.

(** One FD controller with 64-byte elements, error detection on, no pretended networking,
    behind a link. *)
Definition env_with {U} (transfer : list Z → U → Std_ReturnType * list Z * U) : Tcan_Env U := {|
  DEV_ERROR_DETECT := true;
  VARIANT_PRE_COMPILE := Some ex_config;
  VARIANT_POST_BUILD := false;
  TARGET_TCAN1043 := false;
  PUBLIC_ICOM_SUPPORT := false;
  ICOM_COUNTER_VALUE := false;
  ICOM_RX_MESSAGE_SINAL_CONFIGURATION := false;
  ICOM_CONFIG_MAX := 0;
  ICOM_RX_MESSAGE_TOTAL := 0;
  Icomconfig := [];
  TRIGGER_TRANSMIT_SUPPORTED_IN_CANIF := false;
  ANCHOR_PCB := true;
  SPI_MSG_DET_LOG := false;
  TRANSITION_0 := None;
  NUM_CONTROLLER_MAX := 1;
  XTAL_FREQUENCY := 40000000;
  TIMESTAMP_FREQUENCY := 1000000;
  ControllerSetting_PC := [ex_setting INTERRUPT];
  SWAP32 := rev32;
  tcan_SetupEB := λ _ _ u, (E_OK, u);
  tcan_SyncTransmit := λ _, transfer;
  CanIf_TriggerTransmit := λ _ _ u, (E_NOT_OK, mkPduInfo None 0, u);
  LPDU_RECEIVE_CALLOUT := None
|}.
#[global] Instance ex_env : Tcan_Env Link := env_with link_transfer.
(** A link on which nothing ever succeeds. *)
#[global] Instance dead_env : Tcan_Env unit := env_with (λ out u, (E_NOT_OK, replicate (length out) 0, u)).

Lemma duplex_id out miso : length miso = length out → duplex out miso = miso.
Proof. intros E. unfold duplex. by rewrite <-E, take_app_length. Qed.
Lemma ex_duplex seq out (u : Link) : length (tcan_SyncTransmit seq out u).1.2 = length out.
Proof.
  destruct u as [[] m]; [apply length_replicate|]. cbn [tcan_SyncTransmit ex_env env_with]. unfold link_transfer. cbn [fst snd].
  destruct (chip_transfer out m) as [[r miso] m']. cbn [fst snd]. unfold duplex. rewrite length_take, length_app, length_replicate. lia.
Qed.

(** The state after a run, and a run by its answer alone: to compare whole states is never
    needed in an example. *)
Definition after_run {S A} (m : M S A) (w : S) : S := match m w with Some (_, w') => w' | None => w end.
Lemma after_run_eq {S A} (m : M S A) w r : fst <$> m w = Some r → m w = Some (r, after_run m w).
Proof. unfold after_run. destruct (m w) as [[? ?]|]; [|done]. by intros [= ->]. Qed.

Definition ex_start : TcanWorld Link := tcan_power_on (false, ∅).
(** Initialised, then started. *)
Definition ex_run : M (TcanWorld Link) unit := Tcan_Init None;; Tcan_SetControllerMode 0 CAN_T_START;; mret tt.
Definition ex_world (m : M (TcanWorld Link) unit) : TcanWorld Link := after_run m ex_start.

Example tcan_example_starts :
  (λ w, (DriverState (vars w), ControllerMode <$> ctrls w, tc_trace w)) (ex_world ex_run) = (1, [Some CAN_T_START], [EvWdgKick; EvModeIndication 0 CANIF_CS_STARTED]).
Proof. vm_compute. reflexivity. Qed.
