(* ===== verification/TcanClaims.v ===== *)
(** * The CAN driver: what CanIf is told along a run

    The services that change the mode of a controller tell CanIf the mode they change to.

    The calls its neighbours make, the chip that changes between them, and the reset that
    CanSpi makes when the chip has to be brought up again.

    What holds of every run of the module. *)

From S2P Require Import Prelude ComStack CanIf TcanTypes TcanSpi TcanMCan TcanTraffic Tcan TcanMode TcanExample.
From stdpp Require Import base list numbers option gmap.

#[local] Open Scope Z_scope.

(** The mode CanIf knows the controller to be in after the events. *)
Definition told_step (c : Z) (m : CanIf_ControllerModeType) (e : Tcan_Event) : CanIf_ControllerModeType :=
  match e with
  | EvModeIndication c' m' => if decide (c' = c) then m' else m
  | EvBusOff c' => if decide (c' = c) then CANIF_CS_STOPPED else m
  | _ => m
  end.
Definition told_from (c : Z) : CanIf_ControllerModeType → list Tcan_Event → CanIf_ControllerModeType := foldl (told_step c).
Definition told (c : Z) (es : list Tcan_Event) : CanIf_ControllerModeType := told_from c CANIF_CS_STOPPED es.

(** The mode that ControllerMode stands for. *)
Definition mode_of (m : option Can_StateTransitionType) : option CanIf_ControllerModeType :=
  match m with
  | Some CAN_T_STOP => Some CANIF_CS_STOPPED
  | Some CAN_T_START => Some CANIF_CS_STARTED
  | Some CAN_T_SLEEP => Some CANIF_CS_SLEEP
  | _ => None
  end.

Lemma told_quiet c m es : Forall (λ e, ¬ mode_event e) es → told_from c m es = m.
Proof. induction 1 as [|e es He _ IH]; [done|]. cbn. destruct e; try done; by cbn in He. Qed.
Lemma told_app c m es1 es2 : told_from c m (es1 ++ es2) = told_from c (told_from c m es1) es2.
Proof. apply foldl_app. Qed.

Section report.
Context {U : Type} `{HE : Tcan_Env U}.
Abbreviation W := (TcanWorld U).

(** The modes have moved as the events say. *)
Record reports (w w' : W) : Prop := {
  r_driver : DriverState (vars w') = DriverState (vars w);
  r_length : length (ctrls w') = length (ctrls w);
  r_trace : ∃ es, tc_trace w' = tc_trace w ++ es ∧
    ∀ c k m, aget (ctrls w) c = Some k → mode_of (ControllerMode k) = Some m →
      ∃ k', aget (ctrls w') c = Some k' ∧ mode_of (ControllerMode k') = Some (told_from c m es)
}.

#[global] Instance reports_preorder : PreOrder reports.
Proof.
  split.
  - intros w. split; [done | done|]. exists []. rewrite app_nil_r. eauto.
  - intros w1 w2 w3 [D1 L1 (e1 & T1 & F1)] [D2 L2 (e2 & T2 & F2)]. split; [congruence | congruence|].
    exists (e1 ++ e2). rewrite T2, T1, app_assoc. split; [done|]. intros c k m Hk Hm.
    destruct (F1 c k m Hk Hm) as (k1 & Hk1 & Hm1). destruct (F2 c k1 _ Hk1 Hm1) as (k2 & Hk2 & Hm2).
    exists k2. by rewrite told_app.
Qed.

Lemma aget_fmap_mode (l l' : list Ctrl) c k :
  ControllerMode <$> l' = ControllerMode <$> l → aget l c = Some k → ∃ k', aget l' c = Some k' ∧ ControllerMode k' = ControllerMode k.
Proof.
  unfold aget. case_decide; [|done]. intros E Hk. apply (f_equal (λ x, x !! Z.to_nat c)) in E. rewrite !list_lookup_fmap, Hk in E.
  destruct (l' !! Z.to_nat c) as [k'|]; [|done]. cbn in E. exists k'. split; [done | congruence].
Qed.
Lemma quiet_reports w w' : quiet w w' → reports w w'.
Proof.
  intros [M (es & T & F) D]. split; [done | by apply (f_equal length) in M; rewrite !length_fmap in M |].
  exists es. split; [done|]. intros c k m Hk Hm. destruct (aget_fmap_mode _ _ _ _ M Hk) as (k' & Hk' & E).
  exists k'. rewrite told_quiet by done. by rewrite E.
Qed.
Lemma pres_reports {A} (m : M W A) : Pres quiet m → Pres reports m.
Proof. intros Hm w. eapply wlp_mono; [apply Hm|]. intros. by apply quiet_reports. Qed.

(** A new mode and the event that tells it. *)
Lemma insert_reports c k k' e m (w : W) :
  aget (ctrls w) c = Some k → mode_of (ControllerMode k') = Some m → (∀ c' m', told_step c' m' e = if decide (c = c') then m else m') →
  reports w (mkTcan (vars w) (<[Z.to_nat c := k']> (ctrls w)) (up w) (tc_trace w ++ [e])).
Proof.
  intros Hk Hm He. pose proof (aget_Some _ _ _ Hk) as Hc. split; cbn; [done | by rewrite length_insert |].
  exists [e]. split; [done|]. intros c' k1 m' Hk1 Hm'. cbn. rewrite He, aget_insert by done. case_decide; [subst; eauto | eauto].
Qed.
(** The mode is set together with the state that is reported. *)
Lemma set_and_indicate {A} c f m (next : M W A) (w : W) :
  (∀ k, aget (ctrls w) c = Some k → ControllerIf_State (f k) = IF_MODE m) → (∀ k, mode_of (ControllerMode (f k)) = Some m) → Pres reports next →
  wlp (setc c f;; mode_indication c;; next) (λ _ w', reports w w') w.
Proof.
  intros Hs Hm Hn. apply wlp_bind, wlp_setc. intros k Hk Hc. unfold mode_indication. apply wlp_bind, wlp_bind, wlp_getc. cbn.
  intros k' Hk'. rewrite aget_insert_eq in Hk' by done. injection Hk' as <-. rewrite (Hs k Hk). cbn.
  apply wlp_bind, wlp_lift. intros m' [= <-]. apply wlp_modify. eapply wlp_mono; [apply Hn|]. cbn. intros _ w2 H2.
  etrans; [|exact H2]. eapply insert_reports; eauto.
Qed.
Lemma set_and_indicate_last c f m (w : W) :
  (∀ k, aget (ctrls w) c = Some k → ControllerIf_State (f k) = IF_MODE m) → (∀ k, mode_of (ControllerMode (f k)) = Some m) →
  wlp (setc c f;; mode_indication c) (λ _ w', reports w w') w.
Proof.
  intros Hs Hm. apply wlp_bind. pose proof (set_and_indicate c f m (mret tt) w Hs Hm (pres_ret _ _)) as H.
  apply wlp_bind_inv in H. eapply wlp_mono; [exact H|]. intros [] w1 H1. apply wlp_bind_inv in H1. eapply wlp_mono; [exact H1|]. intros [] w2 H2. exact (wlp_ret_inv _ _ _ H2).
Qed.

End report.

(** A first step that is quiet. *)
Ltac quiet_first := apply pres_bind; [typeclasses eauto | apply pres_reports; quiet |].

(** ** The services that change modes *)

Section modes.
Context {U : Type} `{HE : Tcan_Env U}.
Abbreviation W := (TcanWorld U).

Definition answer_reported (c : Z) (rt : Can_ReturnType * Can_StateTransitionType) (w : W) : Prop :=
  rt.1 = CAN_OK → ∃ m, mode_of (Some rt.2) = Some m ∧ ∀ k, aget (ctrls w) c = Some k → ControllerIf_State k = IF_MODE m.

Lemma set_ifstate_answer c s rt (w : W) :
  (rt.1 = CAN_OK → ∃ m, mode_of (Some rt.2) = Some m ∧ s = IF_MODE m) →
  wlp (setc c (set_ifstate s);; mret rt) (λ a w', quiet w w' ∧ answer_reported c a w') w.
Proof.
  intros H. apply wlp_bind. eapply wlp_mono.
  { apply wlp_and; [apply (quiet_setc c (set_ifstate s)); done|]. apply wlp_setc with (Q := λ _ w', ∀ k, aget (ctrls w') c = Some k → ControllerIf_State k = s).
    intros k Hk Hc k'. cbn. rewrite aget_insert_eq by done. by intros [= <-]. }
  intros [] w' [Hq Hk]. apply wlp_ret. split; [done|]. intros Hr. destruct (H Hr) as (m & Hm & ->). eauto.
Qed.
Lemma request_mode_spec c t (w : W) : wlp (request_mode c t) (λ a w', quiet w w' ∧ answer_reported c a w') w.
Proof.
  assert (∀ A (m : M W A) k (w : W), Pres quiet m → (∀ a w1, wlp (k a) (λ a w', quiet w1 w' ∧ answer_reported c a w') w1) →
    wlp (m ≫= k) (λ a w', quiet w w' ∧ answer_reported c a w') w) as seq.
  { intros A m k w0 Hm Hk. apply wlp_bind. eapply wlp_mono; [apply Hm|]. intros a w1 H1. eapply wlp_mono; [apply Hk|].
    intros b w2 [H2 HA]. split; [by transitivity w1 | done]. }
  assert (∀ rt (w : W), rt.1 = CAN_BUSY → wlp (mret rt) (λ a w', quiet w w' ∧ answer_reported c a w') w) as busy.
  { intros rt w0 Hrt. apply wlp_ret. split; [done|]. intros Hr. congruence. }
  unfold request_mode. apply seq; [quiet|]. intros m w1. destruct t; (apply wlp_if; intros _; [|by apply busy]).
  - apply seq; [quiet|]. intros was w2. apply seq; [quiet|]. intros [] w3. apply seq; [quiet|]. intros r w4. apply set_ifstate_answer. eauto.
  - apply seq; [quiet|]. intros r w2. apply set_ifstate_answer. intros Hr. cbn in Hr. subst r. cbn. eauto.
  - apply seq; [quiet|]. intros r w2. apply set_ifstate_answer. eauto.
  - apply seq; [quiet|]. intros r w2. apply set_ifstate_answer. eauto.
Qed.

Lemma reports_SetControllerMode c t : Pres reports (Tcan_SetControllerMode c t).
Proof.
  unfold Tcan_SetControllerMode. quiet_first; intros _.
  apply pres_bind; [typeclasses eauto | apply pres_reports; unfold mode_check, check_controller, Tcan_ReportDetUninit, Tcan_ReportDetParamController, Tcan_ModeDetCheck; quiet | intros Status].
  destruct Status; [|by apply pres_ret, _]. intros w. apply wlp_bind. eapply wlp_mono; [apply request_mode_spec|]. intros [r t'] w1 [Hq Ha]. cbn [fst snd].
  apply quiet_reports in Hq. destruct r; [|by apply wlp_ret..].
  destruct (Ha eq_refl) as (m & Hm & Hk). eapply wlp_mono; [apply set_and_indicate with (m := m); [exact Hk | done | apply pres_ret, _]|]. intros ? w2 HR. by transitivity w1.
Qed.
Lemma reports_poll_mode c : Pres reports (poll_mode c).
Proof.
  unfold poll_mode. quiet_first; intros s. case_decide; [|by apply pres_ret, _].
  quiet_first; intros r. destruct r; [|by apply pres_ret, _..].
  intros w. eapply wlp_mono; [by apply set_and_indicate_last with (m := CANIF_CS_STOPPED)|]. done.
Qed.
Lemma reports_MainMode : Pres reports Tcan_MainFunction_Mode.
Proof.
  unfold Tcan_MainFunction_Mode. quiet_first; intros _.
  apply pres_bind; [typeclasses eauto | apply pres_reports; unfold check_driver, Tcan_ReportDetUninit; quiet | intros []]; [|by apply pres_ret, _].
  apply pres_mfor; [typeclasses eauto | apply reports_poll_mode].
Qed.
Lemma reports_Busoff c : Pres reports (Tcan_MCAN_BusoffProcess c).
Proof.
  unfold Tcan_MCAN_BusoffProcess. quiet_first; intros []; [|by apply pres_ret, _].
  quiet_first; intros x. quiet_first; intros _.
  apply pres_when; [typeclasses eauto|]. quiet_first; intros m. apply pres_when; [typeclasses eauto|].
  intros w. apply wlp_bind, wlp_setc. intros k Hk Hc. apply wlp_modify. cbn. eapply insert_reports; [done | done | done].
Qed.
End modes.

(** * The CAN driver: runs of the module *)

Inductive Tcan_Call :=
| CallSetBaudrate (c id : Z)
| CallSetControllerMode (c : Z) (t : Can_StateTransitionType)
| CallDisableInterrupts (c : Z)
| CallEnableInterrupts (c : Z)
| CallCheckWakeup (c : Z)
| CallWrite (hth : Z) (pdu : option Can_PduType)
| CallMainWrite | CallMainRead | CallMainBusOff | CallMainMode
| CallIrq (c : Z)
| CallSetIcom (c id : Z).

Section runs.
Context {U : Type} `{HE : Tcan_Env U}.
Abbreviation W := (TcanWorld U).

Definition exec (call : Tcan_Call) : M W unit :=
  match call with
  | CallSetBaudrate c id => Tcan_SetBaudrate c id;; mret tt
  | CallSetControllerMode c t => Tcan_SetControllerMode c t;; mret tt
  | CallDisableInterrupts c => Tcan_DisableControllerInterrupts c
  | CallEnableInterrupts c => Tcan_EnableControllerInterrupts c
  | CallCheckWakeup c => Tcan_CheckWakeup c;; mret tt
  | CallWrite hth pdu => Tcan_Write hth pdu;; mret tt
  | CallMainWrite => Tcan_MainFunction_Write
  | CallMainRead => Tcan_MainFunction_Read
  | CallMainBusOff => Tcan_MainFunction_BusOff
  | CallMainMode => Tcan_MainFunction_Mode
  | CallIrq c => Tcan_Irq_Handler c
  | CallSetIcom c id => Tcan_SetIcomConfiguration c id;; mret tt
  end.

Definition with_up (u : U) (w : W) : W := mkTcan (vars w) (ctrls w) u (tc_trace w).
Definition with_vars (f : Vars → Vars) (w : W) : W := mkTcan (f (vars w)) (ctrls w) (up w) (tc_trace w).

(** [reach n w]: [w] is reached from power-on, and [n] events had happened when the last
    initialisation was accepted. *)
Inductive reach (u0 : U) : nat → W → Prop :=
| reach_power_on : reach u0 0 (tcan_power_on u0)
| reach_init n w cfg w' :
    reach u0 n w → DriverState (vars w) = DRV_UNINIT → Tcan_Init cfg w = Some (tt, w') → reach u0 (length (tc_trace w)) w'
| reach_init_again n w cfg w' :
    reach u0 n w → DriverState (vars w) ≠ DRV_UNINIT → Tcan_Init cfg w = Some (tt, w') → reach u0 n w'
| reach_call n w call w' : reach u0 n w → exec call w = Some (tt, w') → reach u0 n w'
| reach_chip n w u : reach u0 n w → reach u0 n (with_up u w)
| reach_reset n w : reach u0 n w → reach u0 n (with_vars (set_driverstate DRV_UNINIT) w)
| reach_slept n w x : reach u0 n w → reach u0 n (with_vars (set_wassleep x) w).

Lemma reports_poll p f : (∀ c, Pres reports (f c)) → Pres reports (poll_controllers p f).
Proof.
  intros Hf. unfold poll_controllers. apply pres_mfor; [typeclasses eauto|]. intros c.
  quiet_first; intros cs. apply pres_when; [typeclasses eauto|].
  quiet_first; intros x. quiet_first; intros _.
  apply pres_bind; [typeclasses eauto | apply Hf | intros _]. apply pres_reports. quiet.
Qed.
Lemma reports_MainBusOff : Pres reports Tcan_MainFunction_BusOff.
Proof.
  unfold Tcan_MainFunction_BusOff. quiet_first; intros _.
  apply pres_bind; [typeclasses eauto | apply pres_reports; unfold polling_check, Tcan_ReportDetUninit; quiet | intros []]; [|by apply pres_ret, _].
  apply reports_poll, reports_Busoff.
Qed.
Lemma reports_IRQLine0 c : Pres reports (Tcan_MCAN_ProcessCanIRQLine0 c).
Proof.
  unfold Tcan_MCAN_ProcessCanIRQLine0. destruct (_ <=? c); [apply pres_reports; quiet|].
  pose proof (pres_reports _ (quiet_ProcessCanTx c)). pose proof (pres_reports _ (quiet_ProcessCanRx c)). pose proof (reports_Busoff c).
  quiet_first; intros k. apply pres_when; [typeclasses eauto|]. cbv zeta.
  do 2 (quiet_first; intros ?). do 3 (apply pres_bind; [typeclasses eauto | by apply pres_when; [typeclasses eauto|] | intros _]). apply pres_reports. quiet.
Qed.
Lemma reports_Irq c : Pres reports (Tcan_Irq_Handler c).
Proof.
  unfold Tcan_Irq_Handler. quiet_first; intros cs.
  apply pres_when; [typeclasses eauto | apply reports_IRQLine0].
Qed.
Lemma reports_exec call : Pres reports (exec call).
Proof.
  pose proof (quiet_SetBaudrate_service (U:=U)). pose proof (quiet_CheckWakeup (U:=U)). pose proof (quiet_Write (U:=U)). pose proof (quiet_Icom (U:=U)).
  destruct call; cbn [exec].
  all: try (apply pres_reports; quiet; done).
  - apply pres_bind; [typeclasses eauto | apply reports_SetControllerMode | intros _; by apply pres_ret, _].
  - apply pres_reports, quiet_DisableController.
  - apply pres_reports, quiet_EnableController.
  - apply pres_reports, quiet_MainWrite.
  - apply pres_reports, quiet_MainRead.
  - apply reports_MainBusOff.
  - apply reports_MainMode.
  - apply reports_Irq.
Qed.

(** ** Initialisation *)

(** The steps before the controllers are set up. *)
Definition init_prologue (cfg : option TcanConfig) : M W Std_ReturnType :=
  set_api SID_INIT;;
  match VARIANT_PRE_COMPILE with Some c => setv (set_configptr (Some c)) | None => mret tt end;;
  if DEV_ERROR_DETECT then init_check cfg else mret E_OK.
Lemma quiet_prologue cfg : Pres quiet (init_prologue cfg).
Proof. unfold init_prologue, init_check. quiet. Qed.
Lemma Init_split cfg (Q : unit → W → Prop) w :
  wlp (init_prologue cfg) (λ r, wlp (match r with E_NOT_OK => mret tt | E_OK => init_controllers cfg end) Q) w → wlp (Tcan_Init cfg) Q w.
Proof.
  unfold init_prologue, Tcan_Init. intros H. apply wlp_bind. apply wlp_bind_inv in H. eapply wlp_mono; [exact H|]. intros [] w1 H1.
  apply wlp_bind. apply wlp_bind_inv in H1. eapply wlp_mono; [exact H1|]. intros [] w2 H2. by apply wlp_bind.
Qed.

(** With error detection on, Init of a driver that is not in its initial state does nothing
    but report. *)
Lemma check_refuses cfg w : DriverState (vars w) ≠ DRV_UNINIT → wlp (init_check cfg) (λ r _, r = E_NOT_OK) w.
Proof.
  intros Hw. unfold init_check. apply wlp_if; intros _; [|apply wlp_bind, wlp_gets; rewrite (proj2 (Z.eqb_neq _ _)) by congruence; cbn].
  all: apply wlp_bind; eapply wlp_mono; [apply wlp_true|]; intros; by apply wlp_ret.
Qed.
Lemma init_refused cfg w : DEV_ERROR_DETECT = true → DriverState (vars w) ≠ DRV_UNINIT → wlp (Tcan_Init cfg) (λ _ w', quiet w w') w.
Proof.
  intros Hdet Hw. apply Init_split. eapply wlp_mono; [apply wlp_and; [apply quiet_prologue|]|].
  - unfold init_prologue, set_api. rewrite Hdet. cbn [when]. apply wlp_bind, wlp_modify, wlp_bind.
    destruct VARIANT_PRE_COMPILE; [apply wlp_modify | apply wlp_ret]; by apply (check_refuses cfg).
  - cbv beta. intros r w1 [Q1 ->]. by apply wlp_ret.
Qed.

(** The only controller is stopped when the driver is ready. *)
Lemma init_one cfg w : NUM_CONTROLLER_MAX = 1%nat →
  wlp (init_controllers cfg) (λ _ w', (∃ w0, quiet w w0 ∧ tc_trace w' = tc_trace w0 ∧ length (ctrls w') = length (ctrls w0)) ∧
    (DriverState (vars w') = DRV_READY → ∀ k, aget (ctrls w') 0 = Some k → ControllerMode k = Some CAN_T_STOP)) w.
Proof.
  intros HN. unfold init_controllers. rewrite HN. cbn [mfor]. apply wlp_bind. eapply wlp_mono.
  { assert (Pres (quiet (U:=U)) (when VARIANT_POST_BUILD (setv (set_configptr cfg)))) as Hq; [quiet | apply Hq]. }
  intros [] w1 Q1. apply wlp_bind, wlp_bind. unfold init_controller. apply wlp_bind, wlp_gets, wlp_bind. eapply wlp_mono; [apply quiet_MCAN_Init|].
  intros [] w2 Q2. apply wlp_bind, wlp_gets. apply wlp_when; intros Hrev.
  - apply wlp_setc. intros k Hk Hc. apply wlp_ret, wlp_bind, wlp_gets, wlp_modify. cbn. rewrite Hrev. split.
    + exists w2. split; [by transitivity w1|]. by rewrite length_insert.
    + intros _ k'. rewrite aget_insert_eq by done. by intros [= <-].
  - apply wlp_ret, wlp_bind, wlp_gets, wlp_modify. cbn. rewrite Hrev. split; [exists w2; split; [by transitivity w1 | done] | done].
Qed.
End runs.

(** * The CAN driver: modes *)

Section claims.
Context {U : Type} `{HE : Tcan_Env U}.
Abbreviation W := (TcanWorld U).

(** CanIf knows the mode of the only controller. *)
Definition agrees (n : nat) (w : W) : Prop :=
  DriverState (vars w) = DRV_READY →
  ∀ k, aget (ctrls w) 0 = Some k → mode_of (ControllerMode k) = Some (told 0 (drop n (tc_trace w))).

Lemma reports_agrees n (w w' : W) :
  (n ≤ length (tc_trace w))%nat → length (ctrls w) = 1%nat → reports w w' → agrees n w → agrees n w'.
Proof.
  intros Hn Hl [D L (es & T & F)] Ha Hr k' Hk'. rewrite D in Hr. specialize (Ha Hr).
  destruct (aget_is_Some (ctrls w) 0) as [k Hk]; [unfold lenZ; lia|]. destruct (F 0 k _ Hk (Ha k Hk)) as (k1 & Hk1 & Hm).
  rewrite Hk' in Hk1. injection Hk1 as <-. rewrite Hm, T, drop_app_le by done. unfold told. by rewrite told_app.
Qed.

Lemma reports_length (w w' : W) : reports w w' → (length (tc_trace w) ≤ length (tc_trace w'))%nat.
Proof. intros [_ _ (es & -> & _)]. rewrite length_app. lia. Qed.

Lemma reach_agrees u0 n (w : W) : DEV_ERROR_DETECT = true → NUM_CONTROLLER_MAX = 1%nat → reach u0 n w →
  (n ≤ length (tc_trace w))%nat ∧ length (ctrls w) = 1%nat ∧ agrees n w.
Proof.
  intros Hdet HN. induction 1 as [|n w cfg w' _ (Hn & Hl & Ha) Hu E|n w cfg w' _ (Hn & Hl & Ha) Hu E|n w call w' _ (Hn & Hl & Ha) E|n w u _ IH|n w _ IH|n w x _ IH].
  - unfold tcan_power_on. cbn. rewrite length_replicate, HN. split; [done|]. split; [done | by intros ?].
  - assert (wlp (Tcan_Init cfg) (λ _ w', (length (tc_trace w) ≤ length (tc_trace w'))%nat ∧ length (ctrls w') = 1%nat ∧ agrees (length (tc_trace w)) w') w) as Hi;
      [|by apply (wlp_run _ _ _ _ _ Hi E)].
    apply Init_split. eapply wlp_mono; [apply quiet_prologue|]. intros r w1 Q1. destruct r.
    + eapply wlp_mono; [apply init_one, HN|]. cbv beta. intros [] w2 [(w3 & Q2 & T2 & L2) Hm].
      assert (quiet w w3) as Q by by transitivity w1. destruct Q as [M (es & T & F) _]. apply (f_equal length) in M. rewrite !length_fmap in M.
      rewrite T2, L2, T, length_app, M. split; [lia|]. split; [done|]. intros Hr k Hk. rewrite (Hm Hr k Hk), T2, T, drop_app_length.
      unfold told. by rewrite told_quiet.
    + apply wlp_ret. apply quiet_reports in Q1 as R1. split; [by apply reports_length|]. split; [by rewrite (r_length _ _ R1)|].
      intros Hr. rewrite (r_driver _ _ R1), Hu in Hr. done.
  - pose proof (wlp_run _ _ _ _ _ (init_refused cfg w Hdet Hu) E) as R%quiet_reports. split; [by etrans; [|apply reports_length]|].
    split; [by rewrite (r_length _ _ R) | by eapply reports_agrees].
  - pose proof (pres_run _ _ _ _ _ (reports_exec call) E) as R. split; [by etrans; [|apply reports_length]|].
    split; [by rewrite (r_length _ _ R) | by eapply reports_agrees].
  - exact IH.
  - destruct IH as (? & ? & _). split; [done|]. split; [done|]. by intros ?.
  - destruct IH as (? & ? & Ha). split; [done|]. split; [done|]. intros Hr. by apply Ha.
Qed.

(** C14. With error detection on and one controller, after every sequence of calls, interrupts,
    changes of the chip, resets and initialisations, as long as the driver is ready, the mode
    of the controller (ControllerMode) is the one CanIf was told last, by
    CanIf_ControllerModeIndication or CanIf_ControllerBusOff, since the last accepted
    initialisation.  Before the first such call it is STOPPED: an accepted Init sets the mode to
    STOPPED without telling CanIf, so that what CanIf was told before it no longer counts. *)
Theorem tcan_mode_reported u0 n (w : W) k :
  DEV_ERROR_DETECT = true → NUM_CONTROLLER_MAX = 1%nat → reach u0 n w → DriverState (vars w) = DRV_READY → aget (ctrls w) 0 = Some k →
  mode_of (ControllerMode k) = Some (told 0 (drop n (tc_trace w))).
Proof. intros Hdet HN Hr. destruct (reach_agrees _ _ _ Hdet HN Hr) as (_ & _ & Ha). intros Hd Hk. exact (Ha Hd k Hk). Qed.
End claims.

(** ** Examples *)

Definition ex_ready : TcanWorld Link := after_run (Tcan_Init None) ex_start.
Lemma ex_ready_ok : fst <$> Tcan_Init None ex_start = Some tt.
Proof. vm_compute. reflexivity. Qed.
Lemma ex_ready_reach : reach (false, ∅) 0 ex_ready.
Proof. exact (reach_init (false, ∅) 0 ex_start None ex_ready (reach_power_on (false, ∅)) eq_refl (after_run_eq (Tcan_Init None) ex_start tt ex_ready_ok)). Qed.
Definition ex_started : TcanWorld Link := after_run (exec (CallSetControllerMode 0 CAN_T_START)) ex_ready.
Lemma ex_started_ok : fst <$> exec (CallSetControllerMode 0 CAN_T_START) ex_ready = Some tt.
Proof. vm_compute. reflexivity. Qed.
Lemma ex_started_reach : reach (false, ∅) 0 ex_started.
Proof. exact (reach_call (false, ∅) 0 ex_ready _ ex_started ex_ready_reach (after_run_eq (exec (CallSetControllerMode 0 CAN_T_START)) ex_ready tt ex_started_ok)). Qed.

(** The controller has been started. *)
Lemma tcan_mode_reported_witness :
  match aget (ctrls ex_started) 0 with Some k => mode_of (ControllerMode k) = Some (told 0 (drop 0 (tc_trace ex_started))) ∧ told 0 (tc_trace ex_started) = CANIF_CS_STARTED | None => False end.
Proof.
  assert (match aget (ctrls ex_started) 0 with Some _ => true | None => false end = true) as is_Some_b by (vm_compute; reflexivity).
  destruct (aget (ctrls ex_started) 0) as [k|] eqn:Hk; [|discriminate is_Some_b].
  split; [|vm_compute; reflexivity].
  apply (tcan_mode_reported (false, ∅) 0 ex_started k); [reflexivity | reflexivity | apply ex_started_reach | vm_compute; reflexivity | exact Hk].
Defined.
