(* ===== verification/TcanLink.v ===== *)
(** * The CAN driver: the chip behind the SPI functions

    [TcanChip] states what the driver relies on: the byte order of the transfers, the answers
    to the read and write commands, and a link on which at most as many transfers in a row
    fail as the configured retries allow.  Against this interface a register read or write of
    the driver is a [peek] or [poke] of the chip.

    A transfer with retries, then the register accesses of the driver, as reads and writes of
    the state of the chip. *)

From S2P Require Import Prelude ComStack CanIf TcanTypes TcanSpi TcanMCan TcanTraffic Tcan TcanMode.
From stdpp Require Import base list numbers option.

#[local] Open Scope Z_scope.

(** The first word of a transfer, and the addresses of the words that follow. *)
Definition header (cmd a n : Z) : Z := cmd * 16777216 + a * 256 + n.
Definition addrs (a n : Z) : list Z := (λ i, a + 4 * i) <$> seqZ 0 n.
Definition on_bus (ws : list Z) : list Z := mjoin (be32 <$> ws).

(** Consecutive words written from address [a] on. *)
Fixpoint pokes {R} (poke : Z → Z → R → R) (a : Z) (ws : list Z) (r : R) : R :=
  match ws with [] => r | x :: ws => pokes poke (a + 4) ws (poke a x r) end.

(** [regs] is the state of the chip of controller [c], [fails] the number of transfers that
    fail before the next one succeeds, [limit] the configured number of retries. *)
Class TcanChip {U : Type} {HE : Tcan_Env U} (c : Z) (cs : ControllerSetting) (limit : Z) (R : Type) := {
  regs : U → R;
  peek : R → Z → Z;
  poke : Z → Z → R → R;
  fails : U → nat;
  chip_setting : aget ControllerSetting_PC c = Some cs;
  chip_sequences : length (CanSpiSequenceRef cs) = 3%nat ∧ length (CanSpiChannel cs) = 3%nat;
  chip_no_log : SPI_MSG_DET_LOG = false;
  chip_limit : 0 ≤ limit < 255;
  chip_patience u : Z.of_nat (fails u) ≤ limit;
  chip_swap x : word_ok x → SWAP32 x = rev32 x;
  chip_word r a : word_ok (peek r a);
  chip_setup ch len u : ∃ u', tcan_SetupEB ch len u = (E_OK, u') ∧ regs u' = regs u;
  chip_failure seq out u n : fails u = S n → Forall byte_ok out →
    ∃ miso u', tcan_SyncTransmit seq out u = (E_NOT_OK, miso, u') ∧ length miso = length out ∧ Forall byte_ok miso ∧ regs u' = regs u ∧ fails u' = n;
  chip_read seq a n rest u : fails u = 0%nat → 0 ≤ a < 65536 → 0 ≤ n < 256 → length rest = (4 * Z.to_nat n)%nat →
    ∃ status u', tcan_SyncTransmit seq (on_bus [header SPI_READ a n] ++ rest) u = (E_OK, status ++ on_bus (peek (regs u) <$> addrs a n), u') ∧
      length status = 4%nat ∧ Forall byte_ok status ∧ regs u' = regs u;
  chip_read_wait seq a n rest u : fails u = 0%nat → 0 ≤ a < 65536 → 0 ≤ n < 256 → length rest = (4 * Z.to_nat (n + 1))%nat →
    ∃ status u', tcan_SyncTransmit seq (on_bus [header SPI_READ_WAIT a n] ++ rest) u = (E_OK, status ++ on_bus (peek (regs u) <$> addrs a n), u') ∧
      length status = 8%nat ∧ Forall byte_ok status ∧ regs u' = regs u;
  chip_write seq a ws u : fails u = 0%nat → 0 ≤ a < 65536 → lenZ ws < 256 → Forall word_ok ws →
    ∃ miso u', tcan_SyncTransmit seq (on_bus (header SPI_WRITE a (lenZ ws) :: ws)) u = (E_OK, miso, u') ∧
      length miso = (4 * S (length ws))%nat ∧ Forall byte_ok miso ∧
      regs u' = pokes poke a ws (regs u)
}.

(** The words of SpiBuf that belong to execution context [x]: SpiTxBuf[x] and SpiRxBuf[x]. *)
Definition own (x j : Z) : Prop := 20 * x ≤ j < 20 * x + 20 ∨ 60 + 20 * x ≤ j < 80 + 20 * x.
(** The words that a transfer with command [cmd] in context [x] may change.  For the wait
    variant of the read command the answer is received from the word before SpiRxBuf[x] on,
    which is the last word of a buffer of another context. *)
Definition touched (cmd x j : Z) : Prop := own x j ∨ cmd = SPI_READ_WAIT ∧ j = 59 + 20 * x.
(** The words of context [x] that a transfer of at most 18 words has its header and its data
    in: all but the last word of either buffer. *)
Definition transfer_words (x j : Z) : Prop := 20 * x ≤ j < 20 * x + 19 ∨ 60 + 20 * x ≤ j < 79 + 20 * x.
Lemma transfer_words_untouched cmd x y j : 0 ≤ x ≤ 2 → 0 ≤ y ≤ 2 → x ≠ y → transfer_words y j → ¬ touched cmd x j.
Proof. unfold transfer_words, touched, own. lia. Qed.
Lemma own_touched cmd x j : own x j → touched cmd x j.
Proof. by left. Qed.

Record ctrl_ok (k : Ctrl) : Prop := {
  ok_length : lenZ (SpiBuf k) = 120;
  ok_words : Forall word_ok (SpiBuf k);
  ok_context : 0 ≤ ExCntxt k ≤ 2;
  ok_readcmd : ReadCmd k = SPI_READ ∨ ReadCmd k = SPI_READ_WAIT
}.
(** A transfer with command [cmd], or storing words in the transmit buffer before it. *)
Record transferred_by (cmd : Z) (k : Ctrl) (b : list Z) : Prop := {
  t_length : lenZ b = 120;
  t_words : Forall word_ok b;
  t_frame j : ¬ touched cmd (ExCntxt k) j → aget b j = aget (SpiBuf k) j
}.
(** Any number of transfers of the controller. *)
Abbreviation transferred k := (transferred_by (ReadCmd k) k).
Lemma transferred_weaken cmd k b : cmd ≠ SPI_READ_WAIT → transferred_by cmd k b → transferred k b.
Proof. intros Hc [L W F]. split; [done | done|]. intros j Hj. apply F. intros [H | [H _]]; [by apply Hj, own_touched | done]. Qed.
Lemma transferred_ok k b : ctrl_ok k → transferred k b → ctrl_ok (set_buf b k).
Proof. intros [? ? ? ?] [? ? ?]. by split. Qed.
Lemma transferred_trans k b b' : transferred k b → transferred (set_buf b k) b' → transferred k b'.
Proof. intros [L1 W1 F1] [L2 W2 F2]. split; [done | done|]. intros j Hj. by rewrite F2, F1. Qed.
Lemma transferred_same k k' b : SpiBuf k' = SpiBuf k → ExCntxt k' = ExCntxt k → ReadCmd k' = ReadCmd k → transferred k b ↔ transferred k' b.
Proof. intros E1 E2 E3. split; intros [L W F]; split; [done | done | by rewrite E1, E2, E3 | done | done | by rewrite <-E1, <-E2, <-E3]. Qed.
Lemma transferred_refl k : ctrl_ok k → transferred k (SpiBuf k).
Proof. by intros [? ? ? ?]. Qed.

Lemma header_word cmd a n : 0 ≤ cmd < 256 → 0 ≤ a < 65536 → 0 ≤ n < 256 →
  u32 (Z.lor (Z.lor (Z.shiftl cmd 24) (Z.shiftl a 8)) n) = header cmd a n ∧ word_ok (header cmd a n).
Proof.
  intros Hcmd Ha Hn. change 24 with (16 + 8). rewrite <-Z.shiftl_shiftl, <-Z.shiftl_lor by lia.
  rewrite (lor_shift 16), (lor_shift 8) by lia. unfold word_ok, header. rewrite u32_small by lia. lia.
Qed.
Lemma lenZ_fmap {A B} (f : A → B) l : lenZ (f <$> l) = lenZ l.
Proof. unfold lenZ. by rewrite length_fmap. Qed.
Lemma length_on_bus ws : length (on_bus ws) = (4 * length ws)%nat.
Proof. unfold on_bus. rewrite <-bytes_of_swapped, length_bytes_of, length_fmap. done. Qed.
Lemma length_addrs a n : length (addrs a n) = Z.to_nat n.
Proof. unfold addrs. by rewrite length_fmap, length_seqZ. Qed.
Lemma on_bus_ok ws : Forall byte_ok (on_bus ws).
Proof.
  induction ws as [|x ws IH]; [constructor|]. change (on_bus (x :: ws)) with (be32 x ++ on_bus ws). apply Forall_app. split; [|exact IH].
  unfold be32. repeat constructor; apply u8_bound.
Qed.
Lemma bytes_of_ok ws : Forall byte_ok (bytes_of ws).
Proof.
  induction ws as [|x ws IH]; [constructor|]. change (bytes_of (x :: ws)) with (le32 x ++ bytes_of ws). apply Forall_app. split; [|exact IH].
  unfold le32. repeat constructor; apply u8_bound.
Qed.
Lemma Forall_rev32 ws : Forall word_ok (rev32 <$> ws).
Proof. apply Forall_fmap, Forall_forall. intros x _. apply rev32_range. Qed.
Lemma Forall_awrite (P : Z → Prop) l off xs l' : Forall P l → Forall P xs → awrite l off xs = Some l' → Forall P l'.
Proof.
  unfold awrite. case_decide; [|done]. intros Hl Hx [= <-]. apply Forall_app. split; [by apply Forall_take|]. apply Forall_app. split; [done | by apply Forall_drop].
Qed.
Lemma Forall_aset (P : Z → Prop) l i x l' : Forall P l → P x → aset l i x = Some l' → Forall P l'.
Proof. intros Hl Hx [_ ->]%aset_Some. by apply Forall_insert. Qed.
Lemma Forall_aslice (P : Z → Prop) l off len xs : Forall P l → aslice l off len = Some xs → Forall P xs.
Proof. unfold aslice. case_decide; [|done]. intros Hl [= <-]. by apply Forall_take, Forall_drop. Qed.

(** ** States around one controller *)

Section states.
Context {U : Type} `{HE : Tcan_Env U} (c : Z) (L0 : list Ctrl) (Hc : 0 ≤ c < lenZ L0).
Abbreviation W := (TcanWorld U).

(** Controller [c] has the variables [k], the others those in [L0]. *)
Definition st (v : Vars) (k : Ctrl) (u : U) (t : list Tcan_Event) : W := mkTcan v (<[Z.to_nat c := k]> L0) u t.

Lemma st_get v k u t : aget (ctrls (st v k u t)) c = Some k.
Proof using Hc. by apply aget_insert_eq. Qed.
Lemma st_put v k u t k' : mkTcan v (<[Z.to_nat c := k']> (ctrls (st v k u t))) u t = st v k' u t.
Proof. unfold st. cbn. by rewrite list_insert_insert_eq. Qed.

(** Every state is one of these. *)
Lemma world_st (w : W) k : aget (ctrls w) c = Some k → L0 = ctrls w → w = st (vars w) k (up w) (tc_trace w).
Proof using Hc.
  intros Hk EL. unfold st. rewrite EL. destruct w as [v l u t]. cbn in *. f_equal. symmetry. apply list_insert_id.
  unfold aget in Hk. rewrite decide_True in Hk by lia. done.
Qed.

Lemma wp_ctl v k u t Q : Q k (st v k u t) → wp (ctl c) Q (st v k u t).
Proof using Hc. intros HQ. unfold ctl. apply wp_bind, wp_gets. eapply wp_lift; [apply st_get | done]. Qed.
Lemma wp_getc {A} (f : Ctrl → A) v k u t Q : Q (f k) (st v k u t) → wp (getc c f) Q (st v k u t).
Proof using Hc. intros HQ. unfold getc. apply wp_bind, wp_ctl. by apply wp_ret. Qed.
Lemma wp_setc f v k u t Q : Q tt (st v (f k) u t) → wp (setc c f) Q (st v k u t).
Proof using Hc.
  intros HQ. unfold setc. apply wp_bind, wp_gets, wp_bind. eapply wp_lift; [apply st_get|]. apply wp_bind.
  eapply wp_lift; [apply aset_is_Some; unfold st; cbn; by rewrite lenZ_insert|]. apply wp_modify. unfold st in *. cbn in *. by rewrite list_insert_insert_eq.
Qed.
Lemma wp_setv f v k u t Q : Q tt (st (f v) k u t) → wp (setv f) Q (st v k u t).
Proof. done. Qed.
Lemma wp_getv {A} (f : Vars → A) v k u t Q : Q (f v) (st v k u t) → wp (getv f) Q (st v k u t).
Proof. done. Qed.
Lemma wp_tc_ev e v k u t Q : Q tt (st v k u (t ++ [e])) → wp (tc_ev e) Q (st v k u t).
Proof. done. Qed.
Lemma wp_tc_call {B} (f : U → B * U) r u' v k u t Q : f u = (r, u') → Q r (st v k u' t) → wp (tc_call f) Q (st v k u t).
Proof. intros E HQ. eapply wp_eq; [|exact HQ]. unfold tc_call. cbn [up st]. by rewrite E. Qed.
Lemma wp_txset i x v k u t Q :
  0 ≤ ExCntxt k → 0 ≤ i → ExCntxt k * 20 + i < lenZ (SpiBuf k) →
  Q tt (st v (set_buf (<[Z.to_nat (tx_base k + i) := x]> (SpiBuf k)) k) u t) → wp (txset c i x) Q (st v k u t).
Proof using Hc.
  intros Hx Hi Hl HQ. unfold txset. apply wp_bind, wp_ctl, wp_bind. eapply wp_lift; [apply aset_is_Some; unfold tx_base; lia|]. by apply wp_setc.
Qed.
Lemma wp_txget i x v k u t Q : aget (SpiBuf k) (tx_base k + i) = Some x → Q x (st v k u t) → wp (txget c i) Q (st v k u t).
Proof using Hc. intros E HQ. unfold txget. apply wp_bind, wp_ctl. by eapply wp_lift. Qed.
Lemma wp_rxget i x v k u t Q : aget (SpiBuf k) (rx_base k + i) = Some x → Q x (st v k u t) → wp (rxget c i) Q (st v k u t).
Proof using Hc. intros E HQ. unfold rxget. apply wp_bind, wp_ctl. by eapply wp_lift. Qed.
End states.

(** * The CAN driver: transfers against the chip *)

Section link.
Context {U : Type} {HE : Tcan_Env U} (c : Z) (cs : ControllerSetting) (limit : Z) (R : Type) {HC : TcanChip c cs limit R}.
Context (L0 : list Ctrl) (Hc : 0 ≤ c < lenZ L0).
Abbreviation W := (TcanWorld U).
Abbreviation st := (st c L0).

(** The configured number of retries is the one the link needs. *)
Definition config_ok (v : Vars) : Prop := ∃ cfg, ConfigPtr v = Some cfg ∧ CanSpiCommRetries cfg = limit.

Lemma wp_swap_words off n v k u t Q :
  lenZ (SpiBuf k) = 120 → Forall word_ok (SpiBuf k) → 0 ≤ off → 0 ≤ n → off + n ≤ 120 →
  (∀ ws b, aslice (SpiBuf k) off n = Some ws → awrite (SpiBuf k) off (rev32 <$> ws) = Some b → Q tt (st v (set_buf b k) u t)) →
  wp (swap_words c off n) Q (st v k u t).
Proof using Hc HC.
  intros Hl Hw H0 Hn H1 HQ. unfold swap_words. apply wp_bind, wp_ctl; [done|]. apply wp_bind.
  destruct (aslice (SpiBuf k) off n) as [ws|] eqn:Es; [|rewrite aslice_is_Some in Es by lia; done]. eapply wp_lift; [done|]. apply wp_bind.
  pose proof (aslice_Some _ _ _ _ Es) as (_ & _ & _ & Hlw).
  assert (SWAP32 <$> ws = rev32 <$> ws) as ->.
  { apply list_fmap_ext. intros i x Hx. apply (chip_swap (c:=c)). eapply Forall_lookup_1; [by eapply Forall_aslice|done]. }
  destruct (awrite (SpiBuf k) off (rev32 <$> ws)) as [b|] eqn:Eb; [|rewrite awrite_is_Some in Eb by (rewrite ?lenZ_fmap; lia); done].
  eapply wp_lift; [done|]. apply wp_setc; [done|]. by apply (HQ ws b).
Qed.

(** The words from [rx] on hold what the last transfer brought, swapped; nothing else has
    changed. *)
Definition received (rx n : Z) (b b' miso : list Z) : Prop :=
  lenZ b' = 120 ∧ Forall word_ok b' ∧ aslice b' rx (n + 1) = Some (rev32 <$> words_of miso) ∧
  ∀ j, ¬ (rx ≤ j < rx + n + 1) → aget b' j = aget b j.

Lemma wp_retry seq tx rx n out (P : list Z → U → Prop) v t :
  0 ≤ n → 0 ≤ rx → rx + n + 1 ≤ 120 → tx + n + 1 ≤ rx → config_ok v →
  ∀ f fuel k u tries, (f < fuel)%nat → fails u = f → 0 ≤ tries → tries + Z.of_nat f ≤ limit →
  lenZ (SpiBuf k) = 120 → Forall word_ok (SpiBuf k) → aslice (SpiBuf k) tx (n + 1) = Some out →
  (∀ u1, regs u1 = regs u → fails u1 = 0%nat →
     ∃ miso u2, tcan_SyncTransmit seq (bytes_of out) u1 = (E_OK, miso, u2) ∧ length miso = (4 * Z.to_nat (n + 1))%nat ∧ Forall byte_ok miso ∧ P miso u2) →
  wp (spi_retry fuel c seq tx rx n tries)
    (λ r s, r = E_OK ∧ ∃ b u2 miso, s = st v (set_buf b k) u2 t ∧ P miso u2 ∧ received rx n (SpiBuf k) b miso) (st v k u t).
Proof using Hc HC.
  intros Hn Hrx Hrx' Htx (cfg & Ecfg & Hcfg) f. induction f as [|f IH]; intros fuel k u tries Hfuel Hf Ht Htf Hl Hw Hout Hs; (destruct fuel as [|fuel]; [lia|]); cbn [spi_retry].
  all: apply wp_bind; unfold spi_transmit; apply wp_bind, wp_ctl; [done|]; apply wp_bind; eapply wp_lift; [done|]; apply wp_bind.
  - destruct (Hs u eq_refl Hf) as (miso & u2 & E & Hlm & Hb & HP). eapply wp_tc_call; [exact E|]. cbn [fst snd]. apply wp_bind.
    assert (lenZ (words_of miso) = n + 1) as Hlw by (unfold lenZ; rewrite (length_words_of (Z.to_nat (n + 1))) by done; lia).
    destruct (awrite (SpiBuf k) rx (words_of miso)) as [b|] eqn:Eb; [|rewrite awrite_is_Some in Eb by lia; done]. eapply wp_lift; [done|].
    pose proof (awrite_Some _ _ _ _ Eb) as (_ & _ & Hl').
    apply wp_bind, wp_setc; [done|]. apply wp_ret, wp_bind, wp_swap_words; cbn [SpiBuf set_buf].
    1: congruence. 1: eapply Forall_awrite; [exact Hw | by apply words_of_ok | done]. 1-3: lia.
    intros ws b' Hws Hb'. pose proof (aslice_awrite_eq _ _ _ _ Eb) as Es. rewrite Hlw, Hws in Es. injection Es as ->.
    pose proof (awrite_Some _ _ _ _ Hb') as (_ & _ & Hl2). apply wp_ret. split; [done|]. exists b', u2, miso. split; [done|]. split; [done|]. split; [lia|].
    split; [eapply Forall_awrite; [|apply Forall_rev32|exact Hb']; eapply Forall_awrite; [exact Hw | by apply words_of_ok | done]|].
    split; [rewrite <-(aslice_awrite_eq _ _ _ _ Hb'), lenZ_fmap; by f_equal|]. intros j Hj.
    rewrite (aget_awrite _ _ _ _ _ Hb'), (aget_awrite _ _ _ _ _ Eb), lenZ_fmap, !decide_False by lia. done.
  - destruct (chip_failure (c:=c) seq (bytes_of out) u f Hf (bytes_of_ok out)) as (miso & u' & E & Hlm & Hb & Hr & Hf'). eapply wp_tc_call; [exact E|]. cbn [fst snd]. apply wp_bind.
    pose proof (aslice_Some _ _ _ _ Hout) as (_ & _ & _ & Hlo). rewrite length_bytes_of in Hlm. unfold lenZ in Hlo.
    assert (lenZ (words_of miso) = n + 1) as Hlw by (unfold lenZ; rewrite (length_words_of (Z.to_nat (n + 1))) by lia; lia).
    destruct (awrite (SpiBuf k) rx (words_of miso)) as [b|] eqn:Eb; [|rewrite awrite_is_Some in Eb by lia; done]. eapply wp_lift; [done|].
    pose proof (awrite_Some _ _ _ _ Eb) as (_ & _ & Hl').
    apply wp_bind, wp_setc; [done|]. apply wp_ret, wp_bind. unfold config. apply wp_bind, wp_getv. eapply wp_lift; [exact Ecfg|]. cbv zeta.
    pose proof (chip_limit (c:=c)). rewrite u8_small, Hcfg, (proj2 (Z.leb_le _ _)) by lia.
    eapply wp_mono; [apply IH|]; cbn [SpiBuf set_buf]; try done; try lia.
    + eapply Forall_awrite; [exact Hw | by apply words_of_ok | done].
    + rewrite <-Hout. apply aslice_frame; [done|]. intros j Hj. rewrite (aget_awrite _ _ _ _ _ Eb), decide_False by lia. done.
    + intros u1 Hu1. apply Hs. congruence.
    + intros r s (-> & b2 & u2 & m2 & -> & HP & Hl2 & Hw2 & Hs2 & Hf2). split; [done|]. exists b2, u2, m2. split; [done|]. split; [done|]. split; [done|]. split; [done|]. split; [done|].
      intros j Hj. rewrite Hf2, (aget_awrite _ _ _ _ _ Eb), decide_False by lia. done.
Qed.

(** The transmit words after the header is stored and the words are swapped. *)
Lemma sent_words base n b hdr ws b2 w :
  lenZ b = 120 → 0 ≤ base → 0 ≤ n → base + n + 1 ≤ 120 → word_ok hdr →
  aslice (<[Z.to_nat (base + 0) := hdr]> b) base (n + 1) = Some ws → awrite (<[Z.to_nat (base + 0) := hdr]> b) base (rev32 <$> ws) = Some b2 →
  aslice b (base + 1) n = Some w → ws = hdr :: w ∧ aslice b2 base (n + 1) = Some (rev32 <$> hdr :: w) ∧ lenZ b2 = 120 ∧
  ∀ j, ¬ (base ≤ j < base + n + 1) → aget b2 j = aget b j.
Proof.
  intros Hl Hb Hn Hle Hh Es Ew Ews. pose proof (aslice_Some _ _ _ _ Es) as (_ & _ & _ & Hlws).
  assert (ws = hdr :: w) as ->.
  { destruct ws as [|x ws]; [rewrite lenZ_nil in Hlws; lia|]. f_equal.
    - pose proof (aget_aslice _ _ _ _ 0 Es ltac:(lia)) as E. rewrite aget_insert_eq in E by lia. by injection E.
    - rewrite lenZ_cons in Hlws. assert (aslice (x :: ws) 1 n = Some w) as E.
      { replace 1 with (base + 1 - base) by lia. rewrite <-(aslice_sub _ _ _ _ (base + 1) n Es), <-Ews by lia. apply aslice_frame; [by rewrite lenZ_insert|].
        intros j Hj. rewrite aget_insert_ne by lia. done. }
      unfold aslice in E. case_decide; [|done]. injection E as <-. change (Z.to_nat 1) with 1%nat. cbn [drop]. rewrite drop_0, take_ge by (unfold lenZ in *; lia). done. }
  pose proof (awrite_Some _ _ _ _ Ew) as (_ & _ & Hl2). rewrite lenZ_insert in Hl2. split; [done|]. split; [|split; [lia|]].
  - rewrite <-(aslice_awrite_eq _ _ _ _ Ew), lenZ_fmap. by f_equal.
  - intros j Hj. rewrite (aget_awrite _ _ _ _ _ Ew), lenZ_fmap, decide_False, aget_insert_ne by lia. done.
Qed.

Lemma wp_SpiRW a n cmd ws (P : list Z → U → Prop) v k u t :
  ctrl_ok k → config_ok v → 0 ≤ a < 65536 → 0 ≤ n ≤ 18 → 0 ≤ cmd < 256 → aslice (SpiBuf k) (tx_base k + 1) n = Some ws →
  let n' := if cmd =? SPI_READ_WAIT then n + 1 else n in
  (∀ seq rest u1, lenZ rest = n' - n → regs u1 = regs u → fails u1 = 0%nat →
     ∃ miso u2, tcan_SyncTransmit seq (on_bus (header cmd a n :: ws) ++ bytes_of rest) u1 = (E_OK, miso, u2) ∧
       length miso = (4 * Z.to_nat (n' + 1))%nat ∧ Forall byte_ok miso ∧ P miso u2) →
  wp (Tcan_SpiRW c a n cmd)
    (λ r s, r = E_OK ∧ ∃ b u2 miso, s = st v (set_buf b k) u2 t ∧ P miso u2 ∧ transferred_by cmd k b ∧
       aslice b (if cmd =? SPI_READ_WAIT then rx_base k - 1 else rx_base k) (n' + 1) = Some (rev32 <$> words_of miso)) (st v k u t).
Proof using Hc HC.
  intros [Hl Hw Hx Hr] Hv Ha Hn Hcmd Hws n' Hs. destruct (header_word cmd a n Hcmd Ha ltac:(lia)) as [Eh Hh].
  unfold Tcan_SpiRW. apply wp_bind, wp_ctl; [done|]. rewrite Eh. apply wp_bind, wp_txset; [done | lia | lia | lia|].
  apply wp_bind, wp_swap_words; cbn [SpiBuf set_buf]; rewrite ?lenZ_insert; try (unfold tx_base; lia). { by apply Forall_insert. }
  intros ws1 b2 E1 E2. unfold tx_base in *.
  destruct (sent_words (ExCntxt k * 20) n (SpiBuf k) (header cmd a n) ws1 b2 ws) as (-> & Hout & Hl2 & Hf2); try (done || lia).
  apply wp_bind. unfold setting. eapply wp_lift; [apply chip_setting|]. destruct (chip_sequences (c:=c)) as [Hq Hch].
  destruct (aget_is_Some (CanSpiChannel cs) (ExCntxt k)) as [ch Ech]; [unfold lenZ; lia|]. apply wp_bind. eapply wp_lift; [exact Ech|]. cbv zeta.
  apply wp_bind. destruct (chip_setup (c:=c) ch (u16 (Z.shiftl ((if cmd =? SPI_READ_WAIT then u8 (n + 1) else n) + 1) 2)) u) as (u' & Eu & Hu').
  eapply wp_tc_call; [exact Eu|]. destruct (aget_is_Some (CanSpiSequenceRef cs) (ExCntxt k)) as [seq Eseq]; [unfold lenZ; lia|].
  apply wp_bind. eapply wp_lift; [exact Eseq|]. rewrite u8_small by lia. fold n'. assert (0 ≤ n' - n ≤ 1) as Hn' by (subst n'; destruct (_ =? _); lia).
  set (rx := if cmd =? SPI_READ_WAIT then rx_base k - 1 else rx_base k). assert ((cmd = SPI_READ_WAIT ∧ rx = 59 + 20 * ExCntxt k ∨ rx = 60 + 20 * ExCntxt k) ∧ rx + n' + 1 ≤ 80 + 20 * ExCntxt k) as [Hrx Hrx'].
  { subst rx n'. unfold rx_base. destruct (Z.eqb_spec cmd SPI_READ_WAIT); lia. }
  destruct (aslice b2 (ExCntxt k * 20) (n' + 1)) as [out|] eqn:Eout; [|rewrite aslice_is_Some in Eout by lia; done].
  assert (∃ rest, out = (rev32 <$> header cmd a n :: ws) ++ rest ∧ lenZ rest = n' - n) as (rest & -> & Hrest).
  { pose proof (aslice_Some _ _ _ _ Eout) as (_ & _ & _ & Hlo). rewrite (aslice_sub _ _ _ _ (ExCntxt k * 20) (n + 1) Eout) in Hout by lia.
    rewrite Z.sub_diag in Hout. unfold aslice in Hout. case_decide; [|done]. change (drop (Z.to_nat 0) out) with out in Hout.
    assert (take (Z.to_nat (n + 1)) out = rev32 <$> header cmd a n :: ws) as Ht by congruence.
    exists (drop (Z.to_nat (n + 1)) out). split; [by rewrite <-Ht, take_drop | unfold lenZ in *; rewrite length_drop; lia]. }
  eapply wp_mono; [eapply wp_retry with (out := (rev32 <$> header cmd a n :: ws) ++ rest) (P := P)|]; cbn [SpiBuf set_buf]; try done; try lia.
  - pose proof (chip_patience (c:=c) u'). pose proof (chip_limit (c:=c)). lia.
  - apply chip_patience.
  - eapply Forall_awrite; [|apply Forall_rev32|exact E2]. by apply Forall_insert.
  - intros u1 Hu1 Hf1. rewrite bytes_of_app, bytes_of_swapped. apply Hs; [done | congruence | done].
  - cbv beta. intros r s (-> & b & u2 & miso & -> & HP & Hlb & Hwb & Hsb & Hfb). split; [done|]. exists b, u2, miso. split; [done|]. split; [done|]. split; [|done].
    split; [done | done|]. intros j Hj. unfold touched, own in Hj. rewrite Hfb, Hf2 by lia. done.
Qed.

(** ** Register accesses *)

Lemma aslice_tail {A} (l : list A) off len xs ys : aslice l off len = Some (xs ++ ys) → aslice l (off + lenZ xs) (lenZ ys) = Some ys.
Proof.
  intros E. pose proof (aslice_Some _ _ _ _ E) as (? & ? & ? & Hlen). rewrite lenZ_app in Hlen. pose proof (lenZ_nonneg xs). pose proof (lenZ_nonneg ys).
  rewrite (aslice_sub _ _ _ _ (off + lenZ xs) (lenZ ys) E) by lia. rewrite <-(app_nil_r ys) at 1. apply aslice_app; [lia | done].
Qed.
Lemma read_words (r : R) a n status rx b : length status = (4 * Z.to_nat rx)%nat → 0 ≤ n → 0 ≤ rx →
  ∀ off, aslice b off (rx + n) = Some (rev32 <$> words_of (status ++ on_bus (peek r <$> addrs a n))) → aslice b (off + rx) n = Some (peek r <$> addrs a n).
Proof using HC.
  intros Hst Hn Hrx off E. rewrite (words_of_app (Z.to_nat rx)) in E by done. unfold on_bus in E. rewrite words_of_bus, fmap_app, <-list_fmap_compose in E.
  2: { apply Forall_fmap, Forall_forall. intros. apply (chip_word (c:=c)). }
  assert (rev32 ∘ rev32 <$> (peek r <$> addrs a n) = peek r <$> addrs a n) as Hid.
  { rewrite <-(list_fmap_id (peek r <$> _)) at 2. apply list_fmap_ext. intros i x Hx. apply rev32_rev32. apply list_lookup_fmap_Some in Hx as (y & -> & _). apply (chip_word (c:=c)). }
  rewrite Hid in E. apply aslice_tail in E. revert E. rewrite !lenZ_fmap. unfold lenZ. rewrite length_addrs, (length_words_of (Z.to_nat rx)) by done.
  by rewrite !Z2Nat.id.
Qed.

Lemma wp_SpiRead a n v k u t Q :
  ctrl_ok k → config_ok v → 0 ≤ a < 65536 → 0 ≤ n ≤ 18 →
  (∀ b u', transferred k b → regs u' = regs u → aslice b (rx_base k + 1) n = Some (peek (regs u) <$> addrs a n) → Q E_OK (st v (set_buf b k) u' t)) →
  wp (Tcan_SpiRead c a n) Q (st v k u t).
Proof using Hc HC.
  intros Hk Hv Ha Hn HQ. unfold Tcan_SpiRead. apply wp_bind, wp_getc; [done|]. pose proof Hk as [Hl _ Hx Hr].
  destruct (aslice (SpiBuf k) (tx_base k + 1) n) as [ws|] eqn:Ews; [|rewrite aslice_is_Some in Ews by (unfold tx_base; lia); done].
  pose proof (aslice_Some _ _ _ _ Ews) as (_ & _ & _ & Hlw).
  eapply wp_mono; [apply wp_SpiRW with (ws := ws) (P := λ miso u2, regs u2 = regs u ∧ ∃ status, length status = (if ReadCmd k =? SPI_READ_WAIT then 8%nat else 4%nat) ∧
    miso = status ++ on_bus (peek (regs u) <$> addrs a n)); try done|].
  - destruct Hr as [-> | ->]; done.
  - intros seq rest u1 Hrest Hu1 Hf1. change (on_bus (header (ReadCmd k) a n :: ws)) with (on_bus [header (ReadCmd k) a n] ++ on_bus ws). rewrite <-app_assoc. unfold lenZ in *.
    destruct Hr as [Er | Er]; rewrite Er in *; [change (SPI_READ =? SPI_READ_WAIT) with false in * | change (SPI_READ_WAIT =? SPI_READ_WAIT) with true in *]; cbv iota in *.
    + destruct (chip_read (c:=c) seq a n (on_bus ws ++ bytes_of rest) u1) as (status & u2 & E & Hls & Hbs & Hu2); [done | lia | lia | rewrite length_app, length_on_bus, length_bytes_of; lia|].
      rewrite E, Hu1. eexists _, u2. split; [done|]. rewrite length_app, length_on_bus, length_fmap, length_addrs. split; [lia|].
      split; [apply Forall_app; split; [done | apply on_bus_ok]|]. split; [congruence|]. exists status. done.
    + destruct (chip_read_wait (c:=c) seq a n (on_bus ws ++ bytes_of rest) u1) as (status & u2 & E & Hls & Hbs & Hu2); [done | lia | lia | rewrite length_app, length_on_bus, length_bytes_of; lia|].
      rewrite E, Hu1. eexists _, u2. split; [done|]. rewrite length_app, length_on_bus, length_fmap, length_addrs. split; [lia|].
      split; [apply Forall_app; split; [done | apply on_bus_ok]|]. split; [congruence|]. exists status. done.
  - intros r s (-> & b & u2 & miso & -> & (Hu2 & status & Hst & ->) & Ht & Hs). apply HQ; [done | done|].
    destruct Hr as [Er | Er]; rewrite Er in *; [change (SPI_READ =? SPI_READ_WAIT) with false in * | change (SPI_READ_WAIT =? SPI_READ_WAIT) with true in *]; cbv iota in *.
    + apply (read_words _ _ _ status 1); [done | lia | lia|]. by rewrite Z.add_comm in Hs.
    + replace (rx_base k + 1) with (rx_base k - 1 + 2) by lia. apply (read_words _ _ _ status 2); [done | lia | lia|]. by replace (2 + n) with (n + 1 + 1) by lia.
Qed.

Lemma wp_SpiWrite a n ws v k u t Q :
  ctrl_ok k → config_ok v → 0 ≤ a < 65536 → 0 ≤ n ≤ 18 → aslice (SpiBuf k) (tx_base k + 1) n = Some ws →
  (∀ b u', transferred_by SPI_WRITE k b → regs u' = pokes poke a ws (regs u) → Q E_OK (st v (set_buf b k) u' t)) →
  wp (Tcan_SpiWrite c a n) Q (st v k u t).
Proof using Hc HC.
  intros Hk Hv Ha Hn Hws HQ. unfold Tcan_SpiWrite. rewrite (chip_no_log (c:=c)). pose proof (aslice_Some _ _ _ _ Hws) as (_ & _ & _ & Hlw).
  eapply wp_mono; [apply wp_SpiRW with (ws := ws) (P := λ miso u2, regs u2 = pokes poke a ws (regs u)); try done|].
  - intros seq rest u1 Hrest Hu1 Hf1. cbn in Hrest. assert (rest = []) as -> by (destruct rest; [done | rewrite lenZ_cons in Hrest; pose proof (lenZ_nonneg rest); lia]).
    cbn [bytes_of fmap list_fmap mjoin list_join]. rewrite app_nil_r, <-Hlw.
    destruct (chip_write (c:=c) seq a ws u1) as (miso & u2 & E & Hlm & Hbm & Hu2); [done | lia | lia | by eapply Forall_aslice; [apply Hk|] |].
    exists miso, u2. rewrite E. split; [done|]. split; [|split; [done | by rewrite Hu2, Hu1]]. unfold lenZ in *. cbn. lia.
  - intros r s (-> & b & u2 & miso & -> & Hu2 & Ht & _). by apply HQ.
Qed.

Lemma wp_write_word a x v k u t Q :
  ctrl_ok k → config_ok v → 0 ≤ a < 65536 → word_ok x →
  (∀ b u', transferred k b → regs u' = poke a x (regs u) → Q E_OK (st v (set_buf b k) u' t)) → wp (write_word c a x) Q (st v k u t).
Proof using Hc HC.
  intros Hk Hv Ha Hx HQ. pose proof Hk as [Hl Hw Hcx Hr]. unfold write_word. apply wp_bind, wp_txset; [done | lia | lia | lia|].
  assert (transferred k (<[Z.to_nat (tx_base k + 1) := x]> (SpiBuf k))) as Ht.
  { split; [by rewrite lenZ_insert | by apply Forall_insert|]. intros j Hj. unfold touched, own in Hj. rewrite aget_insert_ne by (unfold tx_base; lia). done. }
  apply wp_SpiWrite with (ws := [x]); [by apply transferred_ok | done | done | lia | |].
  - apply aslice_aget; cbn [SpiBuf set_buf tx_base ExCntxt]; [unfold tx_base; cbn; lia | done | rewrite lenZ_insert; unfold tx_base; cbn; lia|].
    intros j Hj. assert (j = 0) as -> by lia. rewrite Z.add_0_r. unfold tx_base. cbn. rewrite aget_insert_eq by lia. done.
  - intros b u' Ht' Hu'. apply HQ; [eapply transferred_trans; [done|]; by eapply transferred_weaken; [|exact Ht'] | done].
Qed.
End link.
