(* ===== verification/TcanLinkClaims.v ===== *)
(** * The CAN driver: register access

    The executable chip satisfies the interface [TcanChip]; reading and writing through the SPI
    functions. *)

From S2P Require Import Prelude ComStack CanIf TcanTypes TcanSpi TcanMCan TcanTraffic Tcan TcanMode TcanExample TcanLink.
From stdpp Require Import base list numbers option gmap.

#[local] Open Scope Z_scope.

Lemma bus_header cmd a n : 0 ≤ cmd < 256 → 0 ≤ a < 65536 → 0 ≤ n < 256 → on_bus [header cmd a n] = [cmd; a / 256; a mod 256; n].
Proof.
  intros. unfold on_bus, header. change (mjoin (be32 <$> [?x])) with (be32 x). unfold be32, u8. rewrite !Z.shiftr_div_pow2 by lia.
  do 4 (apply f_equal2; [Z.div_mod_to_equations; lia|]). done.
Qed.
Lemma be32_word x : word_ok x → u8 (Z.shiftr x 24) * 16777216 + u8 (Z.shiftr x 16) * 65536 + u8 (Z.shiftr x 8) * 256 + u8 x = x.
Proof. unfold word_ok, u8. intros. rewrite !Z.shiftr_div_pow2 by lia. Z.div_mod_to_equations. lia. Qed.
Lemma be_words_bus ws : Forall word_ok ws → be_words (on_bus ws) = ws.
Proof.
  induction 1 as [|x ws Hx _ IH]; [done|]. change (on_bus (x :: ws)) with (be32 x ++ on_bus ws). unfold be32. cbn [app be_words]. by rewrite be32_word, IH.
Qed.
Lemma chip_pokes_eq a ws m : chip_pokes a ws m = pokes chip_poke a ws m.
Proof. revert a m. induction ws as [|x ws IH]; intros a m; [done|]. apply IH. Qed.
Lemma zeros_ok n : Forall byte_ok (replicate n 0).
Proof. apply Forall_replicate. by unfold byte_ok. Qed.
Lemma addr_join a : a / 256 * 256 + a mod 256 = a.
Proof. Z.div_mod_to_equations. lia. Qed.

(** An answer is as long as the request it follows. *)
Ltac answer_length Hr :=
  rewrite length_app, length_replicate; cbn [length]; rewrite Hr; change (mjoin (be32 <$> ?l)) with (on_bus l); rewrite length_on_bus, !length_fmap, length_seqZ; lia.

#[global] Instance ex_chip : TcanChip (U := Link) 0 (ex_setting INTERRUPT) 3 Chip.
Proof.
  refine (@Build_TcanChip Link ex_env 0 (ex_setting INTERRUPT) 3 Chip snd chip_peek chip_poke (λ l, if l.1 then 1%nat else 0%nat) _ _ _ _ _ _ _ _ _ _ _ _).
  - done.
  - done.
  - done.
  - lia.
  - intros [[] m]; cbn; lia.
  - done.
  - intros r a. apply u32_bound.
  - intros ch len u. by exists u.
  - intros seq out [[] m] n Hn Ho; [|done]. injection Hn as <-. eexists _, _. split; [reflexivity|]. cbn. rewrite length_replicate. split; [done|]. split; [apply zeros_ok | done].
  - intros seq a n rest [[] m] Hf Ha Hn Hr; [done|]. rewrite bus_header by (done || unfold SPI_READ; lia). exists (replicate 4 0), (true, m). cbn -[replicate seqZ duplex]. rewrite addr_join, duplex_id by answer_length Hr.
    split; [done|]. split; [done|]. split; [apply zeros_ok | done].
  - intros seq a n rest [[] m] Hf Ha Hn Hr; [done|]. rewrite bus_header by (done || unfold SPI_READ_WAIT; lia). exists (replicate 8 0), (true, m). cbn -[replicate seqZ duplex]. rewrite addr_join, duplex_id by answer_length Hr.
    split; [done|]. split; [done|]. split; [apply zeros_ok | done].
  - intros seq a ws [[] m] Hf Ha Hl Hw; [done|]. change (on_bus (?h :: ws)) with (on_bus [h] ++ on_bus ws). pose proof (lenZ_nonneg ws).
    rewrite bus_header by (done || unfold SPI_WRITE; lia). eexists (replicate _ 0), (true, _). cbn -[replicate seqZ duplex]. rewrite addr_join, be_words_bus, chip_pokes_eq, duplex_id by (done || apply length_replicate).
    split; [reflexivity|]. rewrite length_replicate, length_on_bus. split; [lia|]. split; [apply zeros_ok | done].
Defined.

(** * The CAN driver: register accesses *)

Section claims.
Context {U : Type} {HE : Tcan_Env U} (c : Z) (cs : ControllerSetting) (limit : Z) (R : Type) {HC : TcanChip c cs limit R}.
Abbreviation W := (TcanWorld U).

(** The state after a transfer: new buffer words of the controller, a new state of link and chip. *)
Definition after_transfer (w : W) (k : Ctrl) (b : list Z) (u : U) : W :=
  mkTcan (vars w) (<[Z.to_nat c := set_buf b k]> (ctrls w)) u (tc_trace w).

(** C11. The SPI access functions refine reads and writes of the registers of the chip: with a
    chip that follows the protocol and a link that recovers within the configured retries,
    reading n (at most 18) words from an address returns E_OK, leaves the chip as it is and
    puts the n words of the chip in the receive buffer of the execution context, for both
    variants of the read command; writing n words returns E_OK and stores exactly the n words
    of the transmit buffer, in order, from the address on.  Writing, and reading with the plain
    read command, change only words of the two buffers of the context; reading with the wait
    variant may in addition change one word that is not its own, the last word of the buffer
    that lies before the receive buffer (of another context). *)
Theorem tcan_register_access (w : W) k a n ws :
  aget (ctrls w) c = Some k → ctrl_ok k → config_ok limit (vars w) → 0 ≤ a < 65536 → 0 ≤ n ≤ 18 →
  aslice (SpiBuf k) (tx_base k + 1) n = Some ws →
  (∃ b u, Tcan_SpiRead c a n w = Some (E_OK, after_transfer w k b u) ∧ transferred_by (ReadCmd k) k b ∧ regs u = regs (up w) ∧
     aslice b (rx_base k + 1) n = Some (peek (regs (up w)) <$> addrs a n)) ∧
  (∃ b u, Tcan_SpiWrite c a n w = Some (E_OK, after_transfer w k b u) ∧ transferred_by SPI_WRITE k b ∧ regs u = pokes poke a ws (regs (up w))).
Proof using HC.
  intros Hk Hok Hv Ha Hn Hws. pose proof (aget_Some _ _ _ Hk) as Hc. pose proof (world_st c (ctrls w) Hc w k Hk eq_refl) as Ew.
  split.
  - assert (wp (Tcan_SpiRead c a n) (λ r s, ∃ b u, r = E_OK ∧ s = after_transfer w k b u ∧ transferred_by (ReadCmd k) k b ∧ regs u = regs (up w) ∧
      aslice b (rx_base k + 1) n = Some (peek (regs (up w)) <$> addrs a n)) w) as H.
    { rewrite Ew at 1. apply (wp_SpiRead c cs limit R (ctrls w) Hc); [done..|]. intros b u Ht Hu Hs. exists b, u. done. }
    apply wp_run in H as (r & s & E & b & u & -> & -> & H). eauto.
  - assert (wp (Tcan_SpiWrite c a n) (λ r s, ∃ b u, r = E_OK ∧ s = after_transfer w k b u ∧ transferred_by SPI_WRITE k b ∧ regs u = pokes poke a ws (regs (up w))) w) as H.
    { rewrite Ew at 1. eapply (wp_SpiWrite c cs limit R (ctrls w) Hc); [done..|]. intros b u Ht Hu. exists b, u. done. }
    apply wp_run in H as (r & s & E & b & u & -> & -> & H). eauto.
Qed.
End claims.

(** Three words from the bit timing registers on, over a link on which every other transfer
    fails. *)
Definition ex_reg_ctrl : Ctrl :=
  mkCtrl None (IF_MODE CANIF_CS_STOPPED) 0 (replicate 120 7) 0 SPI_READ cleared_dev (replicate 32 0) None 0 0 0 [].
Definition ex_reg_world : TcanWorld Link :=
  mkTcan (set_configptr (Some ex_config) cleared_vars) [ex_reg_ctrl] (true, <[REG_NBTP := 305419896]> ∅) [].
Lemma ex_reg_ok : ctrl_ok ex_reg_ctrl.
Proof. split; [done | apply Forall_replicate; by unfold word_ok | done | by left]. Qed.
Lemma tcan_register_access_witness : ∃ b u,
  Tcan_SpiRead 0 REG_NBTP 3 ex_reg_world = Some (E_OK, after_transfer 0 ex_reg_world ex_reg_ctrl b u) ∧ aslice b 61 3 = Some [305419896; 0; 0].
Proof.
  destruct (tcan_register_access 0 (ex_setting INTERRUPT) 3 Chip ex_reg_world ex_reg_ctrl REG_NBTP 3 [7; 7; 7]) as [(b & u & E & _ & _ & Hs) _].
  - reflexivity.
  - apply ex_reg_ok.
  - exists ex_config. split; reflexivity.
  - vm_compute. split; [discriminate | reflexivity].
  - lia.
  - reflexivity.
  - exists b, u. split; [exact E|]. exact Hs.
Defined.

(** The foreign word: the task reads with the wait variant, and the last word of the transmit
    buffer of the cyclic functions, SpiTxBuf[2][19], is overwritten by a word of the answer. *)
Definition ex_wait_world : TcanWorld Link :=
  mkTcan (set_configptr (Some ex_config) cleared_vars) [set_readcmd SPI_READ_WAIT ex_reg_ctrl] (false, ∅) [].
Example read_wait_foreign_word : ¬ own TASK_CONTEXT 59 ∧ own MAIN_FUNCTION_CONTEXT 59 ∧
  (Tcan_SpiRead 0 REG_NBTP 1 ex_wait_world ≫= λ p, aget (ctrls p.2) 0 ≫= λ k, aget (SpiBuf k) 59) = Some 0 ∧ aget (SpiBuf ex_reg_ctrl) 59 = Some 7.
Proof. unfold own, TASK_CONTEXT, MAIN_FUNCTION_CONTEXT. split; [lia|]. split; [lia|]. split; vm_compute; reflexivity. Qed.
