(* ===== verification/TcanFifo.v ===== *)
(** * The CAN driver: symbolic execution, and the FIFOs of the chip

    The register accesses as steps on states [st v (set_buf b k) u t]: the controller has the
    variables [k], except that transfers have changed the buffer words of its context.

    A FIFO of the chip is seen through a status register with fill level and get index, an
    acknowledge register and its elements in the message RAM.  The loops of the driver hand on
    the elements in order and leave the FIFO empty. *)

From S2P Require Import Prelude ComStack CanIf TcanTypes TcanSpi TcanMCan TcanTraffic Tcan TcanMode TcanLink.
From stdpp Require Import base list numbers option.

#[local] Open Scope Z_scope.

Lemma set_buf_set_buf b b' k : set_buf b' (set_buf b k) = set_buf b' k.
Proof. done. Qed.
Lemma set_buf_id k : set_buf (SpiBuf k) k = k.
Proof. by destruct k. Qed.
Lemma addrs_1 a : addrs a 1 = [a].
Proof. unfold addrs. change (seqZ 0 1) with [0]. cbn [fmap list_fmap]. f_equal. lia. Qed.
Lemma addrs_2 a : addrs a 2 = [a; a + 4].
Proof. unfold addrs. change (seqZ 0 2) with [0; 1]. cbn [fmap list_fmap]. f_equal. lia. Qed.

Section steps.
Context {U : Type} {HE : Tcan_Env U} (c : Z) (cs : ControllerSetting) (limit : Z) (R : Type) {HC : TcanChip c cs limit R}.
Context (L0 : list Ctrl) (Hc : 0 ≤ c < lenZ L0).
Abbreviation W := (TcanWorld U).
Abbreviation st := (st c L0).

Implicit Types (u : U).

Lemma step_setting v k u t Q : Q cs (st v k u t) → wp (setting c) Q (st v k u t).
Proof using HC. intros HQ. unfold setting. eapply wp_lift; [apply chip_setting | done]. Qed.

Lemma step_read a n v k b u t Q :
  ctrl_ok k → transferred k b → config_ok limit v → 0 ≤ a < 65536 → 0 ≤ n ≤ 18 →
  (∀ b' u', transferred k b' → regs u' = regs u → aslice b' (rx_base k + 1) n = Some (peek (regs u) <$> addrs a n) → Q E_OK (st v (set_buf b' k) u' t)) →
  wp (Tcan_SpiRead c a n) Q (st v (set_buf b k) u t).
Proof using Hc HC.
  intros Hk Hb Hv Ha Hn HQ. apply (wp_SpiRead c cs limit R L0 Hc); [by apply transferred_ok | done..|].
  intros b' u' Ht Hu Hs. rewrite set_buf_set_buf. apply HQ; [by eapply transferred_trans | done | done].
Qed.
Lemma step_read1 a v k b u t Q :
  ctrl_ok k → transferred k b → config_ok limit v → 0 ≤ a < 65536 →
  (∀ b' u', transferred k b' → regs u' = regs u → aget b' (rx_base k + 1) = Some (peek (regs u) a) → Q E_OK (st v (set_buf b' k) u' t)) →
  wp (Tcan_SpiRead c a 1) Q (st v (set_buf b k) u t).
Proof using Hc HC.
  intros Hk Hb Hv Ha HQ. apply step_read; [done..|]. intros b' u' Ht Hu Hs. apply HQ; [done | done|]. rewrite addrs_1 in Hs.
  by rewrite <-(Z.add_0_r (rx_base k + 1)), <-(aget_aslice _ _ _ _ _ Hs) by lia.
Qed.
Lemma step_write a n ws v k b u t Q :
  ctrl_ok k → transferred k b → config_ok limit v → 0 ≤ a < 65536 → 0 ≤ n ≤ 18 → aslice b (tx_base k + 1) n = Some ws →
  (∀ b' u', transferred k b' → regs u' = pokes poke a ws (regs u) → Q E_OK (st v (set_buf b' k) u' t)) →
  wp (Tcan_SpiWrite c a n) Q (st v (set_buf b k) u t).
Proof using Hc HC.
  intros Hk Hb Hv Ha Hn Hws HQ. eapply (wp_SpiWrite c cs limit R L0 Hc); [by apply transferred_ok | done..|].
  intros b' u' Ht Hu. rewrite set_buf_set_buf. apply HQ; [eapply transferred_trans; [done|]; by eapply transferred_weaken; [|exact Ht] | done].
Qed.
Lemma step_write_word a x v k b u t Q :
  ctrl_ok k → transferred k b → config_ok limit v → 0 ≤ a < 65536 → word_ok x →
  (∀ b' u', transferred k b' → regs u' = poke a x (regs u) → Q E_OK (st v (set_buf b' k) u' t)) →
  wp (write_word c a x) Q (st v (set_buf b k) u t).
Proof using Hc HC.
  intros Hk Hb Hv Ha Hx HQ. apply (wp_write_word c cs limit R L0 Hc); [by apply transferred_ok | done..|].
  intros b' u' Ht Hu. rewrite set_buf_set_buf. apply HQ; [by eapply transferred_trans | done].
Qed.
Lemma step_rxget i x v k b u t Q : aget b (rx_base k + i) = Some x → Q x (st v (set_buf b k) u t) → wp (rxget c i) Q (st v (set_buf b k) u t).
Proof using Hc. intros E HQ. eapply wp_rxget; [done | exact E | done]. Qed.
Lemma step_txget i x v k b u t Q : aget b (tx_base k + i) = Some x → Q x (st v (set_buf b k) u t) → wp (txget c i) Q (st v (set_buf b k) u t).
Proof using Hc. intros E HQ. eapply wp_txget; [done | exact E | done]. Qed.
Lemma step_txset i x v k b u t Q :
  ctrl_ok k → transferred k b → 0 ≤ i < 20 → word_ok x →
  (transferred k (<[Z.to_nat (tx_base k + i) := x]> b) → Q tt (st v (set_buf (<[Z.to_nat (tx_base k + i) := x]> b) k) u t)) →
  wp (txset c i x) Q (st v (set_buf b k) u t).
Proof using Hc.
  intros [Hl Hw Hx _] [Hlb Hwb Hf] Hi Hxx HQ. apply wp_txset; [done | cbn; lia | lia | cbn [SpiBuf set_buf ExCntxt]; lia|].
  rewrite set_buf_set_buf. apply HQ. split; [by rewrite lenZ_insert | by apply Forall_insert|].
  intros j Hj. unfold touched, own in Hj. rewrite aget_insert_ne by (unfold tx_base; lia). by apply Hf.
Qed.

(** Reading again, as silicon revision 3 needs, gives the same. *)
Lemma step_verified a v k b u t Q :
  ctrl_ok k → transferred k b → config_ok limit v → 0 ≤ a < 65536 → a ≠ REG_NDAT1 →
  (∀ b' u', transferred k b' → regs u' = regs u → aget b' (rx_base k + 1) = Some (peek (regs u) a) → Q E_OK (st v (set_buf b' k) u' t)) →
  wp (read_verified c a 1) Q (st v (set_buf b k) u t).
Proof using Hc HC.
  intros Hk Hb Hv Ha Hne HQ. unfold read_verified. apply wp_bind, step_read1; [done..|]. intros b1 u1 Ht1 Hu1 Hs1. apply wp_bind. unfold Tcan_VerifySpiRead.
  apply wp_bind, wp_getv, wp_when; intros _; [|by apply wp_ret, HQ]. apply wp_bind. eapply step_rxget; [exact Hs1|].
  apply wp_when; intros _; [|by apply wp_ret, HQ]. rewrite (proj2 (Z.eqb_neq _ _)) by congruence. apply wp_bind, step_read1; [done..|].
  intros b2 u2 Ht2 Hu2 Hs2. rewrite Hu1 in *. by apply wp_ret, wp_ret, HQ.
Qed.
End steps.

(** * The CAN driver: draining the FIFOs of the chip *)

(** What the chip promises of a FIFO [q] whose elements have an index: [good] are the register
    states in which it is configured as the driver believes. *)
Record fifo_laws {R E : Type} (peek : R → Z → Z) (poke : Z → Z → R → R) (status ack lmask gmask : Z)
  (good : R → Prop) (q : R → list E) (idx : E → Z) (holds : R → E → Prop) : Prop := {
  ff_level r : good r → Z.land (peek r status) lmask = lenZ (q r);
  ff_head r e l : good r → q r = e :: l → Z.shiftr (Z.land (peek r status) gmask) 8 = idx e ∧ 0 ≤ idx e < 64 ∧ holds r e;
  ff_ack r e l : good r → q r = e :: l → good (poke ack (idx e) r) ∧ q (poke ack (idx e) r) = l
}.

(** An entry of the Tx event FIFO: its index and its second word; an element of an Rx FIFO:
    index, header words and data words. *)
Record TxEvent := mkTxEvent { te_idx : Z; te_word : Z }.
Definition te_marker (e : TxEvent) : Z := Z.shiftr (Z.land (te_word e) TX_EVENT_FIFO_ELEMENT_R1_MM) 24.
Record RxElement := mkRxElement { re_idx : Z; re_r0 : Z; re_r1 : Z; re_words : list Z }.
Definition re_length (e : RxElement) : Z := canMsgLength (rx_message (re_r0 e) (re_r1 e) []).
Definition re_message (e : RxElement) : MsgInfoType :=
  rx_message (re_r0 e) (re_r1 e) (take (Z.to_nat (re_length e)) (bytes_of (re_words e))).

Definition tx_event_at {R} (peek : R → Z → Z) (start : Z) (r : R) (e : TxEvent) : Prop :=
  peek r (MSG_RAM_BASE_ADDR + start + 4 * (2 * te_idx e + 1)) = te_word e.
Definition rx_element_at {R} (peek : R → Z → Z) (start size : Z) (r : R) (e : RxElement) : Prop :=
  let a := MSG_RAM_BASE_ADDR + start + 4 * ((2 + Z.shiftr size 2) * re_idx e) in
  peek r <$> addrs a 2 = [re_r0 e; re_r1 e] ∧ peek r <$> addrs (a + 8) (words_for (re_length e)) = re_words e.

Lemma land_mask_range x m : 0 ≤ m → 0 ≤ Z.land x m ≤ m.
Proof.
  intros Hm. split; [apply Z.land_nonneg; lia|]. destruct (Z.eq_dec m 0) as [->|Hne]; [by rewrite Z.land_0_r|].
  apply Z.ldiff_le; [done|]. apply Z.bits_inj'. intros n Hn. rewrite Z.ldiff_spec, Z.land_spec, Z.bits_0. destruct (Z.testbit x n), (Z.testbit m n); done.
Qed.
Lemma dlc_length_range r0 r1 d : 0 ≤ canMsgLength (rx_message r0 r1 d) ≤ 64.
Proof.
  cbn [canMsgLength rx_message]. pose proof (land_mask_range r1 RX_ELEMENT_R1_DLC ltac:(by unfold RX_ELEMENT_R1_DLC)) as H. rewrite Z.shiftr_div_pow2 by lia.
  assert (0 ≤ Z.land r1 RX_ELEMENT_R1_DLC / 2 ^ 16 ≤ 15) as Hd by (unfold RX_ELEMENT_R1_DLC in *; Z.div_mod_to_equations; lia).
  set (d0 := _ / _) in *. clearbody d0. unfold ConvertCanDLC. repeat case_match; bools; lia.
Qed.
Lemma words_for_range n : 0 ≤ n ≤ 64 → 0 ≤ words_for n ≤ 16 ∧ n ≤ 4 * words_for n.
Proof.
  intros Hn. unfold words_for. change 3 with (Z.ones 2). rewrite Z.land_ones by lia. change (2 ^ 2) with 4.
  case_match; bools; Z.div_mod_to_equations; lia.
Qed.

Section fifo.
Context {U : Type} {HE : Tcan_Env U} (c : Z) (cs : ControllerSetting) (limit : Z) (R : Type) {HC : TcanChip c cs limit R}.
Context (L0 : list Ctrl) (Hc : 0 ≤ c < lenZ L0).
Abbreviation W := (TcanWorld U).
Abbreviation st := (st c L0).
Implicit Types (u : U).

(** ** Confirmations *)

Section txevents.
Context (good : R → Prop) (q : R → list TxEvent) (start : Z).
Context (HF : fifo_laws peek poke REG_TXEFS REG_TXEFA TXEFS_EFFL TXEFS_REFGI good q te_idx (tx_event_at peek start)).
Context (Hstart : 0 ≤ start ≤ 32000).

(** The handles that the markers of the entries select. *)
Definition handles (k : Ctrl) (es : list TxEvent) (hs : list Z) : Prop :=
  Forall2 (λ e h, aget (Mcan_swPduHandle k) (te_marker e) = Some h) es hs.

Lemma txevent_drains v : config_ok limit v → ∀ es hs k b u t,
  ctrl_ok k → TX_EVENT_FIFO_START_ADDR (RWDev k) = start → handles k es hs → transferred k b →
  good (regs u) → q (regs u) = es → (es ≠ [] → aget b (rx_base k + 1) = Some (peek (regs u) REG_TXEFS)) →
  wp (txevent_loop (length es) c)
    (λ _ s, ∃ b' u' ts, s = st v (set_buf b' (set_txts ts k)) u' (t ++ (EvTxConfirmation <$> hs)) ∧ transferred k b' ∧ good (regs u') ∧ q (regs u') = [])
    (st v (set_buf b k) u t).
Proof using Hc HC HF Hstart.
  intros Hv es. induction es as [|e es IH]; intros hs k b u t Hk Hs Hh Hb Hg Hq Hrx; cbn [length txevent_loop].
  - inversion Hh; subst. apply wp_ret. exists b, u, (CurrentTxTimeStamp k). cbn [fmap list_fmap]. rewrite app_nil_r. split_and!; [by destruct k | done | done | done].
  - inversion Hh as [|e0 h es0 hs' He Hh']; subst. specialize (Hrx ltac:(done)).
    destruct (ff_head _ _ _ _ _ _ _ _ _ _ HF _ _ _ Hg Hq) as (Hi & Hir & Hat). destruct (ff_ack _ _ _ _ _ _ _ _ _ _ HF _ _ _ Hg Hq) as [Hg' Hq'].
    apply wp_bind. eapply step_rxget; [done | exact Hrx|]. cbv zeta. rewrite Hi. apply wp_bind, wp_getc; [done|]. cbn [RWDev set_buf].
    apply wp_bind, (step_read1 c cs limit R L0 Hc); [done | done | done | unfold MSG_RAM_BASE_ADDR; lia|]. intros b1 u1 Ht1 Hu1 Hx1.
    apply wp_bind. eapply step_rxget; [done | exact Hx1|]. unfold tx_event_at in Hat. rewrite Hat. apply wp_bind, wp_setc; [done|].
    change (set_txts ?x (set_buf b1 k)) with (set_buf b1 (set_txts x k)). set (k1 := set_txts _ k).
    assert (ctrl_ok k1) as Hk1 by (destruct Hk; by split). assert (∀ b, transferred k b ↔ transferred k1 b) as Htk by (intros; by apply transferred_same).
    apply wp_bind, (step_write_word c cs limit R L0 Hc); [done | by apply Htk | done | done | unfold word_ok; lia|]. intros b2 u2 Ht2 Hu2. rewrite Hu1 in Hu2.
    apply wp_bind, wp_ctl; [done|]. apply wp_bind. eapply wp_lift; [exact He|]. apply wp_bind, wp_tc_ev, wp_bind.
    assert (∀ b3 u3, transferred k1 b3 → regs u3 = regs u2 → (es ≠ [] → aget b3 (rx_base k1 + 1) = Some (peek (regs u3) REG_TXEFS)) →
      wp (txevent_loop (length es) c) (λ _ s, ∃ b' u' ts, s = st v (set_buf b' (set_txts ts k)) u' (t ++ (EvTxConfirmation <$> h :: hs')) ∧ transferred k b' ∧ good (regs u') ∧ q (regs u') = [])
        (st v (set_buf b3 k1) u3 (t ++ [EvTxConfirmation h]))) as Hrest.
    { intros b3 u3 Ht3 Hu3 Hrx3. eapply wp_mono; [eapply (IH hs' k1 b3 u3); try done; rewrite Hu3, Hu2; done|]. cbv beta.
      intros _ s (b' & u' & ts & -> & Htb%Htk & Hgb & Hqb). exists b', u', ts. cbn [fmap list_fmap]. rewrite <-app_assoc. done. }
    apply wp_when; intros Hn; bools; [|apply Hrest; [done | done|]; intros Hne; apply bool_decide_eq_true in Hn; by destruct es].
    apply wp_bind, (step_verified c cs limit R L0 Hc); [done | done | done | done | done|]. intros b3 u3 Ht3 Hu3 Hx3. apply wp_ret. apply Hrest; [done | done|]. intros _. by rewrite Hu3.
Qed.

Lemma ProcessTx_drains v k b u t hs : config_ok limit v → ctrl_ok k → TX_EVENT_FIFO_START_ADDR (RWDev k) = start → transferred k b →
  good (regs u) → handles k (q (regs u)) hs →
  wp (Tcan_MCAN_ProcessTx c)
    (λ _ s, ∃ b' u' ts, s = st v (set_buf b' (set_txts ts k)) u' (t ++ (EvTxConfirmation <$> hs)) ∧ transferred k b' ∧ good (regs u') ∧ q (regs u') = [])
    (st v (set_buf b k) u t).
Proof using Hc HC HF Hstart.
  intros Hv Hk Hs Hb Hg Hh. unfold Tcan_MCAN_ProcessTx. apply wp_bind, (step_verified c cs limit R L0 Hc); [done | done | done | done | done|].
  intros b1 u1 Ht1 Hu1 Hx1. apply wp_bind. eapply step_rxget; [done | exact Hx1|]. rewrite (ff_level _ _ _ _ _ _ _ _ _ _ HF) by done.
  unfold lenZ. rewrite Nat2Z.id. apply txevent_drains; rewrite ?Hu1; try done.
Qed.
End txevents.

(** ** Indications *)

(** The CAN identifier CanIf gets, with the flags of extended and FD frames. *)
Definition rx_canid (m : MsgInfoType) : Z :=
  let id := if canMsgExt m then Z.lor (canID m) EXTD_ID_MASK else canID m in
  if CanFDBaudRateEnabled cs && (canMessageFormat m =? 1) then Z.lor id FD_FRAME_MASK else id.
Definition rx_hoh (cc : ControllerConfig) (m : MsgInfoType) : option Z :=
  aget (if canMsgExt m then CanFilterIdxToRxObjExtended cc else CanFilterIdxToRxObjStandard cc) (canFilterIndex m).
Definition indication (hoh : Z) (m : MsgInfoType) : Tcan_Event :=
  EvRxIndication c hoh (rx_canid m) (canMsgDataPtr m) (canMsgLength m) (canTimeStamp m).

(** Driver configured, no call-out, no pretended networking. *)
Definition rx_config (v : Vars) (cc : ControllerConfig) : Prop :=
  LPDU_RECEIVE_CALLOUT = None ∧ ∃ dcfg, DrvConfigPtr v = Some dcfg ∧ aget (CanControllerConfiguration dcfg) c = Some cc.

Lemma step_RxNotification v cc k u t m h Q :
  rx_config v cc → GComConfigId k = 0 → rx_hoh cc m = Some h → Q tt (st v k u (t ++ [indication h m])) → wp (Tcan_RxNotification c m) Q (st v k u t).
Proof using Hc HC.
  intros (Hco & dcfg & Ed & Ecc) Hg Hh HQ. unfold Tcan_RxNotification. apply wp_bind, wp_getc; [done|]. rewrite Hg. cbn [negb Z.eqb]. rewrite andb_false_r.
  apply wp_bind, wp_ret. cbn [when]. unfold rx_indicate. apply wp_bind, wp_ctl; [done|]. apply wp_bind, (step_setting c cs limit R L0).
  rewrite Hg. cbn [negb Z.eqb]. rewrite andb_false_r. apply wp_bind, wp_bind, wp_getv, wp_bind. eapply wp_lift; [exact Ed|]. apply wp_bind. unfold ctrl_config. eapply wp_lift; [exact Ecc|].
  eapply wp_lift; [exact Hh|]. rewrite Hco. cbn [when]. apply wp_bind, wp_tc_ev, wp_bind, wp_ctl; [done|]. rewrite Hg. cbn [negb Z.eqb]. rewrite andb_false_r. cbn [andb when]. by apply wp_ret.
Qed.

Section rxfifo.
Context (f : RxFifo) (good : R → Prop) (q : R → list RxElement) (start size : Z).
Context (HF : fifo_laws peek poke (fifo_status f) (fifo_ack f) RXFS_FFL RXFS_FGI good q re_idx (rx_element_at peek start size)).
Context (Hf : f = FIFO_0 ∨ f = FIFO_1) (Hstart : 0 ≤ start ≤ 20000) (Hsize : aget MCAN_ROBufferSizeFD (CanFdDataBufSize cs) = Some size).

Lemma size_range : 8 ≤ size ≤ 64.
Proof using Hsize.
  pose proof (aget_elem _ _ _ Hsize) as H. apply list_elem_of_In in H. cbn in H. lia.
Qed.
Lemma fifo_regs : (0 ≤ fifo_status f < 65536 ∧ fifo_status f ≠ REG_NDAT1) ∧ 0 ≤ fifo_ack f < 65536.
Proof using Hf. destruct Hf as [E | E]; by rewrite E. Qed.

Lemma step_rx_element e v k b u t Q :
  config_ok limit v → ctrl_ok k → transferred k b → 0 ≤ re_idx e < 64 → rx_element_at peek start size (regs u) e →
  (∀ b' u', transferred k b' → regs u' = regs u → Q (re_message e) (st v (set_buf b' k) u' t)) →
  wp (read_rx_element c (MSG_RAM_BASE_ADDR + start + 4 * ((2 + Z.shiftr size 2) * re_idx e))) Q (st v (set_buf b k) u t).
Proof using Hc HC Hstart Hsize.
  intros Hv Hk Hb Hi [H0 H1] HQ. pose proof size_range as Hs. set (a := MSG_RAM_BASE_ADDR + _ + _) in *.
  assert (0 ≤ a ∧ a + 100 < 65536) as Ha.
  { subst a. unfold MSG_RAM_BASE_ADDR. rewrite Z.shiftr_div_pow2 by lia. assert (2 ≤ size / 2 ^ 2 ≤ 16) by (Z.div_mod_to_equations; lia). nia. }
  unfold read_rx_element. apply wp_bind, (step_read c cs limit R L0 Hc); [done | done | done | lia | lia|]. intros b1 u1 Ht1 Hu1 Hs1. rewrite H0 in Hs1.
  apply wp_bind. eapply step_rxget; [done | rewrite <-(Z.add_0_r (rx_base k + 1)), <-(aget_aslice _ _ _ _ _ Hs1) by lia; reflexivity|].
  apply wp_bind. eapply step_rxget; [done | replace (rx_base k + 2) with (rx_base k + 1 + 1) by lia; rewrite <-(aget_aslice _ _ _ _ _ Hs1) by lia; reflexivity|].
  cbv zeta. fold (re_length e). pose proof (dlc_length_range (re_r0 e) (re_r1 e) []) as Hl. fold (re_length e) in Hl. pose proof (words_for_range _ Hl) as [Hw Hw']. rewrite u8_small by lia.
  apply wp_bind, (step_read c cs limit R L0 Hc); [done | done | done | lia | lia|]. intros b2 u2 Ht2 Hu2 Hs2. rewrite Hu1, H1 in Hs2.
  apply wp_bind, wp_ctl; [done|]. apply wp_bind. eapply wp_lift; [exact Hs2|]. apply wp_ret, HQ; [done | congruence].
Qed.

(** The objects that the filter indices of the elements select. *)
Definition objects (cc : ControllerConfig) (es : list RxElement) (hs : list Z) : Prop :=
  Forall2 (λ e h, rx_hoh cc (re_message e) = Some h) es hs.

Lemma rxfifo_drains v cc : config_ok limit v → rx_config v cc → ∀ es hs k b u t,
  ctrl_ok k → GComConfigId k = 0 → fifo_start f (RWDev k) = start → objects cc es hs → transferred k b →
  good (regs u) → q (regs u) = es → (es ≠ [] → aget b (rx_base k + 1) = Some (peek (regs u) (fifo_status f))) →
  wp (rxfifo_loop (length es) f c)
    (λ _ s, ∃ b' u', s = st v (set_buf b' k) u' (t ++ zip_with indication hs (re_message <$> es)) ∧ transferred k b' ∧ good (regs u') ∧ q (regs u') = [])
    (st v (set_buf b k) u t).
Proof using Hc HC HF Hf Hstart Hsize.
  intros Hv Hcfg es. induction es as [|e es IH]; intros hs k b u t Hk Hg0 Hs Hh Hb Hg Hq Hrx; cbn [length rxfifo_loop].
  - inversion Hh; subst. apply wp_ret. exists b, u. cbn. rewrite app_nil_r. done.
  - inversion Hh as [|e0 h es0 hs' He Hh']; subst es0 hs e0. specialize (Hrx ltac:(done)). destruct fifo_regs as [[Hst Hne] Hack].
    destruct (ff_head _ _ _ _ _ _ _ _ _ _ HF _ _ _ Hg Hq) as (Hi & Hir & Hat). destruct (ff_ack _ _ _ _ _ _ _ _ _ _ HF _ _ _ Hg Hq) as [Hg' Hq'].
    apply wp_bind. eapply step_rxget; [done | exact Hrx|]. cbv zeta. rewrite Hi. apply wp_bind. unfold buf_size.
    apply wp_bind, (step_setting c cs limit R L0). eapply wp_lift; [exact Hsize|]. apply wp_bind, wp_getc; [done|]. cbn [RWDev set_buf]. rewrite Hs.
    apply wp_bind, step_rx_element; [done..|]. intros b1 u1 Ht1 Hu1.
    apply wp_bind, (step_write_word c cs limit R L0 Hc); [done | done | done | done | unfold word_ok; lia|]. intros b2 u2 Ht2 Hu2. rewrite Hu1 in Hu2.
    apply wp_bind. eapply step_RxNotification; [done | done | exact He|]. apply wp_bind.
    assert (∀ b3 u3, transferred k b3 → regs u3 = regs u2 → (es ≠ [] → aget b3 (rx_base k + 1) = Some (peek (regs u3) (fifo_status f))) →
      wp (rxfifo_loop (length es) f c) (λ _ s, ∃ b' u', s = st v (set_buf b' k) u' (t ++ zip_with indication (h :: hs') (re_message <$> e :: es)) ∧ transferred k b' ∧ good (regs u') ∧ q (regs u') = [])
        (st v (set_buf b3 k) u3 (t ++ [indication h (re_message e)]))) as Hrest.
    { intros b3 u3 Ht3 Hu3 Hrx3. eapply wp_mono; [eapply (IH hs' k b3 u3); try done; rewrite Hu3, Hu2; done|]. cbv beta.
      intros _ s (b' & u' & -> & Htb & Hgb & Hqb). exists b', u'. cbn [fmap list_fmap zip_with]. rewrite <-app_assoc. done. }
    apply wp_when; intros Hn; bools; [|apply Hrest; [done | done|]; intros Hne'; apply bool_decide_eq_true in Hn; by destruct es].
    apply wp_bind, (step_verified c cs limit R L0 Hc); [done..|]. intros b3 u3 Ht3 Hu3 Hx3. apply wp_ret. apply Hrest; [done | done|]. intros _. by rewrite Hu3.
Qed.

Lemma ProcessRxFIFO_drains v cc k b u t hs : config_ok limit v → rx_config v cc → ctrl_ok k → GComConfigId k = 0 → fifo_start f (RWDev k) = start → transferred k b →
  good (regs u) → objects cc (q (regs u)) hs →
  wp (Tcan_MCAN_ProcessRxFIFO c f)
    (λ _ s, ∃ b' u', s = st v (set_buf b' k) u' (t ++ zip_with indication hs (re_message <$> q (regs u))) ∧ transferred k b' ∧ good (regs u') ∧ q (regs u') = [])
    (st v (set_buf b k) u t).
Proof using Hc HC HF Hf Hstart Hsize.
  intros Hv Hcfg Hk Hg0 Hs Hb Hg Hh. destruct fifo_regs as [[Hst Hne] _]. unfold Tcan_MCAN_ProcessRxFIFO. apply wp_bind, (step_verified c cs limit R L0 Hc); [done..|].
  intros b1 u1 Ht1 Hu1 Hx1. apply wp_bind. eapply step_rxget; [done | exact Hx1|]. rewrite (ff_level _ _ _ _ _ _ _ _ _ _ HF) by done.
  unfold lenZ. rewrite Nat2Z.id. apply rxfifo_drains with (cc := cc); rewrite ?Hu1; try done.
Qed.
End rxfifo.
End fifo.
