(* ===== verification/TcanSend.v ===== *)
(** * The CAN driver: frames, and writing a Tx element

    What a Tx buffer element means on the bus, what a frame looks like in an Rx element (the
    layout of the M_CAN message RAM), and that the words the driver composes and takes apart
    fit the two.

    What [Tcan_MCAN_Write] puts into the message RAM of the chip: the two header words and the
    data bytes, padded up to the length the code in the header stands for. *)

From S2P Require Import Prelude ComStack CanIf TcanTypes TcanSpi TcanMCan TcanTraffic Tcan TcanMode TcanLink TcanFifo.
From stdpp Require Import base list numbers option.

#[local] Open Scope Z_scope.

(** ** Bits *)

Lemma land_bit x n : 0 ≤ n → (Z.land x (2 ^ n) =? 0) = negb (Z.testbit x n).
Proof.
  intros Hn. destruct (Z.testbit x n) eqn:E; cbn.
  - apply Z.eqb_neq. intros H. apply (f_equal (λ y, Z.testbit y n)) in H. rewrite Z.land_spec, E, Z.pow2_bits_true, Z.bits_0 in H by done. done.
  - apply Z.eqb_eq, Z.bits_inj'. intros m Hm. rewrite Z.land_spec, Z.bits_0. destruct (Z.eq_dec n m) as [->|Hne]; [by rewrite E|].
    by rewrite Z.pow2_bits_false, andb_false_r.
Qed.
Lemma lor_bit x n : 0 ≤ n → Z.lor x (2 ^ n) = if Z.testbit x n then x else x + 2 ^ n.
Proof.
  intros Hn. destruct (Z.testbit x n) eqn:E.
  - apply Z.bits_inj'. intros m Hm. rewrite Z.lor_spec. destruct (Z.eq_dec n m) as [->|Hne]; [by rewrite E|]. by rewrite Z.pow2_bits_false, orb_false_r.
  - pose proof (land_bit x n Hn) as H. rewrite E in H. apply Z.eqb_eq in H. rewrite <-Z.lxor_lor, Z.add_nocarry_lxor by done. done.
Qed.
Lemma testbit_div x n : 0 ≤ n → Z.testbit x n = Z.odd (x / 2 ^ n).
Proof. intros. by rewrite Z.testbit_odd, Z.shiftr_div_pow2. Qed.
(** A bit field of [k] bits at position [n]. *)
Lemma field_at r n k : 0 ≤ n → 0 ≤ k → Z.shiftr (Z.land r (Z.shiftl (Z.ones k) n)) n = (r / 2 ^ n) mod 2 ^ k.
Proof.
  intros Hn Hk. rewrite Z.shiftr_land, Z.shiftr_shiftl_l by lia. replace (n - n) with 0 by lia. by rewrite Z.shiftl_0_r, Z.land_ones, Z.shiftr_div_pow2.
Qed.
Lemma lor_byte_at x d s t : 0 ≤ d < 256 → 0 ≤ s < 4 → 0 ≤ t < 4 → (s = t → u8 (Z.shiftr x (8 * s)) = 0) →
  u8 (Z.shiftr (Z.lor x (Z.shiftl d (8 * s))) (8 * t)) = if decide (s = t) then d else u8 (Z.shiftr x (8 * t)).
Proof.
  intros Hd Hs Ht H0. rewrite Z.shiftr_lor. unfold u8 in *. change 256 with (2 ^ 8) in *.
  assert (∀ a b, Z.lor a b mod 2 ^ 8 = Z.lor (a mod 2 ^ 8) (b mod 2 ^ 8)) as Hlor.
  { intros a b. rewrite <-!Z.land_ones by lia. apply Z.land_lor_distr_l. }
  rewrite Hlor. case_decide as E.
  - subst t. rewrite H0 by done. rewrite Z.shiftr_shiftl_l by lia. replace (8 * s - 8 * s) with 0 by lia. by rewrite Z.shiftl_0_r, Z.mod_small.
  - rewrite <-(Z.lor_0_r (Z.shiftr x (8 * t) mod 2 ^ 8)) at 2. f_equal. destruct (Z.lt_ge_cases s t).
    + rewrite Z.shiftr_shiftl_r by lia. rewrite Z.shiftr_div_pow2 by lia. rewrite Z.div_small; [done|]. split; [lia|].
      eapply Z.lt_le_trans; [apply Hd|]. apply (Z.pow_le_mono_r 2 8); lia.
    + rewrite Z.shiftr_shiftl_l, Z.shiftl_mul_pow2 by lia. replace (8 * s - 8 * t) with (8 * (s - t - 1) + 8) by lia.
      rewrite Z.pow_add_r, Z.mul_assoc by lia. apply Z.mod_mul. lia.
Qed.

(** ** Length codes *)

(** The data length a code stands for in a frame of the format. *)
Definition frame_length (fd : bool) (dlc : Z) : Z := if fd then ConvertCanDLC dlc else Z.min dlc 8.

Lemma dlc_range n : 0 ≤ n → 0 ≤ ConvertToDLC n ≤ 15.
Proof. intros. unfold ConvertToDLC. repeat case_match; bools; lia. Qed.
Lemma dlc_rounds_up n : 0 ≤ n ≤ 64 → n ≤ ConvertCanDLC (ConvertToDLC n) ≤ 64.
Proof. intros. unfold ConvertToDLC. repeat case_match; bools; unfold ConvertCanDLC; repeat case_match; bools; lia. Qed.
Lemma dlc_small n : 0 ≤ n ≤ 8 → ConvertToDLC n = n ∧ ConvertCanDLC n = n.
Proof. intros. unfold ConvertToDLC, ConvertCanDLC. rewrite (proj2 (Z.leb_le _ _)) by lia. split; [done|]. repeat case_match; bools; lia. Qed.

(** ** Frames *)

Record CanFrame := mkFrame {
  fr_ext : bool; fr_id : Z;
  fr_esi : bool; fr_fd : bool; fr_brs : bool;
  fr_dlc : Z; fr_data : list Z }.

(** The frame that the chip sends for a Tx buffer element. *)
Definition frame_of_tx (e0 e1 : Z) (words : list Z) : CanFrame :=
  let ext := Z.testbit e0 30 in
  let fd := Z.testbit e1 21 in
  let dlc := (e1 / 2 ^ 16) mod 16 in
  mkFrame ext (if ext then e0 mod 2 ^ 29 else (e0 / 2 ^ 18) mod 2 ^ 11) (Z.testbit e0 31) fd (Z.testbit e1 20) dlc
    (take (Z.to_nat (frame_length fd dlc)) (bytes_of words)).

(** The header words of the Rx element for a frame that filter [fidx] accepted at time [ts]. *)
Definition rx_r0 (f : CanFrame) : Z :=
  Z.b2z (fr_esi f) * 2 ^ 31 + Z.b2z (fr_ext f) * 2 ^ 30 + (if fr_ext f then fr_id f else fr_id f * 2 ^ 18).
Definition rx_r1 (f : CanFrame) (fidx ts : Z) : Z :=
  fidx * 2 ^ 24 + Z.b2z (fr_fd f) * 2 ^ 21 + Z.b2z (fr_brs f) * 2 ^ 20 + fr_dlc f * 2 ^ 16 + ts.

(** The identifier of a frame as the stack writes it. *)
Definition can_id (ext fd : bool) (id : Z) : Z := Z.b2z ext * 2 ^ 31 + Z.b2z fd * 2 ^ 30 + id.
Definition id_ok (ext : bool) (id : Z) : Prop := 0 ≤ id < (if ext then 2 ^ 29 else 2 ^ 11).

(** Decide a bit of a sum of shifted fields. *)
Ltac bit_of n := rewrite testbit_div by lia; match goal with |- Z.odd ?x = _ => let H := fresh in assert (x = n) as H by (Z.div_mod_to_equations; lia); rewrite H; reflexivity end.

Lemma tx_element_0_fields ext fd id : id_ok ext id →
  let e0 := tx_element_0 (can_id ext fd id) in
  Z.testbit e0 30 = ext ∧ Z.testbit e0 31 = ext ∧ (if ext then e0 mod 2 ^ 29 else (e0 / 2 ^ 18) mod 2 ^ 11) = id ∧ word_ok e0.
Proof.
  intros Hid. unfold tx_element_0, can_id, id_ok in *. change ID_TYPE_MASK with (2 ^ 31). rewrite land_bit by lia.
  assert (Z.testbit (Z.b2z ext * 2 ^ 31 + Z.b2z fd * 2 ^ 30 + id) 31 = ext) as ->.
  { destruct ext, fd; cbn [Z.b2z]; [bit_of 1 | bit_of 1 | bit_of 0 | bit_of 0]. }
  destruct ext; cbn [negb].
  - rewrite Z.lor_comm. change (Z.shiftl 1 30) with (2 ^ 30). rewrite lor_bit by lia.
    assert (Z.testbit (Z.b2z true * 2 ^ 31 + Z.b2z fd * 2 ^ 30 + id) 30 = fd) as ->; [destruct fd; cbn [Z.b2z]; [bit_of 3 | bit_of 2]|].
    replace (if fd then _ else _) with (2 ^ 31 + 2 ^ 30 + id) by (destruct fd; cbn; lia). split_and!; [bit_of 3 | bit_of 1 | Z.div_mod_to_equations; lia | unfold word_ok; lia].
  - assert (u32 (Z.shiftl (Z.b2z false * 2 ^ 31 + Z.b2z fd * 2 ^ 30 + id) 18) = id * 2 ^ 18) as ->.
    { rewrite Z.shiftl_mul_pow2 by lia. unfold u32. destruct fd; cbn [Z.b2z]; Z.div_mod_to_equations; lia. }
    split_and!; [bit_of 0 | bit_of 0 | Z.div_mod_to_equations; lia | unfold word_ok; lia].
Qed.

(** All markers, flags and length codes, by evaluation. *)
Definition tx_element_1_check (m dlc : Z) (fd brs : bool) : bool :=
  let e1 := tx_element_1 m (Z.b2z fd) (Z.b2z brs) dlc in
  eqb (Z.testbit e1 21) fd && eqb (Z.testbit e1 20) brs && ((e1 / 2 ^ 16) mod 16 =? dlc) &&
  (Z.shiftr (Z.land e1 TX_EVENT_FIFO_ELEMENT_R1_MM) 24 =? m) && (0 <=? e1) && (e1 <? 4294967296).
Lemma tx_element_1_all : forallb (λ m, forallb (λ dlc, forallb (λ fd, forallb (tx_element_1_check m dlc fd) [true; false]) [true; false]) (seqZ 0 16)) (seqZ 0 32) = true.
Proof. vm_compute. reflexivity. Qed.
Lemma tx_element_1_fields m dlc fd brs : 0 ≤ m < 32 → 0 ≤ dlc ≤ 15 →
  let e1 := tx_element_1 m (Z.b2z fd) (Z.b2z brs) dlc in
  Z.testbit e1 21 = fd ∧ Z.testbit e1 20 = brs ∧ (e1 / 2 ^ 16) mod 16 = dlc ∧ Z.shiftr (Z.land e1 TX_EVENT_FIFO_ELEMENT_R1_MM) 24 = m ∧ word_ok e1.
Proof.
  intros Hm Hd. pose proof tx_element_1_all as H. rewrite forallb_forall in H. specialize (H m ltac:(apply list_elem_of_In, elem_of_seqZ; lia)).
  rewrite forallb_forall in H. specialize (H dlc ltac:(apply list_elem_of_In, elem_of_seqZ; lia)). rewrite forallb_forall in H. specialize (H fd ltac:(destruct fd; cbn; auto)).
  rewrite forallb_forall in H. specialize (H brs ltac:(destruct brs; cbn; auto)). unfold tx_element_1_check in H. bools. unfold word_ok.
  repeat match goal with H : eqb _ _ = true |- _ => apply eqb_prop in H end. split_and!; (done || lia).
Qed.

(** What an element says of its frame. *)
Lemma rx_message_frame f fidx ts data : id_ok (fr_ext f) (fr_id f) → 0 ≤ fr_dlc f ≤ 15 → 0 ≤ fidx < 128 → 0 ≤ ts < 65536 →
  rx_message (rx_r0 f) (rx_r1 f fidx ts) data =
    mkMsgInfo (fr_id f) (fr_ext f) (ConvertCanDLC (fr_dlc f)) (if 0 <? ConvertCanDLC (fr_dlc f) then Some data else None) (Z.b2z (fr_fd f)) fidx ts.
Proof.
  destruct f as [ext id esi fd brs dlc dt]. unfold id_ok, rx_message, rx_r0, rx_r1. cbn [fr_ext fr_id fr_esi fr_fd fr_brs fr_dlc fr_data]. intros Hid Hd Hf Hts.
  change RX_ELEMENT_R0_XTD with (2 ^ 30). rewrite land_bit by lia.
  assert (Z.testbit (Z.b2z esi * 2 ^ 31 + Z.b2z ext * 2 ^ 30 + (if ext then id else id * 2 ^ 18)) 30 = ext) as ->.
  { destruct esi, ext; cbn [Z.b2z]; [bit_of 3 | bit_of 2 | bit_of 1 | bit_of 0]. }
  rewrite negb_involutive. change RX_ELEMENT_R0_ID with (Z.ones 29). rewrite Z.land_ones by lia.
  change RX_ELEMENT_R1_DLC with (Z.shiftl (Z.ones 4) 16). change RX_ELEMENT_R1_FDF with (Z.shiftl (Z.ones 1) 21). change RX_ELEMENT_R1_FIDX with (Z.shiftl (Z.ones 7) 24).
  rewrite !field_at by lia. rewrite Z.shiftr_div_pow2 by lia. unfold u16.
  set (r1 := fidx * 2 ^ 24 + Z.b2z fd * 2 ^ 21 + Z.b2z brs * 2 ^ 20 + dlc * 2 ^ 16 + ts).
  assert (r1 / 2 ^ 16 mod 2 ^ 4 = dlc ∧ r1 / 2 ^ 21 mod 2 ^ 1 = Z.b2z fd ∧ r1 / 2 ^ 24 mod 2 ^ 7 = fidx ∧ r1 mod 65536 = ts) as (-> & -> & -> & ->).
  { subst r1. split_and!; destruct fd, brs; cbn [Z.b2z]; Z.div_mod_to_equations; lia. }
  f_equal. destruct ext, esi; cbn [Z.b2z]; Z.div_mod_to_equations; lia.
Qed.

(** The flags of the identifier CanIf gets. *)
Lemma rx_canid_frame cs ext fd id len data fidx ts : id_ok ext id →
  rx_canid cs (mkMsgInfo id ext len data (Z.b2z fd) fidx ts) = can_id ext (CanFDBaudRateEnabled cs && fd) id.
Proof.
  intros Hid. unfold rx_canid, can_id, id_ok in *. cbn [canMsgExt canID canMessageFormat].
  replace (Z.b2z fd =? 1) with fd by by destruct fd. change EXTD_ID_MASK with (2 ^ 31). change FD_FRAME_MASK with (2 ^ 30).
  set (fl := CanFDBaudRateEnabled cs && fd).
  assert ((if ext then Z.lor id (2 ^ 31) else id) = Z.b2z ext * 2 ^ 31 + id) as ->.
  { destruct ext; cbn [Z.b2z]; [|lia]. rewrite lor_bit by lia. assert (Z.testbit id 31 = false) as -> by bit_of 0. lia. }
  destruct fl; cbn [Z.b2z]; [|lia]. rewrite lor_bit by lia.
  assert (Z.testbit (Z.b2z ext * 2 ^ 31 + id) 30 = false) as ->; [destruct ext; cbn [Z.b2z]; [bit_of 2 | bit_of 0] | lia].
Qed.

(** * The CAN driver: filling a Tx buffer *)

(** ** The data area of the transmit buffer *)

Definition dword (k : Ctrl) (b : list Z) (i : Z) : Z := default 0 (aget b (tx_base k + 3 + i)).
Definition dbyte (k : Ctrl) (b : list Z) (j : Z) : Z := u8 (Z.shiftr (dword k b (j / 4)) (8 * (j mod 4))).
(** The header words of an element are not touched while its data are stored. *)
Definition same_head (k : Ctrl) (b b' : list Z) : Prop := ∀ i, 0 ≤ i < 3 → aget b' (tx_base k + i) = aget b (tx_base k + i).

Lemma dword_get k b i : ctrl_ok k → lenZ b = 120 → 0 ≤ i < 17 → aget b (tx_base k + 3 + i) = Some (dword k b i).
Proof.
  intros Hk Hl Hi. pose proof (ok_context _ Hk). unfold dword. destruct (aget_is_Some b (tx_base k + 3 + i)) as [x ->]; [|done]. unfold tx_base. lia.
Qed.
Lemma dword_ok k b i : Forall word_ok b → word_ok (dword k b i).
Proof. intros Hb. unfold dword. destruct (aget b _) eqn:E; [by eapply Forall_aget|]. by unfold word_ok. Qed.
Lemma dword_insert k b i i' x : ctrl_ok k → lenZ b = 120 → 0 ≤ i < 17 →
  dword k (<[Z.to_nat (tx_base k + 3 + i) := x]> b) i' = if decide (i = i') then x else dword k b i'.
Proof.
  intros Hk Hl Hi. pose proof (ok_context _ Hk). unfold dword. rewrite aget_insert by (unfold tx_base; lia). repeat case_decide; (done || lia).
Qed.
Lemma same_head_insert k b i x : ctrl_ok k → 0 ≤ i → same_head k b (<[Z.to_nat (tx_base k + 3 + i) := x]> b).
Proof. intros Hk Hi j Hj. pose proof (ok_context _ Hk). rewrite aget_insert_ne; [done | unfold tx_base; lia..]. Qed.
Lemma same_head_trans k b b' b'' : same_head k b b' → same_head k b' b'' → same_head k b b''.
Proof. intros H1 H2 i Hi. by rewrite H2, H1. Qed.
Lemma bytes_of_lookup ws : ∀ j : nat, bytes_of ws !! j = x ← ws !! (j / 4)%nat; Some (u8 (Z.shiftr x (8 * (Z.of_nat j mod 4)))).
Proof.
  induction ws as [|x ws IH]; intros j; [done|]. change (bytes_of (x :: ws)) with (le32 x ++ bytes_of ws).
  destruct (decide (j < 4)%nat).
  - do 4 (destruct j as [|j]; [cbn; by rewrite ?Z.shiftr_0_r|]). lia.
  - replace j with (4 + (j - 4))%nat by lia. rewrite lookup_app_r by (cbn; lia). cbn [length le32]. replace (4 + (j - 4) - 4)%nat with (j - 4)%nat by lia. rewrite IH.
    replace ((4 + (j - 4)) / 4)%nat with (S ((j - 4) / 4)) by (rewrite <-(Nat.div_add_l 1 4) by lia; f_equal; lia). cbn [lookup list_lookup].
    replace (Z.of_nat (4 + (j - 4)) mod 4) with (Z.of_nat (j - 4) mod 4); [done|].
    replace (Z.of_nat (4 + (j - 4))) with (Z.of_nat (j - 4) + 1 * 4) by lia. by rewrite Z.mod_add.
Qed.
(** Data words whose bytes are those of [p]. *)
Lemma take_bytes ws (p : list Z) : (length p ≤ 4 * length ws)%nat →
  (∀ j d, aget p j = Some d → ∃ x, aget ws (j / 4) = Some x ∧ u8 (Z.shiftr x (8 * (j mod 4))) = d) → take (length p) (bytes_of ws) = p.
Proof.
  intros Hl Hp. apply list_eq. intros j. destruct (p !! j) as [d|] eqn:E.
  - pose proof (lookup_lt_Some _ _ _ E). rewrite lookup_take_lt, bytes_of_lookup by done.
    destruct (Hp (Z.of_nat j) d) as (x & Hx & <-); [unfold aget; by rewrite decide_True, Nat2Z.id by lia|].
    unfold aget in Hx. rewrite decide_True in Hx by (Z.div_mod_to_equations; lia). replace (Z.to_nat (Z.of_nat j / 4)) with (j / 4)%nat in Hx; [by rewrite Hx|].
    rewrite Z2Nat.inj_div, Nat2Z.id by lia. done.
  - apply lookup_ge_None_1 in E. apply lookup_ge_None_2. rewrite length_take. lia.
Qed.

Lemma keep_high x s : word_ok x → 0 ≤ s → word_ok (Z.shiftl (Z.shiftr x s) s) ∧ Z.shiftl (Z.shiftr x s) s mod 2 ^ s = 0.
Proof.
  intros Hx Hs. rewrite Z.shiftl_mul_pow2, Z.shiftr_div_pow2 by done. split; [|apply Z.mod_mul; lia]. unfold word_ok in *.
  assert (0 < 2 ^ s) by lia. pose proof (Z.mul_div_le x (2 ^ s)). pose proof (Z.div_pos x (2 ^ s)). nia.
Qed.
(** A byte below a multiple of [2 ^ s] is zero. *)
Lemma low_byte x s t : 0 ≤ s → 0 ≤ t → 8 * t + 8 ≤ s → x mod 2 ^ s = 0 → u8 (Z.shiftr x (8 * t)) = 0.
Proof.
  intros Hs Ht Hst Hx. apply Z.mod_divide in Hx as [y ->]; [|lia]. rewrite Z.shiftr_div_pow2 by lia. replace s with (8 * t + 8 + (s - 8 * t - 8)) by lia.
  rewrite !Z.pow_add_r by lia. replace (y * (2 ^ (8 * t) * 2 ^ 8 * 2 ^ (s - 8 * t - 8))) with (y * 2 ^ (s - 8 * t - 8) * 2 ^ 8 * 2 ^ (8 * t)) by ring.
  rewrite Z.div_mul by lia. apply Z.mod_mul. done.
Qed.
Lemma lor_word x d s : word_ok x → 0 ≤ d < 256 → 0 ≤ s < 4 → word_ok (Z.lor x (Z.shiftl d (8 * s))).
Proof.
  intros Hx Hd Hs. unfold word_ok in *. assert (0 ≤ Z.shiftl d (8 * s) < 4294967296) as Hb.
  { rewrite Z.shiftl_mul_pow2 by lia. assert (s = 0 ∨ s = 1 ∨ s = 2 ∨ s = 3) as [-> | [-> | [-> | ->]]] by lia; lia. }
  split; [apply Z.lor_nonneg; lia|]. set (y := Z.shiftl d (8 * s)) in *. clearbody y.
  assert (Z.lor x y = Z.lor x y mod 2 ^ 32) as ->; [|apply Z.mod_pos_bound; lia].
  rewrite <-Z.land_ones, Z.land_lor_distr_l, !Z.land_ones, !Z.mod_small by lia. done.
Qed.

Section send.
Context {U : Type} {HE : Tcan_Env U} (c : Z) (cs : ControllerSetting) (limit : Z) (R : Type) {HC : TcanChip c cs limit R}.
Context (L0 : list Ctrl) (Hc : 0 ≤ c < lenZ L0).
Abbreviation W := (TcanWorld U).
Abbreviation st := (st c L0).
Implicit Types (u : U).

Lemma step_dset i x v k b u t Q :
  ctrl_ok k → transferred k b → 0 ≤ i < 17 → word_ok x →
  (transferred k (<[Z.to_nat (tx_base k + 3 + i) := x]> b) → Q tt (st v (set_buf (<[Z.to_nat (tx_base k + 3 + i) := x]> b) k) u t)) →
  wp (txset c (3 + i) x) Q (st v (set_buf b k) u t).
Proof using Hc. intros Hk Hb Hi Hx HQ. apply step_txset; [done | done | done | lia | done|]. by rewrite Z.add_assoc. Qed.

Lemma step_clear_data m v k b u t : ctrl_ok k → transferred k b → 0 ≤ m ≤ 64 →
  wp (clear_data c m) (λ _ s, ∃ b', s = st v (set_buf b' k) u t ∧ transferred k b' ∧ same_head k b b' ∧ ∀ j, 0 ≤ j < m → dbyte k b' j = 0) (st v (set_buf b k) u t).
Proof using Hc.
  intros Hk Hb Hm. unfold clear_data. apply wp_bind.
  eapply wp_mono; [apply (wp_mfor _ _ _ (λ i s, ∃ b', s = st v (set_buf b' k) u t ∧ transferred k b' ∧ same_head k b b' ∧ ∀ i', 0 ≤ i' < i → dword k b' i' = 0))|].
  - exists b. split_and!; [done | done | done | lia].
  - intros i s Hi (b1 & -> & Ht1 & Hh1 & Hz). assert (0 ≤ i < 17) by (Z.div_mod_to_equations; lia). apply step_dset; [done | done | done | done|]. intros Ht2. eexists. split_and!; [done | done | |].
    { eapply same_head_trans; [done|]. apply same_head_insert; [done | lia]. }
    intros i' Hi'. rewrite dword_insert by (done || apply Ht1). case_decide; [done | apply Hz; lia].
  - cbv beta. intros _ s (b1 & -> & Ht1 & Hh1 & Hz). rewrite Z.add_0_l, Z2Nat.id in Hz by (Z.div_mod_to_equations; lia). pose proof (t_length _ _ _ Ht1) as Hl1. pose proof (t_words _ _ _ Ht1) as Hw1.
    apply wp_when; intros Hn; bools; [|exists b1; split_and!; try done; intros j Hj; unfold dbyte; rewrite Hz by (Z.div_mod_to_equations; lia); by rewrite Z.shiftr_0_l].
    assert (0 ≤ m / 4 < 17) as Hr by (Z.div_mod_to_equations; lia). assert (0 ≤ m mod 4 < 4) as Hmm by (Z.div_mod_to_equations; lia).
    apply wp_bind. eapply step_txget; [done | rewrite Z.add_assoc; by apply dword_get|].
    destruct (keep_high (dword k b1 (m / 4)) (8 * (m mod 4))) as [Hw Hlow]; [by apply dword_ok | lia|]. apply step_dset; [done..|]. intros Ht2.
    eexists. split_and!; [done | done | |].
    { eapply same_head_trans; [done|]. apply same_head_insert; [done | lia]. }
    intros j Hj. unfold dbyte. rewrite dword_insert by done. case_decide as E.
    + apply low_byte with (s := 8 * (m mod 4)); [lia | Z.div_mod_to_equations; lia | Z.div_mod_to_equations; lia | done].
    + rewrite Hz by (Z.div_mod_to_equations; lia). by rewrite Z.shiftr_0_l.
Qed.

(** The bytes of [p] are what the loop stores. *)
Definition data_bytes (fd : bool) (pad : Z) (info : PduInfoType) (p : list Z) : Prop :=
  Forall byte_ok p ∧ ∀ j, 0 ≤ j < lenZ p →
    if fd && (SduLength info <=? j) then aget p j = Some pad else ∃ d, SduDataPtr info = Some d ∧ aget d j = aget p j.

Lemma step_store_data fd pad info p v k b u t : ctrl_ok k → transferred k b → lenZ p ≤ 64 → data_bytes fd pad info p →
  (∀ j, 0 ≤ j < lenZ p → dbyte k b j = 0) →
  wp (store_data c fd pad info (lenZ p))
    (λ _ s, ∃ b', s = st v (set_buf b' k) u t ∧ transferred k b' ∧ same_head k b b' ∧ ∀ j d, aget p j = Some d → dbyte k b' j = d) (st v (set_buf b k) u t).
Proof using Hc.
  intros Hk Hb Hp [Hpb Hpd] Hz. unfold store_data.
  eapply wp_mono; [apply (wp_mfor _ _ _ (λ i s, ∃ b', s = st v (set_buf b' k) u t ∧ transferred k b' ∧ same_head k b b' ∧
    ∀ j, 0 ≤ j < lenZ p → dbyte k b' j = if decide (j < i) then default 0 (aget p j) else 0))|].
  - exists b. split_and!; [done | done | done|]. intros j Hj. rewrite decide_False by lia. by apply Hz.
  - intros i s Hi (b1 & -> & Ht1 & Hh1 & Hd). pose proof (lenZ_nonneg p). assert (0 ≤ i < lenZ p) as Hip by lia. assert (0 ≤ i / 4 < 17) as Hr by (Z.div_mod_to_equations; lia).
    destruct (aget_is_Some p i Hip) as [x Hx]. assert (byte_ok x) as Hxb by by eapply Forall_aget. unfold byte_ok in Hxb.
    pose proof (t_length _ _ _ Ht1) as Hl1. pose proof (t_words _ _ _ Ht1) as Hw1. assert (0 ≤ i mod 4 < 4) as Hmm by (Z.div_mod_to_equations; lia).
    apply wp_bind, wp_mono with (P := λ d s, d = x ∧ s = st v (set_buf b1 k) u t).
    { specialize (Hpd i Hip). destruct (fd && _); [apply wp_ret; split; [congruence | done]|]. destruct Hpd as (d & Hd1 & Hd2).
      apply wp_bind. eapply wp_lift; [exact Hd1|]. eapply wp_lift; [by rewrite Hd2, Hx | done]. }
    intros ? ? [-> ->]. apply wp_bind. eapply step_txget; [done | rewrite Z.add_assoc; by apply dword_get|].
    apply step_dset; [done | done | done | apply lor_word; [by apply dword_ok | done | done]|]. intros Ht2. eexists. split_and!; [done | done | |].
    { eapply same_head_trans; [done|]. apply same_head_insert; [done | lia]. }
    intros j Hj. specialize (Hd j Hj) as Hdj. specialize (Hd i Hip) as Hdi. rewrite decide_False in Hdi by lia. unfold dbyte in Hdi, Hdj |- *. rewrite dword_insert by done. destruct (decide (i / 4 = j / 4)) as [E|E].
    + rewrite lor_byte_at; [| done | done | Z.div_mod_to_equations; lia | done]. destruct (decide (i mod 4 = j mod 4)) as [E'|E'].
      * assert (j = i) as -> by (Z.div_mod_to_equations; lia). rewrite decide_True by lia. by rewrite Hx.
      * rewrite <-E in Hdj. rewrite Hdj. apply decide_ext. assert (j ≠ i) by congruence. lia.
    + rewrite Hdj. apply decide_ext. assert (j ≠ i) by congruence. lia.
  - cbv beta. intros _ s (b1 & -> & Ht1 & Hh1 & Hd). rewrite Z.add_0_l, Z2Nat.id in Hd by apply lenZ_nonneg. exists b1. split_and!; [done..|].
    intros j d Hj. rewrite Hd, Hj by by eapply aget_Some. rewrite decide_True; [done|]. by eapply aget_Some in Hj as [? ?].
Qed.

(** ** One element *)

(** The length code and the number of data bytes for an SDU of [len] bytes. *)
Definition tx_dlc (len : Z) : Z := if CanFDBaudRateEnabled cs then ConvertToDLC len else len.
Definition tx_length (len : Z) : Z := if CanFDBaudRateEnabled cs then ConvertCanDLC (ConvertToDLC len) else len.
Definition len_ok (len : Z) : Prop := 0 ≤ len ≤ (if CanFDBaudRateEnabled cs then 64 else 8).
Definition tx_brs (k : Ctrl) (brs : bool) : Prop :=
  if CanFDBaudRateEnabled cs then ∃ f, Mcan_FdConfig k = Some f ∧ CanControllerDataTxBitRateSwitch f = Z.b2z brs else brs = false.
Definition tx_fdf (id : Z) : bool := CanFDBaudRateEnabled cs && Z.testbit id 30.
Definition element_at (start size idx : Z) : Z := MSG_RAM_BASE_ADDR + start + 4 * ((2 + Z.shiftr size 2) * idx).

Lemma len_ok_range len : len_ok len → 0 ≤ tx_dlc len ≤ 15 ∧ 0 ≤ tx_length len ≤ 64 ∧ len ≤ tx_length len.
Proof.
  unfold len_ok, tx_dlc, tx_length. destruct (CanFDBaudRateEnabled cs); [|lia]. intros. pose proof (dlc_range len). pose proof (dlc_rounds_up len). lia.
Qed.
Lemma element_at_range start size idx : 0 ≤ start ≤ 20000 → 8 ≤ size ≤ 64 → 0 ≤ idx < 64 → 0 ≤ element_at start size idx ∧ element_at start size idx + 100 < 65536.
Proof.
  intros Hs Hz Hi. unfold element_at, MSG_RAM_BASE_ADDR. rewrite Z.shiftr_div_pow2 by lia. assert (2 ≤ size / 2 ^ 2 ≤ 16) by (Z.div_mod_to_equations; lia). nia.
Qed.

Lemma head_slice k b n e0 e1 : ctrl_ok k → transferred k b → 0 ≤ n ≤ 16 →
  aget b (tx_base k + 1) = Some e0 → aget b (tx_base k + 2) = Some e1 →
  aslice b (tx_base k + 1) (n + 2) = Some (e0 :: e1 :: (dword k b <$> seqZ 0 n)).
Proof.
  intros Hk Hb Hn H0 H1. pose proof (ok_context _ Hk). pose proof (t_length _ _ _ Hb) as Hl. apply aslice_aget.
  - unfold tx_base. lia.
  - rewrite !lenZ_cons, lenZ_fmap. unfold lenZ. rewrite length_seqZ. lia.
  - unfold tx_base. lia.
  - intros j Hj. destruct (decide (j = 0)) as [->|]; [by rewrite Z.add_0_r|]. destruct (decide (j = 1)) as [->|]; [rewrite <-Z.add_assoc; exact H1|].
    replace (tx_base k + 1 + j) with (tx_base k + 3 + (j - 2)) by lia. rewrite dword_get by (done || lia).
    unfold aget. rewrite decide_True by lia. replace (Z.to_nat j) with (S (S (Z.to_nat (j - 2)))) by lia.
    change ((?x :: ?y :: ?l) !! S (S ?n)) with (l !! n). rewrite list_lookup_fmap, lookup_seqZ_lt by lia. cbn. f_equal. f_equal. lia.
Qed.
Lemma data_words k b p n : ctrl_ok k → transferred k b → 0 ≤ n ≤ 16 → lenZ p ≤ 4 * n → (∀ j d, aget p j = Some d → dbyte k b j = d) →
  take (length p) (bytes_of (dword k b <$> seqZ 0 n)) = p ∧ Forall word_ok (dword k b <$> seqZ 0 n).
Proof.
  intros Hk Hb Hn Hp Hd. split.
  - apply take_bytes; [rewrite length_fmap, length_seqZ; unfold lenZ in Hp; lia|]. intros j d Hj. exists (dword k b (j / 4)). pose proof (aget_Some _ _ _ Hj). split; [|by apply Hd].
    unfold aget. rewrite decide_True by (Z.div_mod_to_equations; lia). rewrite list_lookup_fmap, lookup_seqZ_lt by (Z.div_mod_to_equations; lia). cbn. f_equal. f_equal. Z.div_mod_to_equations; lia.
  - apply Forall_fmap, Forall_forall. intros x _. apply dword_ok, Hb.
Qed.

Section element.
Context (start size : Z) (Hstart : 0 ≤ start ≤ 20000) (Hsize : aget MCAN_ROBufferSizeFD (CanFdDataBufSize cs) = Some size).
Context (pduInfo : Can_PduType) (TxObj : TxObjConfig) (v : Vars) (Hv : config_ok limit v).

(** What the driver has done once the request for buffer [idx] is out: the chip holds the
    element and the request, the handle is remembered for the confirmation. *)
Definition sent (k : Ctrl) (u : U) (t : list Tcan_Event) (idx : Z) (brs : bool) (len : Z) (p : list Z) (s : W) : Prop :=
  ∃ b u' dw,
    s = st v (set_buf b (set_pduhandles (<[Z.to_nat idx := swPduHandle pduInfo]> (Mcan_swPduHandle k)) k)) u' t ∧ transferred k b ∧
    lenZ dw = words_for (lenZ p) ∧ Forall word_ok dw ∧ take (length p) (bytes_of dw) = p ∧
    regs u' = poke REG_TXBAR (2 ^ idx)
      (pokes poke (element_at start size idx)
         (tx_element_0 (pdu_id pduInfo) :: tx_element_1 idx (Z.b2z (tx_fdf (pdu_id pduInfo))) (Z.b2z brs) (tx_dlc len) :: dw) (regs u)).

Lemma step_write_element info k b u t idx brs p :
  ctrl_ok k → transferred k b → TX_BUFFER_START_ADDR (RWDev k) = start → lenZ (Mcan_swPduHandle k) = 32 → tx_brs k brs →
  0 ≤ idx < 32 → word_ok (tx_element_0 (pdu_id pduInfo)) → len_ok (SduLength info) → lenZ p = tx_length (SduLength info) →
  data_bytes (CanFDBaudRateEnabled cs) (CanFdPaddingValue TxObj) info p →
  wp (write_element c pduInfo TxObj info idx) (λ r s, r = CAN_OK ∧ sent k u t idx brs (SduLength info) p s) (st v (set_buf b k) u t).
Proof using Hc HC Hv Hstart Hsize.
  intros Hk Hb Hst Hh Hbrs Hi He0 Hlen Hp Hpd. destruct (len_ok_range _ Hlen) as (Hdlc & Hm & _). pose proof (size_range cs size Hsize) as Hsz.
  unfold write_element. apply wp_bind, step_txset; [done | done | done | lia | done|]. intros Ht1. set (b1 := <[_ := _]> b) in *.
  apply wp_bind, wp_ctl; [done|]. cbn [Mcan_swPduHandle set_buf]. apply wp_bind. eapply wp_lift; [apply aset_is_Some; lia|]. apply wp_bind, wp_setc; [done|].
  change (set_pduhandles ?x (set_buf b1 k)) with (set_buf b1 (set_pduhandles x k)). set (k1 := set_pduhandles _ k).
  assert (ctrl_ok k1) as Hk1 by (destruct Hk; by split). assert (∀ b, transferred k b ↔ transferred k1 b) as Htk by (intros; by apply transferred_same).
  apply Htk in Ht1. apply wp_bind, (step_setting c cs limit R L0). apply wp_bind.
  apply wp_mono with (P := λ r s, r = Z.b2z brs ∧ s = st v (set_buf b1 k1) u t).
  { unfold tx_brs in Hbrs. destruct (CanFDBaudRateEnabled cs); [|apply wp_ret; by subst brs]. destruct Hbrs as (f & Hf & Hb2). apply wp_bind. eapply wp_lift; [exact Hf|]. by apply wp_ret. }
  intros ? ? [-> ->]. cbv zeta. fold (tx_dlc (SduLength info)).
  assert ((if CanFDBaudRateEnabled cs then ConvertCanDLC (tx_dlc (SduLength info)) else SduLength info) = lenZ p) as Elen by (rewrite Hp; unfold tx_length, tx_dlc; by destruct (CanFDBaudRateEnabled cs)).
  rewrite Elen.
  assert ((if CanFDBaudRateEnabled cs && negb (Z.land (pdu_id pduInfo) FRAME_TYPE_MASK =? 0) then 1 else 0) = Z.b2z (tx_fdf (pdu_id pduInfo))) as ->.
  { unfold tx_fdf. change FRAME_TYPE_MASK with (2 ^ 30). rewrite land_bit, negb_involutive by lia. by destruct (_ && _). }
  destruct (tx_element_1_fields idx (tx_dlc (SduLength info)) (tx_fdf (pdu_id pduInfo)) brs Hi Hdlc) as (_ & _ & _ & _ & He1).
  apply wp_bind, step_txset; [done | done | done | lia | done|]. intros Ht2. set (b2 := <[_ := _]> b1) in *.
  assert (lenZ b = 120 ∧ lenZ b1 = 120) as [Hlb Hlb1] by (split; [apply Hb | apply Ht1]). pose proof (ok_context _ Hk) as Hcx.
  assert (aget b2 (tx_base k1 + 1) = Some (tx_element_0 (pdu_id pduInfo)) ∧ aget b2 (tx_base k1 + 2) = Some (tx_element_1 idx (Z.b2z (tx_fdf (pdu_id pduInfo))) (Z.b2z brs) (tx_dlc (SduLength info)))) as [Hg1 Hg2].
  { change (tx_base k1) with (tx_base k) in *. subst b2 b1. clear Hlb1. split; [rewrite aget_insert_ne by (unfold tx_base; lia)|]; apply aget_insert_eq; rewrite ?lenZ_insert; unfold tx_base; lia. }
  apply wp_bind. eapply wp_mono; [apply step_clear_data; [done | done | lia]|]. cbv beta. intros _ s (b3 & -> & Ht3 & Hh3 & Hz).
  apply wp_bind. eapply wp_mono; [apply step_store_data; [done | done | lia | done | exact Hz]|]. cbv beta. intros _ s (b4 & -> & Ht4 & Hh4 & Hd).
  apply wp_bind. unfold buf_size. apply wp_bind, (step_setting c cs limit R L0). eapply wp_lift; [exact Hsize|]. cbn [RWDev set_buf]. rewrite Hst. fold (element_at start size idx).
  destruct (words_for_range (lenZ p)) as [Hw Hw']; [lia|]. rewrite u8_small by lia. pose proof (element_at_range start size idx Hstart Hsz ltac:(lia)) as Hea.
  pose proof (head_slice k1 b4 (words_for (lenZ p)) _ _ Hk1 Ht4 ltac:(lia) (eq_trans (Hh4 1 ltac:(lia)) (eq_trans (Hh3 1 ltac:(lia)) Hg1)) (eq_trans (Hh4 2 ltac:(lia)) (eq_trans (Hh3 2 ltac:(lia)) Hg2))) as Hsl.
  apply wp_bind. eapply (step_write c cs limit R L0 Hc); [done | done | done | lia | lia | exact Hsl|]. intros b5 u5 Ht5 Hu5.
  unfold bit32. rewrite (proj2 (Z.leb_le _ _)), (proj2 (Z.ltb_lt _ _)) by lia. cbn [andb]. apply wp_bind. eapply wp_lift; [done|]. rewrite Z.shiftl_1_l.
  assert (word_ok (2 ^ idx)) as Hwb by (unfold word_ok; split; [lia | change 4294967296 with (2 ^ 32); apply Z.pow_lt_mono_r; lia]).
  apply wp_bind, (step_write_word c cs limit R L0 Hc); [done | done | done | done | done|]. intros b6 u6 Ht6 Hu6. apply wp_ret. split; [done|].
  destruct (data_words k1 b4 p (words_for (lenZ p)) Hk1 Ht4 ltac:(lia) ltac:(lia) Hd) as [Hp1 Hp2].
  exists b6, u6, (dword k1 b4 <$> seqZ 0 (words_for (lenZ p))). split_and!; [done | by apply Htk | | done | done | by rewrite Hu6, Hu5].
  rewrite lenZ_fmap. unfold lenZ at 1. rewrite length_seqZ. lia.
Qed.

(** ** Choosing the buffer *)

(** The first buffer from [i] on without a pending request. *)
Fixpoint first_free (n : nat) (brp i : Z) : option Z :=
  match n with
  | O => None
  | S n => if Z.testbit brp i then first_free n brp (i + 1) else Some i
  end.

(** The PDU with its data: the SDU, then padding. *)
Definition payload (sdu : list Z) : list Z := sdu ++ replicate (Z.to_nat (tx_length (lenZ sdu)) - length sdu) (CanFdPaddingValue TxObj).
Lemma payload_bytes sdu : len_ok (lenZ sdu) → Forall byte_ok sdu → byte_ok (CanFdPaddingValue TxObj) →
  lenZ (payload sdu) = tx_length (lenZ sdu) ∧
  data_bytes (CanFDBaudRateEnabled cs) (CanFdPaddingValue TxObj) (mkPduInfo (Some sdu) (lenZ sdu)) (payload sdu).
Proof using.
  clear Hc. intros Hl Hb Hp. destruct (len_ok_range _ Hl) as (_ & Hm & Hle). unfold payload.
  assert (lenZ (sdu ++ replicate (Z.to_nat (tx_length (lenZ sdu)) - length sdu) (CanFdPaddingValue TxObj)) = tx_length (lenZ sdu)) as E.
  { rewrite lenZ_app. unfold lenZ at 2. rewrite length_replicate. unfold lenZ in *. lia. }
  split; [done|]. split; [apply Forall_app; split; [done | by apply Forall_replicate]|]. rewrite E. intros j Hj. cbn [SduLength SduDataPtr].
  destruct (Z.leb_spec (lenZ sdu) j) as [Hlt|Hlt].
  - unfold tx_length in *. destruct (CanFDBaudRateEnabled cs); [|lia]. cbn [andb]. unfold aget, lenZ in *. rewrite decide_True, lookup_app_r by lia. apply lookup_replicate_2. lia.
  - rewrite andb_false_r. exists sdu. split; [done|]. unfold aget, lenZ in *. rewrite !decide_True, lookup_app_l by lia. done.
Qed.

Section choose.
Context (sdu : list Z) (Hsdu : pdu_sdu pduInfo = Some sdu) (Hlen : pdu_length pduInfo = lenZ sdu) (Hok : len_ok (lenZ sdu)) (Hbytes : Forall byte_ok sdu).
Context (Hpad : byte_ok (CanFdPaddingValue TxObj)) (He0 : word_ok (tx_element_0 (pdu_id pduInfo))).

Definition write_result (k : Ctrl) (u : U) (t : list Tcan_Event) (brs : bool) (free : option Z) (r : Can_ReturnType) (s : W) : Prop :=
  match free with
  | Some idx => r = CAN_OK ∧ sent k u t idx brs (lenZ sdu) (payload sdu) s
  | None => r = CAN_BUSY ∧ ∃ b u', s = st v (set_buf b k) u' t ∧ transferred k b ∧ regs u' = regs u
  end.

Lemma step_write_loop k u t brs brp r0 : ctrl_ok k → TX_BUFFER_START_ADDR (RWDev k) = start → lenZ (Mcan_swPduHandle k) = 32 → tx_brs k brs →
  ∀ n i b u1, 0 ≤ i → i + Z.of_nat n ≤ 32 → transferred k b → regs u1 = regs u → (n = O → r0 i = CAN_BUSY) → (∀ j, i < j → r0 j = CAN_BUSY) →
  wp (write_loop n c pduInfo TxObj brp i (r0 i)) (write_result k u t brs (first_free n brp i)) (st v (set_buf b k) u1 t).
Proof using Hc HC Hv Hstart Hsize Hsdu Hlen Hok Hbytes Hpad He0.
  intros Hk Hst Hh Hbrs n. induction n as [|n IH]; intros i b u1 Hi Hin Hb Hu1 Hr0 Hr; cbn [write_loop first_free].
  { apply wp_ret. split; [by apply Hr0|]. eauto. }
  unfold bit32. rewrite (proj2 (Z.leb_le _ _)), (proj2 (Z.ltb_lt _ _)) by lia. cbn [andb]. apply wp_bind. eapply wp_lift; [done|].
  rewrite Z.shiftl_1_l, land_bit by lia. destruct (Z.testbit brp i); cbn [negb].
  - rewrite u8_small by lia. rewrite <-(Hr (i + 1)) by lia. apply IH; [lia | lia | done | done | intros _; apply Hr; lia | intros; apply Hr; lia].
  - rewrite Hsdu. rewrite (bool_decide_eq_false_2 (Some sdu = None)) by done. rewrite andb_false_r. cbn [andb]. rewrite Hlen.
    destruct (payload_bytes sdu Hok Hbytes Hpad) as [Hpl Hpd].
    eapply wp_mono; [apply (step_write_element (mkPduInfo (Some sdu) (lenZ sdu)) k b u1 t i brs (payload sdu)); try done; lia|].
    cbv beta. intros r s (-> & b2 & u2 & dw & -> & H1 & H2 & H3 & H4 & H5). split; [done|]. exists b2, u2, dw. rewrite H5, Hu1. done.
Qed.

Lemma step_MCAN_Write k b u t brs : ctrl_ok k → transferred k b → TX_BUFFER_START_ADDR (RWDev k) = start → lenZ (Mcan_swPduHandle k) = 32 → tx_brs k brs →
  0 ≤ CanTxBufferIndex TxObj → 0 < CanHwObjectCount TxObj → CanTxBufferIndex TxObj + CanHwObjectCount TxObj ≤ 32 →
  wp (Tcan_MCAN_Write c pduInfo TxObj)
    (write_result k u t brs (first_free (Z.to_nat (CanHwObjectCount TxObj)) (peek (regs u) REG_TXBRP) (CanTxBufferIndex TxObj))) (st v (set_buf b k) u t).
Proof using Hc HC Hv Hstart Hsize Hsdu Hlen Hok Hbytes Hpad He0.
  intros Hk Hb Hst Hh Hbrs Hi Hn Hin. unfold Tcan_MCAN_Write. apply wp_bind, (step_verified c cs limit R L0 Hc); [done | done | done | done | done|].
  intros b1 u1 Ht1 Hu1 Hx1. apply wp_bind. eapply step_rxget; [done | exact Hx1|].
  pose proof (step_write_loop k u t brs (peek (regs u) REG_TXBRP) (λ i, if decide (i = CanTxBufferIndex TxObj) then CAN_OK else CAN_BUSY) Hk Hst Hh Hbrs
    (Z.to_nat (CanHwObjectCount TxObj)) (CanTxBufferIndex TxObj) b1 u1) as H. cbv beta in H. rewrite decide_True in H by done.
  apply H; [done | lia | done | done | lia|]. intros j Hj. rewrite decide_False by lia. done.
Qed.
End choose.
End element.
End send.
