(* ===== verification/TcanWrite.v ===== *)
(** * The CAN driver: the service Write against the chip *)

From S2P Require Import Prelude ComStack CanIf TcanTypes TcanSpi TcanMCan TcanTraffic Tcan TcanMode TcanExample TcanLink TcanLinkClaims TcanFifo TcanSend.
From stdpp Require Import base list numbers option gmap.

#[local] Open Scope Z_scope.

Section service.
Context {U : Type} {HE : Tcan_Env U} (c : Z) (cs : ControllerSetting) (limit : Z) (R : Type) {HC : TcanChip c cs limit R}.
Abbreviation W := (TcanWorld U).
Implicit Types (u : U).

(** ** The frame of an element *)

(** Whether a PDU with the FD flag [fd] is sent as an FD frame, and how long it may be. *)
Definition as_fd (fd : bool) : bool := CanFDBaudRateEnabled cs && fd.
Definition pdu_ok (ext fd : bool) (id size : Z) (sdu : list Z) : Prop :=
  id_ok ext id ∧ Forall byte_ok sdu ∧ lenZ sdu ≤ if as_fd fd then size else 8.

Lemma can_id_fd ext fd id : id_ok ext id → Z.testbit (can_id ext fd id) 30 = fd.
Proof. unfold id_ok, can_id. intros. destruct ext, fd; cbn [Z.b2z]; [bit_of 3 | bit_of 2 | bit_of 1 | bit_of 0]. Qed.
Lemma pdu_len_ok ext fd id size sdu : pdu_ok ext fd id size sdu → size ≤ 64 → len_ok cs (lenZ sdu).
Proof. intros (_ & _ & Hl) Hs. pose proof (lenZ_nonneg sdu). unfold len_ok, as_fd in *. destruct (CanFDBaudRateEnabled cs), fd; cbn in *; lia. Qed.
Lemma sent_frame TxObj ext fd id size sdu idx brs dw : pdu_ok ext fd id size sdu → size ≤ 64 → 0 ≤ idx < 32 →
  take (length (payload cs TxObj sdu)) (bytes_of dw) = payload cs TxObj sdu → lenZ (payload cs TxObj sdu) = tx_length cs (lenZ sdu) →
  let e1 := tx_element_1 idx (Z.b2z (tx_fdf cs (can_id ext fd id))) (Z.b2z brs) (tx_dlc cs (lenZ sdu)) in
  frame_of_tx (tx_element_0 (can_id ext fd id)) e1 dw = mkFrame ext id ext (as_fd fd) brs (tx_dlc cs (lenZ sdu)) (payload cs TxObj sdu) ∧
  Z.shiftr (Z.land e1 TX_EVENT_FIFO_ELEMENT_R1_MM) 24 = idx.
Proof.
  intros Hp Hs Hi Hdw Hlen. pose proof (pdu_len_ok _ _ _ _ _ Hp Hs) as Hlo. destruct Hp as (Hid & Hb & Hl). cbv zeta. unfold tx_fdf. rewrite can_id_fd by done. fold (as_fd fd).
  destruct (len_ok_range cs _ Hlo) as (Hd & _ & _).
  destruct (tx_element_0_fields ext fd id Hid) as (E1 & E2 & E3 & _). destruct (tx_element_1_fields idx (tx_dlc cs (lenZ sdu)) (as_fd fd) brs Hi Hd) as (F1 & F2 & F3 & F4 & _).
  unfold frame_of_tx. rewrite E1, E2, E3, F1, F2, F3. split; [|done]. f_equal. rewrite <-Hdw. f_equal.
  assert (frame_length (as_fd fd) (tx_dlc cs (lenZ sdu)) = lenZ (payload cs TxObj sdu)) as ->; [|unfold lenZ; lia]. rewrite Hlen.
  unfold frame_length, as_fd, tx_dlc, tx_length in *. pose proof (lenZ_nonneg sdu). pose proof (dlc_small (lenZ sdu)) as Hsm.
  destruct (CanFDBaudRateEnabled cs), fd; cbn [andb] in *; try lia. destruct Hsm as [-> ->]; lia.
Qed.

(** ** The service *)

(** The PDU as CanIf hands it over. *)
Definition the_pdu (handle : Z) (ext fd : bool) (id : Z) (sdu : list Z) : Can_PduType := mkCanPdu handle (can_id ext fd id) (lenZ sdu) (Some sdu).

(** A started driver whose object [obj] behind the handle [Hth] is configured within the
    dedicated Tx buffers, nobody writing to it. *)
Record tx_setup (v : Vars) (k : Ctrl) (Hth : Z) (h : HTHMappingConfig) (obj : TxObjConfig) (size : Z) (brs : bool) : Prop := {
  ts_state : DriverState v ≠ DRV_UNINIT;
  ts_config : ∃ cfg cc, ConfigPtr v = Some cfg ∧ CanSpiCommRetries cfg = limit ∧
    0 ≤ CanHRHobjectsCount cfg ≤ Hth ∧ Hth < CanHRHobjectsCount cfg + CanHTHobjectsCount cfg ∧ Hth < 65536 ∧
    aget (CanHTHMappingConfigPtr cfg) (Hth - CanHRHobjectsCount cfg) = Some h ∧ CanCtrlId h = c ∧
    aget (CanControllerConfiguration cfg) c = Some cc ∧ aget (CanTxObjConfigPtr cc) (CanHthIndex h) = Some obj ∧
    aget (HthMutex v) (Hth - CanHRHobjectsCount cfg) = Some 0;
  ts_object : 0 ≤ CanTxBufferIndex obj ∧ 0 < CanHwObjectCount obj ∧ CanTxBufferIndex obj + CanHwObjectCount obj ≤ 32 ∧ byte_ok (CanFdPaddingValue obj);
  ts_ctrl : ctrl_ok k ∧ GComConfigId k = 0 ∧ lenZ (Mcan_swPduHandle k) = 32 ∧ 0 ≤ TX_BUFFER_START_ADDR (RWDev k) ≤ 20000 ∧ tx_brs cs k brs;
  ts_size : aget MCAN_ROBufferSizeFD (CanFdDataBufSize cs) = Some size
}.
Definition api_vars (sid : Z) (v : Vars) : Vars := if DEV_ERROR_DETECT then set_apiid sid v else v.

Section calls.
Context (L0 : list Ctrl) (Hc : 0 ≤ c < lenZ L0).
Abbreviation st := (st c L0).

Lemma step_set_api sid v k u t Q : Q tt (st (api_vars sid v) k u t) → wp (set_api sid) Q (st v k u t).
Proof. intros HQ. unfold set_api, api_vars in *. by destruct DEV_ERROR_DETECT. Qed.

Lemma api_setup sid v k Hth h obj size brs : tx_setup v k Hth h obj size brs → tx_setup (api_vars sid v) k Hth h obj size brs.
Proof. unfold api_vars. destruct DEV_ERROR_DETECT; [|done]. intros [H1 H2 H3 H4 H5]. by split. Qed.

Lemma step_write_check v k u t Hth h obj size brs handle ext fd id sdu :
  tx_setup v k Hth h obj size brs → pdu_ok ext fd id size sdu →
  wp (write_check Hth (Some (the_pdu handle ext fd id sdu))) (λ r s, r = E_OK ∧ s = st v k u t) (st v k u t).
Proof using HC.
  intros [Hs (cfg & cc & Hcfg & _ & Hr0 & Hr1 & _ & Hh & Hcc & Hc1 & Ho & _) _ _ Hz] (Hid & Hb & Hl). pose proof (size_range cs size Hz) as Hsz.
  unfold write_check. destruct DEV_ERROR_DETECT; [|by apply wp_ret]. unfold Tcan_ReportDetUninit. apply wp_bind, wp_bind, wp_getv. rewrite (proj2 (Z.eqb_neq _ _)) by done. apply wp_ret.
  unfold Tcan_WriteDetCheck, config. apply wp_bind, wp_bind, wp_getv. eapply wp_lift; [exact Hcfg|].
  rewrite (proj2 (Z.ltb_ge _ _)), (proj2 (Z.leb_gt _ _)) by lia. cbn [orb the_pdu pdu_id pdu_length pdu_sdu]. apply wp_bind. eapply wp_lift; [exact Hh|]. rewrite Hcc.
  apply wp_bind, (step_setting c cs limit R L0). change FRAME_TYPE_MASK with (2 ^ 30). rewrite land_bit, can_id_fd by (done || lia). unfold as_fd in Hl.
  destruct (CanFDBaudRateEnabled cs); cbn [negb andb] in *; [|rewrite (proj2 (Z.ltb_ge _ _)) by done; by apply wp_ret].
  replace ((8 <? lenZ sdu) && (lenZ sdu <=? 64) && negb fd) with false.
  - unfold buf_size. apply wp_bind, wp_bind, (step_setting c cs limit R L0). eapply wp_lift; [exact Hz|]. rewrite (proj2 (Z.ltb_ge _ _)) by (destruct fd; lia). by apply wp_ret.
  - destruct fd; [by rewrite andb_false_r|]. by rewrite (proj2 (Z.ltb_ge 8 _)).
Qed.

(** The mutex is taken, the PDU is written, the mutex is as before. *)
Lemma step_Write v k u t Hth h obj size brs handle ext fd id sdu :
  tx_setup v k Hth h obj size brs → pdu_ok ext fd id size sdu →
  wp (Tcan_Write Hth (Some (the_pdu handle ext fd id sdu)))
    (write_result c cs limit R L0 (TX_BUFFER_START_ADDR (RWDev k)) size (the_pdu handle ext fd id sdu) obj (api_vars SID_WRITE v) sdu k u t brs
       (first_free (Z.to_nat (CanHwObjectCount obj)) (peek (regs u) REG_TXBRP) (CanTxBufferIndex obj))) (st v k u t).
Proof using HC Hc.
  intros Hset Hp. unfold Tcan_Write. apply wp_bind, step_set_api. apply (api_setup SID_WRITE) in Hset. set (v1 := api_vars SID_WRITE v) in *. clearbody v1.
  apply wp_bind. eapply wp_mono; [by eapply step_write_check|]. intros ? ? [-> ->].
  destruct Hset as [Hs (cfg & cc & Hcfg & Hlim & Hr0 & Hr1 & Hr2 & Hh & Hcc & Hc1 & Ho & Hm) (Ho1 & Ho2 & Ho3 & Ho4) (Hk & Hg & Hlh & Hst & Hbrs) Hz].
  pose proof (size_range cs size Hz) as Hsz. pose proof (pdu_len_ok _ _ _ _ _ Hp ltac:(lia)) as Hlo. destruct Hp as (Hid & Hb & Hl). unfold config. apply wp_bind, wp_bind, wp_getv. eapply wp_lift; [exact Hcfg|]. cbv zeta. rewrite u16_small by lia. set (hth := Hth - CanHRHobjectsCount cfg) in *.
  unfold write_enter. apply wp_bind, wp_bind, wp_getv, wp_bind. eapply wp_lift; [exact Hm|]. cbn [Z.eqb]. pose proof (aget_Some _ _ _ Hm) as Hml. apply wp_bind. eapply wp_lift; [by apply aset_is_Some|].
  apply wp_bind, wp_setv, wp_ret. set (v2 := set_mutexes _ v1). unfold write_body, config. apply wp_bind, wp_bind, wp_bind, wp_getv. eapply wp_lift; [exact Hcfg|].
  apply wp_bind. eapply wp_lift; [exact Hh|]. rewrite Hcc. apply wp_bind, wp_getc; [done|]. rewrite Hg. cbn [negb Z.eqb]. rewrite andb_false_r.
  apply wp_bind. eapply wp_lift; [exact Hc1|]. apply wp_bind. eapply wp_lift; [exact Ho|]. apply wp_bind. eapply wp_lift; [done|]. apply wp_bind.
  destruct (tx_element_0_fields ext fd id Hid) as (_ & _ & _ & He0).
  rewrite <-(set_buf_id k) at 1.
  eapply wp_mono; [apply (step_MCAN_Write c cs limit R L0 Hc (TX_BUFFER_START_ADDR (RWDev k)) size Hst Hz (the_pdu handle ext fd id sdu) obj v2 ltac:(by exists cfg) sdu eq_refl eq_refl Hlo Hb Ho4 He0 k (SpiBuf k) u t brs);
    (done || by apply transferred_refl)|].
  assert (∀ l, set_mutexes (<[Z.to_nat hth:=0]> (<[Z.to_nat hth:=1]> (HthMutex v1))) (set_mutexes l v1) = v1) as Hback.
  { intros l. rewrite list_insert_insert_eq, list_insert_id; [by destruct v1|]. unfold aget in Hm. rewrite decide_True in Hm by lia. done. }
  assert (∀ r k' u' t', r ≠ CAN_NOT_OK → wp ((if decide (r = CAN_NOT_OK) then det SID_WRITE DET_PARAM_POINTER else mret tt);; mret (r, true))
    (λ rb, wp (when rb.2 (write_exit hth);; mret rb.1) (λ r' s, r' = r ∧ s = st v1 k' u' t')) (st v2 k' u' t')) as Hexit.
  { intros r k' u' t' Hr. apply wp_bind. rewrite decide_False by done. apply wp_ret, wp_ret. cbn [fst snd when]. apply wp_bind. unfold write_exit. apply wp_bind, wp_getv, wp_bind. cbn [HthMutex set_mutexes v2].
    eapply wp_lift; [apply aset_is_Some; by rewrite lenZ_insert|]. apply wp_setv, wp_ret. unfold v2. by rewrite Hback. }
  intros r s Hw. unfold write_result in *. destruct (first_free _ _ _) as [idx|].
  - destruct Hw as (-> & b & u' & dw & -> & Hw). eapply wp_mono; [by apply Hexit|]. cbv beta. intros rb s2 H. eapply wp_mono; [exact H|]. intros ? ? [-> ->]. split; [done|]. by exists b, u', dw.
  - destruct Hw as (-> & b & u' & -> & Hw). eapply wp_mono; [by apply Hexit|]. cbv beta. intros rb s2 H. eapply wp_mono; [exact H|]. intros ? ? [-> ->]. split; [done|]. by exists b, u'.
Qed.
End calls.

(** The state after a call of Write that leaves the variables of the controller as [k']. *)
Definition after_write (w : W) (k' : Ctrl) (u : U) : W :=
  mkTcan (api_vars SID_WRITE (vars w)) (<[Z.to_nat c := k']> (ctrls w)) u (tc_trace w).
(** The frame for a PDU. *)
Definition pdu_frame (obj : TxObjConfig) (ext fd : bool) (id : Z) (brs : bool) (sdu : list Z) : CanFrame :=
  mkFrame ext id ext (as_fd fd) brs (tx_dlc cs (lenZ sdu)) (payload cs obj sdu).

Lemma first_free_range n brp i idx : 0 ≤ i → first_free n brp i = Some idx → i ≤ idx < i + Z.of_nat n ∧ Z.testbit brp idx = false.
Proof.
  revert i. induction n as [|n IH]; intros i Hi; cbn [first_free]; [done|]. destruct (Z.testbit brp i) eqn:E.
  - intros [H1 H2]%IH; [|lia]. split; [lia | done].
  - intros [= <-]. split; [lia | done].
Qed.

(** What a call of Write does, depending on the buffer it finds. *)
Definition write_outcome (w : W) (k : Ctrl) (Hth : Z) (obj : TxObjConfig) (size : Z) (brs : bool) (handle : Z) (ext fd : bool) (id : Z) (sdu : list Z) : Prop :=
  match first_free (Z.to_nat (CanHwObjectCount obj)) (peek (regs (up w)) REG_TXBRP) (CanTxBufferIndex obj) with
  | Some idx => ∃ b u e0 e1 dw,
      Tcan_Write Hth (Some (the_pdu handle ext fd id sdu)) w =
        Some (CAN_OK, after_write w (set_buf b (set_pduhandles (<[Z.to_nat idx := handle]> (Mcan_swPduHandle k)) k)) u) ∧
      regs u = poke REG_TXBAR (2 ^ idx) (pokes poke (element_at (TX_BUFFER_START_ADDR (RWDev k)) size idx) (e0 :: e1 :: dw) (regs (up w))) ∧
      frame_of_tx e0 e1 dw = pdu_frame obj ext fd id brs sdu ∧
      Z.shiftr (Z.land e1 TX_EVENT_FIFO_ELEMENT_R1_MM) 24 = idx
  | None => ∃ b u,
      Tcan_Write Hth (Some (the_pdu handle ext fd id sdu)) w = Some (CAN_BUSY, after_write w (set_buf b k) u) ∧ regs u = regs (up w)
  end.
(** The service Write of a configured transmit object.  If one of its Tx buffers has no
    pending request, the first such buffer is used: the call answers CAN_OK, the chip holds in
    that buffer an element whose frame has the identifier, format and length code of the PDU
    and the bytes of the SDU followed by padding, the transmission request of this buffer is
    the last access, and the handle of the PDU is remembered under the marker that the element
    carries.  If all its buffers are pending, the call answers CAN_BUSY and the chip is as
    before.  In both cases the mutex of the object is free again and nothing is reported. *)
Lemma write_sends (w : W) k Hth h obj size brs handle ext fd id sdu :
  aget (ctrls w) c = Some k → tx_setup (vars w) k Hth h obj size brs → pdu_ok ext fd id size sdu → write_outcome w k Hth obj size brs handle ext fd id sdu.
Proof using HC.
  intros Hk Hset Hp. unfold write_outcome. pose proof (aget_Some _ _ _ Hk) as Hc. pose proof (world_st c (ctrls w) Hc w k Hk eq_refl) as Ew.
  pose proof (step_Write (ctrls w) Hc (vars w) k (up w) (tc_trace w) Hth h obj size brs handle ext fd id sdu Hset Hp) as H. rewrite <-Ew in H.
  apply wp_run in H as (r & s & E & H). unfold write_result in H. destruct Hset as [_ _ (Ho1 & Ho2 & Ho3 & Ho4) _ Hz]. pose proof (size_range cs size Hz) as Hsz. destruct (first_free _ _ _) as [idx|] eqn:Ef.
  - apply first_free_range in Ef as [Hi _]; [|done]. destruct H as (-> & b & u & dw & -> & _ & _ & _ & Hdw & Hu).
    destruct (payload_bytes cs obj sdu (pdu_len_ok _ _ _ _ _ Hp ltac:(lia)) ltac:(apply Hp) Ho4) as [Hlp _].
    destruct (sent_frame obj ext fd id size sdu idx brs dw Hp ltac:(lia) ltac:(lia) Hdw Hlp) as [Hf Hmm].
    eexists b, u, _, _, dw. split; [exact E|]. split; [exact Hu|]. done.
  - destruct H as (-> & b & u & -> & _ & Hu). eauto.
Qed.

End service.

(** ** An example: an extended FD frame of 9 bytes, the second of two buffers free *)

Definition ex_tx_ctrl : Ctrl :=
  mkCtrl (Some CAN_T_START) (IF_MODE CANIF_CS_STARTED) 0 (replicate 120 7) 0 SPI_READ (mkDev STATE_RUNNING 4 0 4 0 300 316) (replicate 32 0)
    (Some (mkFdBaud 0 3 4 2 1 8 1)) 0 0 0 [].
Definition ex_tx_world : TcanWorld Link :=
  mkTcan (mkVars DRV_READY 0 0 2 0 0 [0] (Some ex_config) (Some ex_config)) [ex_tx_ctrl] (true, <[REG_TXBRP := 1]> ∅) [].
Definition ex_sdu : list Z := [1; 2; 3; 4; 5; 6; 7; 8; 9].
Lemma ex_tx_ok : ctrl_ok ex_tx_ctrl.
Proof. split; [done | apply Forall_replicate; by unfold word_ok | done | by left]. Qed.
Lemma ex_tx_setup : tx_setup 0 (ex_setting INTERRUPT) 3 (vars ex_tx_world) ex_tx_ctrl 6 (mkHth 0 0) (mkTxObj 204 2 0 false) 64 true.
Proof.
  split; [done | exists ex_config, ex_ctrl; split_and!; done | split_and!; done | | done]. split_and!; [apply ex_tx_ok | done | done | done | done|].
  exists (mkFdBaud 0 3 4 2 1 8 1). done.
Qed.
Lemma ex_pdu_ok : pdu_ok (ex_setting INTERRUPT) true true 305419896 64 ex_sdu.
Proof. split; [done|]. split; [|done]. unfold ex_sdu. repeat (constructor; [by unfold byte_ok|]). constructor. Qed.
