(* ===== verification/TcanRoundTrip.v ===== *)
(** * The CAN driver: from Write to the indication

    The FIFOs of the executable chip satisfy [fifo_laws]; a frame written by one driver is
    indicated by another. *)

From S2P Require Import Prelude ComStack CanIf TcanTypes TcanSpi TcanMCan TcanTraffic Tcan TcanMode TcanExample TcanLink TcanLinkClaims TcanFifo TcanSend TcanWrite.
From stdpp Require Import base list numbers option gmap.

#[local] Open Scope Z_scope.

Section fifo.
(** Registers of the FIFO, the widths of the fields of its status word, and its elements as
    the message RAM holds them. *)
Context (stat ack cfgr lb gb : Z) {E : Type} (idx : E → Z) (elem : Chip → Z → E) (holds : Chip → E → Prop).
Context (Hlb : 6 ≤ lb ≤ 7) (Hgb : 5 ≤ gb ≤ 6) (Hne : stat ≠ cfgr).
Context (Hack : ∀ x m, chip_poke ack x m = <[stat := fifo_pop (Z.shiftr (chip_peek m cfgr) 16) (chip_peek m stat)]> m).
Context (Hidx : ∀ m i, idx (elem m i) = i) (Hsame : ∀ m x i, 0 ≤ i → elem (<[stat := x]> m) i = elem m i) (Hholds : ∀ m i, holds m (elem m i)).

Definition fifo_size (m : Chip) : Z := Z.shiftr (chip_peek m cfgr) 16.
Definition fifo_good (m : Chip) : Prop :=
  let s := chip_peek m stat in 0 < fifo_size m ≤ 32 ∧ 0 ≤ s / 256 < fifo_size m ∧ s mod 256 ≤ fifo_size m.
Definition fifo_elems (m : Chip) : list E :=
  let s := chip_peek m stat in (λ i, elem m ((s / 256 + i) mod fifo_size m)) <$> seqZ 0 (s mod 256).

Lemma peek_insert m a x b : chip_peek (<[a := x]> m) b = if decide (a = b) then u32 x else chip_peek m b.
Proof. unfold chip_peek, Chip in *. case_decide; [subst; by rewrite (lookup_insert_eq (M := gmap Z)) | by rewrite (lookup_insert_ne (M := gmap Z))]. Qed.

Lemma fifo_pop_word n s : 0 < n ≤ 32 → 0 ≤ s / 256 < n → 0 < s mod 256 ≤ n → fifo_pop n s = (s / 256 + 1) mod n * 256 + (s mod 256 - 1).
Proof.
  intros Hn Hg Hl. unfold fifo_pop. change 127 with (Z.ones 7). change 63 with (Z.ones 6). rewrite !Z.land_ones, Z.shiftr_div_pow2 by lia. change (2 ^ 8) with 256.
  assert (s mod 2 ^ 7 = s mod 256) as -> by (Z.div_mod_to_equations; lia). rewrite (Z.mod_small (s / 256)) by lia. rewrite (proj2 (Z.eqb_neq _ _)) by lia.
  rewrite lor_shift; [done | lia|]. lia.
Qed.

Lemma chip_fifo_laws : fifo_laws chip_peek chip_poke stat ack (Z.ones lb) (Z.shiftl (Z.ones gb) 8) fifo_good fifo_elems idx holds.
Proof using Hlb Hgb Hne Hack Hidx Hsame Hholds.
  split.
  - intros r (Hn & Hg & Hl). unfold fifo_elems. rewrite Z.land_ones by lia. rewrite lenZ_fmap. unfold lenZ. rewrite length_seqZ.
    assert (lb = 6 ∨ lb = 7) as [-> | ->] by lia; Z.div_mod_to_equations; lia.
  - intros r e l (Hn & Hg & Hl) Hq. unfold fifo_elems in Hq. pose proof (Z.mod_pos_bound (chip_peek r stat) 256 ltac:(lia)).
    destruct (decide (chip_peek r stat mod 256 = 0)) as [Hz|Hz]; [rewrite Hz in Hq; done|]. rewrite seqZ_cons in Hq by lia. cbn [fmap list_fmap] in Hq. injection Hq as <- _.
    rewrite Z.add_0_r, Z.mod_small, Hidx by lia. split_and!; [|lia..|done]. rewrite field_at by lia. change (2 ^ 8) with 256. apply Z.mod_small. assert (gb = 5 ∨ gb = 6) as [-> | ->] by lia; lia.
  - intros r e l (Hn & Hg & Hl) Hq. unfold fifo_elems in Hq. pose proof (Z.mod_pos_bound (chip_peek r stat) 256 ltac:(lia)).
    destruct (decide (chip_peek r stat mod 256 = 0)) as [Hz|Hz]; [rewrite Hz in Hq; done|]. rewrite seqZ_cons in Hq by lia. cbn [fmap list_fmap] in Hq. injection Hq as _ Hq.
    rewrite Hack. fold (fifo_size r). set (s := chip_peek r stat) in *. rewrite fifo_pop_word by lia. set (s' := (s / 256 + 1) mod fifo_size r * 256 + (s mod 256 - 1)).
    pose proof (Z.mod_pos_bound (s / 256 + 1) (fifo_size r) ltac:(lia)) as Hm.
    assert (s' / 256 = (s / 256 + 1) mod fifo_size r ∧ s' mod 256 = s mod 256 - 1) as [Hs1 Hs2] by (subst s'; Z.div_mod_to_equations; lia).
    assert (fifo_size (<[stat := s']> r) = fifo_size r) as Hfs by (unfold fifo_size; by rewrite peek_insert, decide_False).
    assert (chip_peek (<[stat := s']> r) stat = s') as Hps by (rewrite peek_insert, decide_True by done; apply u32_small; subst s'; lia).
    unfold fifo_good, fifo_elems. rewrite Hfs, Hps, Hs1, Hs2. split; [lia|]. rewrite <-Hq. replace (Z.pred (s mod 256)) with (s mod 256 - 1) by lia.
    replace (Z.succ 0) with (1 + 0) by lia. rewrite <-(fmap_add_seqZ 1 0), <-list_fmap_compose. apply list_fmap_ext. intros j i Hi. apply lookup_seqZ in Hi as [-> Hi]. cbn [compose].
    rewrite Hsame by (apply Z.mod_pos_bound; lia). f_equal. rewrite Zplus_mod_idemp_l. f_equal. lia.
Qed.
End fifo.

Definition chip_tx_event (start : Z) (m : Chip) (i : Z) : TxEvent := mkTxEvent i (chip_peek m (MSG_RAM_BASE_ADDR + start + 4 * (2 * i + 1))).
Definition chip_rx_element (start size : Z) (m : Chip) (i : Z) : RxElement :=
  let a := MSG_RAM_BASE_ADDR + start + 4 * ((2 + Z.shiftr size 2) * i) in
  let r0 := chip_peek m a in
  let r1 := chip_peek m (a + 4) in
  mkRxElement i r0 r1 (chip_peek m <$> addrs (a + 8) (words_for (canMsgLength (rx_message r0 r1 [])))).

(** Registers lie below the message RAM. *)
Lemma peek_ram m s x a : s < MSG_RAM_BASE_ADDR → MSG_RAM_BASE_ADDR ≤ a → chip_peek (<[s := x]> m) a = chip_peek m a.
Proof. intros. rewrite peek_insert, decide_False; [done | lia]. Qed.

Lemma chip_rx_element_same start size m s x i : s < MSG_RAM_BASE_ADDR → 0 ≤ start → 0 ≤ size → 0 ≤ i → chip_rx_element start size (<[s := x]> m) i = chip_rx_element start size m i.
Proof.
  intros Hs Hst Hz Hi. unfold chip_rx_element. cbv zeta. set (a := MSG_RAM_BASE_ADDR + start + _).
  assert (MSG_RAM_BASE_ADDR ≤ a) as Ha by (subst a; rewrite Z.shiftr_div_pow2 by lia; pose proof (Z.div_pos size (2 ^ 2)); nia).
  rewrite !peek_ram by (done || lia). f_equal. apply list_fmap_ext. intros j b Hb. apply peek_ram; [done|]. unfold addrs in Hb. rewrite list_lookup_fmap in Hb.
  destruct (seqZ _ _ !! j) as [y|] eqn:E; [|done]. apply lookup_seqZ in E as [-> _]. cbn in Hb. injection Hb as <-. lia.
Qed.
Lemma chip_rx_element_at start size m i : rx_element_at chip_peek start size m (chip_rx_element start size m i).
Proof. unfold rx_element_at, chip_rx_element, re_length. cbn [re_idx re_r0 re_r1 re_words]. rewrite addrs_2. done. Qed.

Lemma chip_tx_events start : 0 ≤ start →
  fifo_laws chip_peek chip_poke REG_TXEFS REG_TXEFA TXEFS_EFFL TXEFS_REFGI (fifo_good REG_TXEFS REG_TXEFC) (fifo_elems REG_TXEFS REG_TXEFC (chip_tx_event start)) te_idx (tx_event_at chip_peek start).
Proof.
  intros Hs. apply (chip_fifo_laws REG_TXEFS REG_TXEFA REG_TXEFC 6 5); [lia | lia | done | done | done| |done].
  intros m x i Hi. unfold chip_tx_event. f_equal. apply peek_ram; [done | lia].
Qed.
Lemma chip_rx_elements start size : 0 ≤ start → 0 ≤ size →
  fifo_laws chip_peek chip_poke (fifo_status FIFO_0) (fifo_ack FIFO_0) RXFS_FFL RXFS_FGI (fifo_good REG_RXF0S REG_RXF0C) (fifo_elems REG_RXF0S REG_RXF0C (chip_rx_element start size)) re_idx (rx_element_at chip_peek start size).
Proof.
  intros Hs Hz. apply (chip_fifo_laws REG_RXF0S REG_RXF0A REG_RXF0C 7 6); [lia | lia | done | done | done | |].
  - intros m x i Hi. by apply chip_rx_element_same.
  - intros m i. apply chip_rx_element_at.
Qed.

(** * The CAN driver: from Write to the indication at another node *)

(** The element that a chip stores for a frame which its filter [fidx] accepted at time [ts]. *)
Record stored_as (f : CanFrame) (fidx ts : Z) (e : RxElement) : Prop := {
  sa_head : re_r0 e = rx_r0 f ∧ re_r1 e = rx_r1 f fidx ts;
  sa_data : take (length (fr_data f)) (bytes_of (re_words e)) = fr_data f;
  sa_range : 0 ≤ fidx < 128 ∧ 0 ≤ ts < 65536
}.

(** The driver takes the element of a sent PDU for a message with the PDU's identifier and data. *)
Lemma stored_message cs obj ext fd id size brs sdu fidx ts e : pdu_ok cs ext fd id size sdu → size ≤ 64 → lenZ (payload cs obj sdu) = tx_length cs (lenZ sdu) →
  stored_as (pdu_frame cs obj ext fd id brs sdu) fidx ts e →
  re_message e = mkMsgInfo id ext (lenZ (payload cs obj sdu)) (if 0 <? lenZ (payload cs obj sdu) then Some (payload cs obj sdu) else None) (Z.b2z (as_fd cs fd)) fidx ts.
Proof.
  intros (Hid & Hb & Hl) Hs Hlen [[H0 H1] Hd [Hf Ht]].
  assert (0 ≤ tx_dlc cs (lenZ sdu) ≤ 15 ∧ ConvertCanDLC (tx_dlc cs (lenZ sdu)) = lenZ (payload cs obj sdu)) as [Hdlc Hcv].
  { rewrite Hlen. pose proof (lenZ_nonneg sdu). unfold tx_dlc, tx_length, as_fd in *. pose proof (dlc_range (lenZ sdu)). pose proof (dlc_small (lenZ sdu)).
    destruct (CanFDBaudRateEnabled cs); cbn [andb] in *; [|split; lia]. split; [lia | done]. }
  unfold re_message, re_length. rewrite H0, H1, !rx_message_frame by done. cbn [pdu_frame fr_dlc fr_id fr_ext fr_fd fr_data canMsgLength] in *. rewrite Hcv.
  unfold lenZ at 3. rewrite Nat2Z.id, Hd. done.
Qed.

Section roundtrip.
(** Two nodes, possibly with different platforms and chips. *)
Context {U1 : Type} {HE1 : Tcan_Env U1} (c1 : Z) (cs1 : ControllerSetting) (limit1 : Z) (R1 : Type) {HC1 : TcanChip c1 cs1 limit1 R1}.
Context {U2 : Type} {HE2 : Tcan_Env U2} (c2 : Z) (cs2 : ControllerSetting) (limit2 : Z) (R2 : Type) {HC2 : TcanChip c2 cs2 limit2 R2}.
(** A FIFO of the receiver's chip. *)
Context (f : RxFifo) (good : R2 → Prop) (q : R2 → list RxElement) (start size : Z).
Context (HF : fifo_laws peek poke (fifo_status f) (fifo_ack f) RXFS_FFL RXFS_FGI good q re_idx (rx_element_at peek start size)).
Context (Hf : f = FIFO_0 ∨ f = FIFO_1) (Hstart : 0 ≤ start ≤ 20000) (Hsize : aget MCAN_ROBufferSizeFD (CanFdDataBufSize cs2) = Some size).

(** A receiver that is initialised and whose FIFO is where the driver believes. *)
Record rx_ready (w : TcanWorld U2) (k : Ctrl) (cc : ControllerConfig) : Prop := {
  rr_ctrl : aget (ctrls w) c2 = Some k;
  rr_ok : ctrl_ok k;
  rr_icom : GComConfigId k = 0;
  rr_start : fifo_start f (RWDev k) = start;
  rr_config : config_ok limit2 (vars w);
  rr_rx : rx_config c2 (vars w) cc;
  rr_good : good (regs (up w))
}.

(** C12. From Write to the indication.  A call of Write that finds a free buffer answers
    CAN_OK and leaves in the chip an element; when the frame this element stands for is the
    only one in a receive FIFO of a second node (a different driver instance over its own
    chip), reading this FIFO there makes exactly one indication: for the receive object that
    the accepting filter selects, with the identifier and flags of the PDU, the bytes of the
    SDU followed by padding, and their number.  The FIFO is empty afterwards. *)
Theorem tcan_frame_round_trip (w1 : TcanWorld U1) k1 Hth h obj size1 brs handle ext fd id sdu idx :
  aget (ctrls w1) c1 = Some k1 → tx_setup c1 cs1 limit1 (vars w1) k1 Hth h obj size1 brs → pdu_ok cs1 ext fd id size1 sdu →
  first_free (Z.to_nat (CanHwObjectCount obj)) (peek (regs (up w1)) REG_TXBRP) (CanTxBufferIndex obj) = Some idx →
  (as_fd cs1 fd = true → CanFDBaudRateEnabled cs2 = true) →
  ∃ k1' u1 e0 e1 dw,
    Tcan_Write Hth (Some (the_pdu handle ext fd id sdu)) w1 = Some (CAN_OK, after_write c1 w1 k1' u1) ∧
    regs u1 = poke REG_TXBAR (2 ^ idx) (pokes poke (element_at (TX_BUFFER_START_ADDR (RWDev k1)) size1 idx) (e0 :: e1 :: dw) (regs (up w1))) ∧
    frame_of_tx e0 e1 dw = pdu_frame cs1 obj ext fd id brs sdu ∧
    ∀ (w2 : TcanWorld U2) k2 cc e fidx ts hoh,
      rx_ready w2 k2 cc → q (regs (up w2)) = [e] → stored_as (frame_of_tx e0 e1 dw) fidx ts e →
      aget (if ext then CanFilterIdxToRxObjExtended cc else CanFilterIdxToRxObjStandard cc) fidx = Some hoh →
      ∃ b2 u2, Tcan_MCAN_ProcessRxFIFO c2 f w2 =
          Some (tt, mkTcan (vars w2) (<[Z.to_nat c2 := set_buf b2 k2]> (ctrls w2)) u2
            (tc_trace w2 ++ [EvRxIndication c2 hoh (can_id ext (as_fd cs1 fd) id)
               (if 0 <? lenZ (payload cs1 obj sdu) then Some (payload cs1 obj sdu) else None) (lenZ (payload cs1 obj sdu)) ts])) ∧
        q (regs u2) = [].
Proof using HC1 HC2 HF Hf Hstart Hsize.
  intros Hk Hset Hp Hfree Hfd. pose proof (write_sends c1 cs1 limit1 R1 w1 k1 Hth h obj size1 brs handle ext fd id sdu Hk Hset Hp) as H. unfold write_outcome in H. rewrite Hfree in H.
  destruct H as (b & u & e0 & e1 & dw & E & Hu & Hfr & _). destruct Hset as [_ _ (_ & _ & _ & Ho4) _ Hz]. pose proof (size_range cs1 size1 Hz) as Hsz. clear Hfree.
  destruct (payload_bytes cs1 obj sdu (pdu_len_ok cs1 _ _ _ _ _ Hp ltac:(lia)) ltac:(apply Hp) Ho4) as [Hlp _].
  eexists _, u, e0, e1, dw. split; [exact E|]. split; [exact Hu|]. split; [exact Hfr|]. rewrite Hfr. clear E Hu Hfr.
  intros w2 k2 cc e fidx ts hoh [Hk2 Hok2 Hic Hs2 Hc2 Hrx Hg] Hq Hst Hh. pose proof (aget_Some _ _ _ Hk2) as Hcc. pose proof (world_st c2 (ctrls w2) Hcc w2 k2 Hk2 eq_refl) as Ew2.
  pose proof (stored_message cs1 obj ext fd id size1 brs sdu fidx ts e Hp ltac:(lia) Hlp Hst) as Hm. cbn [the_pdu] in *.
  assert (objects cc (q (regs (up w2))) [hoh]) as Hobj by (rewrite Hq; constructor; [|constructor]; unfold rx_hoh; rewrite Hm; exact Hh).
  pose proof (ProcessRxFIFO_drains c2 cs2 limit2 R2 (ctrls w2) Hcc f good q start size HF Hf Hstart Hsize (vars w2) cc k2 (SpiBuf k2) (up w2) (tc_trace w2) [hoh]
    Hc2 Hrx Hok2 Hic Hs2 (transferred_refl _ Hok2) Hg Hobj) as H. rewrite set_buf_id, <-Ew2, Hq in H.
  apply wp_run in H as ([] & s & E & b2 & u2 & -> & _ & _ & Hq2). exists b2, u2. split; [|done]. rewrite E. unfold st. do 3 f_equal. cbn [fmap list_fmap zip_with]. unfold indication. rewrite Hm.
  cbn [canMsgDataPtr canMsgLength canTimeStamp]. rewrite rx_canid_frame by apply Hp. replace (CanFDBaudRateEnabled cs2 && as_fd cs1 fd) with (as_fd cs1 fd); [done|].
  destruct (as_fd cs1 fd); [by rewrite Hfd | by rewrite andb_false_r].
Qed.
End roundtrip.

(** ** Two nodes with the example chip *)

Definition ex_frame : CanFrame := mkFrame false 291 false true true 9 [1; 2; 3; 4; 5; 6; 7; 8; 9; 204; 204; 204].
Definition ex_rx_chip : Chip := chip_receives (rx_r0 ex_frame) (rx_r1 ex_frame 0 77) (words_of (fr_data ex_frame)) 64 (<[REG_RXF0C := 2 * 65536 + 4]> ∅).
Definition ex_rx_world : TcanWorld Link := mkTcan (vars ex_tx_world) [ex_tx_ctrl] (true, ex_rx_chip) [].
Definition ex_rx_e : RxElement := mkRxElement 0 (rx_r0 ex_frame) (rx_r1 ex_frame 0 77) (words_of (fr_data ex_frame)).

Lemma ex_std_pdu_ok : pdu_ok (ex_setting INTERRUPT) false true 291 64 ex_sdu.
Proof. split; [done|]. split; [|done]. apply ex_pdu_ok. Qed.
Lemma ex_rx_ready : rx_ready (U2 := Link) 0 (ex_setting INTERRUPT) 3 Chip FIFO_0 (fifo_good REG_RXF0S REG_RXF0C) 4 ex_rx_world ex_tx_ctrl ex_ctrl.
Proof.
  split; [done | apply ex_tx_ok | done | done | by exists ex_config | split; [done|]; by exists ex_config |]. unfold fifo_good. vm_compute. done.
Qed.
Lemma ex_rx_stored : stored_as ex_frame 0 77 ex_rx_e.
Proof. split; [done | vm_compute; done | done]. Qed.

Lemma tcan_frame_round_trip_witness : ∃ k1 u1 b2 u2,
  Tcan_Write 6 (Some (the_pdu 17 false true 291 ex_sdu)) ex_tx_world = Some (CAN_OK, after_write 0 ex_tx_world k1 u1) ∧
  Tcan_MCAN_ProcessRxFIFO 0 FIFO_0 ex_rx_world =
    Some (tt, mkTcan (vars ex_tx_world) [set_buf b2 ex_tx_ctrl] u2 [EvRxIndication 0 5 (2 ^ 30 + 291) (Some [1; 2; 3; 4; 5; 6; 7; 8; 9; 204; 204; 204]) 12 77]).
Proof.
  destruct (tcan_frame_round_trip (U1 := Link) (HC1 := ex_chip) (HC2 := ex_chip) 0 (ex_setting INTERRUPT) 3 Chip (U2 := Link) 0 (ex_setting INTERRUPT) 3 Chip FIFO_0
    (fifo_good REG_RXF0S REG_RXF0C) (fifo_elems REG_RXF0S REG_RXF0C (chip_rx_element 4 64)) 4 64
    (chip_rx_elements 4 64 ltac:(lia) ltac:(lia)) (or_introl eq_refl) ltac:(lia) eq_refl
    ex_tx_world ex_tx_ctrl 6 (mkHth 0 0) (mkTxObj 204 2 0 false) 64 true 17 false true 291 ex_sdu 1
    eq_refl ex_tx_setup ex_std_pdu_ok eq_refl (λ _, eq_refl)) as (k1 & u1 & e0 & e1 & dw & E & _ & Hf & H).
  destruct (H ex_rx_world ex_tx_ctrl ex_ctrl ex_rx_e 0 77 5 ex_rx_ready) as (b2 & u2 & E2 & _).
  - vm_compute. reflexivity.
  - rewrite Hf. exact ex_rx_stored.
  - reflexivity.
  - exists k1, u1, b2, u2. split; [exact E | exact E2].
Defined.
