(* ===== verification/TcanConfirm.v ===== *)
(** * The CAN driver: confirmations *)

From S2P Require Import Prelude ComStack CanIf TcanTypes TcanSpi TcanMCan TcanTraffic Tcan TcanMode TcanExample TcanLink TcanLinkClaims TcanFifo TcanSend TcanWrite TcanRoundTrip.
From stdpp Require Import base list numbers option gmap.

#[local] Open Scope Z_scope.

Section confirm.
Context {U : Type} {HE : Tcan_Env U} (c : Z) (cs : ControllerSetting) (limit : Z) (R : Type) {HC : TcanChip c cs limit R}.
(** The Tx event FIFO of the chip; clearing interrupt flags leaves it alone. *)
Context (good : R → Prop) (q : R → list TxEvent) (start : Z).
Context (HF : fifo_laws peek poke REG_TXEFS REG_TXEFA TXEFS_EFFL TXEFS_REFGI good q te_idx (tx_event_at peek start)).
Context (Hstart : 0 ≤ start ≤ 32000) (Hintr : ∀ r x, good r → good (poke REG_INTR x r) ∧ q (poke REG_INTR x r) = q r).
Abbreviation W := (TcanWorld U).
Implicit Types (u : U).

(** The error that a full event FIFO is reported with. *)
Definition lost_event (v : Vars) (ir : Z) : list Tcan_Event :=
  if Z.testbit ir 15 && DEV_ERROR_DETECT then [EvTcanDet (ApiId v) DET_TX_EVENT_FIFO_ELEMENT_LOST] else [].

Lemma step_ProcessCanTx L0 (Hc : 0 ≤ c < lenZ L0) v k b u t hs :
  config_ok limit v → ctrl_ok k → TX_EVENT_FIFO_START_ADDR (RWDev k) = start → transferred k b → good (regs u) → handles k (q (regs u)) hs →
  wp (Tcan_MCAN_ProcessCanTx c)
    (λ _ s, if Z.testbit (peek (regs u) REG_INTR) 12
            then ∃ b' u' ts, s = st c L0 v (set_buf b' (set_txts ts k)) u' (t ++ lost_event v (peek (regs u) REG_INTR) ++ (EvTxConfirmation <$> hs)) ∧ transferred k b' ∧ good (regs u') ∧ q (regs u') = []
            else ∃ b' u', s = st c L0 v (set_buf b' k) u' t ∧ transferred k b' ∧ good (regs u') ∧ q (regs u') = q (regs u))
    (st c L0 v (set_buf b k) u t).
Proof using HC HF Hstart Hintr.
  intros Hv Hk Hs Hb Hg Hh. unfold Tcan_MCAN_ProcessCanTx. apply wp_bind, (step_verified c cs limit R L0 Hc); [done | done | done | done | done|].
  intros b1 u1 Ht1 Hu1 Hx1. apply wp_bind. eapply step_rxget; [done | exact Hx1|]. cbv zeta. set (ir := peek (regs u) REG_INTR).
  assert (Z.land (Z.land ir (Z.lor IR_TEFN IR_TEFL)) IR_TEFN = Z.land ir (2 ^ 12)) as -> by (rewrite <-Z.land_assoc; done).
  assert (Z.land (Z.land ir (Z.lor IR_TEFN IR_TEFL)) IR_TEFL = Z.land ir (2 ^ 15)) as -> by (rewrite <-Z.land_assoc; done).
  rewrite !land_bit, !negb_involutive by lia.
  assert (word_ok (Z.land ir (Z.lor IR_TEFN IR_TEFL))) as Hw.
  { pose proof (land_mask_range ir (Z.lor IR_TEFN IR_TEFL) ltac:(done)) as H. unfold word_ok. split; [lia|]. eapply Z.le_lt_trans; [apply H | done]. }
  apply wp_bind. apply wp_mono with (P := λ _ s, ∃ b2 u2, s = st c L0 v (set_buf b2 k) u2 t ∧ transferred k b2 ∧ good (regs u2) ∧ q (regs u2) = q (regs u)).
  { apply wp_when; intros _; [|exists b1, u1; by rewrite Hu1]. apply wp_bind, (step_write_word c cs limit R L0 Hc); [done | done | done | done | done|]. intros b2 u2 Ht2 Hu2. apply wp_ret.
    destruct (Hintr (regs u1) (Z.land ir (Z.lor IR_TEFN IR_TEFL))) as [H1 H2]; [by rewrite Hu1|]. exists b2, u2. rewrite Hu2. split_and!; [done | done | done | by rewrite H2, Hu1]. }
  cbv beta. intros _ s (b2 & u2 & -> & Ht2 & Hg2 & Hq2). unfold lost_event. fold ir. apply wp_when; intros ->; [|eauto 10]. rewrite <-Hq2 in Hh.
  apply wp_bind. apply wp_mono with (P := λ _ s, s = st c L0 v (set_buf b2 k) u2 (t ++ (if Z.testbit ir 15 && DEV_ERROR_DETECT then [EvTcanDet (ApiId v) DET_TX_EVENT_FIFO_ELEMENT_LOST] else []))).
  { apply wp_when; intros ->; [|by rewrite app_nil_r]. unfold det_api, det. apply wp_bind, wp_getv. cbn [andb]. destruct DEV_ERROR_DETECT; [done|]. apply wp_ret. by rewrite app_nil_r. }
  cbv beta. intros _ s ->. eapply wp_mono; [eapply (ProcessTx_drains c cs limit R L0 Hc good q start HF Hstart); done|]. cbv beta. intros _ s (b3 & u3 & ts & -> & H). rewrite app_assoc. eauto 10.
Qed.

(** A started controller with its event FIFO where the driver believes. *)
Record tx_events (w : W) (k : Ctrl) (hs : list Z) : Prop := {
  te_ctrl : aget (ctrls w) c = Some k;
  te_ok : ctrl_ok k;
  te_start : TX_EVENT_FIFO_START_ADDR (RWDev k) = start;
  te_config : config_ok limit (vars w);
  te_good : good (regs (up w));
  te_handles : handles k (q (regs (up w))) hs
}.

(** C13. Processing the transmit interrupt drains the event FIFO of the chip: when the flag
    for new events is set, every queued event is confirmed to CanIf, in the order in which
    they were queued, with the handle that the driver remembers for the marker of the event,
    a lost event is reported first when the chip says so, and the FIFO is empty afterwards;
    when the flag is not set nothing is confirmed and the FIFO is as it was. *)
Theorem tcan_events_confirmed (w : W) k hs :
  tx_events w k hs →
  if Z.testbit (peek (regs (up w)) REG_INTR) 12
  then ∃ b u ts, Tcan_MCAN_ProcessCanTx c w =
           Some (tt, mkTcan (vars w) (<[Z.to_nat c := set_buf b (set_txts ts k)]> (ctrls w)) u
                       (tc_trace w ++ lost_event (vars w) (peek (regs (up w)) REG_INTR) ++ (EvTxConfirmation <$> hs))) ∧ q (regs u) = []
  else ∃ b u, Tcan_MCAN_ProcessCanTx c w = Some (tt, mkTcan (vars w) (<[Z.to_nat c := set_buf b k]> (ctrls w)) u (tc_trace w)) ∧ q (regs u) = q (regs (up w)).
Proof using HC HF Hstart Hintr.
  intros [Hk Hok Hs Hv Hg Hh]. pose proof (aget_Some _ _ _ Hk) as Hc. pose proof (world_st c (ctrls w) Hc w k Hk eq_refl) as Ew.
  pose proof (step_ProcessCanTx (ctrls w) Hc (vars w) k (SpiBuf k) (up w) (tc_trace w) hs Hv Hok Hs (transferred_refl _ Hok) Hg Hh) as H. rewrite set_buf_id, <-Ew in H.
  apply wp_run in H as ([] & s & E & H). destruct (Z.testbit _ 12).
  - destruct H as (b & u & ts & -> & _ & _ & Hq). exists b, u, ts. done.
  - destruct H as (b & u & -> & _ & _ & Hq). exists b, u. done.
Qed.

Lemma setup_after v k b l Hth h obj size brs : tx_setup c cs limit v k Hth h obj size brs → transferred k b → lenZ l = 32 →
  tx_setup c cs limit v (set_buf b (set_pduhandles l k)) Hth h obj size brs.
Proof.
  intros [S1 S2 S3 ([K1 K2 K3 K4] & S4 & S5 & S6 & S7) S8] [B1 B2 B3] Hl. split; [done | done | done | | done]. split_and!; [by split | done | done | apply S6 | apply S6 | done].
Qed.

(** C40. A handle is remembered per Tx buffer, not per frame.  When a buffer is written again
    after its first frame has left it and before the event of that frame has been read, the
    handle of the first PDU is overwritten: both events then confirm the second PDU, and the
    first, although it was accepted and sent, is never confirmed. *)
Theorem tcan_confirmation_overwritten (w : W) k Hth h obj size brs h1 h2 ext fd id sdu idx ev1 ev2 :
  aget (ctrls w) c = Some k → tx_setup c cs limit (vars w) k Hth h obj size brs → TX_EVENT_FIFO_START_ADDR (RWDev k) = start → pdu_ok cs ext fd id size sdu →
  te_marker ev1 = idx → te_marker ev2 = idx →
  first_free (Z.to_nat (CanHwObjectCount obj)) (peek (regs (up w)) REG_TXBRP) (CanTxBufferIndex obj) = Some idx →
  ∃ k1 u1, Tcan_Write Hth (Some (the_pdu h1 ext fd id sdu)) w = Some (CAN_OK, after_write c w k1 u1) ∧
  ∀ u1', first_free (Z.to_nat (CanHwObjectCount obj)) (peek (regs u1') REG_TXBRP) (CanTxBufferIndex obj) = Some idx →
  ∃ k2 u2, Tcan_Write Hth (Some (the_pdu h2 ext fd id sdu)) (after_write c w k1 u1') = Some (CAN_OK, after_write c w k2 u2) ∧
  ∀ u2', good (regs u2') → q (regs u2') = [ev1; ev2] → Z.testbit (peek (regs u2') REG_INTR) 12 = true → Z.testbit (peek (regs u2') REG_INTR) 15 = false →
  ∃ k3 u3, Tcan_MCAN_ProcessCanTx c (after_write c w k2 u2') =
    Some (tt, mkTcan (api_vars SID_WRITE (vars w)) (<[Z.to_nat c := k3]> (ctrls w)) u3 (tc_trace w ++ [EvTxConfirmation h2; EvTxConfirmation h2])).
Proof using HC HF Hstart Hintr.
  intros Hk Hset Hst Hp He1 He2 Hfree. pose proof (aget_Some _ _ _ Hk) as Hc. pose proof (world_st c (ctrls w) Hc w k Hk eq_refl) as Ew.
  set (v1 := api_vars SID_WRITE (vars w)). assert (api_vars SID_WRITE v1 = v1) as Ev1 by (unfold v1, api_vars; by destruct DEV_ERROR_DETECT).
  pose proof (step_Write c cs limit R (ctrls w) Hc (vars w) k (up w) (tc_trace w) Hth h obj size brs h1 ext fd id sdu Hset Hp) as H. rewrite <-Ew, Hfree in H.
  apply wp_run in H as (r & s & E1 & -> & b1 & u1 & dw1 & -> & Ht1 & _). eexists _, u1. split; [exact E1|]. clear E1. set (k1 := set_buf b1 _).
  assert (lenZ (<[Z.to_nat idx := h1]> (Mcan_swPduHandle k)) = 32) as Hl1 by (rewrite lenZ_insert; apply Hset).
  intros u1' Hfree'. pose proof (step_Write c cs limit R (ctrls w) Hc v1 k1 u1' (tc_trace w) Hth h obj size brs h2 ext fd id sdu (api_setup c cs limit SID_WRITE _ _ _ _ _ _ _ (setup_after _ _ _ _ _ _ _ _ _ Hset Ht1 Hl1)) Hp) as H.
  rewrite Hfree', Ev1 in H. apply wp_run in H as (r & s & E2 & -> & b2 & u2 & dw2 & -> & Ht2 & _). eexists _, u2. split; [exact E2|]. clear E2. cbn [swPduHandle the_pdu k1 Mcan_swPduHandle set_buf set_pduhandles].
  set (k2 := set_buf b2 _). intros u2' Hg Hq Hi12 Hi15. destruct Hset as [S1 S2 (O1 & O2 & O3 & _) (Hok & S4 & S5 & S6 & S7) S8]. apply first_free_range in Hfree as [Hi _]; [|done].
  assert (aget (Mcan_swPduHandle k2) idx = Some h2) as Hh2 by (apply aget_insert_eq; rewrite lenZ_insert; lia).
  assert (ctrl_ok k2) as Hok2. { destruct Ht2 as [B1 B2 B3], Hok as [K1 K2 K3 K4]. by split. }
  assert (config_ok limit v1) as Hv1 by (destruct S2 as (cfg & cc & X1 & X2 & _); exists cfg; unfold v1, api_vars; by destruct DEV_ERROR_DETECT).
  assert (handles k2 (q (regs u2')) [h2; h2]) as Hh by (rewrite Hq; repeat constructor; [by rewrite He1 | by rewrite He2]).
  pose proof (step_ProcessCanTx (ctrls w) Hc v1 k2 (SpiBuf k2) u2' (tc_trace w) [h2; h2] Hv1 Hok2 Hst (transferred_refl _ Hok2) Hg Hh) as H. rewrite set_buf_id, Hi12 in H.
  apply wp_run in H as ([] & s & E & b3 & u3 & ts & -> & _). eexists _, u3. unfold lost_event in E. rewrite Hi15 in E. exact E.
Qed.
End confirm.

(** ** On the example chip: an event FIFO that has wrapped around *)

Lemma chip_events_intr start : 0 ≤ start → ∀ r x, fifo_good REG_TXEFS REG_TXEFC r →
  fifo_good REG_TXEFS REG_TXEFC (chip_poke REG_INTR x r) ∧ fifo_elems REG_TXEFS REG_TXEFC (chip_tx_event start) (chip_poke REG_INTR x r) = fifo_elems REG_TXEFS REG_TXEFC (chip_tx_event start) r.
Proof.
  intros Hs r x Hg. change (chip_poke REG_INTR x r) with (<[REG_INTR := Z.ldiff (chip_peek r REG_INTR) x]> r). unfold fifo_good, fifo_elems, fifo_size in *.
  rewrite !(peek_insert r REG_INTR), !decide_False by done. split; [done|]. apply list_fmap_ext. intros j i _. unfold chip_tx_event. f_equal. apply peek_ram; [done|].
  destruct Hg as (Hn & _ & _). pose proof (Z.mod_pos_bound (chip_peek r REG_TXEFS / 256 + i) (chip_peek r REG_TXEFC ≫ 16) ltac:(lia)). lia.
Qed.

(** Three entries, of which the third and the first hold the events of buffers [m1] and [m2]. *)
Definition ex_events (m1 m2 : Z) : Link :=
  (true, <[MSG_RAM_BASE_ADDR + 300 + 20 := m1 * 2 ^ 24 + 99]> (<[MSG_RAM_BASE_ADDR + 300 + 4 := m2 * 2 ^ 24 + 100]>
    (<[REG_TXEFS := 2 * 256 + 2]> (<[REG_TXEFC := 3 * 65536]> (<[REG_INTR := 4096]> ∅))))).
Definition ex_two_handles : Ctrl := set_pduhandles ([21; 22] ++ replicate 30 0) ex_tx_ctrl.
Definition ex_events_world : TcanWorld Link := mkTcan (vars ex_tx_world) [ex_two_handles] (ex_events 1 0) [].
Abbreviation ex_tx_good := (fifo_good REG_TXEFS REG_TXEFC).
Abbreviation ex_tx_queue := (fifo_elems REG_TXEFS REG_TXEFC (chip_tx_event 300)).

Lemma ex_events_queue m1 m2 : 0 ≤ m1 < 32 → 0 ≤ m2 < 32 →
  ex_tx_good (ex_events m1 m2).2 ∧ ex_tx_queue (ex_events m1 m2).2 = [mkTxEvent 2 (u32 (m1 * 2 ^ 24 + 99)); mkTxEvent 0 (u32 (m2 * 2 ^ 24 + 100))].
Proof. intros. split; [vm_compute; done | reflexivity]. Qed.
Lemma ex_events_ready : tx_events (U := Link) 0 (ex_setting INTERRUPT) 3 Chip ex_tx_good ex_tx_queue 300 ex_events_world ex_two_handles [22; 21].
Proof.
  split; [done | destruct ex_tx_ok as [A B C D]; by split | done | by exists ex_config | |]; cbn [up ex_events_world].
  - apply (ex_events_queue 1 0); lia.
  - change (regs (ex_events 1 0)) with (ex_events 1 0).2. rewrite (proj2 (ex_events_queue 1 0 ltac:(lia) ltac:(lia))). repeat constructor.
Qed.

Lemma tcan_events_confirmed_witness : ∃ b u ts,
  Tcan_MCAN_ProcessCanTx 0 ex_events_world = Some (tt, mkTcan (vars ex_tx_world) [set_buf b (set_txts ts ex_two_handles)] u [EvTxConfirmation 22; EvTxConfirmation 21]).
Proof.
  destruct (tcan_events_confirmed (HC := ex_chip) 0 (ex_setting INTERRUPT) 3 Chip ex_tx_good ex_tx_queue 300 (chip_tx_events 300 ltac:(lia)) ltac:(lia) (chip_events_intr 300 ltac:(lia))
    ex_events_world ex_two_handles [22; 21] ex_events_ready) as (b & u & ts & E & _).
  exists b, u, ts. exact E.
Defined.

Lemma tcan_confirmation_overwritten_witness : ∃ k1 u1 k2 u2 k3 u3,
  Tcan_Write 6 (Some (the_pdu 17 true true 305419896 ex_sdu)) ex_tx_world = Some (CAN_OK, after_write 0 ex_tx_world k1 u1) ∧
  Tcan_Write 6 (Some (the_pdu 18 true true 305419896 ex_sdu)) (after_write 0 ex_tx_world k1 (up ex_tx_world)) = Some (CAN_OK, after_write 0 ex_tx_world k2 u2) ∧
  Tcan_MCAN_ProcessCanTx 0 (after_write 0 ex_tx_world k2 (ex_events 1 1)) =
    Some (tt, mkTcan (api_vars SID_WRITE (vars ex_tx_world)) [k3] u3 [EvTxConfirmation 18; EvTxConfirmation 18]).
Proof.
  destruct (tcan_confirmation_overwritten (HC := ex_chip) 0 (ex_setting INTERRUPT) 3 Chip ex_tx_good ex_tx_queue 300 (chip_tx_events 300 ltac:(lia)) ltac:(lia) (chip_events_intr 300 ltac:(lia))
    ex_tx_world ex_tx_ctrl 6 (mkHth 0 0) (mkTxObj 204 2 0 false) 64 true 17 18 true true 305419896 ex_sdu 1 (mkTxEvent 2 (2 ^ 24 + 99)) (mkTxEvent 0 (2 ^ 24 + 100))
    eq_refl ex_tx_setup eq_refl ex_pdu_ok eq_refl eq_refl eq_refl) as (k1 & u1 & E1 & H).
  destruct (H (up ex_tx_world) eq_refl) as (k2 & u2 & E2 & H2).
  destruct (ex_events_queue 1 1 ltac:(lia) ltac:(lia)) as [Hg Hq].
  destruct (H2 (ex_events 1 1) Hg Hq eq_refl eq_refl) as (k3 & u3 & E3).
  exists k1, u1, k2, u2, k3, u3. split; [exact E1|]. split; [exact E2 | exact E3].
Defined.
