(* ===== verification/TcanIsr.v ===== *)
(** * The CAN driver: interrupts and tasks

    A task, the interrupt handler and the cyclic functions may interrupt one another in the
    middle of a transfer; each has buffers of its own.  The relation [isolated]: of all the
    SPI buffers only the words change that transfers in the current context of the one
    controller may touch.

    Write may be called by several tasks, and may be interrupted anywhere outside its two
    critical sections.  The tasks that are inside the guarded part are kept beside the state of
    the driver; a step is a critical section, the work between them, or an interrupt. *)

From S2P Require Import Prelude ComStack CanIf TcanTypes TcanSpi TcanMCan TcanTraffic Tcan TcanMode TcanExample TcanLink TcanFifo TcanWrite TcanConfirm.
From stdpp Require Import base list numbers option gmap relations.

#[local] Open Scope Z_scope.

Section isolated.
Context {U : Type} `{HE : Tcan_Env U} (a : Z).
Abbreviation W := (TcanWorld U).

Definition isolated (w w' : W) : Prop := ∀ i k, aget (ctrls w) i = Some k →
  ∃ k', aget (ctrls w') i = Some k' ∧ (ExCntxt k' = ExCntxt k ∧ ReadCmd k' = ReadCmd k) ∧
    ∀ j, ¬ (i = a ∧ touched (ReadCmd k) (ExCntxt k) j) → aget (SpiBuf k') j = aget (SpiBuf k) j.

#[global] Instance isolated_preorder : PreOrder isolated.
Proof.
  split; [intros w i k Hk; eauto|]. intros w1 w2 w3 H12 H23 i k1 H1. destruct (H12 i k1 H1) as (k2 & H2 & [E2 R2] & F2). destruct (H23 i k2 H2) as (k3 & H3 & [E3 R3] & F3).
  exists k3. split_and!; [done | congruence | congruence|]. intros j Hj. rewrite F3, F2; [done | done|]. by rewrite E2, R2.
Qed.
Lemma isolated_same (w w' : W) : ctrls w' = ctrls w → isolated w w'.
Proof. intros E i k Hk. exists k. by rewrite E. Qed.

Lemma isolated_update w k k' : aget (ctrls w) a = Some k → ExCntxt k' = ExCntxt k ∧ ReadCmd k' = ReadCmd k →
  (∀ j, ¬ touched (ReadCmd k) (ExCntxt k) j → aget (SpiBuf k') j = aget (SpiBuf k) j) →
  isolated w (mkTcan (vars w) (<[Z.to_nat a := k']> (ctrls w)) (up w) (tc_trace w)).
Proof.
  intros Hk Ec Hf i k0 H0. pose proof (aget_Some _ _ _ Hk) as Ha. cbn [ctrls]. rewrite aget_insert by done. case_decide as Ei; [|eauto].
  subst i. assert (k0 = k) as -> by congruence. exists k'. split; [done|]. split; [done|]. intros j Hj. apply Hf. tauto.
Qed.
Lemma isolated_setv f : Pres isolated (setv f).
Proof. intros w. by apply wlp_modify, isolated_same. Qed.
Lemma isolated_ev e : Pres isolated (tc_ev e).
Proof. intros w. by apply wlp_modify, isolated_same. Qed.
Lemma isolated_call {R} (f : U → R * U) : Pres isolated (tc_call f).
Proof. intros w. destruct (f (up w)) as [r u] eqn:E. eapply wlp_value; [unfold tc_call; by rewrite E|]. by apply isolated_same. Qed.
Lemma isolated_setc f : (∀ k, SpiBuf (f k) = SpiBuf k ∧ ExCntxt (f k) = ExCntxt k ∧ ReadCmd (f k) = ReadCmd k) → Pres isolated (setc a f).
Proof. intros Hf w. apply wlp_setc. intros k Hk _. destruct (Hf k) as (E1 & E2 & E3). eapply isolated_update; [done | done|]. by rewrite E1. Qed.
Lemma isolated_setbuf b w k : aget (ctrls w) a = Some k → (∀ j, ¬ touched (ReadCmd k) (ExCntxt k) j → aget b j = aget (SpiBuf k) j) →
  wlp (setc a (set_buf b)) (λ _, isolated w) w.
Proof. intros Hk Hb. apply wlp_setc. intros k0 H0 _. assert (k0 = k) as -> by congruence. by eapply isolated_update. Qed.

Lemma isolated_txset i x : 0 ≤ i < 20 → Pres isolated (txset a i x).
Proof.
  intros Hi w. unfold txset. apply wlp_bind, wlp_ctl. intros k Hk. apply wlp_bind, wlp_lift. intros b [Hr ->]%aset_Some.
  eapply isolated_setbuf; [done|]. intros j Hj. unfold touched, own, tx_base in *. by rewrite aget_insert_ne by lia.
Qed.
(** A range of words that a transfer in the current context may touch. *)
Definition within (k : Ctrl) (off n : Z) : Prop := ∀ j, off ≤ j < off + n → touched (ReadCmd k) (ExCntxt k) j.
Lemma isolated_awrite w k off xs n b : aget (ctrls w) a = Some k → within k off n → lenZ xs ≤ n → awrite (SpiBuf k) off xs = Some b →
  wlp (setc a (set_buf b)) (λ _, isolated w) w.
Proof.
  intros Hk Hw Hl Hb. eapply isolated_setbuf; [done|]. intros j Hj. rewrite (aget_awrite _ _ _ _ _ Hb), decide_False; [done|].
  intros Hr. apply Hj, Hw. lia.
Qed.
Lemma isolated_swap w k off n : aget (ctrls w) a = Some k → within k off n → wlp (swap_words a off n) (λ _, isolated w) w.
Proof.
  intros Hk Hw. unfold swap_words. apply wlp_bind, wlp_ctl. intros k0 H0. assert (k0 = k) as -> by congruence. apply wlp_bind, wlp_lift. intros ws Hs. apply wlp_bind, wlp_lift. intros b Hb.
  eapply isolated_awrite; [done | done | | done]. rewrite lenZ_fmap. apply aslice_Some in Hs. lia.
Qed.

(** The SPI driver is full duplex: as many bytes come in as go out. *)
Context (Hduplex : ∀ seq out u, length (tcan_SyncTransmit seq out u).1.2 = length out).

Lemma isolated_transmit w k seq tx rx n : aget (ctrls w) a = Some k → 0 ≤ n → within k rx (n + 1) → wlp (spi_transmit a seq tx rx n) (λ _, isolated w) w.
Proof using Hduplex.
  intros Hk Hn Hw. unfold spi_transmit. apply wlp_bind, wlp_ctl. intros k0 H0. assert (k0 = k) as -> by congruence. apply wlp_bind, wlp_lift. intros out Hout. apply wlp_bind.
  destruct (tcan_SyncTransmit seq (bytes_of out) (up w)) as [[r miso] u] eqn:E. eapply wlp_value; [unfold tc_call; by rewrite E|]. cbn [fst snd]. apply wlp_bind, wlp_lift. intros b Hb.
  set (w1 := mkTcan (vars w) (ctrls w) u (tc_trace w)). apply wlp_bind. eapply wlp_mono; [apply (isolated_awrite w1 k rx (words_of miso) (n + 1)); [done | done | | done]|].
  - pose proof (Hduplex seq (bytes_of out) (up w)) as Hl. rewrite E, length_bytes_of in Hl. cbn [fst snd] in Hl. unfold lenZ. rewrite (length_words_of (length out)) by done.
    apply aslice_Some in Hout. unfold lenZ in Hout. lia.
  - cbv beta. intros _ w2 H2. apply wlp_ret. exact H2.
Qed.
Lemma isolated_keeps w w' k : isolated w w' → aget (ctrls w) a = Some k → ∃ k', aget (ctrls w') a = Some k' ∧ ExCntxt k' = ExCntxt k ∧ ReadCmd k' = ReadCmd k.
Proof. intros H Hk. destruct (H a k Hk) as (k' & H1 & [H2 H3] & _). eauto. Qed.
Lemma isolated_retry fuel seq tx rx n : 0 ≤ n → ∀ tries w k, aget (ctrls w) a = Some k → within k rx (n + 1) → wlp (spi_retry fuel a seq tx rx n tries) (λ _, isolated w) w.
Proof using Hduplex.
  intros Hn. induction fuel as [|fuel IH]; intros tries w k Hk Hw; cbn [spi_retry]; [apply wlp_ub|].
  apply wlp_bind. eapply wlp_mono; [by eapply isolated_transmit|]. cbv beta. intros r w1 H1. destruct (isolated_keeps _ _ _ H1 Hk) as (k1 & Hk1 & Ek1 & Er1).
  assert (within k1 rx (n + 1)) as Hw1 by (unfold within in *; by rewrite Ek1, Er1). destruct r.
  - apply wlp_bind. eapply wlp_mono; [by eapply isolated_swap|]. cbv beta. intros _ w2 H2. apply wlp_ret. by transitivity w1.
  - unfold config. apply wlp_bind, wlp_bind, wlp_gets, wlp_lift. intros cfg _. cbv zeta. case_match; [|by apply wlp_ret].
    eapply wlp_mono; [by eapply IH|]. cbv beta. intros _ w2 H2. by transitivity w1.
Qed.
Lemma isolated_rw address n cmd w : 0 ≤ n ≤ 18 → (∀ k, aget (ctrls w) a = Some k → cmd = SPI_READ_WAIT → ReadCmd k = SPI_READ_WAIT) →
  wlp (Tcan_SpiRW a address n cmd) (λ _, isolated w) w.
Proof using Hduplex.
  intros Hn Hcmd. unfold Tcan_SpiRW. apply wlp_bind, wlp_ctl. intros k Hk. apply wlp_bind. eapply wlp_mono; [apply isolated_txset; lia|]. cbv beta. intros _ w1 H1.
  specialize (Hcmd k Hk). destruct (isolated_keeps _ _ _ H1 Hk) as (k1 & Hk1 & Ek1 & Er1). apply wlp_bind. eapply wlp_mono; [apply (isolated_swap w1 k1); [done|]; unfold within, touched, own, tx_base; rewrite Ek1; lia|].
  cbv beta. intros _ w2 H2. destruct (isolated_keeps _ _ _ H2 Hk1) as (k2 & Hk2 & Ek2 & Er2). assert (isolated w w2) as H02 by by transitivity w1.
  unfold setting. apply wlp_bind, wlp_lift. intros cs _. apply wlp_bind, wlp_lift. intros ch _. cbv zeta. apply wlp_bind.
  eapply wlp_mono; [apply isolated_call|]. cbv beta. intros r w3 H3. destruct (isolated_keeps _ _ _ H3 Hk2) as (k3 & Hk3 & Ek3 & Er3). assert (isolated w w3) as H03 by by transitivity w2.
  destruct r; [|by apply wlp_ret]. apply wlp_bind, wlp_lift. intros seq _. eapply wlp_mono; [eapply isolated_retry; [| exact Hk3|]|].
  - destruct (_ =? _); [apply u8_bound | lia].
  - unfold within, touched, own, rx_base. rewrite Ek3, Ek2, Ek1, Er3, Er2, Er1. destruct (Z.eqb_spec cmd SPI_READ_WAIT) as [E|]; [specialize (Hcmd E); rewrite u8_small by lia|]; lia.
  - cbv beta. intros _ w4 H4. by transitivity w3.
Qed.
End isolated.

#[export] Hint Extern 1 (Pres (isolated _) (setv _)) => apply isolated_setv : pres.
#[export] Hint Extern 1 (Pres (isolated _) (setc _ _)) => apply isolated_setc; intros; split_and!; reflexivity : pres.
#[export] Hint Extern 1 (Pres (isolated _) (tc_ev _)) => apply isolated_ev : pres.
#[export] Hint Extern 1 (Pres (isolated _) (txset _ _ _)) => apply isolated_txset; lia : pres.

(** ** What the interrupt handler calls *)

Section functions.
Context {U : Type} `{HE : Tcan_Env U} (a : Z).
Abbreviation W := (TcanWorld U).
Abbreviation isolated := (isolated (U := U) a).
Context (Hduplex : ∀ seq out u, length (tcan_SyncTransmit seq out u).1.2 = length out).

(** As [quiet], without looking inside the transfers. *)
Ltac isolate := repeat (pres_step || match goal with |- Pres _ (txset _ _ _) => fail 2 | _ => quiet_prim end).

Lemma isolated_read address n : 0 ≤ n ≤ 18 → Pres isolated (Tcan_SpiRead a address n).
Proof using Hduplex.
  intros Hn w. unfold Tcan_SpiRead, getc. apply wlp_bind, wlp_bind, wlp_ctl. intros k Hk. apply wlp_ret, isolated_rw; [done | done|]. intros k' Hk'. congruence.
Qed.
Lemma isolated_clear_word ii : 0 ≤ ii < 20 → Pres isolated (k ← ctl a; b ← lift (aset (SpiBuf k) (rx_base k + ii) 0); setc a (set_buf b)).
Proof.
  intros Hi w. apply wlp_bind, wlp_ctl. intros k Hk. apply wlp_bind, wlp_lift. intros b [Hr ->]%aset_Some. eapply isolated_setbuf; [done|].
  intros j Hj. unfold touched, own, rx_base in *. by rewrite aget_insert_ne by lia.
Qed.
Lemma isolated_write1 address : Pres isolated (Tcan_SpiWrite a address 1).
Proof using Hduplex.
  unfold Tcan_SpiWrite. change (Z.to_nat 1) with 1%nat. cbn [mfor]. pose proof (isolated_clear_word 1 ltac:(lia)) as H1. pose proof (isolated_read address 1 ltac:(lia)) as H2.
  assert (Pres isolated (Tcan_SpiRW a address 1 SPI_WRITE)) as H3 by (intros w; by apply isolated_rw). destruct SPI_MSG_DET_LOG; [|apply H3].
  apply pres_bind; [apply _ | apply H3 | intros r]. apply pres_bind; [apply _ | |intros _]. { apply pres_bind; [apply _ | apply H1 | intros _; isolate]. }
  intros w. specialize (H2 w). unfold Tcan_SpiRead in H2. apply wlp_bind. apply wlp_bind_inv in H2. eapply wlp_mono; [exact H2|]. cbv beta. intros cmd w1 H4.
  apply wlp_bind. eapply wlp_mono; [exact H4|]. cbv beta. intros _ w2 H5. by apply wlp_ret.
Qed.
Lemma isolated_verified address n : 0 ≤ n ≤ 18 → Pres isolated (read_verified a address n).
Proof using Hduplex. intros Hn. unfold read_verified, Tcan_VerifySpiRead. isolate; apply isolated_read; lia. Qed.
(** The transfers, closed by the lemmas above. *)
Ltac transfers := repeat (first
  [ match goal with |- Pres _ (Tcan_SpiRead _ _ _) => apply isolated_read; lia end
  | match goal with |- Pres _ (read_verified _ _ _) => apply isolated_verified; lia end
  | match goal with |- Pres _ (Tcan_SpiWrite _ _ _) => apply isolated_write1 end
  | progress isolate ]).

Lemma isolated_icom_signals n i sigs d v : Pres isolated (icom_signals n i sigs d v).
Proof. revert i. induction n; intros i; cbn [icom_signals]; isolate. Qed.
Hint Resolve isolated_icom_signals : pres.
Lemma isolated_icom_loop n i p msgs m d : Pres isolated (icom_loop n a i p msgs m d).
Proof. revert i p d. induction n; intros i p d; cbn [icom_loop]; isolate. Qed.
Hint Resolve isolated_icom_loop : pres.
Lemma isolated_RxNotification m : Pres isolated (Tcan_RxNotification a m).
Proof. unfold Tcan_RxNotification, Tcan_ProcessIcomRx, rx_indicate. isolate. Qed.
Hint Resolve isolated_RxNotification : pres.
Lemma isolated_rx_element address : Pres isolated (read_rx_element a address).
Proof using Hduplex.
  unfold read_rx_element. pose proof (λ r0 r1, proj1 (words_for_range _ (dlc_length_range r0 r1 []))) as Hw. transfers. specialize (Hw a1 a2). apply isolated_read. rewrite u8_small; lia.
Qed.
Hint Resolve isolated_rx_element : pres.
Lemma isolated_rxbuffer fuel d : Pres isolated (rxbuffer_loop fuel a d).
Proof using Hduplex. revert d. induction fuel; intros d; cbn [rxbuffer_loop]; transfers. Qed.
Lemma isolated_rxfifo n f : Pres isolated (rxfifo_loop n f a).
Proof using Hduplex. induction n; cbn [rxfifo_loop]; transfers. Qed.
Lemma isolated_txevent n : Pres isolated (txevent_loop n a).
Proof using Hduplex. induction n; cbn [txevent_loop]; unfold Tcan_TxNotification; transfers. Qed.
Hint Resolve isolated_rxbuffer isolated_rxfifo isolated_txevent : pres.
Lemma isolated_ProcessCanRx : Pres isolated (Tcan_MCAN_ProcessCanRx a).
Proof using Hduplex. unfold Tcan_MCAN_ProcessCanRx, process_fifo_flags, Tcan_MCAN_ProcessRxFIFO, Tcan_MCAN_ProcessRxBuffer. transfers. Qed.
Lemma isolated_ProcessCanTx : Pres isolated (Tcan_MCAN_ProcessCanTx a).
Proof using Hduplex. unfold Tcan_MCAN_ProcessCanTx, Tcan_MCAN_ProcessTx. transfers. Qed.
Lemma isolated_Busoff : Pres isolated (Tcan_MCAN_BusoffProcess a).
Proof using Hduplex. unfold Tcan_MCAN_BusoffProcess. transfers. Qed.
End functions.

(** ** The interrupt handler *)

(** The handler runs in the interrupt context whatever it interrupted. *)
Lemma isolated_irq {U} `{HE : Tcan_Env U} a (w : TcanWorld U) :
  (∀ seq out u, length (tcan_SyncTransmit seq out u).1.2 = length out) →
  wlp (Tcan_Irq_Handler a) (λ _ w', ∀ i k, aget (ctrls w) i = Some k →
    ∃ k', aget (ctrls w') i = Some k' ∧ ExCntxt k' = ExCntxt k ∧ ∀ j, ¬ (i = a ∧ touched (ReadCmd k) ISR_CONTEXT j) → aget (SpiBuf k') j = aget (SpiBuf k) j) w.
Proof.
  intros Hd. unfold Tcan_Irq_Handler, setting. apply wlp_bind, wlp_lift. intros cs Hcs. apply wlp_when; intros _; [|intros i k Hk; by exists k].
  unfold Tcan_MCAN_ProcessCanIRQLine0. apply wlp_if; intros _.
  { unfold det_api, det. apply wlp_bind, wlp_gets, wlp_when; intros _; [apply wlp_modify|]; intros i k Hk; by exists k. }
  apply wlp_bind, wlp_ctl. intros k0 Hk0. apply wlp_when; intros _; [|intros i k Hk; by exists k]. apply wlp_bind, wlp_lift. intros cs' _.
  apply wlp_bind, wlp_setc. intros k Hk Ha. assert (k = k0) as -> by congruence. clear Hk.
  assert (∀ b (m : M (TcanWorld U) unit) Q w1 w2, Pres (isolated a) m → isolated a w1 w2 → (∀ w3, isolated a w1 w3 → Q tt w3) → wlp (when b m) Q w2) as Hseq.
  { intros b m Q w1 w2 Hm H12 HQ. apply wlp_when; intros _; [|by apply HQ]. eapply wlp_mono; [apply Hm|]. cbv beta. intros [] w3 H23. apply HQ. by transitivity w2. }
  set (w1 := mkTcan _ (<[Z.to_nat a := set_excntxt ISR_CONTEXT k0]> _) _ _).
  apply wlp_bind. eapply (Hseq _ _ _ w1); [by apply isolated_ProcessCanTx | reflexivity|]. intros w2 H2.
  apply wlp_bind. eapply (Hseq _ _ _ w1); [by apply isolated_ProcessCanRx | done|]. intros w3 H3.
  apply wlp_bind. eapply (Hseq _ _ _ w1); [by apply isolated_Busoff | done|]. intros w4 H4.
  apply wlp_setc. intros k4 Hk4 Ha4 i k Hk. cbn [ctrls]. specialize (H4 i) as H4i. subst w1. cbn [ctrls] in H4i. rewrite aget_insert in H4i by done.
  rewrite aget_insert by done. case_decide as Ei.
  - subst i. assert (k = k0) as -> by congruence. destruct (H4i _ eq_refl) as (k' & H5 & _ & H6). assert (k' = k4) as -> by congruence. eexists. split_and!; [done | done|].
    intros j Hj. apply H6. exact Hj.
  - destruct (H4i _ Hk) as (k' & H5 & [H6 _] & H7). exists k'. split_and!; [done | done|]. intros j _. apply H7. intros [-> _]. by apply Ei.
Qed.

(** C15. The interrupt handler may interrupt a task or a cyclic function anywhere, also between
    filling a transmit buffer and sending it or between a transfer and reading its answer:
    whatever the chip and the link do (the SPI driver receives as many bytes as it sends), a
    run of the handler leaves the execution context of every controller as it was and does not
    touch the SPI buffers of other controllers.  Of its own controller it changes only the words
    of the two buffers of the interrupt context and, if the wait variant of the read command is
    configured, the word before its receive buffer, which is the last word of the receive buffer
    of the task.  The words 0 to 18 of the buffers of task and cyclic functions, which hold the
    header and the data of every transfer of at most 18 words, are therefore never changed. *)
Theorem tcan_isr_isolated {U} `{HE : Tcan_Env U} a (w w' : TcanWorld U) :
  (∀ seq out u, length (tcan_SyncTransmit seq out u).1.2 = length out) → Tcan_Irq_Handler a w = Some (tt, w') →
  ∀ i k, aget (ctrls w) i = Some k →
    ∃ k', aget (ctrls w') i = Some k' ∧ ExCntxt k' = ExCntxt k ∧
      (∀ j, i ≠ a ∨ ¬ touched (ReadCmd k) ISR_CONTEXT j → aget (SpiBuf k') j = aget (SpiBuf k) j) ∧
      (∀ x j, x = TASK_CONTEXT ∨ x = MAIN_FUNCTION_CONTEXT → transfer_words x j → aget (SpiBuf k') j = aget (SpiBuf k) j).
Proof.
  intros Hd E i k Hk. destruct (wlp_run _ _ _ _ _ (isolated_irq a w Hd) E i k Hk) as (k' & H1 & H2 & H3). exists k'. split_and!; [done | done | |].
  - intros j Hj. apply H3. tauto.
  - intros x j Hx Hj. apply H3. intros [_ Ht]. revert Ht. apply (transfer_words_untouched _ _ x); destruct Hx as [-> | ->]; done.
Qed.

(** The handler at work: two confirmations, with the answers of a task's transfer still in the
    buffers of the task. *)
Definition ex_irq_world : TcanWorld Link := match Tcan_Irq_Handler 0 ex_events_world with Some (_, w) => w | None => ex_events_world end.
Lemma ex_irq_run : Tcan_Irq_Handler 0 ex_events_world = Some (tt, ex_irq_world) ∧ tc_trace ex_irq_world = [EvTxConfirmation 22; EvTxConfirmation 21].
Proof. split; vm_compute; reflexivity. Qed.
Lemma tcan_isr_isolated_witness : ∃ k', aget (ctrls ex_irq_world) 0 = Some k' ∧ ExCntxt k' = TASK_CONTEXT ∧ aget (SpiBuf k') 61 = Some 7 ∧ aget (SpiBuf k') 79 = Some 7.
Proof.
  destruct (tcan_isr_isolated 0 ex_events_world ex_irq_world ex_duplex (proj1 ex_irq_run) 0 ex_two_handles eq_refl) as (k' & H1 & H2 & H3 & H4).
  exists k'. split; [exact H1|]. split; [exact H2|]. split.
  - rewrite (H4 TASK_CONTEXT 61); [reflexivity | by left|]. unfold transfer_words, TASK_CONTEXT. lia.
  - rewrite (H3 79); [reflexivity|]. right. intros [H | [H _]]; [unfold own, ISR_CONTEXT in H; lia | discriminate H].
Defined.

(** * The CAN driver: one writer per transmit object *)

Section mutex.
Context {U : Type} `{HE : Tcan_Env U}.
Abbreviation W := (TcanWorld U).

(** Everything but entering and leaving keeps the mutexes. *)
Definition same_mutex (w w' : W) : Prop := HthMutex (vars w') = HthMutex (vars w).
#[global] Instance same_mutex_preorder : PreOrder same_mutex.
Proof. unfold same_mutex. split; [done|]. intros w1 w2 w3 H1 H2. congruence. Qed.
Lemma mutex_setv f : (∀ v, HthMutex (f v) = HthMutex v) → Pres same_mutex (setv f).
Proof. intros Hf w. apply wlp_modify. apply Hf. Qed.
Lemma mutex_setc c f : Pres same_mutex (setc c f).
Proof. intros w. by apply wlp_setc. Qed.
Lemma mutex_ev e : Pres same_mutex (tc_ev e).
Proof. intros w. by apply wlp_modify. Qed.
Lemma mutex_call {R} (f : U → R * U) : Pres same_mutex (tc_call f).
Proof. intros w. destruct (f (up w)) as [r u] eqn:E. eapply wlp_value; [unfold tc_call; by rewrite E|]. done. Qed.

(** The checks leave controllers and chip alone. *)
Definition untouched (w w' : W) : Prop := ctrls w' = ctrls w ∧ up w' = up w ∧ HthMutex (vars w') = HthMutex (vars w) ∧ ConfigPtr (vars w') = ConfigPtr (vars w).
#[global] Instance untouched_preorder : PreOrder untouched.
Proof. unfold untouched. split; [done|]. intros w1 w2 w3 H1 H2. destruct_and!. split_and!; congruence. Qed.
Lemma untouched_setv f : (∀ v, HthMutex (f v) = HthMutex v ∧ ConfigPtr (f v) = ConfigPtr v) → Pres untouched (setv f).
Proof. intros Hf w. apply wlp_modify. destruct (Hf (vars w)). done. Qed.
Lemma untouched_ev e : Pres untouched (tc_ev e).
Proof. intros w. by apply wlp_modify. Qed.
End mutex.

#[export] Hint Extern 1 (Pres same_mutex (setv _)) => apply mutex_setv; intros; reflexivity : pres.
#[export] Hint Extern 1 (Pres untouched (setv _)) => apply untouched_setv; intros; split; reflexivity : pres.
#[export] Hint Resolve mutex_setc mutex_ev mutex_call untouched_ev : pres.

Section functions.
Context {U : Type} `{HE : Tcan_Env U}.
Abbreviation W := (TcanWorld U).

Lemma mutex_retry fuel aId seq tx rx n r : Pres (same_mutex (U := U)) (spi_retry fuel aId seq tx rx n r).
Proof. revert r. induction fuel as [|fuel IH]; intros r; cbn [spi_retry]; [apply pres_ub|]. unfold spi_transmit, swap_words. quiet. Qed.
Hint Resolve mutex_retry : pres.
Lemma mutex_rw aId a n cmd : Pres (same_mutex (U := U)) (Tcan_SpiRW aId a n cmd).
Proof. unfold Tcan_SpiRW, swap_words. quiet. Qed.
Hint Resolve mutex_rw : pres.
Lemma mutex_read aId a n : Pres (same_mutex (U := U)) (Tcan_SpiRead aId a n).
Proof. unfold Tcan_SpiRead. quiet. Qed.
Lemma mutex_spiwrite aId a n : Pres (same_mutex (U := U)) (Tcan_SpiWrite aId a n).
Proof. unfold Tcan_SpiWrite. quiet. Qed.
Hint Resolve mutex_read mutex_spiwrite : pres.
Lemma mutex_verified aId a n : Pres (same_mutex (U := U)) (read_verified aId a n).
Proof. unfold read_verified, Tcan_VerifySpiRead. quiet. Qed.
Hint Resolve mutex_verified : pres.
Lemma mutex_write_loop n aId p o t i r : Pres (same_mutex (U := U)) (write_loop n aId p o t i r).
Proof. revert i r. induction n; intros i r; cbn [write_loop]; unfold write_element, clear_data, store_data; quiet. Qed.
Hint Resolve mutex_write_loop : pres.
Lemma mutex_body hth p : Pres (same_mutex (U := U)) (write_body hth p).
Proof. unfold write_body, Tcan_MCAN_Write. quiet. Qed.

Lemma mutex_icom_signals n i sigs d v : Pres (same_mutex (U := U)) (icom_signals n i sigs d v).
Proof. revert i. induction n; intros i; cbn [icom_signals]; quiet. Qed.
Hint Resolve mutex_icom_signals : pres.
Lemma mutex_icom_loop n aId i p msgs m d : Pres (same_mutex (U := U)) (icom_loop n aId i p msgs m d).
Proof. revert i p d. induction n; intros i p d; cbn [icom_loop]; quiet. Qed.
Hint Resolve mutex_icom_loop : pres.
Lemma mutex_RxNotification aId m : Pres (same_mutex (U := U)) (Tcan_RxNotification aId m).
Proof. unfold Tcan_RxNotification, Tcan_ProcessIcomRx, rx_indicate. quiet. Qed.
Hint Resolve mutex_RxNotification : pres.
Lemma mutex_rxbuffer fuel aId d : Pres (same_mutex (U := U)) (rxbuffer_loop fuel aId d).
Proof. revert d. induction fuel; intros d; cbn [rxbuffer_loop]; unfold read_rx_element; quiet. Qed.
Lemma mutex_rxfifo n f aId : Pres (same_mutex (U := U)) (rxfifo_loop n f aId).
Proof. induction n; cbn [rxfifo_loop]; unfold read_rx_element; quiet. Qed.
Lemma mutex_txevent n aId : Pres (same_mutex (U := U)) (txevent_loop n aId).
Proof. induction n; cbn [txevent_loop]; unfold Tcan_TxNotification; quiet. Qed.
Hint Resolve mutex_rxbuffer mutex_rxfifo mutex_txevent : pres.
Lemma mutex_irq aId : Pres (same_mutex (U := U)) (Tcan_Irq_Handler aId).
Proof.
  unfold Tcan_Irq_Handler, Tcan_MCAN_ProcessCanIRQLine0, Tcan_MCAN_ProcessCanRx, process_fifo_flags, Tcan_MCAN_ProcessRxFIFO, Tcan_MCAN_ProcessRxBuffer, Tcan_MCAN_ProcessCanTx, Tcan_MCAN_ProcessTx, Tcan_MCAN_BusoffProcess. quiet.
Qed.
Lemma untouched_check Hth p : Pres (untouched (U := U)) (set_api SID_WRITE;; write_check Hth p).
Proof. unfold write_check, Tcan_ReportDetUninit, Tcan_WriteDetCheck. quiet. Qed.

(** ** Steps *)

(** The tasks inside the guarded part of Write, with the index of their transmit object. *)
Abbreviation Inside := (gmap nat Z).

Inductive wstep : W * Inside → W * Inside → Prop :=
| ws_enter tid hth w w' I : I !! tid = None → write_enter hth w = Some (true, w') → wstep (w, I) (w', <[tid := hth]> I)
| ws_refused hth w w' I : write_enter hth w = Some (false, w') → wstep (w, I) (w', I)
| ws_body tid hth p rb w w' I : I !! tid = Some hth → write_body hth p w = Some (rb, w') → wstep (w, I) (w', I)
| ws_exit tid hth w w' I : I !! tid = Some hth → write_exit hth w = Some (tt, w') → wstep (w, I) (w', delete tid I)
| ws_irq aId w w' I : Tcan_Irq_Handler aId w = Some (tt, w') → wstep (w, I) (w', I).

Record exclusive (s : W * Inside) : Prop := {
  ex_held tid hth : s.2 !! tid = Some hth → aget (HthMutex (vars s.1)) hth = Some 1;
  ex_alone tid tid' hth : s.2 !! tid = Some hth → s.2 !! tid' = Some hth → tid = tid'
}.

Lemma enter_run hth (w : W) b w' : write_enter hth w = Some (b, w') →
  ∃ x, aget (HthMutex (vars w)) hth = Some x ∧
    if b : bool then x = 0 ∧ HthMutex (vars w') = <[Z.to_nat hth := 1]> (HthMutex (vars w)) else x ≠ 0 ∧ w' = w.
Proof.
  apply (wlp_run _ (λ b w', ∃ x, aget (HthMutex (vars w)) hth = Some x ∧
    if b : bool then x = 0 ∧ HthMutex (vars w') = <[Z.to_nat hth := 1]> (HthMutex (vars w)) else x ≠ 0 ∧ w' = w)).
  unfold write_enter. apply wlp_bind, wlp_gets, wlp_bind, wlp_lift. intros x Hx. apply wlp_if; intros Hz; bools; [|by apply wlp_ret; exists x].
  apply wlp_bind, wlp_lift. intros l [_ ->]%aset_Some. apply wlp_bind, wlp_modify, wlp_ret. by exists x.
Qed.
Lemma exit_run hth (w w' : W) : write_exit hth w = Some (tt, w') → 0 ≤ hth < lenZ (HthMutex (vars w)) ∧ HthMutex (vars w') = <[Z.to_nat hth := 0]> (HthMutex (vars w)).
Proof.
  apply (wlp_run _ (λ _ w', 0 ≤ hth < lenZ (HthMutex (vars w)) ∧ HthMutex (vars w') = <[Z.to_nat hth := 0]> (HthMutex (vars w)))).
  unfold write_exit. apply wlp_bind, wlp_gets, wlp_bind, wlp_lift. intros l [H ->]%aset_Some. by apply wlp_modify.
Qed.
Lemma exclusive_same w w' I : exclusive (w, I) → same_mutex w w' → exclusive (w', I).
Proof. intros [H1 H2] E. split; [|done]. intros tid hth Hi. cbn in *. rewrite E. by eapply H1. Qed.

Lemma exclusive_step s s' : wstep s s' → exclusive s → exclusive s'.
Proof.
  intros Hst Hex. destruct Hst as [tid hth w w' I Hn He|hth w w' I He|tid hth p rb w w' I Hi Hb|tid hth w w' I Hi He|aId w w' I Hq].
  - apply enter_run in He as (x & Hx & -> & El). destruct Hex as [H1 H2]. pose proof (aget_Some _ _ _ Hx) as Hr. cbn [fst snd] in *.
    assert (∀ t, I !! t ≠ Some hth) as Hnone by (intros t Ht; specialize (H1 t hth Ht); congruence).
    split; cbn [fst snd].
    + intros t h Ht. rewrite El, aget_insert by done. case_decide; [done|]. rewrite lookup_insert_ne in Ht; [by eapply H1|]. intros ->. rewrite lookup_insert_eq in Ht. congruence.
    + intros t t' h Ht Ht'. rewrite lookup_insert in Ht, Ht'. repeat case_decide; simplify_eq; first [done | by destruct (Hnone _ Ht) | by destruct (Hnone _ Ht') | by eapply H2].
  - apply enter_run in He as (x & _ & _ & ->). done.
  - eapply exclusive_same; [done|]. by eapply pres_run; [apply mutex_body|].
  - apply exit_run in He as [Hr El]. destruct Hex as [H1 H2]. cbn [fst snd] in *. split; cbn [fst snd].
    + intros t h [Hne Ht]%lookup_delete_Some. rewrite El, aget_insert by done. case_decide; [|by eapply H1]. subst h. destruct Hne. by eapply H2.
    + intros t t' h [_ Ht]%lookup_delete_Some [_ Ht']%lookup_delete_Some. by eapply H2.
  - eapply exclusive_same; [done|]. by eapply pres_run; [apply mutex_irq|].
Qed.
Lemma exclusive_reach s s' : rtc wstep s s' → exclusive s → exclusive s'.
Proof. induction 1 as [|s1 s2 s3 H _ IH]; [done|]. intros Hex. by eapply IH, exclusive_step. Qed.

(** A call on an object whose mutex is taken. *)
Lemma busy_call Hth p (w : W) r w' cfg : ConfigPtr (vars w) = Some cfg → aget (HthMutex (vars w)) (u16 (Hth - CanHRHobjectsCount cfg)) = Some 1 →
  Tcan_Write Hth p w = Some (r, w') → r ≠ CAN_OK ∧ ctrls w' = ctrls w ∧ up w' = up w ∧ HthMutex (vars w') = HthMutex (vars w).
Proof.
  intros Hcfg Hm E. assert (wlp (Tcan_Write Hth p) (λ r w', r ≠ CAN_OK ∧ ctrls w' = ctrls w ∧ up w' = up w ∧ HthMutex (vars w') = HthMutex (vars w)) w) as H; [|exact (wlp_run _ _ _ _ _ H E)].
  clear E. unfold Tcan_Write. pose proof (wlp_bind_inv _ _ _ _ (untouched_check Hth p w)) as Hc. apply wlp_bind. eapply wlp_mono; [exact Hc|]. cbv beta. intros _ w1 H1.
  apply wlp_bind. eapply wlp_mono; [exact H1|]. cbv beta. intros st w2 (E1 & E2 & E3 & E4). destruct st; [|by apply wlp_ret].
  unfold config. apply wlp_bind, wlp_bind, wlp_gets, wlp_lift. intros cfg' Hcfg'. rewrite E4, Hcfg in Hcfg'. injection Hcfg' as <-. cbv zeta. apply wlp_bind.
  unfold write_enter. apply wlp_bind, wlp_gets, wlp_bind, wlp_lift. intros x Hx. rewrite E3, Hm in Hx. injection Hx as <-. cbn [Z.eqb]. apply wlp_ret, wlp_ret. done.
Qed.

(** C16. Whatever tasks call Write and whenever the interrupt handler runs in between: at most
    one task at a time is inside the guarded part for a transmit object, and while it is, any
    other call of Write for that object returns without success and touches neither the
    controllers nor the chip. *)
Theorem tcan_write_exclusive (w0 w : W) I cfg : rtc wstep (w0, ∅) (w, I) → ConfigPtr (vars w) = Some cfg →
  (∀ tid tid' hth, I !! tid = Some hth → I !! tid' = Some hth → tid = tid') ∧
  (∀ tid Hth p r w', I !! tid = Some (u16 (Hth - CanHRHobjectsCount cfg)) → Tcan_Write Hth p w = Some (r, w') →
     r ≠ CAN_OK ∧ ctrls w' = ctrls w ∧ up w' = up w ∧ HthMutex (vars w') = HthMutex (vars w)).
Proof.
  intros Hr Hcfg. assert (exclusive (w, I)) as [H1 H2].
  { eapply exclusive_reach; [done|]. split; intros tid; cbn; rewrite ?lookup_empty; [done|]. intros ? ?. by rewrite lookup_empty. }
  split; [exact H2|]. intros tid Hth p r w' Hi E. eapply busy_call; [done | by apply (H1 tid) | done].
Qed.
End functions.

(** One task is inside, a second one calls. *)
Definition ex_entered : TcanWorld Link := match write_enter 0 ex_tx_world with Some (_, w) => w | None => ex_tx_world end.
Lemma ex_entered_reach : rtc wstep (ex_tx_world, ∅) (ex_entered, {[ 1%nat := 0 ]}).
Proof. eapply rtc_l; [|apply rtc_refl]. apply (ws_enter 1 0); [done|]. vm_compute. reflexivity. Qed.
Definition ex_second : option (Can_ReturnType * TcanWorld Link) := Tcan_Write 6 (Some (the_pdu 18 true true 305419896 ex_sdu)) ex_entered.
Lemma tcan_write_exclusive_witness : ∃ w', ex_second = Some (CAN_BUSY, w') ∧ ctrls w' = ctrls ex_entered ∧ up w' = up ex_entered.
Proof.
  destruct ex_second as [[r w']|] eqn:E; [|vm_compute in E; discriminate].
  destruct (proj2 (tcan_write_exclusive ex_tx_world ex_entered {[ 1%nat := 0 ]} ex_config ex_entered_reach eq_refl) 1%nat 6 _ r w' eq_refl E) as (_ & Hc & Hu & _).
  exists w'. split; [|split; [exact Hc | exact Hu]]. vm_compute in E. injection E as <- <-. reflexivity.
Defined.
