(* ===== verification/TcanRam.v ===== *)
(** * The CAN driver: the message RAM and the Rx buffers

    The areas of the message RAM as the driver lays them out and programs them.

    The search for the most significant set bit is the binary logarithm, and the loop over the
    new-data flags delivers every flagged buffer once, from the highest index down. *)

From S2P Require Import Prelude ComStack CanIf TcanTypes TcanSpi TcanMCan TcanTraffic Tcan TcanMode TcanExample TcanLink TcanLinkClaims TcanFifo TcanSend TcanWrite TcanRoundTrip.
From stdpp Require Import base list numbers option gmap.

#[local] Open Scope Z_scope.




Section ram.
Context {U : Type} {HE : Tcan_Env U} (c : Z) (cs : ControllerSetting) (limit : Z) (R : Type) {HC : TcanChip c cs limit R}.
Abbreviation W := (TcanWorld U).
Implicit Types (u : U).



Section exec.
Context (L0 : list Ctrl) (Hc : 0 ≤ c < lenZ L0).
Abbreviation st := (st c L0).


End exec.

End ram.


(** * The CAN driver: the dedicated Rx buffers *)

(** ** Bit search *)

(** One halving step keeps the position of the highest bit. *)
Lemma clz_step c cs v n : 0 < c → 0 < v < 2 ^ (2 * c) → ∃ v', 0 < v' < 2 ^ c ∧ clz_loop (c :: cs) v n = clz_loop cs v' (n - (Z.log2 v - Z.log2 v')).
Proof.
  intros Hc Hv. cbn [clz_loop]. rewrite Z.shiftr_div_pow2 by lia. replace (2 * c) with (c + c) in Hv by lia. rewrite Z.pow_add_r in Hv by lia. assert (0 < 2 ^ c) by lia.
  destruct (Z.eqb_spec (v / 2 ^ c) 0) as [E|E]; cbn [negb].
  - exists v. apply Z.div_small_iff in E; [|lia]. split; [lia | f_equal; lia].
  - exists (v / 2 ^ c). assert (0 < v / 2 ^ c < 2 ^ c) as Hq.
    { split; [pose proof (Z.div_pos v (2 ^ c)); lia | apply Z.div_lt_upper_bound; lia]. }
    split; [done|]. f_equal. rewrite <-Z.shiftr_div_pow2, Z.log2_shiftr by lia. rewrite Z.max_r; [lia|].
    assert (c ≤ Z.log2 v); [|lia]. apply Z.log2_le_pow2; [lia|]. destruct (Z.lt_ge_cases v (2 ^ c)); [|done]. rewrite Z.div_small in Hq; lia.
Qed.
Lemma GetCntLeadZero_log2 v : 0 < v < 2 ^ 32 → GetCntLeadZero v = 31 - Z.log2 v.
Proof.
  intros Hv. unfold GetCntLeadZero.
  destruct (clz_step 16 [8; 4; 2; 1] v 32 ltac:(lia) Hv) as (v1 & H1 & ->). destruct (clz_step 8 [4; 2; 1] v1 (32 - (Z.log2 v - Z.log2 v1)) ltac:(lia) H1) as (v2 & H2 & ->).
  destruct (clz_step 4 [2; 1] v2 (32 - (Z.log2 v - Z.log2 v1) - (Z.log2 v1 - Z.log2 v2)) ltac:(lia) H2) as (v3 & H3 & ->).
  destruct (clz_step 2 [1] v3 (32 - (Z.log2 v - Z.log2 v1) - (Z.log2 v1 - Z.log2 v2) - (Z.log2 v2 - Z.log2 v3)) ltac:(lia) H3) as (v4 & H4 & ->).
  match goal with |- clz_loop [1] v4 ?n = _ => destruct (clz_step 1 [] v4 n ltac:(lia) H4) as (v5 & H5 & ->) end.
  cbn [clz_loop]. assert (v5 = 1) as -> by lia. change (Z.log2 1) with 0. lia.
Qed.
Lemma getmsb_log2 x : 0 < x < 2 ^ 64 → getmsb x = Z.log2 x.
Proof.
  intros Hx. unfold getmsb. rewrite Z.shiftr_div_pow2 by lia. assert (0 ≤ x / 2 ^ 32 < 2 ^ 32) as Hh by (Z.div_mod_to_equations; lia). rewrite u32_small by done.
  destruct (Z.eq_dec (x / 2 ^ 32) 0) as [E|E].
  - rewrite E. change (31 - GetCntLeadZero 0 <? 0) with true. cbv iota. change 4294967295 with (Z.ones 32). rewrite Z.land_ones by lia.
    apply Z.div_small_iff in E; [|lia]. rewrite Z.mod_small, GetCntLeadZero_log2 by lia. lia.
  - rewrite GetCntLeadZero_log2 by lia. rewrite <-Z.shiftr_div_pow2, Z.log2_shiftr by lia. assert (32 ≤ Z.log2 x).
    { apply Z.log2_le_pow2; [lia|]. destruct (Z.lt_ge_cases x (2 ^ 32)); [rewrite Z.div_small in E; lia | done]. }
    rewrite Z.max_r by lia. rewrite (proj2 (Z.ltb_ge _ _)) by lia. lia.
Qed.

(** The positions of the set bits below [n], highest first. *)
Fixpoint bits_down (n : nat) (x : Z) : list Z :=
  match n with
  | O => []
  | S n => if Z.testbit x (Z.of_nat n) then Z.of_nat n :: bits_down n x else bits_down n x
  end.
Lemma bits_down_ext n x y : (∀ i, 0 ≤ i < Z.of_nat n → Z.testbit x i = Z.testbit y i) → bits_down n x = bits_down n y.
Proof. induction n as [|n IH]; intros H; cbn [bits_down]; [done|]. rewrite (H (Z.of_nat n)), IH by (intros; try apply H; lia). done. Qed.
Lemma bits_down_log2 n x : 0 < x < 2 ^ Z.of_nat n → bits_down n x = Z.log2 x :: bits_down n (Z.ldiff x (2 ^ Z.log2 x)).
Proof.
  induction n as [|n IH]; intros Hx; [cbn in Hx; lia|]. assert (∀ i, 0 ≤ i → Z.testbit (Z.ldiff x (2 ^ Z.log2 x)) i = Z.testbit x i && negb (Z.eqb (Z.log2 x) i)) as Hb.
  { intros i Hi. rewrite Z.ldiff_spec, Z.pow2_bits_eqb by apply Z.log2_nonneg. done. }
  cbn [bits_down]. rewrite Hb by lia. rewrite Nat2Z.inj_succ, Z.pow_succ_r in Hx by lia. destruct (Z.testbit x (Z.of_nat n)) eqn:E; cbn [andb].
  - assert (Z.log2 x = Z.of_nat n) as El.
    { apply Z.log2_unique; [lia|]. rewrite Z.pow_succ_r by lia. split; [|lia]. destruct (Z.lt_ge_cases x (2 ^ Z.of_nat n)); [|done]. rewrite Z.bits_above_log2 in E; [done | lia | apply Z.log2_lt_pow2; lia]. }
    rewrite El, Z.eqb_refl. cbn [negb]. f_equal. apply bits_down_ext. intros i Hi. rewrite <-El, Hb, El by lia. rewrite (proj2 (Z.eqb_neq _ _)) by lia. by rewrite andb_true_r.
  - apply IH. split; [lia|]. destruct (Z.lt_ge_cases x (2 ^ Z.of_nat n)); [done|]. assert (Z.log2 x = Z.of_nat n) as El by (apply Z.log2_unique; [lia|]; rewrite Z.pow_succ_r by lia; lia).
    rewrite <-El, Z.bit_log2 in E by lia. done.
Qed.
Lemma bits_down_0 n : bits_down n 0 = [].
Proof. induction n as [|n IH]; cbn [bits_down]; [done|]. by rewrite Z.bits_0. Qed.
Lemma length_bits_down n x : (length (bits_down n x) ≤ n)%nat.
Proof. induction n as [|n IH]; cbn [bits_down]; [done|]. destruct (Z.testbit _ _); cbn [length]; lia. Qed.
Lemma clear_log2 n x : 0 < x < 2 ^ n → 0 ≤ Z.ldiff x (2 ^ Z.log2 x) < 2 ^ n.
Proof. intros Hx. split; [apply Z.ldiff_nonneg; lia|]. eapply Z.le_lt_trans; [|apply Hx]. apply Z.ldiff_le; [lia|]. apply Z.bits_inj'. intros i Hi. rewrite !Z.ldiff_spec, Z.bits_0. by destruct (Z.testbit x i), (Z.testbit (2 ^ Z.log2 x) i). Qed.

#[local] Opaque bits_down.

Section buffers.
Context {U : Type} {HE : Tcan_Env U} (c : Z) (cs : ControllerSetting) (limit : Z) (R : Type) {HC : TcanChip c cs limit R}.
(** The elements in the Rx buffers of the chip; acknowledging new data leaves them alone. *)
Context (buf : R → Z → RxElement) (start size : Z).
Context (Hbuf : ∀ r i, 0 ≤ i < 64 → re_idx (buf r i) = i ∧ rx_element_at peek start size r (buf r i)).
Context (Hndat : ∀ r x i, buf (poke REG_NDAT1 x r) i = buf r i ∧ buf (poke REG_NDAT2 x r) i = buf r i).
Context (Hstart : 0 ≤ start ≤ 20000) (Hsize : aget MCAN_ROBufferSizeFD (CanFdDataBufSize cs) = Some size).
Abbreviation W := (TcanWorld U).
Implicit Types (u : U).

(** The acknowledgement of buffer [i], and of all buffers of a list. *)
Definition ack_buffer (i : Z) (r : R) : R := if i <? 32 then poke REG_NDAT1 (2 ^ i) r else poke REG_NDAT2 (2 ^ (i - 32)) r.
Definition ack_buffers (l : list Z) (r : R) : R := foldl (λ r i, ack_buffer i r) r l.
Lemma buf_ack i r j : buf (ack_buffer i r) j = buf r j.
Proof using Hndat. unfold ack_buffer. destruct (_ <? _); apply Hndat. Qed.

Definition buffer_objects (cc : ControllerConfig) (r : R) (l hs : list Z) : Prop :=
  Forall2 (λ i h, rx_hoh cc (re_message (buf r i)) = Some h) l hs.
Definition buffer_indications (r : R) (l hs : list Z) : list Tcan_Event := zip_with (indication c cs) hs (re_message ∘ buf r <$> l).

Section exec.
Context (L0 : list Ctrl) (Hc : 0 ≤ c < lenZ L0).
Abbreviation st := (st c L0).

(** Writing one bit of a new-data register. *)
Lemma step_ack i v k b u t Q : config_ok limit v → ctrl_ok k → transferred k b → 0 ≤ i < 64 →
  (∀ b' u', transferred k b' → regs u' = ack_buffer i (regs u) → Q E_OK (st v (set_buf b' k) u' t)) →
  wp (if i <? 32 then x ← lift (bit32 i); write_word c REG_NDAT1 x else x ← lift (bit32 (i - 32)); write_word c REG_NDAT2 x) Q (st v (set_buf b k) u t).
Proof using HC Hc.
  intros Hv Hk Hb Hi HQ. unfold ack_buffer in HQ. assert (∀ j, 0 ≤ j < 32 → bit32 j = Some (2 ^ j) ∧ word_ok (2 ^ j)) as Hbit.
  { intros j Hj. unfold bit32. rewrite (proj2 (Z.leb_le _ _)), (proj2 (Z.ltb_lt _ _)) by lia. split; [by rewrite Z.shiftl_1_l|]. unfold word_ok. split; [lia|].
    change 4294967296 with (2 ^ 32). apply Z.pow_lt_mono_r; lia. }
  destruct (Z.ltb_spec i 32).
  - destruct (Hbit i ltac:(lia)) as [E Hw]. apply wp_bind. eapply wp_lift; [exact E|]. by apply (step_write_word c cs limit R L0 Hc).
  - destruct (Hbit (i - 32) ltac:(lia)) as [E Hw]. apply wp_bind. eapply wp_lift; [exact E|]. by apply (step_write_word c cs limit R L0 Hc).
Qed.

Lemma rxbuffer_drains v cc : config_ok limit v → rx_config c v cc → ∀ fuel x hs k b u t,
  ctrl_ok k → GComConfigId k = 0 → RX_BUFFER_START_ADDR (RWDev k) = start → transferred k b → 0 ≤ x < 2 ^ 64 →
  (length (bits_down 64 x) ≤ fuel)%nat → buffer_objects cc (regs u) (bits_down 64 x) hs →
  wp (rxbuffer_loop fuel c x)
    (λ _ s, ∃ b' u', s = st v (set_buf b' k) u' (t ++ buffer_indications (regs u) (bits_down 64 x) hs) ∧ transferred k b' ∧ regs u' = ack_buffers (bits_down 64 x) (regs u))
    (st v (set_buf b k) u t).
Proof using HC Hc Hbuf Hndat Hstart Hsize.
  intros Hv Hcfg fuel. induction fuel as [|fuel IH]; intros x hs k b u t Hk Hg Hs Hb Hx Hf Ho.
  all: destruct (Z.eq_dec x 0) as [->|Hne]; [rewrite bits_down_0 in *; inversion Ho; subst; cbn [rxbuffer_loop Z.eqb]; apply wp_ret; exists b, u; unfold buffer_indications; cbn; by rewrite app_nil_r|].
  all: rewrite bits_down_log2 in * by lia; set (i := Z.log2 x) in *; cbn [length] in Hf.
  1: lia.
  assert (0 ≤ i < 64) as Hi by (subst i; split; [apply Z.log2_nonneg | apply Z.log2_lt_pow2; lia]).
  apply Forall2_cons_inv_l in Ho as (h & hs' & He & Ho' & ->). destruct (Hbuf (regs u) i Hi) as [Ei Hat].
  cbn [rxbuffer_loop]. rewrite (proj2 (Z.eqb_neq _ _)) by done. cbv zeta. rewrite getmsb_log2 by lia. fold i. rewrite u8_small by lia.
  apply wp_bind. unfold buf_size. apply wp_bind, (step_setting c cs limit R L0). eapply wp_lift; [exact Hsize|]. apply wp_bind, wp_getc; [done|]. cbn [RWDev set_buf]. rewrite Hs.
  apply wp_bind. rewrite <-Ei at 1. eapply (step_rx_element c cs limit R L0 Hc); [exact Hstart | exact Hsize | done | done | done | lia | exact Hat|]. intros b1 u1 Ht1 Hu1.
  apply wp_bind, step_ack; [done..|]. intros b2 u2 Ht2 Hu2. rewrite Hu1 in Hu2. apply wp_bind. eapply (step_RxNotification c cs limit R L0 Hc); [done | done | exact He|].
  rewrite Z.shiftl_1_l. pose proof (clear_log2 64 x ltac:(lia)) as Hx'. fold i in Hx'.
  eapply wp_mono; [apply (IH (Z.ldiff x (2 ^ i)) hs' k b2 u2); try done; [lia|]|].
  - rewrite Hu2. unfold buffer_objects in *. eapply Forall2_impl; [exact Ho'|]. intros j h' Hj. by rewrite buf_ack.
  - cbv beta. intros _ s (b' & u' & -> & Htb & Hu'). exists b', u'. rewrite Hu2 in *. unfold buffer_indications. rewrite <-app_assoc. cbn [app fmap list_fmap zip_with compose].
    split_and!; [|done|done]. do 4 f_equal. apply list_fmap_ext. intros j e _. cbn [compose]. by rewrite buf_ack.
Qed.

(** The two new-data registers, read again on revision 3 when both are zero. *)
Lemma step_verified_ndat v k b u t Q : config_ok limit v → ctrl_ok k → transferred k b →
  (∀ b' u', transferred k b' → regs u' = regs u → aslice b' (rx_base k + 1) 2 = Some [peek (regs u) REG_NDAT1; peek (regs u) REG_NDAT2] → Q E_OK (st v (set_buf b' k) u' t)) →
  wp (read_verified c REG_NDAT1 2) Q (st v (set_buf b k) u t).
Proof using HC Hc.
  intros Hv Hk Hb HQ. unfold read_verified. apply wp_bind, (step_read c cs limit R L0 Hc); [done | done | done | done | lia|]. intros b1 u1 Ht1 Hu1 Hs1. rewrite addrs_2 in Hs1.
  apply wp_bind. unfold Tcan_VerifySpiRead. apply wp_bind, wp_getv, wp_when; intros _; [|by apply wp_ret, HQ]. apply wp_bind.
  eapply step_rxget; [done | rewrite <-(Z.add_0_r (rx_base k + 1)), <-(aget_aslice _ _ _ _ _ Hs1) by lia; reflexivity|].
  apply wp_when; intros _; [|by apply wp_ret, HQ]. cbn [Z.eqb Pos.eqb]. change (REG_NDAT1 =? REG_NDAT1) with true. cbv iota. apply wp_bind.
  eapply step_rxget; [done | replace (rx_base k + 2) with (rx_base k + 1 + 1) by lia; rewrite <-(aget_aslice _ _ _ _ _ Hs1) by lia; reflexivity|].
  apply wp_when; intros _; [|by apply wp_ret, HQ]. apply wp_bind, (step_read c cs limit R L0 Hc); [done | done | done | done | lia|]. intros b2 u2 Ht2 Hu2 Hs2. rewrite addrs_2, Hu1 in *.
  by apply wp_ret, wp_ret, HQ.
Qed.
End exec.

(** The new-data flags of the 64 buffers. *)
Definition new_data (r : R) : Z := peek r REG_NDAT1 + peek r REG_NDAT2 * 2 ^ 32.

(** C18. The dedicated Rx buffers: the loop over the new-data flags terminates, and every
    buffer whose flag is set is delivered to CanIf exactly once, from the highest index down,
    with the message its element holds, and acknowledged exactly once.  No other buffer is
    touched. *)
Theorem tcan_rx_buffers (w : W) k cc hs :
  aget (ctrls w) c = Some k → ctrl_ok k → GComConfigId k = 0 → RX_BUFFER_START_ADDR (RWDev k) = start → config_ok limit (vars w) → rx_config c (vars w) cc →
  buffer_objects cc (regs (up w)) (bits_down 64 (new_data (regs (up w)))) hs →
  ∃ b u, Tcan_MCAN_ProcessRxBuffer c w =
      Some (tt, mkTcan (vars w) (<[Z.to_nat c := set_buf b k]> (ctrls w)) u (tc_trace w ++ buffer_indications (regs (up w)) (bits_down 64 (new_data (regs (up w)))) hs)) ∧
    regs u = ack_buffers (bits_down 64 (new_data (regs (up w)))) (regs (up w)).
Proof using HC Hbuf Hndat Hstart Hsize.
  intros Hk Hok Hg Hs Hv Hcfg Ho. pose proof (aget_Some _ _ _ Hk) as Hc. pose proof (world_st c (ctrls w) Hc w k Hk eq_refl) as Ew.
  assert (wp (Tcan_MCAN_ProcessRxBuffer c) (λ _ s, ∃ b u, s = st c (ctrls w) (vars w) (set_buf b k) u (tc_trace w ++ buffer_indications (regs (up w)) (bits_down 64 (new_data (regs (up w)))) hs) ∧
    regs u = ack_buffers (bits_down 64 (new_data (regs (up w)))) (regs (up w))) w) as H.
  { rewrite Ew at 1. rewrite <-(set_buf_id k) at 1. unfold Tcan_MCAN_ProcessRxBuffer. apply wp_bind, step_verified_ndat; [done | done | done | by apply transferred_refl|]. intros b1 u1 Ht1 Hu1 Hs1.
    apply wp_bind. eapply step_rxget; [done | rewrite <-(Z.add_0_r (rx_base k + 1)), <-(aget_aslice _ _ _ _ _ Hs1) by lia; reflexivity|].
    apply wp_bind. eapply step_rxget; [done | replace (rx_base k + 2) with (rx_base k + 1 + 1) by lia; rewrite <-(aget_aslice _ _ _ _ _ Hs1) by lia; reflexivity|].
    pose proof (chip_word (regs (up w)) REG_NDAT1) as W1. pose proof (chip_word (regs (up w)) REG_NDAT2) as W2. unfold word_ok in *.
    assert (Z.lor (peek (regs (up w)) REG_NDAT1) (Z.shiftl (peek (regs (up w)) REG_NDAT2) 32) = new_data (regs (up w))) as -> by (rewrite Z.lor_comm, lor_shift by lia; unfold new_data; lia).
    assert (0 ≤ new_data (regs (up w)) < 2 ^ 64) as Hn by (unfold new_data; lia). rewrite <-Hu1 in *.
    eapply wp_mono; [apply (rxbuffer_drains (ctrls w) Hc (vars w) cc); try done; apply length_bits_down|]. cbv beta. intros _ s (b' & u' & -> & _ & Hu'). eauto. }
  apply wp_run in H as ([] & s & E & b & u & -> & Hu). exists b, u. done.
Qed.
End buffers.

(** ** On the example chip: buffers 32 and 3 have new data *)

Definition ex_buf (m : Chip) (i : Z) : RxElement := chip_rx_element 0 64 m (i mod 64).
Lemma ex_buf_at m i : 0 ≤ i < 64 → re_idx (ex_buf m i) = i ∧ rx_element_at chip_peek 0 64 m (ex_buf m i).
Proof. intros Hi. unfold ex_buf. rewrite Z.mod_small by done. split; [done | apply chip_rx_element_at]. Qed.
Lemma ex_buf_ack m x i : ex_buf (chip_poke REG_NDAT1 x m) i = ex_buf m i ∧ ex_buf (chip_poke REG_NDAT2 x m) i = ex_buf m i.
Proof. pose proof (Z.mod_pos_bound i 64 ltac:(lia)). split; apply chip_rx_element_same; (done || lia). Qed.

Definition ex_buffers_chip : Chip :=
  pokes chip_poke (MSG_RAM_BASE_ADDR + 72 * 32) (rx_r0 ex_frame :: rx_r1 ex_frame 0 77 :: words_of (fr_data ex_frame))
    (pokes chip_poke (MSG_RAM_BASE_ADDR + 72 * 3) (rx_r0 ex_frame :: rx_r1 ex_frame 0 78 :: words_of (fr_data ex_frame)) (<[REG_NDAT1 := 8]> (<[REG_NDAT2 := 1]> ∅))).
Definition ex_buffers_world : TcanWorld Link := mkTcan (vars ex_tx_world) [ex_tx_ctrl] (true, ex_buffers_chip) [].
Definition ex_new_data : Z := new_data (HC := ex_chip) 0 (ex_setting INTERRUPT) 3 Chip ex_buffers_chip.
Lemma ex_new_bits : bits_down 64 ex_new_data = [32; 3].
Proof. vm_compute. reflexivity. Qed.
Lemma ex_buffer_objects : buffer_objects Chip ex_buf ex_ctrl ex_buffers_chip (bits_down 64 ex_new_data) [5; 5].
Proof. rewrite ex_new_bits. constructor; [vm_compute; reflexivity|]. constructor; [vm_compute; reflexivity|]. constructor. Qed.
Definition ex_buffer_events : list Tcan_Event :=
  [EvRxIndication 0 5 (2 ^ 30 + 291) (Some (fr_data ex_frame)) 12 77; EvRxIndication 0 5 (2 ^ 30 + 291) (Some (fr_data ex_frame)) 12 78].
Lemma ex_buffer_indications : buffer_indications 0 (ex_setting INTERRUPT) Chip ex_buf ex_buffers_chip (bits_down 64 ex_new_data) [5; 5] = ex_buffer_events.
Proof. rewrite ex_new_bits. vm_compute. reflexivity. Qed.
Lemma tcan_rx_buffers_witness : ∃ b u, Tcan_MCAN_ProcessRxBuffer 0 ex_buffers_world = Some (tt, mkTcan (vars ex_tx_world) [set_buf b ex_tx_ctrl] u ex_buffer_events).
Proof.
  destruct (tcan_rx_buffers (HC := ex_chip) 0 (ex_setting INTERRUPT) 3 Chip ex_buf 0 64 ex_buf_at ex_buf_ack ltac:(lia) eq_refl ex_buffers_world ex_tx_ctrl ex_ctrl [5; 5]
    eq_refl ex_tx_ok eq_refl eq_refl) as (b & u & E & _).
  - exists ex_config. split; reflexivity.
  - split; [reflexivity|]. exists ex_config. split; reflexivity.
  - exact ex_buffer_objects.
  - exists b, u. rewrite E, <-ex_buffer_indications. reflexivity.
Defined.
