(* ===== verification/TcanStart.v ===== *)
(** * The CAN driver: starting a controller *)

From S2P Require Import Prelude ComStack CanIf TcanTypes TcanSpi TcanMCan TcanTraffic Tcan TcanMode TcanExample TcanWrite.
From stdpp Require Import base list numbers option.

#[local] Open Scope Z_scope.

Section start.
Context {U : Type} `{HE : Tcan_Env U}.
Abbreviation W := (TcanWorld U).

(** Switching to running always answers CAN_OK. *)
Lemma running_ok (w : W) c : c < Z.of_nat NUM_CONTROLLER_MAX → wlp (Tcan_MCAN_SetMode c STATE_RUNNING) (λ r w', r = CAN_OK ∧ quiet w w') w.
Proof.
  intros Hc. apply wlp_and; [|by apply quiet_SetMode]. unfold Tcan_MCAN_SetMode. rewrite (proj2 (Z.leb_gt _ _)) by done.
  do 4 (apply wlp_bind; eapply wlp_mono; [apply wlp_true|]; intros _ ? _). by apply wlp_ret.
Qed.
Lemma mode_start_check (w : W) k c : c < Z.of_nat NUM_CONTROLLER_MAX → DriverState (vars w) ≠ DRV_UNINIT → aget (ctrls w) c = Some k → ControllerMode k = Some CAN_T_STOP →
  wlp (mode_check c CAN_T_START) (λ r w', r = E_OK ∧ w' = w) w.
Proof.
  intros Hc Hd Hk Hm. unfold mode_check, check_controller. destruct DEV_ERROR_DETECT; [|by apply wlp_ret]. unfold Tcan_ReportDetUninit. apply wlp_bind, wlp_bind, wlp_bind, wlp_gets.
  rewrite (proj2 (Z.eqb_neq _ _)) by done. apply wlp_ret. unfold Tcan_ReportDetParamController. rewrite (proj2 (Z.ltb_lt _ _)) by done. apply wlp_ret.
  unfold Tcan_ModeDetCheck. apply wlp_bind, wlp_bind, wlp_getc. intros k' Hk'. assert (k' = k) as -> by congruence. rewrite Hm. cbn [transition_ok]. rewrite bool_decide_eq_true_2 by done.
  by apply wlp_ret, wlp_ret.
Qed.

(** The answer to a start request says nothing about the chip.  A stopped controller of a
    driver that is initialised and whose transceiver was not asleep: whatever the chip and the
    SPI link answer, also when no transfer succeeds or the chip never leaves its
    initialisation mode, the request returns CAN_OK, the controller counts as started, and the
    last thing CanIf is told is that the controller is started. *)
Theorem tcan_start_unconditional (w w' : W) k c r :
  c < Z.of_nat NUM_CONTROLLER_MAX → DriverState (vars w) ≠ DRV_UNINIT → WasCanTrcvInSleep (vars w) ≠ 1 → aget (ctrls w) c = Some k → ControllerMode k = Some CAN_T_STOP →
  Tcan_SetControllerMode c CAN_T_START w = Some (r, w') →
  r = CAN_OK ∧ (∃ k', aget (ctrls w') c = Some k' ∧ ControllerMode k' = Some CAN_T_START) ∧
  ∃ es, tc_trace w' = tc_trace w ++ es ++ [EvModeIndication c CANIF_CS_STARTED] ∧ Forall (λ e, ¬ mode_event e) es.
Proof.
  intros Hc Hd Hw Hk Hm. apply (wlp_run _ (λ r w', r = CAN_OK ∧ (∃ k', aget (ctrls w') c = Some k' ∧ ControllerMode k' = Some CAN_T_START) ∧
    ∃ es, tc_trace w' = tc_trace w ++ es ++ [EvModeIndication c CANIF_CS_STARTED] ∧ Forall (λ e, ¬ mode_event e) es)).
  unfold Tcan_SetControllerMode. apply wlp_bind. set (v1 := if DEV_ERROR_DETECT then set_apiid SID_SETCONTROLLERMODE (vars w) else vars w). set (w1 := mkTcan v1 (ctrls w) (up w) (tc_trace w)).
  apply wlp_mono with (P := λ _ w2, w2 = w1). { unfold set_api. subst w1 v1. apply wlp_when; intros ->; [by apply wlp_modify | by destruct w]. }
  intros _ ? ->. apply wlp_bind. assert (DriverState v1 = DriverState (vars w) ∧ WasCanTrcvInSleep v1 = WasCanTrcvInSleep (vars w)) as [Ed Ew] by (subst v1; by destruct DEV_ERROR_DETECT).
  eapply wlp_mono; [apply (mode_start_check w1 k); [done | change (DriverState v1 ≠ DRV_UNINIT); by rewrite Ed | done | done]|]. intros ? ? [-> ->]. apply wlp_bind. unfold request_mode. apply wlp_bind, wlp_getc. intros k' Hk'.
  assert (k' = k) as -> by (cbn in Hk'; congruence). rewrite Hm, bool_decide_eq_false_2 by done. cbn [negb]. apply wlp_bind, wlp_gets. cbn [vars w1]. rewrite (proj2 (Z.eqb_neq _ _)) by (by rewrite Ew).
  cbn [when]. apply wlp_bind, wlp_ret, wlp_bind. eapply wlp_mono; [by apply running_ok|]. cbv beta. intros r2 w2 [-> Hq]. destruct Hq as [_ (es & Ht & Hf) _]. cbn [tc_trace w1] in Ht.
  apply wlp_bind, wlp_setc. intros k2 Hk2 Hr2. apply wlp_ret. cbn [fst snd]. apply wlp_bind, wlp_setc. cbn [ctrls]. intros k3 Hk3 Hr3. rewrite aget_insert_eq in Hk3 by done. injection Hk3 as <-.
  apply wlp_bind. unfold mode_indication. apply wlp_bind, wlp_getc. cbn [ctrls]. intros k4 Hk4. rewrite aget_insert_eq in Hk4 by done. injection Hk4 as <-.
  cbn [ControllerIf_State set_mode set_ifstate reported_mode]. apply wlp_bind, wlp_lift. intros m [= <-]. apply wlp_modify, wlp_ret. cbn [ctrls tc_trace vars up]. split; [done|]. split.
  - eexists. rewrite aget_insert_eq by done. done.
  - exists es. rewrite Ht, <-app_assoc. done.
Qed.
End start.

(** A dead link: the start is reported all the same. *)
Definition ex_dead_world : TcanWorld unit := mkTcan (vars ex_tx_world) [set_mode (Some CAN_T_STOP) ex_tx_ctrl] tt [].
Definition ex_dead_after : TcanWorld unit := after_run (Tcan_SetControllerMode 0 CAN_T_START) ex_dead_world.
Lemma ex_dead_ok : fst <$> Tcan_SetControllerMode 0 CAN_T_START ex_dead_world = Some CAN_OK.
Proof. vm_compute. reflexivity. Qed.
Lemma ex_dead_run : Tcan_SetControllerMode 0 CAN_T_START ex_dead_world = Some (CAN_OK, ex_dead_after).
Proof. exact (after_run_eq (Tcan_SetControllerMode 0 CAN_T_START) ex_dead_world CAN_OK ex_dead_ok). Qed.
Lemma ex_dead_trace : tc_trace ex_dead_after = [EvTcanDet SID_SETCONTROLLERMODE DET_INIT_FAILED; EvModeIndication 0 CANIF_CS_STARTED].
Proof. vm_compute. reflexivity. Qed.
Lemma tcan_start_unconditional_witness :
  (∃ k', aget (ctrls ex_dead_after) 0 = Some k' ∧ ControllerMode k' = Some CAN_T_START) ∧ tc_trace ex_dead_after = [EvTcanDet SID_SETCONTROLLERMODE DET_INIT_FAILED; EvModeIndication 0 CANIF_CS_STARTED].
Proof.
  split; [|exact ex_dead_trace].
  exact (proj1 (proj2 (tcan_start_unconditional (HE := dead_env) ex_dead_world ex_dead_after (set_mode (Some CAN_T_STOP) ex_tx_ctrl) 0 CAN_OK
    eq_refl (λ H, ltac:(discriminate H)) (λ H, ltac:(discriminate H)) eq_refl eq_refl ex_dead_run))).
Defined.
