(* ===== verification/TcanStack.v ===== *)
(** * CanIf over the CAN driver

    CanIf calls the driver through function pointers.  [TcanBelow] says that the one for
    writing is the driver's; the theorem follows a transmit request of an upper layer through
    CanIf and the driver into the registers of the chip. *)

From S2P Require Import Prelude ComStack CanIf TcanTypes TcanSpi TcanMCan TcanTraffic Tcan TcanMode TcanExample TcanLink TcanLinkClaims TcanFifo TcanSend TcanWrite.
From stdpp Require Import base list numbers option gmap.

#[local] Open Scope Z_scope.

(** The state below CanIf contains the driver, and its Write behaves as the driver's. *)
Class TcanBelow (X U : Type) {HL : CanIf_Lower X} {HE : Tcan_Env U} := {
  drv : X → TcanWorld U;
  below_write hth pdu x r w : Tcan_Write hth (Some pdu) (drv x) = Some (r, w) → ∃ x', CanTrcv_Write hth pdu x = (r, x') ∧ drv x' = w
}.

Section stack.
Context {X U : Type} {HL : CanIf_Lower X} {HE : Tcan_Env U} {HB : TcanBelow X U}.
Context (c : Z) (cs : ControllerSetting) (limit : Z) (R : Type) {HC : TcanChip c cs limit R}.
Abbreviation CW := (CanIfWorld X).

(** CanIf is ready to transmit the PDU [i], whose identifier and transmit object are configured. *)
Record canif_ready (cw : CW) (i Hth canid : Z) : Prop := {
  cr_range : 0 ≤ i < PduMax;
  cr_voltage : rbdPwrVM_voltage_normal (lower cw) = true;
  cr_mode : aget (CanIfControllerMode (canif cw)) CanIfCtrlId = Some CANIF_CS_STARTED;
  cr_id : aget (CanIfPduCanIdMappingCfg (canif cw)) i = Some canid;
  cr_hth : ∃ h, aget CanIfPduHandleCfg i = Some h ∧ LoHwHandle h = Hth;
  cr_pending : i < lenZ (CanIfPendingTxConfirm (canif cw))
}.

Lemma wp_lower_call {B} (f : X → B * X) r x' (cw : CW) Q : f (lower cw) = (r, x') → Q r (mkCanIfWorld (canif cw) x' (events cw)) → wp (driver f) Q cw.
Proof. intros E HQ. unfold driver. apply wp_bind, wp_gets. rewrite E. by apply wp_bind, wp_modify, wp_ret. Qed.

(** Up to the answer of the driver. *)
Lemma transmit_calls (cw : CW) i Hth canid sdu r w' Q : canif_ready cw i Hth canid → lenZ sdu < 256 →
  Tcan_Write Hth (Some (mkCanPdu i canid (lenZ sdu) (Some sdu))) (drv (lower cw)) = Some (r, w') →
  (∀ x', drv x' = w' → wp (Transmit_result i r) Q (mkCanIfWorld (canif cw) x' (events cw ++ [EvWrite i Hth (mkCanPdu i canid (lenZ sdu) (Some sdu)) r]))) →
  wp (CanIf_Transmit i (Some (mkPduInfo (Some sdu) (lenZ sdu)))) Q cw.
Proof using HB.
  intros [Hr Hvo Hm Hid (h & Hh & <-) _] Hl E HQ. destruct (below_write _ _ _ _ _ E) as (x' & Ex & Hx). unfold CanIf_Transmit. rewrite (proj2 (Z.leb_gt _ _)) by lia. rewrite andb_false_r.
  rewrite (bool_decide_eq_false_2 (Some _ = None)) by done. rewrite andb_false_r. apply wp_bind, wp_gets. rewrite Hvo. cbn [negb]. unfold get_mode. apply wp_bind, wp_bind, wp_gets. eapply wp_lift; [exact Hm|].
  rewrite bool_decide_eq_true_2 by done. apply wp_bind. eapply wp_lift; [done|]. apply wp_bind. unfold Transmit_write. apply wp_bind, wp_gets, wp_bind. eapply wp_lift; [exact Hid|].
  apply wp_bind. eapply wp_lift; [exact Hh|]. cbn [SduLength SduDataPtr]. rewrite u8_small by (pose proof (lenZ_nonneg sdu); lia). apply wp_bind. eapply wp_lower_call; [exact Ex|].
  apply wp_bind, wp_modify, wp_ret. by apply HQ.
Qed.

(** C10. A transmit request through CanIf and the driver.  With the controller started and the
    transmit object configured, a request for a PDU is accepted exactly when a Tx buffer of
    the object is free: then the chip holds an element whose frame carries the identifier
    configured for the PDU and the bytes of the SDU with padding, its transmission is
    requested, the driver remembers the PDU for the confirmation under the marker of the
    element, and CanIf waits for that confirmation.  Otherwise the request is refused, nothing
    waits for a confirmation that did not before, and the chip is as it was. *)
Theorem canif_transmit_on_bus (cw : CW) k i Hth h obj size brs ext fd id sdu :
  canif_ready cw i Hth (can_id ext fd id) → aget (ctrls (drv (lower cw))) c = Some k → tx_setup c cs limit (vars (drv (lower cw))) k Hth h obj size brs → pdu_ok cs ext fd id size sdu →
  ∃ cw' k', aget (ctrls (drv (lower cw'))) c = Some k' ∧
    match first_free (Z.to_nat (CanHwObjectCount obj)) (peek (regs (up (drv (lower cw)))) REG_TXBRP) (CanTxBufferIndex obj) with
    | Some idx => ∃ e0 e1 dw,
        CanIf_Transmit i (Some (mkPduInfo (Some sdu) (lenZ sdu))) cw = Some (E_OK, cw') ∧
        CanIfPendingTxConfirm (canif cw') = <[Z.to_nat i := true]> (CanIfPendingTxConfirm (canif cw)) ∧
        regs (up (drv (lower cw'))) = poke REG_TXBAR (2 ^ idx) (pokes poke (element_at (TX_BUFFER_START_ADDR (RWDev k)) size idx) (e0 :: e1 :: dw) (regs (up (drv (lower cw))))) ∧
        frame_of_tx e0 e1 dw = pdu_frame cs obj ext fd id brs sdu ∧
        aget (Mcan_swPduHandle k') (Z.shiftr (Z.land e1 TX_EVENT_FIFO_ELEMENT_R1_MM) 24) = Some i
    | None =>
        CanIf_Transmit i (Some (mkPduInfo (Some sdu) (lenZ sdu))) cw = Some (E_NOT_OK, cw') ∧
        CanIfPendingTxConfirm (canif cw') = CanIfPendingTxConfirm (canif cw) ∧ regs (up (drv (lower cw'))) = regs (up (drv (lower cw)))
    end.
Proof using HB HC.
  intros Hcr Hk Hset Hp. pose proof (write_sends c cs limit R (drv (lower cw)) k Hth h obj size brs i ext fd id sdu Hk Hset Hp) as H. unfold write_outcome in H.
  pose proof (aget_Some _ _ _ Hk) as Hc. destruct Hset as [_ _ (Ho1 & Ho2 & Ho3 & _) (_ & _ & Hlh & _) Hz]. pose proof (size_range cs size Hz) as Hsz.
  assert (lenZ sdu < 256) as Hl by (pose proof (len_ok_range _ _ (pdu_len_ok cs _ _ _ _ _ Hp ltac:(lia))); lia). destruct (first_free _ _ _) as [idx|] eqn:Ef.
  - destruct H as (b & u & e0 & e1 & dw & E & Hu & Hf & Hmm). apply first_free_range in Ef as [Hi _]; [|done].
    pose proof (transmit_calls cw i Hth (can_id ext fd id) sdu _ _ (λ r cw', r = E_OK ∧ drv (lower cw') = after_write c (drv (lower cw)) (set_buf b (set_pduhandles (<[Z.to_nat idx := i]> (Mcan_swPduHandle k)) k)) u ∧
      CanIfPendingTxConfirm (canif cw') = <[Z.to_nat i := true]> (CanIfPendingTxConfirm (canif cw))) Hcr Hl E) as H.
    apply wp_run in H as (r & cw' & Er & -> & Hd & Hpe); swap 1 2.
    { intros x' Hx. cbn [Transmit_result]. apply wp_bind. unfold set_pending. apply wp_bind, wp_gets, wp_bind. destruct Hcr as [Hr _ _ _ _ Hpn]. eapply wp_lift; [apply aset_is_Some; cbn; lia|]. by apply wp_modify, wp_ret. }
    eexists cw', _. rewrite Hd. split; [cbn [ctrls after_write]; by apply aget_insert_eq|]. exists e0, e1, dw. split_and!; [done..|]. rewrite Hmm. apply aget_insert_eq. lia.
  - destruct H as (b & u & E & Hu).
    pose proof (transmit_calls cw i Hth (can_id ext fd id) sdu _ _ (λ r cw', r = E_NOT_OK ∧ drv (lower cw') = after_write c (drv (lower cw)) (set_buf b k) u ∧
      CanIfPendingTxConfirm (canif cw') = CanIfPendingTxConfirm (canif cw)) Hcr Hl E) as H.
    apply wp_run in H as (r & cw' & Er & -> & Hd & Hpe); [|intros x' Hx; by apply wp_ret].
    eexists cw', _. rewrite Hd. split; [cbn [ctrls after_write]; by apply aget_insert_eq|]. split_and!; done.
Qed.
End stack.

(** ** A node of CanIf and driver, on the example chip *)

(** The state below CanIf is the driver; a call without result leaves it as it is. *)
#[export] Instance tcan_lower : CanIf_Lower (TcanWorld Link) := {|
  CANIF_DEV_ERROR_DETECT := true;
  RBD_PK_BLE_TIMESYNC := true;
  RBD_PK_CPU_CC26xx := true;
  PduIdBits := 16;
  CAN_FD_FRAME_MASK := 0x40000000;
  CanIfPduMax := 1;
  CanIfNumController := 1;
  CanIfNumChannels := 1;
  CanIfCtrlId := 0;
  CanIfTimestampFrequency := 0;
  CanIfPduHandleCfg := [mkHandle 6 0];
  CanIfPduUserCallbackULCfg := [CANIF_CAN_TP];
  FakeTxConfirmPduId := [];
  CanIf_Cfg_SetAnchorCanId := λ l x, (l, x);
  CanTrcv_Write := λ hth pdu w, match Tcan_Write hth (Some pdu) w with Some rw => rw | None => (CAN_NOT_OK, w) end;
  CanTrcv_SetControllerMode := λ c t w, match Tcan_SetControllerMode c t w with Some rw => rw | None => (CAN_NOT_OK, w) end;
  CanTrcv_SetOpMode := λ _ _ x, (E_OK, x);
  CanTrcv_GetOpMode := λ _ x, (E_OK, CANTRCV_TRCVMODE_NORMAL, x);
  CanTrcv_DisableAllInterrupts := None;
  CanTrcv_ClearTXBRP := None;
  CanTrcv_GetCurrentTimeStampCounterValue := λ _, 0;
  CanTrcv_GetCurrentTxTimeStamp := λ _, 0;
  CanSM_ControllerBusOff := λ _ x, x;
  rbdPwrVM_voltage_normal := λ _, true
|}.
#[export] Instance tcan_below : TcanBelow (TcanWorld Link) Link.
Proof. refine {| drv := λ w, w; below_write := _ |}. intros hth pdu x r w E. exists w. cbn [CanTrcv_Write tcan_lower]. by rewrite E. Defined.

Definition ex_stack : CanIfWorld (TcanWorld Link) :=
  mkCanIfWorld (mkCanIf [false] [CANIF_CS_STARTED] [CANTRCV_TRCVMODE_NORMAL] [can_id true true 305419896]) ex_tx_world [].
Lemma ex_stack_ready : canif_ready ex_stack 0 6 (can_id true true 305419896).
Proof. split; [by vm_compute | done | done | done | by exists (mkHandle 6 0) | done]. Qed.
Lemma canif_transmit_on_bus_witness : ∃ cw', CanIf_Transmit 0 (Some (mkPduInfo (Some ex_sdu) 9)) ex_stack = Some (E_OK, cw') ∧ CanIfPendingTxConfirm (canif cw') = [true].
Proof.
  destruct (canif_transmit_on_bus (HB := tcan_below) (HC := ex_chip) 0 (ex_setting INTERRUPT) 3 Chip ex_stack ex_tx_ctrl 0 6 (mkHth 0 0) (mkTxObj 204 2 0 false) 64 true true true 305419896 ex_sdu
    ex_stack_ready eq_refl ex_tx_setup ex_pdu_ok) as (cw' & k' & _ & e0 & e1 & dw & E & Hp & _).
  exists cw'. split; [exact E | exact Hp].
Defined.
